(* ===== verification/_CoqProject ===== *)
-Q . S2P
Prelude.v
Itoa.v
Random.v
Mem.v
Memp.v
Alloc.v
Pbuf.v
PbufData.v
Chksum.v
IpAddr.v
Timers.v
Pins.v
Gpio.v
Wiring.v
Interrupts.v
Startup.v
Analog.v
Shift.v
Refs.v
Net.v
Etharp.v
Wire.v
ArpCache.v
Tivaif.v
Netif.v
Autoip.v
Plist.v
Packet.v
IpOut.v
Pcbs.v
Icmp.v
Raw.v
Udp.v
UdpApi.v
Ip.v
EthInput.v
MacInput.v
SwCrc.v
Emac.v
MacIntr.v
MacLink.v
DnsMsg.v
Dns.v
DnsApi.v
DhcpMsg.v
