(* ===== verification/Prelude.v ===== *)
(** * Verification of the LOGO! 8 Arduino core

    The repository is an Arduino core for the Siemens LOGO! 8.2, whose CPU is a
    TM4C1294 (Cortex-M4, 120 MHz).  It has three layers of C code: the Arduino
    core (cores/tivac) with its pin tables (variants/logo8), the vendor driver
    library (system/driverlib), and the lwIP TCP/IP stack
    (libraries/Ethernet/utility).  Sketches and the C++ classes sit on top.  This
    library models C code of all three layers and proves what it does.  Paths
    below are relative to the root of the sources.

    ** Files

    - [Prelude] (this file): machine integers as [Z] with their wrap-around,
      lists used as C arrays, bits.

    The memory layer of lwIP:

    - [Mem]: the heap of mem.c.  [heap] is the chain of [struct mem] headers in
      the [ram] array; mem_init, mem_malloc, mem_free (with plug_holes),
      mem_trim, mem_calloc.  The invariant [heap_inv] describes the chain by a
      list of blocks; the theorems say which allocations live before and after.
    - [Memp]: the pools of memp.c, free lists threaded through the elements.
    - [Alloc]: the interface of the two to their clients, the type classes
      [alloc_ops], [alloc_laws] and [pool_laws] (a predicate [owns]: the blocks
      handed out), the instance [lwip_mem] made of [Mem] and [Memp], and clients
      that run any sequence of calls.
    - [Pbuf], [PbufData]: pbuf.c.  A store of [struct pbuf], reference counts,
      chains; allocation, release, chaining, header moves, trimming; copying,
      reading and searching the data.  Proved against [alloc_laws].
    - [Chksum]: inet_chksum.c and def.c, the Internet checksum over buffers and
      pbuf chains, and the byte order functions.
    - [IpAddr]: ip_addr.c, text of addresses, netmasks, broadcast addresses.
    - [Timers]: timers.c, the list of timeouts; proved against [pool_laws].

    The protocols of lwIP, from the wire up.  One record [net] has the static
    variables of all of them, and the functions are in a state monad [M] with
    failure; [wp] is total correctness for it.

    - [Refs]: reference counts.  [refs_inv s refs R]: [refs] are the pointers to
      pbufs that some part of the stack keeps, and the counters are exact.
    - [Net]: the state, the monad, [wp], and the driver as the stack sees it
      ([link_ops], [link_laws]); [Wire] is the simplest driver and has the concrete
      states the theorems are evaluated on.
    - [Tivaif]: tiva-tm4c129.c, the driver of the MAC: its DMA rings, transmission
      and the return of sent packets.
    - [Etharp], [ArpCache], [EthInput]: etharp.c: the ARP table ([net_inv] is
      the invariant of the whole stack), the table as an abstract cache, and
      incoming frames, with everything they call.
    - [Netif]: netif.c.  TCP, DHCP and the callbacks are the interface
      [upper_ops]/[upper_laws].
    - [Autoip]: autoip.c, link-local addresses (RFC 3927).
    - [Packet]: access to a packet through a pointer into it ([peek], [poke], with
      the bounds of its buffer) and the rules for a packet that is passed on.
    - [IpOut], [Ip]: ip.c: [ip_route], [ip_output_if], [ip_output]; [ip_input].
    - [Icmp]: icmp.c, echo requests and unreachable messages.
    - [Plist], [Pcbs]: lists of structs linked through memory, and the code that
      udp.c and raw.c share, for any struct with a link ([pcb_kind], [pcb_laws]).
    - [Raw], [Udp]: raw.c and udp.c.  The functions that users register, and
      [tcp_input], are the interface [app_ops]/[app_laws].
    - [UdpApi]: any sequence of the calls of udp.h, as a step relation.
    - [DnsMsg], [Dns], [DnsApi]: dns.c, the resolver: names and answers in a message
      against the encoding of RFC 1035; the table, its timer, questions and
      responses; any sequence of calls.  The functions of the users are the
      interface [dns_app]/[dns_app_laws].
    - [DhcpMsg]: the messages of dhcp.c: dhcp_parse_reply over the pbufs of a reply,
      against the options of RFC 2132, and the options each request writes.

    The Ethernet MAC:

    - [SwCrc]: driverlib/sw_crc.c, the table driven CRCs.
    - [Emac]: driverlib/emac.c, the functions on the registers of the MAC that the
      driver calls, and the hash bits of the filter.  The registers are an
      interface ([emac_hw], with [emac_laws] for what the data sheet says); [board]
      is an instance.
    - [MacInput]: tivaif_receive of tiva-tm4c129.c, with the receive ring.
    - [MacIntr]: tivaif_init and tivaif_interrupt of tiva-tm4c129.c; the transmit
      ring is the interface [tx_ops]/[tx_laws].
    - [MacLink]: the transmit ring of [Tivaif] as an instance of [link_laws] and
      [tx_laws], for every packet, with the references that tivaif_transmit loses
      counted up to a bound, and the whole driver at work, as a step relation.

    The Arduino core:

    - [Itoa], [Random]: itoa.c and random.c.
    - [Pins]: the tables of variants/logo8/pins_energia.h.
    - [Gpio]: the functions of driverlib/gpio.c the core uses, and
      wiring_digital.c.  The port registers are an interface ([gpio_hw] with
      [gpio_laws], the statements of the data sheet the code relies on); [board]
      is an instance.
    - [Shift]: wiring_shift.c and wiring_pulse.c, on the interface of [Gpio].
    - [Interrupts]: WInterrupts.c, callback tables and interrupt handlers.
    - [Wiring]: wiring.c, SysTick time, delays, deep sleep, tick callbacks.
    - [Analog]: wiring_analog.c, PWM and analog input.
    - [Startup]: startup_gcc.c, vector table, reset handler, _sbrk.

    ** Conventions

    A C function becomes a function on an explicit state.  [None] stands for an
    access the C code must not make (an index out of a table, a dangling header
    or pointer), and for fuel that ran out; NULL is the address 0.  The theorems
    state that the code returns ([Some]), so that they include memory safety and
    termination.  Configuration macros are those of the board (lwipopts.h,
    Energia.h, boards.txt); each file names the ones it depends on.

    Fuel: the loops over heap headers, pbuf chains and text take the length of
    what they walk as fuel; the loops over lists of pcbs the number of structs
    and one; [udp_new_port] 0x4001, one more than it has ports; the loops of the
    MAC driver the number of descriptors; those over a name in a message the length of
    the message, and that over DHCP options the bytes of the packet and one (the
    jumps to [again] of dhcp_parse_reply are counted by its user: no number of them
    is enough for some replies); the waits for the MII interface end when
    the hardware is ready, and the theorems say that some fuel is enough and more
    changes nothing; [sys_check_timeouts] needs one step per pending
    timeout and elapsed millisecond, [delayMicroseconds] one read of the counter
    per cycle, [pulseIn] the number of loops its timeout allows.  The theorems
    give these bounds and prove that they are enough.

    The invariant of the stack, [net_inv s extra R], is stated for the references
    [extra] and the memory blocks [R] that the caller holds besides; a bound on
    the length of [extra] (below 50000) keeps the 16-bit reference counters from
    wrapping.

    ** What the theorems show

    - Memory: allocations are aligned, disjoint and inside their area, freeing
      returns exactly one of them and the heap coalesces ([Mem], [Memp], [Alloc]);
      no sequence of calls breaks this.
    - Packets: pbuf operations keep the chains well formed ([tot_len], reference
      counts), do with the data what their names say and touch nothing else, for
      every cut of the data into pbufs; the checksum of a chain is that of its
      data ([Pbuf], [PbufData], [Chksum]).
    - Frames: whatever arrives, [ethernet_input] runs through ARP, IP, ICMP, UDP
      and raw sockets without a bad access, frees the frame exactly once and keeps
      the invariant ([EthInput]; the one exception, an IP header length below 5
      words, is an example in [Ip]).  [ip_input] is equal to a verdict that is a
      function of the header and the interfaces ([Ip]).
    - ARP: the table refines a cache of at most 10 hosts, entries expire, waiting
      packets go out when the answer comes, and [etharp_request] on one host and
      [ethernet_input] on both make two hosts known to each other ([ArpCache],
      [EthInput]).
    - ICMP: an echo request comes back as its reply byte for byte, unreachable
      messages are those of RFC 792 and verify ([Icmp]).
    - UDP: a datagram goes to the pcb that matches best; local ports are apart
      after any sequence of calls; what one host sends with [udp_sendto_if] the
      user of the port on the other host gets, with address and port of the sender
      ([Udp], [UdpApi], [Ip]).
    - Resolver: names round trip through questions; a response gives the entry the
      first address in it; any calls of the users keep the table and the stack in
      order, a name nobody answers for is given up in bounded time, addresses
      expire ([DnsMsg], [Dns], [DnsApi]).
    - DHCP: what a reply says is taken from its options wherever they are cut into
      pbufs, the loop over any options field ends inside the packet, and the
      requests have the options of RFC 2131 ([DhcpMsg]).
    - Driver: packets leave the ring in order, each is given back once, under any
      interleaving with the hardware ([Tivaif]).  Buffers of the receive ring
      belong to nobody else while the hardware has them and are replaced when it has
      filled them; good frames are handed up in order, frames with errors and parts
      of frames are freed ([MacInput]); every interrupt returns, runs the handlers of
      its bits and no other, the MAC follows the speed of the PHY, and the driver and
      the stack together keep their invariants in every order of steps ([MacIntr],
      [MacLink]).  This is for good frames in one receive buffer of 512 bytes: with
      two, [tivaif_receive] makes a packet that reaches beyond its buffers
      ([tivaif_receive_two_buffers]).  Frames with errors are of any length.
    - MAC: what is written to the configuration and the address registers is read
      back, the CRCs are polynomial division, and the hash bits are those of the
      CRC ([Emac], [SwCrc]).
    - Interfaces and addresses: changing an address aborts the right connections
      ([Netif]); AutoIP binds an address in bounded time, defends it or gives way,
      and never leaves 169.254/16 ([Autoip]).
    - Time: timeouts run in order and never early, the list of delays stands for
      the due times ([Timers]); delays are never short, [micros] is monotonic
      across a tick ([Wiring]).
    - Pins: a pin function changes its pin and no other, interrupts reach the
      callback of their pin, bytes go out and come in bit by bit ([Gpio],
      [Interrupts], [Shift]); PWM registers hold the period and duty ([Analog]);
      the reset handler sets up memory ([Startup]).
    - Behaviour that differs from what is meant, most of it as theorems too:
      pbuf_memfind can miss a text, sys_check_timeouts delays pending timeouts,
      etharp_cleanup_netif leaves pending entries, tivaif_transmit leaks a packet
      when memory is out or its length is a multiple of 256 pbufs, a frame of two
      receive buffers gets a wrong length, a change of the duplex mode alone is
      ignored, the CRCs read a byte of an empty buffer at an odd address, AutoIP
      forgets its rate limit after 256 conflicts, ip_input accepts a header that
      is too short, a host name of 255 characters is written past its pbuf,
      responses are compared by a prefix of the name and read behind the buffer, a
      time to live of 0 lasts for 136 years, the table of names fills up when its
      numbers wrap, a DHCP reply with an overload option in the field that holds
      options is parsed for ever and one with a long option there leads to NULL,
      detachInterrupt clears callbacks of other ports, PWM takes over the wrong
      pin in two cases and keeps an old prescaler, the I2C interrupts have no
      handler.

    ** Not modelled

    TCP, and the state machine of the DHCP client (of dhcp.c its messages are in
    [DhcpMsg]): what the modelled code calls of them is an interface with laws.
    The segments of tcp_in.c and tcp_out.c share pbufs with the application, which
    needs an invariant of its own.  ip_frag.c, ip_forward, IGMP and the other parts
    the configuration of lwipopts.h compiles out.  lwiplib.c, which wires the stack to the
    board; pbuf_free_ooseq, which walks the TCP control blocks; reset, time stamps,
    VLAN and power management of the MAC; the C++ classes
    and libraries; the rest of driverlib, which only writes peripheral registers. *)
From Stdlib Require Export ZArith Lia.
From stdpp Require Export base tactics list numbers option gmap.

#[global] Open Scope Z_scope.

(** ** Machine integers

    A C integer of width [w] is a [Z]; [wrap w] is the conversion to the
    unsigned type of that width and [swrap w] the conversion to the signed one
    (two's complement, as the target compiler defines it). *)
Definition wrap (w x : Z) : Z := x mod 2 ^ w.
Definition swrap (w x : Z) : Z := (x + 2 ^ (w - 1)) mod 2 ^ w - 2 ^ (w - 1).

Abbreviation u8 := (wrap 8).
Abbreviation u16 := (wrap 16).
Abbreviation u32 := (wrap 32).
Abbreviation s16 := (swrap 16).
Abbreviation s32 := (swrap 32).

(** The value ranges of the C types. *)
Definition in_u (w x : Z) : Prop := 0 <= x < 2 ^ w.
Definition in_s (w x : Z) : Prop := - 2 ^ (w - 1) <= x < 2 ^ (w - 1).

#[global] Instance in_u_dec w x : Decision (in_u w x).
Proof. unfold in_u. apply _. Defined.
#[global] Instance in_s_dec w x : Decision (in_s w x).
Proof. unfold in_s. apply _. Defined.

Create HintDb cint.

Lemma wrap_range w x : 0 <= w -> in_u w (wrap w x).
Proof. intros. unfold in_u, wrap. apply Z.mod_pos_bound, Z.pow_pos_nonneg; lia. Qed.

Lemma wrap_id w x : in_u w x -> wrap w x = x.
Proof. unfold in_u, wrap. intros. by apply Z.mod_small. Qed.

Lemma swrap_id w x : 0 < w -> in_s w x -> swrap w x = x.
Proof.
  unfold in_s, swrap. intros Hw H.
  assert (2 ^ w = 2 * 2 ^ (w - 1)) as E.
  { rewrite <-Z.pow_succ_r by lia. f_equal. lia. }
  rewrite Z.mod_small; lia.
Qed.

Lemma swrap_range w x : 0 < w -> in_s w (swrap w x).
Proof.
  intros Hw. unfold in_s, swrap.
  assert (2 ^ w = 2 * 2 ^ (w - 1)) as E.
  { rewrite <-Z.pow_succ_r by lia. f_equal. lia. }
  pose proof (Z.mod_pos_bound (x + 2 ^ (w - 1)) (2 ^ w) ltac:(apply Z.pow_pos_nonneg; lia)).
  lia.
Qed.

Lemma wrap_wrap w x : 0 <= w -> wrap w (wrap w x) = wrap w x.
Proof. intros. by apply wrap_id, wrap_range. Qed.

#[export] Hint Resolve wrap_range wrap_id swrap_id swrap_range : cint.

(** Bring the powers of two of the common widths to literals, then [lia]. *)
Ltac cint_pow :=
  change (2 ^ 8) with 256 in *; change (2 ^ 16) with 65536 in *;
  change (2 ^ 32) with 4294967296 in *; change (2 ^ (8 - 1)) with 128 in *;
  change (2 ^ (16 - 1)) with 32768 in *; change (2 ^ (32 - 1)) with 2147483648 in *;
  change (2 ^ 24) with 16777216 in *; change (2 ^ 31) with 2147483648 in *.
Ltac cint := unfold in_u, in_s in *; cint_pow; lia.

(** ** Lists used as C arrays *)

(** [store_at off src dst] writes [src] over [dst] from index [off];
    [None] when the write leaves the array. *)
Definition store_at {A} (off : nat) (src dst : list A) : option (list A) :=
  if decide (off + length src <= length dst)%nat
  then Some (take off dst ++ src ++ drop (off + length src) dst)
  else None.

Lemma store_at_Some {A} off (src dst : list A) :
  (off + length src <= length dst)%nat ->
  store_at off src dst = Some (take off dst ++ src ++ drop (off + length src) dst).
Proof. intros. unfold store_at. by rewrite decide_True. Qed.

Lemma store_at_length {A} off (src dst dst' : list A) :
  store_at off src dst = Some dst' -> length dst' = length dst.
Proof.
  unfold store_at. case_decide; [|done]. intros [= <-].
  rewrite !length_app, length_take, length_drop. lia.
Qed.

Lemma take_split {A} (k n : nat) (l : list A) : (k <= n)%nat ->
  take n l = take k l ++ take (n - k) (drop k l).
Proof.
  intros H. revert n l H. induction k as [|k IH]; intros n l H; [by rewrite Nat.sub_0_r|].
  destruct n as [|n]; [lia|]. destruct l as [|x l]; [cbn; by rewrite take_nil|].
  cbn. f_equal. apply IH. lia.
Qed.

(** ** Bits *)

(** A shifted value and one below the shift share no bit. *)
Lemma lor_shiftl_add a b n : 0 <= n -> 0 <= b < 2 ^ n -> Z.lor (Z.shiftl a n) b = a * 2 ^ n + b.
Proof.
  intros Hn Hb. rewrite <-Z.shiftl_mul_pow2 by done. symmetry. apply Z.add_nocarry_lor.
  apply Z.bits_inj'. intros i Hi. rewrite Z.land_spec, Z.bits_0, Z.shiftl_spec by done.
  destruct (Z.lt_ge_cases i n) as [|Hge].
  - by rewrite Z.testbit_neg_r by lia.
  - rewrite <-(Z.mod_small b (2 ^ n)), Z.mod_pow2_bits_high by lia. apply andb_false_r.
Qed.

Lemma land_ones_mod a n : 0 <= n -> Z.land a (Z.ones n) = a mod 2 ^ n.
Proof. apply Z.land_ones. Qed.
