(* ===== verification/Itoa.v ===== *)
(** * Number formatting of the core

    [Module Itoa] models cores/tivac/itoa.c: the integer-to-text conversions
    behind [Print] and [String].  Characters are their codes; the local array
    [tmp[33]] is the list of the characters written so far together with the
    room that is left in it, and the destination [string] is a buffer of known
    size, so that a write outside either array is the result [None]. *)
From S2P Require Import Prelude.

Module Itoa.

(** ** The conversions *)

(** The character of one digit: [i+'0'] or [i + 'a' - 10]. *)
Definition digit_char (i : Z) : Z :=
  if i <? 10 then u8 (i + 48) else u8 (i + 97 - 10).

(** [while (v || tp == tmp) *tp++ = ...]: [tmp] holds the characters written,
    [room] the bytes of the array that are left. *)
Fixpoint radix_loop (room : nat) (v radix : Z) (tmp : list Z) : option (list Z) :=
  if bool_decide (v ≠ 0) || bool_decide (tmp = []) then
    match room with
    | O => None
    | S room' => radix_loop room' (v / radix) radix (tmp ++ [digit_char (v mod radix)])
    end
  else Some tmp.

Definition sizeof_tmp : nat := 33.

(** The result of a conversion: [None] for a write outside an array, [Some
    None] for the return value 0, [Some (Some b)] when [string] is returned
    with the contents [b]. *)
Definition conversion : Type := option (option (list Z)).

Definition ltoa (value : Z) (string : option (list Z)) (radix : Z) : conversion :=
  match string with
  | None => Some None
  | Some buf =>
      if (36 <? radix) || (radix <=? 1) then Some None
      else
        let sign := (radix =? 10) && (value <? 0) in
        let v := if sign then u32 (- value) else u32 value in
        tmp ← radix_loop sizeof_tmp v radix [];
        buf' ← store_at 0 ((if sign then [45] else []) ++ rev tmp ++ [0]) buf;
        Some (Some buf')
  end.

Definition itoa (value : Z) (string : option (list Z)) (radix : Z) : conversion :=
  ltoa value string radix.

Definition ultoa (value : Z) (string : option (list Z)) (radix : Z) : conversion :=
  match string with
  | None => Some None
  | Some buf =>
      if (36 <? radix) || (radix <=? 1) then Some None
      else
        tmp ← radix_loop sizeof_tmp value radix [];
        buf' ← store_at 0 (rev tmp ++ [0]) buf;
        Some (Some buf')
  end.

(** ** Reference: reading a number back *)

Definition digit_value (c : Z) : option Z :=
  if (48 <=? c) && (c <=? 57) then Some (c - 48)
  else if (97 <=? c) && (c <=? 122) then Some (c - 87)
  else None.

Fixpoint parse_digits (radix acc : Z) (s : list Z) : option Z :=
  match s with
  | [] => Some acc
  | c :: s' =>
      d ← digit_value c;
      if d <? radix then parse_digits radix (acc * radix + d) s' else None
  end.

Definition parse_number (radix : Z) (s : list Z) : option Z :=
  match s with
  | [] => None
  | c :: s' =>
      if c =? 45
      then match s' with [] => None | _ => Z.opp <$> parse_digits radix 0 s' end
      else parse_digits radix 0 s
  end.

(** ** Digits *)

Lemma digit_char_value i :
  0 <= i < 36 -> digit_value (digit_char i) = Some i.
Proof.
  intros. unfold digit_char, digit_value.
  destruct (Z.ltb_spec i 10); rewrite wrap_id by cint;
    repeat case_match; solve [f_equal; lia | lia].
Qed.

Lemma digit_char_range i : 0 <= i < 36 -> 48 <= digit_char i.
Proof. 
  intros. unfold digit_char.
  destruct (Z.ltb_spec i 10); rewrite wrap_id by cint; lia.
 Qed.

Lemma parse_digits_snoc radix acc s c d x :
  parse_digits radix acc s = Some x -> digit_value c = Some d -> d < radix ->
  parse_digits radix acc (s ++ [c]) = Some (x * radix + d).
Proof.
  revert acc. induction s as [|c' s IH]; simpl; intros acc Hs Hc Hd.
  - simplify_eq. rewrite Hc. simpl. by rewrite (proj2 (Z.ltb_lt _ _) Hd).
  - destruct (digit_value c'); simpl in *; [|done]. case_match; [|done]. eauto.
Qed.

(** With room for [n] digits the loop stops within the array on every
    [v < radix ^ n], and adds the digits of [v], least significant first. *)
Lemma radix_loop_run radix room : 2 <= radix <= 36 -> forall v tmp,
  0 <= v < radix ^ Z.of_nat room -> tmp ≠ [] ->
  exists ds, radix_loop room v radix tmp = Some (tmp ++ ds) /\
    parse_digits radix 0 (rev ds) = Some v /\
    Forall (fun c => 48 <= c) ds /\ (length ds <= room)%nat.
Proof.
  intros Hr. induction room as [|room IH]; intros v tmp Hv Ht.
  - change (Z.of_nat 0) with 0 in Hv. rewrite Z.pow_0_r in Hv.
    assert (v = 0) as -> by lia.
    exists []. rewrite app_nil_r. simpl.
    rewrite (bool_decide_eq_false_2 (tmp = [])) by done. auto with lia.
  - simpl. destruct (decide (v = 0)) as [->|Hv0].
    + exists []. rewrite app_nil_r.
      rewrite (bool_decide_eq_false_2 (tmp = [])) by done. simpl. auto with lia.
    + rewrite (bool_decide_eq_true_2 (v ≠ 0)) by done. simpl.
      assert (0 <= v / radix < radix ^ Z.of_nat room) as Hq.
      { split; [apply Z.div_pos; lia|]. apply Z.div_lt_upper_bound; [lia|].
        rewrite <-Z.pow_succ_r, <-Nat2Z.inj_succ by lia. apply Hv. }
      pose proof (Z.mod_pos_bound v radix ltac:(lia)) as Hm.
      destruct (IH _ (tmp ++ [digit_char (v mod radix)]) Hq) as (ds & E & P & F & L).
      { by destruct tmp. }
      exists (digit_char (v mod radix) :: ds). rewrite E, <-app_assoc. simpl.
      split; [done|]. split.
      * erewrite parse_digits_snoc; [| exact P | apply digit_char_value; lia | lia].
        f_equal. pose proof (Z.div_mod v radix ltac:(lia)). lia.
      * split; [constructor; [apply digit_char_range; lia | done] | lia].
Qed.

(** The first iteration always runs: [tp == tmp]. *)
Lemma radix_loop_first room v radix :
  radix_loop (S room) v radix [] = radix_loop room (v / radix) radix [digit_char (v mod radix)].
Proof. simpl. by rewrite orb_true_r. Qed.

Lemma radix_loop_start radix v : 2 <= radix <= 36 -> in_u 32 v ->
  exists ds, radix_loop sizeof_tmp v radix [] = Some ds /\
    parse_digits radix 0 (rev ds) = Some v /\ rev ds ≠ [] /\
    Forall (fun c => 48 <= c) ds /\ (length ds <= 33)%nat.
Proof.
  intros Hr Hv. unfold sizeof_tmp. rewrite radix_loop_first.
  pose proof (Z.mod_pos_bound v radix ltac:(lia)) as Hm.
  assert (0 <= v / radix < radix ^ Z.of_nat 32) as Hq.
  { split; [apply Z.div_pos; cint|].
    apply Z.le_lt_trans with v; [apply Z.div_le_upper_bound; [lia|destruct Hv; nia]|].
    apply Z.lt_le_trans with (2 ^ 32); [apply Hv|].
    apply Z.pow_le_mono_l. lia. }
  destruct (radix_loop_run radix 32 Hr (v / radix) [digit_char (v mod radix)] Hq)
    as (ds & E & P & F & L); [done|].
  eexists; split; [exact E|]. simpl rev.
  split; [|split; [by destruct (rev ds)|split; [constructor; [apply digit_char_range; lia|done]|simpl; lia]]].
  erewrite parse_digits_snoc; [| exact P | apply digit_char_value; lia | lia].
  f_equal. pose proof (Z.div_mod v radix ltac:(lia)). lia.
Qed.

(** What [store_at] leaves of a destination of at least 34 bytes. *)
Lemma store_text s buf : (length s <= 34)%nat -> (35 <= length buf)%nat ->
  store_at 0 (s ++ [0]) buf = Some (s ++ 0 :: drop (S (length s)) buf).
Proof.
  intros. rewrite store_at_Some by (rewrite length_app; simpl; lia).
  rewrite take_0, length_app. simpl. rewrite <-app_assoc. simpl.
  do 3 f_equal. by rewrite Nat.add_comm.
Qed.

(** on every 32-bit [value], every radix from 2 to 36 and a destination of
    35 bytes, [ltoa] stays inside [tmp[33]] and the destination, and leaves a
    NUL-terminated text without inner NUL that reads back, in that radix, as
    the number: the signed value in radix 10, its unsigned pattern otherwise. *)
Theorem ltoa_roundtrip value radix buf :
  in_s 32 value -> 2 <= radix <= 36 -> (35 <= length buf)%nat ->
  exists s, ltoa value (Some buf) radix = Some (Some (s ++ 0 :: drop (S (length s)) buf)) /\
    parse_number radix s = Some (if radix =? 10 then value else u32 value) /\
    Forall (fun c => c ≠ 0) s.
Proof.
  intros Hv Hr Hb. unfold ltoa.
  rewrite (proj2 (Z.ltb_ge 36 radix)), (proj2 (Z.leb_gt radix 1)) by lia. simpl orb.
  set (sign := (radix =? 10) && (value <? 0)). cbv zeta.
  set (v := if sign then u32 (- value) else u32 value).
  assert (in_u 32 v) as Hu by (unfold v; destruct sign; apply wrap_range; lia).
  destruct (radix_loop_start radix v Hr Hu) as (ds & -> & P & Hne & F & L). simpl mbind.
  rewrite app_assoc, store_text; [|rewrite length_app, length_rev; destruct sign; simpl; lia|done].
  eexists; split; [reflexivity|]. split.
  - assert (exists c r, rev ds = c :: r /\ c ≠ 45) as (c & r & E & Hc).
    { apply Forall_rev in F. destruct (rev ds) eqn:E; [|inversion F; subst; eauto with lia].
      done. }
    rewrite E in *. unfold sign, v in *.
    destruct (Z.eqb_spec radix 10) as [->|], (Z.ltb_spec value 0); simpl in *.
    + rewrite P. simpl. f_equal. rewrite wrap_id; cint.
    + rewrite (proj2 (Z.eqb_neq c 45)) by done. rewrite P. f_equal. apply wrap_id; cint.
    + by rewrite (proj2 (Z.eqb_neq c 45)).
    + by rewrite (proj2 (Z.eqb_neq c 45)).
  - apply Forall_app; split; [destruct sign; repeat constructor; lia|].
    apply Forall_rev. eapply Forall_impl; [exact F|]. simpl. lia.
Qed.

Lemma ltoa_roundtrip_witness :
  exists s, ltoa (-2147483648) (Some (replicate 35 7)) 10
              = Some (Some (s ++ 0 :: drop (S (length s)) (replicate 35 7))) /\
    parse_number 10 s = Some (if 10 =? 10 then -2147483648 else u32 (-2147483648)) /\
    Forall (fun c => c ≠ 0) s.
Proof.
  apply ltoa_roundtrip; [split; vm_compute; congruence | lia | vm_compute; lia].
Defined.

(** [ultoa] does the same for the unsigned value in every radix. *)
Theorem ultoa_roundtrip value radix buf :
  in_u 32 value -> 2 <= radix <= 36 -> (35 <= length buf)%nat ->
  exists s, ultoa value (Some buf) radix = Some (Some (s ++ 0 :: drop (S (length s)) buf)) /\
    parse_number radix s = Some value /\ Forall (fun c => c ≠ 0) s.
Proof.
  intros Hv Hr Hb. unfold ultoa.
  rewrite (proj2 (Z.ltb_ge 36 radix)), (proj2 (Z.leb_gt radix 1)) by lia. simpl orb. cbv iota.
  destruct (radix_loop_start radix value Hr Hv) as (ds & -> & P & Hne & F & L). simpl mbind.
  rewrite store_text by (rewrite ?length_rev; lia).
  eexists; split; [reflexivity|]. apply Forall_rev in F.
  destruct (rev ds) as [|c r] eqn:E; [done|].
  inversion F as [|?? Hc Hr']; subst. split.
  - unfold parse_number. by rewrite (proj2 (Z.eqb_neq c 45)) by lia.
  - constructor; [lia|]. eapply Forall_impl; [exact Hr'|]. simpl. lia.
Qed.

Lemma ultoa_roundtrip_witness :
  exists s, ultoa 4294967295 (Some (replicate 35 7)) 2
              = Some (Some (s ++ 0 :: drop (S (length s)) (replicate 35 7))) /\
    parse_number 2 s = Some 4294967295 /\ Forall (fun c => c ≠ 0) s.
Proof.
  apply ultoa_roundtrip; [split; vm_compute; congruence | lia | vm_compute; lia].
Defined.

End Itoa.
