(* ===== verification/Random.v ===== *)
(** * Pseudo-random numbers of the core

    [Module Random] models cores/tivac/random.c, the Park-Miller generator
    behind [random()].  [long] and [unsigned long] are 32 bits wide on the
    target; the context [*ctx] is an unsigned 32-bit number and [x] its
    conversion to a signed one.  C division truncates, hence [Z.quot] and
    [Z.rem]. *)
From S2P Require Import Prelude.

Module Random.

Definition RANDOM_MAX : Z := 0x7FFFFFFF.

(** [do_random(ctx)]: the returned value and the new context. *)
Definition do_random (ctx : Z) : Z * Z :=
  let x := s32 ctx in
  let x := if x =? 0 then 123459876 else x in
  let hi := x ÷ 127773 in
  let lo := Z.rem x 127773 in
  let x := s32 (s32 (16807 * lo) - s32 (2836 * hi)) in
  let x := if x <? 0 then s32 (x + 0x7fffffff) else x in
  let ctx := u32 x in
  (s32 (ctx mod u32 (RANDOM_MAX + 1)), ctx).

Definition random_r (ctx : Z) : Z * Z := do_random ctx.

(** The static [next] is the state; [random()] and [srandom(seed)] step it. *)
Definition next_init : Z := 1.
Definition random (next : Z) : Z * Z := do_random next.
Definition srandom (seed : Z) (_next : Z) : Z := u32 seed.

(** ** Reference: the minimal standard generator *)

Definition modulus : Z := 2147483647.
Definition lehmer (x : Z) : Z := (16807 * x) mod modulus.

(** Schrage's decomposition computes the product without leaving 32 bits. *)
Lemma schrage x : 0 <= x <= modulus ->
  let y := 16807 * Z.rem x 127773 - 2836 * (x ÷ 127773) in
  -2147483648 < y < 2147483647 /\
  (if y <? 0 then y + 2147483647 else y) = lehmer x.
Proof.
  intros Hx y. unfold modulus in *.
  assert (y = 16807 * (x mod 127773) - 2836 * (x / 127773)) as Hy.
  { unfold y. rewrite Z.rem_mod_nonneg, Z.quot_div_nonneg by lia. done. }
  pose proof (Z.mod_pos_bound x 127773 ltac:(lia)) as Hm.
  pose proof (Z.div_mod x 127773 ltac:(lia)) as Hd.
  assert (0 <= x / 127773 <= 16807) as Hq.
  { split; [apply Z.div_pos; lia|].
    change 16807 with (2147483647 / 127773). apply Z.div_le_mono; lia. }
  clearbody y. subst y.
  set (q := x / 127773) in *. set (r := x mod 127773) in *.
  split; [lia|]. unfold lehmer, modulus.
  destruct (Z.ltb_spec (16807 * r - 2836 * q) 0).
  - apply Z.mod_unique with (q - 1); lia.
  - apply Z.mod_unique with q; lia.
Qed.

(** The step on a context in the generator's range. *)
Lemma do_random_step ctx : 0 < ctx <= modulus ->
  do_random ctx = (lehmer ctx, lehmer ctx).
Proof.
  intros Hc. unfold do_random.
  rewrite (swrap_id 32 ctx) by (unfold modulus in *; cint).
  rewrite (proj2 (Z.eqb_neq ctx 0)) by lia.
  destruct (schrage ctx ltac:(lia)) as [Hb He].
  set (y := 16807 * Z.rem ctx 127773 - 2836 * (ctx ÷ 127773)) in *.
  assert (s32 (s32 (16807 * Z.rem ctx 127773) - s32 (2836 * (ctx ÷ 127773))) = y) as ->.
  { unfold modulus in *.
    assert (0 <= Z.rem ctx 127773 < 127773) by (apply Z.rem_bound_pos; lia).
    assert (0 <= ctx ÷ 127773 <= 16807).
    { split; [apply Z.quot_pos; lia|].
      change 16807 with (2147483647 ÷ 127773). apply Z.quot_le_mono; lia. }
    rewrite (swrap_id 32 (16807 * _)), (swrap_id 32 (2836 * _)) by cint.
    apply swrap_id; cint. }
  assert ((if y <? 0 then s32 (y + 2147483647) else y) = lehmer ctx) as Hl.
  { rewrite <-He. destruct (Z.ltb_spec y 0); [|done]. apply swrap_id; cint. }
  change 0x7fffffff with 2147483647. rewrite Hl.
  pose proof (Z.mod_pos_bound (16807 * ctx) modulus ltac:(done)) as Hr.
  change (_ mod modulus) with (lehmer ctx) in Hr. unfold modulus in *.
  rewrite (wrap_id 32 (lehmer ctx)) by cint.
  change (u32 (RANDOM_MAX + 1)) with 2147483648.
  rewrite Z.mod_small by lia. by rewrite swrap_id by cint.
Qed.

(** 16807 is invertible modulo the prime 2^31-1, so the step is injective. *)
Lemma lehmer_inverse x : 0 <= x < modulus -> (1407677000 * lehmer x) mod modulus = x.
Proof.
  intros. unfold lehmer. rewrite Z.mul_mod_idemp_r, Z.mul_assoc by done.
  rewrite <-Z.mul_mod_idemp_l by done.
  change ((1407677000 * 16807) mod modulus) with 1.
  rewrite Z.mul_1_l. by apply Z.mod_small.
Qed.

Lemma lehmer_range x : 0 < x < modulus -> 0 < lehmer x < modulus.
Proof.
  intros Hx. pose proof (Z.mod_pos_bound (16807 * x) modulus ltac:(done)) as Hr.
  change (_ mod modulus) with (lehmer x) in Hr.
  assert (lehmer x ≠ 0); [|lia].
  intros E. pose proof (lehmer_inverse x ltac:(lia)) as I.
  rewrite E in I. change ((1407677000 * 0) mod modulus) with 0 in I. lia.
Qed.

(** seeded with any number from 1 to 2^31-2, [random()] returns, with no
    overflow of the 32-bit intermediate values, the minimal standard
    generator's next value 16807*x mod (2^31-1); the value is again in that
    range, and two different states never step to the same one. *)
Theorem random_minimal_standard x : 0 < x < modulus ->
  random x = (lehmer x, lehmer x) /\ 0 < lehmer x < modulus /\
  (forall y, 0 < y < modulus -> snd (random y) = snd (random x) -> y = x).
Proof.
  intros Hx. unfold random. rewrite do_random_step by lia.
  split; [done|]. split; [by apply lehmer_range|].
  intros y Hy. rewrite do_random_step by lia. simpl. intros E.
  rewrite <-(lehmer_inverse y), <-(lehmer_inverse x) by lia. by rewrite E.
Qed.

Lemma random_minimal_standard_witness :
  random next_init = (lehmer 1, lehmer 1) /\ 0 < lehmer 1 < modulus /\
  (forall y, 0 < y < modulus -> snd (random y) = snd (random 1) -> y = 1).
Proof. apply (random_minimal_standard 1). unfold modulus; lia. Defined.

End Random.
