(* ===== verification/Mem.v ===== *)
(** * The lwIP heap (libraries/Ethernet/utility/mem.c)

    The heap [ram_heap] is a sequence of blocks, each headed by a [struct mem]
    whose [next] and [prev] are offsets from [ram].  The model keeps the
    headers in a map from offsets to records; a header that has been absorbed
    into a neighbour stays in the map, as its bytes stay in memory.  Pointers
    the functions take and return are absolute addresses (0 is NULL), pointers
    to headers are offsets from [ram].  A dereference of an offset that holds
    no header is the result [None].

    Configuration (lwip/lwipopts.h, lwip/opt.h): MEM_SIZE is 64K, hence
    [mem_size_t] is 32 bits; MEM_ALIGNMENT is 4; MEM_USE_POOLS and
    LWIP_ALLOW_MEM_FREE_FROM_OTHER_CONTEXT are 0; NO_SYS is 1, so the mutex
    calls are empty; MEM_STATS is 1; LWIP_NOASSERT is defined, so that
    LWIP_ASSERT is empty. *)
From S2P Require Import Prelude.

Module Mem.

(** ** Configuration *)

Definition MEM_ALIGNMENT : Z := 4.
Definition MEM_SIZE : Z := 64 * 1024.
(** [(((size) + MEM_ALIGNMENT - 1) & ~(MEM_ALIGNMENT-1))] on [mem_size_t]. *)
Definition LWIP_MEM_ALIGN_SIZE (size : Z) : Z :=
  Z.land (u32 (size + MEM_ALIGNMENT - 1)) (u32 (Z.lnot (MEM_ALIGNMENT - 1))).
Definition sizeof_struct_mem : Z := 12.
Definition MIN_SIZE : Z := 12.
Definition MIN_SIZE_ALIGNED : Z := LWIP_MEM_ALIGN_SIZE MIN_SIZE.
Definition SIZEOF_STRUCT_MEM : Z := LWIP_MEM_ALIGN_SIZE sizeof_struct_mem.
Definition MEM_SIZE_ALIGNED : Z := LWIP_MEM_ALIGN_SIZE MEM_SIZE.

(** ** State *)

(** [struct mem] *)
Record mem := mk_mem { next : Z; prev : Z; used : Z }.

(** [struct stats_mem] of lwip/stats.h *)
Record stats_mem := mk_stats {
  st_avail : Z; st_used : Z; st_max : Z; st_err : Z; st_illegal : Z }.

(** The statics of mem.c: the aligned base [ram], the headers, the lowest free
    block [lfree]; [ram_end] is always at [MEM_SIZE_ALIGNED]. *)
Record heap := mk_heap {
  ram : Z; blocks : gmap Z mem; lfree : Z; stats : stats_mem }.

Definition ram_end : Z := MEM_SIZE_ALIGNED.

Definition set_blocks (b : gmap Z mem) (h : heap) : heap :=
  mk_heap (ram h) b (lfree h) (stats h).
Definition set_lfree (l : Z) (h : heap) : heap :=
  mk_heap (ram h) (blocks h) l (stats h).
Definition set_stats (f : stats_mem -> stats_mem) (h : heap) : heap :=
  mk_heap (ram h) (blocks h) (lfree h) (f (stats h)).

(** A read, and an update, of the header at offset [o]. *)
Definition hdr (o : Z) (h : heap) : option mem := blocks h !! o.
Definition upd_hdr (o : Z) (f : mem -> mem) (h : heap) : option heap :=
  m ← hdr o h; Some (set_blocks (<[o := f m]> (blocks h)) h).
(** All three fields of a fresh header are written. *)
Definition put_hdr (o : Z) (m : mem) (h : heap) : heap :=
  set_blocks (<[o := m]> (blocks h)) h.

Definition set_next (n : Z) (m : mem) : mem := mk_mem n (prev m) (used m).
Definition set_prev (p : Z) (m : mem) : mem := mk_mem (next m) p (used m).
Definition set_used (u : Z) (m : mem) : mem := mk_mem (next m) (prev m) u.

Definition MEM_STATS_INC_USED (y : Z) (s : stats_mem) : stats_mem :=
  let u := u32 (st_used s + y) in
  mk_stats (st_avail s) u (if st_max s <? u then u else st_max s) (st_err s) (st_illegal s).
Definition MEM_STATS_DEC_USED (y : Z) (s : stats_mem) : stats_mem :=
  mk_stats (st_avail s) (u32 (st_used s - y)) (st_max s) (st_err s) (st_illegal s).
Definition MEM_STATS_INC_err (s : stats_mem) : stats_mem :=
  mk_stats (st_avail s) (st_used s) (st_max s) (u16 (st_err s + 1)) (st_illegal s).
Definition MEM_STATS_INC_illegal (s : stats_mem) : stats_mem :=
  mk_stats (st_avail s) (st_used s) (st_max s) (st_err s) (u16 (st_illegal s + 1)).

(** ** Operations *)

(** plug hole forward: combine [mem] with the block after it *)
Definition plug_forward (mem : Z) (h : heap) : option heap :=
  m ← hdr mem h;
  let nmem := next m in
  n ← hdr nmem h;
  if bool_decide (mem ≠ nmem) && (used n =? 0) && bool_decide (nmem ≠ ram_end) then
    let h := if bool_decide (lfree h = nmem) then set_lfree mem h else h in
    h ← upd_hdr mem (set_next (next n)) h;
    upd_hdr (next n) (set_prev mem) h
  else Some h.

(** plug hole backward: combine [mem] with the block before it *)
Definition plug_backward (mem : Z) (h : heap) : option heap :=
  m ← hdr mem h;
  let pmem := prev m in
  p ← hdr pmem h;
  if bool_decide (pmem ≠ mem) && (used p =? 0) then
    let h := if bool_decide (lfree h = mem) then set_lfree pmem h else h in
    h ← upd_hdr pmem (set_next (next m)) h;
    upd_hdr (next m) (set_prev pmem) h
  else Some h.

Definition plug_holes (mem : Z) (h : heap) : option heap :=
  h ← plug_forward mem h; plug_backward mem h.

(** [LWIP_MEM_ALIGN(addr)] *)
Definition LWIP_MEM_ALIGN (addr : Z) : Z :=
  Z.land (u32 (addr + MEM_ALIGNMENT - 1)) (u32 (Z.lnot (MEM_ALIGNMENT - 1))).

(** [mem_init]: [heap_pointer] is LWIP_RAM_HEAP_POINTER; the counters start
    from what the statistics hold. *)
Definition mem_init (heap_pointer : Z) (s : stats_mem) : heap :=
  mk_heap (LWIP_MEM_ALIGN heap_pointer)
    (<[ram_end := mk_mem MEM_SIZE_ALIGNED MEM_SIZE_ALIGNED 1]>
      (<[0 := mk_mem MEM_SIZE_ALIGNED 0 0]> ∅))
    0
    (mk_stats MEM_SIZE_ALIGNED (st_used s) (st_max s) (st_err s) (st_illegal s)).

Definition mem_free (rmem : Z) (h : heap) : option heap :=
  if rmem =? 0 then Some h
  else if (rmem <? ram h) || (ram h + ram_end <=? rmem) then
    Some (set_stats MEM_STATS_INC_illegal h)
  else
    let mem := rmem - SIZEOF_STRUCT_MEM - ram h in
    h ← upd_hdr mem (set_used 0) h;
    let h := if mem <? lfree h then set_lfree mem h else h in
    m ← hdr mem h;
    let h := set_stats (MEM_STATS_DEC_USED (u32 (next m - mem))) h in
    plug_holes mem h.

(** [newsize] as [mem_trim] and [mem_malloc] adjust it. *)
Definition adjust_size (size : Z) : Z :=
  let size := LWIP_MEM_ALIGN_SIZE size in
  if size <? MIN_SIZE_ALIGNED then MIN_SIZE_ALIGNED else size.

(** The returned pointer (0 for NULL) and the heap. *)
Definition mem_trim (rmem newsize : Z) (h : heap) : option (Z * heap) :=
  let newsize := adjust_size newsize in
  if MEM_SIZE_ALIGNED <? newsize then Some (0, h)
  else if (rmem <? ram h) || (ram h + ram_end <=? rmem) then
    Some (rmem, set_stats MEM_STATS_INC_illegal h)
  else
    let mem := rmem - SIZEOF_STRUCT_MEM - ram h in
    let ptr := u32 mem in
    m ← hdr mem h;
    let size := u32 (next m - ptr - SIZEOF_STRUCT_MEM) in
    if size <? newsize then Some (0, h)
    else if newsize =? size then Some (rmem, h)
    else
      let mem2 := next m in
      m2 ← hdr mem2 h;
      if used m2 =? 0 then
        let nxt := next m2 in
        let ptr2 := u32 (ptr + SIZEOF_STRUCT_MEM + newsize) in
        let h := if bool_decide (lfree h = mem2) then set_lfree ptr2 h else h in
        let h := put_hdr ptr2 (mk_mem nxt ptr 0) h in
        h ← upd_hdr mem (set_next ptr2) h;
        h ← (if bool_decide (nxt ≠ MEM_SIZE_ALIGNED) then upd_hdr nxt (set_prev ptr2) h
             else Some h);
        Some (rmem, set_stats (MEM_STATS_DEC_USED (u32 (size - newsize))) h)
      else if u32 (newsize + SIZEOF_STRUCT_MEM + MIN_SIZE_ALIGNED) <=? size then
        let ptr2 := u32 (ptr + SIZEOF_STRUCT_MEM + newsize) in
        let h := if ptr2 <? lfree h then set_lfree ptr2 h else h in
        let h := put_hdr ptr2 (mk_mem (next m) ptr 0) h in
        h ← upd_hdr mem (set_next ptr2) h;
        h ← (if bool_decide (next m ≠ MEM_SIZE_ALIGNED) then upd_hdr (next m) (set_prev ptr2) h
             else Some h);
        Some (rmem, set_stats (MEM_STATS_DEC_USED (u32 (size - newsize))) h)
      else Some (rmem, h).

(** The search [for (ptr = lfree; ptr < MEM_SIZE_ALIGNED - size; ptr = next)]:
    the first free block whose data area holds [size] bytes.  Every block is
    visited at most once; the bound is the number of bytes of the heap. *)
Fixpoint find_block (fuel : nat) (ptr size : Z) (h : heap) : option (option Z) :=
  if ptr <? u32 (MEM_SIZE_ALIGNED - size) then
    match fuel with
    | O => None
    | S fuel =>
        m ← hdr ptr h;
        if (used m =? 0) && (size <=? u32 (next m - u32 (ptr + SIZEOF_STRUCT_MEM)))
        then Some (Some ptr)
        else find_block fuel (next m) size h
    end
  else Some None.

(** [while (cur->used && cur != ram_end) cur = &ram[cur->next];] *)
Fixpoint next_free (fuel : nat) (cur : Z) (h : heap) : option Z :=
  m ← hdr cur h;
  if negb (used m =? 0) && bool_decide (cur ≠ ram_end) then
    match fuel with O => None | S fuel => next_free fuel (next m) h end
  else Some cur.

Definition heap_fuel : nat := Z.to_nat MEM_SIZE_ALIGNED.

(** Taking the block at [ptr] for [size] bytes: split it when the remainder
    holds another header with MIN_SIZE_ALIGNED bytes, else use all of it. *)
Definition malloc_take (ptr size : Z) (h : heap) : option heap :=
  m ← hdr ptr h;
  if u32 (size + SIZEOF_STRUCT_MEM + MIN_SIZE_ALIGNED)
       <=? u32 (next m - u32 (ptr + SIZEOF_STRUCT_MEM)) then
    let ptr2 := u32 (ptr + SIZEOF_STRUCT_MEM + size) in
    let h := put_hdr ptr2 (mk_mem (next m) ptr 0) h in
    h ← upd_hdr ptr (fun m => set_used 1 (set_next ptr2 m)) h;
    h ← (if bool_decide (next m ≠ MEM_SIZE_ALIGNED)
         then upd_hdr (next m) (set_prev ptr2) h else Some h);
    Some (set_stats (MEM_STATS_INC_USED (u32 (size + SIZEOF_STRUCT_MEM))) h)
  else
    h ← upd_hdr ptr (set_used 1) h;
    Some (set_stats (MEM_STATS_INC_USED (u32 (next m - ptr))) h).

(** [if (mem == lfree) ...]: move [lfree] to the next unused block. *)
Definition malloc_adjust_lfree (ptr : Z) (h : heap) : option heap :=
  if bool_decide (ptr = lfree h) then
    cur ← next_free heap_fuel (lfree h) h; Some (set_lfree cur h)
  else Some h.

(** The returned pointer (0 for NULL) and the heap. *)
Definition mem_malloc (size : Z) (h : heap) : option (Z * heap) :=
  if size =? 0 then Some (0, h)
  else
    let size := adjust_size size in
    if MEM_SIZE_ALIGNED <? size then Some (0, h)
    else
      found ← find_block heap_fuel (lfree h) size h;
      match found with
      | None => Some (0, set_stats MEM_STATS_INC_err h)
      | Some ptr =>
          h ← malloc_take ptr size h;
          h ← malloc_adjust_lfree ptr h;
          Some (ram h + ptr + SIZEOF_STRUCT_MEM, h)
      end.

(** [mem_calloc]: the pointer and the heap, with the number of bytes that
    [memset] clears at the pointer. *)
Definition mem_calloc (count size : Z) (h : heap) : option (Z * Z * heap) :=
  '(p, h) ← mem_malloc (u32 (count * size)) h;
  Some (p, if p =? 0 then 0 else u32 (count * size), h).

(** ** The heap as a list of blocks *)

(** A block: its header's offset, the offset after it, and whether it is used. *)
Record blk := mk_blk { b_off : Z; b_next : Z; b_used : bool }.

Definition used_flag (u : bool) : Z := if u then 1 else 0.

(** [lseg b p o l p' o']: from offset [o], whose predecessor is [p], the headers
    in [b] describe exactly the blocks [l], and lead to offset [o'] with
    predecessor [p'].  Every block has room for its header and MIN_SIZE_ALIGNED
    bytes of data, and ends at an aligned offset. *)
Fixpoint lseg (b : gmap Z mem) (p o : Z) (l : list blk) (p' o' : Z) : Prop :=
  match l with
  | [] => p = p' /\ o = o'
  | k :: l =>
      b_off k = o /\ b !! o = Some (mk_mem (b_next k) p (used_flag (b_used k))) /\
      o + 24 <= b_next k /\ b_next k mod 4 = 0 /\ lseg b o (b_next k) l p' o'
  end.

(** The offset of the first unused block, [ram_end] when there is none. *)
Fixpoint first_free (l : list blk) : Z :=
  match l with
  | [] => ram_end
  | k :: l => if b_used k then first_free l else b_off k
  end.

(** No unused block is followed by an unused block. *)
Fixpoint merged (l : list blk) : Prop :=
  match l with
  | k :: (k' :: _) as l' => (b_used k || b_used k') = true /\ merged l'
  | _ => True
  end.

Definition used_bytes (l : list blk) : Z :=
  foldr (fun k n => (if b_used k then b_next k - b_off k else 0) + n) 0 l.

Record heap_inv (h : heap) (l : list blk) : Prop := {
  inv_chain : exists p, lseg (blocks h) 0 0 l p ram_end;
  inv_end : exists p, blocks h !! ram_end = Some (mk_mem ram_end p 1);
  inv_merged : merged l;
  inv_lfree : lfree h = first_free l;
  inv_ram : 0 < ram h /\ ram h mod 4 = 0 /\ ram h + ram_end < 2 ^ 32;
  inv_used : st_used (stats h) = used_bytes l }.

(** The live allocations: address of the data and its size. *)
Definition allocs (ram : Z) (l : list blk) : list (Z * Z) :=
  (fun k => (ram + b_off k + SIZEOF_STRUCT_MEM, b_next k - b_off k - SIZEOF_STRUCT_MEM))
    <$> filter (fun k => b_used k = true) l.

(** First fit: the lowest unused block whose data area holds [size] bytes. *)
Fixpoint first_fit (size : Z) (l : list blk) : option Z :=
  match l with
  | [] => None
  | k :: l =>
      if negb (b_used k) && (size <=? b_next k - b_off k - SIZEOF_STRUCT_MEM)
      then Some (b_off k) else first_fit size l
  end.

(** ** Segments *)

Lemma const_end : ram_end = 65536. Proof. reflexivity. Qed.
Lemma const_sizeof : SIZEOF_STRUCT_MEM = 12. Proof. reflexivity. Qed.
Lemma const_min : MIN_SIZE_ALIGNED = 12. Proof. reflexivity. Qed.
Lemma const_size : MEM_SIZE_ALIGNED = 65536. Proof. reflexivity. Qed.
Ltac consts := rewrite ?const_end, ?const_sizeof, ?const_min, ?const_size in *.

Lemma lseg_app b l1 l2 : forall p o p' o',
  lseg b p o (l1 ++ l2) p' o' <->
  exists p1 o1, lseg b p o l1 p1 o1 /\ lseg b p1 o1 l2 p' o'.
Proof.
  induction l1 as [|k l1 IH]; simpl; intros p o p' o'.
  - split; [eauto|]. by intros (? & ? & [-> ->] & ?).
  - rewrite IH. firstorder.
Qed.

Lemma lseg_le b l : forall p o p' o',
  lseg b p o l p' o' -> o + 24 * Z.of_nat (length l) <= o'.
Proof.
  induction l as [|k l IH]; cbn [lseg length]; intros p o p' o' H; [lia|].
  destruct H as (_ & _ & ? & _ & H). apply IH in H. lia.
Qed.

Lemma lseg_frame b b' l : forall p o p' o',
  lseg b p o l p' o' -> (forall x, o <= x < o' -> b' !! x = b !! x) ->
  lseg b' p o l p' o'.
Proof.
  induction l as [|k l IH]; cbn [lseg]; intros p o p' o' H F; [done|].
  destruct H as (? & E & ? & ? & H). pose proof (lseg_le _ _ _ _ _ _ H).
  rewrite F by lia. repeat (split; [done|]). eapply IH; [done|].
  intros. apply F. lia.
Qed.

(** Changing the predecessor of the first block of a segment. *)
Lemma lseg_relink b b' q l p o p' o' :
  lseg b p o l p' o' ->
  (l ≠ [] -> b' !! o = set_prev q <$> b !! o) ->
  (forall x, o < x < o' -> b' !! x = b !! x) ->
  exists p'', lseg b' q o l p'' o'.
Proof.
  destruct l as [|k l]; cbn [lseg]; [firstorder eauto|].
  intros (? & E & ? & ? & H) R F. exists p'.
  rewrite R, E by done. repeat (split; [done|]).
  pose proof (lseg_le _ _ _ _ _ _ H).
  eapply lseg_frame; [done|]. intros. apply F. lia.
Qed.

Lemma lseg_offsets b l : forall p o p' o' k,
  lseg b p o l p' o' -> k ∈ l -> o <= b_off k /\ b_next k <= o' /\ b_off k + 24 <= b_next k.
Proof.
  induction l as [|k0 l IH]; cbn [lseg]; intros p o p' o' k H Hk; [set_solver|].
  destruct H as (? & E & ? & ? & H). pose proof (lseg_le _ _ _ _ _ _ H).
  apply elem_of_cons in Hk as [->|Hk]; [lia|]. destruct (IH _ _ _ _ _ H Hk). lia.
Qed.

(** What a chain says about one of its blocks. *)
Lemma lseg_mid b l1 k l2 p o p' o' :
  lseg b p o (l1 ++ k :: l2) p' o' ->
  exists p1, lseg b p o l1 p1 (b_off k) /\
    b !! b_off k = Some (mk_mem (b_next k) p1 (used_flag (b_used k))) /\
    b_off k + 24 <= b_next k /\ b_next k mod 4 = 0 /\
    lseg b (b_off k) (b_next k) l2 p' o'.
Proof.
  intros (p1 & o1 & H1 & H2)%lseg_app. cbn [lseg] in H2.
  destruct H2 as (<- & ? & ? & ? & ?). eauto 10.
Qed.

Lemma lseg_head b l p o p' o' : lseg b p o l p' o' -> l ≠ [] ->
  exists k l', l = k :: l' /\ b_off k = o.
Proof. destruct l; [done|]. cbn [lseg]. intros (? & _) _. eauto. Qed.

(** ** Searching *)

Lemma first_free_split b l : forall p o p',
  lseg b p o l p' ram_end ->
  exists l1 l2 p1, l = l1 ++ l2 /\ Forall (fun k => b_used k = true) l1 /\
    lseg b p o l1 p1 (first_free l) /\ lseg b p1 (first_free l) l2 p' ram_end /\
    first_free l2 = first_free l.
Proof.
  induction l as [|k l IH]; cbn [lseg first_free]; intros p o p' H.
  - destruct H as [-> ->]. exists [], [], p'. by simpl.
  - destruct (b_used k) eqn:U.
    + destruct H as (? & E & ? & ? & H). destruct (IH _ _ _ H) as (l1 & l2 & p1 & -> & ? & S1 & ? & ?).
      exists (k :: l1), l2, p1. cbn [lseg]. rewrite U. eauto 15.
    + exists [], (k :: l), p. cbn [app lseg first_free]. rewrite U.
      destruct H as (? & ? & ?). subst. eauto 12.
Qed.

Lemma first_fit_skip_used size l1 l2 :
  Forall (fun k => b_used k = true) l1 -> first_fit size (l1 ++ l2) = first_fit size l2.
Proof. induction 1 as [|k l1 Hk _ IH]; simpl; [done|]. by rewrite Hk. Qed.

Lemma u32_id x : 0 <= x < 4294967296 -> u32 x = x.
Proof. intros. apply wrap_id. cint. Qed.

Lemma first_fit_none size b l : forall p o p',
  lseg b p o l p' ram_end -> ram_end < o + size + 12 -> first_fit size l = None.
Proof.
  induction l as [|k l IH]; cbn [lseg first_fit]; intros p o p' H Hs; [done|].
  destruct H as (-> & E & ? & ? & H). pose proof (lseg_le _ _ _ _ _ _ H).
  rewrite (proj2 (Z.leb_gt size _)), andb_false_r by (consts; lia).
  eapply IH; [done|]. lia.
Qed.

Lemma find_block_spec size h fuel : 12 <= size <= 65536 -> forall l p o p',
  lseg (blocks h) p o l p' ram_end -> 0 <= o -> (length l <= fuel)%nat ->
  find_block fuel o size h = Some (first_fit size l).
Proof.
  intros Hs. induction fuel as [|fuel IH]; intros l p o p' H Ho Hl; cbn [find_block];
    consts; rewrite (u32_id (65536 - size)) by lia;
    destruct (Z.ltb_spec o (65536 - size)) as [Hlt|Hge];
    try (f_equal; symmetry; eapply first_fit_none; [exact H|consts; lia]);
    destruct l as [|k l]; cbn [lseg length] in *; try lia.
  destruct H as (<- & E & ? & ? & H). pose proof (lseg_le _ _ _ _ _ _ H). consts.
  unfold hdr. rewrite E. cbn [mbind option_bind used next first_fit].
  rewrite (u32_id (b_off k + 12)), u32_id by (consts; lia). consts.
  replace (b_next k - (b_off k + 12)) with (b_next k - b_off k - 12) by lia.
  assert ((used_flag (b_used k) =? 0) = negb (b_used k)) as -> by by destruct (b_used k).
  case_match; [done|]. eapply IH; [exact H|lia|lia].
Qed.

Lemma next_free_spec h fuel : forall l p o p' e,
  lseg (blocks h) p o l p' ram_end -> blocks h !! ram_end = Some (mk_mem ram_end e 1) ->
  (length l <= fuel)%nat -> next_free fuel o h = Some (first_free l).
Proof.
  induction fuel as [|fuel IH]; intros l p o p' e H He Hl; cbn [next_free];
    destruct l as [|k l]; cbn [lseg length first_free] in *; try lia.
  1,2: destruct H as [_ ->]; unfold hdr; rewrite He; cbn [mbind option_bind used];
       by rewrite (bool_decide_eq_false_2 (ram_end ≠ ram_end)), andb_false_r by tauto.
  destruct H as (<- & E & ? & ? & H). pose proof (lseg_le _ _ _ _ _ _ H).
  unfold hdr. rewrite E. cbn [mbind option_bind used next].
  destruct (b_used k); [|done]. simpl.
  rewrite bool_decide_eq_true_2 by lia. eauto with lia.
Qed.

Lemma chain_fuel b l p o p' : lseg b p o l p' ram_end -> 0 <= o -> (length l <= heap_fuel)%nat.
Proof. intros H ?. apply lseg_le in H. unfold heap_fuel. consts. lia. Qed.

(** [adjust_size] rounds up to the alignment; it wraps only on the last three
    values of [mem_size_t]. *)
Lemma align_size_spec n : 0 <= n < 4294967293 ->
  LWIP_MEM_ALIGN_SIZE n = (n + 3) / 4 * 4.
Proof.
  intros. unfold LWIP_MEM_ALIGN_SIZE, MEM_ALIGNMENT.
  change (u32 (Z.lnot (4 - 1))) with (Z.shiftl (Z.ones 30) 2).
  rewrite u32_id by lia. replace (n + 4 - 1) with (n + 3) by lia.
  rewrite <-(Z.shiftl_mul_pow2 _ 2), <-(Z.shiftr_div_pow2 _ 2) by lia.
  apply Z.bits_inj'. intros i Hi. rewrite Z.land_spec.
  destruct (Z.ltb_spec i 2).
  - rewrite !(Z.shiftl_spec_low _ 2 i) by lia. apply andb_false_r.
  - rewrite !Z.shiftl_spec, Z.shiftr_spec by lia. replace (i - 2 + 2) with i by lia.
    destruct (Z.ltb_spec i 32).
    + rewrite Z.ones_spec_low by lia. apply andb_true_r.
    + rewrite Z.ones_spec_high, andb_false_r by lia.
      symmetry. rewrite <-(Z.mod_small (n + 3) (2 ^ 32)) by lia.
      apply Z.mod_pow2_bits_high. lia.
Qed.

Lemma adjust_size_spec n : 0 <= n < 4294967293 ->
  n <= adjust_size n /\ 12 <= adjust_size n < 4294967296 /\ adjust_size n mod 4 = 0 /\
  adjust_size n <= Z.max 12 (n + 3).
Proof.
  intros. unfold adjust_size. rewrite align_size_spec by lia. consts.
  pose proof (Z.div_mod (n + 3) 4 ltac:(lia)). pose proof (Z.mod_pos_bound (n + 3) 4 ltac:(lia)).
  destruct (Z.ltb_spec ((n + 3) / 4 * 4) 12); [split; [lia|split; [lia|split; [done|lia]]]|].
  rewrite Z.mod_mul by lia. lia.
Qed.

(** ** Lists of blocks *)

(** Whether the last block of [l1] may be followed by the first of [l2]. *)
Definition junction (l1 l2 : list blk) : Prop :=
  match last l1, head l2 with
  | Some k, Some k' => (b_used k || b_used k') = true
  | _, _ => True
  end.

Lemma merged_app l1 l2 : merged (l1 ++ l2) <-> merged l1 /\ merged l2 /\ junction l1 l2.
Proof.
  unfold junction. induction l1 as [|k l1 IH]; [simpl; tauto|].
  destruct l1 as [|k' l1].
  - destruct l2; simpl; tauto.
  - change (merged ((k :: k' :: l1) ++ l2))
      with ((b_used k || b_used k') = true /\ merged ((k' :: l1) ++ l2)).
    rewrite IH. change (last (k :: k' :: l1)) with (last (k' :: l1)).
    change (merged (k :: k' :: l1)) with ((b_used k || b_used k') = true /\ merged (k' :: l1)).
    tauto.
Qed.

Lemma first_free_app l1 l2 :
  first_free (l1 ++ l2) =
    if bool_decide (Forall (fun k => b_used k = true) l1) then first_free l2 else first_free l1.
Proof.
  induction l1 as [|k l1 IH]; [done|]. simpl. rewrite IH.
  destruct (b_used k) eqn:U.
  - rewrite (bool_decide_ext (Forall _ (k :: l1)) (Forall (fun k => b_used k = true) l1));
      [done|]. rewrite Forall_cons. tauto.
  - rewrite bool_decide_eq_false_2; [done|]. intros [F _]%Forall_cons. congruence.
Qed.

Lemma first_free_lt b l p o p' o' :
  lseg b p o l p' o' -> ~ Forall (fun k => b_used k = true) l -> first_free l < o'.
Proof.
  revert p o. induction l as [|k l IH]; cbn [lseg first_free]; intros p o H F; [by destruct F|].
  destruct H as (? & E & ? & ? & H). pose proof (lseg_le _ _ _ _ _ _ H).
  destruct (b_used k) eqn:U; [|lia]. eapply IH; [exact H|]. intros F'. apply F. by constructor.
Qed.

Lemma used_bytes_app l1 l2 : used_bytes (l1 ++ l2) = used_bytes l1 + used_bytes l2.
Proof. unfold used_bytes. induction l1; simpl; lia. Qed.

Lemma used_bytes_le b l : forall p o p' o',
  lseg b p o l p' o' -> 0 <= used_bytes l <= o' - o.
Proof.
  unfold used_bytes. induction l as [|k l IH]; cbn [lseg foldr]; intros p o p' o' H; [lia|].
  destruct H as (<- & E & ? & ? & H). apply IH in H. destruct (b_used k); lia.
Qed.

Lemma first_fit_elem size l off : first_fit size l = Some off ->
  exists l1 k l2, l = l1 ++ k :: l2 /\ b_off k = off /\ b_used k = false /\
    size <= b_next k - b_off k - SIZEOF_STRUCT_MEM.
Proof.
  induction l as [|k l IH]; simpl; [done|].
  destruct (b_used k) eqn:U; simpl.
  - intros (l1 & k' & l2 & -> & ?)%IH. by exists (k :: l1), k', l2.
  - destruct (Z.leb_spec size (b_next k - b_off k - SIZEOF_STRUCT_MEM)).
    + intros [= <-]. by exists [], k, l.
    + intros (l1 & k' & l2 & -> & ?)%IH. by exists (k :: l1), k', l2.
Qed.

(** ** Symbolic execution of header reads and writes *)

Ltac lookups :=
  repeat first
    [ rewrite lookup_insert_eq
    | rewrite lookup_insert_ne by (first [done | lia | congruence]) ].
Ltac hstep :=
  unfold upd_hdr, put_hdr, hdr;
  cbn [mbind option_bind set_blocks set_lfree set_stats blocks lfree stats ram
       next prev used set_next set_prev set_used fmap option_fmap option_map];
  lookups.

(** Two segments and what lies between them make the new chain. *)
Lemma chain_glue b l1 mid l2 p1 o1 p2 o2 p3 :
  lseg b 0 0 l1 p1 o1 -> lseg b p1 o1 mid p2 o2 -> lseg b p2 o2 l2 p3 ram_end ->
  exists p, lseg b 0 0 (l1 ++ mid ++ l2) p ram_end.
Proof.
  intros. exists p3. apply lseg_app. exists p1, o1. split; [done|].
  apply lseg_app. eauto.
Qed.

(** ** Allocation *)

(** What allocating [n] bytes in the unused block [k] makes of it. *)
Definition take_block (n : Z) (k : blk) : list blk :=
  if n + 24 <=? b_next k - b_off k - 12
  then [mk_blk (b_off k) (b_off k + 12 + n) true; mk_blk (b_off k + 12 + n) (b_next k) false]
  else [mk_blk (b_off k) (b_next k) true].

(** The invariant without what [plug_holes] and the move of [lfree] restore. *)
Record heap_shape (h : heap) (l : list blk) : Prop := {
  shape_chain : exists p, lseg (blocks h) 0 0 l p ram_end;
  shape_end : exists p, blocks h !! ram_end = Some (mk_mem ram_end p 1);
  shape_ram : 0 < ram h /\ ram h mod 4 = 0 /\ ram h + ram_end < 2 ^ 32;
  shape_used : st_used (stats h) = used_bytes l }.

Lemma heap_inv_shape h l :
  heap_inv h l <-> heap_shape h l /\ merged l /\ lfree h = first_free l.
Proof. split; [intros []; split; [split|]; done|]. intros [[] [? ?]]. by split. Qed.

Lemma used_flag_eqb u : (used_flag u =? 0) = negb u.
Proof. by destruct u. Qed.

(** Where a segment that leads to the end starts with a header. *)
Lemma lseg_first_hdr b p o l p' : lseg b p o l p' ram_end -> o ≠ ram_end ->
  exists m, b !! o = Some m.
Proof. destruct l; cbn [lseg]; [by intros []|]. intros (_ & -> & _). eauto. Qed.

(** Splitting a block in two, as [malloc_take] and [mem_trim] relink it. *)
Lemma chain_split b b' l1 o nx l2 p1 r p3 q :
  lseg b 0 0 l1 p1 o -> lseg b r nx l2 p3 ram_end ->
  o + 24 <= q -> q + 24 <= nx -> q mod 4 = 0 -> nx mod 4 = 0 ->
  b' !! o = Some (mk_mem q p1 1) -> b' !! q = Some (mk_mem nx o 0) ->
  (nx ≠ ram_end -> b' !! nx = set_prev q <$> b !! nx) ->
  (forall x, x ≠ o -> x ≠ q -> x ≠ nx -> b' !! x = b !! x) ->
  exists p, lseg b' 0 0 (l1 ++ [mk_blk o q true; mk_blk q nx false] ++ l2) p ram_end.
Proof.
  intros H1 H2 ? ? ? ? Eo Eq En Ex. pose proof (lseg_le _ _ _ _ _ _ H2).
  destruct (lseg_relink b b' q l2 _ _ _ _ H2) as [p4 HR].
  { intros Hl. apply En. destruct (lseg_head _ _ _ _ _ _ H2 Hl) as (k' & l' & -> & E).
    cbn [length] in *. consts; lia. }
  { intros x ?. apply Ex; lia. }
  eapply (chain_glue _ _ _ _ p1 o q nx p4); [|cbn [lseg b_off b_next]|exact HR].
  - eapply lseg_frame; [exact H1|]. intros x ?. apply Ex; lia.
  - by rewrite Eo, Eq.
Qed.

(** Marking a block without moving its boundaries. *)
Lemma chain_mark b b' l1 k l2 p1 p3 u :
  lseg b 0 0 l1 p1 (b_off k) -> lseg b (b_off k) (b_next k) l2 p3 ram_end ->
  b_off k + 24 <= b_next k -> b_next k mod 4 = 0 ->
  b' !! b_off k = Some (mk_mem (b_next k) p1 (used_flag u)) ->
  (forall x, x ≠ b_off k -> b' !! x = b !! x) ->
  exists p, lseg b' 0 0 (l1 ++ [mk_blk (b_off k) (b_next k) u] ++ l2) p ram_end.
Proof.
  intros H1 H2 ? ? Eo Ex.
  eapply (chain_glue _ _ _ _ p1 (b_off k) (b_off k) (b_next k) p3); cbn [lseg b_off b_next].
  - eapply lseg_frame; [exact H1|]. intros x ?. apply Ex; lia.
  - by rewrite Eo.
  - eapply lseg_frame; [exact H2|]. intros x ?. apply Ex; lia.
Qed.

Lemma merged_take l1 k l2 n : b_used k = false ->
  merged (l1 ++ k :: l2) -> merged (l1 ++ take_block n k ++ l2).
Proof.
  intros Hk. change (k :: l2) with ([k] ++ l2). rewrite !merged_app. unfold take_block, junction.
  rewrite !head_app. simpl. rewrite Hk. intros (? & (_ & ? & J) & J1).
  destruct (n + 24 <=? b_next k - b_off k - 12); simpl; destruct (last l1), l2; simpl in *;
    rewrite ?orb_true_r; tauto.
Qed.

Lemma used_bytes_take l1 k l2 n : b_used k = false ->
  used_bytes (l1 ++ take_block n k ++ l2) =
  used_bytes (l1 ++ k :: l2)
  + (if n + 24 <=? b_next k - b_off k - 12 then n + 12 else b_next k - b_off k).
Proof.
  intros Hk. rewrite !used_bytes_app. unfold take_block, used_bytes.
  destruct (n + 24 <=? b_next k - b_off k - 12); simpl; rewrite Hk; lia.
Qed.

(** [if (next != MEM_SIZE_ALIGNED) ram[next]->prev = q] *)
Lemma relink_run b h q o l p p' :
  lseg b p o l p' ram_end -> (o ≠ ram_end -> blocks h !! o = b !! o) ->
  exists b', (if bool_decide (o ≠ MEM_SIZE_ALIGNED) then upd_hdr o (set_prev q) h else Some h)
               = Some (set_blocks b' h) /\
    (o ≠ ram_end -> b' !! o = set_prev q <$> b !! o) /\
    (forall x, x ≠ o \/ x = ram_end -> b' !! x = blocks h !! x).
Proof.
  intros H E. destruct (decide (o = ram_end)) as [->|Ho].
  - exists (blocks h). rewrite bool_decide_eq_false_2 by (intros []; done).
    split; [by destruct h|]. done.
  - rewrite bool_decide_eq_true_2 by done.
    destruct (lseg_first_hdr _ _ _ _ _ H Ho) as [m Em]. specialize (E Ho).
    unfold upd_hdr, hdr. rewrite E, Em. simpl. eexists; split; [reflexivity|].
    split; intros; [by rewrite lookup_insert_eq|]. rewrite lookup_insert_ne; [done|].
    destruct H0; congruence.
Qed.

Lemma malloc_take_spec h l1 k l2 n :
  heap_shape h (l1 ++ k :: l2) -> b_used k = false ->
  12 <= n -> n mod 4 = 0 -> n <= b_next k - b_off k - 12 -> b_off k mod 4 = 0 ->
  exists h', malloc_take (b_off k) n h = Some h' /\
    heap_shape h' (l1 ++ take_block n k ++ l2) /\ lfree h' = lfree h /\ ram h' = ram h.
Proof.
  intros [[p Hc] [e He] Hr Hu] Hk Hn Hn4 Hfit Ho4.
  pose proof (used_bytes_take l1 k l2 n Hk) as Hu'.
  pose proof (used_bytes_le _ _ _ _ _ _ Hc) as Hb.
  apply lseg_mid in Hc as (p1 & H1 & Eo & ? & ? & H2).
  pose proof (lseg_le _ _ _ _ _ _ H1). pose proof (lseg_le _ _ _ _ _ _ H2).
  unfold malloc_take, take_block in *. hstep. rewrite Eo. hstep. consts.
  rewrite (u32_id (n + 12 + 12)), (u32_id (b_off k + 12)), !u32_id by lia.
  replace (n + 12 + 12) with (n + 24) by lia.
  replace (b_next k - (b_off k + 12)) with (b_next k - b_off k - 12) by lia.
  destruct (Z.leb_spec (n + 24) (b_next k - b_off k - 12)).
  - rewrite lookup_insert_ne by lia. rewrite Eo. cbn [mbind option_bind].
    set (q := b_off k + 12 + n) in *. set (hA := set_blocks _ _).
    destruct (relink_run (blocks h) hA q (b_next k) l2 _ _ H2) as (b' & Er & En & Ex).
    { intros. unfold hA. hstep. done. }
    unfold upd_hdr, hdr in Er. consts. rewrite Er. cbn [mbind option_bind].
    eexists; split; [reflexivity|]. split; [|done].
    assert (q mod 4 = 0) by (unfold q; Z.div_mod_to_equations; lia).
    split; cbn [set_stats set_blocks blocks ram stats]; [ | | done |].
    + eapply (chain_split (blocks h)); eauto; try (unfold q; lia); intros;
        rewrite Ex by (consts; unfold q in *; lia); unfold hA, q; hstep; done.
    + exists e. rewrite Ex by auto. unfold hA, q. consts. hstep. done.
    + unfold MEM_STATS_INC_USED, hA. cbn [set_blocks stats st_used].
      rewrite Hu', Hu. apply u32_id. lia.
  - eexists; split; [reflexivity|]. split; [|done].
    split; cbn [set_stats set_blocks blocks ram stats]; [ | | done |].
    + eapply (chain_mark (blocks h)); eauto; intros; hstep; done.
    + exists e. consts. hstep. done.
    + unfold MEM_STATS_INC_USED. cbn [st_used]. rewrite Hu', Hu. apply u32_id. lia.
Qed.

Lemma lseg_aligned b l : forall p o p' o',
  lseg b p o l p' o' -> o mod 4 = 0 -> o' mod 4 = 0.
Proof.
  induction l as [|k l IH]; cbn [lseg]; intros p o p' o' H Ho; [by destruct H; subst|].
  destruct H as (_ & _ & _ & ? & H). eauto.
Qed.

Lemma malloc_adjust_spec h l1 k mid l2 :
  heap_shape h (l1 ++ mid ++ l2) -> b_used k = false ->
  (exists k' mid', mid = k' :: mid' /\ b_off k' = b_off k) ->
  lfree h = first_free (l1 ++ k :: l2) -> merged (l1 ++ mid ++ l2) ->
  exists h', malloc_adjust_lfree (b_off k) h = Some h' /\
    heap_inv h' (l1 ++ mid ++ l2) /\ ram h' = ram h.
Proof.
  intros Hs Hk (k' & mid' & -> & Ek) Hl Hm. destruct (Hs) as [[p Hc] [e He] _ _].
  unfold malloc_adjust_lfree. rewrite Hl, first_free_app. cbn [first_free]. rewrite Hk.
  simpl in Hc. apply lseg_mid in Hc as (p1 & H1 & Eo & ? & ? & H2). rewrite Ek in *.
  destruct (decide (Forall (fun k => b_used k = true) l1)) as [F|F];
    [rewrite (bool_decide_eq_true_2 _ F)|rewrite (bool_decide_eq_false_2 _ F)].
  - rewrite bool_decide_eq_true_2 by done.
    assert (lseg (blocks h) p1 (b_off k) ((k' :: mid') ++ l2) p ram_end) as H3
      by (cbn [app lseg]; auto).
    erewrite next_free_spec; [|exact H3|exact He|].
    2: { eapply chain_fuel; [exact H3|]. apply lseg_le in H1. lia. }
    simpl mbind. eexists; split; [reflexivity|]. split; [|done]. apply heap_inv_shape.
    split; [destruct Hs; by split|]. split; [done|]. cbn [set_lfree lfree].
    by rewrite (first_free_app l1), (bool_decide_eq_true_2 _ F).
  - pose proof (first_free_lt _ _ _ _ _ _ H1 F).
    rewrite bool_decide_eq_false_2 by lia. eexists; split; [reflexivity|]. split; [|done].
    apply heap_inv_shape. split; [done|]. split; [done|]. rewrite Hl.
    by rewrite !(first_free_app l1), !(bool_decide_eq_false_2 _ F).
Qed.

(** [mem_malloc] is first fit: it takes the lowest unused block that holds the
    adjusted size, and fails only when there is none. *)
Lemma mem_malloc_first_fit h l size : heap_inv h l -> 0 < size < 4294967293 ->
  match first_fit (adjust_size size) l with
  | None => exists s, (forall x, st_used (s x) = st_used x) /\
      mem_malloc size h = Some (0, set_stats s h)
  | Some off => exists h' l1 k l2, l = l1 ++ k :: l2 /\ b_off k = off /\ b_used k = false /\
      adjust_size size <= b_next k - b_off k - 12 /\
      mem_malloc size h = Some (ram h + off + 12, h') /\ ram h' = ram h /\
      heap_inv h' (l1 ++ take_block (adjust_size size) k ++ l2)
  end.
Proof.
  intros Hi Hs. destruct (adjust_size_spec size ltac:(lia)) as (? & ? & Ha & _).
  set (n := adjust_size size) in *. apply heap_inv_shape in Hi as (Hsh & Hm & Hl).
  destruct (Hsh) as [[p Hc] _ _ _].
  unfold mem_malloc. rewrite (proj2 (Z.eqb_neq size 0)) by lia. fold n. cbv zeta.
  destruct (Z.ltb_spec MEM_SIZE_ALIGNED n) as [Hbig|Hle].
  { rewrite (first_fit_none n _ _ _ _ _ Hc) by (consts; lia).
    exists id. split; [done|]. by destruct h. }
  destruct (first_free_split _ _ _ _ _ Hc) as (la & lb & pa & El & Fa & Sa & Sb & _).
  rewrite Hl, (find_block_spec n h heap_fuel ltac:(consts; lia) lb _ _ _ Sb).
  2: { apply lseg_le in Sa. lia. } 2: { eapply chain_fuel; [exact Sb|]. apply lseg_le in Sa. lia. }
  rewrite <-(first_fit_skip_used n la lb Fa), <-El. cbn [mbind option_bind].
  destruct (first_fit n l) as [off|] eqn:Hf; [|by exists MEM_STATS_INC_err].
  apply first_fit_elem in Hf as (l1 & k & l2 & -> & <- & Hk & Hfit). consts.
  assert (b_off k mod 4 = 0) as Ho4.
  { apply lseg_mid in Hc as (? & Hc & _). by eapply lseg_aligned in Hc. }
  destruct (malloc_take_spec h l1 k l2 n) as (h1 & E1 & S1 & L1 & R1); try done; [lia|].
  rewrite E1. cbn [mbind option_bind].
  destruct (malloc_adjust_spec h1 l1 k (take_block n k) l2) as (h2 & E2 & I2 & R2); try done.
  { unfold take_block. case_match; eauto. } { by rewrite L1. } { by apply merged_take. }
  rewrite E2. cbn [mbind option_bind]. exists h2, l1, k, l2. rewrite R2, R1. done.
Qed.

(** ** Freeing *)

(** What [plug_holes] makes of an unused block [k] between [l1] and [l2]. *)
Definition absorb_next (k : blk) (l2 : list blk) : list blk :=
  match l2 with
  | n :: l2' => if b_used n then k :: l2 else mk_blk (b_off k) (b_next n) false :: l2'
  | [] => [k]
  end.
Definition absorb_prev (l1 : list blk) (k : blk) (l2 : list blk) : list blk :=
  match last l1 with
  | Some p => if b_used p then l1 ++ k :: l2
              else removelast l1 ++ mk_blk (b_off p) (b_next k) false :: l2
  | None => k :: l2
  end.
Definition free_block (l1 : list blk) (k : blk) (l2 : list blk) : list blk :=
  match absorb_next (mk_blk (b_off k) (b_next k) false) l2 with
  | k' :: l2' => absorb_prev l1 k' l2'
  | [] => l1
  end.

Lemma first_free_ge b l : forall p o p', lseg b p o l p' ram_end -> o <= first_free l.
Proof.
  induction l as [|k l IH]; cbn [lseg first_free]; intros p o p' H; [lia|].
  destruct H as (-> & E & ? & ? & H). apply IH in H. destruct (b_used k); lia.
Qed.

Lemma lseg_last b l p : forall o p0 p' o',
  lseg b p0 o (l ++ [p]) p' o' -> p' = b_off p /\ o' = b_next p.
Proof.
  intros o p0 p' o' (p1 & o1 & _ & H)%lseg_app. cbn [lseg] in H.
  destruct H as (<- & _ & _ & _ & <- & <-). done.
Qed.

(** Two neighbours combined, whatever header follows them. *)
Lemma chain_merge b b' l1 k n l2 p1 p3 :
  lseg b 0 0 l1 p1 (b_off k) -> b !! b_off k = Some (mk_mem (b_next k) p1 0) ->
  b_off k + 24 <= b_next k -> b_off n = b_next k -> b_off n + 24 <= b_next n ->
  b_next n mod 4 = 0 -> lseg b (b_off n) (b_next n) l2 p3 ram_end ->
  b' !! b_off k = Some (mk_mem (b_next n) p1 0) ->
  b' !! b_next n = set_prev (b_off k) <$> b !! b_next n ->
  (forall x, x ≠ b_off k -> x ≠ b_next n -> b' !! x = b !! x) ->
  exists p, lseg b' 0 0 (l1 ++ mk_blk (b_off k) (b_next n) false :: l2) p ram_end.
Proof.
  intros H1 Ek ? En ? ? H2 Eo Er Ex.
  destruct (lseg_relink b b' (b_off k) l2 _ _ _ _ H2) as [p4 HR]; [done|intros; apply Ex; lia|].
  eapply (chain_glue _ _ [_] _ p1 (b_off k) (b_off k) (b_next n) p4); [| |exact HR].
  - eapply lseg_frame; [exact H1|]. intros. apply Ex; lia.
  - cbn [lseg b_off b_next b_used used_flag]. rewrite Eo. repeat split; lia.
Qed.

Lemma used_bytes_free l1 a l2 : b_used a = false -> used_bytes (l1 ++ a :: l2) = used_bytes l1 + used_bytes l2.
Proof. intros Ha. rewrite used_bytes_app. unfold used_bytes. simpl. rewrite Ha. lia. Qed.

Lemma used_bytes_used l1 a l2 : b_used a = true ->
  used_bytes (l1 ++ a :: l2) = used_bytes l1 + (b_next a - b_off a) + used_bytes l2.
Proof. intros Ha. rewrite used_bytes_app. unfold used_bytes. simpl. rewrite Ha. lia. Qed.

Lemma lookup_next_some b p o l p' e :
  lseg b p o l p' ram_end -> b !! ram_end = Some e -> exists m, b !! o = Some m.
Proof.
  intros H He. destruct (decide (o = ram_end)) as [->|Ho]; [eauto|]. by eapply lseg_first_hdr.
Qed.

(** The end marker keeps its flag under an update of its predecessor. *)
Lemma end_relink (b b' : gmap Z mem) q o :
  (exists p, b !! ram_end = Some (mk_mem ram_end p 1)) ->
  b' !! o = set_prev q <$> b !! o -> (ram_end ≠ o -> b' !! ram_end = b !! ram_end) ->
  exists p, b' !! ram_end = Some (mk_mem ram_end p 1).
Proof.
  intros [p Hp] Ho Hx. destruct (decide (ram_end = o)) as [<-|Hne].
  - rewrite Ho, Hp. simpl. eauto.
  - rewrite Hx by done. eauto.
Qed.

Lemma plug_forward_spec h l1 k l2 :
  heap_shape h (l1 ++ k :: l2) -> b_used k = false ->
  lfree h = first_free (l1 ++ k :: l2) ->
  exists h' k' l2', plug_forward (b_off k) h = Some h' /\ absorb_next k l2 = k' :: l2' /\
    heap_shape h' (l1 ++ k' :: l2') /\ b_used k' = false /\ b_off k' = b_off k /\
    lfree h' = first_free (l1 ++ k' :: l2') /\ ram h' = ram h.
Proof.
  intros Hs Hk Hl. destruct (Hs) as [[p Hc] [e He] Hr Hu].
  assert (first_free (l1 ++ k :: l2) <= b_off k) as Hff.
  { rewrite first_free_app. simpl. rewrite Hk. apply lseg_mid in Hc as (? & Hc & _).
    case_bool_decide; [lia|]. eapply Z.lt_le_incl, first_free_lt; eauto. }
  apply lseg_mid in Hc as (p1 & H1 & Eo & ? & ? & H2). rewrite Hk in Eo.
  pose proof (lseg_le _ _ _ _ _ _ H2).
  destruct (lookup_next_some _ _ _ _ _ _ H2 He) as [m Em].
  unfold plug_forward, hdr at 1 2. rewrite Eo. cbn [mbind option_bind next]. rewrite Em.
  cbn [mbind option_bind]. rewrite (bool_decide_eq_true_2 (b_off k ≠ b_next k)) by lia.
  destruct l2 as [|n l2]; cbn [lseg absorb_next] in *.
  { destruct H2 as [_ E]. rewrite E, He in Em. simplify_eq. simpl. exists h, k, []. auto 10. }
  destruct H2 as (En & E2 & ? & ? & HT). rewrite E2 in Em. simplify_eq.
  cbn [used]. rewrite used_flag_eqb. pose proof (lseg_le _ _ _ _ _ _ HT).
  destruct (b_used n) eqn:Un; simpl negb; cbn [andb]; [exists h, k, (n :: l2); auto 10|].
  rewrite (bool_decide_eq_true_2 (b_next k ≠ ram_end)), bool_decide_eq_false_2 by lia.
  destruct (lookup_next_some _ _ _ _ _ _ HT He) as [m2 Em2].
  hstep. rewrite Eo. hstep. rewrite Em2. hstep.
  eexists _, _, l2. split; [reflexivity|]. split; [done|].
  set (b' := <[b_next n := _]> _).
  assert (b' !! b_next n = set_prev (b_off k) <$> blocks h !! b_next n) as Er
    by (unfold b'; rewrite Em2; by lookups).
  split; [|split; [done|split; [done|split; [|done]]]].
  - split; cbn [set_blocks blocks ram stats]; fold b'.
    + eapply (chain_merge (blocks h) b' l1 k n); try rewrite En; eauto; unfold b'; intros; hstep; done.
    + eapply end_relink; [by eexists|exact Er|]. intros. unfold b'. hstep. done.
    + done.
    + rewrite Hu, !used_bytes_free by done. unfold used_bytes at 2. simpl. by rewrite Un.
  - cbn [set_blocks lfree]. rewrite Hl, !first_free_app. simpl. by rewrite Hk.
Qed.

Lemma plug_backward_spec h l1 k l2 :
  heap_shape h (l1 ++ k :: l2) -> b_used k = false ->
  lfree h = first_free (l1 ++ k :: l2) ->
  exists h', plug_backward (b_off k) h = Some h' /\ heap_shape h' (absorb_prev l1 k l2) /\
    lfree h' = first_free (absorb_prev l1 k l2) /\ ram h' = ram h.
Proof.
  intros Hs Hk Hl. destruct (Hs) as [[p Hc] [e He] Hr Hu].
  apply lseg_mid in Hc as (p1 & H1 & Eo & Hkn & Hk4 & H2). rewrite Hk in Eo.
  pose proof (lseg_le _ _ _ _ _ _ H2).
  unfold plug_backward, hdr at 1 2. rewrite Eo. cbn [mbind option_bind prev next].
  destruct l1 as [|pb l1 _] using rev_ind.
  { cbn [lseg] in H1. destruct H1 as [<- E0]. rewrite <-E0, Eo in *. cbn [mbind option_bind].
    rewrite bool_decide_eq_false_2 by tauto. exists h. auto. }
  unfold absorb_prev. rewrite last_snoc, removelast_last.
  destruct (lseg_last _ _ _ _ _ _ _ H1) as [-> Epn].
  apply lseg_mid in H1 as (p0 & H1 & Ep & ? & _ & HE). rewrite Ep.
  cbn [mbind option_bind used]. rewrite used_flag_eqb, bool_decide_eq_true_2 by lia.
  destruct (b_used pb) eqn:Up; simpl negb; cbn [andb]; [by exists h|].
  rewrite <-app_assoc in *. simpl in Hl. rewrite first_free_app in Hl. simpl in Hl. rewrite Up in Hl.
  assert (lfree h < b_off k) as Hlt.
  { rewrite Hl. case_bool_decide as F; [lia|]. pose proof (first_free_lt _ _ _ _ _ _ H1 F). lia. }
  rewrite bool_decide_eq_false_2 by lia.
  destruct (lookup_next_some _ _ _ _ _ _ H2 He) as [m2 Em2].
  hstep. rewrite Ep. hstep. rewrite Em2. hstep.
  eexists; split; [reflexivity|]. set (b' := <[b_next k := _]> _).
  assert (b' !! b_next k = set_prev (b_off pb) <$> blocks h !! b_next k) as Er
    by (unfold b'; rewrite Em2; by lookups).
  split; [|split; [|done]].
  - split; cbn [set_blocks blocks ram stats]; fold b'.
    + eapply (chain_merge (blocks h) b' l1 pb k); eauto; unfold b'; intros; hstep; done.
    + eapply end_relink; [by eexists|exact Er|]. intros. unfold b'. hstep. done.
    + done.
    + rewrite Hu. simpl. rewrite !used_bytes_free by done. unfold used_bytes at 2. simpl. by rewrite Hk.
  - cbn [set_blocks lfree]. rewrite Hl, first_free_app. simpl. done.
Qed.

Lemma merged_free_block l1 k l2 : b_used k = true ->
  merged (l1 ++ k :: l2) -> merged (free_block l1 k l2).
Proof.
  intros Hk. change (k :: l2) with ([k] ++ l2). rewrite !merged_app.
  intros (M1 & (_ & M2 & _) & _). unfold free_block.
  assert (exists k' l2', absorb_next (mk_blk (b_off k) (b_next k) false) l2 = k' :: l2' /\
    b_used k' = false /\ merged (k' :: l2')) as (k' & l2' & -> & Hk' & M').
  { destruct l2 as [|n l2]; [by eexists _, _|]. simpl.
    destruct (b_used n) eqn:Un; eexists _, _; (split; [reflexivity|split; [done|]]).
    - split; [by rewrite Un, orb_true_r|exact M2].
    - destruct l2 as [|n2 l2]; [done|]. destruct M2 as [J M2]. rewrite Un in J. by split. }
  destruct l1 as [|p l1 _] using rev_ind; unfold absorb_prev; [done|].
  rewrite last_snoc, removelast_last. destruct (b_used p) eqn:Up.
  - rewrite merged_app. unfold junction. rewrite last_snoc. simpl head. rewrite Up. done.
  - apply merged_app in M1 as (Ma & _ & J). rewrite merged_app. split; [done|]. split.
    + destruct l2'; [done|]. destruct M' as [J' M']. rewrite Hk' in J'. by split.
    + unfold junction in *. simpl in *. by rewrite Up in J.
Qed.

Lemma mem_free_block h l1 k l2 : heap_inv h (l1 ++ k :: l2) -> b_used k = true ->
  exists h', mem_free (ram h + b_off k + 12) h = Some h' /\
    heap_inv h' (free_block l1 k l2) /\ ram h' = ram h.
Proof.
  intros (Hs & Hm & Hl)%heap_inv_shape Hk. pose proof (merged_free_block _ _ _ Hk Hm) as Hm'.
  destruct (Hs) as [[p Hc] [e He] Hr Hu].
  pose proof (used_bytes_le _ _ _ _ _ _ Hc) as Hub.
  apply lseg_mid in Hc as (p1 & H1 & Eo & ? & ? & H2). rewrite Hk in Eo.
  pose proof (lseg_le _ _ _ _ _ _ H1). pose proof (lseg_le _ _ _ _ _ _ H2).
  pose proof (first_free_ge _ _ _ _ _ H2) as Hge.
  unfold mem_free. consts. rewrite (proj2 (Z.eqb_neq _ 0)) by lia.
  rewrite (proj2 (Z.ltb_ge _ _)), (proj2 (Z.leb_gt _ _)) by lia. cbn [orb].
  replace (ram h + b_off k + 12 - 12 - ram h) with (b_off k) by lia.
  hstep. rewrite Eo. hstep. set (kf := mk_blk (b_off k) (b_next k) false).
  match goal with |- context [if ?c <? ?d then ?a else ?b] =>
    set (h1 := if c <? d then a else b) end.
  assert (blocks h1 = <[b_off k := mk_mem (b_next k) p1 0]> (blocks h) /\ ram h1 = ram h /\
    stats h1 = stats h /\ lfree h1 = first_free (l1 ++ kf :: l2)) as (B1 & R1 & S1 & L1).
  { assert (lfree h1 = first_free (l1 ++ kf :: l2)).
    { unfold h1. rewrite !first_free_app in *. simpl in *. rewrite Hk in Hl.
      destruct (decide (Forall (fun k => b_used k = true) l1)) as [F|F];
        [rewrite !(bool_decide_eq_true_2 _ F) in *|rewrite !(bool_decide_eq_false_2 _ F) in *].
      - rewrite (proj2 (Z.ltb_lt _ _)) by (consts; lia). done.
      - pose proof (first_free_lt _ _ _ _ _ _ H1 F).
        rewrite (proj2 (Z.ltb_ge _ _)) by lia. done. }
    unfold h1 in *. case_match; done. }
  clearbody h1. rewrite B1. hstep. cbn [mbind option_bind next].
  match goal with |- context [plug_holes _ ?x] => set (h2 := x) end.
  assert (heap_shape h2 (l1 ++ kf :: l2)) as Hs2.
  { split; unfold h2; cbn [set_stats blocks ram stats]; rewrite ?B1, ?R1.
    - eapply (chain_mark (blocks h) _ l1 k l2 p1 p false); eauto; intros; by hstep.
    - exists e. consts. hstep. done.
    - done.
    - rewrite S1. unfold MEM_STATS_DEC_USED. cbn [st_used]. rewrite Hu.
      rewrite (used_bytes_free l1 kf), used_bytes_used in * by done.
      rewrite (u32_id (b_next k - b_off k)) by lia.
      apply used_bytes_le in H1, H2. rewrite u32_id; lia. }
  unfold plug_holes.
  destruct (plug_forward_spec h2 l1 kf l2) as (h3 & k' & l2' & E3 & A3 & S3 & U3 & O3 & L3 & R3); try done.
  simpl in E3. rewrite E3. cbn [mbind option_bind].
  destruct (plug_backward_spec h3 l1 k' l2') as (h4 & E4 & S4 & L4 & R4); try done.
  rewrite O3 in E4. simpl in E4. exists h4. unfold free_block in *. fold kf in Hm' |- *. rewrite A3 in *.
  split; [done|]. split; [by apply heap_inv_shape|]. rewrite R4, R3. done.
Qed.

(** ** Shrinking *)

(** What shrinking the used block [k], followed by [l2], to [n] bytes gives. *)
Definition trim_block (n : Z) (k : blk) (l2 : list blk) : list blk :=
  let q := b_off k + 12 + n in
  let size := b_next k - b_off k - 12 in
  if n =? size then k :: l2
  else match l2 with
       | m :: l2' =>
           if b_used m then
             if n + 24 <=? size then [mk_blk (b_off k) q true; mk_blk q (b_next k) false] ++ l2
             else k :: l2
           else [mk_blk (b_off k) q true; mk_blk q (b_next m) false] ++ l2'
       | [] => if n + 24 <=? size then [mk_blk (b_off k) q true; mk_blk q (b_next k) false]
               else [k]
       end.

(** The common end of both relinking branches of [mem_trim]. *)
Lemma trim_relink h hA l1 k nx l2 p1 r p3 q e s :
  heap_shape h (l1 ++ k :: s) -> b_used k = true ->
  lseg (blocks h) 0 0 l1 p1 (b_off k) -> lseg (blocks h) r nx l2 p3 ram_end ->
  blocks h !! b_off k = Some (mk_mem (b_next k) p1 1) ->
  blocks h !! ram_end = Some (mk_mem ram_end e 1) ->
  b_off k + 24 <= q -> q + 24 <= nx -> q < b_next k -> q mod 4 = 0 -> nx mod 4 = 0 ->
  used_bytes l2 = used_bytes s -> used_bytes (l1 ++ k :: s) <= 65536 ->
  blocks hA = <[q := mk_mem nx (b_off k) 0]> (blocks h) -> ram hA = ram h -> stats hA = stats h ->
  exists h', (h1 ← upd_hdr (b_off k) (set_next q) hA;
     h1 ← (if bool_decide (nx ≠ MEM_SIZE_ALIGNED) then upd_hdr nx (set_prev q) h1 else Some h1);
     Some (ram h + b_off k + 12, set_stats (MEM_STATS_DEC_USED (u32 (b_next k - q))) h1))
       = Some (ram h + b_off k + 12, h') /\
    heap_shape h' (l1 ++ [mk_blk (b_off k) q true; mk_blk q nx false] ++ l2) /\
    lfree h' = lfree hA /\ ram h' = ram h.
Proof.
  intros [_ _ Hr Hu] Hk H1 H2 Eo He Hq1 Hq2 Hq3 Hq4 Hn4 Hub Hmax HbA HrA HsA.
  pose proof (lseg_le _ _ _ _ _ _ H1). pose proof (lseg_le _ _ _ _ _ _ H2).
  set (h2 := set_blocks (<[b_off k := mk_mem q p1 1]> (blocks hA)) hA).
  assert (upd_hdr (b_off k) (set_next q) hA = Some h2) as ->.
  { unfold upd_hdr, hdr, h2. rewrite HbA. lookups. by rewrite Eo. }
  cbn [mbind option_bind].
  destruct (relink_run (blocks h) h2 q nx l2 _ _ H2) as (b' & Er & En & Ex).
  { intros. unfold h2. hstep. rewrite HbA. by lookups. }
  rewrite Er. cbn [mbind option_bind]. eexists; split; [reflexivity|].
  split; [|done].
  split; cbn [set_stats set_blocks blocks ram stats]; unfold h2; cbn [set_blocks ram stats];
    rewrite ?HrA, ?HsA.
  - eapply (chain_split (blocks h)); eauto; intros;
      rewrite Ex by (consts; lia); unfold h2; hstep; rewrite ?HbA; by lookups.
  - exists e. rewrite Ex by auto. unfold h2. consts. hstep. rewrite HbA. by lookups.
  - done.
  - unfold MEM_STATS_DEC_USED. cbn [st_used]. rewrite Hu.
    rewrite used_bytes_used in * by done. cbn [app]. rewrite used_bytes_used by done.
    change (used_bytes (mk_blk q nx false :: l2)) with (0 + used_bytes l2). cbn [b_off b_next].
    pose proof (used_bytes_le _ _ _ _ _ _ H1). pose proof (used_bytes_le _ _ _ _ _ _ H2).
    consts. rewrite (u32_id (b_next k - q)), u32_id by lia. lia.
Qed.

Lemma merged_trim l1 k l2 n : b_used k = true ->
  merged (l1 ++ k :: l2) -> merged (l1 ++ trim_block n k l2).
Proof.
  intros Hk. rewrite !merged_app. intros (M1 & M2 & J). unfold trim_block.
  destruct (n =? _); [done|]. destruct l2 as [|m l2].
  - destruct (_ <=? _); [|done]. split; [done|]. split; [done|].
    unfold junction in *. simpl in *. destruct (last l1); [by rewrite orb_true_r|done].
  - destruct M2 as [J2 M2]. destruct (b_used m) eqn:Um; [destruct (_ <=? _)|].
    + split; [done|]. split; [split; [done|split; [exact Um|exact M2]]|].
      unfold junction in *. simpl in *. destruct (last l1); [by rewrite orb_true_r|done].
    + split; [done|]. split; [split; [by rewrite Um, orb_true_r|exact M2]|done].
    + split; [done|]. split.
      * split; [done|]. destruct l2; [done|]. destruct M2 as [J3 M2].
        rewrite Um in J3. by split.
      * unfold junction in *. simpl in *. destruct (last l1); [by rewrite orb_true_r|done].
Qed.

(** The position of [lfree] after shrinking, when the remainder is at [q]. *)
Lemma first_free_trim l1 o q nx l2 : first_free (l1 ++ [mk_blk o q true; mk_blk q nx false] ++ l2)
  = if bool_decide (Forall (fun k => b_used k = true) l1) then q else first_free l1.
Proof. by rewrite first_free_app. Qed.

Lemma mem_trim_block h l1 k l2 n0 :
  heap_inv h (l1 ++ k :: l2) -> b_used k = true -> 0 <= n0 < 4294967293 ->
  if b_next k - b_off k - 12 <? adjust_size n0
  then mem_trim (ram h + b_off k + 12) n0 h = Some (0, h)
  else exists h', mem_trim (ram h + b_off k + 12) n0 h = Some (ram h + b_off k + 12, h') /\
         heap_inv h' (l1 ++ trim_block (adjust_size n0) k l2) /\ ram h' = ram h.
Proof.
  intros Hi Hk Hn0. destruct (adjust_size_spec n0 Hn0) as (_ & ? & Hn4 & _).
  set (n := adjust_size n0) in *. pose proof Hi as (Hs & Hm & Hl)%heap_inv_shape.
  pose proof (merged_trim _ _ _ n Hk Hm) as Hm'.
  destruct (Hs) as [[p Hc] [e He] Hr Hu]. pose proof (used_bytes_le _ _ _ _ _ _ Hc) as Hub.
  apply lseg_mid in Hc as (p1 & H1 & Eo & ? & ? & H2). rewrite Hk in Eo.
  pose proof (lseg_le _ _ _ _ _ _ H1). pose proof (lseg_le _ _ _ _ _ _ H2).
  pose proof (lseg_aligned _ _ _ _ _ _ H1 eq_refl) as Ho4.
  unfold mem_trim. fold n. consts. cbv zeta.
  replace (ram h + b_off k + 12 - 12 - ram h) with (b_off k) by lia.
  rewrite (proj2 (Z.ltb_ge (ram h + b_off k + 12) _)), (proj2 (Z.leb_gt (ram h + 65536) _)) by lia.
  cbn [orb]. rewrite (Eo : hdr (b_off k) h = _). cbn [mbind option_bind next].
  rewrite (u32_id (b_off k)), (u32_id (b_next k - b_off k - 12)) by lia.
  destruct (Z.ltb_spec (b_next k - b_off k - 12) n); [by destruct (Z.ltb_spec 65536 n)|].
  rewrite (proj2 (Z.ltb_ge 65536 n)) by lia. unfold trim_block in *.
  destruct (Z.eqb_spec n (b_next k - b_off k - 12)); [by exists h|].
  destruct (lookup_next_some _ _ _ _ _ _ H2 He) as [m Em].
  rewrite (Em : hdr (b_next k) h = _). cbn [mbind option_bind].
  rewrite (u32_id (b_off k + 12 + n)), (u32_id (n + 12 + 12)) by lia.
  set (q := b_off k + 12 + n) in *.
  assert (q mod 4 = 0) as Hq4 by (unfold q; Z.div_mod_to_equations; lia).
  replace (b_next k - b_off k - 12 - n) with (b_next k - q) by (unfold q; lia).
  replace (n + 12 + 12) with (n + 24) by lia.
  assert (used m ≠ 0 -> n + 24 <= b_next k - b_off k - 12 ->
    exists h', (h1 ← upd_hdr (b_off k) (set_next q)
        (put_hdr q (mk_mem (b_next k) (b_off k) 0) (if q <? lfree h then set_lfree q h else h));
     h1 ← (if bool_decide (b_next k ≠ 65536) then upd_hdr (b_next k) (set_prev q) h1 else Some h1);
     Some (ram h + b_off k + 12, set_stats (MEM_STATS_DEC_USED (u32 (b_next k - q))) h1))
       = Some (ram h + b_off k + 12, h') /\ ram h' = ram h /\
    heap_shape h' (l1 ++ [mk_blk (b_off k) q true; mk_blk q (b_next k) false] ++ l2) /\
    lfree h' = first_free (l1 ++ [mk_blk (b_off k) q true; mk_blk q (b_next k) false] ++ l2)) as Hsplit.
  { intros _ Hfit. set (hA := put_hdr _ _ _).
    destruct (trim_relink h hA l1 k (b_next k) l2 p1 (b_off k) p q e l2) as (h' & T & S' & L' & R');
      try done; try (unfold q; lia); try (unfold hA; by destruct (q <? lfree h)).
    exists h'. split; [exact T|]. split; [done|]. split; [done|].
    rewrite L', first_free_trim. unfold hA. rewrite first_free_app in Hl. cbn [first_free] in Hl.
    rewrite Hk in Hl. pose proof (first_free_ge _ _ _ _ _ H2).
    destruct (decide (Forall (fun k => b_used k = true) l1)) as [F|F];
      [rewrite (bool_decide_eq_true_2 _ F) in *|rewrite (bool_decide_eq_false_2 _ F) in *].
    - rewrite (proj2 (Z.ltb_lt _ _)); [done|]. unfold q; lia.
    - pose proof (first_free_lt _ _ _ _ _ _ H1 F).
      rewrite (proj2 (Z.ltb_ge _ _)); [done|]. unfold q; lia. }
  destruct l2 as [|m' l2]; cbn [lseg] in H2.
  { destruct H2 as [_ E2]. rewrite E2, He in Em. simplify_eq. cbn [used Z.eqb].
    destruct (Z.leb_spec (n + 24) (b_next k - b_off k - 12)) as [Hf|]; [|by exists h].
    destruct (Hsplit ltac:(done) Hf) as (h' & T & R & S' & L'). exists h'.
    split; [exact T|]. split; [by apply heap_inv_shape|done]. }
  destruct H2 as (Em' & Hm2 & ? & ? & HT). rewrite Hm2 in Em. simplify_eq. cbn [used next] in *.
  rewrite used_flag_eqb in *. destruct (b_used m') eqn:Um; simpl negb; cbv iota.
  { destruct (Z.leb_spec (n + 24) (b_next k - b_off k - 12)) as [Hf|]; [|by exists h].
    destruct (Hsplit ltac:(done) Hf) as (h' & T & R & S' & L'). exists h'.
    split; [exact T|]. split; [by apply heap_inv_shape|done]. }
  clear Hsplit. set (hA := put_hdr _ _ _).
  destruct (trim_relink h hA l1 k (b_next m') l2 p1 (b_next k) p q e (m' :: l2)) as (h' & T & S' & L' & R');
    try done; try (unfold q; lia); try (unfold hA; by destruct (bool_decide (lfree h = b_next k))).
  { change (used_bytes (m' :: l2)) with
      ((if b_used m' then b_next m' - b_off m' else 0) + used_bytes l2). by rewrite Um. }
  exists h'. split; [exact T|]. split; [|done]. apply heap_inv_shape. split; [done|]. split; [done|].
  rewrite L', first_free_trim. unfold hA. rewrite first_free_app in Hl. cbn [first_free] in Hl.
  rewrite Hk, Um, Em' in Hl.
  destruct (decide (Forall (fun k => b_used k = true) l1)) as [F|F];
    [rewrite (bool_decide_eq_true_2 _ F) in *|rewrite (bool_decide_eq_false_2 _ F) in *].
  - by rewrite bool_decide_eq_true_2.
  - pose proof (first_free_lt _ _ _ _ _ _ H1 F). rewrite bool_decide_eq_false_2 by lia. done.
Qed.

Lemma first_fit_None size l : first_fit size l = None ->
  Forall (fun k => b_used k = false -> b_next k - b_off k - 12 < size) l.
Proof.
  induction l as [|k l IH]; [constructor|]. simpl. consts.
  destruct (b_used k) eqn:U; simpl; [intros; constructor; [congruence|auto]|].
  destruct (Z.leb_spec size (b_next k - b_off k - 12)); [done|]. constructor; auto.
Qed.

(** ** The live allocations *)

Lemma allocs_app r l1 l2 : allocs r (l1 ++ l2) = allocs r l1 ++ allocs r l2.
Proof. unfold allocs. by rewrite filter_app, fmap_app. Qed.

Lemma allocs_used r k l : b_used k = true ->
  allocs r (k :: l) = (r + b_off k + 12, b_next k - b_off k - 12) :: allocs r l.
Proof. intros Hk. unfold allocs. rewrite filter_cons_True by done. done. Qed.

Lemma allocs_unused r k l : b_used k = false -> allocs r (k :: l) = allocs r l.
Proof. intros Hk. unfold allocs. by rewrite filter_cons_False by congruence. Qed.

Lemma allocs_elem r l p n : (p, n) ∈ allocs r l ->
  exists l1 k l2, l = l1 ++ k :: l2 /\ b_used k = true /\
    p = r + b_off k + 12 /\ n = b_next k - b_off k - 12.
Proof.
  unfold allocs. intros (k & [= -> ->] & [Hk Hin]%list_elem_of_filter)%list_elem_of_fmap.
  apply list_elem_of_split in Hin as (l1 & l2 & ->). eauto 10.
Qed.

(** A block of the chain is disjoint from every other allocation. *)
Lemma allocs_disjoint h l1 k l2 q m :
  heap_inv h (l1 ++ k :: l2) -> (q, m) ∈ allocs (ram h) (l1 ++ l2) ->
  q + m <= ram h + b_off k \/ ram h + b_next k <= q.
Proof.
  intros [[p Hc] _ _ _ _ _] Hin. apply lseg_mid in Hc as (p1 & H1 & _ & _ & _ & H2).
  rewrite allocs_app in Hin. apply elem_of_app in Hin as [Hin|Hin];
    apply allocs_elem in Hin as (la & a & lb & -> & _ & -> & ->).
  - destruct (lseg_offsets _ _ _ _ _ _ a H1) as (? & ? & ?); [set_solver|]. lia.
  - destruct (lseg_offsets _ _ _ _ _ _ a H2) as (? & ? & ?); [set_solver|]. lia.
Qed.

Lemma allocs_take r l1 k l2 n : b_used k = false -> 12 <= n -> n <= b_next k - b_off k - 12 ->
  exists n', n <= n' <= b_next k - b_off k - 12 /\
    allocs r (l1 ++ take_block n k ++ l2)
      = allocs r l1 ++ (r + b_off k + 12, n') :: allocs r l2.
Proof.
  intros Hk ? ?. unfold take_block. destruct (_ <=? _).
  - exists n. split; [lia|]. rewrite allocs_app. cbn [app].
    rewrite allocs_used, allocs_unused by done. cbn [b_off b_next]. do 3 f_equal. lia.
  - exists (b_next k - b_off k - 12). split; [lia|]. rewrite allocs_app. cbn [app].
    by rewrite allocs_used.
Qed.

Lemma allocs_free_block r l1 k l2 :
  allocs r (free_block l1 k l2) = allocs r l1 ++ allocs r l2.
Proof.
  unfold free_block.
  assert (exists k' l2', absorb_next (mk_blk (b_off k) (b_next k) false) l2 = k' :: l2' /\
    b_used k' = false /\ allocs r l2' = allocs r l2) as (k' & l2' & -> & Hk' & <-).
  { destruct l2 as [|n l2]; simpl; [by eexists _, _|].
    destruct (b_used n) eqn:Un; eexists _, _; (split; [reflexivity|split; [done|]]); [done|].
    by rewrite allocs_unused. }
  destruct l1 as [|p l1 _] using rev_ind; unfold absorb_prev; simpl; [by apply allocs_unused|].
  rewrite last_snoc, removelast_last. destruct (b_used p) eqn:Up; rewrite !allocs_app.
  - by rewrite (allocs_unused _ k').
  - rewrite (allocs_unused _ (mk_blk _ _ _)), (allocs_unused _ p) by done. by rewrite app_nil_r.
Qed.

Lemma allocs_trim_block r k l2 n : b_used k = true -> n <= b_next k - b_off k - 12 ->
  exists n', n <= n' <= b_next k - b_off k - 12 /\
    allocs r (trim_block n k l2) = (r + b_off k + 12, n') :: allocs r l2.
Proof.
  intros Hk Hn. unfold trim_block. cbv zeta.
  assert (exists n', n <= n' <= b_next k - b_off k - 12 /\
    allocs r (k :: l2) = (r + b_off k + 12, n') :: allocs r l2) as Hsame.
  { exists (b_next k - b_off k - 12). rewrite allocs_used by done. auto with lia. }
  assert (forall nx l, allocs r l = allocs r l2 -> exists n', n <= n' <= b_next k - b_off k - 12 /\
    allocs r ([mk_blk (b_off k) (b_off k + 12 + n) true; mk_blk (b_off k + 12 + n) nx false] ++ l)
      = (r + b_off k + 12, n') :: allocs r l2) as Hcut.
  { intros nx l <-. exists n. split; [lia|]. cbn [app].
    rewrite allocs_used, allocs_unused by done. cbn [b_off b_next]. do 2 f_equal. lia. }
  destruct (n =? _); [done|]. destruct l2 as [|m l2].
  - destruct (_ <=? _); [apply (Hcut _ []); done|done].
  - destruct (b_used m) eqn:Um; [destruct (_ <=? _); [by apply Hcut|done]|].
    apply Hcut. by rewrite allocs_unused.
Qed.

(** ** Properties *)

(** The statistics and heap area the witnesses start from. *)
Definition boot_stats : stats_mem := mk_stats 0 0 0 0 0.
Definition boot_heap : heap := mem_init 0x20001001 boot_stats.

Lemma boot_heap_inv : heap_inv boot_heap [mk_blk 0 MEM_SIZE_ALIGNED false].
Proof.
  split; [exists 0; vm_compute; repeat split; congruence|by exists MEM_SIZE_ALIGNED|done|done| |done].
  vm_compute. repeat split; congruence.
Qed.

Lemma init_live heap_pointer s :
  0 < heap_pointer -> heap_pointer + MEM_SIZE_ALIGNED + 4 < 2 ^ 32 -> st_used s = 0 ->
  heap_inv (mem_init heap_pointer s) [mk_blk 0 MEM_SIZE_ALIGNED false] /\
  heap_pointer <= ram (mem_init heap_pointer s) < heap_pointer + 4.
Proof.
  intros Hp Hb Hu. consts. cint_pow.
  assert (LWIP_MEM_ALIGN heap_pointer = (heap_pointer + 3) / 4 * 4) as E.
  { apply align_size_spec. lia. }
  pose proof (Z.div_mod (heap_pointer + 3) 4 ltac:(lia)).
  pose proof (Z.mod_pos_bound (heap_pointer + 3) 4 ltac:(lia)).
  split; [|unfold mem_init; cbn [ram]; lia].
  split; unfold mem_init; cbn [blocks lfree ram stats st_used first_free b_used b_off]; consts.
  - exists 0. cbn [lseg b_off b_next b_used used_flag]. lookups. auto with lia.
  - eexists. by lookups.
  - done.
  - done.
  - rewrite E, Z.mod_mul by lia. cint_pow. lia.
  - done.
Qed.

(** [mem_init] aligns the heap area and leaves one unused block that spans
    it, with [lfree] at it: the heap invariant holds from the start. *)
Theorem mem_init_inv heap_pointer s :
  0 < heap_pointer -> heap_pointer + MEM_SIZE_ALIGNED + 4 < 2 ^ 32 -> st_used s = 0 ->
  heap_inv (mem_init heap_pointer s) [mk_blk 0 MEM_SIZE_ALIGNED false] /\
  heap_pointer <= ram (mem_init heap_pointer s) < heap_pointer + 4.
Proof. apply init_live. Qed.

Lemma mem_init_inv_witness :
  heap_inv boot_heap [mk_blk 0 MEM_SIZE_ALIGNED false] /\ 0x20001001 <= ram boot_heap < 0x20001001 + 4.
Proof. apply mem_init_inv; [lia | vm_compute; reflexivity | reflexivity]. Defined.

Lemma malloc_live h l size :
  heap_inv h l -> 0 < size < 4294967293 ->
  exists p h' l', mem_malloc size h = Some (p, h') /\ heap_inv h' l' /\ ram h' = ram h /\
    ((p = 0 /\ l' = l /\
      Forall (fun k => b_used k = false -> b_next k - b_off k - 12 < adjust_size size) l) \/
     (p ≠ 0 /\ p mod 4 = 0 /\ exists n, size <= n /\
      allocs (ram h) l' ≡ₚ (p, n) :: allocs (ram h) l /\
      forall q m, (q, m) ∈ allocs (ram h) l -> q + m <= p \/ p + n <= q)).
Proof.
  intros Hi Hs. pose proof (mem_malloc_first_fit h l size Hi Hs) as M.
  destruct (adjust_size_spec size ltac:(lia)) as (? & ? & _).
  destruct (first_fit (adjust_size size) l) eqn:Hf.
  - destruct M as (h' & l1 & k & l2 & -> & <- & Hk & Hfit & E & R & I').
    destruct (allocs_take (ram h) l1 k l2 (adjust_size size) Hk ltac:(lia) Hfit) as (n & Hn & Ea).
    exists (ram h + b_off k + 12), h', (l1 ++ take_block (adjust_size size) k ++ l2).
    split; [done|]. split; [done|]. split; [done|]. right.
    destruct (Hi) as [[p Hc] _ _ _ (? & Hr4 & _) _].
    apply lseg_mid in Hc as (p1 & HL & _). pose proof (lseg_le _ _ _ _ _ _ HL).
    apply lseg_aligned in HL; [|done].
    split; [lia|]. split; [Z.div_mod_to_equations; lia|]. exists n. split; [lia|].
    rewrite Ea, !allocs_app, allocs_unused by done.
    split; [by rewrite <-Permutation_middle|].
    intros q m Hin. rewrite <-allocs_app in Hin.
    destruct (allocs_disjoint h l1 k l2 q m Hi Hin); lia.
  - destruct M as (s & Hs' & E). exists 0, (set_stats s h), l. split; [done|].
    split; [destruct Hi; split; try done; cbn [set_stats stats]; by rewrite Hs'|].
    split; [done|]. left. do 2 (split; [done|]). by apply first_fit_None.
Qed.

(** C11: on a heap that satisfies the invariant, [mem_malloc] of a size up to
    2^32-4 keeps the invariant and either returns NULL, changing no block, only
    when no unused block holds the aligned size; or returns an aligned pointer
    to an area of at least [size] bytes that overlaps no live allocation, and
    the live allocations are the old ones and the new one. *)
Theorem mem_malloc_correct h l size :
  heap_inv h l -> 0 < size < 4294967293 ->
  exists p h' l', mem_malloc size h = Some (p, h') /\ heap_inv h' l' /\ ram h' = ram h /\
    ((p = 0 /\ l' = l /\
      Forall (fun k => b_used k = false -> b_next k - b_off k - 12 < adjust_size size) l) \/
     (p ≠ 0 /\ p mod 4 = 0 /\ exists n, size <= n /\
      allocs (ram h) l' ≡ₚ (p, n) :: allocs (ram h) l /\
      forall q m, (q, m) ∈ allocs (ram h) l -> q + m <= p \/ p + n <= q)).
Proof. apply malloc_live. Qed.

Lemma mem_malloc_correct_witness :
  exists p h' l', mem_malloc 100 boot_heap = Some (p, h') /\ heap_inv h' l' /\ ram h' = ram boot_heap /\
    ((p = 0 /\ l' = [mk_blk 0 MEM_SIZE_ALIGNED false] /\
      Forall (fun k => b_used k = false -> b_next k - b_off k - 12 < adjust_size 100)
        [mk_blk 0 MEM_SIZE_ALIGNED false]) \/
     (p ≠ 0 /\ p mod 4 = 0 /\ exists n, 100 <= n /\
      allocs (ram boot_heap) l'
        ≡ₚ (p, n) :: allocs (ram boot_heap) [mk_blk 0 MEM_SIZE_ALIGNED false] /\
      forall q m, (q, m) ∈ allocs (ram boot_heap) [mk_blk 0 MEM_SIZE_ALIGNED false] ->
        q + m <= p \/ p + n <= q)).
Proof. apply mem_malloc_correct; [apply boot_heap_inv | lia]. Defined.

Lemma free_live h l p n :
  heap_inv h l -> (p, n) ∈ allocs (ram h) l ->
  exists h' l', mem_free p h = Some h' /\ heap_inv h' l' /\ ram h' = ram h /\
    (p, n) :: allocs (ram h) l' ≡ₚ allocs (ram h) l.
Proof.
  intros Hi (l1 & k & l2 & -> & Hk & -> & ->)%allocs_elem.
  destruct (mem_free_block h l1 k l2 Hi Hk) as (h' & E & I' & R).
  exists h', (free_block l1 k l2). split; [done|]. split; [done|]. split; [done|].
  by rewrite allocs_free_block, allocs_app, allocs_used, <-Permutation_middle by done.
Qed.

(** C14: freeing a live allocation keeps the invariant, coalescing included, and
    removes that allocation and no other. *)
Theorem mem_free_correct h l p n :
  heap_inv h l -> (p, n) ∈ allocs (ram h) l ->
  exists h' l', mem_free p h = Some h' /\ heap_inv h' l' /\ ram h' = ram h /\
    (p, n) :: allocs (ram h) l' ≡ₚ allocs (ram h) l.
Proof. apply free_live. Qed.

Lemma mem_free_correct_witness : exists h0 l0,
  exists h' l', mem_free (ram h0 + 12) h0 = Some h' /\ heap_inv h' l' /\ ram h' = ram h0 /\
    (ram h0 + 12, 100) :: allocs (ram h0) l' ≡ₚ allocs (ram h0) l0.
Proof.
  destruct (mem_malloc_first_fit boot_heap _ 100 boot_heap_inv ltac:(lia))
    as (h' & l1 & k & l2 & E & _ & _ & _ & _ & R & I).
  assert (l1 = [] /\ l2 = []) as [-> ->] by (destruct l1 as [|? [|]]; simpl in E; by simplify_eq).
  simpl in E. simplify_eq. exists h', (take_block (adjust_size 100) (mk_blk 0 MEM_SIZE_ALIGNED false) ++ []).
  apply mem_free_correct; [exact I|]. rewrite R. vm_compute. set_solver.
Defined.

Lemma trim_live h l p n newsize :
  heap_inv h l -> (p, n) ∈ allocs (ram h) l -> 0 <= newsize < 4294967293 ->
  (n < adjust_size newsize /\ mem_trim p newsize h = Some (0, h)) \/
  (adjust_size newsize <= n /\ exists h' l' n' rest, mem_trim p newsize h = Some (p, h') /\
    heap_inv h' l' /\ ram h' = ram h /\ adjust_size newsize <= n' <= n /\
    allocs (ram h) l ≡ₚ (p, n) :: rest /\ allocs (ram h) l' ≡ₚ (p, n') :: rest).
Proof.
  intros Hi (l1 & k & l2 & -> & Hk & -> & ->)%allocs_elem Hn.
  pose proof (mem_trim_block h l1 k l2 newsize Hi Hk Hn) as T.
  destruct (Z.ltb_spec (b_next k - b_off k - 12) (adjust_size newsize)) as [|Hle]; [by left|].
  right. split; [done|]. destruct T as (h' & E & I' & R).
  destruct (allocs_trim_block (ram h) k l2 _ Hk Hle) as (n' & Hn' & Ea).
  eexists h', _, n', (allocs (ram h) l1 ++ allocs (ram h) l2).
  split; [done|]. split; [done|]. split; [done|]. split; [lia|].
  by rewrite !allocs_app, Ea, allocs_used, <-!Permutation_middle by done.
Qed.

(** [mem_trim] of a live allocation returns NULL and changes nothing when
    the aligned new size exceeds the old one; else it returns the same pointer,
    keeps the invariant, leaves every other allocation as it is and this one
    with at least the new size and at most the old one. *)
Theorem mem_trim_correct h l p n newsize :
  heap_inv h l -> (p, n) ∈ allocs (ram h) l -> 0 <= newsize < 4294967293 ->
  (n < adjust_size newsize /\ mem_trim p newsize h = Some (0, h)) \/
  (adjust_size newsize <= n /\ exists h' l' n' rest, mem_trim p newsize h = Some (p, h') /\
    heap_inv h' l' /\ ram h' = ram h /\ adjust_size newsize <= n' <= n /\
    allocs (ram h) l ≡ₚ (p, n) :: rest /\ allocs (ram h) l' ≡ₚ (p, n') :: rest).
Proof. apply trim_live. Qed.

Lemma mem_trim_correct_witness : exists h0 l0,
  (100 < adjust_size 40 /\ mem_trim (ram h0 + 12) 40 h0 = Some (0, h0)) \/
  (adjust_size 40 <= 100 /\ exists h' l' n' rest, mem_trim (ram h0 + 12) 40 h0 = Some (ram h0 + 12, h') /\
    heap_inv h' l' /\ ram h' = ram h0 /\ adjust_size 40 <= n' <= 100 /\
    allocs (ram h0) l0 ≡ₚ (ram h0 + 12, 100) :: rest /\ allocs (ram h0) l' ≡ₚ (ram h0 + 12, n') :: rest).
Proof.
  destruct (mem_malloc_first_fit boot_heap _ 100 boot_heap_inv ltac:(lia))
    as (h' & l1 & k & l2 & E & _ & _ & _ & _ & R & I).
  assert (l1 = [] /\ l2 = []) as [-> ->] by (destruct l1 as [|? [|]]; simpl in E; by simplify_eq).
  simpl in E. simplify_eq. exists h', (take_block (adjust_size 100) (mk_blk 0 MEM_SIZE_ALIGNED false) ++ []).
  apply mem_trim_correct; [exact I| |lia]. rewrite R. vm_compute. set_solver.
Defined.

(** no memory is lost to fragmentation: when nothing is allocated any more,
    the heap is one unused block again and the used counter is 0. *)
Theorem mem_all_freed h l :
  heap_inv h l -> allocs (ram h) l = [] ->
  l = [mk_blk 0 MEM_SIZE_ALIGNED false] /\ lfree h = 0 /\ st_used (stats h) = 0.
Proof.
  intros [[p Hc] _ Hm Hl _ Hu] Ha.
  destruct l as [|k l]; cbn [lseg] in Hc; [destruct Hc; consts; lia|].
  destruct Hc as (E0 & _ & _ & _ & Hc). destruct k as [o nx u]. simpl in *. subst o.
  destruct u; [by rewrite allocs_used in Ha|]. rewrite allocs_unused in Ha by done.
  destruct l as [|[o' nx' u'] l].
  - cbn [lseg] in Hc. destruct Hc as [_ ->]. done.
  - destruct Hm as [J _]. simpl in J. subst u'. by rewrite allocs_used in Ha.
Qed.

Lemma mem_all_freed_witness :
  [mk_blk 0 MEM_SIZE_ALIGNED false] = [mk_blk 0 MEM_SIZE_ALIGNED false] /\
  lfree boot_heap = 0 /\ st_used (stats boot_heap) = 0.
Proof. apply (mem_all_freed boot_heap); [apply boot_heap_inv | reflexivity]. Defined.

(** the three largest sizes wrap when they are aligned: [mem_malloc] then
    serves them like a request of 12 bytes. *)
Theorem mem_malloc_wraps size h :
  4294967293 <= size < 2 ^ 32 -> mem_malloc size h = mem_malloc 12 h.
Proof.
  intros Hs. cint_pow.
  assert (adjust_size size = adjust_size 12) as E.
  { assert (size = 4294967293 \/ size = 4294967294 \/ size = 4294967295) as [->|[->| ->]] by lia;
      reflexivity. }
  unfold mem_malloc. rewrite E, (proj2 (Z.eqb_neq size 0)), (proj2 (Z.eqb_neq 12 0)) by lia.
  reflexivity.
Qed.

Lemma mem_malloc_wraps_witness : mem_malloc 0xFFFFFFFF boot_heap = mem_malloc 12 boot_heap.
Proof. apply mem_malloc_wraps. split; vm_compute; congruence. Defined.

End Mem.
