(* ===== verification/Memp.v ===== *)
(** * The lwIP memory pools (libraries/Ethernet/utility/memp.c)

    Each pool is a linked list of free elements; [memp_tab[i]] is its head.
    While an element is free its first word is the link [struct memp.next]; the
    model keeps these links in a map from element addresses to addresses (0 is
    NULL).  The link of an element in use stays in the map, as the bytes stay in
    memory until the user writes them; a dereference of an address that never
    was an element is the result [None].

    The pool list of lwip/memp_std.h is an argument: for each pool the number of
    elements [memp_num] and the aligned element size [memp_sizes] (the sizes of
    the protocol control blocks depend on the compiler's layout).

    Configuration: MEMP_MEM_MALLOC, MEMP_SEPARATE_POOLS, MEMP_OVERFLOW_CHECK and
    MEMP_SANITY_CHECK are 0, hence MEMP_SIZE is 0; MEMP_STATS is 1.  The bodies
    run with interrupts masked (SYS_ARCH_PROTECT), hence as one step. *)
From S2P Require Import Prelude Mem.

Module Memp.

(** ** State *)

(** One pool of memp_std.h: [memp_num] and [memp_sizes]. *)
Record pool := mk_pool { memp_num : nat; memp_size : Z }.

Record memp_state := mk_memp {
  memp_tab : list Z;
  links : gmap Z Z;
  memp_stats : list Mem.stats_mem }.

Definition MEMP_SIZE : Z := 0.

Definition inc_used (s : Mem.stats_mem) : Mem.stats_mem := Mem.MEM_STATS_INC_USED 1 s.
Definition dec_used (s : Mem.stats_mem) : Mem.stats_mem := Mem.MEM_STATS_DEC_USED 1 s.

(** ** Operations *)

(** The inner loop of [memp_init]: [n] elements from address [memp], each put
    in front of the list [head]. *)
Fixpoint carve (n : nat) (size memp head : Z) (links : gmap Z Z) : Z * Z * gmap Z Z :=
  match n with
  | O => (memp, head, links)
  | S n => carve n size (memp + MEMP_SIZE + size) memp (<[memp := head]> links)
  end.

(** The outer loop, over the pools. *)
Fixpoint carve_pools (pools : list pool) (memp : Z) (links : gmap Z Z) : list Z * gmap Z Z :=
  match pools with
  | [] => ([], links)
  | p :: pools =>
      let '(memp, head, links) := carve (memp_num p) (memp_size p) memp 0 links in
      let '(tab, links) := carve_pools pools memp links in
      (head :: tab, links)
  end.

Definition memp_init (pools : list pool) (memp_memory : Z) : memp_state :=
  let '(tab, links) := carve_pools pools (Mem.LWIP_MEM_ALIGN memp_memory) ∅ in
  mk_memp tab links ((fun p => Mem.mk_stats (Z.of_nat (memp_num p)) 0 0 0 0) <$> pools).

(** The element (0 for NULL) and the pools. *)
Definition memp_malloc (type : nat) (s : memp_state) : option (Z * memp_state) :=
  match memp_tab s !! type with
  | None => Some (0, s)   (* LWIP_ERROR: type < MEMP_MAX *)
  | Some memp =>
      if memp =? 0 then
        Some (0, mk_memp (memp_tab s) (links s) (alter Mem.MEM_STATS_INC_err type (memp_stats s)))
      else
        nxt ← links s !! memp;
        Some (memp + MEMP_SIZE,
              mk_memp (<[type := nxt]> (memp_tab s)) (links s) (alter inc_used type (memp_stats s)))
  end.

(** [memp_tab[type]] with [type] out of range is an invalid access. *)
Definition memp_free (type : nat) (mem : Z) (s : memp_state) : option memp_state :=
  if mem =? 0 then Some s
  else
    head ← memp_tab s !! type;
    let memp := mem - MEMP_SIZE in
    Some (mk_memp (<[type := memp]> (memp_tab s)) (<[memp := head]> (links s))
            (alter dec_used type (memp_stats s))).

(** ** The free lists *)

(** [flist links p l]: following the links from [p] gives the elements [l]. *)
Fixpoint flist (links : gmap Z Z) (p : Z) (l : list Z) : Prop :=
  match l with
  | [] => p = 0
  | a :: l => p = a /\ a ≠ 0 /\ exists n, links !! a = Some n /\ flist links n l
  end.

(** The elements of one pool that starts at address [memp], and of all pools
    laid out one after the other. *)
Definition pool_elems (memp : Z) (p : pool) : list Z :=
  (fun k : nat => memp + Z.of_nat k * memp_size p) <$> seq 0 (memp_num p).
Definition pool_bytes (p : pool) : Z := Z.of_nat (memp_num p) * memp_size p.
Fixpoint elements (pools : list pool) (memp : Z) : list (list Z) :=
  match pools with
  | [] => []
  | p :: pools => pool_elems memp p :: elements pools (memp + pool_bytes p)
  end.

(** The two lists of a pool: its free elements and those handed out. *)
Record split_pool := mk_split { freel : list Z; out : list Z }.

(** [gs] splits the pools: every head of [memp_tab] leads to the free list,
    free and handed-out elements together are exactly the elements [es] of the
    pool, and the counter tells how many are out. *)
Record memp_inv (es : list (list Z)) (s : memp_state) (gs : list split_pool) : Prop := {
  inv_lists : Forall2 (fun h g => flist (links s) h (freel g)) (memp_tab s) gs;
  inv_part : Forall2 (fun e g => e ≡ₚ freel g ++ out g) es gs;
  inv_used : Forall2 (fun st g => Mem.st_used st = Z.of_nat (length (out g))) (memp_stats s) gs;
  inv_nodup : NoDup (mjoin es);
  inv_small : Forall (fun e => Z.of_nat (length e) < 2 ^ 32) es }.

Lemma flist_frame links links' l : forall p,
  flist links p l -> (forall a, a ∈ l -> links' !! a = links !! a) -> flist links' p l.
Proof.
  induction l as [|a l IH]; cbn [flist]; intros p H F; [done|].
  destruct H as (-> & ? & n & E & H). split; [done|]. split; [done|]. exists n.
  rewrite F by set_solver. split; [done|]. apply IH; [done|]. intros. apply F. set_solver.
Qed.

(** The elements [carve] makes: [size] bytes apart, the last one in front. *)
Fixpoint carved (n : nat) (size memp : Z) (l : list Z) : list Z :=
  match n with
  | O => l
  | S n => carved n size (memp + size) (memp :: l)
  end.

Lemma carve_spec size : 0 < size -> forall n memp head links l,
  0 < memp -> flist links head l -> Forall (fun a => 0 < a < memp) l ->
  exists links', carve n size memp head links
      = (memp + Z.of_nat n * size, hd 0 (carved n size memp l), links') /\
    flist links' (hd 0 (carved n size memp l)) (carved n size memp l) /\
    (forall a, a < memp -> links' !! a = links !! a).
Proof.
  intros Hs. induction n as [|n IH]; intros memp head links l Hm Hl Hb; cbn [carve carved].
  - exists links. replace (memp + Z.of_nat 0 * size) with memp by lia.
    destruct l as [|a l]; cbn [flist hd] in *; [by subst|].
    destruct Hl as (-> & ? & ?). auto.
  - unfold MEMP_SIZE. replace (memp + 0 + size) with (memp + size) by lia.
    destruct (IH (memp + size) memp (<[memp := head]> links) (memp :: l)) as (links' & E & F & G).
    + lia.
    + cbn [flist]. split; [done|]. split; [lia|]. exists head. rewrite lookup_insert_eq.
      split; [done|]. eapply flist_frame; [done|]. intros a Ha.
      rewrite Forall_forall in Hb. apply Hb in Ha. rewrite lookup_insert_ne by lia. done.
    + constructor; [lia|]. eapply Forall_impl; [done|]. simpl. lia.
    + exists links'. split; [rewrite E; do 2 f_equal; lia|]. split; [done|].
      intros a Ha. rewrite G, lookup_insert_ne by lia. done.
Qed.

(** ** Splits and their updates *)

Lemma NoDup_mjoin_same {A} (es : list (list A)) : NoDup (mjoin es) ->
  forall i j e e' a, es !! i = Some e -> es !! j = Some e' -> a ∈ e -> a ∈ e' -> i = j.
Proof.
  induction es as [|e0 es IH]; [done|]. change (mjoin (e0 :: es)) with (e0 ++ mjoin es).
  rewrite NoDup_app. intros (_ & D & N) [|i] [|j] e e' a; simpl; intros Hi Hj Ha Ha'.
  - done.
  - simplify_eq. destruct (D a Ha). apply list_elem_of_join. eauto using list_elem_of_lookup_2.
  - simplify_eq. destruct (D a Ha'). apply list_elem_of_join. eauto using list_elem_of_lookup_2.
  - f_equal. by eapply IH.
Qed.

Lemma NoDup_mjoin_lookup {A} (es : list (list A)) i e :
  NoDup (mjoin es) -> es !! i = Some e -> NoDup e.
Proof.
  revert i. induction es as [|e0 es IH]; intros i; [done|].
  change (mjoin (e0 :: es)) with (e0 ++ mjoin es). rewrite NoDup_app.
  intros (? & _ & N). destruct i; simpl; [by intros [= <-]|]. by apply IH.
Qed.

Lemma Forall2_insert_r {A B} (P : A -> B -> Prop) l k i x y :
  Forall2 P l k -> l !! i = Some x -> P x y -> Forall2 P l (<[i := y]> k).
Proof. intros. rewrite <-(list_insert_id l i x) by done. by apply Forall2_insert. Qed.

Lemma list_alter_lookup_insert {A} (f : A -> A) (l : list A) i x :
  l !! i = Some x -> alter f i l = <[i := f x]> l.
Proof.
  revert i. induction l as [|y l IH]; intros [|i] E; simplify_eq/=; [done|].
  f_equal. by apply IH.
Qed.

Lemma list_alter_None {A} (f : A -> A) (l : list A) i :
  l !! i = None -> alter f i l = l.
Proof.
  revert i. induction l as [|y l IH]; intros [|i] E; simplify_eq/=; [done..|].
  f_equal. by apply IH.
Qed.

Lemma Forall2_alter_insert {A B} (P : A -> B -> Prop) f l k i x y :
  Forall2 P l k -> l !! i = Some x -> P (f x) y -> Forall2 P (alter f i l) (<[i := y]> k).
Proof.
  intros H E Hy. rewrite (list_alter_lookup_insert f l i x E). by apply Forall2_insert.
Qed.

Section Pools.
Context (es : list (list Z)) (s : memp_state) (gs : list split_pool).
Hypothesis (I : memp_inv es s gs).

Lemma inv_lookup i g : gs !! i = Some g -> exists h st e,
  memp_tab s !! i = Some h /\ memp_stats s !! i = Some st /\ es !! i = Some e /\
  flist (links s) h (freel g) /\ e ≡ₚ freel g ++ out g /\
  Mem.st_used st = Z.of_nat (length (out g)).
Proof.
  intros E. destruct I as [L P U _ _].
  destruct (Forall2_lookup_r _ _ _ _ _ L E) as (h & ? & ?).
  destruct (Forall2_lookup_r _ _ _ _ _ P E) as (e & ? & ?).
  destruct (Forall2_lookup_r _ _ _ _ _ U E) as (st & ? & ?). eauto 10.
Qed.

(** An element handed out is in no free list. *)
Lemma out_not_free i j g g' a :
  gs !! i = Some g -> gs !! j = Some g' -> a ∈ out g -> a ∈ freel g' -> False.
Proof.
  intros Ei Ej Ha Ha'.
  destruct (inv_lookup i g Ei) as (_ & _ & e & _ & _ & Ee & _ & Pe & _).
  destruct (inv_lookup j g' Ej) as (_ & _ & e' & _ & _ & Ee' & _ & Pe' & _).
  assert (i = j) as <-.
  { eapply (NoDup_mjoin_same es (inv_nodup _ _ _ I) i j e e' a); [done|done| |].
    - rewrite Pe. set_solver.
    - rewrite Pe'. set_solver. }
  simplify_eq. pose proof (NoDup_mjoin_lookup _ _ _ (inv_nodup _ _ _ I) Ee) as N.
  rewrite Pe, NoDup_app in N. destruct N as (_ & N & _). by eapply N.
Qed.

Lemma malloc_some i g a f : gs !! i = Some g -> freel g = a :: f ->
  exists s', memp_malloc i s = Some (a, s') /\
    memp_inv es s' (<[i := mk_split f (a :: out g)]> gs).
Proof.
  intros E Ef. destruct (inv_lookup i g E) as (h & st & e & Eh & Es & Ee & Fl & Pe & U).
  rewrite Ef in Fl, Pe. destruct Fl as (-> & Hnz & n & En & Fl).
  eexists. split.
  - unfold memp_malloc. rewrite Eh, (proj2 (Z.eqb_neq a 0)) by done. rewrite En. simpl.
    unfold MEMP_SIZE. by rewrite Z.add_0_r.
  - destruct I as [L P Us N Sm]. split; cbn [memp_tab links memp_stats]; [| | |done|done].
    + apply Forall2_insert; [done|]. done.
    + eapply Forall2_insert_r; [done..|]. cbn [freel out]. rewrite Pe. simpl.
      by rewrite <-Permutation_middle.
    + eapply Forall2_alter_insert; [done..|]. cbn [out length Mem.MEM_STATS_INC_USED inc_used Mem.st_used].
      rewrite U. pose proof (Forall_lookup_1 _ _ _ _ Sm Ee) as Hs. simpl in Hs.
      rewrite Pe in Hs. cbn [length app] in Hs. rewrite length_app in Hs.
      rewrite wrap_id by cint. lia.
Qed.

Lemma malloc_empty i g : gs !! i = Some g -> freel g = [] ->
  memp_malloc i s = Some (0,
    mk_memp (memp_tab s) (links s) (alter Mem.MEM_STATS_INC_err i (memp_stats s))).
Proof.
  intros E Ef. destruct (inv_lookup i g E) as (h & st & e & Eh & Es & Ee & Fl & Pe & U).
  rewrite Ef in Fl. simpl in Fl. subst h. unfold memp_malloc. by rewrite Eh.
Qed.

Lemma free_spec i g u1 a u2 : gs !! i = Some g -> out g = u1 ++ a :: u2 -> a ≠ 0 ->
  exists s', memp_free i a s = Some s' /\
    memp_inv es s' (<[i := mk_split (a :: freel g) (u1 ++ u2)]> gs).
Proof.
  intros E Eo Hnz. destruct (inv_lookup i g E) as (h & st & e & Eh & Es & Ee & Fl & Pe & U).
  assert (forall j g', gs !! j = Some g' -> forall b, b ∈ freel g' -> b ≠ a) as Ne.
  { intros j g' Ej b Hb ->. eapply (out_not_free i j); [done..| |done]. rewrite Eo. set_solver. }
  eexists. split.
  - unfold memp_free. rewrite (proj2 (Z.eqb_neq a 0)) by done. rewrite Eh. simpl.
    unfold MEMP_SIZE. rewrite Z.sub_0_r. done.
  - destruct I as [L P Us N Sm]. split; cbn [memp_tab links memp_stats]; [| | |done|done].
    + apply Forall2_insert.
      * rewrite Forall2_lookup in L |- *. intros j. specialize (L j).
        destruct (gs !! j) as [g'|] eqn:Ej; inversion L as [x y Hf Hx Hy|Hx]; constructor. subst.
        eapply flist_frame; [done|]. intros b Hb. apply lookup_insert_ne.
        intros ->. by eapply Ne.
      * cbn [freel flist]. split; [done|]. split; [done|]. exists h.
        split; [apply lookup_insert_eq|]. eapply flist_frame; [done|].
        intros b Hb. apply lookup_insert_ne. intros ->. by eapply Ne.
    + eapply Forall2_insert_r; [done..|]. cbn [freel out]. rewrite Pe, Eo. simpl.
      by rewrite <-!Permutation_middle, app_assoc.
    + eapply Forall2_alter_insert; [done..|].
      cbn [out Mem.MEM_STATS_DEC_USED dec_used Mem.st_used]. rewrite U, Eo.
      pose proof (Forall_lookup_1 _ _ _ _ Sm Ee) as Hs. simpl in Hs.
      rewrite Pe, Eo in Hs. rewrite !length_app in Hs. rewrite !length_app. cbn [length] in *.
      rewrite wrap_id by cint. lia.
Qed.
End Pools.

(** ** Initialisation *)

Lemma carved_reverse size n : forall memp l,
  carved n size memp l
  = reverse ((fun k : nat => memp + Z.of_nat k * size) <$> seq 0 n) ++ l.
Proof.
  induction n as [|n IH]; intros memp l; [done|]. cbn [carved]. rewrite IH.
  cbn [seq fmap list_fmap]. rewrite reverse_cons, <-app_assoc.
  rewrite <-fmap_S_seq, <-list_fmap_compose. f_equal.
  - f_equal. apply list_fmap_ext. intros. simpl. lia.
  - simpl. f_equal. lia.
Qed.

Lemma pool_elems_bound memp p a : a ∈ pool_elems memp p -> 0 < memp_size p ->
  memp <= a /\ a + memp_size p <= memp + pool_bytes p.
Proof.
  unfold pool_elems, pool_bytes. intros Ha Hs. apply list_elem_of_fmap in Ha as (k & -> & Hk).
  apply elem_of_seq in Hk. nia.
Qed.

Lemma elements_bound pools : forall memp i e a,
  Forall (fun p => 0 < memp_size p) pools ->
  elements pools memp !! i = Some e -> a ∈ e -> memp <= a.
Proof.
  induction pools as [|p pools IH]; intros memp i e a; [done|].
  intros [Hp F]%Forall_cons. destruct i as [|i]; simpl.
  - intros [= <-] Ha. by apply pool_elems_bound in Ha as [? _].
  - intros E Ha. pose proof (IH _ _ _ _ F E Ha). unfold pool_bytes in *. nia.
Qed.

(** Two elements with the sizes of their pools share no byte. *)
Lemma elements_disjoint pools : forall memp i j pi pj ei ej a b,
  Forall (fun p => 0 < memp_size p) pools ->
  pools !! i = Some pi -> pools !! j = Some pj ->
  elements pools memp !! i = Some ei -> elements pools memp !! j = Some ej ->
  a ∈ ei -> b ∈ ej -> (i, a) ≠ (j, b) ->
  a + memp_size pi <= b \/ b + memp_size pj <= a.
Proof.
  induction pools as [|p pools IH]; intros memp i j pi pj ei ej a b; [done|].
  intros [Hp F]%Forall_cons. destruct i as [|i], j as [|j]; simpl; intros Hi Hj Ei Ej Ha Hb Hn;
    simplify_eq.
  - unfold pool_elems in Ha, Hb. apply list_elem_of_fmap in Ha as (k & -> & _).
    apply list_elem_of_fmap in Hb as (k' & -> & _).
    assert (k ≠ k') by congruence. nia.
  - left. apply pool_elems_bound in Ha; [|done].
    pose proof (elements_bound _ _ _ _ _ F Ej Hb). lia.
  - right. apply pool_elems_bound in Hb; [|done].
    pose proof (elements_bound _ _ _ _ _ F Ei Ha). lia.
  - eapply (IH (memp + pool_bytes p) i j); try done. congruence.
Qed.

Lemma elements_NoDup pools : forall memp, Forall (fun p => 0 < memp_size p) pools ->
  NoDup (mjoin (elements pools memp)).
Proof.
  induction pools as [|p pools IH]; intros memp; [constructor|].
  intros [Hp F]%Forall_cons. cbn [elements].
  change (mjoin (?x :: ?y)) with (x ++ mjoin y). apply NoDup_app. split; [|split].
  - unfold pool_elems. apply NoDup_fmap_2_strong; [intros; nia|apply NoDup_seq].
  - intros a Ha (e & He & Hi)%list_elem_of_join. apply pool_elems_bound in Ha; [|done].
    apply list_elem_of_lookup_1 in Hi as (i & Hi).
    pose proof (elements_bound _ _ _ _ _ F Hi He). lia.
  - by apply IH.
Qed.

Lemma carve_pools_spec pools : forall memp links,
  0 < memp -> Forall (fun p => 0 < memp_size p) pools ->
  exists tab links', carve_pools pools memp links = (tab, links') /\
    Forall2 (fun h e => flist links' h (reverse e)) tab (elements pools memp) /\
    (forall a, a < memp -> links' !! a = links !! a).
Proof.
  induction pools as [|p pools IH]; intros memp links Hm F; cbn [carve_pools elements].
  { eexists [], links. auto. }
  apply Forall_cons in F as [Hp F].
  destruct (carve_spec (memp_size p) Hp (memp_num p) memp 0 links [] Hm) as (l1 & -> & Fl & Fr);
    [done|constructor|].
  rewrite carved_reverse, app_nil_r in Fl |- *. fold (pool_elems memp p) in Fl |- *.
  fold (pool_bytes p). destruct (IH (memp + pool_bytes p) l1) as (tab & l2 & -> & F2 & Fr2);
    [unfold pool_bytes; nia|done|].
  eexists _, l2. split; [done|]. split.
  - constructor; [|done]. eapply flist_frame; [done|]. intros a Ha.
    apply elem_of_reverse, pool_elems_bound in Ha as [_ Ha]; [|done]. apply Fr2. lia.
  - intros a Ha. rewrite Fr2, Fr; [done|lia|unfold pool_bytes; nia].
Qed.

(** The split after [memp_init]: everything free. *)
Definition all_free (es : list (list Z)) : list split_pool :=
  (fun e => mk_split (reverse e) []) <$> es.

Definition pools_ok (pools : list pool) : Prop :=
  Forall (fun p => 0 < memp_size p /\ Z.of_nat (memp_num p) < 2 ^ 16) pools.

Lemma elements_small pools : forall memp, pools_ok pools ->
  Forall (fun e => Z.of_nat (length e) < 2 ^ 32) (elements pools memp).
Proof.
  induction pools as [|p pools IH]; intros memp F; cbn [elements]; [constructor|].
  apply Forall_cons in F as [[? ?] F]. constructor; [|by apply IH].
  unfold pool_elems. rewrite length_fmap, length_seq. cint.
Qed.

Lemma elements_length pools : forall memp, length (elements pools memp) = length pools.
Proof. induction pools; intros; simpl; [done|]. by f_equal. Qed.

Lemma memp_init_inv pools memory : pools_ok pools -> 0 < Mem.LWIP_MEM_ALIGN memory ->
  memp_inv (elements pools (Mem.LWIP_MEM_ALIGN memory)) (memp_init pools memory)
    (all_free (elements pools (Mem.LWIP_MEM_ALIGN memory))).
Proof.
  intros Hp Hm. unfold memp_init.
  assert (Forall (fun p => 0 < memp_size p) pools) as Hs.
  { eapply Forall_impl; [exact Hp|]. by intros p [? _]. }
  destruct (carve_pools_spec pools _ ∅ Hm Hs) as (tab & l & -> & F & _).
  split; cbn [memp_tab links memp_stats]; unfold all_free.
  - apply Forall2_fmap_r. done.
  - apply Forall2_fmap_r, Forall_Forall2_diag, Forall_true. intros e. simpl.
    by rewrite app_nil_r, reverse_Permutation.
  - apply Forall2_fmap_r, Forall2_fmap_l, Forall2_same_length_lookup_2;
      [by rewrite elements_length|done].
  - by apply elements_NoDup.
  - by apply elements_small.
Qed.

(** ** Clients

    Clients hold the elements [held] (pool, address).  They take an element of
    a pool, which may fail, and give back one they hold. *)
Inductive client_step : memp_state * list (nat * Z) -> memp_state * list (nat * Z) -> Prop :=
  | step_take i s s' a held : memp_malloc i s = Some (a, s') -> a ≠ 0 ->
      client_step (s, held) (s', (i, a) :: held)
  | step_refused i s s' held : memp_malloc i s = Some (0, s') ->
      client_step (s, held) (s', held)
  | step_give i a s s' h1 h2 : memp_free i a s = Some s' ->
      client_step (s, h1 ++ (i, a) :: h2) (s', h1 ++ h2).

(** The elements of pool [i] among [held]. *)
Definition held_of (i : nat) (held : list (nat * Z)) : list Z :=
  snd <$> filter (fun x => x.1 = i) held.

Definition client_inv (es : list (list Z)) (c : memp_state * list (nat * Z)) : Prop :=
  exists gs, memp_inv es c.1 gs /\
    (forall i g, gs !! i = Some g -> out g ≡ₚ held_of i c.2) /\
    (forall i a, ((i, a) ∈ c.2) -> is_Some (gs !! i) /\ a ≠ 0).

Lemma held_of_cons i j a held :
  held_of i ((j, a) :: held) = if decide (j = i) then a :: held_of i held else held_of i held.
Proof. unfold held_of. rewrite filter_cons. simpl. by case_decide. Qed.

Lemma held_of_middle i a h1 h2 :
  held_of i (h1 ++ (i, a) :: h2) = held_of i h1 ++ a :: held_of i h2.
Proof. unfold held_of. rewrite filter_app, filter_cons_True by done. by rewrite fmap_app. Qed.

Lemma held_of_middle_ne i j a h1 h2 : i ≠ j ->
  held_of i (h1 ++ (j, a) :: h2) = held_of i (h1 ++ h2).
Proof.
  intros. unfold held_of. rewrite !filter_app, filter_cons_False by (simpl; congruence). done.
Qed.

Lemma malloc_out_of_range es s gs i : memp_inv es s gs -> gs !! i = None ->
  memp_malloc i s = Some (0, s).
Proof.
  intros I E. unfold memp_malloc.
  replace (memp_tab s !! i) with (@None Z); [done|]. symmetry.
  apply lookup_ge_None in E. apply lookup_ge_None.
  by rewrite (Forall2_length _ _ _ (inv_lists _ _ _ I)).
Qed.

Lemma inv_err es s gs i : memp_inv es s gs ->
  memp_inv es (mk_memp (memp_tab s) (links s) (alter Mem.MEM_STATS_INC_err i (memp_stats s))) gs.
Proof.
  intros [L P U N Sm]. split; try done. cbn [memp_stats].
  destruct (memp_stats s !! i) as [st|] eqn:E.
  - destruct (Forall2_lookup_l _ _ _ _ _ U E) as (g & Eg & Hg).
    rewrite <-(list_insert_id gs i g) by done. by eapply Forall2_alter_insert.
  - by rewrite list_alter_None.
Qed.

Lemma malloc_cases es s gs i a s' : memp_inv es s gs -> memp_malloc i s = Some (a, s') ->
  (a = 0 /\ memp_inv es s' gs /\ (forall g, gs !! i = Some g -> freel g = [])) \/
  (exists g f, a ≠ 0 /\ gs !! i = Some g /\ freel g = a :: f /\
     memp_inv es s' (<[i := mk_split f (a :: out g)]> gs)).
Proof.
  intros I E. destruct (gs !! i) as [g|] eqn:Eg.
  - destruct (freel g) as [|b f] eqn:Ef.
    + rewrite (malloc_empty es s gs I i g Eg Ef) in E. simplify_eq. left.
      split; [done|]. split; [by apply inv_err|]. intros. by simplify_eq.
    + destruct (malloc_some es s gs I i g b f Eg Ef) as (s1 & E1 & I1). simplify_eq. right.
      exists g, f. split; [|done].
      destruct (inv_lookup es s gs I i g Eg) as (? & ? & ? & _ & _ & _ & Fl & _).
      rewrite Ef in Fl. by destruct Fl as (? & ? & _).
  - rewrite (malloc_out_of_range es s gs i I Eg) in E. simplify_eq. by left.
Qed.

Lemma client_inv_step es c c' : client_inv es c -> client_step c c' -> client_inv es c'.
Proof.
  intros (gs & I & H & Hheld) St. destruct St as [i s s' a held E Ha|i s s' held E|i a s s' h1 h2 E];
    cbn [fst snd] in *.
  - destruct (malloc_cases _ _ _ _ _ _ I E) as [[? _]|(g & f & _ & Eg & Ef & I')]; [done|].
    exists (<[i := mk_split f (a :: out g)]> gs). split; [done|]. cbn [snd]. split.
    + intros j g' Hg'. rewrite held_of_cons. case_decide as D.
      * subst j. rewrite list_lookup_insert_eq in Hg' by eauto using lookup_lt_Some. simplify_eq.
        cbn [out]. by rewrite (H i g Eg).
      * rewrite list_lookup_insert_ne in Hg' by done. by apply H.
    + intros j b [Hj|Hj]%elem_of_cons.
      * simplify_eq. rewrite list_lookup_insert_eq by eauto using lookup_lt_Some. eauto.
      * apply Hheld in Hj as [[g' Hg'] ?]. split; [|done].
        apply lookup_lt_is_Some. rewrite length_insert. eauto using lookup_lt_Some.
  - destruct (malloc_cases _ _ _ _ _ _ I E) as [[_ [? _]]|(g & f & ? & _)]; [|done].
    by exists gs.
  - destruct (Hheld i a) as [[g Eg] Ha]; [set_solver|].
    assert (a ∈ out g) as Ho.
    { rewrite (H i g Eg), held_of_middle. set_solver. }
    apply list_elem_of_split in Ho as (u1 & u2 & Ho).
    destruct (free_spec es s gs I i g u1 a u2 Eg Ho Ha) as (s1 & E1 & I1). simplify_eq.
    eexists. split; [exact I1|]. cbn [snd]. split.
    + intros j g' Hg'. destruct (decide (i = j)) as [<-|D].
      * rewrite list_lookup_insert_eq in Hg' by eauto using lookup_lt_Some. simplify_eq. cbn [out].
        pose proof (H i g Eg) as P. rewrite held_of_middle, Ho in P.
        apply Permutation_app_inv in P. rewrite P. unfold held_of. by rewrite filter_app, fmap_app.
      * rewrite list_lookup_insert_ne in Hg' by done. rewrite (H j g' Hg').
        by rewrite held_of_middle_ne.
    + intros j b Hj. destruct (Hheld j b) as [[g' Hg'] ?]; [set_solver|]. split; [|done].
      apply lookup_lt_is_Some. rewrite length_insert. eauto using lookup_lt_Some.
Qed.

Lemma client_inv_reach es c c' : client_inv es c -> rtc client_step c c' -> client_inv es c'.
Proof. intros I R. induction R; eauto using client_inv_step. Qed.

Lemma client_inv_init pools memory : pools_ok pools -> 0 < Mem.LWIP_MEM_ALIGN memory ->
  client_inv (elements pools (Mem.LWIP_MEM_ALIGN memory)) (memp_init pools memory, []).
Proof.
  intros Hp Hm. eexists. split; [by apply memp_init_inv|]. cbn [snd]. split.
  - intros i g. unfold all_free. rewrite list_lookup_fmap_Some. by intros (e & -> & _).
  - intros i a Ha. by apply not_elem_of_nil in Ha.
Qed.

Lemma client_inv_perm es s held held' : held ≡ₚ held' ->
  client_inv es (s, held) -> client_inv es (s, held').
Proof.
  intros P (gs & I & H & Hheld). exists gs. cbn [fst snd] in *. split; [done|]. split.
  - intros i g Eg. rewrite (H i g Eg). unfold held_of. by rewrite P.
  - intros i a. rewrite <-P. apply Hheld.
Qed.

Lemma malloc_total es s held i : client_inv es (s, held) ->
  exists a s', memp_malloc i s = Some (a, s').
Proof.
  intros (gs & I & _). cbn [fst] in I. destruct (gs !! i) as [g|] eqn:Eg.
  - destruct (freel g) as [|b f] eqn:Ef.
    + eexists _, _. by eapply malloc_empty.
    + destruct (malloc_some _ _ _ I i g b f Eg Ef) as (s' & E & _). eauto.
  - eexists _, _. by eapply malloc_out_of_range.
Qed.

Lemma free_total es s held h1 i a h2 : client_inv es (s, held) -> held = h1 ++ (i, a) :: h2 ->
  exists s', memp_free i a s = Some s'.
Proof.
  intros (gs & I & _ & Hheld) ->. cbn [fst snd] in *.
  destruct (Hheld i a) as [[g Eg] Hnz]; [set_solver|].
  destruct (inv_lookup _ _ _ I i g Eg) as (h & _ & _ & Eh & _).
  unfold memp_free. rewrite (proj2 (Z.eqb_neq a 0)), Eh by done. by eexists.
Qed.

(** The state and the holdings of clients after any run from [memp_init]. *)
Definition reachable (pools : list pool) (memory : Z) (c : memp_state * list (nat * Z)) : Prop :=
  rtc client_step (memp_init pools memory, []) c.

(** ** Properties *)

Lemma held_lookup es s held m i a : client_inv es (s, held) -> held !! m = Some (i, a) ->
  exists e, es !! i = Some e /\ a ∈ e.
Proof.
  intros (gs & I & H & Hheld) E. cbn [fst snd] in *.
  assert ((i, a) ∈ held) as Hin by eauto using list_elem_of_lookup_2.
  destruct (Hheld i a Hin) as [[g Eg] _].
  destruct (inv_lookup es s gs I i g Eg) as (_ & _ & e & _ & _ & Ee & _ & Pe & _).
  exists e. split; [done|]. rewrite Pe, (H i g Eg). apply elem_of_app. right.
  unfold held_of. apply list_elem_of_fmap. exists (i, a). split; [done|].
  by apply list_elem_of_filter.
Qed.

Lemma held_distinct es s held m n i a : client_inv es (s, held) ->
  held !! m = Some (i, a) -> held !! n = Some (i, a) -> m = n.
Proof.
  intros (gs & I & H & Hheld) Em En. cbn [fst snd] in *.
  assert (NoDup held) as N; [|by eapply NoDup_lookup].
  assert (forall j, NoDup (held_of j held)) as Nj.
  { intros j. destruct (gs !! j) as [g|] eqn:Eg.
    - rewrite <-(H j g Eg).
      destruct (inv_lookup es s gs I j g Eg) as (_ & _ & e & _ & _ & Ee & _ & Pe & _).
      pose proof (NoDup_mjoin_lookup _ _ _ (inv_nodup _ _ _ I) Ee) as Ne.
      rewrite Pe, NoDup_app in Ne. apply Ne.
    - replace (held_of j held) with (@nil Z); [constructor|]. symmetry.
      unfold held_of. destruct (filter _ held) as [|[j' b] l] eqn:F; [done|].
      assert ((j', b) ∈ filter (fun x : nat * Z => x.1 = j) held) as Hf by (rewrite F; set_solver).
      apply list_elem_of_filter in Hf as [Hj Hf]. simpl in Hj. subst j'.
      apply Hheld in Hf as [[? ?] _]. congruence. }
  clear -Nj. induction held as [|[j b] held IH]; constructor.
  - intros Hin. specialize (Nj j). rewrite held_of_cons, decide_True in Nj by done.
    inversion Nj as [|? ? Hn _]. apply Hn. unfold held_of. apply list_elem_of_fmap.
    exists (j, b). split; [done|]. by apply list_elem_of_filter.
  - apply IH. intros j'. specialize (Nj j'). rewrite held_of_cons in Nj.
    case_decide; [by inversion Nj|done].
Qed.

Lemma elements_range pools : forall memp i e a p,
  Forall (fun p => 0 < memp_size p) pools ->
  elements pools memp !! i = Some e -> pools !! i = Some p -> a ∈ e ->
  memp <= a /\ a + memp_size p <= memp + foldr (fun p n => pool_bytes p + n) 0 pools.
Proof.
  induction pools as [|p0 pools IH]; intros memp i e a p; [done|].
  intros [Hp F]%Forall_cons. cbn [foldr].
  assert (0 <= foldr (fun p n => pool_bytes p + n) 0 pools) as Hnn.
  { clear -F. induction F as [|q l Hq Hl IHl]; cbn [foldr]; unfold pool_bytes in *; [lia|nia]. }
  destruct i as [|i]; simpl; intros Ee Ep Ha; simplify_eq.
  - apply pool_elems_bound in Ha; [|done]. lia.
  - pose proof (IH _ _ _ _ _ F Ee Ep Ha). unfold pool_bytes in *. nia.
Qed.

Lemma elements_pool pools : forall memp i e, elements pools memp !! i = Some e ->
  exists p, pools !! i = Some p /\ length e = memp_num p.
Proof.
  induction pools as [|p0 pools IH]; intros memp i e; [done|].
  destruct i as [|i]; simpl; [|by apply IH]. intros [= <-].
  exists p0. split; [done|]. unfold pool_elems. by rewrite length_fmap, length_seq.
Qed.

Lemma pools_ok_sizes pools : pools_ok pools -> Forall (fun p => 0 < memp_size p) pools.
Proof. intros H. eapply Forall_impl; [exact H|]. by intros p [? _]. Qed.

(** Whatever sequence of [memp_malloc] and [memp_free] clients run after
    [memp_init], two elements they hold at the same time, also of different
    pools, share no byte, and an element lies inside [memp_memory] (its size is
    the sum of the pools). *)
Theorem memp_exclusive pools memory s held m n i j a b :
  pools_ok pools -> 0 < Mem.LWIP_MEM_ALIGN memory ->
  reachable pools memory (s, held) ->
  held !! m = Some (i, a) -> held !! n = Some (j, b) -> m ≠ n ->
  exists pi pj, pools !! i = Some pi /\ pools !! j = Some pj /\
    (a + memp_size pi <= b \/ b + memp_size pj <= a) /\
    Mem.LWIP_MEM_ALIGN memory <= a /\
    a + memp_size pi <= Mem.LWIP_MEM_ALIGN memory + foldr (fun p n => pool_bytes p + n) 0 pools.
Proof.
  intros Hp Hm R Ea Eb D.
  pose proof (client_inv_reach _ _ _ (client_inv_init _ _ Hp Hm) R) as I.
  destruct (held_lookup _ _ _ _ _ _ I Ea) as (ea & Eea & Ha).
  destruct (held_lookup _ _ _ _ _ _ I Eb) as (eb & Eeb & Hb).
  destruct (elements_pool _ _ _ _ Eea) as (pi & Hi & _).
  destruct (elements_pool _ _ _ _ Eeb) as (pj & Hj & _).
  apply pools_ok_sizes in Hp. exists pi, pj. split; [done|]. split; [done|]. split.
  - eapply elements_disjoint; try done. intros Heq. simplify_eq. by eapply D, held_distinct.
  - exact (elements_range _ _ _ _ _ _ Hp Eea Hi Ha).
Qed.

(** After any run of the clients, [memp_malloc] of pool [i] returns
    (it never follows a dangling link); it returns NULL exactly when clients
    hold all [memp_num] elements of the pool, and otherwise an element none of
    them holds; the [used] statistic counts the elements held. *)
Theorem memp_malloc_available pools memory s held i p :
  pools_ok pools -> 0 < Mem.LWIP_MEM_ALIGN memory ->
  reachable pools memory (s, held) -> pools !! i = Some p ->
  exists a s' st, memp_malloc i s = Some (a, s') /\
    (a = 0 <-> length (held_of i held) = memp_num p) /\
    (a ∉ held_of i held) /\
    memp_stats s !! i = Some st /\ Mem.st_used st = Z.of_nat (length (held_of i held)).
Proof.
  intros Hp Hm R Ep.
  destruct (client_inv_reach _ _ _ (client_inv_init _ _ Hp Hm) R) as (gs & I & H & Hheld).
  cbn [fst snd] in *.
  assert (exists g, gs !! i = Some g) as [g Eg].
  { apply lookup_lt_is_Some. rewrite <-(Forall2_length _ _ _ (inv_part _ _ _ I)), elements_length.
    eauto using lookup_lt_Some. }
  destruct (inv_lookup _ _ _ I i g Eg) as (h & st & e & Eh & Es & Ee & Fl & Pe & U).
  destruct (elements_pool _ _ _ _ Ee) as (p' & Ep' & Le). simplify_eq.
  pose proof (Permutation_length Pe) as Lp. rewrite length_app, Le, (H i g Eg) in Lp.
  rewrite (H i g Eg) in U. destruct (freel g) as [|a f] eqn:Ef.
  - eexists 0, _, st. split; [by eapply malloc_empty|]. split; [simpl in Lp; lia|]. split; [|done].
    intros (x & Hx & Hf)%list_elem_of_fmap. apply list_elem_of_filter in Hf as [_ Hf].
    destruct x as [j x]. simpl in Hx. subst x. by apply Hheld in Hf as [_ ?].
  - destruct (malloc_some _ _ _ I i g a f Eg Ef) as (s' & E & _). exists a, s', st.
    split; [done|]. destruct Fl as (-> & Hnz & _). split; [|split; [|done]].
    + cbn [length] in Lp. split; [done|lia].
    + rewrite <-(H i g Eg). intros Ho.
      eapply (out_not_free _ _ _ I i i g g a); try done. rewrite Ef. set_solver.
Qed.

(** Giving an element back and asking the same pool again returns
    that element (the pools are LIFO) and restores every list head. *)
Theorem memp_free_malloc pools memory s held m i a :
  pools_ok pools -> 0 < Mem.LWIP_MEM_ALIGN memory ->
  reachable pools memory (s, held) -> held !! m = Some (i, a) ->
  exists s' s'', memp_free i a s = Some s' /\ memp_malloc i s' = Some (a, s'') /\
    memp_tab s'' = memp_tab s.
Proof.
  intros Hp Hm R Ea.
  destruct (client_inv_reach _ _ _ (client_inv_init _ _ Hp Hm) R) as (gs & I & H & Hheld).
  cbn [fst snd] in *. destruct (Hheld i a) as [[g Eg] Hnz]; [eauto using list_elem_of_lookup_2|].
  destruct (inv_lookup _ _ _ I i g Eg) as (h & st & e & Eh & _).
  eexists _, _. split.
  { unfold memp_free. rewrite (proj2 (Z.eqb_neq a 0)), Eh by done. done. }
  unfold memp_malloc, MEMP_SIZE. cbn [memp_tab links].
  rewrite list_lookup_insert_eq by eauto using lookup_lt_Some. rewrite Z.sub_0_r, Z.add_0_r.
  rewrite (proj2 (Z.eqb_neq a 0)), lookup_insert_eq by done. simpl.
  split; [done|]. cbn [memp_tab]. rewrite list_insert_insert_eq. by apply list_insert_id.
Qed.

(** Two pools, of three 16-byte and two 528-byte elements. *)
Definition two_pools : list pool := [mk_pool 3 16; mk_pool 2 528].

Definition take_n (i : nat) (c : memp_state * list (nat * Z)) : memp_state * list (nat * Z) :=
  match memp_malloc i c.1 with
  | Some (a, s) => if a =? 0 then (s, c.2) else (s, (i, a) :: c.2)
  | None => c
  end.

Definition after_three : memp_state * list (nat * Z) :=
  take_n 0 (take_n 1 (take_n 0 (memp_init two_pools 4097, []))).

Lemma take_n_step i c0 c : rtc client_step c0 c -> is_Some (memp_malloc i c.1) ->
  rtc client_step c0 (take_n i c).
Proof.
  intros R [[a s'] E]. eapply rtc_r; [exact R|]. unfold take_n. rewrite E. destruct c as [s held].
  destruct (Z.eqb_spec a 0) as [->|]; [by eapply step_refused|by apply step_take].
Qed.

Lemma after_three_reachable : reachable two_pools 4097 after_three.
Proof.
  unfold reachable, after_three.
  do 3 (apply take_n_step; [|vm_compute; eexists; reflexivity]). apply rtc_refl.
Qed.

Lemma two_pools_ok : pools_ok two_pools.
Proof. repeat constructor. Qed.

Lemma memp_exclusive_witness : exists pi pj,
  two_pools !! 0%nat = Some pi /\ two_pools !! 1%nat = Some pj /\
    (4116 + memp_size pi <= 4676 \/ 4676 + memp_size pj <= 4116) /\
    Mem.LWIP_MEM_ALIGN 4097 <= 4116 /\
    4116 + memp_size pi
      <= Mem.LWIP_MEM_ALIGN 4097 + foldr (fun p n => pool_bytes p + n) 0 two_pools.
Proof.
  apply (memp_exclusive two_pools 4097 after_three.1 after_three.2 0 1 0 1 4116 4676);
    [apply two_pools_ok|vm_compute; reflexivity|exact after_three_reachable
    |vm_compute; reflexivity|vm_compute; reflexivity|done].
Defined.

Lemma memp_malloc_available_witness : exists a s' st,
  memp_malloc 0 after_three.1 = Some (a, s') /\
    (a = 0 <-> length (held_of 0 after_three.2) = 3%nat) /\
    (a ∉ held_of 0 after_three.2) /\
    memp_stats after_three.1 !! 0%nat = Some st /\
    Mem.st_used st = Z.of_nat (length (held_of 0 after_three.2)).
Proof.
  apply (memp_malloc_available two_pools 4097 after_three.1 after_three.2 0 (mk_pool 3 16));
    [apply two_pools_ok|vm_compute; reflexivity|exact after_three_reachable|reflexivity].
Defined.

Lemma memp_free_malloc_witness : exists s' s'',
  memp_free 1 4676 after_three.1 = Some s' /\ memp_malloc 1 s' = Some (4676, s'') /\
    memp_tab s'' = memp_tab after_three.1.
Proof.
  apply (memp_free_malloc two_pools 4097 after_three.1 after_three.2 1);
    [apply two_pools_ok|vm_compute; reflexivity|exact after_three_reachable
    |vm_compute; reflexivity].
Defined.

End Memp.
