(* ===== verification/Alloc.v ===== *)
(** * What the allocators promise to their clients

    The packet buffers take memory from the heap (mem.c) and from the pools
    (memp.c).  [alloc_ops] are the calls they make and [alloc_laws] what they
    rely on: a predicate [owns a live], the allocator state [a] has handed out
    exactly the blocks [live], which every call updates.  Clients are proved
    against the two classes; [lwip_mem] is the instance made of the heap of
    [Mem] and the pools of [Memp]. *)
From S2P Require Import Prelude Mem Memp.

Module Alloc.

(** ** The interface *)

(** Where a block comes from: [mem_malloc], or [memp_malloc] of a pool. *)
Inductive origin := Heap | Pool (t : nat).

Record block := mk_block { b_addr : Z; b_org : origin; b_size : Z }.

Class alloc_ops (A : Type) := {
  malloc : Z -> A -> option (Z * A);
  free : Z -> A -> option A;
  trim : Z -> Z -> A -> option (Z * A);
  pool_malloc : nat -> A -> option (Z * A);
  pool_free : nat -> Z -> A -> option A;
  pool_elem_size : A -> nat -> option Z }.

Definition block_ok (b : block) : Prop :=
  0 < b_addr b /\ b_addr b mod 4 = 0 /\ 0 < b_size b /\ b_addr b + b_size b < 2 ^ 32.
Definition block_disj (b c : block) : Prop :=
  b_addr b + b_size b <= b_addr c \/ b_addr c + b_size c <= b_addr b.

Class alloc_laws (A : Type) {ops : alloc_ops A} := {
  owns : A -> list block -> Prop;
  owns_perm a : Proper ((≡ₚ) ==> iff) (owns a);
  owns_ok a live : owns a live -> Forall block_ok live;
  owns_heap a b live : owns a (b :: live) -> b_org b = Heap -> b_size b < 2 ^ 16;
  owns_disj a b c live : owns a (b :: c :: live) -> block_disj b c;
  malloc_law a live size : owns a live -> 0 < size < 2 ^ 32 - 3 ->
    exists p a', malloc size a = Some (p, a') /\ pool_elem_size a' = pool_elem_size a /\
      ((p = 0 /\ owns a' live) \/
       (p ≠ 0 /\ exists n, size <= n /\ owns a' (mk_block p Heap n :: live)));
  free_law a live p n : owns a (mk_block p Heap n :: live) ->
    exists a', free p a = Some a' /\ pool_elem_size a' = pool_elem_size a /\ owns a' live;
  trim_law a live p n size : owns a (mk_block p Heap n :: live) ->
    0 <= size < 2 ^ 32 - 3 -> size <= n ->
    exists a' n', trim p size a = Some (p, a') /\ pool_elem_size a' = pool_elem_size a /\
      size <= n' <= n /\ owns a' (mk_block p Heap n' :: live);
  pool_malloc_law a live t sz : owns a live -> pool_elem_size a t = Some sz ->
    exists p a', pool_malloc t a = Some (p, a') /\ pool_elem_size a' = pool_elem_size a /\
      ((p = 0 /\ owns a' live) \/ (p ≠ 0 /\ owns a' (mk_block p (Pool t) sz :: live)));
  pool_free_law a live t p sz : owns a (mk_block p (Pool t) sz :: live) ->
    exists a', pool_free t p a = Some a' /\ pool_elem_size a' = pool_elem_size a /\ owns a' live }.
#[export] Existing Instance owns_perm.

#[export] Instance origin_eq_dec : EqDecision origin.
Proof. solve_decision. Defined.

(** The elements of pool [t] among the blocks handed out. *)
Definition pool_live (t : nat) (live : list block) : list block :=
  filter (fun b => b_org b = Pool t) live.

(** For clients that count: the pools have a fixed number of elements and refuse
    only when all of them are out. *)
Class pool_laws (A : Type) {ops : alloc_ops A} {laws : alloc_laws A} := {
  pool_num : A -> nat -> option nat;
  pool_live_le a live t n : owns a live -> pool_num a t = Some n ->
    (length (pool_live t live) <= n)%nat;
  pool_malloc_full a live t n a' : owns a live -> pool_num a t = Some n ->
    pool_malloc t a = Some (0, a') -> n = length (pool_live t live);
  pool_malloc_num t a p a' : pool_malloc t a = Some (p, a') -> pool_num a' = pool_num a;
  pool_free_num t p a a' : pool_free t p a = Some a' -> pool_num a' = pool_num a }.

(** ** The instance *)

Record lwip_mem := mk_lwip_mem {
  lm_heap : Mem.heap; lm_pools : list Memp.pool; lm_memp : Memp.memp_state }.

Definition with_heap (m : lwip_mem) (h : Mem.heap) : lwip_mem :=
  mk_lwip_mem h (lm_pools m) (lm_memp m).
Definition with_memp (m : lwip_mem) (s : Memp.memp_state) : lwip_mem :=
  mk_lwip_mem (lm_heap m) (lm_pools m) s.

#[export] Instance lwip_mem_ops : alloc_ops lwip_mem := {
  malloc size m := '(p, h) ← Mem.mem_malloc size (lm_heap m); Some (p, with_heap m h);
  free p m := h ← Mem.mem_free p (lm_heap m); Some (with_heap m h);
  trim p size m := '(p, h) ← Mem.mem_trim p size (lm_heap m); Some (p, with_heap m h);
  pool_malloc t m := '(p, s) ← Memp.memp_malloc t (lm_memp m); Some (p, with_memp m s);
  pool_free t p m := s ← Memp.memp_free t p (lm_memp m); Some (with_memp m s);
  pool_elem_size m t := Memp.memp_size <$> lm_pools m !! t }.

Definition heap_block (x : Z * Z) : block := mk_block x.1 Heap x.2.
Definition pool_block (pools : list Memp.pool) (x : nat * Z) : block :=
  mk_block x.2 (Pool x.1) (default 0 (Memp.memp_size <$> pools !! x.1)).

Definition pools_bytes (pools : list Memp.pool) : Z :=
  foldr (fun p n => Memp.pool_bytes p + n) 0 pools.

(** The heap area and the pools at address [base] are apart. *)
Record layout (h : Mem.heap) (pools : list Memp.pool) (base : Z) : Prop := {
  lay_pools : Memp.pools_ok pools;
  lay_sizes : Forall (fun p => Memp.memp_size p mod 4 = 0) pools;
  lay_base : 0 < base /\ base mod 4 = 0 /\ base + pools_bytes pools < 2 ^ 32;
  lay_apart : Mem.ram h + Mem.ram_end <= base \/ base + pools_bytes pools <= Mem.ram h }.

Record lwip_inv (m : lwip_mem) (base : Z) (l : list Mem.blk) (held : list (nat * Z)) : Prop := {
  li_heap : Mem.heap_inv (lm_heap m) l;
  li_memp : Memp.client_inv (Memp.elements (lm_pools m) base) (lm_memp m, held);
  li_layout : layout (lm_heap m) (lm_pools m) base }.

Definition lwip_owns (m : lwip_mem) (live : list block) : Prop :=
  exists base l held, lwip_inv m base l held /\
    live ≡ₚ (heap_block <$> Mem.allocs (Mem.ram (lm_heap m)) l)
            ++ (pool_block (lm_pools m) <$> held).

(** ** Blocks of the heap and of the pools *)

Lemma allocs_range h l q n : Mem.heap_inv h l -> (q, n) ∈ Mem.allocs (Mem.ram h) l ->
  Mem.ram h < q /\ q mod 4 = 0 /\ 12 <= n /\ q + n <= Mem.ram h + Mem.ram_end.
Proof.
  intros Hi (l1 & k & l2 & -> & Hk & -> & ->)%Mem.allocs_elem.
  destruct Hi as [[p Hc] _ _ _ (? & ? & _) _].
  apply Mem.lseg_mid in Hc as (p1 & HL & Hlk & H24 & H4 & HR).
  pose proof (Mem.lseg_le _ _ _ _ _ _ HL). pose proof (Mem.lseg_le _ _ _ _ _ _ HR).
  apply Mem.lseg_aligned in HL; [|done]. Z.div_mod_to_equations. lia.
Qed.

Lemma allocs_pairwise h l q n q' n' rest : Mem.heap_inv h l ->
  Mem.allocs (Mem.ram h) l ≡ₚ (q, n) :: (q', n') :: rest -> q + n <= q' \/ q' + n' <= q.
Proof.
  intros Hi P.
  assert ((q, n) ∈ Mem.allocs (Mem.ram h) l) as Hin by (rewrite P; set_solver).
  apply Mem.allocs_elem in Hin as (l1 & k & l2 & -> & Hk & -> & ->).
  rewrite Mem.allocs_app, Mem.allocs_used, <-Permutation_middle in P by done.
  apply Permutation_cons_inv in P. rewrite <-Mem.allocs_app in P.
  destruct (Mem.allocs_disjoint h l1 k l2 q' n' Hi) as [?|?]; [rewrite P; set_solver|lia..].
Qed.

Lemma held_range pools base s held i a :
  Memp.pools_ok pools -> Memp.client_inv (Memp.elements pools base) (s, held) -> (i, a) ∈ held ->
  exists p, pools !! i = Some p /\ base <= a /\ a + Memp.memp_size p <= base + pools_bytes pools.
Proof.
  intros Hp C (m & Hm)%list_elem_of_lookup.
  destruct (Memp.held_lookup _ _ _ _ _ _ C Hm) as (e & Ee & Ha).
  destruct (Memp.elements_pool _ _ _ _ Ee) as (p & Ep & _). exists p. split; [done|].
  eapply Memp.elements_range; eauto using Memp.pools_ok_sizes.
Qed.

Lemma mod4_add_mul a k n : a mod 4 = 0 -> n mod 4 = 0 -> (a + k * n) mod 4 = 0.
Proof. intros Ha Hn. by rewrite Z.add_mod, Z.mul_mod, Ha, Hn, Z.mul_0_r by lia. Qed.

Lemma elements_aligned pools : forall base i e a,
  Forall (fun p => Memp.memp_size p mod 4 = 0) pools -> base mod 4 = 0 ->
  Memp.elements pools base !! i = Some e -> a ∈ e -> a mod 4 = 0.
Proof.
  induction pools as [|p pools IH]; intros base i e a; [done|].
  intros [Hp F]%Forall_cons Hb. destruct i as [|i]; simpl.
  - intros [= <-]. unfold Memp.pool_elems. intros (k & -> & _)%list_elem_of_fmap.
    by apply mod4_add_mul.
  - apply IH; [done|]. by apply mod4_add_mul.
Qed.

(** Where the first two of a list end up when it is split in two. *)
Lemma perm_pair {A} (b c : A) rest X Y : b :: c :: rest ≡ₚ X ++ Y ->
  (exists X', X ≡ₚ b :: c :: X') \/ (exists Y', Y ≡ₚ b :: c :: Y') \/
  (b ∈ X /\ c ∈ Y) \/ (c ∈ X /\ b ∈ Y).
Proof.
  intros P. assert (b ∈ X ++ Y) as Hb by (rewrite <-P; set_solver).
  apply elem_of_app in Hb as [Hb|Hb].
  - apply list_elem_of_split in Hb as (X1 & X2 & ->).
    rewrite <-app_assoc in P. simpl in P. rewrite <-Permutation_middle in P.
    apply Permutation_cons_inv in P. rewrite app_assoc in P.
    assert (c ∈ (X1 ++ X2) ++ Y) as Hc by (rewrite <-P; set_solver).
    apply elem_of_app in Hc as [Hc|Hc]; [left|right; right; left; set_solver].
    apply list_elem_of_split in Hc as (Z1 & Z2 & E). exists (Z1 ++ Z2).
    by rewrite <-Permutation_middle, E, <-Permutation_middle.
  - apply list_elem_of_split in Hb as (Y1 & Y2 & ->).
    rewrite app_assoc, <-Permutation_middle in P.
    apply Permutation_cons_inv in P. rewrite <-app_assoc in P.
    assert (c ∈ X ++ Y1 ++ Y2) as Hc by (rewrite <-P; set_solver).
    apply elem_of_app in Hc as [Hc|Hc]; [right; right; right; set_solver|right; left].
    apply list_elem_of_split in Hc as (Z1 & Z2 & E). exists (Z1 ++ Z2).
    by rewrite <-Permutation_middle, E, <-Permutation_middle.
Qed.

Section Facts.
Context (m : lwip_mem) (base : Z) (l : list Mem.blk) (held : list (nat * Z)).
Hypothesis (I : lwip_inv m base l held).

Lemma heap_block_inv b : b ∈ heap_block <$> Mem.allocs (Mem.ram (lm_heap m)) l ->
  block_ok b /\ Mem.ram (lm_heap m) < b_addr b /\
  b_addr b + b_size b <= Mem.ram (lm_heap m) + Mem.ram_end.
Proof.
  intros ([q n] & -> & Hin)%list_elem_of_fmap. destruct I as [Hi _ _].
  apply allocs_range in Hin; [|done]. destruct Hi as [_ _ _ _ (? & ? & ?) _].
  unfold block_ok, heap_block. cbn [b_addr b_size fst snd]. lia.
Qed.

Lemma pool_block_inv b : b ∈ pool_block (lm_pools m) <$> held ->
  block_ok b /\ base <= b_addr b /\ b_addr b + b_size b <= base + pools_bytes (lm_pools m).
Proof.
  intros ([i a] & -> & Hin)%list_elem_of_fmap. destruct I as [_ C [Hp Hs (? & ? & ?) _]].
  destruct (held_range _ _ _ _ _ _ Hp C Hin) as (p & Ep & ? & ?).
  unfold block_ok, pool_block. cbn [b_addr b_size fst snd]. rewrite Ep. simpl.
  pose proof (Forall_lookup_1 _ _ _ _ Hp Ep) as [? _].
  split; [|lia]. split; [lia|]. split; [|lia].
  apply list_elem_of_lookup in Hin as (k & Hk).
  destruct (Memp.held_lookup _ _ _ _ _ _ C Hk) as (e & Ee & Ha).
  by eapply elements_aligned.
Qed.

Lemma heap_pool_disj b c : b ∈ heap_block <$> Mem.allocs (Mem.ram (lm_heap m)) l ->
  c ∈ pool_block (lm_pools m) <$> held -> block_disj b c.
Proof.
  intros (_ & ? & ?)%heap_block_inv (_ & ? & ?)%pool_block_inv.
  destruct I as [_ _ [_ _ _ Ap]]. unfold block_disj. lia.
Qed.

Lemma pool_pool_disj b c Y : pool_block (lm_pools m) <$> held ≡ₚ b :: c :: Y -> block_disj b c.
Proof.
  intros P. symmetry in P. apply Permutation_map_inv in P as (Y' & E & P).
  destruct Y' as [|[i a] [|[j a'] Y']]; simplify_eq/=.
  destruct I as [_ C [Hp _ _ _]]. eapply Memp.client_inv_perm in C; [|exact P].
  destruct (held_range _ _ _ _ i a Hp C) as (p & Ep & _); [set_solver|].
  destruct (held_range _ _ _ _ j a' Hp C) as (p' & Ep' & _); [set_solver|].
  destruct (Memp.held_lookup _ _ _ 0 i a C eq_refl) as (e & Ee & Ha).
  destruct (Memp.held_lookup _ _ _ 1 j a' C eq_refl) as (e' & Ee' & Ha').
  unfold block_disj, pool_block. cbn [b_addr b_size fst snd]. rewrite Ep, Ep'. simpl.
  eapply (Memp.elements_disjoint (lm_pools m) base i j); try done; [by apply Memp.pools_ok_sizes|].
  intros Heq. simplify_eq. by pose proof (Memp.held_distinct _ _ _ 0 1 j a' C eq_refl eq_refl).
Qed.

Lemma heap_heap_disj b c X :
  heap_block <$> Mem.allocs (Mem.ram (lm_heap m)) l ≡ₚ b :: c :: X -> block_disj b c.
Proof.
  intros P. symmetry in P. apply Permutation_map_inv in P as (X' & E & P).
  destruct X' as [|[q n] [|[q' n'] X']]; simplify_eq/=.
  eapply allocs_pairwise in P; [done|apply I].
Qed.
End Facts.

(** ** The laws *)

Lemma lwip_owns_ok m live : lwip_owns m live -> Forall block_ok live.
Proof.
  intros (base & l & held & I & ->). apply Forall_forall. intros b [Hb|Hb]%elem_of_app.
  - by eapply heap_block_inv.
  - by eapply pool_block_inv.
Qed.

Lemma lwip_owns_disj m b c live : lwip_owns m (b :: c :: live) -> block_disj b c.
Proof.
  intros (base & l & held & I & P).
  apply perm_pair in P as [(X & P)|[(Y & P)|[[Hb Hc]|[Hc Hb]]]].
  - by eapply heap_heap_disj.
  - by eapply pool_pool_disj.
  - by eapply heap_pool_disj.
  - assert (block_disj c b) as D by (by eapply heap_pool_disj). unfold block_disj in *. lia.
Qed.

Lemma lwip_owns_heap m b live : lwip_owns m (b :: live) -> b_org b = Heap -> b_size b < 2 ^ 16.
Proof.
  intros (base & l & held & I & P) Ho.
  assert (b ∈ (heap_block <$> Mem.allocs (Mem.ram (lm_heap m)) l)
    ++ (pool_block (lm_pools m) <$> held)) as Hb by (rewrite <-P; set_solver).
  apply elem_of_app in Hb as [Hb|Hb].
  - destruct (heap_block_inv _ _ _ _ I b Hb) as (_ & ? & ?). change Mem.ram_end with 65536 in *. cint.
  - apply list_elem_of_fmap in Hb as ([i a] & -> & _). done.
Qed.

Lemma lwip_malloc_law m live size : lwip_owns m live -> 0 < size < 2 ^ 32 - 3 ->
  exists p m', malloc size m = Some (p, m') /\ pool_elem_size m' = pool_elem_size m /\
    ((p = 0 /\ lwip_owns m' live) \/
     (p ≠ 0 /\ exists n, size <= n /\ lwip_owns m' (mk_block p Heap n :: live))).
Proof.
  intros (base & l & held & [Hi C L] & P) Hs.
  destruct (Mem.malloc_live (lm_heap m) l size Hi) as (p & h' & l' & E & I' & R & Cs); [cint|].
  exists p, (with_heap m h'). cbn [malloc lwip_mem_ops]. rewrite E. split; [done|]. split; [done|].
  assert (lwip_inv (with_heap m h') base l' held) as J.
  { split; [done..|]. destruct L. split; try done. cbn. by rewrite R. }
  destruct Cs as [(-> & -> & _)|(Hp & _ & n & Hn & Pa & _)].
  - left. split; [done|]. exists base, l, held. split; [done|]. cbn. by rewrite R.
  - right. split; [done|]. exists n. split; [lia|]. exists base, l', held. split; [done|].
    cbn [lm_heap lm_pools with_heap]. rewrite R, Pa, P. done.
Qed.

Lemma heap_in_live m base l held live p n : lwip_inv m base l held ->
  mk_block p Heap n :: live ≡ₚ (heap_block <$> Mem.allocs (Mem.ram (lm_heap m)) l)
    ++ (pool_block (lm_pools m) <$> held) ->
  exists rest, Mem.allocs (Mem.ram (lm_heap m)) l ≡ₚ (p, n) :: rest /\
    live ≡ₚ (heap_block <$> rest) ++ (pool_block (lm_pools m) <$> held).
Proof.
  intros I P.
  assert (mk_block p Heap n ∈ heap_block <$> Mem.allocs (Mem.ram (lm_heap m)) l) as Hin.
  { assert (mk_block p Heap n ∈ (heap_block <$> Mem.allocs (Mem.ram (lm_heap m)) l)
      ++ (pool_block (lm_pools m) <$> held)) as H by (rewrite <-P; set_solver).
    apply elem_of_app in H as [H|H]; [done|].
    apply list_elem_of_fmap in H as (x & E & _). by destruct x. }
  apply list_elem_of_fmap in Hin as ([q n'] & E & Hin). cbv [heap_block fst snd] in E. simplify_eq.
  apply list_elem_of_split in Hin as (A1 & A2 & E). exists (A1 ++ A2).
  rewrite E. split; [by rewrite <-Permutation_middle|].
  rewrite E, fmap_app, fmap_cons, <-app_assoc in P. cbn [app] in P.
  rewrite <-Permutation_middle in P. apply Permutation_cons_inv in P.
  by rewrite fmap_app, <-app_assoc.
Qed.

Lemma pool_in_live m base l held live t p n : lwip_inv m base l held ->
  mk_block p (Pool t) n :: live ≡ₚ (heap_block <$> Mem.allocs (Mem.ram (lm_heap m)) l)
    ++ (pool_block (lm_pools m) <$> held) ->
  exists h1 h2, held = h1 ++ (t, p) :: h2 /\
    live ≡ₚ (heap_block <$> Mem.allocs (Mem.ram (lm_heap m)) l)
      ++ (pool_block (lm_pools m) <$> h1 ++ h2).
Proof.
  intros I P.
  assert (mk_block p (Pool t) n ∈ pool_block (lm_pools m) <$> held) as Hin.
  { assert (mk_block p (Pool t) n ∈ (heap_block <$> Mem.allocs (Mem.ram (lm_heap m)) l)
      ++ (pool_block (lm_pools m) <$> held)) as H by (rewrite <-P; set_solver).
    apply elem_of_app in H as [H|H]; [|done].
    apply list_elem_of_fmap in H as (x & E & _). by destruct x. }
  apply list_elem_of_fmap in Hin as ([i a] & E & Hin). cbv [pool_block fst snd] in E. simplify_eq.
  apply list_elem_of_split in Hin as (A1 & A2 & ->). exists A1, A2. split; [done|].
  rewrite fmap_app, fmap_cons in P. rewrite app_assoc, <-Permutation_middle in P.
  apply Permutation_cons_inv in P. by rewrite fmap_app, app_assoc.
Qed.

Lemma lwip_free_law m live p n : lwip_owns m (mk_block p Heap n :: live) ->
  exists m', free p m = Some m' /\ pool_elem_size m' = pool_elem_size m /\ lwip_owns m' live.
Proof.
  intros (base & l & held & I & P).
  destruct (heap_in_live _ _ _ _ _ _ _ I P) as (rest & Pr & Pl). destruct I as [Hi C L].
  destruct (Mem.free_live (lm_heap m) l p n Hi) as (h' & l' & E & I' & R & Pa);
    [rewrite Pr; set_solver|].
  exists (with_heap m h'). cbn [free lwip_mem_ops]. rewrite E. split; [done|]. split; [done|].
  exists base, l', held. split.
  { split; [done..|]. destruct L. split; try done. cbn. by rewrite R. }
  cbn [lm_heap lm_pools with_heap]. rewrite R, Pl. rewrite Pr in Pa.
  apply Permutation_cons_inv in Pa. by rewrite Pa.
Qed.

Lemma lwip_trim_law m live p n size : lwip_owns m (mk_block p Heap n :: live) ->
  0 <= size < 2 ^ 32 - 3 -> size <= n ->
  exists m' n', trim p size m = Some (p, m') /\ pool_elem_size m' = pool_elem_size m /\
    size <= n' <= n /\ lwip_owns m' (mk_block p Heap n' :: live).
Proof.
  intros (base & l & held & I & P) Hs Hn.
  destruct (heap_in_live _ _ _ _ _ _ _ I P) as (rest & Pr & Pl). destruct I as [Hi C L].
  assert ((p, n) ∈ Mem.allocs (Mem.ram (lm_heap m)) l) as Hin by (rewrite Pr; set_solver).
  destruct (allocs_range _ _ _ _ Hi Hin) as (_ & _ & ? & _).
  destruct (Mem.adjust_size_spec size ltac:(cint)) as (? & ? & ?).
  destruct (Mem.trim_live (lm_heap m) l p n size Hi Hin) as
    [[Hbad _]|(_ & h' & l' & n' & rest' & E & I' & R & Hn' & Pa & Pa')]; [cint| |].
  - exfalso. apply Mem.allocs_elem in Hin as (l1 & k & l2 & -> & _ & -> & ->).
    destruct Hi as [[q Hc] _ _ _ _ _]. apply Mem.lseg_mid in Hc as (p1 & HL & _ & _ & H4 & _).
    apply Mem.lseg_aligned in HL; [|done]. Z.div_mod_to_equations. lia.
  - exists (with_heap m h'), n'. cbn [trim lwip_mem_ops]. rewrite E. split; [done|]. split; [done|].
    split; [lia|]. exists base, l', held. split.
    { split; [done..|]. destruct L. split; try done. cbn. by rewrite R. }
    cbn [lm_heap lm_pools with_heap]. rewrite R, Pa', Pl. rewrite Pr in Pa.
    apply Permutation_cons_inv in Pa. by rewrite Pa.
Qed.

Lemma lwip_pool_malloc_law m live t sz : lwip_owns m live -> pool_elem_size m t = Some sz ->
  exists p m', pool_malloc t m = Some (p, m') /\ pool_elem_size m' = pool_elem_size m /\
    ((p = 0 /\ lwip_owns m' live) \/
     (p ≠ 0 /\ lwip_owns m' (mk_block p (Pool t) sz :: live))).
Proof.
  intros (base & l & held & [Hi C L] & P) Hsz. cbn [pool_elem_size lwip_mem_ops] in Hsz.
  destruct (lm_pools m !! t) as [q|] eqn:Eq; [|done]. cbn in Hsz. simplify_eq.
  destruct (Memp.malloc_total _ _ _ t C) as (p & s' & E).
  exists p, (with_memp m s'). cbn [pool_malloc lwip_mem_ops]. rewrite E.
  split; [done|]. split; [done|].
  destruct (Z.eq_dec p 0) as [->|Hp]; [left|right]; (split; [done|]).
  - exists base, l, held. split; [|done]. split; [done| |done].
    eapply Memp.client_inv_step; [exact C|by eapply Memp.step_refused].
  - exists base, l, ((t, p) :: held). split.
    + split; [done| |done]. eapply Memp.client_inv_step; [exact C|by apply Memp.step_take].
    + cbn [lm_heap lm_pools with_memp]. rewrite fmap_cons, <-Permutation_middle, P.
      unfold pool_block at 2. cbn [fst snd]. by rewrite Eq.
Qed.

Lemma lwip_pool_free_law m live t p sz : lwip_owns m (mk_block p (Pool t) sz :: live) ->
  exists m', pool_free t p m = Some m' /\ pool_elem_size m' = pool_elem_size m /\
    lwip_owns m' live.
Proof.
  intros (base & l & held & I & P).
  destruct (pool_in_live _ _ _ _ _ _ _ _ I P) as (h1 & h2 & -> & Pl). destruct I as [Hi C L].
  destruct (Memp.free_total _ _ _ h1 t p h2 C eq_refl) as (s' & E).
  exists (with_memp m s'). cbn [pool_free lwip_mem_ops]. rewrite E. split; [done|]. split; [done|].
  exists base, l, (h1 ++ h2). split; [|done]. split; [done| |done].
  eapply Memp.client_inv_step; [exact C|by apply Memp.step_give].
Qed.

Lemma lwip_owns_perm m : Proper ((≡ₚ) ==> iff) (lwip_owns m).
Proof.
  intros x y Hxy. unfold lwip_owns. split; intros (base & l & held & I & P);
    exists base, l, held; (split; [done|]); [by rewrite <-Hxy|by rewrite Hxy].
Qed.

#[export] Instance lwip_mem_laws : alloc_laws lwip_mem := {
  owns := lwip_owns;
  owns_perm := lwip_owns_perm;
  owns_ok := lwip_owns_ok;
  owns_heap := lwip_owns_heap;
  owns_disj := lwip_owns_disj;
  malloc_law := lwip_malloc_law;
  free_law := lwip_free_law;
  trim_law := lwip_trim_law;
  pool_malloc_law := lwip_pool_malloc_law;
  pool_free_law := lwip_pool_free_law }.

Lemma pool_live_split t X held pools :
  length (pool_live t ((heap_block <$> X) ++ (pool_block pools <$> held)))
  = length (Memp.held_of t held).
Proof.
  unfold pool_live, Memp.held_of. rewrite filter_app, length_app, length_fmap.
  assert (filter (fun b => b_org b = Pool t) (heap_block <$> X) = []) as ->.
  { induction X as [|x X IH]; [done|]. rewrite fmap_cons, filter_cons_False; [done|]. by destruct x. }
  cbn [length Nat.add]. induction held as [|[i a] held IH]; [done|]. rewrite fmap_cons.
  rewrite !filter_cons. destruct (decide (i = t)) as [->|Hn].
  - rewrite !decide_True by done. cbn [length]. by rewrite IH.
  - rewrite !decide_False by (cbn; congruence). done.
Qed.

(** How the elements of pool [t] split into free ones and those in [live]. *)
Lemma lwip_pool_split m live t q : lwip_owns m live -> lm_pools m !! t = Some q ->
  exists es gs g, Memp.memp_inv es (lm_memp m) gs /\ gs !! t = Some g /\
    Memp.memp_num q = (length (Memp.freel g) + length (pool_live t live))%nat.
Proof.
  intros (base & l & held & [Hi (gs & I & H & Hheld) L] & P) Eq. cbn [fst snd] in *.
  assert (exists g, gs !! t = Some g) as [g Eg].
  { apply lookup_lt_is_Some. rewrite <-(Forall2_length _ _ _ (Memp.inv_part _ _ _ I)), Memp.elements_length.
    eauto using lookup_lt_Some. }
  eexists _, gs, g. split; [exact I|]. split; [done|].
  destruct (Memp.inv_lookup _ _ _ I t g Eg) as (_ & _ & e & _ & _ & Ee & _ & Pe & _).
  destruct (Memp.elements_pool _ _ _ _ Ee) as (p' & Ep' & Le). simplify_eq.
  apply Permutation_length in Pe. rewrite length_app, Le, (H t g Eg) in Pe. rewrite Pe.
  f_equal. unfold pool_live. rewrite P. symmetry. apply pool_live_split.
Qed.

Lemma lwip_pool_live_le m live t n : lwip_owns m live ->
  Memp.memp_num <$> lm_pools m !! t = Some n -> (length (pool_live t live) <= n)%nat.
Proof.
  intros O En. destruct (lm_pools m !! t) as [q|] eqn:Eq; [|done]. simplify_eq/=.
  destruct (lwip_pool_split m live t q O Eq) as (es & gs & g & _ & _ & ->). lia.
Qed.

Lemma lwip_pool_malloc_full m live t n m' : lwip_owns m live ->
  Memp.memp_num <$> lm_pools m !! t = Some n -> pool_malloc t m = Some (0, m') ->
  n = length (pool_live t live).
Proof.
  intros O En E. destruct (lm_pools m !! t) as [q|] eqn:Eq; [|done]. simplify_eq/=.
  destruct (lwip_pool_split m live t q O Eq) as (es & gs & g & I & Eg & ->).
  destruct (Memp.memp_malloc t (lm_memp m)) as [[p s']|] eqn:Em; [|done]. cbn in E. simplify_eq.
  destruct (Memp.malloc_cases _ _ _ _ _ _ I Em) as [(_ & _ & F)|(? & ? & ? & _)]; [|done].
  by rewrite (F g Eg).
Qed.

Definition lwip_pool_num (m : lwip_mem) (t : nat) : option nat := Memp.memp_num <$> lm_pools m !! t.

Lemma lwip_pool_malloc_num t m p m' :
  pool_malloc t m = Some (p, m') -> lwip_pool_num m' = lwip_pool_num m.
Proof.
  cbn. destruct (Memp.memp_malloc t (lm_memp m)) as [[? ?]|]; [|done]. cbn. by intros [= _ <-].
Qed.

Lemma lwip_pool_free_num t p m m' :
  pool_free t p m = Some m' -> lwip_pool_num m' = lwip_pool_num m.
Proof.
  cbn. destruct (Memp.memp_free t p (lm_memp m)) as [?|]; [|done]. cbn. by intros [= <-].
Qed.

#[export] Instance lwip_mem_pools : pool_laws lwip_mem := {
  pool_num := lwip_pool_num;
  pool_live_le := lwip_pool_live_le;
  pool_malloc_full := lwip_pool_malloc_full;
  pool_malloc_num := lwip_pool_malloc_num;
  pool_free_num := lwip_pool_free_num }.

(** ** Clients of any allocator *)

(** A call of a client.  Clients give back and trim the blocks they hold, named
    by their position in the list of those. *)
Inductive call := Malloc (size : Z) | PoolMalloc (t : nat) | Release (k : nat) | Trim (k : nat) (size : Z).

Definition call_ok (c : call) : Prop :=
  match c with
  | Malloc size => 0 < size < 2 ^ 32 - 3
  | Trim _ size => 0 <= size
  | _ => True
  end.

(** One call, on the allocator and the client's list of blocks with the sizes
    the client asked for. *)
Definition exec {A} {ops : alloc_ops A} (c : call) (s : A * list block) : option (A * list block) :=
  let '(a, held) := s in
  match c with
  | Malloc size =>
      '(p, a) ← malloc size a;
      Some (a, if p =? 0 then held else mk_block p Heap size :: held)
  | PoolMalloc t =>
      match pool_elem_size a t with
      | Some sz =>
          '(p, a) ← pool_malloc t a;
          Some (a, if p =? 0 then held else mk_block p (Pool t) sz :: held)
      | None => Some (a, held)
      end
  | Release k =>
      match held !! k with
      | Some (mk_block p Heap _) => a ← free p a; Some (a, delete k held)
      | Some (mk_block p (Pool t) _) => a ← pool_free t p a; Some (a, delete k held)
      | None => Some (a, held)
      end
  | Trim k size =>
      match held !! k with
      | Some (mk_block p Heap n) =>
          if size <=? n then
            '(q, a) ← trim p size a; Some (a, <[k := mk_block q Heap size]> held)
          else Some (a, held)
      | _ => Some (a, held)
      end
  end.

Fixpoint run {A} {ops : alloc_ops A} (cs : list call) (s : A * list block) : option (A * list block) :=
  match cs with
  | [] => Some s
  | c :: cs => s ← exec c s; run cs s
  end.

Lemma insert_Permutation {B} (l : list B) k x y :
  l !! k = Some y -> <[k := x]> l ≡ₚ x :: delete k l.
Proof.
  revert k. induction l as [|z l IH]; intros [|k] E; simplify_eq/=; [done|].
  rewrite (IH k E). constructor.
Qed.

Lemma pair_Permutation {B} (l : list B) i j x y :
  l !! i = Some x -> l !! j = Some y -> i ≠ j -> exists rest, l ≡ₚ x :: y :: rest.
Proof.
  intros Ei Ej D. destruct (decide (j < i)%nat).
  - exists (delete j (delete i l)). etrans; [by apply (delete_Permutation l i x)|]. constructor.
    apply delete_Permutation. rewrite list_lookup_delete_lt by lia. done.
  - exists (delete (pred j) (delete i l)). etrans; [by apply (delete_Permutation l i x)|]. constructor.
    apply delete_Permutation. rewrite list_lookup_delete_ge by lia.
    by replace (S (pred j)) with j by lia.
Qed.

(** The block the allocator gave holds the one the client asked for. *)
Definition covers (b l : block) : Prop :=
  b_addr b = b_addr l /\ b_org b = b_org l /\ b_size b <= b_size l.

Section Clients.
Context {A : Type} {ops : alloc_ops A} {laws : alloc_laws A}.

Definition held_inv (s : A * list block) : Prop :=
  exists live, owns s.1 live /\ Forall2 covers s.2 live /\
    Forall (fun b => 0 <= b_size b) s.2.

Lemma held_inv_cons a held b l live : owns a (l :: live) -> covers b l -> 0 <= b_size b ->
  Forall2 covers held live -> Forall (fun b => 0 <= b_size b) held -> held_inv (a, b :: held).
Proof. intros. exists (l :: live). split; [done|]. split; by constructor. Qed.

(** The block at position [k], brought to the front. *)
Lemma held_inv_at a held live k b : owns a live -> Forall2 covers held live ->
  held !! k = Some b -> exists l, covers b l /\ owns a (l :: delete k live) /\
    Forall2 covers (delete k held) (delete k live).
Proof.
  intros O F E. destruct (Forall2_lookup_l _ _ _ _ _ F E) as (l & El & C). exists l.
  split; [done|]. split; [by rewrite <-delete_Permutation|]. by apply Forall2_delete.
Qed.

Lemma exec_inv c a held : call_ok c -> held_inv (a, held) ->
  exists s', exec c (a, held) = Some s' /\ held_inv s'.
Proof.
  intros Hc (live & O & F & N). cbn [fst snd] in *.
  destruct c as [size|t|k|k size]; cbn [exec].
  - destruct (malloc_law a live size O Hc) as (p & a' & E & _ & [[-> O']|(Hp & n & Hn & O')]);
      rewrite E; cbn -[Z.eqb]; eexists; (split; [done|]).
    + by exists live.
    + rewrite (proj2 (Z.eqb_neq p 0)) by done. simpl in Hc.
      eapply held_inv_cons; [exact O'|split; [done|split; [done|simpl; lia]]|simpl; lia|done|done].
  - destruct (pool_elem_size a t) as [sz|] eqn:Es; [|by eexists; split; [|exists live]].
    destruct (pool_malloc_law a live t sz O Es) as (p & a' & E & _ & [[-> O']|(Hp & O')]);
      rewrite E; cbn -[Z.eqb]; eexists; (split; [done|]).
    + by exists live.
    + rewrite (proj2 (Z.eqb_neq p 0)) by done.
      pose proof (owns_ok _ _ O') as [(_ & _ & ? & _) _]%Forall_cons.
      eapply held_inv_cons; [exact O'|done|simpl in *; lia|done|done].
  - destruct (held !! k) as [[p [|t] n]|] eqn:Ek; [| |by eexists; split; [|exists live]].
    + destruct (held_inv_at _ _ _ _ _ O F Ek) as ([p' o' n'] & (? & ? & _) & O' & F').
      simplify_eq/=. destruct (free_law _ _ _ _ O') as (a' & E & _ & O2). rewrite E.
      eexists. split; [done|]. eexists. split; [exact O2|]. eauto using Forall_delete.
    + destruct (held_inv_at _ _ _ _ _ O F Ek) as ([p' o' n'] & (? & ? & _) & O' & F').
      simplify_eq/=. destruct (pool_free_law _ _ _ _ _ O') as (a' & E & _ & O2). rewrite E.
      eexists. split; [done|]. eexists. split; [exact O2|]. eauto using Forall_delete.
  - destruct (held !! k) as [[p [|t] n]|] eqn:Ek; [|by eexists; split; [|exists live]..].
    destruct (Z.leb_spec size n) as [Hn|]; [|by eexists; split; [|exists live]].
    destruct (Forall2_lookup_l _ _ _ _ _ F Ek) as (l & El & ? & ? & ?).
    destruct l as [p' o' n']. simplify_eq/=.
    pose proof (owns_ok _ _ O) as Ok. eapply Forall_lookup_1 in Ok as (Hpos & Hm & _ & ?); [|exact El].
    rewrite (delete_Permutation live k _ El) in O. simpl in *.
    assert (4 <= p') by (clear -Hm Hpos; Z.div_mod_to_equations; lia).
    destruct (trim_law _ _ _ _ size O) as (a' & n2 & E & _ & ? & O2); [cint|lia|]. rewrite E.
    eexists. split; [done|]. exists (<[k := mk_block p' Heap n2]> live). split; [|split].
    + by rewrite (insert_Permutation _ _ _ _ El).
    + apply Forall2_insert; [done|]. repeat split; simpl; lia.
    + apply Forall_insert; [done|]. simpl in *. lia.
Qed.

Lemma run_inv cs : forall s, Forall call_ok cs -> held_inv s ->
  exists s', run cs s = Some s' /\ held_inv s'.
Proof.
  induction cs as [|c cs IH]; intros [a held] F H; cbn [run]; [by eexists|].
  apply Forall_cons in F as [Hc F]. destruct (exec_inv c a held Hc H) as (s' & -> & H').
  cbn. by apply IH.
Qed.

Lemma held_inv_disj s i j b c : held_inv s -> s.2 !! i = Some b -> s.2 !! j = Some c -> i ≠ j ->
  block_disj b c.
Proof.
  intros (live & O & F & N) Ei Ej D.
  destruct (Forall2_lookup_l _ _ _ _ _ F Ei) as (b' & Eb & Hb).
  destruct (Forall2_lookup_l _ _ _ _ _ F Ej) as (c' & Ec & Hc).
  assert (block_disj b' c') as Dj.
  { destruct (pair_Permutation live i j b' c' Eb Ec D) as (rest & P).
    rewrite P in O. by eapply owns_disj. }
  destruct Hb as (? & _ & ?), Hc as (? & _ & ?). unfold block_disj in *. lia.
Qed.
End Clients.

(** The state [lwip_init] makes: [mem_init] and [memp_init]. *)
Definition lwip_init_mem (heap_pointer : Z) (pools : list Memp.pool) (memp_memory : Z) : lwip_mem :=
  mk_lwip_mem (Mem.mem_init heap_pointer Mem.boot_stats) pools (Memp.memp_init pools memp_memory).

Lemma align_spec a : 0 <= a < 2 ^ 32 - 3 ->
  a <= Mem.LWIP_MEM_ALIGN a < a + 4 /\ Mem.LWIP_MEM_ALIGN a mod 4 = 0.
Proof.
  intros Ha. assert (Mem.LWIP_MEM_ALIGN a = (a + 3) / 4 * 4) as E.
  { apply Mem.align_size_spec. cint. }
  rewrite E, Z.mod_mul by lia. Z.div_mod_to_equations. lia.
Qed.

(** The addresses a linker gives the two areas: non-null, apart, in 32 bits
    with the slack the alignment may use. *)
Record areas (heap_pointer : Z) (pools : list Memp.pool) (memp_memory : Z) : Prop := {
  ar_pools : Memp.pools_ok pools;
  ar_sizes : Forall (fun p => Memp.memp_size p mod 4 = 0) pools;
  ar_heap : 0 < heap_pointer /\ heap_pointer + Mem.ram_end + 4 < 2 ^ 32;
  ar_memp : 0 < memp_memory /\ memp_memory + pools_bytes pools + 4 < 2 ^ 32;
  ar_apart : heap_pointer + Mem.ram_end + 4 <= memp_memory \/
             memp_memory + pools_bytes pools + 4 <= heap_pointer }.

Lemma pools_bytes_nonneg pools : Memp.pools_ok pools -> 0 <= pools_bytes pools.
Proof.
  unfold pools_bytes. induction 1 as [|p l [? _] _ IH]; cbn [foldr]; unfold Memp.pool_bytes in *; nia.
Qed.

Lemma lwip_init_owns heap_pointer pools memp_memory :
  areas heap_pointer pools memp_memory ->
  lwip_owns (lwip_init_mem heap_pointer pools memp_memory) [].
Proof.
  intros [Hp Hs [? ?] [? ?] Ha].
  destruct (Mem.init_live heap_pointer Mem.boot_stats) as [Hi Hr]; [done|done|done|].
  pose proof (pools_bytes_nonneg _ Hp).
  destruct (align_spec memp_memory) as [? ?]; [cint|].
  exists (Mem.LWIP_MEM_ALIGN memp_memory), [Mem.mk_blk 0 Mem.MEM_SIZE_ALIGNED false], [].
  split; [|done]. split; cbn [lm_heap lm_pools lm_memp lwip_init_mem]; [done| |].
  - apply Memp.client_inv_init; [done|lia].
  - split; [done|done|cint|lia].
Qed.

(** ** Properties *)

(** C15: From the state [lwip_init] makes, every sequence of allocations, frees
    and trims, of the heap and of the pools, runs through (no call follows a
    dangling header or link), and two blocks clients hold then, of the sizes
    they asked for, share no byte. *)
Theorem lwip_mem_exclusive heap_pointer pools memp_memory cs :
  areas heap_pointer pools memp_memory -> Forall call_ok cs ->
  exists m held, run cs (lwip_init_mem heap_pointer pools memp_memory, []) = Some (m, held) /\
    forall i j b c, held !! i = Some b -> held !! j = Some c -> i ≠ j -> block_disj b c.
Proof.
  intros Ha Hc. destruct (run_inv cs (lwip_init_mem heap_pointer pools memp_memory, []))
    as ([m held] & E & H); [done| |].
  { exists []. split; [by apply lwip_init_owns|]. by split. }
  exists m, held. split; [done|]. intros i j b c. by apply (held_inv_disj (m, held)).
Qed.

Definition demo_calls : list call :=
  [Malloc 100; PoolMalloc 1; Malloc 7; PoolMalloc 0; Release 3; Trim 1 3; Malloc 50; PoolMalloc 9].

Lemma demo_areas : areas 0x20001001 Memp.two_pools 0x20020002.
Proof. split; [repeat constructor|repeat constructor|split; vm_compute; reflexivity..|]. left. by vm_compute. Qed.

Lemma lwip_mem_exclusive_witness : exists m held,
  run demo_calls (lwip_init_mem 0x20001001 Memp.two_pools 0x20020002, []) = Some (m, held) /\
    forall i j b c, held !! i = Some b -> held !! j = Some c -> i ≠ j -> block_disj b c.
Proof. apply lwip_mem_exclusive; [exact demo_areas|]. unfold demo_calls, call_ok. repeat first [constructor|lia]. Defined.

Example demo_held :
  match run demo_calls (lwip_init_mem 0x20001001 Memp.two_pools 0x20020002, []) with
  | Some (_, held) => map (fun b => (b_addr b, b_size b)) held
  | None => []
  end = [(536875024, 50); (537002020, 16); (536875136, 3); (537002564, 528)].
Proof. vm_compute. reflexivity. Qed.

End Alloc.
