(* ===== verification/Pbuf.v ===== *)
(** * Packet buffers (libraries/Ethernet/utility/pbuf.c)

    A [struct pbuf] lives in a block of the allocators; the model keeps the
    structs in a map from addresses to records and the bytes the payload
    pointers point to in a second map (a byte never written reads as 0).  A
    struct leaves the map when its block is given back, so that a use after
    free, like a NULL dereference, is the result [None].

    The allocators are the interface [Alloc.alloc_ops].  Loops over chains have
    the number of structs (plus one) as fuel: a chain without a cycle is shorter.

    Configuration: LWIP_SUPPORT_CUSTOM_PBUF and LWIP_CHECKSUM_ON_COPY are 0;
    LWIP_NOASSERT empties LWIP_ASSERT, while LWIP_ERROR still returns;
    PBUF_POOL_FREE_OOSEQ_QUEUE_CALL is not defined (NO_SYS). *)
From S2P Require Import Prelude Mem Memp Alloc.

Module Pbuf.
Import Alloc.

(** ** Configuration *)

Definition PBUF_LINK_HLEN : Z := 16.
Definition PBUF_IP_HLEN : Z := 20.
Definition PBUF_TRANSPORT_HLEN : Z := 20.
Definition PBUF_POOL_BUFSIZE : Z := 512.
Definition PBUF_POOL_BUFSIZE_ALIGNED : Z := Mem.LWIP_MEM_ALIGN_SIZE PBUF_POOL_BUFSIZE.
Definition sizeof_struct_pbuf : Z := 16.
Definition SIZEOF_STRUCT_PBUF : Z := Mem.LWIP_MEM_ALIGN_SIZE sizeof_struct_pbuf.
(** Positions in the pool list of lwip/memp_std.h. *)
Definition MEMP_RAW_PCB : nat := 0.
Definition MEMP_UDP_PCB : nat := 1.
Definition MEMP_PBUF : nat := 6.
Definition MEMP_PBUF_POOL : nat := 7.

Definition ERR_OK : Z := 0.
Definition ERR_MEM : Z := -1.
Definition ERR_VAL : Z := -6.
Definition ERR_ARG : Z := -14.

(** ** State *)

Inductive pbuf_layer := PBUF_TRANSPORT | PBUF_IP | PBUF_LINK | PBUF_RAW.
Inductive pbuf_type := PBUF_RAM | PBUF_ROM | PBUF_REF | PBUF_POOL.
#[export] Instance pbuf_type_eq_dec : EqDecision pbuf_type.
Proof. solve_decision. Defined.

(** [struct pbuf] *)
Record pbuf := mk_pbuf {
  next : Z; payload : Z; tot_len : Z; len : Z; type : pbuf_type; flags : Z; ref : Z }.

Definition set_next (n : Z) (b : pbuf) : pbuf :=
  mk_pbuf n (payload b) (tot_len b) (len b) (type b) (flags b) (ref b).
Definition set_payload (a : Z) (b : pbuf) : pbuf :=
  mk_pbuf (next b) a (tot_len b) (len b) (type b) (flags b) (ref b).
Definition set_tot_len (t : Z) (b : pbuf) : pbuf :=
  mk_pbuf (next b) (payload b) t (len b) (type b) (flags b) (ref b).
Definition set_len (l : Z) (b : pbuf) : pbuf :=
  mk_pbuf (next b) (payload b) (tot_len b) l (type b) (flags b) (ref b).
Definition set_flags (f : Z) (b : pbuf) : pbuf :=
  mk_pbuf (next b) (payload b) (tot_len b) (len b) (type b) f (ref b).
Definition set_ref (r : Z) (b : pbuf) : pbuf :=
  mk_pbuf (next b) (payload b) (tot_len b) (len b) (type b) (flags b) r.

(** The allocators, the structs, the bytes and the static
    [pbuf_free_ooseq_pending]. *)
Record pstate (A : Type) := mk_ps {
  al : A; bufs : gmap Z pbuf; bytes : gmap Z Z; pbuf_free_ooseq_pending : Z }.
#[global] Arguments mk_ps {A}.
#[global] Arguments al {A}.
#[global] Arguments bufs {A}.
#[global] Arguments bytes {A}.
#[global] Arguments pbuf_free_ooseq_pending {A}.

Definition with_al {A} (a : A) (s : pstate A) : pstate A :=
  mk_ps a (bufs s) (bytes s) (pbuf_free_ooseq_pending s).
Definition with_bufs {A} (m : gmap Z pbuf) (s : pstate A) : pstate A :=
  mk_ps (al s) m (bytes s) (pbuf_free_ooseq_pending s).
Definition with_bytes {A} (m : gmap Z Z) (s : pstate A) : pstate A :=
  mk_ps (al s) (bufs s) m (pbuf_free_ooseq_pending s).
(** [pbuf_pool_is_empty] *)
Definition pbuf_pool_is_empty {A} (s : pstate A) : pstate A :=
  mk_ps (al s) (bufs s) (bytes s) 1.

(** [p->...], a write through [p], and the first write to a fresh struct. *)
Definition get {A} (p : Z) (s : pstate A) : option pbuf := bufs s !! p.
Definition upd {A} (p : Z) (f : pbuf -> pbuf) (s : pstate A) : option (pstate A) :=
  b ← get p s; Some (with_bufs (<[p := f b]> (bufs s)) s).
Definition put {A} (p : Z) (b : pbuf) (s : pstate A) : pstate A :=
  with_bufs (<[p := b]> (bufs s)) s.

Definition chain_fuel {A} (s : pstate A) : nat := S (size (bufs s)).

(** [n] bytes from address [a], and MEMCPY of the bytes [l] to address [a]. *)
Definition read_bytes (m : gmap Z Z) (a n : Z) : list Z :=
  map (fun k => default 0 (m !! (a + Z.of_nat k))) (seq 0 (Z.to_nat n)).
Fixpoint write_bytes (a : Z) (l : list Z) (m : gmap Z Z) : gmap Z Z :=
  match l with
  | [] => m
  | x :: l => write_bytes (a + 1) l (<[a := x]> m)
  end.

(** ** Operations *)

Section Operations.
Context {A : Type} {ops : alloc_ops A}.
Implicit Types s : pstate A.

(** Give the block of the struct back to where it came from. *)
Definition release (p : Z) (t : pbuf_type) (s : pstate A) : option (pstate A) :=
  a ← match t with
      | PBUF_POOL => pool_free MEMP_PBUF_POOL p (al s)
      | PBUF_ROM | PBUF_REF => pool_free MEMP_PBUF p (al s)
      | PBUF_RAM => free p (al s)
      end;
  Some (with_bufs (delete p (bufs s)) (with_al a s)).

(** The loop of [pbuf_free]. *)
Fixpoint free_loop (fuel : nat) (p count : Z) (s : pstate A) : option (Z * pstate A) :=
  match fuel with
  | O => None
  | S fuel =>
      if p =? 0 then Some (count, s)
      else
        b ← get p s;
        let r := u16 (ref b - 1) in
        s ← upd p (set_ref r) s;
        if r =? 0 then
          s ← release p (type b) s;
          free_loop fuel (next b) (u8 (count + 1)) s
        else Some (count, s)
  end.

Definition pbuf_free (p : Z) (s : pstate A) : option (Z * pstate A) :=
  if p =? 0 then Some (0, s) else free_loop (chain_fuel s) p 0 s.

(** [offset], by the layer. *)
Definition layer_offset (layer : pbuf_layer) : Z :=
  match layer with
  | PBUF_TRANSPORT => PBUF_LINK_HLEN + PBUF_IP_HLEN + PBUF_TRANSPORT_HLEN
  | PBUF_IP => PBUF_LINK_HLEN + PBUF_IP_HLEN
  | PBUF_LINK => PBUF_LINK_HLEN
  | PBUF_RAW => 0
  end.

(** The loop of the PBUF_POOL case: the tail of the chain after [r], for
    [rem_len] bytes; [false] when the pool ran out and [p] was freed. *)
Fixpoint pool_tail (fuel : nat) (p r rem_len : Z) (s : pstate A) : option (bool * pstate A) :=
  match fuel with
  | O => None
  | S fuel =>
      if rem_len <=? 0 then Some (true, s)
      else
        '(q, a) ← pool_malloc MEMP_PBUF_POOL (al s);
        let s := with_al a s in
        if q =? 0 then
          '(_, s) ← pbuf_free p (pbuf_pool_is_empty s); Some (false, s)
        else
          let qlen := Z.min (u16 rem_len) PBUF_POOL_BUFSIZE_ALIGNED in
          let s := put q (mk_pbuf 0 (q + SIZEOF_STRUCT_PBUF) (u16 rem_len) qlen PBUF_POOL 0 1) s in
          s ← upd r (set_next q) s;
          pool_tail fuel p q (rem_len - qlen) s
  end.

(** The pbuf (0 for NULL).  [flags] of the first struct is written last; what
    the block holds there before is not read. *)
Definition pbuf_alloc (layer : pbuf_layer) (length : Z) (t : pbuf_type) (s : pstate A)
    : option (Z * pstate A) :=
  let offset := layer_offset layer in
  match t with
  | PBUF_POOL =>
      '(p, a) ← pool_malloc MEMP_PBUF_POOL (al s);
      let s := with_al a s in
      if p =? 0 then Some (0, pbuf_pool_is_empty s)
      else
        let plen := Z.min length (PBUF_POOL_BUFSIZE_ALIGNED - Mem.LWIP_MEM_ALIGN_SIZE offset) in
        let s := put p (mk_pbuf 0 (Mem.LWIP_MEM_ALIGN (p + (SIZEOF_STRUCT_PBUF + offset)))
                          length plen PBUF_POOL 0 1) s in
        '(ok, s) ← pool_tail (S (Z.to_nat length)) p p (length - plen) s;
        if ok : bool then
          s ← upd p (fun b => set_flags 0 (set_ref 1 b)) s; Some (p, s)
        else Some (0, s)
  | PBUF_RAM =>
      '(p, a) ← malloc (u32 (Mem.LWIP_MEM_ALIGN_SIZE (SIZEOF_STRUCT_PBUF + offset)
                             + Mem.LWIP_MEM_ALIGN_SIZE length)) (al s);
      let s := with_al a s in
      if p =? 0 then Some (0, s)
      else
        Some (p, put p (mk_pbuf 0 (Mem.LWIP_MEM_ALIGN (p + SIZEOF_STRUCT_PBUF + offset))
                          length length PBUF_RAM 0 1) s)
  | PBUF_ROM | PBUF_REF =>
      '(p, a) ← pool_malloc MEMP_PBUF (al s);
      let s := with_al a s in
      if p =? 0 then Some (0, s)
      else Some (p, put p (mk_pbuf 0 0 length length t 0 1) s)
  end.

(** The loop of [pbuf_realloc] over the pbufs that stay: the last one and the
    length left for it. *)
Fixpoint realloc_skip (fuel : nat) (q rem_len grow : Z) (s : pstate A)
    : option (Z * Z * pstate A) :=
  match fuel with
  | O => None
  | S fuel =>
      b ← get q s;
      if len b <? rem_len then
        s ← upd q (set_tot_len (u16 (tot_len b + u16 grow))) s;
        realloc_skip fuel (next b) (u16 (rem_len - len b)) grow s
      else Some (q, rem_len, s)
  end.

Definition pbuf_realloc (p new_len : Z) (s : pstate A) : option (pstate A) :=
  b ← get p s;
  if tot_len b <=? new_len then Some s
  else
    '(q, rem_len, s) ← realloc_skip (chain_fuel s) p new_len (new_len - tot_len b) s;
    b ← get q s;
    '(q, s) ← (if bool_decide (type b = PBUF_RAM) && negb (rem_len =? len b) then
                 '(q, a) ← trim q (u16 (payload b - q) + rem_len) (al s);
                 Some (q, with_al a s)
               else Some (q, s));
    s ← upd q (fun b => set_tot_len rem_len (set_len rem_len b)) s;
    b ← get q s;
    '(_, s) ← (if next b =? 0 then Some (0, s) else pbuf_free (next b) s);
    upd q (set_next 0) s.

(** The result: 0, or 1 on failure. *)
Definition pbuf_header (p inc : Z) (s : pstate A) : option (Z * pstate A) :=
  if (inc =? 0) || (p =? 0) then Some (0, s)
  else
    b ← get p s;
    let magnitude := u16 (Z.abs inc) in
    if (inc <? 0) && (len b <? magnitude) then Some (1, s)
    else
      let moved := u32 (payload b - inc) in
      let adjust := fun b =>
        set_tot_len (u16 (tot_len b + inc)) (set_len (u16 (len b + inc)) (set_payload moved b)) in
      match type b with
      | PBUF_RAM | PBUF_POOL =>
          if moved <? p + SIZEOF_STRUCT_PBUF then Some (1, s)
          else s ← upd p adjust s; Some (0, s)
      | PBUF_REF | PBUF_ROM =>
          if (inc <? 0) && (magnitude <=? len b)
          then s ← upd p adjust s; Some (0, s)
          else Some (1, s)
      end.

Fixpoint clen_loop (fuel : nat) (p n : Z) (s : pstate A) : option Z :=
  match fuel with
  | O => None
  | S fuel => if p =? 0 then Some n else b ← get p s; clen_loop fuel (next b) (u8 (n + 1)) s
  end.
Definition pbuf_clen (p : Z) (s : pstate A) : option Z := clen_loop (chain_fuel s) p 0 s.

Definition pbuf_ref (p : Z) (s : pstate A) : option (pstate A) :=
  if p =? 0 then Some s else upd p (fun b => set_ref (u16 (ref b + 1)) b) s.

(** The loop of [pbuf_cat], up to the last pbuf, which is updated after it. *)
Fixpoint cat_loop (fuel : nat) (p t : Z) (s : pstate A) : option (pstate A) :=
  match fuel with
  | O => None
  | S fuel =>
      b ← get p s;
      bt ← get t s;
      if next b =? 0 then
        s ← upd p (fun b => set_tot_len (u16 (tot_len b + tot_len bt)) b) s;
        upd p (set_next t) s
      else
        s ← upd p (fun b => set_tot_len (u16 (tot_len b + tot_len bt)) b) s;
        cat_loop fuel (next b) t s
  end.

Definition pbuf_cat (h t : Z) (s : pstate A) : option (pstate A) :=
  if (h =? 0) || (t =? 0) then Some s else cat_loop (chain_fuel s) h t s.

Definition pbuf_chain (h t : Z) (s : pstate A) : option (pstate A) :=
  s ← pbuf_cat h t s; pbuf_ref t s.

Definition pbuf_dechain (p : Z) (s : pstate A) : option (Z * pstate A) :=
  b ← get p s;
  let q := next b in
  if q =? 0 then Some (0, s)
  else
    s ← upd q (set_tot_len (u16 (tot_len b - len b))) s;
    s ← upd p (set_next 0) s;
    s ← upd p (fun b => set_tot_len (len b) b) s;
    '(tail_gone, s) ← pbuf_free q s;
    Some (if 0 <? tail_gone then 0 else q, s).

End Operations.

(** ** Chains *)

(** [chain m p l e]: following [next] from [p] gives the structs [l] and ends
    at the pointer [e]; a whole chain ends at NULL. *)
Fixpoint chain (m : gmap Z pbuf) (p : Z) (l : list (Z * pbuf)) (e : Z) : Prop :=
  match l with
  | [] => p = e
  | (a, b) :: l => p = a /\ a ≠ 0 /\ m !! a = Some b /\ chain m (next b) l e
  end.

Lemma chain_app m l1 l2 : forall p e,
  chain m p (l1 ++ l2) e <-> exists q, chain m p l1 q /\ chain m q l2 e.
Proof.
  induction l1 as [|[a b] l1 IH]; intros p e; cbn [chain app].
  - split; [eauto|]. by intros (q & -> & ?).
  - rewrite IH. split.
    + intros (-> & ? & ? & q & ? & ?). eauto 10.
    + intros (q & (-> & ? & ? & ?) & ?). eauto 10.
Qed.

Lemma chain_det m l : forall l' p, chain m p l 0 -> chain m p l' 0 -> l = l'.
Proof.
  induction l as [|[a b] l IH]; intros [|[a' b'] l'] p; cbn [chain]; [done|..].
  - intros E (E' & ? & _). congruence.
  - intros (E' & ? & _) E. congruence.
  - intros (-> & _ & E & H) (<- & _ & E' & H'). simplify_eq. f_equal. by eapply IH.
Qed.

Lemma chain_elem m p l e a b : chain m p l e -> (a, b) ∈ l -> m !! a = Some b /\ a ≠ 0.
Proof.
  intros H (l1 & l2 & ->)%list_elem_of_split. apply chain_app in H as (q & _ & H).
  cbn [chain] in H. naive_solver.
Qed.

(** A chain that ends has no cycle. *)
Lemma chain_nodup m p l : chain m p l 0 -> NoDup l.*1.
Proof.
  revert p. induction l as [|[a b] l IH]; intros p H; [constructor|].
  pose proof H as (-> & ? & E & H'). rewrite fmap_cons. constructor; [|by eapply IH].
  intros ([a' b'] & Ha & Hin)%list_elem_of_fmap. simpl in Ha. subst a'.
  apply list_elem_of_split in Hin as (l1 & l2 & ->).
  apply chain_app in H' as (q & _ & H2). assert (q = a) as -> by (by destruct H2).
  pose proof (chain_det _ _ _ _ H H2) as C.
  apply (f_equal length) in C. cbn [length] in C. rewrite length_app in C. cbn [length] in C. lia.
Qed.

Lemma chain_frame m m' l : forall p e, chain m p l e ->
  (forall a, a ∈ l.*1 -> m' !! a = m !! a) -> chain m' p l e.
Proof.
  induction l as [|[a b] l IH]; intros p e; cbn [chain]; [done|].
  rewrite fmap_cons. intros (-> & ? & E & H) F. split; [done|]. split; [done|].
  split; [rewrite F; [done|set_solver]|]. apply IH; [done|]. intros. apply F. set_solver.
Qed.

Lemma chain_size m p l : chain m p l 0 -> (length l <= size m)%nat.
Proof.
  intros H. pose proof (chain_nodup _ _ _ H) as N.
  rewrite <-(length_fmap fst), <-(size_list_to_set (C := gset Z) _ N), <-size_dom.
  apply subseteq_size. intros a Ha. apply elem_of_list_to_set in Ha.
  apply list_elem_of_fmap in Ha as ([a' b] & -> & Hin). apply elem_of_dom.
  exists b. by eapply chain_elem.
Qed.

(** The bytes in a chain. *)
Fixpoint tot (l : list (Z * pbuf)) : Z :=
  match l with [] => 0 | (_, b) :: l => len b + tot l end.

(** The invariant lwip/pbuf.h states: [tot_len] counts this pbuf and the rest
    of the chain. *)
Fixpoint tot_ok (l : list (Z * pbuf)) : Prop :=
  match l with
  | [] => True
  | (_, b) :: l => tot_len b = len b + tot l /\ 0 <= len b /\ tot_len b < 2 ^ 16 /\ tot_ok l
  end.

Lemma tot_nonneg l : tot_ok l -> 0 <= tot l.
Proof. induction l as [|[a b] l IH]; cbn [tot tot_ok]; [lia|]. intros (_ & ? & _ & ?%IH). lia. Qed.

(** The data of a chain. *)
Definition contents (m : gmap Z Z) (l : list (Z * pbuf)) : list Z :=
  mjoin ((fun x : Z * pbuf => read_bytes m (payload x.2) (len x.2)) <$> l).

(** The structs of [l] written back. *)
Fixpoint put_all (l : list (Z * pbuf)) (m : gmap Z pbuf) : gmap Z pbuf :=
  match l with [] => m | (a, b) :: l => put_all l (<[a := b]> m) end.

(** The head chain after [pbuf_cat] with a tail [t] of [dt] bytes. *)
Fixpoint catted (t dt : Z) (l : list (Z * pbuf)) : list (Z * pbuf) :=
  match l with
  | [] => []
  | [(a, b)] => [(a, set_next t (set_tot_len (tot_len b + dt) b))]
  | (a, b) :: l => (a, set_tot_len (tot_len b + dt) b) :: catted t dt l
  end.

Lemma read_bytes_length m a n : length (read_bytes m a n) = Z.to_nat n.
Proof. unfold read_bytes. by rewrite length_map, length_seq. Qed.

Lemma contents_cons m a b l : contents m ((a, b) :: l) = read_bytes m (payload b) (len b) ++ contents m l.
Proof. done. Qed.

Lemma contents_app m l1 l2 : contents m (l1 ++ l2) = contents m l1 ++ contents m l2.
Proof.
  induction l1 as [|[a b] l1 IH]; [done|]. cbn [app]. by rewrite !contents_cons, IH, app_assoc.
Qed.

Lemma contents_length m l : tot_ok l -> Z.of_nat (length (contents m l)) = tot l.
Proof.
  induction l as [|[a b] l IH]; [done|]. cbn [tot_ok tot]. intros (_ & ? & _ & H).
  rewrite contents_cons, length_app, read_bytes_length, Nat2Z.inj_add, IH by done. lia.
Qed.

Lemma catted_cons t dt a b x l :
  catted t dt ((a, b) :: x :: l) = (a, set_tot_len (tot_len b + dt) b) :: catted t dt (x :: l).
Proof. by destruct x. Qed.

Lemma catted_fst t dt l : (catted t dt l).*1 = l.*1.
Proof.
  induction l as [|[a b] [|x l] IH]; [done|done|]. rewrite catted_cons, !fmap_cons, IH. done.
Qed.

Lemma catted_contents t dt m l : contents m (catted t dt l) = contents m l.
Proof.
  induction l as [|[a b] [|x l] IH]; [done|done|].
  rewrite catted_cons, !contents_cons, IH. done.
Qed.

Lemma catted_tot t dt l : tot (catted t dt l) = tot l.
Proof.
  induction l as [|[a b] [|x l] IH]; [done|done|]. rewrite catted_cons. cbn [tot].
  rewrite IH. by destruct x.
Qed.

Lemma catted_tot_ok t dt l l' : tot_ok l -> tot_ok l' -> dt = tot l' -> tot l + dt < 2 ^ 16 ->
  tot_ok (catted t dt l ++ l').
Proof.
  intros H H' -> Hb. pose proof (tot_nonneg _ H') as Hn.
  induction l as [|[a b] [|x l] IH]; [done|..].
  - cbn [catted app tot_ok tot] in *. cbn [tot_len set_next set_tot_len len]. intuition lia.
  - rewrite catted_cons. cbn [app tot_ok]. cbn [tot_ok] in H. destruct H as (E & ? & ? & H).
    assert (tot (catted t (tot l') (x :: l) ++ l') = tot (x :: l) + tot l') as ->.
    { rewrite <-(catted_tot t (tot l') (x :: l)). clear.
      induction (catted t (tot l') (x :: l)) as [|[? ?] ? IH]; cbn [app tot]; lia. }
    pose proof (tot_nonneg (x :: l) H).
    change (tot ((a, b) :: x :: l)) with (len b + tot (x :: l)) in *.
    cbn [tot_len set_tot_len len].
    split; [lia|]. split; [done|]. split; [lia|]. apply IH; [done|]. lia.
Qed.

Lemma put_all_lookup_ne l : forall m a, a ∉ l.*1 -> put_all l m !! a = m !! a.
Proof.
  induction l as [|[c b] l IH]; intros m a Ha; [done|]. cbn [put_all]. rewrite fmap_cons in Ha.
  rewrite IH by set_solver. apply lookup_insert_ne. set_solver.
Qed.

Lemma read_bytes_take m a n k : 0 <= k <= n -> read_bytes m a k = take (Z.to_nat k) (read_bytes m a n).
Proof.
  intros H. unfold read_bytes. rewrite firstn_map, take_seq. do 2 f_equal. lia.
Qed.

Lemma contents_take m l1 q b l2 n : tot_ok (l1 ++ (q, b) :: l2) ->
  0 <= n - tot l1 <= len b ->
  take (Z.to_nat n) (contents m (l1 ++ (q, b) :: l2))
  = contents m l1 ++ read_bytes m (payload b) (n - tot l1).
Proof.
  intros Hok Hn. rewrite contents_app, contents_cons.
  assert (Z.of_nat (length (contents m l1)) = tot l1) as L.
  { clear Hn. induction l1 as [|[a c] l1 IH]; [done|]. cbn [app tot_ok tot] in *.
    rewrite contents_cons, length_app, read_bytes_length, Nat2Z.inj_add, IH by apply Hok. lia. }
  rewrite take_app_ge by lia. f_equal. rewrite (read_bytes_take m _ (len b) (n - tot l1)) by lia.
  rewrite take_app_le by (rewrite read_bytes_length; lia). f_equal. lia.
Qed.

(** What [pbuf_free] does to a chain: the leading pbufs with one reference go,
    the next one loses a reference. *)
Fixpoint freed (l : list (Z * pbuf)) (m : gmap Z pbuf) : gmap Z pbuf :=
  match l with
  | [] => m
  | (a, b) :: l =>
      if ref b =? 1 then freed l (delete a m) else <[a := set_ref (ref b - 1) b]> m
  end.
Fixpoint freed_count (l : list (Z * pbuf)) : nat :=
  match l with
  | [] => O
  | (a, b) :: l => if ref b =? 1 then S (freed_count l) else O
  end.

Lemma upd_put {A} a f b (s : pstate A) : bufs s !! a = Some b -> upd a f s = Some (put a (f b) s).
Proof. intros E. unfold upd, get. by rewrite E. Qed.

Lemma get_put_eq {A} a b (s : pstate A) : bufs (put a b s) !! a = Some b.
Proof. apply lookup_insert_eq. Qed.

Lemma put_put {A} a b b' (s : pstate A) : put a b (put a b' s) = put a b s.
Proof. unfold put, with_bufs. cbn. by rewrite insert_insert_eq. Qed.

Lemma release_put {A} {ops : alloc_ops A} a t b (s : pstate A) :
  release a t (put a b s) = release a t s.
Proof.
  unfold release, put, with_bufs. cbn [al bufs bytes pbuf_free_ooseq_pending with_al].
  by rewrite delete_insert_eq.
Qed.

(** ** Ownership *)

Definition org_of (t : pbuf_type) : origin :=
  match t with
  | PBUF_POOL => Pool MEMP_PBUF_POOL
  | PBUF_ROM | PBUF_REF => Pool MEMP_PBUF
  | PBUF_RAM => Heap
  end.

(** The payload of a pbuf that carries its data lies in its block, behind the
    struct. *)
Definition in_block (a : Z) (b : pbuf) (k : block) : Prop :=
  b_addr k = a /\ b_org k = org_of (type b) /\
  match type b with
  | PBUF_RAM | PBUF_POOL => a + 16 <= payload b /\ payload b + len b <= a + b_size k
  | _ => True
  end.

Definition pbuf_ok (b : pbuf) : Prop := in_u 16 (len b) /\ in_u 16 (tot_len b) /\ 0 < ref b < 2 ^ 16.

Section Correct.
Context {A : Type} {ops : alloc_ops A} {laws : alloc_laws A}.
Implicit Types s : pstate A.

(** Every struct is in a block of its own; [B] are these blocks and [R] the
    blocks others hold. *)
Record pinv (s : pstate A) (B : gmap Z block) (R : list block) : Prop := {
  pi_own : owns (al s) ((map_to_list B).*2 ++ R);
  pi_blk : forall a, match bufs s !! a, B !! a with
             | Some b, Some k => in_block a b k
             | None, None => True
             | _, _ => False
             end;
  pi_ok : map_Forall (fun _ b => pbuf_ok b) (bufs s);
  pi_pools : pool_elem_size (al s) MEMP_PBUF = Some 16 /\
             pool_elem_size (al s) MEMP_PBUF_POOL = Some 528 /\
             pool_elem_size (al s) MEMP_RAW_PCB = Some 28 /\
             pool_elem_size (al s) MEMP_UDP_PCB = Some 32 }.

Lemma pinv_get s B R a b : pinv s B R -> bufs s !! a = Some b ->
  exists k, B !! a = Some k /\ in_block a b k /\ pbuf_ok b.
Proof.
  intros I E. pose proof (pi_blk _ _ _ I a) as H. rewrite E in H.
  destruct (B !! a) as [k|]; [|done]. exists k. split; [done|]. split; [done|].
  by eapply (pi_ok _ _ _ I).
Qed.

(** A write through a pointer that keeps the type and stays in the room. *)
Lemma pinv_upd s B R a b b' : pinv s B R -> bufs s !! a = Some b ->
  type b' = type b -> payload b' + len b' <= payload b + len b ->
  (type b = PBUF_RAM \/ type b = PBUF_POOL -> a + 16 <= payload b') ->
  pbuf_ok b' -> pinv (put a b' s) B R.
Proof.
  intros I E Ht Hp Hr Ho. destruct (pinv_get _ _ _ _ _ I E) as (k & Ek & (? & ? & ?) & _).
  destruct I as [O Bl Ok Pl]. split; cbn [al bufs put with_bufs]; [done| | |done].
  - intros c. destruct (decide (a = c)) as [<-|]; [|rewrite lookup_insert_ne by done; apply Bl].
    rewrite lookup_insert_eq, Ek. unfold in_block. rewrite Ht.
    split; [done|]. split; [done|].
    destruct (type b); [split; [by apply Hr; left|lia]|done..|split; [by apply Hr; right|lia]].
  - by apply map_Forall_insert_2.
Qed.

(** The same for writes that leave [payload] and [len] alone. *)
Lemma pinv_upd_meta s B R a b b' : pinv s B R -> bufs s !! a = Some b ->
  type b' = type b -> payload b' = payload b -> len b' = len b ->
  pbuf_ok b' -> pinv (put a b' s) B R.
Proof.
  intros I E Ht Hp Hr Ho. destruct (pinv_get _ _ _ _ _ I E) as (k & Ek & (? & ? & ?) & _).
  destruct I as [O Bl Ok Pl]. split; cbn [al bufs put with_bufs]; [done| | |done].
  - intros c. destruct (decide (a = c)) as [<-|]; [|rewrite lookup_insert_ne by done; apply Bl].
    rewrite lookup_insert_eq, Ek. unfold in_block. by rewrite Ht, Hp, Hr.
  - by apply map_Forall_insert_2.
Qed.

(** Giving a struct back. *)
Lemma release_spec s B R a b : pinv s B R -> bufs s !! a = Some b ->
  exists s', release a (type b) s = Some s' /\ pinv s' (delete a B) R /\
    bufs s' = delete a (bufs s) /\ bytes s' = bytes s.
Proof.
  intros I E. destruct (pinv_get _ _ _ _ _ I E) as (k & Ek & (Ha & Ho & _) & _).
  destruct I as [O Bl Ok Pl].
  rewrite <-(map_to_list_delete B a k Ek) in O. simpl in O.
  assert (exists a', match type b with
      | PBUF_POOL => pool_free MEMP_PBUF_POOL a (al s)
      | PBUF_ROM | PBUF_REF => pool_free MEMP_PBUF a (al s)
      | PBUF_RAM => free a (al s)
      end = Some a' /\ pool_elem_size a' = pool_elem_size (al s) /\
      owns a' ((map_to_list (delete a B)).*2 ++ R)) as (a' & Ef & Ep & O').
  { destruct k as [ka ko ks]. simpl in Ha, Ho. subst ka ko.
    destruct (type b); cbn [org_of] in O; eauto using pool_free_law, free_law. }
  unfold release. rewrite Ef. eexists. split; [done|]. split; [|done].
  split; cbn [al bufs with_bufs with_al]; [done| | |by rewrite Ep].
  - intros c. destruct (decide (a = c)) as [<-|].
    + by rewrite !lookup_delete_eq.
    + rewrite !lookup_delete_ne by done. apply Bl.
  - by apply map_Forall_delete.
Qed.

(** ** [pbuf_free] *)

Lemma free_loop_spec l : forall fuel p n s B R, (length l < fuel)%nat ->
  chain (bufs s) p l 0 -> pinv s B R ->
  exists s' B', free_loop fuel p (u8 n) s = Some (u8 (n + Z.of_nat (freed_count l)), s') /\
    bufs s' = freed l (bufs s) /\ pinv s' B' R /\ bytes s' = bytes s.
Proof.
  induction l as [|[a b] l IH]; intros fuel p n s B R Hf Hc I;
    (destruct fuel as [|fuel]; [simpl in Hf; lia|]); cbn [free_loop chain freed freed_count] in *.
  - subst p. rewrite Z.eqb_refl, Z.add_0_r. eauto 10.
  - pose proof (chain_nodup (bufs s) p ((a, b) :: l) Hc) as N.
    destruct Hc as (-> & Hnz & E & Hc).
    destruct (pinv_get _ _ _ _ _ I E) as (k & _ & _ & Ho). pose proof Ho as (? & ? & Hr).
    rewrite (proj2 (Z.eqb_neq a 0)), (E : get a s = _) by done. cbn [mbind option_bind].
    rewrite (upd_put a _ b s E). cbn [mbind option_bind]. rewrite wrap_id by cint.
    destruct (Z.eqb_spec (ref b) 1) as [R1|R1].
    + rewrite R1, release_put. change (1 - 1 =? 0) with true. cbv iota.
      destruct (release_spec s B R a b I E) as (s1 & E1 & I1 & B1 & Y1).
      rewrite E1. cbn [mbind option_bind].
      destruct (IH fuel (next b) (n + 1) s1 (delete a B) R) as (s2 & B2 & E2 & F2 & I2 & Y2);
        [simpl in Hf; lia| |done|].
      * rewrite B1. eapply chain_frame; [done|]. intros c Hin.
        apply lookup_delete_ne. intros ->. rewrite fmap_cons in N. by inversion N.
      * exists s2, B2. split; [|split; [by rewrite F2, B1|split; [done|congruence]]].
        replace (u8 (u8 n + 1)) with (u8 (n + 1)) by (unfold wrap; by rewrite Zplus_mod_idemp_l).
        rewrite E2. do 3 f_equal. lia.
    + rewrite (proj2 (Z.eqb_neq (ref b - 1) 0)) by lia.
      eexists _, B. split; [by rewrite Z.add_0_r|]. split; [done|]. split; [|done].
      eapply pinv_upd_meta; [done..|]. split; [done|]. split; [done|]. cbn [ref set_ref]. lia.
Qed.

Lemma free_chain s B R p l : pinv s B R -> chain (bufs s) p l 0 ->
  exists s' B', pbuf_free p s = Some (u8 (Z.of_nat (freed_count l)), s') /\
    bufs s' = freed l (bufs s) /\ pinv s' B' R /\ bytes s' = bytes s.
Proof.
  intros I Hc. unfold pbuf_free. destruct (Z.eqb_spec p 0) as [->|Hp].
  - assert (l = []) as -> by (destruct l as [|[] l]; [done|]; by destruct Hc as (? & ? & _)).
    by exists s, B.
  - destruct (free_loop_spec l (chain_fuel s) p 0 s B R) as (s' & B' & E & ?); [|done..|].
    + pose proof (chain_size _ _ _ Hc). unfold chain_fuel. lia.
    + exists s', B'. by rewrite <-(Z.add_0_l (Z.of_nat _)).
Qed.

(** ** [pbuf_alloc] *)

(** A block the allocator hands out is not the block of a live pbuf. *)
Lemma fresh_addr s B R a' k : pinv s B R ->
  owns a' (k :: (map_to_list B).*2 ++ R) -> bufs s !! b_addr k = None.
Proof.
  intros I O. destruct (bufs s !! b_addr k) as [b|] eqn:E; [|done]. exfalso.
  destruct (pinv_get _ _ _ _ _ I E) as (k' & Ek & (Ha & _) & _).
  rewrite <-(map_to_list_delete B _ k' Ek) in O. cbn [fmap list_fmap app snd] in O.
  pose proof (owns_disj _ _ _ _ O) as D.
  apply owns_ok in O. apply Forall_cons in O as [(_ & _ & ? & _) O].
  apply Forall_cons in O as [(_ & _ & ? & _) _]. unfold block_disj in D. lia.
Qed.

Lemma pinv_add s B R a' k b : pinv s B R ->
  owns a' (k :: (map_to_list B).*2 ++ R) -> pool_elem_size a' = pool_elem_size (al s) ->
  in_block (b_addr k) b k -> pbuf_ok b ->
  pinv (put (b_addr k) b (with_al a' s)) (<[b_addr k := k]> B) R.
Proof.
  intros I O Ep Hb Ho. pose proof (fresh_addr _ _ _ _ _ I O) as F.
  destruct I as [_ Bl Ok Pl].
  assert (B !! b_addr k = None) as FB.
  { specialize (Bl (b_addr k)). rewrite F in Bl. by destruct (B !! b_addr k). }
  split; cbn [al bufs put with_bufs with_al].
  - rewrite map_to_list_insert by done. done.
  - intros c. destruct (decide (b_addr k = c)) as [<-|].
    + by rewrite !lookup_insert_eq.
    + rewrite !lookup_insert_ne by done. apply Bl.
  - by apply map_Forall_insert_2.
  - by rewrite Ep.
Qed.

Lemma pinv_al s B R a' : pinv s B R -> owns a' ((map_to_list B).*2 ++ R) ->
  pool_elem_size a' = pool_elem_size (al s) -> pinv (with_al a' s) B R.
Proof. intros [O Bl Ok Pl] O' Ep. split; try done. cbn. by rewrite Ep. Qed.

Lemma pinv_empty s B R : pinv s B R -> pinv (pbuf_pool_is_empty s) B R.
Proof. by intros [O Bl Ok Pl]. Qed.

Lemma freed_ones l : Forall (fun x => ref x.2 = 1) l -> forall m a,
  freed l m !! a = if decide (a ∈ l.*1) then None else m !! a.
Proof.
  induction 1 as [|[c b] l Hr _ IH]; intros m a; cbn [freed]; [by rewrite decide_False by set_solver|].
  simpl in Hr. rewrite Hr. cbn [Z.eqb Pos.eqb]. rewrite IH, fmap_cons. cbn [fst].
  destruct (decide (a ∈ l.*1)); [by rewrite decide_True by set_solver|].
  destruct (decide (a = c)) as [->|].
  - rewrite decide_True by set_solver. apply lookup_delete_eq.
  - rewrite decide_False by set_solver. by apply lookup_delete_ne.
Qed.

(** A pbuf as [pbuf_alloc] leaves it. *)
Definition fresh_pbuf (t : pbuf_type) (b : pbuf) : Prop := type b = t /\ ref b = 1 /\ flags b = 0.

(** [s] extends the structs [m] by those of [l]. *)
Definition extends (m m' : gmap Z pbuf) (l : list (Z * pbuf)) : Prop :=
  forall a, if decide (a ∈ l.*1) then m !! a = None else m' !! a = m !! a.

Lemma extends_freed m m' l : Forall (fun x => ref x.2 = 1) l -> extends m m' l -> freed l m' = m.
Proof.
  intros F X. apply map_eq. intros a. rewrite (freed_ones l F). specialize (X a).
  by case_decide.
Qed.

Lemma extends_snoc m m' l q b c : extends m m' l -> m' !! q = None ->
  extends m (<[q := b]> m') (l ++ [(q, c)]).
Proof.
  intros X F a. specialize (X a). rewrite fmap_app. cbn [fmap list_fmap fst].
  destruct (decide (a = q)) as [->|].
  - rewrite decide_True by set_solver. case_decide; [done|]. by rewrite <-X.
  - rewrite lookup_insert_ne by done. case_decide.
    + by rewrite decide_True by set_solver.
    + by rewrite decide_False by set_solver.
Qed.

Lemma extends_upd m m' l a b : a ∈ l.*1 -> extends m m' l -> extends m (<[a := b]> m') l.
Proof.
  intros Ha X c. specialize (X c). case_decide; [done|]. by rewrite lookup_insert_ne by set_solver.
Qed.

Lemma extends_fst m m' l l' : l.*1 = l'.*1 -> extends m m' l -> extends m m' l'.
Proof. intros E X c. specialize (X c). by rewrite <-E. Qed.

(** Replacing the last struct of a chain. *)
Lemma chain_last m l r b b' e p : chain m p (l ++ [(r, b)]) e -> NoDup (l ++ [(r, b)]).*1 ->
  chain (<[r := b']> m) p (l ++ [(r, b')]) (next b').
Proof.
  intros (q & Hl & (-> & ? & E & _))%chain_app N. apply chain_app. exists r. split.
  - eapply chain_frame; [done|]. intros a Ha. apply lookup_insert_ne. intros ->.
    rewrite fmap_app, NoDup_app in N. destruct N as (_ & N & _). eapply N; [done|set_solver].
  - cbn [chain]. by rewrite lookup_insert_eq.
Qed.

Lemma pool_sizes : PBUF_POOL_BUFSIZE_ALIGNED = 512 /\ SIZEOF_STRUCT_PBUF = 16.
Proof. done. Qed.

(** Linking a fresh pool pbuf behind the last one, [r]. *)
Lemma pool_link s B R a' q p l r br b m0 : pinv s B R ->
  owns a' (mk_block q (Pool MEMP_PBUF_POOL) 528 :: (map_to_list B).*2 ++ R) ->
  pool_elem_size a' = pool_elem_size (al s) -> q ≠ 0 ->
  chain (bufs s) p (l ++ [(r, br)]) 0 -> extends m0 (bufs s) (l ++ [(r, br)]) ->
  next b = 0 -> type b = PBUF_POOL -> payload b = q + 16 -> pbuf_ok b -> len b <= 512 ->
  exists s' B', upd r (set_next q) (put q b (with_al a' s)) = Some s' /\ bytes s' = bytes s /\
    pinv s' B' R /\ chain (bufs s') p ((l ++ [(r, set_next q br)]) ++ [(q, b)]) 0 /\
    extends m0 (bufs s') ((l ++ [(r, set_next q br)]) ++ [(q, b)]).
Proof.
  intros I O Ep Hq Hc X Hn Ht Hp Hok Hl.
  pose proof (fresh_addr _ _ _ _ _ I O) as Fq. cbn [b_addr] in Fq.
  assert (pinv (put q b (with_al a' s)) (<[q := mk_block q (Pool MEMP_PBUF_POOL) 528]> B) R) as I1.
  { apply (pinv_add s B R a' (mk_block q (Pool MEMP_PBUF_POOL) 528)); [done..| |done].
    unfold in_block. rewrite Ht, Hp. cbn [b_addr b_size b_org org_of]. split; [done|]. split; [done|]. lia. }
  assert (bufs s !! r = Some br) as Er by (eapply chain_elem; [done|set_solver]).
  assert (r ≠ q) as Hrq by congruence.
  assert (bufs (put q b (with_al a' s)) !! r = Some br) as Er'.
  { cbn [bufs put with_bufs with_al]. by rewrite lookup_insert_ne. }
  rewrite (upd_put r _ br _ Er'). eexists _, _. split; [done|]. split; [done|]. split; [|split].
  - eapply pinv_upd_meta; [exact I1|exact Er'|done..|].
    by destruct (pinv_get _ _ _ _ _ I Er) as (_ & _ & _ & ?).
  - apply chain_app. exists q. split.
    + pose proof (chain_last (bufs s) l r br (set_next q br) 0 p Hc (chain_nodup _ _ _ Hc)) as Hc'.
      cbn [next set_next] in Hc'. eapply chain_frame; [exact Hc'|].
      cbn [bufs put with_bufs with_al]. intros a Ha.
      destruct (decide (a = r)) as [->|]; [by rewrite !lookup_insert_eq|].
      rewrite !(lookup_insert_ne _ r) by done. apply lookup_insert_ne. intros <-.
      assert (q ∈ (l ++ [(r, br)]).*1) as Hin by (rewrite fmap_app in *; set_solver).
      apply list_elem_of_fmap in Hin as ([? ?] & -> & Hin).
      apply (chain_elem _ _ _ _ _ _ Hc) in Hin as [Hin _]. simpl in Fq. congruence.
    + cbn [chain bufs put with_bufs with_al]. rewrite lookup_insert_ne, lookup_insert_eq by done.
      by rewrite Hn.
  - cbn [bufs put with_bufs with_al]. apply extends_upd; [rewrite !fmap_app; set_solver|].
    apply extends_snoc; [|done]. eapply extends_fst; [|exact X]. by rewrite !fmap_app.
Qed.

Lemma pool_tail_spec fuel : forall s B R p l r br rem m0,
  pinv s B R -> chain (bufs s) p (l ++ [(r, br)]) 0 -> extends m0 (bufs s) (l ++ [(r, br)]) ->
  Forall (fun x => fresh_pbuf PBUF_POOL x.2) (l ++ [(r, br)]) ->
  0 <= rem < 2 ^ 16 -> (Z.to_nat rem < fuel)%nat ->
  exists ok s' B', pool_tail fuel p r rem s = Some (ok, s') /\ bytes s' = bytes s /\
    pinv s' B' R /\
    if ok : bool then exists nx l2,
      chain (bufs s') p (l ++ (r, set_next nx br) :: l2) 0 /\
      extends m0 (bufs s') (l ++ (r, set_next nx br) :: l2) /\
      Forall (fun x => fresh_pbuf PBUF_POOL x.2) l2 /\ tot_ok l2 /\ tot l2 = rem
    else bufs s' = m0.
Proof.
  induction fuel as [|fuel IH]; intros s B R p l r br rem m0 I Hc X F Hr Hf; [lia|].
  cbn [pool_tail]. destruct (Z.leb_spec rem 0).
  { exists true, s, B. split; [done|]. split; [done|]. split; [done|].
    assert (next br = 0) as En.
    { apply chain_app in Hc as (q & _ & Hc). by destruct Hc as (_ & _ & _ & ?). }
    assert (set_next (next br) br = br) as Es by (by destruct br).
    exists (next br), []. rewrite Es. cbn [tot tot_ok]. eauto with lia. }
  destruct (pi_pools _ _ _ I) as (_ & Hpool & _).
  destruct (pool_malloc_law (al s) _ _ _ (pi_own _ _ _ I) Hpool)
    as (q & a' & -> & Ep & [[-> O]|[Hq O]]); cbn [mbind option_bind].
  - rewrite Z.eqb_refl.
    destruct (free_chain (pbuf_pool_is_empty (with_al a' s)) B R p (l ++ [(r, br)]))
      as (s' & B' & E & Eb & I' & Ey); [by apply pinv_empty, pinv_al|done|].
    rewrite E. exists false, s', B'. split; [done|]. split; [done|]. split; [done|].
    rewrite Eb. apply extends_freed; [|done].
    eapply Forall_impl; [exact F|]. by intros x (_ & ? & _).
  - rewrite (proj2 (Z.eqb_neq q 0)) by done. rewrite wrap_id by cint.
    change PBUF_POOL_BUFSIZE_ALIGNED with 512. change SIZEOF_STRUCT_PBUF with 16.
    set (b := mk_pbuf 0 (q + 16) rem (Z.min rem 512) PBUF_POOL 0 1).
    destruct (pool_link s B R a' q p l r br b m0 I O Ep Hq Hc X)
      as (s1 & B1 & E1 & Y1 & I1 & Hc1 & X1);
      [done|done|done|unfold pbuf_ok, b; cbn [len tot_len ref]; cint|unfold b; cbn [len]; lia|].
    rewrite E1. cbn [mbind option_bind].
    destruct (IH s1 B1 R p (l ++ [(r, set_next q br)]) q b (rem - Z.min rem 512) m0 I1 Hc1 X1)
      as (ok & s2 & B2 & E2 & Y2 & I2 & H2); [|cint|lia|].
    { apply Forall_app in F as [Fl Fr]. apply Forall_app. split; [apply Forall_app; split|].
      - done.
      - constructor; [|done]. apply Forall_cons in Fr as [? _]. done.
      - by constructor. }
    exists ok, s2, B2. split; [done|]. split; [congruence|]. split; [done|].
    destruct ok; [|done]. destruct H2 as (nx & l2 & Hc2 & X2 & F2 & T2 & T2').
    rewrite <-app_assoc in Hc2, X2. exists q, ((q, set_next nx b) :: l2).
    split; [done|]. split; [done|]. split; [by constructor|].
    pose proof (tot_nonneg _ T2). cbn [tot tot_ok set_next len tot_len b].
    repeat split; [lia|lia|lia|done|lia].
Qed.

(** The heap request of a PBUF_RAM pbuf, and the payload in what it gets. *)
Lemma ram_room p n layer length : 0 < p -> p mod 4 = 0 -> 0 <= length < 2 ^ 16 ->
  p + n < 2 ^ 32 ->
  u32 (Mem.LWIP_MEM_ALIGN_SIZE (SIZEOF_STRUCT_PBUF + layer_offset layer)
       + Mem.LWIP_MEM_ALIGN_SIZE length) <= n ->
  let pl := Mem.LWIP_MEM_ALIGN (p + SIZEOF_STRUCT_PBUF + layer_offset layer) in
  pl = p + 16 + layer_offset layer /\ pl + length <= p + n.
Proof.
  intros Hp H4 Hl Hb Hn. cbv zeta. change SIZEOF_STRUCT_PBUF with 16 in *.
  assert (layer_offset layer mod 4 = 0 /\ 0 <= layer_offset layer <= 56) as [Ho Hob]
    by (destruct layer; by vm_compute).
  assert (length <= Mem.LWIP_MEM_ALIGN_SIZE length < length + 4) as Hal by (apply align_spec; cint).
  destruct (align_spec (16 + layer_offset layer)) as [Ha Ha4]; [cint|].
  change (Mem.LWIP_MEM_ALIGN (16 + layer_offset layer))
    with (Mem.LWIP_MEM_ALIGN_SIZE (16 + layer_offset layer)) in *.
  rewrite wrap_id in Hn by cint.
  assert (p + 16 + layer_offset layer < 2 ^ 32 - 3).
  { cint_pow. clear Ha4. Z.div_mod_to_equations. lia. }
  destruct (align_spec (p + 16 + layer_offset layer)) as [Hq Hq4]; [cint|].
  cint_pow. Z.div_mod_to_equations. lia.
Qed.

Lemma ram_request layer length : 0 <= length < 2 ^ 16 ->
  0 < u32 (Mem.LWIP_MEM_ALIGN_SIZE (SIZEOF_STRUCT_PBUF + layer_offset layer)
       + Mem.LWIP_MEM_ALIGN_SIZE length) < 2 ^ 32 - 3.
Proof.
  intros Hl. change SIZEOF_STRUCT_PBUF with 16.
  assert (0 <= layer_offset layer <= 56) by (destruct layer; by vm_compute).
  assert (length <= Mem.LWIP_MEM_ALIGN_SIZE length < length + 4) as Hal by (apply align_spec; cint).
  destruct (align_spec (16 + layer_offset layer)) as [Ha _]; [cint|].
  change (Mem.LWIP_MEM_ALIGN (16 + layer_offset layer))
    with (Mem.LWIP_MEM_ALIGN_SIZE (16 + layer_offset layer)) in *.
  rewrite wrap_id by cint. cint.
Qed.

Lemma alloc_ram s B R layer length : pinv s B R -> 0 <= length < 2 ^ 16 ->
  exists p s' B', pbuf_alloc layer length PBUF_RAM s = Some (p, s') /\ bytes s' = bytes s /\
    pinv s' B' R /\
    ((p = 0 /\ bufs s' = bufs s) \/
     (p ≠ 0 /\ bufs s !! p = None /\
      bufs s' = <[p := mk_pbuf 0 (p + 16 + layer_offset layer) length length PBUF_RAM 0 1]> (bufs s))).
Proof.
  intros I Hl. cbn [pbuf_alloc].
  destruct (malloc_law (al s) _ _ (pi_own _ _ _ I) (ram_request layer length Hl))
    as (p & a' & -> & Ep & [[-> O]|(Hp & n & Hn & O)]); cbn [mbind option_bind].
  - rewrite Z.eqb_refl. eexists 0, _, B. split; [done|]. split; [done|].
    split; [by apply pinv_al|]. by left.
  - rewrite (proj2 (Z.eqb_neq p 0)) by done.
    pose proof (owns_ok _ _ O) as [(? & ? & ? & ?) _]%Forall_cons. simpl in *.
    destruct (ram_room p n layer length) as [E1 E2]; [done..|]. rewrite E1 in *.
    eexists p, _, (<[p := mk_block p Heap n]> B). split; [done|]. split; [done|].
    split; [|right; split; [done|]; split; [by apply (fresh_addr _ _ _ _ _ I O)|done]].
    assert (0 <= layer_offset layer) by (destruct layer; by vm_compute).
    apply (pinv_add s B R a' (mk_block p Heap n)); [done..| |].
    + unfold in_block. cbn [type len payload b_addr b_size b_org]. split; [done|]. split; [done|]. lia.
    + unfold pbuf_ok. cbn [len tot_len ref]. cint.
Qed.

Lemma alloc_ref s B R layer length t : pinv s B R -> 0 <= length < 2 ^ 16 ->
  t = PBUF_ROM \/ t = PBUF_REF ->
  exists p s' B', pbuf_alloc layer length t s = Some (p, s') /\ bytes s' = bytes s /\
    pinv s' B' R /\
    ((p = 0 /\ bufs s' = bufs s) \/
     (p ≠ 0 /\ bufs s !! p = None /\
      bufs s' = <[p := mk_pbuf 0 0 length length t 0 1]> (bufs s))).
Proof.
  intros I Hl Ht.
  assert (pbuf_alloc layer length t s = '(p, a) ← pool_malloc MEMP_PBUF (al s);
      if p =? 0 then Some (0, with_al a s)
      else Some (p, put p (mk_pbuf 0 0 length length t 0 1) (with_al a s))) as E.
  { by destruct Ht as [-> | ->]. }
  rewrite E. clear E. destruct (pi_pools _ _ _ I) as [Hpool _].
  destruct (pool_malloc_law (al s) _ _ _ (pi_own _ _ _ I) Hpool)
    as (p & a' & -> & Ep & [[-> O]|[Hp O]]); cbn [mbind option_bind].
  - rewrite Z.eqb_refl. eexists 0, _, B. split; [done|]. split; [done|].
    split; [by apply pinv_al|]. by left.
  - rewrite (proj2 (Z.eqb_neq p 0)) by done.
    eexists p, _, (<[p := mk_block p (Pool MEMP_PBUF) 16]> B). split; [done|]. split; [done|].
    split; [|right; split; [done|]; split; [by apply (fresh_addr _ _ _ _ _ I O)|done]].
    apply (pinv_add s B R a' (mk_block p (Pool MEMP_PBUF) 16)); [done..| |].
    + unfold in_block. cbn [type b_addr b_org]. by destruct Ht as [-> | ->].
    + unfold pbuf_ok. cbn [len tot_len ref]. cint.
Qed.

Lemma pool_first p layer length : 0 < p -> p mod 4 = 0 -> p + 528 < 2 ^ 32 -> 0 <= length ->
  let offset := layer_offset layer in
  let pl := Mem.LWIP_MEM_ALIGN (p + (SIZEOF_STRUCT_PBUF + offset)) in
  let plen := Z.min length (PBUF_POOL_BUFSIZE_ALIGNED - Mem.LWIP_MEM_ALIGN_SIZE offset) in
  pl = p + 16 + offset /\ plen = Z.min length (512 - offset) /\ 0 <= offset <= 56.
Proof.
  intros Hp H4 Hb Hl. cbv zeta. change SIZEOF_STRUCT_PBUF with 16.
  change PBUF_POOL_BUFSIZE_ALIGNED with 512.
  assert (Mem.LWIP_MEM_ALIGN_SIZE (layer_offset layer) = layer_offset layer /\
    0 <= layer_offset layer <= 56 /\ layer_offset layer mod 4 = 0) as (-> & ? & Ho)
    by (destruct layer; by vm_compute).
  destruct (align_spec (p + (16 + layer_offset layer))) as [Hq Hq4]; [cint|].
  split; [|lia]. cint_pow. Z.div_mod_to_equations. lia.
Qed.

Lemma alloc_pool s B R layer length : pinv s B R -> 0 <= length < 2 ^ 16 ->
  exists p s' B', pbuf_alloc layer length PBUF_POOL s = Some (p, s') /\ bytes s' = bytes s /\
    pinv s' B' R /\
    ((p = 0 /\ bufs s' = bufs s) \/
     (exists b l, chain (bufs s') p ((p, b) :: l) 0 /\ extends (bufs s) (bufs s') ((p, b) :: l) /\
      Forall (fun x => fresh_pbuf PBUF_POOL x.2) ((p, b) :: l) /\
      tot_ok ((p, b) :: l) /\ tot_len b = length /\ payload b = p + 16 + layer_offset layer)).
Proof.
  intros I Hl. cbn [pbuf_alloc]. destruct (pi_pools _ _ _ I) as (_ & Hpool & _).
  destruct (pool_malloc_law (al s) _ _ _ (pi_own _ _ _ I) Hpool)
    as (p & a' & -> & Ep & [[-> O]|[Hp O]]); cbn [mbind option_bind].
  { rewrite Z.eqb_refl. eexists 0, _, B. split; [done|]. split; [done|].
    split; [by apply pinv_empty, pinv_al|]. by left. }
  rewrite (proj2 (Z.eqb_neq p 0)) by done.
  pose proof (owns_ok _ _ O) as [(? & ? & _ & ?) _]%Forall_cons. cbn [b_addr b_size] in *.
  destruct (pool_first p layer length) as (E1 & E2 & Ho); [lia|done|cint|lia|].
  rewrite E1, E2. clear E1 E2.
  set (b0 := mk_pbuf 0 (p + 16 + layer_offset layer) length
               (Z.min length (512 - layer_offset layer)) PBUF_POOL 0 1).
  pose proof (fresh_addr _ _ _ _ _ I O) as Fp. cbn [b_addr] in Fp.
  assert (pinv (put p b0 (with_al a' s)) (<[p := mk_block p (Pool MEMP_PBUF_POOL) 528]> B) R) as I1.
  { apply (pinv_add s B R a' (mk_block p (Pool MEMP_PBUF_POOL) 528)); [done..| |].
    - unfold in_block, b0. cbn [type len payload b_addr b_size b_org]. split; [done|]. split; [done|]. lia.
    - unfold pbuf_ok, b0. cbn [len tot_len ref]. cint. }
  destruct (pool_tail_spec (S (Z.to_nat length)) _ _ R p [] p b0
      (length - Z.min length (512 - layer_offset layer)) (bufs s) I1)
    as (ok & s1 & B1 & E1 & Y1 & I2 & H2).
  { cbn [chain app]. by rewrite get_put_eq. }
  { intros a. cbn [app fmap list_fmap fst bufs put with_bufs with_al]. case_decide as D.
    - apply list_elem_of_singleton in D. by subst.
    - apply lookup_insert_ne. set_solver. }
  { by repeat constructor. }
  { lia. }
  { lia. }
  rewrite E1. cbn [mbind option_bind]. destruct ok.
  - destruct H2 as (nx & l2 & Hc & X & F & T & T'). cbn [app] in *.
    pose proof Hc as (_ & _ & Eb & _).
    assert (set_flags 0 (set_ref 1 (set_next nx b0)) = set_next nx b0) as Es by done.
    rewrite (upd_put p _ _ _ Eb), Es. cbn [mbind option_bind].
    assert (put p (set_next nx b0) s1 = s1) as ->.
    { unfold put, with_bufs. rewrite insert_id by done. by destruct s1. }
    exists p, s1, B1. split; [done|]. split; [done|]. split; [done|]. right.
    exists (set_next nx b0), l2. split; [done|]. split; [done|]. split; [by constructor|].
    split; [|done]. pose proof (tot_nonneg _ T).
    cbn [tot_ok set_next len tot_len b0]. repeat split; [lia..|done].
  - exists 0, s1, B1. eauto 10.
Qed.

(** ** [pbuf_cat] *)

Lemma cat_loop_spec l : forall fuel p t bt s B R, (length l < fuel)%nat -> l ≠ [] ->
  chain (bufs s) p l 0 -> bufs s !! t = Some bt -> t ∉ l.*1 -> pinv s B R ->
  Forall (fun x => tot_len x.2 + tot_len bt < 2 ^ 16) l ->
  exists s', cat_loop fuel p t s = Some s' /\ al s' = al s /\ bytes s' = bytes s /\
    pinv s' B R /\ chain (bufs s') p (catted t (tot_len bt) l) t /\
    (forall a, a ∉ l.*1 -> bufs s' !! a = bufs s !! a).
Proof.
  induction l as [|[a b] l IH]; intros fuel p t bt s B R Hf Hne Hc Et Ht I Hb; [done|].
  destruct fuel as [|fuel]; [simpl in Hf; lia|]. cbn [cat_loop].
  pose proof (chain_nodup _ _ _ Hc) as N. rewrite fmap_cons in N. inversion_clear N as [|? ? Na _].
  destruct Hc as (-> & Hnz & E & Hc). rewrite fmap_cons in Ht. cbn [fst] in *.
  apply Forall_cons in Hb as [Hb Hbs]. cbn [snd] in Hb.
  destruct (pinv_get _ _ _ _ _ I E) as (_ & _ & _ & Ho). pose proof Ho as (? & Htl & ?).
  destruct (pinv_get _ _ _ _ _ I Et) as (_ & _ & _ & (_ & Htt & _)).
  rewrite (E : get a s = _), (Et : get t s = _). cbn [mbind option_bind].
  rewrite (upd_put a _ b s E). cbn [mbind option_bind]. rewrite wrap_id by cint.
  set (b1 := set_tot_len (tot_len b + tot_len bt) b).
  assert (pinv (put a b1 s) B R) as I1.
  { eapply pinv_upd_meta; [done..|]. unfold pbuf_ok, b1. cbn [len tot_len ref set_tot_len]. cint. }
  destruct l as [|x l].
  - cbn [chain] in Hc. rewrite Hc, Z.eqb_refl.
    rewrite (upd_put a _ b1 _ (get_put_eq a b1 s)), put_put. eexists. split; [done|].
    split; [done|]. split; [done|]. split; [|split].
    + rewrite <-(put_put a _ b1). eapply pinv_upd_meta; [exact I1|apply get_put_eq|done..|].
      exact (pi_ok _ _ _ I1 a b1 (get_put_eq a b1 s)).
    + cbn [catted chain]. rewrite get_put_eq. done.
    + intros c Hc'. apply lookup_insert_ne. set_solver.
  - assert (next b ≠ 0) as Hn by (destruct x; cbn [chain] in Hc; by destruct Hc as (-> & ? & _)).
    rewrite (proj2 (Z.eqb_neq _ 0)) by done.
    destruct (IH fuel (next b) t bt (put a b1 s) B R) as (s' & E' & Ea & Ey & I' & Hc' & Fr);
      [simpl in *; lia|done| | | |done|done|].
    + eapply chain_frame; [done|]. intros c Hin. apply lookup_insert_ne. congruence.
    + cbn [bufs put with_bufs]. rewrite lookup_insert_ne by set_solver. done.
    + set_solver.
    + exists s'. split; [done|]. split; [done|]. split; [done|]. split; [done|]. split.
      * rewrite catted_cons. cbn [chain]. split; [done|]. split; [done|].
        split; [|done]. rewrite Fr by done. apply get_put_eq.
      * intros c Hin. rewrite Fr by set_solver. apply lookup_insert_ne. set_solver.
Qed.

Lemma cat_chain s B R h t l a bt l' : pinv s B R -> l ≠ [] ->
  chain (bufs s) h l 0 -> chain (bufs s) t ((a, bt) :: l') 0 -> l.*1 ## ((a, bt) :: l').*1 ->
  tot_ok l -> tot_ok ((a, bt) :: l') -> tot l + tot ((a, bt) :: l') < 2 ^ 16 ->
  exists s', pbuf_cat h t s = Some s' /\ al s' = al s /\ bytes s' = bytes s /\ pinv s' B R /\
    chain (bufs s') h (catted t (tot_len bt) l ++ (a, bt) :: l') 0 /\
    (forall c, c ∉ l.*1 -> bufs s' !! c = bufs s !! c).
Proof.
  intros I Hne Hl Ht Hd Hok Hok' Hb. unfold pbuf_cat.
  assert (h ≠ 0) as Hh by (destruct l as [|[] l]; [done|]; by destruct Hl as (-> & ? & _)).
  pose proof Ht as (Hta & Htn & Et & _). subst t.
  rewrite !(proj2 (Z.eqb_neq _ 0)) by done. cbn [orb].
  pose proof (chain_size _ _ _ Hl).
  destruct (cat_loop_spec l (chain_fuel s) h a bt s B R) as (s' & E & Ea & Ey & I' & Hc & Fr);
    [unfold chain_fuel; lia|done|done|done|set_solver|done| |].
  - assert (tot_len bt = tot ((a, bt) :: l')) as -> by (cbn [tot tot_ok] in *; lia).
    clear -Hok Hb. induction l as [|[c b] l IH]; constructor.
    + cbn [snd tot tot_ok] in *. lia.
    + cbn [tot tot_ok] in *. apply IH; [apply Hok|lia].
  - exists s'. split; [done|]. split; [done|]. split; [done|]. split; [done|]. split; [|done].
    apply chain_app. exists a. split; [done|]. eapply chain_frame; [done|].
    intros c Hin. apply Fr. set_solver.
Qed.

(** ** [pbuf_realloc] *)

Definition shrunk (grow : Z) (l : list (Z * pbuf)) : list (Z * pbuf) :=
  (fun x : Z * pbuf => (x.1, set_tot_len (tot_len x.2 + grow) x.2)) <$> l.

Lemma shrunk_fst grow l : (shrunk grow l).*1 = l.*1.
Proof. unfold shrunk. rewrite <-list_fmap_compose. done. Qed.

Lemma tot_app l1 l2 : tot (l1 ++ l2) = tot l1 + tot l2.
Proof. induction l1 as [|[a b] l1 IH]; cbn [app tot]; lia. Qed.

Lemma u16_add_wrap t g : 0 <= t + g < 2 ^ 16 -> u16 (t + u16 g) = t + g.
Proof. intros. unfold wrap. rewrite Zplus_mod_idemp_r. apply Z.mod_small. lia. Qed.

Lemma realloc_skip_spec l : forall fuel q rem grow s B R, (length l <= fuel)%nat -> l ≠ [] ->
  chain (bufs s) q l 0 -> tot_ok l -> pinv s B R -> 0 <= rem <= tot l -> grow = rem - tot l ->
  exists l1 q' b l2 s', l = l1 ++ (q', b) :: l2 /\
    realloc_skip fuel q rem grow s = Some (q', rem - tot l1, s') /\
    (0 <= rem - tot l1 <= len b /\ (0 < rem -> 0 < rem - tot l1) /\ (rem = 0 -> l1 = [])) /\ al s' = al s /\ bytes s' = bytes s /\ pinv s' B R /\
    chain (bufs s') q (shrunk grow l1 ++ (q', b) :: l2) 0 /\
    (forall a, a ∉ l1.*1 -> bufs s' !! a = bufs s !! a).
Proof.
  induction l as [|[a b] l IH]; intros fuel q rem grow s B R Hf Hne Hc Hok I Hr Hg; [done|].
  destruct fuel as [|fuel]; [simpl in Hf; lia|]. cbn [realloc_skip].
  pose proof (chain_nodup _ _ _ Hc) as N. rewrite fmap_cons in N. inversion_clear N as [|? ? Na _].
  pose proof Hc as (-> & Hnz & E & Hc'). cbn [fst] in Na.
  pose proof Hok as (Ht & Hlen & Hb & Hok'). pose proof (tot_nonneg _ Hok').
  rewrite (E : get a s = _). cbn [mbind option_bind]. destruct (Z.ltb_spec (len b) rem) as [Hlt|Hge].
  - rewrite (upd_put a _ b s E). cbn [mbind option_bind tot] in *.
    rewrite u16_add_wrap, (wrap_id 16 (rem - len b)) by cint.
    set (b1 := set_tot_len (tot_len b + grow) b).
    destruct (pinv_get _ _ _ _ _ I E) as (_ & _ & _ & (? & ? & ?)).
    assert (pinv (put a b1 s) B R) as I1.
    { eapply pinv_upd_meta; [done..|]. unfold pbuf_ok, b1. cbn [len tot_len ref set_tot_len]. cint. }
    destruct (IH fuel (next b) (rem - len b) grow (put a b1 s) B R)
      as (l1 & q' & b' & l2 & s' & -> & E1 & (Hr1 & Hr2 & _) & Ea & Ey & I' & Hc1 & Fr);
      [simpl in Hf; lia|intros ->; cbn [tot] in *; lia| |done|done|lia|lia|].
    { eapply chain_frame; [done|]. intros c Hin. apply lookup_insert_ne. congruence. }
    exists ((a, b) :: l1), q', b', l2, s'. rewrite E1. cbn [tot] in *.
    replace (rem - len b - tot l1) with (rem - (len b + tot l1)) in * by lia.
    split; [done|]. split; [done|]. split; [split; [done|split; lia]|]. split; [done|]. split; [done|]. split; [done|].
    split.
    + cbn [shrunk fmap list_fmap app chain fst snd]. split; [done|]. split; [done|]. split; [|done].
      rewrite Fr; [apply get_put_eq|]. rewrite fmap_app in Na. set_solver.
    + intros c. rewrite fmap_cons. intros Hin. rewrite Fr by set_solver. apply lookup_insert_ne. set_solver.
  - exists [], a, b, l, s. cbn [tot]. rewrite Z.sub_0_r. split; [done|]. split; [done|]. split; [split; [lia|split; [lia|done]]|]. eauto 12.
Qed.

(** The block of the last pbuf, cut to what it needs. *)
Lemma pinv_resize s B R q b b' a' k n' : pinv s B R -> bufs s !! q = Some b ->
  B !! q = Some k -> owns a' (mk_block q Heap n' :: (map_to_list (delete q B)).*2 ++ R) ->
  pool_elem_size a' = pool_elem_size (al s) -> type b = PBUF_RAM -> type b' = PBUF_RAM ->
  payload b' = payload b -> payload b + len b' <= q + n' -> pbuf_ok b' ->
  pinv (put q b' (with_al a' s)) (<[q := mk_block q Heap n']> B) R.
Proof.
  intros I E Ek O Ep Ht Ht' Hp Hl Hok.
  destruct (pinv_get _ _ _ _ _ I E) as (k' & Ek' & (_ & _ & Hin) & _). rewrite Ht in Hin.
  destruct I as [_ Bl Ok Pl]. split; cbn [al bufs put with_bufs with_al].
  - rewrite <-insert_delete_eq, map_to_list_insert by apply lookup_delete_eq. done.
  - intros c. destruct (decide (q = c)) as [<-|].
    + rewrite !lookup_insert_eq. unfold in_block. rewrite Ht', Hp. cbn [b_addr b_org b_size org_of]. split; [done|]. split; [done|]. lia.
    + rewrite !lookup_insert_ne by done. apply Bl.
  - by apply map_Forall_insert_2.
  - by rewrite Ep.
Qed.

Lemma trim_last s B R q b rem : pinv s B R -> bufs s !! q = Some b -> 0 <= rem <= len b ->
  exists s' B',
    (if bool_decide (type b = PBUF_RAM) && negb (rem =? len b) then
       '(q, a) ← trim q (u16 (payload b - q) + rem) (al s); Some (q, with_al a s)
     else Some (q, s)) = Some (q, s') /\ bufs s' = bufs s /\ bytes s' = bytes s /\
    pinv (put q (set_tot_len rem (set_len rem b)) s') B' R.
Proof.
  intros I E Hr. destruct (pinv_get _ _ _ _ _ I E) as (k & Ek & (Ha & Ho & Hin) & (Hl & Htl & Hrf)).
  assert (pbuf_ok (set_tot_len rem (set_len rem b))) as Hok.
  { unfold pbuf_ok. cbn [len tot_len ref set_tot_len set_len]. cint. }
  destruct (bool_decide_reflect (type b = PBUF_RAM)) as [Ht|Ht];
    [destruct (Z.eqb_spec rem (len b)) as [Hrl|Hrl]|]; cbn [andb negb].
  - exists s, B. split; [done|]. split; [done|]. split; [done|].
    eapply pinv_upd; [done..| | |done]; cbn [payload len set_tot_len set_len]; [lia|].
    rewrite Ht in Hin. lia.
  - rewrite Ht in Hin, Ho. cbn [org_of] in Ho.
    pose proof (pi_own _ _ _ I) as O. rewrite <-(map_to_list_delete B q k Ek) in O.
    cbn [fmap list_fmap snd app] in O. destruct k as [ka ko kn]. cbn [b_addr b_org b_size] in *. subst ka ko.
    pose proof (owns_heap _ _ _ O eq_refl) as Hk. cbn [b_size] in Hk.
    rewrite (wrap_id 16) by cint.
    destruct (trim_law _ _ _ _ (payload b - q + rem) O) as (a' & n' & Et & Ep & Hn & O');
      [cint|lia|]. rewrite Et. cbn [mbind option_bind].
    exists (with_al a' s), (<[q := mk_block q Heap n']> B). split; [done|]. split; [done|]. split; [done|].
    eapply pinv_resize; [done..| |done]. cbn [len set_tot_len set_len]. lia.
  - exists s, B. split; [done|]. split; [done|]. split; [done|].
    eapply pinv_upd; [done..| | |done]; cbn [payload len set_tot_len set_len]; [lia|].
    intros [?|Ht']; [done|]. rewrite Ht' in Hin. lia.
Qed.

Lemma freed_lookup_ne l : forall m a, a ∉ l.*1 -> freed l m !! a = m !! a.
Proof.
  induction l as [|[c b] l IH]; intros m a Ha; [done|]. cbn [freed]. rewrite fmap_cons in Ha.
  destruct (ref b =? 1).
  - rewrite IH by set_solver. apply lookup_delete_ne. set_solver.
  - apply lookup_insert_ne. set_solver.
Qed.

Lemma shrunk_contents m grow l : contents m (shrunk grow l) = contents m l.
Proof.
  induction l as [|[a b] l IH]; [done|].
  change (shrunk grow ((a, b) :: l)) with ((a, set_tot_len (tot_len b + grow) b) :: shrunk grow l).
  by rewrite !contents_cons, IH.
Qed.

Lemma shrunk_tot_ok n l1 q b l2 b' : tot_ok (l1 ++ (q, b) :: l2) ->
  0 <= n - tot l1 <= len b -> len b' = n - tot l1 -> tot_len b' = n - tot l1 ->
  tot_ok (shrunk (n - tot (l1 ++ (q, b) :: l2)) l1 ++ [(q, b')]) /\
  tot (shrunk (n - tot (l1 ++ (q, b) :: l2)) l1 ++ [(q, b')]) = n.
Proof.
  intros Hok Hn Hl Ht. revert n Hok Hn Hl Ht. induction l1 as [|[a c] l1 IH]; intros n Hok Hn Hl Ht.
  - cbn [app shrunk fmap list_fmap tot tot_ok] in *.
    pose proof Hok as (_ & _ & _ & ?%tot_nonneg). intuition lia.
  - cbn [app tot tot_ok] in Hok. destruct Hok as (E & Hc & Hb & Hok).
    destruct (IH (n - len c)) as [H1 H2]; [done|cbn [tot] in *; lia..|].
    cbn [app tot] in *.
    replace (n - len c - tot (l1 ++ (q, b) :: l2)) with (n - (len c + tot (l1 ++ (q, b) :: l2)))
      in * by lia.
    cbn [shrunk fmap list_fmap app tot tot_ok fst snd len tot_len set_tot_len].
    fold (shrunk (n - (len c + tot (l1 ++ (q, b) :: l2))) l1). rewrite H2.
    rewrite tot_app in *. cbn [tot] in *. pose proof (tot_nonneg _ H1).
    repeat split; [lia|lia| |done|lia]. rewrite E.
    enough (n <= len c + (tot l1 + (len b + tot l2))) by lia.
    assert (tot_ok ((q, b) :: l2)) as Hs by (clear -Hok; induction l1 as [|[]]; [done|apply IHl1, Hok]).
    cbn [tot_ok] in Hs. destruct Hs as (_ & _ & _ & ?%tot_nonneg). lia.
Qed.

(** A pbuf that kept the front part of its data, as a chain is cut to [n] bytes. *)
Definition trimmed (n : Z) (x y : Z * pbuf) : Prop :=
  y.1 = x.1 /\ payload y.2 = payload x.2 /\ type y.2 = type x.2 /\ flags y.2 = flags x.2 /\ ref y.2 = ref x.2 /\
  0 <= len y.2 <= len x.2 /\ ((next y.2 = next x.2 /\ len y.2 = len x.2) \/ (next y.2 = 0 /\ (0 < n -> 0 < len y.2))).

Lemma freed_all l : forall m c, Forall (fun x => ref x.2 = 1) l -> c ∈ l.*1 -> freed l m !! c = None.
Proof.
  induction l as [|[a b] l IH]; intros m c F Hc; [set_solver|]. apply Forall_cons in F as [Hb F].
  cbn [freed snd] in *. rewrite Hb. change (1 =? 1) with true. cbv iota. destruct (decide (c ∈ l.*1)) as [Hin|Hin]; [by apply IH|].
  rewrite freed_lookup_ne by done. rewrite fmap_cons in Hc. apply elem_of_cons in Hc as [->|]; [|done]. apply lookup_delete_eq.
Qed.

Lemma shrunk_trimmed n grow l : Forall (fun x => 0 <= len x.2) l -> Forall2 (trimmed n) l (shrunk grow l).
Proof.
  induction 1 as [|[a b] l Hb _ IH]; [constructor|]. unfold shrunk. rewrite fmap_cons. constructor; [|exact IH].
  cbn [snd] in Hb. unfold trimmed. cbn. do 5 (split; [done|]). split; [lia|by left].
Qed.

Lemma realloc_chain s B R p l n : pinv s B R -> l ≠ [] -> chain (bufs s) p l 0 -> tot_ok l ->
  0 <= n < tot l ->
  exists s' B' l', pbuf_realloc p n s = Some s' /\ bytes s' = bytes s /\ pinv s' B' R /\
    chain (bufs s') p l' 0 /\ tot_ok l' /\ tot l' = n /\
    (exists l1 l2, l = l1 ++ l2 /\ Forall2 (trimmed n) l1 l' /\ (n = 0 -> length l' = 1%nat) /\
      (Forall (fun x => ref x.2 = 1) l2 -> forall c, c ∈ l2.*1 -> bufs s' !! c = None)) /\
    (forall m, contents m l' = take (Z.to_nat n) (contents m l)) /\
    (forall c, c ∉ l.*1 -> bufs s' !! c = bufs s !! c).
Proof.
  intros I Hne Hc Hok Hn. pose proof (chain_size _ _ _ Hc) as Hsz.
  destruct l as [|[a b0] l0]; [done|]. pose proof Hc as (Hpa & _ & E0 & _). subst a.
  unfold pbuf_realloc. rewrite (E0 : get p s = _). cbn [mbind option_bind].
  assert (tot_len b0 = tot ((p, b0) :: l0)) as Et by (cbn [tot tot_ok] in *; lia).
  rewrite Et, (proj2 (Z.leb_gt _ _)) by lia.
  destruct (realloc_skip_spec ((p, b0) :: l0) (chain_fuel s) p n (n - tot ((p, b0) :: l0)) s B R)
    as (l1 & q & b & l2 & s1 & El & E1 & (Hr & Hrp & Hrz) & Ea & Ey & I1 & Hc1 & Fr1);
    [unfold chain_fuel; lia|done|done|done|done|lia|done|].
  rewrite E1. cbn [mbind option_bind]. rewrite El in *. clear El E0 Et E1.
  pose proof (chain_nodup _ _ _ Hc1) as N.
  assert (bufs s1 !! q = Some b) as Eq by (eapply chain_elem; [exact Hc1|set_solver]).
  rewrite (Eq : get q s1 = _). cbn [mbind option_bind].
  destruct (trim_last s1 B R q b (n - tot l1) I1 Eq Hr) as (s2 & B2 & E2 & Eb2 & Ey2 & I2).
  rewrite E2. cbn [mbind option_bind]. clear E2. rewrite <-Eb2 in Eq.
  rewrite (upd_put q _ b s2 Eq). cbn [mbind option_bind].
  set (b2 := set_tot_len (n - tot l1) (set_len (n - tot l1) b)) in *.
  rewrite (get_put_eq q b2 s2 : get q (put q b2 s2) = _). cbn [mbind option_bind].
  apply chain_app in Hc1 as (q' & Hh & Hq). cbn [chain] in Hq. destruct Hq as (-> & Hqz & _ & Hl2).
  rewrite fmap_app, NoDup_app, fmap_cons in N. cbn [fst] in N. destruct N as (_ & Nd & N2).
  inversion_clear N2 as [|? ? Nq N2'].
  assert (chain (bufs (put q b2 s2)) (next b2) l2 0) as Hl2'.
  { cbn [bufs put with_bufs]. rewrite Eb2. eapply chain_frame; [exact Hl2|].
    intros c Hin. apply lookup_insert_ne. congruence. }
  destruct (free_chain _ _ _ _ _ I2 Hl2') as (s3 & B3 & E3 & Eb3 & I3 & Ey3).
  assert (exists c3, (if next b2 =? 0 then Some (0, put q b2 s2) else pbuf_free (next b2) (put q b2 s2))
      = Some (c3, s3)) as (c3 & ->).
  { destruct (Z.eqb_spec (next b2) 0) as [Hz|]; [|by eexists].
    rewrite Hz in E3. cbn in E3. simplify_eq. by eexists. }
  cbn [mbind option_bind].
  assert (bufs s3 !! q = Some b2) as Eq3.
  { rewrite Eb3, freed_lookup_ne by done. apply get_put_eq. }
  rewrite (upd_put q _ b2 s3 Eq3).
  destruct (shrunk_tot_ok n l1 q b l2 (set_next 0 b2) Hok Hr eq_refl eq_refl) as [Hto Htt].
  exists (put q (set_next 0 b2) s3), B3,
    (shrunk (n - tot (l1 ++ (q, b) :: l2)) l1 ++ [(q, set_next 0 b2)]).
  split; [done|]. split; [cbn [bytes put with_bufs] in *; congruence|]. split.
  { eapply pinv_upd_meta; [exact I3|exact Eq3|done..|]. exact (pi_ok _ _ _ I3 q b2 Eq3). }
  assert (forall c, c ∉ l2.*1 -> c ≠ q -> bufs (put q (set_next 0 b2) s3) !! c = bufs s1 !! c) as Fr.
  { intros c Hin Hcq. cbn [bufs put with_bufs]. rewrite lookup_insert_ne, Eb3, freed_lookup_ne by done.
    cbn [bufs put with_bufs]. by rewrite lookup_insert_ne, Eb2 by done. }
  split; [|split; [done|split; [done|split; [|split]]]].
  - apply chain_app. exists q. split.
    + eapply chain_frame; [exact Hh|]. intros c Hin. apply Nd in Hin. apply Fr; set_solver.
    + cbn [chain]. by rewrite get_put_eq.
  - exists (l1 ++ [(q, b)]), l2. split; [by rewrite <-app_assoc|]. split.
    + apply Forall2_app; [|constructor; [|constructor]; unfold trimmed; cbn; do 5 (split; [done|]); split; [lia|right; split; [done|lia]]].
      apply shrunk_trimmed. clear -Hok. induction l1 as [|[a c] l1 IH]; [constructor|].
      cbn [app tot_ok] in Hok. constructor; [apply Hok|apply IH, Hok].
    + split; [intros Hz; by rewrite (Hrz Hz)|]. intros F c Hin. assert (c ≠ q) by congruence. cbn [bufs put with_bufs]. rewrite lookup_insert_ne, Eb3 by done. by apply freed_all.
  - intros m. rewrite contents_take by done. rewrite contents_app, shrunk_contents. f_equal.
    unfold contents. cbn. by rewrite app_nil_r.
  - intros c Hin. rewrite fmap_app, fmap_cons in Hin. cbn [fst] in Hin.
    rewrite Fr by set_solver. apply Fr1. set_solver.
Qed.

(** ** [pbuf_dechain], [pbuf_clen], [pbuf_ref] *)

Lemma dechain_chain s B R p b q d l : pinv s B R ->
  chain (bufs s) p ((p, b) :: (q, d) :: l) 0 -> tot_ok ((p, b) :: (q, d) :: l) ->
  exists s' B', pbuf_dechain p s
      = Some (if 0 <? u8 (Z.of_nat (freed_count ((q, d) :: l))) then 0 else q, s') /\
    bytes s' = bytes s /\ pinv s' B' R /\
    bufs s' = freed ((q, d) :: l) (<[p := set_tot_len (len b) (set_next 0 b)]> (bufs s)).
Proof.
  intros I Hc Hok. pose proof (chain_nodup _ _ _ Hc) as N. rewrite fmap_cons in N.
  inversion_clear N as [|? ? Np _]. cbn [fst] in Np.
  destruct Hc as (_ & Hpz & Ep & Hc). pose proof Hc as (Hq & Hqz & Eq & _).
  cbn [tot_ok tot] in Hok.
  destruct Hok as (Htb & Hlb & Hbb & Htd & Hld & Hbd & Hok).
  unfold pbuf_dechain. rewrite (Ep : get p s = _). cbn [mbind option_bind]. rewrite Hq.
  rewrite (proj2 (Z.eqb_neq q 0)), (upd_put q _ d s Eq) by done. cbn [mbind option_bind].
  rewrite wrap_id by (pose proof (tot_nonneg _ Hok); cint).
  assert (put q (set_tot_len (tot_len b - len b) d) s = s) as ->.
  { replace (tot_len b - len b) with (tot_len d) by lia.
    unfold put, with_bufs. rewrite insert_id by (by destruct d). by destruct s. }
  rewrite (upd_put p _ b s Ep). cbn [mbind option_bind].
  rewrite (upd_put p _ (set_next 0 b) _ (get_put_eq p _ s)), put_put. cbn [mbind option_bind].
  change (len (set_next 0 b)) with (len b).
  set (b1 := set_tot_len (len b) (set_next 0 b)).
  destruct (pinv_get _ _ _ _ _ I Ep) as (_ & _ & _ & (? & ? & ?)).
  assert (pinv (put p b1 s) B R) as I1 by (eapply pinv_upd_meta; done).
  destruct (free_chain (put p b1 s) B R q ((q, d) :: l) I1) as (s' & B' & E & Eb & I' & Ey).
  { rewrite <-Hq at 1. eapply chain_frame; [exact Hc|]. intros c Hin. apply lookup_insert_ne. intros <-. by apply Np. }
  rewrite E. eauto 10.
Qed.

Lemma clen_loop_spec s l : forall fuel p n, (length l < fuel)%nat -> chain (bufs s) p l 0 ->
  clen_loop fuel p (u8 n) s = Some (u8 (n + Z.of_nat (length l))).
Proof.
  induction l as [|[a b] l IH]; intros fuel p n Hf Hc; (destruct fuel as [|fuel]; [simpl in Hf; lia|]);
    cbn [clen_loop chain] in *.
  - subst p. by rewrite Z.eqb_refl, Z.add_0_r.
  - destruct Hc as (-> & ? & E & Hc). rewrite (proj2 (Z.eqb_neq a 0)), (E : get a s = _) by done.
    cbn [mbind option_bind].
    replace (u8 (u8 n + 1)) with (u8 (n + 1)) by (unfold wrap; by rewrite Zplus_mod_idemp_l).
    rewrite (IH fuel (next b) (n + 1)) by (simpl in *; try lia; done). do 2 f_equal. simpl. lia.
Qed.

(** ** [pbuf_header] *)

(** The pbuf with [inc] more bytes in front. *)
Definition header_moved (inc : Z) (b : pbuf) : pbuf :=
  set_tot_len (tot_len b + inc) (set_len (len b + inc) (set_payload (payload b - inc) b)).

(** When the move is possible: the headers hidden fit in the pbuf; headers are
    only revealed in a pbuf that carries its data, and not over its struct. *)
Definition header_fits (p inc : Z) (b : pbuf) : bool :=
  (0 <=? len b + inc) &&
  match type b with
  | PBUF_RAM | PBUF_POOL => p + 16 <=? payload b - inc
  | PBUF_REF | PBUF_ROM => inc <? 0
  end.

Lemma header_spec s B R p inc b : pinv s B R -> bufs s !! p = Some b -> p ≠ 0 ->
  in_s 16 inc -> inc ≠ 0 -> len b <= tot_len b -> tot_len b + inc < 2 ^ 16 ->
  inc <= payload b -> payload b + len b < 2 ^ 32 ->
  if header_fits p inc b then
    pbuf_header p inc s = Some (0, put p (header_moved inc b) s) /\
    pinv (put p (header_moved inc b) s) B R
  else pbuf_header p inc s = Some (1, s).
Proof.
  intros I E Hp Hi Hz Htl Hb Hpl Hpb. unfold pbuf_header, header_fits.
  rewrite (proj2 (Z.eqb_neq inc 0)), (proj2 (Z.eqb_neq p 0)), (E : get p s = _) by done.
  cbn [orb mbind option_bind]. change SIZEOF_STRUCT_PBUF with 16.
  destruct (pinv_get _ _ _ _ _ I E) as (k & _ & _ & (Hl & Ht & Hr)).
  rewrite (wrap_id 16 (Z.abs inc)) by cint.
  destruct (Z.leb_spec 0 (len b + inc)) as [Hlen|Hlen]; cbn [andb]; last first.
  { by rewrite (proj2 (Z.ltb_lt inc 0)), (proj2 (Z.ltb_lt (len b) (Z.abs inc))) by cint. }
  assert ((inc <? 0) && (len b <? Z.abs inc) = false) as ->.
  { apply andb_false_iff. destruct (Z.ltb_spec inc 0); [right; apply Z.ltb_ge; lia|by left]. }
  assert ((type b = PBUF_RAM \/ type b = PBUF_POOL -> p + 16 <= payload b - inc) ->
    pinv (put p (header_moved inc b) s) B R) as Hinv.
  { intros Hroom. eapply pinv_upd; [done|done|done| |done|];
      unfold header_moved; cbn [payload len set_tot_len set_len set_payload]; [lia|].
    unfold pbuf_ok. cbn [len tot_len ref set_tot_len set_len set_payload]. cint. }
  rewrite (upd_put p _ b s E).
  rewrite (wrap_id 32 (payload b - inc)), (wrap_id 16 (len b + inc)), (wrap_id 16 (tot_len b + inc)) by cint.
  destruct (type b) eqn:Tb.
  - rewrite Z.ltb_antisym. destruct (Z.leb_spec (p + 16) (payload b - inc)) as [Hroom|]; cbn [negb]; [|done].
    split; [done|]. by apply Hinv.
  - destruct (Z.ltb_spec inc 0); [|done]. rewrite (proj2 (Z.leb_le (Z.abs inc) (len b))) by lia.
    split; [done|]. apply Hinv. by intros [|].
  - destruct (Z.ltb_spec inc 0); [|done]. rewrite (proj2 (Z.leb_le (Z.abs inc) (len b))) by lia.
    split; [done|]. apply Hinv. by intros [|].
  - rewrite Z.ltb_antisym. destruct (Z.leb_spec (p + 16) (payload b - inc)) as [Hroom|]; cbn [negb]; [|done].
    split; [done|]. by apply Hinv.
Qed.

(** What [pbuf_alloc] promises, for all types. *)
Lemma alloc_any s B R layer length t : pinv s B R -> 0 <= length < 2 ^ 16 ->
  exists p s' B', pbuf_alloc layer length t s = Some (p, s') /\ bytes s' = bytes s /\
    pinv s' B' R /\
    ((p = 0 /\ bufs s' = bufs s) \/
     (exists b l, chain (bufs s') p ((p, b) :: l) 0 /\ extends (bufs s) (bufs s') ((p, b) :: l) /\
      Forall (fun x => fresh_pbuf t x.2) ((p, b) :: l) /\
      tot_ok ((p, b) :: l) /\ tot_len b = length /\ (t ≠ PBUF_POOL -> l = []) /\
      payload b = match t with
                  | PBUF_RAM | PBUF_POOL => p + 16 + layer_offset layer
                  | PBUF_ROM | PBUF_REF => 0
                  end)).
Proof.
  intros I Hl.
  assert (forall p s' B' a, pinv s' B' R -> p ≠ 0 -> bufs s !! p = None ->
    bufs s' = <[p := mk_pbuf 0 a length length t 0 1]> (bufs s) ->
    exists b l, chain (bufs s') p ((p, b) :: l) 0 /\ extends (bufs s) (bufs s') ((p, b) :: l) /\
      Forall (fun x => fresh_pbuf t x.2) ((p, b) :: l) /\
      tot_ok ((p, b) :: l) /\ tot_len b = length /\ (t ≠ PBUF_POOL -> l = []) /\ payload b = a)
    as Single.
  { intros p s' B' a I' Hp Fp Eb. exists (mk_pbuf 0 a length length t 0 1), []. rewrite Eb.
    cbn [chain tot_ok tot len tot_len]. rewrite lookup_insert_eq. split; [done|]. split.
    - intros c. cbn [fmap list_fmap fst]. case_decide as D.
      + apply list_elem_of_singleton in D. by subst.
      + apply lookup_insert_ne. set_solver.
    - repeat split; try lia. by repeat constructor. }
  destruct (decide (t = PBUF_POOL)) as [->|Hpool].
  { destruct (alloc_pool s B R layer length I Hl) as (p & s' & B' & E & Ey & I' & [H|H]);
      exists p, s', B'; [by auto 10|]. split; [done|]. split; [done|]. split; [done|]. right.
    destruct H as (b & l & ? & ? & ? & ? & ? & ?). exists b, l. do 5 (split; [done|]). done. }
  destruct (decide (t = PBUF_RAM)) as [->|Hram].
  - destruct (alloc_ram s B R layer length I Hl) as (p & s' & B' & E & Ey & I' & [H|(Hp & Fp & Eb)]);
      exists p, s', B'; [by auto 10|]. split; [done|]. split; [done|]. split; [done|]. right.
    by eapply Single.
  - assert (t = PBUF_ROM \/ t = PBUF_REF) as Ht by (destruct t; try done; auto).
    destruct (alloc_ref s B R layer length t I Hl Ht)
      as (p & s' & B' & E & Ey & I' & [H|(Hp & Fp & Eb)]); exists p, s', B'; [by auto 10|].
    split; [done|]. split; [done|]. split; [done|]. right.
    replace (match t with PBUF_RAM | PBUF_POOL => p + 16 + layer_offset layer | _ => 0 end) with 0
      by (by destruct t). by eapply Single.
Qed.

Lemma freed_count_ones l : Forall (fun x => ref x.2 = 1) l -> freed_count l = length l.
Proof.
  induction 1 as [|[a b] l Hr _ IH]; [done|]. cbn [freed_count]. cbn [snd] in Hr.
  rewrite Hr. cbn. by rewrite IH.
Qed.

(** ** Properties *)

(** The room each layer asks for in front of its data: 16 bytes for the link, 20
    for IP and 20 for the transport header. *)
Definition headroom (layer : pbuf_layer) : Z :=
  match layer with PBUF_TRANSPORT => 56 | PBUF_IP => 36 | PBUF_LINK => 16 | PBUF_RAW => 0 end.

(** C13: [pbuf_alloc] always returns.  On success the result is a
    well-formed chain of new pbufs, not shared with any live one, whose
    [tot_len] fields count [length] bytes in all, with one reference each and
    the payload behind the struct and the room the layer asks for; only the
    pool type gives more than one pbuf.  When memory runs out, also halfway
    through a pool chain, the result is NULL and every pbuf obtained on the way
    has been given back. *)
Theorem pbuf_alloc_correct s B R layer length t : pinv s B R -> 0 <= length < 2 ^ 16 ->
  exists p s' B', pbuf_alloc layer length t s = Some (p, s') /\ bytes s' = bytes s /\
    pinv s' B' R /\
    ((p = 0 /\ bufs s' = bufs s) \/
     (exists b l, chain (bufs s') p ((p, b) :: l) 0 /\ extends (bufs s) (bufs s') ((p, b) :: l) /\
      Forall (fun x => fresh_pbuf t x.2) ((p, b) :: l) /\
      tot_ok ((p, b) :: l) /\ tot_len b = length /\ (t ≠ PBUF_POOL -> l = []) /\
      payload b = match t with
                  | PBUF_RAM | PBUF_POOL => p + 16 + headroom layer
                  | PBUF_ROM | PBUF_REF => 0
                  end)).
Proof. apply alloc_any. Qed.

(** C12: [pbuf_free] of a chain gives back exactly the leading pbufs that have
    no other reference, takes one reference from the first pbuf that stays, and
    leaves everything behind it and outside the chain alone; the result is the
    number of pbufs given back, modulo 256. *)
Theorem pbuf_free_correct s B R p l : pinv s B R -> chain (bufs s) p l 0 ->
  exists s' B', pbuf_free p s = Some (u8 (Z.of_nat (freed_count l)), s') /\
    pinv s' B' R /\ bytes s' = bytes s /\ bufs s' = freed l (bufs s) /\
    forall a, a ∉ l.*1 -> bufs s' !! a = bufs s !! a.
Proof.
  intros I Hc. destruct (free_chain s B R p l I Hc) as (s' & B' & E & Eb & I' & Ey).
  exists s', B'. split; [done|]. split; [done|]. split; [done|]. split; [done|].
  intros a Ha. rewrite Eb. by apply freed_lookup_ne.
Qed.

(** Freeing what [pbuf_alloc] just returned restores the pbufs: nothing is
    leaked and nothing else is touched, and the count is the length of the
    chain (modulo 256). *)
Theorem pbuf_alloc_free s B R layer length t p s' : pinv s B R -> 0 <= length < 2 ^ 16 ->
  pbuf_alloc layer length t s = Some (p, s') -> p ≠ 0 ->
  exists n s'' B'', pbuf_free p s' = Some (n, s'') /\ bufs s'' = bufs s /\ pinv s'' B'' R /\
    exists l, chain (bufs s') p l 0 /\ n = Z.of_nat (List.length l) mod 256.
Proof.
  intros I Hl E Hp. destruct (alloc_any s B R layer length t I Hl)
    as (p' & s1 & B1 & E1 & Ey1 & I1 & H1). simplify_eq.
  destruct H1 as [[? _]|(b & l & Hc & X & F & _)]; [done|].
  assert (Forall (fun x => ref x.2 = 1) ((p, b) :: l)) as F1.
  { eapply Forall_impl; [exact F|]. by intros x (_ & ? & _). }
  destruct (free_chain s' B1 R p ((p, b) :: l) I1 Hc) as (s2 & B2 & E2 & Eb2 & I2 & _).
  eexists _, s2, B2. split; [exact E2|]. split; [rewrite Eb2; by apply extends_freed|].
  split; [done|]. exists ((p, b) :: l). split; [done|]. by rewrite freed_count_ones.
Qed.

(** [pbuf_cat] of two well-formed chains that share no pbuf and whose
    lengths fit 16 bits gives one well-formed chain, the pbufs of the first
    followed by those of the second, holding the data of the first followed by
    the data of the second; references and all other pbufs are unchanged. *)
Theorem pbuf_cat_correct s B R h t l a bt l' : pinv s B R -> l ≠ [] ->
  chain (bufs s) h l 0 -> chain (bufs s) t ((a, bt) :: l') 0 -> l.*1 ## ((a, bt) :: l').*1 ->
  tot_ok l -> tot_ok ((a, bt) :: l') -> tot l + tot ((a, bt) :: l') < 2 ^ 16 ->
  exists s' hl, pbuf_cat h t s = Some s' /\ bytes s' = bytes s /\ pinv s' B R /\
    hl.*1 = l.*1 /\ chain (bufs s') h (hl ++ (a, bt) :: l') 0 /\ tot_ok (hl ++ (a, bt) :: l') /\
    (forall m, contents m (hl ++ (a, bt) :: l') = contents m l ++ contents m ((a, bt) :: l')) /\
    (forall c, c ∉ l.*1 -> bufs s' !! c = bufs s !! c).
Proof.
  intros I Hne Hl Ht Hd Hok Hok' Hb.
  destruct (cat_chain s B R h t l a bt l' I Hne Hl Ht Hd Hok Hok' Hb)
    as (s' & E & _ & Ey & I' & Hc & Fr).
  assert (tot_len bt = tot ((a, bt) :: l')) as Et by (cbn [tot tot_ok] in *; lia).
  exists s', (catted t (tot_len bt) l). split; [done|]. split; [done|]. split; [done|].
  split; [apply catted_fst|]. split; [done|]. split; [apply catted_tot_ok; auto; lia|].
  split; [|done]. intros m. by rewrite contents_app, catted_contents.
Qed.

(** [pbuf_dechain] cuts the first pbuf off: it becomes a chain of its own
    with [tot_len] equal to [len]; the rest loses the reference the first one
    held.  The result is NULL exactly when that gave the second pbuf back
    (chains of up to 256 pbufs), and otherwise the rest of the chain. *)
Theorem pbuf_dechain_correct s B R p b q d l : pinv s B R ->
  chain (bufs s) p ((p, b) :: (q, d) :: l) 0 -> tot_ok ((p, b) :: (q, d) :: l) ->
  (length l < 255)%nat ->
  exists s' B', pbuf_dechain p s = Some (if ref d =? 1 then 0 else q, s') /\
    bytes s' = bytes s /\ pinv s' B' R /\
    chain (bufs s') p [(p, set_tot_len (len b) (set_next 0 b))] 0 /\
    (ref d ≠ 1 -> chain (bufs s') q ((q, set_ref (ref d - 1) d) :: l) 0).
Proof.
  intros I Hc Hok Hlen. pose proof (chain_nodup _ _ _ Hc) as N.
  rewrite !fmap_cons in N. cbn [fst] in N. inversion_clear N as [|? ? Np N']. inversion_clear N' as [|? ? Nq _].
  destruct (dechain_chain s B R p b q d l I Hc Hok) as (s' & B' & E & Ey & I' & Eb).
  destruct Hc as (_ & Hpz & _ & Hc). destruct Hc as (Hq & Hqz & _ & Hc).
  exists s', B'. split; [|split; [done|split; [done|split]]].
  - rewrite E. do 2 f_equal. cbn [freed_count]. destruct (ref d =? 1); [|done].
    assert (freed_count l <= List.length l)%nat.
    { clear. induction l as [|[a b] l IH]; cbn [freed_count length]; [lia|]. destruct (ref b =? 1); lia. }
    rewrite wrap_id by cint. rewrite (proj2 (Z.ltb_lt _ _)) by lia. done.
  - cbn [chain]. rewrite Eb. split; [done|]. split; [done|]. split; [|done].
    rewrite freed_lookup_ne; [apply lookup_insert_eq|]. rewrite fmap_cons. exact Np.
  - intros Hr. rewrite Eb. cbn [freed]. rewrite (proj2 (Z.eqb_neq _ 1)) by done. cbn [chain].
    rewrite lookup_insert_eq. split; [done|]. split; [done|]. split; [done|].
    eapply chain_frame; [exact Hc|]. intros c Hin.
    rewrite !lookup_insert_ne; [done|set_solver..].
Qed.

(** [pbuf_realloc] shortens a well-formed chain to the first [n] bytes of
    its data: it keeps the pbufs that hold them, with the [tot_len] invariant,
    trims the last one and gives the others back. *)
Theorem pbuf_realloc_correct s B R p l n : pinv s B R -> l ≠ [] -> chain (bufs s) p l 0 ->
  tot_ok l -> 0 <= n < tot l ->
  exists s' B' l', pbuf_realloc p n s = Some s' /\ bytes s' = bytes s /\ pinv s' B' R /\
    chain (bufs s') p l' 0 /\ tot_ok l' /\ tot l' = n /\
    (exists l1 l2, l = l1 ++ l2 /\ l1.*1 = l'.*1) /\
    (forall m, contents m l' = take (Z.to_nat n) (contents m l)) /\
    (forall c, c ∉ l.*1 -> bufs s' !! c = bufs s !! c).
Proof.
  intros I Hne Hc Hok Hn. destruct (realloc_chain s B R p l n I Hne Hc Hok Hn)
    as (s' & B' & l' & E & Ey & I' & Hc' & Hok' & Ht & (l1 & l2 & El & Htr & _ & _) & Hm & Hf).
  exists s', B', l'. do 6 (split; [done|]). split; [|done]. exists l1, l2. split; [done|].
  clear -Htr. induction Htr as [|x y l0 l0' (E & _) _ IH]; [done|]. rewrite !fmap_cons. f_equal; done.
Qed.

(** [pbuf_header] succeeds exactly when the headers hidden fit in the
    pbuf, or, for a pbuf that carries its data, the headers revealed fit
    between the struct and the payload; otherwise it reports 1 and changes
    nothing.  After a success the opposite move, unless it would reveal headers
    of a pbuf that refers to foreign data, succeeds and restores the state. *)
Theorem pbuf_header_correct s B R p inc b : pinv s B R -> bufs s !! p = Some b -> p ≠ 0 ->
  - 32768 < inc < 32768 -> inc ≠ 0 -> len b <= tot_len b -> tot_len b + inc < 2 ^ 16 ->
  65536 <= payload b -> payload b + len b < 2 ^ 32 ->
  if header_fits p inc b then
    exists s', pbuf_header p inc s = Some (0, s') /\ bufs s' !! p = Some (header_moved inc b) /\
      pinv s' B R /\
      (type b = PBUF_RAM \/ type b = PBUF_POOL -> p + 16 <= payload b ->
       pbuf_header p (- inc) s' = Some (0, s))
  else pbuf_header p inc s = Some (1, s).
Proof.
  intros I E Hp Hi Hz Htl Hb Hpl Hpb.
  pose proof (header_spec s B R p inc b I E Hp ltac:(cint) Hz Htl Hb ltac:(lia) Hpb) as H.
  destruct (header_fits p inc b) eqn:Hfit; [|done]. destruct H as [H1 H2]. eexists. split; [exact H1|].
  split; [apply get_put_eq|]. split; [done|]. intros Ht Hroom.
  destruct (pinv_get _ _ _ _ _ I E) as (_ & _ & _ & (Hl & Htl16 & _)).
  assert (header_moved (- inc) (header_moved inc b) = b) as Hback.
  { clear. destruct b. unfold header_moved, set_tot_len, set_len, set_payload.
    cbn [next payload tot_len len type flags ref]. f_equal; lia. }
  unfold header_fits in Hfit. apply andb_true_iff in Hfit as [Hfit%Z.leb_le _].
  pose proof (header_spec _ B R p (- inc) (header_moved inc b) H2 (get_put_eq p _ s) Hp) as H.
  rewrite Hback, put_put in H.
  assert (put p b s = s) as Hput by (unfold put, with_bufs; rewrite insert_id by done; by destruct s).
  rewrite Hput in H. unfold header_moved in H.
  cbn [len tot_len payload set_tot_len set_len set_payload] in H. fold (header_moved inc b) in H.
  assert (header_fits p (- inc) (header_moved inc b) = true) as Hf.
  { unfold header_fits. change (type (header_moved inc b)) with (type b).
    cbn [len payload header_moved set_tot_len set_len set_payload].
    apply andb_true_iff. split; [apply Z.leb_le; cint|].
    destruct Ht as [-> | ->]; apply Z.leb_le; lia. }
  rewrite Hf in H. apply H; cint.
Qed.

End Correct.

(** ** A state to try the operations on *)

(** Pools in the order of lwip/memp_std.h; few elements, and plausible sizes
    for the control blocks. *)
Definition demo_pools : list Memp.pool :=
  [Memp.mk_pool 2 28; Memp.mk_pool 2 32; Memp.mk_pool 2 172; Memp.mk_pool 2 36;
   Memp.mk_pool 2 20; Memp.mk_pool 2 16; Memp.mk_pool 3 16; Memp.mk_pool 4 528].

Definition ps0 : pstate lwip_mem :=
  mk_ps (lwip_init_mem 0x20001001 demo_pools 0x20020002) ∅ ∅ 0.

Lemma ps0_areas : areas 0x20001001 demo_pools 0x20020002.
Proof. split; [repeat constructor|repeat constructor|split; vm_compute; reflexivity..|]. left. by vm_compute. Qed.

Lemma ps0_inv : pinv ps0 ∅ [].
Proof.
  split; [|done|done|done]. rewrite map_to_list_empty. apply lwip_init_owns, ps0_areas.
Qed.

(** The result and the state of a call that returned. *)
Definition after {A C} (d : C * pstate A) (r : option (C * pstate A)) : C * pstate A := default d r.

(** A pool chain of three pbufs, then a PBUF_RAM pbuf. *)
Definition ps1 : Z * pstate lwip_mem := after (0, ps0) (pbuf_alloc PBUF_LINK 1100 PBUF_POOL ps0).
Definition ps2 : Z * pstate lwip_mem := after (0, ps0) (pbuf_alloc PBUF_TRANSPORT 100 PBUF_RAM ps1.2).

Lemma after_inv {A} {ops : alloc_ops A} {laws : alloc_laws A} layer length t s B R d :
  pinv s B R -> 0 <= length < 2 ^ 16 ->
  exists B', pinv (after d (pbuf_alloc layer length t s)).2 B' R.
Proof.
  intros I Hl. destruct (alloc_any s B R layer length t I Hl) as (p & s' & B' & E & _ & I' & _).
  rewrite E. by exists B'.
Qed.

Lemma ps1_inv : exists B, pinv ps1.2 B [].
Proof. eapply after_inv; [exact ps0_inv|lia]. Qed.
Lemma ps2_inv : exists B, pinv ps2.2 B [].
Proof. destruct ps1_inv as [B I]. eapply after_inv; [exact I|lia]. Qed.

(** The structs of a chain, by following [next]. *)
Fixpoint collect (fuel : nat) (m : gmap Z pbuf) (p : Z) : list (Z * pbuf) :=
  match fuel with
  | O => []
  | S fuel => if p =? 0 then [] else
      match m !! p with Some b => (p, b) :: collect fuel m (next b) | None => [] end
  end.

Example ps1_lens : map (fun x => (tot_len x.2, len x.2)) (collect 9 (bufs ps1.2) ps1.1)
  = [(1100, 496); (604, 512); (92, 92)].
Proof. vm_compute. reflexivity. Qed.

(** The pool chain and the PBUF_RAM pbuf of [ps2]. *)
Definition ch1 : list (Z * pbuf) := Eval vm_compute in collect 9 (bufs ps2.2) ps1.1.
Definition ch2 : list (Z * pbuf) := Eval vm_compute in collect 9 (bufs ps2.2) ps2.1.
Definition p1 : Z := Eval vm_compute in ps1.1.
Definition p2 : Z := Eval vm_compute in ps2.1.

Lemma ch1_chain : chain (bufs ps2.2) p1 ch1 0.
Proof. vm_compute. repeat split; discriminate. Qed.
Lemma ch2_chain : chain (bufs ps2.2) p2 ch2 0.
Proof. vm_compute. repeat split; discriminate. Qed.
Lemma ch1_ok : tot_ok ch1.
Proof. vm_compute. repeat split; discriminate. Qed.
Lemma ch2_ok : tot_ok ch2.
Proof. vm_compute. repeat split; discriminate. Qed.

Lemma ch12_disj : ch1.*1 ## ch2.*1.
Proof.
  apply elem_of_disjoint. intros a Ha.
  assert (Forall (fun a => a ∉ ch2.*1) ch1.*1) as F by (apply (bool_decide_unpack _); by vm_compute).
  rewrite Forall_forall in F. by apply F.
Qed.

Lemma pbuf_alloc_correct_witness : exists p s' B',
  pbuf_alloc PBUF_LINK 1100 PBUF_POOL ps0 = Some (p, s') /\ bytes s' = bytes ps0 /\
    pinv s' B' [] /\
    ((p = 0 /\ bufs s' = bufs ps0) \/
     (exists b l, chain (bufs s') p ((p, b) :: l) 0 /\ extends (bufs ps0) (bufs s') ((p, b) :: l) /\
      Forall (fun x => fresh_pbuf PBUF_POOL x.2) ((p, b) :: l) /\
      tot_ok ((p, b) :: l) /\ tot_len b = 1100 /\ (PBUF_POOL ≠ PBUF_POOL -> l = []) /\
      payload b = p + 16 + layer_offset PBUF_LINK)).
Proof. apply (pbuf_alloc_correct ps0 ∅ [] PBUF_LINK 1100 PBUF_POOL); [exact ps0_inv|lia]. Defined.

Lemma pbuf_free_correct_witness : exists B s' B',
  pbuf_free p1 ps2.2 = Some (u8 (Z.of_nat (freed_count ch1)), s') /\
    pinv s' B' [] /\ bytes s' = bytes ps2.2 /\ bufs s' = freed ch1 (bufs ps2.2) /\ pinv ps2.2 B [] /\
    forall a, a ∉ ch1.*1 -> bufs s' !! a = bufs ps2.2 !! a.
Proof.
  destruct ps2_inv as [B I]. exists B.
  destruct (pbuf_free_correct ps2.2 B [] p1 ch1 I ch1_chain) as (s' & B' & ? & ? & ? & ? & ?).
  eauto 10.
Defined.

Lemma pbuf_alloc_free_witness : exists n s'' B'',
  pbuf_free p1 ps1.2 = Some (n, s'') /\ bufs s'' = bufs ps0 /\ pinv s'' B'' [] /\
    exists l, chain (bufs ps1.2) p1 l 0 /\ n = Z.of_nat (List.length l) mod 256.
Proof.
  apply (pbuf_alloc_free ps0 ∅ [] PBUF_LINK 1100 PBUF_POOL);
    [exact ps0_inv|lia|vm_compute; reflexivity|discriminate].
Defined.

Lemma pbuf_cat_correct_witness : exists B bt l' s' hl,
  ch2 = [(p2, bt)] /\ l' = [] /\ pbuf_cat p1 p2 ps2.2 = Some s' /\ bytes s' = bytes ps2.2 /\
    pinv s' B [] /\ hl.*1 = ch1.*1 /\ chain (bufs s') p1 (hl ++ (p2, bt) :: l') 0 /\
    tot_ok (hl ++ (p2, bt) :: l') /\
    (forall m, contents m (hl ++ (p2, bt) :: l') = contents m ch1 ++ contents m ((p2, bt) :: l')) /\
    (forall c, c ∉ ch1.*1 -> bufs s' !! c = bufs ps2.2 !! c).
Proof.
  destruct ps2_inv as [B I]. eexists B, _, _.
  destruct (pbuf_cat_correct ps2.2 B [] p1 p2 ch1 p2 _ _ I ltac:(discriminate) ch1_chain ch2_chain)
    as (s' & hl & H).
  - exact ch12_disj.
  - exact ch1_ok.
  - exact ch2_ok.
  - vm_compute. reflexivity.
  - exists s', hl. split; [reflexivity|]. split; [reflexivity|]. exact H.
Defined.

Definition ch1_b : pbuf := Eval vm_compute in match ch1 with x :: _ => x.2 | [] => mk_pbuf 0 0 0 0 PBUF_RAM 0 0 end.
Definition ch1_q : Z * pbuf := Eval vm_compute in match ch1 with _ :: x :: _ => x | _ => (0, ch1_b) end.
Definition ch1_l : list (Z * pbuf) := Eval vm_compute in drop 2 ch1.

Lemma pbuf_dechain_correct_witness : exists s' B',
  pbuf_dechain p1 ps2.2 = Some (0, s') /\ bytes s' = bytes ps2.2 /\ pinv s' B' [] /\
    chain (bufs s') p1 [(p1, set_tot_len (len ch1_b) (set_next 0 ch1_b))] 0 /\
    (ref ch1_q.2 ≠ 1 -> chain (bufs s') ch1_q.1 ((ch1_q.1, set_ref (ref ch1_q.2 - 1) ch1_q.2) :: ch1_l) 0).
Proof.
  destruct ps2_inv as [B I].
  exact (pbuf_dechain_correct ps2.2 B [] p1 ch1_b ch1_q.1 ch1_q.2 ch1_l I ch1_chain ch1_ok
           ltac:(vm_compute; lia)).
Defined.

Lemma pbuf_realloc_correct_witness : exists s' B' l',
  pbuf_realloc p1 700 ps2.2 = Some s' /\ bytes s' = bytes ps2.2 /\ pinv s' B' [] /\
    chain (bufs s') p1 l' 0 /\ tot_ok l' /\ tot l' = 700 /\
    (exists l1 l2, ch1 = l1 ++ l2 /\ l1.*1 = l'.*1) /\
    (forall m, contents m l' = take (Z.to_nat 700) (contents m ch1)) /\
    (forall c, c ∉ ch1.*1 -> bufs s' !! c = bufs ps2.2 !! c).
Proof.
  destruct ps2_inv as [B I].
  apply (pbuf_realloc_correct ps2.2 B [] p1 ch1 700 I ltac:(discriminate) ch1_chain ch1_ok).
  split; vm_compute; congruence.
Defined.

Definition p2_b : pbuf := Eval vm_compute in match ch2 with x :: _ => x.2 | [] => ch1_b end.

Lemma pbuf_header_correct_witness : exists B s',
  pbuf_header p2 20 ps2.2 = Some (0, s') /\ bufs s' !! p2 = Some (header_moved 20 p2_b) /\
      pinv s' B [] /\
      (type p2_b = PBUF_RAM \/ type p2_b = PBUF_POOL -> p2 + 16 <= payload p2_b ->
       pbuf_header p2 (- 20) s' = Some (0, ps2.2)).
Proof.
  destruct ps2_inv as [B I]. exists B.
  exact (pbuf_header_correct ps2.2 B [] p2 20 p2_b I ltac:(vm_compute; reflexivity)
    ltac:(discriminate) ltac:(lia) ltac:(lia) ltac:(vm_compute; discriminate)
    ltac:(vm_compute; reflexivity) ltac:(vm_compute; discriminate) ltac:(vm_compute; reflexivity)).
Defined.

(** The examples in the comment of [pbuf_free]: the references of a->b->c
    before, and those left after [pbuf_free(a)]. *)
Definition refs_after (r1 r2 r3 : Z) : list Z :=
  let b r n := mk_pbuf n 0 0 0 PBUF_REF 0 r in
  let l := [(4, b r1 8); (8, b r2 12); (12, b r3 0)] in
  let m := freed l (<[4 := b r1 8]> (<[8 := b r2 12]> (<[12 := b r3 0]> ∅))) in
  omap (fun a => ref <$> m !! a) [4; 8; 12].

Example free_doc : refs_after 1 2 3 = [1; 3] /\ refs_after 3 3 3 = [2; 3; 3] /\
  refs_after 1 1 2 = [1] /\ refs_after 2 1 1 = [1; 1; 1] /\ refs_after 1 1 1 = [].
Proof. vm_compute. auto. Qed.

End Pbuf.
