(* ===== verification/PbufData.v ===== *)
(** * The data of packet buffers (libraries/Ethernet/utility/pbuf.c)

    Copying data into, out of and between chains, and searching in them.  The
    buffer of the application is a list of bytes; reading or writing beyond its
    end is the result [None], NULL is [None] as the argument. *)
From S2P Require Import Prelude Mem Memp Alloc Pbuf.

Module PbufData.
Import Alloc Pbuf.

(** ** Operations *)

Section Operations.
Context {A : Type} {ops : alloc_ops A}.

(** The loop of [pbuf_copy]: error code and state. *)
Fixpoint copy_loop (fuel : nat) (p_to p_from offset_to offset_from : Z) (s : pstate A)
    : option (Z * pstate A) :=
  match fuel with
  | O => None
  | S fuel =>
      bt ← get p_to s;
      bf ← get p_from s;
      let n := if len bf - offset_from <=? len bt - offset_to
               then u16 (len bf - offset_from) else u16 (len bt - offset_to) in
      let s := with_bytes (write_bytes (payload bt + offset_to)
                 (read_bytes (bytes s) (payload bf + offset_from) n) (bytes s)) s in
      let offset_to := u16 (offset_to + n) in
      let offset_from := u16 (offset_from + n) in
      let '(p_from, offset_from) :=
        if len bf <=? offset_from then (next bf, 0) else (p_from, offset_from) in
      let '(p_to, offset_to, arg_error) :=
        if offset_to =? len bt
        then (next bt, 0, negb (negb (next bt =? 0) || (p_from =? 0)))
        else (p_to, offset_to, false) in
      if arg_error : bool then Some (ERR_ARG, s)
      else
        from_queue ← (if p_from =? 0 then Some false else
                        b ← get p_from s; Some ((len b =? tot_len b) && negb (next b =? 0)));
        if from_queue : bool then Some (ERR_VAL, s)
        else
          to_queue ← (if p_to =? 0 then Some false else
                        b ← get p_to s; Some ((len b =? tot_len b) && negb (next b =? 0)));
          if to_queue : bool then Some (ERR_VAL, s)
          else if p_from =? 0 then Some (ERR_OK, s)
          else copy_loop fuel p_to p_from offset_to offset_from s
  end.

Definition pbuf_copy (p_to p_from : Z) (s : pstate A) : option (Z * pstate A) :=
  if (p_to =? 0) || (p_from =? 0) then Some (ERR_ARG, s)
  else
    bt ← get p_to s;
    bf ← get p_from s;
    if tot_len bt <? tot_len bf then Some (ERR_ARG, s)
    else copy_loop (2 * chain_fuel s) p_to p_from 0 0 s.

(** The loop of [pbuf_copy_partial]: bytes copied and the destination. *)
Fixpoint copy_partial_loop (fuel : nat) (p n offset left copied_total : Z) (dst : list Z)
    (s : pstate A) : option (Z * list Z) :=
  match fuel with
  | O => None
  | S fuel =>
      if (n =? 0) || (p =? 0) then Some (copied_total, dst)
      else
        b ← get p s;
        if negb (offset =? 0) && (len b <=? offset)
        then copy_partial_loop fuel (next b) n (u16 (offset - len b)) left copied_total dst s
        else
          let k := u16 (len b - offset) in
          let k := if n <? k then n else k in
          dst ← store_at (Z.to_nat left) (read_bytes (bytes s) (payload b + offset) k) dst;
          copy_partial_loop fuel (next b) (u16 (n - k)) 0 (u16 (left + k)) (u16 (copied_total + k)) dst s
  end.

Definition pbuf_copy_partial (buf : Z) (dataptr : option (list Z)) (n offset : Z) (s : pstate A)
    : option (Z * option (list Z)) :=
  match dataptr with
  | None => Some (0, None)
  | Some dst =>
      if buf =? 0 then Some (0, dataptr)
      else '(c, dst) ← copy_partial_loop (chain_fuel s) buf n offset 0 0 dst s; Some (c, Some dst)
  end.

(** [n] bytes of an application buffer from index [i]. *)
Definition slice (data : list Z) (i n : Z) : option (list Z) :=
  if i + n <=? Z.of_nat (length data)
  then Some (take (Z.to_nat n) (drop (Z.to_nat i) data)) else None.

Fixpoint take_loop (fuel : nat) (p total copied : Z) (data : list Z) (s : pstate A)
    : option (pstate A) :=
  match fuel with
  | O => None
  | S fuel =>
      if total =? 0 then Some s
      else
        b ← get p s;
        let k := if len b <? total then len b else total in
        src ← slice data copied k;
        take_loop fuel (next b) (u16 (total - k)) (u16 (copied + k)) data
          (with_bytes (write_bytes (payload b) src (bytes s)) s)
  end.

Definition pbuf_take (buf : Z) (dataptr : option (list Z)) (n : Z) (s : pstate A)
    : option (Z * pstate A) :=
  match dataptr with
  | None => Some (0, s)
  | Some data =>
      if buf =? 0 then Some (0, s)
      else
        b ← get buf s;
        if tot_len b <? n then Some (ERR_ARG, s)
        else s ← take_loop (chain_fuel s) buf n 0 data s; Some (ERR_OK, s)
  end.

Definition pbuf_coalesce (p : Z) (layer : pbuf_layer) (s : pstate A) : option (Z * pstate A) :=
  b ← get p s;
  if next b =? 0 then Some (p, s)
  else
    '(q, s) ← pbuf_alloc layer (tot_len b) PBUF_RAM s;
    if q =? 0 then Some (p, s)
    else
      '(_, s) ← pbuf_copy q p s;
      '(_, s) ← pbuf_free p s;
      Some (q, s).

(** The pbuf that holds byte [offset], and the offset in it; NULL after the end. *)
Fixpoint locate (fuel : nat) (q offset : Z) (s : pstate A) : option (Z * Z) :=
  match fuel with
  | O => None
  | S fuel =>
      if q =? 0 then Some (q, offset)
      else b ← get q s;
           if len b <=? offset then locate fuel (next b) (u16 (offset - len b)) s
           else Some (q, offset)
  end.

Definition pbuf_get_at (p offset : Z) (s : pstate A) : option Z :=
  '(q, copy_from) ← locate (chain_fuel s) p offset s;
  if q =? 0 then Some 0
  else b ← get q s;
       if copy_from <? len b then Some (default 0 (bytes s !! (payload b + copy_from))) else Some 0.

Fixpoint memcmp_loop (fuel : nat) (q start i n : Z) (s2 : list Z) (s : pstate A) : option Z :=
  match fuel with
  | O => None
  | S fuel =>
      if i <? n then
        a ← pbuf_get_at q (u16 (start + i)) s;
        b ← s2 !! Z.to_nat i;
        if a =? b then memcmp_loop fuel q start (u16 (i + 1)) n s2 s else Some (u16 (i + 1))
      else Some 0
  end.

Definition pbuf_memcmp (p offset : Z) (s2 : list Z) (n : Z) (s : pstate A) : option Z :=
  '(q, start) ← locate (chain_fuel s) p offset s;
  if q =? 0 then Some 0xffff
  else b ← get q s;
       if start <? len b then memcmp_loop (S (Z.to_nat n)) q start 0 n s2 s else Some 0xffff.

Fixpoint memfind_loop (fuel : nat) (p i max : Z) (mem : list Z) (mem_len : Z) (s : pstate A)
    : option Z :=
  match fuel with
  | O => None
  | S fuel =>
      if i <=? max then
        plus ← pbuf_memcmp p i mem mem_len s;
        if plus =? 0 then Some i
        else memfind_loop fuel p (u16 (i + plus)) max mem mem_len s
      else Some 0xFFFF
  end.

(** [i] goes up in every round but for an empty [mem] at the end of the data,
    where it goes down once: 2^16 + 1 rounds are enough. *)
Definition memfind_fuel : nat := Z.to_nat 65537.

Definition pbuf_memfind (p : Z) (mem : list Z) (mem_len start_offset : Z) (s : pstate A) : option Z :=
  b ← get p s;
  let max := u16 (tot_len b - mem_len) in
  if mem_len + start_offset <=? tot_len b
  then memfind_loop memfind_fuel p start_offset max mem mem_len s
  else Some 0xFFFF.

(** [substr] is the text before the NUL. *)
Definition pbuf_strstr (p : Z) (substr : option (list Z)) (s : pstate A) : option Z :=
  match substr with
  | None => Some 0xFFFF
  | Some substr =>
      if (Z.of_nat (length substr) =? 0) then Some 0xFFFF
      else
        b ← get p s;
        if tot_len b =? 0xFFFF then Some 0xFFFF
        else if 0xFFFF <=? Z.of_nat (length substr) then Some 0xFFFF
        else pbuf_memfind p substr (u16 (Z.of_nat (length substr))) 0 s
  end.

End Operations.

(** ** Addresses of the data *)

(** The addresses of the bytes of a chain, in the order of the data. *)
Definition addrs (l : list (Z * pbuf)) : list Z :=
  mjoin ((fun x : Z * pbuf => seqZ (payload x.2) (len x.2)) <$> l).

Definition rd (m : gmap Z Z) (a : Z) : Z := default 0 (m !! a).

(** Write [vs] to the addresses [xs], one by one. *)
Fixpoint wr (xs vs : list Z) (m : gmap Z Z) : gmap Z Z :=
  match xs, vs with
  | x :: xs, v :: vs => wr xs vs (<[x := v]> m)
  | _, _ => m
  end.

Lemma read_bytes_rd m a n : read_bytes m a n = rd m <$> seqZ a n.
Proof.
  unfold read_bytes, seqZ. rewrite <-list_fmap_compose. change @map with @list_fmap.
  apply list_fmap_ext. intros i x _. simpl. unfold rd. do 2 f_equal. lia.
Qed.

Lemma contents_rd m l : contents m l = rd m <$> addrs l.
Proof.
  induction l as [|[a b] l IH]; [done|]. rewrite contents_cons, IH, read_bytes_rd.
  unfold addrs. rewrite fmap_cons. change (mjoin (?x :: ?y)) with (x ++ mjoin y).
  by rewrite fmap_app.
Qed.

Lemma addrs_cons a b l : addrs ((a, b) :: l) = seqZ (payload b) (len b) ++ addrs l.
Proof. done. Qed.

Lemma addrs_length l : tot_ok l -> Z.of_nat (length (addrs l)) = tot l.
Proof.
  induction l as [|[a b] l IH]; [done|]. cbn [tot_ok tot]. intros (_ & ? & _ & H).
  rewrite addrs_cons, length_app, length_seqZ, Nat2Z.inj_add, IH by done. lia.
Qed.

Lemma write_bytes_wr l : forall a m, write_bytes a l m = wr (seqZ a (Z.of_nat (length l))) l m.
Proof.
  induction l as [|x l IH]; intros a m; [done|]. cbn [write_bytes length].
  rewrite seqZ_cons by lia. cbn [wr]. rewrite IH. f_equal.
  replace (Z.pred (Z.of_nat (S (length l)))) with (Z.of_nat (length l)) by lia. done.
Qed.

Lemma wr_app xs : forall xs' vs vs' m, length xs = length vs ->
  wr (xs ++ xs') (vs ++ vs') m = wr xs' vs' (wr xs vs m).
Proof.
  induction xs as [|x xs IH]; intros xs' [|v vs] vs' m H; try done. cbn [app wr].
  apply IH. simpl in H. lia.
Qed.

Lemma wr_lookup_ne xs : forall vs m a, a ∉ xs -> wr xs vs m !! a = m !! a.
Proof.
  induction xs as [|x xs IH]; intros [|v vs] m a H; try done. cbn [wr].
  rewrite IH by set_solver. apply lookup_insert_ne. set_solver.
Qed.

Lemma wr_rd_same xs : forall vs m, NoDup xs -> length xs = length vs -> rd (wr xs vs m) <$> xs = vs.
Proof.
  induction xs as [|x xs IH]; intros [|v vs] m N H; try done. cbn [wr].
  inversion_clear N as [|? ? Nx N']. rewrite fmap_cons. f_equal; [|apply IH; [done|simpl in H; lia]].
  unfold rd. by rewrite wr_lookup_ne, lookup_insert_eq by done.
Qed.

Lemma wr_rd_other xs vs m ys : xs ## ys -> rd (wr xs vs m) <$> ys = rd m <$> ys.
Proof.
  intros D. apply list_fmap_ext. intros i y Hy. unfold rd. rewrite wr_lookup_ne; [done|].
  intros Hx. apply (D y); [done|]. by eapply list_elem_of_lookup_2.
Qed.

Lemma seqZ_take a n k : 0 <= k <= n -> take (Z.to_nat k) (seqZ a n) = seqZ a k.
Proof. intros H. unfold seqZ. rewrite <-fmap_take, take_seq. do 2 f_equal. lia. Qed.

Lemma seqZ_drop a n k : 0 <= k <= n -> drop (Z.to_nat k) (seqZ a n) = seqZ (a + k) (n - k).
Proof.
  intros H. replace n with (k + (n - k)) at 1 by lia. rewrite seqZ_app by lia.
  rewrite drop_app_ge by (rewrite length_seqZ; lia).
  by rewrite length_seqZ, Nat.sub_diag.
Qed.

Lemma read_bytes_drop m a n k : 0 <= k <= n ->
  read_bytes m (a + k) (n - k) = drop (Z.to_nat k) (read_bytes m a n).
Proof. intros H. by rewrite !read_bytes_rd, <-fmap_drop, seqZ_drop. Qed.

(** ** [pbuf_take] *)

Section Correct.
Context {A : Type}.
Implicit Types s : pstate A.

Lemma take_loop_spec l : forall fuel p total copied data s,
  (length l < fuel)%nat -> chain (bufs s) p l 0 -> tot_ok l -> 0 <= total <= tot l ->
  0 <= copied -> copied + total <= Z.of_nat (length data) -> copied + total < 2 ^ 16 ->
  take_loop fuel p total copied data s = Some (with_bytes
    (wr (take (Z.to_nat total) (addrs l)) (take (Z.to_nat total) (drop (Z.to_nat copied) data)) (bytes s)) s).
Proof.
  induction l as [|[a b] l IH]; intros fuel p total copied data s Hf Hc Hok Ht Hcp Hd Hb;
    (destruct fuel as [|fuel]; [simpl in Hf; lia|]); cbn [take_loop].
  { cbn [tot] in Ht. replace total with 0 by lia. rewrite Z.eqb_refl. cbn. by destruct s. }
  destruct (Z.eqb_spec total 0) as [->|Hz]; [cbn; by destruct s|].
  destruct Hc as (-> & ? & E & Hc). cbn [tot_ok tot] in *. destruct Hok as (_ & Hlen & _ & Hok).
  rewrite (E : get a s = _). cbn [mbind option_bind].
  set (k := if len b <? total then len b else total).
  assert (k = Z.min (len b) total) as Hk by (unfold k; destruct (Z.ltb_spec (len b) total); lia).
  clearbody k. subst k. set (k := Z.min (len b) total).
  unfold slice. rewrite (proj2 (Z.leb_le _ _)) by lia. cbn [mbind option_bind].
  rewrite !wrap_id by (unfold in_u; lia).
  destruct (decide (total <= len b)) as [Hle|Hgt].
  - replace k with total by lia. replace (total - total) with 0 by lia.
    assert (take_loop fuel (next b) 0 (copied + total) data
      (with_bytes (write_bytes (payload b) (take (Z.to_nat total) (drop (Z.to_nat copied) data)) (bytes s)) s)
      = Some (with_bytes (write_bytes (payload b) (take (Z.to_nat total) (drop (Z.to_nat copied) data)) (bytes s)) s)) as ->.
    { destruct fuel; [simpl in Hf; lia|done]. }
    do 2 f_equal. rewrite write_bytes_wr, length_take, length_drop.
    rewrite addrs_cons, take_app_le by (rewrite length_seqZ; lia). rewrite seqZ_take by lia.
    f_equal. f_equal. lia.
  - replace k with (len b) by lia.
    rewrite (IH fuel (next b) (total - len b) (copied + len b));
      [|simpl in Hf; lia|done|done|lia|lia|lia|lia].
    unfold with_bytes. cbn [bytes bufs al pbuf_free_ooseq_pending]. do 2 f_equal.
    rewrite addrs_cons, take_app_ge by (rewrite length_seqZ; lia). rewrite length_seqZ.
    rewrite (take_split (Z.to_nat (len b)) (Z.to_nat total) (drop (Z.to_nat copied) data)) by lia.
    rewrite wr_app by (rewrite length_seqZ, length_take, length_drop; lia).
    rewrite drop_drop, write_bytes_wr, length_take, length_drop.
    replace (Z.to_nat (total - len b)) with (Z.to_nat total - Z.to_nat (len b))%nat by lia.
    replace (Z.to_nat (copied + len b)) with (Z.to_nat copied + Z.to_nat (len b))%nat by lia.
    do 2 f_equal. f_equal. lia.
Qed.

(** ** [pbuf_copy_partial] *)

(** The part of the data [pbuf_copy_partial] delivers. *)
Definition window (offset n : Z) (data : list Z) : list Z :=
  take (Z.to_nat n) (drop (Z.to_nat offset) data).

Lemma window_skip offset n x y : Z.of_nat (length x) <= offset ->
  window offset n (x ++ y) = window (offset - Z.of_nat (length x)) n y.
Proof.
  intros H. unfold window. rewrite drop_app_ge by lia. do 2 f_equal. lia.
Qed.

Lemma window_split offset n x y : 0 <= n -> 0 <= offset <= Z.of_nat (length x) ->
  window offset n (x ++ y) = take (Z.to_nat (Z.min (Z.of_nat (length x) - offset) n)) (drop (Z.to_nat offset) x)
    ++ window 0 (n - Z.min (Z.of_nat (length x) - offset) n) y.
Proof.
  intros Hn Ho. unfold window. rewrite drop_app_le by lia. change (Z.to_nat 0) with 0%nat. rewrite drop_0.
  rewrite take_app, length_drop. f_equal.
  - destruct (decide (n <= Z.of_nat (length x) - offset)).
    + f_equal. lia.
    + rewrite !take_ge by (rewrite length_drop; lia). done.
  - f_equal. lia.
Qed.

Lemma store_then (left : nat) (r d dst dst1 : list Z) :
  store_at left r dst = Some dst1 -> (left + length r + length d <= length dst)%nat ->
  take (left + length r) dst1 ++ d ++ drop (left + length r + length d) dst1
  = take left dst ++ (r ++ d) ++ drop (left + length (r ++ d)) dst.
Proof.
  intros E H. rewrite store_at_Some in E by lia. simplify_eq.
  rewrite length_app, <-app_assoc. rewrite (app_assoc (take left dst) r).
  rewrite take_app_le by (rewrite length_app, length_take; lia).
  rewrite take_ge by (rewrite length_app, length_take; lia).
  rewrite <-!app_assoc. do 3 f_equal. rewrite app_assoc.
  rewrite drop_app_ge by (rewrite length_app, length_take; lia).
  rewrite length_app, length_take, drop_drop. f_equal. lia.
Qed.

Lemma copy_partial_spec s l : forall fuel p n offset left copied dst,
  (length l < fuel)%nat -> chain (bufs s) p l 0 -> tot_ok l ->
  0 <= n < 2 ^ 16 -> 0 <= offset < 2 ^ 16 -> 0 <= left -> 0 <= copied ->
  left + Z.of_nat (length (window offset n (contents (bytes s) l))) < 2 ^ 16 ->
  copied + Z.of_nat (length (window offset n (contents (bytes s) l))) < 2 ^ 16 ->
  left + Z.of_nat (length (window offset n (contents (bytes s) l))) <= Z.of_nat (length dst) ->
  let data := window offset n (contents (bytes s) l) in
  copy_partial_loop fuel p n offset left copied dst s
  = Some (copied + Z.of_nat (length data),
          take (Z.to_nat left) dst ++ data ++ drop (Z.to_nat left + length data) dst).
Proof.
  induction l as [|[a b] l IH]; intros fuel p n offset left copied dst Hf Hc Hok Hn Ho Hl Hcp Hl16 Hc16 Hd;
    cbv zeta; (destruct fuel as [|fuel]; [simpl in Hf; lia|]); cbn [copy_partial_loop].
  { cbn [chain] in Hc. subst p. rewrite Z.eqb_refl, orb_true_r.
    change (contents (bytes s) []) with (@nil Z). unfold window. rewrite drop_nil, take_nil.
    cbn [length app]. rewrite Z.add_0_r, Nat.add_0_r, take_drop. done. }
  destruct (Z.eqb_spec n 0) as [->|Hz].
  { change (window offset 0 (contents (bytes s) ((a, b) :: l))) with (@nil Z).
    cbn [length app orb]. by rewrite Z.add_0_r, Nat.add_0_r, take_drop. }
  destruct Hc as (-> & Hnz & E & Hc). cbn [tot_ok] in Hok. destruct Hok as (Htl & Hlen & Hb & Hok).
  pose proof (tot_nonneg _ Hok).
  rewrite (proj2 (Z.eqb_neq a 0)), (E : get a s = _) by done. cbn [orb mbind option_bind].
  rewrite contents_cons in *. set (r := read_bytes (bytes s) (payload b) (len b)) in *.
  assert (Z.of_nat (length r) = len b) as Lr by (unfold r; rewrite read_bytes_length; lia).
  destruct (negb (offset =? 0) && (len b <=? offset)) eqn:Skip.
  - apply andb_true_iff in Skip as [_ Skip%Z.leb_le].
    rewrite window_skip in * by lia. rewrite Lr in *. rewrite wrap_id by cint.
    apply (IH fuel (next b) n (offset - len b) left copied dst); try done; [simpl in Hf; lia|lia].
  - assert (offset = 0 \/ offset < len b) as Hoff.
    { apply andb_false_iff in Skip as [Skip|Skip%Z.leb_gt]; [|lia].
      destruct (Z.eqb_spec offset 0); [by left|done]. }
    assert (0 <= offset <= len b) as Hob by lia.
    rewrite (wrap_id 16 (len b - offset)) by cint.
    replace (if n <? len b - offset then n else len b - offset) with (Z.min (len b - offset) n)
      by (destruct (Z.ltb_spec n (len b - offset)); lia).
    rewrite window_split in * by lia. rewrite Lr in *.
    set (k := Z.min (len b - offset) n) in *.
    assert (read_bytes (bytes s) (payload b + offset) k = take (Z.to_nat k) (drop (Z.to_nat offset) r)) as Er.
    { unfold r. rewrite <-read_bytes_drop by lia. rewrite <-read_bytes_take by lia. done. }
    rewrite Er. set (r1 := take (Z.to_nat k) (drop (Z.to_nat offset) r)) in *.
    assert (Z.of_nat (length r1) = k) as L1 by (unfold r1; rewrite length_take, length_drop; lia).
    set (d1 := window 0 (n - k) (contents (bytes s) l)) in *.
    rewrite length_app in Hl16, Hc16, Hd.
    destruct (store_at (Z.to_nat left) r1 dst) as [dst1|] eqn:Es.
    2: { rewrite store_at_Some in Es by lia. done. }
    cbn [mbind option_bind]. rewrite !wrap_id by cint.
    assert (length dst1 = length dst) as Ld by (by eapply store_at_length).
    rewrite (IH fuel (next b) (n - k) 0 (left + k) (copied + k) dst1);
      [|simpl in Hf; lia|done|done|lia|lia|lia|lia|fold d1; lia|fold d1; lia|fold d1; lia].
    fold d1. f_equal. f_equal; [rewrite length_app; lia|].
    rewrite <-(store_then (Z.to_nat left) r1 d1 dst dst1 Es) by lia.
    replace (Z.to_nat (left + k)) with (Z.to_nat left + length r1)%nat by lia. done.
Qed.

(** ** [pbuf_copy] *)

Lemma elem_take (x : Z) n l : x ∈ take n l -> x ∈ l.
Proof. intros H. rewrite <-(take_drop n l). set_solver. Qed.
Lemma elem_drop (x : Z) n l : x ∈ drop n l -> x ∈ l.
Proof. intros H. rewrite <-(take_drop n l). set_solver. Qed.

Lemma wr_step (k : nat) X S m : (k <= length S <= length X)%nat ->
  wr (take (length S) X) S m
  = wr (take (length (drop k S)) (drop k X)) (drop k S) (wr (take k X) (take k S) m).
Proof.
  intros H. rewrite length_drop, <-wr_app by (rewrite !length_take; lia).
  by rewrite take_drop, <-take_split by lia.
Qed.

Definition all_pos (l : list (Z * pbuf)) : Prop := Forall (fun x => 0 < len x.2) l.

(** Without empty pbufs only the last one has [len] equal to [tot_len]. *)
Lemma queue_false (m : gmap Z pbuf) a b l : chain m a ((a, b) :: l) 0 -> tot_ok ((a, b) :: l) -> all_pos l ->
  (len b =? tot_len b) && negb (next b =? 0) = false.
Proof.
  intros Hc Hok Hp. destruct Hc as (_ & _ & _ & Hc). destruct Hok as (Ht & _ & _ & Hok).
  destruct l as [|[c d] l].
  - cbn [chain] in Hc. rewrite Hc, Z.eqb_refl. apply andb_false_r.
  - apply andb_false_intro1, Z.eqb_neq. apply Forall_cons in Hp as [? _].
    destruct Hok as (_ & _ & _ & Hok). pose proof (tot_nonneg _ Hok). cbn [tot] in Ht. simpl in *. lia.
Qed.

(** The rest of the chain starts at [next]. *)
Lemma chain_next (m : gmap Z pbuf) a b c d l : chain m a ((a, b) :: (c, d) :: l) 0 ->
  next b = c /\ c ≠ 0 /\ chain m c ((c, d) :: l) 0.
Proof. intros (_ & _ & _ & H). pose proof H as (E & ? & _). rewrite E in H. done. Qed.

Lemma chain_end (m : gmap Z pbuf) a b : chain m a [(a, b)] 0 -> next b = 0.
Proof. by intros (_ & _ & _ & ?). Qed.

(** The checks at the end of a round. *)
Lemma round_checks s p l : chain (bufs s) p l 0 -> tot_ok l -> all_pos l ->
  (if p =? 0 then Some false else
     b ← get p s; Some ((len b =? tot_len b) && negb (next b =? 0))) = Some false.
Proof.
  intros Hc Hok Hp. destruct l as [|[a b] l].
  - cbn [chain] in Hc. by rewrite Hc, Z.eqb_refl.
  - pose proof Hc as (-> & Hnz & E & _). rewrite (proj2 (Z.eqb_neq a 0)), (E : get a s = _) by done.
    cbn [mbind option_bind]. apply Forall_cons in Hp as [_ Hp]. by rewrite (queue_false _ _ _ _ Hc Hok Hp).
Qed.

(** Where a round leaves a chain of which [o] bytes were done and [k] more are:
    in the same pbuf, or at the start of the next one. *)
Definition advance (p : Z) (b : pbuf) (l : list (Z * pbuf)) (o : Z) : Z * list (Z * pbuf) * Z :=
  if o =? len b then (next b, l, 0) else (p, (p, b) :: l, o).

Lemma advance_addrs p b l o q l' o' : 0 <= o <= len b -> advance p b l o = (q, l', o') ->
  drop (Z.to_nat o') (addrs l') = drop (Z.to_nat o) (addrs ((p, b) :: l)).
Proof.
  intros Ho. unfold advance. destruct (Z.eqb_spec o (len b)) as [->|]; intros [= <- <- <-]; [|done].
  rewrite addrs_cons, drop_app_ge by (rewrite length_seqZ; lia). by rewrite length_seqZ, Nat.sub_diag.
Qed.

Lemma advance_chain (m : gmap Z pbuf) p b l o q l' o' : chain m p ((p, b) :: l) 0 -> tot_ok ((p, b) :: l) ->
  all_pos ((p, b) :: l) -> advance p b l o = (q, l', o') ->
  chain m q l' 0 /\ tot_ok l' /\ all_pos l'.
Proof.
  intros Hc Hok Hp. unfold advance. destruct (o =? len b); intros [= <- <- <-]; [|done].
  apply Forall_cons in Hp as [_ Hp]. split; [apply Hc|]. split; [apply Hok|done].
Qed.

Lemma advance_facts p b l o q l' o' : 0 <= o <= len b -> all_pos l ->
  advance p b l o = (q, l', o') ->
  tot l' - o' = tot ((p, b) :: l) - o /\ (forall x, x ∈ addrs l' -> x ∈ addrs ((p, b) :: l)) /\
  (length l' <= S (length l))%nat /\ (o = len b -> l' = l) /\
  (l' = [] \/ exists c d l2, l' = (c, d) :: l2 /\ 0 <= o' < len d).
Proof.
  intros Ho Hp. unfold advance. destruct (Z.eqb_spec o (len b)) as [->|]; intros [= <- <- <-].
  - cbn [tot]. split; [lia|]. split; [intros x; rewrite addrs_cons; set_solver|]. split; [lia|].
    split; [done|]. destruct l as [|[c d] l]; [by left|right]. apply Forall_cons in Hp as [? _].
    exists c, d, l. split; [done|]. simpl in *. lia.
  - split; [done|]. split; [done|]. split; [done|]. split; [done|]. right.
    exists p, b, l. split; [done|]. lia.
Qed.

Lemma copy_loop_spec fuel : forall pt bt lt pf bf lf ot fo s,
  (length lt + length lf < fuel)%nat ->
  chain (bufs s) pt ((pt, bt) :: lt) 0 -> chain (bufs s) pf ((pf, bf) :: lf) 0 ->
  tot_ok ((pt, bt) :: lt) -> tot_ok ((pf, bf) :: lf) ->
  all_pos ((pt, bt) :: lt) -> all_pos ((pf, bf) :: lf) ->
  0 <= ot < len bt -> 0 <= fo < len bf ->
  tot ((pf, bf) :: lf) - fo <= tot ((pt, bt) :: lt) - ot ->
  addrs ((pt, bt) :: lt) ## addrs ((pf, bf) :: lf) ->
  let S := drop (Z.to_nat fo) (contents (bytes s) ((pf, bf) :: lf)) in
  copy_loop fuel pt pf ot fo s
  = Some (ERR_OK, with_bytes (wr (take (length S) (drop (Z.to_nat ot) (addrs ((pt, bt) :: lt)))) S (bytes s)) s).
Proof.
  induction fuel as [|fuel IH]; intros pt bt lt pf bf lf ot fo s Hf Hct Hcf Hokt Hokf Hpt Hpf Hot Hof Htot Hd;
    cbv zeta; [lia|]. cbn [copy_loop].
  pose proof Hct as (_ & Hptz & Et & _). pose proof Hcf as (_ & Hpfz & Ef & _).
  rewrite (Et : get pt s = _), (Ef : get pf s = _). cbn [mbind option_bind].
  pose proof Hokt as (Htt & _ & Hbt & Hokt'). pose proof Hokf as (Htf & _ & Hbf & Hokf').
  pose proof (tot_nonneg _ Hokt'). pose proof (tot_nonneg _ Hokf').
  pose proof (addrs_length _ Hokt) as Lt. pose proof (contents_length (bytes s) _ Hokf) as Lf.
  cbn [tot] in Lt, Lf.
  set (k := Z.min (len bf - fo) (len bt - ot)).
  replace (if len bf - fo <=? len bt - ot then u16 (len bf - fo) else u16 (len bt - ot)) with k
    by (rewrite !wrap_id by cint; destruct (Z.leb_spec (len bf - fo) (len bt - ot)); lia).
  rewrite (wrap_id 16 (ot + k)), (wrap_id 16 (fo + k)) by cint.
  set (S := drop (Z.to_nat fo) (contents (bytes s) ((pf, bf) :: lf))).
  set (X := drop (Z.to_nat ot) (addrs ((pt, bt) :: lt))).
  assert (drop (Z.to_nat fo) (read_bytes (bytes s) (payload bf) (len bf))
    = read_bytes (bytes s) (payload bf + fo) (len bf - fo)) as Edrop by (by rewrite read_bytes_drop by lia).
  assert (read_bytes (bytes s) (payload bf + fo) k = take (Z.to_nat k) S) as ES.
  { unfold S. rewrite contents_cons, drop_app_le by (rewrite read_bytes_length; lia). rewrite Edrop.
    rewrite take_app_le by (rewrite read_bytes_length; lia). apply read_bytes_take. lia. }
  assert (seqZ (payload bt + ot) k = take (Z.to_nat k) X) as EX.
  { unfold X. rewrite addrs_cons, drop_app_le by (rewrite length_seqZ; lia).
    rewrite seqZ_drop, take_app_le by (try rewrite length_seqZ; lia). by rewrite seqZ_take by lia. }
  assert (length S = Z.to_nat (len bf + tot lf - fo)) as LS by (unfold S; rewrite length_drop; lia).
  assert (length X = Z.to_nat (len bt + tot lt - ot)) as LX by (unfold X; rewrite length_drop; lia).
  rewrite write_bytes_wr, read_bytes_length, Z2Nat.id, ES, EX by lia.
  set (m1 := wr (take (Z.to_nat k) X) (take (Z.to_nat k) S) (bytes s)).
  assert (X ## addrs ((pf, bf) :: lf)) as DX.
  { intros x Hx. apply (Hd x). unfold X in Hx. by eapply elem_drop. }
  destruct (advance pf bf lf (fo + k)) as [[qf lf'] fo'] eqn:Af.
  destruct (advance pt bt lt (ot + k)) as [[qt lt'] ot'] eqn:At.
  assert ((if len bf <=? fo + k then (next bf, 0) else (pf, fo + k)) = (qf, fo')) as ->.
  { unfold advance in Af. destruct (Z.eqb_spec (fo + k) (len bf)), (Z.leb_spec (len bf) (fo + k));
      simplify_eq; (done || lia). }
  destruct (advance_chain (bufs s) pf bf lf (fo + k) qf lf' fo' Hcf Hokf Hpf Af) as (Cf & Of & Pf).
  destruct (advance_chain (bufs s) pt bt lt (ot + k) qt lt' ot' Hct Hokt Hpt At) as (Ct & Ot & Pt).
  apply Forall_cons in Hpt as [? Hpt], Hpf as [? Hpf].
  destruct (advance_facts pf bf lf (fo + k) qf lf' fo' ltac:(lia) Hpf Af) as (Tf & Sf & Nf & Nf' & Rf).
  destruct (advance_facts pt bt lt (ot + k) qt lt' ot' ltac:(lia) Hpt At) as (Tt & St & Nt & Nt' & Rt).
  cbn [tot] in Tf, Tt, Htot.
  assert (qf ≠ 0 -> lf' ≠ []) as Hqf by (intros Hq ->; by cbn [chain] in Cf).
  assert (lf' ≠ [] -> lt' ≠ []) as Hne.
  { intros Hl ->. destruct Rf as [|(c & d & l2 & -> & ?)]; [done|]. cbn [tot] in *.
    destruct Of as (_ & _ & _ & Of). pose proof (tot_nonneg _ Of).
    assert (ot' = 0) by (unfold advance in At; destruct (_ =? _); by simplify_eq). lia. }
  assert ((if ot + k =? len bt then (next bt, 0, negb (negb (next bt =? 0) || (qf =? 0)))
    else (pt, ot + k, false)) = (qt, ot', false)) as ->.
  { unfold advance in At. destruct (Z.eqb_spec (ot + k) (len bt)); simplify_eq; [|done].
    do 2 f_equal. apply negb_false_iff, orb_true_iff. destruct (Z.eqb_spec qf 0) as [|Hq]; [by right|left].
    destruct lt' as [|[c d] l2]; [by destruct (Hne (Hqf Hq))|].
    destruct Ct as (-> & ? & _). by rewrite (proj2 (Z.eqb_neq c 0)). }
  set (s1 := with_bytes m1 s).
  rewrite (round_checks s1 qf lf' Cf Of Pf). cbn [mbind option_bind].
  rewrite (round_checks s1 qt lt' Ct Ot Pt). cbn [mbind option_bind].
  rewrite (wr_step (Z.to_nat k) X S) by lia. fold m1.
  assert (drop (Z.to_nat k) S = drop (Z.to_nat fo') (contents m1 lf')) as ES'.
  { unfold S, m1. rewrite !contents_rd, drop_drop, <-!fmap_drop.
    rewrite (advance_addrs pf bf lf (fo + k) qf lf' fo' ltac:(lia) Af).
    replace (Z.to_nat fo + Z.to_nat k)%nat with (Z.to_nat (fo + k)) by lia. symmetry. apply wr_rd_other.
    intros x Hx Hy. apply elem_take in Hx. apply (DX x Hx). by eapply elem_drop. }
  assert (drop (Z.to_nat k) X = drop (Z.to_nat ot') (addrs lt')) as EX'.
  { unfold X. rewrite drop_drop, (advance_addrs pt bt lt (ot + k) qt lt' ot' ltac:(lia) At).
    f_equal. lia. }
  rewrite EX', ES'. destruct (Z.eqb_spec qf 0) as [Hq|Hq].
  - assert (lf' = []) as -> by (destruct lf' as [|[] ?]; [done|]; destruct Cf as (? & ? & _); congruence).
    change (contents m1 []) with (@nil Z). rewrite drop_nil. done.
  - destruct Rf as [|(cf & df & lf2 & -> & Hdf)]; [by destruct (Hqf Hq)|].
    destruct Rt as [|(ct & dt & lt2 & -> & Hdt)]; [by destruct (Hne (Hqf Hq))|].
    assert (qf = cf) as -> by (by destruct Cf). assert (qt = ct) as -> by (by destruct Ct).
    rewrite (IH ct dt lt2 cf df lf2 ot' fo' s1); try done.
    + cbn [length] in *. assert (fo + k = len bf \/ ot + k = len bt) as [Hk|Hk] by lia.
      * apply Nf' in Hk. subst lf. cbn [length] in *. lia.
      * apply Nt' in Hk. subst lt. cbn [length] in *. lia.
    + lia.
    + intros x Hx Hy. apply (Hd x); auto.
Qed.

(** ** Reading and searching *)

Lemma locate_spec s l : forall fuel q o, (length l < fuel)%nat -> chain (bufs s) q l 0 -> tot_ok l ->
  0 <= o < 2 ^ 16 ->
  if decide (o < tot l) then exists l1 a b l2, l = l1 ++ (a, b) :: l2 /\
    locate fuel q o s = Some (a, o - tot l1) /\ 0 <= o - tot l1 < len b
  else exists o', locate fuel q o s = Some (0, o').
Proof.
  induction l as [|[a b] l IH]; intros fuel q o Hf Hc Hok Ho; (destruct fuel as [|fuel]; [simpl in Hf; lia|]);
    cbn [locate].
  - cbn [chain tot] in *. subst q. rewrite decide_False by lia. rewrite Z.eqb_refl. by eexists.
  - destruct Hc as (-> & Hnz & E & Hc). cbn [tot_ok] in Hok. destruct Hok as (_ & Hlen & _ & Hok).
    pose proof (tot_nonneg _ Hok). rewrite (proj2 (Z.eqb_neq a 0)), (E : get a s = _) by done.
    cbn [mbind option_bind tot]. destruct (Z.leb_spec (len b) o).
    + rewrite wrap_id by cint.
      specialize (IH fuel (next b) (o - len b) ltac:(simpl in Hf; lia) Hc Hok ltac:(lia)).
      destruct (decide (o - len b < tot l)) as [D|D].
      * rewrite decide_True by lia. destruct IH as (l1 & c & d & l2 & -> & E1 & ?).
        exists ((a, b) :: l1), c, d, l2. cbn [tot app].
        replace (o - (len b + tot l1)) with (o - len b - tot l1) by lia. done.
      * rewrite decide_False by lia. done.
    + rewrite decide_True by lia. exists [], a, b, l. cbn [tot]. rewrite Z.sub_0_r. split; [done|]. split; [done|]. lia.
Qed.

Lemma tot_ok_app l1 l2 : tot_ok (l1 ++ l2) -> tot_ok l2.
Proof. induction l1 as [|[a b] l1 IH]; [done|]. cbn [app tot_ok]. naive_solver. Qed.

Lemma tot_prefix_length m l1 l2 : tot_ok (l1 ++ l2) -> Z.of_nat (length (contents m l1)) = tot l1.
Proof.
  induction l1 as [|[a b] l1 IH]; [done|]. cbn [app tot_ok tot]. intros (_ & ? & _ & H).
  rewrite contents_cons, length_app, read_bytes_length, Nat2Z.inj_add, IH by done. lia.
Qed.

(** The data from byte [o] on is the data of the pbuf found, from the offset in it. *)
Lemma contents_at m l1 a b l2 o : tot_ok (l1 ++ (a, b) :: l2) -> 0 <= o - tot l1 ->
  drop (Z.to_nat o) (contents m (l1 ++ (a, b) :: l2))
  = drop (Z.to_nat (o - tot l1)) (contents m ((a, b) :: l2)).
Proof.
  intros Hok Ho. rewrite contents_app. pose proof (tot_prefix_length m l1 _ Hok).
  assert (0 <= tot l1) by lia. rewrite drop_app_ge by lia. f_equal. lia.
Qed.

Lemma chain_suffix (m : gmap Z pbuf) p l1 a b l2 : chain m p (l1 ++ (a, b) :: l2) 0 ->
  m !! a = Some b /\ a ≠ 0 /\ chain m a ((a, b) :: l2) 0.
Proof.
  intros (q & _ & H)%chain_app. pose proof H as (-> & ? & ? & _). done.
Qed.

Lemma get_at_spec s p l o : chain (bufs s) p l 0 -> tot_ok l -> 0 <= o < 2 ^ 16 ->
  pbuf_get_at p o s = Some (default 0 (contents (bytes s) l !! Z.to_nat o)).
Proof.
  intros Hc Hok Ho. unfold pbuf_get_at. pose proof (chain_size _ _ _ Hc).
  pose proof (locate_spec s l (chain_fuel s) p o ltac:(unfold chain_fuel; lia) Hc Hok Ho) as L.
  case_decide as D.
  - destruct L as (l1 & a & b & l2 & -> & -> & Hr). cbn [mbind option_bind].
    destruct (chain_suffix _ _ _ _ _ _ Hc) as (E & Hz & _).
    rewrite (proj2 (Z.eqb_neq a 0)), (E : get a s = _) by done. cbn [mbind option_bind].
    rewrite (proj2 (Z.ltb_lt _ _)) by lia. f_equal.
    rewrite <-(Nat.add_0_r (Z.to_nat o)), <-lookup_drop, contents_at by (done || lia).
    rewrite contents_cons, read_bytes_rd, drop_app_le, lookup_app_l
      by (rewrite ?length_drop, ?length_fmap, ?length_seqZ; lia).
    rewrite lookup_drop, Nat.add_0_r, list_lookup_fmap, lookup_seqZ_lt by lia. cbn. unfold rd.
    rewrite Z2Nat.id by lia. done.
  - destruct L as (o' & ->). cbn [mbind option_bind]. rewrite Z.eqb_refl.
    rewrite lookup_ge_None_2; [done|]. pose proof (contents_length (bytes s) l Hok). lia.
Qed.

(** 0 when the lists agree, else the number of the first difference. *)
Fixpoint cmp (x y : list Z) (i : Z) : Z :=
  match x, y with
  | a :: x, b :: y => if a =? b then cmp x y (i + 1) else i + 1
  | _, _ => 0
  end.

Lemma memcmp_loop_spec s q l start n (s2 : list Z) : chain (bufs s) q l 0 -> tot_ok l ->
  0 <= start -> start + n <= tot l -> n < 2 ^ 16 -> start + n < 2 ^ 16 -> n <= Z.of_nat (length s2) ->
  forall fuel i, 0 <= i <= n -> (Z.to_nat (n - i) < fuel)%nat ->
  memcmp_loop fuel q start i n s2 s
  = Some (cmp (drop (Z.to_nat (start + i)) (contents (bytes s) l))
              (take (Z.to_nat (n - i)) (drop (Z.to_nat i) s2)) i).
Proof.
  intros Hc Hok Hs Hn Hn16 Hsn Hl2. induction fuel as [|fuel IH]; intros i Hi Hf; [lia|].
  cbn [memcmp_loop]. destruct (Z.ltb_spec i n).
  - rewrite (wrap_id 16 (start + i)), (wrap_id 16 (i + 1)) by cint.
    rewrite (get_at_spec s q l (start + i) Hc Hok ltac:(lia)). cbn [mbind option_bind].
    pose proof (contents_length (bytes s) l Hok) as Lc.
    destruct (lookup_lt_is_Some_2 (contents (bytes s) l) (Z.to_nat (start + i))) as [x Ex]; [lia|].
    destruct (lookup_lt_is_Some_2 s2 (Z.to_nat i)) as [y Ey]; [lia|].
    rewrite (drop_S _ _ _ Ex), (drop_S _ _ _ Ey), Ex, Ey. cbn [from_option id mbind option_bind].
    replace (Z.to_nat (n - i)) with (S (Z.to_nat (n - (i + 1)))) by lia. cbn [take cmp].
    destruct (x =? y); [|done]. rewrite IH by lia.
    replace (S (Z.to_nat (start + i))) with (Z.to_nat (start + (i + 1))) by lia.
    by replace (S (Z.to_nat i)) with (Z.to_nat (i + 1)) by lia.
  - replace (n - i) with 0 by lia. cbn [Z.to_nat take].
    by destruct (drop (Z.to_nat (start + i)) (contents (bytes s) l)).
Qed.

Lemma memcmp_spec s p l o (s2 : list Z) n : chain (bufs s) p l 0 -> tot_ok l ->
  0 <= o < tot l -> 0 <= n -> o + n <= tot l -> n <= Z.of_nat (length s2) -> tot l < 2 ^ 16 ->
  pbuf_memcmp p o s2 n s
  = Some (cmp (drop (Z.to_nat o) (contents (bytes s) l)) (take (Z.to_nat n) s2) 0).
Proof.
  intros Hc Hok Ho Hn Hon Hl2 Ht. unfold pbuf_memcmp. pose proof (chain_size _ _ _ Hc).
  pose proof (locate_spec s l (chain_fuel s) p o ltac:(unfold chain_fuel; lia) Hc Hok ltac:(lia)) as L.
  rewrite decide_True in L by lia. destruct L as (l1 & a & b & l2 & -> & -> & Hr). cbn [mbind option_bind].
  destruct (chain_suffix _ _ _ _ _ _ Hc) as (E & Hz & Hc').
  rewrite (proj2 (Z.eqb_neq a 0)), (E : get a s = _) by done. cbn [mbind option_bind].
  rewrite (proj2 (Z.ltb_lt _ _)) by lia. rewrite tot_app in *.
  pose proof (tot_prefix_length (bytes s) l1 _ Hok).
  rewrite (memcmp_loop_spec s a ((a, b) :: l2) (o - tot l1) n s2 Hc' (tot_ok_app _ _ Hok)) by lia.
  rewrite Z.add_0_r, Z.sub_0_r, <-contents_at by (done || lia). done.
Qed.

Lemma cmp_nonneg x : forall y i, 0 <= i -> 0 <= cmp x y i.
Proof.
  induction x as [|a x IH]; intros [|b y] i Hi; cbn [cmp]; try lia.
  destruct (a =? b); [apply IH|]; lia.
Qed.

Lemma cmp_zero x : forall y i, 0 <= i -> (length y <= length x)%nat ->
  cmp x y i = 0 <-> take (length y) x = y.
Proof.
  induction x as [|a x IH]; intros [|b y] i Hi Hl; cbn [cmp length take] in *; try done; [lia|].
  destruct (Z.eqb_spec a b) as [->|Hab].
  - rewrite IH by lia. split; [by intros ->|by intros [= ->]].
  - split; [lia|]. intros [= -> _]. done.
Qed.

Lemma cmp_bound x : forall y i, 0 <= i -> cmp x y i <= i + Z.of_nat (length y).
Proof.
  induction x as [|a x IH]; intros [|b y] i Hi; cbn [cmp length]; try lia.
  destruct (a =? b); [|lia]. pose proof (IH y (i + 1)). lia.
Qed.

(** [mem], cut to its length, occurs in [c] at index [r]. *)
Definition occurs_at (c mem : list Z) (n r : Z) : Prop :=
  take (Z.to_nat n) (drop (Z.to_nat r) c) = take (Z.to_nat n) mem.

Lemma memfind_loop_spec s p l mem n : chain (bufs s) p l 0 -> tot_ok l -> tot l < 2 ^ 16 ->
  0 < n <= Z.of_nat (length mem) -> n <= tot l ->
  forall fuel i, 0 <= i <= tot l -> (Z.to_nat (tot l - n - i + 1) < fuel)%nat ->
  exists r, memfind_loop fuel p i (tot l - n) mem n s = Some r /\
    ((r = 0xFFFF /\ (n = 1 -> forall j, i <= j <= tot l - n -> ~ occurs_at (contents (bytes s) l) mem n j)) \/
     (i <= r <= tot l - n /\ occurs_at (contents (bytes s) l) mem n r /\
      (n = 1 -> forall j, i <= j < r -> ~ occurs_at (contents (bytes s) l) mem n j))).
Proof.
  intros Hc Hok Ht16 Hn Hnt. induction fuel as [|fuel IH]; intros i Hi Hf; [lia|]. cbn [memfind_loop].
  destruct (Z.leb_spec i (tot l - n)) as [Hle|Hgt].
  2: { eexists. split; [done|]. left. split; [done|]. intros _ j Hj. lia. }
  rewrite (memcmp_spec s p l i mem n Hc Hok) by lia. cbn [mbind option_bind].
  pose proof (contents_length (bytes s) l Hok) as Lc.
  set (c := contents (bytes s) l) in *.
  assert (length (take (Z.to_nat n) mem) = Z.to_nat n) as Ln by (rewrite length_take; lia).
  pose proof (cmp_zero (drop (Z.to_nat i) c) (take (Z.to_nat n) mem) 0 ltac:(lia)
    ltac:(rewrite length_drop; lia)) as Hz. rewrite Ln in Hz.
  pose proof (cmp_nonneg (drop (Z.to_nat i) c) (take (Z.to_nat n) mem) 0 ltac:(lia)).
  pose proof (cmp_bound (drop (Z.to_nat i) c) (take (Z.to_nat n) mem) 0 ltac:(lia)) as Hb.
  rewrite Ln in Hb.
  destruct (Z.eqb_spec (cmp (drop (Z.to_nat i) c) (take (Z.to_nat n) mem) 0) 0) as [E|E].
  - exists i. split; [done|]. right. split; [lia|]. split; [by apply Hz|]. intros _ j Hj. lia.
  - set (plus := cmp (drop (Z.to_nat i) c) (take (Z.to_nat n) mem) 0) in *.
    rewrite (wrap_id 16 (i + plus)) by cint.
    destruct (IH (i + plus)) as (r & Er & H'); [lia|lia|]. exists r. split; [done|].
    assert (n = 1 -> ~ occurs_at c mem n i) as Hno by (intros _ Ho; by apply E, Hz).
    destruct H' as [[-> H']|(Hr & Ho & H')]; [left|right].
    + split; [done|]. intros H1 j Hj. destruct (decide (j = i)) as [->|]; [by apply Hno|].
      apply H'; [done|]. lia.
    + split; [lia|]. split; [done|]. intros H1 j Hj.
      destruct (decide (j = i)) as [->|]; [by apply Hno|]. apply H'; [done|]. lia.
Qed.

End Correct.

(** ** Payloads of live pbufs *)

Section Owned.
Context {A : Type} {ops : alloc_ops A} {laws : alloc_laws A}.
Implicit Types s : pstate A.

(** The pbuf carries its data behind its struct. *)
Definition carries (b : pbuf) : Prop := type b = PBUF_RAM \/ type b = PBUF_POOL.

(** Two pbufs that carry their data share no byte of it. *)
Lemma payload_apart s B R a b c d x : pinv s B R -> bufs s !! a = Some b -> bufs s !! c = Some d ->
  a ≠ c -> carries b -> carries d ->
  x ∈ seqZ (payload b) (len b) -> x ∈ seqZ (payload d) (len d) -> False.
Proof.
  intros I Ea Ec D Hb Hd Hx Hy.
  destruct (pinv_get _ _ _ _ _ I Ea) as (ka & Eka & (Aa & _ & Ra) & _).
  destruct (pinv_get _ _ _ _ _ I Ec) as (kc & Ekc & (Ac & _ & Rc) & _).
  pose proof (pi_own _ _ _ I) as O.
  rewrite <-(map_to_list_delete B a ka Eka) in O.
  rewrite <-(map_to_list_delete (delete a B) c kc) in O by (by rewrite lookup_delete_ne).
  cbn [fmap list_fmap snd app] in O. apply owns_disj in O. unfold block_disj in O.
  apply elem_of_seqZ in Hx, Hy.
  assert (a + 16 <= payload b /\ payload b + len b <= a + b_size ka) by (destruct Hb as [E|E]; by rewrite E in Ra).
  assert (c + 16 <= payload d /\ payload d + len d <= c + b_size kc) by (destruct Hd as [E|E]; by rewrite E in Rc).
  lia.
Qed.

(** So the data of a chain, and of two chains that share no pbuf, is apart. *)
Lemma addrs_elem l x : x ∈ addrs l -> exists a b, (a, b) ∈ l /\ x ∈ seqZ (payload b) (len b).
Proof.
  unfold addrs. rewrite list_elem_of_join. intros (y & Hx & Hy).
  apply list_elem_of_fmap in Hy as ([a b] & -> & Hin). eauto.
Qed.

Lemma addrs_nodup s B R p l : pinv s B R -> chain (bufs s) p l 0 ->
  Forall (fun x => carries x.2) l -> NoDup (addrs l).
Proof.
  intros I. revert p. induction l as [|[a b] l IH]; intros p Hc F; [constructor|].
  pose proof (chain_nodup _ _ _ Hc) as N. rewrite fmap_cons in N. inversion_clear N as [|? ? Na _].
  destruct Hc as (_ & _ & E & Hc). apply Forall_cons in F as [Fb F].
  rewrite addrs_cons. apply NoDup_app. split; [apply NoDup_seqZ|]. split; [|by eapply IH].
  intros x Hx (c & d & Hin & Hy)%addrs_elem.
  destruct (chain_elem _ _ _ _ _ _ Hc Hin) as [Ed _]. rewrite Forall_forall in F.
  assert (a ≠ c).
  { intros ->. apply Na. cbn [fst]. apply list_elem_of_fmap. by exists (c, d). }
  by apply (payload_apart s B R a b c d x I E Ed); [..|apply (F (c, d))|done|done].
Qed.

Lemma addrs_disjoint s B R p q l l' : pinv s B R -> chain (bufs s) p l 0 -> chain (bufs s) q l' 0 ->
  Forall (fun x => carries x.2) l -> Forall (fun x => carries x.2) l' -> l.*1 ## l'.*1 ->
  addrs l ## addrs l'.
Proof.
  intros I Hc Hc' F F' D x (a & b & Hin & Hx)%addrs_elem (c & d & Hin' & Hy)%addrs_elem.
  destruct (chain_elem _ _ _ _ _ _ Hc Hin) as [Eb _].
  destruct (chain_elem _ _ _ _ _ _ Hc' Hin') as [Ed _]. rewrite Forall_forall in F, F'.
  assert (a ≠ c).
  { intros ->. apply (D c); apply list_elem_of_fmap; [by exists (c, b)|by exists (c, d)]. }
  by apply (payload_apart s B R a b c d x I Eb Ed); [done|apply (F (a, b))|apply (F' (c, d))|..].
Qed.

End Owned.

(** ** Properties *)

Section Properties.
Context {A : Type} {ops : alloc_ops A} {laws : alloc_laws A}.
Implicit Types s : pstate A.

Lemma window_length o n c : Z.of_nat (length (window o n c)) <= Z.max 0 n.
Proof. unfold window. rewrite length_take. lia. Qed.

Lemma copy_partial_all s p l n o dst : chain (bufs s) p l 0 -> tot_ok l -> p ≠ 0 ->
  0 <= n < 2 ^ 16 -> 0 <= o < 2 ^ 16 ->
  Z.of_nat (length (window o n (contents (bytes s) l))) <= Z.of_nat (length dst) ->
  let data := window o n (contents (bytes s) l) in
  pbuf_copy_partial p (Some dst) n o s = Some (Z.of_nat (length data), Some (data ++ drop (length data) dst)).
Proof.
  intros Hc Hok Hp Hn Ho Hd. cbv zeta. unfold pbuf_copy_partial.
  rewrite (proj2 (Z.eqb_neq p 0)) by done. pose proof (chain_size _ _ _ Hc).
  pose proof (window_length o n (contents (bytes s) l)).
  rewrite (copy_partial_spec s l (chain_fuel s) p n o 0 0 dst); try done; try lia.
  unfold chain_fuel. lia.
Qed.

Lemma take_all s p l b l' data n : l = (p, b) :: l' -> chain (bufs s) p l 0 -> tot_ok l ->
  0 <= n <= tot l -> n <= Z.of_nat (length data) ->
  pbuf_take p (Some data) n s = Some (ERR_OK,
    with_bytes (wr (take (Z.to_nat n) (addrs l)) (take (Z.to_nat n) data) (bytes s)) s).
Proof.
  intros El Hc Hok Hn Hd. unfold pbuf_take. pose proof (chain_size _ _ _ Hc) as Hsz.
  pose proof Hc as Hc'. pose proof Hok as Hok'. rewrite El in Hc', Hok'.
  destruct Hc' as (_ & Hp & E & _). destruct Hok' as (Ht & _ & Hb & _).
  rewrite (proj2 (Z.eqb_neq p 0)), (E : get p s = _) by done. cbn [mbind option_bind].
  assert (tot_len b = tot l) as Htl by (rewrite El; cbn [tot]; lia).
  rewrite (proj2 (Z.ltb_ge _ _)) by lia.
  rewrite (take_loop_spec l (chain_fuel s) p n 0 data s);
    [|unfold chain_fuel; lia|done|done|lia|lia|lia|lia]. done.
Qed.

(** [pbuf_copy_partial] delivers the window of the chain's data that
    starts at [offset], up to [n] bytes or the end of the data, at the start of
    the application's buffer, writes nothing behind it, and returns its length. *)
Theorem pbuf_copy_partial_correct s p l n o dst : chain (bufs s) p l 0 -> tot_ok l -> p ≠ 0 ->
  0 <= n < 2 ^ 16 -> 0 <= o < 2 ^ 16 ->
  Z.of_nat (length (window o n (contents (bytes s) l))) <= Z.of_nat (length dst) ->
  let data := take (Z.to_nat n) (drop (Z.to_nat o) (contents (bytes s) l)) in
  pbuf_copy_partial p (Some dst) n o s = Some (Z.of_nat (length data), Some (data ++ drop (length data) dst)).
Proof. apply copy_partial_all. Qed.

(** What [pbuf_take] stores, over as many pbufs as it takes,
    [pbuf_copy_partial] reads back; the rest of the data, every struct and
    every byte outside the chain's data are unchanged. *)
Theorem pbuf_take_copy_roundtrip s B R p l b l' data n dst : pinv s B R -> l = (p, b) :: l' ->
  chain (bufs s) p l 0 -> tot_ok l -> Forall (fun x => carries x.2) l ->
  0 <= n <= tot l -> n <= Z.of_nat (length data) -> n <= Z.of_nat (length dst) ->
  exists s', pbuf_take p (Some data) n s = Some (ERR_OK, s') /\ bufs s' = bufs s /\ al s' = al s /\
    pbuf_copy_partial p (Some dst) n 0 s'
      = Some (n, Some (take (Z.to_nat n) data ++ drop (Z.to_nat n) dst)) /\
    contents (bytes s') l = take (Z.to_nat n) data ++ drop (Z.to_nat n) (contents (bytes s) l) /\
    forall x, x ∉ addrs l -> bytes s' !! x = bytes s !! x.
Proof.
  intros I El Hc Hok F Hn Hd Hdst. rewrite (take_all s p l b l' data n) by done.
  pose proof (addrs_nodup s B R p l I Hc F) as N. pose proof (addrs_length l Hok) as La.
  set (m' := wr _ _ _). assert (contents m' l = take (Z.to_nat n) data ++ drop (Z.to_nat n) (contents (bytes s) l)) as Ec.
  { rewrite !contents_rd. rewrite <-(take_drop (Z.to_nat n) (addrs l)) at 1. rewrite fmap_app. f_equal.
    - apply wr_rd_same; [|rewrite !length_take; lia].
      rewrite <-(take_drop (Z.to_nat n) (addrs l)), NoDup_app in N. apply N.
    - rewrite <-fmap_drop. apply wr_rd_other. intros x Hx Hy.
      rewrite <-(take_drop (Z.to_nat n) (addrs l)), NoDup_app in N. destruct N as (_ & N & _). by apply (N x). }
  eexists. split; [done|]. split; [done|]. split; [done|]. split; [|split; [done|]].
  - assert (tot l < 2 ^ 16) by (rewrite El in Hok |- *; cbn [tot tot_ok] in *; lia).
    assert (window 0 n (contents m' l) = take (Z.to_nat n) data) as Ew.
    { unfold window. cbn [Z.to_nat]. rewrite drop_0, Ec, take_app_le by (rewrite length_take; lia).
      rewrite take_take. f_equal. lia. }
    assert (p ≠ 0) by (rewrite El in Hc; by destruct Hc as (_ & ? & _)).
    rewrite (copy_partial_all (with_bytes m' s) p l n 0 dst) by (try done; cbn [bytes with_bytes]; rewrite ?Ew, ?length_take; lia).
    cbn [bytes with_bytes]. rewrite Ew, length_take. do 2 f_equal; [lia|]. do 3 f_equal. lia.
  - intros x Hx. cbn [bytes with_bytes]. apply wr_lookup_ne. intros Hin. apply Hx. by eapply elem_take.
Qed.

(** The effect of [pbuf_copy] on the data of the destination. *)
Lemma copy_all s B R pt bt lt pf bf lf : pinv s B R ->
  chain (bufs s) pt ((pt, bt) :: lt) 0 -> chain (bufs s) pf ((pf, bf) :: lf) 0 ->
  tot_ok ((pt, bt) :: lt) -> tot_ok ((pf, bf) :: lf) ->
  all_pos ((pt, bt) :: lt) -> all_pos ((pf, bf) :: lf) ->
  Forall (fun x => carries x.2) ((pt, bt) :: lt) -> Forall (fun x => carries x.2) ((pf, bf) :: lf) ->
  ((pt, bt) :: lt).*1 ## ((pf, bf) :: lf).*1 -> tot_len bf <= tot_len bt ->
  exists m', pbuf_copy pt pf s = Some (ERR_OK, with_bytes m' s) /\
    contents m' ((pt, bt) :: lt) = contents (bytes s) ((pf, bf) :: lf)
      ++ drop (Z.to_nat (tot_len bf)) (contents (bytes s) ((pt, bt) :: lt)) /\
    (forall x, x ∉ addrs ((pt, bt) :: lt) -> m' !! x = bytes s !! x).
Proof.
  intros I Hct Hcf Hokt Hokf Hpt Hpf Ft Ff D Hle. unfold pbuf_copy.
  pose proof Hct as (_ & Hptz & Et & _). pose proof Hcf as (_ & Hpfz & Ef & _).
  rewrite (proj2 (Z.eqb_neq pt 0)), (proj2 (Z.eqb_neq pf 0)), (Et : get pt s = _), (Ef : get pf s = _) by done.
  cbn [orb mbind option_bind]. rewrite (proj2 (Z.ltb_ge _ _)) by done.
  pose proof (chain_size _ _ _ Hct) as S1. pose proof (chain_size _ _ _ Hcf) as S2. cbn [length] in S1, S2.
  assert (tot_len bt = tot ((pt, bt) :: lt)) as Tt by apply Hokt.
  assert (tot_len bf = tot ((pf, bf) :: lf)) as Tf by apply Hokf.
  pose proof (addrs_disjoint s B R pt pf _ _ I Hct Hcf Ft Ff D) as Da.
  rewrite (copy_loop_spec (2 * chain_fuel s) pt bt lt pf bf lf 0 0 s); try done.
  2: { unfold chain_fuel. lia. }
  2: { apply Forall_cons in Hpt as [? _]. simpl in *. lia. }
  2: { apply Forall_cons in Hpf as [? _]. simpl in *. lia. }
  2: { lia. }
  cbn [Z.to_nat]. rewrite !drop_0. eexists. split; [done|].
  pose proof (addrs_nodup s B R pt _ I Hct Ft) as N.
  pose proof (addrs_length _ Hokt) as La. pose proof (contents_length (bytes s) _ Hokf) as Lc.
  set (lf0 := (pf, bf) :: lf) in *. set (lt0 := (pt, bt) :: lt) in *.
  set (n := length (contents (bytes s) lf0)) in *.
  rewrite <-(take_drop n (addrs lt0)) in N. apply NoDup_app in N as (N1 & N2 & _).
  set (m' := wr (take n (addrs lt0)) (contents (bytes s) lf0) (bytes s)). split.
  - rewrite (contents_rd m'), (contents_rd (bytes s) lt0), <-fmap_drop.
    rewrite <-(take_drop n (addrs lt0)) at 1. rewrite fmap_app. f_equal.
    + apply wr_rd_same; [done|]. rewrite length_take. lia.
    + replace (Z.to_nat (tot_len bf)) with n by lia. apply wr_rd_other.
      intros x Hx Hy. by apply (N2 x).
  - intros x Hx. apply wr_lookup_ne. intros Hin. apply Hx. by eapply elem_take.
Qed.

(** C29: [pbuf_copy] between chains without empty pbufs, of any cut into
    pbufs, where the destination is long enough: it reports ERR_OK, the
    destination then holds the data of the source followed by what it held
    behind that, and no other byte and no struct is changed. *)
Theorem pbuf_copy_correct s B R pt bt lt pf bf lf : pinv s B R ->
  chain (bufs s) pt ((pt, bt) :: lt) 0 -> chain (bufs s) pf ((pf, bf) :: lf) 0 ->
  tot_ok ((pt, bt) :: lt) -> tot_ok ((pf, bf) :: lf) ->
  all_pos ((pt, bt) :: lt) -> all_pos ((pf, bf) :: lf) ->
  Forall (fun x => carries x.2) ((pt, bt) :: lt) -> Forall (fun x => carries x.2) ((pf, bf) :: lf) ->
  ((pt, bt) :: lt).*1 ## ((pf, bf) :: lf).*1 -> tot_len bf <= tot_len bt ->
  exists m', pbuf_copy pt pf s = Some (ERR_OK, with_bytes m' s) /\
    contents m' ((pt, bt) :: lt) = contents (bytes s) ((pf, bf) :: lf)
      ++ drop (Z.to_nat (tot_len bf)) (contents (bytes s) ((pt, bt) :: lt)) /\
    (forall x, x ∉ addrs ((pt, bt) :: lt) -> m' !! x = bytes s !! x).
Proof. apply copy_all. Qed.

(** [pbuf_coalesce] of a chain of several pbufs either runs out of heap
    and returns the chain unchanged, or gives it back and returns one pbuf that
    holds the same data. *)
Theorem pbuf_coalesce_correct s B R p b q d l layer : pinv s B R ->
  chain (bufs s) p ((p, b) :: (q, d) :: l) 0 -> tot_ok ((p, b) :: (q, d) :: l) ->
  all_pos ((p, b) :: (q, d) :: l) -> Forall (fun x => carries x.2) ((p, b) :: (q, d) :: l) ->
  exists r s' B', pbuf_coalesce p layer s = Some (r, s') /\ pinv s' B' R /\
    ((r = p /\ bufs s' = bufs s /\ bytes s' = bytes s) \/
     (exists b', bufs s !! r = None /\ chain (bufs s') r [(r, b')] 0 /\ tot_ok [(r, b')] /\
      contents (bytes s') [(r, b')] = contents (bytes s) ((p, b) :: (q, d) :: l))).
Proof.
  intros I Hc Hok Hp F. unfold pbuf_coalesce. pose proof Hc as (_ & Hpz & E & (Hq & Hqz & _)).
  rewrite (E : get p s = _). cbn [mbind option_bind]. rewrite Hq, (proj2 (Z.eqb_neq q 0)) by done.
  pose proof (tot_nonneg _ Hok) as Hnn. pose proof Hok as (Ht & Hlen & Hb & Hok').
  pose proof (tot_nonneg _ Hok').
  destruct (alloc_ram s B R layer (tot_len b) I ltac:(lia))
    as (r & s1 & B1 & -> & Ey & I1 & [[-> Eb]|(Hr & Fr & Eb)]); cbn [mbind option_bind].
  { rewrite Z.eqb_refl. exists p, s1, B1. eauto 10. }
  rewrite (proj2 (Z.eqb_neq r 0)) by done.
  set (b' := mk_pbuf 0 (r + 16 + layer_offset layer) (tot_len b) (tot_len b) PBUF_RAM 0 1) in *.
  assert (forall c, c ∈ ((p, b) :: (q, d) :: l).*1 -> c ≠ r) as Nr.
  { intros c ([c' e] & -> & Hin)%list_elem_of_fmap. apply (chain_elem _ _ _ _ _ _ Hc) in Hin as [Hin _].
    simpl. congruence. }
  assert (chain (bufs s1) p ((p, b) :: (q, d) :: l) 0) as Hc1.
  { rewrite Eb. eapply chain_frame; [exact Hc|]. intros c Hin. apply lookup_insert_ne. by apply not_eq_sym, Nr. }
  assert (chain (bufs s1) r [(r, b')] 0) as Hcr by (cbn [chain]; by rewrite Eb, lookup_insert_eq).
  assert (0 < tot_len b) as Hpos.
  { apply Forall_cons in Hp as [? _]. simpl in *. lia. }
  destruct (copy_all s1 B1 R r b' [] p b ((q, d) :: l) I1 Hcr Hc1) as (m' & -> & Ec & _);
    [cbn [tot_ok tot]; cbn [b' len tot_len]; lia|done|by repeat constructor|done|
     constructor; [by left|constructor]|done| |done|].
  { intros c Hx Hy. apply list_elem_of_singleton in Hx. subst c. by apply (Nr r). }
  cbn [mbind option_bind].
  assert (pinv (with_bytes m' s1) B1 R) as I2 by (by destruct I1).
  destruct (free_chain (with_bytes m' s1) B1 R p _ I2 Hc1) as (s3 & B3 & -> & Eb3 & I3 & Ey3).
  cbn [mbind option_bind]. exists r, s3, B3. split; [done|]. split; [done|]. right. exists b'.
  split; [done|]. split; [|split].
  - cbn [chain]. rewrite Eb3, freed_lookup_ne.
    + cbn [bufs with_bytes]. by rewrite Eb, lookup_insert_eq.
    + intros Hin. by apply (Nr r).
  - cbn [tot_ok tot b' len tot_len]. lia.
  - rewrite Ey3. cbn [bytes with_bytes]. rewrite Ec, Ey.
    rewrite drop_ge, app_nil_r; [done|].
    pose proof (contents_length (bytes s1) [(r, b')]) as L. cbn [tot tot_ok b' len tot_len] in L.
    rewrite <-Ey. lia.
Qed.

(** [pbuf_memfind] of a non-empty text returns: 0xFFFF, or an index not
    before [start] where the text occurs in the chain's data, across pbufs.
    For a text of one byte it finds the first occurrence, and 0xFFFF means
    there is none. *)
Theorem pbuf_memfind_sound s p b l mem n start : chain (bufs s) p ((p, b) :: l) 0 ->
  tot_ok ((p, b) :: l) -> 0 < n <= Z.of_nat (length mem) -> 0 <= start < 2 ^ 16 ->
  let c := contents (bytes s) ((p, b) :: l) in
  exists r, pbuf_memfind p mem n start s = Some r /\
    ((r = 0xFFFF /\
      (n = 1 -> forall j, start <= j -> j + n <= tot_len b -> ~ occurs_at c mem n j)) \/
     (start <= r /\ r + n <= tot_len b /\ occurs_at c mem n r /\
      (n = 1 -> forall j, start <= j < r -> ~ occurs_at c mem n j))).
Proof.
  intros Hc Hok Hn Hs c. unfold pbuf_memfind. pose proof Hc as (_ & _ & E & _).
  rewrite (E : get p s = _). cbn [mbind option_bind].
  assert (tot_len b = tot ((p, b) :: l)) as Ht by apply Hok.
  assert (tot_len b < 2 ^ 16) as Hb by apply Hok. rewrite Ht in *.
  destruct (Z.leb_spec (n + start) (tot ((p, b) :: l))) as [Hle|Hgt].
  - rewrite (wrap_id 16) by cint.
    destruct (memfind_loop_spec s p ((p, b) :: l) mem n Hc Hok ltac:(lia) Hn ltac:(lia) memfind_fuel start)
      as (r & Er & H); [lia|unfold memfind_fuel; lia|]. exists r. split; [exact Er|].
    destruct H as [[-> H]|(Hr & Ho & H)]; [left|right].
    + split; [done|]. intros H1 j Hj1 Hj2. apply H; [done|lia].
    + split; [lia|]. split; [lia|]. done.
  - eexists. split; [done|]. left. split; [done|]. intros _ j Hj1 Hj2. lia.
Qed.

(** [pbuf_memfind] misses texts: after a difference at the [k]-th byte of
    the text it goes on [k] bytes further, past occurrences that start in
    between.  In the data "aab" it does not find "ab", which occurs at 1. *)
Theorem pbuf_memfind_misses s p b : bufs s = {[p := b]} -> p ≠ 0 -> next b = 0 -> len b = 3 ->
  tot_len b = 3 -> contents (bytes s) [(p, b)] = [97; 97; 98] ->
  pbuf_memfind p [97; 98] 2 0 s = Some 0xFFFF /\
  occurs_at (contents (bytes s) [(p, b)]) [97; 98] 2 1.
Proof.
  intros Eb Hp Hn Hl Ht Ec. rewrite Ec. split; [|done].
  assert (chain (bufs s) p [(p, b)] 0) as Hc.
  { cbn [chain]. rewrite Eb, lookup_singleton_eq. done. }
  assert (tot_ok [(p, b)]) as Hok by (cbn [tot_ok tot]; lia).
  assert (tot [(p, b)] = 3) as Htot by (cbn [tot]; lia).
  unfold pbuf_memfind. rewrite (proj1 (proj2 (proj2 Hc)) : get p s = _). cbn [mbind option_bind].
  rewrite Ht. change (u16 (3 - 2)) with 1. change (2 + 0 <=? 3) with true. cbv iota.
  replace memfind_fuel with (S (S (memfind_fuel - 2))) by (unfold memfind_fuel; lia).
  generalize (memfind_fuel - 2)%nat. intros f. cbn [memfind_loop].
  rewrite (memcmp_spec s p [(p, b)] 0 [97; 98] 2 Hc Hok) by (cbn [length]; lia). rewrite Ec. done.
Qed.

End Properties.

(** ** Witnesses *)

(** The state [ps2] of [Pbuf] with some data in the pool chain. *)
Definition text : list Z := [104; 101; 108; 108; 111].

Lemma ch1_carries : Forall (fun x => carries x.2) ch1.
Proof. repeat constructor; by right. Qed.
Lemma ch2_carries : Forall (fun x => carries x.2) ch2.
Proof. repeat constructor; by left. Qed.
Lemma ch1_pos : all_pos ch1.
Proof. repeat constructor. Qed.
Lemma ch2_pos : all_pos ch2.
Proof. repeat constructor. Qed.

Lemma pbuf_copy_partial_correct_witness :
  let data := take (Z.to_nat 4) (drop (Z.to_nat 494) (contents (bytes ps2.2) ch1)) in
  pbuf_copy_partial p1 (Some (repeat 7 6)) 4 494 ps2.2
  = Some (Z.of_nat (length data), Some (data ++ drop (length data) (repeat 7 6))).
Proof.
  apply (pbuf_copy_partial_correct ps2.2 p1 ch1 4 494 (repeat 7 6) ch1_chain ch1_ok);
    [discriminate|lia|lia|vm_compute; discriminate].
Defined.

Lemma pbuf_take_copy_roundtrip_witness : exists s',
  pbuf_take p1 (Some text) 5 ps2.2 = Some (ERR_OK, s') /\ bufs s' = bufs ps2.2 /\ al s' = al ps2.2 /\
    pbuf_copy_partial p1 (Some (repeat 0 8)) 5 0 s'
      = Some (5, Some (take (Z.to_nat 5) text ++ drop (Z.to_nat 5) (repeat 0 8))) /\
    contents (bytes s') ch1 = take (Z.to_nat 5) text ++ drop (Z.to_nat 5) (contents (bytes ps2.2) ch1) /\
    forall x, x ∉ addrs ch1 -> bytes s' !! x = bytes ps2.2 !! x.
Proof.
  destruct ps2_inv as [B I].
  apply (pbuf_take_copy_roundtrip ps2.2 B [] p1 ch1 ch1_b (drop 1 ch1) text 5 (repeat 0 8) I
    ltac:(reflexivity) ch1_chain ch1_ok ch1_carries); [vm_compute; split; discriminate|
    vm_compute; discriminate|vm_compute; discriminate].
Defined.

(** The PBUF_RAM pbuf (100 bytes) into the pool chain (1100 bytes). *)
Lemma pbuf_copy_correct_witness : exists m',
  pbuf_copy p1 p2 ps2.2 = Some (ERR_OK, with_bytes m' ps2.2) /\
    contents m' ch1 = contents (bytes ps2.2) ch2
      ++ drop (Z.to_nat (tot_len p2_b)) (contents (bytes ps2.2) ch1) /\
    (forall x, x ∉ addrs ch1 -> m' !! x = bytes ps2.2 !! x).
Proof.
  destruct ps2_inv as [B I].
  exact (pbuf_copy_correct ps2.2 B [] p1 ch1_b (drop 1 ch1) p2 p2_b [] I ch1_chain ch2_chain
    ch1_ok ch2_ok ch1_pos ch2_pos ch1_carries ch2_carries ch12_disj ltac:(vm_compute; discriminate)).
Defined.

Lemma pbuf_coalesce_correct_witness : exists r s' B',
  pbuf_coalesce p1 PBUF_RAW ps2.2 = Some (r, s') /\ pinv s' B' [] /\
    ((r = p1 /\ bufs s' = bufs ps2.2 /\ bytes s' = bytes ps2.2) \/
     (exists b', bufs ps2.2 !! r = None /\ chain (bufs s') r [(r, b')] 0 /\ tot_ok [(r, b')] /\
      contents (bytes s') [(r, b')] = contents (bytes ps2.2) ch1)).
Proof.
  destruct ps2_inv as [B I].
  exact (pbuf_coalesce_correct ps2.2 B [] p1 ch1_b ch1_q.1 ch1_q.2 ch1_l PBUF_RAW I ch1_chain
    ch1_ok ch1_pos ch1_carries).
Defined.

Lemma pbuf_memfind_sound_witness :
  exists r, pbuf_memfind p1 [0; 0; 1] 3 2 ps2.2 = Some r /\
    ((r = 0xFFFF /\ (3 = 1 -> forall j, 2 <= j -> j + 3 <= tot_len ch1_b ->
        ~ occurs_at (contents (bytes ps2.2) ch1) [0; 0; 1] 3 j)) \/
     (2 <= r /\ r + 3 <= tot_len ch1_b /\ occurs_at (contents (bytes ps2.2) ch1) [0; 0; 1] 3 r /\
      (3 = 1 -> forall j, 2 <= j < r -> ~ occurs_at (contents (bytes ps2.2) ch1) [0; 0; 1] 3 j))).
Proof.
  exact (pbuf_memfind_sound ps2.2 p1 ch1_b (drop 1 ch1) [0; 0; 1] 3 2 ch1_chain ch1_ok
    ltac:(split; [lia|vm_compute; discriminate]) ltac:(lia)).
Defined.

(** One pbuf that holds "aab". *)
Definition aab : pstate unit :=
  mk_ps tt {[4096 := mk_pbuf 0 4112 3 3 PBUF_RAM 0 1]}
    (<[4112 := 97]> (<[4113 := 97]> (<[4114 := 98]> ∅))) 0.

Lemma pbuf_memfind_misses_witness :
  pbuf_memfind 4096 [97; 98] 2 0 aab = Some 0xFFFF /\
  occurs_at (contents (bytes aab) [(4096, mk_pbuf 0 4112 3 3 PBUF_RAM 0 1)]) [97; 98] 2 1.
Proof. apply pbuf_memfind_misses; reflexivity || discriminate. Defined.

End PbufData.
