(* ===== verification/Chksum.v ===== *)
(** * The Internet checksum (libraries/Ethernet/utility/inet_chksum.c, def.c)

    The checksum routines work on bytes at an address (its parity matters) or on
    pbuf chains.  LWIP_CHKSUM_ALGORITHM is 2; the two other versions of
    [lwip_standard_chksum] in the file are modelled too.  The target is little
    endian: a [u16_t] or [u32_t] load takes the first byte as the lowest. *)
From S2P Require Import Prelude Alloc Pbuf.

Module Chksum.
Import Pbuf.

(** ** Byte order (def.c) *)

Definition lwip_htons (n : Z) : Z :=
  Z.lor (Z.shiftl (Z.land n 0xff) 8) (Z.shiftr (Z.land n 0xff00) 8).
Definition lwip_ntohs (n : Z) : Z := lwip_htons n.
Definition lwip_htonl (n : Z) : Z :=
  Z.lor (Z.lor (Z.lor (Z.shiftl (Z.land n 0xff) 24) (Z.shiftl (Z.land n 0xff00) 8))
    (Z.shiftr (Z.land n 0xff0000) 8)) (Z.shiftr (Z.land n 0xff000000) 24).
Definition lwip_ntohl (n : Z) : Z := lwip_htonl n.

(** ** Sums *)

Definition SWAP_BYTES_IN_WORD (w : Z) : Z :=
  Z.lor (Z.shiftl (Z.land w 0xff) 8) (Z.shiftr (Z.land w 0xff00) 8).
Definition FOLD_U32T (u : Z) : Z := Z.shiftr u 16 + Z.land u 0xffff.

(** [*(u16_t * )] and [*(u32_t * )] *)
Definition load16 (b0 b1 : Z) : Z := b0 + 256 * b1.
Definition load32 (b0 b1 b2 b3 : Z) : Z := b0 + 256 * b1 + 65536 * b2 + 16777216 * b3.

(** Version #2, the bulk: words while two bytes are left; the sum and the bytes
    that remain. *)
Fixpoint sum_words (data : list Z) (sum : Z) : Z * list Z :=
  match data with
  | b0 :: b1 :: data => sum_words data (u32 (sum + load16 b0 b1))
  | rest => (sum, rest)
  end.

Definition odd_address (addr : Z) : bool := Z.land addr 1 =? 1.

(** Version #2: [len] is the length of [data], which starts at [addr]. *)
Definition lwip_standard_chksum (addr : Z) (data : list Z) : Z :=
  let odd := odd_address addr in
  let '(t1, data) := match odd, data with
                     | true, b :: data => (b, data)
                     | _, _ => (0, data)
                     end in
  let '(sum, rest) := sum_words data 0 in
  let t0 := match rest with b :: _ => b | [] => 0 end in
  let sum := u32 (sum + load16 t0 t1) in
  let sum := FOLD_U32T sum in
  let sum := FOLD_U32T sum in
  u16 (if odd then SWAP_BYTES_IN_WORD sum else sum).

(** Version #1: the first byte of a word is the high one. *)
Fixpoint sum_words_be (data : list Z) (acc : Z) : Z :=
  match data with
  | b0 :: b1 :: data => sum_words_be data (u32 (acc + Z.lor (Z.shiftl b0 8) b1))
  | [b0] => u32 (acc + Z.shiftl b0 8)
  | [] => acc
  end.

Definition lwip_standard_chksum_1 (data : list Z) : Z :=
  let acc := sum_words_be data 0 in
  let acc := FOLD_U32T acc in
  let acc := if Z.land acc 0xffff0000 =? 0 then acc else FOLD_U32T acc in
  lwip_htons (u16 acc).

(** Version #3: 32 bits at a time, with the carry added back. *)
Definition add_carry (sum w : Z) : Z :=
  let tmp := u32 (sum + w) in
  if tmp <? sum then u32 (tmp + 1) else tmp.

Fixpoint sum_longs (data : list Z) (sum : Z) : Z * list Z :=
  match data with
  | a0 :: a1 :: a2 :: a3 :: b0 :: b1 :: b2 :: b3 :: data =>
      sum_longs data (add_carry (add_carry sum (load32 a0 a1 a2 a3)) (load32 b0 b1 b2 b3))
  | rest => (sum, rest)
  end.

Definition lwip_standard_chksum_3 (addr : Z) (data : list Z) : Z :=
  let odd := odd_address addr in
  let '(t1, addr, data) := match odd, data with
                           | true, b :: data => (b, addr + 1, data)
                           | _, _ => (0, addr, data)
                           end in
  let '(sum, data) := match negb (Z.land addr 3 =? 0), data with
                      | true, b0 :: b1 :: data => (load16 b0 b1, data)
                      | _, _ => (0, data)
                      end in
  let '(sum, data) := sum_longs data sum in
  let sum := FOLD_U32T sum in
  let '(sum, rest) := sum_words data sum in
  let t0 := match rest with b :: _ => b | [] => 0 end in
  let sum := u32 (sum + load16 t0 t1) in
  let sum := FOLD_U32T sum in
  let sum := FOLD_U32T sum in
  u16 (if odd then SWAP_BYTES_IN_WORD sum else sum).

Definition inet_chksum (addr : Z) (data : list Z) : Z :=
  u16 (Z.lnot (lwip_standard_chksum addr data)).

(** ** Chains *)

Section Chains.
Context {A : Type}.

(** The loop of [inet_chksum_pbuf] and [inet_chksum_pseudo]: [acc] and
    [swapped]. *)
Fixpoint chksum_loop (fuel : nat) (q acc swapped : Z) (s : pstate A) : option (Z * Z) :=
  match fuel with
  | O => None
  | S fuel =>
      if q =? 0 then Some (acc, swapped)
      else
        b ← get q s;
        let acc := u32 (acc + lwip_standard_chksum (payload b) (read_bytes (bytes s) (payload b) (len b))) in
        let acc := FOLD_U32T acc in
        if Z.rem (len b) 2 =? 0 then chksum_loop fuel (next b) acc swapped s
        else chksum_loop fuel (next b) (SWAP_BYTES_IN_WORD acc) (u8 (1 - swapped)) s
  end.

Definition inet_chksum_pbuf (p : Z) (s : pstate A) : option Z :=
  '(acc, swapped) ← chksum_loop (chain_fuel s) p 0 0 s;
  let acc := if swapped =? 0 then acc else SWAP_BYTES_IN_WORD acc in
  Some (u16 (Z.lnot (Z.land acc 0xffff))).

(** The pseudo header and the final folds.  [src] and [dest] are the addresses
    as [u32_t] in network byte order. *)
Definition add_pseudo (acc src dest proto proto_len : Z) : Z :=
  let acc := u32 (acc + Z.land src 0xffff) in
  let acc := u32 (acc + Z.land (Z.shiftr src 16) 0xffff) in
  let acc := u32 (acc + Z.land dest 0xffff) in
  let acc := u32 (acc + Z.land (Z.shiftr dest 16) 0xffff) in
  let acc := u32 (acc + lwip_htons (u16 proto)) in
  let acc := u32 (acc + lwip_htons proto_len) in
  let acc := FOLD_U32T acc in
  let acc := FOLD_U32T acc in
  u16 (Z.lnot (Z.land acc 0xffff)).

Definition inet_chksum_pseudo (p src dest proto proto_len : Z) (s : pstate A) : option Z :=
  '(acc, swapped) ← chksum_loop (chain_fuel s) p 0 0 s;
  let acc := if swapped =? 0 then acc else SWAP_BYTES_IN_WORD acc in
  Some (add_pseudo acc src dest proto proto_len).

Fixpoint chksum_partial_loop (fuel : nat) (q acc swapped chksum_len : Z) (s : pstate A)
    : option (Z * Z) :=
  match fuel with
  | O => None
  | S fuel =>
      if (q =? 0) || (chksum_len <=? 0) then Some (acc, swapped)
      else
        b ← get q s;
        let chklen := if chksum_len <? len b then chksum_len else len b in
        let acc := u32 (acc + lwip_standard_chksum (payload b) (read_bytes (bytes s) (payload b) chklen)) in
        let chksum_len := u16 (chksum_len - chklen) in
        let acc := FOLD_U32T acc in
        if Z.rem (len b) 2 =? 0 then chksum_partial_loop fuel (next b) acc swapped chksum_len s
        else chksum_partial_loop fuel (next b) (SWAP_BYTES_IN_WORD acc) (u8 (1 - swapped)) chksum_len s
  end.

Definition inet_chksum_pseudo_partial (p src dest proto proto_len chksum_len : Z) (s : pstate A)
    : option Z :=
  '(acc, swapped) ← chksum_partial_loop (chain_fuel s) p 0 0 chksum_len s;
  let acc := if swapped =? 0 then acc else SWAP_BYTES_IN_WORD acc in
  Some (add_pseudo acc src dest proto proto_len).

End Chains.

(** ** The reference *)

(** The sum of the 16-bit words of the data, the last one padded with zero. *)
Fixpoint le_sum (data : list Z) : Z :=
  match data with
  | b0 :: b1 :: data => load16 b0 b1 + le_sum data
  | [b0] => b0
  | [] => 0
  end.

(** The 16-bit one's complement value of a sum: 0 for 0 only, and otherwise the
    residue modulo 65535 in 1 .. 65535. *)
Definition norm (x : Z) : Z := if x =? 0 then 0 else (x - 1) mod 65535 + 1.

Definition octets (data : list Z) : Prop := Forall (fun b => 0 <= b < 256) data.

Lemma norm_small x : 0 <= x <= 65535 -> norm x = x.
Proof. intros. unfold norm. case_match; [lia|]. rewrite Z.mod_small; lia. Qed.

Lemma norm_range x : 0 <= norm x <= 65535.
Proof.
  unfold norm. case_match; [lia|]. pose proof (Z.mod_pos_bound (x - 1) 65535). lia.
Qed.

(** Sums that agree modulo 65535 and in being zero have the same value. *)
Lemma norm_eq x y : 0 <= x -> 0 <= y -> x mod 65535 = y mod 65535 -> (x = 0 <-> y = 0) ->
  norm x = norm y.
Proof.
  intros Hx Hy Hm Hz. unfold norm. destruct (Z.eqb_spec x 0), (Z.eqb_spec y 0); try lia.
  f_equal. rewrite Zminus_mod, Hm, <-Zminus_mod. done.
Qed.

Lemma land_ffff x : Z.land x 0xffff = x mod 65536.
Proof. change 0xffff with (Z.ones 16). by rewrite Z.land_ones. Qed.

Lemma fold_div u : FOLD_U32T u = u / 65536 + u mod 65536.
Proof. unfold FOLD_U32T. by rewrite land_ffff, Z.shiftr_div_pow2. Qed.

Lemma norm_fold u : 0 <= u -> norm (FOLD_U32T u) = norm u.
Proof.
  intros Hu. rewrite fold_div. pose proof (Z.div_mod u 65536 ltac:(lia)).
  pose proof (Z.mod_pos_bound u 65536 ltac:(lia)). pose proof (Z.div_pos u 65536 Hu ltac:(lia)).
  apply norm_eq; [lia|done| |nia].
  replace u with (u / 65536 + u mod 65536 + u / 65536 * 65535) at 3 by lia.
  by rewrite Z.mod_add.
Qed.

(** Two folds bring any 32-bit sum to its 16-bit value. *)
Lemma fold_twice u : 0 <= u < 2 ^ 32 -> FOLD_U32T (FOLD_U32T u) = norm u.
Proof.
  intros Hu. cint_pow.
  assert (0 <= FOLD_U32T u <= 131070) as H1.
  { rewrite fold_div. Z.div_mod_to_equations. lia. }
  assert (0 <= FOLD_U32T (FOLD_U32T u) <= 65535) as H2.
  { rewrite (fold_div (FOLD_U32T u)). Z.div_mod_to_equations. lia. }
  rewrite <-(norm_small _ H2), !norm_fold; lia.
Qed.

Lemma fold_once u : 0 <= u <= 131070 -> FOLD_U32T u = norm u.
Proof.
  intros Hu. assert (0 <= FOLD_U32T u <= 65535) as H.
  { rewrite fold_div. Z.div_mod_to_equations. lia. }
  rewrite <-(norm_small _ H), norm_fold; lia.
Qed.

Lemma swap_div w : SWAP_BYTES_IN_WORD w = w mod 256 * 256 + w / 256 mod 256.
Proof.
  unfold SWAP_BYTES_IN_WORD.
  rewrite Z.shiftr_land. change (Z.shiftr 0xff00 8) with (Z.ones 8). change 0xff with (Z.ones 8).
  rewrite !Z.land_ones, lor_shiftl_add by (try apply Z.mod_pos_bound; lia).
  by rewrite Z.shiftr_div_pow2.
Qed.

(** Swapping the bytes of a word multiplies it by 256 modulo 65535. *)
Lemma norm_swap w : 0 <= w <= 65535 -> SWAP_BYTES_IN_WORD w = norm (256 * w).
Proof.
  intros Hw. assert (0 <= SWAP_BYTES_IN_WORD w <= 65535) as H.
  { rewrite swap_div. Z.div_mod_to_equations. lia. }
  rewrite <-(norm_small _ H). rewrite swap_div in *.
  rewrite (Z.mod_small (w / 256)) in * by (split; [apply Z.div_pos; lia|apply Z.div_lt_upper_bound; lia]).
  pose proof (Z.div_mod w 256 ltac:(lia)).
  pose proof (Z.mod_pos_bound w 256 ltac:(lia)). pose proof (Z.div_pos w 256 ltac:(lia) ltac:(lia)).
  apply norm_eq; [lia|lia| |lia].
  replace (256 * w) with (w mod 256 * 256 + w / 256 + w / 256 * 65535) by lia. by rewrite Z.mod_add.
Qed.

Lemma norm_add x y : 0 <= x -> 0 <= y -> norm (norm x + y) = norm (x + y).
Proof.
  intros Hx Hy. pose proof (norm_range x). apply norm_eq; [lia|lia| |].
  - rewrite Z.add_mod, (Z.add_mod x) by lia. do 2 f_equal. unfold norm.
    destruct (Z.eqb_spec x 0) as [->|]; [done|]. rewrite Zplus_mod_idemp_l. f_equal. lia.
  - unfold norm. destruct (Z.eqb_spec x 0) as [->|]; [done|].
    pose proof (Z.mod_pos_bound (x - 1) 65535). lia.
Qed.

Lemma norm_mul k x : 0 < k -> 0 <= x -> norm (k * norm x) = norm (k * x).
Proof.
  intros Hk Hx. pose proof (norm_range x). apply norm_eq; [nia|nia| |].
  - rewrite Z.mul_mod, (Z.mul_mod k x) by lia. do 2 f_equal. unfold norm.
    destruct (Z.eqb_spec x 0) as [->|]; [done|]. rewrite Zplus_mod_idemp_l. f_equal. lia.
  - unfold norm. destruct (Z.eqb_spec x 0) as [->|]; [done|].
    pose proof (Z.mod_pos_bound (x - 1) 65535). nia.
Qed.

(** Twice by 256 is once around. *)
Lemma norm_around x y : 0 <= x -> 0 <= y -> norm (65536 * x + y) = norm (x + y).
Proof.
  intros Hx Hy. apply norm_eq; [lia|lia| |lia].
  replace (65536 * x + y) with (x + y + x * 65535) by lia. by rewrite Z.mod_add.
Qed.

Lemma octets_cons b data : octets (b :: data) <-> 0 <= b < 256 /\ octets data.
Proof. unfold octets. by rewrite Forall_cons. Qed.

(** Induction two bytes at a time. *)
Lemma pair_ind (P : list Z -> Prop) : P [] -> (forall b, P [b]) ->
  (forall b0 b1 l, P l -> P (b0 :: b1 :: l)) -> forall l, P l.
Proof.
  intros H0 H1 H2 l. enough (P l /\ forall b, P (b :: l)) by naive_solver.
  induction l as [|b l [IH1 IH2]]; [auto|]. split; [apply IH2|]. intros b'. apply H2, IH1.
Qed.

Lemma le_sum_nonneg data : octets data -> 0 <= le_sum data.
Proof.
  induction data as [|b|b0 b1 data IH] using pair_ind; cbn [le_sum]; [lia|..].
  - rewrite octets_cons. lia.
  - rewrite !octets_cons. intros (? & ? & ?%IH). unfold load16. lia.
Qed.

Lemma le_sum_bound data : octets data -> le_sum data <= 65535 * ((Z.of_nat (length data) + 1) / 2).
Proof.
  induction data as [|b|b0 b1 data IH] using pair_ind; cbn [le_sum length]; [done|..].
  - rewrite octets_cons. intros [? _]. change ((Z.of_nat 1 + 1) / 2) with 1. lia.
  - rewrite !octets_cons. intros (? & ? & ?%IH).
    replace (Z.of_nat (S (S (length data))) + 1) with (Z.of_nat (length data) + 1 + 1 * 2) by lia.
    rewrite Z.div_add by lia. unfold load16. lia.
Qed.

(** A byte in front moves the others to the other half of a word. *)
Lemma le_sum_cons b data : octets (b :: data) -> norm (le_sum (b :: data)) = norm (b + 256 * le_sum data).
Proof.
  revert b. induction data as [|c|c0 c1 data IH] using pair_ind; intros b Ho.
  - cbn [le_sum]. f_equal. lia.
  - cbn [le_sum]. f_equal. unfold load16. lia.
  - change (le_sum (b :: c0 :: c1 :: data)) with (load16 b c0 + le_sum (c1 :: data)).
    change (le_sum (c0 :: c1 :: data)) with (load16 c0 c1 + le_sum data). unfold load16.
    apply octets_cons in Ho as [Hb Ho]. apply octets_cons in Ho as [Hc0 Ho].
    pose proof (IH c1 Ho) as Hc1. pose proof (le_sum_nonneg _ Ho).
    apply octets_cons in Ho as [? Ho]. pose proof (le_sum_nonneg _ Ho).
    rewrite (Z.add_comm (b + 256 * c0)), <-norm_add, Hc1, norm_add by lia.
    replace (b + 256 * (c0 + 256 * c1 + le_sum data))
      with (65536 * c1 + (b + 256 * c0 + 256 * le_sum data)) by lia.
    rewrite norm_around by lia. f_equal. lia.
Qed.

Lemma le_sum_app x y : octets x -> octets y ->
  norm (le_sum (x ++ y)) = norm (le_sum x + (if Nat.even (length x) then 1 else 256) * le_sum y).
Proof.
  intros Hx Hy. pose proof (le_sum_nonneg _ Hy).
  induction x as [|b x IH]; [f_equal; simpl; lia|].
  apply octets_cons in Hx as [Hb Hx]. pose proof (le_sum_nonneg _ Hx).
  assert (octets (x ++ y)) as Hxy by (by apply Forall_app).
  pose proof (le_sum_nonneg _ Hxy). cbn [app].
  rewrite le_sum_cons by (by apply octets_cons).
  specialize (IH Hx).
  set (k := if Nat.even (length x) then 1 else 256) in *.
  set (k' := if Nat.even (length (b :: x)) then 1 else 256).
  assert (0 < k /\ 0 < k') as [? ?] by (unfold k, k'; split; case_match; lia).
  assert (norm (b + 256 * le_sum (x ++ y)) = norm (256 * (le_sum x + k * le_sum y) + b)) as ->.
  { rewrite (Z.add_comm b), <-norm_add, <-norm_mul, IH, norm_mul, norm_add by nia. done. }
  assert (octets (b :: x)) as Hbx by (by apply octets_cons). pose proof (le_sum_nonneg _ Hbx).
  rewrite <-(norm_add (le_sum (b :: x))), le_sum_cons, norm_add by (done || nia).
  assert (k = 1 /\ k' = 256 \/ k = 256 /\ k' = 1) as Hk.
  { unfold k, k'. cbn [length]. rewrite Nat.even_succ, <-Nat.negb_even.
    destruct (Nat.even (length x)); cbn; lia. }
  destruct Hk as [[-> ->]|[-> ->]]; [f_equal; lia|].
  replace (256 * (le_sum x + 256 * le_sum y) + b)
    with (65536 * le_sum y + (256 * le_sum x + b)) by lia.
  rewrite norm_around by lia. f_equal. lia.
Qed.

(** ** Correctness of the routines *)

Lemma sum_words_spec data : octets data -> forall sum, 0 <= sum -> sum + le_sum data < 2 ^ 32 ->
  exists rest, sum_words data sum = (sum + le_sum data - le_sum rest, rest) /\
    (rest = [] \/ exists b, rest = [b] /\ 0 <= b < 256).
Proof.
  induction data as [|b|b0 b1 data IH] using pair_ind; intros Ho sum Hs Hb; cbn [sum_words].
  - exists []. split; [f_equal; simpl; lia|by left].
  - apply octets_cons in Ho as [? _]. exists [b]. cbn [le_sum].
    split; [f_equal; lia|eauto].
  - cbn [le_sum] in *. rewrite !octets_cons in Ho. destruct Ho as (? & ? & Ho).
    pose proof (le_sum_nonneg _ Ho). unfold load16 in *.
    rewrite wrap_id by cint. destruct (IH Ho (sum + (b0 + 256 * b1))) as (rest & E & Hr); [lia|lia|].
    exists rest. split; [|done]. rewrite E. f_equal. lia.
Qed.

Lemma rest_sum rest : rest = [] \/ (exists b, rest = [b] /\ 0 <= b < 256) ->
  (match rest with b :: _ => b | [] => 0 end) = le_sum rest /\ 0 <= le_sum rest < 256.
Proof. intros [->|(b & -> & ?)]; cbn [le_sum]; lia. Qed.

Lemma chksum_tail data t1 : octets data -> 0 <= t1 < 256 -> 256 * t1 + le_sum data < 2 ^ 32 ->
  (let '(sum, rest) := sum_words data 0 in
   let t0 := match rest with b :: _ => b | [] => 0 end in
   FOLD_U32T (FOLD_U32T (u32 (sum + load16 t0 t1)))) = norm (le_sum data + 256 * t1).
Proof.
  intros Ho Ht Hb. pose proof (le_sum_nonneg _ Ho).
  destruct (sum_words_spec data Ho 0) as (rest & -> & Hr); [lia|lia|].
  destruct (rest_sum rest Hr) as [-> ?]. unfold load16.
  rewrite wrap_id by cint. rewrite fold_twice by cint. f_equal. lia.
Qed.

Lemma standard_chksum_norm addr data : octets data -> Z.of_nat (length data) <= 0x20000 ->
  lwip_standard_chksum addr data = norm (le_sum data).
Proof.
  intros Ho Hl. pose proof (le_sum_nonneg _ Ho). pose proof (le_sum_bound _ Ho).
  assert (le_sum data < 2 ^ 32) as Hb by (cint_pow; Z.div_mod_to_equations; lia).
  unfold lwip_standard_chksum. destruct (odd_address addr); [destruct data as [|b data]|].
  - reflexivity.
  - apply octets_cons in Ho as [? Ho]. pose proof (le_sum_nonneg _ Ho) as Hn.
    pose proof (le_sum_bound _ Ho) as Hb'. cbn [length] in *.
    pose proof (chksum_tail data b Ho ltac:(lia)) as T.
    destruct (sum_words data 0) as [sum rest]. cbv zeta in T |- *. rewrite T by (cint_pow; Z.div_mod_to_equations; lia).
    pose proof (norm_range (le_sum data + 256 * b)).
    rewrite norm_swap by lia. rewrite norm_mul by lia.
    rewrite wrap_id by (pose proof (norm_range (256 * (le_sum data + 256 * b))); cint).
    rewrite le_sum_cons by (by apply octets_cons).
    replace (256 * (le_sum data + 256 * b)) with (65536 * b + 256 * le_sum data) by lia.
    by apply norm_around; lia.
  - pose proof (chksum_tail data 0 Ho ltac:(lia) ltac:(lia)) as T.
    destruct (sum_words data 0) as [sum rest]. cbv zeta in T |- *. rewrite T, Z.add_0_r.
    apply wrap_id. pose proof (norm_range (le_sum data)). cint.
Qed.

(** Version #1. *)
Lemma sum_words_be_spec data : octets data -> forall acc, 0 <= acc ->
  acc + 65535 * ((Z.of_nat (length data) + 1) / 2) < 2 ^ 32 ->
  0 <= sum_words_be data acc < 2 ^ 32 /\
  norm (sum_words_be data acc) = norm (acc + 256 * le_sum data).
Proof.
  induction data as [|b|b0 b1 data IH] using pair_ind; intros Ho acc Ha Hb; cbn [sum_words_be le_sum].
  - split; [|f_equal; lia].
    assert (0 <= (Z.of_nat (length (@nil Z)) + 1) / 2) by (apply Z.div_pos; lia). lia.
  - apply octets_cons in Ho as [? _]. change ((Z.of_nat (length [b]) + 1) / 2) with 1 in Hb.
    rewrite Z.shiftl_mul_pow2, wrap_id by cint. cint_pow. split; [lia|]. f_equal. lia.
  - rewrite !octets_cons in Ho. destruct Ho as (? & ? & Ho). pose proof (le_sum_nonneg _ Ho).
    cbn [length] in Hb.
    replace (Z.of_nat (S (S (length data))) + 1) with (Z.of_nat (length data) + 1 + 1 * 2) in Hb by lia.
    rewrite Z.div_add in Hb by lia.
    assert (0 <= (Z.of_nat (length data) + 1) / 2) by (apply Z.div_pos; lia).
    rewrite lor_shiftl_add by lia. cint_pow. rewrite wrap_id by cint.
    destruct (IH Ho (acc + (b0 * 256 + b1))) as [? E]; [lia|lia|]. split; [done|]. rewrite E.
    unfold load16. replace (acc + 256 * (b0 + 256 * b1 + le_sum data))
      with (65536 * b1 + (acc + 256 * b0 + 256 * le_sum data)) by lia.
    rewrite norm_around by lia. f_equal. lia.
Qed.

Lemma chksum_1_norm data : octets data -> Z.of_nat (length data) < 2 ^ 16 ->
  lwip_standard_chksum_1 data = norm (le_sum data).
Proof.
  intros Ho Hl. unfold lwip_standard_chksum_1. pose proof (le_sum_nonneg _ Ho).
  destruct (sum_words_be_spec data Ho 0) as [Hr E]; [lia|cint_pow; Z.div_mod_to_equations; lia|].
  set (a := sum_words_be data 0) in *. cint_pow.
  assert (0 <= FOLD_U32T a <= 131070) as H1 by (rewrite fold_div; Z.div_mod_to_equations; lia).
  assert ((if Z.land (FOLD_U32T a) 0xffff0000 =? 0 then FOLD_U32T a else FOLD_U32T (FOLD_U32T a))
    = norm a) as ->.
  { rewrite <-(norm_fold a) by lia. destruct (Z.eqb_spec (Z.land (FOLD_U32T a) 0xffff0000) 0) as [Hz|];
      [|by apply fold_once].
    symmetry. apply norm_small. split; [lia|].
    destruct (Z.le_gt_cases (FOLD_U32T a) 65535) as [|Hgt]; [done|]. exfalso.
    assert (Z.testbit (Z.land (FOLD_U32T a) 0xffff0000) 16 = true) as Hb; [|by rewrite Hz in Hb].
    rewrite Z.land_spec. apply andb_true_iff. split; [|done]. apply Z.testbit_true; [lia|].
    cint_pow. replace (FOLD_U32T a / 65536) with 1 by (Z.div_mod_to_equations; lia). done. }
  pose proof (norm_range a). rewrite wrap_id by cint.
  change (lwip_htons (norm a)) with (SWAP_BYTES_IN_WORD (norm a)).
  rewrite norm_swap, norm_mul by lia. rewrite <-norm_mul, E, norm_mul by lia.
  replace (256 * (0 + 256 * le_sum data)) with (65536 * le_sum data + 0) by lia.
  rewrite norm_around by lia. f_equal. lia.
Qed.

(** Version #3. *)
Lemma add_carry_spec sum w : 0 <= sum < 2 ^ 32 -> 0 <= w < 2 ^ 32 ->
  0 <= add_carry sum w < 2 ^ 32 /\ norm (add_carry sum w) = norm (sum + w).
Proof.
  intros Hs Hw. unfold add_carry. cint_pow.
  destruct (Z.lt_ge_cases (sum + w) 4294967296) as [Hlt|Hge].
  - rewrite wrap_id by cint. rewrite (proj2 (Z.ltb_ge _ _)) by lia. split; [lia|done].
  - assert (u32 (sum + w) = sum + w - 4294967296) as ->.
    { unfold wrap. cint_pow. symmetry. apply (Z.mod_unique _ _ 1); lia. }
    rewrite (proj2 (Z.ltb_lt _ _)), wrap_id by cint. split; [lia|].
    apply norm_eq; [lia|lia| |lia].
    replace (sum + w) with (sum + w - 4294967296 + 1 + 65537 * 65535) at 2 by lia.
    by rewrite Z.mod_add.
Qed.

Lemma load32_words a0 a1 a2 a3 : octets [a0; a1; a2; a3] ->
  0 <= load32 a0 a1 a2 a3 < 2 ^ 32 /\
  forall x, 0 <= x -> norm (x + load32 a0 a1 a2 a3) = norm (x + load16 a0 a1 + load16 a2 a3).
Proof.
  rewrite !octets_cons. intros (? & ? & ? & ? & _). unfold load32, load16. cint_pow. split; [lia|].
  intros x Hx. replace (x + (a0 + 256 * a1 + 65536 * a2 + 16777216 * a3))
    with (65536 * (a2 + 256 * a3) + (x + (a0 + 256 * a1))) by lia.
  rewrite norm_around by lia. f_equal. lia.
Qed.

Lemma sum_longs_spec n : forall data sum, (length data <= n)%nat -> octets data -> 0 <= sum < 2 ^ 32 ->
  exists sum' rest, sum_longs data sum = (sum', rest) /\ 0 <= sum' < 2 ^ 32 /\
    (length rest < 8)%nat /\ octets rest /\
    forall x, 0 <= x -> norm (x + sum' + le_sum rest) = norm (x + sum + le_sum data).
Proof.
  induction n as [|n IH]; intros data sum Hn Ho Hs.
  { destruct data; [|simpl in Hn; lia]. exists sum, []. eauto with lia. }
  destruct data as [|a0 [|a1 [|a2 [|a3 [|b0 [|b1 [|b2 [|b3 data]]]]]]]];
    try (eexists sum, _; split; [reflexivity|]; simpl; eauto with lia).
  rewrite !octets_cons in Ho. destruct Ho as (? & ? & ? & ? & ? & ? & ? & ? & Ho).
  cbn [sum_longs].
  destruct (load32_words a0 a1 a2 a3) as [Ra Na]; [repeat (apply octets_cons; split; [done|]); constructor|].
  destruct (load32_words b0 b1 b2 b3) as [Rb Nb]; [repeat (apply octets_cons; split; [done|]); constructor|].
  destruct (add_carry_spec sum (load32 a0 a1 a2 a3) Hs Ra) as [R1 N1].
  destruct (add_carry_spec (add_carry sum (load32 a0 a1 a2 a3)) (load32 b0 b1 b2 b3) R1 Rb) as [R2 N2].
  destruct (IH data _ ltac:(simpl in Hn; lia) Ho R2) as (s' & rest & E & R & L & Or & N).
  exists s', rest. split; [done|]. split; [done|]. split; [done|]. split; [done|].
  intros x Hx. rewrite N by done. pose proof (le_sum_nonneg _ Ho).
  change (le_sum (a0 :: a1 :: a2 :: a3 :: b0 :: b1 :: b2 :: b3 :: data)) with
    (load16 a0 a1 + (load16 a2 a3 + (load16 b0 b1 + (load16 b2 b3 + le_sum data)))).
  set (y := x + le_sum data).
  replace (x + add_carry (add_carry sum (load32 a0 a1 a2 a3)) (load32 b0 b1 b2 b3) + le_sum data)
    with (add_carry (add_carry sum (load32 a0 a1 a2 a3)) (load32 b0 b1 b2 b3) + y) by lia.
  rewrite <-norm_add, N2, norm_add by lia.
  replace (add_carry sum (load32 a0 a1 a2 a3) + load32 b0 b1 b2 b3 + y)
    with (add_carry sum (load32 a0 a1 a2 a3) + (load32 b0 b1 b2 b3 + y)) by lia.
  rewrite <-norm_add, N1, norm_add by lia.
  replace (sum + load32 a0 a1 a2 a3 + (load32 b0 b1 b2 b3 + y))
    with (sum + load32 a0 a1 a2 a3 + y + load32 b0 b1 b2 b3) by lia.
  rewrite Nb by lia.
  replace (sum + load32 a0 a1 a2 a3 + y + load16 b0 b1 + load16 b2 b3)
    with (sum + y + load16 b0 b1 + load16 b2 b3 + load32 a0 a1 a2 a3) by lia.
  rewrite Na by (unfold load16; lia). f_equal. lia.
Qed.

(** What version #3 does from the long words on. *)
Lemma chksum_3_tail data sum t1 : octets data -> 0 <= sum < 65536 -> 0 <= t1 < 256 ->
  (let '(sum, data) := sum_longs data sum in
   let '(sum, rest) := sum_words data (FOLD_U32T sum) in
   let t0 := match rest with b :: _ => b | [] => 0 end in
   FOLD_U32T (FOLD_U32T (u32 (sum + load16 t0 t1)))) = norm (sum + le_sum data + 256 * t1).
Proof.
  intros Ho Hs Ht.
  destruct (sum_longs_spec (length data) data sum) as (s' & d' & -> & R & L & Od & N); [done|done|cint|].
  assert (0 <= FOLD_U32T s' <= 131070) as H1 by (rewrite fold_div; cint_pow; Z.div_mod_to_equations; lia).
  pose proof (le_sum_nonneg _ Od). pose proof (le_sum_bound _ Od).
  assert (le_sum d' <= 65535 * 4) by (Z.div_mod_to_equations; lia).
  destruct (sum_words_spec d' Od (FOLD_U32T s')) as (rest & -> & Hr); [lia|cint|].
  destruct (rest_sum rest Hr) as [-> ?]. unfold load16. rewrite wrap_id by cint. rewrite fold_twice by cint.
  replace (FOLD_U32T s' + le_sum d' - le_sum rest + (le_sum rest + 256 * t1))
    with (FOLD_U32T s' + (256 * t1 + le_sum d')) by lia.
  rewrite <-norm_add, norm_fold, norm_add by lia.
  replace (s' + (256 * t1 + le_sum d')) with (256 * t1 + s' + le_sum d') by lia.
  rewrite N by lia. f_equal. lia.
Qed.

Lemma chksum_3_norm addr data : octets data -> lwip_standard_chksum_3 addr data = norm (le_sum data).
Proof.
  intros Ho. pose proof (le_sum_nonneg _ Ho). unfold lwip_standard_chksum_3.
  assert (forall a d t1, octets d -> 0 <= t1 < 256 ->
    (let '(sum, d2) := match negb (Z.land a 3 =? 0), d with
                      | true, b0 :: b1 :: d2 => (load16 b0 b1, d2)
                      | _, _ => (0, d)
                      end in
     let '(sum, d2) := sum_longs d2 sum in
     let '(sum, rest) := sum_words d2 (FOLD_U32T sum) in
     let t0 := match rest with b :: _ => b | [] => 0 end in
     FOLD_U32T (FOLD_U32T (u32 (sum + load16 t0 t1)))) = norm (le_sum d + 256 * t1)) as T.
  { intros a d t1 Od Ht1. destruct (negb (Z.land a 3 =? 0));
      [destruct d as [|b0 [|b1 d]]|]; rewrite chksum_3_tail; try done; try lia.
    - rewrite !octets_cons in Od. by destruct Od as (? & ? & ?).
    - rewrite !octets_cons in Od. destruct Od as (? & ? & ?). unfold load16. lia. }
  destruct (odd_address addr); [destruct data as [|b data]|].
  - specialize (T addr [] 0 Ho ltac:(lia)). revert T.
    repeat case_match; intros T; cbv zeta in *; simplify_eq; rewrite T; reflexivity.
  - apply octets_cons in Ho as [? Ho]. pose proof (le_sum_nonneg _ Ho).
    specialize (T (addr + 1) data b Ho ltac:(lia)). revert T.
    destruct (match negb (Z.land (addr + 1) 3 =? 0), data with
              | true, b0 :: b1 :: d2 => (load16 b0 b1, d2) | _, _ => (0, data) end) as [u d2].
    destruct (sum_longs d2 u) as [u2 d3]. destruct (sum_words d3 (FOLD_U32T u2)) as [u3 rest].
    cbv zeta. intros ->. pose proof (norm_range (le_sum data + 256 * b)).
    rewrite norm_swap, norm_mul by lia.
    rewrite wrap_id by (pose proof (norm_range (256 * (le_sum data + 256 * b))); cint).
    rewrite le_sum_cons by (by apply octets_cons).
    replace (256 * (le_sum data + 256 * b)) with (65536 * b + 256 * le_sum data) by lia.
    by apply norm_around; lia.
  - specialize (T addr data 0 Ho ltac:(lia)). revert T.
    destruct (match negb (Z.land addr 3 =? 0), data with
              | true, b0 :: b1 :: d2 => (load16 b0 b1, d2) | _, _ => (0, data) end) as [u d2].
    destruct (sum_longs d2 u) as [u2 d3]. destruct (sum_words d3 (FOLD_U32T u2)) as [u3 rest].
    cbv zeta. intros ->. rewrite Z.add_0_r. apply wrap_id. pose proof (norm_range (le_sum data)). cint.
Qed.

(** ** Chains *)

(** How often the running sum is turned: [swapped] as a factor. *)
Definition turn (swapped : Z) : Z := if swapped =? 0 then 1 else 256.

(** [acc] and [swapped] stand for the sum [x]. *)
Definition rep (acc swapped x : Z) : Prop :=
  (swapped = 0 \/ swapped = 1) /\ 0 <= x /\ acc = norm (turn swapped * x).

Lemma turn_square sw x y : 0 <= x -> 0 <= y -> norm (turn sw * (turn sw * x) + y) = norm (x + y).
Proof.
  intros Hx Hy. unfold turn. destruct (sw =? 0); [f_equal; lia|].
  replace (256 * (256 * x) + y) with (65536 * x + y) by lia. by apply norm_around.
Qed.

Lemma rep_ext acc sw x y : rep acc sw x -> norm x = norm y -> 0 <= y -> rep acc sw y.
Proof.
  intros (Hs & Hx & ->) E Hy. split; [done|]. split; [done|].
  assert (0 < turn sw) by (unfold turn; case_match; lia).
  by rewrite <-norm_mul, E, norm_mul by lia.
Qed.

Lemma rep_add acc sw x y : rep acc sw x -> 0 <= y ->
  rep (FOLD_U32T (u32 (acc + norm y))) sw (x + turn sw * y).
Proof.
  intros (Hs & Hx & ->) Hy. pose proof (norm_range (turn sw * x)). pose proof (norm_range y).
  assert (0 < turn sw) by (unfold turn; case_match; lia).
  rewrite wrap_id by cint. rewrite fold_once by lia. split; [done|]. split; [nia|].
  rewrite norm_add, Z.add_comm, norm_add by nia.
  replace (turn sw * (x + turn sw * y)) with (turn sw * (turn sw * y) + turn sw * x) by lia.
  rewrite turn_square by nia. done.
Qed.

Lemma rep_swap acc sw x : rep acc sw x -> rep (SWAP_BYTES_IN_WORD acc) (u8 (1 - sw)) x.
Proof.
  intros (Hs & Hx & ->). pose proof (norm_range (turn sw * x)).
  rewrite norm_swap by lia. destruct Hs as [-> | ->]; cbn [turn Z.eqb] in *.
  - split; [by right|]. split; [done|]. rewrite norm_mul by lia. change (turn (u8 (1 - 0))) with 256. f_equal. lia.
  - split; [by left|]. split; [done|]. change (turn 1) with 256. change (turn (u8 (1 - 1))) with 1.
    rewrite norm_mul by lia. replace (256 * (256 * x)) with (65536 * x + 0) by lia.
    rewrite norm_around by lia. f_equal. lia.
Qed.

Lemma rep_final acc sw x : rep acc sw x -> (if sw =? 0 then acc else SWAP_BYTES_IN_WORD acc) = norm x.
Proof.
  intros H. pose proof (rep_swap _ _ _ H) as H'. destruct H as ([-> | ->] & ? & E), H' as (_ & _ & E').
  - rewrite E. cbn. f_equal. lia.
  - change (1 =? 0) with false. cbv iota. rewrite E'. change (turn (u8 (1 - 1))) with 1. f_equal. lia.
Qed.

Definition parity (l : list Z) : Z := if Nat.even (length l) then 0 else 1.

Lemma parity_app x y : parity (x ++ y) = if Nat.even (length y) then parity x else u8 (1 - parity x).
Proof.
  unfold parity. rewrite length_app, Nat.even_add.
  by destruct (Nat.even (length x)), (Nat.even (length y)).
Qed.

Lemma turn_parity x : turn (parity x) = if Nat.even (length x) then 1 else 256.
Proof. unfold parity. by destruct (Nat.even (length x)). Qed.

Lemma rep_app acc pre r : rep acc (parity pre) (le_sum pre) -> octets pre -> octets r ->
  rep (FOLD_U32T (u32 (acc + norm (le_sum r)))) (parity pre) (le_sum (pre ++ r)).
Proof.
  intros H Hp Hr. eapply rep_ext; [apply (rep_add _ _ _ (le_sum r) H); by apply le_sum_nonneg| |].
  - by rewrite le_sum_app, turn_parity by done.
  - apply le_sum_nonneg. by apply Forall_app.
Qed.

Lemma rem_even n m a : 0 <= n -> (Z.rem n 2 =? 0) = Nat.even (length (read_bytes m a n)).
Proof.
  intros Hn. rewrite read_bytes_length, Z.rem_mod_nonneg by lia.
  destruct (Nat.even (Z.to_nat n)) eqn:E.
  - apply Nat.even_spec in E as [k E]. apply Z.eqb_eq. Z.div_mod_to_equations. lia.
  - rewrite <-Nat.negb_odd in E. apply negb_false_iff, Nat.odd_spec in E as [k E].
    apply Z.eqb_neq. Z.div_mod_to_equations. lia.
Qed.

Section ChainCorrect.
Context {A : Type}.
Implicit Types s : pstate A.

Lemma chksum_loop_spec s l : forall fuel q acc pre, (length l < fuel)%nat -> chain (bufs s) q l 0 ->
  tot_ok l -> octets (contents (bytes s) l) -> octets pre -> rep acc (parity pre) (le_sum pre) ->
  exists acc' sw', chksum_loop fuel q acc (parity pre) s = Some (acc', sw') /\
    rep acc' sw' (le_sum (pre ++ contents (bytes s) l)).
Proof.
  induction l as [|[a b] l IH]; intros fuel q acc pre Hf Hc Hok Ho Hp Hr;
    (destruct fuel as [|fuel]; [simpl in Hf; lia|]); cbn [chksum_loop].
  { cbn [chain] in Hc. subst q. rewrite Z.eqb_refl. eexists _, _. split; [done|].
    change (contents (bytes s) []) with (@nil Z). by rewrite app_nil_r. }
  destruct Hc as (-> & Hnz & E & Hc). cbn [tot_ok] in Hok. destruct Hok as (Ht & Hlen & Hb & Hok).
  pose proof (tot_nonneg _ Hok).
  rewrite (proj2 (Z.eqb_neq a 0)), (E : get a s = _) by done. cbn [mbind option_bind].
  rewrite contents_cons in *. set (r := read_bytes (bytes s) (payload b) (len b)) in *.
  apply Forall_app in Ho as [Hor Ho].
  rewrite standard_chksum_norm by (try done; unfold r; rewrite read_bytes_length; cint).
  pose proof (rep_app acc pre r Hr Hp Hor) as Hr'.
  assert (octets (pre ++ r)) as Hpr by (by apply Forall_app).
  rewrite (rem_even (len b) (bytes s) (payload b) Hlen). fold r.
  rewrite app_assoc. pose proof (parity_app pre r) as Epar. destruct (Nat.even (length r)).
  - rewrite <-Epar in *. apply (IH fuel (next b) _ (pre ++ r)); try done. simpl in Hf. lia.
  - rewrite <-Epar. apply (IH fuel (next b) _ (pre ++ r)); try done; [simpl in Hf; lia|].
    rewrite Epar. by apply rep_swap.
Qed.

Lemma partial_loop_spec s l : forall fuel q acc pre n, (length l < fuel)%nat -> chain (bufs s) q l 0 ->
  tot_ok l -> octets (contents (bytes s) l) -> octets pre -> rep acc (parity pre) (le_sum pre) ->
  0 <= n < 2 ^ 16 ->
  exists acc' sw', chksum_partial_loop fuel q acc (parity pre) n s = Some (acc', sw') /\
    rep acc' sw' (le_sum (pre ++ take (Z.to_nat n) (contents (bytes s) l))).
Proof.
  induction l as [|[a b] l IH]; intros fuel q acc pre n Hf Hc Hok Ho Hp Hr Hn;
    (destruct fuel as [|fuel]; [simpl in Hf; lia|]); cbn [chksum_partial_loop].
  { cbn [chain] in Hc. subst q. rewrite Z.eqb_refl. eexists _, _. split; [done|].
    change (contents (bytes s) []) with (@nil Z). by rewrite take_nil, app_nil_r. }
  destruct (Z.leb_spec n 0) as [Hn0|Hn0].
  { rewrite orb_true_r. eexists _, _. split; [done|]. replace (Z.to_nat n) with 0%nat by lia.
    by rewrite take_0, app_nil_r. }
  destruct Hc as (-> & Hnz & E & Hc). cbn [tot_ok] in Hok. destruct Hok as (Ht & Hlen & Hb & Hok).
  pose proof (tot_nonneg _ Hok).
  rewrite (proj2 (Z.eqb_neq a 0)), (E : get a s = _) by done. cbn [orb mbind option_bind].
  set (k := if n <? len b then n else len b).
  assert (k = Z.min n (len b)) as Hk by (unfold k; destruct (Z.ltb_spec n (len b)); lia).
  clearbody k. rewrite (wrap_id 16 (n - k)) by cint.
  rewrite contents_cons in *. apply Forall_app in Ho as [Hor Ho].
  set (r := read_bytes (bytes s) (payload b) k) in *.
  assert (r = take (Z.to_nat k) (read_bytes (bytes s) (payload b) (len b))) as Er
    by (apply read_bytes_take; lia).
  assert (octets r) as Hor' by (rewrite Er; by apply Forall_take).
  rewrite standard_chksum_norm by (try done; unfold r; rewrite read_bytes_length; cint).
  pose proof (rep_app acc pre r Hr Hp Hor') as Hr'.
  assert (octets (pre ++ r)) as Hpr by (by apply Forall_app).
  destruct (Z.le_gt_cases n (len b)) as [Hle|Hgt].
  - (* the last pbuf: the sum is complete *)
    assert (take (Z.to_nat n) (read_bytes (bytes s) (payload b) (len b) ++ contents (bytes s) l) = r) as ->.
    { rewrite take_app_le by (rewrite read_bytes_length; lia). rewrite Er. f_equal. lia. }
    replace (n - k) with 0 by lia.
    assert (forall acc' sw', chksum_partial_loop fuel (next b) acc' sw' 0 s = Some (acc', sw')) as Hend.
    { intros. destruct fuel; [simpl in Hf; lia|]. cbn [chksum_partial_loop]. by rewrite orb_true_r. }
    destruct (Z.rem (len b) 2 =? 0); rewrite Hend; eexists _, _; (split; [done|]); [done|by apply rep_swap].
  - assert (k = len b) as Hk2 by lia. clear Hk. subst k.
    rewrite (rem_even (len b) (bytes s) (payload b) Hlen). fold r.
    assert (length r = Z.to_nat (len b)) as Lr by apply read_bytes_length.
    rewrite take_app_ge by lia.
    replace (Z.to_nat n - length r)%nat with (Z.to_nat (n - len b)) by lia.
    rewrite app_assoc. pose proof (parity_app pre r) as Epar. destruct (Nat.even (length r)).
    + rewrite <-Epar in *. apply (IH fuel (next b) _ (pre ++ r)); try done; [simpl in Hf; lia|lia].
    + rewrite <-Epar. apply (IH fuel (next b) _ (pre ++ r)); try done; [simpl in Hf; lia| |lia].
      rewrite Epar. by apply rep_swap.
Qed.

End ChainCorrect.

(** ** Properties *)

Lemma lnot_u16 x : 0 <= x <= 65535 -> u16 (Z.lnot x) = 65535 - x.
Proof.
  intros H. unfold wrap, Z.lnot, Z.pred. symmetry. apply (Z.mod_unique _ _ (-1)); lia.
Qed.

Lemma chain_chksum {A} (s : pstate A) p l : chain (bufs s) p l 0 -> tot_ok l ->
  octets (contents (bytes s) l) ->
  exists acc sw, chksum_loop (chain_fuel s) p 0 0 s = Some (acc, sw) /\
    (if sw =? 0 then acc else SWAP_BYTES_IN_WORD acc) = norm (le_sum (contents (bytes s) l)).
Proof.
  intros Hc Hok Ho. pose proof (chain_size _ _ _ Hc).
  destruct (chksum_loop_spec s l (chain_fuel s) p 0 []) as (acc & sw & E & R);
    [unfold chain_fuel; lia|done|done|done|apply Forall_nil_2|split; [by left|done]|].
  exists acc, sw. split; [exact E|]. by apply rep_final.
Qed.

(** The sum ends, whatever the memory holds. *)
Lemma chksum_loop_total {A} (s : pstate A) l : forall fuel p acc sw, (length l < fuel)%nat -> chain (bufs s) p l 0 ->
  is_Some (chksum_loop fuel p acc sw s).
Proof.
  induction l as [|[a b] l IH]; intros [|fuel] p acc sw Hf Hc; [lia| |lia|]; cbn [chksum_loop].
  - cbn [chain] in Hc. subst p. by eexists.
  - destruct Hc as (-> & Hz & E & Hc). rewrite (proj2 (Z.eqb_neq a 0)), (E : get a s = _) by done. cbn [mbind option_bind].
    cbn [length] in Hf. destruct (_ =? 0); apply IH; (lia || done).
Qed.

Lemma chksum_pbuf_total {A} (s : pstate A) p l : chain (bufs s) p l 0 -> is_Some (inet_chksum_pbuf p s).
Proof.
  intros Hc. unfold inet_chksum_pbuf. pose proof (chain_size _ _ _ Hc).
  destruct (chksum_loop_total s l (chain_fuel s) p 0 0 ltac:(unfold chain_fuel; lia) Hc) as ([acc sw] & ->). by eexists.
Qed.

(** The pseudo header as it would stand in a packet: addresses, zero, protocol
    and length, in network byte order. *)
Definition addr_bytes (a : Z) : list Z := [a mod 256; a / 256 mod 256; a / 65536 mod 256; a / 16777216].
Definition pseudo_header (src dest proto proto_len : Z) : list Z :=
  addr_bytes src ++ addr_bytes dest ++ [0; proto; proto_len / 256; proto_len mod 256].

Lemma htons_swap n : lwip_htons n = SWAP_BYTES_IN_WORD n.
Proof. done. Qed.

Lemma add_pseudo_spec x src dest proto proto_len : 0 <= x -> in_u 32 src -> in_u 32 dest ->
  in_u 8 proto -> in_u 16 proto_len ->
  add_pseudo (norm x) src dest proto proto_len
  = 65535 - norm (le_sum (pseudo_header src dest proto proto_len) + x).
Proof.
  intros Hx Hs Hd Hp Hl. unfold add_pseudo, pseudo_header, addr_bytes.
  rewrite !htons_swap, !swap_div, !land_ffff, !Z.shiftr_div_pow2 by lia.
  cbn [app le_sum]. unfold load16. unfold in_u in *. cint_pow. change (2 ^ 16) with 65536 in *.
  rewrite (wrap_id 16 proto) by cint.
  pose proof (norm_range x).
  set (w1 := src mod 65536). set (w2 := src / 65536 mod 65536).
  set (w3 := dest mod 65536). set (w4 := dest / 65536 mod 65536).
  set (w5 := proto mod 256 * 256 + proto / 256 mod 256).
  set (w6 := proto_len mod 256 * 256 + proto_len / 256 mod 256).
  assert (0 <= w1 < 65536 /\ 0 <= w2 < 65536 /\ 0 <= w3 < 65536 /\ 0 <= w4 < 65536) as (? & ? & ? & ?)
    by (unfold w1, w2, w3, w4; repeat split; apply Z.mod_pos_bound; lia).
  assert (0 <= w5 < 65536) by (unfold w5; Z.div_mod_to_equations; lia).
  assert (0 <= w6 < 65536) by (unfold w6; Z.div_mod_to_equations; lia).
  assert (forall a w, 0 <= a < 1000000 -> 0 <= w < 65536 -> u32 (a + w) = a + w) as U
    by (intros; apply wrap_id; cint).
  rewrite (U (norm x) w1), (U _ w2), (U _ w3), (U _ w4), (U _ w5), (U _ w6) by lia.
  rewrite fold_twice by cint.
  rewrite Z.mod_small by (pose proof (norm_range (norm x + w1 + w2 + w3 + w4 + w5 + w6)); lia).
  rewrite lnot_u16 by apply norm_range. f_equal.
  replace (norm x + w1 + w2 + w3 + w4 + w5 + w6) with (norm x + (w1 + w2 + w3 + w4 + w5 + w6)) by lia.
  rewrite norm_add by lia. f_equal.
  unfold w1, w2, w3, w4, w5, w6. Z.div_mod_to_equations. lia.
Qed.

Lemma htonl_bytes n : in_u 32 n ->
  lwip_htonl n = n mod 256 * 16777216 + n / 256 mod 256 * 65536 + n / 65536 mod 256 * 256 + n / 16777216.
Proof.
  intros Hn. unfold lwip_htonl.
  change 0xff with (Z.ones 8). rewrite !Z.land_ones by lia.
  assert (Z.shiftl (Z.land n 0xff00) 8 = Z.shiftl (n / 256 mod 256) 16) as ->.
  { change 0xff00 with (Z.shiftl (Z.ones 8) 8). rewrite <-(Z.shiftl_shiftl _ 8 8) by lia. f_equal.
    replace (n / 256 mod 256) with (Z.land (n / 256) (Z.ones 8)) by (by rewrite Z.land_ones).
    rewrite Z.shiftl_land.
    change (n / 256) with (n / 2 ^ 8). rewrite <-Z.shiftr_div_pow2 by lia.
    apply Z.bits_inj'. intros i Hi. rewrite !Z.land_spec, !(Z.shiftl_spec _ _ i) by lia.
    destruct (Z.lt_ge_cases i 8).
    - rewrite (Z.testbit_neg_r (Z.ones 8)) by lia. by rewrite !andb_false_r.
    - rewrite Z.shiftr_spec by lia. do 2 f_equal. lia. }
  assert (Z.shiftr (Z.land n 0xff0000) 8 = Z.shiftl (n / 65536 mod 256) 8) as ->.
  { rewrite Z.shiftr_land. change (Z.shiftr 0xff0000 8) with (Z.shiftl (Z.ones 8) 8).
    replace (n / 65536 mod 256) with (Z.land (n / 65536) (Z.ones 8)) by (by rewrite Z.land_ones).
    rewrite Z.shiftl_land.
    change (n / 65536) with (n / 2 ^ 16). rewrite <-Z.shiftr_div_pow2 by lia.
    apply Z.bits_inj'. intros i Hi. rewrite !Z.land_spec, !(Z.shiftl_spec _ _ i), Z.shiftr_spec by lia.
    destruct (Z.lt_ge_cases i 8).
    - rewrite (Z.testbit_neg_r (Z.ones 8)) by lia. by rewrite !andb_false_r.
    - rewrite Z.shiftr_spec by lia. do 2 f_equal. lia. }
  rewrite Z.shiftr_land. change (Z.shiftr 0xff000000 24) with (Z.ones 8).
  rewrite Z.land_ones, Z.shiftr_div_pow2 by lia. unfold in_u in Hn. cint_pow.
  rewrite (Z.mod_small (n / 16777216)) by (Z.div_mod_to_equations; lia).
  pose proof (Z.mod_pos_bound n 256 ltac:(lia)). pose proof (Z.mod_pos_bound (n / 256) 256 ltac:(lia)).
  pose proof (Z.mod_pos_bound (n / 65536) 256 ltac:(lia)).
  assert (0 <= n / 16777216 < 256) by (Z.div_mod_to_equations; lia).
  rewrite <-!Z.lor_assoc, (lor_shiftl_add _ (n / 16777216)) by (cint_pow; lia).
  cint_pow. rewrite (lor_shiftl_add _ _ 16) by (cint_pow; lia).
  cint_pow. rewrite (lor_shiftl_add _ _ 24) by (cint_pow; lia). cint_pow. lia.
Qed.

(** A 32-bit number is its four bytes. *)
Definition of_bytes (b0 b1 b2 b3 : Z) : Z := b0 + 256 * b1 + 65536 * b2 + 16777216 * b3.

Lemma addr_bytes_of b0 b1 b2 b3 : octets [b0; b1; b2; b3] ->
  addr_bytes (of_bytes b0 b1 b2 b3) = [b0; b1; b2; b3] /\ in_u 32 (of_bytes b0 b1 b2 b3).
Proof.
  rewrite !octets_cons. intros (? & ? & ? & ? & _). unfold addr_bytes, of_bytes. split; [|cint].
  assert ((b0 + 256 * b1 + 65536 * b2 + 16777216 * b3) / 256 = b1 + 256 * b2 + 65536 * b3) as ->
    by (symmetry; apply (Z.div_unique _ _ _ b0); lia).
  assert ((b0 + 256 * b1 + 65536 * b2 + 16777216 * b3) / 65536 = b2 + 256 * b3) as ->
    by (symmetry; apply (Z.div_unique _ _ _ (b0 + 256 * b1)); lia).
  assert ((b0 + 256 * b1 + 65536 * b2 + 16777216 * b3) / 16777216 = b3) as ->
    by (symmetry; apply (Z.div_unique _ _ _ (b0 + 256 * b1 + 65536 * b2)); lia).
  f_equal; [symmetry; apply (Z.mod_unique _ _ (b1 + 256 * b2 + 65536 * b3)); lia|].
  f_equal; [symmetry; apply (Z.mod_unique _ _ (b2 + 256 * b3)); lia|].
  f_equal. symmetry; apply (Z.mod_unique _ _ b3); lia.
Qed.

Lemma of_addr_bytes n : in_u 32 n -> exists b0 b1 b2 b3, octets [b0; b1; b2; b3] /\ n = of_bytes b0 b1 b2 b3.
Proof.
  intros Hn. exists (n mod 256), (n / 256 mod 256), (n / 65536 mod 256), (n / 16777216).
  pose proof (Z.div_mod n 256 ltac:(lia)) as E0. pose proof (Z.mod_pos_bound n 256 ltac:(lia)).
  pose proof (Z.div_mod (n / 256) 256 ltac:(lia)) as E1. pose proof (Z.mod_pos_bound (n / 256) 256 ltac:(lia)).
  pose proof (Z.div_mod (n / 65536) 256 ltac:(lia)) as E2. pose proof (Z.mod_pos_bound (n / 65536) 256 ltac:(lia)).
  rewrite Z.div_div in E1, E2 by lia. change (256 * 256) with 65536 in E1. change (65536 * 256) with 16777216 in E2.
  unfold in_u in Hn. cint_pow. split; [|unfold of_bytes; lia].
  repeat (apply octets_cons; split; [lia|]). apply Forall_nil_2.
Qed.

Lemma htonl_of_bytes b0 b1 b2 b3 : octets [b0; b1; b2; b3] ->
  lwip_htonl (of_bytes b0 b1 b2 b3) = of_bytes b3 b2 b1 b0.
Proof.
  intros Ho. destruct (addr_bytes_of _ _ _ _ Ho) as [E Hr]. rewrite htonl_bytes by done.
  unfold addr_bytes in E. injection E as -> -> -> ->. unfold of_bytes. lia.
Qed.

Lemma htonl_reverse m : in_u 32 m ->
  lwip_ntohl (lwip_htonl m) = m /\ addr_bytes (lwip_htonl m) = reverse (addr_bytes m).
Proof.
  intros Hm. destruct (of_addr_bytes m Hm) as (b0 & b1 & b2 & b3 & Ho & ->).
  assert (octets [b3; b2; b1; b0]) as Ho'.
  { rewrite !octets_cons in Ho |- *. destruct Ho as (? & ? & ? & ? & ?). done. }
  unfold lwip_ntohl. rewrite !htonl_of_bytes by done. split; [done|].
  by rewrite (proj1 (addr_bytes_of _ _ _ _ Ho)), (proj1 (addr_bytes_of _ _ _ _ Ho')).
Qed.

(** The byte order conversions are inverse to themselves, and
    [lwip_htonl] puts the highest byte of the number at the lowest address. *)
Theorem byte_order_roundtrip n m : in_u 16 n -> in_u 32 m ->
  lwip_ntohs (lwip_htons n) = n /\ lwip_ntohl (lwip_htonl m) = m /\
  addr_bytes (lwip_htonl m) = reverse (addr_bytes m).
Proof.
  intros Hn Hm. split.
  - unfold lwip_ntohs. rewrite !htons_swap, !swap_div. unfold in_u in *. cint_pow.
    clear Hm. Z.div_mod_to_equations. lia.
  - by apply htonl_reverse.
Qed.

Lemma byte_order_roundtrip_witness :
  lwip_ntohs (lwip_htons 0x1234) = 0x1234 /\ lwip_ntohl (lwip_htonl 0xC0A80001) = 0xC0A80001 /\
  addr_bytes (lwip_htonl 0xC0A80001) = reverse (addr_bytes 0xC0A80001).
Proof. apply byte_order_roundtrip; cint. Defined.

(** [lwip_standard_chksum] (version #2) computes the 16-bit one's
    complement sum of the data, wherever the data starts and whatever its
    length up to 0x20000 bytes, without overflow of its 32-bit accumulator. *)
Theorem standard_chksum_correct addr data : octets data -> Z.of_nat (length data) <= 0x20000 ->
  lwip_standard_chksum addr data = norm (le_sum data).
Proof. apply standard_chksum_norm. Qed.

Lemma standard_chksum_correct_witness :
  lwip_standard_chksum 4097 [0x45; 0x00; 0x01] = norm (le_sum [0x45; 0x00; 0x01]).
Proof. apply standard_chksum_correct; [repeat constructor; lia|cbn; lia]. Defined.

(** The three versions of the routine in the file compute the same, for
    every alignment. *)
Theorem chksum_versions_agree addr data : octets data -> Z.of_nat (length data) < 2 ^ 16 ->
  lwip_standard_chksum_1 data = lwip_standard_chksum addr data /\
  lwip_standard_chksum_3 addr data = lwip_standard_chksum addr data.
Proof.
  intros Ho Hl. rewrite chksum_1_norm, chksum_3_norm, standard_chksum_norm by (done || cint). done.
Qed.

Lemma chksum_versions_agree_witness :
  let data := [1; 2; 3; 4; 5; 6; 7; 8; 9; 250; 251; 252; 253] in
  lwip_standard_chksum_1 data = lwip_standard_chksum 4099 data /\
  lwip_standard_chksum_3 4099 data = lwip_standard_chksum 4099 data.
Proof. apply chksum_versions_agree; [repeat constructor; lia|cbn; lia]. Defined.

(** A header in which the field at an even offset is set to the
    checksum computed with the field zero passes the check: the checksum over
    it is 0. *)
Theorem inet_chksum_verifies addr addr' x y : octets x -> octets y -> Nat.even (length x) = true ->
  Z.of_nat (length x + length y + 2) <= 0x20000 ->
  let c := inet_chksum addr (x ++ [0; 0] ++ y) in
  inet_chksum addr' (x ++ [c mod 256; c / 256] ++ y) = 0.
Proof.
  intros Hx Hy He Hl. cbv zeta. unfold inet_chksum.
  assert (forall a b, 0 <= a < 256 -> 0 <= b < 256 -> octets (x ++ [a; b] ++ y)) as Ho.
  { intros a b Ha Hb. apply Forall_app. split; [done|].
    change (octets (a :: b :: y)). by rewrite !octets_cons. }
  assert (forall a b, 0 <= a < 256 -> 0 <= b < 256 ->
    norm (le_sum (x ++ [a; b] ++ y)) = norm (le_sum x + le_sum y + (a + 256 * b))) as Hs.
  { intros a b Ha Hb. specialize (Ho a b Ha Hb). apply Forall_app in Ho as [_ Ho].
    rewrite le_sum_app by done. rewrite He. cbn [app le_sum]. unfold load16. f_equal. lia. }
  rewrite (standard_chksum_norm addr (x ++ [0; 0] ++ y))
    by (try (apply Ho; lia); rewrite !length_app; cbn [length]; lia).
  rewrite (Hs 0 0) by lia. rewrite Z.add_0_r.
  pose proof (le_sum_nonneg _ Hx). pose proof (le_sum_nonneg _ Hy).
  set (S := le_sum x + le_sum y) in *. pose proof (norm_range S).
  rewrite (lnot_u16 (norm S)) by lia. set (c := 65535 - norm S).
  assert (0 <= c mod 256 < 256 /\ 0 <= c / 256 < 256) as [? ?].
  { split; [apply Z.mod_pos_bound; lia|].
    split; [apply Z.div_pos; lia|apply Z.div_lt_upper_bound; lia]. }
  rewrite standard_chksum_norm, Hs
    by (try lia; try (by apply Ho); rewrite !length_app; cbn [length]; lia).
  replace (S + (c mod 256 + 256 * (c / 256))) with (S + c) by (pose proof (Z.div_mod c 256); lia).
  rewrite <-norm_add by lia. replace (norm S + c) with 65535 by lia. done.
Qed.

Lemma inet_chksum_verifies_witness :
  let c := inet_chksum 4096 ([0x45; 0; 0; 0x1c] ++ [0; 0] ++ [192; 168; 0]) in
  inet_chksum 4097 ([0x45; 0; 0; 0x1c] ++ [c mod 256; c / 256] ++ [192; 168; 0]) = 0.
Proof.
  apply (inet_chksum_verifies 4096 4097 [0x45; 0; 0; 0x1c] [192; 168; 0]);
    [repeat constructor; lia|repeat constructor; lia|reflexivity|cbn; lia].
Defined.

(** C33: [inet_chksum_pbuf] of a chain is the checksum of its data as one
    piece: neither the cut into pbufs, of odd lengths too, nor the alignment of
    the pieces matters. *)
Theorem inet_chksum_pbuf_correct {A} (s : pstate A) p l : chain (bufs s) p l 0 -> tot_ok l ->
  octets (contents (bytes s) l) ->
  inet_chksum_pbuf p s = Some (65535 - norm (le_sum (contents (bytes s) l))).
Proof.
  intros Hc Hok Ho. unfold inet_chksum_pbuf.
  destruct (chain_chksum s p l Hc Hok Ho) as (acc & sw & -> & E). cbn [mbind option_bind].
  rewrite E. pose proof (norm_range (le_sum (contents (bytes s) l))).
  by rewrite land_ffff, Z.mod_small, lnot_u16 by lia.
Qed.

(** [inet_chksum_pseudo] is the checksum of the pseudo header
    (addresses, zero, protocol, length) followed by the data of the chain, and
    [inet_chksum_pseudo_partial] that of the pseudo header followed by the
    first [n] bytes of the data. *)
Theorem inet_chksum_pseudo_correct {A} (s : pstate A) p l src dest proto proto_len n :
  chain (bufs s) p l 0 -> tot_ok l -> octets (contents (bytes s) l) ->
  in_u 32 src -> in_u 32 dest -> in_u 8 proto -> in_u 16 proto_len -> in_u 16 n ->
  let c := contents (bytes s) l in
  let h := pseudo_header src dest proto proto_len in
  inet_chksum_pseudo p src dest proto proto_len s = Some (65535 - norm (le_sum (h ++ c))) /\
  inet_chksum_pseudo_partial p src dest proto proto_len n s
  = Some (65535 - norm (le_sum (h ++ take (Z.to_nat n) c))).
Proof.
  intros Hc Hok Ho Hs Hd Hp Hl Hn c h.
  assert (octets h) as Hh.
  { unfold h, pseudo_header. unfold in_u in *. cint_pow. apply Forall_app. split; [|apply Forall_app; split].
    1, 2: unfold addr_bytes; repeat (apply Forall_cons; split; [Z.div_mod_to_equations; lia|]); apply Forall_nil_2.
    repeat (apply Forall_cons; split; [Z.div_mod_to_equations; lia|]); apply Forall_nil_2. }
  assert (forall d, octets d -> norm (le_sum (h ++ d)) = norm (le_sum h + le_sum d)) as Hadd.
  { intros d Hd'. rewrite le_sum_app by done. change (Nat.even (length h)) with true. cbv iota.
    f_equal. lia. }
  assert (octets (take (Z.to_nat n) c)) as Ht by (by apply Forall_take).
  split.
  - unfold inet_chksum_pseudo.
    destruct (chain_chksum s p l Hc Hok Ho) as (acc & sw & -> & E). cbn [mbind option_bind]. rewrite E.
    rewrite add_pseudo_spec, Hadd by (done || by apply le_sum_nonneg). done.
  - unfold inet_chksum_pseudo_partial. pose proof (chain_size _ _ _ Hc).
    destruct (partial_loop_spec s l (chain_fuel s) p 0 [] n) as (acc & sw & E & R);
      [unfold chain_fuel; lia|done|done|done|apply Forall_nil_2|split; [by left|done]|cint|].
    change (parity []) with 0 in E. rewrite E. cbn [mbind option_bind]. rewrite (rep_final _ _ _ R).
    cbn [app]. rewrite add_pseudo_spec, Hadd by (done || by apply le_sum_nonneg). done.
Qed.

(** Two pbufs of 3 and 2 bytes, the second at an odd address. *)
Definition two_bufs : pstate unit :=
  mk_ps tt (<[4096 := mk_pbuf 4160 4112 5 3 PBUF_REF 0 1]> {[4160 := mk_pbuf 0 4177 2 2 PBUF_REF 0 1]})
    (<[4112 := 1]> (<[4113 := 2]> (<[4114 := 3]> (<[4177 := 250]> (<[4178 := 5]> ∅))))) 0.
Definition two_chain : list (Z * pbuf) :=
  [(4096, mk_pbuf 4160 4112 5 3 PBUF_REF 0 1); (4160, mk_pbuf 0 4177 2 2 PBUF_REF 0 1)].

Lemma two_chain_ok : chain (bufs two_bufs) 4096 two_chain 0 /\ tot_ok two_chain /\
  octets (contents (bytes two_bufs) two_chain).
Proof.
  split; [vm_compute; repeat split; discriminate|]. split; [vm_compute; repeat split; discriminate|].
  change (contents (bytes two_bufs) two_chain) with [1; 2; 3; 250; 5]. repeat constructor; lia.
Qed.

Lemma inet_chksum_pbuf_correct_witness :
  inet_chksum_pbuf 4096 two_bufs = Some (65535 - norm (le_sum (contents (bytes two_bufs) two_chain))).
Proof. apply inet_chksum_pbuf_correct; apply two_chain_ok. Defined.

Lemma inet_chksum_pseudo_correct_witness :
  let c := contents (bytes two_bufs) two_chain in
  let h := pseudo_header 0x0100A8C0 0x0200A8C0 17 5 in
  inet_chksum_pseudo 4096 0x0100A8C0 0x0200A8C0 17 5 two_bufs = Some (65535 - norm (le_sum (h ++ c))) /\
  inet_chksum_pseudo_partial 4096 0x0100A8C0 0x0200A8C0 17 5 4 two_bufs
  = Some (65535 - norm (le_sum (h ++ take (Z.to_nat 4) c))).
Proof.
  apply (inet_chksum_pseudo_correct two_bufs 4096 two_chain 0x0100A8C0 0x0200A8C0 17 5 4);
    [apply two_chain_ok..|cint|cint|cint|cint|cint].
Defined.

End Chksum.
