(* ===== verification/IpAddr.v ===== *)
(** * IPv4 addresses (libraries/Ethernet/utility/ip_addr.c)

    Addresses are 32-bit numbers in network byte order, as [ip_addr_t] holds
    them: the first byte of the dotted form is the lowest byte.  Texts are lists
    of character codes without the NUL; reading at the end gives 0. *)
From S2P Require Import Prelude Chksum.

Module IpAddr.
Import Chksum.

Definition IPADDR_ANY : Z := 0x00000000.
Definition IPADDR_NONE : Z := 0xffffffff.
Definition IPADDR_BROADCAST : Z := 0xffffffff.
Definition NETIF_FLAG_BROADCAST : Z := 0x02.

(** The fields of [struct netif] used here. *)
Record netif := mk_netif { ip_addr : Z; netmask : Z; flags : Z }.

Definition ip_addr_netcmp (addr1 addr2 mask : Z) : bool := Z.land addr1 mask =? Z.land addr2 mask.

Definition ip4_addr_isbroadcast (addr : Z) (n : netif) : Z :=
  if (u32 (Z.lnot addr) =? IPADDR_ANY) || (addr =? IPADDR_ANY) then 1
  else if Z.land (flags n) NETIF_FLAG_BROADCAST =? 0 then 0
  else if addr =? ip_addr n then 0
  else if ip_addr_netcmp addr (ip_addr n) (netmask n) &&
          (Z.land addr (u32 (Z.lnot (netmask n))) =? Z.land IPADDR_BROADCAST (u32 (Z.lnot (netmask n))))
  then 1 else 0.

(** The first loop: the mask of the first zero bit, or 0. *)
Fixpoint first_zero (fuel : nat) (mask nm : Z) : Z :=
  match fuel with
  | O => mask
  | S fuel =>
      if mask =? 0 then mask
      else if Z.land nm mask =? 0 then mask
      else first_zero fuel (Z.shiftr mask 1) nm
  end.
(** The second loop: no one from [mask] down. *)
Fixpoint no_ones (fuel : nat) (mask nm : Z) : bool :=
  match fuel with
  | O => true
  | S fuel =>
      if mask =? 0 then true
      else if Z.land nm mask =? 0 then no_ones fuel (Z.shiftr mask 1) nm
      else false
  end.

(** [mask] runs through 2^31, ..., 1, 0: 33 rounds. *)
Definition ip4_addr_netmask_valid (netmask : Z) : Z :=
  let nm_hostorder := lwip_htonl netmask in
  let mask := first_zero 33 (u32 (Z.shiftl 1 31)) nm_hostorder in
  if no_ones 33 mask nm_hostorder then 1 else 0.

(** ** Text to address *)

Definition in_range (c lo up : Z) : bool := (lo <=? c) && (c <=? up).
Definition isdigit (c : Z) : bool := in_range c 48 57.
Definition isxdigit (c : Z) : bool := isdigit c || in_range c 97 102 || in_range c 65 70.
Definition islower (c : Z) : bool := in_range c 97 122.
Definition isspace (c : Z) : bool :=
  (c =? 32) || (c =? 12) || (c =? 10) || (c =? 13) || (c =? 9) || (c =? 11).

(** The inner loop: the digits of a number in [base]. *)
Fixpoint digits (base val : Z) (cp : list Z) : Z * list Z :=
  match cp with
  | c :: rest =>
      if isdigit c then digits base (u32 (val * base + (c - 48))) rest
      else if (base =? 16) && isxdigit c then
        digits base (Z.lor (u32 (Z.shiftl val 4)) (c + 10 - (if islower c then 97 else 65))) rest
      else (val, cp)
  | [] => (val, [])
  end.

(** One number: 0x for hexadecimal, 0 for octal. *)
Definition number (cp : list Z) : option (Z * list Z) :=
  match cp with
  | c :: rest =>
      if negb (isdigit c) then None
      else if c =? 48 then
        match rest with
        | x :: rest' => if (x =? 120) || (x =? 88) then Some (digits 16 0 rest') else Some (digits 8 0 rest)
        | [] => Some (digits 8 0 rest)
        end
      else Some (digits 10 0 cp)
  | [] => None
  end.

(** The outer loop: [free] of the first three slots of [parts] are left.  The
    parts before the last number, that number, and the rest of the text. *)
Fixpoint parts_loop (free : nat) (parts : list Z) (cp : list Z) : option (list Z * Z * list Z) :=
  '(val, cp) ← number cp;
  match cp with
  | 46 :: rest =>
      match free with
      | O => None
      | S free => parts_loop free (parts ++ [val]) rest
      end
  | _ => Some (parts, val, cp)
  end.

(** The address in network order, or [None] for the result 0. *)
Definition ipaddr_aton (cp : list Z) : option Z :=
  '(parts, val, rest) ← parts_loop 3 [] cp;
  let c := match rest with c :: _ => c | [] => 0 end in
  if negb (c =? 0) && negb (isspace c) then None
  else
    match parts with
    | [] => Some (lwip_htonl val)
    | [p0] =>
        if 0xffffff <? val then None
        else Some (lwip_htonl (Z.lor val (u32 (Z.shiftl p0 24))))
    | [p0; p1] =>
        if 0xffff <? val then None
        else Some (lwip_htonl (Z.lor val (Z.lor (u32 (Z.shiftl p0 24)) (u32 (Z.shiftl p1 16)))))
    | [p0; p1; p2] =>
        if 0xff <? val then None
        else Some (lwip_htonl (Z.lor val (Z.lor (Z.lor (u32 (Z.shiftl p0 24)) (u32 (Z.shiftl p1 16)))
                                            (u32 (Z.shiftl p2 8)))))
    | _ => Some (lwip_htonl val)
    end.

Definition ipaddr_addr (cp : list Z) : Z :=
  match ipaddr_aton cp with Some a => a | None => IPADDR_NONE end.

(** ** Address to text *)

(** The digits of [*ap] into [inv], which has room for three; the list is in
    the order they are taken out again. *)
Fixpoint inv_digits (room : nat) (ap : Z) (inv : list Z) : option (list Z) :=
  match room with
  | O => None
  | S room =>
      let inv := 48 + ap mod 10 :: inv in
      let ap := ap / 10 in
      if ap =? 0 then Some inv else inv_digits room ap inv
  end.

(** Characters to [*rp++] while [len] is below [buflen]; [false] when the
    function returns NULL.  [rp] is [buf + len]. *)
Fixpoint put_chars (cs : list Z) (len buflen : Z) (buf : list Z) : option (bool * Z * list Z) :=
  match cs with
  | [] => Some (true, len, buf)
  | c :: cs =>
      if buflen <=? len then Some (false, len + 1, buf)
      else buf ← store_at (Z.to_nat len) [c] buf; put_chars cs (len + 1) buflen buf
  end.

(** The loop over the bytes of [s_addr]. *)
Fixpoint ntoa_loop (ap : list Z) (len buflen : Z) (buf : list Z) : option (bool * Z * list Z) :=
  match ap with
  | [] => Some (true, len, buf)
  | b :: ap =>
      inv ← inv_digits 3 b [];
      '(ok, len, buf) ← put_chars (inv ++ [46]) len buflen buf;
      if ok : bool then ntoa_loop ap len buflen buf else Some (false, len, buf)
  end.

(** The result ([false] for NULL) and the buffer. *)
Definition ipaddr_ntoa_r (addr : Z) (buf : list Z) (buflen : Z) : option (bool * list Z) :=
  '(ok, len, buf) ← ntoa_loop (addr_bytes addr) 0 buflen buf;
  if ok : bool then buf ← store_at (Z.to_nat (len - 1)) [0] buf; Some (true, buf)
  else Some (false, buf).

(** [str] is the static buffer of 16 characters. *)
Definition ipaddr_ntoa (addr : Z) (str : list Z) : option (bool * list Z) := ipaddr_ntoa_r addr str 16.

Example aton_ex : ipaddr_aton [49; 57; 50; 46; 49; 54; 56; 46; 48; 46; 49] = Some (of_bytes 192 168 0 1).
Proof. reflexivity. Qed.

(** ** Printing and reading bytes *)

(** A byte as [ipaddr_ntoa_r] prints it. *)
Definition dec (b : Z) : list Z := default [] (inv_digits 3 b []).

Definition dec_ok (b : Z) : Prop :=
  inv_digits 3 b [] = Some (dec b) /\ (1 <= length (dec b) <= 3)%nat /\
  number (dec b) = Some (b, []) /\ forall r, number (dec b ++ 46 :: r) = Some (b, 46 :: r).

Lemma dec_byte b : 0 <= b < 256 -> dec_ok b.
Proof.
  intros Hb. assert (Forall dec_ok (seqZ 0 256)) as F.
  { let l := eval vm_compute in (seqZ 0 256) in change (Forall dec_ok l).
    repeat (apply Forall_cons; split;
      [unfold dec_ok; split; [vm_compute; reflexivity|]; split; [vm_compute; lia|];
       split; [vm_compute; reflexivity|]; intros r; vm_compute; reflexivity|]).
    apply Forall_nil_2. }
  rewrite Forall_forall in F. apply F, elem_of_seqZ. lia.
Qed.

(** The dotted text. *)
Definition dotted (b0 b1 b2 b3 : Z) : list Z :=
  dec b0 ++ 46 :: dec b1 ++ 46 :: dec b2 ++ 46 :: dec b3.

Lemma parts_step free parts b r : 0 <= b < 256 ->
  parts_loop (S free) parts (dec b ++ 46 :: r) = parts_loop free (parts ++ [b]) r.
Proof.
  intros Hb. destruct (dec_byte b Hb) as (_ & _ & _ & E).
  destruct free; cbn [parts_loop]; rewrite E; reflexivity.
Qed.

Lemma octet_word b0 b1 b2 b3 : octets [b0; b1; b2; b3] ->
  Z.lor b3 (Z.lor (Z.lor (u32 (Z.shiftl b0 24)) (u32 (Z.shiftl b1 16))) (u32 (Z.shiftl b2 8)))
  = of_bytes b3 b2 b1 b0.
Proof.
  rewrite !octets_cons. intros (? & ? & ? & ? & _).
  rewrite !wrap_id by (rewrite Z.shiftl_mul_pow2 by lia; cint).
  rewrite Z.lor_comm, <-!Z.lor_assoc.
  rewrite (lor_shiftl_add b2 b3 8) by (cint_pow; lia). cint_pow.
  rewrite (lor_shiftl_add b1 _ 16) by (cint_pow; lia). cint_pow.
  rewrite (lor_shiftl_add b0 _ 24) by (cint_pow; lia). cint_pow. unfold of_bytes. lia.
Qed.

Lemma aton_dotted b0 b1 b2 b3 : octets [b0; b1; b2; b3] ->
  ipaddr_aton (dotted b0 b1 b2 b3) = Some (of_bytes b0 b1 b2 b3).
Proof.
  intros Ho. pose proof (htonl_of_bytes b3 b2 b1 b0) as Hh.
  pose proof (octet_word _ _ _ _ Ho) as Hw. rewrite !octets_cons in Ho, Hh.
  destruct Ho as (? & ? & ? & ? & Hn). unfold ipaddr_aton, dotted.
  rewrite !parts_step by lia. cbn [parts_loop app].
  destruct (dec_byte b3) as (_ & _ & -> & _); [lia|]. cbn [mbind option_bind].
  change (negb (0 =? 0) && negb (isspace 0)) with false. cbv iota.
  rewrite (proj2 (Z.ltb_ge _ _)) by lia. by rewrite Hw, Hh.
Qed.

Lemma put_chars_spec cs : forall len buflen buf, 0 <= len ->
  len + Z.of_nat (length cs) <= buflen -> buflen <= Z.of_nat (length buf) ->
  put_chars cs len buflen buf = Some (true, len + Z.of_nat (length cs),
    take (Z.to_nat len) buf ++ cs ++ drop (Z.to_nat len + length cs) buf).
Proof.
  induction cs as [|c cs IH]; intros len buflen buf Hl Hb Hbuf; cbn [put_chars length].
  - rewrite Z.add_0_r, Nat.add_0_r. cbn [app]. by rewrite take_drop.
  - cbn [length] in Hb. rewrite (proj2 (Z.leb_gt _ _)) by lia.
    rewrite store_at_Some by (cbn [length]; lia). cbn [mbind option_bind length].
    rewrite IH by (rewrite ?length_app, ?length_take, ?length_drop; cbn [length]; lia).
    do 2 f_equal; [f_equal; lia|].
    rewrite (app_assoc (take (Z.to_nat len) buf) [c]).
    assert (length (take (Z.to_nat len) buf ++ [c]) = Z.to_nat (len + 1)) as L
      by (rewrite length_app, length_take; cbn [length]; lia).
    rewrite take_app_le by lia. rewrite take_ge by lia.
    rewrite drop_app_ge by lia. rewrite L, drop_drop, <-app_assoc. cbn [app]. do 4 f_equal. lia.
Qed.

Lemma put_chars_safe cs : forall len buflen buf, 0 <= len <= buflen -> buflen <= Z.of_nat (length buf) ->
  exists ok len' buf', put_chars cs len buflen buf = Some (ok, len', buf') /\
    length buf' = length buf /\ drop (Z.to_nat buflen) buf' = drop (Z.to_nat buflen) buf /\
    (ok = true -> len <= len' <= buflen /\ len' = len + Z.of_nat (length cs)).
Proof.
  induction cs as [|c cs IH]; intros len buflen buf Hl Hbuf; cbn [put_chars].
  - eexists _, _, _. split; [done|]. split; [done|]. split; [done|]. cbn. lia.
  - destruct (Z.leb_spec buflen len).
    { eexists _, _, _. split; [done|]. split; [done|]. split; [done|]. done. }
    rewrite store_at_Some by (cbn [length]; lia). cbn [mbind option_bind].
    set (b1 := take (Z.to_nat len) buf ++ [c] ++ drop (Z.to_nat len + length [c]) buf).
    assert (length b1 = length buf) as L1
      by (unfold b1; rewrite !length_app, length_take, length_drop; cbn [length]; lia).
    destruct (IH (len + 1) buflen b1) as (ok & len' & b' & E & L & D & H'); [lia|lia|].
    exists ok, len', b'. split; [done|]. split; [lia|]. split; [|intros Hok; specialize (H' Hok); cbn [length]; lia].
    rewrite D. unfold b1. rewrite app_assoc.
    rewrite drop_app_ge by (rewrite length_app, length_take; cbn [length]; lia).
    rewrite length_app, length_take, drop_drop. cbn [length]. f_equal. lia.
Qed.

Lemma ntoa_loop_safe ap : Forall (fun b => 0 <= b < 256) ap -> forall len buflen buf,
  0 <= len <= buflen -> buflen <= Z.of_nat (length buf) ->
  exists ok len' buf', ntoa_loop ap len buflen buf = Some (ok, len', buf') /\
    length buf' = length buf /\ drop (Z.to_nat buflen) buf' = drop (Z.to_nat buflen) buf /\
    (ok = true -> len + Z.of_nat (length ap) <= len' <= buflen).
Proof.
  induction 1 as [|b ap Hb _ IH]; intros len buflen buf Hl Hbuf; cbn [ntoa_loop].
  - eexists _, _, _. split; [done|]. split; [done|]. split; [done|]. cbn. lia.
  - destruct (dec_byte b Hb) as (-> & Ld & _). cbn [mbind option_bind].
    destruct (put_chars_safe (dec b ++ [46]) len buflen buf Hl Hbuf) as (ok & l1 & b1 & -> & L1 & D1 & H1).
    cbn [mbind option_bind]. rewrite length_app in H1. cbn [length] in H1. destruct ok.
    + specialize (H1 eq_refl). destruct (IH l1 buflen b1) as (ok2 & l2 & b2 & E2 & L2 & D2 & H2); [lia|lia|].
      exists ok2, l2, b2. split; [done|]. split; [lia|]. split; [by rewrite D2|].
      intros Hok. specialize (H2 Hok). cbn [length]. lia.
    + eexists _, _, _. split; [done|]. split; [done|]. split; [done|]. done.
Qed.

(** With room for 16 characters the four numbers are written, each followed
    by a dot. *)
Lemma ntoa_loop_spec ap : Forall (fun b => 0 <= b < 256) ap -> forall len buflen buf,
  0 <= len -> len + 4 * Z.of_nat (length ap) <= buflen -> buflen <= Z.of_nat (length buf) ->
  let cs := mjoin ((fun b => dec b ++ [46]) <$> ap) in
  (length cs <= 4 * length ap)%nat /\
  ntoa_loop ap len buflen buf = Some (true, len + Z.of_nat (length cs),
    take (Z.to_nat len) buf ++ cs ++ drop (Z.to_nat len + length cs) buf).
Proof.
  induction 1 as [|b ap Hb _ IH]; intros len buflen buf Hl Hb2 Hbuf; cbv zeta; cbn [ntoa_loop].
  - split; [done|]. cbn. by rewrite Z.add_0_r, Nat.add_0_r, take_drop.
  - rewrite fmap_cons. change (mjoin (?x :: ?y)) with (x ++ mjoin y).
    destruct (dec_byte b Hb) as (-> & Ld & _). cbn [mbind option_bind length] in *.
    assert (length (dec b ++ [46]) = S (length (dec b))) as L1 by (rewrite length_app; simpl; lia).
    rewrite put_chars_spec by (rewrite ?L1; lia). cbn [mbind option_bind].
    set (c1 := dec b ++ [46]) in *.
    set (b1 := take (Z.to_nat len) buf ++ c1 ++ drop (Z.to_nat len + length c1) buf).
    assert (length b1 = length buf) as Lb
      by (unfold b1; rewrite !length_app, length_take, length_drop; lia).
    destruct (IH (len + Z.of_nat (length c1)) buflen b1) as [L2 E2]; [lia|lia|lia|].
    cbv zeta in E2. rewrite E2. set (c2 := mjoin _) in *. rewrite length_app.
    split; [lia|]. do 2 f_equal; [f_equal; lia|].
    assert (store_at (Z.to_nat len) c1 buf = Some b1) as Es by (apply store_at_Some; lia).
    unfold b1. rewrite (app_assoc (take (Z.to_nat len) buf) c1).
    assert (length (take (Z.to_nat len) buf ++ c1) = Z.to_nat (len + Z.of_nat (length c1))) as L3
      by (rewrite length_app, length_take; lia).
    rewrite take_app_le by lia. rewrite take_ge by lia. rewrite drop_app_ge by lia.
    rewrite L3, drop_drop, <-!app_assoc. do 4 f_equal. lia.
Qed.

Lemma addr_bytes_octets a : in_u 32 a -> octets (addr_bytes a).
Proof.
  intros Ha. destruct (of_addr_bytes a Ha) as (b0 & b1 & b2 & b3 & Ho & ->).
  by rewrite (proj1 (addr_bytes_of _ _ _ _ Ho)).
Qed.

(** ** Properties *)

(** C38: [ipaddr_ntoa_r] never writes beyond [buflen] characters of the
    buffer, whatever its length; with 16 characters, as [ipaddr_ntoa] has, it
    succeeds and leaves a NUL-terminated text that [ipaddr_aton] reads back as
    the same address. *)
Theorem ipaddr_text_roundtrip addr buf buflen : in_u 32 addr -> 0 <= buflen <= Z.of_nat (length buf) ->
  exists ok buf', ipaddr_ntoa_r addr buf buflen = Some (ok, buf') /\ length buf' = length buf /\
    drop (Z.to_nat buflen) buf' = drop (Z.to_nat buflen) buf /\
    (16 <= buflen -> ok = true /\ exists text rest, buf' = text ++ 0 :: rest /\
       (length text < 16)%nat /\ ipaddr_aton text = Some addr).
Proof.
  intros Ha Hb. pose proof (addr_bytes_octets addr Ha) as Ho.
  destruct (ntoa_loop_safe (addr_bytes addr) Ho 0 buflen buf) as (ok & len & b1 & E & L & D & H); [lia|lia|].
  unfold ipaddr_ntoa_r. rewrite E. cbn [mbind option_bind].
  assert (exists ok2 b2, (if ok : bool then buf ← store_at (Z.to_nat (len - 1)) [0] b1; Some (true, buf)
      else Some (false, b1)) = Some (ok2, b2) /\ length b2 = length buf /\
      drop (Z.to_nat buflen) b2 = drop (Z.to_nat buflen) buf) as (ok2 & b2 & E2 & L2 & D2).
  { destruct ok; [|eauto]. specialize (H eq_refl). cbn [length addr_bytes] in H.
    rewrite store_at_Some by (cbn [length]; lia). cbn [mbind option_bind].
    eexists _, _. split; [done|]. rewrite !length_app, length_take, length_drop. cbn [length].
    split; [lia|]. rewrite app_assoc, drop_app_ge by (rewrite length_app, length_take; cbn [length]; lia).
    rewrite length_app, length_take, drop_drop. cbn [length]. rewrite <-D. f_equal. lia. }
  exists ok2, b2. split; [done|]. split; [done|]. split; [done|]. intros H16.
  destruct (ntoa_loop_spec (addr_bytes addr) Ho 0 buflen buf) as [Lc E3]; [lia|cbn [length addr_bytes]; lia|lia|].
  destruct (of_addr_bytes addr Ha) as (c0 & c1 & c2 & c3 & Hc & ->).
  rewrite (proj1 (addr_bytes_of _ _ _ _ Hc)) in *. cbv zeta in E3. rewrite E3 in E. simplify_eq.
  assert (mjoin ((fun b => dec b ++ [46]) <$> [c0; c1; c2; c3]) = dotted c0 c1 c2 c3 ++ [46]) as Ecs.
  { unfold dotted. cbn. rewrite app_nil_r, <-!app_assoc. cbn. rewrite <-!app_assoc. cbn.
    by rewrite <-!app_assoc. }
  rewrite Ecs in Lc, E2. clear Ecs. set (text := dotted c0 c1 c2 c3) in *.
  assert (length (text ++ [46]) = (length text + 1)%nat) as Lt by apply length_app.
  rewrite Lt in Lc, E2. cbn [length] in Lc.
  rewrite take_0 in E2. cbn [app] in E2. rewrite <-!app_assoc in E2.
  assert (store_at (Z.to_nat (0 + Z.of_nat (length text + 1) - 1)) [0]
     (text ++ [46] ++ drop (Z.to_nat 0 + (length text + 1)) buf)
     = Some (text ++ [0] ++ drop (length text + 1) buf)) as Es.
  { replace (Z.to_nat (0 + Z.of_nat (length text + 1) - 1)) with (length text) by lia.
    rewrite store_at_Some by (rewrite !length_app; cbn [length]; lia).
    rewrite take_app_le, take_ge by lia. cbn [length].
    rewrite drop_app_add. done. }
  rewrite Es in E2. cbn [mbind option_bind] in E2. simplify_eq. split; [done|].
  exists text, (drop (length text + 1) buf). split; [done|]. split; [lia|]. by apply aton_dotted.
Qed.

Lemma ipaddr_text_roundtrip_witness :
  exists ok buf', ipaddr_ntoa_r 0x0100A8C0 (repeat 7 20) 16 = Some (ok, buf') /\ length buf' = length (repeat 7 20) /\
    drop (Z.to_nat 16) buf' = drop (Z.to_nat 16) (repeat 7 20) /\
    (16 <= 16 -> ok = true /\ exists text rest, buf' = text ++ 0 :: rest /\
       (length text < 16)%nat /\ ipaddr_aton text = Some 0x0100A8C0).
Proof. apply ipaddr_text_roundtrip; [cint|cbn; lia]. Defined.

Lemma land_pow2_zero nm i : 0 <= i -> (Z.land nm (2 ^ i) =? 0) = negb (Z.testbit nm i).
Proof.
  intros Hi. destruct (Z.testbit nm i) eqn:E; cbn [negb].
  - apply Z.eqb_neq. intros H.
    assert (Z.testbit (Z.land nm (2 ^ i)) i = true) as T by (by rewrite Z.land_spec, E, Z.pow2_bits_true by lia).
    by rewrite H, Z.bits_0 in T.
  - apply Z.eqb_eq. apply Z.bits_inj'. intros j Hj. rewrite Z.land_spec, Z.bits_0.
    destruct (Z.eq_dec j i) as [->|]; [by rewrite E|]. rewrite Z.pow2_bits_false by lia. apply andb_false_r.
Qed.

Lemma shiftr_pow2 (i : nat) : Z.shiftr (2 ^ Z.of_nat (S i)) 1 = 2 ^ Z.of_nat i.
Proof.
  rewrite Z.shiftr_div_pow2, Nat2Z.inj_succ, Z.pow_succ_r by lia.
  rewrite Z.mul_comm. apply Z.div_mul. lia.
Qed.

(** The bits [i - 1] .. [0] are zero. *)
Lemma no_ones_spec nm (i : nat) : forall fuel, (i < fuel)%nat ->
  no_ones fuel (match i with O => 0 | S i => 2 ^ Z.of_nat i end) nm = true <->
  forall j, 0 <= j < Z.of_nat i -> Z.testbit nm j = false.
Proof.
  induction i as [|i IH]; intros fuel Hf; (destruct fuel as [|fuel]; [lia|]); cbn [no_ones].
  - split; [intros _ j Hj; lia|done].
  - assert (0 < 2 ^ Z.of_nat i) by (apply Z.pow_pos_nonneg; lia).
    rewrite (proj2 (Z.eqb_neq _ 0)), land_pow2_zero by lia.
    assert (Z.shiftr (2 ^ Z.of_nat i) 1 = match i with O => 0 | S i => 2 ^ Z.of_nat i end) as ->.
    { destruct i; [done|]. apply shiftr_pow2. }
    destruct (Z.testbit nm (Z.of_nat i)) eqn:E; cbn [negb].
    + split; [done|]. intros H'. specialize (H' (Z.of_nat i) ltac:(lia)). congruence.
    + rewrite IH by lia. split; intros H' j Hj; [|apply H'; lia].
      destruct (Z.eq_dec j (Z.of_nat i)) as [->|]; [done|]. apply H'. lia.
Qed.

(** The first loop stops at the highest zero bit: ones above it. *)
Lemma first_zero_spec nm (i : nat) : forall fuel, (i < fuel)%nat -> exists k : nat, (k <= i)%nat /\
  first_zero fuel (match i with O => 0 | S i => 2 ^ Z.of_nat i end) nm
    = match k with O => 0 | S k => 2 ^ Z.of_nat k end /\
  (forall j, Z.of_nat k <= j < Z.of_nat i -> Z.testbit nm j = true) /\
  (0 < k -> Z.testbit nm (Z.of_nat k - 1) = false)%nat.
Proof.
  induction i as [|i IH]; intros fuel Hf; (destruct fuel as [|fuel]; [lia|]); cbn [first_zero].
  - exists 0%nat. split; [lia|]. split; [done|]. split; [intros; lia|lia].
  - assert (0 < 2 ^ Z.of_nat i) by (apply Z.pow_pos_nonneg; lia).
    rewrite (proj2 (Z.eqb_neq _ 0)), land_pow2_zero by lia.
    assert (Z.shiftr (2 ^ Z.of_nat i) 1 = match i with O => 0 | S i => 2 ^ Z.of_nat i end) as ->.
    { destruct i; [done|]. apply shiftr_pow2. }
    destruct (Z.testbit nm (Z.of_nat i)) eqn:E; cbn [negb].
    + destruct (IH fuel ltac:(lia)) as (k & Hk & Ek & H1 & H2). exists k. split; [lia|]. split; [done|].
      split; [|done]. intros j Hj. destruct (Z.eq_dec j (Z.of_nat i)) as [->|]; [done|]. apply H1. lia.
    + exists (S i). split; [lia|]. split; [done|]. split; [intros; lia|]. intros _. rewrite <-E. f_equal. lia.
Qed.

(** A 32-bit number with ones from bit [k] up and zeros below. *)
Lemma mask_bits nm k : in_u 32 nm -> 0 <= k <= 32 ->
  nm = 2 ^ 32 - 2 ^ k <->
  (forall j, k <= j < 32 -> Z.testbit nm j = true) /\ (forall j, 0 <= j < k -> Z.testbit nm j = false).
Proof.
  intros Hnm Hk.
  assert (2 ^ 32 - 2 ^ k = Z.shiftl (Z.ones (32 - k)) k) as ->.
  { rewrite Z.shiftl_mul_pow2, Z.ones_equiv by lia. unfold Z.pred.
    rewrite Z.mul_add_distr_r, <-Z.pow_add_r by lia. replace (32 - k + k) with 32 by lia. lia. }
  split.
  - intros ->. split; intros j Hj; rewrite Z.shiftl_spec by lia.
    + apply Z.ones_spec_low. lia.
    + apply Z.testbit_neg_r. lia.
  - intros [H1 H2]. apply Z.bits_inj'. intros j Hj. rewrite Z.shiftl_spec by lia.
    destruct (Z.lt_ge_cases j k); [rewrite H2, Z.testbit_neg_r by lia; done|].
    destruct (Z.lt_ge_cases j 32).
    + rewrite H1, Z.ones_spec_low by lia. done.
    + rewrite Z.ones_spec_high by lia. unfold in_u in Hnm.
      rewrite <-(Z.mod_small nm (2 ^ 32)) by lia. by apply Z.mod_pow2_bits_high.
Qed.

(** [ip4_addr_netmask_valid] accepts exactly the contiguous netmasks:
    those that read in host order as 32-k ones followed by k zeros. *)
Theorem netmask_valid_correct netmask : in_u 32 netmask ->
  (ip4_addr_netmask_valid netmask = 1 <->
   exists k, 0 <= k <= 32 /\ lwip_ntohl netmask = 2 ^ 32 - 2 ^ k) /\
  (ip4_addr_netmask_valid netmask = 0 \/ ip4_addr_netmask_valid netmask = 1).
Proof.
  intros Hm. unfold lwip_ntohl. assert (in_u 32 (lwip_htonl netmask)) as Hh.
  { destruct (of_addr_bytes netmask Hm) as (b0 & b1 & b2 & b3 & Ho & ->). rewrite htonl_of_bytes by done.
    apply addr_bytes_of. rewrite !octets_cons in Ho |- *. destruct Ho as (? & ? & ? & ? & ?). done. }
  unfold ip4_addr_netmask_valid. set (nm := lwip_htonl netmask) in *.
  change (u32 (Z.shiftl 1 31)) with (match 32%nat with O => 0 | S i => 2 ^ Z.of_nat i end).
  destruct (first_zero_spec nm 32 33 ltac:(lia)) as (k & Hk & -> & H1 & H2).
  pose proof (no_ones_spec nm k 33 ltac:(lia)) as H3. split; [|destruct (no_ones 33 _ nm); auto].
  destruct (no_ones 33 _ nm) eqn:E.
  - split; [|done]. intros _. exists (Z.of_nat k). split; [lia|].
    apply mask_bits; [done|lia|]. split; [exact H1|by apply H3].
  - split; [done|]. intros (j & Hj & Ej). apply mask_bits in Ej as [J1 J2]; [|done|lia].
    enough (false = true) by done. apply H3. intros i Hi.
    destruct (Z.lt_ge_cases i j); [apply J2; lia|].
    specialize (J1 (Z.of_nat k - 1) ltac:(lia)). rewrite H2 in J1 by lia. done.
Qed.

Lemma netmask_valid_correct_witness :
  (ip4_addr_netmask_valid 0x00F0FFFF = 1 <->
   exists k, 0 <= k <= 32 /\ lwip_ntohl 0x00F0FFFF = 2 ^ 32 - 2 ^ k) /\
  (ip4_addr_netmask_valid 0x00F0FFFF = 0 \/ ip4_addr_netmask_valid 0x00F0FFFF = 1).
Proof. apply netmask_valid_correct. cint. Defined.

(** [ip4_addr_isbroadcast] holds for all ones, all zeros and, on an
    interface with broadcast support, the address made of the interface's
    network part and a host part of ones, unless that is its own address; for
    no other address. *)
Theorem isbroadcast_correct addr n : in_u 32 addr -> in_u 32 (ip_addr n) -> in_u 32 (netmask n) ->
  ip4_addr_isbroadcast addr n = 1 <->
  addr = 0xffffffff \/ addr = 0 \/
  (Z.testbit (flags n) 1 = true /\ addr ≠ ip_addr n /\
   addr = Z.lor (Z.land (ip_addr n) (netmask n)) (u32 (Z.lnot (netmask n)))).
Proof.
  intros Ha Hi Hm. unfold ip4_addr_isbroadcast, IPADDR_ANY, IPADDR_BROADCAST, ip_addr_netcmp.
  assert (u32 (Z.lnot addr) = 0xffffffff - addr) as ->.
  { unfold wrap, Z.lnot, Z.pred. symmetry. apply (Z.mod_unique _ _ (-1)); cint. }
  destruct (Z.eqb_spec (0xffffffff - addr) 0); [cbn [orb]; split; [intros _; left; lia|done]|].
  destruct (Z.eqb_spec addr 0); [cbn [orb]; split; [auto|done]|]. cbn [orb].
  change NETIF_FLAG_BROADCAST with (2 ^ 1). rewrite land_pow2_zero by lia.
  destruct (Z.testbit (flags n) 1) eqn:Ef; cbn [negb]; [|split; [done|]; intros [?|[?|(? & _)]]; [lia|lia|done]].
  destruct (Z.eqb_spec addr (ip_addr n)); [split; [done|]; intros [?|[?|(_ & ? & _)]]; [lia|lia|done]|].
  set (m := netmask n) in *. set (h := u32 (Z.lnot m)).
  assert (forall j, 0 <= j -> Z.testbit h j = (j <? 32) && negb (Z.testbit m j)) as Hh.
  { intros j Hj. unfold h, wrap. destruct (Z.ltb_spec j 32).
    - rewrite Z.mod_pow2_bits_low, Z.lnot_spec by lia. done.
    - by rewrite Z.mod_pow2_bits_high by lia. }
  assert (forall x, in_u 32 x -> forall j, 32 <= j -> Z.testbit x j = false) as Hhi.
  { intros x Hx j Hj. unfold in_u in Hx. rewrite <-(Z.mod_small x (2 ^ 32)) by lia.
    by apply Z.mod_pow2_bits_high. }
  change 0xffffffff with (Z.ones 32).
  assert ((Z.land addr m = Z.land (ip_addr n) m /\ Z.land addr h = Z.land (Z.ones 32) h) <->
    addr = Z.lor (Z.land (ip_addr n) m) h) as Hiff.
  { split.
    - intros [E1 E2]. apply Z.bits_inj'. intros j Hj. rewrite Z.lor_spec, Z.land_spec, Hh by done.
      apply (f_equal (fun x => Z.testbit x j)) in E1, E2. rewrite !Z.land_spec in E1, E2.
      rewrite Hh in E2 by done. destruct (Z.ltb_spec j 32) as [Hlt|Hge].
      + rewrite Z.ones_spec_low in E2 by lia. destruct (Z.testbit m j), (Z.testbit addr j), (Z.testbit (ip_addr n) j); done.
      + rewrite (Hhi addr), (Hhi m) by done. by rewrite andb_false_r.
    - intros ->. split; apply Z.bits_inj'; intros j Hj; rewrite !Z.land_spec, Z.lor_spec, Z.land_spec, Hh by done.
      + destruct (j <? 32), (Z.testbit m j), (Z.testbit (ip_addr n) j); done.
      + destruct (Z.ltb_spec j 32) as [Hlt|Hge]; [rewrite Z.ones_spec_low by lia|].
        * destruct (Z.testbit m j), (Z.testbit (ip_addr n) j); done.
        * by rewrite (Hhi m), !andb_false_r by done. }
  destruct (Z.eqb_spec (Z.land addr m) (Z.land (ip_addr n) m)) as [E1|E1];
    [destruct (Z.eqb_spec (Z.land addr h) (Z.land (Z.ones 32) h)) as [E2|E2]|]; cbn [andb].
  - split; [|done]. intros _. right. right. split; [done|]. split; [done|]. by apply Hiff.
  - split; [done|]. intros [H|[H|(_ & _ & H)]]; [exfalso; change (Z.ones 32) with 0xffffffff in H; lia|lia|].
    by apply Hiff in H as [_ ?].
  - split; [done|]. intros [H|[H|(_ & _ & H)]]; [exfalso; change (Z.ones 32) with 0xffffffff in H; lia|lia|].
    by apply Hiff in H as [? _].
Qed.

(** 192.168.1.255 on 192.168.1.20/24. *)
Lemma isbroadcast_correct_witness :
  let n := mk_netif (of_bytes 192 168 1 20) (of_bytes 255 255 255 0) 0x02 in
  let addr := of_bytes 192 168 1 255 in
  ip4_addr_isbroadcast addr n = 1 <->
  addr = 0xffffffff \/ addr = 0 \/
  (Z.testbit (flags n) 1 = true /\ addr ≠ ip_addr n /\
   addr = Z.lor (Z.land (ip_addr n) (netmask n)) (u32 (Z.lnot (netmask n)))).
Proof. apply isbroadcast_correct; vm_compute; split; discriminate || reflexivity. Defined.

(** [ipaddr_aton] does not check the range of the parts before the last
    one: "256.1.1.1" is accepted, as 0.1.1.1. *)
Theorem aton_part_overflow :
  ipaddr_aton [50; 53; 54; 46; 49; 46; 49; 46; 49] = Some (of_bytes 0 1 1 1).
Proof. reflexivity. Qed.

End IpAddr.
