(* ===== verification/Timers.v ===== *)
(** * The timeout list (libraries/Ethernet/utility/timers.c)

    Pending timeouts form a list of [struct sys_timeo] from the pool
    MEMP_SYS_TIMEOUT; [time] is the delay after the element before it, the
    first one counts from [timeouts_last_time].  The nodes are reached only
    through [next_timeout], so the list of nodes is a list; each keeps the
    address of its pool element.

    NO_SYS is 1, hence [sys_check_timeouts] is the version with [sys_now] (an
    argument [now] of the model).  LWIP_ARP, LWIP_DHCP, LWIP_AUTOIP, LWIP_DNS and
    LWIP_TCP are 1, IP_REASSEMBLY and LWIP_IGMP 0.  What the callbacks do in
    their protocols (tcp_tmr, etharp_tmr, ...) is a parameter [work] on the
    allocator and on the rest of the system; its boolean tells whether a TCP
    control block was registered meanwhile, which calls [tcp_timer_needed]
    (TCP_REG of tcp_impl.h). *)
From Stdlib Require Import Sorted.
From S2P Require Import Prelude Mem Memp Alloc.
Import Alloc.

Module Timers.

(** ** State *)

(** A callback [sys_timeout_handler]: NULL, those of timers.c and others. *)
Inductive handler :=
  | NULL_handler | tcpip_tcp_timer | arp_timer | dhcp_timer_coarse | dhcp_timer_fine
  | autoip_timer | dns_timer | other_handler (n : Z).

#[export] Instance handler_eq_dec : EqDecision handler.
Proof. solve_decision. Defined.

Record sys_timeo := mk_timeo { addr : Z; time : Z; h : handler; arg : Z }.

Definition with_time (t : sys_timeo) (x : Z) : sys_timeo := mk_timeo (addr t) x (h t) (arg t).

Definition MEMP_SYS_TIMEOUT : nat := 5.

Definition TCP_TMR_INTERVAL : Z := 250.
Definition ARP_TMR_INTERVAL : Z := 5000.
Definition DHCP_COARSE_TIMER_MSECS : Z := 60 * 1000.
Definition DHCP_FINE_TIMER_MSECS : Z := 500.
Definition AUTOIP_TMR_INTERVAL : Z := 100.
Definition DNS_TMR_INTERVAL : Z := 1000.

Record timers {A W : Type} := mk_timers {
  alloc : A; world : W;
  next_timeout : list sys_timeo;
  timeouts_last_time : Z;
  tcpip_tcp_timer_active : bool }.
Arguments timers : clear implicits.

Definition set_list {A W} (l : list sys_timeo) (s : timers A W) : timers A W :=
  mk_timers A W (alloc s) (world s) l (timeouts_last_time s) (tcpip_tcp_timer_active s).
Definition set_alloc {A W} (a : A) (s : timers A W) : timers A W :=
  mk_timers A W a (world s) (next_timeout s) (timeouts_last_time s) (tcpip_tcp_timer_active s).
Definition set_world {A W} (a : A) (w : W) (s : timers A W) : timers A W :=
  mk_timers A W a w (next_timeout s) (timeouts_last_time s) (tcpip_tcp_timer_active s).
Definition set_last {A W} (now : Z) (s : timers A W) : timers A W :=
  mk_timers A W (alloc s) (world s) (next_timeout s) now (tcpip_tcp_timer_active s).
Definition set_active {A W} (b : bool) (s : timers A W) : timers A W :=
  mk_timers A W (alloc s) (world s) (next_timeout s) (timeouts_last_time s) b.

(** ** Operations *)

(** The loop of [sys_timeout] at the node [t] with the nodes [l] behind it. *)
Fixpoint insert_loop (timeout t : sys_timeo) (l : list sys_timeo) : list sys_timeo :=
  let timeout := with_time timeout (u32 (time timeout - time t)) in
  match l with
  | [] => [t; timeout]
  | n :: r =>
      if time n >? time timeout
      then t :: timeout :: with_time n (u32 (time n - time timeout)) :: r
      else t :: insert_loop timeout n r
  end.

Definition insert_timeout (timeout : sys_timeo) (l : list sys_timeo) : list sys_timeo :=
  match l with
  | [] => [timeout]
  | t :: r =>
      if time t >? time timeout
      then timeout :: with_time t (u32 (time t - time timeout)) :: r
      else insert_loop timeout t r
  end.

(** The loop of [sys_untimeout]: the removed node and the list without it. *)
Fixpoint remove_loop (hd : handler) (ar : Z) (l : list sys_timeo) :
    option (sys_timeo * list sys_timeo) :=
  match l with
  | [] => None
  | t :: r =>
      if bool_decide (h t = hd) && (arg t =? ar)
      then Some (t, match r with
                    | [] => []
                    | n :: r => with_time n (u32 (time n + time t)) :: r
                    end)
      else '(x, r) ← remove_loop hd ar r; Some (x, t :: r)
  end.

Section Timers.
Context {A W : Type} {ops : alloc_ops A}.
Variable (work : handler -> Z -> A -> W -> A * W * bool).
Variable (tcp_pcbs : W -> bool).   (* tcp_active_pcbs || tcp_tw_pcbs *)
Variable (PBUF_CHECK_FREE_OOSEQ : A -> W -> A * W).

Implicit Types s : timers A W.

Definition sys_timeout (msecs : Z) (hd : handler) (ar : Z) s : option (timers A W) :=
  '(p, a) ← pool_malloc MEMP_SYS_TIMEOUT (alloc s);
  let s := set_alloc a s in
  if p =? 0 then Some s
  else Some (set_list (insert_timeout (mk_timeo p msecs hd ar) (next_timeout s)) s).

Definition sys_untimeout (hd : handler) (ar : Z) s : option (timers A W) :=
  match remove_loop hd ar (next_timeout s) with
  | None => Some s
  | Some (t, l) =>
      a ← pool_free MEMP_SYS_TIMEOUT (addr t) (alloc s);
      Some (set_alloc a (set_list l s))
  end.

Definition tcp_timer_needed s : option (timers A W) :=
  if negb (tcpip_tcp_timer_active s) && tcp_pcbs (world s)
  then sys_timeout TCP_TMR_INTERVAL tcpip_tcp_timer 0 (set_active true s)
  else Some s.

(** The protocol's part of a callback. *)
Definition do_work (hd : handler) (ar : Z) s : option (timers A W) :=
  let '(a, w, reg) := work hd ar (alloc s) (world s) in
  let s := set_world a w s in
  if reg : bool then tcp_timer_needed s else Some s.

(** The callbacks of timers.c work and start themselves again. *)
Definition tcpip_tcp_timer_body (ar : Z) s : option (timers A W) :=
  s ← do_work tcpip_tcp_timer ar s;
  if tcp_pcbs (world s) then sys_timeout TCP_TMR_INTERVAL tcpip_tcp_timer 0 s
  else Some (set_active false s).

Definition arp_timer_body (ar : Z) s : option (timers A W) :=
  s ← do_work arp_timer ar s; sys_timeout ARP_TMR_INTERVAL arp_timer 0 s.

Definition dhcp_timer_coarse_body (ar : Z) s : option (timers A W) :=
  s ← do_work dhcp_timer_coarse ar s; sys_timeout DHCP_COARSE_TIMER_MSECS dhcp_timer_coarse 0 s.

Definition dhcp_timer_fine_body (ar : Z) s : option (timers A W) :=
  s ← do_work dhcp_timer_fine ar s; sys_timeout DHCP_FINE_TIMER_MSECS dhcp_timer_fine 0 s.

Definition autoip_timer_body (ar : Z) s : option (timers A W) :=
  s ← do_work autoip_timer ar s; sys_timeout AUTOIP_TMR_INTERVAL autoip_timer 0 s.

Definition dns_timer_body (ar : Z) s : option (timers A W) :=
  s ← do_work dns_timer ar s; sys_timeout DNS_TMR_INTERVAL dns_timer 0 s.

(** [if (handler != NULL) handler(arg);] *)
Definition call_handler (hd : handler) (ar : Z) s : option (timers A W) :=
  match hd with
  | NULL_handler => Some s
  | tcpip_tcp_timer => tcpip_tcp_timer_body ar s
  | arp_timer => arp_timer_body ar s
  | dhcp_timer_coarse => dhcp_timer_coarse_body ar s
  | dhcp_timer_fine => dhcp_timer_fine_body ar s
  | autoip_timer => autoip_timer_body ar s
  | dns_timer => dns_timer_body ar s
  | other_handler _ => do_work hd ar s
  end.

Definition sys_timeouts_init (now : Z) s : option (timers A W) :=
  s ← sys_timeout ARP_TMR_INTERVAL arp_timer 0 s;
  s ← sys_timeout DHCP_COARSE_TIMER_MSECS dhcp_timer_coarse 0 s;
  s ← sys_timeout DHCP_FINE_TIMER_MSECS dhcp_timer_fine 0 s;
  s ← sys_timeout AUTOIP_TMR_INTERVAL autoip_timer 0 s;
  s ← sys_timeout DNS_TMR_INTERVAL dns_timer 0 s;
  Some (set_last now s).

(** One callback run by [sys_check_timeouts]: when it was due, counted from the
    [timeouts_last_time] the call started with, and what was called. *)
Definition firing : Type := Z * handler * Z.

(** The do loop; [passed] is the time the fired callbacks used up, so that
    [passed + diff] is the time that passed since the last check. *)
Fixpoint check_loop (fuel : nat) (now passed diff : Z) s : option (list firing * timers A W) :=
  match fuel with
  | O => None
  | S fuel =>
      let '(a, w) := PBUF_CHECK_FREE_OOSEQ (alloc s) (world s) in
      let s := set_world a w s in
      match next_timeout s with
      | t :: r =>
          if time t <=? diff then
            let s := set_list r (set_last now s) in
            a ← pool_free MEMP_SYS_TIMEOUT (addr t) (alloc s);
            s ← call_handler (h t) (arg t) (set_alloc a s);
            '(fired, s) ← check_loop fuel now (passed + time t) (u32 (diff - time t)) s;
            Some ((passed + time t, h t, arg t) :: fired, s)
          else Some ([], s)
      | [] => Some ([], s)
      end
  end.

Definition sys_check_timeouts (fuel : nat) (now : Z) s : option (list firing * timers A W) :=
  match next_timeout s with
  | [] => Some ([], s)
  | _ :: _ => check_loop fuel now 0 (u32 (now - timeouts_last_time s)) s
  end.

Definition sys_restart_timeouts (now : Z) s : timers A W := set_last now s.
End Timers.

(** ** The schedule the list stands for *)

(** When each timeout is due, counted like [base]: the delays summed up. *)
Fixpoint schedule (base : Z) (l : list sys_timeo) : list firing :=
  match l with
  | [] => []
  | t :: r => (base + time t, h t, arg t) :: schedule (base + time t) r
  end.

(** A new entry goes behind those due at the same time or earlier. *)
Fixpoint insert_after (e : firing) (l : list firing) : list firing :=
  match l with
  | [] => [e]
  | x :: r => if decide (x.1.1 <= e.1.1) then x :: insert_after e r else e :: x :: r
  end.

Definition total (l : list sys_timeo) : Z := foldr (fun t n => time t + n) 0 l.
Definition wf (l : list sys_timeo) : Prop := Forall (fun t => 0 <= time t) l /\ total l < 2 ^ 32.

Lemma total_nonneg l : Forall (fun t => 0 <= time t) l -> 0 <= total l.
Proof. induction 1; cbn [total foldr] in *; [done|]. unfold total in *. lia. Qed.

Lemma wf_cons t l : wf (t :: l) <-> 0 <= time t /\ wf l /\ time t + total l < 2 ^ 32.
Proof.
  unfold wf. rewrite Forall_cons. cbn [total foldr]. fold (total l). split.
  - intros [[? ?] ?]. repeat split; [done..|lia|done].
  - intros (? & [? _] & ?). auto.
Qed.

Lemma insert_after_perm e l : insert_after e l ≡ₚ e :: l.
Proof.
  induction l as [|x r IH]; cbn [insert_after]; [done|]. case_decide; [|done].
  rewrite IH. apply Permutation_swap.
Qed.

Lemma schedule_shift base k l : schedule (base + k) l = (fun e => (e.1.1 + k, e.1.2, e.2)) <$> schedule base l.
Proof.
  revert base. induction l as [|t r IH]; intros base; cbn [schedule]; [done|].
  rewrite fmap_cons. cbn [fst snd]. f_equal; [do 2 f_equal; lia|]. rewrite <-IH. f_equal. lia.
Qed.

Lemma schedule_length base l : length (schedule base l) = length l.
Proof. revert base. induction l; intros; cbn; auto. Qed.

Lemma schedule_ge base l : Forall (fun t => 0 <= time t) l ->
  Forall (fun e => base <= e.1.1) (schedule base l).
Proof.
  intros F. revert base. induction F as [|t r Ht F IH]; intros base; constructor; [simpl; lia|].
  eapply Forall_impl; [apply IH|]. simpl. lia.
Qed.

(** Inserting the delay [time t] of the list is inserting the due time. *)
Lemma insert_loop_spec l : forall timeout t base,
  wf (t :: l) -> time t <= time timeout < 2 ^ 32 ->
  schedule base (insert_loop timeout t l)
    = insert_after (base + time timeout, h timeout, arg timeout) (schedule base (t :: l)) /\
  Forall (fun t => 0 <= time t) (insert_loop timeout t l) /\
  total (insert_loop timeout t l) = Z.max (total (t :: l)) (time timeout) /\
  addr <$> insert_loop timeout t l ≡ₚ addr timeout :: (addr <$> t :: l).
Proof.
  induction l as [|n r IH]; intros timeout t base Hw Ht; cbn [insert_loop].
  - apply wf_cons in Hw as (? & _ & ?). cbn [time with_time].
    rewrite (wrap_id 32) by cint. repeat split.
    + cbn [schedule insert_after fst snd time h arg with_time]. rewrite decide_True by lia.
      do 2 f_equal. do 2 f_equal. lia.
    + repeat constructor; cbn; lia.
    + cbn. lia.
    + cbn. apply Permutation_swap.
  - apply wf_cons in Hw as (? & Hw & ?). pose proof Hw as (? & Hr & ?)%wf_cons.
    pose proof (total_nonneg r (proj1 Hr)). cbn [total foldr] in *. fold (total r) in *.
    cbn [time with_time addr h arg]. rewrite (wrap_id 32 (time timeout - time t)) by cint.
    destruct (Z.gtb_spec (time n) (time timeout - time t)) as [Hgt|Hle].
    + rewrite (wrap_id 32 (time n - _)) by cint. repeat split.
      * cbn [schedule insert_after fst snd time h arg with_time].
        rewrite decide_True, decide_False by lia. do 2 f_equal; [do 2 f_equal; lia|].
        f_equal; [do 2 f_equal; lia|]. f_equal. lia.
      * repeat constructor; cbn; [lia|lia|lia|apply Hr].
      * cbn [time total foldr with_time]. fold (total r). lia.
      * cbn. apply Permutation_swap.
    + destruct (IH (with_time timeout (time timeout - time t)) n (base + time t) Hw) as (E & F & T & P).
      { cbn [with_time time]. cint. }
      cbn [with_time time h arg addr total foldr] in *. fold (total r) in T.
      set (l' := insert_loop _ n r) in *. repeat split.
      * replace (base + time t + (time timeout - time t)) with (base + time timeout) in E by lia.
        cbn [schedule] in *. rewrite E. cbn [insert_after fst snd].
        by rewrite (decide_True (P := base + time t <= _)) by lia.
      * by constructor.
      * cbn [total foldr]. fold (total l'). fold (total r). lia.
      * rewrite fmap_cons, P. apply Permutation_swap.
Qed.

Lemma insert_timeout_spec timeout l base : wf l -> 0 <= time timeout < 2 ^ 32 ->
  schedule base (insert_timeout timeout l)
    = insert_after (base + time timeout, h timeout, arg timeout) (schedule base l) /\
  wf (insert_timeout timeout l) /\
  addr <$> insert_timeout timeout l ≡ₚ addr timeout :: (addr <$> l).
Proof.
  intros Hw Ht. destruct l as [|t r]; cbn [insert_timeout].
  - split; [done|]. split; [|done]. apply wf_cons. repeat split; [lia|constructor|cbn; lia..].
  - pose proof Hw as (? & Hr & ?)%wf_cons. pose proof (total_nonneg r (proj1 Hr)).
    destruct (Z.gtb_spec (time t) (time timeout)) as [Hgt|Hle].
    + cbn [with_time time]. rewrite (wrap_id 32) by cint. split; [|split; [|done]].
      * cbn [schedule insert_after fst snd time h arg with_time]. rewrite decide_False by lia.
        f_equal. f_equal; [do 2 f_equal; lia|f_equal; lia].
      * rewrite !wf_cons. cbn [time total foldr with_time]. fold (total r).
        repeat split; try apply Hr; lia.
    + destruct (insert_loop_spec r timeout t base Hw) as (E & F & T & P); [lia|].
      split; [done|]. split; [|done]. split; [done|]. rewrite T. cbn [total foldr]. fold (total r). lia.
Qed.

(** The first entry for [hd] and [ar] is taken out of a schedule. *)
Fixpoint remove_first (hd : handler) (ar : Z) (l : list firing) : list firing :=
  match l with
  | [] => []
  | x :: r => if decide (x.1.2 = hd /\ x.2 = ar) then r else x :: remove_first hd ar r
  end.

Lemma matches_spec t hd ar :
  bool_decide (h t = hd) && (arg t =? ar) = bool_decide (h t = hd /\ arg t = ar).
Proof.
  rewrite bool_decide_and. f_equal.
  destruct (Z.eqb_spec (arg t) ar); [by rewrite bool_decide_true|by rewrite bool_decide_false].
Qed.

Lemma remove_loop_spec hd ar l : forall base, wf l ->
  match remove_loop hd ar l with
  | None => Forall (fun t => ~ (h t = hd /\ arg t = ar)) l
  | Some (t, l') => h t = hd /\ arg t = ar /\ t ∈ l /\ wf l' /\
      total l' <= total l /\ addr <$> l ≡ₚ addr t :: (addr <$> l') /\
      schedule base l' = remove_first hd ar (schedule base l)
  end.
Proof.
  induction l as [|t r IH]; intros base Hw; cbn [remove_loop]; [constructor|].
  pose proof Hw as (Ht & Hr & Hs)%wf_cons. rewrite matches_spec.
  destruct (decide (h t = hd /\ arg t = ar)) as [M|M].
  - rewrite bool_decide_true by done. destruct M as [? ?]. split; [done|]. split; [done|].
    split; [set_solver|]. cbn [schedule remove_first fst snd]. rewrite decide_True by done.
    destruct r as [|n r]; [split; [repeat constructor|split; [cbn; lia|done]]|].
    pose proof Hr as (? & Hr' & ?)%wf_cons. cbn [total foldr] in Hs. fold (total r) in Hs.
    pose proof (total_nonneg r (proj1 Hr')). rewrite (wrap_id 32) by cint.
    split; [|split; [|split; [done|]]].
    + apply wf_cons. cbn [with_time time]. repeat split; [lia|apply Hr'|apply Hr'|lia].
    + cbn [total foldr with_time time]. lia.
    + cbn [schedule with_time time h arg]. f_equal; [do 2 f_equal; lia|f_equal; lia].
  - rewrite bool_decide_false by done. specialize (IH (base + time t) Hr).
    destruct (remove_loop hd ar r) as [[x l']|]; cbn; [|by constructor].
    destruct IH as (? & ? & Hin & Hw' & T & P & E). split; [done|]. split; [done|].
    split; [set_solver|]. split; [|split; [|split]].
    + apply wf_cons. split; [done|]. split; [done|lia].
    + cbn [total foldr]. fold (total r) (total l'). lia.
    + rewrite P. apply Permutation_swap.
    + cbn [schedule remove_first fst snd]. rewrite (decide_False (P := h t = hd /\ _)) by done.
      by rewrite E.
Qed.

(** ** Ownership of the nodes *)

Definition tmo_blocks (sz : Z) (l : list Z) : list block :=
  (fun p => mk_block p (Pool MEMP_SYS_TIMEOUT) sz) <$> l.

(** A filter result with [b] first comes from a list with [b]. *)
Lemma filter_cons_inv {B} (P : B -> Prop) `{forall x, Decision (P x)} b rest live :
  filter P live ≡ₚ b :: rest -> exists live', live ≡ₚ b :: live' /\ filter P live' ≡ₚ rest.
Proof.
  intros E. assert (b ∈ filter P live) as [Hb Hin]%list_elem_of_filter by (rewrite E; set_solver).
  apply list_elem_of_split in Hin as (l1 & l2 & ->). exists (l1 ++ l2).
  rewrite <-Permutation_middle in *. split; [done|]. rewrite filter_cons_True in E by done.
  by eapply Permutation_cons_inv.
Qed.

Section Correct.
Context {A W : Type} {ops : alloc_ops A} {laws : alloc_laws A} {plaws : pool_laws A}.
Implicit Types s : timers A W.

(** The list is well formed, and the elements of the pool MEMP_SYS_TIMEOUT
    that are handed out are exactly its nodes. *)
Record tinv s : Prop := {
  ti_wf : wf (next_timeout s);
  ti_owns : exists sz live, pool_elem_size (alloc s) MEMP_SYS_TIMEOUT = Some sz /\
    owns (alloc s) live /\ pool_live MEMP_SYS_TIMEOUT live ≡ₚ tmo_blocks sz (addr <$> next_timeout s) }.

(** What other code may do to the allocator: anything but take or give back
    elements of MEMP_SYS_TIMEOUT. *)
Definition frames (a a' : A) : Prop :=
  pool_elem_size a' = pool_elem_size a /\ pool_num a' = pool_num a /\
  forall live, owns a live -> exists live', owns a' live' /\ pool_live MEMP_SYS_TIMEOUT live' ≡ₚ pool_live MEMP_SYS_TIMEOUT live.

Lemma tinv_frame s a w : tinv s -> frames (alloc s) a -> tinv (set_world a w s).
Proof.
  intros [Hw (sz & live & Es & O & P)] (Ea & _ & F). destruct (F live O) as (live' & O' & P').
  split; [done|]. exists sz, live'. cbn. rewrite Ea, P'. done.
Qed.

Lemma tinv_set_active s b : tinv s -> tinv (set_active b s).
Proof. intros [Hw H]. by split. Qed.

Lemma tinv_set_last s now : tinv s -> tinv (set_last now s).
Proof. intros [Hw H]. by split. Qed.

(** The node [t] leaves the list and its element is given back. *)
Lemma tinv_release s t l : tinv s -> wf l -> addr <$> next_timeout s ≡ₚ addr t :: (addr <$> l) ->
  exists a, pool_free MEMP_SYS_TIMEOUT (addr t) (alloc s) = Some a /\
    tinv (set_alloc a (set_list l s)).
Proof.
  intros [Hw (sz & live & Es & O & P)] Hl Pa. unfold tmo_blocks in P. rewrite Pa, fmap_cons in P.
  apply filter_cons_inv in P as (live' & Pl & P'). rewrite Pl in O.
  destruct (pool_free_law _ _ _ _ _ O) as (a & E & Ea & O'). exists a. split; [done|].
  split; [done|]. exists sz, live'. cbn. by rewrite Ea.
Qed.

Lemma tinv_length s n : tinv s -> pool_num (alloc s) MEMP_SYS_TIMEOUT = Some n ->
  (length (next_timeout s) <= n)%nat.
Proof.
  intros [_ (sz & live & _ & O & P)] Hn. pose proof (pool_live_le _ _ _ _ O Hn) as B.
  rewrite P in B. unfold tmo_blocks in B. by rewrite !length_fmap in B.
Qed.

Lemma sys_timeout_spec s msecs hd ar : tinv s -> 0 <= msecs < 2 ^ 32 ->
  exists s', sys_timeout msecs hd ar s = Some s' /\ tinv s' /\
    world s' = world s /\ timeouts_last_time s' = timeouts_last_time s /\
    tcpip_tcp_timer_active s' = tcpip_tcp_timer_active s /\
    pool_num (alloc s') = pool_num (alloc s) /\
    ((next_timeout s' = next_timeout s /\
      forall n, pool_num (alloc s) MEMP_SYS_TIMEOUT = Some n -> length (next_timeout s) = n) \/
     forall base, schedule base (next_timeout s')
       = insert_after (base + msecs, hd, ar) (schedule base (next_timeout s))).
Proof.
  intros [Hw (sz & live & Es & O & P)] Hm. unfold sys_timeout.
  destruct (pool_malloc_law _ _ _ _ O Es) as (p & a & E & Ea & Cs). rewrite E. cbn -[Z.eqb].
  destruct Cs as [[-> O']|[Hp O']].
  - cbn. eexists. split; [done|]. split; [|].
    { split; [done|]. exists sz, live. cbn. by rewrite Ea. }
    do 3 (split; [done|]). split; [by eapply pool_malloc_num|]. left. split; [done|].
    intros n Hn. rewrite (pool_malloc_full _ _ _ _ _ O Hn E), P. unfold tmo_blocks.
    by rewrite !length_fmap.
  - rewrite (proj2 (Z.eqb_neq p 0)) by done. eexists. split; [done|].
    pose proof (fun base => insert_timeout_spec (mk_timeo p msecs hd ar) (next_timeout s) base Hw Hm) as I.
    destruct (I 0) as (_ & Hw' & P').
    split; [|do 3 (split; [done|]); split; [by eapply pool_malloc_num|]; right; intros base;
             by destruct (I base) as (E' & _)].
    split; [done|]. exists sz, (mk_block p (Pool MEMP_SYS_TIMEOUT) sz :: live). cbn [alloc set_list set_alloc].
    rewrite Ea. split; [done|]. split; [done|]. unfold pool_live in *. rewrite filter_cons_True by done.
    cbn [next_timeout set_list set_alloc]. unfold tmo_blocks in *. rewrite P', fmap_cons. cbn [addr].
    by rewrite P.
Qed.

Lemma sys_timeout_full s msecs hd ar n : tinv s -> 0 <= msecs < 2 ^ 32 ->
  pool_num (alloc s) MEMP_SYS_TIMEOUT = Some n ->
  exists s', sys_timeout msecs hd ar s = Some s' /\ tinv s' /\
    timeouts_last_time s' = timeouts_last_time s /\
    if decide (length (next_timeout s) = n) then next_timeout s' = next_timeout s
    else forall base, schedule base (next_timeout s')
       = insert_after (base + msecs, hd, ar) (schedule base (next_timeout s)).
Proof.
  intros I Hm Hn. destruct (sys_timeout_spec s msecs hd ar I Hm) as (s' & E & I' & _ & L & _ & N & Cs).
  exists s'. split; [done|]. split; [done|]. split; [done|].
  destruct (decide (length (next_timeout s) = n)) as [Hl|Hl].
  - destruct Cs as [[Cs _]|Cs]; [done|].
    pose proof (tinv_length s' n I') as B. rewrite N in B. specialize (B Hn).
    pose proof (schedule_length 0 (next_timeout s')) as Hs. rewrite Cs, insert_after_perm in Hs.
    cbn [length] in Hs. rewrite schedule_length in Hs. lia.
  - destruct Cs as [[_ Full]|Cs]; [|done]. by destruct Hl; apply Full.
Qed.

Lemma sys_untimeout_spec s hd ar : tinv s ->
  exists s', sys_untimeout hd ar s = Some s' /\ tinv s' /\
    world s' = world s /\ timeouts_last_time s' = timeouts_last_time s /\
    forall base, schedule base (next_timeout s') = remove_first hd ar (schedule base (next_timeout s)).
Proof.
  intros I. unfold sys_untimeout. pose proof (fun base => remove_loop_spec hd ar (next_timeout s) base (ti_wf s I)) as R.
  destruct (remove_loop hd ar (next_timeout s)) as [[t l']|].
  - destruct (R 0) as (_ & _ & _ & Hl & _ & P & _).
    destruct (tinv_release s t l' I Hl P) as (a & -> & I'). eexists. split; [done|]. split; [done|].
    repeat split. intros base. by destruct (R base) as (_ & _ & _ & _ & _ & _ & E).
  - exists s. do 4 (split; [done|]). intros base. specialize (R 0). revert R. clear.
    generalize (next_timeout s) as l. intros l F. revert base.
    induction F as [|t l Ht F IH]; intros base; cbn [schedule remove_first fst snd]; [done|].
    rewrite decide_False by done. by rewrite <-IH.
Qed.

(** ** Callbacks and the loop *)

(** The sum of the times an entry has left before [diff] runs out; it bounds
    the callbacks [sys_check_timeouts] can still run, as every new entry is at
    least one millisecond later than the callback that makes it.  The TCP timer
    counts also while it is off, since a callback may turn it on. *)
Definition left (diff : Z) (e : firing) : Z := Z.max 0 (diff - e.1.1 + 1).
Definition sum_left (diff : Z) (l : list firing) : Z := foldr (fun e n => left diff e + n) 0 l.
Definition measure (diff : Z) s : Z :=
  sum_left diff (schedule 0 (next_timeout s)) + if tcpip_tcp_timer_active s then 0 else diff.

#[export] Instance sum_left_perm diff : Proper ((≡ₚ) ==> eq) (sum_left diff).
Proof.
  intros l l' P. unfold sum_left. induction P; cbn [foldr]; lia.
Qed.

Lemma sum_left_nonneg diff l : 0 <= sum_left diff l.
Proof. unfold sum_left. induction l; cbn [foldr]; [done|]. unfold left in *. lia. Qed.

Lemma measure_nonneg diff s : 0 <= diff -> 0 <= measure diff s.
Proof.
  intros. unfold measure. pose proof (sum_left_nonneg diff (schedule 0 (next_timeout s))).
  destruct tcpip_tcp_timer_active; lia.
Qed.

Lemma sum_left_shift diff k l base :
  sum_left diff (schedule (base + k) l) = sum_left (diff - k) (schedule base l).
Proof.
  rewrite schedule_shift. unfold sum_left. induction (schedule base l) as [|e r IH]; [done|].
  rewrite fmap_cons. cbn [foldr]. rewrite IH. unfold left. cbn [fst]. lia.
Qed.

(** The period of the callbacks that start themselves again. *)
Definition interval (hd : handler) : option Z :=
  match hd with
  | tcpip_tcp_timer => Some TCP_TMR_INTERVAL
  | arp_timer => Some ARP_TMR_INTERVAL
  | dhcp_timer_coarse => Some DHCP_COARSE_TIMER_MSECS
  | dhcp_timer_fine => Some DHCP_FINE_TIMER_MSECS
  | autoip_timer => Some AUTOIP_TMR_INTERVAL
  | dns_timer => Some DNS_TMR_INTERVAL
  | NULL_handler | other_handler _ => None
  end.

(** [e] is an entry the callback [f] made: its own next turn, or the TCP timer
    turned on. *)
Definition armed_by (f e : firing) : Prop :=
  (e.1.2 = f.1.2 \/ e.1.2 = tcpip_tcp_timer) /\ e.2 = 0 /\
  exists k, interval e.1.2 = Some k /\ e.1.1 = f.1.1 + k.

Context (work : handler -> Z -> A -> W -> A * W * bool) (tcp_pcbs : W -> bool).
Context (check_ooseq : A -> W -> A * W).
Hypothesis work_frames : forall hd ar a w, frames a (work hd ar a w).1.1.
Hypothesis ooseq_frames : forall a w, frames a (check_ooseq a w).1.

(** Nodes in use, counting the one the TCP timer may still need. *)
Definition slots s : Z :=
  Z.of_nat (length (next_timeout s)) + if tcpip_tcp_timer_active s then 0 else 1.

Definition not_tcp (x : handler) : Prop := x ≠ tcpip_tcp_timer.
#[local] Instance not_tcp_dec x : Decision (not_tcp x).
Proof. unfold not_tcp. apply _. Defined.

(** What a step adds to the list: turns of [hd] and of the TCP timer, due one
    period from now; the measure grows by at most [c] times the time left and
    the nodes in use by at most [c].  When the pool has that many elements, the
    new turns are those of [r] and possibly the TCP timer. *)
Definition adds (c : Z) (r : list handler) (hd : handler) s s' : Prop :=
  tinv s' /\ timeouts_last_time s' = timeouts_last_time s /\
  pool_num (alloc s') = pool_num (alloc s) /\
  slots s' <= slots s + c /\
  (forall diff, 0 <= diff -> measure diff s' <= measure diff s + c * diff) /\
  exists new : list handler, Forall (fun x => x = hd \/ x = tcpip_tcp_timer) new /\
    Forall (fun x => is_Some (interval x)) new /\
    (forall n, pool_num (alloc s) MEMP_SYS_TIMEOUT = Some n -> slots s + c <= Z.of_nat n ->
       filter not_tcp new = r) /\
    forall base, schedule base (next_timeout s')
      ≡ₚ schedule base (next_timeout s) ++ ((fun x => (base + default 0 (interval x), x, 0)) <$> new).

Lemma adds_trans c1 c2 r1 r2 hd s1 s2 s3 :
  adds c1 r1 hd s1 s2 -> adds c2 r2 hd s2 s3 -> 0 <= c2 -> adds (c1 + c2) (r1 ++ r2) hd s1 s3.
Proof.
  intros (_ & L1 & N1 & S1 & M1 & new1 & F1 & G1 & R1 & P1)
    (I3 & L2 & N2 & S2 & M2 & new2 & F2 & G2 & R2 & P2) Hc.
  split; [done|]. split; [congruence|]. split; [congruence|]. split; [lia|]. split.
  - intros diff Hd. specialize (M1 diff Hd). specialize (M2 diff Hd). lia.
  - exists (new1 ++ new2). split; [by apply Forall_app|]. split; [by apply Forall_app|]. split.
    + intros n Hn Hs. rewrite filter_app, (R1 n), (R2 n); [done|congruence|lia|done|lia].
    + intros base. by rewrite P2, P1, fmap_app, app_assoc.
Qed.

Lemma adds_none c hd s s' : tinv s' -> next_timeout s' = next_timeout s ->
  timeouts_last_time s' = timeouts_last_time s -> pool_num (alloc s') = pool_num (alloc s) ->
  (tcpip_tcp_timer_active s = true /\ 1 <= c \/
   tcpip_tcp_timer_active s' = tcpip_tcp_timer_active s /\ 0 <= c) -> adds c [] hd s s'.
Proof.
  intros I E L N M. split; [done|]. split; [done|]. split; [done|]. split; [|split].
  - unfold slots. rewrite E. destruct M as [[-> ?]|[-> ?]]; destruct tcpip_tcp_timer_active; lia.
  - intros diff Hd. unfold measure. rewrite E.
    destruct M as [[-> ?]|[-> ?]]; [destruct tcpip_tcp_timer_active|]; nia.
  - exists []. split; [done|]. split; [done|]. split; [done|]. intros base. by rewrite E, app_nil_r.
Qed.

Lemma interval_pos hd k : interval hd = Some k -> 1 <= k < 2 ^ 32.
Proof. destruct hd; cbn; intros [= <-]; done. Qed.

Lemma arm_adds s hd x k : tinv s -> interval x = Some k -> (x = hd \/ x = tcpip_tcp_timer) ->
  exists s', sys_timeout k x 0 s = Some s' /\ adds 1 (filter not_tcp [x]) hd s s' /\
    world s' = world s /\ tcpip_tcp_timer_active s' = tcpip_tcp_timer_active s.
Proof.
  intros I Ek Hx. pose proof (interval_pos _ _ Ek) as Hk.
  destruct (sys_timeout_spec s k x 0 I) as (s' & E & I' & Ew & El & Ea & En & Cs); [lia|].
  exists s'. split; [done|]. split; [|done]. split; [done|]. split; [done|]. split; [done|].
  destruct Cs as [[Cs Full]|Cs].
  - split; [unfold slots; rewrite Cs, Ea; lia|]. split; [unfold measure; rewrite Cs, Ea; lia|].
    exists []. split; [done|]. split; [done|]. split; [|intros base; by rewrite Cs, app_nil_r].
    intros n Hn Hs. apply Full in Hn. unfold slots in Hs. destruct (tcpip_tcp_timer_active s); lia.
  - split; [|split].
    + pose proof (schedule_length 0 (next_timeout s')) as Hl. rewrite Cs, insert_after_perm in Hl.
      cbn [length] in Hl. rewrite schedule_length in Hl. unfold slots. rewrite Ea. lia.
    + intros diff Hd. unfold measure. rewrite Ea, Cs, insert_after_perm.
      cbn [sum_left foldr]. fold (sum_left diff (schedule 0 (next_timeout s))).
      unfold left. cbn [fst]. lia.
    + exists [x]. split; [by apply Forall_singleton|]. split; [apply Forall_singleton; by eexists|].
      split; [done|]. intros base. rewrite Cs, insert_after_perm, Permutation_app_comm.
      cbn. by rewrite Ek.
Qed.

(** Turning the TCP timer on uses the node counted for it. *)
Lemma adds_turn_on hd s s' : tcpip_tcp_timer_active s = false -> tcpip_tcp_timer_active s' = true ->
  adds 1 [] hd (set_active true s) s' -> adds 0 [] hd s s'.
Proof.
  intros Ha Ha' (I & L & N & S & M & new & F & G & R & P).
  unfold slots, measure in *. rewrite Ha' in *. cbn [next_timeout tcpip_tcp_timer_active set_active] in *.
  split; [done|]. split; [done|]. split; [done|]. unfold adds, slots, measure. rewrite Ha, Ha'.
  split; [lia|]. split; [intros diff Hd; specialize (M diff Hd); lia|].
  exists new. split; [done|]. split; [done|]. split; [|done]. intros n Hn Hs. apply (R n Hn). lia.
Qed.

Lemma needed_adds s hd : tinv s ->
  exists s', tcp_timer_needed tcp_pcbs s = Some s' /\ adds 0 [] hd s s'.
Proof.
  intros I. unfold tcp_timer_needed.
  assert (adds 0 [] hd s s) as Same by (apply adds_none; auto using Z.le_refl).
  destruct (tcpip_tcp_timer_active s) eqn:Ha; cbn [negb andb]; [by eexists|].
  destruct (tcp_pcbs (world s)); [|by eexists].
  destruct (arm_adds (set_active true s) hd tcpip_tcp_timer TCP_TMR_INTERVAL)
    as (s' & E & H & Ew & Ea); [by apply tinv_set_active|done|by right|].
  exists s'. split; [done|]. by apply adds_turn_on.
Qed.

Lemma work_adds s hd ar : tinv s ->
  exists s', do_work work tcp_pcbs hd ar s = Some s' /\ adds 0 [] hd s s'.
Proof.
  intros I. unfold do_work. pose proof (work_frames hd ar (alloc s) (world s)) as F.
  destruct (work hd ar (alloc s) (world s)) as [[a w] reg]. cbn [fst] in F.
  pose proof (tinv_frame s a w I F) as I'.
  assert (adds 0 [] hd s (set_world a w s)) as H1.
  { apply adds_none; [done..|apply F|]. right. done. }
  destruct reg; [|by eexists].
  destruct (needed_adds (set_world a w s) hd I') as (s' & E & H2). exists s'. split; [done|].
  exact (adds_trans 0 0 _ _ _ _ _ _ H1 H2 (Z.le_refl 0)).
Qed.

(** The turns a callback makes for itself, the TCP timer aside. *)
Definition own_turn (hd : handler) : list handler :=
  filter not_tcp (if interval hd is Some _ then [hd] else []).

Lemma call_adds s hd ar : tinv s ->
  exists s', call_handler work tcp_pcbs hd ar s = Some s' /\ adds 1 (own_turn hd) hd s s'.
Proof.
  intros I. destruct (work_adds s hd ar I) as (s1 & E & H1).
  assert (forall k, interval hd = Some k ->
    exists s', sys_timeout k hd 0 s1 = Some s' /\ adds 1 (own_turn hd) hd s s') as Arm.
  { intros k Hk. destruct (arm_adds s1 hd hd k) as (s' & E' & H2 & _); [apply H1|done|by left|].
    exists s'. split; [done|]. unfold own_turn. rewrite Hk.
    exact (adds_trans 0 1 _ _ _ _ _ _ H1 H2 ltac:(lia)). }
  assert (adds 1 [] hd s1 s1 /\ adds 1 [] hd s s) as [Weak Weak'].
  { split; (apply adds_none; [try done; apply H1|done..|]); right; done. }
  destruct hd; cbn [call_handler];
    unfold tcpip_tcp_timer_body, arp_timer_body, dhcp_timer_coarse_body, dhcp_timer_fine_body,
      autoip_timer_body, dns_timer_body; rewrite ?E; cbn [mbind option_bind];
    try (by apply Arm).
  - by exists s.
  - destruct (tcp_pcbs (world s1)); [by apply Arm|]. eexists. split; [done|].
    apply (adds_trans 0 1 [] [] _ s s1); [done| |lia].
    apply adds_none; [apply tinv_set_active, H1|done|done|done|].
    cbn. destruct (tcpip_tcp_timer_active s1); [by left|by right].
  - exists s1. split; [done|]. exact (adds_trans 0 1 _ _ _ _ _ _ H1 Weak ltac:(lia)).
Qed.

(** The moment up to which the fired callbacks used the time up. *)
Fixpoint reached (passed : Z) (fired : list firing) : Z :=
  match fired with
  | [] => passed
  | f :: r => reached f.1.1 r
  end.

(** The next turns of the callbacks [fired], the TCP timer aside. *)
Definition turn (d : Z) (x : handler) : firing := (d + default 0 (interval x), x, 0).
Definition turns (fired : list firing) : list firing :=
  fired ≫= fun f => turn f.1.1 <$> own_turn f.1.2.

Lemma filter_turns d (new : list handler) :
  filter (fun e : firing => not_tcp e.1.2) (turn d <$> new) = turn d <$> filter not_tcp new.
Proof.
  induction new as [|x new IH]; [done|]. rewrite fmap_cons, !filter_cons. cbn [turn fst snd].
  destruct (decide (not_tcp x)); rewrite IH; done.
Qed.

(** What a run of the loop with [passed] milliseconds used up and [diff] left
    does: callbacks run in the order they are due, from [passed] on and never
    early; those run and those left are the ones that were there and those the
    callbacks made; none left is due. *)
Definition check_spec (passed diff : Z) s (fired : list firing) s' (armed : list firing) : Prop :=
  Sorted Z.le (passed :: (fst ∘ fst <$> fired)) /\
  Forall (fun f => f.1.1 <= passed + diff) fired /\
  Forall (fun e => exists f, f ∈ fired /\ armed_by f e) armed /\
  fired ++ schedule (reached passed fired) (next_timeout s')
    ≡ₚ schedule passed (next_timeout s) ++ armed /\
  Forall (fun e => passed + diff < e.1.1) (schedule (reached passed fired) (next_timeout s')).

Lemma check_spec_stop passed diff s s' : wf (next_timeout s) -> next_timeout s' = next_timeout s ->
  Forall (fun e => passed + diff < e.1.1) (schedule passed (next_timeout s)) ->
  check_spec passed diff s [] s' [].
Proof.
  intros Hw E F. unfold check_spec. cbn. rewrite E, app_nil_r.
  split; [by repeat constructor|]. done.
Qed.

Lemma check_spec_step passed diff s t r s1 s2 fired armed new :
  next_timeout s = t :: r -> 0 <= time t <= diff ->
  Forall (fun x => x = h t \/ x = tcpip_tcp_timer) new ->
  Forall (fun x => is_Some (interval x)) new ->
  (forall base, schedule base (next_timeout s1) ≡ₚ schedule base r ++ (turn base <$> new)) ->
  check_spec (passed + time t) (diff - time t) s1 fired s2 armed ->
  check_spec passed diff s ((passed + time t, h t, arg t) :: fired) s2
    ((turn (passed + time t) <$> new) ++ armed).
Proof.
  intros En Ht F G P (So & Le & Ar & Pe & Gt).
  replace (passed + time t + (diff - time t)) with (passed + diff) in * by lia.
  unfold check_spec. cbn [reached fst]. repeat split.
  - rewrite fmap_cons. constructor; [done|]. constructor. cbn. lia.
  - constructor; [cbn; lia|done].
  - apply Forall_app. split.
    + apply Forall_fmap, Forall_forall. intros x Hx. rewrite Forall_forall in F, G.
      exists (passed + time t, h t, arg t). split; [set_solver|]. unfold armed_by, turn. cbn [fst snd].
      destruct (G x Hx) as (k & Ek). split; [by apply F|]. split; [done|]. rewrite Ek. by exists k.
    + eapply Forall_impl; [exact Ar|]. intros e (f & Hf & ?). exists f. split; [set_solver|done].
  - rewrite En. cbn [schedule app]. apply Permutation_skip. rewrite Pe, P. by rewrite app_assoc.
  - done.
Qed.

(** Enough elements of the pool for all timers at once. *)
Definition room s : Prop :=
  exists n, pool_num (alloc s) MEMP_SYS_TIMEOUT = Some n /\ slots s <= Z.of_nat n.

(** The node of the first timeout is given back and its callback runs. *)
Lemma fire_spec s now t r : tinv s -> next_timeout s = t :: r ->
  exists a s1 new,
    pool_free MEMP_SYS_TIMEOUT (addr t) (alloc s) = Some a /\
    call_handler work tcp_pcbs (h t) (arg t) (set_alloc a (set_list r (set_last now s))) = Some s1 /\
    tinv s1 /\ timeouts_last_time s1 = now /\ (room s -> room s1 /\ filter not_tcp new = own_turn (h t)) /\
    (forall diff, time t <= diff -> measure (diff - time t) s1 < measure diff s) /\
    Forall (fun x => x = h t \/ x = tcpip_tcp_timer) new /\
    Forall (fun x => is_Some (interval x)) new /\
    forall base, schedule base (next_timeout s1) ≡ₚ schedule base r ++ (turn base <$> new).
Proof.
  intros I En. pose proof (ti_wf s I) as Hw. rewrite En in Hw. apply wf_cons in Hw as (Ht & Hr & _).
  destruct (tinv_release (set_last now s) t r) as (a & E1 & I2);
    [by apply tinv_set_last|done|cbn; by rewrite En|].
  destruct (call_adds _ (h t) (arg t) I2) as (s1 & E2 & (I3 & L & N & Sl & M & new & F & G & R & P)).
  exists a, s1, new. split; [done|]. split; [done|]. split; [done|]. split; [done|].
  apply pool_free_num in E1. cbn [alloc set_last set_alloc] in E1, N.
  unfold slots in Sl, R. cbn [next_timeout set_alloc set_list tcpip_tcp_timer_active set_last alloc] in Sl, R.
  split; [|split; [|done]].
  - intros (n & En' & Hn). unfold slots in Hn. rewrite En in Hn. cbn [length] in Hn. split.
    + exists n. rewrite N, E1. split; [done|]. unfold slots. lia.
    + apply (R n); [by rewrite E1|lia].
  - intros diff Hd. specialize (M (diff - time t) ltac:(lia)). revert M. unfold measure.
    rewrite En. cbn [next_timeout set_alloc set_list tcpip_tcp_timer_active set_last schedule].
    cbn [sum_left foldr]. fold (sum_left diff (schedule (0 + time t) r)). rewrite sum_left_shift.
    unfold left. cbn [fst]. destruct (tcpip_tcp_timer_active s), (tcpip_tcp_timer_active s1); lia.
Qed.

Lemma check_loop_spec fuel : forall now passed diff s,
  tinv s -> 0 <= diff < 2 ^ 32 -> measure diff s < Z.of_nat fuel ->
  exists fired s' armed,
    check_loop work tcp_pcbs check_ooseq fuel now passed diff s = Some (fired, s') /\
    tinv s' /\ check_spec passed diff s fired s' armed /\
    timeouts_last_time s' = (if fired is [] then timeouts_last_time s else now) /\
    (room s -> room s' /\ filter (fun e : firing => not_tcp e.1.2) armed = turns fired).
Proof.
  induction fuel as [|fuel IH]; intros now passed diff s I Hd Hf;
    [pose proof (measure_nonneg diff s); lia|].
  cbn [check_loop]. pose proof (ooseq_frames (alloc s) (world s)) as Fr.
  destruct (check_ooseq (alloc s) (world s)) as [a w].
  pose proof (tinv_frame s a w I Fr) as I1.
  assert (room s -> room (set_world a w s)) as Hroom.
  { intros (n & ? & ?). exists n. destruct Fr as (_ & Fn & _). cbn [fst] in Fn. cbn [alloc set_world].
    by rewrite Fn. }
  change (next_timeout (set_world a w s)) with (next_timeout s).
  assert (Forall (fun e => passed + diff < e.1.1) (schedule passed (next_timeout s)) ->
    exists fired s' armed, Some ([], set_world a w s) = Some (fired, s') /\
    tinv s' /\ check_spec passed diff s fired s' armed /\
    timeouts_last_time s' = (if fired is [] then timeouts_last_time s else now) /\
    (room s -> room s' /\ filter (fun e : firing => not_tcp e.1.2) armed = turns fired)) as Stop.
  { intros F. exists [], (set_world a w s), []. split; [done|]. split; [done|].
    split; [apply check_spec_stop; [apply I|done|done]|]. auto. }
  destruct (next_timeout s) as [|t r] eqn:En; [by apply Stop|].
  pose proof (ti_wf s I) as Hw. rewrite En in Hw. apply wf_cons in Hw as (Ht & Hr & _).
  destruct (Z.leb_spec (time t) diff) as [Hle|Hgt].
  2:{ apply Stop. cbn [schedule]. constructor; [cbn; lia|].
      eapply Forall_impl; [apply schedule_ge, Hr|]. cbn. lia. }
  destruct (fire_spec (set_world a w s) now t r I1 En)
    as (a' & s1 & new & E1 & E2 & I3 & L3 & R3 & M3 & F3 & G3 & P3).
  cbn [alloc set_list set_last] in E1 |- *. cbn [alloc set_world] in E1 |- *. rewrite E1.
  cbn [mbind option_bind]. rewrite E2. cbn [mbind option_bind]. rewrite (wrap_id 32) by cint.
  specialize (M3 diff Hle). change (measure diff (set_world a w s)) with (measure diff s) in M3.
  destruct (IH now (passed + time t) (diff - time t) s1 I3)
    as (fired & s' & armed & E4 & I4 & C4 & L4 & R4); [lia..|].
  rewrite E4. cbn [mbind option_bind]. eexists _, s', _. split; [done|]. split; [done|]. split; [|split].
  - eapply check_spec_step; eauto; lia.
  - destruct fired; [|done]. by rewrite L4.
  - intros Rm. destruct (R3 (Hroom Rm)) as [Rm1 Hn]. destruct (R4 Rm1) as [Rm' Ha]. split; [done|].
    unfold turns. rewrite filter_app, filter_turns, bind_cons, Hn, Ha. done.
Qed.

Lemma sum_left_bound diff l : 0 <= diff -> Forall (fun e => 0 <= e.1.1) l ->
  sum_left diff l <= Z.of_nat (length l) * (diff + 1).
Proof.
  intros Hd. unfold sum_left. induction 1; cbn [foldr length]; [done|]. unfold left at 1. nia.
Qed.

Lemma measure_bound diff s : tinv s -> 0 <= diff ->
  measure diff s < (Z.of_nat (length (next_timeout s)) + 1) * (diff + 1).
Proof.
  intros [[F _] _] Hd. pose proof (sum_left_bound diff (schedule 0 (next_timeout s)) Hd (schedule_ge 0 _ F)) as B.
  rewrite schedule_length in B. unfold measure. destruct tcpip_tcp_timer_active; nia.
Qed.

(** [sys_timeouts_init] starts the five periodic timers. *)
Lemma sys_timeouts_init_spec now s n : tinv s -> next_timeout s = [] ->
  pool_num (alloc s) MEMP_SYS_TIMEOUT = Some n -> (5 <= n)%nat ->
  exists s', sys_timeouts_init now s = Some s' /\ tinv s' /\ timeouts_last_time s' = now /\
    tcpip_tcp_timer_active s' = tcpip_tcp_timer_active s /\ pool_num (alloc s') = pool_num (alloc s) /\
    schedule 0 (next_timeout s') = [(100, autoip_timer, 0); (500, dhcp_timer_fine, 0);
      (1000, dns_timer, 0); (5000, arp_timer, 0); (60000, dhcp_timer_coarse, 0)].
Proof.
  intros I E0 Hn H5. unfold sys_timeouts_init.
  assert (schedule 0 (next_timeout s) = []) as S0 by (by rewrite E0). clear E0.
  assert (forall s1 k x l, tinv s1 -> 0 <= k < 2 ^ 32 -> schedule 0 (next_timeout s1) = l ->
    pool_num (alloc s1) = pool_num (alloc s) -> (length l < 5)%nat ->
    exists s2, sys_timeout k x 0 s1 = Some s2 /\ tinv s2 /\ pool_num (alloc s2) = pool_num (alloc s) /\
      tcpip_tcp_timer_active s2 = tcpip_tcp_timer_active s1 /\
      schedule 0 (next_timeout s2) = insert_after (k, x, 0) l) as Step.
  { intros s1 k x l I1 Hk El N1 Hl.
    destruct (sys_timeout_spec s1 k x 0 I1 Hk) as (s2 & E & I2 & _ & _ & A2 & N2 & Cs). exists s2.
    split; [done|]. split; [done|]. split; [congruence|]. split; [done|].
    destruct Cs as [[_ Full]|Cs]; [|by rewrite Cs, El].
    rewrite <-(schedule_length 0), El in Full. specialize (Full n). rewrite N1 in Full.
    specialize (Full Hn). lia. }
  destruct (Step s ARP_TMR_INTERVAL arp_timer [] I) as (s1 & -> & I1 & N1 & A1 & S1); [done..|cbn; lia|].
  cbn [mbind option_bind].
  edestruct (Step s1 DHCP_COARSE_TIMER_MSECS dhcp_timer_coarse) as (s2 & -> & I2 & N2 & A2 & S2);
    [done|done|exact S1|done|by apply Nat.ltb_lt; vm_compute|]. cbn [mbind option_bind].
  edestruct (Step s2 DHCP_FINE_TIMER_MSECS dhcp_timer_fine) as (s3 & -> & I3 & N3 & A3 & S3);
    [done|done|exact S2|done|by apply Nat.ltb_lt; vm_compute|]. cbn [mbind option_bind].
  edestruct (Step s3 AUTOIP_TMR_INTERVAL autoip_timer) as (s4 & -> & I4 & N4 & A4 & S4);
    [done|done|exact S3|done|by apply Nat.ltb_lt; vm_compute|]. cbn [mbind option_bind].
  edestruct (Step s4 DNS_TMR_INTERVAL dns_timer) as (s5 & -> & I5 & N5 & A5 & S5);
    [done|done|exact S4|done|by apply Nat.ltb_lt; vm_compute|]. cbn [mbind option_bind].
  eexists. split; [done|]. split; [by apply tinv_set_last|]. split; [done|].
  cbn [tcpip_tcp_timer_active set_last alloc next_timeout]. split; [congruence|]. split; [done|].
  rewrite S5. reflexivity.
Qed.

(** ** Properties *)

(** [sys_timeout] puts the timeout where it is due [msecs] after
    [timeouts_last_time], behind the ones due at the same moment, and changes
    when no other timeout is due, whatever the delays in the list (no
    subtraction wraps); it does nothing exactly when all elements of the pool
    are in the list already. *)
Theorem sys_timeout_correct s msecs hd ar n : tinv s -> 0 <= msecs < 2 ^ 32 ->
  pool_num (alloc s) MEMP_SYS_TIMEOUT = Some n ->
  exists s', sys_timeout msecs hd ar s = Some s' /\ tinv s' /\
    timeouts_last_time s' = timeouts_last_time s /\
    if decide (length (next_timeout s) = n) then next_timeout s' = next_timeout s
    else forall base, schedule base (next_timeout s')
       = insert_after (base + msecs, hd, ar) (schedule base (next_timeout s)).
Proof.
  intros I Hm Hn. destruct (sys_timeout_full s msecs hd ar n I Hm Hn) as (s' & E & I' & L & H).
  by exists s'.
Qed.

(** [sys_untimeout] takes the first timeout with that callback and argument
    out of the list, gives its element back to the pool and changes when no
    other timeout is due; without such a timeout nothing happens. *)
Theorem sys_untimeout_correct s hd ar : tinv s ->
  exists s', sys_untimeout hd ar s = Some s' /\ tinv s' /\
    timeouts_last_time s' = timeouts_last_time s /\
    forall base, schedule base (next_timeout s') = remove_first hd ar (schedule base (next_timeout s)).
Proof.
  intros I. destruct (sys_untimeout_spec s hd ar I) as (s' & E & I' & _ & L & H). by exists s'.
Qed.

(** C34: [sys_check_timeouts] returns, after at most one callback per pending
    timeout and millisecond passed.  It runs callbacks in the order they are due
    and none early; what it ran and what stays in the list is what was pending
    and what the callbacks started; nothing that stays is due; and when the pool
    has an element for every timer, each periodic callback it ran is pending
    again one period after it was due (or ran again). *)
Theorem sys_check_timeouts_correct fuel now s : tinv s -> next_timeout s ≠ [] ->
  let diff := u32 (now - timeouts_last_time s) in
  (Z.of_nat (length (next_timeout s)) + 1) * (diff + 1) <= Z.of_nat fuel ->
  exists fired s' armed,
    sys_check_timeouts work tcp_pcbs check_ooseq fuel now s = Some (fired, s') /\
    tinv s' /\ check_spec 0 diff s fired s' armed /\
    timeouts_last_time s' = (if fired is [] then timeouts_last_time s else now) /\
    (room s -> room s' /\ filter (fun e : firing => not_tcp e.1.2) armed = turns fired).
Proof.
  intros I Hne diff Hf. unfold sys_check_timeouts.
  assert (0 <= diff < 2 ^ 32) as Hd by (apply wrap_range; lia).
  destruct (next_timeout s) as [|t r] eqn:En; [done|]. rewrite <-En in Hf. fold diff.
  apply check_loop_spec; [done|done|]. pose proof (measure_bound diff s I). lia.
Qed.
End Correct.

(** ** Examples *)

(** Eight timeouts, as memp_std.h has them, and callbacks that register a TCP
    control block (the boolean world). *)
Definition timer_pools : list Memp.pool :=
  [Memp.mk_pool 2 32; Memp.mk_pool 2 36; Memp.mk_pool 2 172; Memp.mk_pool 2 36;
   Memp.mk_pool 2 20; Memp.mk_pool 8 16].

Lemma timer_areas : areas 0x20001001 timer_pools 0x20020002.
Proof. split; [repeat constructor|repeat constructor|split; vm_compute; reflexivity..|]. left. by vm_compute. Qed.

Definition demo_work (hd : handler) (ar : Z) (a : lwip_mem) (w : bool) : lwip_mem * bool * bool :=
  (a, true, true).
Definition demo_ooseq (a : lwip_mem) (w : bool) : lwip_mem * bool := (a, w).

Definition ts0 : timers lwip_mem bool :=
  mk_timers _ _ (lwip_init_mem 0x20001001 timer_pools 0x20020002) false [] 0 false.

Lemma ts0_inv : tinv ts0.
Proof.
  split; [by repeat constructor|]. exists 16, []. split; [done|]. split; [|done].
  apply lwip_init_owns, timer_areas.
Qed.

Definition ts1 : timers lwip_mem bool := default ts0 (sys_timeouts_init 7 ts0).

Lemma ts1_inv : tinv ts1.
Proof.
  destruct (sys_timeouts_init_spec 7 ts0 8 ts0_inv) as (s' & E & I & _); [done|done|lia|].
  unfold ts1. by rewrite E.
Qed.

Lemma sys_timeout_correct_witness : exists s', sys_timeout 700 (other_handler 1) 9 ts1 = Some s' /\
  tinv s' /\ timeouts_last_time s' = 7 /\ forall base, schedule base (next_timeout s')
    = insert_after (base + 700, other_handler 1, 9) (schedule base (next_timeout ts1)).
Proof.
  exact (sys_timeout_correct ts1 700 (other_handler 1) 9 8 ts1_inv ltac:(done) eq_refl).
Defined.

Lemma sys_untimeout_correct_witness : exists s', sys_untimeout dns_timer 0 ts1 = Some s' /\
  tinv s' /\ timeouts_last_time s' = 7 /\
  forall base, schedule base (next_timeout s') = remove_first dns_timer 0 (schedule base (next_timeout ts1)).
Proof. exact (sys_untimeout_correct ts1 dns_timer 0 ts1_inv). Defined.

Lemma frames_refl (a : lwip_mem) : frames a a.
Proof. split; [done|]. split; [done|]. intros live O. by exists live. Qed.

Lemma sys_check_timeouts_correct_witness : exists fired s' armed,
  sys_check_timeouts demo_work id demo_ooseq 5000 517 ts1 = Some (fired, s') /\
  tinv s' /\ check_spec 0 (u32 (517 - timeouts_last_time ts1)) ts1 fired s' armed /\
  timeouts_last_time s' = (if fired is [] then timeouts_last_time ts1 else 517) /\
  (room ts1 -> room s' /\ filter (fun e : firing => not_tcp e.1.2) armed = turns fired).
Proof.
  apply (sys_check_timeouts_correct demo_work id demo_ooseq (fun _ _ a _ => frames_refl a)
    (fun a _ => frames_refl a) 5000 517 ts1 ts1_inv);
    vm_compute; discriminate.
Defined.

Example demo_check :
  (fun x => x.1) <$> sys_check_timeouts demo_work id demo_ooseq 5000 517 ts1
  = Some [(100, autoip_timer, 0); (200, autoip_timer, 0); (300, autoip_timer, 0);
          (350, tcpip_tcp_timer, 0); (400, autoip_timer, 0); (500, dhcp_timer_fine, 0);
          (500, autoip_timer, 0)].
Proof. vm_compute. reflexivity. Qed.

(** [sys_check_timeouts] sets [timeouts_last_time] to the present when it
    runs a callback, and does not take the rest of the time passed off the next
    delay: with timeouts due at 100 and at 1000 and a check at 199, the second
    one is not run at 1000 but 99 milliseconds late. *)
Theorem sys_check_timeouts_late :
  let check := sys_check_timeouts (fun _ _ a w => (a, w, false)) id demo_ooseq 9 in
  (s ← sys_timeout 100 (other_handler 1) 0 ts0; s ← sys_timeout 1000 (other_handler 2) 0 s;
   '(fired1, s1) ← check 199 s; '(fired2, s2) ← check 1098 s1; '(fired3, _) ← check 1099 s2;
   Some (schedule (timeouts_last_time s) (next_timeout s), fired1, fired2, fired3))
  = Some ([(100, other_handler 1, 0); (1000, other_handler 2, 0)],
          [(100, other_handler 1, 0)], [], [(900, other_handler 2, 0)]).
Proof. vm_compute. reflexivity. Qed.

End Timers.
