(* ===== verification/Pins.v ===== *)
(** * The pin tables of the board (variants/logo8/pins_energia.h)

    The tables an Arduino pin number indexes, and the constants of
    cores/tivac/Energia.h, system/inc/hw_memmap.h, system/driverlib/pin_map.h and
    system/driverlib/adc.h they are made of, for the TM4C1294 the board has. *)
From S2P Require Import Prelude.

Module Pins.

Definition NOT_A_PORT : Z := 0.
Definition NOT_A_PIN : Z := 0.
Definition NOT_ON_TIMER : Z := 0.
Definition NOT_ON_ADC : Z := 0x10.
Definition BV (x : Z) : Z := Z.shiftl 1 x.

Definition PA : Z := 1.
Definition PB : Z := 2.
Definition PC : Z := 3.
Definition PD : Z := 4.
Definition PE : Z := 5.
Definition PF : Z := 6.
Definition PG : Z := 7.
Definition PH : Z := 8.
Definition PJ : Z := 9.
Definition PK : Z := 10.
Definition PL : Z := 11.
Definition PM : Z := 12.
Definition PN : Z := 13.
Definition PP : Z := 14.
Definition PQ : Z := 15.
Definition PR : Z := 16.
Definition PS : Z := 17.
Definition PT : Z := 18.

Definition GPIO_PORTA_BASE : Z := 0x40004000.
Definition GPIO_PORTB_BASE : Z := 0x40005000.
Definition GPIO_PORTC_BASE : Z := 0x40006000.
Definition GPIO_PORTD_BASE : Z := 0x40007000.
Definition GPIO_PORTE_BASE : Z := 0x40024000.
Definition GPIO_PORTF_BASE : Z := 0x40025000.
Definition GPIO_PORTG_BASE : Z := 0x40026000.
Definition GPIO_PORTH_BASE : Z := 0x40027000.
Definition GPIO_PORTJ_BASE : Z := 0x4003D000.
Definition GPIO_PORTK_BASE : Z := 0x40061000.
Definition GPIO_PORTL_BASE : Z := 0x40062000.
Definition GPIO_PORTM_BASE : Z := 0x40063000.
Definition GPIO_PORTN_BASE : Z := 0x40064000.
Definition GPIO_PORTP_BASE : Z := 0x40065000.
Definition GPIO_PORTQ_BASE : Z := 0x40066000.
Definition GPIO_PORTR_BASE : Z := 0x40067000.
Definition GPIO_PORTS_BASE : Z := 0x40068000.
Definition GPIO_PORTT_BASE : Z := 0x40069000.

Definition T0CCP0_0 : Z := 0.
Definition T0CCP0_1 : Z := 1.
Definition T0CCP0_2 : Z := 2.
Definition T0CCP1_0 : Z := 3.
Definition T0CCP1_1 : Z := 4.
Definition T0CCP1_2 : Z := 5.
Definition T1CCP0_0 : Z := 6.
Definition T1CCP0_1 : Z := 7.
Definition T1CCP0_2 : Z := 8.
Definition T1CCP1_0 : Z := 9.
Definition T1CCP1_1 : Z := 10.
Definition T1CCP1_2 : Z := 11.
Definition T2CCP0_0 : Z := 12.
Definition T2CCP0_1 : Z := 13.
Definition T2CCP1_0 : Z := 14.
Definition T2CCP1_1 : Z := 15.
Definition T3CCP0_0 : Z := 16.
Definition T3CCP0_1 : Z := 17.
Definition T3CCP0_2 : Z := 18.
Definition T3CCP1_0 : Z := 19.
Definition T3CCP1_1 : Z := 20.
Definition T3CCP1_2 : Z := 21.
Definition T4CCP0_0 : Z := 22.
Definition T4CCP0_1 : Z := 23.
Definition T4CCP0_2 : Z := 24.
Definition T4CCP1_0 : Z := 25.
Definition T4CCP1_1 : Z := 26.
Definition T4CCP1_2 : Z := 27.
Definition T5CCP0_0 : Z := 28.
Definition T5CCP0_1 : Z := 29.
Definition T5CCP1_0 : Z := 30.
Definition T5CCP1_1 : Z := 31.

Definition TIMA : Z := 0.
Definition TIMB : Z := 8.
Definition TIMER0 : Z := 0.
Definition TIMER1 : Z := 1.
Definition TIMER2 : Z := 2.
Definition TIMER3 : Z := 3.
Definition TIMER4 : Z := 4.
Definition TIMER5 : Z := 5.
Definition WTIMER0 : Z := 6.

Definition GPIO_PD0_T0CCP0 : Z := 0x00030003.
Definition GPIO_PA0_T0CCP0 : Z := 0x00000003.
Definition GPIO_PL4_T0CCP0 : Z := 0x000A1003.
Definition GPIO_PD1_T0CCP1 : Z := 0x00030403.
Definition GPIO_PA1_T0CCP1 : Z := 0x00000403.
Definition GPIO_PL5_T0CCP1 : Z := 0x000A1403.
Definition GPIO_PD2_T1CCP0 : Z := 0x00030803.
Definition GPIO_PA2_T1CCP0 : Z := 0x00000803.
Definition GPIO_PL6_T1CCP0 : Z := 0x000A1803.
Definition GPIO_PD3_T1CCP1 : Z := 0x00030C03.
Definition GPIO_PA3_T1CCP1 : Z := 0x00000C03.
Definition GPIO_PL7_T1CCP1 : Z := 0x000A1C03.
Definition GPIO_PA4_T2CCP0 : Z := 0x00001003.
Definition GPIO_PM0_T2CCP0 : Z := 0x000B0003.
Definition GPIO_PA5_T2CCP1 : Z := 0x00001403.
Definition GPIO_PM1_T2CCP1 : Z := 0x000B0403.
Definition GPIO_PA6_T3CCP0 : Z := 0x00001803.
Definition GPIO_PM2_T3CCP0 : Z := 0x000B0803.
Definition GPIO_PD4_T3CCP0 : Z := 0x00031003.
Definition GPIO_PA7_T3CCP1 : Z := 0x00001C03.
Definition GPIO_PM3_T3CCP1 : Z := 0x000B0C03.
Definition GPIO_PD5_T3CCP1 : Z := 0x00031403.
Definition GPIO_PM4_T4CCP0 : Z := 0x000B1003.
Definition GPIO_PB0_T4CCP0 : Z := 0x00010003.
Definition GPIO_PD6_T4CCP0 : Z := 0x00031803.
Definition GPIO_PM5_T4CCP1 : Z := 0x000B1403.
Definition GPIO_PB1_T4CCP1 : Z := 0x00010403.
Definition GPIO_PD7_T4CCP1 : Z := 0x00031C03.
Definition GPIO_PM6_T5CCP0 : Z := 0x000B1803.
Definition GPIO_PB2_T5CCP0 : Z := 0x00010803.
Definition GPIO_PM7_T5CCP1 : Z := 0x000B1C03.
Definition GPIO_PB3_T5CCP1 : Z := 0x00010C03.

Definition ADC_CTL_CH0 : Z := 0x00000000.
Definition ADC_CTL_CH1 : Z := 0x00000001.
Definition ADC_CTL_CH2 : Z := 0x00000002.
Definition ADC_CTL_CH3 : Z := 0x00000003.
Definition ADC_CTL_CH4 : Z := 0x00000004.
Definition ADC_CTL_CH5 : Z := 0x00000005.
Definition ADC_CTL_CH6 : Z := 0x00000006.
Definition ADC_CTL_CH7 : Z := 0x00000007.
Definition ADC_CTL_CH8 : Z := 0x00000008.
Definition ADC_CTL_CH9 : Z := 0x00000009.
Definition ADC_CTL_CH10 : Z := 0x0000000A.
Definition ADC_CTL_CH11 : Z := 0x0000000B.
Definition ADC_CTL_CH12 : Z := 0x0000000C.
Definition ADC_CTL_CH13 : Z := 0x0000000D.
Definition ADC_CTL_CH14 : Z := 0x0000000E.
Definition ADC_CTL_CH15 : Z := 0x0000000F.
Definition ADC_CTL_TS : Z := 0x00000080.
Definition ADC_CTL_CH16 : Z := 0x00000100.
Definition ADC_CTL_CH17 : Z := 0x00000101.
Definition ADC_CTL_CH18 : Z := 0x00000102.
Definition ADC_CTL_CH19 : Z := 0x00000103.

Definition port_to_base : list Z :=
  [NOT_A_PORT; GPIO_PORTA_BASE; GPIO_PORTB_BASE; GPIO_PORTC_BASE; GPIO_PORTD_BASE;
   GPIO_PORTE_BASE; GPIO_PORTF_BASE; GPIO_PORTG_BASE; GPIO_PORTH_BASE; GPIO_PORTJ_BASE;
   GPIO_PORTK_BASE; GPIO_PORTL_BASE; GPIO_PORTM_BASE; GPIO_PORTN_BASE; GPIO_PORTP_BASE;
   GPIO_PORTQ_BASE].

Definition timer_to_offset : list Z :=
  [TIMER0; TIMER0; TIMER0; TIMER0; TIMER0; TIMER0; TIMER1; TIMER1; TIMER1; TIMER1; TIMER1;
   TIMER1; TIMER2; TIMER2; TIMER2; TIMER2; TIMER3; TIMER3; TIMER3; TIMER3; TIMER3; TIMER3;
   TIMER4; TIMER4; TIMER4; TIMER4; TIMER4; TIMER4; TIMER5; TIMER5; TIMER5; TIMER5].

Definition timer_to_ab : list Z :=
  [TIMA; TIMA; TIMA; TIMB; TIMB; TIMB; TIMA; TIMA; TIMA; TIMB; TIMB; TIMB; TIMA; TIMA; TIMB;
   TIMB; TIMA; TIMA; TIMA; TIMB; TIMB; TIMB; TIMA; TIMA; TIMA; TIMB; TIMB; TIMB; TIMA; TIMA;
   TIMB; TIMB].

Definition timer_to_pin_config : list Z :=
  [GPIO_PD0_T0CCP0; GPIO_PA0_T0CCP0; GPIO_PL4_T0CCP0; GPIO_PD1_T0CCP1; GPIO_PA1_T0CCP1;
   GPIO_PL5_T0CCP1; GPIO_PD2_T1CCP0; GPIO_PA2_T1CCP0; GPIO_PL6_T1CCP0; GPIO_PD3_T1CCP1;
   GPIO_PA3_T1CCP1; GPIO_PL7_T1CCP1; GPIO_PA4_T2CCP0; GPIO_PM0_T2CCP0; GPIO_PA5_T2CCP1;
   GPIO_PM1_T2CCP1; GPIO_PA6_T3CCP0; GPIO_PM2_T3CCP0; GPIO_PD4_T3CCP0; GPIO_PA7_T3CCP1;
   GPIO_PM3_T3CCP1; GPIO_PD5_T3CCP1; GPIO_PM4_T4CCP0; GPIO_PB0_T4CCP0; GPIO_PD6_T4CCP0;
   GPIO_PM5_T4CCP1; GPIO_PB1_T4CCP1; GPIO_PD7_T4CCP1; GPIO_PM6_T5CCP0; GPIO_PB2_T5CCP0;
   GPIO_PM7_T5CCP1; GPIO_PB3_T5CCP1].

Definition digital_pin_to_timer : list Z :=
  [NOT_ON_TIMER; NOT_ON_TIMER; NOT_ON_TIMER; NOT_ON_TIMER; NOT_ON_TIMER; NOT_ON_TIMER;
   NOT_ON_TIMER; T1CCP1_0; NOT_ON_TIMER; T5CCP0_1; T5CCP1_1; NOT_ON_TIMER; NOT_ON_TIMER;
   NOT_ON_TIMER; T0CCP0_1; T0CCP1_0; NOT_ON_TIMER; NOT_ON_TIMER; NOT_ON_TIMER; T3CCP1_1;
   NOT_ON_TIMER; NOT_ON_TIMER; NOT_ON_TIMER; NOT_ON_TIMER; NOT_ON_TIMER; NOT_ON_TIMER;
   NOT_ON_TIMER; T4CCP1_2; T3CCP0_0; T4CCP0_0; T4CCP1_0; NOT_ON_TIMER; NOT_ON_TIMER;
   NOT_ON_TIMER; NOT_ON_TIMER; T0CCP1_2; T0CCP0_2; NOT_ON_TIMER; NOT_ON_TIMER; NOT_ON_TIMER;
   NOT_ON_TIMER; NOT_ON_TIMER; T1CCP0_0; NOT_ON_TIMER; NOT_ON_TIMER; T3CCP0_2; T3CCP1_2;
   NOT_ON_TIMER; NOT_ON_TIMER; NOT_ON_TIMER; NOT_ON_TIMER; T5CCP0_0; NOT_ON_TIMER;
   NOT_ON_TIMER; NOT_ON_TIMER; NOT_ON_TIMER; NOT_ON_TIMER; T3CCP1_0; NOT_ON_TIMER; T5CCP1_0;
   NOT_ON_TIMER; NOT_ON_TIMER; NOT_ON_TIMER; NOT_ON_TIMER; NOT_ON_TIMER; NOT_ON_TIMER;
   NOT_ON_TIMER; NOT_ON_TIMER; NOT_ON_TIMER; T2CCP0_0; T2CCP1_0; NOT_ON_TIMER; NOT_ON_TIMER;
   NOT_ON_TIMER; NOT_ON_TIMER; T3CCP0_1; T2CCP1_1; T2CCP0_1; NOT_ON_TIMER; NOT_ON_TIMER;
   NOT_ON_TIMER; NOT_ON_TIMER; NOT_ON_TIMER; NOT_ON_TIMER; NOT_ON_TIMER; NOT_ON_TIMER;
   NOT_ON_TIMER; T4CCP0_2; T0CCP0_1; T0CCP1_1; T1CCP0_1; T1CCP1_1; T1CCP0_2; T1CCP1_2;
   T4CCP0_1; T4CCP1_1].

Definition digital_pin_to_port : list Z :=
  [NOT_A_PIN; NOT_A_PIN; PE; PC; PC; PC; PE; PD; PC; PB; PB; PP; PN; PN; PD; PD; NOT_A_PIN; PH;
   PH; PM; NOT_A_PIN; NOT_A_PIN; NOT_A_PIN; PE; PE; PE; PE; PD; PA; PM; PM; PL; PL; PL; PL; PL;
   PL; PG; PF; PF; PF; NOT_A_PIN; PD; PP; PP; PD; PD; PQ; PP; PN; PN; PM; PQ; PP; PQ; PQ;
   NOT_A_PIN; PA; PP; PM; NOT_A_PIN; NOT_A_PIN; NOT_A_PIN; PB; PB; PK; PK; PK; PK; PA; PA; PK;
   PK; PH; PH; PM; PM; PM; PK; PK; PG; PN; PN; PF; PF; PJ; PJ; PD; PA; PA; PA; PA; PL; PL; PB;
   PB].

Definition digital_pin_to_bit_mask : list Z :=
  [NOT_A_PIN; NOT_A_PIN; BV 4; BV 4; BV 5; BV 6; BV 5; BV 3; BV 7; BV 2; BV 3; BV 2; BV 3;
   BV 2; BV 0; BV 1; NOT_A_PIN; BV 3; BV 2; BV 3; NOT_A_PIN; NOT_A_PIN; NOT_A_PIN; BV 0; BV 1;
   BV 2; BV 3; BV 7; BV 6; BV 4; BV 5; BV 3; BV 2; BV 1; BV 0; BV 5; BV 4; BV 0; BV 3; BV 2;
   BV 1; NOT_A_PIN; BV 2; BV 0; BV 1; BV 4; BV 5; BV 0; BV 4; BV 5; BV 4; BV 6; BV 1; BV 3;
   BV 3; BV 2; NOT_A_PIN; BV 7; BV 5; BV 7; NOT_A_PIN; NOT_A_PIN; NOT_A_PIN; BV 4; BV 5; BV 0;
   BV 1; BV 2; BV 3; BV 4; BV 5; BV 7; BV 6; BV 1; BV 0; BV 2; BV 1; BV 0; BV 5; BV 4; BV 1;
   BV 1; BV 0; BV 4; BV 0; BV 0; BV 1; BV 6; BV 0; BV 1; BV 2; BV 3; BV 6; BV 7; BV 0; BV 1].

Definition digital_pin_to_analog_in : list Z :=
  [ADC_CTL_TS; NOT_ON_ADC; ADC_CTL_CH9; NOT_ON_ADC; NOT_ON_ADC; NOT_ON_ADC; ADC_CTL_CH8;
   ADC_CTL_CH12; NOT_ON_ADC; NOT_ON_ADC; NOT_ON_ADC; NOT_ON_ADC; NOT_ON_ADC; NOT_ON_ADC;
   ADC_CTL_CH15; ADC_CTL_CH14; NOT_ON_ADC; NOT_ON_ADC; NOT_ON_ADC; NOT_ON_ADC; NOT_ON_ADC;
   NOT_ON_ADC; NOT_ON_ADC; ADC_CTL_CH3; ADC_CTL_CH2; ADC_CTL_CH1; ADC_CTL_CH0; ADC_CTL_CH4;
   NOT_ON_ADC; NOT_ON_ADC; NOT_ON_ADC; NOT_ON_ADC; NOT_ON_ADC; NOT_ON_ADC; NOT_ON_ADC;
   NOT_ON_ADC; NOT_ON_ADC; NOT_ON_ADC; NOT_ON_ADC; NOT_ON_ADC; NOT_ON_ADC; NOT_ON_ADC;
   ADC_CTL_CH13; NOT_ON_ADC; NOT_ON_ADC; ADC_CTL_CH7; ADC_CTL_CH6; NOT_ON_ADC; NOT_ON_ADC;
   NOT_ON_ADC; NOT_ON_ADC; NOT_ON_ADC; NOT_ON_ADC; NOT_ON_ADC; NOT_ON_ADC; NOT_ON_ADC;
   NOT_ON_ADC; NOT_ON_ADC; NOT_ON_ADC; NOT_ON_ADC; NOT_ON_ADC; NOT_ON_ADC; NOT_ON_ADC;
   ADC_CTL_CH10; ADC_CTL_CH11; ADC_CTL_CH16; ADC_CTL_CH17; ADC_CTL_CH18; ADC_CTL_CH19;
   NOT_ON_ADC; NOT_ON_ADC; NOT_ON_ADC; NOT_ON_ADC; NOT_ON_ADC; NOT_ON_ADC; NOT_ON_ADC;
   NOT_ON_ADC; NOT_ON_ADC; NOT_ON_ADC; NOT_ON_ADC; NOT_ON_ADC; NOT_ON_ADC; NOT_ON_ADC;
   NOT_ON_ADC; NOT_ON_ADC; NOT_ON_ADC; NOT_ON_ADC; ADC_CTL_CH5; NOT_ON_ADC; NOT_ON_ADC;
   NOT_ON_ADC; NOT_ON_ADC; NOT_ON_ADC; NOT_ON_ADC; NOT_ON_ADC; NOT_ON_ADC].

(** The named pins [PA_0], ...: port, bit and number. *)
Definition named_pins : list (Z * Z * Z) :=
  [(PE, BV 4, 2); (PC, BV 4, 3); (PC, BV 5, 4); (PC, BV 6, 5); (PE, BV 5, 6); (PD, BV 3, 7);
   (PC, BV 7, 8); (PB, BV 2, 9); (PB, BV 3, 10); (PP, BV 2, 11); (PN, BV 3, 12);
   (PN, BV 2, 13); (PD, BV 0, 14); (PD, BV 1, 15); (PH, BV 3, 17); (PH, BV 2, 18);
   (PM, BV 3, 19); (PE, BV 0, 23); (PE, BV 1, 24); (PE, BV 2, 25); (PE, BV 3, 26);
   (PD, BV 7, 27); (PA, BV 6, 28); (PM, BV 4, 29); (PM, BV 5, 30); (PL, BV 3, 31);
   (PL, BV 2, 32); (PL, BV 1, 33); (PL, BV 0, 34); (PL, BV 5, 35); (PL, BV 4, 36);
   (PG, BV 0, 37); (PF, BV 3, 38); (PF, BV 2, 39); (PF, BV 1, 40); (PD, BV 2, 42);
   (PP, BV 0, 43); (PP, BV 1, 44); (PD, BV 4, 45); (PD, BV 5, 46); (PQ, BV 0, 47);
   (PP, BV 4, 48); (PN, BV 5, 49); (PN, BV 4, 50); (PM, BV 6, 51); (PQ, BV 1, 52);
   (PP, BV 3, 53); (PQ, BV 3, 54); (PQ, BV 2, 55); (PA, BV 7, 57); (PP, BV 5, 58);
   (PM, BV 7, 59); (PB, BV 4, 63); (PB, BV 5, 64); (PK, BV 0, 65); (PK, BV 1, 66);
   (PK, BV 2, 67); (PK, BV 3, 68); (PA, BV 4, 69); (PA, BV 5, 70); (PK, BV 7, 71);
   (PK, BV 6, 72); (PH, BV 1, 73); (PH, BV 0, 74); (PM, BV 2, 75); (PM, BV 1, 76);
   (PM, BV 0, 77); (PK, BV 5, 78); (PK, BV 4, 79); (PG, BV 1, 80); (PN, BV 1, 81);
   (PN, BV 0, 82); (PF, BV 4, 83); (PF, BV 0, 84); (PJ, BV 0, 85); (PJ, BV 1, 86);
   (PD, BV 6, 87); (PA, BV 0, 88); (PA, BV 1, 89); (PA, BV 2, 90); (PA, BV 3, 91);
   (PL, BV 6, 92); (PL, BV 7, 93); (PB, BV 0, 94); (PB, BV 1, 95)].

(** ** Facts about the tables *)

Definition ports : list Z := tail port_to_base.

(** What the tables say of pin [p]: it is on no port, or the port has a base
    address and the mask is one bit of it. *)
Definition pin_ok (p : nat) : bool :=
  match digital_pin_to_port !! p, digital_pin_to_bit_mask !! p with
  | Some port, Some m =>
      if port =? NOT_A_PORT then m =? 0
      else match port_to_base !! Z.to_nat port with
           | Some b => bool_decide (b ∈ ports) && bool_decide (m ∈ BV <$> [0; 1; 2; 3; 4; 5; 6; 7])
           | None => false
           end
  | _, _ => false
  end.

Lemma pins_ok : forallb pin_ok (seq 0 96) = true.
Proof. vm_compute. reflexivity. Qed.

Lemma pin_bit p port m : digital_pin_to_port !! p = Some port ->
  digital_pin_to_bit_mask !! p = Some m -> port ≠ NOT_A_PORT ->
  exists b i, port_to_base !! Z.to_nat port = Some b /\ b ∈ ports /\ 0 <= i < 8 /\ m = 2 ^ i.
Proof.
  intros Ep Em Hp. pose proof pins_ok as H. rewrite forallb_forall in H.
  assert (p < 96)%nat as Hlt by (apply lookup_lt_Some in Ep; exact Ep).
  specialize (H p). rewrite in_seq in H. specialize (H ltac:(lia)). unfold pin_ok in H.
  rewrite Ep, Em in H. destruct (Z.eqb_spec port NOT_A_PORT); [done|].
  destruct (port_to_base !! Z.to_nat port) as [b|]; [|done].
  apply andb_true_iff in H as [Hb Hm]. apply bool_decide_eq_true in Hb, Hm.
  apply list_elem_of_fmap in Hm as (i & -> & Hi). exists b, i. split; [done|]. split; [done|].
  unfold BV. rewrite Z.shiftl_1_l. split; [|done].
  repeat (apply elem_of_cons in Hi as [->|Hi]; [lia|]). by apply not_elem_of_nil in Hi.
Qed.

Lemma port_not_pin p : digital_pin_to_port !! p = Some NOT_A_PORT ->
  digital_pin_to_bit_mask !! p = Some 0.
Proof.
  intros Ep. pose proof pins_ok as H. rewrite forallb_forall in H.
  assert (p < 96)%nat as Hlt by (apply lookup_lt_Some in Ep; exact Ep).
  specialize (H p). rewrite in_seq in H. specialize (H ltac:(lia)). unfold pin_ok in H.
  rewrite Ep in H. destruct (digital_pin_to_bit_mask !! p) as [m|]; [|done].
  rewrite Z.eqb_refl in H. apply Z.eqb_eq in H. by subst.
Qed.

Definition located (p : nat) : option (Z * Z) :=
  port ← digital_pin_to_port !! p; m ← digital_pin_to_bit_mask !! p;
  if port =? NOT_A_PORT then None else Some (port, m).

Lemma located_names :
  Forall (fun '(port, m, n) => located (Z.to_nat n) = Some (port, m)) named_pins.
Proof. repeat constructor. Qed.

(** Two pin numbers never share a bit of a port. *)
Lemma located_inj p q x : located p = Some x -> located q = Some x -> p = q.
Proof.
  assert (forallb (fun p => forallb (fun q => (p =? q)%nat || negb (bool_decide (located p = located q))
    || bool_decide (located p = None)) (seq 0 96)) (seq 0 96) = true) as H by (vm_compute; reflexivity).
  intros Hp Hq. rewrite forallb_forall in H.
  assert (forall r, located r = Some x -> In r (seq 0 96)) as Hr.
  { intros r E. apply in_seq. unfold located in E. destruct (digital_pin_to_port !! r) eqn:Er; [|done].
    apply lookup_lt_Some in Er. change (length digital_pin_to_port) with 96%nat in Er. lia. }
  specialize (H p (Hr p Hp)). rewrite forallb_forall in H. specialize (H q (Hr q Hq)).
  rewrite Hp, Hq in H. rewrite (bool_decide_true (Some x = Some x)) in H by done.
  rewrite bool_decide_false in H by done.
  cbn in H. rewrite !orb_false_r in H. by apply Nat.eqb_eq.
Qed.

End Pins.
