(* ===== verification/Gpio.v ===== *)
(** * Digital pins (cores/tivac/wiring_digital.c, system/driverlib/gpio.c)

    The GPIO functions of driverlib are reads and writes of port registers
    (HWREG); the ROM_ functions the core calls are the copies of gpio.c in the
    ROM of the chip.  The registers are an interface: [gpio_hw] are the accesses
    and [gpio_laws] what the TM4C1294 data sheet says of the GPIO ports (the
    address bits 9:2 of a data access select the pins, GPIOAFSEL, GPIOPUR,
    GPIOPDR and GPIODEN change only for pins whose GPIOCR bit is set, GPIOCR
    changes only while the port is unlocked).  [board] is an instance that shows
    the laws can hold. *)
From S2P Require Import Prelude Pins.
Import Pins.

Module Gpio.

Definition GPIO_O_DATA : Z := 0x000.
Definition GPIO_O_DIR : Z := 0x400.
Definition GPIO_O_IS : Z := 0x404.
Definition GPIO_O_IBE : Z := 0x408.
Definition GPIO_O_IEV : Z := 0x40C.
Definition GPIO_O_IM : Z := 0x410.
Definition GPIO_O_RIS : Z := 0x414.
Definition GPIO_O_MIS : Z := 0x418.
Definition GPIO_O_ICR : Z := 0x41C.
Definition GPIO_O_AFSEL : Z := 0x420.
Definition GPIO_O_DR2R : Z := 0x500.
Definition GPIO_O_DR4R : Z := 0x504.
Definition GPIO_O_DR8R : Z := 0x508.
Definition GPIO_O_ODR : Z := 0x50C.
Definition GPIO_O_PUR : Z := 0x510.
Definition GPIO_O_PDR : Z := 0x514.
Definition GPIO_O_SLR : Z := 0x518.
Definition GPIO_O_DEN : Z := 0x51C.
Definition GPIO_O_LOCK : Z := 0x520.
Definition GPIO_O_CR : Z := 0x524.
Definition GPIO_O_AMSEL : Z := 0x528.
Definition GPIO_O_SI : Z := 0x538.
Definition GPIO_O_DR12R : Z := 0x53C.
Definition GPIO_O_WAKEPEN : Z := 0x540.
Definition GPIO_O_WAKELVL : Z := 0x544.
Definition GPIO_O_PC : Z := 0xFC4.

Definition GPIO_DIR_MODE_IN : Z := 0.
Definition GPIO_DIR_MODE_OUT : Z := 1.
Definition GPIO_DIR_MODE_HW : Z := 2.
Definition GPIO_STRENGTH_2MA : Z := 1.
Definition GPIO_PIN_TYPE_STD : Z := 0x8.
Definition GPIO_PIN_TYPE_STD_WPU : Z := 0xA.
Definition GPIO_PIN_TYPE_STD_WPD : Z := 0xC.
Definition GPIO_PIN_TYPE_ANALOG : Z := 0x0.
Definition GPIO_LOCK_KEY_DD : Z := 0x4C4F434B.

Definition INPUT : Z := 0x0.
Definition OUTPUT : Z := 0x1.
Definition INPUT_PULLUP : Z := 0x2.
Definition INPUT_PULLDOWN : Z := 0x3.
Definition HIGH : Z := 1.
Definition LOW : Z := 0.

(** ** The registers *)

(** Registers with one bit (GPIO_O_PC: two bits) per pin that keep what is
    written to them. *)
Definition config_regs : list Z :=
  [GPIO_O_DIR; GPIO_O_IS; GPIO_O_IBE; GPIO_O_IEV; GPIO_O_IM; GPIO_O_AFSEL; GPIO_O_DR2R;
   GPIO_O_DR4R; GPIO_O_DR8R; GPIO_O_ODR; GPIO_O_PUR; GPIO_O_PDR; GPIO_O_SLR; GPIO_O_DEN;
   GPIO_O_AMSEL; GPIO_O_SI; GPIO_O_DR12R; GPIO_O_WAKEPEN; GPIO_O_WAKELVL; GPIO_O_PC].

(** Those under the commit control of GPIOCR. *)
Definition protected (o : Z) : bool :=
  bool_decide (o ∈ [GPIO_O_AFSEL; GPIO_O_PUR; GPIO_O_PDR; GPIO_O_DEN]).

Class gpio_hw (S : Type) := {
  HWREG : Z -> S -> Z;
  HWREG_set : Z -> Z -> S -> S;
  level : Z -> S -> Z;          (* what the pins of a port are at *)
  unlocked : Z -> S -> bool }.  (* GPIOCR of the port may be written *)

Definition regbit {S} `{gpio_hw S} (b o i : Z) (s : S) : bool := Z.testbit (HWREG (b + o) s) i.

(** The pin [i] of port [b] is a push-pull or open-drain output of the port. *)
Definition driven {S} `{gpio_hw S} (b i : Z) (s : S) : bool :=
  regbit b GPIO_O_DIR i s && regbit b GPIO_O_DEN i s && negb (regbit b GPIO_O_AFSEL i s).

Class gpio_laws (S : Type) `{gpio_hw S} := {
  config_write b o v (s : S) b' o' i : b ∈ ports -> o ∈ config_regs -> b' ∈ ports -> o' ∈ config_regs ->
    0 <= i < 32 ->
    regbit b' o' i (HWREG_set (b + o) v s) =
      if bool_decide (b' = b /\ o' = o) && (negb (protected o) || regbit b GPIO_O_CR i s)
      then Z.testbit v i else regbit b' o' i s;
  config_write_cr b o v (s : S) b' i : b ∈ ports -> o ∈ config_regs -> b' ∈ ports ->
    regbit b' GPIO_O_CR i (HWREG_set (b + o) v s) = regbit b' GPIO_O_CR i s;
  lock_write b v (s : S) b' o' i : b ∈ ports -> b' ∈ ports -> o' ∈ GPIO_O_CR :: config_regs ->
    regbit b' o' i (HWREG_set (b + GPIO_O_LOCK) v s) = regbit b' o' i s;
  lock_state b v (s : S) : b ∈ ports ->
    unlocked b (HWREG_set (b + GPIO_O_LOCK) v s) = (v =? GPIO_LOCK_KEY_DD);
  config_unlocked b o v (s : S) b' : b ∈ ports -> o ∈ GPIO_O_CR :: config_regs -> b' ∈ ports ->
    unlocked b' (HWREG_set (b + o) v s) = unlocked b' s;
  cr_write b v (s : S) i : b ∈ ports -> 0 <= i < 8 -> unlocked b s = true -> Z.testbit v i = true ->
    regbit b GPIO_O_CR i (HWREG_set (b + GPIO_O_CR) v s) = true;
  cr_write_config b v (s : S) b' o' i : b ∈ ports -> b' ∈ ports -> o' ∈ config_regs ->
    regbit b' o' i (HWREG_set (b + GPIO_O_CR) v s) = regbit b' o' i s;
  data_read b m (s : S) : b ∈ ports -> 0 <= m < 256 ->
    HWREG (b + (GPIO_O_DATA + Z.shiftl m 2)) s = Z.land (level b s) m;
  data_write b m v (s : S) b' i : b ∈ ports -> b' ∈ ports -> 0 <= m < 256 -> 0 <= v < 256 -> 0 <= i < 8 ->
    (b' = b -> Z.testbit m i = true -> driven b i s = true) ->
    Z.testbit (level b' (HWREG_set (b + (GPIO_O_DATA + Z.shiftl m 2)) v s)) i =
      if bool_decide (b' = b) && Z.testbit m i then Z.testbit v i else Z.testbit (level b' s) i;
  data_write_config b m v (s : S) b' o' i : b ∈ ports -> b' ∈ ports -> 0 <= m < 256 ->
    o' ∈ GPIO_O_CR :: config_regs ->
    regbit b' o' i (HWREG_set (b + (GPIO_O_DATA + Z.shiftl m 2)) v s) = regbit b' o' i s;
  icr_write b v (s : S) b' o' i : b ∈ ports -> b' ∈ ports -> o' ∈ GPIO_O_CR :: config_regs ->
    regbit b' o' i (HWREG_set (b + GPIO_O_ICR) v s) = regbit b' o' i s }.

(** ** driverlib/gpio.c *)

Section Driver.
Context {S : Type} `{gpio_hw S}.
Implicit Types s : S.

(** [HWREG(a) = c ? HWREG(a) | pins : HWREG(a) & ~pins] *)
Definition set_or_clear (c : bool) (a pins : Z) s : S :=
  HWREG_set a (if c then Z.lor (HWREG a s) pins else Z.land (HWREG a s) (Z.lnot pins)) s.

Definition flag (x mask : Z) : bool := negb (Z.land x mask =? 0).

Definition GPIODirModeSet (port pins io : Z) s : S :=
  let s := set_or_clear (flag io 1) (port + GPIO_O_DIR) pins s in
  set_or_clear (flag io 2) (port + GPIO_O_AFSEL) pins s.

Definition GPIOIntTypeSet (port pins type : Z) s : S :=
  let s := set_or_clear (flag type 1) (port + GPIO_O_IBE) pins s in
  let s := set_or_clear (flag type 2) (port + GPIO_O_IS) pins s in
  let s := set_or_clear (flag type 4) (port + GPIO_O_IEV) pins s in
  set_or_clear (flag type 0x10000) (port + GPIO_O_SI) 0x01 s.

(** The loop over the pins for GPIO_O_PC, from pin [bit] on. *)
Fixpoint pc_loop (n : nat) (bit port pins strength : Z) s : S :=
  match n with
  | O => s
  | Datatypes.S n =>
      let a := port + GPIO_O_PC in
      let s :=
        if flag pins (Z.shiftl 1 bit) then
          let s := HWREG_set a (Z.land (HWREG a s) (Z.lnot (Z.shiftl 0x3 (2 * bit)))) s in
          HWREG_set a (Z.lor (HWREG a s) (Z.shiftl (Z.land (Z.shiftr strength 5) 0x3) (2 * bit))) s
        else s in
      pc_loop n (bit + 1) port pins strength s
  end.

Definition GPIOPadConfigSet (port pins strength type : Z) s : S :=
  let s := pc_loop 8 0 port pins strength s in
  let s := set_or_clear (flag strength 1) (port + GPIO_O_DR2R) pins s in
  let s := set_or_clear (flag strength 2) (port + GPIO_O_DR4R) pins s in
  let s := set_or_clear (flag strength 4) (port + GPIO_O_DR8R) pins s in
  let s := set_or_clear (flag strength 8) (port + GPIO_O_SLR) pins s in
  let s := set_or_clear (flag strength 0x10) (port + GPIO_O_DR12R) pins s in
  let s := set_or_clear (flag type 1) (port + GPIO_O_ODR) pins s in
  let s := set_or_clear (flag type 2) (port + GPIO_O_PUR) pins s in
  let s := set_or_clear (flag type 4) (port + GPIO_O_PDR) pins s in
  let s := set_or_clear (flag type 8) (port + GPIO_O_DEN) pins s in
  let s := set_or_clear (flag type 0x200) (port + GPIO_O_WAKELVL) pins s in
  let s := set_or_clear (flag type 0x300) (port + GPIO_O_WAKEPEN) pins s in
  set_or_clear (type =? GPIO_PIN_TYPE_ANALOG) (port + GPIO_O_AMSEL) pins s.

Definition GPIOIntEnable (port flags : Z) s : S :=
  HWREG_set (port + GPIO_O_IM) (Z.lor (HWREG (port + GPIO_O_IM) s) flags) s.
Definition GPIOIntDisable (port flags : Z) s : S :=
  HWREG_set (port + GPIO_O_IM) (Z.land (HWREG (port + GPIO_O_IM) s) (Z.lnot flags)) s.
Definition GPIOIntStatus (port : Z) (masked : bool) s : Z :=
  if masked then HWREG (port + GPIO_O_MIS) s else HWREG (port + GPIO_O_RIS) s.
Definition GPIOIntClear (port flags : Z) s : S := HWREG_set (port + GPIO_O_ICR) flags s.

Definition GPIOPinRead (port pins : Z) s : Z := HWREG (port + (GPIO_O_DATA + Z.shiftl pins 2)) s.
Definition GPIOPinWrite (port pins val : Z) s : S :=
  HWREG_set (port + (GPIO_O_DATA + Z.shiftl pins 2)) val s.

Definition GPIOPinTypeGPIOInput (port pins : Z) s : S :=
  GPIOPadConfigSet port pins GPIO_STRENGTH_2MA GPIO_PIN_TYPE_STD
    (GPIODirModeSet port pins GPIO_DIR_MODE_IN s).
Definition GPIOPinTypeGPIOOutput (port pins : Z) s : S :=
  GPIODirModeSet port pins GPIO_DIR_MODE_OUT
    (GPIOPadConfigSet port pins GPIO_STRENGTH_2MA GPIO_PIN_TYPE_STD s).
Definition GPIOPinTypeADC (port pins : Z) s : S :=
  GPIOPadConfigSet port pins GPIO_STRENGTH_2MA GPIO_PIN_TYPE_ANALOG
    (GPIODirModeSet port pins GPIO_DIR_MODE_IN s).
Definition GPIOPinTypeTimer (port pins : Z) s : S :=
  GPIOPadConfigSet port pins GPIO_STRENGTH_2MA GPIO_PIN_TYPE_STD
    (GPIODirModeSet port pins GPIO_DIR_MODE_HW s).

(** ** wiring_digital.c

    The pin tables are read before the test for NOT_A_PORT; a pin number outside
    of them is an invalid access ([None]). *)

(** The unlock sequence and the pad configuration of the two pull modes. *)
Definition pull_mode (b bit type : Z) s : S :=
  let s := HWREG_set (b + GPIO_O_LOCK) GPIO_LOCK_KEY_DD s in
  let s := HWREG_set (b + GPIO_O_CR) (Z.lor (HWREG (b + GPIO_O_CR) s) bit) s in
  let s := HWREG_set (b + GPIO_O_LOCK) 0 s in
  let s := GPIODirModeSet b bit GPIO_DIR_MODE_IN s in
  let s := GPIOPadConfigSet b bit GPIO_STRENGTH_2MA type s in
  HWREG_set (b + GPIO_O_CR) (Z.land (HWREG (b + GPIO_O_CR) s) (Z.lnot bit)) s.

Definition pinMode (pin : nat) (mode : Z) s : option S :=
  bit ← digital_pin_to_bit_mask !! pin;
  port ← digital_pin_to_port !! pin;
  b ← port_to_base !! Z.to_nat port;
  if port =? NOT_A_PORT then Some s
  else if mode =? INPUT then Some (GPIOPinTypeGPIOInput b bit s)
  else if mode =? INPUT_PULLUP then Some (pull_mode b bit GPIO_PIN_TYPE_STD_WPU s)
  else if mode =? INPUT_PULLDOWN then Some (pull_mode b bit GPIO_PIN_TYPE_STD_WPD s)
  else Some (GPIOPinTypeGPIOOutput b bit s).

Definition digitalRead (pin : nat) s : option Z :=
  bit ← digital_pin_to_bit_mask !! pin;
  port ← digital_pin_to_port !! pin;
  b ← port_to_base !! Z.to_nat port;
  if port =? NOT_A_PORT then Some LOW
  else if negb (GPIOPinRead b bit s =? 0) then Some HIGH else Some LOW.

Definition digitalWrite (pin : nat) (val : Z) s : option S :=
  bit ← digital_pin_to_bit_mask !! pin;
  let mask := if negb (val =? 0) then bit else 0 in
  port ← digital_pin_to_port !! pin;
  b ← port_to_base !! Z.to_nat port;
  if port =? NOT_A_PORT then Some s else Some (GPIOPinWrite b bit mask s).
End Driver.

(** ** Where a pin is *)

(** The base address of the port of [pin] and its bit. *)
Definition wired (pin : nat) : option (Z * Z) :=
  bit ← digital_pin_to_bit_mask !! pin;
  port ← digital_pin_to_port !! pin;
  b ← port_to_base !! Z.to_nat port;
  if port =? NOT_A_PORT then None else Some (b, Z.log2 bit).

Lemma wired_inv pin b k : wired pin = Some (b, k) -> exists port,
  digital_pin_to_bit_mask !! pin = Some (2 ^ k) /\ digital_pin_to_port !! pin = Some port /\
  port_to_base !! Z.to_nat port = Some b /\ (port =? NOT_A_PORT) = false /\ b ∈ ports /\ 0 <= k < 8.
Proof.
  unfold wired. destruct (digital_pin_to_bit_mask !! pin) as [m|] eqn:Em; [|done].
  destruct (digital_pin_to_port !! pin) as [port|] eqn:Ep; [|done]. cbn.
  destruct (port_to_base !! Z.to_nat port) as [b'|] eqn:Eb; [|done]. cbn.
  destruct (Z.eqb_spec port NOT_A_PORT) as [|Hp]; [done|]. intros [= -> <-].
  destruct (pin_bit pin port m Ep Em Hp) as (b'' & i & Eb' & Hb & Hi & ->).
  rewrite Z.log2_pow2 by lia. simplify_eq. exists port. rewrite (proj2 (Z.eqb_neq port NOT_A_PORT)) by done. auto 10.
Qed.

Lemma wired_range pin x : wired pin = Some x -> (pin < 96)%nat.
Proof.
  unfold wired. destruct (digital_pin_to_bit_mask !! pin) as [m|] eqn:Em; [|done].
  intros _. by apply lookup_lt_Some in Em.
Qed.

(** Two pin numbers are two pins. *)
Lemma wired_inj p q x : wired p = Some x -> wired q = Some x -> p = q.
Proof.
  assert (forallb (fun p => forallb (fun q => (p =? q)%nat || negb (bool_decide (wired p = wired q))
    || bool_decide (wired p = None)) (seq 0 96)) (seq 0 96) = true) as H by (vm_compute; reflexivity).
  intros Hp Hq. rewrite forallb_forall in H.
  assert (forall r, wired r = Some x -> In r (seq 0 96)) as Hr.
  { intros r E%wired_range. apply in_seq. lia. }
  specialize (H p (Hr p Hp)). rewrite forallb_forall in H. specialize (H q (Hr q Hq)).
  rewrite Hp, Hq, (bool_decide_true (Some x = Some x)), bool_decide_false in H by done.
  cbn in H. rewrite !orb_false_r in H. by apply Nat.eqb_eq.
Qed.

(** ** What the register sequences do to the pins *)

Section Correct.
Context {S : Type} `{Laws : gpio_laws S}.
Implicit Types s : S.

(** From [s] to [s'] pin [k] of port [b] gets the register bits [f] tells;
    nothing else changes in the registers with one bit per pin, of any port. *)
Definition cfg_upd (b k : Z) (f : Z -> option bool) s s' : Prop :=
  forall b' o i, b' ∈ ports -> o ∈ config_regs -> o ≠ GPIO_O_PC -> 0 <= i < 8 ->
    regbit b' o i s' = default (regbit b' o i s) (if bool_decide (b' = b /\ i = k) then f o else None).

Definition cr_same s s' : Prop :=
  forall b i, b ∈ ports -> regbit b GPIO_O_CR i s' = regbit b GPIO_O_CR i s.

Definition no_upd : Z -> option bool := fun _ => None.
Definition upd_reg (o : Z) (c : bool) : Z -> option bool := fun o' => if o' =? o then Some c else None.
Definition upd_then (f g : Z -> option bool) : Z -> option bool := fun o =>
  match g o with Some c => Some c | None => f o end.

Lemma cfg_upd_trans b k f g s1 s2 s3 :
  cfg_upd b k f s1 s2 -> cfg_upd b k g s2 s3 -> cfg_upd b k (upd_then f g) s1 s3.
Proof.
  intros H1 H2 b' o i Hb Ho Hp Hi. rewrite H2, H1 by done. unfold upd_then.
  destruct (bool_decide _); [|done]. by destruct (g o).
Qed.

Lemma cr_same_trans s1 s2 s3 : cr_same s1 s2 -> cr_same s2 s3 -> cr_same s1 s3.
Proof. intros H1 H2 b i Hb. by rewrite H2, H1. Qed.

Ltac in_regs := first [assumption | apply (bool_decide_unpack _); vm_compute; exact I].

Lemma pc_config : GPIO_O_PC ∈ config_regs.
Proof. in_regs. Qed.

Lemma testbit_pow2 k i : 0 <= k -> Z.testbit (2 ^ k) i = (i =? k).
Proof. intros. rewrite Z.pow2_bits_eqb by done. apply Z.eqb_sym. Qed.

(** One register bit set or cleared. *)
Lemma set_or_clear_upd c b o k s : b ∈ ports -> o ∈ config_regs -> o ≠ GPIO_O_PC -> 0 <= k < 8 ->
  (protected o = true -> regbit b GPIO_O_CR k s = true) ->
  cfg_upd b k (upd_reg o c) s (set_or_clear c (b + o) (2 ^ k) s) /\
  cr_same s (set_or_clear c (b + o) (2 ^ k) s).
Proof.
  intros Hb Ho Hp Hk Hc. split.
  - intros b' o' i Hb' Ho' Hp' Hi. unfold set_or_clear. rewrite config_write by (assumption || lia).
    unfold upd_reg. destruct (decide (b' = b /\ o' = o)) as [[-> ->]|Hn].
    + rewrite (bool_decide_true (b = b /\ o = o)), Z.eqb_refl by done. cbn [andb].
      assert (Z.testbit (if c then Z.lor (HWREG (b + o) s) (2 ^ k) else Z.land (HWREG (b + o) s) (Z.lnot (2 ^ k))) i
        = if i =? k then c else regbit b o i s) as ->.
      { destruct c; [rewrite Z.lor_spec|rewrite Z.land_spec, Z.lnot_spec by lia]; rewrite testbit_pow2 by lia;
          unfold regbit; destruct (i =? k), (Z.testbit (HWREG (b + o) s) i); done. }
      destruct (Z.eqb_spec i k) as [->|Hik].
      * rewrite (bool_decide_true (b = b /\ k = k)) by done. cbn.
        destruct (protected o); [by rewrite (Hc eq_refl)|done].
      * rewrite (bool_decide_false (b = b /\ i = k)) by naive_solver. cbn. by destruct (_ || _).
    + rewrite (bool_decide_false (b' = b /\ o' = o)) by done. cbn [andb].
      destruct (bool_decide_reflect (b' = b /\ i = k)) as [[-> ->]|]; [|done].
      destruct (Z.eqb_spec o' o); [naive_solver|done].
  - intros b' i Hb'. unfold set_or_clear. by apply config_write_cr.
Qed.

Lemma pc_loop_upd n : forall bit b k pins strength s, b ∈ ports ->
  cfg_upd b k no_upd s (pc_loop n bit b pins strength s) /\
  cr_same s (pc_loop n bit b pins strength s).
Proof.
  assert (forall b k v s, b ∈ ports -> cfg_upd b k no_upd s (HWREG_set (b + GPIO_O_PC) v s) /\
    cr_same s (HWREG_set (b + GPIO_O_PC) v s)) as W.
  { intros b k v s Hb. split.
    - intros b' o i Hb' Ho Hp Hi. rewrite config_write by (assumption || lia || apply pc_config).
      rewrite bool_decide_false by naive_solver. cbn. unfold no_upd. by destruct (bool_decide _).
    - intros b' i Hb'. apply config_write_cr; [done|apply pc_config|done]. }
  induction n as [|n IH]; intros bit b k pins strength s Hb; cbn [pc_loop].
  - split; [|by intros ? ? ?]. intros b' o i _ _ _ _. unfold no_upd. by destruct (bool_decide _).
  - destruct (flag pins (Z.shiftl 1 bit)); [|by apply IH].
    match goal with |- cfg_upd _ _ _ _ (pc_loop _ _ _ _ _ (HWREG_set _ _ ?m)) /\ _ =>
      destruct (W b k (Z.land (HWREG (b + GPIO_O_PC) s) (Z.lnot (Z.shiftl 3 (2 * bit)))) s Hb) as [U1 C1];
      destruct (W b k (Z.lor (HWREG (b + GPIO_O_PC) m)
        (Z.shiftl (Z.land (Z.shiftr strength 5) 3) (2 * bit))) m Hb) as [U2 C2];
      destruct (IH (bit + 1) b k pins strength (HWREG_set (b + GPIO_O_PC) (Z.lor (HWREG (b + GPIO_O_PC) m)
        (Z.shiftl (Z.land (Z.shiftr strength 5) 3) (2 * bit))) m) Hb) as [U3 C3]
    end.
    split; [|eauto using cr_same_trans].
    exact (cfg_upd_trans _ _ _ _ _ _ _ (cfg_upd_trans _ _ _ _ _ _ _ U1 U2) U3).
Qed.

(** A pin whose changes are committed. *)
Definition upd (b k : Z) (f : Z -> option bool) s s' : Prop := cfg_upd b k f s s' /\ cr_same s s'.

Lemma upd_trans b k f g s1 s2 s3 : upd b k f s1 s2 -> upd b k g s2 s3 -> upd b k (upd_then f g) s1 s3.
Proof. intros [U1 C1] [U2 C2]. split; eauto using cfg_upd_trans, cr_same_trans. Qed.

Lemma upd_set c b o k f s0 s : b ∈ ports -> o ∈ config_regs -> o ≠ GPIO_O_PC -> 0 <= k < 8 ->
  regbit b GPIO_O_CR k s0 = true -> upd b k f s0 s ->
  upd b k (upd_then f (upd_reg o c)) s0 (set_or_clear c (b + o) (2 ^ k) s).
Proof.
  intros Hb Ho Hp Hk Hc U. eapply upd_trans; [exact U|]. apply set_or_clear_upd; try done.
  intros _. destruct U as [_ C]. by rewrite C.
Qed.

(** Registers written one after the other. *)
Definition upds (f : Z -> option bool) (l : list (Z * bool)) : Z -> option bool :=
  fold_left (fun f x => upd_then f (upd_reg x.1 x.2)) l f.

Lemma GPIODirModeSet_upd b k io f s0 s : b ∈ ports -> 0 <= k < 8 ->
  regbit b GPIO_O_CR k s0 = true -> upd b k f s0 s ->
  upd b k (upds f [(GPIO_O_DIR, flag io 1); (GPIO_O_AFSEL, flag io 2)])
    s0 (GPIODirModeSet b (2 ^ k) io s).
Proof.
  intros Hb Hk Hc U. unfold GPIODirModeSet.
  repeat (apply upd_set; [assumption|in_regs|done|done|done|]). exact U.
Qed.

Lemma GPIOPadConfigSet_upd b k strength type f s0 s : b ∈ ports -> 0 <= k < 8 ->
  regbit b GPIO_O_CR k s0 = true -> upd b k f s0 s ->
  upd b k (upds (upd_then f no_upd)
    [(GPIO_O_DR2R, flag strength 1); (GPIO_O_DR4R, flag strength 2); (GPIO_O_DR8R, flag strength 4);
     (GPIO_O_SLR, flag strength 8); (GPIO_O_DR12R, flag strength 0x10); (GPIO_O_ODR, flag type 1);
     (GPIO_O_PUR, flag type 2); (GPIO_O_PDR, flag type 4); (GPIO_O_DEN, flag type 8);
     (GPIO_O_WAKELVL, flag type 0x200); (GPIO_O_WAKEPEN, flag type 0x300);
     (GPIO_O_AMSEL, type =? GPIO_PIN_TYPE_ANALOG)])
    s0 (GPIOPadConfigSet b (2 ^ k) strength type s).
Proof.
  intros Hb Hk Hc U. unfold GPIOPadConfigSet.
  repeat (apply upd_set; [assumption|in_regs|done|done|done|]).
  eapply upd_trans; [exact U|]. by apply pc_loop_upd.
Qed.

(** What a mode means for a pin: the bits of its configuration registers. *)
Definition mode_bits (mode : Z) : list (Z * bool) :=
  let input := bool_decide (mode ∈ [INPUT; INPUT_PULLUP; INPUT_PULLDOWN]) in
  [(GPIO_O_DIR, negb input); (GPIO_O_AFSEL, false); (GPIO_O_DEN, true); (GPIO_O_AMSEL, false);
   (GPIO_O_ODR, false); (GPIO_O_PUR, mode =? INPUT_PULLUP); (GPIO_O_PDR, mode =? INPUT_PULLDOWN);
   (GPIO_O_DR2R, true); (GPIO_O_DR4R, false); (GPIO_O_DR8R, false); (GPIO_O_SLR, false);
   (GPIO_O_DR12R, false); (GPIO_O_WAKELVL, false); (GPIO_O_WAKEPEN, false)].

Definition reg_of (l : list (Z * bool)) (o : Z) : option bool :=
  snd <$> head (filter (fun x => x.1 = o) l).

Lemma cfg_upd_ext b k f g s s' : Forall (fun o => f o = g o) config_regs ->
  cfg_upd b k f s s' -> cfg_upd b k g s s'.
Proof.
  intros F U b' o i Hb Ho Hp Hi. rewrite U by done. rewrite Forall_forall in F. by rewrite (F o Ho).
Qed.

Lemma upd_refl b k s : upd b k no_upd s s.
Proof. split; [|by intros ? ? ?]. intros b' o i _ _ _ _. unfold no_upd. by destruct (bool_decide _). Qed.

(** The two direct modes, for a pin whose GPIOCR bit is set. *)
Lemma direct_mode b k mode s : b ∈ ports -> 0 <= k < 8 -> regbit b GPIO_O_CR k s = true ->
  mode ∉ [INPUT_PULLUP; INPUT_PULLDOWN] ->
  cfg_upd b k (reg_of (mode_bits mode)) s
    (if mode =? INPUT then GPIOPinTypeGPIOInput b (2 ^ k) s else GPIOPinTypeGPIOOutput b (2 ^ k) s).
Proof.
  intros Hb Hk Hc Hm. destruct (Z.eqb_spec mode INPUT) as [->|Hi].
  - eapply cfg_upd_ext;
      [|apply (GPIOPadConfigSet_upd _ _ _ _ _ _ _ Hb Hk Hc (GPIODirModeSet_upd _ _ _ _ _ _ Hb Hk Hc (upd_refl _ _ _)))].
    repeat (apply Forall_cons; split; [reflexivity|]). by apply Forall_nil_2.
  - eapply cfg_upd_ext;
      [|apply (GPIODirModeSet_upd _ _ _ _ _ _ Hb Hk Hc (GPIOPadConfigSet_upd _ _ _ _ _ _ _ Hb Hk Hc (upd_refl _ _ _)))].
    unfold mode_bits. rewrite bool_decide_false by set_solver.
    rewrite (proj2 (Z.eqb_neq mode INPUT_PULLUP)), (proj2 (Z.eqb_neq mode INPUT_PULLDOWN)) by set_solver.
    repeat (apply Forall_cons; split; [reflexivity|]). by apply Forall_nil_2.
Qed.

(** The pull modes commit the pin themselves. *)
Lemma pull_mode_upd b k mode s : b ∈ ports -> 0 <= k < 8 ->
  mode = INPUT_PULLUP \/ mode = INPUT_PULLDOWN ->
  cfg_upd b k (reg_of (mode_bits mode)) s
    (pull_mode b (2 ^ k) (if mode =? INPUT_PULLUP then GPIO_PIN_TYPE_STD_WPU else GPIO_PIN_TYPE_STD_WPD) s).
Proof.
  intros Hb Hk Hm. unfold pull_mode.
  set (s1 := HWREG_set (b + GPIO_O_LOCK) GPIO_LOCK_KEY_DD s).
  set (s2 := HWREG_set (b + GPIO_O_CR) (Z.lor (HWREG (b + GPIO_O_CR) s1) (2 ^ k)) s1).
  set (s3 := HWREG_set (b + GPIO_O_LOCK) 0 s2).
  assert (regbit b GPIO_O_CR k s3 = true) as Hc.
  { unfold s3. rewrite lock_write by (done || apply list_elem_of_here).
    apply cr_write; [done|done|unfold s1; by rewrite lock_state|].
    rewrite Z.lor_spec, testbit_pow2, Z.eqb_refl by lia. apply orb_true_r. }
  assert (cfg_upd b k no_upd s s3) as U0.
  { intros b' o i Hb' Ho _ _. unfold s3, s2, s1.
    rewrite lock_write, cr_write_config, lock_write by (done || by apply list_elem_of_further).
    unfold no_upd. by destruct (bool_decide _). }
  pose proof (fun type => GPIOPadConfigSet_upd _ _ GPIO_STRENGTH_2MA type _ _ _ Hb Hk Hc
    (GPIODirModeSet_upd _ _ GPIO_DIR_MODE_IN _ _ _ Hb Hk Hc (upd_refl b k s3))) as U1.
  eapply cfg_upd_ext; [|eapply cfg_upd_trans; [exact U0|]].
  2:{ intros b' o i Hb' Ho Hp Hi. rewrite cr_write_config by done.
      exact (proj1 (U1 (if mode =? INPUT_PULLUP then GPIO_PIN_TYPE_STD_WPU else GPIO_PIN_TYPE_STD_WPD))
        b' o i Hb' Ho Hp Hi). }
  destruct Hm as [-> | ->]; repeat (apply Forall_cons; split; [reflexivity|]); by apply Forall_nil_2.
Qed.

Lemma land_pow2 x k : 0 <= k -> (Z.land x (2 ^ k) =? 0) = negb (Z.testbit x k).
Proof.
  intros Hk. destruct (Z.testbit x k) eqn:E; cbn.
  - apply Z.eqb_neq. intros H0. assert (Z.testbit (Z.land x (2 ^ k)) k = false) as F by (rewrite H0; apply Z.bits_0).
    rewrite Z.land_spec, E, testbit_pow2, Z.eqb_refl in F by done. done.
  - apply Z.eqb_eq, Z.bits_inj'. intros i Hi. rewrite Z.land_spec, testbit_pow2, Z.bits_0 by done.
    destruct (Z.eqb_spec i k) as [->|]; [by rewrite E|apply andb_false_r].
Qed.

Lemma pow2_byte k : 0 <= k < 8 -> 0 <= 2 ^ k < 256.
Proof.
  intros. split; [lia|]. change 256 with (2 ^ 8). apply Z.pow_lt_mono_r; lia.
Qed.

Lemma digitalRead_level q b k s : wired q = Some (b, k) ->
  digitalRead q s = Some (if Z.testbit (level b s) k then HIGH else LOW).
Proof.
  intros (port & Em & Ep & Eb & Hp & Hb & Hk)%wired_inv. unfold digitalRead.
  rewrite Em, Ep. cbn. rewrite Eb. cbn. rewrite Hp. unfold GPIOPinRead.
  rewrite data_read, land_pow2, negb_involutive by (done || lia || by apply pow2_byte).
  by destruct (Z.testbit _ _).
Qed.

Lemma digitalWrite_spec pin val s b k : wired pin = Some (b, k) -> driven b k s = true ->
  exists s', digitalWrite pin val s = Some s' /\
    digitalRead pin s' = Some (if val =? 0 then LOW else HIGH) /\
    (forall q, q ≠ pin -> is_Some (wired q) -> digitalRead q s' = digitalRead q s) /\
    cfg_upd b k no_upd s s'.
Proof.
  intros W D. pose proof (wired_inv pin b k W) as (port & Em & Ep & Eb & Hp & Hb & Hk).
  unfold digitalWrite. rewrite Em, Ep. cbn [mbind option_bind]. rewrite Eb. cbn [mbind option_bind]. rewrite Hp.
  set (v := if negb (val =? 0) then 2 ^ k else 0).
  assert (0 <= v < 256) as Hv by (subst v; destruct (val =? 0); cbn [negb]; [lia|by apply pow2_byte]).
  assert (forall b' i, b' ∈ ports -> 0 <= i < 8 -> Z.testbit (level b' (GPIOPinWrite b (2 ^ k) v s)) i =
    if bool_decide (b' = b) && (i =? k) then Z.testbit v i else Z.testbit (level b' s) i) as Lv.
  { intros b' i Hb' Hi. unfold GPIOPinWrite.
    rewrite data_write; [by rewrite testbit_pow2 by lia|done|done|by apply pow2_byte|done|done|].
    intros _ T. rewrite testbit_pow2 in T by lia. apply Z.eqb_eq in T. by subst i. }
  eexists. split; [reflexivity|]. split; [|split].
  - rewrite (digitalRead_level _ _ _ _ W), (Lv b k Hb Hk), bool_decide_true, Z.eqb_refl by done. cbn [andb].
    subst v. destruct (val =? 0); cbn [negb]; [by rewrite Z.bits_0|].
    by rewrite testbit_pow2, Z.eqb_refl by lia.
  - intros q Hq ([b' i] & Wq). rewrite !(digitalRead_level _ _ _ _ Wq).
    pose proof (wired_inv q b' i Wq) as (_ & _ & _ & _ & _ & Hb' & Hi).
    rewrite (Lv b' i Hb' Hi). destruct (bool_decide_reflect (b' = b)) as [->|]; [|done].
    destruct (Z.eqb_spec i k) as [->|]; [|done]. destruct Hq. by eapply wired_inj.
  - intros b' o i Hb' Ho _ _. unfold GPIOPinWrite.
    rewrite data_write_config by (done || (by apply pow2_byte) || by apply list_elem_of_further).
    unfold no_upd. by destruct (bool_decide _).
Qed.

Lemma driven_same b k s s' b' i : cfg_upd b k no_upd s s' -> b' ∈ ports -> 0 <= i < 8 ->
  driven b' i s' = driven b' i s.
Proof.
  intros U Hb Hi. unfold driven.
  assert (forall o, o ∈ config_regs -> o ≠ GPIO_O_PC -> regbit b' o i s' = regbit b' o i s) as E.
  { intros o Ho Hp. rewrite U by done. unfold no_upd. by destruct (bool_decide _). }
  by rewrite !E by (done || in_regs).
Qed.

(** ** Properties *)

(** [pinMode] of a pin of the board sets the configuration bits the mode
    stands for, for this pin only: direction, alternate function, digital enable,
    open drain, pull-up and pull-down, drive strength; no other pin of any port
    changes and neither do the interrupt settings of the pin.  The pull modes
    need no commit bit, the other two modes work for pins that have it. *)
Theorem pinMode_correct pin mode s b k : wired pin = Some (b, k) ->
  mode ∈ [INPUT_PULLUP; INPUT_PULLDOWN] \/ regbit b GPIO_O_CR k s = true ->
  exists s', pinMode pin mode s = Some s' /\ cfg_upd b k (reg_of (mode_bits mode)) s s'.
Proof.
  intros (port & Em & Ep & Eb & Hp & Hb & Hk)%wired_inv Hm. unfold pinMode.
  rewrite Em, Ep. cbn [mbind option_bind]. rewrite Eb. cbn [mbind option_bind]. rewrite Hp.
  destruct (decide (mode ∈ [INPUT_PULLUP; INPUT_PULLDOWN])) as [Hin|Hn].
  - assert (mode = INPUT_PULLUP \/ mode = INPUT_PULLDOWN) as Hc by set_solver.
    pose proof (pull_mode_upd b k mode s Hb Hk Hc) as U.
    destruct Hc as [-> | ->]; eexists; (split; [reflexivity|]); exact U.
  - pose proof (direct_mode b k mode s Hb Hk ltac:(naive_solver) Hn) as U.
    destruct (mode =? INPUT); [by eexists|].
    rewrite (proj2 (Z.eqb_neq mode INPUT_PULLUP)), (proj2 (Z.eqb_neq mode INPUT_PULLDOWN)) by set_solver.
    by eexists.
Qed.

(** C37: [digitalWrite] of a pin that is an output brings exactly that pin to the
    level: [digitalRead] of it gives HIGH or LOW accordingly, of every other pin
    of the board what it gave before, and no configuration changes. *)
Theorem digitalWrite_correct pin val s b k : wired pin = Some (b, k) -> driven b k s = true ->
  exists s', digitalWrite pin val s = Some s' /\
    digitalRead pin s' = Some (if val =? 0 then LOW else HIGH) /\
    (forall q, q ≠ pin -> is_Some (wired q) -> digitalRead q s' = digitalRead q s) /\
    cfg_upd b k no_upd s s'.
Proof. apply digitalWrite_spec. Qed.
End Correct.

(** ** An instance *)

(** Registers by address, the level of each port by its base, and the ports
    whose GPIOCR is open. *)
Record board := mk_board { regs : gmap Z Z; levels : gmap Z Z; open_ports : gmap Z bool }.

Definition reg (s : board) (a : Z) : Z := default 0 (regs s !! a).
Definition offset (a : Z) : Z := a mod 4096.
Definition base (a : Z) : Z := a - a mod 4096.
Definition mix (v old m : Z) : Z := Z.lor (Z.land v m) (Z.land old (Z.lnot m)).

#[export] Instance board_hw : gpio_hw board := {
  HWREG a s := if offset a <? 0x400 then Z.land (default 0 (levels s !! base a)) (offset a / 4) else reg s a;
  HWREG_set a v s :=
    let b := base a in let o := offset a in
    if o <? 0x400 then
      mk_board (regs s) (<[b := mix v (default 0 (levels s !! b)) (o / 4)]> (levels s)) (open_ports s)
    else if o =? GPIO_O_LOCK then
      mk_board (regs s) (levels s) (<[b := v =? GPIO_LOCK_KEY_DD]> (open_ports s))
    else if o =? GPIO_O_CR then
      if default false (open_ports s !! b) then mk_board (<[a := v]> (regs s)) (levels s) (open_ports s) else s
    else
      mk_board (<[a := if protected o then mix v (reg s a) (reg s (b + GPIO_O_CR)) else v]> (regs s))
        (levels s) (open_ports s);
  level b s := default 0 (levels s !! b);
  unlocked b s := default false (open_ports s !! b) }.

Lemma ports_aligned b : b ∈ ports -> b mod 4096 = 0.
Proof.
  assert (Forall (fun b => b mod 4096 = 0) ports) as F by (repeat constructor).
  rewrite Forall_forall in F. apply F.
Qed.

Lemma decode b o : b ∈ ports -> 0 <= o < 4096 -> offset (b + o) = o /\ base (b + o) = b.
Proof.
  intros Hb%ports_aligned Ho. unfold base. assert (offset (b + o) = o) as E.
  { unfold offset. rewrite Z.add_mod, Hb, Z.add_0_l, Z.mod_mod by lia. by apply Z.mod_small. }
  unfold offset in E. rewrite E. split; [done|lia].
Qed.

Lemma decode_inj b b' o o' : b ∈ ports -> b' ∈ ports -> 0 <= o < 4096 -> 0 <= o' < 4096 ->
  b' + o' = b + o -> b' = b /\ o' = o.
Proof.
  intros Hb Hb' Ho Ho' E. destruct (decode b o Hb Ho) as [E1 E2], (decode b' o' Hb' Ho') as [E3 E4].
  rewrite E in E3, E4. by rewrite E1 in E3; rewrite E2 in E4.
Qed.

(** The registers that are neither data nor GPIOLOCK. *)
Lemma config_offset o : o ∈ GPIO_O_CR :: config_regs ->
  0x400 <= o < 4096 /\ (o <? 0x400) = false /\ (o =? GPIO_O_LOCK) = false.
Proof.
  assert (Forall (fun o => 0x400 <= o < 4096 /\ (o <? 0x400) = false /\ (o =? GPIO_O_LOCK) = false)
    (GPIO_O_CR :: config_regs)) as F
    by (repeat (apply Forall_cons; split; [done|]); by apply Forall_nil_2).
  rewrite Forall_forall in F. apply F.
Qed.

Lemma config_not_cr o : o ∈ config_regs -> (o =? GPIO_O_CR) = false.
Proof.
  assert (Forall (fun o => (o =? GPIO_O_CR) = false) config_regs) as F
    by (repeat (apply Forall_cons; split; [done|]); by apply Forall_nil_2).
  rewrite Forall_forall in F. apply F.
Qed.

Lemma icr_not_config : GPIO_O_ICR ∉ GPIO_O_CR :: config_regs.
Proof. apply (bool_decide_unpack _). vm_compute. exact Logic.I. Qed.

Lemma mix_bit v old m i : 0 <= i ->
  Z.testbit (mix v old m) i = if Z.testbit m i then Z.testbit v i else Z.testbit old i.
Proof.
  intros. unfold mix. rewrite Z.lor_spec, !Z.land_spec, Z.lnot_spec by done.
  destruct (Z.testbit m i), (Z.testbit v i), (Z.testbit old i); done.
Qed.

(** Reading a register after another was written. *)
Lemma board_regbit b o i (s : board) : b ∈ ports -> o ∈ GPIO_O_CR :: config_regs ->
  regbit b o i s = Z.testbit (reg s (b + o)) i.
Proof.
  intros Hb Ho. destruct (config_offset o Ho) as (? & Hlt & _).
  destruct (decode b o Hb) as [E _]; [lia|]. unfold regbit. cbn. by rewrite E, Hlt.
Qed.

Lemma reg_insert a v s a' l p :
  reg (mk_board (<[a := v]> (regs s)) l p) a' = if decide (a = a') then v else reg s a'.
Proof. unfold reg. cbn. rewrite lookup_insert. by case_decide. Qed.

Lemma board_set b o v (s : board) : b ∈ ports -> o ∈ config_regs ->
  HWREG_set (b + o) v s = mk_board
    (<[b + o := if protected o then mix v (reg s (b + o)) (reg s (b + GPIO_O_CR)) else v]> (regs s))
    (levels s) (open_ports s).
Proof.
  intros Hb Ho. pose proof (config_offset o ltac:(by apply list_elem_of_further)) as (? & H1 & H2).
  destruct (decode b o Hb) as [E1 E2]; [lia|]. cbn. by rewrite E1, E2, H1, H2, config_not_cr.
Qed.

Lemma board_set_cr b v (s : board) : b ∈ ports ->
  HWREG_set (b + GPIO_O_CR) v s =
    if unlocked b s then mk_board (<[b + GPIO_O_CR := v]> (regs s)) (levels s) (open_ports s) else s.
Proof.
  intros Hb. destruct (decode b GPIO_O_CR Hb) as [E1 E2]; [done|]. cbn. by rewrite E1, E2.
Qed.

Lemma board_set_lock b v (s : board) : b ∈ ports ->
  HWREG_set (b + GPIO_O_LOCK) v s =
    mk_board (regs s) (levels s) (<[b := v =? GPIO_LOCK_KEY_DD]> (open_ports s)).
Proof.
  intros Hb. destruct (decode b GPIO_O_LOCK Hb) as [E1 E2]; [done|]. cbn. by rewrite E1, E2.
Qed.

Lemma board_data b m : b ∈ ports -> 0 <= m < 256 ->
  offset (b + (GPIO_O_DATA + Z.shiftl m 2)) = 4 * m /\ base (b + (GPIO_O_DATA + Z.shiftl m 2)) = b.
Proof.
  intros Hb Hm. rewrite Z.shiftl_mul_pow2 by lia. change (2 ^ 2) with 4. unfold GPIO_O_DATA.
  replace (b + (0 + m * 4)) with (b + 4 * m) by lia. apply decode; [done|lia].
Qed.

Lemma board_set_data b m v (s : board) : b ∈ ports -> 0 <= m < 256 ->
  HWREG_set (b + (GPIO_O_DATA + Z.shiftl m 2)) v s =
    mk_board (regs s) (<[b := mix v (level b s) m]> (levels s)) (open_ports s).
Proof.
  intros Hb Hm. destruct (board_data b m Hb Hm) as [E1 E2]. cbn. rewrite E1, E2.
  rewrite (proj2 (Z.ltb_lt (4 * m) 0x400)) by lia. by rewrite Z.mul_comm, Z.div_mul by lia.
Qed.

#[export] Instance board_laws : gpio_laws board.
Proof.
  split.
  - intros b o v s b' o' i Hb Ho Hb' Ho' Hi.
    rewrite !board_regbit by (done || (by apply list_elem_of_further) || apply list_elem_of_here).
    rewrite board_set, reg_insert by done.
    destruct (config_offset o ltac:(by apply list_elem_of_further)) as [? _].
    destruct (config_offset o' ltac:(by apply list_elem_of_further)) as [? _].
    case_decide as D.
    + symmetry in D. apply decode_inj in D as [-> ->]; [|done|done|lia|lia].
      rewrite bool_decide_true by done. cbn [andb]. destruct (protected o); cbn [negb orb]; [|done].
      rewrite mix_bit by lia. by destruct (Z.testbit (reg s (b + GPIO_O_CR)) i).
    + rewrite bool_decide_false by (intros [-> ->]; done). done.
  - intros b o v s b' i Hb Ho Hb'.
    rewrite !board_regbit by (done || apply list_elem_of_here). rewrite board_set, reg_insert by done.
    destruct (config_offset o ltac:(by apply list_elem_of_further)) as [? _].
    case_decide as D; [|done]. symmetry in D. apply decode_inj in D as [_ <-]; [|done|done|lia|done].
    by apply config_not_cr in Ho.
  - intros b v s b' o' i Hb Hb' Ho'. rewrite !board_regbit by done. by rewrite board_set_lock.
  - intros b v s Hb. rewrite board_set_lock by done. cbn. by rewrite lookup_insert_eq.
  - intros b o v s b' Hb Ho Hb'. apply elem_of_cons in Ho as [->|Ho].
    + rewrite board_set_cr by done. by destruct (unlocked b s).
    + by rewrite board_set.
  - intros b v s i Hb Hi Hu Hv. rewrite board_regbit by (done || apply list_elem_of_here).
    rewrite board_set_cr, Hu, reg_insert, decide_True by done. done.
  - intros b v s b' o' i Hb Hb' Ho'. rewrite !board_regbit by (done || by apply list_elem_of_further).
    rewrite board_set_cr by done. destruct (unlocked b s); [|done]. rewrite reg_insert.
    destruct (config_offset o' ltac:(by apply list_elem_of_further)) as [? _].
    case_decide as D; [|done]. symmetry in D. apply decode_inj in D as [_ ->]; [|done|done|done|lia].
    by apply config_not_cr in Ho'.
  - intros b m s Hb Hm. destruct (board_data b m Hb Hm) as [E1 E2]. cbn. rewrite E1, E2.
    rewrite (proj2 (Z.ltb_lt (4 * m) 0x400)) by lia. by rewrite Z.mul_comm, Z.div_mul by lia.
  - intros b m v s b' i Hb Hb' Hm Hv Hi _. rewrite board_set_data by done. cbn. rewrite lookup_insert.
    destruct (decide (b = b')) as [->|Hn].
    + rewrite bool_decide_true by done. cbn. apply mix_bit. lia.
    + by rewrite bool_decide_false by congruence.
  - intros b m v s b' o' i Hb Hb' Hm Ho'. rewrite !board_regbit by done. by rewrite board_set_data.
  - intros b v s b' o' i Hb Hb' Ho'. rewrite !board_regbit by done.
    destruct (decode b GPIO_O_ICR Hb) as [E1 E2]; [done|].
    assert (HWREG_set (b + GPIO_O_ICR) v s = mk_board (<[b + GPIO_O_ICR := v]> (regs s)) (levels s) (open_ports s)) as ->
      by (cbn; by rewrite E1, E2).
    rewrite reg_insert. destruct (config_offset o' Ho') as [? _].
    case_decide as D; [|done]. symmetry in D. apply decode_inj in D as [_ ->]; [|done|done|done|lia].
    by apply icr_not_config in Ho'.
Qed.

(** All pins committed, as after reset (but for the debug pins). *)
Definition board0 : board :=
  mk_board (list_to_map ((fun b => (b + GPIO_O_CR, 0xFF)) <$> ports)) ∅ ∅.

Lemma pinMode_correct_witness : exists s', pinMode 81 INPUT_PULLUP board0 = Some s' /\
  cfg_upd GPIO_PORTN_BASE 1 (reg_of (mode_bits INPUT_PULLUP)) board0 s'.
Proof.
  apply (pinMode_correct 81 INPUT_PULLUP board0 GPIO_PORTN_BASE 1 eq_refl).
  left. apply list_elem_of_here.
Defined.

Definition board1 : board := default board0 (pinMode 81 OUTPUT board0).

Lemma digitalWrite_correct_witness : exists s', digitalWrite 81 HIGH board1 = Some s' /\
  digitalRead 81 s' = Some HIGH /\
  (forall q, q ≠ 81%nat -> is_Some (wired q) -> digitalRead q s' = digitalRead q board1) /\
  cfg_upd GPIO_PORTN_BASE 1 no_upd board1 s'.
Proof.
  apply (digitalWrite_correct 81 HIGH board1 GPIO_PORTN_BASE 1 eq_refl). vm_compute. reflexivity.
Defined.

End Gpio.
