(* ===== verification/Wiring.v ===== *)
(** * Time (cores/tivac/wiring.c)

    The SysTick counter counts F_CPU / SYSTICKHZ cycles down and interrupts once
    per round; [SysTickIntHandler] counts the rounds in [milliseconds].  The
    routines only read the counter and [milliseconds], so the model gives them
    the sequence of values they read: [cur n] is what the [n]-th read returns and
    the state is the number of reads done.  The properties take the sequence of
    the hardware: the counter at the (increasing) times of the reads.

    [unsigned long] has 32 bits.  F_CPU is 120000000 (boards.txt). *)
From S2P Require Import Prelude.

Module Wiring.

Definition F_CPU : Z := 120000000.
Definition SYSTICKHZ : Z := 1000.
Definition SYSTICKMS : Z := 1000 / SYSTICKHZ.
Definition NVIC_ST_CURRENT_M : Z := 0x00FFFFFF.
Definition DEEPSLEEP_CPU : Z := 16000000 / 16.

(** ** Operations *)

Section Reads.
Context (cur : nat -> Z).

(** [HWREG(NVIC_ST_CURRENT) & NVIC_ST_CURRENT_M], the [n]-th read. *)
Definition read_current (n : nat) : Z := Z.land (cur n) NVIC_ST_CURRENT_M.

(** The do loop of [delayMicroseconds]; the number of reads done when it ends. *)
Fixpoint wait_loop (fuel : nat) (startTime ticks : Z) (n : nat) : option nat :=
  match fuel with
  | O => None
  | S fuel =>
      let elapsedTime := Z.land (u32 (startTime - read_current n)) NVIC_ST_CURRENT_M in
      if elapsedTime <=? ticks then wait_loop fuel startTime ticks (S n) else Some (S n)
  end.

(** The part of [delayMicroseconds] after the whole milliseconds. *)
Definition wait_us (fuel : nat) (us : Z) (n : nat) : option nat :=
  let startTime := read_current n in
  let ticks := u32 (us * (F_CPU / 1000000)) in
  let ticks := if ticks >? startTime
    then Z.land (u32 (ticks + (NVIC_ST_CURRENT_M - F_CPU / SYSTICKHZ))) NVIC_ST_CURRENT_M else ticks in
  wait_loop fuel startTime ticks (S n).

(** The loop of [delay]: [delayMicroseconds(500)] takes no whole milliseconds. *)
Fixpoint delay_loop (count : nat) (fuel : nat) (n : nat) : option nat :=
  match count with
  | O => Some n
  | S count => n ← wait_us fuel 500 n; delay_loop count fuel n
  end.

Definition delay (fuel : nat) (millis : Z) (n : nat) : option nat :=
  delay_loop (Z.to_nat (u32 (millis * 2))) fuel n.

Definition delayMicroseconds (fuel : nat) (us : Z) (n : nat) : option nat :=
  if us >? 1000000 / SYSTICKHZ - 1
  then n ← delay fuel (us / 1000) n; wait_us fuel (us mod 1000) n
  else wait_us fuel us n.
End Reads.

(** [micros]: the reads of [milliseconds], the counter, and [milliseconds] again;
    [ms n] is what a read of [milliseconds] at the [n]-th read gives. *)
Fixpoint micros (fuel : nat) (ms cur : nat -> Z) (n : nat) : option (Z * nat) :=
  match fuel with
  | O => None
  | S fuel =>
      let m := ms n in
      let val := cur (n + 1)%nat in
      if negb (m =? ms (n + 2)%nat) then micros fuel ms cur (n + 3)
      else Some (u32 (u32 (m * 1000) + u32 (F_CPU / SYSTICKHZ - val) / (F_CPU / 1000000)), (n + 3)%nat)
  end.

Definition millis (milliseconds : Z) : Z := milliseconds.

(** *** Callbacks of the SysTick interrupt; 0 is a null pointer *)

Record systick := mk_systick { milliseconds : Z; SysTickCbFuncs : list Z }.

Fixpoint put_free (f : Z) (l : list Z) : list Z :=
  match l with
  | [] => []
  | x :: r => if x =? 0 then f :: r else x :: put_free f r
  end.

Definition registerSysTickCb (userFunc : Z) (s : systick) : systick :=
  mk_systick (milliseconds s) (put_free userFunc (SysTickCbFuncs s)).

(** The new state and the calls made, with their argument. *)
Definition SysTickIntHandler (s : systick) : systick * list (Z * Z) :=
  (mk_systick (u32 (milliseconds s + 1)) (SysTickCbFuncs s),
   (fun f => (f, SYSTICKMS)) <$> filter (fun f => f ≠ 0) (SysTickCbFuncs s)).

(** *** Deep sleep

    What an iteration of the loop sees: whether the wake-up came from SysTick
    (PENDSTSET), the counter, and what the interrupts do that run when they are
    enabled again: ticks of SysTick, and whether [stay_asleep] is still set. *)
Record wakeup := mk_wakeup { pendst : bool; st_current : Z; ticks : Z; stays : bool }.

(** The loop of [sleep] ([period] 100) and [sleepSeconds] ([period] 1000) on
    [milliseconds], with the deadline [i]. *)
Fixpoint sleep_loop (period i : Z) (ws : list wakeup) (ms : Z) : option Z :=
  if ms <? i then
    match ws with
    | [] => None
    | w :: ws =>
        let ms := if pendst w then u32 (ms + period)
                  else u32 (ms + u32 (DEEPSLEEP_CPU / (1000 / period) - st_current w) / (DEEPSLEEP_CPU / 1000)) in
        let ms := u32 (ms + ticks w) in
        if stays w then sleep_loop period i ws ms else Some ms
    end
  else Some ms.

Definition sleep (ms : Z) (ws : list wakeup) (milliseconds : Z) : option Z :=
  sleep_loop 100 (u32 (milliseconds + ms)) ws milliseconds.

Definition sleepSeconds (seconds : Z) (ws : list wakeup) (milliseconds : Z) : option Z :=
  sleep_loop 1000 (u32 (milliseconds + u32 (seconds * 1000))) ws milliseconds.

(** The loop of [suspend] runs until an interrupt clears [stay_asleep]; SysTick is
    stopped meanwhile, [milliseconds] only gets the ticks of the interrupts. *)
Fixpoint suspend (ws : list wakeup) (milliseconds : Z) : option Z :=
  match ws with
  | [] => None
  | w :: ws =>
      let milliseconds := u32 (milliseconds + ticks w) in
      if stays w then suspend ws milliseconds else Some milliseconds
  end.

(** The values written to NVIC_ST_RELOAD and NVIC_ST_CURRENT. *)
Definition SysTickMode_DeepSleep : Z * Z := (DEEPSLEEP_CPU / (1000 / 100) - 1, 0).
Definition SysTickMode_DeepSleepCoarse : Z * Z := (DEEPSLEEP_CPU - 1, 0).
Definition SysTickMode_Run : Z * Z := (F_CPU / SYSTICKHZ - 1, 0).

(** *** Initialisation *)

Inductive init_call :=
  | SysCtlClockFreqSet (config freq : Z) | SysTickPeriodSet (period : Z) | SysTickEnable
  | IntPrioritySet (int priority : Z) | SysTickIntEnable | IntMasterEnable | SysCtlPIOSCCalibrate.

Definition SYSCTL_CFG : Z := 0xF1000680.  (* XTAL_25MHZ | OSC_MAIN | USE_PLL | CFG_VCO_480 *)
Definition FAULT_SYSTICK : Z := 15.
Definition SYSTICK_INT_PRIORITY : Z := 0x80.

Definition timerInit : list init_call :=
  [SysCtlClockFreqSet SYSCTL_CFG F_CPU; SysTickPeriodSet (F_CPU / SYSTICKHZ); SysTickEnable;
   IntPrioritySet FAULT_SYSTICK SYSTICK_INT_PRIORITY; SysTickIntEnable; IntMasterEnable;
   SysCtlPIOSCCalibrate].

(** The rounds of the counter the sleep modes count as 100 and 1000 milliseconds
    are that long at the clock of deep sleep, and a round of the run mode is what
    [micros] and [delayMicroseconds] take it for. *)
Lemma systick_rounds :
  (SysTickMode_DeepSleep.1 + 1) * 1000 = 100 * DEEPSLEEP_CPU /\
  (SysTickMode_DeepSleepCoarse.1 + 1) * 1000 = 1000 * DEEPSLEEP_CPU /\
  SysTickPeriodSet (SysTickMode_Run.1 + 1) ∈ timerInit.
Proof. split; [reflexivity|]. split; [reflexivity|]. right. left. Qed.

(** ** The hardware *)

Definition N : Z := F_CPU / SYSTICKHZ.

(** The counter [c] cycles after it was started. *)
Definition counter (c : Z) : Z := N - 1 - c mod N.

Lemma counter_range c : 0 <= counter c < N.
Proof. unfold counter. pose proof (Z.mod_pos_bound c N ltac:(done)). lia. Qed.

Section Time.
(** The cycle of each read; a read takes at least one and at most [G] cycles. *)
Context (t : nat -> Z) (G : Z).
Hypothesis forward : forall n, t n < t (S n) <= t n + G.

Abbreviation cur := (fun n => counter (t n)).

Lemma forward_le n m : (n <= m)%nat -> t n + Z.of_nat (m - n) <= t m.
Proof.
  induction 1 as [|m Hm IH]; [rewrite Nat.sub_diag; lia|]. specialize (forward m).
  rewrite Nat.sub_succ_l by done. lia.
Qed.

Lemma read_current_id n : read_current cur n = counter (t n).
Proof.
  unfold read_current, NVIC_ST_CURRENT_M. change 0x00FFFFFF with (Z.ones 24).
  rewrite land_ones_mod by done. apply Z.mod_small. pose proof (counter_range (t n)).
  change N with 120000 in *. cint.
Qed.

Lemma elapsed_mod x : Z.land (u32 x) NVIC_ST_CURRENT_M = x mod 2 ^ 24.
Proof.
  unfold NVIC_ST_CURRENT_M, wrap. change 0x00FFFFFF with (Z.ones 24). rewrite land_ones_mod by done.
  change (2 ^ 32) with (2 ^ 24 * 2 ^ 8). rewrite Z.rem_mul_r by done.
  rewrite Z.add_mod, (Z.mul_comm (2 ^ 24)), Z.mod_mul, Z.add_0_r, !Z.mod_mod by done. done.
Qed.

(** What the loop compares the elapsed time with. *)
Definition threshold (ticks startTime : Z) : Z :=
  if ticks >? startTime
  then Z.land (u32 (ticks + (NVIC_ST_CURRENT_M - F_CPU / SYSTICKHZ))) NVIC_ST_CURRENT_M else ticks.

(** The test of the loop, [e] cycles after the counter was first read: it never
    ends the loop early, and it does end it while less than a round passed. *)
Lemma exit_test c e ticks : 0 <= ticks < N -> 0 <= e ->
  let elapsed := Z.land (u32 (counter c - counter (c + e))) NVIC_ST_CURRENT_M in
  (threshold ticks (counter c) < elapsed -> ticks <= e) /\
  (ticks < e < N -> threshold ticks (counter c) < elapsed).
Proof.
  intros Ht He. cbv zeta. unfold threshold. rewrite !elapsed_mod. unfold counter, NVIC_ST_CURRENT_M.
  change (F_CPU / SYSTICKHZ) with 120000. change N with 120000 in *. cint_pow.
  replace (120000 - 1 - c mod 120000 - (120000 - 1 - (c + e) mod 120000))
    with ((c + e) mod 120000 - c mod 120000) by lia.
  assert (0 <= c mod 120000 < 120000) as Hr by (apply Z.mod_pos_bound; lia).
  assert (exists q, 0 <= q /\ (c + e) mod 120000 = c mod 120000 + e - q * 120000 /\
    0 <= c mod 120000 + e - q * 120000 < 120000) as (q & Hq & Eq & Hb).
  { exists ((c + e) / 120000 - c / 120000). Z.div_mod_to_equations. lia. }
  rewrite Eq. generalize dependent (c mod 120000). intros r Hr _ Hb.
  destruct (Z.gtb_spec ticks (120000 - 1 - r)) as [Hg|Hg].
  - rewrite (Z.mod_small (ticks + (0x00FFFFFF - 120000))) by lia. Z.div_mod_to_equations. lia.
  - Z.div_mod_to_equations. lia.
Qed.

(** [delayMicroseconds] without the whole milliseconds: at least [us]
    microseconds, at most one read more. *)
Lemma wait_us_spec fuel us n : 0 <= us <= 999 -> us * 120 + G < N -> us * 120 + 1 < Z.of_nat fuel ->
  exists m, wait_us cur fuel us n = Some m /\ (n < m)%nat /\
    us * 120 <= t (m - 1) - t n <= us * 120 + G.
Proof.
  intros Hu HG Hf. unfold wait_us. rewrite read_current_id.
  change (F_CPU / 1000000) with 120. rewrite (wrap_id 32 (us * 120)) by cint.
  fold (threshold (us * 120) (counter (t n))).
  assert (forall fuel k, (n < k)%nat -> (forall j, (n < j < k)%nat -> t j - t n <= us * 120) ->
    us * 120 + 1 < Z.of_nat (fuel + (k - n - 1)) ->
    exists m, wait_loop cur fuel (counter (t n)) (threshold (us * 120) (counter (t n))) k = Some m /\
      (n < m)%nat /\ us * 120 <= t (m - 1) - t n <= us * 120 + G) as L.
  { clear fuel Hf. induction fuel as [|fuel IH]; intros k Hk Hj Hf.
    - assert (k <= S n \/ (n < k - 1 < k)%nat)%nat as [Hk'|Hk'] by lia; [lia|].
      pose proof (Hj (k - 1)%nat Hk'). pose proof (forward_le n (k - 1) ltac:(lia)). lia.
    - cbn [wait_loop]. rewrite read_current_id.
      pose proof (forward_le n k ltac:(lia)) as Hnk.
      destruct (exit_test (t n) (t k - t n) (us * 120)) as [Early Late];
        [change N with 120000; lia|lia|].
      replace (t n + (t k - t n)) with (t k) in Early, Late by lia.
      destruct (Z.leb_spec (Z.land (u32 (counter (t n) - counter (t k))) NVIC_ST_CURRENT_M)
        (threshold (us * 120) (counter (t n)))) as [Hle|Hgt].
      + apply IH; [lia| |lia]. intros j Hjk. destruct (decide (j = k)) as [->|]; [|apply Hj; lia].
        destruct (Z.le_gt_cases (t k - t n) (us * 120)) as [|Hlong]; [done|].
        assert (t k - t n <= us * 120 + G) as Hb.
        { destruct (decide (k = S n)) as [->|]; [specialize (forward n); lia|].
          pose proof (Hj (k - 1)%nat ltac:(lia)). pose proof (forward (k - 1)) as F.
          replace (S (k - 1)) with k in F by lia. lia. }
        specialize (Late ltac:(lia)). lia.
      + exists (S k). split; [done|]. split; [lia|]. replace (S k - 1)%nat with k by lia.
        specialize (Early Hgt). split; [done|].
        destruct (decide (k = S n)) as [->|]; [specialize (forward n); lia|].
        pose proof (Hj (k - 1)%nat ltac:(lia)). pose proof (forward (k - 1)) as F.
        replace (S (k - 1)) with k in F by lia. lia. }
  apply L; [lia|lia|]. replace (fuel + (S n - n - 1))%nat with fuel by lia. done.
Qed.

Lemma forward_lt n m : (n < m)%nat -> t n < t m.
Proof. intros H. pose proof (forward_le n m ltac:(lia)). lia. Qed.

(** A call of [delay], up to the next read of the counter. *)
Lemma delay_loop_spec fuel : forall count n, 60000 + G < N -> 60001 < Z.of_nat fuel ->
  exists m, delay_loop cur count fuel n = Some m /\ (n <= m)%nat /\
    t m - t n <= Z.of_nat count * (60000 + 2 * G) /\ Z.of_nat count * 60000 <= t m - t n /\
    (count ≠ O -> Z.of_nat count * 60000 <= t (m - 1) - t n).
Proof.
  induction count as [|count IH]; intros n HG Hf; cbn [delay_loop].
  - exists n. split; [done|]. repeat split; [lia..|done].
  - destruct (wait_us_spec fuel 500 n) as (k & E & Hk & Lo & Hi); [lia..|]. rewrite E. cbn [mbind option_bind].
    destruct (IH k HG Hf) as (m & E' & Hm & Hi' & Lo' & Last). exists m. split; [done|]. split; [lia|].
    pose proof (forward (k - 1)) as F. replace (S (k - 1)) with k in F by lia.
    split; [lia|]. split; [lia|]. intros _. destruct count as [|count].
    + cbn in E'. simplify_eq. lia.
    + specialize (Last ltac:(done)). lia.
Qed.

Lemma delay_spec fuel millis n : 0 <= millis < 2 ^ 31 -> 60000 + G < N -> 60001 < Z.of_nat fuel ->
  exists m, delay cur fuel millis n = Some m /\ (n <= m)%nat /\
    t m - t n <= 2 * millis * (60000 + 2 * G) /\ millis * 120000 <= t m - t n.
Proof.
  intros Hm HG Hf. unfold delay. rewrite (wrap_id 32) by cint.
  destruct (delay_loop_spec fuel (Z.to_nat (millis * 2)) n HG Hf) as (m & E & H1 & H2 & H3 & _).
  rewrite Z2Nat.id in H2, H3 by lia. exists m. split; [done|]. split; [done|]. lia.
Qed.

(** ** Properties *)

(** C40: [delayMicroseconds] waits: for any number of microseconds and wherever
    the counter is, it returns, not before the time is over and not later than
    the reads of the counter allow.  [t] are the cycles of the reads, at most [G]
    apart, which must be less than what is left of a round of the counter. *)
Theorem delayMicroseconds_correct fuel us n : 0 <= us < 2 ^ 32 ->
  60000 + G < N -> us mod 1000 * 120 + G < N -> 120000 < Z.of_nat fuel ->
  exists m, delayMicroseconds cur fuel us n = Some m /\ (n < m)%nat /\
    us * 120 <= t (m - 1) - t n <= us * 120 + (2 * (us / 1000) * 2 + 1) * G.
Proof.
  intros Hu HG HG' Hf. unfold delayMicroseconds. change (1000000 / SYSTICKHZ - 1) with 999.
  pose proof (Z.mod_pos_bound us 1000 ltac:(done)) as Hm. pose proof (Z.div_mod us 1000 ltac:(done)) as Hd.
  assert (0 < G) as HG0 by (specialize (forward 0); lia).
  destruct (Z.gtb_spec us 999) as [Hg|Hle].
  - destruct (delay_spec fuel (us / 1000) n) as (k & E & Hk & Hi & Lo); [|done|lia|].
    { split; [apply Z.div_pos; lia|]. apply Z.div_lt_upper_bound; cint. }
    rewrite E. cbn [mbind option_bind].
    destruct (wait_us_spec fuel (us mod 1000) k) as (m & E' & Hkm & Lo' & Hi'); [lia|lia|lia|].
    exists m. split; [done|]. split; [lia|]. nia.
  - rewrite Z.mod_small in HG', Hm by lia. rewrite Z.div_small by lia.
    destruct (wait_us_spec fuel us n) as (m & E & H1 & H2); [lia..|]. exists m. split; [done|]. split; [done|]. lia.
Qed.

(** What [milliseconds] holds [c] cycles after the start. *)
Definition ms_at (c : Z) : Z := u32 (c / N).

(** The result of [micros] when both reads of [milliseconds] saw the round the
    counter was read in. *)
Lemma micros_value c : 0 <= c ->
  u32 (u32 (ms_at c * 1000) + u32 (F_CPU / SYSTICKHZ - counter c) / (F_CPU / 1000000))
  = u32 ((c + 1) / 120).
Proof.
  intros Hc. change (F_CPU / SYSTICKHZ) with N. change (F_CPU / 1000000) with 120.
  unfold counter. replace (N - (N - 1 - c mod N)) with (c mod N + 1) by lia.
  pose proof (Z.mod_pos_bound c N ltac:(done)) as Hm.
  rewrite (wrap_id 32 (c mod N + 1)) by (change N with 120000 in *; cint).
  unfold ms_at, wrap. rewrite Z.mul_mod_idemp_l, Z.add_mod_idemp_l by done. f_equal.
  replace (c + 1) with (1000 * (c / N) * 120 + (c mod N + 1))
    by (pose proof (Z.div_mod c N ltac:(done)) as E; change N with 120000 in *; lia).
  rewrite Z.div_add_l by lia. lia.
Qed.

Lemma ms_at_inj a b : a / N = b / N \/ b / N = a / N + 1 -> ms_at a = ms_at b -> a / N = b / N.
Proof.
  unfold ms_at, wrap. cint_pow. intros [|E]; [done|]. rewrite E. generalize (a / N). intros x H.
  Z.div_mod_to_equations. lia.
Qed.

(** [micros] returns after at most two rounds of reads, and what it returns
    is the time of its read of the counter in microseconds since the start,
    rounded down, modulo 2^32: it never goes back when the counter starts over
    between two reads. *)
Theorem micros_correct fuel n : 0 <= t n -> 5 * G < N -> (2 <= fuel)%nat ->
  exists k, (k = n \/ k = n + 3)%nat /\
    micros fuel (fun n => ms_at (t n)) cur n = Some (u32 ((t (k + 1) + 1) / 120), (k + 3)%nat).
Proof.
  intros H0 HG Hf. destruct fuel as [|[|fuel]]; [lia..|].
  assert (forall i, t n <= t (n + i)%nat <= t n + Z.of_nat i * G) as B.
  { induction i as [|i IH]; [rewrite Nat.add_0_r; lia|]. specialize (forward (n + i)).
    rewrite Nat.add_succ_r. lia. }
  assert (forall k, t n <= t k -> t k <= t (k + 1)%nat <= t (k + 2)%nat ->
    t (k + 2)%nat / N = t k / N -> u32 (u32 (ms_at (t k) * 1000) +
      u32 (F_CPU / SYSTICKHZ - counter (t (k + 1)%nat)) / (F_CPU / 1000000))
    = u32 ((t (k + 1)%nat + 1) / 120)) as V.
  { intros k Hk Hm E. rewrite <-micros_value by lia. do 4 f_equal. unfold ms_at. f_equal.
    pose proof (Z.div_le_mono (t k) (t (k + 1)%nat) N ltac:(done) ltac:(lia)).
    pose proof (Z.div_le_mono (t (k + 1)%nat) (t (k + 2)%nat) N ltac:(done) ltac:(lia)). lia. }
  assert (forall k, t k < t (k + 1)%nat < t (k + 2)%nat) as Up.
  { intros k. pose proof (forward k). pose proof (forward (k + 1)).
    replace (k + 1)%nat with (S k) in * by lia. replace (k + 2)%nat with (S (S k)) by lia. lia. }
  cbn [micros]. destruct (Z.eqb_spec (ms_at (t n)) (ms_at (t (n + 2)%nat))) as [E|E]; cbn [negb].
  - exists n. split; [by left|]. rewrite V; [done|lia|specialize (Up n); lia|].
    apply ms_at_inj in E; [done|]. specialize (B 2%nat). clear -B HG. change N with 120000 in *.
    Z.div_mod_to_equations. lia.
  - exists (n + 3)%nat. split; [by right|].
    assert (t (n + 3 + 2)%nat / N = t (n + 3)%nat / N) as E2.
    { assert (t n / N ≠ t (n + 2)%nat / N) as Hn by (intros Hn; apply E; unfold ms_at; by rewrite Hn).
      pose proof (B 2%nat). pose proof (B 5%nat) as B5. pose proof (B 3%nat).
      pose proof (Up (n + 3)%nat). specialize (forward (n + 2)%nat).
      replace (S (n + 2)) with (n + 3)%nat in forward by lia.
      replace (n + 3 + 2)%nat with (n + 5)%nat in * by lia.
      clear -B5 HG Hn H H0 forward H1 H2. change N with 120000 in *. Z.div_mod_to_equations. lia. }
    assert ((ms_at (t (n + 3)%nat) =? ms_at (t (n + 3 + 2)%nat)) = true) as Eq.
    { apply Z.eqb_eq. unfold ms_at. by rewrite E2. }
    rewrite Eq. cbn [negb]. rewrite V; [done| |specialize (Up (n + 3)%nat); lia|done].
    specialize (B 3%nat). lia.
Qed.
End Time.

(** Reads 7 cycles apart, from cycle 119990 on. *)
Definition demo_t (n : nat) : Z := 119990 + 7 * Z.of_nat n.

Lemma demo_forward n : demo_t n < demo_t (S n) <= demo_t n + 7.
Proof. unfold demo_t. lia. Qed.

Lemma delayMicroseconds_correct_witness : exists m,
  delayMicroseconds (fun n => counter (demo_t n)) (Z.to_nat 130000) 2250 0 = Some m /\ (0 < m)%nat /\
    2250 * 120 <= demo_t (m - 1) - demo_t 0 <= 2250 * 120 + (2 * (2250 / 1000) * 2 + 1) * 7.
Proof.
  apply (delayMicroseconds_correct demo_t 7 demo_forward (Z.to_nat 130000) 2250 0);
    [cint|vm_compute; reflexivity|vm_compute; reflexivity|rewrite Z2Nat.id by lia; lia].
Defined.

Lemma micros_correct_witness : exists k, (k = 0 \/ k = 3)%nat /\
  micros 2 (fun n => ms_at (demo_t n)) (fun n => counter (demo_t n)) 0
  = Some (u32 ((demo_t (k + 1) + 1) / 120), (k + 3)%nat).
Proof.
  apply (micros_correct demo_t 7 demo_forward 2 0); [vm_compute; discriminate|vm_compute; reflexivity|lia].
Defined.

(** ** Callbacks of the tick *)

(** The table with the callbacks [fs] registered. *)
Definition table (fs : list Z) : list Z := fs ++ replicate (8 - length fs) 0.

Lemma put_free_table f fs : Forall (fun f => f ≠ 0) fs ->
  put_free f (table fs) = if decide (length fs < 8)%nat then table (fs ++ [f]) else table fs.
Proof.
  intros F. unfold table. assert (forall k, put_free f (fs ++ replicate k 0)
    = fs ++ put_free f (replicate k 0)) as P.
  { intros k. induction F as [|x fs Hx F IH]; [done|]. cbn [app put_free].
    rewrite (proj2 (Z.eqb_neq x 0)), IH by done. done. }
  rewrite P. case_decide as D.
  - replace (8 - length fs)%nat with (S (8 - length (fs ++ [f]))%nat) by (rewrite length_app; cbn; lia).
    cbn [replicate put_free]. rewrite Z.eqb_refl. by rewrite <-app_assoc.
  - by replace (8 - length fs)%nat with O by lia.
Qed.

Lemma filter_table fs : Forall (fun f => f ≠ 0) fs -> filter (fun f => f ≠ 0) (table fs) = fs.
Proof.
  intros F. unfold table. rewrite filter_app.
  assert (filter (fun f => f ≠ 0) (replicate (8 - length fs) 0) = []) as ->.
  { induction (8 - length fs)%nat; [done|]. cbn [replicate]. rewrite filter_cons_False by (intros H; by apply H). done. }
  rewrite app_nil_r. induction F as [|x fs Hx F IH]; [done|]. rewrite filter_cons_True by done. by rewrite IH.
Qed.

(** The first eight callbacks registered are called at every tick, each once,
    in the order of their registration and with the length of a tick in
    milliseconds; later ones are dropped.  Every tick adds one to
    [milliseconds]. *)
Theorem systick_callbacks ms fs : Forall (fun f => f ≠ 0) fs ->
  SysTickIntHandler (foldl (fun s f => registerSysTickCb f s) (mk_systick ms (replicate 8 0)) fs)
  = (mk_systick (u32 (ms + 1)) (table (take 8 fs)), (fun f => (f, 1)) <$> take 8 fs).
Proof.
  intros F.
  assert (foldl (fun s f => registerSysTickCb f s) (mk_systick ms (replicate 8 0)) fs
    = mk_systick ms (table (take 8 fs))) as ->.
  { induction fs as [|f fs IH] using rev_ind; [done|]. apply Forall_app in F as [F Ff].
    rewrite foldl_snoc, IH by done. unfold registerSysTickCb. cbn [milliseconds SysTickCbFuncs]. f_equal.
    rewrite put_free_table by by apply Forall_take. rewrite length_take. case_decide as D.
    - by rewrite (take_ge fs), take_ge by (rewrite ?length_app; cbn; lia).
    - by rewrite take_app_le by lia. }
  unfold SysTickIntHandler. cbn [milliseconds SysTickCbFuncs]. by rewrite filter_table by by apply Forall_take.
Qed.

Lemma systick_callbacks_witness :
  SysTickIntHandler (foldl (fun s f => registerSysTickCb f s) (mk_systick 7 (replicate 8 0)) [0x101; 0x205])
  = (mk_systick 8 (table [0x101; 0x205]), [(0x101, 1); (0x205, 1)]).
Proof. apply (systick_callbacks 7 [0x101; 0x205]). repeat constructor; discriminate. Defined.

(** ** Deep sleep *)

(** Left alone, [sleep] and [sleepSeconds] return with [milliseconds] at the
    deadline or less than a period after it, if the deadline fits in 32 bits. *)
Lemma sleep_loop_spec period i ws : 0 < period -> i + period < 2 ^ 32 ->
  Forall (fun w => pendst w = true /\ ticks w = 0 /\ stays w = true) ws -> forall now, 0 <= now ->
  i - now <= period * Z.of_nat (length ws) ->
  exists now', sleep_loop period i ws now = Some now' /\ i <= now' /\ (now < i -> now' < i + period).
Proof.
  intros Hp Hi F. induction F as [|w ws (Hw & Ht & Hs) F IH]; intros now Hn Hl.
  - cbn in *. destruct (Z.ltb_spec now i); [lia|]. exists now. split; [done|]. lia.
  - cbn [sleep_loop]. destruct (Z.ltb_spec now i) as [Hlt|]; [|exists now; split; [done|]; lia].
    rewrite Hw, Ht, Hs, Z.add_0_r. rewrite !wrap_id by (try apply wrap_range; cint). destruct (IH (now + period)) as (now' & E & H1 & H2); [lia| |].
    { cbn [length] in Hl. lia. }
    exists now'. split; [done|]. split; [done|]. intros _.
    destruct (Z.lt_ge_cases (now + period) i); [by apply H2|].
    destruct ws; cbn [sleep_loop] in E; destruct (Z.ltb_spec (now + period) i); simplify_eq; lia.
Qed.

(** The deadline wraps around: less than [ms] milliseconds before the counter
    does, [sleep] does not sleep at all. *)
Lemma sleep_wraps ws : sleep 1000 ws (2 ^ 32 - 500) = Some (2 ^ 32 - 500).
Proof. unfold sleep. destruct ws; reflexivity. Qed.

End Wiring.
