(* ===== verification/Interrupts.v ===== *)
(** * Pin interrupts (cores/tivac/WInterrupts.c)

    Each port has a table of eight callbacks; [attachInterrupt] fills in an entry
    and enables the interrupt, the handlers of the ports call the callbacks of
    the pins that interrupted.  A callback is a function pointer (a [Z], 0 is
    null); what it does is a parameter [run] on the state, so that a callback may
    attach and detach interrupts.  TARGET_IS_SNOWFLAKE_RA0 is defined
    (Energia.h, TM4C1294): the switches have the cases of ports R, S and T. *)
From S2P Require Import Prelude Pins Gpio.
Import Pins Gpio.

Module Interrupts.

Definition CHANGE : Z := 4.
Definition FALLING : Z := 3.
Definition RISING : Z := 2.

Definition GPIO_FALLING_EDGE : Z := 0x0.
Definition GPIO_RISING_EDGE : Z := 0x4.
Definition GPIO_BOTH_EDGES : Z := 0x1.
Definition GPIO_LOW_LEVEL : Z := 0x2.

(** The cases of the switches in their order: the base address of the port and
    the interrupts (inc/hw_ints.h) [attachInterrupt] enables for it.  The
    callback tables [cbFuncsA], [cbFuncsB], ... have the same order. *)
Definition port_cases : list (Z * list Z) :=
  [(GPIO_PORTA_BASE, [16]); (GPIO_PORTB_BASE, [17]); (GPIO_PORTC_BASE, [18]);
   (GPIO_PORTD_BASE, [19]); (GPIO_PORTE_BASE, [20]); (GPIO_PORTF_BASE, [46]);
   (GPIO_PORTG_BASE, [47]); (GPIO_PORTH_BASE, [48]); (GPIO_PORTJ_BASE, [67]);
   (GPIO_PORTK_BASE, [68]); (GPIO_PORTL_BASE, [69]); (GPIO_PORTM_BASE, [88]);
   (GPIO_PORTN_BASE, [89]);
   (GPIO_PORTP_BASE, [92; 93; 94; 95; 96; 97; 98; 99]);
   (GPIO_PORTQ_BASE, [100; 101; 102; 103; 104; 105; 106; 107]);
   (GPIO_PORTR_BASE, [108]); (GPIO_PORTS_BASE, [109]); (GPIO_PORTT_BASE, [127])].

(** The case of the switch a base address selects. *)
Definition switch (portBase : Z) : option (nat * list Z) :=
  '(c, (_, ints)) ← list_find (fun x => x.1 = portBase) port_cases; Some (c, ints).

Record irq {S : Type} := mk_irq {
  hw : S;
  cbFuncs : list (list Z);   (* cbFuncsA, cbFuncsB, ... *)
  nvic : gset Z;             (* enabled interrupts *)
  master : bool }.           (* interrupts not masked *)
Arguments irq : clear implicits.

Section Ops.
Context {S : Type} `{gpio_hw S}.
Implicit Types s : irq S.

Definition set_hw (x : S) s : irq S := mk_irq S x (cbFuncs s) (nvic s) (master s).
Definition set_cbs (c : list (list Z)) s : irq S := mk_irq S (hw s) c (nvic s) (master s).
Definition set_nvic (n : gset Z) s : irq S := mk_irq S (hw s) (cbFuncs s) n (master s).
Definition set_master (m : bool) s : irq S := mk_irq S (hw s) (cbFuncs s) (nvic s) m.

(** What a callback does. *)
Variable (run : Z -> irq S -> irq S).

(** The loop of [GPIOXIntHandler] on the table [c]: the state and the callbacks
    called, in order.  The entries are read when their turn comes. *)
Fixpoint isr_loop (n : nat) (i : nat) (isr : Z) (c : nat) s : option (irq S * list Z) :=
  match n with
  | O => Some (s, [])
  | Datatypes.S n =>
      if Z.land isr 0x1 =? 0 then isr_loop n (Datatypes.S i) (Z.shiftr isr 1) c s
      else
        f ← (funcs ← cbFuncs s !! c; funcs !! i);
        if f =? 0 then isr_loop n (Datatypes.S i) (Z.shiftr isr 1) c s
        else '(s, calls) ← isr_loop n (Datatypes.S i) (Z.shiftr isr 1) c (run f s); Some (s, f :: calls)
  end.

Definition GPIOXIntHandler (base : Z) (c : nat) s : option (irq S * list Z) :=
  let isr := GPIOIntStatus base true (hw s) in
  let s := set_hw (GPIOIntClear base isr (hw s)) s in
  isr_loop 8 0 isr c s.

(** [GPIOAIntHandler], [GPIOBIntHandler], ...: port [c] of the list. *)
Definition GPIOIntHandler (c : nat) s : option (irq S * list Z) :=
  '(base, _) ← port_cases !! c; GPIOXIntHandler base c s.

(** The loop that finds the bit number of a mask; 8 when no bit is set. *)
Fixpoint bit_index (n : nat) (i : nat) (bit : Z) : nat :=
  match n with
  | O => i
  | Datatypes.S n =>
      if Z.land bit 0x1 =? 1 then i else bit_index n (Datatypes.S i) (Z.shiftr bit 1)
  end.

Definition lm4fMode (mode : Z) : option Z :=
  if mode =? LOW then Some GPIO_LOW_LEVEL
  else if mode =? CHANGE then Some GPIO_BOTH_EDGES
  else if mode =? RISING then Some GPIO_RISING_EDGE
  else if mode =? FALLING then Some GPIO_FALLING_EDGE
  else None.

(** [cbFuncsX[i] = f]; [i] = 8 is outside of the table. *)
Definition store_cb (c i : nat) (f : Z) s : option (irq S) :=
  funcs ← cbFuncs s !! c;
  if (i <? length funcs)%nat then Some (set_cbs (<[c := <[i := f]> funcs]> (cbFuncs s)) s) else None.

Definition attachInterrupt (interruptNum : nat) (userFunc mode : Z) s : option (irq S) :=
  bit ← digital_pin_to_bit_mask !! interruptNum;
  port ← digital_pin_to_port !! interruptNum;
  portBase ← port_to_base !! Z.to_nat port;
  match lm4fMode mode with
  | None => Some s
  | Some m =>
      let s := set_master false s in
      let s := set_hw (GPIOIntClear portBase bit (hw s)) s in
      let s := set_hw (GPIOIntTypeSet portBase bit m (hw s)) s in
      let s := set_hw (GPIOIntEnable portBase bit (hw s)) s in
      let i := bit_index 8 0 bit in
      s ← match switch portBase with
          | Some (c, ints) =>
              s ← store_cb c i userFunc s;
              Some (set_nvic (list_to_set ints ∪ nvic s) s)
          | None => Some s
          end;
      Some (set_master true s)
  end.

(** The cases of [detachInterrupt] have no break: from the case of the port to
    the last one every table gets its entry cleared. *)
Fixpoint clear_from (c n i : nat) s : option (irq S) :=
  match n with
  | O => Some s
  | Datatypes.S n => s ← store_cb c i 0 s; clear_from (Datatypes.S c) n i s
  end.

Definition detachInterrupt (interruptNum : nat) s : option (irq S) :=
  bit ← digital_pin_to_bit_mask !! interruptNum;
  port ← digital_pin_to_port !! interruptNum;
  portBase ← port_to_base !! Z.to_nat port;
  if port =? NOT_A_PIN then Some s
  else
    let s := set_hw (GPIOIntDisable portBase bit (hw s)) s in
    let i := bit_index 8 0 bit in
    match switch portBase with
    | Some (c, _) => clear_from c (length port_cases - c) i s
    | None => Some s
    end.
End Ops.

(** ** Facts *)

Lemma bit_index_pow2 k : 0 <= k < 8 -> bit_index 8 0 (2 ^ k) = Z.to_nat k.
Proof.
  intros Hk. assert (k ∈ seqZ 0 8) as Hin by (apply elem_of_seqZ; lia).
  assert (Forall (fun k => bit_index 8 0 (2 ^ k) = Z.to_nat k) (seqZ 0 8)) as F by (repeat constructor).
  rewrite Forall_forall in F. by apply F.
Qed.

Lemma switch_port b : b ∈ ports -> exists c ints,
  switch b = Some (c, ints) /\ port_cases !! c = Some (b, ints) /\ (c < 18)%nat.
Proof.
  assert (Forall (fun b => exists c ints,
    switch b = Some (c, ints) /\ port_cases !! c = Some (b, ints) /\ (c < 18)%nat) ports) as F.
  { repeat (apply Forall_cons; split; [do 2 eexists; split; [vm_compute; reflexivity|];
      split; [reflexivity|lia]|]). by apply Forall_nil_2. }
  rewrite Forall_forall in F. apply F.
Qed.

Section Correct.
Context {S : Type} `{Laws : gpio_laws S}.
Implicit Types s : irq S.

(** The tables as the C declarations have them. *)
Definition wf s : Prop := length (cbFuncs s) = 18%nat /\ Forall (fun l => length l = 8%nat) (cbFuncs s).

Definition cb s (c i : nat) : option Z := funcs ← cbFuncs s !! c; funcs !! i.

Lemma cb_some s c i : wf s -> (c < 18)%nat -> (i < 8)%nat -> is_Some (cb s c i).
Proof.
  intros [Hl F] Hc Hi. rewrite <-Hl in Hc. apply lookup_lt_is_Some in Hc as [l El]. unfold cb. rewrite El. cbn.
  apply lookup_lt_is_Some. by rewrite (Forall_lookup_1 _ _ _ _ F El).
Qed.

Lemma store_cb_spec c i f s : wf s -> (c < 18)%nat -> (i < 8)%nat ->
  exists s', store_cb c i f s = Some s' /\ wf s' /\ hw s' = hw s /\ nvic s' = nvic s /\ master s' = master s /\
    forall c' i', cb s' c' i' = if decide (c' = c /\ i' = i) then Some f else cb s c' i'.
Proof.
  intros [Hl F] Hc Hi. assert (exists l, cbFuncs s !! c = Some l) as [l El].
  { apply lookup_lt_is_Some. lia. }
  pose proof (Forall_lookup_1 _ _ _ _ F El) as Ll. cbn in Ll. unfold store_cb. rewrite El. cbn [mbind option_bind].
  rewrite (proj2 (Nat.ltb_lt _ _)) by lia. eexists. split; [done|]. split; [|split; [done|split; [done|split; [done|]]]].
  - split; cbn; [by rewrite length_insert|]. apply Forall_insert; [done|]. by rewrite length_insert.
  - intros c' i'. unfold cb. cbn. rewrite list_lookup_insert. destruct (decide (c' = c)) as [->|Hn].
    + rewrite decide_True by lia. cbn. rewrite list_lookup_insert, El. cbn.
      destruct (decide (i' = i)) as [->|Hi'].
      * by rewrite !decide_True by lia.
      * by rewrite !decide_False by naive_solver.
    + rewrite decide_False by naive_solver. by rewrite decide_False by naive_solver.
Qed.

(** Like [cfg_upd], but for the register GPIOSI, whose bit 0 is for the port. *)
Definition int_upd (b k : Z) (f : Z -> option bool) (x x' : S) : Prop :=
  forall b' o i, b' ∈ ports -> o ∈ config_regs -> o ≠ GPIO_O_PC -> o ≠ GPIO_O_SI -> 0 <= i < 8 ->
    regbit b' o i x' = default (regbit b' o i x) (if bool_decide (b' = b /\ i = k) then f o else None).

Lemma int_upd_trans b k f g (x1 x2 x3 : S) :
  int_upd b k f x1 x2 -> int_upd b k g x2 x3 -> int_upd b k (upd_then f g) x1 x3.
Proof.
  intros H1 H2 b' o i Hb Ho Hp Hs Hi. rewrite H2, H1 by done. unfold upd_then.
  destruct (bool_decide _); [|done]. by destruct (g o).
Qed.

Lemma int_upd_same b k (x x' : S) : (forall b' o i, b' ∈ ports -> o ∈ config_regs -> o ≠ GPIO_O_SI ->
  0 <= i < 8 -> regbit b' o i x' = regbit b' o i x) -> int_upd b k no_upd x x'.
Proof.
  intros E b' o i Hb Ho _ Hs Hi. rewrite E by done. unfold no_upd. by destruct (bool_decide _).
Qed.

(** A register that needs no commit. *)
Lemma int_upd_set c b o k (x : S) : b ∈ ports -> o ∈ config_regs -> o ≠ GPIO_O_PC -> protected o = false ->
  0 <= k < 8 -> int_upd b k (upd_reg o c) x (set_or_clear c (b + o) (2 ^ k) x).
Proof.
  intros Hb Ho Hp Hpr Hk b' o' i Hb' Ho' Hp' _ Hi.
  apply (proj1 (set_or_clear_upd c b o k x Hb Ho Hp Hk ltac:(by rewrite Hpr))); done.
Qed.

Ltac in_regs := first [assumption | apply (bool_decide_unpack _); vm_compute; exact Logic.I].

Lemma int_upd_ext b k f g (x x' : S) : Forall (fun o => f o = g o) config_regs ->
  int_upd b k f x x' -> int_upd b k g x x'.
Proof.
  intros F U b' o i Hb Ho Hp Hs Hi. rewrite U by done. rewrite Forall_forall in F. by rewrite (F o Ho).
Qed.

Lemma GPIOIntTypeSet_upd b k m (x : S) : b ∈ ports -> 0 <= k < 8 ->
  int_upd b k (upd_then (upds no_upd [(GPIO_O_IBE, flag m 1); (GPIO_O_IS, flag m 2); (GPIO_O_IEV, flag m 4)])
    no_upd) x (GPIOIntTypeSet b (2 ^ k) m x).
Proof.
  intros Hb Hk. unfold GPIOIntTypeSet. cbn [upds fold_left fst snd].
  eapply int_upd_trans; [eapply int_upd_trans; [eapply int_upd_trans; [eapply int_upd_trans|]|]|].
  - by apply int_upd_same.
  - apply (int_upd_set (flag m 1) b GPIO_O_IBE k); [done|in_regs|done|done|done].
  - apply (int_upd_set (flag m 2) b GPIO_O_IS k); [done|in_regs|done|done|done].
  - apply (int_upd_set (flag m 4) b GPIO_O_IEV k); [done|in_regs|done|done|done].
  - apply int_upd_same. intros b' o i Hb' Ho Hs Hi. unfold set_or_clear.
    rewrite config_write by first [assumption|lia|in_regs].
    by rewrite bool_decide_false by naive_solver.
Qed.

(** What a mode means for the interrupt registers of a pin. *)
Definition int_bits (m : Z) : list (Z * bool) :=
  [(GPIO_O_IM, true); (GPIO_O_IBE, flag m 1); (GPIO_O_IS, flag m 2); (GPIO_O_IEV, flag m 4)].

Lemma attach_regs b k m (x : S) : b ∈ ports -> 0 <= k < 8 ->
  int_upd b k (reg_of (int_bits m)) x
    (GPIOIntEnable b (2 ^ k) (GPIOIntTypeSet b (2 ^ k) m (GPIOIntClear b (2 ^ k) x))).
Proof.
  intros Hb Hk. eapply int_upd_ext; cycle 1.
  - eapply int_upd_trans; [|apply (int_upd_set true b GPIO_O_IM k); [done|in_regs|done|done|done]].
    eapply int_upd_trans; [|by apply GPIOIntTypeSet_upd].
    apply int_upd_same. intros b' o i Hb' Ho _ _. unfold GPIOIntClear.
    apply icr_write; [done|done|by apply list_elem_of_further].
  - repeat (apply Forall_cons; split; [reflexivity|]). by apply Forall_nil_2.
Qed.

(** Clearing one entry in every table from [c] on. *)
Lemma clear_from_spec n : forall c i s, wf s -> (c + n = 18)%nat -> (i < 8)%nat ->
  exists s', clear_from c n i s = Some s' /\ wf s' /\ hw s' = hw s /\ nvic s' = nvic s /\ master s' = master s /\
    forall c' i', cb s' c' i' = if decide ((c <= c' < 18)%nat /\ i' = i) then Some 0 else cb s c' i'.
Proof.
  induction n as [|n IH]; intros c i s Hw Hc Hi; cbn [clear_from].
  - exists s. do 5 (split; [done|]). intros c' i'. by rewrite decide_False by lia.
  - destruct (store_cb_spec c i 0 s Hw) as (s1 & E & W1 & H1 & N1 & M1 & C1); [lia|done|]. rewrite E.
    cbn [mbind option_bind]. destruct (IH (Datatypes.S c) i s1 W1) as (s2 & E2 & W2 & H2 & N2 & M2 & C2); [lia|done|].
    exists s2. split; [done|]. split; [done|]. split; [congruence|]. split; [congruence|]. split; [congruence|].
    intros c' i'. rewrite C2, C1. destruct (decide (i' = i)) as [->|].
    + destruct (decide (c' = c)) as [->|].
      * rewrite decide_False by lia. by rewrite !decide_True by lia.
      * rewrite (decide_False (P := c' = c /\ i = i)) by naive_solver.
        destruct (decide (c <= c' < 18)%nat); [by rewrite !decide_True by lia|by rewrite !decide_False by lia].
    + by rewrite !decide_False by naive_solver.
Qed.

(** ** Properties *)

(** [attachInterrupt] of a pin of the board puts the function in the entry
    of exactly this pin, sets up the interrupt registers of exactly this pin (the
    mask, and edge or level as the mode says), enables the interrupts of its port
    and leaves interrupts unmasked. *)
Theorem attachInterrupt_correct pin b k f mode m s : wf s -> wired pin = Some (b, k) ->
  lm4fMode mode = Some m ->
  exists c ints s', port_cases !! c = Some (b, ints) /\
    attachInterrupt pin f mode s = Some s' /\ wf s' /\
    (forall c' i, cb s' c' i = if decide (c' = c /\ i = Z.to_nat k) then Some f else cb s c' i) /\
    nvic s' = list_to_set ints ∪ nvic s /\ master s' = true /\
    int_upd b k (reg_of (int_bits m)) (hw s) (hw s').
Proof.
  intros Hw (port & Em & Ep & Eb & Hp & Hb & Hk)%wired_inv Hm.
  destruct (switch_port b Hb) as (c & ints & Esw & Ec & Hc). unfold attachInterrupt.
  rewrite Em, Ep. cbn [mbind option_bind]. rewrite Eb. cbn [mbind option_bind].
  rewrite Hm, bit_index_pow2, Esw by done.
  set (s1 := set_hw _ _). destruct (store_cb_spec c (Z.to_nat k) f s1) as (s2 & E2 & W2 & H2 & N2 & M2 & C2);
    [done|done|lia|]. rewrite E2. cbn [mbind option_bind].
  exists c, ints. eexists. split; [done|]. split; [reflexivity|].
  split; [done|]. split; [exact C2|]. split; [cbn; by rewrite N2|]. split; [done|].
  cbn [hw set_master set_nvic]. rewrite H2. by apply attach_regs.
Qed.

(** The callbacks due: those of the pins whose bit is set in [isr]. *)
Definition due s (c : nat) (isr : Z) : list Z :=
  omap (fun i => if Z.testbit isr (Z.of_nat i)
                 then f ← cb s c i; if f =? 0 then None else Some f else None) (seq 0 8).

Lemma isr_loop_spec run c : (forall f s, cbFuncs (run f s) = cbFuncs s) ->
  forall n i isr s, wf s -> (c < 18)%nat -> (i + n <= 8)%nat ->
  exists s', isr_loop run n i isr c s = Some (s', omap (fun j => if Z.testbit isr (Z.of_nat (j - i))
                 then f ← cb s c j; if f =? 0 then None else Some f else None) (seq i n)).
Proof.
  intros R. induction n as [|n IH]; intros i isr s Hw Hc Hn; cbn [isr_loop seq omap list_omap]; [by eexists|].
  rewrite Nat.sub_diag. change (Z.of_nat 0) with 0.
  assert (forall s, omap (fun j => if Z.testbit (Z.shiftr isr 1) (Z.of_nat (j - Datatypes.S i))
      then f ← cb s c j; if f =? 0 then None else Some f else None) (seq (Datatypes.S i) n)
    = omap (fun j => if Z.testbit isr (Z.of_nat (j - i))
      then f ← cb s c j; if f =? 0 then None else Some f else None) (seq (Datatypes.S i) n)) as Sh.
  { intros s1. apply list_omap_ext, Forall2_same_length_lookup. split; [done|].
    intros j x y Hx Hy. simplify_eq. apply lookup_seq in Hx as [-> Hj].
    rewrite Z.shiftr_spec by lia.
    replace (Z.of_nat (Datatypes.S i + j - Datatypes.S i) + 1) with (Z.of_nat (Datatypes.S i + j - i)) by lia.
    done. }
  assert ((Z.land isr 1 =? 0) = negb (Z.testbit isr 0)) as ->.
  { change 1 with (2 ^ 0). by apply land_pow2. }
  destruct (IH (Datatypes.S i) (Z.shiftr isr 1) s Hw Hc ltac:(lia)) as (s1 & E1). rewrite Sh in E1.
  destruct (Z.testbit isr 0); cbn [negb]; [|by exists s1].
  destruct (cb_some s c i Hw Hc ltac:(lia)) as [f Ef]. fold (cb s c i). rewrite Ef. cbn [mbind option_bind].
  destruct (f =? 0); [by exists s1|].
  destruct (IH (Datatypes.S i) (Z.shiftr isr 1) (run f s)) as (s2 & E2).
  { unfold wf. by rewrite R. } { done. } { lia. }
  rewrite E2. cbn [mbind option_bind]. exists s2. do 3 f_equal. rewrite Sh.
  unfold cb. by rewrite R.
Qed.

(** The interrupt handler of a port calls the callbacks of the pins that
    interrupted, each once, from pin 0 to pin 7, and no other; a pin without a
    callback is skipped.  Callbacks may change anything but the tables. *)
Theorem GPIOIntHandler_correct run c base ints s : wf s -> port_cases !! c = Some (base, ints) ->
  (forall f s, cbFuncs (run f s) = cbFuncs s) ->
  exists s', GPIOIntHandler run c s = Some (s', due s c (HWREG (base + GPIO_O_MIS) (hw s))).
Proof.
  intros Hw Ec R. assert (c < 18)%nat as Hc by (by apply lookup_lt_Some in Ec).
  unfold GPIOIntHandler, GPIOXIntHandler. rewrite Ec. cbn [mbind option_bind GPIOIntStatus].
  set (s1 := set_hw _ s).
  destruct (isr_loop_spec run c R 8 0 (HWREG (base + GPIO_O_MIS) (hw s)) s1 Hw Hc ltac:(lia)) as (s' & E).
  exists s'. exact E.
Qed.

(** [detachInterrupt] masks the interrupt of exactly this pin, and clears
    the callback of the pin of this number in its own port and, the cases having
    no break, in every port after it. *)
Theorem detachInterrupt_falls_through pin b k s : wf s -> wired pin = Some (b, k) ->
  exists c ints s', port_cases !! c = Some (b, ints) /\ detachInterrupt pin s = Some s' /\ wf s' /\
    (forall c' i, cb s' c' i = if decide ((c <= c' < 18)%nat /\ i = Z.to_nat k) then Some 0 else cb s c' i) /\
    nvic s' = nvic s /\ int_upd b k (reg_of [(GPIO_O_IM, false)]) (hw s) (hw s').
Proof.
  intros Hw (port & Em & Ep & Eb & Hp & Hb & Hk)%wired_inv.
  destruct (switch_port b Hb) as (c & ints & Esw & Ec & Hc). unfold detachInterrupt.
  rewrite Em, Ep. cbn [mbind option_bind]. rewrite Eb. cbn [mbind option_bind].
  change NOT_A_PIN with NOT_A_PORT. rewrite Hp, bit_index_pow2, Esw by done.
  set (s1 := set_hw _ s). change (length port_cases) with 18%nat.
  destruct (clear_from_spec (18 - c) c (Z.to_nat k) s1) as (s' & E & W' & H' & N' & M' & C'); [done|lia|lia|].
  exists c, ints, s'. split; [done|]. split; [done|]. split; [done|]. split; [exact C'|]. split; [done|].
  rewrite H'. eapply int_upd_ext; cycle 1.
  - apply (int_upd_set false b GPIO_O_IM k); [done|in_regs|done|done|done].
  - repeat (apply Forall_cons; split; [reflexivity|]). by apply Forall_nil_2.
Qed.
End Correct.

(** ** Examples *)

Definition irq0 : irq board := mk_irq board board0 (replicate 18 (replicate 8 0)) ∅ true.

Lemma irq0_wf : wf irq0.
Proof. split; [done|]. repeat constructor. Qed.

Lemma attachInterrupt_correct_witness : exists c ints s', port_cases !! c = Some (GPIO_PORTJ_BASE, ints) /\
  attachInterrupt 85 0x1234 FALLING irq0 = Some s' /\ wf s' /\
  (forall c' i, cb s' c' i = if decide (c' = c /\ i = 0%nat) then Some 0x1234 else cb irq0 c' i) /\
  nvic s' = list_to_set ints ∪ nvic irq0 /\ master s' = true /\
  int_upd GPIO_PORTJ_BASE 0 (reg_of (int_bits GPIO_FALLING_EDGE)) (hw irq0) (hw s').
Proof.
  exact (attachInterrupt_correct 85 GPIO_PORTJ_BASE 0 0x1234 FALLING GPIO_FALLING_EDGE irq0 irq0_wf eq_refl eq_refl).
Defined.

(** Functions on pins PA_0 (88) and PB_0 (94). *)
Definition irq1 : irq board :=
  default irq0 (s ← attachInterrupt 88 0x1000 RISING irq0; attachInterrupt 94 0x2000 RISING s).

Lemma irq1_wf : wf irq1.
Proof. split; [done|]. repeat constructor. Qed.

Lemma GPIOIntHandler_correct_witness : exists s',
  GPIOIntHandler (fun _ s => s) 1 irq1 = Some (s', due irq1 1 (HWREG (GPIO_PORTB_BASE + GPIO_O_MIS) (hw irq1))).
Proof.
  exact (GPIOIntHandler_correct (fun _ s => s) 1 GPIO_PORTB_BASE [17] irq1 irq1_wf eq_refl (fun _ _ => eq_refl)).
Defined.

Lemma detachInterrupt_falls_through_witness : exists c ints s',
  port_cases !! c = Some (GPIO_PORTA_BASE, ints) /\ detachInterrupt 88 irq1 = Some s' /\ wf s' /\
  (forall c' i, cb s' c' i = if decide ((c <= c' < 18)%nat /\ i = 0%nat) then Some 0 else cb irq1 c' i) /\
  nvic s' = nvic irq1 /\ int_upd GPIO_PORTA_BASE 0 (reg_of [(GPIO_O_IM, false)]) (hw irq1) (hw s').
Proof.
  exact (detachInterrupt_falls_through 88 GPIO_PORTA_BASE 0 irq1 irq1_wf eq_refl).
Defined.

(** The interrupt of PB_0 stays enabled without its callback. *)
Example detach_loses_other :
  (fun s => (cb s 1 0, regbit GPIO_PORTB_BASE GPIO_O_IM 0 (hw s))) <$> detachInterrupt 88 irq1
  = Some (Some 0, true).
Proof. vm_compute. reflexivity. Qed.

End Interrupts.
