(* ===== verification/Startup.v ===== *)
(** * Start-up (cores/tivac/startup_gcc.c)

    The vector table of the TM4C129 (TARGET_IS_BLIZZARD_RB1 is not defined), the
    reset handler and [_sbrk].  Memory is a map from word addresses to words; an
    access to an address that is not in it is the result [None].  The addresses
    the linker script (variants/logo8/logo8.ld) defines are fields of [layout]. *)
From S2P Require Import Prelude Pins Gpio Interrupts.
Import Interrupts.

Module Startup.

(** ** The vector table *)

(** An entry: the initial stack pointer, a handler or 0.  [GPIOIntHandler c] is
    the handler of the [c]-th port of [port_cases]. *)
Inductive vector :=
  | InitialSP | Reserved
  | ResetISR | NmiSR | FaultISR | IntDefaultHandler
  | SysTickIntHandler | GPIOIntHandler (c : nat) | UARTIntHandler (n : nat)
  | ToneIntHandler | lwIPEthernetIntHandler.

#[export] Instance vector_eq_dec : EqDecision vector.
Proof. solve_decision. Defined.

Definition g_pfnVectors : list vector :=
  [InitialSP; ResetISR; NmiSR; FaultISR; IntDefaultHandler; IntDefaultHandler; IntDefaultHandler;
   Reserved; Reserved; Reserved; Reserved; IntDefaultHandler; IntDefaultHandler; Reserved;
   IntDefaultHandler; SysTickIntHandler; GPIOIntHandler 0; GPIOIntHandler 1; GPIOIntHandler 2;
   GPIOIntHandler 3; GPIOIntHandler 4; UARTIntHandler 0; UARTIntHandler 1; IntDefaultHandler;
   IntDefaultHandler; IntDefaultHandler; IntDefaultHandler; IntDefaultHandler; IntDefaultHandler;
   IntDefaultHandler; IntDefaultHandler; IntDefaultHandler; IntDefaultHandler; IntDefaultHandler;
   IntDefaultHandler; IntDefaultHandler; IntDefaultHandler; IntDefaultHandler; IntDefaultHandler;
   IntDefaultHandler; IntDefaultHandler; IntDefaultHandler; IntDefaultHandler; IntDefaultHandler;
   IntDefaultHandler; IntDefaultHandler; GPIOIntHandler 5; GPIOIntHandler 6; GPIOIntHandler 7;
   UARTIntHandler 2; IntDefaultHandler; IntDefaultHandler; IntDefaultHandler; IntDefaultHandler;
   IntDefaultHandler; IntDefaultHandler; lwIPEthernetIntHandler; IntDefaultHandler;
   IntDefaultHandler; IntDefaultHandler; IntDefaultHandler; IntDefaultHandler; IntDefaultHandler;
   IntDefaultHandler; IntDefaultHandler; IntDefaultHandler; IntDefaultHandler; GPIOIntHandler 8;
   GPIOIntHandler 9; GPIOIntHandler 10; IntDefaultHandler; IntDefaultHandler; UARTIntHandler 3;
   UARTIntHandler 4; UARTIntHandler 5; UARTIntHandler 6; UARTIntHandler 7; IntDefaultHandler;
   IntDefaultHandler; ToneIntHandler; IntDefaultHandler; IntDefaultHandler; IntDefaultHandler;
   IntDefaultHandler; Reserved; Reserved; IntDefaultHandler; IntDefaultHandler;
   GPIOIntHandler 11; GPIOIntHandler 12; Reserved; IntDefaultHandler; GPIOIntHandler 13;
   GPIOIntHandler 13; GPIOIntHandler 13; GPIOIntHandler 13; GPIOIntHandler 13; GPIOIntHandler 13;
   GPIOIntHandler 13; GPIOIntHandler 13; GPIOIntHandler 14; GPIOIntHandler 14; GPIOIntHandler 14;
   GPIOIntHandler 14; GPIOIntHandler 14; GPIOIntHandler 14; GPIOIntHandler 14; GPIOIntHandler 14;
   GPIOIntHandler 15; GPIOIntHandler 16; IntDefaultHandler; IntDefaultHandler; IntDefaultHandler;
   IntDefaultHandler; IntDefaultHandler; IntDefaultHandler; IntDefaultHandler; IntDefaultHandler;
   IntDefaultHandler; IntDefaultHandler; IntDefaultHandler; IntDefaultHandler; IntDefaultHandler;
   IntDefaultHandler; IntDefaultHandler; IntDefaultHandler; IntDefaultHandler; GPIOIntHandler 17].

(** ** The reset handler *)

Record layout := mk_layout {
  etext : Z; data : Z; edata : Z; bss : Z; ebss : Z;
  preinit_array : list Z; init_array : list Z }.

(** [for (pulDest = &_data; pulDest < &_edata;) *pulDest++ = *pulSrc++;] *)
Fixpoint copy_data (fuel : nat) (src dest edata : Z) (m : gmap Z Z) : option (gmap Z Z) :=
  match fuel with
  | O => None
  | S fuel =>
      if dest <? edata then
        v ← m !! src;
        if bool_decide (is_Some (m !! dest)) then copy_data fuel (src + 4) (dest + 4) edata (<[dest := v]> m)
        else None
      else Some m
  end.

(** The assembly loop; [lt] compares signed words. *)
Fixpoint zero_bss (fuel : nat) (r0 r1 : Z) (m : gmap Z Z) : option (gmap Z Z) :=
  match fuel with
  | O => None
  | S fuel =>
      if s32 r0 <? s32 r1 then
        if bool_decide (is_Some (m !! r0)) then zero_bss fuel (r0 + 4) r1 (<[r0 := 0]> m) else None
      else Some m
  end.

(** NVIC_CPAC: the access fields of coprocessors 10 and 11. *)
Definition NVIC_CPAC_CP10_M : Z := 0x00300000.
Definition NVIC_CPAC_CP11_M : Z := 0x00C00000.
Definition NVIC_CPAC_CP10_FULL : Z := 0x00300000.
Definition NVIC_CPAC_CP11_FULL : Z := 0x00C00000.

Definition enable_fpu (cpac : Z) : Z :=
  Z.lor (Z.lor (Z.land cpac (Z.lnot (Z.lor NVIC_CPAC_CP10_M NVIC_CPAC_CP11_M))) NVIC_CPAC_CP10_FULL)
    NVIC_CPAC_CP11_FULL.

(** What runs before [main]: memory, NVIC_CPAC, and the calls, [main] last. *)
Definition reset (fuel : nat) (l : layout) (main cpac : Z) (m : gmap Z Z) : option (gmap Z Z * Z * list Z) :=
  m ← copy_data fuel (etext l) (data l) (edata l) m;
  m ← zero_bss fuel (bss l) (ebss l) m;
  Some (m, enable_fpu cpac, preinit_array l ++ init_array l ++ [main]).

(** ** Heap memory *)

(** [heap_end] (0 before the first call), the result (0 for NULL). *)
Definition _sbrk (end_ sp incr heap_end : Z) : Z * Z :=
  let heap_end := if heap_end =? 0 then end_ else heap_end in
  let prev_heap_end := heap_end in
  if u32 (heap_end + incr) <? sp then (prev_heap_end, u32 (heap_end + incr)) else (0, heap_end).

(** ** Memory initialisation *)

(** The word [i] of an area. *)
Abbreviation word a i := (a + 4 * Z.of_nat i).

Definition words (from to : Z) : nat := Z.to_nat ((to - from + 3) / 4).

Lemma words_step from to : from < to -> words from to = S (words (from + 4) to).
Proof. intros. unfold words. rewrite <-Z2Nat.inj_succ by (Z.div_mod_to_equations; lia). f_equal. Z.div_mod_to_equations. lia. Qed.

Lemma words_done from to : to <= from -> words from to = O.
Proof. intros. unfold words. apply Z2Nat.nonpos. Z.div_mod_to_equations. lia. Qed.

Lemma words_word from to i : (i < words from to)%nat -> word from i < to.
Proof. unfold words. intros. Z.div_mod_to_equations. lia. Qed.

Definition mapped (a : Z) (n : nat) (m : gmap Z Z) : Prop := forall i, (i < n)%nat -> is_Some (m !! word a i).
Definition apart (a : Z) (n : nat) (b : Z) (k : nat) : Prop :=
  forall i j, (i < n)%nat -> (j < k)%nat -> word a i ≠ word b j.

Lemma word_S a i : word (a + 4) i = word a (S i).
Proof. lia. Qed.

(** The copy gives every word of the target the word of the source, which must
    not overlap it. *)
Lemma copy_data_spec fuel : forall src dest edata m, let n := words dest edata in
  mapped src n m -> mapped dest n m -> apart src n dest n -> (n < fuel)%nat ->
  exists m', copy_data fuel src dest edata m = Some m' /\
    (forall i, (i < n)%nat -> m' !! word dest i = m !! word src i) /\
    (forall a, (forall i, (i < n)%nat -> a ≠ word dest i) -> m' !! a = m !! a).
Proof.
  induction fuel as [|fuel IH]; intros src dest edata m n Hs Hd Ha Hf; [lia|]. cbn [copy_data].
  destruct (Z.ltb_spec dest edata) as [Hlt|Hge].
  - assert (n = S (words (dest + 4) edata)) as En by (by apply words_step).
    destruct (Hs O ltac:(lia)) as [v Ev]. rewrite Z.add_0_r in Ev. rewrite Ev. cbn [mbind option_bind].
    rewrite bool_decide_true by (specialize (Hd O ltac:(lia)); by rewrite Z.add_0_r in Hd).
    assert (forall i, (i < words (dest + 4) edata)%nat -> src ≠ word (dest + 4) i /\ word (src + 4) i ≠ dest) as Ne.
    { intros i Hi. pose proof (Ha O (S i) ltac:(lia) ltac:(lia)). pose proof (Ha (S i) O ltac:(lia) ltac:(lia)). lia. }
    destruct (IH (src + 4) (dest + 4) edata (<[dest := v]> m)) as (m' & E & H1 & H2).
    + intros i Hi. rewrite word_S, lookup_insert_ne by (specialize (Ne i Hi); lia). apply Hs. lia.
    + intros i Hi. rewrite word_S, lookup_insert_ne by lia. apply Hd. lia.
    + intros i j Hi Hj. rewrite !word_S. apply Ha; lia.
    + lia.
    + exists m'. split; [done|]. split.
      * intros [|i] Hi.
        { rewrite !Z.add_0_r, H2 by lia. by rewrite lookup_insert_eq. }
        rewrite <-!word_S, H1 by lia. rewrite lookup_insert_ne by (specialize (Ne i ltac:(lia)); lia). done.
      * intros a Hna. rewrite H2, lookup_insert_ne; [done|specialize (Hna O ltac:(lia)); lia|].
        intros i Hi. specialize (Hna (S i) ltac:(lia)). lia.
  - assert (n = O) as En by (by apply words_done). exists m. split; [done|]. split; [lia|done].
Qed.

Lemma zero_bss_spec fuel : forall r0 r1 m, let n := words r0 r1 in
  0 <= r0 -> r0 + 4 * Z.of_nat n < 2 ^ 31 -> 0 <= r1 < 2 ^ 31 -> mapped r0 n m -> (n < fuel)%nat ->
  exists m', zero_bss fuel r0 r1 m = Some m' /\
    (forall i, (i < n)%nat -> m' !! word r0 i = Some 0) /\
    (forall a, (forall i, (i < n)%nat -> a ≠ word r0 i) -> m' !! a = m !! a).
Proof.
  induction fuel as [|fuel IH]; intros r0 r1 m n H0 Hn H1 Hd Hf; [lia|]. cbn [zero_bss].
  rewrite !swrap_id by (lia || cint).
  destruct (Z.ltb_spec r0 r1) as [Hlt|Hge].
  - assert (n = S (words (r0 + 4) r1)) as En by (by apply words_step).
    rewrite bool_decide_true by (specialize (Hd O ltac:(lia)); by rewrite Z.add_0_r in Hd).
    destruct (IH (r0 + 4) r1 (<[r0 := 0]> m)) as (m' & E & Z1 & Z2); [lia|lia|done| |lia|].
    + intros i Hi. rewrite word_S, lookup_insert_ne by lia. apply Hd. lia.
    + exists m'. split; [done|]. split.
      * intros [|i] Hi; [rewrite Z.add_0_r, Z2 by lia; by rewrite lookup_insert_eq|].
        rewrite <-word_S. apply Z1. lia.
      * intros a Hna. rewrite Z2, lookup_insert_ne; [done|specialize (Hna O ltac:(lia)); lia|].
        intros i Hi. specialize (Hna (S i) ltac:(lia)). lia.
  - assert (n = O) as En by (by apply words_done). exists m. split; [done|]. split; [lia|done].
Qed.

(** ** Properties *)

(** The vector table has an entry for each of the 128 exceptions; every
    interrupt [attachInterrupt] enables for a port leads to the handler of this
    port; SysTick, Ethernet and timer 4A lead to theirs.  The I2C interrupts,
    which Wire enables in slave mode, lead to the endless loop of
    [IntDefaultHandler]. *)
Theorem vector_table_correct :
  length g_pfnVectors = 128%nat /\
  Forall (fun x => Forall (fun n => g_pfnVectors !! Z.to_nat n = Some (GPIOIntHandler x.1)) x.2.2)
    (imap pair port_cases) /\
  g_pfnVectors !! 15%nat = Some SysTickIntHandler /\
  g_pfnVectors !! 56%nat = Some lwIPEthernetIntHandler /\
  g_pfnVectors !! 79%nat = Some ToneIntHandler /\
  Forall (fun n => g_pfnVectors !! n = Some IntDefaultHandler)
    [24; 53; 77; 78; 86; 87; 118; 119; 125; 126]%nat.
Proof.
  split; [reflexivity|]. split; [|do 3 (split; [reflexivity|]); repeat constructor].
  apply (bool_decide_unpack _). vm_compute. exact Logic.I.
Qed.

(** The sections as the linker script places them: initialised data in flash,
    its copy and the zeroed area in RAM, all words mapped, none shared. *)
Record layout_ok (l : layout) (m : gmap Z Z) : Prop := {
  lo_data : mapped (etext l) (words (data l) (edata l)) m /\ mapped (data l) (words (data l) (edata l)) m;
  lo_bss : mapped (bss l) (words (bss l) (ebss l)) m;
  lo_apart : apart (etext l) (words (data l) (edata l)) (data l) (words (data l) (edata l));
  lo_apart_bss : apart (data l) (words (data l) (edata l)) (bss l) (words (bss l) (ebss l));
  lo_ram : 0 <= bss l /\ bss l + 4 * Z.of_nat (words (bss l) (ebss l)) < 2 ^ 31 /\ 0 <= ebss l < 2 ^ 31 }.

(** Before [main] the reset handler copies every word of the initialised data
    from flash, zeroes every word of the bss section, changes no other word,
    gives the FPU full access, and calls the constructors in their order. *)
Theorem reset_correct fuel l main cpac m : layout_ok l m ->
  (words (data l) (edata l) < fuel)%nat -> (words (bss l) (ebss l) < fuel)%nat ->
  exists m', reset fuel l main cpac m = Some (m', enable_fpu cpac, preinit_array l ++ init_array l ++ [main]) /\
    (forall i, (i < words (data l) (edata l))%nat -> m' !! word (data l) i = m !! word (etext l) i) /\
    (forall i, (i < words (bss l) (ebss l))%nat -> m' !! word (bss l) i = Some 0) /\
    (forall a, (forall i, (i < words (data l) (edata l))%nat -> a ≠ word (data l) i) ->
       (forall i, (i < words (bss l) (ebss l))%nat -> a ≠ word (bss l) i) -> m' !! a = m !! a) /\
    Z.land (Z.shiftr (enable_fpu cpac) 20) 0xF = 0xF.
Proof.
  intros [[Hs Hd] Hb Ha Hab (H1 & H2 & H3)] Hf Hf'. unfold reset.
  destruct (copy_data_spec fuel (etext l) (data l) (edata l) m Hs Hd Ha Hf) as (m1 & E1 & C1 & F1).
  rewrite E1. cbn [mbind option_bind].
  assert (mapped (bss l) (words (bss l) (ebss l)) m1) as Hb1.
  { intros j Hj. rewrite F1; [by apply Hb|]. intros i Hi E. by apply (Hab i j Hi Hj). }
  destruct (zero_bss_spec fuel (bss l) (ebss l) m1 H1 H2 H3 Hb1 Hf') as (m2 & E2 & Z2 & F2).
  rewrite E2. cbn [mbind option_bind]. exists m2. split; [done|]. split; [|split; [done|split]].
  - intros i Hi. rewrite F2; [by apply C1|]. intros j Hj. by apply Hab.
  - intros a Na Nb. by rewrite F2, F1.
  - unfold enable_fpu. apply Z.bits_inj'. intros i Hi. change 0xF with (Z.ones 4).
    rewrite Z.land_spec, Z.shiftr_spec, !Z.lor_spec, Z.testbit_ones_nonneg by lia.
    destruct (Z.ltb_spec i 4) as [Hi4|]; [|by rewrite andb_false_r]. rewrite andb_true_r.
    assert (i = 0 \/ i = 1 \/ i = 2 \/ i = 3) as [->|[->|[->| ->]]] by lia;
      rewrite ?orb_true_r; cbn; rewrite ?orb_true_r; done.
Qed.

(** [_sbrk] hands out the memory from the end of bss upwards, below the stack. *)
Lemma sbrk_spec end_ sp incr heap_end : 0 < end_ <= heap_end -> 0 <= incr -> heap_end + incr < 2 ^ 32 ->
  _sbrk end_ sp incr heap_end = if heap_end + incr <? sp then (heap_end, heap_end + incr) else (0, heap_end).
Proof.
  intros. unfold _sbrk. rewrite (proj2 (Z.eqb_neq heap_end 0)) by lia. by rewrite wrap_id by cint.
Qed.

(** ** Example *)

Definition demo_layout : layout := mk_layout 0x1000 0x20000000 0x20000006 0x20000008 0x20000010 [0x11] [0x21; 0x31].
Definition demo_memory : gmap Z Z :=
  list_to_map [(0x1000, 7); (0x1004, 9); (0x20000000, 1); (0x20000004, 2); (0x20000008, 3); (0x2000000C, 4); (0x20000010, 5)].

Lemma demo_layout_ok : layout_ok demo_layout demo_memory.
Proof.
  assert (words 0x20000000 0x20000006 = 2%nat /\ words 0x20000008 0x20000010 = 2%nat) as [E1 E2] by done.
  split; cbn [etext data edata bss ebss demo_layout]; rewrite ?E1, ?E2.
  - split; intros [|[|i]] Hi; (lia || (vm_compute; by eexists)).
  - intros [|[|i]] Hi; (lia || (vm_compute; by eexists)).
  - intros i j Hi Hj. lia.
  - intros i j Hi Hj. lia.
  - cint.
Qed.

Lemma reset_correct_witness : exists m',
  reset 9 demo_layout 0x41 0 demo_memory = Some (m', enable_fpu 0, [0x11; 0x21; 0x31; 0x41]) /\
  (forall i, (i < words 0x20000000 0x20000006)%nat -> m' !! word 0x20000000 i = demo_memory !! word 0x1000 i) /\
  (forall i, (i < words 0x20000008 0x20000010)%nat -> m' !! word 0x20000008 i = Some 0) /\
  (forall a, (forall i, (i < words 0x20000000 0x20000006)%nat -> a ≠ word 0x20000000 i) ->
     (forall i, (i < words 0x20000008 0x20000010)%nat -> a ≠ word 0x20000008 i) -> m' !! a = demo_memory !! a) /\
  Z.land (Z.shiftr (enable_fpu 0) 20) 0xF = 0xF.
Proof.
  apply (reset_correct 9 demo_layout 0x41 0 demo_memory demo_layout_ok);
    apply Nat.ltb_lt; vm_compute; reflexivity.
Defined.

End Startup.
