(* ===== verification/Analog.v ===== *)
(** * PWM and the A/D converter (cores/tivac/wiring_analog.c)

    The routines program the peripherals through driverlib; the model gives the
    sequence of calls and register writes they make ([hwcall]), and the
    properties follow the timer registers these change.  Pins and tables are
    those of [Pins]; __TM4C1294NCPDT__ is defined. *)
From S2P Require Import Prelude Pins Gpio.
Import Pins Gpio.

Module Analog.

Definition F_CPU : Z := 120000000.
Definition TIMER0_BASE : Z := 0x40030000.
Definition TIMER_A : Z := 0xff.
Definition TIMER_O_CFG : Z := 0x0.
Definition TIMER_O_TAMR : Z := 0x4.
Definition TIMER_O_TBMR : Z := 0x8.
Definition TIMER_O_CTL : Z := 0xC.
Definition TIMER_CTL_TAEN : Z := 0x1.
Definition TIMER_CTL_TBEN : Z := 0x100.
Definition PWM_MODE : Z := 0x20A.
Definition SYSCTL_PERIPH_TIMER0 : Z := 0xf0000400.
Definition SYSCTL_PERIPH_ADC0 : Z := 0xf0003800.
Definition INT_TIMER0A : Z := 35.
Definition INT_TIMER3A : Z := 51.
Definition INT_TIMER4A : Z := 79.

Inductive hwcall :=
  | PinMode (pin : nat) (mode : Z)
  | DigitalWrite (pin : nat) (val : Z)
  | SysCtlPeripheralEnable (periph : Z)
  | PinConfigure (config : Z)
  | PinTypeTimer (port pins : Z)
  | RegWrite (a v : Z)          (* HWREG(a) = v *)
  | RegClear (a mask : Z)       (* HWREG(a) &= ~mask *)
  | TimerLoadSet (base timer v : Z)
  | TimerMatchSet (base timer v : Z)
  | TimerPrescaleSet (base timer v : Z)
  | TimerPrescaleMatchSet (base timer v : Z)
  | TimerEnable (base timer : Z).

Definition getTimerBase (offset : Z) : Z := u32 (TIMER0_BASE + Z.shiftl offset 12).

Definition getTimerInterrupt (timer : Z) : Z :=
  if timer <? T3CCP0_0 then u8 (INT_TIMER0A + timer)
  else if (timer >? T2CCP1_1) || (timer <? T4CCP0_0) then u8 (INT_TIMER3A + timer - 11)
  else u8 (INT_TIMER4A + timer - 22).

Definition enableTimerPeriph (offset : Z) : list hwcall :=
  [SysCtlPeripheralEnable (u32 (SYSCTL_PERIPH_TIMER0 + offset))].

Definition PWMWrite (pin : nat) (analog_res duty freq : Z) : option (list hwcall) :=
  if duty =? 0 then Some [PinMode pin OUTPUT; DigitalWrite pin LOW]
  else if duty >=? analog_res then Some [PinMode pin OUTPUT; DigitalWrite pin HIGH]
  else
    bit ← digital_pin_to_bit_mask !! pin;
    port ← digital_pin_to_port !! pin;
    timer ← digital_pin_to_timer !! pin;
    portBase ← port_to_base !! Z.to_nat port;
    offset ← timer_to_offset !! Z.to_nat timer;
    ab ← timer_to_ab !! Z.to_nat timer;
    let timerBase := getTimerBase offset in
    let timerAB := Z.shiftl TIMER_A ab in
    if port =? NOT_A_PORT then Some []
    else
      let periodPWM := F_CPU / freq in
      config ← timer_to_pin_config !! Z.to_nat timer;
      let match_ := u32 (u32 (analog_res - duty) * periodPWM) / analog_res in
      Some (
        enableTimerPeriph offset ++
        [PinConfigure config; PinTypeTimer portBase bit; RegWrite (timerBase + TIMER_O_CFG) 0x04] ++
        (if timerAB =? TIMER_A
         then [RegClear (timerBase + TIMER_O_CTL) TIMER_CTL_TAEN; RegWrite (timerBase + TIMER_O_TAMR) PWM_MODE]
         else [RegClear (timerBase + TIMER_O_CTL) TIMER_CTL_TBEN; RegWrite (timerBase + TIMER_O_TBMR) PWM_MODE]) ++
        [TimerLoadSet timerBase timerAB periodPWM; TimerMatchSet timerBase timerAB match_] ++
        (if (offset <? WTIMER0) && (periodPWM >? 0xFFFF)
         then [TimerPrescaleSet timerBase timerAB (Z.shiftr (Z.land periodPWM 0xFFFF0000) 16);
               TimerPrescaleMatchSet timerBase timerAB (Z.shiftr (Z.land match_ 0xFFFF0000) 16)]
         else []) ++
        [TimerEnable timerBase timerAB]).

(** [val] is an int; the parameter [duty] of [PWMWrite] is unsigned. *)
Definition analogWrite (pin : nat) (val : Z) : option (list hwcall) := PWMWrite pin 255 (u32 val) 490.

Definition mapResolution (value from to : Z) : Z :=
  if from =? to then value
  else if from >? to then Z.shiftr value (from - to)
  else u32 (Z.shiftl value (to - from)).

Definition analogReadResolution (res : Z) (_readResolution : Z) : Z := res.

(** The steps of a conversion on the A/D converter, in order. *)
Inductive adc_step :=
  | AdcPeriphEnable | AdcPinType (port pins : Z) | AdcSequenceConfigure
  | AdcStepConfigure (config : Z) | AdcSequenceEnable | AdcIntClear | AdcTrigger | AdcWait | AdcDataGet.

Definition ADC_CTL_IE : Z := 0x40.
Definition ADC_CTL_END : Z := 0x20.

(** The steps and the result, [sample] being what the converter delivers. *)
Definition analogRead (pin : nat) (_readResolution sample : Z) : option (list adc_step * Z) :=
  port ← digital_pin_to_port !! pin;
  channel ← digital_pin_to_analog_in !! pin;
  if channel =? NOT_ON_ADC then Some ([], 0)
  else
    b ← port_to_base !! Z.to_nat port;
    bit ← digital_pin_to_bit_mask !! pin;
    Some ([AdcPeriphEnable] ++ (if channel =? ADC_CTL_TS then [] else [AdcPinType b bit]) ++
          [AdcSequenceConfigure; AdcStepConfigure (Z.lor (Z.lor channel ADC_CTL_IE) ADC_CTL_END);
           AdcSequenceEnable; AdcIntClear; AdcTrigger; AdcWait; AdcIntClear; AdcDataGet],
          u16 (mapResolution (u16 sample) 12 _readResolution)).

(** ** The timers *)

(** A half timer in PWM mode: the prescaler registers extend the 16 bits of the
    load and match registers. *)
Record half := mk_half { load : Z; match_ : Z; prescale : Z; prescale_match : Z }.

Definition period (t : half) : Z := prescale t * 65536 + load t mod 65536.
Definition match_at (t : half) : Z := prescale_match t * 65536 + match_ t mod 65536.

Abbreviation halves := (gmap (Z * Z) half).
Definition half_of (k : Z * Z) (m : halves) : half := default (mk_half 0 0 0 0) (m !! k).

Definition apply (c : hwcall) (m : halves) : halves :=
  match c with
  | TimerLoadSet b ab v => let t := half_of (b, ab) m in <[(b, ab) := mk_half v (match_ t) (prescale t) (prescale_match t)]> m
  | TimerMatchSet b ab v => let t := half_of (b, ab) m in <[(b, ab) := mk_half (load t) v (prescale t) (prescale_match t)]> m
  | TimerPrescaleSet b ab v => let t := half_of (b, ab) m in <[(b, ab) := mk_half (load t) (match_ t) v (prescale_match t)]> m
  | TimerPrescaleMatchSet b ab v => let t := half_of (b, ab) m in <[(b, ab) := mk_half (load t) (match_ t) (prescale t) v]> m
  | _ => m
  end.
Definition applies (cs : list hwcall) (m : halves) : halves := foldl (fun m c => apply c m) m cs.

(** The half timer of a pin. *)
Definition timer_of (pin : nat) : option (Z * Z) :=
  timer ← digital_pin_to_timer !! pin;
  offset ← timer_to_offset !! Z.to_nat timer;
  ab ← timer_to_ab !! Z.to_nat timer;
  Some (getTimerBase offset, Z.shiftl TIMER_A ab).

Lemma half_of_insert k t m k' : half_of k' (<[k := t]> m) = if decide (k = k') then t else half_of k' m.
Proof. unfold half_of. rewrite lookup_insert. by case_decide. Qed.

(** Programming load and match, with and without the prescaler. *)
Lemma applies_timer b ab p q (pre : bool) m k :
  half_of k (applies ([TimerLoadSet b ab p; TimerMatchSet b ab q] ++
    (if pre then [TimerPrescaleSet b ab (Z.shiftr (Z.land p 0xFFFF0000) 16);
                  TimerPrescaleMatchSet b ab (Z.shiftr (Z.land q 0xFFFF0000) 16)] else []) ++ [TimerEnable b ab]) m)
  = if decide ((b, ab) = k)
    then if pre then mk_half p q (Z.shiftr (Z.land p 0xFFFF0000) 16) (Z.shiftr (Z.land q 0xFFFF0000) 16)
         else mk_half p q (prescale (half_of k m)) (prescale_match (half_of k m))
    else half_of k m.
Proof.
  destruct (decide ((b, ab) = k)) as [<-|Hn]; destruct pre; cbn [app applies foldl apply];
    rewrite !half_of_insert; rewrite ?decide_True by done; rewrite ?decide_False by done; done.
Qed.

Lemma applies_app cs cs' m : applies (cs ++ cs') m = applies cs' (applies cs m).
Proof. apply foldl_app. Qed.

(** The bits 16 to 31 of a 32-bit value. *)
Lemma high_word p : 0 <= p < 2 ^ 32 -> Z.shiftr (Z.land p 0xFFFF0000) 16 = p / 65536.
Proof.
  intros Hp. rewrite Z.shiftr_land. change (Z.shiftr 0xFFFF0000 16) with (Z.ones 16).
  rewrite land_ones_mod, Z.shiftr_div_pow2 by done. change (2 ^ 16) with 65536.
  apply Z.mod_small. split; [apply Z.div_pos; lia|]. apply Z.div_lt_upper_bound; cint.
Qed.

Lemma timer_offsets n o : timer_to_offset !! n = Some o -> (o <? WTIMER0) = true.
Proof.
  assert (Forall (fun o => (o <? WTIMER0) = true) timer_to_offset) as F by (repeat constructor).
  intros E. by apply (Forall_lookup_1 _ _ _ _ F E).
Qed.

Lemma timer_pin p x : wired p = Some x -> exists timer offset ab config,
  digital_pin_to_timer !! p = Some timer /\ timer_to_offset !! Z.to_nat timer = Some offset /\
  timer_to_ab !! Z.to_nat timer = Some ab /\ timer_to_pin_config !! Z.to_nat timer = Some config.
Proof.
  intros Hp%wired_range. assert (Forall (fun timer => exists offset ab config,
    timer_to_offset !! Z.to_nat timer = Some offset /\ timer_to_ab !! Z.to_nat timer = Some ab /\
    timer_to_pin_config !! Z.to_nat timer = Some config) digital_pin_to_timer) as F.
  { repeat (apply Forall_cons; split; [do 3 eexists; vm_compute; done|]). by apply Forall_nil_2. }
  assert (exists timer, digital_pin_to_timer !! p = Some timer) as [timer E].
  { apply lookup_lt_is_Some. exact Hp. }
  destruct (Forall_lookup_1 _ _ _ _ F E) as (o & ab & c & ?). exists timer, o, ab, c. done.
Qed.

(** The match value: the fraction of the period the output is low. *)
Lemma match_value res duty p : 0 < duty < res -> 0 < p -> res * p < 2 ^ 32 ->
  u32 (u32 (res - duty) * p) / res = (res - duty) * p / res /\
  0 <= (res - duty) * p / res < p /\
  duty * p <= (p - (res - duty) * p / res) * res < duty * p + res.
Proof.
  intros Hd Hp Ho. assert (res < 2 ^ 32) by nia. rewrite (wrap_id 32 (res - duty)) by cint.
  rewrite wrap_id by (unfold in_u; nia). split; [done|].
  pose proof (Z.div_mod ((res - duty) * p) res ltac:(lia)) as E.
  pose proof (Z.mod_pos_bound ((res - duty) * p) res ltac:(lia)).
  set (q := (res - duty) * p / res) in *. split; [|nia]. split; [apply Z.div_pos; nia|]. nia.
Qed.

(** ** Properties *)

(** [PWMWrite] with a duty between 0 and the resolution programs the half
    timer of the pin, and no other, to the period F_CPU / freq and to a high time
    that is duty / resolution of it to within one cycle; the registers hold the
    24-bit values.  Without a prescaler ([F_CPU / freq] fits in 16 bits) this
    needs the prescaler registers to be clear. *)
Theorem PWMWrite_correct pin x res duty freq m k : wired pin = Some x -> timer_of pin = Some k ->
  0 < duty < res -> 0 < freq -> 0 < F_CPU / freq < 2 ^ 24 -> res * (F_CPU / freq) < 2 ^ 32 ->
  0xFFFF < F_CPU / freq \/ prescale (half_of k m) = 0 /\ prescale_match (half_of k m) = 0 ->
  exists cs, PWMWrite pin res duty freq = Some cs /\
    (let t := half_of k (applies cs m) in
     period t = F_CPU / freq /\ match_at t < period t /\
     duty * period t <= (period t - match_at t) * res < duty * period t + res) /\
    (forall k', k' ≠ k -> half_of k' (applies cs m) = half_of k' m).
Proof.
  intros W T Hd Hf Hp Ho Hpre. destruct x as [b0 i0].
  destruct (timer_pin pin _ W) as (timer & offset & ab & config & E1 & E2 & E3 & E4).
  destruct (wired_inv pin b0 i0 W) as (port & Em & Ep & Eb & Hport & _).
  unfold timer_of in T. rewrite E1 in T. cbn in T. rewrite E2, E3 in T. cbn in T.
  assert (k = (getTimerBase offset, Z.shiftl TIMER_A ab)) as -> by congruence. clear T.
  unfold PWMWrite. rewrite (proj2 (Z.eqb_neq duty 0)), Z.geb_leb, (proj2 (Z.leb_gt res duty)) by lia.
  rewrite Em, Ep, E1. cbn [mbind option_bind]. rewrite Eb, E2, E3, E4. cbn [mbind option_bind].
  rewrite Hport, (timer_offsets _ _ E2). cbn [andb].
  destruct (match_value res duty (F_CPU / freq) Hd ltac:(lia) Ho) as (-> & Hm & Hduty).
  set (P := F_CPU / freq) in *. set (q := (res - duty) * P / res) in *.
  set (tb := getTimerBase offset) in *. set (tab := Z.shiftl TIMER_A ab) in *.
  set (ctl := if tab =? TIMER_A then _ else _).
  assert (forall k', half_of k' (applies (enableTimerPeriph offset ++ [PinConfigure config;
    PinTypeTimer b0 (2 ^ i0); RegWrite (tb + TIMER_O_CFG) 4] ++ ctl ++ [TimerLoadSet tb tab P;
    TimerMatchSet tb tab q] ++ (if P >? 65535 then [TimerPrescaleSet tb tab (Z.shiftr (Z.land P 4294901760) 16);
    TimerPrescaleMatchSet tb tab (Z.shiftr (Z.land q 4294901760) 16)] else []) ++ [TimerEnable tb tab]) m)
    = if decide ((tb, tab) = k') then if P >? 65535 then mk_half P q (P / 65536) (q / 65536)
         else mk_half P q (prescale (half_of k' m)) (prescale_match (half_of k' m)) else half_of k' m) as A.
  { intros k'. rewrite !applies_app.
    assert (applies ctl (applies [PinConfigure config; PinTypeTimer b0 (2 ^ i0); RegWrite (tb + TIMER_O_CFG) 4]
      (applies (enableTimerPeriph offset) m)) = m) as -> by (subst ctl; by destruct (tab =? TIMER_A)).
    rewrite <-!applies_app, applies_timer. rewrite !high_word by cint. done. }
  eexists. split; [reflexivity|]. split; [|intros k' Hk'; rewrite A; by rewrite decide_False by congruence].
  cbv zeta. rewrite A, decide_True by done.
  assert (period (if P >? 65535 then mk_half P q (P / 65536) (q / 65536) else mk_half P q
    (prescale (half_of (tb, tab) m)) (prescale_match (half_of (tb, tab) m))) = P /\
    match_at (if P >? 65535 then mk_half P q (P / 65536) (q / 65536) else mk_half P q
    (prescale (half_of (tb, tab) m)) (prescale_match (half_of (tb, tab) m))) = q) as [-> ->].
  { unfold period, match_at. destruct (Z.gtb_spec P 65535) as [Hg|Hg]; cbn [load match_ prescale prescale_match].
    - split; Z.div_mod_to_equations; lia.
    - destruct Hpre as [?|[-> ->]]; [lia|]. split; rewrite Z.mod_small; lia. }
  lia.
Qed.
Lemma PWMWrite_correct_witness : exists cs, PWMWrite 28 256 128 2000 = Some cs /\
  (let t := half_of (0x40033000, 0xff) (applies cs ∅) in
   period t = 60000 /\ match_at t < period t /\
   128 * period t <= (period t - match_at t) * 256 < 128 * period t + 256) /\
  (forall k', k' ≠ (0x40033000, 0xff) -> half_of k' (applies cs ∅) = half_of k' ∅).
Proof.
  apply (PWMWrite_correct 28 (GPIO_PORTA_BASE, 6) 256 128 2000 ∅ (0x40033000, 0xff) eq_refl eq_refl);
    [lia|lia|vm_compute; split; reflexivity|vm_compute; reflexivity|right; vm_compute; split; reflexivity].
Defined.

(** The port (from 0) and the bit a pin configuration is for (gpio.c,
    [GPIOPinConfigure]: port in bits 16 to 23, four times the bit in 8 to 15). *)
Definition config_pin (config : Z) : Z * Z :=
  (Z.land (Z.shiftr config 16) 0xff, Z.land (Z.shiftr config 8) 0xff / 4).

(** The pin [PWMWrite] gives to the timer. *)
Definition muxed (pin : nat) : option (Z * Z) :=
  cs ← PWMWrite pin 255 128 490;
  head (omap (fun c => match c with PinConfigure config => Some (config_pin config) | _ => None end) cs).

Definition PA_0 : nat := 88.
Definition PD_0 : nat := 14.
Definition place (pin : nat) : option (Z * Z) := '(port, m) ← located pin; Some (port - 1, Z.log2 m).

(** [PWMWrite] gives the timer the pin it was called for, if the pin is on a
    timer, with one exception: PD_0 has the entry of PA_0 in
    [digital_pin_to_timer], so that PWM on PD_0 takes over PA_0.  For a pin that
    is on no timer NOT_ON_TIMER is taken for timer 0, and PWM takes over PD_0. *)
Theorem pwm_pin_mux pin : is_Some (located pin) ->
  muxed pin = if decide (pin = PD_0) then place PA_0
              else if decide (digital_pin_to_timer !! pin = Some NOT_ON_TIMER) then place PD_0
              else place pin.
Proof.
  assert (Forall (fun pin => located pin = None \/
    muxed pin = if decide (pin = PD_0) then place PA_0
              else if decide (digital_pin_to_timer !! pin = Some NOT_ON_TIMER) then place PD_0
              else place pin) (seq 0 96)) as F by (apply (bool_decide_unpack _); vm_compute; exact Logic.I).
  intros [x Hx]. rewrite Forall_forall in F. destruct (F pin) as [E|E]; [|congruence|done].
  apply elem_of_seq. split; [lia|]. unfold located in Hx.
  destruct (digital_pin_to_port !! pin) eqn:Ep; [|done]. by apply lookup_lt_Some in Ep.
Qed.

Lemma pwm_pin_mux_witness : muxed 14 = place 88.
Proof. apply (pwm_pin_mux 14). vm_compute. eexists. reflexivity. Defined.

(** The prescaler is set but never cleared: a tone of 2000 Hz on a pin after
    [analogWrite] on it has a period of 256608 cycles, that is 467 Hz. *)
Theorem pwm_stale_prescaler :
  (cs ← analogWrite 28 128; cs' ← PWMWrite 28 256 128 2000;
   Some (period (half_of (0x40033000, 0xff) (applies cs' (applies cs ∅))), F_CPU / 2000)) = Some (256608, 60000).
Proof. vm_compute. reflexivity. Qed.

(** The last branch of [getTimerInterrupt] is never taken: the interrupt of timer
    4 is computed from that of timer 3. *)
Lemma getTimerInterrupt_branch timer : T3CCP0_0 <= timer < 256 ->
  getTimerInterrupt timer = u8 (INT_TIMER3A + timer - 11).
Proof.
  intros H. unfold getTimerInterrupt. rewrite (proj2 (Z.ltb_ge _ _)) by lia.
  assert ((timer >? T2CCP1_1) = true) as -> by (unfold T3CCP0_0, T2CCP1_1 in *; lia). done.
Qed.

(** A sample of 12 bits has at most [res] bits after [mapResolution], and going
    to a higher resolution and back loses nothing. *)
Lemma mapResolution_range v res : 0 <= v < 2 ^ 12 -> 0 <= res <= 32 ->
  0 <= mapResolution v 12 res < 2 ^ res.
Proof.
  intros Hv Hr. unfold mapResolution. destruct (Z.eqb_spec 12 res) as [<-|]; [done|].
  destruct (Z.gtb_spec 12 res) as [Hg|Hg].
  - rewrite Z.shiftr_div_pow2 by lia. split; [apply Z.div_pos; lia|].
    apply Z.div_lt_upper_bound; [lia|]. rewrite <-Z.pow_add_r by lia. replace (12 - res + res) with 12 by lia. lia.
  - rewrite Z.shiftl_mul_pow2 by lia.
    assert (v * 2 ^ (res - 12) < 2 ^ res).
    { replace res with (12 + (res - 12)) at 2 by lia. rewrite Z.pow_add_r by lia. nia. }
    assert (2 ^ res <= 2 ^ 32) by (apply Z.pow_le_mono_r; lia).
    rewrite wrap_id by (unfold in_u; nia). nia.
Qed.

Lemma mapResolution_up_down v res : 0 <= v < 2 ^ 12 -> 12 <= res <= 32 ->
  mapResolution (mapResolution v 12 res) res 12 = v.
Proof.
  intros Hv Hr. unfold mapResolution. rewrite (Z.eqb_sym res 12).
  destruct (Z.eqb_spec 12 res) as [<-|]; [done|].
  rewrite !Z.gtb_ltb, (proj2 (Z.ltb_ge res 12)), (proj2 (Z.ltb_lt 12 res)) by lia.
  rewrite wrap_id.
  - by rewrite Z.shiftr_shiftl_l, Z.sub_diag, Z.shiftl_0_r by lia.
  - rewrite Z.shiftl_mul_pow2 by lia. unfold in_u. split; [nia|].
    apply Z.lt_le_trans with (2 ^ res); [|apply Z.pow_le_mono_r; lia].
    replace res with (12 + (res - 12)) at 2 by lia. rewrite Z.pow_add_r by lia. nia.
Qed.

End Analog.
