(* ===== verification/Shift.v ===== *)
(** * Bit-serial input and output (cores/tivac/wiring_shift.c, wiring_pulse.c)

    [shiftOut] and [shiftIn] are sequences of [digitalWrite] and [digitalRead] on
    a data and a clock pin; the model of [shiftOut] also gives the states the
    ports go through, one per [digitalWrite], for the device that listens.  What
    the device does to the pins while [shiftIn] runs is an argument.  [pulseIn]
    polls one pin; the model gets the sequence of the levels it reads and of the
    results of [micros]. *)
From S2P Require Import Prelude Pins Gpio.
Import Pins Gpio.

Module Shift.

Definition LSBFIRST : Z := 0.
Definition MSBFIRST : Z := 1.

Section Ops.
Context {S : Type} `{gpio_hw S}.
Implicit Types s : S.

(** The loop of [shiftOut] from bit number [i] on; the states after each write. *)
Fixpoint out_loop (n : nat) (i : Z) (dataPin clockPin : nat) (bitOrder val : Z) s : option (list S) :=
  match n with
  | O => Some []
  | Datatypes.S n =>
      let bit := if bitOrder =? LSBFIRST then Z.land val (Z.shiftl 1 i)
                 else Z.land val (Z.shiftl 1 (7 - i)) in
      s1 ← digitalWrite dataPin (if bit =? 0 then 0 else 1) s;
      s2 ← digitalWrite clockPin HIGH s1;
      s3 ← digitalWrite clockPin LOW s2;
      rest ← out_loop n (i + 1) dataPin clockPin bitOrder val s3;
      Some (s1 :: s2 :: s3 :: rest)
  end.

Definition shiftOut (dataPin clockPin : nat) (bitOrder val : Z) s : option (list S) :=
  out_loop 8 0 dataPin clockPin bitOrder val s.

(** The loop of [shiftIn]; [device i] is what the device does to the pins after
    the [i]-th rising edge of the clock. *)
Fixpoint in_loop (device : Z -> S -> S) (n : nat) (i : Z) (dataPin clockPin : nat)
    (bitOrder value : Z) s : option (Z * S) :=
  match n with
  | O => Some (value, s)
  | Datatypes.S n =>
      s ← digitalWrite clockPin HIGH s;
      let s := device i s in
      d ← digitalRead dataPin s;
      let value := u8 (Z.lor value (if bitOrder =? LSBFIRST then Z.shiftl d i else Z.shiftl d (7 - i))) in
      s ← digitalWrite clockPin LOW s;
      in_loop device n (i + 1) dataPin clockPin bitOrder value s
  end.

Definition shiftIn (device : Z -> S -> S) (dataPin clockPin : nat) (bitOrder : Z) s : option (Z * S) :=
  in_loop device 8 0 dataPin clockPin bitOrder 0 s.
End Ops.

(** ** [pulseIn] *)

(** 80 MHz, whatever F_CPU is (Energia.h). *)
Definition clockCyclesPerMicrosecond : Z := 80000000 / 1000000.
Definition microsecondsToClockCycles (a : Z) : Z := u32 (a * clockCyclesPerMicrosecond).

Section Pulse.
(** Whether the [n]-th read of the pin finds it in the state asked for, and the
    value of [micros] after [n] reads. *)
Context (poll : nat -> bool) (clock : nat -> Z).

(** [while (poll == want) if (numloops++ == maxloops) return 0;]: the number of
    reads done and [numloops], [None] for the return. *)
Fixpoint poll_while (fuel : nat) (want : bool) (maxloops : Z) (n : nat) (numloops : Z) : option (option (nat * Z)) :=
  match fuel with
  | O => None
  | S fuel =>
      if eqb (poll n) want then
        if numloops =? maxloops then Some None
        else poll_while fuel want maxloops (S n) (u32 (numloops + 1))
      else Some (Some (S n, numloops))
  end.

Definition pulseIn (fuel : nat) (timeout : Z) : option Z :=
  let maxloops := microsecondsToClockCycles timeout / 11 in
  r ← poll_while fuel true maxloops 0 0;
  match r with
  | None => Some 0
  | Some (n, numloops) =>
      r ← poll_while fuel false maxloops n numloops;
      match r with
      | None => Some 0
      | Some (n, numloops) =>
          let start := clock n in
          r ← poll_while fuel true maxloops n numloops;
          match r with
          | None => Some 0
          | Some (n, numloops) => Some (u32 (clock n - start))
          end
      end
  end.
End Pulse.

(** ** The pins during [shiftOut] *)

Section Correct.
Context {S : Type} `{Laws : gpio_laws S}.
Implicit Types s : S.

(** Both pins are outputs, and they are two. *)
Record outputs (dataPin clockPin : nat) s : Prop := {
  out_ne : dataPin ≠ clockPin;
  out_data : exists b k, wired dataPin = Some (b, k) /\ driven b k s = true;
  out_clock : exists b k, wired clockPin = Some (b, k) /\ driven b k s = true }.

(** A write to one of the pins. *)
Definition wrote (pin : nat) (val : Z) s s' : Prop :=
  digitalWrite pin val s = Some s' /\ digitalRead pin s' = Some (if val =? 0 then LOW else HIGH) /\
  forall q, q ≠ pin -> is_Some (wired q) -> digitalRead q s' = digitalRead q s.

Lemma write_step pin val s b k : wired pin = Some (b, k) -> driven b k s = true ->
  exists s', wrote pin val s s' /\
    forall q b' k', wired q = Some (b', k') -> driven b' k' s' = driven b' k' s.
Proof.
  intros W D. destruct (digitalWrite_spec pin val s b k W D) as (s' & E & R & F & U).
  exists s'. split; [done|]. intros q b' k' (_ & _ & _ & _ & _ & Hb & Hk)%wired_inv.
  by eapply driven_same.
Qed.

Lemma outputs_wired dataPin clockPin s : outputs dataPin clockPin s ->
  is_Some (wired dataPin) /\ is_Some (wired clockPin).
Proof. intros [_ (b & k & E & _) (b' & k' & E' & _)]. by rewrite E, E'. Qed.

Lemma outputs_write (clk : bool) dataPin clockPin val s : outputs dataPin clockPin s ->
  exists s', wrote (if clk then clockPin else dataPin) val s s' /\ outputs dataPin clockPin s'.
Proof.
  intros [Ne (bd & kd & Ed & Dd) (bc & kc & Ec & Dc)].
  assert (exists b k, wired (if clk then clockPin else dataPin) = Some (b, k) /\ driven b k s = true) as (b & k & E & D)
    by (destruct clk; eauto).
  destruct (write_step _ val s b k E D) as (s' & W & P). exists s'. split; [done|].
  split; [done|exists bd, kd; by rewrite (P _ _ _ Ed)|exists bc, kc; by rewrite (P _ _ _ Ec)].
Qed.

(** What a device sees that takes the data pin at each rising edge of the clock. *)
Fixpoint sampled (dataPin clockPin : nat) s (states : list S) : list Z :=
  match states with
  | [] => []
  | s' :: r =>
      (if bool_decide (digitalRead clockPin s = Some LOW /\ digitalRead clockPin s' = Some HIGH)
       then [default 0 (digitalRead dataPin s')] else []) ++ sampled dataPin clockPin s' r
  end.

(** The state at the end. *)
Fixpoint final s (states : list S) : S :=
  match states with
  | [] => s
  | s' :: r => final s' r
  end.

(** The bit of [val] that goes out as number [i]. *)
Definition out_bit (bitOrder val i : Z) : Z :=
  Z.b2z (Z.testbit val (if bitOrder =? LSBFIRST then i else 7 - i)).

Lemma land_shiftl1 val i : 0 <= i -> (Z.land val (Z.shiftl 1 i) =? 0) = negb (Z.testbit val i).
Proof. intros. rewrite Z.shiftl_1_l. by apply land_pow2. Qed.

Lemma out_loop_spec dataPin clockPin bitOrder val n : forall i s,
  0 <= i -> i + Z.of_nat n = 8 -> outputs dataPin clockPin s -> digitalRead clockPin s = Some LOW ->
  exists states, out_loop n i dataPin clockPin bitOrder val s = Some states /\
    length states = (3 * n)%nat /\
    sampled dataPin clockPin s states = out_bit bitOrder val <$> seqZ i (Z.of_nat n) /\
    Forall (fun s' => outputs dataPin clockPin s' /\
      forall q, q ≠ dataPin -> q ≠ clockPin -> is_Some (wired q) -> digitalRead q s' = digitalRead q s) states /\
    digitalRead clockPin (final s states) = Some LOW.
Proof.
  induction n as [|n IH]; intros i s Hi Hn O Hlow; cbn [out_loop].
  - exists []. split; [done|]. split; [done|]. split; [done|]. split; [by apply Forall_nil_2|done].
  - destruct (outputs_wired _ _ _ O) as [Wd Wc]. pose proof (out_ne _ _ _ O) as Ne.
    set (v := if (if bitOrder =? LSBFIRST then Z.land val (Z.shiftl 1 i)
      else Z.land val (Z.shiftl 1 (7 - i))) =? 0 then 0 else 1).
    assert ((if v =? 0 then LOW else HIGH) = out_bit bitOrder val i) as Ev.
    { subst v. unfold out_bit. destruct (bitOrder =? LSBFIRST); rewrite land_shiftl1 by lia;
        by destruct (Z.testbit val _). }
    destruct (outputs_write false dataPin clockPin v s O) as (s1 & (E1 & R1 & F1) & O1).
    destruct (outputs_write true dataPin clockPin HIGH s1 O1) as (s2 & (E2 & R2 & F2) & O2).
    destruct (outputs_write true dataPin clockPin LOW s2 O2) as (s3 & (E3 & R3 & F3) & O3).
    rewrite E1. cbn [mbind option_bind]. rewrite E2. cbn [mbind option_bind]. rewrite E3. cbn [mbind option_bind].
    destruct (IH (i + 1) s3) as (rest & E & L & Sm & Fr & La); [lia|lia|done|done|].
    rewrite E. cbn [mbind option_bind]. exists (s1 :: s2 :: s3 :: rest). split; [done|].
    assert (digitalRead clockPin s1 = Some LOW) as C1 by (rewrite F1 by done; done).
    assert (digitalRead dataPin s2 = Some (out_bit bitOrder val i)) as D2 by (rewrite F2, R1, Ev by done; done).
    split; [cbn [length]; lia|]. split; [|split].
    + cbn [sampled]. rewrite (bool_decide_false (_ /\ digitalRead clockPin s1 = _)) by (rewrite C1; naive_solver).
      rewrite bool_decide_true by done.
      rewrite (bool_decide_false (digitalRead clockPin s2 = _ /\ _)) by (rewrite R2; naive_solver).
      cbn [app]. rewrite D2, Sm, (seqZ_cons i) by lia. rewrite fmap_cons. cbn [default].
      f_equal. f_equal. f_equal; lia.
    + repeat apply Forall_cons_2.
      * split; [done|]. intros q Hd Hc Hq. by apply F1.
      * split; [done|]. intros q Hd Hc Hq. by rewrite F2, F1.
      * split; [done|]. intros q Hd Hc Hq. by rewrite F3, F2, F1.
      * eapply Forall_impl; [exact Fr|]. intros s' [O' F']. split; [done|]. intros q Hd Hc Hq.
        by rewrite F', F3, F2, F1.
    + exact La.
Qed.

(** ** The pins during [shiftIn] *)

(** The weight of the [i]-th bit that comes in. *)
Definition in_pos (bitOrder i : Z) : Z := if bitOrder =? LSBFIRST then i else 7 - i.

Section In.
(** A device that answers the [i]-th edge with [bits i] on the data pin and
    leaves the configuration of the clock pin alone. *)
Context (device : Z -> S -> S) (bits : Z -> bool) (dataPin clockPin : nat) (bc kc : Z).
Hypothesis clock_wired : wired clockPin = Some (bc, kc).
Hypothesis answers : forall i s, digitalRead dataPin (device i s) = Some (if bits i then HIGH else LOW).
Hypothesis keeps : forall i s, driven bc kc (device i s) = driven bc kc s.

Lemma in_loop_spec bitOrder n : forall i value s, 0 <= i -> i + Z.of_nat n = 8 ->
  driven bc kc s = true -> 0 <= value < 256 ->
  exists v s', in_loop device n i dataPin clockPin bitOrder value s = Some (v, s') /\ 0 <= v < 256 /\
    forall j, 0 <= j < 8 -> Z.testbit v (in_pos bitOrder j) =
      Z.testbit value (in_pos bitOrder j) || (bool_decide (i <= j) && bits j).
Proof.
  induction n as [|n IH]; intros i value s Hi Hn D Hv; cbn [in_loop].
  - exists value, s. split; [done|]. split; [done|]. intros j Hj.
    rewrite bool_decide_false by lia. by rewrite orb_false_r.
  - destruct (write_step clockPin HIGH s bc kc clock_wired D) as (s1 & (E1 & _) & P1). rewrite E1.
    cbn [mbind option_bind]. rewrite answers. cbn [mbind option_bind].
    assert (driven bc kc (device i s1) = true) as D1 by (rewrite keeps, (P1 _ _ _ clock_wired); done).
    destruct (write_step clockPin LOW (device i s1) bc kc clock_wired D1) as (s2 & (E2 & _) & P2). rewrite E2.
    cbn [mbind option_bind].
    set (x := if bits i then HIGH else LOW).
    assert ((if bitOrder =? LSBFIRST then Z.shiftl x i else Z.shiftl x (7 - i)) = Z.shiftl x (in_pos bitOrder i)) as ->
      by (unfold in_pos; by destruct (bitOrder =? LSBFIRST)).
    assert (0 <= in_pos bitOrder i < 8) as Hp by (unfold in_pos; destruct (bitOrder =? LSBFIRST); lia).
    assert (forall p, 0 <= p < 8 -> Z.testbit (u8 (Z.lor value (Z.shiftl x (in_pos bitOrder i)))) p
      = Z.testbit value p || ((p =? in_pos bitOrder i) && bits i)) as B.
    { intros p Hpp. unfold wrap. rewrite Z.mod_pow2_bits_low by lia. rewrite Z.lor_spec. f_equal.
      subst x. destruct (bits i); [|by rewrite Z.shiftl_0_l, Z.bits_0, andb_false_r].
      unfold HIGH. rewrite Z.shiftl_1_l, testbit_pow2, andb_true_r by lia. done. }
    destruct (IH (i + 1) (u8 (Z.lor value (Z.shiftl x (in_pos bitOrder i)))) s2) as (v & s' & E & Hr & Hb);
      [lia|lia|by rewrite (P2 _ _ _ clock_wired)|apply (wrap_range 8); lia|].
    exists v, s'. split; [done|]. split; [done|]. intros j Hj. rewrite Hb by done.
    assert (0 <= in_pos bitOrder j < 8) as Hpj by (unfold in_pos; destruct (bitOrder =? LSBFIRST); lia).
    rewrite B by done. destruct (decide (j = i)) as [->|Hji].
    + rewrite Z.eqb_refl, bool_decide_false, bool_decide_true by lia. cbn. by rewrite orb_false_r.
    + assert ((in_pos bitOrder j =? in_pos bitOrder i) = false) as ->
        by (apply Z.eqb_neq; unfold in_pos; destruct (bitOrder =? LSBFIRST); lia).
      cbn [andb]. rewrite orb_false_r. do 2 f_equal. apply bool_decide_ext. lia.
Qed.
End In.

(** ** Properties *)

(** A device that takes the data pin at the rising edges of the clock gets
    the eight bits of the byte from [shiftOut], in the order asked for; the clock
    is low again at the end and no other pin of the board changes on the way. *)
Theorem shiftOut_correct dataPin clockPin bitOrder val s :
  outputs dataPin clockPin s -> digitalRead clockPin s = Some LOW ->
  exists states, shiftOut dataPin clockPin bitOrder val s = Some states /\
    sampled dataPin clockPin s states = out_bit bitOrder val <$> seqZ 0 8 /\
    Forall (fun s' => forall q, q ≠ dataPin -> q ≠ clockPin -> is_Some (wired q) ->
      digitalRead q s' = digitalRead q s) states /\
    digitalRead clockPin (final s states) = Some LOW.
Proof.
  intros O L. destruct (out_loop_spec dataPin clockPin bitOrder val 8 0 s) as (st & E & _ & Sm & F & La); [done..|].
  exists st. split; [done|]. split; [done|]. split; [|done]. eapply Forall_impl; [exact F|]. by intros s' [_ ?].
Qed.

(** [shiftIn] returns the byte a device sends that answers each rising edge
    of the clock with its next bit, the first bit being the lowest or the highest
    as asked for. *)
Theorem shiftIn_correct device bits dataPin clockPin bc kc bitOrder s :
  wired clockPin = Some (bc, kc) -> driven bc kc s = true ->
  (forall i s, digitalRead dataPin (device i s) = Some (if bits i : bool then HIGH else LOW)) ->
  (forall i s, driven bc kc (device i s) = driven bc kc s) ->
  exists v s', shiftIn device dataPin clockPin bitOrder s = Some (v, s') /\ 0 <= v < 256 /\
    forall j, 0 <= j < 8 -> Z.testbit v (in_pos bitOrder j) = bits j.
Proof.
  intros W D An Ke.
  destruct (in_loop_spec device bits dataPin clockPin bc kc W An Ke bitOrder 8 0 0 s) as (v & s' & E & Hr & Hb);
    [done..|]. exists v, s'. split; [done|]. split; [done|]. intros j Hj. rewrite Hb by done.
  rewrite Z.bits_0, bool_decide_true by lia. done.
Qed.
End Correct.

(** ** The loops of [pulseIn] *)

Section PulseCorrect.
Context (poll : nat -> bool) (clock : nat -> Z).

(** The reads [n], ..., [k - 1] find [want], the read [k] does not. *)
Definition run_of (want : bool) (n k : nat) : Prop :=
  (n <= k)%nat /\ (forall j, (n <= j < k)%nat -> poll j = want) /\ poll k ≠ want.

Lemma poll_while_spec want maxloops : 0 <= maxloops < 2 ^ 32 -> forall fuel n k numloops,
  run_of want n k -> 0 <= numloops <= maxloops -> maxloops - numloops + 1 < Z.of_nat fuel ->
  poll_while poll fuel want maxloops n numloops =
    Some (if decide (numloops + Z.of_nat (k - n) <= maxloops)
          then Some (S k, numloops + Z.of_nat (k - n)) else None).
Proof.
  intros Hm. induction fuel as [|fuel IH]; intros n k nl (Hk & Hw & He) Hn Hf; [lia|]. cbn [poll_while].
  destruct (decide (n = k)) as [->|Hne].
  - destruct (eqb (poll k) want) eqn:E; [by apply eqb_prop in E|].
    rewrite decide_True by lia. do 3 f_equal. lia.
  - rewrite (Hw n) by lia. rewrite eqb_reflx. destruct (Z.eqb_spec nl maxloops) as [->|Hnl].
    + by rewrite decide_False by lia.
    + rewrite wrap_id by (unfold in_u; lia). rewrite (IH (S n) k (nl + 1)); [|split; [lia|]; split; [intros j Hj; apply Hw; lia|done]|lia|lia].
      replace (nl + 1 + Z.of_nat (k - S n)) with (nl + Z.of_nat (k - n)) by lia. done.
Qed.

Lemma poll_while_total want maxloops : 0 <= maxloops < 2 ^ 32 -> forall fuel n numloops,
  0 <= numloops <= maxloops -> maxloops - numloops + 1 < Z.of_nat fuel ->
  exists r, poll_while poll fuel want maxloops n numloops = Some r /\
    match r with None => True | Some (_, nl) => 0 <= nl <= maxloops end.
Proof.
  intros Hm. induction fuel as [|fuel IH]; intros n nl Hn Hf; [lia|]. cbn [poll_while].
  destruct (eqb (poll n) want); [|by eexists].
  destruct (Z.eqb_spec nl maxloops) as [->|]; [by eexists|].
  rewrite wrap_id by (unfold in_u; lia). apply IH; lia.
Qed.

Definition maxloops (timeout : Z) : Z := microsecondsToClockCycles timeout / 11.

Lemma maxloops_range timeout : 0 <= maxloops timeout < 2 ^ 32.
Proof.
  unfold maxloops, microsecondsToClockCycles.
  pose proof (wrap_range 32 (timeout * clockCyclesPerMicrosecond) ltac:(lia)) as [? ?].
  split; [apply Z.div_pos; lia|]. apply Z.div_lt_upper_bound; cint.
Qed.

(** [pulseIn] returns, whatever the pin does.  When the pin leaves the state,
    enters it with read [k2] and leaves it again with read [k3], the result is
    the time between these two reads, also across an overflow of [micros],
    provided the reads before did not use up the timeout; otherwise it is 0. *)
Theorem pulseIn_correct fuel timeout : maxloops timeout + 1 < Z.of_nat fuel ->
  (exists r, pulseIn poll clock fuel timeout = Some r) /\
  (forall k1 k2 k3, run_of true 0 k1 -> run_of false (S k1) k2 -> run_of true (S k2) k3 ->
   pulseIn poll clock fuel timeout =
     Some (if decide (Z.of_nat k3 - 2 <= maxloops timeout) then u32 (clock (S k3) - clock (S k2)) else 0)).
Proof.
  intros Hf. unfold pulseIn. fold (maxloops timeout). pose proof (maxloops_range timeout) as Hm. split.
  - destruct (poll_while_total true _ Hm fuel 0 0) as (r & E & Hr); [lia..|]. rewrite E. cbn [mbind option_bind].
    destruct r as [[n nl]|]; [|by eexists].
    destruct (poll_while_total false _ Hm fuel n nl) as (r & E' & Hr'); [lia..|]. rewrite E'. cbn [mbind option_bind].
    destruct r as [[n' nl']|]; [|by eexists].
    destruct (poll_while_total true _ Hm fuel n' nl') as (r & E'' & _); [lia..|]. rewrite E''. cbn [mbind option_bind].
    destruct r as [[? ?]|]; by eexists.
  - intros k1 k2 k3 R1 R2 R3. pose proof R2 as [H12 _]. pose proof R3 as [H23 _].
    rewrite (poll_while_spec true _ Hm fuel 0 k1 0) by (done || lia). cbn [mbind option_bind].
    destruct (decide (0 + Z.of_nat (k1 - 0) <= maxloops timeout)); [|by rewrite decide_False by lia].
    rewrite (poll_while_spec false _ Hm fuel (S k1) k2) by (done || lia). cbn [mbind option_bind].
    destruct (decide (_ <= _)); [|by rewrite decide_False by lia].
    rewrite (poll_while_spec true _ Hm fuel (S k2) k3) by (done || lia). cbn [mbind option_bind].
    destruct (decide (_ <= _)); [by rewrite decide_True by lia|by rewrite decide_False by lia].
Qed.
End PulseCorrect.

(** ** Examples *)

(** Data on PN_1 (81), clock on PN_0 (82). *)
Definition board2 : board := default board0 (s ← pinMode 81 OUTPUT board0; pinMode 82 OUTPUT s).

Lemma board2_outputs : outputs 81 82 board2.
Proof.
  split; [lia|exists GPIO_PORTN_BASE, 1|exists GPIO_PORTN_BASE, 0]; split; vm_compute; reflexivity.
Qed.

Lemma shiftOut_correct_witness : exists states, shiftOut 81 82 MSBFIRST 0xA5 board2 = Some states /\
  sampled 81 82 board2 states = [1; 0; 1; 0; 0; 1; 0; 1] /\
  Forall (fun s' => forall q, q ≠ 81%nat -> q ≠ 82%nat -> is_Some (wired q) ->
    digitalRead q s' = digitalRead q board2) states /\
  digitalRead 82 (final board2 states) = Some LOW.
Proof.
  apply (shiftOut_correct 81 82 MSBFIRST 0xA5 board2 board2_outputs). vm_compute. reflexivity.
Defined.

(** A device that sends the bits of 0x35 on PN_1. *)
Definition demo_device (i : Z) (s : board) : board :=
  mk_board (regs s) (<[GPIO_PORTN_BASE := mix (if Z.testbit 0x35 i then 2 else 0)
    (level GPIO_PORTN_BASE s) 2]> (levels s)) (open_ports s).

Lemma demo_answers i s : digitalRead 81 (demo_device i s) = Some (if Z.testbit 0x35 i then HIGH else LOW).
Proof.
  rewrite (digitalRead_level 81 GPIO_PORTN_BASE 1) by reflexivity.
  assert (level GPIO_PORTN_BASE (demo_device i s)
    = mix (if Z.testbit 0x35 i then 2 else 0) (level GPIO_PORTN_BASE s) 2) as ->
    by (unfold demo_device; cbn -[mix Z.testbit]; by rewrite lookup_insert_eq).
  rewrite mix_bit by lia. change (Z.testbit 2 1) with true.
  by destruct (Z.testbit 0x35 i).
Qed.

Lemma shiftIn_correct_witness : exists v s', shiftIn demo_device 81 82 LSBFIRST board2 = Some (v, s') /\
  0 <= v < 256 /\ forall j, 0 <= j < 8 -> Z.testbit v (in_pos LSBFIRST j) = Z.testbit 0x35 j.
Proof.
  apply (shiftIn_correct demo_device (Z.testbit 0x35) 81 82 GPIO_PORTN_BASE 0 LSBFIRST board2 eq_refl);
    [vm_compute; reflexivity|exact demo_answers|reflexivity].
Defined.

(** Low for 3 reads, high for 4. *)
Definition demo_poll (n : nat) : bool := (3 <=? n)%nat && (n <? 7)%nat.

Lemma pulseIn_correct_witness :
  (exists r, pulseIn demo_poll (fun n => 2 * Z.of_nat n) 1000 100 = Some r) /\
  (forall k1 k2 k3, run_of demo_poll true 0 k1 -> run_of demo_poll false (S k1) k2 ->
   run_of demo_poll true (S k2) k3 ->
   pulseIn demo_poll (fun n => 2 * Z.of_nat n) 1000 100 =
     Some (if decide (Z.of_nat k3 - 2 <= maxloops 100) then u32 (2 * Z.of_nat (S k3) - 2 * Z.of_nat (S k2)) else 0)).
Proof. apply (pulseIn_correct demo_poll (fun n => 2 * Z.of_nat n) 1000 100). vm_compute. reflexivity. Defined.

Example demo_pulse : pulseIn demo_poll (fun n => 2 * Z.of_nat n) 1000 100 = Some 8.
Proof. vm_compute. reflexivity. Qed.

End Shift.
