(* ===== verification/Refs.v ===== *)
(** * References to packet buffers

    lwIP counts references: a pbuf is given back when [pbuf_free] takes the last
    one.  A reference is a pointer some part of the stack keeps (a queue of the
    ARP table, a descriptor of the MAC driver, a caller) or the [next] pointer of
    the pbuf in front in its chain.  [refs_inv s refs R] says that [refs] are the
    pointers kept, each as often as it is kept, and that the counters are exact;
    the lemmas say how each operation of [Pbuf] changes [refs].  A component that
    keeps this invariant leaks no pbuf and frees none that is still in use. *)
From S2P Require Import Prelude Alloc Pbuf PbufData.
Import Alloc Pbuf PbufData.

Module Refs.

(** ** Counting *)

(** How often [a] is in the list of pointers kept. *)
Definition occ (a : Z) (refs : list Z) : Z := Z.of_nat (length (filter (fun x => x = a) refs)).

(** [x] is the pbuf in front of [a]. *)
Definition link (m : gmap Z pbuf) (x a : Z) : Prop := exists b, m !! x = Some b /\ next b = a.
Definition has_pred (m : gmap Z pbuf) (a : Z) : Prop := exists x, link m x a.

(** The number of [next] pointers to [a], which is at most one. *)
Definition pred_count (m : gmap Z pbuf) (a n : Z) : Prop :=
  (has_pred m a /\ n = 1) \/ (~ has_pred m a /\ n = 0).

(** The fields of a pbuf other than the reference count. *)
Definition strip (b : pbuf) : pbuf := set_ref 0 b.

Lemma occ_cons a x refs : occ a (x :: refs) = (if decide (x = a) then 1 else 0) + occ a refs.
Proof. unfold occ. rewrite filter_cons. destruct (decide (x = a)); cbn [length]; lia. Qed.

Lemma occ_app a l l' : occ a (l ++ l') = occ a l + occ a l'.
Proof. unfold occ. rewrite filter_app, length_app. lia. Qed.

Lemma occ_nonneg a refs : 0 <= occ a refs.
Proof. unfold occ. lia. Qed.

Lemma occ_zero a refs : occ a refs = 0 <-> a ∉ refs.
Proof.
  unfold occ. split.
  - intros H Hin. destruct (filter (fun x => x = a) refs) as [|y l] eqn:E; [|cbn [length] in H; lia].
    assert (a ∈ filter (fun x => x = a) refs) by (by apply list_elem_of_filter). rewrite E in *. set_solver.
  - intros Hin. destruct (filter (fun x => x = a) refs) as [|y l] eqn:E; [done|].
    exfalso. apply Hin. assert (y ∈ filter (fun x => x = a) refs) as Hy by (rewrite E; set_solver).
    apply list_elem_of_filter in Hy as [-> ?]. done.
Qed.

Lemma occ_length a refs : occ a refs <= Z.of_nat (length refs).
Proof. unfold occ. pose proof (length_filter (fun x => x = a) refs). lia. Qed.

#[export] Instance occ_perm a : Proper ((≡ₚ) ==> (=)) (occ a).
Proof. intros l l' H. unfold occ. by rewrite H. Qed.

(** ** Links and chains *)

Lemma pred_count_ext m m' a n : (has_pred m a <-> has_pred m' a) -> pred_count m a n -> pred_count m' a n.
Proof. unfold pred_count. tauto. Qed.

Lemma chain_pred m a b l x : chain m a ((a, b) :: l) 0 -> x ∈ l.*1 -> has_pred m x.
Proof.
  revert a b. induction l as [|[c d] l IH]; intros a b Hc Hx; [set_solver|].
  destruct Hc as (_ & _ & Ea & Hc). rewrite fmap_cons in Hx. apply elem_of_cons in Hx as [->|Hx].
  - destruct Hc as (Hn & _). exists a, b. done.
  - destruct Hc as (Hn & Hc). eapply (IH c d); [|done]. by destruct Hc as (? & ? & ?).
Qed.

Lemma chain_head m a b : m !! a = Some b -> forall l, chain m a l 0 -> a ≠ 0 -> exists l', l = (a, b) :: l'.
Proof.
  intros E l Hc Ha. destruct l as [|[c d] l]; [by cbn in Hc|]. destruct Hc as (<- & _ & E' & _).
  simplify_eq. eauto.
Qed.

(** In a chain two pbufs with the same successor are the same. *)
Lemma chain_next_inj m p l a b c d : chain m p l 0 -> (a, b) ∈ l -> (c, d) ∈ l ->
  next b = next d -> next b ≠ 0 -> a = c.
Proof.
  revert p. induction l as [|[x e] l IH]; intros p Hc Ha Hd En Hz; [set_solver|].
  pose proof (chain_nodup _ _ _ Hc) as N. destruct Hc as (_ & _ & _ & Hc).
  assert (forall y f, (y, f) ∈ l -> next f ≠ 0 -> next f ≠ next e) as K.
  { intros y f Hin Hf E. apply list_elem_of_split in Hin as (l1 & l2 & ->).
    pose proof (chain_nodup _ _ _ Hc) as N'.
    pose proof Hc as Hc'. apply chain_app in Hc' as (q & H1 & (-> & _ & _ & H2)).
    destruct l2 as [|[z g] l2]; [done|]. destruct H2 as (Hz' & _).
    assert (z ∈ (l1 ++ [(y, f)]).*1) as Hin.
    { destruct l1 as [|[w h] l1]; [|destruct H1 as (Hw & _)].
      - cbn [chain] in H1. rewrite fmap_app. set_solver.
      - rewrite fmap_app, fmap_cons. set_solver. }
    rewrite fmap_app, fmap_cons, fmap_cons in N'. cbn [fst] in N'.
    rewrite fmap_app in Hin. cbn [fmap list_fmap fst] in Hin.
    apply NoDup_app in N' as (_ & N1 & N2). inversion_clear N2 as [|? ? N3 _].
    apply elem_of_app in Hin as [Hin|Hin]; [apply (N1 z Hin); set_solver|set_solver]. }
  apply elem_of_cons in Ha as [[= -> ->]|Ha], Hd as [[= -> ->]|Hd]; [done| | |by eapply IH].
  - exfalso. eapply K; [exact Hd|congruence|done].
  - exfalso. eapply K; [exact Ha|done|done].
Qed.

(** A struct of a chain replaced by one with the same successor. *)
Definition replaced (p : Z) (b' : pbuf) (l : list (Z * pbuf)) : list (Z * pbuf) :=
  (fun x => if decide (x.1 = p) then (p, b') else x) <$> l.

Lemma replaced_id p b' l : p ∉ l.*1 -> replaced p b' l = l.
Proof.
  induction l as [|[a b] l IH]; [done|]. intros H. unfold replaced. rewrite fmap_cons. cbn [fst] in *.
  rewrite decide_False by set_solver. f_equal. apply IH. set_solver.
Qed.

Lemma chain_replaced m p b b' l : m !! p = Some b -> next b' = next b ->
  forall a e, chain m a l e -> chain (<[p := b']> m) a (replaced p b' l) e.
Proof.
  intros E En. induction l as [|[c d] l IH]; intros a e; [done|]. unfold replaced. rewrite fmap_cons.
  cbn [chain fst]. intros (-> & Hc & Ec & Hl). destruct (decide (c = p)) as [->|D].
  - cbn [chain]. rewrite lookup_insert_eq. simplify_eq. do 3 (split; [done|]). rewrite En. by apply IH.
  - cbn [chain]. rewrite lookup_insert_ne by done. do 3 (split; [done|]). by apply IH.
Qed.

Lemma tot_replaced m p b b' l : m !! p = Some b -> len b' = len b -> tot_len b' = tot_len b ->
  forall a e, chain m a l e -> tot (replaced p b' l) = tot l /\ (tot_ok l -> tot_ok (replaced p b' l)).
Proof.
  intros E El Et. induction l as [|[c d] l IH]; intros a e; [done|]. unfold replaced. rewrite fmap_cons.
  cbn [chain fst]. intros (-> & Hc & Ec & Hl). destruct (IH _ _ Hl) as [IH1 IH2]. fold (replaced p b' l).
  destruct (decide (c = p)) as [->|D]; cbn [tot tot_ok]; rewrite IH1.
  - simplify_eq. rewrite El, Et. tauto.
  - tauto.
Qed.

Lemma link_insert m p b b' x a : m !! p = Some b -> next b' = next b ->
  link (<[p := b']> m) x a <-> link m x a.
Proof.
  intros E En. unfold link. destruct (decide (x = p)) as [->|D].
  - rewrite lookup_insert_eq, E. split; intros (? & [= <-] & ?); eexists; split; [done|congruence|done|congruence].
  - by rewrite lookup_insert_ne.
Qed.

Section Inv.
Context {A : Type} {ops : alloc_ops A} {laws : alloc_laws A}.
Implicit Types s : pstate A.

Record refs_inv s (refs : list Z) (R : list block) : Prop := {
  ri_pinv : exists B, pinv s B R;
  ri_held : Forall (fun a => is_Some (bufs s !! a)) refs;
  ri_uniq : forall x y a, a ≠ 0 -> link (bufs s) x a -> link (bufs s) y a -> x = y;
  ri_ref : forall a b, bufs s !! a = Some b -> exists n, pred_count (bufs s) a n /\ ref b = occ a refs + n;
  ri_chain : forall a b, bufs s !! a = Some b ->
    exists l, chain (bufs s) a ((a, b) :: l) 0 /\ tot_ok ((a, b) :: l) }.

#[export] Instance refs_inv_perm s : Proper ((≡ₚ) ==> eq ==> iff) (refs_inv s).
Proof.
  assert (forall l l' R, l ≡ₚ l' -> refs_inv s l R -> refs_inv s l' R) as H.
  { intros l l' R E [P H U F C]. split; [done| |done| |done].
    - rewrite Forall_forall in *. intros x Hx. apply H. by rewrite E.
    - intros a b Ea. destruct (F a b Ea) as (n & ? & ->). exists n. by rewrite E. }
  intros l l' E R R' <-. split; by apply H.
Qed.

Lemma ri_nonzero s refs R a b : refs_inv s refs R -> bufs s !! a = Some b -> 0 < a /\ a mod 4 = 0.
Proof.
  intros [(B & I) _ _ _ _] E. destruct (pinv_get _ _ _ _ _ I E) as (k & Ek & (<- & _) & _).
  pose proof (pi_own _ _ _ I) as O. rewrite <-(map_to_list_delete B _ k Ek) in O.
  apply owns_ok in O. cbn [fmap list_fmap app snd] in O. apply Forall_cons in O as [(? & ? & _) _]. done.
Qed.

Lemma ri_get s refs R p : refs_inv s refs R -> p ∈ refs -> exists b, bufs s !! p = Some b.
Proof. intros I Hp. pose proof (ri_held _ _ _ I) as H. rewrite Forall_forall in H. by apply H. Qed.

Lemma ri_ref_bound s refs R a b : refs_inv s refs R -> bufs s !! a = Some b ->
  ref b <= Z.of_nat (length refs) + 1.
Proof.
  intros I E. destruct (ri_ref _ _ _ I a b E) as (n & [[_ ->]|[_ ->]] & ->);
    pose proof (occ_length a refs); lia.
Qed.

(** Only the allocator, the structs and the pool flag matter. *)
Lemma refs_inv_bytes s refs R m : refs_inv s refs R -> refs_inv (with_bytes m s) refs R.
Proof. intros [(B & [O Bl Ok Pl]) H U F C]. split; [|done..]. by exists B. Qed.

(** *** Writes that keep the links *)

(** The reference count of [p] goes along with the number of pointers kept. *)
Lemma refs_inv_ref s refs refs' R p b r : refs_inv s refs R -> bufs s !! p = Some b ->
  0 < r < 2 ^ 16 -> r - ref b = occ p refs' - occ p refs ->
  (forall a, a ≠ p -> occ a refs' = occ a refs) ->
  refs_inv (put p (set_ref r b) s) refs' R.
Proof.
  intros [(B & I) H U F C] E Hr Hp Ha.
  assert (forall x a, link (<[p := set_ref r b]> (bufs s)) x a <-> link (bufs s) x a) as L
    by (intros; by apply link_insert with b).
  destruct (pinv_get _ _ _ _ _ I E) as (_ & _ & _ & (? & ? & _)).
  split; cbn [bufs put with_bufs].
  - exists B. by eapply pinv_upd_meta.
  - rewrite Forall_forall in *. intros x Hx. destruct (decide (x = p)) as [->|D].
    + rewrite lookup_insert_eq. eauto.
    + rewrite lookup_insert_ne by done. apply H. apply Ha in D.
      destruct (decide (x ∈ refs)) as [|N]; [done|]. apply occ_zero in N. rewrite N in D.
      apply occ_zero in D. done.
  - intros x y a Hz Hx%L Hy%L. eauto.
  - intros a c Ec.
    assert (exists n d, pred_count (bufs s) a n /\ bufs s !! a = Some d /\ ref d = occ a refs + n /\
      c = (if decide (a = p) then set_ref r d else d)) as (n & d & Hn & Ed & Er & ->).
    { destruct (decide (a = p)) as [->|D].
      - rewrite lookup_insert_eq in Ec. simplify_eq. destruct (F p b E) as (n & ? & ?). exists n, b. done.
      - rewrite lookup_insert_ne in Ec by done. destruct (F a c Ec) as (n & ? & ?). exists n, c. done. }
    exists n. split; [eapply pred_count_ext; [|exact Hn]; unfold has_pred; by setoid_rewrite L|].
    destruct (decide (a = p)) as [->|D]; cbn [ref set_ref]; [simplify_eq; lia|]. rewrite Ha by done. lia.
  - intros a c Ec.
    assert (exists d l, bufs s !! a = Some d /\ chain (bufs s) a ((a, d) :: l) 0 /\ tot_ok ((a, d) :: l) /\
      replaced p (set_ref r b) [(a, d)] = [(a, c)]) as (d & l & Ed & Hc & Ht & Hr').
    { unfold replaced. cbn [fmap list_fmap fst]. destruct (decide (a = p)) as [->|D].
      - rewrite lookup_insert_eq in Ec. simplify_eq. destruct (C p b E) as (l & ? & ?). exists b, l. done.
      - rewrite lookup_insert_ne in Ec by done. destruct (C a c Ec) as (l & ? & ?). exists c, l. done. }
    exists (replaced p (set_ref r b) l).
    assert ((a, c) :: replaced p (set_ref r b) l = replaced p (set_ref r b) ((a, d) :: l)) as ->.
    { change ((a, d) :: l) with ([(a, d)] ++ l). unfold replaced in *. rewrite fmap_app, Hr'. done. }
    split; [by eapply chain_replaced|]. by eapply tot_replaced.
Qed.

(** *** [pbuf_ref] *)

Lemma ref_refs s refs R p : refs_inv s refs R -> p ∈ refs -> Z.of_nat (length refs) < 65534 ->
  exists b, bufs s !! p = Some b /\ pbuf_ref p s = Some (put p (set_ref (ref b + 1) b) s) /\
    refs_inv (put p (set_ref (ref b + 1) b) s) (p :: refs) R.
Proof.
  intros I Hp Hb. destruct (ri_get _ _ _ _ I Hp) as [b E]. exists b. split; [done|].
  destruct (ri_nonzero _ _ _ _ _ I E) as [Hz _]. pose proof (ri_ref_bound _ _ _ _ _ I E) as Hr.
  assert (0 < ref b).
  { destruct (ri_pinv _ _ _ I) as [B I']. destruct (pinv_get _ _ _ _ _ I' E) as (_ & _ & _ & (_ & _ & ?)). lia. }
  split.
  - unfold pbuf_ref. rewrite (proj2 (Z.eqb_neq p 0)), (upd_put p _ b s E), wrap_id by cint. done.
  - eapply refs_inv_ref; [done|done|lia| |].
    + rewrite occ_cons, decide_True by done. lia.
    + intros a Ha. rewrite occ_cons, decide_False by done. lia.
Qed.

(** *** [pbuf_free] *)

(** Other pbufs stay as they are, but may have fewer references. *)
Definition shrinks (m m' : gmap Z pbuf) : Prop :=
  forall a b', m' !! a = Some b' -> exists b, m !! a = Some b /\ strip b = strip b' /\ ref b' <= ref b.

Lemma shrinks_refl m : shrinks m m.
Proof. intros a b E. exists b. by split_and!. Qed.

Lemma shrinks_trans m1 m2 m3 : shrinks m1 m2 -> shrinks m2 m3 -> shrinks m1 m3.
Proof. intros H1 H2 a b3 E3. destruct (H2 _ _ E3) as (b2 & E2 & S2 & R2). destruct (H1 _ _ E2) as (b1 & ? & ? & ?). exists b1. split_and!; [done|congruence|lia]. Qed.

Lemma shrinks_delete m p : shrinks m (delete p m).
Proof. intros a b [? E]%lookup_delete_Some. exists b. by split_and!. Qed.

Lemma shrinks_ref m p b r : m !! p = Some b -> r <= ref b -> shrinks m (<[p := set_ref r b]> m).
Proof.
  intros E Hr a c Ec. destruct (decide (a = p)) as [->|D].
  - rewrite lookup_insert_eq in Ec. simplify_eq. exists b. by split_and!.
  - rewrite lookup_insert_ne in Ec by done. exists c. by split_and!.
Qed.

(** The last reference goes: the pbuf is given back and the reference it had to
    its successor is now ours. *)
Lemma release_refs s refs R p b : refs_inv s (p :: refs) R -> bufs s !! p = Some b -> ref b = 1 ->
  exists s', release p (type b) s = Some s' /\ bufs s' = delete p (bufs s) /\ bytes s' = bytes s /\
    refs_inv s' (if decide (next b = 0) then refs else next b :: refs) R.
Proof.
  intros I E Hr. pose proof I as [(B & I') H U F C].
  destruct (release_spec s B R p b I' E) as (s' & Es & I'' & Eb & Ey). exists s'. do 3 (split; [done|]).
  destruct (F p b E) as (n & Hn & Href). rewrite occ_cons, decide_True in Href by done.
  pose proof (occ_nonneg p refs) as Hocc.
  assert (~ has_pred (bufs s) p /\ occ p refs = 0) as [Hnp Ho%occ_zero].
  { destruct Hn as [[? ->]|[? ->]]; [lia|]. split; [done|lia]. }
  assert (next b ≠ p) as Hnext by (intros Hn'; apply Hnp; by exists p, b).
  destruct (ri_nonzero _ _ _ _ _ I E) as [Hpz _].
  assert (next b ≠ 0 -> exists d, bufs s !! next b = Some d) as Hd.
  { intros Hz. destruct (C p b E) as (l & (_ & _ & _ & Hc) & _). destruct l as [|[c d] l]; [done|].
    destruct Hc as (-> & _ & ? & _). eauto. }
  assert (forall x a, link (delete p (bufs s)) x a <-> link (bufs s) x a /\ x ≠ p) as L.
  { intros x a. unfold link. setoid_rewrite lookup_delete_Some. naive_solver. }
  split; rewrite ?Eb.
  - by exists (delete p B).
  - apply Forall_cons in H as [_ H]. rewrite Forall_forall in *.
    assert (forall x, x ∈ refs -> is_Some (delete p (bufs s) !! x)) as H'.
    { intros x Hx. rewrite lookup_delete_ne by (intros <-; done). by apply H. }
    destruct (decide (next b = 0)) as [|Hz]; [done|].
    intros x [->|Hx]%elem_of_cons; [|by apply H']. rewrite lookup_delete_ne by done.
    destruct (Hd Hz) as [d ->]. eauto.
  - intros x y a Ha [Hx _]%L [Hy _]%L. eauto.
  - intros a c [Hap Ec]%lookup_delete_Some. destruct (F a c Ec) as (k & Hk & Hrc).
    rewrite occ_cons, decide_False in Hrc by done.
    destruct (decide (a = next b)) as [->|Hab].
    + destruct (decide (next b = 0)) as [Hz|Hz]; [destruct (ri_nonzero _ _ _ _ _ I Ec); lia|].
      exists 0. rewrite occ_cons, decide_True by done. split.
      * right. split; [|done]. intros (x & [Hx Hxp]%L). apply Hxp. apply (U x p (next b) Hz Hx). by exists b.
      * destruct Hk as [[_ ->]|[Hk _]]; [lia|]. exfalso. apply Hk. by exists p, b.
    + exists k. split.
      * eapply pred_count_ext; [|exact Hk]. unfold has_pred. setoid_rewrite L. split; [|naive_solver].
        intros (x & Hx). exists x. split; [done|]. intros ->. destruct Hx as (b2 & ? & ?). by simplify_eq.
      * destruct (decide (next b = 0)); [lia|]. rewrite occ_cons, decide_False by done. lia.
  - intros a c [Hap Ec]%lookup_delete_Some. destruct (C a c Ec) as (l & Hc & Ht). exists l. split; [|done].
    eapply chain_frame; [exact Hc|]. intros x Hx. apply lookup_delete_ne. intros <-.
    rewrite fmap_cons in Hx. apply elem_of_cons in Hx as [->|Hx]; [done|].
    apply Hnp. by eapply chain_pred.
Qed.

Lemma free_loop_refs fuel : forall s refs R p n, (size (bufs s) < fuel)%nat -> refs_inv s (p :: refs) R ->
  exists k s', free_loop fuel p n s = Some (k, s') /\ refs_inv s' refs R /\ bytes s' = bytes s /\
    shrinks (bufs s) (bufs s').
Proof.
  induction fuel as [|fuel IH]; intros s refs R p n Hf I; [lia|]. cbn [free_loop].
  destruct (ri_get _ _ _ p I ltac:(set_solver)) as [b E]. destruct (ri_nonzero _ _ _ _ _ I E) as [Hz _].
  rewrite (proj2 (Z.eqb_neq p 0)), (E : get p s = _) by lia. cbn [mbind option_bind].
  rewrite (upd_put p _ b s E). cbn [mbind option_bind].
  assert (0 < ref b < 2 ^ 16).
  { destruct (ri_pinv _ _ _ I) as [B I']. destruct (pinv_get _ _ _ _ _ I' E) as (_ & _ & _ & (_ & _ & ?)). lia. }
  rewrite wrap_id by cint. destruct (Z.eqb_spec (ref b - 1) 0) as [H1|H1].
  - rewrite release_put. destruct (release_refs s refs R p b I E ltac:(lia)) as (s1 & E1 & Eb1 & Ey1 & I1).
    rewrite E1. cbn [mbind option_bind].
    assert (S (size (bufs s1)) = size (bufs s)) as Hs.
    { rewrite Eb1, map_size_delete, E. cut (size (bufs s) ≠ 0)%nat; [lia|].
      rewrite map_size_non_empty_iff. intros Em. by rewrite Em in E. }
    destruct (decide (next b = 0)) as [Hnz|Hnz].
    + rewrite Hnz. destruct fuel as [|fuel]; [lia|]. cbn [free_loop]. rewrite Z.eqb_refl.
      eexists _, s1. split; [done|]. split; [done|]. split; [done|]. rewrite Eb1. apply shrinks_delete.
    + destruct (IH s1 refs R (next b) (u8 (n + 1)) ltac:(lia) I1) as (k & s2 & E2 & I2 & Ey2 & S2).
      exists k, s2. split; [done|]. split; [done|]. split; [congruence|].
      eapply shrinks_trans; [|exact S2]. rewrite Eb1. apply shrinks_delete.
  - eexists _, _. split; [done|]. split; [|split; [done|apply shrinks_ref; [done|lia]]].
    eapply refs_inv_ref; [exact I|done|lia| |].
    + rewrite occ_cons, decide_True by done. lia.
    + intros a Ha. rewrite occ_cons, decide_False by done. lia.
Qed.

Lemma free_refs s refs R p : refs_inv s (p :: refs) R ->
  exists k s', pbuf_free p s = Some (k, s') /\ refs_inv s' refs R /\ bytes s' = bytes s /\
    shrinks (bufs s) (bufs s').
Proof.
  intros I. destruct (ri_get _ _ _ p I ltac:(set_solver)) as [b E].
  destruct (ri_nonzero _ _ _ _ _ I E) as [Hz _]. unfold pbuf_free.
  rewrite (proj2 (Z.eqb_neq p 0)) by lia. apply free_loop_refs; [|done]. unfold chain_fuel. lia.
Qed.

(** *** [pbuf_alloc] *)

(** A fresh chain next to the pbufs there were. *)
Lemma extend_refs s s' B' refs R p b l : refs_inv s refs R -> pinv s' B' R ->
  chain (bufs s') p ((p, b) :: l) 0 -> extends (bufs s) (bufs s') ((p, b) :: l) ->
  Forall (fun x => ref x.2 = 1) ((p, b) :: l) -> tot_ok ((p, b) :: l) -> refs_inv s' (p :: refs) R.
Proof.
  intros I I' Hc X F Ht. pose proof I as [_ H U G C]. set (L := (p, b) :: l) in *.
  assert (forall a, a ∈ L.*1 -> bufs s !! a = None) as Fresh.
  { intros a Ha. specialize (X a). by rewrite decide_True in X. }
  assert (forall a, a ∉ L.*1 -> bufs s' !! a = bufs s !! a) as Old.
  { intros a Ha. specialize (X a). by rewrite decide_False in X. }
  assert (forall a c, bufs s !! a = Some c -> a ∉ L.*1) as OldIn.
  { intros a c Ea Ha. rewrite Fresh in Ea by done. done. }
  assert (forall x a, a ≠ 0 -> link (bufs s') x a ->
    ((x ∈ L.*1) /\ (a ∈ l.*1)) \/ ((x ∉ L.*1) /\ (a ∉ L.*1) /\ link (bufs s) x a)) as Lk.
  { intros x a Hz (c & Ec & <-). destruct (decide (x ∈ L.*1)) as [Hx|Hx].
    - left. split; [done|]. apply list_elem_of_fmap in Hx as ([x' d] & -> & Hin). cbn [fst] in *.
      apply list_elem_of_split in Hin as (l1 & l2 & HL). rewrite HL in Hc.
      apply chain_app in Hc as (q & H1 & (-> & _ & Ed & H2)). assert (d = c) as -> by congruence.
      destruct l2 as [|[y e] l2]; [done|]. destruct H2 as (-> & _).
      unfold L in HL. destruct l1 as [|z l1]; cbn [app] in HL; injection HL; intros.
      + subst l. set_solver.
      + subst l. rewrite fmap_app, !fmap_cons. apply elem_of_app. right. apply elem_of_cons. right. by left.
    - right. split; [done|]. rewrite Old in Ec by done. split; [|by exists c].
      destruct (C x c Ec) as (l0 & (_ & _ & _ & Hc0) & _). destruct l0 as [|[y e] l0]; [done|].
      destruct Hc0 as (-> & _ & Ey & _). by eapply OldIn. }
  assert (forall x a, link (bufs s) x a -> link (bufs s') x a) as Lk'.
  { intros x a (c & Ec & <-). exists c. split; [|done]. rewrite Old; [done|by eapply OldIn]. }
  pose proof (chain_nodup _ _ _ Hc) as N.
  split.
  - by exists B'.
  - constructor; [destruct Hc as (_ & _ & -> & _); eauto|]. eapply Forall_impl; [exact H|].
    intros a [c Ec]. rewrite Old; [eauto|by eapply OldIn].
  - intros x y a Hz Hx Hy. destruct (Lk x a Hz Hx) as [[Hxl Ha]|(_ & Ha & Hx')],
      (Lk y a Hz Hy) as [[Hyl Hal]|(_ & Ha' & Hy')].
    + destruct Hx as (c & Ec & <-), Hy as (d & Ed & En).
      apply list_elem_of_fmap in Hxl as ([x' c'] & -> & Hinx), Hyl as ([y' d'] & -> & Hiny). cbn [fst] in *.
      destruct (chain_elem _ _ _ _ _ _ Hc Hinx) as [E1 _]. destruct (chain_elem _ _ _ _ _ _ Hc Hiny) as [E2 _].
      assert (c' = c) as -> by congruence. assert (d' = d) as -> by congruence. by eapply chain_next_inj.
    + exfalso. apply Ha'. by apply list_elem_of_further.
    + exfalso. apply Ha. by apply list_elem_of_further.
    + eauto.
  - intros a c Ec. destruct (decide (a ∈ L.*1)) as [Ha|Ha].
    + assert (ref c = 1) as Hr.
      { apply list_elem_of_fmap in Ha as ([a' c'] & -> & Hin). cbn [fst] in *.
        destruct (chain_elem _ _ _ _ _ _ Hc Hin) as [E' _]. assert (c' = c) as -> by congruence.
        rewrite Forall_forall in F. by apply (F (a', c)). }
      assert (occ a refs = 0) as Ho.
      { apply occ_zero. intros Hin. destruct (ri_get _ _ _ _ I Hin) as [d Ed]. by eapply OldIn. }
      destruct (decide (a = p)) as [->|Hap].
      * exists 0. rewrite occ_cons, decide_True, Ho by done. split; [|lia]. right. split; [|done].
        intros (x & Hx). destruct (Lk x p ltac:(by destruct Hc as (_ & ? & _)) Hx) as [[_ Hin]|(_ & Hin & _)].
        -- unfold L in N. rewrite fmap_cons in N. inversion N. done.
        -- apply Hin. set_solver.
      * exists 1. rewrite occ_cons, decide_False, Ho by done. split; [|lia]. left. split; [|done].
        eapply chain_pred; [exact Hc|]. unfold L in Ha. rewrite fmap_cons in Ha. set_solver.
    + rewrite Old in Ec by done. destruct (G a c Ec) as (n & Hn & Hr). exists n. split.
      * eapply pred_count_ext; [|exact Hn]. split; intros (x & Hx); exists x; [by apply Lk'|].
        destruct (Lk x a) as [[_ Hin]|(_ & _ & ?)]; [|done| |done].
        -- pose proof (ri_nonzero _ _ _ _ _ I Ec). lia.
        -- exfalso. apply Ha. set_solver.
      * rewrite occ_cons, decide_False by set_solver. lia.
  - intros a c Ec. destruct (decide (a ∈ L.*1)) as [Ha|Ha].
    + apply list_elem_of_fmap in Ha as ([a' c'] & -> & Hin). cbn [fst] in *.
      destruct (chain_elem _ _ _ _ _ _ Hc Hin) as [E' _]. assert (c' = c) as -> by congruence.
      apply list_elem_of_split in Hin as (l1 & l2 & HL). rewrite HL in Hc, Ht.
      apply chain_app in Hc as (q & _ & H2). destruct H2 as (-> & H2). exists l2. split; [done|].
      by eapply tot_ok_app.
    + rewrite Old in Ec by done. destruct (C a c Ec) as (l0 & Hc0 & Ht0). exists l0. split; [|done].
      eapply chain_frame; [exact Hc0|]. intros x Hx. apply Old.
      apply list_elem_of_fmap in Hx as ([x' d] & -> & Hin). destruct (chain_elem _ _ _ _ _ _ Hc0 Hin) as [E' _].
      by eapply OldIn.
Qed.

Lemma alloc_refs s refs R layer length t : refs_inv s refs R -> 0 <= length < 2 ^ 16 ->
  exists p s', pbuf_alloc layer length t s = Some (p, s') /\ bytes s' = bytes s /\
    ((p = 0 /\ bufs s' = bufs s /\ refs_inv s' refs R) \/
     (exists b l, chain (bufs s') p ((p, b) :: l) 0 /\ extends (bufs s) (bufs s') ((p, b) :: l) /\
      Forall (fun x => fresh_pbuf t x.2) ((p, b) :: l) /\ tot_ok ((p, b) :: l) /\ tot_len b = length /\
      (t ≠ PBUF_POOL -> l = []) /\ refs_inv s' (p :: refs) R)).
Proof.
  intros I Hl. pose proof I as [(B & I') _ _ _ _].
  destruct (alloc_any s B R layer length t I' Hl) as (p & s' & B' & E & Ey & I'' & H).
  exists p, s'. split; [done|]. split; [done|]. destruct H as [[-> Eb]|(b & l & Hc & X & F & Ht & Hlen & Hp & _)].
  - left. split; [done|]. split; [done|]. destruct I as [_ H U G C].
    split; rewrite ?Eb; try done. by exists B'.
  - right. exists b, l. do 6 (split; [done|]). eapply extend_refs; eauto.
    eapply Forall_impl; [exact F|]. by intros x (_ & ? & _).
Qed.

(** *** [pbuf_header] *)

(** The first pbuf of a chain changes its length. *)
Lemma head_refs s refs R p b b' B : refs_inv s refs R -> bufs s !! p = Some b -> ~ has_pred (bufs s) p ->
  next b' = next b -> ref b' = ref b -> tot_len b' - len b' = tot_len b - len b -> 0 <= len b' ->
  tot_len b' < 2 ^ 16 -> pinv (put p b' s) B R -> refs_inv (put p b' s) refs R.
Proof.
  intros I E Hnp En Er Ht Hl Htl I'. pose proof I as [_ H U G C].
  assert (forall x a, link (<[p := b']> (bufs s)) x a <-> link (bufs s) x a) as L
    by (intros; by apply link_insert with b).
  split; cbn [bufs put with_bufs].
  - by exists B.
  - eapply Forall_impl; [exact H|]. intros x Hx. apply lookup_insert_is_Some'. by right.
  - intros x y a Hz Hx%L Hy%L. eauto.
  - intros a c Ec.
    assert (exists n, pred_count (bufs s) a n /\ ref c = occ a refs + n) as (n & Hn & Hc).
    { destruct (decide (a = p)) as [->|D].
      - rewrite lookup_insert_eq in Ec. simplify_eq. rewrite Er. eauto.
      - rewrite lookup_insert_ne in Ec by done. eauto. }
    exists n. split; [|done]. eapply pred_count_ext; [|exact Hn]. unfold has_pred. by setoid_rewrite L.
  - intros a c Ec. destruct (decide (a = p)) as [->|D].
    + rewrite lookup_insert_eq in Ec. simplify_eq. destruct (C p b E) as (l & Hc & Hok). exists l.
      destruct Hc as (_ & Hz & _ & Hc). destruct Hok as (? & ? & ? & ?). split.
      * cbn [chain]. rewrite lookup_insert_eq. do 3 (split; [done|]). rewrite En.
        eapply chain_frame; [exact Hc|]. intros x Hx. apply lookup_insert_ne. intros <-.
        apply Hnp. destruct (C p b E) as (l' & Hc' & _). pose proof Hc' as (_ & _ & _ & Hc'').
        rewrite (chain_det _ _ _ _ Hc Hc'') in Hx. by eapply chain_pred.
      * cbn [tot_ok]. split; [lia|]. split; [done|]. split; [done|done].
    + rewrite lookup_insert_ne in Ec by done. destruct (C a c Ec) as (l & Hc & Hok). exists l. split; [|done].
      eapply chain_frame; [exact Hc|]. intros x Hx. apply lookup_insert_ne. intros <-.
      rewrite fmap_cons in Hx. apply elem_of_cons in Hx as [->|Hx]; [done|]. apply Hnp. by eapply chain_pred.
Qed.

Lemma header_refs s refs R p inc b : refs_inv s refs R -> bufs s !! p = Some b ->
  ~ has_pred (bufs s) p -> in_s 16 inc -> inc ≠ 0 -> tot_len b + inc < 2 ^ 16 ->
  inc <= payload b -> payload b + len b < 2 ^ 32 ->
  if header_fits p inc b then
    pbuf_header p inc s = Some (0, put p (header_moved inc b) s) /\
    refs_inv (put p (header_moved inc b) s) refs R
  else pbuf_header p inc s = Some (1, s).
Proof.
  intros I E Hnp Hi Hz Ht Hp1 Hp2. pose proof I as [(B & I') _ _ _ C].
  destruct (C p b E) as (l & _ & Hok). destruct Hok as (Hok & Hl & Htl & Hok').
  pose proof (tot_nonneg _ Hok'). destruct (ri_nonzero _ _ _ _ _ I E) as [Hpz _].
  pose proof (header_spec s B R p inc b I' E ltac:(lia) Hi Hz ltac:(lia) Ht Hp1 Hp2) as H'.
  destruct (header_fits p inc b) eqn:Hf; [|done]. destruct H' as [H1 H2]. split; [done|].
  unfold header_fits in Hf. apply andb_true_iff in Hf as [Hf%Z.leb_le _].
  eapply head_refs; [done|done|done|done|done| | |exact Ht|exact H2];
    unfold header_moved; cbn [len tot_len set_tot_len set_len set_payload]; lia.
Qed.

(** *** [pbuf_copy] *)

(** Whatever the chains, [pbuf_copy] returns, and writes only data of the
    destination. *)
Lemma copy_loop_safe fuel : forall pt bt lt pf bf lf ot fo s,
  (length lt + length lf < fuel)%nat ->
  chain (bufs s) pt ((pt, bt) :: lt) 0 -> chain (bufs s) pf ((pf, bf) :: lf) 0 ->
  map_Forall (fun _ b => pbuf_ok b) (bufs s) -> 0 <= ot <= len bt -> 0 <= fo <= len bf ->
  exists e m', copy_loop fuel pt pf ot fo s = Some (e, with_bytes m' s) /\
    forall x, x ∉ addrs ((pt, bt) :: lt) -> m' !! x = bytes s !! x.
Proof.
  induction fuel as [|fuel IH]; intros pt bt lt pf bf lf ot fo s Hf Hct Hcf Hok Hot Hfo; [lia|].
  cbn [copy_loop]. pose proof Hct as (_ & _ & Et & Hct'). pose proof Hcf as (_ & _ & Ef & Hcf').
  rewrite (Et : get pt s = _), (Ef : get pf s = _). cbn [mbind option_bind].
  destruct (Hok _ _ Et) as (Lt & _ & _). destruct (Hok _ _ Ef) as (Lf & _ & _).
  set (n := if len bf - fo <=? len bt - ot then _ else _).
  assert (n = Z.min (len bf - fo) (len bt - ot)) as En.
  { unfold n. rewrite !wrap_id by cint. destruct (Z.leb_spec (len bf - fo) (len bt - ot)); lia. }
  rewrite (wrap_id 16 (ot + n)), (wrap_id 16 (fo + n)) by cint.
  set (m1 := write_bytes _ _ _).
  assert (forall x, x ∉ addrs ((pt, bt) :: lt) -> m1 !! x = bytes s !! x) as F1.
  { intros x Hx. unfold m1. rewrite write_bytes_wr. apply wr_lookup_ne.
    rewrite addrs_cons in Hx. rewrite read_bytes_length, elem_of_seqZ. intros Hin. apply Hx.
    apply elem_of_app. left. apply elem_of_seqZ. lia. }
  assert (forall e : Z, exists e' m', Some (e, with_bytes m1 s) = Some (e', with_bytes m' s) /\
    forall x, x ∉ addrs ((pt, bt) :: lt) -> m' !! x = bytes s !! x) as Done by (intros e; by exists e, m1).
  destruct (if len bf <=? fo + n then _ else _) as [qf fo'] eqn:Df.
  destruct (if ot + n =? len bt then _ else _) as [[qt ot'] err] eqn:Dt.
  destruct err; [by apply Done|].
  assert ((qf = 0 \/ exists d l', chain (bufs s) qf ((qf, d) :: l') 0 /\ 0 <= fo' <= len d /\
    (length l' + (if (len bf <=? fo + n)%Z then 1 else 0) = length lf)%nat)) as Hqf.
  { destruct (len bf <=? fo + n) eqn:Dl; simplify_eq.
    - destruct lf as [|[c d] lf]; [by left|]. right. pose proof Hcf' as (Hn & _ & Ed & _). rewrite Hn in Hcf' |- *.
      destruct (Hok _ _ Ed) as (Hd & _). exists d, lf. split; [done|]. cbn [length]. split; [cint|lia].
    - right. exists bf, lf. split; [done|]. apply Z.leb_gt in Dl. lia. }
  assert ((qt = 0 \/ exists d l', chain (bufs s) qt ((qt, d) :: l') 0 /\ 0 <= ot' <= len d /\
    (length l' + (if (ot + n =? len bt)%Z then 1 else 0) = length lt)%nat /\
    forall x, x ∈ addrs ((qt, d) :: l') -> x ∈ addrs ((pt, bt) :: lt))) as Hqt.
  { destruct (ot + n =? len bt) eqn:Dl; simplify_eq.
    - destruct lt as [|[c d] lt]; [by left|]. right. pose proof Hct' as (Hn & _ & Ed & _). rewrite Hn in Hct' |- *.
      destruct (Hok _ _ Ed) as (Hd & _). exists d, lt. split; [done|]. cbn [length].
      split; [cint|]. split; [lia|]. intros x Hx. rewrite addrs_cons. apply elem_of_app. by right.
    - right. exists bt, lt. apply Z.eqb_neq in Dl. split; [done|]. split; [lia|]. split; [lia|done]. }
  assert (qf ≠ 0 -> qt ≠ 0) as Hq.
  { destruct (ot + n =? len bt) eqn:Dl; simplify_eq.
    - intros Hz. match goal with H : negb _ = false |- _ => rename H into Hn end.
      apply negb_false_iff, orb_true_iff in Hn as [Hn|Hn].
      + by apply negb_true_iff, Z.eqb_neq in Hn.
      + by apply Z.eqb_eq in Hn.
    - intros _. by destruct Hct as (_ & ? & _). }
  assert (forall q, q = 0 \/ is_Some (bufs s !! q) -> exists v, (if q =? 0 then Some false else
    b ← get q (with_bytes m1 s); Some ((len b =? tot_len b) && negb (next b =? 0))) = Some v) as Hv.
  { intros q [->|[b Eb]]; [by eexists|]. destruct (q =? 0); [by eexists|].
    rewrite (Eb : get q (with_bytes m1 s) = _). by eexists. }
  destruct (Hv qf) as [v1 ->]; [destruct Hqf as [|(d & l' & (_ & _ & ? & _) & _)]; eauto|].
  cbn [mbind option_bind]. destruct v1; [by apply Done|].
  destruct (Hv qt) as [v2 ->]; [destruct Hqt as [|(d & l' & (_ & _ & ? & _) & _)]; eauto|].
  cbn [mbind option_bind]. destruct v2; [by apply Done|].
  destruct (Z.eqb_spec qf 0) as [|Hz]; [by apply Done|].
  destruct Hqf as [|(df & lf' & Cf & Of & Lf')]; [done|].
  destruct Hqt as [Hz'|(dt & lt' & Ct & Ot & Lt' & Sub)]; [by destruct (Hq Hz)|].
  destruct (IH qt dt lt' qf df lf' ot' fo' (with_bytes m1 s)) as (e & m' & E & F); try done.
  { assert (fo + n = len bf \/ ot + n = len bt) as [Hk|Hk] by lia.
    - rewrite (proj2 (Z.leb_le (len bf) (fo + n))) in Lf' by lia. destruct (_ =? _) in Lt'; lia.
    - rewrite (proj2 (Z.eqb_eq _ _) Hk) in Lt'. destruct (_ <=? _) in Lf'; lia. }
  exists e, m'. split; [exact E|]. intros x Hx. rewrite F; [by apply F1|]. intros Hx'. by apply Hx, Sub.
Qed.

Lemma copy_refs s refs R pt bt lt pf bf lf : refs_inv s refs R ->
  chain (bufs s) pt ((pt, bt) :: lt) 0 -> chain (bufs s) pf ((pf, bf) :: lf) 0 ->
  exists e m', pbuf_copy pt pf s = Some (e, with_bytes m' s) /\ refs_inv (with_bytes m' s) refs R /\
    forall x, x ∉ addrs ((pt, bt) :: lt) -> m' !! x = bytes s !! x.
Proof.
  intros I Hct Hcf. unfold pbuf_copy. pose proof Hct as (_ & Hzt & Et & _). pose proof Hcf as (_ & Hzf & Ef & _).
  rewrite (proj2 (Z.eqb_neq pt 0)), (proj2 (Z.eqb_neq pf 0)), (Et : get pt s = _), (Ef : get pf s = _) by done.
  cbn [orb mbind option_bind]. pose proof I as [(B & [_ _ Ok _]) _ _ _ _].
  destruct (tot_len bt <? tot_len bf).
  { exists ERR_ARG, (bytes s). split; [by destruct s|]. split; [by apply refs_inv_bytes|done]. }
  pose proof (chain_size _ _ _ Hct) as S1. pose proof (chain_size _ _ _ Hcf) as S2. cbn [length] in S1, S2.
  destruct (Ok _ _ Et) as (? & _ & _). destruct (Ok _ _ Ef) as (? & _ & _).
  destruct (copy_loop_safe (2 * chain_fuel s) pt bt lt pf bf lf 0 0 s) as (e & m' & E & F); try done;
    [unfold chain_fuel; lia|cint|cint|].
  exists e, m'. split; [exact E|]. split; [by apply refs_inv_bytes|done].
Qed.

(** *** A packet of its own *)

(** The predecessor of a pbuf inside a chain. *)
Lemma chain_has_prev m : forall l p c, chain m p l 0 -> c ∈ l.*1 -> c = p \/ exists y, y ∈ l.*1 /\ link m y c.
Proof.
  induction l as [|[a b] l IH]; intros p c Hc Hin; [set_solver|]. pose proof Hc as (-> & _ & E & Hl).
  rewrite fmap_cons in Hin. apply elem_of_cons in Hin as [->|Hin]; [by left|].
  right. destruct (IH (next b) c Hl Hin) as [->|(y & Hy & L)].
  - exists a. split; [rewrite fmap_cons; by left|]. by exists b.
  - exists y. split; [rewrite fmap_cons; by right|done].
Qed.

(** A chain that starts outside of one that nothing points to stays outside. *)
Lemma chain_outside m p l : chain m p l 0 -> (forall x y c, c ≠ 0 -> link m x c -> link m y c -> x = y) ->
  ~ has_pred m p -> forall la a, chain m a la 0 -> a ∉ l.*1 -> la.*1 ## l.*1.
Proof.
  intros Hc U Hp. induction la as [|[c d] la IH]; intros a Ha Hn; [set_solver|].
  pose proof Ha as (-> & Hz & E & Hl). rewrite fmap_cons. cbn [fst]. intros x [->|Hx]%elem_of_cons Hx'; [done|].
  destruct la as [|[e f] la]; [set_solver|]. pose proof Hl as (En & Hez & _).
  apply (IH (next d) Hl) with x; [|done|done]. rewrite En. intros He.
  destruct (chain_has_prev m l p e Hc He) as [->|(y & Hy & L)].
  - apply Hp. by exists c, d.
  - apply Hn. replace c with y; [done|]. eapply (U y c e Hez L). by exists d.
Qed.

(** All pbufs of a packet with one reference each are the owner's alone. *)
Lemma alone s p refs R l : refs_inv s (p :: refs) R -> chain (bufs s) p l 0 -> p ≠ 0 ->
  Forall (fun x => ref x.2 = 1) l ->
  ~ has_pred (bufs s) p /\ (p ∉ refs) /\ (forall a, a ∈ refs -> a ∉ l.*1) /\
  (forall a la, a ∈ refs -> chain (bufs s) a la 0 -> la.*1 ## l.*1).
Proof.
  intros I Hc Hz F. pose proof I as [_ _ U G _].
  assert (~ has_pred (bufs s) p /\ occ p refs = 0) as [Hp Ho].
  { destruct l as [|[a b] l]; [done|]. pose proof Hc as (<- & _ & E & _). apply Forall_cons in F as [Hr _]. cbn in Hr.
    destruct (G p b E) as (n & Hn & Hb). rewrite occ_cons, decide_True in Hb by done. pose proof (occ_nonneg p refs).
    destruct Hn as [[? ->]|[? ->]]; [lia|]. split; [done|lia]. }
  assert (forall a, a ∈ refs -> a ∉ l.*1) as Hout.
  { intros a Ha Hin. pose proof Hin as ([x b] & -> & Hb)%list_elem_of_fmap. cbn [fst] in *.
    destruct (chain_elem _ _ _ _ _ _ Hc Hb) as [E Hxz]. rewrite Forall_forall in F. pose proof (F _ Hb) as Hr. cbn in Hr.
    destruct (chain_has_prev _ _ _ _ Hc Hin) as [->|(y & _ & L)]; [by apply occ_zero in Ho|].
    destruct (G x b E) as (n & Hn & Hbr). rewrite occ_cons in Hbr.
    assert (occ x refs ≠ 0) by (intros Hz'; by apply occ_zero in Hz'). pose proof (occ_nonneg x refs).
    destruct Hn as [[_ ->]|[Hn _]]; [|apply Hn; by exists y]. destruct (decide (p = x)); lia. }
  split; [done|]. split; [by apply occ_zero|]. split; [done|].
  intros a la Ha Hca. eapply chain_outside; [exact Hc|exact U|done|exact Hca|auto].
Qed.

Lemma tot_ok_suffix l1 l2 : tot_ok (l1 ++ l2) -> tot_ok l2.
Proof. induction l1 as [|[a b] l1 IH]; [done|]. cbn [app tot_ok]. intros (_ & _ & _ & H). auto. Qed.

(** [pbuf_realloc] on such a packet. *)
Lemma realloc_refs s refs R p l n : refs_inv s (p :: refs) R -> chain (bufs s) p l 0 -> p ≠ 0 ->
  Forall (fun x => ref x.2 = 1) l -> tot_ok l -> 0 <= n < tot l ->
  exists s' l' l1 l2, pbuf_realloc p n s = Some s' /\ bytes s' = bytes s /\ refs_inv s' (p :: refs) R /\
    chain (bufs s') p l' 0 /\ tot_ok l' /\ tot l' = n /\ l = l1 ++ l2 /\ Forall2 (trimmed n) l1 l' /\ (n = 0 -> length l' = 1%nat) /\
    (forall m, contents m l' = take (Z.to_nat n) (contents m l)) /\
    (forall c, c ∉ l.*1 -> bufs s' !! c = bufs s !! c).
Proof.
  intros I Hc Hz F Hok Hn. destruct (alone _ _ _ _ _ I Hc Hz F) as (Hnp & Hpr & Hout & Hdis).
  pose proof I as [(B & Ip) H U G C].
  assert (l ≠ []) as Hne by (intros ->; by cbn [tot] in Hn; lia).
  destruct (realloc_chain s B R p l n Ip Hne Hc Hok Hn)
    as (s' & B' & l' & E & Ey & I' & Hc' & Hok' & Ht & (l1 & l2 & El & Htr & Hz0 & Hfr) & Hm & Hf).
  exists s', l', l1, l2. do 2 (split; [done|]). split; [|done].
  assert (l1.*1 = l'.*1) as Ef.
  { clear -Htr. induction Htr as [|x y l0 l0' (E & _) _ IH]; [done|]. rewrite !fmap_cons. f_equal; done. }
  assert (Forall (fun x => ref x.2 = 1) l2) as F2 by (rewrite El in F; by apply Forall_app in F as [_ ?]).
  specialize (Hfr F2).
  assert (forall a b', bufs s' !! a = Some b' -> ((a ∉ l.*1) /\ bufs s !! a = Some b') \/
    (a ∈ l'.*1 /\ exists b, (a, b) ∈ l /\ trimmed n (a, b) (a, b') /\ (a, b') ∈ l')) as Cases.
  { intros a b' Ea. destruct (decide (a ∈ l.*1)) as [Hin|Hin]; [|left; by rewrite <-Hf].
    right. rewrite El, fmap_app, elem_of_app in Hin. destruct Hin as [Hin|Hin]; [|by rewrite Hfr in Ea].
    rewrite <-Ef. split; [done|]. apply list_elem_of_fmap in Hin as ([x b] & -> & Hb). cbn [fst] in *.
    apply list_elem_of_lookup in Hb as (i & Hi). destruct (Forall2_lookup_l _ _ _ _ _ Htr Hi) as ([y d] & Hy & T).
    pose proof T as (Exy & _). cbn [fst] in Exy. subst y.
    assert (d = b') as -> by (apply list_elem_of_lookup_2 in Hy; destruct (chain_elem _ _ _ _ _ _ Hc' Hy); congruence).
    exists b. split; [rewrite El; apply elem_of_app; left; by eapply list_elem_of_lookup_2|]. split; [done|by eapply list_elem_of_lookup_2]. }
  assert (forall x a, a ≠ 0 -> link (bufs s') x a -> link (bufs s) x a) as Lk.
  { intros x a Ha (b' & Eb & Hn'). destruct (Cases x b' Eb) as [[_ Eb']|(_ & b & Hb & T & _)]; [by exists b'|].
    destruct (chain_elem _ _ _ _ _ _ Hc Hb) as [Eb0 _]. destruct T as (_ & _ & _ & _ & _ & _ & [[Hx _]|[Hx _]]); cbn [snd] in Hx; [|congruence].
    exists b. split; [done|congruence]. }
  assert (forall a, a ∉ l.*1 -> a ≠ 0 -> has_pred (bufs s) a -> has_pred (bufs s') a) as Lk'.
  { intros a Ha Haz (x & b & Eb & Hx). exists x, b. split; [|done]. rewrite Hf; [done|]. intros Hin. apply Ha.
    apply list_elem_of_fmap in Hin as ([y d] & -> & Hd). cbn [fst] in *.
    destruct (chain_elem _ _ _ _ _ _ Hc Hd) as [Ed _]. assert (d = b) as -> by congruence.
    apply list_elem_of_split in Hd as (k1 & k2 & ->). apply chain_app in Hc as (q & _ & Hq). destruct Hq as (_ & _ & _ & Hq).
    destruct k2 as [|[e f] k2]; [cbn [chain] in Hq; congruence|]. destruct Hq as (Hq & _). rewrite fmap_app, !fmap_cons. cbn [fst].
    rewrite <-Hx, Hq. set_solver. }
  split; [by exists B'| | | |].
  - apply Forall_cons. split.
    + destruct l' as [|[a b] l']; [cbn [chain] in Hc'; congruence|]. destruct Hc' as (-> & _ & -> & _). done.
    + rewrite Forall_forall in *. intros a Ha. rewrite Hf by auto. apply H. by right.
  - intros x y a Ha Lx Ly. eapply U; [exact Ha|by apply Lk|by apply Lk].
  - intros a b' Ea. destruct (Cases a b' Ea) as [[Hin Ea0]|(Hin & b & Hb & T & Hb')].
    + destruct (G a b' Ea0) as (k & Hk & ->). exists k. split; [|done]. eapply pred_count_ext; [|exact Hk].
      assert (a ≠ 0) by (pose proof (ri_nonzero _ _ _ _ _ I Ea0); lia).
      split; [by apply Lk'|]. intros (x & Lx). exists x. by apply Lk.
    + destruct (chain_elem _ _ _ _ _ _ Hc Hb) as [Eb Haz]. destruct (G a b Eb) as (k & Hk & Hr).
      exists k. destruct T as (_ & _ & _ & _ & Hrr & _). cbn [snd] in Hrr. split; [|congruence].
      destruct (decide (a = p)) as [->|Hap].
      * destruct Hk as [[? _]|[_ ->]]; [done|]. right. split; [|done]. intros (x & Lx). apply Hnp. exists x. by apply Lk.
      * destruct (chain_has_prev _ _ _ _ Hc' Hin) as [->|(y & _ & L)]; [done|].
        assert (has_pred (bufs s) a) by (exists y; by apply Lk). destruct Hk as [[_ ->]|[? _]]; [|done]. left. split; [|done]. by exists y.
  - intros a b' Ea. destruct (Cases a b' Ea) as [[Hin Ea0]|(Hin & b & Hb & T & Hb')].
    + destruct (C a b' Ea0) as (la & Hla & Htl). exists la. split; [|done].
      eapply chain_frame; [exact Hla|]. intros x Hx. apply Hf.
      pose proof (chain_outside _ _ _ Hc U Hnp _ _ Hla Hin) as D. intros Hx'. exact (D x Hx Hx').
    + apply list_elem_of_split in Hb' as (k1 & k2 & ->). exists k2. split; [|by eapply tot_ok_suffix].
      apply chain_app in Hc' as (q & _ & Hq). pose proof Hq as (-> & _). done.
Qed.

(** [pbuf_chain] puts a fresh pbuf [q] in front of a packet that somebody keeps. *)
Lemma chain_refs s refs R q bq p bp : refs_inv s (q :: refs) R -> bufs s !! q = Some bq -> next bq = 0 -> ref bq = 1 ->
  p ∈ refs -> bufs s !! p = Some bp -> ~ has_pred (bufs s) p -> tot_len bq + tot_len bp < 2 ^ 16 ->
  Z.of_nat (length refs) < 65533 ->
  let s' := put p (set_ref (ref bp + 1) bp) (put q (set_next p (set_tot_len (tot_len bq + tot_len bp) bq)) s) in
  pbuf_chain q p s = Some s' /\ refs_inv s' (q :: refs) R.
Proof.
  intros I Eq Hnq Hrq Hp Ep Hnp Htot Hlen. set (bq' := set_next p (set_tot_len (tot_len bq + tot_len bp) bq)).
  set (bp' := set_ref (ref bp + 1) bp). intros s'.
  pose proof (ri_nonzero _ _ _ _ _ I Eq) as [Hqz _]. pose proof (ri_nonzero _ _ _ _ _ I Ep) as [Hpz _].
  assert (chain (bufs s) q [(q, bq)] 0) as Hcq by (split_and!; try done; lia).
  destruct (alone _ _ _ _ _ I Hcq ltac:(lia) ltac:(by constructor)) as (Hq & Hqr & _ & _).
  assert (q ≠ p) as Hqp by congruence.
  pose proof (ri_ref_bound _ _ _ _ _ I Ep) as Hrb. cbn [length] in Hrb.
  pose proof I as [(B & Ip) H U G C]. pose proof (pi_ok _ _ _ Ip _ _ Eq) as (Hq1 & Hq2 & Hq3).
  pose proof (pi_ok _ _ _ Ip _ _ Ep) as (Hp1 & Hp2 & Hp3).
  assert (bufs s' = <[p := bp']> (<[q := bq']> (bufs s))) as Eb by done.
  split.
  { unfold pbuf_chain, pbuf_cat. rewrite (proj2 (Z.eqb_neq q 0)), (proj2 (Z.eqb_neq p 0)) by lia. cbn [orb].
    unfold chain_fuel. cbn [cat_loop]. rewrite (Eq : get q s = _), (Ep : get p s = _). cbn [mbind option_bind].
    rewrite Hnq. cbn [Z.eqb]. rewrite (upd_put q _ bq s Eq). cbn [mbind option_bind].
    rewrite (upd_put q _ _ _ (get_put_eq q _ s)), put_put. cbn [mbind option_bind]. unfold pbuf_ref.
    rewrite (proj2 (Z.eqb_neq p 0)) by lia. rewrite (wrap_id 16 (tot_len bq + tot_len bp)) by cint.
    change (set_next p (set_tot_len (tot_len bq + tot_len bp) bq)) with bq'.
    rewrite (upd_put p _ bp) by (cbn [bufs put with_bufs]; by rewrite lookup_insert_ne).
    rewrite (wrap_id 16 (ref bp + 1)) by cint. done. }
  assert (forall x a, a ≠ 0 -> link (bufs s') x a <-> (x = q /\ a = p) \/ (x ≠ q /\ link (bufs s) x a)) as L.
  { intros x a Ha. rewrite Eb. rewrite (link_insert _ p bp) by (by rewrite ?lookup_insert_ne). unfold link.
    destruct (decide (x = q)) as [->|Hx].
    - rewrite lookup_insert_eq. split; [intros (? & [= <-] & <-); by left|]. intros [[_ ->]|[? _]]; [by eexists|done].
    - rewrite lookup_insert_ne by done. split; [by right|]. intros [[? _]|[_ ?]]; done. }
  assert (forall a la, chain (bufs s) a la 0 -> a ≠ q -> q ∉ la.*1) as Hout.
  { intros a la Hca Ha Hin. destruct la as [|[c d] la]; [set_solver|]. pose proof Hca as (<- & _).
    rewrite fmap_cons in Hin. apply elem_of_cons in Hin as [->|Hin]; [done|]. apply Hq. by eapply chain_pred. }
  split.
  - exists B. apply (pinv_upd_meta _ B R p bp bp'); try done.
    + apply (pinv_upd_meta _ B R q bq bq'); try done. unfold pbuf_ok. subst bq'. cbn. cint.
    + cbn [bufs put with_bufs]. by rewrite lookup_insert_ne.
    + unfold pbuf_ok. subst bp'. cbn. cint.
  - rewrite Forall_forall in *. intros a Ha. rewrite Eb. apply lookup_insert_is_Some'. right. apply lookup_insert_is_Some'. right. auto.
  - intros x y a Ha Lx Ly. apply L in Lx, Ly; [|done..]. destruct Lx as [[-> Ea]|[_ Lx]], Ly as [[-> Ea']|[_ Ly]]; [done|..].
    + exfalso. apply Hnp. rewrite <-Ea. by exists y.
    + exfalso. apply Hnp. rewrite <-Ea'. by exists x.
    + by eapply U.
  - intros a b Ea. rewrite Eb in Ea. destruct (decide (a = p)) as [->|Hap]; [|rewrite lookup_insert_ne in Ea by done].
    + rewrite lookup_insert_eq in Ea. injection Ea as <-. destruct (G p bp Ep) as (n & [[? _]|[_ ->]] & Hr); [done|].
      exists 1. split; [left; split; [|done]; exists q; apply L; [lia|by left]|]. cbn. lia.
    + assert (exists b0, bufs s !! a = Some b0 /\ ref b = ref b0) as (b0 & E0 & Er).
      { destruct (decide (a = q)) as [->|]; [rewrite lookup_insert_eq in Ea; injection Ea as <-; by exists bq|].
        rewrite lookup_insert_ne in Ea by done. by exists b. }
      pose proof (ri_nonzero _ _ _ _ _ I E0) as [Haz _].
      destruct (G a b0 E0) as (n & Hn & Hr). exists n. split; [|congruence]. eapply pred_count_ext; [|exact Hn].
      split; intros (x & Lx); exists x.
      * apply L; [lia|]. right. split; [|done]. intros ->. destruct Lx as (d & Ed & Hd). assert (d = bq) as -> by congruence. lia.
      * apply L in Lx as [[-> ->]|[_ Lx]]; [done|done|lia].
  - destruct (C p bp Ep) as (lp & Hlp & Htp).
    assert (forall a la, chain (bufs s) a la 0 -> a ≠ q -> tot_ok la ->
      chain (bufs s') a (replaced p bp' la) 0 /\ tot_ok (replaced p bp' la) /\ tot (replaced p bp' la) = tot la) as Hch.
    { intros a la Hca Ha Hta. destruct (tot_replaced _ p bp bp' la Ep eq_refl eq_refl _ _ Hca) as [Ht1 Ht2].
      split; [|split; [auto|done]]. rewrite Eb. apply chain_replaced with bp; [by rewrite lookup_insert_ne|done|].
      eapply chain_frame; [exact Hca|]. intros x Hx. apply lookup_insert_ne. intros ->. by eapply Hout. }
    intros a b Ea. destruct (decide (a = q)) as [->|Haq].
    + rewrite Eb, lookup_insert_ne, lookup_insert_eq in Ea by done. injection Ea as <-.
      destruct (Hch p _ Hlp ltac:(done) Htp) as (Hc1 & Hc2 & Hc3). exists (replaced p bp' ((p, bp) :: lp)). split.
      * cbn [chain]. split_and!; [done|lia|rewrite Eb, lookup_insert_ne, lookup_insert_eq by done; done|exact Hc1].
      * cbn [tot_ok]. rewrite Hc3. destruct (C q bq Eq) as (lq & Hlq & Htq). rewrite (chain_det _ _ _ _ Hlq Hcq) in Htq.
        cbn [tot_ok tot] in Htq, Htp |- *. cbn [tot_len len bq' set_next set_tot_len].
        destruct Htq as (? & ? & ? & _), Htp as (? & ? & ? & ?). split_and!; try done; lia.
    + destruct (bufs s !! a) as [b0|] eqn:E0.
      * destruct (C a b0 E0) as (la & Hla & Hta). destruct (Hch a _ Hla Haq Hta) as (Hc1 & Hc2 & _).
        assert (replaced p bp' ((a, b0) :: la) = (a, b) :: replaced p bp' la) as Er.
        { unfold replaced. rewrite fmap_cons. cbn [fst]. rewrite Eb in Ea. case_decide as Hap.
          - subst a. rewrite lookup_insert_eq in Ea. by injection Ea as <-.
          - rewrite lookup_insert_ne, lookup_insert_ne in Ea by done. congruence. }
        rewrite Er in Hc1, Hc2. eauto.
      * rewrite Eb in Ea. destruct (decide (a = p)) as [->|]; [congruence|]. rewrite !lookup_insert_ne in Ea by done. congruence.
Qed.

(** A pbuf of a chain to which another one is appended. *)
Lemma catted_elem m p l q dt a b' : chain m p l 0 -> (a, b') ∈ catted q dt l ->
  exists b, (a, b) ∈ l /\ (ref b' = ref b /\ type b' = type b /\ len b' = len b) /\
    ((next b ≠ 0 /\ next b' = next b) \/ (next b = 0 /\ next b' = q)).
Proof.
  revert p. induction l as [|[c d] l IH]; intros p Hc Hin; [by apply elem_of_nil in Hin|].
  pose proof Hc as (_ & _ & _ & Hl). destruct l as [|x l].
  - cbn [catted] in Hin. apply list_elem_of_singleton in Hin as [= -> ->]. cbn [chain] in Hl.
    exists d. split; [by left|]. split; [done|by right].
  - rewrite catted_cons in Hin. apply elem_of_cons in Hin as [[= -> ->]|Hin].
    + exists d. split; [by left|]. split; [done|]. left. destruct x. destruct Hl as (Hx & Hz & _). by rewrite Hx.
    + destruct (IH _ Hl Hin) as (b & Hb & ?). exists b. split; [by right|done].
Qed.

(** The last pbuf of a chain. *)
Lemma last_of_chain m p l : chain m p l 0 -> l ≠ [] -> exists x b, (x, b) ∈ l /\ next b = 0 /\
  forall y c, (y, c) ∈ l -> next c = 0 -> y = x.
Proof.
  revert p. induction l as [|[e d] l IH]; intros p Hc Hne; [done|]. destruct Hc as (_ & _ & _ & Hl). destruct l as [|[f g] l].
  - exists e, d. split; [by left|]. split; [exact Hl|]. intros y c Hy _. apply list_elem_of_singleton in Hy. congruence.
  - destruct (IH _ Hl ltac:(done)) as (x & b & Hx & Hb & Hu). exists x, b. split; [by right|]. split; [done|].
    intros y c [[= -> ->]|Hy]%elem_of_cons Hc0; [destruct Hl as (? & ? & _); congruence|by eapply Hu].
Qed.

(** The pointers to successors and the counts when [q] is appended. *)
Section Catted.
Context (m m' : gmap Z pbuf) (p : Z) (l : list (Z * pbuf)) (q dt : Z) (bq : pbuf).
Hypotheses (before : chain m p l 0) (after : chain m' p (catted q dt l ++ [(q, bq)]) 0)
  (others : forall c, c ∉ l.*1 -> m' !! c = m !! c).

Lemma catted_in a b' : m' !! a = Some b' -> a ∈ l.*1 -> (a, b') ∈ catted q dt l.
Proof.
  intros Ea Hin. rewrite <-(catted_fst q dt) in Hin. apply list_elem_of_fmap in Hin as ([a' d] & -> & Hd).
  destruct (chain_elem _ _ _ _ a' d after ltac:(by apply elem_of_app; left)) as [Ed _]. cbn [fst] in Ea. by assert (d = b') as <- by congruence.
Qed.

Lemma catted_out a b : (a, b) ∈ l -> exists b', m' !! a = Some b' /\ (ref b' = ref b /\ type b' = type b /\ len b' = len b) /\
  ((next b ≠ 0 /\ next b' = next b) \/ (next b = 0 /\ next b' = q)).
Proof.
  intros Hin. assert (a ∈ (catted q dt l).*1) as Ha by (rewrite catted_fst; apply list_elem_of_fmap; by exists (a, b)).
  apply list_elem_of_fmap in Ha as ([a' b'] & -> & Hb'). destruct (chain_elem _ _ _ _ a' b' after ltac:(by apply elem_of_app; left)) as [Eb' _].
  cbn [fst] in Hin. exists b'. split; [exact Eb'|]. destruct (catted_elem _ _ _ _ _ _ _ before Hb') as (b0 & Hb0 & H).
  by assert (b0 = b) as -> by (destruct (chain_elem _ _ _ _ _ _ before Hb0), (chain_elem _ _ _ _ _ _ before Hin); congruence).
Qed.

Lemma catted_link x a : link m' x a -> link m x a \/ (a = q /\ exists b, (x, b) ∈ l /\ next b = 0).
Proof.
  intros (b' & Eb & Hn). destruct (decide (x ∈ l.*1)) as [Hin|Hin]; [|left; exists b'; by rewrite <-others].
  destruct (catted_elem _ _ _ _ _ _ _ before (catted_in _ _ Eb Hin)) as (b & Hb & _ & [[_ Hb']|[Hb0 Hb']]).
  - left. exists b. split; [apply (chain_elem _ _ _ _ _ _ before Hb)|congruence].
  - right. split; [congruence|]. by exists b.
Qed.

Lemma catted_kept x a : a ≠ 0 -> link m x a -> link m' x a.
Proof.
  intros Ha (b & Eb & Hn). destruct (decide (x ∈ l.*1)) as [Hin|Hin]; [|exists b; by rewrite others].
  apply list_elem_of_fmap in Hin as ([x' b0] & -> & Hb0). cbn [fst] in *.
  assert (b0 = b) as -> by (destruct (chain_elem _ _ _ _ _ _ before Hb0); congruence).
  destruct (catted_out x' b Hb0) as (b' & Eb' & _ & [[_ ?]|[? _]]); [exists b'; split; [done|congruence]|congruence].
Qed.

Lemma catted_ref a b' : m' !! a = Some b' -> exists b, m !! a = Some b /\ ref b' = ref b.
Proof.
  intros Eb. destruct (decide (a ∈ l.*1)) as [Hin|Hin]; [|exists b'; by rewrite <-others].
  destruct (catted_elem _ _ _ _ _ _ _ before (catted_in _ _ Eb Hin)) as (b & Hb & (Hr & _) & _). exists b.
  split; [apply (chain_elem _ _ _ _ _ _ before Hb)|done].
Qed.

End Catted.

(** [pbuf_cat] of a packet and a single pbuf, both of them the caller's alone: the
    reference to the pbuf becomes that of the packet. *)
Lemma cat_refs s refs R p l q bq : refs_inv s (p :: q :: refs) R -> chain (bufs s) p l 0 -> p ≠ 0 ->
  Forall (fun x => ref x.2 = 1) l -> bufs s !! q = Some bq -> next bq = 0 -> ref bq = 1 -> tot l + tot_len bq < 2 ^ 16 ->
  exists s', pbuf_cat p q s = Some s' /\ al s' = al s /\ bytes s' = bytes s /\ refs_inv s' (p :: refs) R /\
    chain (bufs s') p (catted q (tot_len bq) l ++ [(q, bq)]) 0 /\ (forall c, c ∉ l.*1 -> bufs s' !! c = bufs s !! c).
Proof.
  intros I Hc Hz F Eq Hnq Hrq Ht. pose proof (ri_nonzero _ _ _ _ _ I Eq) as [Hqz _].
  destruct (alone _ _ _ _ _ I Hc Hz F) as (Hnp & Hpr & Hout & _).
  assert (chain (bufs s) q [(q, bq)] 0) as Hcq by (split_and!; try done; lia).
  assert (refs_inv s (q :: p :: refs) R) as Iq by (by rewrite (Permutation_swap q p) in I).
  destruct (alone _ _ _ _ _ Iq Hcq ltac:(lia) ltac:(by constructor)) as (Hnpq & Hqr & _).
  assert (q ∉ l.*1) as Hql by (apply Hout; by left).
  assert (l ≠ []) as Hne by (intros ->; cbn [chain] in Hc; congruence).
  pose proof I as [(B & Ip) H U G C].
  assert (tot_ok l) as Hok.
  { destruct l as [|[a b] l]; [done|]. pose proof Hc as (<- & _ & Ep & _). destruct (C p b Ep) as (l' & Hc' & Hok).
    by rewrite (chain_det _ _ _ _ Hc Hc'). }
  assert (tot_ok [(q, bq)]) as Hokq.
  { destruct (C q bq Eq) as (l' & Hc' & Hok'). by rewrite (chain_det _ _ _ _ Hcq Hc'). }
  assert (tot [(q, bq)] = tot_len bq) as Htq by (cbn [tot_ok tot] in *; lia).
  destruct (cat_chain s B R p q l q bq [] Ip Hne Hc Hcq ltac:(set_solver) Hok Hokq ltac:(lia))
    as (s' & E & Ea & Ey & Ip' & Hc' & Fr).
  exists s'. do 3 (split; [done|]). split; [|by split].
  pose proof (catted_link _ _ _ _ _ _ _ Hc Hc' Fr) as L. pose proof (catted_kept _ _ _ _ _ _ _ Hc Hc' Fr) as L'.
  destruct (last_of_chain _ _ _ Hc Hne) as (z & bz & Hz1 & Hz2 & Hlast).
  split.
  - by exists B.
  - rewrite !Forall_cons in H. destruct H as (Hp & _ & H). constructor.
    + destruct l as [|[a b] l]; [done|]. pose proof Hc as (<- & _).
      destruct (catted_out _ _ _ _ _ _ _ Hc Hc' p b ltac:(by left)) as (b' & -> & _). by eexists.
    + rewrite Forall_forall in *. intros a Ha. rewrite Fr; [by apply H|]. apply Hout. by right.
  - intros x y a Ha Lx Ly. apply L in Lx, Ly. destruct Lx as [Lx|[-> (b & Hb & Hb0)]], Ly as [Ly|[Hq (c & Hcc & Hc0)]].
    + by eapply U.
    + subst a. exfalso. apply Hnpq. by exists x.
    + exfalso. apply Hnpq. by exists y.
    + by rewrite (Hlast x b Hb Hb0), (Hlast y c Hcc Hc0).
  - intros a b' Eb. destruct (catted_ref _ _ _ _ _ _ _ Hc Hc' Fr a b' Eb) as (b & Eb0 & ->). destruct (G a b Eb0) as (n & Hn & Hr).
    rewrite !occ_cons in Hr. destruct (decide (a = q)) as [->|Haq].
    + exists 1. split.
      * left. split; [|done]. destruct (catted_out _ _ _ _ _ _ _ Hc Hc' z bz Hz1) as (b2 & Ez & _ & [[? _]|[_ ?]]); [done|]. by exists z, b2.
      * assert (b = bq) as -> by congruence. rewrite occ_cons. assert (occ q refs = 0) as Hoq by (apply occ_zero; set_solver).
        repeat case_decide; try done; destruct Hn as [[_ ->]|[_ ->]]; lia.
    + exists n. rewrite occ_cons. split; [|repeat case_decide; try congruence; lia].
      pose proof (ri_nonzero _ _ _ _ _ I Eb0) as [Haz _]. eapply pred_count_ext; [|exact Hn].
      split; intros (x & Lx); exists x; [apply L'; [lia|done]|]. by apply L in Lx as [?|[? _]].
  - intros a b' Eb. destruct (decide (a ∈ l.*1)) as [Hin|Hin].
    + pose proof (catted_in _ _ _ _ _ _ Hc' _ _ Eb Hin) as Hb'. apply list_elem_of_split in Hb' as (k1 & k2 & Ek). exists (k2 ++ [(q, bq)]).
      rewrite Ek, <-app_assoc in Hc'. cbn [app] in Hc'. apply chain_app in Hc' as (y & _ & Hy). pose proof Hy as (-> & _).
      split; [exact Hy|]. apply (tot_ok_suffix k1). change ((a, b') :: k2 ++ [(q, bq)]) with (((a, b') :: k2) ++ [(q, bq)]).
      rewrite app_assoc, <-Ek. apply catted_tot_ok; [done|done|done|lia].
    + rewrite Fr in Eb by done. destruct (C a b' Eb) as (la & Hla & Hta). exists la. split; [|done].
      eapply chain_frame; [exact Hla|]. intros x Hx. apply Fr.
      pose proof (chain_outside _ _ _ Hc U Hnp _ _ Hla Hin) as D. intros Hx'. exact (D x Hx Hx').
Qed.
End Inv.

Section Lengths.
Context {A : Type} {ops : alloc_ops A}.
Implicit Types s : pstate A.

(** *** Lengths *)

(** [pbuf_cat] and [pbuf_free] do the same whatever the lengths of the pbufs are:
    states that agree but for the lengths of the pbufs [X]. *)
Definition bare (b : pbuf) : pbuf := set_len 0 (set_tot_len 0 b).

Record same_but (X : Z -> Prop) s1 s2 : Prop := {
  sb_al : al s1 = al s2;
  sb_bytes : bytes s1 = bytes s2;
  sb_pending : pbuf_free_ooseq_pending s1 = pbuf_free_ooseq_pending s2;
  sb_bare : bare <$> bufs s1 = bare <$> bufs s2;
  sb_out a : ~ X a -> bufs s1 !! a = bufs s2 !! a }.

Lemma same_but_get X s1 s2 a b : same_but X s1 s2 -> bufs s1 !! a = Some b ->
  exists b', bufs s2 !! a = Some b' /\ bare b = bare b' /\ (~ X a -> b' = b).
Proof.
  intros H E. pose proof (f_equal (lookup a) (sb_bare _ _ _ H)) as Hb. rewrite !lookup_fmap, E in Hb.
  destruct (bufs s2 !! a) as [b'|] eqn:E'; [|done]. apply Some_inj in Hb. exists b'. split; [done|]. split; [done|].
  intros Hx. pose proof (sb_out _ _ _ H a Hx). congruence.
Qed.

Lemma same_but_put X s1 s2 a c1 c2 : same_but X s1 s2 -> bare c1 = bare c2 -> (~ X a -> c2 = c1) ->
  same_but X (put a c1 s1) (put a c2 s2).
Proof.
  intros [H1 H2 H3 H4 H5] Hb Hx. split; try done; cbn [put bufs with_bufs].
  - by rewrite !fmap_insert, H4, Hb.
  - intros x Hn. destruct (decide (x = a)) as [->|]; [by rewrite !lookup_insert_eq, Hx|]. by rewrite !lookup_insert_ne, H5.
Qed.

Lemma same_but_one (X : Z -> Prop) s a b b' : bufs s !! a = Some b -> bare b = bare b' -> X a -> same_but X s (put a b' s).
Proof.
  intros E Hb Hx. split; try done; cbn [put bufs with_bufs].
  - rewrite fmap_insert, <-Hb, insert_id; [done|]. by rewrite lookup_fmap, E.
  - intros x Hn. rewrite lookup_insert_ne; [done|]. by intros <-.
Qed.

Lemma same_but_size X s1 s2 : same_but X s1 s2 -> size (bufs s1) = size (bufs s2).
Proof. intros H. by rewrite <-(map_size_fmap bare (bufs s1)), (sb_bare _ _ _ H), map_size_fmap. Qed.

(** When the pbufs are gone the states are equal. *)
Lemma same_but_gone X s1 s2 : same_but X s1 s2 -> (forall a, X a -> bufs s1 !! a = None) -> s1 = s2.
Proof.
  intros H Hg. assert (bufs s1 = bufs s2) as Hb.
  { apply map_eq. intros a. destruct (bufs s1 !! a) as [b|] eqn:E.
    - destruct (same_but_get _ _ _ _ _ H E) as (b' & -> & _ & Hx). rewrite Hx; [done|]. intros Ha. by rewrite Hg in E.
    - pose proof (f_equal (lookup a) (sb_bare _ _ _ H)) as Ha. rewrite !lookup_fmap, E in Ha. by destruct (bufs s2 !! a). }
  destruct H, s1, s2. cbn in *. congruence.
Qed.

Lemma bare_fields b b' : bare b = bare b' -> next b' = next b /\ type b' = type b /\ ref b' = ref b.
Proof. destruct b, b'. unfold bare. cbn. by intros [= -> _ -> _ ->]. Qed.

Lemma bare_change b b' : bare b = bare b' -> (forall t t', bare (set_tot_len t b) = bare (set_tot_len t' b')) /\
  (forall q, bare (set_next q b) = bare (set_next q b')) /\ (forall r, bare (set_ref r b) = bare (set_ref r b')).
Proof. destruct b, b'. unfold bare. cbn. by intros [= -> -> -> -> ->]. Qed.

Lemma cat_sim X q l : forall fuel p s1 s2 s1', chain (bufs s1) p l 0 -> l ≠ [] -> (forall a, a ∈ l.*1 -> X a) ->
  same_but X s1 s2 -> cat_loop fuel p q s1 = Some s1' -> exists s2', cat_loop fuel p q s2 = Some s2' /\ same_but X s1' s2'.
Proof.
  induction l as [|[a b] l IH]; intros fuel p s1 s2 s1' Hc Hne Hx S E; [done|]. destruct fuel as [|fuel]; [done|].
  pose proof (chain_nodup _ _ _ Hc) as N. rewrite fmap_cons in N. apply NoDup_cons in N as [N _].
  destruct Hc as (-> & Hz & Eb & Hc). cbn [cat_loop] in *. rewrite (Eb : get a s1 = _) in E. cbn [mbind option_bind] in E.
  destruct (get q s1) as [bq|] eqn:Eq; [|done]. cbn [mbind option_bind] in E.
  destruct (same_but_get _ _ _ _ _ S Eb) as (b' & Eb' & Hb & _). destruct (same_but_get _ _ _ _ _ S Eq) as (bq' & Eq' & Hbq & _).
  rewrite (Eb' : get a s2 = _), (Eq' : get q s2 = _). cbn [mbind option_bind].
  destruct (bare_fields _ _ Hb) as (-> & _). rewrite (upd_put a _ b s1 Eb) in E. rewrite (upd_put a _ b' s2 Eb').
  set (c := set_tot_len _ b) in E. set (c' := set_tot_len _ b').
  assert (X a) as Ha by (apply Hx; rewrite fmap_cons; by left).
  assert (same_but X (put a c s1) (put a c' s2)) as S1 by (apply same_but_put; [done|by apply bare_change|done]).
  destruct (Z.eqb_spec (next b) 0) as [Hn|Hn]; cbn [mbind option_bind] in E |- *.
  - rewrite (upd_put a _ c) in E by apply get_put_eq. rewrite (upd_put a _ c') by apply get_put_eq.
    injection E as <-. eexists. split; [done|]. apply same_but_put; [done|by apply bare_change, bare_change|done].
  - eapply IH; [|destruct l; [by cbn in Hc|done]| |exact S1|exact E].
    + eapply chain_frame; [exact Hc|]. intros x Hin. apply lookup_insert_ne. by intros <-.
    + intros x Hin. apply Hx. rewrite fmap_cons. by right.
Qed.

Lemma free_sim X : forall fuel p n s1 s2 r s1', same_but X s1 s2 -> free_loop fuel p n s1 = Some (r, s1') ->
  exists s2', free_loop fuel p n s2 = Some (r, s2') /\ same_but X s1' s2'.
Proof.
  induction fuel as [|fuel IH]; intros p n s1 s2 r s1' S E; [done|]. cbn [free_loop] in *.
  destruct (p =? 0); [injection E as -> <-; by exists s2|].
  destruct (get p s1) as [b|] eqn:Eb; [|done]. cbn [mbind option_bind] in E.
  destruct (same_but_get _ _ _ _ _ S Eb) as (b' & Eb' & Hb & Hx). rewrite (Eb' : get p s2 = _). cbn [mbind option_bind].
  destruct (bare_fields _ _ Hb) as (-> & -> & ->). rewrite (upd_put p _ b s1 Eb) in E. rewrite (upd_put p _ b' s2 Eb').
  cbn [mbind option_bind] in *.
  assert (same_but X (put p (set_ref (u16 (ref b - 1)) b) s1) (put p (set_ref (u16 (ref b - 1)) b') s2)) as S1.
  { apply same_but_put; [done|by apply bare_change|intros Hn; by rewrite Hx]. }
  destruct (u16 (ref b - 1) =? 0); [|injection E as -> <-; eexists; split; [done|exact S1]].
  unfold release in *. destruct S1 as [S1 S2 S3 S4 S5]. rewrite <-S1.
  match type of E with (_ ← (a ← ?m; _); _) = _ => destruct m as [al'|]; [|done] end. cbn [mbind option_bind] in *.
  eapply IH; [|exact E]. split; try done; cbn [with_bufs with_al bufs].
  - by rewrite !fmap_delete, S4.
  - intros x Hn. destruct (decide (x = p)) as [->|]; [by rewrite !lookup_delete_eq|]. by rewrite !lookup_delete_ne, S5.
Qed.

Lemma pbuf_cat_sim X p q l s1 s2 s1' : chain (bufs s1) p l 0 -> (forall a, a ∈ l.*1 -> X a) -> same_but X s1 s2 ->
  pbuf_cat p q s1 = Some s1' -> exists s2', pbuf_cat p q s2 = Some s2' /\ same_but X s1' s2'.
Proof.
  intros Hc Hx S. unfold pbuf_cat, chain_fuel. rewrite <-(same_but_size _ _ _ S).
  destruct (Z.eqb_spec p 0) as [->|Hp]; cbn [orb]; [intros [= ->]; eauto|]. destruct (q =? 0); [intros [= ->]; eauto|].
  eapply cat_sim; [exact Hc| |done|done]. intros ->. by cbn in Hc.
Qed.

Lemma pbuf_free_sim X p s1 s2 r s1' : same_but X s1 s2 -> pbuf_free p s1 = Some (r, s1') ->
  exists s2', pbuf_free p s2 = Some (r, s2') /\ same_but X s1' s2'.
Proof.
  intros S. unfold pbuf_free, chain_fuel. rewrite <-(same_but_size _ _ _ S). destruct (p =? 0); [intros [= <- <-]; eauto|].
  by apply free_sim.
Qed.

(** A packet of which nobody else has a part is gone when it is freed. *)
Lemma freed_gone l : forall m a, Forall (fun x => ref x.2 = 1) l -> m !! a = None \/ a ∈ l.*1 -> freed l m !! a = None.
Proof.
  induction l as [|[c d] l IH]; intros m a F Ha; cbn [freed].
  - destruct Ha as [?|?%elem_of_nil]; done.
  - apply Forall_cons in F as [Hr F]. cbn [snd] in Hr. rewrite Hr. apply IH; [done|].
    destruct (decide (a = c)) as [->|Hac]; [left; apply lookup_delete_eq|].
    rewrite lookup_delete_ne by done. destruct Ha as [?|Ha]; [by left|]. rewrite fmap_cons in Ha. right. set_solver.
Qed.

(** Freeing a packet whose pbufs have other lengths. *)
Lemma free_lengths {laws : alloc_laws A} refs R p l s1 s2 : refs_inv s1 (p :: refs) R -> chain (bufs s1) p l 0 -> p ≠ 0 ->
  Forall (fun x => ref x.2 = 1) l -> same_but (fun a => a ∈ l.*1) s1 s2 -> pbuf_free p s2 = pbuf_free p s1.
Proof.
  intros I Hc Hz F S. destruct (ri_pinv _ _ _ I) as [B Ip]. destruct (free_chain s1 B R p l Ip Hc) as (s' & B' & E & Eb & _).
  destruct (pbuf_free_sim _ p s1 s2 _ _ S E) as (s2' & E2 & S2). rewrite E, E2. do 2 f_equal. symmetry.
  eapply same_but_gone; [exact S2|]. intros a Ha. rewrite Eb. apply freed_gone; [done|by right].
Qed.

End Lengths.

End Refs.
