(* ===== verification/Net.v ===== *)
(** * State of the network stack

    The static variables of etharp.c, netif.c and autoip.c with the structs they
    hold ([struct etharp_entry], [struct netif], [struct autoip]), the pbufs of
    [Pbuf], and a parameter [W] for what is below (the MAC driver).  Functions of
    the stack are in the monad [M] of this state; [None] is an access the C code
    must not make.  [wp] is total correctness: the function returns, and its
    result and the state after it satisfy the postcondition.

    [link_ops] is the driver as the stack calls it, [netif->linkoutput], and
    [link_laws] what lwip/netif.h and lwip/pbuf.h ask of it: it may keep
    references to the packet and give them back later, and leaves the packets of
    its caller as they are. *)
From S2P Require Import Prelude Alloc Pbuf PbufData Chksum IpAddr Refs.
Import Alloc Pbuf PbufData Refs.

Declare Scope net_scope.
Delimit Scope net_scope with net.

Module Net.

(** ** Structs *)

Inductive etharp_state :=
  | ETHARP_STATE_EMPTY | ETHARP_STATE_PENDING | ETHARP_STATE_STABLE | ETHARP_STATE_STABLE_REREQUESTING.
#[export] Instance etharp_state_eq_dec : EqDecision etharp_state.
Proof. solve_decision. Defined.

(** The comparison [state >= ETHARP_STATE_STABLE]. *)
Definition is_stable (st : etharp_state) : bool :=
  match st with ETHARP_STATE_STABLE | ETHARP_STATE_STABLE_REREQUESTING => true | _ => false end.

(** [struct etharp_entry]; [q] is one packet, ARP_QUEUEING is 0. *)
Record etharp_entry := mk_entry {
  q : Z; ipaddr : Z; e_netif : Z; ethaddr : list Z; e_state : etharp_state; ctime : Z }.
Definition set_q (x : Z) (e : etharp_entry) : etharp_entry :=
  mk_entry x (ipaddr e) (e_netif e) (ethaddr e) (e_state e) (ctime e).
Definition set_ipaddr (x : Z) (e : etharp_entry) : etharp_entry :=
  mk_entry (q e) x (e_netif e) (ethaddr e) (e_state e) (ctime e).
Definition set_netif (x : Z) (e : etharp_entry) : etharp_entry :=
  mk_entry (q e) (ipaddr e) x (ethaddr e) (e_state e) (ctime e).
Definition set_ethaddr (x : list Z) (e : etharp_entry) : etharp_entry :=
  mk_entry (q e) (ipaddr e) (e_netif e) x (e_state e) (ctime e).
Definition set_state (x : etharp_state) (e : etharp_entry) : etharp_entry :=
  mk_entry (q e) (ipaddr e) (e_netif e) (ethaddr e) x (ctime e).
Definition set_ctime (x : Z) (e : etharp_entry) : etharp_entry :=
  mk_entry (q e) (ipaddr e) (e_netif e) (ethaddr e) (e_state e) x.

(** [struct autoip] *)
Record autoip := mk_autoip {
  llipaddr : Z; a_state : Z; sent_num : Z; ttw : Z; lastconflict : Z; tried_llipaddr : Z }.

Definition AUTOIP_STATE_OFF : Z := 0.
Definition AUTOIP_STATE_PROBING : Z := 1.
Definition AUTOIP_STATE_ANNOUNCING : Z := 2.
Definition AUTOIP_STATE_BOUND : Z := 3.

(** [struct netif], without the [next] pointer (see [netif_list]), [input] and
    [output], which are the functions of this stack, and [state], which is the
    driver's. *)
Record netif := mk_netif {
  ip_addr : Z; netmask : Z; gw : Z; status_callback : Z; dhcp : Z; n_autoip : Z; mtu : Z;
  hwaddr : list Z; n_flags : Z; name : Z * Z; num : Z }.
Definition set_ip_addr (x : Z) (n : netif) : netif :=
  mk_netif x (netmask n) (gw n) (status_callback n) (dhcp n) (n_autoip n) (mtu n) (hwaddr n) (n_flags n) (name n) (num n).
Definition set_netmask (x : Z) (n : netif) : netif :=
  mk_netif (ip_addr n) x (gw n) (status_callback n) (dhcp n) (n_autoip n) (mtu n) (hwaddr n) (n_flags n) (name n) (num n).
Definition set_gw (x : Z) (n : netif) : netif :=
  mk_netif (ip_addr n) (netmask n) x (status_callback n) (dhcp n) (n_autoip n) (mtu n) (hwaddr n) (n_flags n) (name n) (num n).
Definition set_status_callback (x : Z) (n : netif) : netif :=
  mk_netif (ip_addr n) (netmask n) (gw n) x (dhcp n) (n_autoip n) (mtu n) (hwaddr n) (n_flags n) (name n) (num n).
Definition set_autoip (x : Z) (n : netif) : netif :=
  mk_netif (ip_addr n) (netmask n) (gw n) (status_callback n) (dhcp n) x (mtu n) (hwaddr n) (n_flags n) (name n) (num n).
Definition set_n_flags (x : Z) (n : netif) : netif :=
  mk_netif (ip_addr n) (netmask n) (gw n) (status_callback n) (dhcp n) (n_autoip n) (mtu n) (hwaddr n) x (name n) (num n).

Definition NETIF_FLAG_UP : Z := 0x01.
Definition NETIF_FLAG_BROADCAST : Z := 0x02.
Definition NETIF_FLAG_LINK_UP : Z := 0x10.
Definition NETIF_FLAG_ETHARP : Z := 0x20.

(** [struct udp_pcb], with [IP_PCB] of lwip/ip.h spelled out. *)
Record udp_pcb := mk_udp {
  u_local_ip : Z; u_remote_ip : Z; u_so_options : Z; u_tos : Z; u_ttl : Z; u_next : Z; u_flags : Z;
  u_local_port : Z; u_remote_port : Z; u_recv : Z; u_recv_arg : Z }.

(** [struct raw_pcb] *)
Record raw_pcb := mk_raw {
  r_local_ip : Z; r_remote_ip : Z; r_so_options : Z; r_tos : Z; r_ttl : Z; r_next : Z; r_protocol : Z;
  r_recv : Z; r_recv_arg : Z }.

(** The static variables of ip.c, udp.c and raw.c, with the pcbs by address, and
    the field [pcb] of the [struct dhcp]s, which udp.c reads. *)
Record ipstate := mk_ipstate {
  ip_id : Z; current_netif : Z; current_header : Z; current_iphdr_src : Z; current_iphdr_dest : Z;
  udps : gmap Z udp_pcb; udp_pcbs : Z; udp_port : Z;
  raws : gmap Z raw_pcb; raw_pcbs : Z;
  dhcps : gmap Z Z }.

(** The counters of [lwip_stats] that are used. *)
Inductive stat :=
  | etharp_xmit | etharp_recv | etharp_drop | etharp_lenerr | etharp_memerr | etharp_proterr | etharp_err
  | etharp_cachehit | link_lenerr | link_recv | link_drop | link_memerrs
  | ip_xmit | ip_recv | ip_drop | ip_err | ip_lenerr | ip_proterr | ip_opterr | ip_rterr
  | icmp_xmit | icmp_recv | icmp_drop | icmp_err | icmp_lenerr | icmp_chkerr | icmp_proterr
  | udp_xmit | udp_recvd | udp_drop | udp_lenerr | udp_proterr | udp_rterr | udp_cachehit.
#[export] Instance stat_eq_dec : EqDecision stat.
Proof. solve_decision. Defined.

(** *** Lists of pcbs *)

(** Following [nxt] from [p] gives the addresses [l] and ends at NULL. *)
Fixpoint plist {X} (nxt : X -> Z) (m : gmap Z X) (p : Z) (l : list Z) : Prop :=
  match l with
  | [] => p = 0
  | a :: l => p = a /\ a ≠ 0 /\ exists x, m !! a = Some x /\ plist nxt m (nxt x) l
  end.

(** The memory of the pcbs, elements of their pools. *)
Definition udp_block (a : Z) : block := mk_block a (Pool MEMP_UDP_PCB) 32.
Definition raw_block (a : Z) : block := mk_block a (Pool MEMP_RAW_PCB) 28.
Definition pcb_mem (i : ipstate) : list block :=
  (udp_block <$> (map_to_list (udps i)).*1) ++ (raw_block <$> (map_to_list (raws i)).*1).

(** The fields are within their types. *)
Definition udp_ok (u : udp_pcb) : Prop :=
  in_u 32 (u_local_ip u) /\ in_u 32 (u_remote_ip u) /\ in_u 8 (u_tos u) /\ in_u 8 (u_ttl u) /\ in_u 8 (u_flags u) /\
  in_u 16 (u_local_port u) /\ in_u 16 (u_remote_port u).
Definition raw_ok (r : raw_pcb) : Prop :=
  in_u 32 (r_local_ip r) /\ in_u 32 (r_remote_ip r) /\ in_u 8 (r_tos r) /\ in_u 8 (r_ttl r) /\ in_u 8 (r_protocol r).

Record ips_ok (i : ipstate) : Prop := {
  io_id : in_u 16 (ip_id i);
  io_udp : map_Forall (fun _ => udp_ok) (udps i);
  io_udps : exists l, plist u_next (udps i) (udp_pcbs i) l;
  io_port : 0xc000 <= udp_port i <= 0xffff;
  io_raw : map_Forall (fun _ => raw_ok) (raws i);
  io_raws : exists l, plist r_next (raws i) (raw_pcbs i) l;
  io_dhcp : map_Forall (fun _ a => a ≠ 0 -> is_Some (udps i !! a)) (dhcps i) }.

(** ** The state and its monad *)

Record net (A W : Type) := mk_net {
  ps : pstate A;
  arp_table : list etharp_entry;
  etharp_cached_entry : Z;
  netifs : gmap Z netif;      (* the structs, by address *)
  netif_list : list Z;
  netif_default : Z;
  netif_num : Z;
  autoips : gmap Z autoip;
  ips : ipstate;
  lwip_stats : stat -> Z;
  world : W }.
#[global] Arguments mk_net {A W}.
#[global] Arguments ps {A W}.
#[global] Arguments arp_table {A W}.
#[global] Arguments etharp_cached_entry {A W}.
#[global] Arguments netifs {A W}.
#[global] Arguments netif_list {A W}.
#[global] Arguments netif_default {A W}.
#[global] Arguments netif_num {A W}.
#[global] Arguments autoips {A W}.
#[global] Arguments ips {A W}.
#[global] Arguments lwip_stats {A W}.
#[global] Arguments world {A W}.

Section Monad.
Context {A W : Type}.
Implicit Types s : net A W.

Definition with_ps (x : pstate A) s : net A W :=
  mk_net x (arp_table s) (etharp_cached_entry s) (netifs s) (netif_list s) (netif_default s) (netif_num s)
    (autoips s) (ips s) (lwip_stats s) (world s).
Definition with_table (x : list etharp_entry) s : net A W :=
  mk_net (ps s) x (etharp_cached_entry s) (netifs s) (netif_list s) (netif_default s) (netif_num s)
    (autoips s) (ips s) (lwip_stats s) (world s).
Definition with_cached (x : Z) s : net A W :=
  mk_net (ps s) (arp_table s) x (netifs s) (netif_list s) (netif_default s) (netif_num s)
    (autoips s) (ips s) (lwip_stats s) (world s).
Definition with_netifs (x : gmap Z netif) s : net A W :=
  mk_net (ps s) (arp_table s) (etharp_cached_entry s) x (netif_list s) (netif_default s) (netif_num s)
    (autoips s) (ips s) (lwip_stats s) (world s).
Definition with_list (x : list Z) s : net A W :=
  mk_net (ps s) (arp_table s) (etharp_cached_entry s) (netifs s) x (netif_default s) (netif_num s)
    (autoips s) (ips s) (lwip_stats s) (world s).
Definition with_default (x : Z) s : net A W :=
  mk_net (ps s) (arp_table s) (etharp_cached_entry s) (netifs s) (netif_list s) x (netif_num s)
    (autoips s) (ips s) (lwip_stats s) (world s).
Definition with_num (x : Z) s : net A W :=
  mk_net (ps s) (arp_table s) (etharp_cached_entry s) (netifs s) (netif_list s) (netif_default s) x
    (autoips s) (ips s) (lwip_stats s) (world s).
Definition with_autoips (x : gmap Z autoip) s : net A W :=
  mk_net (ps s) (arp_table s) (etharp_cached_entry s) (netifs s) (netif_list s) (netif_default s) (netif_num s)
    x (ips s) (lwip_stats s) (world s).
Definition with_ips (x : ipstate) s : net A W :=
  mk_net (ps s) (arp_table s) (etharp_cached_entry s) (netifs s) (netif_list s) (netif_default s) (netif_num s)
    (autoips s) x (lwip_stats s) (world s).
Definition with_stats (x : stat -> Z) s : net A W :=
  mk_net (ps s) (arp_table s) (etharp_cached_entry s) (netifs s) (netif_list s) (netif_default s) (netif_num s)
    (autoips s) (ips s) x (world s).
Definition with_world (x : W) s : net A W :=
  mk_net (ps s) (arp_table s) (etharp_cached_entry s) (netifs s) (netif_list s) (netif_default s) (netif_num s)
    (autoips s) (ips s) (lwip_stats s) x.

Definition M (X : Type) : Type := net A W -> option (X * net A W).
Definition ret {X} (x : X) : M X := fun s => Some (x, s).
Definition bind {X Y} (m : M X) (k : X -> M Y) : M Y :=
  fun s => match m s with Some (x, s') => k x s' | None => None end.
(** An access that must succeed. *)
Definition gets {X} (f : net A W -> option X) : M X := fun s => x ← f s; Some (x, s).
Definition modify (f : net A W -> net A W) : M unit := fun s => Some (tt, f s).
Definition when (b : bool) (m : M unit) : M unit := if b then m else ret tt.

(** Operations on the pbufs. *)
Definition pbufs {X} (f : pstate A -> option (X * pstate A)) : M X :=
  fun s => '(x, p) ← f (ps s); Some (x, with_ps p s).
Definition pbufs_ (f : pstate A -> option (pstate A)) : M unit :=
  fun s => p ← f (ps s); Some (tt, with_ps p s).

(** ETHARP_STATS_INC, LINK_STATS_INC: 16-bit counters. *)
Definition inc_stat (k : stat) : M unit :=
  modify (fun s => with_stats (fun x => if decide (x = k) then u16 (lwip_stats s x + 1) else lwip_stats s x) s).

(** [wp m Q s]: from [s] the function [m] returns, with [Q]. *)
Definition wp {X} (m : M X) (Q : X -> net A W -> Prop) s : Prop :=
  match m s with Some (x, s') => Q x s' | None => False end.

Lemma wp_mono {X} (m : M X) (Q Q' : X -> net A W -> Prop) s :
  wp m Q s -> (forall x s', Q x s' -> Q' x s') -> wp m Q' s.
Proof. unfold wp. destruct (m s) as [[x s']|]; [|done]. eauto. Qed.

Lemma wp_bind {X Y} (m : M X) (k : X -> M Y) Q s :
  wp m (fun x s' => wp (k x) Q s') s -> wp (bind m k) Q s.
Proof. unfold wp, bind. by destruct (m s) as [[x s']|]. Qed.

Lemma wp_ret {X} (x : X) (Q : X -> net A W -> Prop) s : Q x s -> wp (ret x) Q s.
Proof. done. Qed.

Lemma wp_gets {X} f (x : X) (Q : X -> net A W -> Prop) s : f s = Some x -> Q x s -> wp (gets f) Q s.
Proof. unfold wp, gets. by intros ->. Qed.

Lemma wp_modify f (Q : unit -> net A W -> Prop) s : Q tt (f s) -> wp (modify f) Q s.
Proof. done. Qed.

Lemma wp_when b m (Q : unit -> net A W -> Prop) s :
  (b = true -> wp m Q s) -> (b = false -> Q tt s) -> wp (when b m) Q s.
Proof. destruct b; cbn; auto. Qed.

Lemma wp_pbufs {X} f (x : X) p (Q : X -> net A W -> Prop) s :
  f (ps s) = Some (x, p) -> Q x (with_ps p s) -> wp (pbufs f) Q s.
Proof. unfold wp, pbufs. by intros ->. Qed.

Lemma wp_pbufs_ f p (Q : unit -> net A W -> Prop) s :
  f (ps s) = Some p -> Q tt (with_ps p s) -> wp (pbufs_ f) Q s.
Proof. unfold wp, pbufs_. by intros ->. Qed.

Lemma wp_run {X} (m : M X) Q s : wp m Q s -> exists x s', m s = Some (x, s') /\ Q x s'.
Proof. unfold wp. destruct (m s) as [[x s']|]; [eauto|done]. Qed.

End Monad.
#[global] Arguments M : clear implicits.

#[global] Notation "x <- m ;; k" := (bind m (fun x => k))
  (at level 100, m at next level, right associativity) : net_scope.
#[global] Notation "m ;; k" := (bind m (fun _ => k)) (at level 100, right associativity) : net_scope.

(** ** Access to packets *)

Section Access.
Context {A W : Type}.

(** [n] bytes at offset [off] of the data of the first pbuf of a packet, and a
    write there; outside of its data is an access that must not be made. *)
Definition load (p off n : Z) : M A W (list Z) :=
  gets (fun s => b ← get p (ps s);
    if (0 <=? off) && (off + n <=? len b) then Some (read_bytes (bytes (ps s)) (payload b + off) n) else None).
Definition store (p off : Z) (l : list Z) : M A W unit :=
  pbufs_ (fun s => b ← get p s;
    if (0 <=? off) && (off + Z.of_nat (length l) <=? len b)
    then Some (with_bytes (write_bytes (payload b + off) l (bytes s)) s) else None).

(** Numbers in memory, little-endian. *)
Definition le16 (l : list Z) : Z := match l with [a; b] => Chksum.load16 a b | _ => 0 end.
Definition le32 (l : list Z) : Z := match l with [a; b; c; d] => Chksum.load32 a b c d | _ => 0 end.
Definition bytes16 (x : Z) : list Z := [x mod 256; x / 256 mod 256].
Definition bytes32 (x : Z) : list Z := [x mod 256; x / 256 mod 256; x / 65536 mod 256; x / 16777216 mod 256].

Definition the_netif (n : Z) : M A W netif := gets (fun s => netifs s !! n).
Definition set_the_netif (n : Z) (f : netif -> netif) : M A W unit :=
  modify (fun s => with_netifs (alter f n (netifs s)) s).

End Access.

(** PP_HTONS *)
Definition PP_HTONS (x : Z) : Z := Z.lor (Z.shiftl (Z.land x 0xff) 8) (Z.shiftr (Z.land x 0xff00) 8).

(** ** Address tests of lwip/ip_addr.h *)

Definition ip_addr_isany (a : Z) : bool := a =? 0.
Definition ip_addr_isbroadcast (a : Z) (n : netif) : bool :=
  negb (IpAddr.ip4_addr_isbroadcast a (IpAddr.mk_netif (ip_addr n) (netmask n) (n_flags n)) =? 0).
Definition ip_addr_ismulticast (a : Z) : bool := Z.land a 0xf0 =? 0xe0.
Definition ip_addr_islinklocal (a : Z) : bool := Z.land a 0xffff =? 0xfea9.

(** ** The driver *)

(** A chain without the reference counts. *)
Definition stripped (l : list (Z * pbuf)) : list (Z * pbuf) := (fun x => (x.1, strip x.2)) <$> l.

(** Two states agree on the packets [refs]: same structs but for the reference
    counts, and same data in the pbufs that carry it. *)
Definition same_data {A} (s s' : pstate A) (refs : list Z) : Prop :=
  forall a l, a ∈ refs -> chain (bufs s) a l 0 ->
  exists l', chain (bufs s') a l' 0 /\ stripped l' = stripped l /\
    forall x b, (x, b) ∈ l -> carries b ->
      read_bytes (bytes s') (payload b) (len b) = read_bytes (bytes s) (payload b) (len b).

(** The pbufs of a chain, [l'] after and [l] before, have no more references. *)
Definition refs_le (l' l : list (Z * pbuf)) : Prop := Forall2 (fun x' x => ref x'.2 <= ref x.2) l' l.

(** The packets [refs] are as before and nobody else has got a reference to a part
    of one of them. *)
Definition same_packets {A} (s s' : pstate A) (refs : list Z) : Prop :=
  forall a l, a ∈ refs -> chain (bufs s) a l 0 ->
  exists l', chain (bufs s') a l' 0 /\ stripped l' = stripped l /\ refs_le l' l /\
    forall x b, (x, b) ∈ l -> carries b ->
      read_bytes (bytes s') (payload b) (len b) = read_bytes (bytes s) (payload b) (len b).

(** No part of the packets [refs] other than [p] gains a reference. *)
Definition no_new_refs {A} (p : Z) (s s' : pstate A) (refs : list Z) : Prop :=
  forall a l l', a ∈ refs -> chain (bufs s) a l 0 -> chain (bufs s') a l' 0 ->
  Forall2 (fun x' x => x.1 ≠ p -> ref x'.2 <= ref x.2) l' l.

Class link_ops (A W : Type) := {
  linkoutput : Z -> Z -> pstate A -> W -> option (Z * pstate A * W) }.

Class link_laws (A W : Type) {ops : alloc_ops A} {laws : alloc_laws A} {lops : link_ops A W} := {
  drv : W -> list Z;          (* the references the driver keeps *)
  held : W -> list block;     (* and the memory *)
  link_ok : W -> Prop;
  drv_bound w : link_ok w -> Z.of_nat (length (drv w)) <= 1024;
  linkoutput_law n p s w refs R : refs_inv s (refs ++ drv w) (R ++ held w) -> link_ok w -> p ∈ refs ->
    Z.of_nat (length refs) < 60000 ->
    exists e s' w', linkoutput n p s w = Some (e, s', w') /\ link_ok w' /\
      refs_inv s' (refs ++ drv w') (R ++ held w') /\ same_data s s' refs /\ no_new_refs p s s' refs }.

(** ** Lemmas on packets that stay the same *)

Lemma strip_eq b b' : strip b = strip b' ->
  next b = next b' /\ payload b = payload b' /\ tot_len b = tot_len b' /\ len b = len b' /\
  type b = type b' /\ flags b = flags b'.
Proof. destruct b, b'. unfold strip, set_ref. cbn. by intros [= -> -> -> -> -> ->]. Qed.

Lemma carries_strip b b' : strip b = strip b' -> carries b -> carries b'.
Proof. intros (_ & _ & _ & _ & E & _)%strip_eq. unfold carries. by rewrite E. Qed.

Section Same.
Context {A : Type}.
Implicit Types s : pstate A.

Lemma refs_le_refl l : refs_le l l.
Proof. by apply Forall_Forall2_diag, Forall_forall. Qed.

Lemma refs_le_trans l1 l2 l3 : refs_le l1 l2 -> refs_le l2 l3 -> refs_le l1 l3.
Proof.
  intros H. revert l3. induction H as [|x y l l' Hx _ IH]; intros l3 H3; inversion H3 as [|? z ? k Hz Hk]; subst; constructor; [lia|].
  by apply IH.
Qed.

Lemma same_packets_refl s refs : same_packets s s refs.
Proof. intros a l _ Hc. exists l. split; [done|]. split; [done|]. split; [apply refs_le_refl|done]. Qed.

Lemma same_packets_data s s' refs : same_packets s s' refs -> same_data s s' refs.
Proof. intros H a l Ha Hc. destruct (H a l Ha Hc) as (l' & ? & ? & _ & ?). by exists l'. Qed.

Lemma same_data_refl s refs : same_data s s refs.
Proof. apply same_packets_data, same_packets_refl. Qed.

Lemma stripped_addrs l : (stripped l).*1 = l.*1.
Proof. unfold stripped. by rewrite <-list_fmap_compose. Qed.

(** What a driver that was given [p] leaves of the packets that [p] is no part of. *)
Lemma given_same s s' p refs keep : same_data s s' refs -> no_new_refs p s s' refs -> (forall a, a ∈ keep -> a ∈ refs) ->
  (forall a c, a ∈ keep -> chain (bufs s) a c 0 -> p ∉ c.*1) -> same_packets s s' keep.
Proof.
  intros H N Hk Hp a l Ha Hc. destruct (H a l (Hk a Ha) Hc) as (l' & Hc' & Es & Hd). exists l'. split; [done|]. split; [done|].
  split; [|done]. pose proof (N a l l' (Hk a Ha) Hc Hc') as F. pose proof (Hp a l Ha Hc) as Hn. unfold refs_le. clear -F Hn.
  induction F as [|x' x l' l Hx F IH]; [done|]. rewrite fmap_cons in Hn. apply not_elem_of_cons in Hn as [Hn Hn']. constructor; auto.
Qed.

(** The first pbuf of a packet, before and after. *)
Lemma chain_heads (m m' : gmap Z pbuf) a l l' b b' : chain m a l 0 -> chain m' a l' 0 -> m !! a = Some b -> m' !! a = Some b' -> a ≠ 0 ->
  exists k k', l = (a, b) :: k /\ l' = (a, b') :: k'.
Proof.
  intros Hc Hc' E E' Hz. destruct l as [|[x d] k], l' as [|[x' d'] k']; try (cbn [chain] in *; congruence).
  destruct Hc as (<- & _ & Ed & _), Hc' as (<- & _ & Ed' & _). exists k, k'. split; congruence.
Qed.

Lemma same_packets_sub s s' refs refs' : (forall a, a ∈ refs' -> a ∈ refs) ->
  same_packets s s' refs -> same_packets s s' refs'.
Proof. intros Hs H a l Ha Hc. apply H; auto. Qed.

Lemma stripped_elem l l' x b : stripped l' = stripped l -> (x, b) ∈ l ->
  exists b', (x, b') ∈ l' /\ strip b' = strip b.
Proof.
  intros E Hin. assert ((x, strip b) ∈ stripped l') as Hin'.
  { rewrite E. apply list_elem_of_fmap. by exists (x, b). }
  apply list_elem_of_fmap in Hin' as ([y b'] & Ey & Hy). cbn [fst snd] in Ey. injection Ey as -> E'.
  exists b'. split; [done|]. unfold strip, set_ref. congruence.
Qed.

Lemma same_packets_trans s1 s2 s3 refs :
  same_packets s1 s2 refs -> same_packets s2 s3 refs -> same_packets s1 s3 refs.
Proof.
  intros H1 H2 a l Ha Hc. destruct (H1 a l Ha Hc) as (l2 & Hc2 & E2 & R2 & D2).
  destruct (H2 a l2 Ha Hc2) as (l3 & Hc3 & E3 & R3 & D3). exists l3. split; [done|]. split; [congruence|].
  split; [by eapply refs_le_trans|]. intros x b Hin Hb. destruct (stripped_elem _ _ _ _ E2 Hin) as (b' & Hin' & Es).
  pose proof (strip_eq _ _ Es) as (_ & Ep & _ & El & _).
  rewrite <-(D2 x b Hin Hb), <-Ep, <-El. apply (D3 x b' Hin'). by eapply carries_strip.
Qed.

(** One reference more. *)
Lemma ref_same s p b refs : bufs s !! p = Some b -> same_data s (put p (set_ref (ref b + 1) b) s) refs.
Proof.
  intros E a l _ Hc. exists ((fun x => if decide (x.1 = p) then (p, set_ref (ref b + 1) b) else x) <$> l).
  split; [|split; [|done]].
  - revert a Hc. induction l as [|[y d] l IH]; intros a Hc; [done|]. destruct Hc as (<- & Hz & Ed & Hc).
    cbn [fmap list_fmap fst]. destruct (decide (a = p)) as [->|Hne].
    + split; [done|]. split; [done|]. split; [apply lookup_insert_eq|]. assert (d = b) as -> by congruence. by apply IH.
    + split; [done|]. split; [done|]. split; [rewrite <-Ed; by apply lookup_insert_ne|by apply IH].
  - unfold stripped. rewrite <-list_fmap_compose. apply list_fmap_ext. intros i [y d] Hi. cbn [compose fst snd].
    case_decide as D; [|done]. cbn in D. subst y. cbn [fst snd].
    assert (d = b) as ->; [|by destruct b].
    apply list_elem_of_lookup_2 in Hi. destruct (chain_elem _ _ _ _ _ _ Hc Hi) as [Ed _]. congruence.
Qed.

(** References of two chains with the same pbufs. *)
Lemma chains_refs (P : Z -> Prop) m m' : (forall x b b', P x -> m !! x = Some b -> m' !! x = Some b' -> ref b' <= ref b) ->
  forall l l' a, stripped l' = stripped l -> chain m a l 0 -> chain m' a l' 0 -> Forall2 (fun x' x => P x.1 -> ref x'.2 <= ref x.2) l' l.
Proof.
  intros H. induction l as [|[x b] l IH]; intros [|[x' b'] l'] a Es Hc Hc'; [constructor|done|done|].
  unfold stripped in Es. rewrite !fmap_cons in Es. cbn [fst snd] in Es. apply (f_equal (fun k => (tail k, snd <$> head k))) in Es as Et.
  cbn [tail head fmap option_fmap option_map snd] in Et. injection Et as Es' En. intros.
  destruct Hc as (<- & _ & E & Hc), Hc' as (<- & _ & E' & Hc'). constructor; [intros Hx; by eapply H|].
  eapply IH; [exact Es'|exact Hc|]. congruence.
Qed.

Lemma ref_no_new s p b refs : bufs s !! p = Some b -> no_new_refs p s (put p (set_ref (ref b + 1) b) s) refs.
Proof.
  intros E a l l' Ha Hc Hc'. destruct (ref_same s p b refs E a l Ha Hc) as (l2 & Hc2 & Es & _).
  rewrite (chain_det _ _ _ _ Hc' Hc2). eapply (chains_refs (fun x => x ≠ p)); [|exact Es|exact Hc|exact Hc2].
  intros x c c' Hx Ec Ec'. cbn in Ec'. rewrite lookup_insert_ne in Ec' by done. assert (c' = c) as -> by congruence. done.
Qed.

Lemma chains_refs_le m m' l l' a : (forall x b b', m !! x = Some b -> m' !! x = Some b' -> ref b' <= ref b) ->
  stripped l' = stripped l -> chain m a l 0 -> chain m' a l' 0 -> refs_le l' l.
Proof.
  intros H Es Hc Hc'. pose proof (chains_refs (fun _ => True) m m' ltac:(eauto) l l' a Es Hc Hc') as F.
  eapply Forall2_impl; [exact F|]. intros x y Hxy. by apply Hxy.
Qed.

Lemma chain_stripped m m' l' : shrinks m m' -> forall a l, chain m' a l' 0 -> chain m a l 0 ->
  stripped l' = stripped l.
Proof.
  intros S. induction l' as [|[c d] l' IH]; intros a l Hc' Hc.
  - cbn [chain] in Hc'. subst a. destruct l as [|[c d] l]; [done|]. by destruct Hc as (? & ? & _).
  - destruct Hc' as (-> & Hz & Ed & Hc'). destruct l as [|[c' b] l]; [by cbn [chain] in Hc|].
    destruct Hc as (<- & _ & Eb & Hc). destruct (S _ _ Ed) as (b0 & Eb0 & Es & _). assert (b0 = b) as -> by congruence.
    unfold stripped. rewrite !fmap_cons. cbn [fst snd]. rewrite Es. f_equal.
    pose proof (strip_eq _ _ Es) as (En & _). eapply IH; [exact Hc'|]. congruence.
Qed.

Context {ops : alloc_ops A} {laws : alloc_laws A}.

(** Freeing a packet leaves those that are still kept. *)
Lemma shrinks_same s s' refs R : refs_inv s' refs R -> shrinks (bufs s) (bufs s') ->
  bytes s' = bytes s -> same_packets s s' refs.
Proof.
  intros I S Ey a l Ha Hc. destruct (ri_get _ _ _ _ I Ha) as [b Eb].
  destruct (ri_chain _ _ _ I a b Eb) as (l' & Hc' & _). exists ((a, b) :: l'). split; [done|].
  assert (stripped ((a, b) :: l') = stripped l) as Es by (by eapply chain_stripped).
  split; [done|]. split; [|by intros; rewrite Ey]. eapply chains_refs_le; [|exact Es|exact Hc|exact Hc'].
  intros x c c' Ec Ec'. destruct (S _ _ Ec') as (c0 & Ec0 & _ & Hr). assert (c0 = c) as -> by congruence. done.
Qed.

(** A packet that is kept once, and is in no chain, is apart from the others. *)
Lemma exclusive s p refs R b : refs_inv s (p :: refs) R -> bufs s !! p = Some b -> ref b = 1 ->
  ~ has_pred (bufs s) p /\ (p ∉ refs) /\ forall a l, a ∈ refs -> chain (bufs s) a l 0 -> p ∉ l.*1.
Proof.
  intros I E Hr. destruct (ri_ref _ _ _ I p b E) as (n & Hn & Hb). rewrite occ_cons, decide_True in Hb by done.
  pose proof (occ_nonneg p refs).
  assert (~ has_pred (bufs s) p /\ occ p refs = 0) as [Hnp Ho%occ_zero].
  { destruct Hn as [[? ->]|[? ->]]; [lia|]. split; [done|lia]. }
  split; [done|]. split; [done|]. intros a l Ha Hc Hp. destruct l as [|[c d] l]; [set_solver|].
  pose proof Hc as (-> & _ & Ec & _). rewrite fmap_cons in Hp. apply elem_of_cons in Hp as [->|Hp]; [done|].
  apply Hnp. by eapply chain_pred.
Qed.

(** Writes to the data of a pbuf that carries it do not touch packets the pbuf is
    not in. *)
Lemma bytes_same s B R p b m refs : pinv s B R -> bufs s !! p = Some b -> carries b ->
  (forall x, x ∉ seqZ (payload b) (len b) -> m !! x = bytes s !! x) ->
  (forall a c, a ∈ refs -> chain (bufs s) a c 0 -> p ∉ c.*1) -> same_packets s (with_bytes m s) refs.
Proof.
  intros I E Hb Hm Hx a c Ha Hc. exists c. split; [done|]. split; [done|]. split; [apply refs_le_refl|].
  intros x d Hin Hd. cbn [bytes with_bytes]. rewrite !read_bytes_rd. apply list_fmap_ext.
  intros i y Hy%list_elem_of_lookup_2. unfold rd. rewrite Hm; [done|]. intros Hy'.
  destruct (chain_elem _ _ _ _ _ _ Hc Hin) as [Ed _].
  apply (payload_apart s B R p b x d y I E Ed); [|done|done|done|done].
  intros ->. apply (Hx a c Ha Hc). apply list_elem_of_fmap. by exists (x, d).
Qed.

Lemma write_same s B R p b off l refs : pinv s B R -> bufs s !! p = Some b -> carries b ->
  0 <= off -> off + Z.of_nat (length l) <= len b ->
  (forall a c, a ∈ refs -> chain (bufs s) a c 0 -> p ∉ c.*1) ->
  same_packets s (with_bytes (write_bytes (payload b + off) l (bytes s)) s) refs.
Proof.
  intros I E Hb Hoff Hl Hx. eapply bytes_same; try done. intros x Hn. rewrite write_bytes_wr.
  apply wr_lookup_ne. intros Hin. apply Hn. apply elem_of_seqZ in Hin. apply elem_of_seqZ. lia.
Qed.

End Same.

(** [netif->linkoutput(netif, p)] *)
Definition link_output {A W} {lops : link_ops A W} (n p : Z) : M A W Z :=
  fun s => '(e, p', w') ← linkoutput n p (ps s) (world s); Some (e, with_world w' (with_ps p' s)).

End Net.
