(* ===== verification/Etharp.v ===== *)
(** * ARP (libraries/Ethernet/utility/etharp.c)

    The cache of Ethernet addresses: a table of entries that are empty, pending
    (a request is out, one packet may wait) or stable, aged by [etharp_tmr].
    This file holds the table and the sending side; the receiving side, which
    calls AutoIP, DHCP and IP, is in [EthInput].  The configuration is that of
    lwipopts.h and lwip/opt.h: ARP_TABLE_SIZE 10, ARP_QUEUEING 0, no static
    entries, no VLAN, ETHARP_TRUST_IP_MAC 0, LWIP_NETIF_HWADDRHINT 0. *)
From S2P Require Import Prelude Alloc Pbuf PbufData Chksum IpAddr Refs Net.
Import Alloc Pbuf PbufData Refs Net.

Module Etharp.
Open Scope net_scope.

(** ** Constants *)

Definition ARP_TABLE_SIZE : nat := 10.
Definition ARP_MAXAGE : Z := 240.
Definition ARP_AGE_REREQUEST_USED : Z := ARP_MAXAGE - 12.
Definition ARP_MAXPENDING : Z := 2.
Definition HWTYPE_ETHERNET : Z := 1.
Definition ETHARP_HWADDR_LEN : Z := 6.
Definition ETHTYPE_ARP : Z := 0x0806.
Definition ETHTYPE_IP : Z := 0x0800.
Definition ARP_REQUEST : Z := 1.
Definition ARP_REPLY : Z := 2.
Definition SIZEOF_ETH_HDR : Z := 14.
Definition SIZEOF_ETHARP_HDR : Z := 28.
Definition SIZEOF_ETHARP_PACKET : Z := SIZEOF_ETH_HDR + SIZEOF_ETHARP_HDR.

(** [ETHARP_FLAG_TRY_HARD] and [ETHARP_FLAG_FIND_ONLY] *)
Definition ETHARP_FLAG_TRY_HARD : Z := 1.
Definition ETHARP_FLAG_FIND_ONLY : Z := 2.

Definition ERR_BUF : Z := -2.
Definition ERR_RTE : Z := -4.
Definition ERR_USE : Z := -8.

Definition ethbroadcast : list Z := [0xff; 0xff; 0xff; 0xff; 0xff; 0xff].
Definition ethzero : list Z := [0; 0; 0; 0; 0; 0].

(** ** The table *)

Section Operations.
Context {A W : Type} {ops : alloc_ops A} {lops : link_ops A W}.
Implicit Types s : net A W.

(** [arp_table[i]] and a write to it. *)
Definition entry (i : nat) : M A W etharp_entry := gets (fun s => arp_table s !! i).
Definition set_entry (i : nat) (f : etharp_entry -> etharp_entry) : M A W unit :=
  fun s => e ← arp_table s !! i; Some (tt, with_table (<[i := f e]> (arp_table s)) s).

Definition etharp_free_entry (i : nat) : M A W unit :=
  e <- entry i ;;
  when (negb (q e =? 0)) (pbufs (pbuf_free (q e)) ;; set_entry i (set_q 0)) ;;
  set_entry i (set_state ETHARP_STATE_EMPTY).

(** The body of the loop of [etharp_tmr]. *)
Definition tmr_entry (i : nat) : M A W unit :=
  e <- entry i ;;
  if decide (e_state e = ETHARP_STATE_EMPTY) then ret tt
  else
    set_entry i (fun e => set_ctime (u8 (ctime e + 1)) e) ;;
    e <- entry i ;;
    if (ARP_MAXAGE <=? ctime e) ||
       (bool_decide (e_state e = ETHARP_STATE_PENDING) && (ARP_MAXPENDING <=? ctime e))
    then etharp_free_entry i
    else when (bool_decide (e_state e = ETHARP_STATE_STABLE_REREQUESTING))
           (set_entry i (set_state ETHARP_STATE_STABLE)).

(** [for (i = 0; i < ARP_TABLE_SIZE; ++i)] *)
Fixpoint for_entries (l : list nat) (body : nat -> M A W unit) : M A W unit :=
  match l with
  | [] => ret tt
  | i :: l => body i ;; for_entries l body
  end.

Definition etharp_tmr : M A W unit := for_entries (seq 0 ARP_TABLE_SIZE) tmr_entry.

(** The candidates the search of [etharp_find_entry] remembers; ARP_TABLE_SIZE
    stands for none. *)
Record candidates := mk_cand {
  old_pending : nat; old_stable : nat; empty : nat; old_queue : nat;
  age_pending : Z; age_stable : Z; age_queue : Z }.

Definition no_candidates : candidates :=
  mk_cand ARP_TABLE_SIZE ARP_TABLE_SIZE ARP_TABLE_SIZE ARP_TABLE_SIZE 0 0 0.

(** One round of the loop for an entry that does not match. *)
Definition candidate (i : nat) (e : etharp_entry) (c : candidates) : candidates :=
  match e_state e with
  | ETHARP_STATE_EMPTY =>
      if decide (empty c = ARP_TABLE_SIZE)
      then mk_cand (old_pending c) (old_stable c) i (old_queue c) (age_pending c) (age_stable c) (age_queue c)
      else c
  | ETHARP_STATE_PENDING =>
      if negb (q e =? 0) then
        if age_queue c <=? ctime e
        then mk_cand (old_pending c) (old_stable c) (empty c) i (age_pending c) (age_stable c) (ctime e) else c
      else
        if age_pending c <=? ctime e
        then mk_cand i (old_stable c) (empty c) (old_queue c) (ctime e) (age_stable c) (age_queue c) else c
  | _ =>
      if age_stable c <=? ctime e
      then mk_cand (old_pending c) i (empty c) (old_queue c) (age_pending c) (ctime e) (age_queue c) else c
  end.

(** The search: the index of the entry that matches, or the candidates. *)
Fixpoint search (ip : Z) (i : nat) (t : list etharp_entry) (c : candidates) : nat + candidates :=
  match t with
  | [] => inr c
  | e :: t =>
      if bool_decide (e_state e ≠ ETHARP_STATE_EMPTY) && (ip =? ipaddr e) then inl i
      else search ip (S i) t (candidate i e c)
  end.

(** The result is the index, or ERR_MEM.  No caller passes NULL. *)
Definition etharp_find_entry (ip flags : Z) : M A W Z :=
  t <- gets (fun s => Some (arp_table s)) ;;
  match search ip 0 t no_candidates with
  | inl i => ret (Z.of_nat i)
  | inr c =>
      if negb (Z.land flags ETHARP_FLAG_FIND_ONLY =? 0) ||
         (bool_decide (empty c = ARP_TABLE_SIZE) && (Z.land flags ETHARP_FLAG_TRY_HARD =? 0))
      then ret ERR_MEM
      else
        let recycle := fun i =>
          etharp_free_entry i ;; set_entry i (fun e => set_ctime 0 (set_ipaddr ip e)) ;; ret (Z.of_nat i) in
        if decide (empty c < ARP_TABLE_SIZE)%nat
        then set_entry (empty c) (fun e => set_ctime 0 (set_ipaddr ip e)) ;; ret (Z.of_nat (empty c))
        else if decide (old_stable c < ARP_TABLE_SIZE)%nat then recycle (old_stable c)
        else if decide (old_pending c < ARP_TABLE_SIZE)%nat then recycle (old_pending c)
        else if decide (old_queue c < ARP_TABLE_SIZE)%nat then recycle (old_queue c)
        else ret ERR_MEM
  end.

(** ** Sending *)

(** The Ethernet header in front of the packet: [dest], [src], [type]. *)
Definition etharp_send_ip (n p : Z) (src dst : list Z) : M A W Z :=
  store p 0 dst ;;
  store p 6 src ;;
  store p 12 (bytes16 (PP_HTONS ETHTYPE_IP)) ;;
  link_output n p.

Definition etharp_update_arp_entry (n ip : Z) (eth : list Z) (flags : Z) : M A W Z :=
  nif <- the_netif n ;;
  if ip_addr_isany ip || ip_addr_isbroadcast ip nif || ip_addr_ismulticast ip then ret ERR_ARG
  else
    i <- etharp_find_entry ip flags ;;
    if i <? 0 then ret i
    else
      let i := Z.to_nat i in
      set_entry i (set_state ETHARP_STATE_STABLE) ;;
      set_entry i (set_netif n) ;;
      set_entry i (set_ethaddr eth) ;;
      set_entry i (set_ctime 0) ;;
      e <- entry i ;;
      when (negb (q e =? 0))
        (set_entry i (set_q 0) ;;
         etharp_send_ip n (q e) (hwaddr nif) eth ;;
         pbufs (pbuf_free (q e)) ;; ret tt) ;;
      ret ERR_OK.

(** The body of the loop of [etharp_cleanup_netif]. *)
Definition cleanup_entry (n : Z) (i : nat) : M A W unit :=
  e <- entry i ;;
  when (bool_decide (e_state e ≠ ETHARP_STATE_EMPTY) && (e_netif e =? n)) (etharp_free_entry i).
Definition etharp_cleanup_netif (n : Z) : M A W unit := for_entries (seq 0 ARP_TABLE_SIZE) (cleanup_entry n).

(** The index, or -1; with the addresses stored through [eth_ret] and [ip_ret]. *)
Definition etharp_find_addr (ip : Z) : M A W (Z * option (list Z * Z)) :=
  i <- etharp_find_entry ip ETHARP_FLAG_FIND_ONLY ;;
  if 0 <=? i then
    e <- entry (Z.to_nat i) ;;
    if is_stable (e_state e) then ret (i, Some (ethaddr e, ipaddr e)) else ret (-1, None)
  else ret (-1, None).

Definition etharp_raw (n : Z) (ethsrc_addr ethdst_addr hwsrc_addr : list Z) (ipsrc_addr : Z)
    (hwdst_addr : list Z) (ipdst_addr opcode : Z) : M A W Z :=
  p <- pbufs (pbuf_alloc PBUF_RAW SIZEOF_ETHARP_PACKET PBUF_RAM) ;;
  if p =? 0 then inc_stat etharp_memerr ;; ret ERR_MEM
  else
    let hdr := SIZEOF_ETH_HDR in
    store p (hdr + 6) (bytes16 (Chksum.lwip_htons opcode)) ;;
    let ethdst_hwaddr := if ip_addr_islinklocal ipsrc_addr then ethbroadcast else ethdst_addr in
    store p (hdr + 8) hwsrc_addr ;;
    store p (hdr + 18) hwdst_addr ;;
    store p 0 ethdst_hwaddr ;;
    store p 6 ethsrc_addr ;;
    store p (hdr + 14) (bytes32 ipsrc_addr) ;;
    store p (hdr + 24) (bytes32 ipdst_addr) ;;
    store p hdr (bytes16 (PP_HTONS HWTYPE_ETHERNET)) ;;
    store p (hdr + 2) (bytes16 (PP_HTONS ETHTYPE_IP)) ;;
    store p (hdr + 4) [ETHARP_HWADDR_LEN] ;;
    store p (hdr + 5) [4] ;;
    store p 12 (bytes16 (PP_HTONS ETHTYPE_ARP)) ;;
    result <- link_output n p ;;
    inc_stat etharp_xmit ;;
    pbufs (pbuf_free p) ;;
    ret result.

Definition etharp_request (n ip : Z) : M A W Z :=
  nif <- the_netif n ;;
  etharp_raw n (hwaddr nif) ethbroadcast (hwaddr nif) (ip_addr nif) ethzero ip ARP_REQUEST.

Definition etharp_gratuitous (n : Z) : M A W Z :=
  nif <- the_netif n ;; etharp_request n (ip_addr nif).

Definition etharp_output_to_arp_index (n p : Z) (arp_idx : nat) : M A W Z :=
  nif <- the_netif n ;;
  e <- entry arp_idx ;;
  when (bool_decide (e_state e = ETHARP_STATE_STABLE) && (ARP_AGE_REREQUEST_USED <=? ctime e))
    (r <- etharp_request n (ipaddr e) ;;
     when (r =? ERR_OK) (set_entry arp_idx (set_state ETHARP_STATE_STABLE_REREQUESTING))) ;;
  e <- entry arp_idx ;;
  etharp_send_ip n p (hwaddr nif) (ethaddr e).

(** The walk that decides whether the packet must be copied: the first pbuf that
    is not PBUF_ROM, or NULL. *)
Fixpoint first_not_rom (fuel : nat) (p : Z) (s : pstate A) : option Z :=
  match fuel with
  | O => None
  | S fuel =>
      if p =? 0 then Some 0
      else b ← get p s; if decide (type b = PBUF_ROM) then first_not_rom fuel (next b) s else Some p
  end.

(** The packet to be queued: a copy, or the packet itself with one more
    reference; 0 when memory is out.  The copy has the length of the pbuf the
    walk stopped at. *)
Definition take_over (p : Z) : M A W Z :=
  r <- gets (fun s => first_not_rom (chain_fuel (ps s)) p (ps s)) ;;
  if r =? 0 then pbufs_ (pbuf_ref p) ;; ret p
  else
    b <- gets (fun s => get r (ps s)) ;;
    c <- pbufs (pbuf_alloc PBUF_RAW (tot_len b) PBUF_RAM) ;;
    if c =? 0 then ret 0
    else
      err <- pbufs (pbuf_copy c p) ;;
      if err =? ERR_OK then ret c else pbufs (pbuf_free c) ;; ret 0.

(** [p] may be NULL. *)
Definition etharp_query (n ip p : Z) : M A W Z :=
  nif <- the_netif n ;;
  if ip_addr_isbroadcast ip nif || ip_addr_ismulticast ip || ip_addr_isany ip then ret ERR_ARG
  else
    i <- etharp_find_entry ip ETHARP_FLAG_TRY_HARD ;;
    if i <? 0 then when (negb (p =? 0)) (inc_stat etharp_memerr) ;; ret i
    else
      let i := Z.to_nat i in
      e <- entry i ;;
      when (bool_decide (e_state e = ETHARP_STATE_EMPTY)) (set_entry i (set_state ETHARP_STATE_PENDING)) ;;
      e <- entry i ;;
      result <- (if bool_decide (e_state e = ETHARP_STATE_PENDING) || (p =? 0)
                 then etharp_request n ip else ret ERR_MEM) ;;
      if p =? 0 then ret result
      else
        e <- entry i ;;
        if is_stable (e_state e) then
          modify (with_cached (Z.of_nat i)) ;;
          etharp_send_ip n p (hwaddr nif) (ethaddr e)
        else if decide (e_state e = ETHARP_STATE_PENDING) then
          c <- take_over p ;;
          if c =? 0 then inc_stat etharp_memerr ;; ret ERR_MEM
          else
            e <- entry i ;;
            when (negb (q e =? 0)) (pbufs (pbuf_free (q e)) ;; ret tt) ;;
            set_entry i (set_q c) ;;
            ret ERR_OK
        else ret result.

(** The first stable entry for [ip]: the loop in [etharp_output]. *)
Fixpoint find_stable (ip : Z) (i : nat) (t : list etharp_entry) : option nat :=
  match t with
  | [] => None
  | e :: t => if is_stable (e_state e) && (ip =? ipaddr e) then Some i else find_stable ip (S i) t
  end.

(** The Ethernet address of a multicast group. *)
Definition mcastaddr (ip : Z) : list Z :=
  [0x01; 0x00; 0x5e; Z.land (ip / 256 mod 256) 0x7f; ip / 65536 mod 256; ip / 16777216 mod 256].

Definition etharp_output (n p ip : Z) : M A W Z :=
  nif <- the_netif n ;;
  r <- pbufs (pbuf_header p SIZEOF_ETH_HDR) ;;
  if negb (r =? 0) then inc_stat link_lenerr ;; ret ERR_BUF
  else if ip_addr_isbroadcast ip nif then etharp_send_ip n p (hwaddr nif) ethbroadcast
  else if ip_addr_ismulticast ip then etharp_send_ip n p (hwaddr nif) (mcastaddr ip)
  else
    let outside := negb (IpAddr.ip_addr_netcmp ip (ip_addr nif) (netmask nif)) && negb (ip_addr_islinklocal ip) in
    via <- (if outside then
              src <- load p (SIZEOF_ETH_HDR + 12) 4 ;;
              ret (negb (ip_addr_islinklocal (le32 src)))
            else ret false) ;;
    if via && ip_addr_isany (gw nif) then ret ERR_RTE
    else
      let dst_addr := if via : bool then gw nif else ip in
      k <- gets (fun s => Some (etharp_cached_entry s)) ;;
      e <- entry (Z.to_nat k) ;;
      if is_stable (e_state e) && (dst_addr =? ipaddr e) then
        inc_stat etharp_cachehit ;;
        etharp_output_to_arp_index n p (Z.to_nat k)
      else
        t <- gets (fun s => Some (arp_table s)) ;;
        match find_stable dst_addr 0 t with
        | Some i =>
            modify (with_cached (Z.of_nat i)) ;;
            etharp_output_to_arp_index n p i
        | None => etharp_query n dst_addr p
        end.

End Operations.

(** ** The search *)

Definition non_empty (e : etharp_entry) : Prop := e_state e ≠ ETHARP_STATE_EMPTY.
Definition stable (e : etharp_entry) : Prop := is_stable (e_state e) = true.
Definition pending_queued (e : etharp_entry) : Prop := e_state e = ETHARP_STATE_PENDING /\ q e ≠ 0.
Definition pending_bare (e : etharp_entry) : Prop := e_state e = ETHARP_STATE_PENDING /\ q e = 0.

(** [j] is the last of the oldest entries of the kind [P] in [t], [age] its age;
    none: ARP_TABLE_SIZE. *)
Definition oldest (P : etharp_entry -> Prop) (t : list etharp_entry) (j : nat) (age : Z) : Prop :=
  (j = ARP_TABLE_SIZE /\ age = 0 /\ forall e, e ∈ t -> ~ P e) \/
  (exists e, t !! j = Some e /\ P e /\ age = ctime e /\ forall e', e' ∈ t -> P e' -> ctime e' <= age).

(** [j] is the first empty entry, or ARP_TABLE_SIZE. *)
Definition first_empty (t : list etharp_entry) (j : nat) : Prop :=
  (j = ARP_TABLE_SIZE /\ forall e, e ∈ t -> non_empty e) \/
  (exists e, t !! j = Some e /\ ~ non_empty e /\ forall k e', (k < j)%nat -> t !! k = Some e' -> non_empty e').

Record cand_spec (t : list etharp_entry) (c : candidates) : Prop := {
  cs_empty : first_empty t (empty c);
  cs_stable : oldest stable t (old_stable c) (age_stable c);
  cs_pending : oldest pending_bare t (old_pending c) (age_pending c);
  cs_queue : oldest pending_queued t (old_queue c) (age_queue c) }.

Lemma oldest_skip P t e j age : oldest P t j age -> ~ P e -> oldest P (t ++ [e]) j age.
Proof.
  intros [(-> & -> & H)|(d & Ej & Pd & -> & H)] Hn; [left|right].
  - do 2 (split; [done|]). intros e' [| ->%list_elem_of_singleton]%elem_of_app; auto.
  - exists d. split; [by apply lookup_app_l_Some|]. do 2 (split; [done|]).
    intros e' [| ->%list_elem_of_singleton]%elem_of_app; [auto|done].
Qed.

Lemma oldest_older P t e j age : oldest P t j age -> P e -> ctime e < age -> 0 <= ctime e ->
  oldest P (t ++ [e]) j age.
Proof.
  intros [(-> & -> & H)|(d & Ej & Pd & -> & H)] He Hlt Hc; [lia|right].
  exists d. split; [by apply lookup_app_l_Some|]. do 2 (split; [done|]).
  intros e' [| ->%list_elem_of_singleton]%elem_of_app; [auto|lia].
Qed.

Lemma oldest_new P t e j age : oldest P t j age -> P e -> age <= ctime e ->
  oldest P (t ++ [e]) (length t) (ctime e).
Proof.
  intros H He Hle. right. exists e. split; [by rewrite lookup_app_r, Nat.sub_diag|].
  do 2 (split; [done|]). intros e' [Hin| ->%list_elem_of_singleton]%elem_of_app Pe; [|done].
  destruct H as [(_ & _ & H)|(d & _ & _ & -> & H)]; [by destruct (H e' Hin)|]. specialize (H e' Hin Pe). lia.
Qed.

Lemma first_empty_skip t e j : first_empty t j -> non_empty e -> first_empty (t ++ [e]) j.
Proof.
  intros [(-> & H)|(d & Ej & Hd & H)] Hn; [left|right].
  - split; [done|]. intros e' [| ->%list_elem_of_singleton]%elem_of_app; auto.
  - exists d. split; [by apply lookup_app_l_Some|]. split; [done|]. intros k e' Hk.
    apply lookup_lt_Some in Ej. rewrite lookup_app_l by lia. eauto.
Qed.

Lemma first_empty_more t e j : first_empty t j -> j ≠ ARP_TABLE_SIZE -> first_empty (t ++ [e]) j.
Proof.
  intros [(-> & _)|(d & Ej & Hd & H)] Hj; [done|right]. exists d.
  split; [by apply lookup_app_l_Some|]. split; [done|]. intros k e' Hk.
  apply lookup_lt_Some in Ej. rewrite lookup_app_l by lia. eauto.
Qed.

Lemma first_empty_new t e : first_empty t ARP_TABLE_SIZE -> (length t < ARP_TABLE_SIZE)%nat ->
  ~ non_empty e -> first_empty (t ++ [e]) (length t).
Proof.
  intros [(_ & H)|(d & Ej%lookup_lt_Some & _)] Hl He; [right|lia]. exists e.
  split; [by rewrite lookup_app_r, Nat.sub_diag|]. split; [done|]. intros k e' Hk.
  rewrite lookup_app_l by lia. intros Ek. apply H. by eapply list_elem_of_lookup_2.
Qed.

Lemma candidate_step t e c : cand_spec t c -> (length t < ARP_TABLE_SIZE)%nat -> 0 <= ctime e ->
  cand_spec (t ++ [e]) (candidate (length t) e c).
Proof.
  intros [E S P Q] Hl Hc. unfold candidate.
  destruct (e_state e) eqn:St.
  - assert (~ non_empty e) as Hn by (unfold non_empty; rewrite St; auto).
    assert (~ stable e /\ ~ pending_bare e /\ ~ pending_queued e) as (H1 & H2 & H3).
    { unfold stable, pending_bare, pending_queued. rewrite St. split; [done|]. by split; intros []. }
    case_decide as D; split; cbn; auto using oldest_skip, first_empty_more.
    rewrite D in E. by apply first_empty_new.
  - assert (non_empty e) as Hn by (unfold non_empty; by rewrite St).
    assert (~ stable e) as H1 by (unfold stable; by rewrite St).
    destruct (Z.eqb_spec (q e) 0) as [Hq|Hq]; cbn [negb].
    + assert (pending_bare e) as Hb by done. assert (~ pending_queued e) as H3 by (by intros [_ ?]).
      destruct (Z.leb_spec (age_pending c) (ctime e)); split; cbn;
        eauto using oldest_skip, first_empty_skip, oldest_new, oldest_older.
    + assert (pending_queued e) as Hb by done. assert (~ pending_bare e) as H3 by (by intros [_ ?]).
      destruct (Z.leb_spec (age_queue c) (ctime e)); split; cbn;
        eauto using oldest_skip, first_empty_skip, oldest_new, oldest_older.
  - assert (non_empty e) as Hn by (unfold non_empty; by rewrite St).
    assert (stable e) as H1 by (unfold stable; by rewrite St).
    assert (~ pending_bare e /\ ~ pending_queued e) as (H2 & H3).
    { unfold pending_bare, pending_queued. rewrite St. by split; intros []. }
    destruct (Z.leb_spec (age_stable c) (ctime e)); split; cbn;
      eauto using oldest_skip, first_empty_skip, oldest_new, oldest_older.
  - assert (non_empty e) as Hn by (unfold non_empty; by rewrite St).
    assert (stable e) as H1 by (unfold stable; by rewrite St).
    assert (~ pending_bare e /\ ~ pending_queued e) as (H2 & H3).
    { unfold pending_bare, pending_queued. rewrite St. by split; intros []. }
    destruct (Z.leb_spec (age_stable c) (ctime e)); split; cbn;
      eauto using oldest_skip, first_empty_skip, oldest_new, oldest_older.
Qed.

(** No entry for [ip]. *)
Definition unknown (ip : Z) (t : list etharp_entry) : Prop := forall e, e ∈ t -> non_empty e -> ipaddr e ≠ ip.

Lemma search_spec ip t : forall pre c, cand_spec pre c -> (length pre + length t <= ARP_TABLE_SIZE)%nat ->
  Forall (fun e => 0 <= ctime e) t ->
  match search ip (length pre) t c with
  | inl k => exists e, (pre ++ t) !! k = Some e /\ (length pre <= k)%nat /\ non_empty e /\ ipaddr e = ip
  | inr c' => unknown ip t /\ cand_spec (pre ++ t) c'
  end.
Proof.
  induction t as [|e t IH]; intros pre c Hs Hl Hc; cbn [search].
  - rewrite app_nil_r. split; [|done]. intros e He. set_solver.
  - apply Forall_cons in Hc as [He Hc]. cbn [length] in Hl.
    destruct (bool_decide (e_state e ≠ ETHARP_STATE_EMPTY) && (ip =? ipaddr e)) eqn:D.
    + apply andb_true_iff in D as [D%bool_decide_eq_true D'%Z.eqb_eq]. exists e.
      rewrite lookup_app_r, Nat.sub_diag by done. auto.
    + specialize (IH (pre ++ [e]) (candidate (length pre) e c)).
      rewrite length_app in IH. cbn [length] in IH. rewrite Nat.add_1_r in IH.
      specialize (IH ltac:(apply candidate_step; [done|lia|done]) ltac:(lia) Hc).
      destruct (search ip (S (length pre)) t (candidate (length pre) e c)) as [k|c'].
      * rewrite <-app_assoc in IH. destruct IH as (d & ? & ? & ? & ?). exists d. split; [done|]. split; [lia|done].
      * rewrite <-app_assoc in IH. destruct IH as [U C]. split; [|done].
        intros d [->|Hd]%elem_of_cons Hn; [|by apply U]. intros Hip.
        apply andb_false_iff in D as [D%bool_decide_eq_false|D%Z.eqb_neq]; [by apply D|congruence].
Qed.

Lemma search_table ip t : length t = ARP_TABLE_SIZE -> Forall (fun e => 0 <= ctime e) t ->
  match search ip 0 t no_candidates with
  | inl k => exists e, t !! k = Some e /\ non_empty e /\ ipaddr e = ip
  | inr c => unknown ip t /\ cand_spec t c
  end.
Proof.
  intros Hl Hc. pose proof (search_spec ip t [] no_candidates) as H. cbn [length app] in H.
  destruct (search ip 0 t no_candidates) as [k|c].
  - destruct H as (e & ? & _ & ? & ?); [|lia|done|eauto].
    split; [left|left|left|left]; cbn; (split; [done|]); try split; try done; intros ? Hin; set_solver.
  - apply H; [|lia|done].
    split; [left|left|left|left]; cbn; (split; [done|]); try split; try done; intros ? Hin; set_solver.
Qed.

(** ** The invariant *)

(** The packet an entry keeps. *)
Definition qs (e : etharp_entry) : list Z := if q e =? 0 then [] else [q e].
Definition queued (t : list etharp_entry) : list Z := t ≫= qs.

Lemma queued_insert t i e e' : t !! i = Some e -> qs e ++ queued (<[i := e']> t) ≡ₚ qs e' ++ queued t.
Proof.
  intros E. rewrite <-(take_drop_middle t i e E). pose proof (lookup_lt_Some _ _ _ E) as Hl.
  rewrite insert_app_r_alt by (rewrite length_take; lia). rewrite length_take, Nat.min_l, Nat.sub_diag by lia.
  cbn [insert list_insert]. unfold queued. rewrite !bind_app, !bind_cons. solve_Permutation.
Qed.

Definition entry_ok (e : etharp_entry) : Prop :=
  (q e ≠ 0 -> e_state e = ETHARP_STATE_PENDING) /\ length (ethaddr e) = 6%nat /\
  0 <= ctime e < match e_state e with
                 | ETHARP_STATE_EMPTY => 256
                 | ETHARP_STATE_PENDING => ARP_MAXPENDING
                 | _ => ARP_MAXAGE
                 end.

(** Addresses are in the table once. *)
Definition uniq (t : list etharp_entry) : Prop :=
  forall i j e e', t !! i = Some e -> t !! j = Some e' -> non_empty e -> non_empty e' ->
  ipaddr e = ipaddr e' -> i = j.

Section Inv.
Context {A W : Type} {ops : alloc_ops A} {laws : alloc_laws A} {lops : link_ops A W} {llaws : link_laws A W}.
Implicit Types s : net A W.

(** A packet that waits is kept by the table alone and has room for the header. *)
Definition queue_ok (p : pstate A) (e : etharp_entry) : Prop :=
  q e ≠ 0 -> exists b, bufs p !! q e = Some b /\ ref b = 1 /\ carries b /\ SIZEOF_ETH_HDR <= len b.

(** [extra] are the references of the rest of the system. *)
Record net_inv s (extra : list Z) (R : list block) : Prop := {
  ni_refs : refs_inv (ps s) ((extra ++ queued (arp_table s)) ++ drv (world s)) ((R ++ pcb_mem (ips s)) ++ held (world s));
  ni_link : link_ok (world s);
  ni_len : length (arp_table s) = ARP_TABLE_SIZE;
  ni_cached : 0 <= etharp_cached_entry s < Z.of_nat ARP_TABLE_SIZE;
  ni_entries : Forall entry_ok (arp_table s);
  ni_queue : Forall (queue_ok (ps s)) (arp_table s);
  ni_uniq : uniq (arp_table s);
  ni_hw : map_Forall (fun _ n => length (hwaddr n) = 6%nat) (netifs s);
  ni_ips : ips_ok (ips s) }.

#[export] Instance net_inv_perm s : Proper ((≡ₚ) ==> eq ==> iff) (net_inv s).
Proof.
  assert (forall l l' R, l ≡ₚ l' -> net_inv s l R -> net_inv s l' R) as H.
  { intros l l' R E []. split; try done. by rewrite <-E. }
  intros l l' E R R' <-. split; by apply H.
Qed.

(** What the ARP code leaves alone: the interfaces and the packets of others. *)
Record frame (extra : list Z) s s' : Prop := {
  fr_netifs : netifs s' = netifs s;
  fr_list : netif_list s' = netif_list s;
  fr_default : netif_default s' = netif_default s;
  fr_num : netif_num s' = netif_num s;
  fr_autoips : autoips s' = autoips s;
  fr_ips : ips s' = ips s;
  fr_packets : same_packets (ps s) (ps s') extra }.

Lemma frame_refl extra s : frame extra s s.
Proof. split; try done. apply same_packets_refl. Qed.

Lemma frame_trans extra s1 s2 s3 : frame extra s1 s2 -> frame extra s2 s3 -> frame extra s1 s3.
Proof. intros [? ? ? ? ? ? P1] [? ? ? ? ? ? P2]. split; try congruence. by eapply same_packets_trans. Qed.

Lemma frame_sub extra extra' s s' : (forall a, a ∈ extra' -> a ∈ extra) -> frame extra s s' -> frame extra' s s'.
Proof. intros H [? ? ? ? ? ? P]. split; try done. by eapply same_packets_sub. Qed.

(** ** Small steps *)

Lemma wp_entry i e Q s : arp_table s !! i = Some e -> Q e s -> wp (entry i) Q s.
Proof. intros. by eapply wp_gets. Qed.

Lemma wp_set_entry i f e Q s : arp_table s !! i = Some e ->
  Q tt (with_table (<[i := f e]> (arp_table s)) s) -> wp (set_entry i f) Q s.
Proof. unfold wp, set_entry. by intros ->. Qed.

Lemma wp_inc_stat k (Q : unit -> net A W -> Prop) s :
  (forall f, Q tt (with_stats f s)) -> wp (inc_stat k) Q s.
Proof. intros H. apply wp_modify, H. Qed.

Lemma inv_stats s extra R f : net_inv s extra R -> net_inv (with_stats f s) extra R.
Proof. by intros []. Qed.

Lemma frame_stats extra s s' f : frame extra s s' -> frame extra s (with_stats f s').
Proof. by intros []. Qed.

Lemma inv_entry s extra R i e : net_inv s extra R -> arp_table s !! i = Some e ->
  entry_ok e /\ queue_ok (ps s) e.
Proof.
  intros I E. pose proof (ni_entries _ _ _ I) as H1. pose proof (ni_queue _ _ _ I) as H2.
  rewrite Forall_lookup in H1, H2. eauto.
Qed.

Lemma uniq_insert t i e e' : uniq t -> t !! i = Some e ->
  (non_empty e' -> forall j d, j ≠ i -> t !! j = Some d -> non_empty d -> ipaddr d ≠ ipaddr e') ->
  uniq (<[i := e']> t).
Proof.
  intros U E H j k d d' Ej Ek Nd Nd' Ei. pose proof (lookup_lt_Some _ _ _ E) as Hl.
  destruct (decide (j = i)) as [->|Hj], (decide (k = i)) as [->|Hk]; [done| | |].
  - rewrite list_lookup_insert_eq in Ej by done. simplify_eq.
    rewrite list_lookup_insert_ne in Ek by done. exfalso. by eapply H.
  - rewrite list_lookup_insert_eq in Ek by done. simplify_eq.
    rewrite list_lookup_insert_ne in Ej by done. exfalso. by eapply H.
  - rewrite list_lookup_insert_ne in Ej, Ek by done. by eapply U.
Qed.

(** An entry changes and keeps its packet. *)
Lemma inv_set_entry s extra R i e e' : net_inv s extra R -> arp_table s !! i = Some e ->
  q e' = q e -> entry_ok e' ->
  (non_empty e' -> forall j d, j ≠ i -> arp_table s !! j = Some d -> non_empty d -> ipaddr d ≠ ipaddr e') ->
  net_inv (with_table (<[i := e']> (arp_table s)) s) extra R.
Proof.
  intros I E Hq Hok Hu. destruct (inv_entry _ _ _ _ _ I E) as [_ Hqo]. destruct I.
  split; cbn [arp_table with_table ps world netifs etharp_cached_entry]; try done.
  - assert (queued (<[i := e']> (arp_table s)) ≡ₚ queued (arp_table s)) as ->; [|done].
    apply (Permutation_app_inv_l (qs e)). rewrite queued_insert by done. unfold qs. by rewrite Hq.
  - by rewrite length_insert.
  - by apply Forall_insert.
  - apply Forall_insert; [done|]. unfold queue_ok. by rewrite Hq.
  - by eapply uniq_insert.
Qed.

(** The table and the cached index. *)
Definition same_table s s' : Prop :=
  arp_table s' = arp_table s /\ etharp_cached_entry s' = etharp_cached_entry s.

Lemma same_table_trans s1 s2 s3 : same_table s1 s2 -> same_table s2 s3 -> same_table s1 s3.
Proof. intros [? ?] [? ?]. split; congruence. Qed.

(** A change of the pbufs and the driver. *)
Lemma inv_pbufs s extra extra' R p w : net_inv s extra R -> link_ok w ->
  refs_inv p ((extra' ++ queued (arp_table s)) ++ drv w) ((R ++ pcb_mem (ips s)) ++ held w) ->
  (forall a b, a ∈ queued (arp_table s) -> bufs (ps s) !! a = Some b -> ref b = 1 ->
    exists b', bufs p !! a = Some b' /\ ref b' = 1 /\ strip b = strip b') ->
  net_inv (with_world w (with_ps p s)) extra' R.
Proof.
  intros I L Hr Hq. destruct I as [? ? ? ? ? Q ? ? ?]. split; try done.
  cbn [arp_table ps with_world with_ps]. rewrite Forall_forall in *. intros e He Hz.
  destruct (Q e He Hz) as (b & Eb & Rb & Cb & Lb).
  destruct (Hq (q e) b) as (b' & Eb' & Rb' & Es); [|done|done|].
  - unfold queued. apply list_elem_of_bind. exists e. split; [|done]. unfold qs.
    rewrite (proj2 (Z.eqb_neq _ _) Hz). set_solver.
  - exists b'. pose proof (strip_eq _ _ Es) as (_ & _ & _ & El & _). split; [done|]. split; [done|].
    split; [by eapply carries_strip|]. by rewrite <-El.
Qed.

Lemma with_world_same s p : with_world (world s) (with_ps p s) = with_ps p s.
Proof. done. Qed.

Lemma wp_free s extra R p Q : net_inv s (p :: extra) R ->
  (forall k s', net_inv s' extra R -> frame extra s s' -> same_table s s' -> Q k s') ->
  wp (pbufs (pbuf_free p)) Q s.
Proof.
  intros I HQ. pose proof (ni_refs _ _ _ I) as Ir. cbn [app] in Ir.
  destruct (free_refs _ _ _ _ Ir) as (k & p' & E & Ir' & Ey & S). eapply wp_pbufs; [exact E|].
  apply HQ; [| |done].
  - rewrite <-with_world_same. eapply inv_pbufs; [exact I|apply I|done|]. intros a b Ha Eb Rb.
    assert (a ∈ (extra ++ queued (arp_table s)) ++ drv (world s)) as Hin by set_solver.
    destruct (ri_get _ _ _ _ Ir' Hin) as [b' Eb']. exists b'. split; [done|].
    destruct (S _ _ Eb') as (b0 & Eb0 & Es & _). assert (b0 = b) as -> by congruence. split; [|done].
    destruct (ri_ref _ _ _ Ir a b Eb) as (n & Hn & Hb). destruct (ri_ref _ _ _ Ir' a b' Eb') as (n' & Hn' & Hb').
    rewrite occ_cons in Hb.
    assert (0 < occ a ((extra ++ queued (arp_table s)) ++ drv (world s))) as Ho.
    { pose proof (occ_nonneg a ((extra ++ queued (arp_table s)) ++ drv (world s))).
      destruct (Z.eq_dec (occ a ((extra ++ queued (arp_table s)) ++ drv (world s))) 0) as [Hz|]; [|lia].
      by apply occ_zero in Hz. }
    assert (0 <= n) by (destruct Hn as [[_ ->]|[_ ->]]; lia).
    destruct (decide (p = a)); [lia|]. assert (n = 0) as -> by lia.
    destruct Hn as [[_ ?]|[Hnp _]]; [lia|]. destruct Hn' as [[Hp _]|[_ ->]]; [|lia].
    exfalso. apply Hnp. destruct Hp as (x & c & Ec & Hx). destruct (S _ _ Ec) as (c0 & Ec0 & Ec' & _).
    exists x, c0. split; [done|]. pose proof (strip_eq _ _ Ec') as (? & _). congruence.
  - split; try done. cbn [ps with_ps]. eapply same_packets_sub; [|by eapply shrinks_same].
    intros a Ha. set_solver.
Qed.

Lemma wp_alloc s extra R layer length t Q : net_inv s extra R -> 0 <= length < 2 ^ 16 ->
  (forall s', net_inv s' extra R -> frame extra s s' -> same_table s s' -> Q 0 s') ->
  (forall p b l s', p ≠ 0 -> net_inv s' (p :: extra) R -> frame extra s s' -> same_table s s' ->
    chain (bufs (ps s')) p ((p, b) :: l) 0 -> extends (bufs (ps s)) (bufs (ps s')) ((p, b) :: l) ->
    fresh_pbuf t b -> tot_ok ((p, b) :: l) -> tot_len b = length -> (t ≠ PBUF_POOL -> l = []) -> Q p s') ->
  wp (pbufs (pbuf_alloc layer length t)) Q s.
Proof.
  intros I Hl H0 H1. pose proof (ni_refs _ _ _ I) as Ir.
  destruct (alloc_refs _ _ _ layer length t Ir Hl) as (p & p' & E & Ey & H). eapply wp_pbufs; [exact E|].
  destruct H as [(-> & Eb & Ir')|(b & l & Hc & X & F & Ht & Hlen & Hpool & Ir')].
  - apply H0; [| |done].
    + rewrite <-with_world_same. eapply inv_pbufs; [exact I|apply I|done|]. intros a b Ha E' Rb. rewrite Eb. eauto.
    + split; try done. cbn [ps with_ps]. eapply same_packets_sub;
        [|eapply shrinks_same; [exact Ir'|rewrite Eb; apply shrinks_refl|done]]. intros a Ha. set_solver.
  - assert (forall a c, bufs (ps s) !! a = Some c -> bufs p' !! a = Some c) as Old.
    { intros a c Ec. specialize (X a). case_decide; congruence. }
    apply (H1 p b l); try done.
    + by destruct Hc as (_ & ? & _).
    + rewrite <-with_world_same. eapply inv_pbufs; [exact I|apply I|done|]. intros a c Ha E' Rb. eauto.
    + split; try done. cbn [ps with_ps]. intros a l0 Ha Hc0. exists l0. split; [|split; [done|split; [apply refs_le_refl|by rewrite Ey]]].
      eapply chain_frame; [exact Hc0|]. intros x Hx. apply list_elem_of_fmap in Hx as ([y d] & -> & Hin).
      destruct (chain_elem _ _ _ _ _ _ Hc0 Hin) as [Ed _]. cbn [fst]. rewrite Ed. by apply Old.
    + apply Forall_cons in F as [? _]. done.
Qed.

(** The queued packets are the table's alone. *)
Lemma queued_exclusive s extra R a : net_inv s extra R -> a ∈ extra -> a ∉ queued (arp_table s).
Proof.
  intros I Ha Hq. pose proof Hq as (e & Ha' & He)%list_elem_of_bind.
  unfold qs in Ha'. destruct (Z.eqb_spec (q e) 0) as [|Hz]; [set_solver|].
  apply list_elem_of_singleton in Ha' as ->. pose proof (ni_queue _ _ _ I) as Q. rewrite Forall_forall in Q.
  destruct (Q e He Hz) as (b & Eb & Rb & _). destruct (ri_ref _ _ _ (ni_refs _ _ _ I) _ _ Eb) as (n & Hn & Hb).
  rewrite !occ_app in Hb. assert (0 <= n) by (destruct Hn as [[_ ->]|[_ ->]]; lia).
  pose proof (occ_nonneg (q e) (drv (world s))).
  assert (forall l, q e ∈ l -> 0 < occ (q e) l) as Hpos.
  { intros l Hl. pose proof (occ_nonneg (q e) l). destruct (Z.eq_dec (occ (q e) l) 0) as [Hz'|]; [|lia].
    by apply occ_zero in Hz'. }
  pose proof (Hpos _ Ha). pose proof (Hpos _ Hq). lia.
Qed.

Lemma queued_length t : (length (queued t) <= length t)%nat.
Proof.
  induction t as [|e t IH]; [done|]. unfold queued in *. rewrite bind_cons, length_app. unfold qs at 1.
  destruct (q e =? 0); cbn [length]; lia.
Qed.

Lemma wp_link s extra keep R n p Q : net_inv s extra R -> p ∈ extra -> Z.of_nat (length extra) < 50000 ->
  (forall a, a ∈ keep -> a ∈ extra) -> (forall a c, a ∈ keep -> chain (bufs (ps s)) a c 0 -> p ∉ c.*1) ->
  (forall e s', net_inv s' extra R -> frame keep s s' -> same_table s s' -> Q e s') ->
  wp (link_output n p) Q s.
Proof.
  intros I Hp Hl Hk Hpart HQ. pose proof (ni_refs _ _ _ I) as Ir.
  assert (p ∈ extra ++ queued (arp_table s)) as Hp' by set_solver.
  assert (Z.of_nat (length (extra ++ queued (arp_table s))) < 60000) as Hl'.
  { rewrite length_app. pose proof (queued_length (arp_table s)) as Hq. rewrite (ni_len _ _ _ I) in Hq.
    unfold ARP_TABLE_SIZE in Hq. lia. }
  destruct (linkoutput_law n p (ps s) (world s) _ (R ++ pcb_mem (ips s)) Ir (ni_link _ _ _ I) Hp' Hl')
    as (e & p' & w' & E & L & Ir' & Sp & Nr).
  unfold wp, link_output. rewrite E. cbn [mbind option_bind]. apply HQ; [| |done].
  - eapply inv_pbufs; [exact I|done|done|]. intros a b Ha Eb Rb.
    assert (a ∈ extra ++ queued (arp_table s)) as Hin by set_solver.
    destruct (ri_get _ _ _ a Ir' ltac:(set_solver)) as [b' Eb']. exists b'. split; [done|].
    destruct (ri_chain _ _ _ Ir a b Eb) as (l & Hc & _).
    destruct (Sp a _ Hin Hc) as (l' & Hc' & Es & _).
    assert (strip b' = strip b) as Hs.
    { destruct l' as [|[x d] l']; [done|]. destruct Hc' as (<- & _ & Ed & _). assert (d = b') as -> by congruence.
      apply (f_equal (fun l => snd <$> head l)) in Es. cbn in Es. by injection Es; intros; unfold strip, set_ref; congruence. }
    split; [|done]. assert (a ≠ p) as Hap by (intros ->; by eapply queued_exclusive).
    destruct (ri_nonzero _ _ _ _ _ Ir Eb) as [Haz _].
    destruct (chain_heads _ _ _ _ _ b b' Hc Hc' Eb Eb' ltac:(lia)) as (k & k' & Hk1 & ->). injection Hk1 as _.
    pose proof (Nr a _ _ Hin Hc Hc') as Hle. apply Forall2_cons in Hle as [Hle _]. specialize (Hle Hap). cbn [snd] in Hle.
    destruct (ri_pinv _ _ _ Ir') as [B I']. destruct (pinv_get _ _ _ _ _ I' Eb') as (_ & _ & _ & (_ & _ & ?)). lia.
  - split; try done. cbn [ps with_ps with_world]. eapply given_same; [exact Sp|exact Nr| |exact Hpart]. intros a Hin. set_solver.
Qed.

(** ** Writing to packets *)

Lemma inv_bytes s extra R m : net_inv s extra R -> net_inv (with_ps (with_bytes m (ps s)) s) extra R.
Proof.
  intros I. rewrite <-with_world_same. eapply inv_pbufs; [exact I|apply I| |].
  - apply refs_inv_bytes, I.
  - intros a b _ Eb Rb. eauto.
Qed.

Lemma wp_store p off l b Q s : bufs (ps s) !! p = Some b -> 0 <= off ->
  off + Z.of_nat (length l) <= len b ->
  Q tt (with_ps (with_bytes (write_bytes (payload b + off) l (bytes (ps s))) (ps s)) s) ->
  wp (store p off l) Q s.
Proof.
  intros E Ho Hl HQ. eapply wp_pbufs_; [|exact HQ]. rewrite (E : get p (ps s) = _). cbn [mbind option_bind].
  by rewrite (proj2 (Z.leb_le _ _) Ho), (proj2 (Z.leb_le _ _) Hl).
Qed.

Lemma store_eq s p off l b : bufs (ps s) !! p = Some b -> 0 <= off -> off + Z.of_nat (length l) <= len b ->
  store p off l s = Some (tt, with_ps (with_bytes (write_bytes (payload b + off) l (bytes (ps s))) (ps s)) s).
Proof.
  intros E Ho Hl. unfold store, pbufs_. rewrite (E : get p (ps s) = _). cbn [mbind option_bind].
  by rewrite (proj2 (Z.leb_le _ _) Ho), (proj2 (Z.leb_le _ _) Hl).
Qed.

Lemma write_bytes_app l1 : forall l2 a m,
  write_bytes a (l1 ++ l2) m = write_bytes (a + Z.of_nat (length l1)) l2 (write_bytes a l1 m).
Proof.
  induction l1 as [|x l1 IH]; intros l2 a m; cbn [app length write_bytes]; [by rewrite Z.add_0_r|].
  rewrite IH. f_equal. lia.
Qed.

(** The state with the Ethernet header written in front of the data of [b]. *)
Definition with_eth_hdr (b : pbuf) (dst src : list Z) s : net A W :=
  with_ps (with_bytes (write_bytes (payload b) (dst ++ src ++ [0x08; 0x00]) (bytes (ps s))) (ps s)) s.

Lemma send_ip_eq s n p src dst b : bufs (ps s) !! p = Some b -> SIZEOF_ETH_HDR <= len b ->
  length dst = 6%nat -> length src = 6%nat ->
  etharp_send_ip n p src dst s = link_output n p (with_eth_hdr b dst src s).
Proof.
  unfold SIZEOF_ETH_HDR. intros E Hl Hd Hs. unfold etharp_send_ip, bind.
  rewrite (store_eq s p 0 dst b) by (try done; rewrite ?Hd; lia).
  erewrite store_eq by (try done; rewrite ?Hs; lia).
  erewrite store_eq by (try done; cbn [length bytes16]; lia). f_equal. unfold with_eth_hdr.
  cbn [ps with_ps bytes with_bytes]. rewrite !write_bytes_app, Hd, Hs, Z.add_0_r.
  change (bytes16 (PP_HTONS ETHTYPE_IP)) with [0x08; 0x00]. unfold with_ps, with_bytes. cbn.
  replace (payload b + 12) with (payload b + 6 + 6) by lia. done.
Qed.

Lemma wp_send_ip s extra keep R n p src dst b Q : net_inv s extra R -> p ∈ extra ->
  Z.of_nat (length extra) < 50000 -> bufs (ps s) !! p = Some b -> carries b -> SIZEOF_ETH_HDR <= len b ->
  length dst = 6%nat -> length src = 6%nat -> (forall a, a ∈ keep -> a ∈ extra) ->
  (forall a c, a ∈ keep -> chain (bufs (ps s)) a c 0 -> p ∉ c.*1) ->
  (forall e s', net_inv s' extra R -> frame keep s s' -> same_table s s' -> Q e s') ->
  wp (etharp_send_ip n p src dst) Q s.
Proof.
  intros I Hp Hx E Hc Hl Hd Hs Hk Hex HQ. unfold wp. rewrite (send_ip_eq s n p src dst b) by done.
  apply (wp_link (with_eth_hdr b dst src s) extra keep R n p Q); [by apply inv_bytes|done|done|done|exact Hex|].
  intros e s' I' F' T'. apply HQ; [done| |done]. eapply frame_trans; [|exact F'].
  destruct (ri_pinv _ _ _ (ni_refs _ _ _ I)) as [B Ip]. split; try done. cbn [ps with_eth_hdr with_ps].
  rewrite <-(Z.add_0_r (payload b)). eapply write_same; try done.
  unfold SIZEOF_ETH_HDR in Hl. rewrite !length_app, Hd, Hs. cbn [length]. lia.
Qed.

(** ** Freeing entries *)

Definition cleared (e : etharp_entry) : etharp_entry := set_state ETHARP_STATE_EMPTY (set_q 0 e).

Lemma cleared_ok e : length (ethaddr e) = 6%nat -> 0 <= ctime e < 256 ->
  entry_ok (cleared e) /\ ~ non_empty (cleared e).
Proof. intros H6 Hc. split; [|by intros Hn; apply Hn]. by split. Qed.

Lemma entry_ok_ctime e : entry_ok e -> 0 <= ctime e < 256.
Proof. intros (_ & _ & H). destruct (e_state e); unfold ARP_MAXPENDING, ARP_MAXAGE in *; lia. Qed.

(** The packet of an entry is taken off it. *)
Lemma inv_dequeue s extra R i e e' : net_inv s extra R -> arp_table s !! i = Some e -> q e ≠ 0 ->
  q e' = 0 -> entry_ok e' ->
  (non_empty e' -> forall j d, j ≠ i -> arp_table s !! j = Some d -> non_empty d -> ipaddr d ≠ ipaddr e') ->
  net_inv (with_table (<[i := e']> (arp_table s)) s) (q e :: extra) R.
Proof.
  intros I E Hz Hq Hok Hu. destruct I.
  split; cbn [arp_table with_table ps world netifs etharp_cached_entry]; try done.
  - assert (queued (arp_table s) ≡ₚ q e :: queued (<[i := e']> (arp_table s))) as Hp.
    { pose proof (queued_insert (arp_table s) i e e' E) as Hp. unfold qs in Hp.
      rewrite Hq, Z.eqb_refl, (proj2 (Z.eqb_neq (q e) 0) Hz) in Hp. symmetry. exact Hp. }
    rewrite Hp in ni_refs0. cbn [app]. rewrite <-Permutation_middle in ni_refs0. done.
  - by rewrite length_insert.
  - by apply Forall_insert.
  - apply Forall_insert; [done|]. intros Hz'. done.
  - by eapply uniq_insert.
Qed.

(** The invariant is needed of the table with [e] for the entry [e1] that is
    freed, where only the packet matters. *)
Lemma wp_free_entry_gen s extra R i e e1 Q :
  net_inv (with_table (<[i := e]> (arp_table s)) s) extra R -> arp_table s !! i = Some e1 ->
  q e1 = q e -> length (ethaddr e1) = 6%nat -> 0 <= ctime e1 < 256 ->
  (forall s', net_inv s' extra R -> frame extra s s' ->
    arp_table s' = <[i := cleared e1]> (arp_table s) -> etharp_cached_entry s' = etharp_cached_entry s -> Q tt s') ->
  wp (etharp_free_entry i) Q s.
Proof.
  intros I E1 Hq1 H61 Hc1 HQ. pose proof (lookup_lt_Some _ _ _ E1) as Hlt.
  set (s0 := with_table (<[i := e]> (arp_table s)) s) in *.
  assert (arp_table s0 !! i = Some e) as E by (by apply list_lookup_insert_eq).
  destruct (inv_entry _ _ _ _ _ I E) as [Hok Hqo]. destruct (cleared_ok e1 H61 Hc1) as [Hc Hne].
  assert (entry_ok (set_q 0 e)) as Hok0 by (by destruct Hok as (_ & ? & ?)).
  unfold etharp_free_entry. apply wp_bind, (wp_entry i e1); [done|]. apply wp_bind, wp_when; rewrite Hq1.
  - intros Hz%negb_true_iff%Z.eqb_neq.
    (* the packet is freed before the pointer to it is cleared *)
    assert (net_inv (with_table (<[i := set_q 0 e]> (arp_table s)) s) (q e :: extra) R) as I0.
    { replace (with_table (<[i := set_q 0 e]> (arp_table s)) s)
        with (with_table (<[i := set_q 0 e]> (arp_table s0)) s0)
        by (unfold s0, with_table; cbn [arp_table]; by rewrite list_insert_insert_eq).
      eapply inv_dequeue; try done. intros Hn j d Hj Ej Nd Ei. apply Hj.
      by eapply (ni_uniq _ _ _ I); [exact Ej|exact E|..]. }
    apply wp_bind. unfold wp.
    destruct (wp_run _ _ _ (wp_free _ extra R (q e) (fun k s' => net_inv s' extra R /\
      frame extra (with_table (<[i := set_q 0 e]> (arp_table s)) s) s' /\
      same_table (with_table (<[i := set_q 0 e]> (arp_table s)) s) s') I0 ltac:(done)))
      as (k & s1 & Er & I1 & F1 & T1).
    unfold pbufs in *. cbn [ps with_table] in Er. destruct (pbuf_free (q e) (ps s)) as [[k' p']|]; [|done].
    cbn [mbind option_bind] in Er |- *. injection Er as -> <-.
    eapply (wp_set_entry i _ e1); [done|]. eapply (wp_set_entry i _ (set_q 0 e1)).
    { cbn [arp_table with_table with_ps]. by apply list_lookup_insert_eq. }
    cbn [arp_table with_table with_ps]. rewrite list_insert_insert_eq.
    apply HQ; [|by destruct F1|done|done].
    change (net_inv (with_table (<[i := cleared e1]> (arp_table s)) (with_ps p' s)) extra R).
    replace (<[i := cleared e1]> (arp_table s)) with (<[i := cleared e1]> (<[i := set_q 0 e]> (arp_table s)))
      by (by rewrite list_insert_insert_eq).
    eapply (inv_set_entry (with_ps p' (with_table (<[i := set_q 0 e]> (arp_table s)) s)) extra R i (set_q 0 e));
      [done| |done|done|done].
    cbn [arp_table with_table with_ps]. by apply list_lookup_insert_eq.
  - intros Hz%negb_false_iff%Z.eqb_eq.
    assert (set_q 0 e1 = e1) as Hsq by (destruct e1; cbn in *; by rewrite Hq1, Hz).
    eapply (wp_set_entry i _ e1); [done|]. apply HQ; [| |unfold cleared; by rewrite Hsq|done].
    + replace (set_state ETHARP_STATE_EMPTY e1) with (cleared e1) by (unfold cleared; by rewrite Hsq).
      replace (with_table (<[i := cleared e1]> (arp_table s)) s)
        with (with_table (<[i := cleared e1]> (arp_table s0)) s0)
        by (unfold s0, with_table; cbn [arp_table]; by rewrite list_insert_insert_eq).
      by eapply inv_set_entry.
    + split; try done. apply same_packets_refl.
Qed.

Lemma with_table_id s i e : arp_table s !! i = Some e -> with_table (<[i := e]> (arp_table s)) s = s.
Proof. intros E. rewrite list_insert_id by done. by destruct s. Qed.

Lemma wp_free_entry s extra R i e Q : net_inv s extra R -> arp_table s !! i = Some e ->
  (forall s', net_inv s' extra R -> frame extra s s' ->
    arp_table s' = <[i := cleared e]> (arp_table s) -> etharp_cached_entry s' = etharp_cached_entry s -> Q tt s') ->
  wp (etharp_free_entry i) Q s.
Proof.
  intros I E HQ. destruct (inv_entry _ _ _ _ _ I E) as [Hok _].
  eapply (wp_free_entry_gen s extra R i e e); [by rewrite with_table_id|done|done|apply Hok|by apply entry_ok_ctime|done].
Qed.

(** ** Ageing *)

Definition expired (e : etharp_entry) : bool :=
  (ARP_MAXAGE <=? ctime e) || (bool_decide (e_state e = ETHARP_STATE_PENDING) && (ARP_MAXPENDING <=? ctime e)).

(** An entry after one tick. *)
Definition aged (e : etharp_entry) : etharp_entry :=
  if decide (e_state e = ETHARP_STATE_EMPTY) then e
  else
    let e := set_ctime (ctime e + 1) e in
    if expired e then cleared e
    else if decide (e_state e = ETHARP_STATE_STABLE_REREQUESTING) then set_state ETHARP_STATE_STABLE e else e.

Definition entry_step (extra : list Z) (R : list block) (body : nat -> M A W unit)
    (f : etharp_entry -> etharp_entry) : Prop :=
  forall i e s, net_inv s extra R -> arp_table s !! i = Some e ->
    wp (body i) (fun _ s' => net_inv s' extra R /\ frame extra s s' /\
      arp_table s' = <[i := f e]> (arp_table s) /\ etharp_cached_entry s' = etharp_cached_entry s) s.

Lemma wp_for_entries extra R body f Q s : entry_step extra R body f -> net_inv s extra R ->
  (forall s', net_inv s' extra R -> frame extra s s' -> arp_table s' = f <$> arp_table s ->
    etharp_cached_entry s' = etharp_cached_entry s -> Q tt s') ->
  wp (for_entries (seq 0 ARP_TABLE_SIZE) body) Q s.
Proof.
  intros Hb I HQ.
  assert (forall post pre s, net_inv s extra R -> arp_table s = pre ++ post ->
    wp (for_entries (seq (length pre) (length post)) body) (fun _ s' => net_inv s' extra R /\ frame extra s s' /\
      arp_table s' = pre ++ (f <$> post) /\ etharp_cached_entry s' = etharp_cached_entry s) s) as H.
  { clear s I HQ. induction post as [|e post IH]; intros pre s I Ht; cbn [length seq for_entries].
    - apply wp_ret. split; [done|]. split; [apply frame_refl|]. by rewrite Ht.
    - apply wp_bind. assert (arp_table s !! length pre = Some e) as Ee.
      { by rewrite Ht, lookup_app_r, Nat.sub_diag. }
      eapply wp_mono; [by apply (Hb (length pre) e)|]. intros _ s1 (I1 & F1 & T1 & C1).
      specialize (IH (pre ++ [f e]) s1 I1). rewrite length_app in IH. cbn [length] in IH. rewrite Nat.add_1_r in IH.
      eapply wp_mono; [apply IH|].
      + rewrite T1, Ht, insert_app_r_alt, Nat.sub_diag by done. cbn [insert list_insert].
        by rewrite <-app_assoc.
      + intros _ s2 (I2 & F2 & T2 & C2). split; [done|]. split; [by eapply frame_trans|].
        split; [by rewrite T2, <-app_assoc|congruence]. }
  specialize (H (arp_table s) [] s I eq_refl). rewrite (ni_len _ _ _ I) in H. cbn [length] in H.
  eapply wp_mono; [exact H|]. intros [] s' (? & ? & ? & ?). by apply HQ.
Qed.

Lemma tmr_entry_step extra R : entry_step extra R tmr_entry aged.
Proof.
  intros i e s I E. pose proof (lookup_lt_Some _ _ _ E) as Hlt.
  destruct (inv_entry _ _ _ _ _ I E) as [(Hq & H6 & Hc) _].
  unfold tmr_entry, aged. apply wp_bind, (wp_entry i e); [done|].
  destruct (decide (e_state e = ETHARP_STATE_EMPTY)) as [He|He].
  { apply wp_ret. split; [done|]. split; [apply frame_refl|]. by rewrite list_insert_id. }
  assert (u8 (ctime e + 1) = ctime e + 1) as Hw.
  { apply wrap_id. unfold ARP_MAXPENDING, ARP_MAXAGE in Hc. destruct (e_state e); [done|cint..]. }
  apply wp_bind, (wp_set_entry i _ e); [done|]. rewrite Hw.
  set (e1 := set_ctime (ctime e + 1) e). set (s1 := with_table (<[i := e1]> (arp_table s)) s).
  assert (arp_table s1 !! i = Some e1) as E1 by (by apply list_lookup_insert_eq).
  apply wp_bind, (wp_entry i e1); [done|].
  fold (expired e1). destruct (expired e1) eqn:Hx.
  - eapply (wp_free_entry_gen s1 extra R i e e1); try done.
    + unfold s1, with_table. cbn [arp_table]. rewrite list_insert_insert_eq.
      change (net_inv (with_table (<[i := e]> (arp_table s)) s) extra R). by rewrite with_table_id.
    + unfold e1. cbn [ctime set_ctime]. unfold ARP_MAXPENDING, ARP_MAXAGE in Hc. destruct (e_state e); [done|lia..].
    + intros s' I' F' T' C'. split; [done|]. split; [|split; [|done]].
      * eapply frame_trans; [|done]. split; try done. apply same_packets_refl.
      * rewrite T'. unfold s1. cbn [arp_table with_table]. by rewrite list_insert_insert_eq.
  - unfold expired in Hx. apply orb_false_iff in Hx as [Hx1%Z.leb_gt Hx2].
    assert (forall e', q e' = q e -> non_empty e' -> ipaddr e' = ipaddr e -> entry_ok e' ->
      net_inv (with_table (<[i := e']> (arp_table s)) s) extra R /\
      frame extra s (with_table (<[i := e']> (arp_table s)) s)) as Hset.
    { intros e' Eq Hne Ei Hok. split; [|split; try done; apply same_packets_refl].
      eapply inv_set_entry; try done. intros _ j d Hj Ej Nd Ed. apply Hj.
      eapply (ni_uniq _ _ _ I); [exact Ej|exact E|..]; [done|done|congruence]. }
    assert (entry_ok e1 /\ (e_state e1 = ETHARP_STATE_STABLE_REREQUESTING ->
      entry_ok (set_state ETHARP_STATE_STABLE e1))) as [Hok1 Hok2].
    { unfold e1 in *. unfold entry_ok. cbn [q ethaddr ctime e_state set_ctime set_state] in *. split.
      - split; [done|]. split; [done|]. split; [lia|]. destruct (e_state e); [done| |lia..].
        apply andb_false_iff in Hx2 as [Hx2|Hx2%Z.leb_gt]; [by apply bool_decide_eq_false in Hx2|done].
      - intros St. split; [|lia]. intros Hz. specialize (Hq Hz). congruence. }
    apply wp_when.
    + intros St%bool_decide_eq_true. rewrite decide_True by done.
      eapply (wp_set_entry i _ e1); [done|]. unfold s1. cbn [arp_table with_table]. rewrite list_insert_insert_eq.
      destruct (Hset (set_state ETHARP_STATE_STABLE e1)) as [H1 H2]; [done|done|done|auto|]. done.
    + intros St%bool_decide_eq_false. rewrite decide_False by done. destruct (Hset e1) as [H1 H2]; [done|exact He|done|done|].
      done.
Qed.

Lemma wp_tmr extra R Q s : net_inv s extra R ->
  (forall s', net_inv s' extra R -> frame extra s s' -> arp_table s' = aged <$> arp_table s -> Q tt s') ->
  wp etharp_tmr Q s.
Proof. intros I HQ. unfold etharp_tmr. eapply (wp_for_entries extra R tmr_entry aged); [apply tmr_entry_step|done|]. intros s' I' F' T' _. by apply HQ. Qed.

(** [etharp_cleanup_netif] clears the entries of the interface. *)
Definition cleaned (n : Z) (e : etharp_entry) : etharp_entry :=
  if bool_decide (e_state e ≠ ETHARP_STATE_EMPTY) && (e_netif e =? n) then cleared e else e.

Lemma wp_cleanup extra R n Q s : net_inv s extra R ->
  (forall s', net_inv s' extra R -> frame extra s s' -> arp_table s' = cleaned n <$> arp_table s -> Q tt s') ->
  wp (etharp_cleanup_netif n) Q s.
Proof.
  intros I HQ. unfold etharp_cleanup_netif. eapply (wp_for_entries extra R (cleanup_entry n) (cleaned n)); [|done|].
  - intros i e s0 I0 E. unfold cleanup_entry, cleaned. apply wp_bind, (wp_entry i e); [done|].
    apply wp_when; intros ->.
    + eapply wp_free_entry; [done..|]. auto.
    + split; [done|]. split; [apply frame_refl|]. by rewrite list_insert_id.
  - intros s' I' F' T' _. by apply HQ.
Qed.

(** ** Finding and creating entries *)

(** The entry chosen for a new address: the first empty one; else the oldest
    stable one; else the oldest pending one without, and last with a packet. *)
Definition victim (t : list etharp_entry) (i : nat) : Prop :=
  first_empty t i \/
  (forall e, e ∈ t -> non_empty e) /\
  ((exists a, oldest stable t i a) \/
   (forall e, e ∈ t -> ~ stable e) /\
   ((exists a, oldest pending_bare t i a) \/
    (forall e, e ∈ t -> ~ pending_bare e) /\ exists a, oldest pending_queued t i a)).

Definition created (ip : Z) (e : etharp_entry) : etharp_entry := set_ctime 0 (set_ipaddr ip (cleared e)).

Definition full (t : list etharp_entry) : Prop := forall e, e ∈ t -> non_empty e.
Definition find_only (flags : Z) : bool := negb (Z.land flags ETHARP_FLAG_FIND_ONLY =? 0).
Definition try_hard (flags : Z) : bool := negb (Z.land flags ETHARP_FLAG_TRY_HARD =? 0).

(** What [etharp_find_entry] returns, and how it changes the table. *)
Inductive find_result (ip flags : Z) (t : list etharp_entry) : Z -> list etharp_entry -> Prop :=
  | find_known i e : t !! i = Some e -> non_empty e -> ipaddr e = ip ->
      find_result ip flags t (Z.of_nat i) t
  | find_none : unknown ip t -> find_only flags = true \/ (full t /\ try_hard flags = false) ->
      find_result ip flags t ERR_MEM t
  | find_new i e : unknown ip t -> find_only flags = false -> ~ full t \/ try_hard flags = true ->
      t !! i = Some e -> victim t i ->
      find_result ip flags t (Z.of_nat i) (<[i := created ip e]> t).

Lemma oldest_none P t j a : length t = ARP_TABLE_SIZE -> oldest P t j a -> ~ (j < ARP_TABLE_SIZE)%nat ->
  forall e, e ∈ t -> ~ P e.
Proof. intros Hl [(_ & _ & H)|(e & E%lookup_lt_Some & _)] Hj; [done|lia]. Qed.

Lemma oldest_some P t j a : oldest P t j a -> (j < ARP_TABLE_SIZE)%nat -> exists e, t !! j = Some e /\ P e.
Proof. intros [(-> & _)|(e & E & Pe & _)] Hj; [lia|eauto]. Qed.

Lemma entry_kinds e : non_empty e -> stable e \/ pending_bare e \/ pending_queued e.
Proof.
  unfold non_empty, stable, pending_bare, pending_queued. destruct (e_state e); [done| |by left|by left].
  right. destruct (Z.eq_dec (q e) 0); auto.
Qed.

Lemma created_ok ip e : entry_ok e -> entry_ok (created ip e) /\ ~ non_empty (created ip e).
Proof. intros (_ & H6 & _). split; [|by intros Hn; apply Hn]. by split. Qed.

(** Reusing the entry [i]. *)
Lemma wp_create s extra R i e e0 ip Q : net_inv s extra R -> arp_table s !! i = Some e0 -> cleared e = e0 ->
  (forall s', net_inv s' extra R -> frame extra s s' -> arp_table s' = <[i := created ip e]> (arp_table s) ->
    etharp_cached_entry s' = etharp_cached_entry s -> Q (Z.of_nat i) s') ->
  wp (set_entry i (fun e => set_ctime 0 (set_ipaddr ip e)) ;; ret (Z.of_nat i)) Q s.
Proof.
  intros I E <- HQ. destruct (inv_entry _ _ _ _ _ I E) as [Hok _]. destruct (created_ok ip _ Hok) as [H1 H2].
  apply wp_bind, (wp_set_entry i _ (cleared e)); [done|]. apply wp_ret, HQ; try done.
  - by eapply inv_set_entry.
  - split; try done. apply same_packets_refl.
Qed.

Lemma wp_find_entry s extra R ip flags Q : net_inv s extra R ->
  (forall r s', net_inv s' extra R -> frame extra s s' -> find_result ip flags (arp_table s) r (arp_table s') ->
    etharp_cached_entry s' = etharp_cached_entry s -> Q r s') ->
  wp (etharp_find_entry ip flags) Q s.
Proof.
  intros I HQ. unfold etharp_find_entry. apply wp_bind, (wp_gets _ (arp_table s)); [done|].
  pose proof (ni_len _ _ _ I) as Hl.
  assert (Forall (fun e => 0 <= ctime e) (arp_table s)) as Hc.
  { eapply Forall_impl; [apply (ni_entries _ _ _ I)|]. intros e He%entry_ok_ctime. lia. }
  pose proof (search_table ip _ Hl Hc) as Hs. destruct (search ip 0 (arp_table s) no_candidates) as [i|c].
  { destruct Hs as (e & E & Hn & Hip). apply wp_ret, HQ; [done|apply frame_refl| |done]. by eapply find_known. }
  destruct Hs as [Hu [Ce Cs Cp Cq]].
  fold (find_only flags). replace (Z.land flags ETHARP_FLAG_TRY_HARD =? 0) with (negb (try_hard flags))
    by (unfold try_hard; apply negb_involutive).
  assert (empty c = ARP_TABLE_SIZE <-> full (arp_table s)) as Hfull.
  { destruct Ce as [(-> & Hf)|(e & E & Hn & _)]; [done|]. split; intros H.
    - apply lookup_lt_Some in E. lia.
    - destruct Hn. apply H. by eapply list_elem_of_lookup_2. }
  destruct (find_only flags || (bool_decide (empty c = ARP_TABLE_SIZE) && negb (try_hard flags))) eqn:D.
  { apply wp_ret, HQ; [done|apply frame_refl| |done]. apply find_none; [done|].
    apply orb_true_iff in D as [D|D]; [by left|right].
    apply andb_true_iff in D as [D%bool_decide_eq_true D'%negb_true_iff]. by rewrite <-Hfull. }
  apply orb_false_iff in D as [Df D].
  assert (~ full (arp_table s) \/ try_hard flags = true) as Hmay.
  { apply andb_false_iff in D as [D%bool_decide_eq_false|D%negb_false_iff]; [left|by right]. by rewrite <-Hfull. }
  assert (forall i e, arp_table s !! i = Some e -> victim (arp_table s) i ->
    wp (etharp_free_entry i ;; set_entry i (fun e => set_ctime 0 (set_ipaddr ip e)) ;; ret (Z.of_nat i)) Q s) as Hrec.
  { intros i e E Hv. apply wp_bind. eapply wp_free_entry; [done..|]. intros s1 I1 F1 T1 C1.
    pose proof (lookup_lt_Some _ _ _ E) as Hlt.
    eapply (wp_create s1 extra R i e (cleared e)); [done|rewrite T1; by apply list_lookup_insert_eq|done|].
    intros s2 I2 F2 T2 C2. apply HQ; [done|by eapply frame_trans| |congruence].
    rewrite T2, T1, list_insert_insert_eq. by apply find_new. }
  cbv zeta. destruct (decide (empty c < ARP_TABLE_SIZE)%nat) as [He|He].
  { destruct Ce as [(H' & _)|(e & E & Hn & Hfst)]; [lia|].
    assert (cleared e = e) as Hcl.
    { destruct (inv_entry _ _ _ _ _ I E) as [(Hq & _) _]. destruct e as [qe ? ? ? st ?]. unfold non_empty in Hn.
      cbn in Hn, Hq. destruct (decide (st = ETHARP_STATE_EMPTY)) as [->|]; [|done].
      destruct (Z.eq_dec qe 0) as [->|Hz]; [done|]. by specialize (Hq Hz). }
    eapply (wp_create s extra R (empty c) e e); [done..|]. intros s' I' F' T' C'. apply HQ; try done.
    rewrite T'. apply find_new; try done. left. right. eauto. }
  assert (full (arp_table s)) as Hfl by (destruct Ce as [[_ ?]|(e & E%lookup_lt_Some & _)]; [done|lia]).
  destruct (decide (old_stable c < ARP_TABLE_SIZE)%nat) as [Hs|Hs].
  { destruct (oldest_some _ _ _ _ Cs Hs) as (e & E & _). eapply Hrec; [done|]. right. split; [done|]. left. eauto. }
  pose proof (oldest_none _ _ _ _ Hl Cs Hs) as Ns.
  destruct (decide (old_pending c < ARP_TABLE_SIZE)%nat) as [Hp|Hp].
  { destruct (oldest_some _ _ _ _ Cp Hp) as (e & E & _). eapply Hrec; [done|]. right. split; [done|]. right.
    split; [done|]. left. eauto. }
  pose proof (oldest_none _ _ _ _ Hl Cp Hp) as Np.
  destruct (decide (old_queue c < ARP_TABLE_SIZE)%nat) as [Hq|Hq].
  { destruct (oldest_some _ _ _ _ Cq Hq) as (e & E & _). eapply Hrec; [done|]. right. split; [done|]. right.
    split; [done|]. right. split; [done|]. eauto. }
  pose proof (oldest_none _ _ _ _ Hl Cq Hq) as Nq. exfalso.
  destruct (arp_table s) as [|e t]; [done|].
  destruct (entry_kinds e) as [H|[H|H]]; [apply Hfl; by left|by eapply Ns; [left|]|by eapply Np; [left|]|by eapply Nq; [left|]].
Qed.

(** ** Updating an entry *)

(** The entry with its address resolved. *)
Definition resolved (n : Z) (eth : list Z) (e : etharp_entry) : etharp_entry :=
  mk_entry 0 (ipaddr e) n eth ETHARP_STATE_STABLE 0.

Definition unicast (ip : Z) (nif : netif) : bool :=
  negb (ip_addr_isany ip || ip_addr_isbroadcast ip nif || ip_addr_ismulticast ip).

Inductive update_result (ip flags n : Z) (eth : list Z) (nif : netif) (t : list etharp_entry)
    : Z -> list etharp_entry -> Prop :=
  | update_arg : unicast ip nif = false -> update_result ip flags n eth nif t ERR_ARG t
  | update_mem : unicast ip nif = true -> find_result ip flags t ERR_MEM t ->
      update_result ip flags n eth nif t ERR_MEM t
  | update_done i t1 e : unicast ip nif = true -> find_result ip flags t (Z.of_nat i) t1 -> t1 !! i = Some e ->
      ipaddr e = ip -> update_result ip flags n eth nif t ERR_OK (<[i := resolved n eth e]> t1).

(** The entry found or created is the only one for the address. *)
Lemma find_result_entry ip flags t i t1 : uniq t -> find_result ip flags t (Z.of_nat i) t1 ->
  exists e, t1 !! i = Some e /\ ipaddr e = ip /\
    forall j d, j ≠ i -> t1 !! j = Some d -> non_empty d -> ipaddr d ≠ ip.
Proof.
  intros U H. inversion H as [i' e E Hn Hi Hk|Hu Hf Hk|i' e Hu Hf Ht E Hv Hk]; subst.
  - apply Nat2Z.inj in Hk as ->. exists e. split; [done|]. split; [done|]. intros j d Hj Ej Nd Ed.
    apply Hj. eapply U; [exact Ej|exact E|done|done|done].
  - unfold ERR_MEM in Hk. lia.
  - apply Nat2Z.inj in Hk as ->. pose proof (lookup_lt_Some _ _ _ E) as Hl. exists (created ip e).
    split; [by apply list_lookup_insert_eq|]. split; [done|]. intros j d Hj Ej Nd.
    rewrite list_lookup_insert_ne in Ej by done. apply Hu; [by eapply list_elem_of_lookup_2|done].
Qed.

Lemma find_result_cases ip flags t r t1 : find_result ip flags t r t1 ->
  (r = ERR_MEM /\ t1 = t) \/ exists i, r = Z.of_nat i.
Proof. intros []; [right; eauto|by left|right; eauto]. Qed.

Lemma wp_update s extra R n nif ip eth flags Q : net_inv s extra R -> netifs s !! n = Some nif ->
  length eth = 6%nat -> Z.of_nat (length extra) < 49999 ->
  (forall r s', net_inv s' extra R -> frame extra s s' ->
    update_result ip flags n eth nif (arp_table s) r (arp_table s') -> Q r s') ->
  wp (etharp_update_arp_entry n ip eth flags) Q s.
Proof.
  intros I En H6 Hx HQ. unfold etharp_update_arp_entry. apply wp_bind, (wp_gets _ nif); [done|].
  destruct (ip_addr_isany ip || ip_addr_isbroadcast ip nif || ip_addr_ismulticast ip) eqn:Hu.
  { apply wp_ret, HQ; [done|apply frame_refl|]. apply update_arg. unfold unicast. by rewrite Hu. }
  assert (unicast ip nif = true) as Huni by (unfold unicast; by rewrite Hu).
  apply wp_bind. eapply wp_find_entry; [done|]. intros r s1 I1 F1 Hf C1.
  destruct (find_result_cases _ _ _ _ _ Hf) as [[-> Ht]|[i ->]].
  { cbn [Z.ltb Z.compare ERR_MEM]. apply wp_ret, HQ; [done|done|]. rewrite Ht in Hf |- *. by apply update_mem. }
  rewrite (proj2 (Z.ltb_ge (Z.of_nat i) 0)) by lia. rewrite Nat2Z.id. cbv zeta.
  destruct (find_result_entry _ _ _ _ _ (ni_uniq _ _ _ I) Hf) as (e & E & Hip & Hoth).
  pose proof (lookup_lt_Some _ _ _ E) as Hlt.
  assert (entry_ok (resolved n eth e)) as Hok by (split; [done|]; split; [done|]; cbn; unfold ARP_MAXAGE; lia).
  apply wp_bind, (wp_set_entry i _ e); [done|].
  apply wp_bind, (wp_set_entry i _ (set_state ETHARP_STATE_STABLE e)); [by apply list_lookup_insert_eq|].
  cbn [arp_table with_table]. rewrite list_insert_insert_eq.
  apply wp_bind. eapply wp_set_entry; [by apply list_lookup_insert_eq|].
  cbn [arp_table with_table]. rewrite list_insert_insert_eq.
  apply wp_bind. eapply wp_set_entry; [by apply list_lookup_insert_eq|].
  cbn [arp_table with_table]. rewrite list_insert_insert_eq.
  apply wp_bind. eapply wp_entry; [by apply list_lookup_insert_eq|]. cbn [q set_ctime set_ethaddr set_netif set_state].
  apply wp_bind, wp_when.
  - intros Hz%negb_true_iff%Z.eqb_neq.
    apply wp_bind. eapply wp_set_entry; [by apply list_lookup_insert_eq|].
    cbn [arp_table with_table]. rewrite list_insert_insert_eq.
    change (set_q 0 _) with (resolved n eth e).
    change (with_table (<[i := resolved n eth e]> (arp_table s1)) _)
      with (with_table (<[i := resolved n eth e]> (arp_table s1)) s1).
    set (s2 := with_table (<[i := resolved n eth e]> (arp_table s1)) s1).
    destruct (inv_entry _ _ _ _ _ I1 E) as [_ Hqo]. destruct (Hqo Hz) as (b & Eb & Rb & Cb & Lb).
    assert (net_inv s2 (q e :: extra) R) as I2.
    { eapply inv_dequeue; try done. intros _ j d Hj Ej Nd. cbn [ipaddr resolved]. rewrite Hip. eauto. }
    assert (frame extra s s2) as F2 by (eapply frame_trans; [exact F1|]; split; try done; apply same_packets_refl).
    destruct (exclusive (ps s2) (q e) ((extra ++ queued (arp_table s2)) ++ drv (world s2)) ((R ++ pcb_mem (ips s2)) ++ held (world s2)) b (ni_refs _ _ _ I2) Eb Rb)
      as (_ & _ & Hex).
    apply wp_bind. eapply (wp_send_ip s2 (q e :: extra) extra R n (q e) _ _ b); [done|by left| |done|done|done|done| | | |].
    + cbn [length]. lia.
    + eapply (ni_hw _ _ _ I). exact En.
    + intros a Ha. by right.
    + intros a c Ha Hc. eapply Hex; [|exact Hc]. set_solver.
    + intros _ s3 I3 F3 T3. apply wp_bind. eapply wp_free; [exact I3|]. intros _ s4 I4 F4 T4.
      apply wp_ret, wp_ret, HQ; [done| |].
      * eapply frame_trans; [exact F2|]. eapply frame_trans; [exact F3|exact F4].
      * destruct T3 as [T3 _], T4 as [T4 _]. rewrite T4, T3. by eapply update_done.
  - intros Hz%negb_false_iff%Z.eqb_eq. apply wp_ret.
    assert (set_ctime 0 (set_ethaddr eth (set_netif n (set_state ETHARP_STATE_STABLE e))) = resolved n eth e) as ->.
    { unfold set_ctime, set_ethaddr, set_netif, set_state, resolved. cbn. by rewrite Hz. }
    apply HQ; [| |by eapply update_done].
    + change (net_inv (with_table (<[i := resolved n eth e]> (arp_table s1)) s1) extra R).
      eapply inv_set_entry; try done. intros _ j d Hj Ej Nd. cbn [ipaddr resolved]. rewrite Hip. eauto.
    + eapply frame_trans; [exact F1|]. split; try done. apply same_packets_refl.
Qed.

(** ** Building packets *)

(** The bytes [l] written over [x] from offset [off]. *)
Definition splice (off : Z) (l x : list Z) : list Z :=
  take (Z.to_nat off) x ++ l ++ drop (Z.to_nat off + length l) x.

Lemma read_write a off l n m : 0 <= off -> off + Z.of_nat (length l) <= n ->
  read_bytes (write_bytes (a + off) l m) a n = splice off l (read_bytes m a n).
Proof.
  intros Ho Hl. rewrite !read_bytes_rd, write_bytes_wr. unfold splice.
  set (k := Z.of_nat (length l)) in *.
  assert (seqZ a n = seqZ a off ++ seqZ (a + off) k ++ seqZ (a + off + k) (n - off - k)) as Hs.
  { replace n with (off + (k + (n - off - k))) at 1 by lia. rewrite seqZ_app by lia. f_equal.
    by rewrite seqZ_app by lia. }
  rewrite Hs, !fmap_app.
  assert (length (rd m <$> seqZ a off) = Z.to_nat off) as L1 by (by rewrite length_fmap, length_seqZ).
  assert (length (rd m <$> seqZ (a + off) k) = length l) as L2 by (rewrite length_fmap, length_seqZ; lia).
  f_equal; [|f_equal].
  - rewrite take_app_le, take_ge by lia. apply wr_rd_other. intros x Hx Hy. apply elem_of_seqZ in Hx, Hy. lia.
  - apply wr_rd_same; [apply NoDup_seqZ|]. rewrite length_seqZ. lia.
  - rewrite app_assoc, drop_app_ge by (rewrite length_app; lia).
    rewrite length_app, L1, L2, Nat.sub_diag, drop_0. apply wr_rd_other.
    intros x Hx Hy. apply elem_of_seqZ in Hx, Hy. lia.
Qed.

Lemma bind_run {X Y} (m : M A W X) (f : X -> M A W Y) s x s' : m s = Some (x, s') -> bind m f s = f x s'.
Proof. unfold bind. by intros ->. Qed.

(** The packets of [keep] do not have the pbuf [p] in them. *)
Definition apart (p : Z) (keep : list Z) s : Prop :=
  forall a c, a ∈ keep -> chain (bufs (ps s)) a c 0 -> p ∉ c.*1.

(** [s] is [s0] with the data [L] in the pbuf [b] at [p], which nobody else keeps. *)
Record own_state s0 (p : Z) (b : pbuf) (extra : list Z) (R : list block) (L : list Z) s : Prop := {
  os_ps : s = with_ps (ps s) s0;
  os_bufs : bufs (ps s) = bufs (ps s0);
  os_inv : net_inv s (p :: extra) R;
  os_frame : frame extra s0 s;
  os_data : read_bytes (bytes (ps s)) (payload b) (len b) = L }.

Lemma own_step s0 p b extra R L s off l : own_state s0 p b extra R L s ->
  bufs (ps s0) !! p = Some b -> apart p extra s0 -> carries b -> 0 <= off -> off + Z.of_nat (length l) <= len b ->
  exists s', store p off l s = Some (tt, s') /\ own_state s0 p b extra R (splice off l L) s'.
Proof.
  intros [Hp Hb I F D] E Hr Hc Ho Hl. rewrite <-Hb in E.
  eexists. split; [by eapply store_eq|]. split.
  - by rewrite Hp.
  - done.
  - by apply inv_bytes.
  - eapply frame_trans; [exact F|]. destruct (ri_pinv _ _ _ (ni_refs _ _ _ I)) as [B Ip].
    split; try done. cbn [ps with_ps]. eapply write_same; try done.
    intros a c Ha Hch. rewrite Hb in Hch. by eapply Hr.
  - cbn [ps with_ps bytes with_bytes]. rewrite read_write by lia. by rewrite D.
Qed.

(** An ARP packet with its Ethernet header (RFC 826). *)
Definition arp_frame (ethdst ethsrc hwsrc : list Z) (ipsrc : Z) (hwdst : list Z) (ipdst opcode : Z) : list Z :=
  ethdst ++ ethsrc ++ [0x08; 0x06] ++                     (* Ethernet header, type ARP *)
  [0; 1] ++ [0x08; 0x00] ++ [6] ++ [4] ++ [0; opcode] ++  (* Ethernet, IP, lengths, operation *)
  hwsrc ++ bytes32 ipsrc ++ hwdst ++ bytes32 ipdst.

(** Where the frame goes: link-local senders use broadcast. *)
Definition raw_dst (ipsrc : Z) (ethdst : list Z) : list Z :=
  if ip_addr_islinklocal ipsrc then ethbroadcast else ethdst.

Lemma list6 (l : list Z) : length l = 6%nat -> exists a b c d e f, l = [a; b; c; d; e; f].
Proof. intros H. do 6 (destruct l as [|? l]; [done|]). destruct l; [eauto 10|done]. Qed.

(** [etharp_raw] when memory is there: the frame is built, sent and freed. *)
Lemma raw_run s extra R n ethsrc ethdst hwsrc ipsrc hwdst ipdst opcode : net_inv s extra R ->
  length ethsrc = 6%nat -> length ethdst = 6%nat -> length hwsrc = 6%nat -> length hwdst = 6%nat ->
  0 <= opcode < 256 ->
  (exists s', etharp_raw n ethsrc ethdst hwsrc ipsrc hwdst ipdst opcode s = Some (ERR_MEM, s') /\
    net_inv s' extra R /\ frame extra s s' /\ same_table s s' /\
    exists s0, pbufs (pbuf_alloc PBUF_RAW SIZEOF_ETHARP_PACKET PBUF_RAM) s = Some (0, s0)) \/
  (exists p b s0 s1, bufs (ps s) !! p = None /\ bufs (ps s0) !! p = Some b /\ len b = SIZEOF_ETHARP_PACKET /\
    next b = 0 /\ apart p extra s0 /\ same_table s s0 /\ frame extra s s0 /\
    own_state s0 p b extra R (arp_frame (raw_dst ipsrc ethdst) ethsrc hwsrc ipsrc hwdst ipdst opcode) s1 /\
    etharp_raw n ethsrc ethdst hwsrc ipsrc hwdst ipdst opcode s =
    (result <- link_output n p ;; inc_stat etharp_xmit ;; pbufs (pbuf_free p) ;; ret result) s1).
Proof.
  intros I L1 L2 L3 L4 Hop. unfold etharp_raw.
  destruct (wp_run _ _ _ (wp_alloc s extra R PBUF_RAW SIZEOF_ETHARP_PACKET PBUF_RAM
    (fun p s' => (p = 0 /\ net_inv s' extra R /\ frame extra s s' /\ same_table s s') \/
      (exists b, p ≠ 0 /\ net_inv s' (p :: extra) R /\ frame extra s s' /\ same_table s s' /\
        bufs (ps s) !! p = None /\ bufs (ps s') !! p = Some b /\ fresh_pbuf PBUF_RAM b /\
        len b = SIZEOF_ETHARP_PACKET /\ next b = 0)) I ltac:(unfold SIZEOF_ETHARP_PACKET, SIZEOF_ETH_HDR, SIZEOF_ETHARP_HDR; lia)
    ltac:(by left) ltac:(intros p b l s' Hp I' F' T' Hc X Hf Ht Hl Hpool;
      assert (l = []) as -> by (by apply Hpool); destruct Hc as (_ & _ & Eb & Hn); destruct Ht as (Ht & _);
      right; exists b; cbn [tot chain] in *; specialize (X p); rewrite decide_True in X by (by left);
      do 7 (split; [done|]); split; [lia|done])))
    as (p & s0 & E0 & [(-> & I0 & F0 & T0)|(b & Hp & I0 & F0 & T0 & Fr & Eb & (Ty & Rb & _) & Lb & Nb)]).
  { left. rewrite (bind_run _ _ _ _ _ E0). cbn [Z.eqb]. eexists. split; [done|].
    split; [by apply inv_stats|]. split; [by apply frame_stats|]. split; [done|by exists s0]. }
  right. rewrite (bind_run _ _ _ _ _ E0), (proj2 (Z.eqb_neq p 0)) by done. exists p, b, s0.
  assert (carries b) as Cb by (by left).
  assert (own_state s0 p b extra R (read_bytes (bytes (ps s0)) (payload b) (len b)) s0) as O.
  { split; [by destruct s0|done|done|apply frame_refl|done]. }
  assert (apart p extra s0) as Ha.
  { intros a c Hin Hch. destruct (exclusive _ _ _ _ _ (ni_refs _ _ _ I0) Eb Rb) as (_ & _ & Hex).
    eapply Hex; [|exact Hch]. set_solver. }
  assert (length (raw_dst ipsrc ethdst) = 6%nat) as L5 by (unfold raw_dst; by destruct (ip_addr_islinklocal ipsrc)).
  pose proof (read_bytes_length (bytes (ps s0)) (payload b) (len b)) as Lx.
  set (x := read_bytes (bytes (ps s0)) (payload b) (len b)) in *. clearbody x.
  unfold SIZEOF_ETHARP_PACKET, SIZEOF_ETH_HDR, SIZEOF_ETHARP_HDR in *.
  cbv zeta. fold (raw_dst ipsrc ethdst).
  assert (forall off (l : list Z), 0 <= off -> off + Z.of_nat (length l) <= 42 -> forall L s2, own_state s0 p b extra R L s2 ->
    exists s3, store p off l s2 = Some (tt, s3) /\ own_state s0 p b extra R (splice off l L) s3) as Step.
  { intros off l Ho Hl L s2 O2. apply own_step; try done. lia. }
  do 12 (match type of O with own_state _ _ _ _ _ _ ?sx =>
    match goal with |- context [bind (store p ?off ?l) _ sx] =>
      let E' := fresh "E" in let O' := fresh "O" in let s' := fresh "s" in
      destruct (Step off l ltac:(lia) ltac:(rewrite ?L1, ?L3, ?L4, ?L5; cbn [length bytes16 bytes32]; lia) _ _ O)
        as (s' & E' & O'); rewrite (bind_run _ _ _ _ _ E'); clear E' O; rename O' into O
    end end).
  eexists. do 7 (split; [done|]). split; [|reflexivity].
  match type of O with own_state _ _ _ _ _ ?L _ => replace (arp_frame _ _ _ _ _ _ _) with L; [exact O|] end.
  clear O Step.
  assert (bytes16 (Chksum.lwip_htons opcode) = [0; opcode]) as ->.
  { rewrite Chksum.htons_swap, Chksum.swap_div. unfold bytes16.
    rewrite (Z.mod_small opcode 256), (Z.div_small opcode 256) by lia. f_equal; [|f_equal].
    - rewrite Z.add_0_r. apply Z.mod_mul. lia.
    - rewrite Z.add_0_r, Z.div_mul by lia. apply Z.mod_small. lia. }
  change (bytes16 (PP_HTONS HWTYPE_ETHERNET)) with [0; 1].
  change (bytes16 (PP_HTONS ETHTYPE_IP)) with [0x08; 0x00].
  change (bytes16 (PP_HTONS ETHTYPE_ARP)) with [0x08; 0x06].
  rewrite Lb in Lx. change (Z.to_nat (14 + 28)) with 42%nat in Lx.
  apply list6 in L1 as (?&?&?&?&?&?&->), L3 as (?&?&?&?&?&?&->), L4 as (?&?&?&?&?&?&->), L5 as (?&?&?&?&?&?&->).
  do 42 (destruct x as [|? x]; [done|]). destruct x; [|done]. reflexivity.
Qed.

Lemma wp_raw s extra R n ethsrc ethdst hwsrc ipsrc hwdst ipdst opcode Q : net_inv s extra R ->
  length ethsrc = 6%nat -> length ethdst = 6%nat -> length hwsrc = 6%nat -> length hwdst = 6%nat ->
  0 <= opcode < 256 -> Z.of_nat (length extra) < 49999 ->
  (forall r s', net_inv s' extra R -> frame extra s s' -> same_table s s' -> Q r s') ->
  wp (etharp_raw n ethsrc ethdst hwsrc ipsrc hwdst ipdst opcode) Q s.
Proof.
  intros I L1 L2 L3 L4 Hop Hx HQ. unfold wp.
  destruct (raw_run s extra R n ethsrc ethdst hwsrc ipsrc hwdst ipdst opcode I L1 L2 L3 L4 Hop)
    as [(s' & -> & I' & F' & T' & _)|(p & b & s0 & s1 & _ & _ & _ & _ & Ha & T0 & F0 & O & ->)]; [by apply HQ|].
  destruct O as [Hs Hbf I1 F1 _]. unfold apart in Ha. rewrite <-Hbf in Ha.
  assert (same_table s0 s1) as T1 by (rewrite Hs; done).
  change (wp (result <- link_output n p ;; inc_stat etharp_xmit ;; pbufs (pbuf_free p) ;; ret result) Q s1).
  apply wp_bind. eapply (wp_link s1 (p :: extra) extra); [exact I1|by left|cbn [length]; lia|by intros a Hin; right|exact Ha|]. intros r s2 I2 F2 T2.
  apply wp_bind, wp_inc_stat. intros f. apply wp_bind. eapply wp_free; [apply inv_stats; exact I2|].
  intros _ s3 I3 F3 T3. apply wp_ret, HQ; [done| |].
  - eapply frame_trans; [exact F0|]. eapply frame_trans; [exact F1|].
    eapply frame_trans; [|exact F3]. by apply frame_stats.
  - eapply same_table_trans; [exact T0|]. eapply same_table_trans; [exact T1|].
    eapply same_table_trans; [exact T2|]. destruct T3. by split.
Qed.

Lemma wp_request s extra R n nif ip Q : net_inv s extra R -> netifs s !! n = Some nif ->
  Z.of_nat (length extra) < 49999 ->
  (forall r s', net_inv s' extra R -> frame extra s s' -> same_table s s' -> Q r s') ->
  wp (etharp_request n ip) Q s.
Proof.
  intros I En Hx HQ. unfold etharp_request. apply wp_bind, (wp_gets _ nif); [done|].
  pose proof (ni_hw _ _ _ I n nif En). eapply wp_raw; try done.
Qed.

(** A packet the caller hands down: kept by the caller, the first pbuf of its
    chain, with its data behind the struct and room for the Ethernet header. *)
Record sendable (p : Z) (extra : list Z) s (b : pbuf) : Prop := {
  sd_in : p ∈ extra;
  sd_buf : bufs (ps s) !! p = Some b;
  sd_carries : carries b }.

(** What is known of a packet carries over. *)
Lemma packet_kept extra s s' R p b : net_inv s extra R -> same_packets (ps s) (ps s') extra -> p ∈ extra ->
  bufs (ps s) !! p = Some b -> exists b', bufs (ps s') !! p = Some b' /\ strip b = strip b' /\
    (carries b -> read_bytes (bytes (ps s')) (payload b') (len b') = read_bytes (bytes (ps s)) (payload b) (len b)).
Proof.
  intros I F Hp E. destruct (ri_chain _ _ _ (ni_refs _ _ _ I) p b E) as (l & Hc & _).
  destruct (F p _ Hp Hc) as (l' & Hc' & Es & _ & Hd).
  destruct l' as [|[x d] l']; [done|]. destruct Hc' as (<- & _ & Ed & _). exists d. split; [done|].
  assert (strip b = strip d) as Hs.
  { apply (f_equal (fun l => snd <$> head l)) in Es. cbn in Es. by injection Es; intros; unfold strip, set_ref; congruence. }
  split; [done|]. destruct (strip_eq _ _ Hs) as (_ & Hpl & _ & Hl & _). intros Hcb. rewrite <-Hpl, <-Hl. apply (Hd p b); [by left|done].
Qed.

Lemma frame_buf extra s s' R p b : net_inv s extra R -> frame extra s s' -> p ∈ extra ->
  bufs (ps s) !! p = Some b -> exists b', bufs (ps s') !! p = Some b' /\ strip b = strip b'.
Proof. intros I F Hp E. destruct (packet_kept _ _ _ _ _ _ I (fr_packets _ _ _ F) Hp E) as (b' & ? & ? & _). eauto. Qed.

Lemma packets_apart extra keep s s' R p : net_inv s extra R -> same_packets (ps s) (ps s') extra ->
  (forall a, a ∈ keep -> a ∈ extra) -> apart p keep s -> apart p keep s'.
Proof.
  intros I F Hk Ha a c Hin Hc Hp.
  destruct (ri_get _ _ _ a (ni_refs _ _ _ I) ltac:(set_solver)) as [b E].
  destruct (ri_chain _ _ _ (ni_refs _ _ _ I) a b E) as (l & Hc0 & _).
  destruct (F a _ (Hk a Hin) Hc0) as (l' & Hc' & Es & _).
  rewrite (chain_det _ _ _ _ Hc Hc') in Hp. apply (Ha a _ Hin Hc0).
  assert (forall l, (stripped l).*1 = l.*1) as Hf by (intros l0; unfold stripped; by rewrite <-list_fmap_compose).
  rewrite <-Hf, <-Es, Hf. done.
Qed.

Lemma frame_apart extra keep s s' R p : net_inv s extra R -> frame extra s s' ->
  (forall a, a ∈ keep -> a ∈ extra) -> apart p keep s -> apart p keep s'.
Proof. intros I F. eapply packets_apart; [done|apply F]. Qed.

Lemma wp_output_index s extra keep R n nif p b i e Q : net_inv s extra R -> netifs s !! n = Some nif ->
  Z.of_nat (length extra) < 49999 -> sendable p extra s b -> SIZEOF_ETH_HDR <= len b ->
  (forall a, a ∈ keep -> a ∈ extra) -> apart p keep s ->
  arp_table s !! i = Some e -> stable e ->
  (forall r s', net_inv s' extra R -> frame keep s s' ->
    (same_table s s' \/ arp_table s' = <[i := set_state ETHARP_STATE_STABLE_REREQUESTING e]> (arp_table s) /\
      e_state e = ETHARP_STATE_STABLE /\ ARP_AGE_REREQUEST_USED <= ctime e /\
      etharp_cached_entry s' = etharp_cached_entry s) -> Q r s') ->
  wp (etharp_output_to_arp_index n p i) Q s.
Proof.
  intros I En Hx [Hp E Cb] Hl Hk Ha Ei He HQ. unfold etharp_output_to_arp_index.
  apply wp_bind, (wp_gets _ nif); [done|]. apply wp_bind, (wp_entry i e); [done|].
  destruct (inv_entry _ _ _ _ _ I Ei) as [(Hq & H6 & Hc) _].
  pose proof (ni_hw _ _ _ I n nif En) as Hhw.
  assert (forall s1 e1, net_inv s1 extra R -> frame extra s s1 -> arp_table s1 !! i = Some e1 -> ethaddr e1 = ethaddr e ->
    (same_table s s1 \/ arp_table s1 = <[i := set_state ETHARP_STATE_STABLE_REREQUESTING e]> (arp_table s) /\
      e_state e = ETHARP_STATE_STABLE /\ ARP_AGE_REREQUEST_USED <= ctime e /\
      etharp_cached_entry s1 = etharp_cached_entry s) ->
    wp (e <- entry i ;; etharp_send_ip n p (hwaddr nif) (ethaddr e)) Q s1) as Hsend.
  { intros s1 e1 I1 F1 E1 Heq HT. apply wp_bind, (wp_entry i e1); [done|]. rewrite Heq.
    destruct (frame_buf _ _ _ _ _ _ I F1 Hp E) as (b1 & Eb1 & Es).
    pose proof (strip_eq _ _ Es) as (_ & _ & _ & El & _).
    eapply (wp_send_ip s1 extra keep R n p _ _ b1); try done.
    - lia.
    - by eapply carries_strip.
    - lia.
    - by eapply (frame_apart extra keep s s1).
    - intros r s2 I2 F2 [T2 C2]. apply HQ; [done| |].
      + eapply frame_trans; [|exact F2]. by eapply frame_sub.
      + destruct HT as [[T1 C1]|(T1 & H1 & H2 & C1)]; [left; split; congruence|right]. by rewrite T2, C2. }
  apply wp_bind, wp_when.
  - intros [St%bool_decide_eq_true Hage%Z.leb_le]%andb_true_iff.
    apply wp_bind. eapply (wp_request s extra R n nif); [done..|]. intros r s1 I1 F1 [T1 C1].
    assert (arp_table s1 !! i = Some e) as E1 by (by rewrite T1).
    apply wp_when; intros Hr.
    + eapply (wp_set_entry i _ e); [done|]. eapply (Hsend _ (set_state ETHARP_STATE_STABLE_REREQUESTING e)).
      * eapply inv_set_entry; [done|done|done| |].
        -- split; [|split; [done|]].
           ++ intros Hz. specialize (Hq Hz). cbn in Hz. congruence.
           ++ rewrite St in Hc. cbn. lia.
        -- intros _ j d Hj Ej Nd Ed. apply Hj. eapply (ni_uniq _ _ _ I1); [exact Ej|exact E1|done| |done].
           unfold non_empty. by rewrite St.
      * eapply frame_trans; [exact F1|]. split; try done. apply same_packets_refl.
      * cbn [arp_table with_table]. apply list_lookup_insert_eq. by eapply lookup_lt_Some.
      * done.
      * right. cbn [arp_table with_table etharp_cached_entry]. by rewrite T1.
    + eapply (Hsend s1 e); try done. by left.
  - intros _. eapply (Hsend s e); try done; [apply frame_refl|by left].
Qed.

(** ** Queueing *)

Lemma contents_ext_carried (m m' : gmap Z Z) l : Forall (fun x => carries x.2) l ->
  (forall x b, (x, b) ∈ l -> carries b -> read_bytes m (payload b) (len b) = read_bytes m' (payload b) (len b)) ->
  contents m l = contents m' l.
Proof.
  induction 1 as [|[a b] l Hb _ IH]; intros H; [done|]. rewrite !contents_cons. f_equal.
  - apply (H a); [by left|done].
  - apply IH. intros x d Hin. apply (H x). by right.
Qed.

Lemma wp_take_over s extra R p b Q : net_inv s extra R -> sendable p extra s b ->
  (forall s', net_inv s' extra R -> frame extra s s' -> same_table s s' -> Q 0 s') ->
  (forall c d s', c ≠ 0 -> net_inv s' (c :: extra) R -> frame extra s s' -> same_table s s' ->
    bufs (ps s') !! c = Some d -> ref d = 1 -> carries d -> len d = tot_len b ->
    (forall l, chain (bufs (ps s)) p ((p, b) :: l) 0 -> Forall (fun x => carries x.2) ((p, b) :: l) ->
      all_pos ((p, b) :: l) ->
      read_bytes (bytes (ps s')) (payload d) (len d) = contents (bytes (ps s)) ((p, b) :: l)) -> Q c s') ->
  wp (take_over p) Q s.
Proof.
  intros I [Hp E Cb] H0 H1. unfold take_over.
  pose proof (ni_refs _ _ _ I) as Ir. destruct (ri_nonzero _ _ _ _ _ Ir E) as [Hz _].
  destruct (ri_pinv _ _ _ Ir) as [B Ip]. destruct (pinv_get _ _ _ _ _ Ip E) as (_ & _ & _ & (_ & Htl & _)).
  destruct (ri_chain _ _ _ Ir p b E) as (l & Hc & Hok).
  apply wp_bind, (wp_gets _ p).
  { unfold chain_fuel. cbn [first_not_rom]. rewrite (proj2 (Z.eqb_neq p 0)), (E : get p (ps s) = _) by lia.
    cbn [mbind option_bind]. rewrite decide_False; [done|]. intros Ht. by destruct Cb as [Hb|Hb]; rewrite Hb in Ht. }
  rewrite (proj2 (Z.eqb_neq p 0)) by lia. apply wp_bind, (wp_gets _ b); [exact E|].
  apply wp_bind. eapply (wp_alloc s extra R PBUF_RAW (tot_len b) PBUF_RAM); [done|exact Htl| |].
  { intros s1 I1 F1 T1. cbn [Z.eqb]. apply wp_ret. by apply H0. }
  intros c d l1 s1 Hc0 I1 F1 T1 Hc1 X (Ty & Rd & _) Hok1 Htl1 Hpool.
  assert (l1 = []) as -> by (by apply Hpool). rewrite (proj2 (Z.eqb_neq c 0)) by done.
  pose proof Hok1 as (Hlen & _). cbn [tot] in Hlen. pose proof Hc1 as (_ & _ & Ed & _).
  assert (carries d) as Cd by (by left).
  assert (chain (bufs (ps s1)) p ((p, b) :: l) 0 /\ [(c, d)].*1 ## ((p, b) :: l).*1) as [Hcp Hdis].
  { split.
    - eapply chain_frame; [exact Hc|]. intros x Hx. apply list_elem_of_fmap in Hx as ([y f] & -> & Hin).
      destruct (chain_elem _ _ _ _ _ _ Hc Hin) as [Ef _]. specialize (X y). cbn [fst]. case_decide; congruence.
    - intros x ->%list_elem_of_singleton Hx. apply list_elem_of_fmap in Hx as ([y f] & Hy & Hin). cbn [fst] in Hy. subst y.
      destruct (chain_elem _ _ _ _ _ _ Hc Hin) as [Ef _]. specialize (X c). rewrite decide_True in X by (by left). congruence. }
  destruct (copy_refs (ps s1) _ _ c d [] p b l (ni_refs _ _ _ I1) Hc1 Hcp) as (e & m & Ec & _ & Hm).
  destruct (exclusive _ _ _ _ _ (ni_refs _ _ _ I1) Ed Rd) as (_ & _ & Hex).
  destruct (ri_pinv _ _ _ (ni_refs _ _ _ I1)) as [B1 Ip1].
  set (s2 := with_ps (with_bytes m (ps s1)) s1).
  assert (net_inv s2 (c :: extra) R) as I2 by (by apply inv_bytes).
  assert (frame extra s1 s2) as F2.
  { split; try done. cbn [ps s2 with_ps]. eapply bytes_same; [exact Ip1|exact Ed|done| |].
    - intros x Hx. apply Hm. rewrite addrs_cons. change (addrs []) with (@nil Z). by rewrite app_nil_r.
    - intros a c' Ha Hch. eapply Hex; [|exact Hch]. set_solver. }
  apply wp_bind. eapply wp_pbufs; [exact Ec|]. fold s2.
  destruct (Z.eqb_spec e ERR_OK) as [->|He].
  - apply wp_ret. eapply (H1 c d s2); [done|done| |done|exact Ed|done|done|lia|].
    + by eapply frame_trans.
    + intros l2 Hc2 Fc Pos. assert (l2 = l) as ->.
      { pose proof (chain_det _ _ _ _ Hc Hc2) as Hd. congruence. }
      assert (0 < tot_len b) as Hpos.
      { apply Forall_cons in Pos as [Hb _]. cbn [snd] in Hb. destruct Hok as (Hok & _ & _ & Hok').
        pose proof (tot_nonneg _ Hok'). lia. }
      destruct (copy_all (ps s1) B1 _ c d [] p b l Ip1 Hc1 Hcp) as (m' & Em & Hcont & _); try done.
      * repeat constructor. cbn [snd]. lia.
      * by repeat constructor.
      * lia.
      * rewrite Em in Ec. injection Ec as [= <-]. cbn [ps s2 with_ps bytes with_bytes].
        rewrite contents_cons in Hcont. change (contents m' []) with (@nil Z) in Hcont. rewrite app_nil_r in Hcont.
        rewrite Hcont.
        assert (contents (bytes (ps s1)) [(c, d)] = read_bytes (bytes (ps s1)) (payload d) (len d)) as Hcd
          by (rewrite contents_cons; apply app_nil_r).
        rewrite drop_ge, app_nil_r by (rewrite Hcd, read_bytes_length; lia).
        destruct (fr_packets _ _ _ F1 p _ Hp Hc) as (_ & _ & _ & _ & Hdata).
        apply contents_ext_carried; [done|]. intros x f Hin Hf. by eapply Hdata.
  - apply wp_bind. eapply wp_free; [exact I2|]. intros _ s3 I3 F3 T3. apply wp_ret, H0; [done| |].
    + eapply frame_trans; [exact F1|]. eapply frame_trans; [exact F2|exact F3].
    + eapply same_table_trans; [exact T1|]. eapply same_table_trans; [|exact T3]. done.
Qed.

(** The packet [c] becomes the one that waits in the entry [i]; the packet that
    waited there is the caller's. *)
Lemma inv_enqueue s extra R i e c d : net_inv s (c :: extra) R -> arp_table s !! i = Some e ->
  e_state e = ETHARP_STATE_PENDING -> c ≠ 0 -> bufs (ps s) !! c = Some d -> ref d = 1 -> carries d ->
  SIZEOF_ETH_HDR <= len d -> net_inv (with_table (<[i := set_q c e]> (arp_table s)) s) (qs e ++ extra) R.
Proof.
  intros I E Hp Hc Ed Rd Cd Ld. destruct (inv_entry _ _ _ _ _ I E) as [(_ & H6 & Ht) _].
  pose proof (ni_uniq _ _ _ I) as U. destruct I.
  split; cbn [arp_table with_table ps world netifs etharp_cached_entry]; try done.
  - assert (qs e ++ queued (<[i := set_q c e]> (arp_table s)) ≡ₚ c :: queued (arp_table s)) as Hq.
    { rewrite queued_insert by done. unfold qs at 1. cbn [q set_q]. by rewrite (proj2 (Z.eqb_neq c 0)). }
    assert ((qs e ++ extra) ++ queued (<[i := set_q c e]> (arp_table s)) ≡ₚ (c :: extra) ++ queued (arp_table s)) as ->; [|done].
    rewrite (Permutation_app_comm (qs e)), <-app_assoc, Hq. cbn [app]. by rewrite Permutation_middle.
  - by rewrite length_insert.
  - apply Forall_insert; [done|]. by split.
  - apply Forall_insert; [done|]. intros _. cbn [q set_q]. eauto.
  - eapply uniq_insert; [done|done|]. intros Hn j x Hj Ej Nx Ei. apply Hj. by eapply U.
Qed.

Definition enqueue (i : nat) (c : Z) : M A W Z :=
  e <- entry i ;;
  when (negb (q e =? 0)) (pbufs (pbuf_free (q e)) ;; ret tt) ;;
  set_entry i (set_q c) ;;
  ret ERR_OK.

Lemma wp_enqueue s extra R i e c d Q : net_inv s (c :: extra) R -> arp_table s !! i = Some e ->
  e_state e = ETHARP_STATE_PENDING -> c ≠ 0 -> bufs (ps s) !! c = Some d -> ref d = 1 -> carries d ->
  SIZEOF_ETH_HDR <= len d ->
  (forall s', net_inv s' extra R -> frame (c :: extra) s s' -> arp_table s' = <[i := set_q c e]> (arp_table s) ->
    etharp_cached_entry s' = etharp_cached_entry s -> Q ERR_OK s') ->
  wp (enqueue i c) Q s.
Proof.
  intros I E Hp Hc Ed Rd Cd Ld HQ.
  pose proof (inv_enqueue s extra R i e c d I E Hp Hc Ed Rd Cd Ld) as I0. unfold enqueue.
  apply wp_bind, (wp_entry i e); [done|]. apply wp_bind. unfold qs in I0.
  destruct (q e =? 0) eqn:Hz; cbn [negb when].
  - apply wp_ret, wp_bind, (wp_set_entry i _ e); [done|]. apply wp_ret, HQ; try done.
    split; try done. apply same_packets_refl.
  - cbn [app] in I0. set (s0 := with_table (<[i := set_q c e]> (arp_table s)) s) in *.
    destruct (free_refs (ps s) ((extra ++ queued (arp_table s0)) ++ drv (world s)) ((R ++ pcb_mem (ips s)) ++ held (world s)) (q e) (ni_refs _ _ _ I0))
      as (k & p' & Ef & Ir & Ey & Sh).
    destruct (wp_run _ _ _ (wp_free s0 extra R (q e) (fun _ s' => net_inv s' extra R) I0 ltac:(auto)))
      as (k1 & s1 & Er & I1).
    unfold pbufs in Er. cbn [ps with_table s0] in Er. rewrite Ef in Er. cbn [mbind option_bind] in Er.
    injection Er as _ <-.
    apply wp_bind. eapply wp_pbufs; [exact Ef|]. apply wp_ret, wp_bind, (wp_set_entry i _ e); [done|].
    apply wp_ret, HQ; try done. split; try done. cbn [ps with_ps with_table].
    eapply same_packets_sub; [|by eapply shrinks_same]. intros a [->|Ha]%elem_of_cons; [|set_solver].
    apply elem_of_app. left. apply elem_of_app. right. unfold queued, s0. cbn [arp_table with_table].
    apply list_elem_of_bind. exists (set_q c e). split.
    + unfold qs. cbn [q set_q]. rewrite (proj2 (Z.eqb_neq c 0)) by done. by left.
    + apply (list_elem_of_lookup_2 _ i), list_lookup_insert_eq. by eapply lookup_lt_Some.
Qed.

(** The packet [c] of [s'] has the data the packet [p] has in [s]. *)
Definition copy_of (p : Z) s (c : Z) s' : Prop :=
  exists d, bufs (ps s') !! c = Some d /\ forall b l, chain (bufs (ps s)) p ((p, b) :: l) 0 ->
    Forall (fun x => carries x.2) ((p, b) :: l) -> all_pos ((p, b) :: l) ->
    read_bytes (bytes (ps s')) (payload d) (len d) = contents (bytes (ps s)) ((p, b) :: l).

(** An entry that is asked for. *)
Definition asked (e : etharp_entry) : etharp_entry :=
  if decide (e_state e = ETHARP_STATE_EMPTY) then set_state ETHARP_STATE_PENDING e else e.

(** What [etharp_query] returns and does: refuse; ask; send at once; let the
    packet wait. *)
Inductive query_result (ip p : Z) (nif : netif) s : Z -> net A W -> Prop :=
  | query_arg s' : unicast ip nif = false -> arp_table s' = arp_table s ->
      query_result ip p nif s ERR_ARG s'
  | query_asked i t1 e r s' : unicast ip nif = true ->
      find_result ip ETHARP_FLAG_TRY_HARD (arp_table s) (Z.of_nat i) t1 -> t1 !! i = Some e ->
      p = 0 \/ (~ stable e /\ r = ERR_MEM) ->
      arp_table s' = <[i := asked e]> t1 -> query_result ip p nif s r s'
  | query_sent i e r s' : unicast ip nif = true -> arp_table s !! i = Some e -> ipaddr e = ip -> stable e ->
      p ≠ 0 -> arp_table s' = arp_table s -> query_result ip p nif s r s'
  | query_queued i t1 e c s' : unicast ip nif = true ->
      find_result ip ETHARP_FLAG_TRY_HARD (arp_table s) (Z.of_nat i) t1 -> t1 !! i = Some e -> ~ stable e ->
      p ≠ 0 -> c ≠ 0 -> arp_table s' = <[i := set_q c (asked e)]> t1 -> copy_of p s c s' ->
      query_result ip p nif s ERR_OK s'.

Lemma asked_ok e : entry_ok e -> (e_state e = ETHARP_STATE_EMPTY -> ctime e = 0) -> entry_ok (asked e).
Proof.
  intros (Hq & H6 & Hc) H0. unfold asked. case_decide as D; [|by split]. split; [done|]. split; [done|].
  cbn. rewrite (H0 D). done.
Qed.

Lemma asked_state e : e_state (asked e) ≠ ETHARP_STATE_EMPTY /\ (~ stable e -> e_state (asked e) = ETHARP_STATE_PENDING).
Proof. unfold asked, stable. case_decide as D; cbn; [done|]. split; [done|]. by destruct (e_state e). Qed.

Lemma find_hard ip t r t1 : find_result ip ETHARP_FLAG_TRY_HARD t r t1 -> exists i, r = Z.of_nat i.
Proof. intros [| _ [|[_ ?]] |]; eauto; done. Qed.

(** A new entry has age 0. *)
Lemma find_fresh ip flags t i t1 e : find_result ip flags t (Z.of_nat i) t1 -> t1 !! i = Some e ->
  e_state e = ETHARP_STATE_EMPTY -> ctime e = 0.
Proof.
  intros H. inversion H as [i' d E Hn Hi Hk|Hu Hf Hk|i' d Hu Hf Ht E Hv Hk]; subst.
  - apply Nat2Z.inj in Hk as ->. intros E' Hs. assert (d = e) as -> by congruence. done.
  - unfold ERR_MEM in Hk. lia.
  - apply Nat2Z.inj in Hk as ->. rewrite list_lookup_insert_eq by (by eapply lookup_lt_Some). by intros [= <-].
Qed.

(** An entry for the address, asked for. *)
Lemma wp_asked {X} s extra R ip (Y : Z -> M A W X) (K : Z -> M A W X) Q : net_inv s extra R ->
  (forall i e t1 s', net_inv s' extra R -> frame extra s s' ->
    find_result ip ETHARP_FLAG_TRY_HARD (arp_table s) (Z.of_nat i) t1 -> t1 !! i = Some e -> ipaddr e = ip ->
    arp_table s' = <[i := asked e]> t1 -> wp (K (Z.of_nat i)) Q s') ->
  wp (i <- etharp_find_entry ip ETHARP_FLAG_TRY_HARD ;;
      if i <? 0 then Y i
      else
        e <- entry (Z.to_nat i) ;;
        when (bool_decide (e_state e = ETHARP_STATE_EMPTY))
          (set_entry (Z.to_nat i) (set_state ETHARP_STATE_PENDING)) ;;
        K i) Q s.
Proof.
  intros I HQ. apply wp_bind. eapply wp_find_entry; [done|]. intros r s1 I1 F1 Hf _.
  destruct (find_hard _ _ _ _ Hf) as [i ->]. rewrite Nat2Z.id, (proj2 (Z.ltb_ge (Z.of_nat i) 0)) by lia.
  destruct (find_result_entry _ _ _ _ _ (ni_uniq _ _ _ I) Hf) as (e & E & Hip & Hoth).
  apply wp_bind, (wp_entry i e); [done|]. apply wp_bind, wp_when.
  - intros Hs%bool_decide_eq_true. apply (wp_set_entry i _ e); [done|].
    assert (asked e = set_state ETHARP_STATE_PENDING e) as Ha by (unfold asked; by rewrite decide_True).
    eapply HQ; [| |exact Hf|exact E|done|cbn [arp_table with_table]; by rewrite Ha].
    + rewrite <-Ha. destruct (inv_entry _ _ _ _ _ I1 E) as [Hok _]. eapply inv_set_entry; [done|done| | |].
      * by rewrite Ha.
      * apply asked_ok; [done|]. by eapply find_fresh.
      * rewrite Ha. cbn. rewrite Hip. eauto.
    + eapply frame_trans; [exact F1|]. split; try done. apply same_packets_refl.
  - intros Hs%bool_decide_eq_false. eapply HQ; [done|done|exact Hf|exact E|done|].
    unfold asked. rewrite decide_False by done. by rewrite list_insert_id.
Qed.

(** The caller's packet is still there after a step that frames it. *)
Lemma frame_sendable extra s s' R p b : net_inv s extra R -> frame extra s s' -> sendable p extra s b ->
  exists b', sendable p extra s' b' /\ len b' = len b /\ tot_len b' = tot_len b.
Proof.
  intros I F [Hp E Cb]. destruct (frame_buf _ _ _ _ _ _ I F Hp E) as (b' & E' & Es).
  pose proof (strip_eq _ _ Es) as (_ & _ & Ht & El & _). exists b'. split; [|by split].
  split; [done|done|]. by eapply carries_strip.
Qed.

Lemma stripped_cons a b l a' b' l' : stripped ((a, b) :: l) = stripped ((a', b') :: l') ->
  a = a' /\ strip b = strip b' /\ stripped l = stripped l'.
Proof.
  intros E. split; [by injection E|]. split; [|by injection E].
  apply (f_equal (fun l => snd <$> head l)) in E. cbn in E. by injection E; intros; unfold strip, set_ref; congruence.
Qed.

Lemma stripped_carries l l' : stripped l' = stripped l -> Forall (fun x => carries x.2) l -> all_pos l ->
  Forall (fun x => carries x.2) l' /\ all_pos l'.
Proof.
  intros Es Fc Pos. unfold all_pos in *. rewrite !Forall_forall in *.
  assert (forall x, x ∈ l' -> exists y, y ∈ l /\ strip y.2 = strip x.2) as H.
  { intros [a b] Hin. symmetry in Es. destruct (stripped_elem _ _ _ _ Es Hin) as (b' & Hin' & E). by exists (a, b'). }
  split; intros x (y & Hy & E)%H.
  - eapply carries_strip; [exact E|]. by apply Fc.
  - pose proof (strip_eq _ _ E) as (_ & _ & _ & <- & _). by apply Pos.
Qed.

(** Copies made after, and looked at before, steps that frame the packets. *)
Lemma copy_of_frame extra s s1 p c s' : p ∈ extra -> frame extra s s1 ->
  copy_of p s1 c s' -> copy_of p s c s'.
Proof.
  intros Hp F (d & Ed & Hd). exists d. split; [done|]. intros b l Hc Fc Pos.
  destruct (fr_packets _ _ _ F p _ Hp Hc) as (l' & Hc' & Es & _ & Hdata).
  destruct l' as [|[a b'] l']; [done|]. pose proof Hc' as (<- & _).
  destruct (stripped_carries _ _ Es Fc Pos) as [Fc' Pos'].
  rewrite (Hd b' l') by done. clear -Es Fc Hdata. 
  revert Es Fc Hdata. generalize ((p, b') :: l') as k, ((p, b) :: l) as k'. clear.
  intros k k'. revert k. induction k' as [|[a b] k' IH]; intros [|[a' b'] k] Es Fc Hdata; try done.
  apply Forall_cons in Fc as [Cb Fc]. apply stripped_cons in Es as (-> & (_ & Ep & _ & El & _)%strip_eq & Es).
  rewrite !contents_cons. f_equal.
  - rewrite Ep, El. by eapply Hdata; [left|].
  - apply IH; [done|done|]. intros x f Hin. apply (Hdata x). by right.
Qed.

Lemma copy_of_same p s c s1 s2 : same_packets (ps s1) (ps s2) [c] ->
  (exists d l, chain (bufs (ps s1)) c ((c, d) :: l) 0 /\ carries d) ->
  copy_of p s c s1 -> copy_of p s c s2.
Proof.
  intros Sp (d & l & Hc & Cd) (d' & Ed & Hd). pose proof Hc as (_ & _ & Ed' & _). assert (d' = d) as -> by congruence.
  destruct (Sp c _ ltac:(by left) Hc) as ([|[a b] k] & Hk & Es & _ & Hdata); [done|].
  pose proof Hk as (<- & _ & Eb & _). exists b. split; [done|].
  apply stripped_cons in Es as (_ & (_ & Ep & _ & El & _)%strip_eq & _). intros. rewrite Ep, El, (Hdata c d); [eauto|by left|done].
Qed.

Lemma find_stable_known ip flags t i t1 e : find_result ip flags t (Z.of_nat i) t1 -> t1 !! i = Some e ->
  is_stable (e_state (asked e)) = true -> stable e /\ t1 = t.
Proof.
  intros H E St. assert (stable e) as Se.
  { unfold asked in St. by case_decide. }
  split; [done|]. inversion H as [i' d E' Hn Hi Hk|Hu Hf Hk|i' d Hu Hf Ht E' Hv Hk]; subst; [done| |].
  - unfold ERR_MEM in Hk. lia.
  - apply Nat2Z.inj in Hk as ->. rewrite list_lookup_insert_eq in E by (by eapply lookup_lt_Some).
    injection E as <-. done.
Qed.

Lemma inv_cached s extra R i : net_inv s extra R -> (i < ARP_TABLE_SIZE)%nat ->
  net_inv (with_cached (Z.of_nat i) s) extra R.
Proof. intros [] Hi. split; try done. cbn. lia. Qed.

Lemma wp_query s extra keep R n nif ip p b Q : net_inv s extra R -> netifs s !! n = Some nif ->
  Z.of_nat (length extra) < 49998 -> (p ≠ 0 -> sendable p extra s b /\ SIZEOF_ETH_HDR <= len b /\ len b <= tot_len b) ->
  (forall a, a ∈ keep -> a ∈ extra) -> apart p keep s ->
  (forall r s', net_inv s' extra R -> frame keep s s' -> query_result ip p nif s r s' -> Q r s') ->
  wp (etharp_query n ip p) Q s.
Proof.
  intros I En Hx Hp Hk Ha HQ. unfold etharp_query. apply wp_bind, (wp_gets _ nif); [done|].
  assert ((ip_addr_isbroadcast ip nif || ip_addr_ismulticast ip || ip_addr_isany ip) = negb (unicast ip nif)) as Hu.
  { unfold unicast. rewrite negb_involutive, (orb_comm _ (ip_addr_isany ip)). apply orb_assoc. }
  rewrite Hu. clear Hu. destruct (unicast ip nif) eqn:Hu; cbn [negb].
  2: { apply wp_ret, HQ; [done|apply frame_refl|]. by apply query_arg. }
  eapply wp_asked; [done|]. intros i e t1 s1 I1 F1 Hf E Hip T1. rewrite !Nat2Z.id. pose proof (lookup_lt_Some _ _ _ E) as Hlt.
  assert (arp_table s1 !! i = Some (asked e)) as E1 by (rewrite T1; by apply list_lookup_insert_eq).
  assert (netifs s1 !! n = Some nif) as En1 by (by rewrite (fr_netifs _ _ _ F1)).
  apply wp_bind, (wp_entry i (asked e)); [done|]. apply wp_bind.
  assert (forall r s2, net_inv s2 extra R -> frame extra s s2 -> arp_table s2 = arp_table s1 ->
    wp (if p =? 0 then ret r
        else
          e <- entry i ;;
          if is_stable (e_state e) then
            modify (with_cached (Z.of_nat i)) ;;
            etharp_send_ip n p (hwaddr nif) (ethaddr e)
          else if decide (e_state e = ETHARP_STATE_PENDING) then
            c <- take_over p ;;
            if c =? 0 then inc_stat etharp_memerr ;; ret ERR_MEM else enqueue i c
          else ret r) Q s2) as Hrest.
  { intros r s2 I2 F2 T2. destruct (Z.eqb_spec p 0) as [->|Hz].
    { apply wp_ret, HQ; [done|by eapply frame_sub|]. eapply query_asked; [done|exact Hf|exact E|by left|congruence]. }
    destruct (Hp Hz) as (Sd & Hl & Hlt'). destruct (frame_sendable _ _ _ _ _ _ I F2 Sd) as (b2 & Sd2 & El & Et).
    apply wp_bind, (wp_entry i (asked e)); [by rewrite T2|]. destruct (is_stable (e_state (asked e))) eqn:St.
    - assert (stable e /\ t1 = arp_table s) as [Se ->] by (by eapply find_stable_known).
      assert (asked e = e) as Ae by (unfold asked; case_decide as D; [unfold stable in Se; by rewrite D in Se|done]).
      rewrite Ae in *. destruct Sd2 as [Hin E2 C2].
      destruct (inv_entry s2 extra R i e I2) as [(_ & H6 & _) _]; [by rewrite T2|].
      apply wp_bind, wp_modify. eapply (wp_send_ip _ extra keep R n p _ _ b2); try done.
      + apply inv_cached; [done|]. rewrite (ni_len _ _ _ I) in Hlt. lia.
      + lia.
      + lia.
      + eapply (ni_hw _ _ _ I). exact En.
      + by eapply (frame_apart extra keep s s2).
      + intros r' s3 I3 F3 [T3 _]. apply HQ; [done| |].
        * eapply frame_trans; [by eapply frame_sub|]. by destruct F3.
        * eapply query_sent; try done. rewrite T3. cbn [arp_table with_cached]. rewrite T2, T1. by apply list_insert_id.
    - assert (~ stable e) as Se.
      { unfold stable. unfold asked in St. case_decide as D; [by rewrite D|by rewrite St]. }
      rewrite decide_True by (by apply asked_state). apply wp_bind. eapply (wp_take_over s2); [done|done|..].
      + intros s3 I3 F3 [T3 _]. cbn [Z.eqb]. apply wp_bind, wp_inc_stat. intros f. apply wp_ret, HQ.
        * by apply inv_stats.
        * apply frame_stats. eapply frame_sub; [exact Hk|]. by eapply frame_trans.
        * eapply query_asked; [done|exact Hf|exact E|right; by split|]. cbn [arp_table with_stats]. congruence.
      + intros c d s3 Hc I3 F3 [T3 _] Ed Rd Cd Ld Hcopy. rewrite (proj2 (Z.eqb_neq c 0)) by done.
        eapply (wp_enqueue s3 extra R i (asked e) c d); try done.
        * by rewrite T3, T2.
        * by apply asked_state.
        * lia.
        * intros s4 I4 F4 T4 _. apply HQ; [done| |].
          -- eapply frame_sub; [exact Hk|]. eapply frame_trans; [exact F2|]. eapply frame_trans; [exact F3|].
             eapply frame_sub; [|exact F4]. intros a Hin. by right.
          -- eapply query_queued; [done|exact Hf|exact E|done|done|done| |].
             ++ rewrite T4, T3, T2, T1. apply list_insert_insert_eq.
             ++ eapply copy_of_frame; [exact (sd_in _ _ _ _ Sd)|exact F2|].
                destruct (ri_chain _ _ _ (ni_refs _ _ _ I3) c d Ed) as (lc & Hlc & _).
                eapply copy_of_same; [|by exists d, lc|].
                ** eapply same_packets_sub; [|apply F4]. intros a ->%list_elem_of_singleton. by left.
                ** exists d. split; [done|]. intros b0 l0 Hc0 Fc Pos. pose proof Hc0 as (_ & _ & Eb0 & _).
                   assert (b0 = b2) as -> by (destruct Sd2; congruence). by apply Hcopy. }
  destruct (bool_decide (e_state (asked e) = ETHARP_STATE_PENDING) || (p =? 0)).
  - eapply (wp_request s1); [done|done|lia|]. intros r s2 I2 F2 T2. apply Hrest; [done| |apply T2].
    by eapply frame_trans.
  - apply wp_ret. by apply Hrest.
Qed.

(** ** Sending *)

(** A packet that IP hands down: the first pbuf of its chain, with the IP header
    in it and its data at an address the header arithmetic does not wrap at. *)
Record outgoing (p : Z) (extra : list Z) s (b : pbuf) : Prop := {
  og_send : sendable p extra s b;
  og_head : ~ has_pred (bufs (ps s)) p;
  og_len : 20 <= len b;
  og_tot : tot_len b + SIZEOF_ETH_HDR < 2 ^ 16;
  og_addr : SIZEOF_ETH_HDR <= payload b /\ payload b + len b < 2 ^ 32 }.

Lemma apart_head p keep s : ~ has_pred (bufs (ps s)) p -> p ∉ keep -> apart p keep s.
Proof.
  intros Hh Hk a c Ha Hc Hp. destruct c as [|[x d] c]; [set_solver|]. pose proof Hc as (<- & _).
  rewrite fmap_cons in Hp. apply elem_of_cons in Hp as [->|Hp]; [done|]. apply Hh. by eapply chain_pred.
Qed.

Lemma put_same (m : pstate A) p b keep : (forall a c, a ∈ keep -> chain (bufs m) a c 0 -> p ∉ c.*1) ->
  same_packets m (put p b m) keep.
Proof.
  intros Ha a l Hin Hc. exists l. split; [|split; [done|split; [apply refs_le_refl|done]]]. eapply chain_frame; [exact Hc|]. intros x Hx.
  apply lookup_insert_ne. intros <-. by eapply Ha.
Qed.

Lemma wp_header s extra keep R p inc b Q : net_inv s extra R -> p ∈ extra -> bufs (ps s) !! p = Some b ->
  ~ has_pred (bufs (ps s)) p -> in_s 16 inc -> inc ≠ 0 -> tot_len b + inc < 2 ^ 16 ->
  inc <= payload b -> payload b + len b < 2 ^ 32 -> p ∉ keep ->
  (header_fits p inc b = false -> Q 1 s) ->
  (forall s', header_fits p inc b = true -> net_inv s' extra R -> frame keep s s' ->
    s' = with_ps (put p (header_moved inc b) (ps s)) s -> Q 0 s') ->
  wp (pbufs (pbuf_header p inc)) Q s.
Proof.
  intros I Hp E Hh Hi Hz Ht Ha Hb Hk H1 H0.
  pose proof (header_refs (ps s) _ _ p inc b (ni_refs _ _ _ I) E Hh Hi Hz Ht Ha Hb) as H.
  destruct (header_fits p inc b).
  - destruct H as [Hr Ir]. eapply wp_pbufs; [exact Hr|]. apply H0; [done| | |done].
    + rewrite <-with_world_same. eapply inv_pbufs; [exact I|apply I|done|]. intros a c Hq Ec Rc. exists c.
      split; [|by split]. cbn [bufs put with_bufs]. rewrite lookup_insert_ne; [done|]. intros <-.
      by eapply queued_exclusive.
    + split; try done. apply put_same. by apply apart_head.
  - eapply wp_pbufs; [exact H|]. replace (with_ps (ps s) s) with s by (by destruct s). auto.
Qed.

(** The address the packet goes to on the wire: the destination on its own
    network, the gateway for others, unless the source is link-local. *)
Definition next_hop (nif : netif) (ip src : Z) : option Z :=
  if IpAddr.ip_addr_netcmp ip (ip_addr nif) (netmask nif) || ip_addr_islinklocal ip || ip_addr_islinklocal src
  then Some ip
  else if ip_addr_isany (gw nif) then None else Some (gw nif).

(** The source address in the IP header of a packet. *)
Definition ip_src s (b : pbuf) : Z := le32 (read_bytes (bytes (ps s)) (payload b + 12) 4).

Inductive output_result (n p ip : Z) (nif : netif) (b : pbuf) s : Z -> net A W -> Prop :=
  | output_buf s' : header_fits p SIZEOF_ETH_HDR b = false -> arp_table s' = arp_table s ->
      output_result n p ip nif b s ERR_BUF s'
  | output_group r s' : header_fits p SIZEOF_ETH_HDR b = true ->
      ip_addr_isbroadcast ip nif || ip_addr_ismulticast ip = true -> arp_table s' = arp_table s ->
      output_result n p ip nif b s r s'
  | output_rte s' : header_fits p SIZEOF_ETH_HDR b = true -> next_hop nif ip (ip_src s b) = None ->
      arp_table s' = arp_table s -> output_result n p ip nif b s ERR_RTE s'
  | output_known dst i e r s' : header_fits p SIZEOF_ETH_HDR b = true -> next_hop nif ip (ip_src s b) = Some dst ->
      arp_table s !! i = Some e -> stable e -> ipaddr e = dst ->
      arp_table s' = arp_table s \/ arp_table s' = <[i := set_state ETHARP_STATE_STABLE_REREQUESTING e]> (arp_table s) /\
        e_state e = ETHARP_STATE_STABLE /\ ARP_AGE_REREQUEST_USED <= ctime e ->
      output_result n p ip nif b s r s'
  | output_unknown dst r s1 s' : header_fits p SIZEOF_ETH_HDR b = true ->
      next_hop nif ip (ip_src s b) = Some dst ->
      (forall e, e ∈ arp_table s -> stable e -> ipaddr e ≠ dst) ->
      s1 = with_ps (put p (header_moved SIZEOF_ETH_HDR b) (ps s)) s -> query_result dst p nif s1 r s' ->
      output_result n p ip nif b s r s'.

Lemma find_stable_spec ip t : forall i,
  match find_stable ip i t with
  | Some j => exists e, (i <= j)%nat /\ t !! (j - i)%nat = Some e /\ stable e /\ ipaddr e = ip
  | None => forall e, e ∈ t -> stable e -> ipaddr e ≠ ip
  end.
Proof.
  induction t as [|e t IH]; intros i; cbn [find_stable]; [set_solver|].
  destruct (is_stable (e_state e) && (ip =? ipaddr e)) eqn:D.
  - apply andb_true_iff in D as [D D'%Z.eqb_eq]. exists e. rewrite Nat.sub_diag. by repeat split.
  - specialize (IH (S i)). destruct (find_stable ip (S i) t) as [j|].
    + destruct IH as (d & Hj & Ed & Hd). exists d. split; [lia|]. split; [|done].
      by replace (j - i)%nat with (S (j - S i)) by lia.
    + intros d [->|Hd]%elem_of_cons Sd; [|by apply IH]. intros Hip.
      apply andb_false_iff in D as [D|D%Z.eqb_neq]; [unfold stable in Sd; congruence|congruence].
Qed.

Lemma with_cached_frame extra s s1 k : frame extra s s1 -> frame extra s (with_cached k s1).
Proof. by intros []. Qed.

Lemma load_run p off n b s : bufs (ps s) !! p = Some b -> 0 <= off -> off + n <= len b ->
  load p off n s = Some (read_bytes (bytes (ps s)) (payload b + off) n, s).
Proof.
  intros E Ho Hl. unfold load, gets. rewrite (E : get p (ps s) = _). cbn [mbind option_bind].
  by rewrite (proj2 (Z.leb_le _ _) Ho), (proj2 (Z.leb_le _ _) Hl).
Qed.

(** The choice of the next hop, as written in [etharp_output]. *)
Lemma next_hop_run s nif p b ip : bufs (ps s) !! p = Some b -> SIZEOF_ETH_HDR + 16 <= len b ->
  let src := le32 (read_bytes (bytes (ps s)) (payload b + (SIZEOF_ETH_HDR + 12)) 4) in
  exists via : bool,
    (if negb (IpAddr.ip_addr_netcmp ip (ip_addr nif) (netmask nif)) && negb (ip_addr_islinklocal ip)
     then src <- load p (SIZEOF_ETH_HDR + 12) 4 ;; ret (negb (ip_addr_islinklocal (le32 src))) else ret false) s = Some (via, s) /\
    next_hop nif ip src =
      if via && ip_addr_isany (gw nif) then None else Some (if via then gw nif else ip).
Proof.
  intros E Hl src. unfold next_hop.
  destruct (IpAddr.ip_addr_netcmp ip (ip_addr nif) (netmask nif)); cbn [negb andb orb]; [by exists false|].
  destruct (ip_addr_islinklocal ip); cbn [negb andb orb]; [by exists false|].
  exists (negb (ip_addr_islinklocal src)). unfold bind.
  rewrite (load_run _ _ _ b) by (done || unfold SIZEOF_ETH_HDR in *; lia). split; [done|].
  by destruct (ip_addr_islinklocal src), (ip_addr_isany (gw nif)).
Qed.

Lemma wp_known s extra keep R n nif p ip b0 s0 b dst i e Q : net_inv s extra R -> netifs s !! n = Some nif ->
  Z.of_nat (length extra) < 49998 -> sendable p extra s b -> SIZEOF_ETH_HDR <= len b ->
  (forall a, a ∈ keep -> a ∈ extra) -> apart p keep s -> frame keep s0 s -> arp_table s = arp_table s0 ->
  header_fits p SIZEOF_ETH_HDR b0 = true -> next_hop nif ip (ip_src s0 b0) = Some dst ->
  arp_table s !! i = Some e -> stable e -> ipaddr e = dst ->
  (forall r s', net_inv s' extra R -> frame keep s0 s' -> output_result n p ip nif b0 s0 r s' -> Q r s') ->
  wp (etharp_output_to_arp_index n p i) Q s.
Proof.
  intros I En Hx Sd Hl Hk Ha F0 T0 Hfit Hhop Ei He Hip HQ.
  eapply (wp_output_index s extra keep R n nif p b i e); try done; [lia|].
  intros r s' I' F' HT. apply HQ; [done|by eapply frame_trans|]. rewrite T0 in Ei.
  eapply (output_known n p ip nif b0 s0 dst i e); try done. rewrite <-T0.
  destruct HT as [[? _]|(? & ? & ? & _)]; [by left|by right].
Qed.

Lemma wp_output s extra keep R n nif ip p b Q : net_inv s extra R -> netifs s !! n = Some nif ->
  Z.of_nat (length extra) < 49998 -> outgoing p extra s b ->
  (forall a, a ∈ keep -> a ∈ extra) -> p ∉ keep ->
  (forall r s', net_inv s' extra R -> frame keep s s' -> output_result n p ip nif b s r s' -> Q r s') ->
  wp (etharp_output n p ip) Q s.
Proof.
  intros I En Hx [[Hp E Cb] Hh Hlen Htot [Ha1 Ha2]] Hk Hnk HQ. unfold etharp_output.
  apply wp_bind, (wp_gets _ nif); [done|]. pose proof (ni_hw _ _ _ I n nif En) as Hhw.
  destruct (ri_pinv _ _ _ (ni_refs _ _ _ I)) as [B Ip]. destruct (pinv_get _ _ _ _ _ Ip E) as (_ & _ & _ & (Hl16 & _ & _)).
  destruct (ri_chain _ _ _ (ni_refs _ _ _ I) p b E) as (l & _ & (Hok1 & _ & _ & Hok2)).
  pose proof (tot_nonneg _ Hok2) as Hnn.
  apply wp_bind. eapply (wp_header s extra keep R p SIZEOF_ETH_HDR b); try done.
  { intros Hf. cbn [Z.eqb negb]. apply wp_bind, wp_inc_stat. intros f. apply wp_ret, HQ.
    - by apply inv_stats.
    - apply frame_stats, frame_refl.
    - by apply output_buf. }
  intros s1 Hfit I1 F1 Es1. cbn [Z.eqb negb]. set (b1 := header_moved SIZEOF_ETH_HDR b).
  assert (sendable p extra s1 b1) as Sd1.
  { split; [done| |done]. rewrite Es1. apply lookup_insert_eq. }
  assert (apart p keep s1) as Ap1.
  { apply apart_head; [|done]. intros (x & c & Ec & Hx'). apply Hh. rewrite Es1 in Ec.
    cbn [ps with_ps put bufs with_bufs] in Ec. destruct (decide (x = p)) as [->|Hne].
    - rewrite lookup_insert_eq in Ec. injection Ec as <-. by exists p, b.
    - rewrite lookup_insert_ne in Ec by done. by exists x, c. }
  assert (len b1 = len b + 14 /\ len b1 <= tot_len b1 /\ payload b1 = payload b - 14) as (Lb1 & Tb1 & Pb1)
    by (cbn; unfold SIZEOF_ETH_HDR; lia).
  assert (SIZEOF_ETH_HDR <= len b1) as Hl1 by (unfold SIZEOF_ETH_HDR; lia).
  assert (arp_table s1 = arp_table s) as T1 by (by rewrite Es1).
  assert (netifs s1 !! n = Some nif) as En1 by (by rewrite Es1).
  assert (forall dst, length dst = 6%nat -> ip_addr_isbroadcast ip nif || ip_addr_ismulticast ip = true ->
    wp (etharp_send_ip n p (hwaddr nif) dst) Q s1) as Hgroup.
  { intros dst H6 Hg. destruct Sd1. eapply (wp_send_ip s1 extra keep R n p _ _ b1); try done; [lia|].
    intros r s2 I2 F2 [T2 _]. apply HQ; [done|by eapply frame_trans|]. apply output_group; [done|done|congruence]. }
  destruct (ip_addr_isbroadcast ip nif) eqn:Hbc; [by apply Hgroup|].
  destruct (ip_addr_ismulticast ip) eqn:Hmc; [by apply Hgroup|]. clear Hgroup. cbv zeta.
  destruct (next_hop_run s1 nif p b1 ip) as (via & Hvia & Hhop); [apply Sd1|unfold SIZEOF_ETH_HDR; lia|].
  assert (le32 (read_bytes (bytes (ps s1)) (payload b1 + (SIZEOF_ETH_HDR + 12)) 4) = ip_src s b) as Hsrc.
  { unfold ip_src. rewrite Es1, Pb1. cbn [ps with_ps put bytes with_bufs]. do 2 f_equal. unfold SIZEOF_ETH_HDR. lia. }
  rewrite Hsrc in Hhop. apply wp_bind. unfold wp at 1. rewrite Hvia.
  destruct (via && ip_addr_isany (gw nif)).
  { apply wp_ret, HQ; [done|done|]. by apply output_rte. }
  set (dst := if via then gw nif else ip) in *.
  apply wp_bind, (wp_gets _ (etharp_cached_entry s1)); [done|].
  pose proof (ni_cached _ _ _ I1) as Hcache. pose proof (ni_len _ _ _ I1) as Htl.
  destruct (lookup_lt_is_Some_2 (arp_table s1) (Z.to_nat (etharp_cached_entry s1))) as [e Ee]; [lia|].
  apply wp_bind, (wp_entry _ e); [done|].
  destruct (is_stable (e_state e) && (dst =? ipaddr e)) eqn:D.
  { apply andb_true_iff in D as [D D'%Z.eqb_eq]. apply wp_bind, wp_inc_stat. intros f.
    eapply (wp_known _ extra keep R n nif p ip b s b1 dst _ e); try done; [by apply inv_stats|by destruct Sd1|by apply frame_stats]. }
  apply wp_bind, (wp_gets _ (arp_table s1)); [done|].
  pose proof (find_stable_spec dst (arp_table s1) 0) as Hfs.
  destruct (find_stable dst 0 (arp_table s1)) as [i|].
  - destruct Hfs as (d & _ & Ed & Sd & Hd). rewrite Nat.sub_0_r in Ed. apply wp_bind, wp_modify.
    pose proof (lookup_lt_Some _ _ _ Ed) as Hlt.
    eapply (wp_known _ extra keep R n nif p ip b s b1 dst i d); try done;
      [apply inv_cached; [done|lia]|by destruct Sd1|by apply with_cached_frame].
  - eapply (wp_query s1 extra keep R n nif dst p b1); try done.
    intros r s2 I2 F2 Hq. apply HQ; [done|by eapply frame_trans|].
    eapply output_unknown; try done. by rewrite <-T1.
Qed.

End Inv.

End Etharp.
