(* ===== verification/Wire.v ===== *)
(** * A driver that sends at once

    The simplest driver the laws of [Net] allow: the frame goes out during the
    call and no reference is kept.  It shows that the laws can hold, and the
    states below, with the allocator of [Alloc] and this driver, are what the
    theorems on the network stack are evaluated on. *)
From S2P Require Import Prelude Alloc Pbuf PbufData Refs Net Etharp.
Import Alloc Pbuf PbufData Refs Net Etharp.

Module Wire.
Local Open Scope net_scope.

(** The frames sent, with the interface; and the TCP connections and listeners,
    with their local addresses, which make the rest of the system here. *)
Record wire := mk_wire { frames : list (Z * list Z); w_active : list (Z * Z); w_listen : list (Z * Z) }.

#[export] Instance wire_ops {A} : link_ops A wire := {
  linkoutput n p s w :=
    Some (ERR_OK, s, mk_wire (frames w ++ [(n, contents (bytes s) (collect (chain_fuel s) (bufs s) p))])
                       (w_active w) (w_listen w)) }.

#[export, refine] Instance wire_laws {A} {ops : alloc_ops A} {laws : alloc_laws A} : link_laws A wire := {
  drv _ := [];
  held _ := [];
  link_ok w := NoDup (w_active w).*1 /\ 0 ∉ (w_active w).*1 }.
Proof.
  - done.
  - intros n p s w refs R I L Hp _. do 3 eexists. split; [reflexivity|]. split; [exact L|]. split; [exact I|].
    split; [apply same_data_refl|]. intros a l l' _ Hc Hc'. rewrite (chain_det _ _ _ _ Hc' Hc).
    by apply Forall_Forall2_diag, Forall_forall.
Defined.

(** ** States *)

Definition no_entry : etharp_entry := mk_entry 0 0 0 ethzero ETHARP_STATE_EMPTY 0.

(** An interface with the address 192.168.0.2/24 and the gateway 192.168.0.1. *)
Definition demo_mac : list Z := [0x02; 0; 0; 0; 0; 0x02].
Definition demo_netif : netif :=
  mk_netif 0x0200a8c0 0x00ffffff 0x0100a8c0 0 0 0 1500 demo_mac
    (Z.lor NETIF_FLAG_UP (Z.lor NETIF_FLAG_BROADCAST (Z.lor NETIF_FLAG_LINK_UP NETIF_FLAG_ETHARP))) (0, 0) 0.

Definition ips0 : ipstate := mk_ipstate 0 0 0 0 0 ∅ 0 0xc000 ∅ 0 ∅.

Lemma ips0_ok : ips_ok ips0.
Proof. split; try done; try (by apply map_Forall_empty); by exists []. Qed.

Definition net0 : net lwip_mem wire :=
  mk_net ps0 (replicate ARP_TABLE_SIZE no_entry) 0 {[0x100 := demo_netif]} [0x100] 0x100 1 ∅ ips0 (fun _ => 0)
    (mk_wire [] [(1, 0x0200a8c0); (2, 0); (3, 0x0200fea9)] [(4, 0); (5, 0x0200a8c0)]).

Lemma net0_inv : net_inv net0 [] [].
Proof.
  split; cbn [net0 ps arp_table etharp_cached_entry netifs world]; try done.
  - split; [exists ∅; exact ps0_inv|done|..].
    + intros x y a Ha [b [Hb _]]. done.
    + done.
    + done.
  - split; [|by apply (bool_decide_unpack _); vm_compute]. apply (bool_decide_unpack _). by vm_compute.
  - apply Forall_replicate. by split.
  - apply Forall_replicate. by intros Hq.
  - intros i j e e' [-> _]%lookup_replicate _ Hn. by destruct Hn.
  - by apply map_Forall_singleton.
  - exact ips0_ok.
Qed.

(** With a packet of 100 bytes that IP may send. *)
Definition ps_pk : Z * pstate lwip_mem := after (0, ps0) (pbuf_alloc PBUF_IP 100 PBUF_RAM ps0).
Definition pk : Z := Eval vm_compute in ps_pk.1.
Definition pk_b : pbuf := Eval vm_compute in default (mk_pbuf 0 0 0 0 PBUF_RAM 0 0) (bufs ps_pk.2 !! pk).
Definition net1 : net lwip_mem wire := with_ps ps_pk.2 net0.

(** The state after an allocation that succeeds. *)
Lemma alloc_inv {A W} {ops : alloc_ops A} {laws : alloc_laws A} {lops : link_ops A W} {llaws : link_laws A W}
    (s : net A W) extra R layer length t p m d : net_inv s extra R -> 0 <= length < 2 ^ 16 ->
  (after d (pbuf_alloc layer length t (ps s))) = (p, m) -> p ≠ 0 ->
  net_inv (with_ps m s) (p :: extra) R.
Proof.
  intros I Hl Ea Hp.
  assert (wp (pbufs (pbuf_alloc layer length t)) (fun p s => p ≠ 0 -> net_inv s (p :: extra) R) s) as Hw
    by (by eapply wp_alloc).
  destruct (wp_run _ _ _ Hw) as (x & s' & E & H).
  unfold pbufs in E. destruct (pbuf_alloc layer length t (ps s)) as [[x0 m0]|]; [|done].
  cbn [mbind option_bind] in E. injection E as <- <-. cbn in Ea. injection Ea as <- <-. auto.
Qed.

Lemma net1_inv : net_inv net1 [pk] [].
Proof.
  eapply (alloc_inv net0 [] [] PBUF_IP 100 PBUF_RAM pk ps_pk.2 (0, ps0)); [exact net0_inv|lia| |done].
  change (ps net0) with ps0. unfold ps_pk. apply injective_projections; cbn [fst snd]; [by vm_compute|reflexivity].
Qed.

Lemma net1_bufs : bufs (ps net1) = {[pk := pk_b]}.
Proof. by vm_compute. Qed.

Lemma pk_outgoing : outgoing pk [pk] net1 pk_b.
Proof.
  split; rewrite ?net1_bufs; [split; rewrite ?net1_bufs|..].
  - by left.
  - apply lookup_singleton_eq.
  - by left.
  - intros (x & b & E & Hx). apply lookup_singleton_Some in E as [<- <-]. by vm_compute in Hx.
  - vm_compute. discriminate.
  - by vm_compute.
  - split; [vm_compute; discriminate|by vm_compute].
Qed.

End Wire.
