(* ===== verification/ArpCache.v ===== *)
(** * The ARP table as a cache

    The table of [Etharp] seen from outside: a finite map from IPv4 addresses to
    hosts that are asked for or known.  The functions of etharp.c refine
    operations on this map ([refines_spec]); entries live for a number of calls
    of [etharp_tmr]; and the packets go out with the Ethernet header the cache
    gives. *)
From S2P Require Import Prelude Alloc Pbuf PbufData Chksum IpAddr Refs Net Etharp Wire.
Import Alloc Pbuf PbufData Refs Net Etharp Wire.

Module ArpCache.
Local Open Scope net_scope.

(** A host that is asked for, with the packet that waits for the answer or 0; a
    host that answered, and whether it is asked again since the last tick.  [on]
    is the interface; for a host that is asked for it is the one of the host that
    had the entry before, [etharp_query] does not store it. *)
Inductive host :=
  | Asked (on age waiting : Z)
  | Known (eth : list Z) (on age : Z) (again : bool).

Definition host_of (e : etharp_entry) : option host :=
  match e_state e with
  | ETHARP_STATE_EMPTY => None
  | ETHARP_STATE_PENDING => Some (Asked (e_netif e) (ctime e) (q e))
  | ETHARP_STATE_STABLE => Some (Known (ethaddr e) (e_netif e) (ctime e) false)
  | ETHARP_STATE_STABLE_REREQUESTING => Some (Known (ethaddr e) (e_netif e) (ctime e) true)
  end.

Definition binding (e : etharp_entry) : option (Z * host) := (fun h => (ipaddr e, h)) <$> host_of e.
Definition cache (t : list etharp_entry) : gmap Z host := list_to_map (omap binding t).

(** ** The map and the table *)

Lemma host_of_empty e : host_of e = None <-> ~ non_empty e.
Proof. unfold host_of, non_empty. destruct (e_state e); split; try done; [by intros _ H; apply H|by intros H; destruct H..]. Qed.

Lemma binding_some e ip h : binding e = Some (ip, h) <-> ipaddr e = ip /\ host_of e = Some h.
Proof. unfold binding. destruct (host_of e); cbn; split; [intros [= -> ->]; done|intros [-> [= ->]]; done|done|by intros []]. Qed.

Lemma uniq_tail e t : uniq (e :: t) -> uniq t.
Proof. intros U i j d d' Ei Ej Nd Nd' Hd. assert (S i = S j) as [=] by (by eapply U). done. Qed.

Lemma uniq_head e t d : uniq (e :: t) -> d ∈ t -> non_empty e -> non_empty d -> ipaddr d ≠ ipaddr e.
Proof. intros U [j Hj]%list_elem_of_lookup Ne Nd He. assert (S j = 0)%nat; [|done]. by eapply U. Qed.

Lemma cache_nodup t : uniq t -> NoDup (omap binding t).*1.
Proof.
  induction t as [|e t IH]; intros U; [constructor|]. specialize (IH (uniq_tail _ _ U)). cbn [omap list_omap].
  destruct (binding e) as [[ip h]|] eqn:Be; [|done]. cbn [fmap list_fmap fst]. constructor; [|done].
  apply binding_some in Be as [<- He]. intros ([ip' h'] & Ei & (d & Hd & Bd)%list_elem_of_omap)%list_elem_of_fmap.
  apply binding_some in Bd as [<- Hd']. cbn in Ei. eapply (uniq_head e t d U Hd); [| |done].
  - intros Hn. assert (host_of e = None) by (apply host_of_empty; by intros ?). congruence.
  - intros Hn. assert (host_of d = None) by (apply host_of_empty; by intros ?). congruence.
Qed.

Lemma cache_lookup t ip h : uniq t ->
  cache t !! ip = Some h <-> exists e, e ∈ t /\ ipaddr e = ip /\ host_of e = Some h.
Proof.
  intros U. unfold cache. rewrite <-elem_of_list_to_map by (by apply cache_nodup). rewrite list_elem_of_omap.
  by setoid_rewrite binding_some.
Qed.

Lemma cache_lookup_none t ip : uniq t -> cache t !! ip = None <-> unknown ip t.
Proof.
  intros U. rewrite eq_None_not_Some. split.
  - intros H e He Ne Hip. apply H. destruct (host_of e) as [h|] eqn:Hh; [|by apply host_of_empty in Hh].
    exists h. apply cache_lookup; eauto.
  - intros H [h Hh]. apply cache_lookup in Hh as (e & He & Hip & Hh); [|done]. apply (H e He); [|done].
    intros Hn. assert (host_of e = None) by (apply host_of_empty; by intros ?). congruence.
Qed.

Lemma cache_entry t i e h : uniq t -> t !! i = Some e -> host_of e = Some h -> cache t !! ipaddr e = Some h.
Proof. intros U E Hh. apply cache_lookup; [done|]. exists e. split; [by eapply list_elem_of_lookup_2|done]. Qed.

Lemma host_non_empty e h : host_of e = Some h -> non_empty e.
Proof. intros Hh Hn. assert (host_of e = None) by (apply host_of_empty; by intros ?). congruence. Qed.

(** One entry changes: what it held goes, what it holds comes. *)
Definition forget (e : etharp_entry) (c : gmap Z host) : gmap Z host :=
  match host_of e with Some _ => delete (ipaddr e) c | None => c end.
Definition remember (e : etharp_entry) (c : gmap Z host) : gmap Z host :=
  match host_of e with Some h => <[ipaddr e := h]> c | None => c end.

Lemma elem_of_insert (t : list etharp_entry) i e d : t !! i = Some e ->
  forall x, x ∈ <[i := d]> t <-> x = d \/ exists j, j ≠ i /\ t !! j = Some x.
Proof.
  intros E x. pose proof (lookup_lt_Some _ _ _ E) as Hl. rewrite list_elem_of_lookup. split.
  - intros [j Hj]. destruct (decide (j = i)) as [->|Hne].
    + rewrite list_lookup_insert_eq in Hj by done. left. congruence.
    + rewrite list_lookup_insert_ne in Hj by done. right. eauto.
  - intros [->|(j & Hne & Hj)]; [exists i; by apply list_lookup_insert_eq|].
    exists j. by rewrite list_lookup_insert_ne.
Qed.

Lemma cache_insert t i e e' : uniq t -> t !! i = Some e -> uniq (<[i := e']> t) ->
  cache (<[i := e']> t) = remember e' (forget e (cache t)).
Proof.
  intros U E U'. apply map_eq. intros ip. apply option_eq. intros h.
  rewrite (cache_lookup _ _ _ U'). setoid_rewrite (elem_of_insert t i e e' E). pose proof (lookup_lt_Some _ _ _ E) as Hl.
  assert (forget e (cache t) !! ip = Some h <-> exists j d, j ≠ i /\ t !! j = Some d /\ ipaddr d = ip /\ host_of d = Some h) as Hf.
  { unfold forget. destruct (host_of e) as [he|] eqn:He.
    - rewrite lookup_delete_Some, (cache_lookup _ _ _ U). split.
      + intros (Hne & d & [j Hj]%list_elem_of_lookup & Hd & Hh). exists j, d. split; [congruence|]. done.
      + intros (j & d & Hne & Hj & Hd & Hh). split; [|exists d; split; [by eapply list_elem_of_lookup_2|done]].
        intros Heq. apply Hne. eapply U; [exact Hj|exact E|by eapply host_non_empty..|congruence].
    - rewrite (cache_lookup _ _ _ U). split.
      + intros (d & [j Hj]%list_elem_of_lookup & Hd & Hh). exists j, d. split; [|done]. congruence.
      + intros (j & d & Hne & Hj & Hd & Hh). exists d. split; [by eapply list_elem_of_lookup_2|done]. }
  unfold remember. destruct (host_of e') as [h'|] eqn:He'.
  - rewrite lookup_insert_Some, Hf. split.
    + intros (d & [->|(j & Hne & Hj)] & Hd & Hh); [left; split; [done|congruence]|right].
      split; [|by exists j, d]. intros Heq. apply Hne. eapply U';
        [by rewrite list_lookup_insert_ne|by apply list_lookup_insert_eq|by eapply host_non_empty..|congruence].
    + intros [[<- <-]|(Hne & j & d & Hj & Ed & Hd & Hh)]; [by exists e'; split; [left|]|].
      exists d. split; [right; by exists j|done].
  - rewrite Hf. split.
    + intros (d & [->|(j & Hne & Hj)] & Hd & Hh); [congruence|]. by exists j, d.
    + intros (j & d & Hne & Hj & Hd & Hh). exists d. split; [right; by exists j|done].
Qed.

(** All entries change in a way the map can follow. *)
Lemma cache_fmap t f g : uniq t -> uniq (f <$> t) ->
  (forall e, e ∈ t -> ipaddr (f e) = ipaddr e /\ host_of (f e) = host_of e ≫= g) ->
  cache (f <$> t) = omap g (cache t).
Proof.
  intros U U' Hf. apply map_eq. intros ip. apply option_eq. intros h.
  rewrite lookup_omap, bind_Some, (cache_lookup _ _ _ U'). setoid_rewrite (cache_lookup _ _ _ U). split.
  - intros (e' & (e & -> & He)%list_elem_of_fmap & Hip & Hh). destruct (Hf e He) as [Ei Eh]. rewrite Eh in Hh.
    apply bind_Some in Hh as (h0 & H0 & Hg). exists h0. split; [|done]. exists e. split; [done|]. split; [congruence|done].
  - intros (h0 & (e & He & Hip & H0) & Hg). destruct (Hf e He) as [Ei Eh]. exists (f e).
    split; [apply list_elem_of_fmap; eauto|]. rewrite Ei, Eh, H0. done.
Qed.

(** How many hosts. *)
Lemma omap_length_le {X Y} (f : X -> option Y) l : (length (omap f l) <= length l)%nat.
Proof. induction l as [|x l IH]; [done|]. cbn. destruct (f x); cbn; lia. Qed.

Lemma cache_size t : uniq t -> size (cache t) = length (omap binding t).
Proof. intros U. unfold cache. apply map_size_list_to_map. by apply cache_nodup. Qed.

Lemma binding_none e : binding e = None <-> ~ non_empty e.
Proof. unfold binding. rewrite fmap_None. apply host_of_empty. Qed.

Lemma cache_full t : uniq t -> full t <-> size (cache t) = length t.
Proof.
  intros U. rewrite cache_size by done. clear U. induction t as [|e t IH]; [by split; [|intros _ e He; set_solver]|].
  pose proof (omap_length_le binding t) as Hle. cbn [omap list_omap]. unfold full in *.
  destruct (binding e) as [x|] eqn:Be; cbn [length].
  - split.
    + intros H. rewrite (proj1 IH); [done|]. intros d Hd. apply H. by right.
    + intros [=] d [->|Hd]%elem_of_cons; [|by apply IH].
      unfold binding in Be. apply fmap_Some in Be as (h & Hh & _). by eapply host_non_empty.
  - split; [|change (list_omap _ _ binding t) with (omap binding t); lia]. intros H. apply binding_none in Be. destruct Be. apply H. by left.
Qed.

Lemma cache_size_le t : uniq t -> (size (cache t) <= length t)%nat.
Proof. intros U. rewrite cache_size by done. apply omap_length_le. Qed.

(** ** Operations on the cache *)

(** One tick: questions are given up after 2, answers after 240. *)
Definition tick (h : host) : option host :=
  match h with
  | Asked on age w => if 2 <=? age + 1 then None else Some (Asked on (age + 1) w)
  | Known eth on age _ => if 240 <=? age + 1 then None else Some (Known eth on (age + 1) false)
  end.

(** Forget the hosts of an interface. *)
Definition off (n : Z) (h : host) : option host :=
  match h with Asked on _ _ | Known _ on _ _ => if on =? n then None else Some h end.

Definition rank (h : host) : Z :=
  match h with Known _ _ _ _ => 0 | Asked _ _ w => if w =? 0 then 1 else 2 end.
Definition age (h : host) : Z := match h with Known _ _ a _ | Asked _ a _ => a end.

(** [h] goes before [h']: answers before questions, those before questions with
    a packet; the older first. *)
Definition goes_first (h h' : host) : Prop := rank h < rank h' \/ rank h = rank h' /\ age h' <= age h.

(** Room for one more of the 10 hosts. *)
Definition room (c c1 : gmap Z host) : Prop :=
  (size c < 10)%nat /\ c1 = c \/
  size c = 10%nat /\ exists v h, c !! v = Some h /\ c1 = delete v c /\ forall v' h', c !! v' = Some h' -> goes_first h h'.

(** A place for the host [ip]. *)
Definition placed (ip : Z) (c c1 : gmap Z host) : Prop :=
  (exists h, c !! ip = Some h) /\ c1 = c \/ c !! ip = None /\ room c c1.

Lemma rank_stable e h : host_of e = Some h -> stable e <-> rank h = 0.
Proof. unfold host_of, stable. destruct (e_state e); try done; intros [= <-]; cbn; [|done..]. destruct (q e =? 0); done. Qed.

Lemma rank_bare e h : host_of e = Some h -> pending_bare e <-> rank h = 1.
Proof.
  unfold host_of, pending_bare. destruct (e_state e); try done; intros [= <-]; cbn; try (split; [by intros []|done]).
  destruct (Z.eqb_spec (q e) 0); split; try done. by intros [].
Qed.

Lemma rank_queued e h : host_of e = Some h -> pending_queued e <-> rank h = 2.
Proof.
  unfold host_of, pending_queued. destruct (e_state e); try done; intros [= <-]; cbn; try (split; [by intros []|done]).
  destruct (Z.eqb_spec (q e) 0); split; try done. by intros [].
Qed.

Lemma age_ctime e h : host_of e = Some h -> age h = ctime e.
Proof. unfold host_of. destruct (e_state e); try done; by intros [= <-]. Qed.

Lemma rank_bounds h : 0 <= rank h <= 2.
Proof. destruct h as [? ? w|]; cbn; [destruct (w =? 0)|]; lia. Qed.

(** ** The table implements them *)

Lemma oldest_goes_first P k t i e h a : (forall e h, host_of e = Some h -> P e <-> rank h = k) ->
  length t = ARP_TABLE_SIZE -> t !! i = Some e -> host_of e = Some h -> oldest P t i a ->
  (forall e' h', e' ∈ t -> host_of e' = Some h' -> k <= rank h') ->
  forall e' h', e' ∈ t -> host_of e' = Some h' -> goes_first h h'.
Proof.
  intros HP Hl E He Ho Hk e' h' Hin Hh. destruct Ho as [(-> & _)|(d & Ed & Pd & -> & Hold)].
  { apply lookup_lt_Some in E. lia. }
  assert (d = e) as -> by congruence. specialize (Hk e' h' Hin Hh).
  pose proof (proj1 (HP e h He) Pd). unfold goes_first. destruct (decide (rank h' = k)) as [Hr|Hr]; [right|left; lia].
  split; [lia|]. rewrite (age_ctime e h He), (age_ctime e' h' Hh). apply Hold; [done|]. by apply (HP e' h' Hh).
Qed.

Lemma victim_room t i e : uniq t -> length t = ARP_TABLE_SIZE -> t !! i = Some e -> victim t i ->
  room (cache t) (forget e (cache t)).
Proof.
  intros U Hl E Hv. pose proof (cache_full t U) as Hfull. rewrite Hl in Hfull. unfold forget, room.
  assert (e ∈ t) as He by (by eapply list_elem_of_lookup_2).
  destruct (decide (size (cache t) = 10%nat)) as [Hs|Hs].
  - right. split; [done|]. apply Hfull in Hs as Hf. specialize (Hf e He) as Hne.
    destruct (host_of e) as [h|] eqn:Hh; [|by apply host_of_empty in Hh].
    exists (ipaddr e), h. split; [by eapply cache_entry|]. split; [done|]. intros v' h' Hv'.
    apply cache_lookup in Hv' as (e' & He' & _ & Hh'); [|done].
    destruct Hv as [[[-> _]|(d & Ed & Hd & _)]|(_ & [[a Ho]|(Ns & [[a Ho]|(Np & a & Ho)])])].
    + apply lookup_lt_Some in E. lia.
    + assert (d = e) as -> by congruence. done.
    + eapply (oldest_goes_first stable 0); try done; [apply rank_stable|]. intros. apply rank_bounds.
    + eapply (oldest_goes_first pending_bare 1); try done; [apply rank_bare|]. intros d hd Hd Hhd.
      specialize (Ns d Hd). rewrite (rank_stable _ _ Hhd) in Ns. pose proof (rank_bounds hd). lia.
    + eapply (oldest_goes_first pending_queued 2); try done; [apply rank_queued|]. intros d hd Hd Hhd.
      specialize (Ns d Hd). specialize (Np d Hd). rewrite (rank_stable _ _ Hhd) in Ns. rewrite (rank_bare _ _ Hhd) in Np.
      pose proof (rank_bounds hd). lia.
  - left. pose proof (cache_size_le t U) as Hle. rewrite Hl in Hle. unfold ARP_TABLE_SIZE in Hle. split; [lia|].
    destruct (host_of e) as [h|] eqn:Hh; [|done]. exfalso. apply host_non_empty in Hh.
    destruct Hv as [[[-> _]|(d & Ed & Hd & _)]|[Hf _]]; [apply lookup_lt_Some in E; lia| |by apply Hs, Hfull].
    assert (d = e) as -> by congruence. done.
Qed.

Lemma created_uniq t i e ip : uniq t -> t !! i = Some e -> uniq (<[i := created ip e]> t).
Proof. intros U E. eapply uniq_insert; [done|done|]. intros Hn. by destruct Hn. Qed.

(** The entry found for an address, and its place in the cache. *)
Lemma find_placed ip flags t i t1 : uniq t -> length t = ARP_TABLE_SIZE -> find_result ip flags t (Z.of_nat i) t1 ->
  uniq t1 /\ placed ip (cache t) (cache t1) /\
  exists e, t1 !! i = Some e /\ ipaddr e = ip /\ cache t1 !! ip = host_of e /\ forget e (cache t1) = delete ip (cache t1) /\
    (host_of e = None -> ctime e = 0 /\ q e = 0).
Proof.
  intros U Hl H. inversion H as [i' e E Hn Hi Hk|Hu Hf Hk|i' e Hu Hf Ht E Hv Hk]; subst.
  - apply Nat2Z.inj in Hk as ->. destruct (host_of e) as [h|] eqn:Hh; [|by apply host_of_empty in Hh].
    pose proof (cache_entry _ _ _ _ U E Hh) as Hc. split; [done|]. split; [left; eauto|]. exists e.
    split; [done|]. split; [done|]. split; [congruence|]. unfold forget. by rewrite Hh.
  - unfold ERR_MEM in Hk. lia.
  - apply Nat2Z.inj in Hk as ->. pose proof (lookup_lt_Some _ _ _ E) as Hlt.
    pose proof (created_uniq t i e ip U E) as U1.
    assert (cache (<[i := created ip e]> t) = forget e (cache t)) as Hc by (by rewrite (cache_insert t i e)).
    assert (forget e (cache t) !! ip = None) as Hnone.
    { unfold forget. apply cache_lookup_none in Hu; [|done].
      destruct (host_of e); [|done]. rewrite lookup_delete_None. by right. }
    split; [done|]. split.
    + right. split; [by apply cache_lookup_none|]. rewrite Hc. by apply victim_room with i.
    + exists (created ip e). split; [by apply list_lookup_insert_eq|]. split; [done|]. rewrite Hc. split; [done|].
      split; [|done]. unfold forget at 1. cbn [host_of created e_state set_ctime set_ipaddr cleared set_state].
      symmetry. by apply delete_id.
Qed.

(** The hosts before and after a tick, or without an interface. *)
Lemma aged_host e : entry_ok e -> ipaddr (aged e) = ipaddr e /\ host_of (aged e) = host_of e ≫= tick.
Proof.
  intros (Hq & _ & Hc). unfold aged, expired, host_of, tick, ARP_MAXAGE, ARP_MAXPENDING in *.
  destruct e as [qe ip nf eth st ct]. destruct st; cbn in *; try done;
    destruct (Z.leb_spec 240 (ct + 1)), (Z.leb_spec 2 (ct + 1)); cbn; try lia; done.
Qed.

Lemma cleaned_host n e : ipaddr (cleaned n e) = ipaddr e /\ host_of (cleaned n e) = host_of e ≫= off n.
Proof.
  unfold cleaned, off. destruct e as [qe ip nf eth st ct]. destruct st; cbn; try done; by destruct (Z.eqb_spec nf n).
Qed.

(** ** The calls of the module, and what they promise *)

Inductive arp_call :=
  | Tmr
  | Cleanup (n : Z)
  | Update (n ip : Z) (eth : list Z) (flags : Z)
  | Query (n ip p : Z)
  | Output (n p ip : Z)
  | Request (n ip : Z)
  | Gratuitous (n : Z).

(** The host [ip] is asked for; [w] packets wait for it, or the packet that
    waited before. *)
Definition asking (ip p r : Z) (c c' : gmap Z host) : Prop :=
  (exists eth on a ag, c !! ip = Some (Known eth on a ag) /\ c' = c) \/
  exists c1 on a w w', placed ip c c1 /\ (c1 !! ip = Some (Asked on a w) \/ c1 !! ip = None /\ a = 0 /\ w = 0) /\
    c' = <[ip := Asked on a w']> c1 /\
    ((p = 0 \/ r = ERR_MEM) /\ w' = w \/ p ≠ 0 /\ r = ERR_OK /\ w' ≠ 0).

Definition spec (ns : gmap Z netif) (call : arp_call) (r : Z) (c c' : gmap Z host) : Prop :=
  match call with
  | Tmr => c' = omap tick c
  | Cleanup n => c' = omap (off n) c
  | Update n ip eth flags => exists nif, ns !! n = Some nif /\
      if unicast ip nif then
        (r = ERR_MEM /\ c' = c /\ c !! ip = None /\
          (find_only flags = true \/ size c = 10%nat /\ try_hard flags = false)) \/
        (r = ERR_OK /\ exists c1, placed ip c c1 /\ c' = <[ip := Known eth n 0 false]> c1)
      else r = ERR_ARG /\ c' = c
  | Query n ip p => exists nif, ns !! n = Some nif /\
      if unicast ip nif then asking ip p r c c' else r = ERR_ARG /\ c' = c
  | Output n p ip => exists nif, ns !! n = Some nif /\
      (c' = c \/ exists dst, (dst = ip \/ dst = gw nif) /\
        ((exists eth on a, c !! dst = Some (Known eth on a false) /\ 228 <= a /\ c' = <[dst := Known eth on a true]> c) \/
         (unicast dst nif = true /\ asking dst p r c c')))
  | Request _ _ | Gratuitous _ => c' = c
  end.

Section Refinement.
Context {A W : Type} {ops : alloc_ops A} {laws : alloc_laws A} {lops : link_ops A W} {llaws : link_laws A W}.
Implicit Types s : net A W.

Definition run (call : arp_call) : M A W Z :=
  match call with
  | Tmr => etharp_tmr ;; ret 0
  | Cleanup n => etharp_cleanup_netif n ;; ret 0
  | Update n ip eth flags => etharp_update_arp_entry n ip eth flags
  | Query n ip p => etharp_query n ip p
  | Output n p ip => etharp_output n p ip
  | Request n ip => etharp_request n ip
  | Gratuitous n => etharp_gratuitous n
  end.

(** What a caller must see to: interfaces that exist, addresses of 6 bytes,
    packets it owns that are fit to be sent. *)
Definition call_ok (extra : list Z) s (call : arp_call) : Prop :=
  match call with
  | Tmr | Cleanup _ => True
  | Update n _ eth _ => is_Some (netifs s !! n) /\ length eth = 6%nat
  | Query n _ p => is_Some (netifs s !! n) /\
      (p ≠ 0 -> exists b, sendable p extra s b /\ ~ has_pred (bufs (ps s)) p /\
        SIZEOF_ETH_HDR <= len b /\ len b <= tot_len b)
  | Output n p _ => is_Some (netifs s !! n) /\ exists b, outgoing p extra s b
  | Request n _ | Gratuitous n => is_Some (netifs s !! n)
  end.

(** The packet a call may change. *)
Definition call_packet (call : arp_call) : Z :=
  match call with Query _ _ p | Output _ p _ => p | _ => 0 end.

Lemma find_full_cache s extra R : net_inv s extra R -> full (arp_table s) <-> size (cache (arp_table s)) = 10%nat.
Proof. intros I. rewrite cache_full by apply I. by rewrite (ni_len _ _ _ I). Qed.

Lemma update_spec s s' extra R ip flags n eth nif r : net_inv s extra R -> net_inv s' extra R ->
  netifs s !! n = Some nif -> update_result ip flags n eth nif (arp_table s) r (arp_table s') ->
  spec (netifs s) (Update n ip eth flags) r (cache (arp_table s)) (cache (arp_table s')).
Proof.
  intros I I' En H. exists nif. split; [done|].
  inversion H as [Hu Hr Ht|Hu Hf Hr Ht|i t1 e Hu Hf E Hip Hr Ht]; rewrite Hu; subst; [done|left|right].
  - split; [done|]. split; [by f_equal|]. inversion Hf as [i e E Hn Hi Hk|Hun Hfo|i e Hun Hfo Hth E Hv Hk].
    + unfold ERR_MEM in Hk. lia.
    + split; [by apply cache_lookup_none; [apply I|]|]. by rewrite <-(find_full_cache s extra R I).
    + unfold ERR_MEM in Hk. lia.
  - split; [done|]. destruct (find_placed _ _ _ _ _ (ni_uniq _ _ _ I) (ni_len _ _ _ I) Hf) as (U1 & Hp & d & Ed & _ & _ & Hd & _).
    assert (d = e) as -> by congruence. exists (cache t1). split; [done|].
    pose proof (ni_uniq _ _ _ I') as U'. rewrite <-Ht in U'.
    rewrite (cache_insert t1 i e) by done. unfold remember. cbn [host_of resolved e_state ethaddr e_netif ctime ipaddr].
    by rewrite Hd, insert_delete_eq.
Qed.

Lemma asked_host e : host_of e = None \/ (exists on a w, host_of e = Some (Asked on a w)) ->
  (host_of e = None -> ctime e = 0 /\ q e = 0) ->
  forall c, host_of (set_q c (asked e)) = Some (Asked (e_netif e) (ctime e) c) /\
    host_of (asked e) = Some (Asked (e_netif e) (ctime e) (q e)) /\ ipaddr (asked e) = ipaddr e.
Proof.
  intros H H0 c. unfold asked, host_of in *. destruct e as [qe ip nf eth st ct]. cbn in *.
  destruct st; cbn; try done; destruct H as [|(? & ? & ? & ?)]; done.
Qed.

Lemma unstable_host e : ~ stable e -> host_of e = None \/ exists on a w, host_of e = Some (Asked on a w).
Proof. unfold stable, host_of. destruct (e_state e); cbn; try done; [by left|right; eauto]. Qed.

Lemma stable_host e : stable e -> exists eth on a ag, host_of e = Some (Known eth on a ag).
Proof. unfold stable, host_of. destruct (e_state e); cbn; try done; eauto. Qed.

Lemma query_spec s s' ip p nif r : uniq (arp_table s) -> length (arp_table s) = ARP_TABLE_SIZE ->
  uniq (arp_table s') -> query_result ip p nif s r s' ->
  if unicast ip nif then asking ip p r (cache (arp_table s)) (cache (arp_table s'))
  else r = ERR_ARG /\ cache (arp_table s') = cache (arp_table s).
Proof.
  intros U Hl U' H. inversion H as [s0 Hu Ht|i t1 e r0 s0 Hu Hf E Hr Ht|i e r0 s0 Hu E Hip Se Hp Ht|i t1 e c s0 Hu Hf E Se Hp Hc Ht Hcp];
    rewrite Hu; subst; [by rewrite Ht|..].
  - destruct (find_placed _ _ _ _ _ U Hl Hf) as (U1 & Hp & d & Ed & Hip & Hc & Hd & H0).
    assert (d = e) as -> by congruence. destruct (decide (stable e)) as [Se|Se].
    + destruct (stable_host e Se) as (eth & on & a & ag & Hh). left. exists eth, on, a, ag.
      assert (asked e = e) as Ha by (unfold asked; case_decide as D; [unfold stable in Se; by rewrite D in Se|done]).
      rewrite Ha, list_insert_id in Ht by done. rewrite Ht.
      destruct Hp as [[_ <-]|[Hn [[_ Hp]|(_ & v & h & Hv & Hp & _)]]].
      * by rewrite Hc, Hh.
      * by rewrite <-Hp, Hc, Hh in Hn.
      * rewrite Hh in Hc. rewrite Hp in Hc. apply lookup_delete_Some in Hc as [_ Hc]. congruence.
    + right. destruct (asked_host e (unstable_host e Se) H0 0) as (_ & Ha & Hi).
      exists (cache t1), (e_netif e), (ctime e), (q e), (q e). split; [done|]. split; [|split].
      * rewrite Hc. destruct (unstable_host e Se) as [Hh|(on & a & w & Hh)]; [right; rewrite Hh; by destruct (H0 Hh)|left].
        unfold asked, host_of in *. destruct (e_state e); try done.
      * rewrite Ht in U' |- *. rewrite (cache_insert t1 i e) by done. unfold remember. by rewrite Ha, Hi, Hd, Hip, insert_delete_eq.
      * left. destruct Hr as [?|[_ ?]]; auto.
  - left. destruct (stable_host e Se) as (eth & on & a & ag & Hh). exists eth, on, a, ag. rewrite Ht. split; [|done].
    by eapply cache_entry.
  - right. destruct (find_placed _ _ _ _ _ U Hl Hf) as (U1 & Hpl & d & Ed & Hip & Hc' & Hd & H0).
    assert (d = e) as -> by congruence. destruct (asked_host e (unstable_host e Se) H0 c) as (Ha & _ & Hi).
    exists (cache t1), (e_netif e), (ctime e), (q e), c. split; [done|]. split; [|split].
    + rewrite Hc'. destruct (unstable_host e Se) as [Hh|(on & a & w & Hh)]; [right; rewrite Hh; by destruct (H0 Hh)|left].
      unfold asked, host_of in *. destruct (e_state e); try done.
    + rewrite Ht in U' |- *. rewrite (cache_insert t1 i e) by done. unfold remember. rewrite Ha, Hd.
      cbn [ipaddr set_q]. by rewrite Hi, Hip, insert_delete_eq.
    + right. done.
Qed.

Lemma output_spec s s' extra R n p ip nif b r : net_inv s extra R -> net_inv s' extra R ->
  netifs s !! n = Some nif -> output_result n p ip nif b s r s' ->
  spec (netifs s) (Output n p ip) r (cache (arp_table s)) (cache (arp_table s')).
Proof.
  intros I I' En H. exists nif. split; [done|]. pose proof (ni_uniq _ _ _ I) as U. pose proof (ni_uniq _ _ _ I') as U'.
  assert (forall dst, next_hop nif ip (ip_src s b) = Some dst -> dst = ip \/ dst = gw nif) as Hnh.
  { intros dst. unfold next_hop. destruct (_ || _); [intros [= <-]; by left|].
    destruct (ip_addr_isany (gw nif)); [done|]. intros [= <-]. by right. }
  destruct H as [s' Hf Ht|r s' Hf Hg Ht|s' Hf Hn Ht|dst i e r s' Hf Hn E Se Hip Ht|dst r s1 s' Hf Hn Hno -> Hq].
  1-3: left; by rewrite Ht.
  - destruct Ht as [Ht|(Ht & St & Ha)]; [left; by rewrite Ht|right]. exists dst. split; [auto|left].
    exists (ethaddr e), (e_netif e), (ctime e). assert (host_of e = Some (Known (ethaddr e) (e_netif e) (ctime e) false)) as Hh
      by (unfold host_of; by rewrite St).
    split; [rewrite <-Hip; by eapply cache_entry|]. split; [done|]. rewrite Ht in U' |- *.
    rewrite (cache_insert _ i e) by done. unfold remember, forget. cbn [host_of set_state e_state]. rewrite Hh.
    cbn. by rewrite insert_delete_eq, Hip.
  - assert (if unicast dst nif then asking dst p r (cache (arp_table s)) (cache (arp_table s'))
      else r = ERR_ARG /\ cache (arp_table s') = cache (arp_table s)) as Hsp
      by exact (query_spec (with_ps (put p (header_moved SIZEOF_ETH_HDR b) (ps s)) s) s' dst p nif r U (ni_len _ _ _ I) U' Hq).
    destruct (unicast dst nif) eqn:Hu; [right|left; by destruct Hsp]. exists dst. split; [auto|right; auto].
Qed.

Lemma apart_null keep s extra R : net_inv s extra R -> apart 0 keep s.
Proof.
  intros I a c _ Hc ([x b] & Hx & Hin)%list_elem_of_fmap. cbn in Hx. subst x.
  destruct (chain_elem _ _ _ _ _ _ Hc Hin) as [E _]. destruct (ri_nonzero _ _ _ _ _ (ni_refs _ _ _ I) E). lia.
Qed.

(** The functions of the ARP module refine the operations on the cache:
    called on packets and interfaces that exist, each one returns, keeps the
    invariant and the packets of the rest of the system, and changes the cache as
    [spec] says. *)
Lemma call_refines s extra R call :
  net_inv s extra R -> Z.of_nat (length extra) < 49998 -> call_ok extra s call ->
  exists r s', run call s = Some (r, s') /\ net_inv s' extra R /\
    frame (filter (fun a => a ≠ call_packet call) extra) s s' /\
    spec (netifs s) call r (cache (arp_table s)) (cache (arp_table s')).
Proof.
  intros I Hx Hok. apply wp_run.
  assert (forall a, a ∈ filter (fun a => a ≠ call_packet call) extra -> a ∈ extra) as Hk
    by (intros a [_ ?]%list_elem_of_filter; done).
  assert (call_packet call ∉ filter (fun a => a ≠ call_packet call) extra) as Hp
    by (by intros [? _]%list_elem_of_filter).
  destruct call as [|n|n ip eth flags|n ip p|n p ip|n ip|n]; cbn [run call_ok call_packet] in *.
  - apply wp_bind. eapply wp_tmr; [done|]. intros s' I' F' T'. apply wp_ret. split; [done|].
    split; [by eapply frame_sub|]. cbn [spec]. pose proof (ni_uniq _ _ _ I') as U'. rewrite T' in U' |- *.
    apply cache_fmap; [apply I|done|]. intros e He. apply aged_host.
    pose proof (ni_entries _ _ _ I) as Hf. rewrite Forall_forall in Hf. auto.
  - apply wp_bind. eapply wp_cleanup; [done|]. intros s' I' F' T'. apply wp_ret. split; [done|].
    split; [by eapply frame_sub|]. cbn [spec]. pose proof (ni_uniq _ _ _ I') as U'. rewrite T' in U' |- *.
    apply cache_fmap; [apply I|done|]. intros e _. apply cleaned_host.
  - destruct Hok as [[nif En] H6]. eapply wp_update; [done|exact En|done|lia|]. intros r s' I' F' Hr.
    split; [done|]. split; [by eapply frame_sub|]. by eapply update_spec.
  - destruct Hok as [[nif En] Hb]. destruct (Z.eq_dec p 0) as [->|Hz].
    + eapply (wp_query s extra _ R n nif ip 0 (mk_pbuf 0 0 0 0 PBUF_RAM 0 0)); [done..| |].
      * by eapply apart_null.
      * intros r s' I' F' Hr. split; [done|]. split; [done|]. exists nif. split; [done|].
        by eapply query_spec; [apply I..|apply I'|].
    + destruct (Hb Hz) as (b & Hs & Hh & Hl). eapply (wp_query s extra _ R n nif ip p b); [done..| | |].
      * done.
      * by apply apart_head.
      * intros r s' I' F' Hr. split; [done|]. split; [done|]. exists nif. split; [done|].
        by eapply query_spec; [apply I..|apply I'|].
  - destruct Hok as [[nif En] [b Hb]]. eapply wp_output; [done|exact En|done|exact Hb|done|done|].
    intros r s' I' F' Hr. split; [done|]. split; [done|]. by eapply output_spec.
  - destruct Hok as [nif En]. eapply wp_request; [done|exact En|lia|]. intros r s' I' F' [T' _].
    split; [done|]. split; [by eapply frame_sub|]. cbn [spec]. by rewrite T'.
  - destruct Hok as [nif En]. unfold etharp_gratuitous. apply wp_bind, (wp_gets _ nif); [done|].
    eapply wp_request; [done|exact En|lia|]. intros r s' I' F' [T' _].
    split; [done|]. split; [by eapply frame_sub|]. cbn [spec]. by rewrite T'.
Qed.

(** ** Sequences of calls *)

(** The calls [l] one after the other, on packets and interfaces that exist when
    they are made. *)
Inductive calls (extra : list Z) : net A W -> list arp_call -> net A W -> Prop :=
  | calls_nil s : calls extra s [] s
  | calls_cons s call r s1 l s2 : call_ok extra s call -> run call s = Some (r, s1) ->
      calls extra s1 l s2 -> calls extra s (call :: l) s2.

(** [spec] along a sequence. *)
Inductive specs (ns : gmap Z netif) : gmap Z host -> list arp_call -> gmap Z host -> Prop :=
  | specs_nil c : specs ns c [] c
  | specs_cons c call r c1 l c2 : spec ns call r c c1 -> specs ns c1 l c2 -> specs ns c (call :: l) c2.

(** The two ends of the simulation: the state and the cache it stands for. *)
Definition represents s (extra : list Z) (R : list block) (ns : gmap Z netif) (c : gmap Z host) : Prop :=
  net_inv s extra R /\ netifs s = ns /\ cache (arp_table s) = c.

Lemma calls_represent extra R s l s' : calls extra s l s' -> Z.of_nat (length extra) < 49998 ->
  net_inv s extra R ->
  exists c', represents s' extra R (netifs s) c' /\ specs (netifs s) (cache (arp_table s)) l c'.
Proof.
  induction 1 as [s|s call r s1 l s2 Hok Hrun _ IH]; intros Hx I.
  - exists (cache (arp_table s)). split; [done|constructor].
  - destruct (call_refines s extra R call I Hx Hok) as (r' & s1' & E & I1 & F1 & Hs).
    rewrite Hrun in E. injection E as <- <-. destruct (IH Hx I1) as (c' & Hc & Hs').
    rewrite (fr_netifs _ _ _ F1) in Hc, Hs'. exists c'. split; [done|]. by econstructor.
Qed.

(** ** Time *)

Fixpoint ticks (k : nat) : M A W unit :=
  match k with O => ret tt | S k => etharp_tmr ;; ticks k end.

Fixpoint tick_n (k : nat) (h : host) : option host :=
  match k with O => Some h | S k => tick h ≫= tick_n k end.

Lemma wp_ticks k : forall extra R s, net_inv s extra R -> 
  wp (ticks k) (fun _ s' => net_inv s' extra R /\ frame extra s s' /\
    cache (arp_table s') = omap (tick_n k) (cache (arp_table s))) s.
Proof.
  induction k as [|k IH]; intros extra R s I; cbn [ticks].
  - apply wp_ret. split; [done|]. split; [apply frame_refl|]. apply map_eq. intros ip. rewrite lookup_omap.
    by destruct (cache (arp_table s) !! ip).
  - apply wp_bind. eapply wp_tmr; [done|]. intros s1 I1 F1 T1.
    eapply wp_mono; [by apply IH|]. intros _ s2 (I2 & F2 & C2). split; [done|]. split; [by eapply frame_trans|].
    rewrite C2. pose proof (ni_uniq _ _ _ I1) as U1. rewrite T1 in U1 |- *.
    rewrite (cache_fmap _ aged tick); [|apply I|done|].
    + apply map_eq. intros ip. rewrite !lookup_omap. by destruct (cache (arp_table s) !! ip).
    + intros e He. apply aged_host. pose proof (ni_entries _ _ _ I) as Hf. rewrite Forall_forall in Hf. auto.
Qed.

Lemma tick_n_known k : forall eth on a ag, 0 <= a < 240 ->
  tick_n k (Known eth on a ag) =
    if decide (k = 0%nat) then Some (Known eth on a ag)
    else if a + Z.of_nat k <? 240 then Some (Known eth on (a + Z.of_nat k) false) else None.
Proof.
  induction k as [|k IH]; intros eth on a ag Ha; [done|]. cbn [tick_n tick]. rewrite decide_False by done.
  destruct (Z.leb_spec 240 (a + 1)).
  - by rewrite (proj2 (Z.ltb_ge _ _)) by lia.
  - cbn [mbind option_bind]. rewrite IH by lia. case_decide as D; [subst k; by rewrite (proj2 (Z.ltb_lt _ _)) by lia|].
    by replace (a + 1 + Z.of_nat k) with (a + Z.of_nat (S k)) by lia.
Qed.

Lemma tick_n_asked k on a w : 0 <= a < 2 -> (2 <= k)%nat -> tick_n k (Asked on a w) = None.
Proof.
  intros Ha Hk. destruct k as [|[|k]]; [lia..|]. cbn [tick_n tick]. destruct (Z.leb_spec 2 (a + 1)); [done|].
  cbn [mbind option_bind tick]. by rewrite (proj2 (Z.leb_le _ _)) by lia.
Qed.

Lemma host_age s extra R ip h : net_inv s extra R -> cache (arp_table s) !! ip = Some h ->
  0 <= age h < match h with Asked _ _ _ => 2 | Known _ _ _ _ => 240 end.
Proof.
  intros I (e & He & _ & Hh)%cache_lookup; [|apply I]. pose proof (ni_entries _ _ _ I) as Hf.
  rewrite Forall_forall in Hf. destruct (Hf e He) as (_ & _ & Hc). unfold host_of in Hh.
  destruct (e_state e); try done; injection Hh as <-; cbn; done.
Qed.

(** ** The frames *)

Lemma find_entry_known s extra R i e flags : net_inv s extra R -> arp_table s !! i = Some e -> non_empty e ->
  etharp_find_entry (ipaddr e) flags s = Some (Z.of_nat i, s).
Proof.
  intros I E Ne. unfold etharp_find_entry, bind, gets. cbn [mbind option_bind].
  assert (Forall (fun e => 0 <= ctime e) (arp_table s)) as Hc.
  { eapply Forall_impl; [apply (ni_entries _ _ _ I)|]. intros d Hd%entry_ok_ctime. lia. }
  pose proof (search_table (ipaddr e) _ (ni_len _ _ _ I) Hc) as Hs.
  destruct (search (ipaddr e) 0 (arp_table s) no_candidates) as [k|c].
  - destruct Hs as (d & Ed & Nd & Hd). assert (k = i) as -> by (by eapply (ni_uniq _ _ _ I)). done.
  - destruct Hs as [Hu _]. exfalso. eapply Hu; [by eapply list_elem_of_lookup_2|done|done].
Qed.

Lemma set_entry_run s i e f : arp_table s !! i = Some e ->
  set_entry i f s = Some (tt, with_table (<[i := f e]> (arp_table s)) s).
Proof. unfold set_entry. by intros ->. Qed.

Lemma entry_run s i e : arp_table s !! i = Some e -> entry i s = Some (e, s).
Proof. unfold entry, gets. by intros ->. Qed.

(** The bytes of the packet after the Ethernet header is written. *)
Lemma eth_hdr_bytes b dst src s : length dst = 6%nat -> length src = 6%nat -> SIZEOF_ETH_HDR <= len b ->
  read_bytes (bytes (ps (with_eth_hdr b dst src s))) (payload b) (len b) =
  dst ++ src ++ [0x08; 0x00] ++ drop 14 (read_bytes (bytes (ps s)) (payload b) (len b)).
Proof.
  unfold SIZEOF_ETH_HDR. intros Hd Hs Hl. cbn [with_eth_hdr ps with_ps bytes with_bytes].
  rewrite <-(Z.add_0_r (payload b)) at 1. rewrite read_write; [|lia|rewrite !length_app, Hd, Hs; cbn [length]; lia].
  unfold splice. rewrite !length_app, Hd, Hs. cbn [length]. change (Z.to_nat 0) with 0%nat. rewrite take_0. cbn [app].
  by rewrite <-!app_assoc.
Qed.

(** An answer, when a packet waits for it. *)
Lemma update_run s extra R n nif i e eth flags b : net_inv s extra R -> netifs s !! n = Some nif ->
  length eth = 6%nat -> arp_table s !! i = Some e -> unicast (ipaddr e) nif = true -> q e ≠ 0 ->
  bufs (ps s) !! q e = Some b ->
  etharp_update_arp_entry n (ipaddr e) eth flags s =
  ((_ <- link_output n (q e) ;; pbufs (pbuf_free (q e))) ;; ret ERR_OK)
    (with_eth_hdr b eth (hwaddr nif) (with_table (<[i := resolved n eth e]> (arp_table s)) s)).
Proof.
  intros I En H6 E Hu Hz Eb. destruct (inv_entry _ _ _ _ _ I E) as [(Hp & _) Hqo].
  destruct (Hqo Hz) as (b' & Eb' & _ & _ & Lb). assert (b' = b) as -> by congruence.
  assert (non_empty e) as Ne by (unfold non_empty; by rewrite Hp).
  pose proof (lookup_lt_Some _ _ _ E) as Hlt.
  unfold etharp_update_arp_entry. erewrite bind_run by (unfold the_netif, gets; by rewrite En).
  assert ((ip_addr_isany (ipaddr e) || ip_addr_isbroadcast (ipaddr e) nif || ip_addr_ismulticast (ipaddr e)) = false) as ->
    by (unfold unicast in Hu; by apply negb_true_iff in Hu).
  rewrite (bind_run _ _ _ _ _ (find_entry_known s extra R i e flags I E Ne)).
  rewrite (proj2 (Z.ltb_ge (Z.of_nat i) 0)) by lia. rewrite Nat2Z.id. cbv zeta.
  do 4 (erewrite bind_run by (apply set_entry_run; first [exact E|by apply list_lookup_insert_eq]);
    cbn [arp_table with_table]; rewrite ?list_insert_insert_eq).
  erewrite bind_run by (apply entry_run; by apply list_lookup_insert_eq).
  cbn [q set_ctime set_ethaddr set_netif set_state]. rewrite (proj2 (Z.eqb_neq (q e) 0) Hz). cbn [negb when].
  unfold bind at 1 2. erewrite set_entry_run by (by apply list_lookup_insert_eq).
  cbn [arp_table with_table]. rewrite list_insert_insert_eq. unfold bind at 1 2.
  erewrite send_ip_eq; [|exact Eb|done|done|by eapply (ni_hw _ _ _ I)].
  change (set_q 0 _) with (resolved n eth e). unfold bind.
  change (with_eth_hdr b eth (hwaddr nif) (with_table (<[i := resolved n eth e]> (arp_table s)) _))
    with (with_eth_hdr b eth (hwaddr nif) (with_table (<[i := resolved n eth e]> (arp_table s)) s)).
  destruct (link_output _ _ _) as [[r s1]|]; [|done]. by destruct (pbufs _ s1) as [[k s2]|].
Qed.

(** A known host that need not be asked again. *)
Definition rests (e : etharp_entry) : Prop :=
  stable e /\ (e_state e = ETHARP_STATE_STABLE_REREQUESTING \/ ctime e < 228).

Lemma output_index_run s n nif p b i e : netifs s !! n = Some nif -> arp_table s !! i = Some e -> rests e ->
  bufs (ps s) !! p = Some b -> SIZEOF_ETH_HDR <= len b -> length (hwaddr nif) = 6%nat -> length (ethaddr e) = 6%nat ->
  etharp_output_to_arp_index n p i s = link_output n p (with_eth_hdr b (ethaddr e) (hwaddr nif) s).
Proof.
  intros En E [_ Hr] Eb Hl Hh H6. unfold etharp_output_to_arp_index.
  erewrite bind_run by (unfold the_netif, gets; by rewrite En). rewrite (bind_run _ _ _ _ _ (entry_run s i e E)).
  assert ((bool_decide (e_state e = ETHARP_STATE_STABLE) && (ARP_AGE_REREQUEST_USED <=? ctime e)) = false) as ->.
  { unfold ARP_AGE_REREQUEST_USED, ARP_MAXAGE. destruct Hr as [Hr|Hr]; [by rewrite Hr|].
    by rewrite (proj2 (Z.leb_gt _ _)), andb_false_r by lia. }
  cbn [when]. unfold bind at 1. cbn [ret]. rewrite (bind_run _ _ _ _ _ (entry_run s i e E)).
  by apply send_ip_eq.
Qed.

(** A state that differs from [s] in the packets, the cached index and the
    counters. *)
Definition only_sends s s' : Prop :=
  arp_table s' = arp_table s /\ netifs s' = netifs s /\ netif_list s' = netif_list s /\
  netif_default s' = netif_default s /\ netif_num s' = netif_num s /\ autoips s' = autoips s /\ world s' = world s.

Lemma output_run s extra R n nif ip p b i e : net_inv s extra R -> netifs s !! n = Some nif ->
  outgoing p extra s b -> header_fits p SIZEOF_ETH_HDR b = true ->
  ip_addr_isbroadcast ip nif = false -> ip_addr_ismulticast ip = false ->
  next_hop nif ip (ip_src s b) = Some (ipaddr e) -> arp_table s !! i = Some e -> rests e ->
  exists s2, etharp_output n p ip s = link_output n p s2 /\ only_sends s s2 /\
    bufs (ps s2) = <[p := header_moved SIZEOF_ETH_HDR b]> (bufs (ps s)) /\
    read_bytes (bytes (ps s2)) (payload b - 14) (len b + 14) =
      ethaddr e ++ hwaddr nif ++ [0x08; 0x00] ++ read_bytes (bytes (ps s)) (payload b) (len b).
Proof.
  intros I En [[Hp E Cb] Hh Hlen Htot [Ha1 Ha2]] Hf Hb Hm Hn Ei [Se Hr].
  pose proof (ni_hw _ _ _ I n nif En) as Hhw. destruct (inv_entry _ _ _ _ _ I Ei) as [(_ & H6 & _) _].
  pose proof (header_refs (ps s) _ _ p SIZEOF_ETH_HDR b (ni_refs _ _ _ I) E Hh ltac:(done) ltac:(done) Htot Ha1 Ha2) as Hhd.
  rewrite Hf in Hhd. destruct Hhd as [Hhd _].
  set (b1 := header_moved SIZEOF_ETH_HDR b). set (s1 := with_ps (put p b1 (ps s)) s).
  assert (bufs (ps s1) !! p = Some b1) as E1 by apply lookup_insert_eq.
  assert (len b1 = len b + 14) as Lb1 by done. assert (payload b1 = payload b - 14) as Pb1 by done.
  assert (forall t, only_sends s t -> bufs (ps t) = bufs (ps s1) -> bytes (ps t) = bytes (ps s) ->
    forall j d, arp_table t !! j = Some d -> d = e -> exists s2, etharp_output_to_arp_index n p j t = link_output n p s2 /\
      only_sends s s2 /\ bufs (ps s2) = <[p := b1]> (bufs (ps s)) /\
      read_bytes (bytes (ps s2)) (payload b - 14) (len b + 14) =
      ethaddr e ++ hwaddr nif ++ [0x08; 0x00] ++ read_bytes (bytes (ps s)) (payload b) (len b)) as Hsend.
  { intros t Ht Hbt Hyt j d Ej ->. exists (with_eth_hdr b1 (ethaddr e) (hwaddr nif) t).
    assert (SIZEOF_ETH_HDR <= len b1) as Hl1 by (rewrite Lb1; unfold SIZEOF_ETH_HDR; lia). split; [|split; [done|split; [done|]]].
    - apply output_index_run; try done; [|by rewrite Hbt]. by destruct Ht as (_ & -> & _).
    - rewrite <-Pb1, <-Lb1, eth_hdr_bytes by done. do 3 f_equal. rewrite Hyt, Pb1, Lb1.
      rewrite <-(read_bytes_drop _ _ _ 14) by lia. f_equal; lia. }
  unfold etharp_output. erewrite bind_run by (unfold the_netif, gets; by rewrite En).
  erewrite bind_run by (unfold pbufs; by rewrite Hhd). cbn [Z.eqb negb]. rewrite Hb, Hm. cbv zeta.
  change (with_ps (put p (header_moved SIZEOF_ETH_HDR b) (ps s)) s) with s1.
  destruct (next_hop_run s1 nif p b1 ip E1) as (via & Hvia & Hhop); [rewrite Lb1; unfold SIZEOF_ETH_HDR; lia|].
  replace (le32 (read_bytes (bytes (ps s1)) (payload b1 + (SIZEOF_ETH_HDR + 12)) 4)) with (ip_src s b) in Hhop.
  2: { unfold ip_src. rewrite Pb1. cbn [s1 ps with_ps put bytes with_bufs]. do 2 f_equal. unfold SIZEOF_ETH_HDR. lia. }
  rewrite (bind_run _ _ _ _ _ Hvia). rewrite Hn in Hhop. destruct (via && ip_addr_isany (gw nif)); [done|].
  injection Hhop as <-. unfold gets. rewrite (bind_run _ _ _ (etharp_cached_entry s1) s1) by done.
  pose proof (ni_cached _ _ _ I) as Hc. pose proof (ni_len _ _ _ I) as Htl.
  destruct (lookup_lt_is_Some_2 (arp_table s) (Z.to_nat (etharp_cached_entry s))) as [d Ed]; [lia|].
  rewrite (bind_run _ _ _ d s1) by (by apply entry_run).
  assert (forall j d, arp_table s !! j = Some d -> stable d -> ipaddr d = ipaddr e -> d = e) as Huniq.
  { intros j d' Ej Sd Hd. assert (j = i) as ->; [|congruence]. eapply (ni_uniq _ _ _ I); try done.
    - intros Hs. unfold stable in Sd. by rewrite Hs in Sd.
    - intros Hs. unfold stable in Se. by rewrite Hs in Se. }
  destruct (is_stable (e_state d) && (ipaddr e =? ipaddr d)) eqn:D.
  - apply andb_true_iff in D as [D D'%Z.eqb_eq]. unfold bind, inc_stat, modify.
    by eapply Hsend; [..|exact Ed|by eapply Huniq].
  - rewrite (bind_run _ _ _ (arp_table s) s1) by done. pose proof (find_stable_spec (ipaddr e) (arp_table s) 0) as Hfs.
    destruct (find_stable (ipaddr e) 0 (arp_table s)) as [j|].
    + destruct Hfs as (d' & _ & Ed' & Sd & Hd). rewrite Nat.sub_0_r in Ed'. unfold bind, modify.
      by eapply Hsend; [..|exact Ed'|by eapply Huniq].
    + exfalso. apply (Hfs e); [by eapply list_elem_of_lookup_2|exact Se|done].
Qed.

End Refinement.

(** ** Theorems *)

Section Theorems.
Context {A W : Type} {ops : alloc_ops A} {laws : alloc_laws A} {lops : link_ops A W} {llaws : link_laws A W}.
Implicit Types s : net A W.

(** C2: Any sequence of calls of the ARP module, on packets and interfaces
    that exist when they are made, keeps the invariant of the table, of the
    reference counts and of the packets: the references are those of the callers,
    of the table and of the driver, so that nothing leaks and nothing is freed
    twice.  The cache the table stands for changes as the calls promise, and from
    the state reached every further call returns. *)
Theorem arp_refines_cache s extra R l s' :
  net_inv s extra R -> Z.of_nat (length extra) < 49998 -> calls extra s l s' ->
  exists c', represents s' extra R (netifs s) c' /\ specs (netifs s) (cache (arp_table s)) l c' /\
    forall call, call_ok extra s' call -> exists r s'', run call s' = Some (r, s'').
Proof.
  intros I Hx Hc. destruct (calls_represent extra R s l s' Hc Hx I) as (c' & Hr & Hs). exists c'.
  split; [done|]. split; [done|]. intros call Hok. destruct Hr as (I' & _).
  destruct (call_refines s' extra R call I' Hx Hok) as (r & s'' & E & _). eauto.
Qed.

(** C35: Entries live for a number of ticks.  After [k] calls of [etharp_tmr] a
    host that was known is known, [k] ticks older, until 240 ticks are over; from
    two ticks on no question is open and no packet waits; after 240 the cache is
    empty.  The packets of the callers are as they were. *)
Theorem etharp_tmr_expires s extra R k : net_inv s extra R ->
  exists s', ticks k s = Some (tt, s') /\ net_inv s' extra R /\ frame extra s s' /\
    (forall ip eth on a ag, cache (arp_table s) !! ip = Some (Known eth on a ag) -> (0 < k)%nat ->
      cache (arp_table s') !! ip = if a + Z.of_nat k <? 240 then Some (Known eth on (a + Z.of_nat k) false) else None) /\
    ((2 <= k)%nat -> queued (arp_table s') = [] /\ forall ip on a w, cache (arp_table s') !! ip ≠ Some (Asked on a w)) /\
    ((240 <= k)%nat -> cache (arp_table s') = ∅).
Proof.
  intros I. destruct (wp_run _ _ _ (wp_ticks k extra R s I)) as ([] & s' & E & I' & F' & C').
  assert (forall ip on a w, (2 <= k)%nat -> cache (arp_table s') !! ip ≠ Some (Asked on a w)) as Hno.
  { intros ip on a w Hk Hc. rewrite C', lookup_omap in Hc. apply bind_Some in Hc as (h & Hh & Ht).
    pose proof (host_age _ _ _ _ _ I Hh) as Ha. destruct h as [on0 a0 w0|eth0 on0 a0 ag0]; cbn [age] in Ha.
    - rewrite tick_n_asked in Ht by done. done.
    - rewrite tick_n_known in Ht by done. case_decide; [done|]. by destruct (_ <? _). }
  exists s'. split; [done|]. split; [done|]. split; [done|]. split; [|split].
  - intros ip eth on a ag Hh Hk. rewrite C', lookup_omap, Hh. cbn [mbind option_bind].
    rewrite tick_n_known by exact (host_age _ _ _ _ _ I Hh). by rewrite decide_False by lia.
  - intros Hk. split; [|auto]. apply elem_of_nil_inv. intros a (e & Ha & He)%list_elem_of_bind.
    unfold qs in Ha. destruct (Z.eqb_spec (q e) 0) as [|Hz]; [set_solver|].
    pose proof (ni_entries _ _ _ I') as Hf. rewrite Forall_forall in Hf. destruct (Hf e He) as (Hp & _).
    eapply (Hno (ipaddr e)); [done|]. apply cache_lookup; [apply I'|]. exists e. split; [done|]. split; [done|].
    unfold host_of. by rewrite (Hp Hz).
  - intros Hk. apply map_eq. intros ip. rewrite C', lookup_omap, lookup_empty.
    destruct (cache (arp_table s) !! ip) as [h|] eqn:Hh; [|done]. cbn [mbind option_bind].
    pose proof (host_age _ _ _ _ _ I Hh) as Ha. destruct h as [on a w|eth on a ag]; cbn [age] in Ha.
    + apply tick_n_asked; [done|lia].
    + rewrite tick_n_known by done. rewrite decide_False by lia. by rewrite (proj2 (Z.ltb_ge _ _)) by lia.
Qed.

(** An answer for a host a packet waits for: the entry becomes stable and
    empty of packets, and the packet goes to the driver, once, with the Ethernet
    header of the answer in front of its data, and is freed. *)
Theorem etharp_update_sends s extra R n nif i e eth flags b :
  net_inv s extra R -> netifs s !! n = Some nif -> length eth = 6%nat ->
  arp_table s !! i = Some e -> unicast (ipaddr e) nif = true -> q e ≠ 0 -> bufs (ps s) !! q e = Some b ->
  exists s2, etharp_update_arp_entry n (ipaddr e) eth flags s =
    ((_ <- link_output n (q e) ;; pbufs (pbuf_free (q e))) ;; ret ERR_OK) s2 /\
    arp_table s2 = <[i := mk_entry 0 (ipaddr e) n eth ETHARP_STATE_STABLE 0]> (arp_table s) /\
    bufs (ps s2) = bufs (ps s) /\
    read_bytes (bytes (ps s2)) (payload b) (len b) =
      eth ++ hwaddr nif ++ [0x08; 0x00] ++ drop 14 (read_bytes (bytes (ps s)) (payload b) (len b)).
Proof.
  intros I En H6 E Hu Hz Eb. eexists. split; [by eapply update_run|]. split; [done|]. split; [done|].
  destruct (inv_entry _ _ _ _ _ I E) as [_ Hqo]. destruct (Hqo Hz) as (b' & Eb' & _ & _ & Lb).
  assert (b' = b) as -> by congruence. rewrite eth_hdr_bytes; [done|done| |done]. by eapply (ni_hw _ _ _ I).
Qed.

(** A packet for a host that is known, on the own network or behind the
    gateway, goes to the driver with the Ethernet address of the next hop: the
    frame is the header of 14 bytes and the packet as it was. *)
Theorem etharp_output_frame s extra R n nif ip p b i e :
  net_inv s extra R -> netifs s !! n = Some nif -> outgoing p extra s b ->
  header_fits p SIZEOF_ETH_HDR b = true ->
  ip_addr_isbroadcast ip nif = false -> ip_addr_ismulticast ip = false ->
  next_hop nif ip (ip_src s b) = Some (ipaddr e) -> arp_table s !! i = Some e -> rests e ->
  exists s2, etharp_output n p ip s = link_output n p s2 /\ only_sends s s2 /\
    bufs (ps s2) = <[p := header_moved SIZEOF_ETH_HDR b]> (bufs (ps s)) /\
    read_bytes (bytes (ps s2)) (payload b - 14) (len b + 14) =
      ethaddr e ++ hwaddr nif ++ [0x08; 0x00] ++ read_bytes (bytes (ps s)) (payload b) (len b).
Proof. intros. by eapply output_run. Qed.

(** [etharp_request] hands the driver one frame of 42 bytes, the ARP
    request of RFC 826 for [ip], in a packet of its own, counts and frees it; or
    there is no memory, and nothing else has changed. *)
Theorem etharp_request_frame s extra R n nif ip :
  net_inv s extra R -> netifs s !! n = Some nif ->
  (exists s', etharp_request n ip s = Some (ERR_MEM, s') /\ net_inv s' extra R /\ frame extra s s' /\ same_table s s' /\
    exists s0, pbufs (pbuf_alloc PBUF_RAW SIZEOF_ETHARP_PACKET PBUF_RAM) s = Some (0, s0)) \/
  (exists p b s1, bufs (ps s) !! p = None /\ bufs (ps s1) !! p = Some b /\ next b = 0 /\
    net_inv s1 (p :: extra) R /\ frame extra s s1 /\ same_table s s1 /\
    read_bytes (bytes (ps s1)) (payload b) (len b) =
      ethbroadcast ++ hwaddr nif ++ [0x08; 0x06] ++
      [0; 1; 0x08; 0x00; 6; 4; 0; 1] ++ hwaddr nif ++ bytes32 (ip_addr nif) ++ [0; 0; 0; 0; 0; 0] ++ bytes32 ip /\
    etharp_request n ip s =
      (result <- link_output n p ;; inc_stat etharp_xmit ;; pbufs (pbuf_free p) ;; ret result) s1).
Proof.
  intros I En. pose proof (ni_hw _ _ _ I n nif En) as Hh. unfold etharp_request.
  erewrite bind_run by (unfold the_netif, gets; by rewrite En).
  destruct (raw_run s extra R n (hwaddr nif) ethbroadcast (hwaddr nif) (ip_addr nif) ethzero ip ARP_REQUEST I)
    as [(s' & H)|(p & b & s0 & s1 & Hn & Eb & _ & Hnx & _ & T0 & F0 & [Hs Hbf I1 F1 Hd] & Er)]; try done; [left; eauto|right].
  exists p, b, s1. split; [done|]. split; [by rewrite Hbf|]. split; [done|]. split; [done|].
  split; [by eapply frame_trans|]. split; [|split; [|done]].
  - destruct T0 as [T0 C0]. rewrite Hs. by split.
  - rewrite Hd. unfold arp_frame, raw_dst. by destruct (ip_addr_islinklocal (ip_addr nif)).
Qed.

End Theorems.

(** ** The theorems at work *)

(** 192.168.0.7 *)
Definition demo_ip : Z := 0x0700a8c0.
Definition demo_eth : list Z := [2; 0; 0; 0; 0; 7].

(** A packet is sent to a host that is not known: a question goes out, and after
    the answer the packet, with 14 bytes in front of it. *)
Example arp_session :
  option_map (fun x : Z * net lwip_mem wire => map (fun f => (f.1, firstn 22 f.2, length f.2)) (frames (world x.2)))
    ((etharp_output 0x100 pk demo_ip ;; etharp_update_arp_entry 0x100 demo_ip demo_eth ETHARP_FLAG_FIND_ONLY) net1)
  = Some [(0x100, ethbroadcast ++ demo_mac ++ [0x08; 0x06; 0; 1; 0x08; 0x00; 6; 4; 0; 1], 42%nat);
          (0x100, demo_eth ++ demo_mac ++ [0x08; 0x00; 0; 0; 0; 0; 0; 0; 0; 0], 114%nat)].
Proof. vm_compute. reflexivity. Qed.

Lemma arp_refines_cache_witness : exists s' c',
  calls [pk] net1 [Output 0x100 pk demo_ip; Tmr] s' /\ represents s' [pk] [] (netifs net1) c' /\
  specs (netifs net1) (cache (arp_table net1)) [Output 0x100 pk demo_ip; Tmr] c' /\
  forall call, call_ok [pk] s' call -> exists r s'', run call s' = Some (r, s'').
Proof.
  assert (call_ok [pk] net1 (Output 0x100 pk demo_ip)) as Hok
    by (split; [eexists; reflexivity|exists pk_b; exact pk_outgoing]).
  destruct (call_refines net1 [pk] [] (Output 0x100 pk demo_ip) net1_inv ltac:(done) Hok) as (r & s1 & E1 & I1 & _).
  destruct (call_refines s1 [pk] [] Tmr I1 ltac:(done) ltac:(done)) as (r2 & s2 & E2 & _).
  assert (calls [pk] net1 [Output 0x100 pk demo_ip; Tmr] s2) as Hc
    by (econstructor; [exact Hok|exact E1|]; econstructor; [done|exact E2|constructor]).
  destruct (arp_refines_cache net1 [pk] [] [Output 0x100 pk demo_ip; Tmr] s2 net1_inv ltac:(done) Hc) as (c' & H).
  exists s2, c'. exact (conj Hc H).
Defined.

(** With a host known and one asked for. *)
Definition known7 : etharp_entry := mk_entry 0 demo_ip 0x100 demo_eth ETHARP_STATE_STABLE 5.
Definition asked8 : etharp_entry := mk_entry 0 0x0800a8c0 0 ethzero ETHARP_STATE_PENDING 1.
Definition set_row (i : nat) (e : etharp_entry) (s : net lwip_mem wire) : net lwip_mem wire :=
  with_table (<[i := e]> (arp_table s)) s.
Definition net2 : net lwip_mem wire := set_row 0 known7 (set_row 1 asked8 net1).

Lemma net1_asked_inv : net_inv (set_row 1 asked8 net1) [pk] [].
Proof.
  apply (inv_set_entry net1 [pk] [] 1 no_entry asked8 net1_inv); try done. intros _ j d _ Ej Nd.
  apply lookup_replicate in Ej as [-> _]. by destruct Nd.
Qed.

Lemma net2_inv : net_inv net2 [pk] [].
Proof.
  assert (forall i (e : etharp_entry), replicate ARP_TABLE_SIZE no_entry !! i = Some e -> ~ non_empty e) as Hn
    by (intros i e [-> _]%lookup_replicate H; by apply H).
  apply (inv_set_entry _ [pk] [] 0 no_entry known7 net1_asked_inv); try done.
  intros _ j d Hj Ej Nd. cbn [arp_table with_table set_row] in Ej. destruct (decide (j = 1%nat)) as [->|Hj1].
  - by injection Ej as <-.
  - rewrite list_lookup_insert_ne in Ej by done. by apply Hn in Ej.
Qed.

Lemma etharp_tmr_expires_witness : exists s', ticks 3 net2 = Some (tt, s') /\
  cache (arp_table s') !! demo_ip = Some (Known demo_eth 0x100 8 false) /\
  cache (arp_table s') !! 0x0800a8c0 = None.
Proof.
  destruct (etharp_tmr_expires net2 [pk] [] 3 net2_inv) as (s' & E & I' & _ & Hk & Ha & _). exists s'.
  split; [done|]. split; [exact (Hk demo_ip demo_eth 0x100 5 false ltac:(by vm_compute) ltac:(lia))|].
  destruct (wp_run _ _ _ (wp_ticks 3 [pk] [] net2 net2_inv)) as ([] & s2 & E2 & _ & _ & C2).
  rewrite E in E2. injection E2 as <-. rewrite C2. by vm_compute.
Defined.

(** With a packet that waits. *)
Definition net3 : net lwip_mem wire := set_row 1 (set_q pk asked8) (set_row 1 asked8 net1).

Lemma net3_inv : net_inv net3 [] [].
Proof.
  apply (inv_enqueue (set_row 1 asked8 net1) [] [] 1 asked8 pk pk_b net1_asked_inv); try done. by left.
Qed.

Lemma etharp_update_sends_witness : exists s2,
  etharp_update_arp_entry 0x100 0x0800a8c0 demo_eth ETHARP_FLAG_FIND_ONLY net3 =
    ((_ <- link_output 0x100 pk ;; pbufs (pbuf_free pk)) ;; ret ERR_OK) s2 /\
  read_bytes (bytes (ps s2)) (payload pk_b) (len pk_b) =
    demo_eth ++ demo_mac ++ [0x08; 0x00] ++ drop 14 (read_bytes (bytes (ps net3)) (payload pk_b) (len pk_b)).
Proof.
  destruct (etharp_update_sends net3 [] [] 0x100 demo_netif 1 (set_q pk asked8) demo_eth ETHARP_FLAG_FIND_ONLY pk_b net3_inv
    ltac:(reflexivity) ltac:(reflexivity) ltac:(reflexivity) ltac:(vm_compute; reflexivity) ltac:(discriminate)
    ltac:(vm_compute; reflexivity)) as (s2 & E & _ & _ & H). exists s2. exact (conj E H).
Defined.

Lemma pk_outgoing2 : outgoing pk [pk] net2 pk_b.
Proof. destruct pk_outgoing as [[? ? ?] ? ? ? ?]. by split; [split|..]. Qed.

Lemma etharp_output_frame_witness : exists s2, etharp_output 0x100 pk demo_ip net2 = link_output 0x100 pk s2 /\
  read_bytes (bytes (ps s2)) (payload pk_b - 14) (len pk_b + 14) =
    demo_eth ++ demo_mac ++ [0x08; 0x00] ++ read_bytes (bytes (ps net2)) (payload pk_b) (len pk_b).
Proof.
  destruct (etharp_output_frame net2 [pk] [] 0x100 demo_netif demo_ip pk pk_b 0 known7 net2_inv ltac:(reflexivity)
    pk_outgoing2 ltac:(vm_compute; reflexivity) ltac:(vm_compute; reflexivity) ltac:(vm_compute; reflexivity)
    ltac:(vm_compute; reflexivity) ltac:(reflexivity) ltac:(split; [reflexivity|right; vm_compute; reflexivity]))
    as (s2 & E & _ & _ & H). exists s2. exact (conj E H).
Defined.

Lemma etharp_request_frame_witness :
  (exists s', etharp_request 0x100 demo_ip net1 = Some (ERR_MEM, s') /\ net_inv s' [pk] []) \/
  (exists p b s1, read_bytes (bytes (ps s1)) (payload b) (len b) =
      ethbroadcast ++ demo_mac ++ [0x08; 0x06] ++ [0; 1; 0x08; 0x00; 6; 4; 0; 1] ++ demo_mac ++ [192; 168; 0; 2] ++
      [0; 0; 0; 0; 0; 0] ++ [192; 168; 0; 7] /\
    etharp_request 0x100 demo_ip net1 =
      (result <- link_output 0x100 p ;; inc_stat etharp_xmit ;; pbufs (pbuf_free p) ;; ret result) s1).
Proof.
  destruct (etharp_request_frame net1 [pk] [] 0x100 demo_netif demo_ip net1_inv ltac:(reflexivity))
    as [(s' & E & I & _)|(p & b & s1 & _ & _ & _ & _ & _ & _ & H & E)]; [left|right].
  - exists s'. exact (conj E I).
  - exists p, b, s1. exact (conj H E).
Defined.

(** [etharp_cleanup_netif], called when an interface goes down, removes the
    entries whose [netif] is the interface, but [etharp_query] does not set it:
    after a packet for an unknown host and the clean-up of its interface the host
    is still asked for and the packet still waits. *)
Theorem etharp_cleanup_leaves_pending :
  option_map (fun x : unit * net lwip_mem wire =>
      (match cache (arp_table x.2) !! demo_ip with Some (Asked on a w) => (on, a, negb (w =? 0)) | _ => (0, 0, false) end,
       length (queued (arp_table x.2))))
    ((etharp_output 0x100 pk demo_ip ;; etharp_cleanup_netif 0x100) net1)
  = Some ((0, 0, true), 1%nat).
Proof. vm_compute. reflexivity. Qed.

End ArpCache.
