(* ===== verification/Tivaif.v ===== *)
(** * The Ethernet MAC driver

    [tiva-tm4c129.c]: the rings of DMA descriptors, [tivaif_transmit], which is
    the [linkoutput] of the interface, and [tivaif_process_transmit], which gives
    the packets back when the hardware has sent them.

    A ring is seen from its read index: the descriptors in use, in the order they
    were filled, then the free ones ([ring]).  The driver holds one reference for
    each packet in the ring ([held]); the reference is in the last descriptor of
    the packet, the others have the pointer with its lowest bit set. *)
From S2P Require Import Prelude Alloc Pbuf PbufData Refs Net.
Import Alloc Pbuf PbufData Refs Net.

Module Tivaif.

(** ** State *)

Definition NUM_TX_DESCRIPTORS : Z := 24.
Definition NUM_RX_DESCRIPTORS : Z := 8.
Definition PBUF_POOL_BUFSIZE : Z := 512.

Definition DES0_TX_CTRL_OWN : Z := 0x80000000.
Definition DES0_TX_CTRL_INTERRUPT : Z := 0x40000000.
Definition DES0_TX_CTRL_LAST_SEG : Z := 0x20000000.
Definition DES0_TX_CTRL_FIRST_SEG : Z := 0x10000000.
Definition DES0_TX_CTRL_IP_ALL_CKHSUMS : Z := 0x00C00000.
Definition DES0_TX_CTRL_CHAINED : Z := 0x00100000.
Definition DES0_RX_CTRL_OWN : Z := 0x80000000.
Definition DES1_RX_CTRL_CHAINED : Z := 0x00004000.
Definition DES1_RX_CTRL_BUFF1_SIZE_S : Z := 0.

(** [tDescriptor]: the descriptor and the pbuf it refers to; [pLink] is the index
    of the descriptor linked to. *)
Record tDescriptor := mk_desc {
  ui32CtrlStatus : Z; ui32Count : Z; pvBuffer1 : Z; pLink : Z; pBuf : Z }.

(** [tDescriptorList]; [ui32NumDescs] is the length. *)
Record tDescriptorList := mk_list {
  pDescriptors : list tDescriptor; ui32Read : Z; ui32Write : Z }.

(** The driver: both lists, the counters of [lwip_stats.link], the poll demands
    given to the hardware. *)
Record tivaif := mk_tivaif {
  pTxDescList : tDescriptorList; pRxDescList : tDescriptorList;
  link_memerr : Z; link_xmit : Z; polls : Z }.

Definition set_pBuf (p : Z) (d : tDescriptor) : tDescriptor :=
  mk_desc (ui32CtrlStatus d) (ui32Count d) (pvBuffer1 d) (pLink d) p.
Definition with_tx (x : tDescriptorList) (w : tivaif) : tivaif :=
  mk_tivaif x (pRxDescList w) (link_memerr w) (link_xmit w) (polls w).
Definition with_rx (x : tDescriptorList) (w : tivaif) : tivaif :=
  mk_tivaif (pTxDescList w) x (link_memerr w) (link_xmit w) (polls w).
Definition inc_memerr (w : tivaif) : tivaif :=
  mk_tivaif (pTxDescList w) (pRxDescList w) (u16 (link_memerr w + 1)) (link_xmit w) (polls w).
Definition inc_xmit (w : tivaif) : tivaif :=
  mk_tivaif (pTxDescList w) (pRxDescList w) (link_memerr w) (u16 (link_xmit w + 1)) (polls w).
Definition EMACTxDMAPollDemand (w : tivaif) : tivaif :=
  mk_tivaif (pTxDescList w) (pRxDescList w) (link_memerr w) (link_xmit w) (polls w + 1).

(** The descriptor at an index. *)
Definition desc (i : Z) (l : tDescriptorList) : option tDescriptor := pDescriptors l !! Z.to_nat i.
Definition set_desc (i : Z) (d : tDescriptor) (l : tDescriptorList) : tDescriptorList :=
  mk_list (<[Z.to_nat i := d]> (pDescriptors l)) (ui32Read l) (ui32Write l).

(** An index moves on and wraps at the end of the list. *)
Definition wrapped (num i : Z) : Z := if u32 (i + 1) =? num then 0 else u32 (i + 1).

(** ** Operations *)

Section Operations.
Context {A : Type} {ops : alloc_ops A}.

Definition PTR_SAFE_FOR_EMAC_DMA (ptr : Z) : bool := (0x2000000 <=? ptr) && (ptr <? 0x20070000).

(** The walk of [tivaif_check_pbuf]: whether all pbufs are within reach. *)
Fixpoint check_walk (fuel : nat) (pBuf : Z) (s : pstate A) : option bool :=
  match fuel with
  | O => None
  | S fuel =>
      b ← get pBuf s;
      if negb (PTR_SAFE_FOR_EMAC_DMA (payload b)) then Some false
      else if next b =? 0 then Some true else check_walk fuel (next b) s
  end.

Definition tivaif_check_pbuf (p : Z) (s : pstate A) : option (Z * pstate A) :=
  safe ← check_walk (chain_fuel s) p s;
  if safe : bool then Some (p, s)
  else
    b ← get p s;
    '(pBuf, s) ← pbuf_alloc PBUF_RAW (tot_len b) PBUF_POOL s;
    if pBuf =? 0 then Some (0, s)
    else
      '(Err, s) ← pbuf_copy pBuf p s;
      if negb (Err =? ERR_OK) then '(_, s) ← pbuf_free pBuf s; Some (0, s)
      else '(_, s) ← pbuf_free p s; Some (pBuf, s).

(** One descriptor is filled for the pbuf [b] of the packet [p] and handed to the
    hardware. *)
Definition fill_desc (first last : bool) (p : Z) (b : pbuf) (d : tDescriptor) : tDescriptor :=
  let ctrl := if first then DES0_TX_CTRL_FIRST_SEG else 0 in
  let ctrl := Z.lor ctrl (Z.lor DES0_TX_CTRL_IP_ALL_CKHSUMS DES0_TX_CTRL_CHAINED) in
  let ctrl := if last then Z.lor ctrl (Z.lor DES0_TX_CTRL_LAST_SEG DES0_TX_CTRL_INTERRUPT) else ctrl in
  mk_desc (Z.lor ctrl DES0_TX_CTRL_OWN) (len b) (payload b) (pLink d) (if last then p else u32 (p + 1)).

(** The loop of [tivaif_transmit], [n] descriptors to go. *)
Fixpoint fill_loop (n : nat) (first : bool) (p pBuf : Z) (s : pstate A) (l : tDescriptorList)
    : option tDescriptorList :=
  match n with
  | O => Some l
  | S n =>
      d ← desc (ui32Write l) l;
      b ← get pBuf s;
      let last := bool_decide (n = 0%nat) in
      let l := set_desc (ui32Write l) (fill_desc first last p b d) l in
      fill_loop n false p (next b) s
        (mk_list (pDescriptors l) (ui32Read l) (wrapped NUM_TX_DESCRIPTORS (ui32Write l)))
  end.

Definition tivaif_transmit (psNetif p : Z) (s : pstate A) (w : tivaif) : option (Z * pstate A * tivaif) :=
  s ← pbuf_ref p s;
  '(p, s) ← tivaif_check_pbuf p s;
  if p =? 0 then Some (ERR_MEM, s, inc_memerr w)
  else
    let l := pTxDescList w in
    d ← desc (ui32Write l) l;
    if negb (pBuf d =? 0) then '(_, s) ← pbuf_free p s; Some (ERR_MEM, s, inc_memerr w)
    else
      ui32NumChained ← pbuf_clen p s;
      let ui32NumDescs :=
        if ui32Write l <? ui32Read l then ui32Read l - ui32Write l
        else (NUM_TX_DESCRIPTORS - ui32Write l) + ui32Read l in
      if ui32NumDescs <? ui32NumChained then '(_, s) ← pbuf_free p s; Some (ERR_MEM, s, inc_memerr w)
      else
        l ← fill_loop (Z.to_nat ui32NumChained) true p p s
              (set_desc (ui32Write l) (mk_desc DES0_TX_CTRL_FIRST_SEG (ui32Count d) (pvBuffer1 d) (pLink d) (pBuf d)) l);
        Some (ERR_OK, s, inc_xmit (EMACTxDMAPollDemand (with_tx l w))).

(** The loop of [tivaif_process_transmit]. *)
Fixpoint process_loop (fuel : nat) (s : pstate A) (l : tDescriptorList) : option (pstate A * tDescriptorList) :=
  match fuel with
  | O => Some (s, l)
  | S fuel =>
      d ← desc (ui32Read l) l;
      if negb (Z.land (ui32CtrlStatus d) DES0_TX_CTRL_OWN =? 0) then Some (s, l)
      else if pBuf d =? 0 then Some (s, l)
      else
        s ← (if Z.land (pBuf d) 1 =? 0 then snd <$> pbuf_free (pBuf d) s else Some s);
        let l := set_desc (ui32Read l) (set_pBuf 0 d) l in
        process_loop fuel s (mk_list (pDescriptors l) (wrapped NUM_TX_DESCRIPTORS (ui32Read l)) (ui32Write l))
  end.

Definition tivaif_process_transmit (s : pstate A) (w : tivaif) : option (pstate A * tivaif) :=
  '(s, l) ← process_loop (Z.to_nat NUM_TX_DESCRIPTORS) s (pTxDescList w);
  Some (s, with_tx l w).

(** ** Start *)

(** The transmit part of [InitDMADescriptors]. *)
Definition tx_desc (i : Z) : tDescriptor :=
  mk_desc (Z.lor DES0_TX_CTRL_INTERRUPT (Z.lor DES0_TX_CTRL_CHAINED DES0_TX_CTRL_IP_ALL_CKHSUMS)) 0 0
    (if i =? NUM_TX_DESCRIPTORS - 1 then 0 else i + 1) 0.

(** A receive descriptor with a new pbuf, or without one. *)
Definition rx_desc (i : Z) (s : pstate A) : option (tDescriptor * pstate A) :=
  let link := if i =? NUM_RX_DESCRIPTORS - 1 then 0 else i + 1 in
  '(p, s) ← pbuf_alloc PBUF_RAW PBUF_POOL_BUFSIZE PBUF_POOL s;
  if p =? 0 then Some (mk_desc 0 DES1_RX_CTRL_CHAINED 0 link 0, s)
  else
    b ← get p s;
    Some (mk_desc DES0_RX_CTRL_OWN (Z.lor DES1_RX_CTRL_CHAINED (Z.shiftl (len b) DES1_RX_CTRL_BUFF1_SIZE_S))
            (payload b) link p, s).

Fixpoint rx_descs (idx : list Z) (s : pstate A) : option (list tDescriptor * pstate A) :=
  match idx with
  | [] => Some ([], s)
  | i :: idx => '(d, s) ← rx_desc i s; '(ds, s) ← rx_descs idx s; Some (d :: ds, s)
  end.

(** [InitDMADescriptors]; it resets the indices of the transmit list twice and
    those of the receive list not at all. *)
Definition InitDMADescriptors (s : pstate A) (w : tivaif) : option (pstate A * tivaif) :=
  let tx := mk_list (tx_desc <$> seqZ 0 NUM_TX_DESCRIPTORS) 0 0 in
  '(ds, s) ← rx_descs (seqZ 0 NUM_RX_DESCRIPTORS) s;
  let rx := mk_list ds (ui32Read (pRxDescList w)) (ui32Write (pRxDescList w)) in
  Some (s, with_rx rx (with_tx tx w)).

End Operations.

(** ** The ring *)

(** The descriptors from the read index on. *)
Definition view (l : tDescriptorList) : list tDescriptor :=
  drop (Z.to_nat (ui32Read l)) (pDescriptors l) ++ take (Z.to_nat (ui32Read l)) (pDescriptors l).

(** A transmit list with the descriptors [q] in use and [free] free. *)
Record ring (l : tDescriptorList) (q free : list tDescriptor) : Prop := {
  rg_len : length (pDescriptors l) = 24%nat;
  rg_read : 0 <= ui32Read l < 24;
  rg_write : ui32Write l = (ui32Read l + Z.of_nat (length q)) mod 24;
  rg_view : view l = q ++ free;
  rg_busy : Forall (fun d => pBuf d ≠ 0) q;
  rg_idle : Forall (fun d => pBuf d = 0) free }.

Lemma view_length l : length (view l) = length (pDescriptors l).
Proof. unfold view. rewrite length_app, length_drop, length_take. lia. Qed.

Lemma ring_length l q free : ring l q free -> (length q + length free = 24)%nat.
Proof. intros [Hl _ _ Hv _ _]. rewrite <-length_app, <-Hv, view_length. done. Qed.

(** Position [k] of the view is at index [(ui32Read + k) mod 24]. *)
Lemma view_lookup l k : length (pDescriptors l) = 24%nat -> 0 <= ui32Read l < 24 -> (k < 24)%nat ->
  view l !! k = pDescriptors l !! Z.to_nat ((ui32Read l + Z.of_nat k) mod 24).
Proof.
  intros Hl Hr Hk. unfold view. destruct (decide (Z.to_nat (ui32Read l) + k < 24)%nat) as [H|H].
  - rewrite lookup_app_l by (rewrite length_drop; lia). rewrite lookup_drop. f_equal.
    rewrite Z.mod_small by lia. lia.
  - rewrite lookup_app_r by (rewrite length_drop; lia). rewrite length_drop, lookup_take_lt by lia. f_equal.
    replace (ui32Read l + Z.of_nat k) with (ui32Read l + Z.of_nat k - 24 + 1 * 24) by lia.
    rewrite Z_mod_plus_full, Z.mod_small by lia. lia.
Qed.

Lemma index_inj r i j : 0 <= i < 24 -> 0 <= j < 24 -> (r + i) mod 24 = (r + j) mod 24 -> i = j.
Proof. intros Hi Hj H. Z.div_mod_to_equations. lia. Qed.

Lemma view_set l k d : length (pDescriptors l) = 24%nat -> 0 <= ui32Read l < 24 -> (k < 24)%nat ->
  view (set_desc ((ui32Read l + Z.of_nat k) mod 24) d l) = <[k := d]> (view l).
Proof.
  intros Hl Hr Hk. apply list_eq. intros j. destruct (decide (j < 24)%nat) as [Hj|Hj].
  - rewrite view_lookup; cbn [set_desc pDescriptors ui32Read]; [|by rewrite length_insert|done|done].
    pose proof (Z.mod_pos_bound (ui32Read l + Z.of_nat k) 24 ltac:(lia)).
    pose proof (Z.mod_pos_bound (ui32Read l + Z.of_nat j) 24 ltac:(lia)).
    destruct (decide (j = k)) as [->|Hne].
    + rewrite !list_lookup_insert_eq; [done|rewrite view_length; lia|lia].
    + rewrite !list_lookup_insert_ne; [by rewrite view_lookup|done|].
      intros E. apply Hne. assert ((ui32Read l + Z.of_nat k) mod 24 = (ui32Read l + Z.of_nat j) mod 24) as E' by lia.
      apply index_inj in E'; lia.
  - rewrite !lookup_ge_None_2; [done|rewrite length_insert, view_length; lia|].
    rewrite view_length. cbn [set_desc pDescriptors]. rewrite length_insert. lia.
Qed.

Lemma wrapped_mod i : 0 <= i < 24 -> wrapped 24 i = (i + 1) mod 24.
Proof.
  intros Hi. unfold wrapped. rewrite (wrap_id 32 (i + 1)) by cint.
  destruct (Z.eqb_spec (i + 1) 24) as [->|Hne]; [done|]. by rewrite Z.mod_small by lia.
Qed.

Lemma view_next l x v : length (pDescriptors l) = 24%nat -> 0 <= ui32Read l < 24 -> view l = x :: v ->
  view (mk_list (pDescriptors l) (wrapped 24 (ui32Read l)) (ui32Write l)) = v ++ [x].
Proof.
  intros Hl Hr Hv. rewrite wrapped_mod by done. unfold view in *. cbn [pDescriptors ui32Read].
  destruct (drop (Z.to_nat (ui32Read l)) (pDescriptors l)) as [|y r] eqn:Ed.
  { apply (f_equal length) in Ed. rewrite length_drop in Ed. cbn in Ed. lia. }
  cbn [app] in Hv. injection Hv as -> <-. pose proof (drop_S (pDescriptors l) x (Z.to_nat (ui32Read l))) as Hd.
  assert (pDescriptors l !! Z.to_nat (ui32Read l) = Some x) as Hx.
  { rewrite <-(Nat.add_0_r (Z.to_nat (ui32Read l))), <-lookup_drop, Ed. done. }
  rewrite (Hd Hx) in Ed. injection Ed as Ed.
  destruct (Z.eq_dec (ui32Read l) 23) as [E23|Hne].
  - rewrite E23 in *. change (Z.to_nat ((23 + 1) mod 24)) with 0%nat. rewrite drop_0, take_0, app_nil_r.
    change (Z.to_nat 23) with 23%nat in *. rewrite drop_ge in Ed by lia. subst r. cbn [app].
    rewrite <-(take_S_r _ _ _ Hx). rewrite firstn_all2 by lia. done.
  - rewrite Z.mod_small by lia. replace (Z.to_nat (ui32Read l + 1)) with (S (Z.to_nat (ui32Read l))) by lia.
    by rewrite Ed, (take_S_r _ _ _ Hx), app_assoc.
Qed.

(** Filling the next free descriptor. *)
Lemma ring_push l q d free x : ring l q (d :: free) -> pBuf x ≠ 0 ->
  desc (ui32Write l) l = Some d /\
  ring (mk_list (pDescriptors (set_desc (ui32Write l) x l)) (ui32Read l) (wrapped 24 (ui32Write l))) (q ++ [x]) free.
Proof.
  intros Rg Hx. pose proof (ring_length _ _ _ Rg) as Hn. cbn [length] in Hn. destruct Rg as [Hl Hr Hw Hv Hb Hi].
  apply Forall_cons in Hi as [Hd Hi]. split.
  - unfold desc. rewrite Hw. rewrite <-view_lookup by (done || lia). rewrite Hv, lookup_app_r, Nat.sub_diag by lia. done.
  - pose proof (Z.mod_pos_bound (ui32Read l + Z.of_nat (length q)) 24 ltac:(lia)).
    split; cbn [pDescriptors ui32Read ui32Write set_desc]; try done.
    + by rewrite length_insert.
    + rewrite wrapped_mod, Hw, Zplus_mod_idemp_l, length_app by lia. cbn [length]. f_equal. lia.
    + change (view (set_desc (ui32Write l) x l) = (q ++ [x]) ++ free). rewrite Hw, view_set, Hv by (done || lia).
      rewrite insert_app_r_alt, Nat.sub_diag by lia. cbn [insert list_insert]. by rewrite <-app_assoc.
    + apply Forall_app. split; [done|]. by constructor.
Qed.

(** Giving up the oldest descriptor. *)
Lemma ring_pop l d q free : ring l (d :: q) free ->
  desc (ui32Read l) l = Some d /\
  ring (mk_list (pDescriptors (set_desc (ui32Read l) (set_pBuf 0 d) l)) (wrapped 24 (ui32Read l)) (ui32Write l))
    q (free ++ [set_pBuf 0 d]).
Proof.
  intros Rg. pose proof (ring_length _ _ _ Rg) as Hn. cbn [length] in Hn. destruct Rg as [Hl Hr Hw Hv Hb Hi].
  apply Forall_cons in Hb as [Hd Hb].
  assert (ui32Read l = (ui32Read l + Z.of_nat 0) mod 24) as Hr0 by (rewrite Z.mod_small by lia; lia). split.
  - unfold desc. rewrite Hr0, <-view_lookup by (done || lia). by rewrite Hv.
  - set (l1 := set_desc (ui32Read l) (set_pBuf 0 d) l).
    assert (view l1 = set_pBuf 0 d :: q ++ free) as Hv1.
    { unfold l1. rewrite Hr0 at 1. rewrite view_set, Hv by (done || lia). done. }
    assert (length (pDescriptors l1) = 24%nat) as Hl1 by (cbn; by rewrite length_insert).
    split; cbn [pDescriptors ui32Read ui32Write]; try done.
    + rewrite wrapped_mod by done. apply Z.mod_pos_bound. lia.
    + rewrite Hw, wrapped_mod, Zplus_mod_idemp_l by done. f_equal. cbn [length]. lia.
    + rewrite (app_assoc q). exact (view_next l1 _ _ Hl1 Hr Hv1).
    + apply Forall_app. split; [done|]. by constructor.
Qed.

(** The number of free descriptors, as [tivaif_transmit] counts them when the
    next one is free. *)
Lemma ring_room l q d free : ring l q (d :: free) ->
  (if ui32Write l <? ui32Read l then ui32Read l - ui32Write l else 24 - ui32Write l + ui32Read l)
  = Z.of_nat (length (d :: free)).
Proof.
  intros Rg. pose proof (ring_length _ _ _ Rg) as Hn. cbn [length] in Hn |- *. destruct Rg as [Hl Hr Hw _ _ _].
  destruct (Z.ltb_spec (ui32Write l) (ui32Read l)); Z.div_mod_to_equations; lia.
Qed.

Lemma ring_full l q d : ring l q [] -> desc (ui32Write l) l = Some d -> pBuf d ≠ 0.
Proof.
  intros Rg Ed. pose proof (ring_length _ _ _ Rg) as Hn. cbn [length] in Hn. destruct Rg as [Hl Hr Hw Hv Hb _].
  unfold desc in Ed. assert (ui32Write l = (ui32Read l + Z.of_nat 0) mod 24) as Hw0.
  { rewrite Hw. replace (ui32Read l + Z.of_nat (length q)) with (ui32Read l + Z.of_nat 0 + 1 * 24) by lia.
    by rewrite Z_mod_plus_full. }
  rewrite Hw0, <-view_lookup, Hv, app_nil_r in Ed by (done || lia).
  rewrite Forall_forall in Hb. apply Hb. by eapply list_elem_of_lookup_2.
Qed.

(** ** Packets in the ring *)

(** The descriptors for the pbufs [ch] of the packet [p]. *)
Fixpoint segments (first : bool) (p : Z) (ch : list (Z * pbuf)) (free : list tDescriptor) : list tDescriptor :=
  match ch, free with
  | (_, b) :: ch, d :: free =>
      fill_desc first (match ch with [] => true | _ => false end) p b d :: segments false p ch free
  | _, _ => []
  end.

(** The references in the ring: the pointers without the mark. *)
Definition held (q : list tDescriptor) : list Z := filter (fun t => Z.land t 1 = 0) (pBuf <$> q).

(** The bytes the hardware reads for descriptors. *)
Definition gather (m : gmap Z Z) (q : list tDescriptor) : list Z :=
  q ≫= fun d => read_bytes m (pvBuffer1 d) (ui32Count d).

Definition owned (d : tDescriptor) : Prop := Z.land (ui32CtrlStatus d) DES0_TX_CTRL_OWN ≠ 0.

Lemma held_app q1 q2 : held (q1 ++ q2) = held q1 ++ held q2.
Proof. unfold held. by rewrite fmap_app, filter_app. Qed.

Lemma held_length q : (length (held q) <= length q)%nat.
Proof. unfold held. rewrite <-(length_fmap pBuf q). apply length_filter. Qed.

(** Packets are at addresses that are multiples of 4. *)
Definition tag_ok (p : Z) : Prop := 0 < p /\ p mod 4 = 0 /\ p + 1 < 2 ^ 32.

Lemma tag_even p : tag_ok p -> Z.land p 1 = 0 /\ Z.land (u32 (p + 1)) 1 ≠ 0 /\ u32 (p + 1) ≠ 0.
Proof.
  intros (H0 & H4 & H1). rewrite (wrap_id 32 (p + 1)) by cint.
  assert (forall x, Z.land x 1 = x mod 2) as L by (intros x; exact (Z.land_ones x 1 ltac:(lia))).
  rewrite !L. Z.div_mod_to_equations. lia.
Qed.

Lemma segments_held p ch : forall first free, tag_ok p -> ch ≠ [] -> (length ch <= length free)%nat ->
  held (segments first p ch free) = [p].
Proof.
  induction ch as [|[a b] ch IH]; intros first free Hp Hne Hl; [done|]. destruct (tag_even p Hp) as (He & Ho & _).
  destruct free as [|d free]; [cbn in Hl; lia|]. cbn [segments]. unfold held in *. rewrite fmap_cons.
  destruct ch as [|x ch].
  - cbn [segments fmap list_fmap pBuf fill_desc]. rewrite filter_cons_True by done. done.
  - cbn [pBuf fill_desc]. rewrite filter_cons_False by done. apply IH; [done|done|cbn in *; lia].
Qed.

Lemma segments_gather m p ch : forall first free, (length ch <= length free)%nat ->
  gather m (segments first p ch free) = contents m ch.
Proof.
  induction ch as [|[a b] ch IH]; intros first free Hl; [done|]. destruct free as [|d free]; [cbn in Hl; lia|].
  cbn [segments]. rewrite contents_cons. unfold gather in *. rewrite bind_cons. cbn [pvBuffer1 ui32Count fill_desc].
  f_equal. apply IH. cbn in Hl. lia.
Qed.

Lemma segments_length p ch : forall first free, (length ch <= length free)%nat ->
  length (segments first p ch free) = length ch.
Proof.
  induction ch as [|[a b] ch IH]; intros first [|d free] Hl; cbn in *; try lia. f_equal. apply IH. lia.
Qed.

Lemma segments_last p ch : forall first free, ch ≠ [] -> (length ch <= length free)%nat ->
  last (pBuf <$> segments first p ch free) = Some p.
Proof.
  induction ch as [|[a b] ch IH]; intros first [|d free] Hne Hl; [done|done|cbn in Hl; lia|].
  cbn [segments]. rewrite fmap_cons. destruct ch as [|x ch]; [done|].
  specialize (IH false free ltac:(done) ltac:(cbn in *; lia)). by rewrite last_cons, IH.
Qed.

Lemma fill_desc_owned first last p b d : owned (fill_desc first last p b d).
Proof. unfold owned. by destruct first, last. Qed.

Lemma segments_owned p ch : forall first free, Forall owned (segments first p ch free).
Proof.
  induction ch as [|[a b] ch IH]; intros first [|d free]; cbn [segments]; try constructor; [|done].
  apply fill_desc_owned.
Qed.

Section Transmit.
Context {A : Type} {ops : alloc_ops A} {laws : alloc_laws A}.
Implicit Types s : pstate A.

Lemma fill_loop_spec s p ch : tag_ok p -> forall first pb l q free e, chain (bufs s) pb ch e ->
  ring l q free -> (length ch <= length free)%nat ->
  exists l', fill_loop (length ch) first p pb s l = Some l' /\
    ring l' (q ++ segments first p ch free) (drop (length ch) free).
Proof.
  intros Hp. destruct (tag_even p Hp) as (_ & _ & Hnz).
  induction ch as [|[a b] ch IH]; intros first pb l q free e Hc Rg Hl; cbn [length fill_loop segments].
  { exists l. by rewrite app_nil_r, drop_0. }
  destruct free as [|d free]; [cbn in Hl; lia|]. destruct Hc as (<- & _ & Eb & Hc).
  replace (match ch with [] => true | _ => false end) with (bool_decide (length ch = 0%nat)) by (by destruct ch).
  set (x := fill_desc first (bool_decide (length ch = 0%nat)) p b d).
  assert (pBuf x ≠ 0) as Hx by (cbn; case_bool_decide; [destruct Hp; lia|done]).
  destruct (ring_push l q d free x Rg Hx) as [Ed Rg']. rewrite Ed. cbn [mbind option_bind].
  rewrite (Eb : get pb s = _). cbn [mbind option_bind]. fold x. cbn [set_desc pDescriptors ui32Read ui32Write].
  destruct (IH false (next b) _ (q ++ [x]) free e Hc Rg' ltac:(cbn in Hl; lia)) as (l' & E & Rg2).
  exists l'. split; [exact E|]. by rewrite <-app_assoc in Rg2.
Qed.

(** The first descriptor is marked before the loop. *)
Lemma ring_touch l q d d' free : ring l q (d :: free) -> pBuf d' = 0 ->
  ring (set_desc (ui32Write l) d' l) q (d' :: free).
Proof.
  intros Rg Hd'. pose proof (ring_length _ _ _ Rg) as Hn. cbn [length] in Hn. destruct Rg as [Hl Hr Hw Hv Hb Hi].
  apply Forall_cons in Hi as [Hd Hi]. split; cbn [pDescriptors ui32Read ui32Write set_desc]; try done.
  - by rewrite length_insert.
  - change (view (set_desc (ui32Write l) d' l) = q ++ d' :: free). rewrite Hw, view_set, Hv by (done || lia).
    rewrite insert_app_r_alt, Nat.sub_diag by lia. done.
  - by constructor.
Qed.

Lemma check_walk_safe s l : forall fuel p, (length l < fuel)%nat -> l ≠ [] -> chain (bufs s) p l 0 ->
  Forall (fun x => PTR_SAFE_FOR_EMAC_DMA (payload x.2) = true) l -> check_walk fuel p s = Some true.
Proof.
  induction l as [|[a b] l IH]; intros fuel p Hf Hne Hc Hs; [done|]. destruct fuel as [|fuel]; [cbn in Hf; lia|].
  destruct Hc as (<- & _ & Eb & Hc). apply Forall_cons in Hs as [Hb Hs]. cbn [snd] in Hb.
  cbn [check_walk]. rewrite (Eb : get p s = _). cbn [mbind option_bind]. rewrite Hb. cbn [negb].
  destruct l as [|[a' b'] l].
  - cbn [chain] in Hc. by rewrite Hc.
  - pose proof Hc as (Ha & Hz & _). rewrite Ha. rewrite (proj2 (Z.eqb_neq a' 0)) by congruence. rewrite <-Ha.
    apply IH; [cbn in *; lia|done|done|done].
Qed.

Lemma ri_tag s refs R p b : refs_inv s refs R -> bufs s !! p = Some b -> tag_ok p.
Proof.
  intros I E. destruct (ri_pinv _ _ _ I) as [B Ip]. destruct (pinv_get _ _ _ _ _ Ip E) as (k & Ek & (Ha & _) & _).
  pose proof (owns_ok _ _ (pi_own _ _ _ Ip)) as Hf. rewrite Forall_forall in Hf.
  destruct (Hf k) as (? & ? & ? & ?).
  { apply elem_of_app. left. apply list_elem_of_fmap. exists (p, k). split; [done|]. by apply elem_of_map_to_list. }
  subst p. split; [done|]. split; [done|lia].
Qed.

Lemma check_walk_unsafe s l : forall fuel p, (length l < fuel)%nat -> chain (bufs s) p l 0 ->
  Exists (fun x => PTR_SAFE_FOR_EMAC_DMA (payload x.2) = false) l -> check_walk fuel p s = Some false.
Proof.
  induction l as [|[a b] l IH]; intros fuel p Hf Hc He; [by apply Exists_nil in He|].
  destruct fuel as [|fuel]; [cbn in Hf; lia|]. destruct Hc as (<- & _ & Eb & Hc).
  cbn [check_walk]. rewrite (Eb : get p s = _). cbn [mbind option_bind].
  destruct (PTR_SAFE_FOR_EMAC_DMA (payload b)) eqn:Hb; cbn [negb]; [|done].
  apply Exists_cons in He as [He|He]; [cbn [snd] in He; congruence|].
  destruct l as [|[a' b'] l]; [by apply Exists_nil in He|].
  pose proof Hc as (Ha & Hz & _). rewrite Ha. rewrite (proj2 (Z.eqb_neq a' 0)) by congruence. rewrite <-Ha.
  apply IH; [cbn in *; lia|done|done].
Qed.

(** A packet gets one more reference. *)
Lemma chain_ref s p b l : chain (bufs s) p ((p, b) :: l) 0 -> p ∉ l.*1 ->
  chain (bufs (put p (set_ref (ref b + 1) b) s)) p ((p, set_ref (ref b + 1) b) :: l) 0.
Proof.
  intros (_ & Hz & E & Hc) Hn. split; [done|]. split; [done|]. split; [apply lookup_insert_eq|].
  eapply chain_frame; [exact Hc|]. intros x Hx. apply lookup_insert_ne. by intros <-.
Qed.

(** A reference taken and given back. *)
Lemma ref_free_id s p b : bufs s !! p = Some b -> p ≠ 0 -> 0 < ref b -> ref b + 1 < 2 ^ 16 ->
  pbuf_free p (put p (set_ref (ref b + 1) b) s) = Some (0, s).
Proof.
  intros E Hp Hr1 Hr2. set (b1 := set_ref (ref b + 1) b).
  assert (get p (put p b1 s) = Some b1) as E1 by apply lookup_insert_eq.
  unfold pbuf_free, chain_fuel. rewrite (proj2 (Z.eqb_neq p 0)) by done. cbn [free_loop].
  rewrite (proj2 (Z.eqb_neq p 0)) by done. unfold upd. rewrite E1. cbn [mbind option_bind].
  assert (u16 (ref b1 - 1) = ref b) as ->.
  { cbn [b1 ref set_ref]. replace (ref b + 1 - 1) with (ref b) by lia. apply wrap_id. cint. }
  rewrite (proj2 (Z.eqb_neq (ref b) 0)) by lia. do 2 f_equal. unfold put, with_bufs. cbn.
  rewrite insert_insert_eq. replace (set_ref (ref b) b1) with b by (by destruct b). rewrite insert_id by done. by destruct s.
Qed.

Lemma segments_ref first p b r l free : segments first p ((p, set_ref r b) :: l) free = segments first p ((p, b) :: l) free.
Proof. by destruct free. Qed.

(** What a call of [tivaif_transmit] does to a packet the hardware can read. *)
Lemma transmit_run n s w refs R p l q free : refs_inv s (refs ++ held q) R -> ring (pTxDescList w) q free ->
  p ∈ refs -> Z.of_nat (length refs) < 60000 -> chain (bufs s) p l 0 -> (length l < 256)%nat ->
  Forall (fun x => PTR_SAFE_FOR_EMAC_DMA (payload x.2) = true) l ->
  if decide (length l <= length free)%nat then
    exists s' w' free', tivaif_transmit n p s w = Some (ERR_OK, s', w') /\ bytes s' = bytes s /\
      same_data s s' refs /\ no_new_refs p s s' refs /\
      pRxDescList w' = pRxDescList w /\ polls w' = polls w + 1 /\ length free' = length free /\
      ring (pTxDescList w') (q ++ segments true p l free') (drop (length l) free') /\
      refs_inv s' (refs ++ held (q ++ segments true p l free')) R
  else tivaif_transmit n p s w = Some (ERR_MEM, s, inc_memerr w).
Proof.
  intros I Rg Hp Hx Hc Hl Hs. destruct (ri_get _ _ _ p I ltac:(set_solver)) as [b E].
  destruct l as [|[a b0] l]; [cbn [chain] in Hc; destruct (ri_nonzero _ _ _ _ _ I E); lia|].
  pose proof Hc as (<- & Hz & E0 & Hc'). assert (b0 = b) as -> by congruence.
  pose proof (ring_length _ _ _ Rg) as H24. pose proof (held_length q) as Hhl.
  destruct (ref_refs s _ R p I) as (b' & E' & Eref & Iref); [set_solver|rewrite length_app; lia|].
  assert (b' = b) as -> by congruence.
  pose proof (ri_tag _ _ _ _ _ I E) as Htag. pose proof (ri_ref_bound _ _ _ _ _ I E) as Hrb.
  rewrite length_app in Hrb.
  assert (0 < ref b) as Hr0.
  { destruct (ri_pinv _ _ _ I) as [B I']. destruct (pinv_get _ _ _ _ _ I' E) as (_ & _ & _ & (_ & _ & ?)). lia. }
  assert (p ∉ l.*1) as Hnl by (pose proof (chain_nodup _ _ _ Hc) as Hnd; rewrite fmap_cons in Hnd; by apply NoDup_cons in Hnd as [? _]).
  pose proof (chain_ref s p b l Hc Hnl) as Hc1. set (s1 := put p (set_ref (ref b + 1) b) s) in *.
  pose proof (ref_free_id s p b E Hz Hr0 ltac:(lia)) as Hfree. fold s1 in Hfree.
  pose proof (chain_size _ _ _ Hc1) as Hsz.
  assert (tivaif_check_pbuf p s1 = Some (p, s1)) as Hck.
  { unfold tivaif_check_pbuf. rewrite (check_walk_safe s1 ((p, set_ref (ref b + 1) b) :: l)); try done.
    - unfold chain_fuel. lia.
    - apply Forall_cons in Hs as [H1 H2]. by constructor. }
  assert (pbuf_clen p s1 = Some (Z.of_nat (length ((p, b) :: l)))) as Hclen.
  { unfold pbuf_clen. pose proof (clen_loop_spec s1 ((p, set_ref (ref b + 1) b) :: l) (chain_fuel s1) p 0 ltac:(unfold chain_fuel; lia) Hc1) as Hcl.
    change (u8 0) with 0 in Hcl. rewrite Hcl. f_equal. cbn [length] in *. apply wrap_id. cint. }
  unfold tivaif_transmit. rewrite Eref. cbn [mbind option_bind]. fold s1. rewrite Hck. cbn [mbind option_bind].
  rewrite (proj2 (Z.eqb_neq p 0)) by done.
  destruct free as [|d free].
  - rewrite decide_False by (cbn; lia).
    assert (exists d, desc (ui32Write (pTxDescList w)) (pTxDescList w) = Some d) as [d Ed].
    { apply lookup_lt_is_Some_2. rewrite (rg_len _ _ _ Rg), (rg_write _ _ _ Rg).
      pose proof (Z.mod_pos_bound (ui32Read (pTxDescList w) + Z.of_nat (length q)) 24 ltac:(lia)). lia. }
    rewrite Ed. cbn [mbind option_bind]. pose proof (ring_full _ _ _ Rg Ed) as Hnz.
    rewrite (proj2 (Z.eqb_neq (pBuf d) 0) Hnz). cbn [negb]. by rewrite Hfree.
  - destruct (ring_push _ _ _ _ (fill_desc true true p b d) Rg) as [Ed _]; [cbn; lia|].
    pose proof (ring_room _ _ _ _ Rg) as Hroom. pose proof (Forall_inv (rg_idle _ _ _ Rg)) as Hd0. cbn beta in Hd0.
    rewrite Ed. cbn [mbind option_bind]. rewrite Hd0. cbn [Z.eqb negb]. rewrite Hclen. cbn [mbind option_bind].
    change NUM_TX_DESCRIPTORS with 24. rewrite Hroom. case_decide as Hfit.
    + rewrite (proj2 (Z.ltb_ge _ _)) by lia. rewrite Nat2Z.id.
      set (d1 := mk_desc DES0_TX_CTRL_FIRST_SEG (ui32Count d) (pvBuffer1 d) (pLink d) 0).
      pose proof (ring_touch _ _ _ d1 _ Rg eq_refl) as Rg1.
      destruct (fill_loop_spec s1 p ((p, set_ref (ref b + 1) b) :: l) Htag true p _ q (d1 :: free) 0 Hc1 Rg1) as (l' & El & Rg2);
        [cbn in *; lia|].
      rewrite segments_ref in Rg2. cbn [length] in El, Rg2 |- *. rewrite El. cbn [mbind option_bind].
      do 2 eexists. exists (d1 :: free). split; [reflexivity|]. cbn [bytes s1 put with_bufs].
      split; [done|]. split; [by apply ref_same|]. split; [|split; [done|split; [done|split; [done|split; [done|]]]]].
      * by apply ref_no_new.
      * rewrite held_app, segments_held by (done || cbn in *; lia).
        assert (refs ++ held q ++ [p] ≡ₚ p :: refs ++ held q) as ->; [|exact Iref].
        rewrite (app_assoc refs). symmetry. apply Permutation_cons_append.
    + rewrite (proj2 (Z.ltb_lt _ _)) by lia. by rewrite Hfree.
Qed.

End Transmit.

(** ** Any packet

    [tivaif_transmit] of packets the hardware cannot read too, and of any number of
    pbufs.  It can lose the reference it takes: when there is no copy of the packet,
    and when the 8-bit length of the chain is 0, since then no descriptor keeps it. *)

Section Any.
Context {A : Type} {ops : alloc_ops A} {laws : alloc_laws A}.
Implicit Types s : pstate A.

(** The reference that is lost. *)
Definition lost_by (p : Z) s (w : tivaif) : list Z :=
  match (s ← pbuf_ref p s; tivaif_check_pbuf p s) with
  | Some (p2, s2) =>
      if p2 =? 0 then [p]
      else match desc (ui32Write (pTxDescList w)) (pTxDescList w), pbuf_clen p2 s2 with
           | Some d, Some n => if (pBuf d =? 0) && (n =? 0) then [p2] else []
           | _, _ => []
           end
  | None => []
  end.

(** The packets [refs] after a call with [p]. *)
Definition given (p : Z) (refs : list Z) s s' : Prop := same_data s s' refs /\ no_new_refs p s s' refs.

Lemma given_trans p refs s1 s2 s3 : given p refs s1 s2 -> given p refs s2 s3 -> given p refs s1 s3.
Proof.
  intros [D1 N1] [D2 N2]. split.
  - intros a l Ha Hc. destruct (D1 a l Ha Hc) as (l2 & Hc2 & E2 & B2). destruct (D2 a l2 Ha Hc2) as (l3 & Hc3 & E3 & B3).
    exists l3. split; [done|]. split; [congruence|]. intros x b Hin Hb. destruct (stripped_elem _ _ _ _ E2 Hin) as (b' & Hin' & Es).
    pose proof (strip_eq _ _ Es) as (_ & Ep & _ & El & _).
    rewrite <-(B2 x b Hin Hb), <-Ep, <-El. apply (B3 x b' Hin'). by eapply carries_strip.
  - intros a l l3 Ha Hc Hc3. destruct (D1 a l Ha Hc) as (l2 & Hc2 & E2 & _).
    pose proof (N1 a l l2 Ha Hc Hc2) as F1. pose proof (N2 a l2 l3 Ha Hc2 Hc3) as F2. clear -E2 F1 F2.
    revert l3 F2 E2. induction F1 as [|x2 x1 l2 l1 H1 _ IH]; intros l3 F2 E; inversion F2 as [|x3 y l4 y4 H2 F3]; subst; [constructor|].
    unfold stripped in E. rewrite !fmap_cons in E. injection E as Ex _ E. constructor; [|by apply IH].
    intros Hx. etrans; [apply H2; congruence|by apply H1].
Qed.

Lemma given_packets p refs s s' : same_packets s s' refs -> given p refs s s'.
Proof.
  intros S. split; [by apply same_packets_data|]. intros a l l' Ha Hc Hc'. destruct (S a l Ha Hc) as (l2 & Hc2 & _ & Hr & _).
  rewrite (chain_det _ _ _ _ Hc' Hc2). eapply Forall2_impl; [exact Hr|]. by intros x y H _.
Qed.

(** A copy is in new pbufs. *)
Lemma copied_same s s1 m B R q l refs : pinv s1 B R -> bytes s1 = bytes s -> extends (bufs s) (bufs s1) l ->
  chain (bufs s1) q l 0 -> Forall (fun x => carries x.2) l -> (forall x, x ∉ addrs l -> m !! x = bytes s1 !! x) ->
  same_packets s (with_bytes m s1) refs.
Proof.
  intros Ip Ey X Hq Fq Hm a c _ Hc.
  assert (forall x b, (x, b) ∈ c -> (x ∉ l.*1) /\ bufs s1 !! x = Some b) as Hin.
  { intros x b Hx. destruct (chain_elem _ _ _ _ _ _ Hc Hx) as [Ex _]. specialize (X x). case_decide; [congruence|]. split; [done|congruence]. }
  exists c. split; [|split; [done|split; [apply refs_le_refl|]]].
  - eapply chain_frame; [exact Hc|]. intros x Hx. apply list_elem_of_fmap in Hx as ([y b] & -> & Hy). destruct (Hin y b Hy) as [_ E].
    destruct (chain_elem _ _ _ _ _ _ Hc Hy) as [Ey' _]. cbn [fst bufs with_bytes]. congruence.
  - intros x b Hx Hb. destruct (Hin x b Hx) as [Hnx E]. cbn [bytes with_bytes]. rewrite !read_bytes_rd. apply list_fmap_ext.
    intros i y Hy%list_elem_of_lookup_2. unfold rd. rewrite Hm; [by rewrite Ey|]. intros (z & d & Hz & Hyz)%addrs_elem.
    destruct (chain_elem _ _ _ _ _ _ Hq Hz) as [Ed _]. rewrite Forall_forall in Fq.
    apply (payload_apart s1 B R z d x b y Ip Ed E); [|exact (Fq _ Hz)|done|done|done].
    intros ->. apply Hnx. apply list_elem_of_fmap. by exists (x, d).
Qed.

(** [tivaif_check_pbuf]: the packet, or a copy of it, or nothing. *)
Lemma check_any s refs R p : refs_inv s (p :: refs) R -> exists p2 s2, tivaif_check_pbuf p s = Some (p2, s2) /\
  same_packets s s2 refs /\ ((p2 = 0 /\ refs_inv s2 (p :: refs) R) \/ (p2 ≠ 0 /\ refs_inv s2 (p2 :: refs) R)).
Proof.
  intros I. destruct (ri_get _ _ _ p I ltac:(by left)) as [b E]. destruct (ri_nonzero _ _ _ _ _ I E) as [Hz _].
  destruct (ri_chain _ _ _ I p b E) as (l & Hc & _). pose proof (chain_size _ _ _ Hc) as Hsz. unfold tivaif_check_pbuf.
  destruct (decide (Forall (fun x => PTR_SAFE_FOR_EMAC_DMA (payload x.2) = true) ((p, b) :: l))) as [Hs|Hs].
  { rewrite (check_walk_safe s ((p, b) :: l)) by (done || unfold chain_fuel; lia). cbn [mbind option_bind].
    exists p, s. split; [done|]. split; [apply same_packets_refl|]. right. split; [lia|done]. }
  rewrite (check_walk_unsafe s ((p, b) :: l)); [|unfold chain_fuel; lia|done|].
  2: { apply not_Forall_Exists in Hs; [|intros x; apply _]. eapply Exists_impl; [exact Hs|]. intros x Hx. by apply not_true_is_false. }
  cbn [mbind option_bind]. rewrite (E : get p s = _). cbn [mbind option_bind].
  destruct (ri_pinv _ _ _ I) as [B Ip]. destruct (pinv_get _ _ _ _ _ Ip E) as (_ & _ & _ & (_ & Htl & _)).
  destruct (alloc_refs s _ R PBUF_RAW (tot_len b) PBUF_POOL I Htl) as (q & s1 & Ea & Ey & H). rewrite Ea. cbn [mbind option_bind].
  destruct H as [(-> & Eb & I1)|(d & k & Hq & X & F & _ & _ & _ & I1)].
  { cbn [Z.eqb]. exists 0, s1. split; [done|]. split; [|by left]. intros a c _ Hca. exists c. rewrite Eb. split; [done|].
    split; [done|]. split; [apply refs_le_refl|]. intros. by rewrite Ey. }
  pose proof Hq as (_ & Hqz & _). rewrite (proj2 (Z.eqb_neq q 0)) by done.
  assert (chain (bufs s1) p ((p, b) :: l) 0) as Hc1.
  { eapply chain_frame; [exact Hc|]. intros x Hx. apply list_elem_of_fmap in Hx as ([y f] & -> & Hin).
    destruct (chain_elem _ _ _ _ _ _ Hc Hin) as [Ef _]. specialize (X y). cbn [fst]. case_decide; congruence. }
  destruct (copy_refs s1 _ R q d k p b l I1 Hq Hc1) as (e & m & Ec & I2 & Hm). rewrite Ec. cbn [mbind option_bind].
  destruct (ri_pinv _ _ _ I1) as [B1 Ip1].
  assert (same_packets s (with_bytes m s1) refs) as S2.
  { eapply copied_same; [exact Ip1|exact Ey|exact X|exact Hq| |exact Hm]. eapply Forall_impl; [exact F|]. intros x (Ty & _). by right. }
  destruct (e =? ERR_OK); cbn [negb].
  - assert (refs_inv (with_bytes m s1) (p :: q :: refs) R) as I3 by (eapply refs_inv_perm; [| |exact I2]; [apply Permutation_swap|done]).
    destruct (free_refs _ _ R p I3) as (j & s3 & Ef & I4 & Ey3 & Sh). rewrite Ef. cbn [mbind option_bind].
    exists q, s3. split; [done|]. split; [|by right]. eapply same_packets_trans; [exact S2|].
    eapply same_packets_sub; [|eapply (shrinks_same _ _ _ R I4 Sh Ey3)]. set_solver.
  - destruct (free_refs _ _ R q I2) as (j & s3 & Ef & I4 & Ey3 & Sh). rewrite Ef. cbn [mbind option_bind].
    exists 0, s3. split; [done|]. split; [|by left]. eapply same_packets_trans; [exact S2|].
    eapply same_packets_sub; [|eapply (shrinks_same _ _ _ R I4 Sh Ey3)]. set_solver.
Qed.

(** What is left to do with the packet [q] whose reference the driver has. *)
Lemma send_any s w refs R q qu free : refs_inv s (q :: refs ++ held qu) R -> ring (pTxDescList w) qu free ->
  exists d k, desc (ui32Write (pTxDescList w)) (pTxDescList w) = Some d /\ pbuf_clen q s = Some k /\
  exists e s' w' qu' free',
    (if negb (pBuf d =? 0) then '(_, s) ← pbuf_free q s; Some (ERR_MEM, s, inc_memerr w)
     else if (if ui32Write (pTxDescList w) <? ui32Read (pTxDescList w) then ui32Read (pTxDescList w) - ui32Write (pTxDescList w)
              else (NUM_TX_DESCRIPTORS - ui32Write (pTxDescList w)) + ui32Read (pTxDescList w)) <? k
     then '(_, s) ← pbuf_free q s; Some (ERR_MEM, s, inc_memerr w)
     else
       l ← fill_loop (Z.to_nat k) true q q s (set_desc (ui32Write (pTxDescList w))
             (mk_desc DES0_TX_CTRL_FIRST_SEG (ui32Count d) (pvBuffer1 d) (pLink d) (pBuf d)) (pTxDescList w));
       Some (ERR_OK, s, inc_xmit (EMACTxDMAPollDemand (with_tx l w)))) = Some (e, s', w') /\
    ring (pTxDescList w') qu' free' /\ same_packets s s' refs /\
    refs_inv s' (refs ++ held qu' ++ if (pBuf d =? 0) && (k =? 0) then [q] else []) R.
Proof.
  intros I Rg. destruct (ri_get _ _ _ q I ltac:(by left)) as [b E]. destruct (ri_nonzero _ _ _ _ _ I E) as [Hz _].
  destruct (ri_chain _ _ _ I q b E) as (l & Hc & _). pose proof (chain_size _ _ _ Hc) as Hsz. pose proof (ri_tag _ _ _ _ _ I E) as Htag.
  set (ch := (q, b) :: l) in *.
  assert (pbuf_clen q s = Some (u8 (Z.of_nat (length ch)))) as Hclen.
  { unfold pbuf_clen. pose proof (clen_loop_spec s ch (chain_fuel s) q 0 ltac:(unfold chain_fuel; lia) Hc) as H. exact H. }
  set (k := u8 (Z.of_nat (length ch))) in *. assert (0 <= k <= Z.of_nat (length ch)) as Hk.
  { unfold k. pose proof (wrap_range 8 (Z.of_nat (length ch)) ltac:(lia)) as H. split; [apply H|]. unfold wrap. apply Z.mod_le; cint. }
  assert (exists e s', ('(_, s) ← pbuf_free q s; Some (ERR_MEM, s, inc_memerr w)) = Some (e, s', inc_memerr w) /\
    same_packets s s' refs /\ refs_inv s' (refs ++ held qu) R) as (e1 & s1 & Ef & S1 & I1).
  { destruct (free_refs _ _ R q I) as (j & s1 & Ef & I1 & Ey & Sh). rewrite Ef. cbn [mbind option_bind]. do 2 eexists.
    split; [done|]. split; [|done]. eapply same_packets_sub; [|eapply (shrinks_same _ _ _ R I1 Sh Ey)]. set_solver. }
  destruct free as [|d free].
  - assert (exists d, desc (ui32Write (pTxDescList w)) (pTxDescList w) = Some d) as [d Ed].
    { apply lookup_lt_is_Some_2. rewrite (rg_len _ _ _ Rg), (rg_write _ _ _ Rg).
      pose proof (Z.mod_pos_bound (ui32Read (pTxDescList w) + Z.of_nat (length qu)) 24 ltac:(lia)). lia. }
    exists d, k. split; [done|]. split; [done|]. pose proof (ring_full _ _ _ Rg Ed) as Hnz.
    rewrite (proj2 (Z.eqb_neq (pBuf d) 0) Hnz). cbn [negb andb]. exists e1, s1. do 3 eexists. split; [exact Ef|].
    rewrite app_nil_r. by split.
  - destruct (ring_push _ _ _ _ (fill_desc true true q b d) Rg) as [Ed _]; [cbn; destruct Htag; lia|].
    pose proof (ring_room _ _ _ _ Rg) as Hroom. pose proof (Forall_inv (rg_idle _ _ _ Rg)) as Hd0. cbn beta in Hd0.
    exists d, k. split; [done|]. split; [done|]. rewrite Hd0. cbn [Z.eqb negb andb]. change NUM_TX_DESCRIPTORS with 24. rewrite Hroom.
    destruct (Z.ltb_spec (Z.of_nat (length (d :: free))) k) as [Hfit|Hfit].
    { exists e1, s1. do 3 eexists. split; [exact Ef|]. rewrite (proj2 (Z.eqb_neq k 0)) by lia. rewrite app_nil_r. by split. }
    set (d1 := mk_desc DES0_TX_CTRL_FIRST_SEG (ui32Count d) (pvBuffer1 d) (pLink d) 0).
    pose proof (ring_touch _ _ _ d1 _ Rg eq_refl) as Rg1.
    rewrite <-(take_drop (Z.to_nat k) ch) in Hc. apply chain_app in Hc as (e & Hct & _).
    assert (length (take (Z.to_nat k) ch) = Z.to_nat k) as Hlt by (rewrite length_take; lia).
    destruct (fill_loop_spec s q (take (Z.to_nat k) ch) Htag true q _ qu (d1 :: free) e Hct Rg1) as (l' & El & Rg2);
      [cbn [length] in *; lia|].
    rewrite Hlt in El. rewrite El. cbn [mbind option_bind]. do 5 eexists. split; [reflexivity|]. split; [exact Rg2|].
    split; [apply same_packets_refl|]. rewrite held_app. destruct (Z.eqb_spec k 0) as [->|Hk0].
    + cbn [Z.to_nat take segments]. change (held []) with (@nil Z). rewrite app_nil_r, app_assoc.
      by rewrite <-Permutation_cons_append.
    + rewrite segments_held; [|done| |cbn [length] in *; lia].
      * rewrite app_nil_r, app_assoc. by rewrite <-Permutation_cons_append.
      * intros H0. rewrite H0 in Hlt. cbn in Hlt. lia.
Qed.

(** A call of [tivaif_transmit] with any packet. *)
Lemma transmit_any n s w refs R p qu free : refs_inv s (refs ++ held qu) R -> ring (pTxDescList w) qu free ->
  p ∈ refs -> Z.of_nat (length refs) < 65000 ->
  exists e s' w' qu' free', tivaif_transmit n p s w = Some (e, s', w') /\ ring (pTxDescList w') qu' free' /\
    given p refs s s' /\ refs_inv s' (refs ++ held qu' ++ lost_by p s w) R.
Proof.
  intros I Rg Hp Hx. pose proof (ring_length _ _ _ Rg) as H24. pose proof (held_length qu) as Hhl.
  destruct (ref_refs s _ R p I) as (b & E & Eref & I1); [set_solver|rewrite length_app; lia|].
  set (s1 := put p (set_ref (ref b + 1) b) s) in *.
  assert (given p refs s s1) as G1 by (split; [by apply ref_same|by apply ref_no_new]).
  destruct (check_any s1 _ R p I1) as (p2 & s2 & Ec & S2 & H). 
  assert (given p refs s s2) as G2.
  { eapply given_trans; [exact G1|]. apply given_packets. eapply same_packets_sub; [|exact S2]. set_solver. }
  unfold tivaif_transmit, lost_by. rewrite Eref. cbn [mbind option_bind]. rewrite Ec. cbn [mbind option_bind].
  destruct H as [[-> I2]|[Hz I2]].
  - cbn [Z.eqb]. exists ERR_MEM, s2, (inc_memerr w), qu, free. split; [done|]. split; [exact Rg|]. split; [exact G2|].
    rewrite app_assoc. by rewrite <-Permutation_cons_append.
  - rewrite (proj2 (Z.eqb_neq p2 0)) by done.
    destruct (send_any s2 w refs R p2 qu free I2 Rg) as (d & k & Ed & Ek & e & s3 & w3 & qu' & free' & Er & Rg' & S3 & I3).
    rewrite Ed. cbn [mbind option_bind]. rewrite Ek. cbn [mbind option_bind]. exists e, s3, w3, qu', free'. split; [exact Er|].
    split; [done|]. split; [|exact I3]. eapply given_trans; [exact G2|by apply given_packets].
Qed.

End Any.

(** ** Giving packets back *)

(** The descriptors the hardware is done with, up to the first it still owns. *)
Fixpoint sent (q : list tDescriptor) : list tDescriptor * list tDescriptor :=
  match q with
  | [] => ([], [])
  | d :: q => if decide (owned d) then ([], d :: q) else let '(x, y) := sent q in (d :: x, y)
  end.

Lemma sent_app q : q = (sent q).1 ++ (sent q).2.
Proof.
  induction q as [|d q IH]; [done|]. cbn [sent]. case_decide; [done|]. destruct (sent q) as [x y]. cbn in *. by f_equal.
Qed.

Lemma sent_all q : Forall (fun d => ~ owned d) q -> sent q = (q, []).
Proof. induction 1 as [|d q Hd _ IH]; [done|]. cbn [sent]. rewrite decide_False by done. by rewrite IH. Qed.

Section Process.
Context {A : Type} {ops : alloc_ops A} {laws : alloc_laws A}.
Implicit Types s : pstate A.

Lemma owned_test d : (Z.land (ui32CtrlStatus d) DES0_TX_CTRL_OWN =? 0) = negb (bool_decide (owned d)).
Proof.
  unfold owned. destruct (Z.eqb_spec (Z.land (ui32CtrlStatus d) DES0_TX_CTRL_OWN) 0) as [E|E].
  - rewrite bool_decide_eq_false_2; [done|]. intros H. by apply H.
  - by rewrite bool_decide_eq_true_2.
Qed.

(** The descriptor at the read index of a ring that is empty. *)
Lemma ring_empty_read l free : ring l [] free -> exists d, desc (ui32Read l) l = Some d /\ pBuf d = 0.
Proof.
  intros Rg. pose proof (ring_length _ _ _ Rg) as Hn. cbn [length] in Hn. destruct Rg as [Hl Hr Hw Hv _ Hi].
  destruct free as [|d free]; [cbn in Hn; lia|]. exists d. apply Forall_cons in Hi as [Hd _]. split; [|done].
  unfold desc. replace (ui32Read l) with ((ui32Read l + Z.of_nat 0) mod 24) by (rewrite Z.mod_small by lia; lia).
  rewrite <-view_lookup by (done || lia). by rewrite Hv.
Qed.

Lemma process_loop_spec q : forall fuel s l free refs R, refs_inv s (refs ++ held q) R -> ring l q free ->
  (length q <= fuel)%nat ->
  exists s' l', process_loop fuel s l = Some (s', l') /\
    ring l' (sent q).2 (free ++ (set_pBuf 0 <$> (sent q).1)) /\
    refs_inv s' (refs ++ held (sent q).2) R /\ bytes s' = bytes s /\ shrinks (bufs s) (bufs s').
Proof.
  induction q as [|d q IH]; intros fuel s l free refs R I Rg Hf.
  - exists s, l. cbn [sent fst snd fmap list_fmap]. rewrite app_nil_r. split; [|split; [done|split; [done|split; [done|apply shrinks_refl]]]].
    destruct fuel as [|fuel]; [done|]. destruct (ring_empty_read l free Rg) as (d & Ed & Hd). cbn [process_loop].
    rewrite Ed. cbn [mbind option_bind]. rewrite Hd, owned_test. by destruct (bool_decide (owned d)).
  - destruct fuel as [|fuel]; [cbn in Hf; lia|]. destruct (ring_pop _ _ _ _ Rg) as [Ed Rg'].
    pose proof (Forall_inv (rg_busy _ _ _ Rg)) as Hnz. cbn beta in Hnz. cbn [process_loop sent]. rewrite Ed. cbn [mbind option_bind].
    rewrite owned_test, negb_involutive. destruct (decide (owned d)) as [Ho|Ho].
    + rewrite bool_decide_eq_true_2 by done. exists s, l. cbn [fst snd fmap list_fmap]. rewrite app_nil_r.
      split; [done|]. split; [done|]. split; [done|]. split; [done|apply shrinks_refl].
    + rewrite bool_decide_eq_false_2 by done. rewrite (proj2 (Z.eqb_neq (pBuf d) 0) Hnz).
      assert (exists s1, (if Z.land (pBuf d) 1 =? 0 then snd <$> pbuf_free (pBuf d) s else Some s) = Some s1 /\
        refs_inv s1 (refs ++ held q) R /\ bytes s1 = bytes s /\ shrinks (bufs s) (bufs s1)) as (s1 & Es1 & I1 & Ey1 & Sh1).
      { destruct (Z.eqb_spec (Z.land (pBuf d) 1) 0) as [He|He].
        - assert (held (d :: q) = pBuf d :: held q) as Hh by (unfold held; rewrite fmap_cons; by rewrite filter_cons_True).
          rewrite Hh in I. assert (refs ++ pBuf d :: held q ≡ₚ pBuf d :: refs ++ held q) as Hpm by (by rewrite Permutation_middle).
          rewrite Hpm in I. destruct (free_refs _ _ _ _ I) as (k & s1 & Ef & I1 & Ey & Sh). exists s1. rewrite Ef. done.
        - assert (held (d :: q) = held q) as Hh by (unfold held; rewrite fmap_cons; by rewrite filter_cons_False).
          rewrite Hh in I. exists s. split; [done|]. split; [done|]. split; [done|apply shrinks_refl]. }
      rewrite Es1. cbn [mbind option_bind]. change NUM_TX_DESCRIPTORS with 24.
      destruct (IH fuel s1 _ (free ++ [set_pBuf 0 d]) refs R I1 Rg' ltac:(cbn in Hf; lia)) as (s' & l' & E & Rg2 & I2 & Ey2 & Sh2).
      exists s', l'. destruct (sent q) as [x y]. cbn [fst snd] in *. split; [exact E|].
      split; [|split; [done|split; [congruence|by eapply shrinks_trans]]].
      rewrite fmap_cons. by rewrite <-app_assoc in Rg2.
Qed.

Lemma process_run s w q free refs R : refs_inv s (refs ++ held q) R -> ring (pTxDescList w) q free ->
  exists s' w', tivaif_process_transmit s w = Some (s', w') /\
    ring (pTxDescList w') (sent q).2 (free ++ (set_pBuf 0 <$> (sent q).1)) /\
    refs_inv s' (refs ++ held (sent q).2) R /\ bytes s' = bytes s /\ shrinks (bufs s) (bufs s').
Proof.
  intros I Rg. pose proof (ring_length _ _ _ Rg) as Hn.
  destruct (process_loop_spec q (Z.to_nat NUM_TX_DESCRIPTORS) s (pTxDescList w) free refs R I Rg) as (s1 & l1 & E & H).
  { change (Z.to_nat NUM_TX_DESCRIPTORS) with 24%nat. lia. }
  exists s1, (with_tx l1 w). split; [|exact H]. unfold tivaif_process_transmit. by rewrite E.
Qed.

End Process.

(** ** The driver as a whole *)

(** The packets handed to the driver and those given back, with the state. *)
Record system (A : Type) := mk_system {
  y_ps : pstate A; y_drv : tivaif; y_refs : list Z; accepted : list Z; returned : list Z }.
#[global] Arguments mk_system {A}.
#[global] Arguments y_ps {A}.
#[global] Arguments y_drv {A}.
#[global] Arguments y_refs {A}.
#[global] Arguments accepted {A}.
#[global] Arguments returned {A}.

(** The hardware sends the data of the first descriptor it owns and gives it
    back, with a status of its own. *)
Definition hw_done (l l' : tDescriptorList) : Prop :=
  exists x d y free status, ring l (x ++ d :: y) free /\ Forall (fun d => ~ owned d) x /\ owned d /\
    Z.land status DES0_TX_CTRL_OWN = 0 /\
    l' = set_desc ((ui32Read l + Z.of_nat (length x)) mod 24)
           (mk_desc status (ui32Count d) (pvBuffer1 d) (pLink d) (pBuf d)) l.

Section System.
Context {A : Type} {ops : alloc_ops A} {laws : alloc_laws A}.
Implicit Types (s : pstate A) (y : system A).

(** A packet of the rest of the system that the hardware can read. *)
Definition dma_packet s (p : Z) : Prop :=
  exists l, chain (bufs s) p l 0 /\ (length l < 256)%nat /\
    Forall (fun x => PTR_SAFE_FOR_EMAC_DMA (payload x.2) = true) l.

(** The steps: a packet is transmitted; the hardware is done with a descriptor;
    the transmit interrupt; the rest of the system allocates and frees. *)
Inductive step y : system A -> Prop :=
  | step_transmit n p e s' w' : p ∈ y_refs y -> dma_packet (y_ps y) p ->
      tivaif_transmit n p (y_ps y) (y_drv y) = Some (e, s', w') ->
      step y (mk_system s' w' (y_refs y) (if e =? ERR_OK then accepted y ++ [p] else accepted y) (returned y))
  | step_hardware l' : hw_done (pTxDescList (y_drv y)) l' ->
      step y (mk_system (y_ps y) (with_tx l' (y_drv y)) (y_refs y) (accepted y) (returned y))
  | step_interrupt q free s' w' : ring (pTxDescList (y_drv y)) q free ->
      tivaif_process_transmit (y_ps y) (y_drv y) = Some (s', w') ->
      step y (mk_system s' w' (y_refs y) (accepted y) (returned y ++ held (sent q).1))
  | step_alloc layer n t p s' : 0 <= n < 2 ^ 16 -> Z.of_nat (length (y_refs y)) < 59999 ->
      pbuf_alloc layer n t (y_ps y) = Some (p, s') ->
      step y (mk_system s' (y_drv y) (if p =? 0 then y_refs y else p :: y_refs y) (accepted y) (returned y))
  | step_free p k s' refs : y_refs y ≡ₚ p :: refs -> pbuf_free p (y_ps y) = Some (k, s') ->
      step y (mk_system s' (y_drv y) refs (accepted y) (returned y)).

(** The references are those of the rest of the system and one for each packet
    in the ring; the packets in the ring are those accepted and not returned, in
    this order. *)
Record sys_inv (R : list block) y (q free : list tDescriptor) : Prop := {
  yi_ring : ring (pTxDescList (y_drv y)) q free;
  yi_refs : refs_inv (y_ps y) (y_refs y ++ held q) R;
  yi_fifo : accepted y = returned y ++ held q;
  yi_bound : Z.of_nat (length (y_refs y)) < 60000 }.

Lemma ring_det l q free q' free' : ring l q free -> ring l q' free' -> q = q' /\ free = free'.
Proof.
  intros [_ _ _ V B I] [_ _ _ V' B' I']. rewrite V in V'. clear V. revert q' V' B'.
  induction q as [|d q IH]; intros [|d' q'] V' B'; cbn [app] in V'.
  - done.
  - exfalso. subst free. apply Forall_cons in I as [H _]. apply Forall_cons in B' as [H' _]. done.
  - exfalso. subst free'. apply Forall_cons in B as [H _]. apply Forall_cons in I' as [H' _]. done.
  - injection V' as -> V'. apply Forall_cons in B as [_ B], B' as [_ B'].
    destruct (IH B q' V' B') as [-> ->]. done.
Qed.

Lemma hw_done_ring l l' q free : ring l q free -> hw_done l l' -> exists q', ring l' q' free /\ held q' = held q.
Proof.
  intros Rg (x & d & y & free0 & st & Rg0 & _ & _ & _ & ->). destruct (ring_det _ _ _ _ _ Rg Rg0) as [-> <-]. clear Rg0.
  set (d' := mk_desc st (ui32Count d) (pvBuffer1 d) (pLink d) (pBuf d)). exists (x ++ d' :: y).
  pose proof (ring_length _ _ _ Rg) as Hn. rewrite length_app in Hn. cbn [length] in Hn.
  destruct Rg as [Hl Hr Hw Hv Hb Hi]. split.
  - split; cbn [set_desc pDescriptors ui32Read ui32Write]; try done.
    + by rewrite length_insert.
    + rewrite Hw, !length_app. done.
    + change (view (set_desc ((ui32Read l + Z.of_nat (length x)) mod 24) d' l) = (x ++ d' :: y) ++ free).
      rewrite view_set, Hv, <-!app_assoc, insert_app_r_alt, Nat.sub_diag by (done || lia). done.
    + apply Forall_app in Hb as [Hx Hy]. apply Forall_cons in Hy as [Hd Hy]. apply Forall_app. split; [done|]. by constructor.
  - unfold held. by rewrite !fmap_app, !fmap_cons.
Qed.

Lemma inv_transmit R y q free n p e s' w' : sys_inv R y q free -> p ∈ y_refs y -> dma_packet (y_ps y) p ->
  tivaif_transmit n p (y_ps y) (y_drv y) = Some (e, s', w') ->
  exists q' free', sys_inv R
    (mk_system s' w' (y_refs y) (if e =? ERR_OK then accepted y ++ [p] else accepted y) (returned y)) q' free'.
Proof.
  intros [Rg I Hf Hb] Hp (l & Hc & Hl & Hs) Et. destruct (ri_get _ _ _ p I ltac:(set_solver)) as [b E].
  pose proof (transmit_run n (y_ps y) (y_drv y) (y_refs y) R p l q free I Rg Hp Hb Hc Hl Hs) as H. case_decide as D.
  - destruct H as (s1 & w1 & free' & E1 & _ & _ & _ & _ & _ & Hlf & Rg' & I'). rewrite Et in E1. injection E1 as -> -> ->.
    exists (q ++ segments true p l free'), (drop (length l) free').
    split; cbn [y_drv y_ps y_refs accepted returned]; [done|done| |done]. change (ERR_OK =? ERR_OK) with true. cbv iota.
    rewrite Hf, held_app, segments_held, app_assoc; [done|exact (ri_tag _ _ _ _ _ I E)| |lia].
    intros ->. cbn [chain] in Hc. destruct (ri_nonzero _ _ _ _ _ I E). lia.
  - rewrite Et in H. injection H as -> -> ->. exists q, free. by split.
Qed.

Lemma inv_interrupt R y q free s' w' : sys_inv R y q free ->
  tivaif_process_transmit (y_ps y) (y_drv y) = Some (s', w') ->
  sys_inv R (mk_system s' w' (y_refs y) (accepted y) (returned y ++ held (sent q).1)) (sent q).2
    (free ++ (set_pBuf 0 <$> (sent q).1)).
Proof.
  intros [Rg I Hf Hb] Ep. destruct (process_run _ _ _ _ _ _ I Rg) as (s1 & w1 & E & Rg' & I' & _).
  rewrite Ep in E. injection E as <- <-. split; [exact Rg'|exact I'| |exact Hb]. cbn [accepted returned].
  rewrite Hf. rewrite (sent_app q) at 1. by rewrite held_app, app_assoc.
Qed.

(** The invariant holds after every step. *)
Lemma step_inv R y y' q free : sys_inv R y q free -> step y y' -> exists q' free', sys_inv R y' q' free'.
Proof.
  intros Y St. pose proof Y as [Rg I Hf Hb].
  destruct St as [n p e s' w' Hp Hd Et|l' Hh|q0 free0 s' w' Rg0 Ep|layer n t p s' Hn Hlen Ea|p k s' refs Hp Ef].
  - by eapply inv_transmit.
  - destruct (hw_done_ring _ _ _ _ Rg Hh) as (q' & Rg' & Hq). exists q', free.
    split; cbn [y_drv y_ps y_refs accepted returned pTxDescList with_tx]; rewrite ?Hq; done.
  - destruct (ring_det _ _ _ _ _ Rg Rg0) as [<- <-]. do 2 eexists. by eapply inv_interrupt.
  - destruct (alloc_refs _ _ _ layer n t I Hn) as (p' & s1 & E & _ & H). rewrite Ea in E. injection E as <- <-.
    exists q, free. destruct H as [(-> & _ & I')|(b & l & Hc & _ & _ & _ & _ & _ & I')].
    + by split.
    + destruct Hc as (_ & Hz & _). split; cbn [y_drv y_ps y_refs accepted returned];
        rewrite ?(proj2 (Z.eqb_neq p 0) Hz); [done|done|done|cbn [length]; lia].
  - exists q, free. rewrite Hp in I, Hb. cbn [app] in I. destruct (free_refs _ _ _ _ I) as (k' & s1 & E & I' & _).
    rewrite Ef in E. injection E as <- <-. split; cbn [y_drv y_ps y_refs accepted returned]; [done|done|done|].
    cbn [length] in Hb. lia.
Qed.

End System.

(** ** Start *)

(** The pbufs of the receive descriptors. *)
Definition attached (ds : list tDescriptor) : list Z := filter (fun p => p ≠ 0) (pBuf <$> ds).

(** A receive descriptor is ready, with a pbuf of its own whose data the hardware
    may write to, or has none and is not the hardware's. *)
Definition rx_ready {A} (s : pstate A) (d : tDescriptor) : Prop :=
  (pBuf d = 0 /\ ui32CtrlStatus d = 0 /\ pvBuffer1 d = 0) \/
  (exists b, bufs s !! pBuf d = Some b /\ ref b = 1 /\ carries b /\ pvBuffer1 d = payload b /\
    ui32CtrlStatus d = DES0_RX_CTRL_OWN /\ ui32Count d = Z.lor DES1_RX_CTRL_CHAINED (len b)).

Section Init.
Context {A : Type} {ops : alloc_ops A} {laws : alloc_laws A}.
Implicit Types s : pstate A.

Lemma rx_ready_mono s s' d : (forall a b, bufs s !! a = Some b -> bufs s' !! a = Some b) -> rx_ready s d -> rx_ready s' d.
Proof. intros H [?|(b & E & Hb)]; [by left|right]. exists b. split; [auto|done]. Qed.

Lemma rx_desc_spec i s refs R : refs_inv s refs R -> exists d s', rx_desc i s = Some (d, s') /\
  refs_inv s' (attached [d] ++ refs) R /\ (forall a b, bufs s !! a = Some b -> bufs s' !! a = Some b) /\
  bytes s' = bytes s /\ pLink d = (if i =? 7 then 0 else i + 1) /\ rx_ready s' d.
Proof.
  intros I. unfold rx_desc.
  destruct (alloc_refs s refs R PBUF_RAW PBUF_POOL_BUFSIZE PBUF_POOL I ltac:(done)) as (p & s1 & E & Ey & H).
  rewrite E. cbn [mbind option_bind]. destruct H as [(-> & Eb & I')|(b & l & Hc & X & F & Hok & Htl & _ & I')].
  - cbn [Z.eqb]. do 2 eexists. split; [reflexivity|]. split; [done|]. rewrite Eb. split; [done|]. split; [done|].
    split; [done|]. by left.
  - pose proof Hc as (_ & Hz & Eb & _). rewrite (proj2 (Z.eqb_neq p 0) Hz), (Eb : get p s1 = _). cbn [mbind option_bind].
    do 2 eexists. split; [reflexivity|].
    assert (attached [mk_desc DES0_RX_CTRL_OWN (Z.lor DES1_RX_CTRL_CHAINED (Z.shiftl (len b) DES1_RX_CTRL_BUFF1_SIZE_S))
      (payload b) (if i =? NUM_RX_DESCRIPTORS - 1 then 0 else i + 1) p] = [p]) as ->
      by (unfold attached; cbn [fmap list_fmap pBuf]; by rewrite filter_cons_True).
    split; [done|]. split; [intros a c Ec; specialize (X a); case_decide; congruence|]. split; [done|]. split; [done|].
    right. exists b. apply Forall_cons in F as [(Ty & Hr & _) _]. cbn [snd] in Ty, Hr.
    split; [done|]. split; [done|]. split; [by right|]. split; [done|]. split; [done|]. cbn [ui32Count].
    by rewrite Z.shiftl_0_r.
Qed.

Lemma attached_app x y : attached (x ++ y) = attached x ++ attached y.
Proof. unfold attached. by rewrite fmap_app, filter_app. Qed.

Lemma rx_descs_spec idx : forall s refs R, refs_inv s refs R -> exists ds s', rx_descs idx s = Some (ds, s') /\
  refs_inv s' (refs ++ attached ds) R /\ (forall a b, bufs s !! a = Some b -> bufs s' !! a = Some b) /\
  bytes s' = bytes s /\ (pLink <$> ds) = (fun i => if i =? 7 then 0 else i + 1) <$> idx /\ Forall (rx_ready s') ds.
Proof.
  induction idx as [|i idx IH]; intros s refs R I; cbn [rx_descs].
  { exists [], s. change (attached []) with (@nil Z). rewrite app_nil_r. done. }
  destruct (rx_desc_spec i s refs R I) as (d & s1 & E & I1 & X1 & Y1 & L1 & Rd). rewrite E. cbn [mbind option_bind].
  destruct (IH s1 _ R I1) as (ds & s2 & E2 & I2 & X2 & Y2 & L2 & Rd2). rewrite E2. cbn [mbind option_bind].
  exists (d :: ds), s2. split; [done|]. split.
  { change (d :: ds) with ([d] ++ ds). rewrite attached_app.
    assert (refs ++ attached [d] ++ attached ds ≡ₚ (attached [d] ++ refs) ++ attached ds) as ->; [|done].
    rewrite app_assoc. by rewrite (Permutation_app_comm refs). }
  split; [auto|]. split; [congruence|]. split; [by rewrite !fmap_cons, L1, L2|]. constructor; [|done].
  by eapply rx_ready_mono.
Qed.

End Init.

(** ** Theorems *)

Section Theorems.
Context {A : Type} {ops : alloc_ops A} {laws : alloc_laws A}.
Implicit Types (s : pstate A) (y : system A).

(** [tivaif_transmit] of a packet whose pbufs the hardware can read.  With
    a free descriptor for each pbuf, the packet is appended to the ring: its
    descriptors belong to the hardware, the bytes they describe are the packet,
    and the driver holds one reference to it, which is in the last of them.
    Otherwise ERR_MEM is returned and nothing but a counter has changed.  The
    packets of others stay as they are. *)
Theorem tivaif_transmit_correct n s w refs R p l q free :
  refs_inv s (refs ++ held q) R -> ring (pTxDescList w) q free ->
  p ∈ refs -> Z.of_nat (length refs) < 60000 -> chain (bufs s) p l 0 -> (length l < 256)%nat ->
  Forall (fun x => PTR_SAFE_FOR_EMAC_DMA (payload x.2) = true) l ->
  if decide (length l <= length free)%nat then
    exists s' w' segs free', tivaif_transmit n p s w = Some (ERR_OK, s', w') /\
      ring (pTxDescList w') (q ++ segs) free' /\ length segs = length l /\ Forall owned segs /\ held segs = [p] /\
      last (pBuf <$> segs) = Some p /\ gather (bytes s') segs = contents (bytes s) l /\
      refs_inv s' (refs ++ held (q ++ segs)) R /\ same_data s s' refs /\ no_new_refs p s s' refs
  else tivaif_transmit n p s w = Some (ERR_MEM, s, inc_memerr w).
Proof.
  intros I Rg Hp Hx Hc Hl Hs. pose proof (transmit_run n s w refs R p l q free I Rg Hp Hx Hc Hl Hs) as H.
  case_decide as D; [|done]. destruct H as (s' & w' & free' & E & Ey & Sp & Nr & _ & _ & Hlf & Rg' & I').
  destruct (ri_get _ _ _ p I ltac:(set_solver)) as [b Eb]. pose proof (ri_tag _ _ _ _ _ I Eb) as Ht.
  assert (l ≠ []) as Hne by (intros ->; cbn [chain] in Hc; destruct (ri_nonzero _ _ _ _ _ I Eb); lia).
  exists s', w', (segments true p l free'), (drop (length l) free').
  split; [done|]. split; [done|]. split; [apply segments_length; lia|]. split; [apply segments_owned|].
  split; [by apply segments_held; [| |lia]|]. split; [by apply segments_last; [|lia]|].
  split; [rewrite Ey; apply segments_gather; lia|]. done.
Qed.

(** C5: The driver in a system that transmits packets the DMA reaches
    ([dma_packet]), is interrupted, and allocates
    and frees packets of its own, in any order, with hardware that works on the
    descriptors in turn: at every time the references to packets are those of the
    system and one for each packet in the ring, and the packets in the ring are
    those accepted and not yet given back, in the order they came.  An interrupt
    returns, and when the hardware is done with all descriptors it gives back
    every packet accepted. *)
Theorem tivaif_fifo R y y' q free : sys_inv R y q free -> rtc step y y' ->
  exists q' free' s' w', sys_inv R y' q' free' /\ accepted y' = returned y' ++ held q' /\
    tivaif_process_transmit (y_ps y') (y_drv y') = Some (s', w') /\
    (Forall (fun d => ~ owned d) q' ->
      accepted y' = returned y' ++ held (sent q').1 /\ refs_inv s' (y_refs y') R /\
      exists free'', ring (pTxDescList w') [] free'').
Proof.
  intros Y St. assert (exists q' free', sys_inv R y' q' free') as (q' & free' & Y').
  { revert q free Y. induction St as [y|y y1 y2 St _ IH]; intros q free Y; [eauto|].
    destruct (step_inv _ _ _ _ _ Y St) as (q1 & free1 & Y1). by eapply IH. }
  destruct Y' as [Rg I Hf Hb]. destruct (process_run _ _ _ _ _ _ I Rg) as (s1 & w1 & Ep & Rg' & I' & _).
  exists q', free', s1, w1. split; [by split|]. split; [done|]. split; [done|].
  intros Hno. rewrite (sent_all q' Hno) in *. cbn [fst snd] in *. change (held []) with (@nil Z) in I'.
  rewrite app_nil_r in I'. split; [done|]. split; [done|]. eauto.
Qed.

(** [InitDMADescriptors] leaves the transmit ring empty and the receive
    descriptors each with a pbuf of its own, owned by the hardware, as far as the
    pool goes; both lists are linked into rings.  The read index of the receive
    list is as it was: the function resets that of the transmit list twice
    instead. *)
Theorem InitDMADescriptors_correct s w refs R : refs_inv s refs R ->
  exists s' w' ds free, InitDMADescriptors s w = Some (s', w') /\
    ring (pTxDescList w') [] free /\ ui32Read (pTxDescList w') = 0 /\
    (pLink <$> pDescriptors (pTxDescList w')) = (fun i => (i + 1) mod 24) <$> seqZ 0 24 /\
    Forall (fun d => ~ owned d) free /\
    pDescriptors (pRxDescList w') = ds /\ (pLink <$> ds) = (fun i => (i + 1) mod 8) <$> seqZ 0 8 /\
    Forall (rx_ready s') ds /\ refs_inv s' (refs ++ attached ds) R /\ bytes s' = bytes s /\
    ui32Read (pRxDescList w') = ui32Read (pRxDescList w).
Proof.
  intros I. unfold InitDMADescriptors. destruct (rx_descs_spec (seqZ 0 NUM_RX_DESCRIPTORS) s refs R I)
    as (ds & s' & E & I' & _ & Ey & L & Rd). rewrite E. cbn [mbind option_bind].
  do 2 eexists. exists ds, (tx_desc <$> seqZ 0 NUM_TX_DESCRIPTORS). split; [reflexivity|].
  cbn [pTxDescList pRxDescList with_rx with_tx ui32Read pDescriptors].
  split; [|split; [done|split; [by vm_compute|split; [|split; [done|split; [by rewrite L; vm_compute|done]]]]]].
  - split; [by vm_compute|by vm_compute|by vm_compute|by vm_compute|done|]. by apply (bool_decide_unpack _); vm_compute.
  - apply (bool_decide_unpack _); by vm_compute.
Qed.

(** A packet the hardware cannot read, because the data of one of its pbufs
    is outside the memory it reaches, is copied; when no memory is left for the
    copy, ERR_MEM is returned and the reference [tivaif_transmit] took at its
    start is not given back: the packet can not be freed any more. *)
Theorem tivaif_transmit_leaks n s w refs R p b l s2 :
  refs_inv s refs R -> p ∈ refs -> Z.of_nat (length refs) < 60000 ->
  chain (bufs s) p ((p, b) :: l) 0 ->
  Exists (fun x => PTR_SAFE_FOR_EMAC_DMA (payload x.2) = false) ((p, b) :: l) ->
  pbuf_alloc PBUF_RAW (tot_len b) PBUF_POOL (put p (set_ref (ref b + 1) b) s) = Some (0, s2) ->
  tivaif_transmit n p s w = Some (ERR_MEM, s2, inc_memerr w) /\
  bufs s2 !! p = Some (set_ref (ref b + 1) b) /\ refs_inv s2 (p :: refs) R.
Proof.
  intros I Hp Hx Hc He Ha. pose proof Hc as (_ & Hz & E & _).
  destruct (ref_refs s refs R p I Hp ltac:(lia)) as (b' & E' & Eref & Iref). assert (b' = b) as -> by congruence.
  assert (p ∉ l.*1) as Hnl by (pose proof (chain_nodup _ _ _ Hc) as Hnd; rewrite fmap_cons in Hnd; by apply NoDup_cons in Hnd as [? _]).
  pose proof (chain_ref s p b l Hc Hnl) as Hc1. set (s1 := put p (set_ref (ref b + 1) b) s) in *.
  pose proof (chain_size _ _ _ Hc1) as Hsz. assert (get p s1 = Some (set_ref (ref b + 1) b)) as E1 by apply lookup_insert_eq.
  destruct (ri_pinv _ _ _ I) as [B Ip]. destruct (pinv_get _ _ _ _ _ Ip E) as (_ & _ & _ & (_ & Htl & _)).
  destruct (alloc_refs s1 _ R PBUF_RAW (tot_len b) PBUF_POOL Iref Htl) as (p' & s2' & Ea & _ & H).
  rewrite Ha in Ea. injection Ea as <- <-. destruct H as [(_ & Eb & I2)|(? & ? & (_ & Hc0 & _) & _)]; [|done].
  split; [|split; [by rewrite Eb|done]]. unfold tivaif_transmit. rewrite Eref. cbn [mbind option_bind]. fold s1.
  unfold tivaif_check_pbuf. rewrite (check_walk_unsafe s1 ((p, set_ref (ref b + 1) b) :: l)); [|unfold chain_fuel; lia|done|].
  - cbn [mbind option_bind]. rewrite E1. cbn [mbind option_bind tot_len set_ref]. rewrite Ha. done.
  - apply Exists_cons in He as [He|He]; apply Exists_cons; [by left|by right].
Qed.

End Theorems.

(** ** The theorems at work *)

Definition tv0 : tivaif := mk_tivaif (mk_list (tx_desc <$> seqZ 0 24) 0 0) (mk_list [] 5 0) 0 0 0.

Lemma tv0_ring : ring (pTxDescList tv0) [] (tx_desc <$> seqZ 0 24).
Proof. split; [by vm_compute|done|by vm_compute|by vm_compute|done|]. by apply (bool_decide_unpack _); vm_compute. Qed.

Lemma ps0_refs : refs_inv ps0 [] [].
Proof.
  split; [exists ∅; exact ps0_inv|done| |done|done]. intros x z a Ha [b [Hb _]]. done.
Qed.

Lemma alloc_after layer n t : 0 <= n < 2 ^ 16 -> (after (0, ps0) (pbuf_alloc layer n t ps0)).1 ≠ 0 ->
  refs_inv (after (0, ps0) (pbuf_alloc layer n t ps0)).2 [(after (0, ps0) (pbuf_alloc layer n t ps0)).1] [].
Proof.
  intros Hn Hp. destruct (alloc_refs ps0 [] [] layer n t ps0_refs Hn) as (p' & s' & E & _ & H). rewrite E in *.
  cbn [after default fst snd] in *. destruct H as [(-> & _)|(b & l & _ & _ & _ & _ & _ & _ & I)]; done.
Qed.

(** The pool chain of three pbufs. *)
Definition ch3 : list (Z * pbuf) := Eval vm_compute in collect 9 (bufs ps1.2) ps1.1.

Lemma ps1_refs : refs_inv ps1.2 [p1] [].
Proof.
  assert (ps1.1 = p1) as E by (by vm_compute). rewrite <-E. apply alloc_after; [lia|]. fold ps1. by rewrite E.
Qed.

Lemma ch3_chain : chain (bufs ps1.2) p1 ch3 0.
Proof. vm_compute. repeat split; discriminate. Qed.

Lemma ch3_safe : Forall (fun x => PTR_SAFE_FOR_EMAC_DMA (payload x.2) = true) ch3.
Proof. by repeat constructor. Qed.

Lemma tivaif_transmit_correct_witness : exists s' w' segs free',
  tivaif_transmit 0x100 p1 ps1.2 tv0 = Some (ERR_OK, s', w') /\ ring (pTxDescList w') segs free' /\
  length segs = 3%nat /\ held segs = [p1].
Proof.
  destruct (tivaif_transmit_correct 0x100 ps1.2 tv0 [p1] [] p1 ch3 [] (tx_desc <$> seqZ 0 24) ps1_refs tv0_ring
    ltac:(by left) ltac:(done) ch3_chain ltac:(apply Nat.ltb_lt; reflexivity) ch3_safe) as (s' & w' & segs & free' & E & Rg & Hl & _ & Hh & _).
  exists s', w', segs, free'. exact (conj E (conj Rg (conj Hl Hh))).
Defined.

Example ring_after_transmit :
  option_map (fun x => map (fun d => (ui32Count d, pBuf d - p1)) (firstn 4 (pDescriptors (pTxDescList x.2))))
    (tivaif_transmit 0x100 p1 ps1.2 tv0) = Some [(496, 1); (512, 1); (92, 0); (0, - p1)].
Proof. vm_compute. reflexivity. Qed.

Definition y0 : system lwip_mem := mk_system ps1.2 tv0 [p1] [] [].

Lemma y0_inv : sys_inv [] y0 [] (tx_desc <$> seqZ 0 24).
Proof. split; [exact tv0_ring|exact ps1_refs|done|done]. Qed.

Lemma tivaif_fifo_witness : exists y', rtc step y0 y' /\ accepted y' = [p1] /\
  exists q' free', sys_inv [] y' q' free' /\ accepted y' = returned y' ++ held q'.
Proof.
  destruct (tivaif_transmit_correct_witness) as (s' & w' & segs & free' & E & _).
  pose proof (step_transmit y0 0x100 p1 ERR_OK s' w' ltac:(by left)
    ltac:(exists ch3; split; [exact ch3_chain|split; [apply Nat.ltb_lt; reflexivity|exact ch3_safe]]) E) as St.
  set (y' := mk_system s' w' (y_refs y0) (if ERR_OK =? ERR_OK then accepted y0 ++ [p1] else accepted y0) (returned y0)) in St.
  destruct (tivaif_fifo [] y0 y' [] (tx_desc <$> seqZ 0 24) y0_inv (rtc_once _ _ St)) as (q' & free1 & s1 & w1 & Y & F & _).
  exists y'. exact (conj (rtc_once _ _ St) (conj eq_refl (ex_intro _ q' (ex_intro _ free1 (conj Y F))))).
Defined.

Lemma InitDMADescriptors_correct_witness : exists s' w', InitDMADescriptors ps0 tv0 = Some (s', w') /\
  Forall (rx_ready s') (pDescriptors (pRxDescList w')) /\ ui32Read (pRxDescList w') = 5.
Proof.
  destruct (InitDMADescriptors_correct ps0 tv0 [] [] ps0_refs) as (s' & w' & ds & free & E & _ & _ & _ & _ & Hd & _ & Hr & _ & _ & H5).
  exists s', w'. rewrite Hd. exact (conj E (conj Hr H5)).
Defined.

(** A packet of 3000 bytes in ROM, more than the pool of the copy has. *)
Definition ps_rom : Z * pstate lwip_mem := after (0, ps0) (pbuf_alloc PBUF_RAW 3000 PBUF_ROM ps0).
Definition rom : Z := Eval vm_compute in ps_rom.1.
Definition rom_b : pbuf := Eval vm_compute in default (mk_pbuf 0 0 0 0 PBUF_RAM 0 0) (bufs ps_rom.2 !! rom).
Definition rom_ref : pstate lwip_mem := put rom (set_ref (ref rom_b + 1) rom_b) ps_rom.2.

Lemma rom_refs : refs_inv ps_rom.2 [rom] [].
Proof.
  assert (ps_rom.1 = rom) as E by (by vm_compute). rewrite <-E. apply alloc_after; [lia|]. fold ps_rom. by rewrite E.
Qed.

Lemma rom_no_memory : exists s2, pbuf_alloc PBUF_RAW (tot_len rom_b) PBUF_POOL rom_ref = Some (0, s2).
Proof.
  assert (option_map fst (pbuf_alloc PBUF_RAW (tot_len rom_b) PBUF_POOL rom_ref) = Some 0) as H by (by vm_compute).
  destruct (pbuf_alloc PBUF_RAW (tot_len rom_b) PBUF_POOL rom_ref) as [[x s2]|]; [|done]. exists s2. cbn in H. congruence.
Qed.

Lemma tivaif_transmit_leaks_witness : exists s2,
  tivaif_transmit 0x100 rom ps_rom.2 tv0 = Some (ERR_MEM, s2, inc_memerr tv0) /\
  ref <$> (bufs ps_rom.2 !! rom) = Some 1 /\ ref <$> (bufs s2 !! rom) = Some 2.
Proof.
  destruct rom_no_memory as [s2 Ha]. exists s2.
  destruct (tivaif_transmit_leaks 0x100 ps_rom.2 tv0 [rom] [] rom rom_b [] s2 rom_refs ltac:(by left) ltac:(done)
    ltac:(vm_compute; repeat split; discriminate) ltac:(by constructor) Ha) as (E & Eb & _).
  split; [exact E|]. split; [by vm_compute|]. by rewrite Eb.
Defined.

End Tivaif.
