(* ===== verification/Netif.v ===== *)
(** * Network interfaces

    [netif.c]: the list of interfaces and their configuration.  What is above is
    an interface of its own: [upper_ops] are the functions of TCP, DHCP, IP and
    the application this code and the code built on it call, and [upper_laws]
    what they promise: they keep the invariant of [Etharp] and leave the packets
    and interfaces of their caller alone.  [W], the rest of the state, holds the
    driver and these protocols; [drv] and [held] are the references and the memory
    of all of them. *)
From S2P Require Import Prelude Alloc Pbuf PbufData Chksum IpAddr Refs Net Etharp Wire ArpCache.
Import Alloc Pbuf PbufData Refs Net Etharp Wire ArpCache.

Module Netif.
Local Open Scope net_scope.

(** ** The protocols above *)

Class upper_ops (A W : Type) := {
  status_cb : Z -> Z -> M A W unit;              (* the application's function at an address *)
  tcp_active : W -> list (Z * Z);                (* tcp_active_pcbs: pcb and local_ip *)
  tcp_listen : W -> list (Z * Z);                (* tcp_listen_pcbs *)
  set_tcp_listen : list (Z * Z) -> W -> W;
  tcp_abort : Z -> M A W unit;
  dhcp_network_changed : Z -> M A W unit;
  dhcp_arp_reply : Z -> Z -> M A W unit }.

Section Operations.
Context {A W : Type} {ops : alloc_ops A} {lops : link_ops A W} {uops : upper_ops A W}.

Definition NETIF_STATUS_CALLBACK (n : Z) : M A W unit :=
  nif <- the_netif n ;;
  when (negb (status_callback nif =? 0)) (status_cb (status_callback nif) n).

(** [ip_addr_set]: NULL sets 0.0.0.0. *)
Definition ip_addr_set (src : option Z) : Z := default 0 src.

(** A pcb of the active list: its address and the pcb behind it. *)
Fixpoint find_pcb (pcb : Z) (l : list (Z * Z)) : option (Z * Z) :=
  match l with
  | [] => None
  | (p, ip) :: l => if p =? pcb then Some (ip, match l with (p', _) :: _ => p' | [] => 0 end) else find_pcb pcb l
  end.

(** The loop over [tcp_active_pcbs] in [netif_set_ipaddr]. *)
Fixpoint abort_loop (fuel : nat) (n pcb : Z) : M A W unit :=
  match fuel with
  | O => fun _ => None
  | S fuel =>
      if pcb =? 0 then ret tt
      else
        x <- gets (fun s => find_pcb pcb (tcp_active (world s))) ;;
        nif <- the_netif n ;;
        (if (x.1 =? ip_addr nif) && negb (ip_addr_islinklocal x.1) then tcp_abort pcb else ret tt) ;;
        abort_loop fuel n x.2
  end.

Definition netif_set_ipaddr (n : Z) (ipaddr : option Z) : M A W unit :=
  nif <- the_netif n ;;
  when (match ipaddr with Some ip => negb (ip =? ip_addr nif) | None => false end)
    (l <- gets (fun s => Some (tcp_active (world s))) ;;
     abort_loop (S (length l)) n (match l with (p, _) :: _ => p | [] => 0 end) ;;
     nif <- the_netif n ;;
     modify (fun s => with_world (set_tcp_listen
       ((fun x => if negb (ip_addr_isany x.2) && (x.2 =? ip_addr nif) then (x.1, ip_addr_set ipaddr) else x)
          <$> tcp_listen (world s)) (world s)) s)) ;;
  set_the_netif n (set_ip_addr (ip_addr_set ipaddr)).

Definition netif_set_gw (n : Z) (g : option Z) : M A W unit := set_the_netif n (set_gw (ip_addr_set g)).
Definition netif_set_netmask (n : Z) (m : option Z) : M A W unit := set_the_netif n (set_netmask (ip_addr_set m)).

Definition netif_set_addr (n : Z) (ipaddr m g : option Z) : M A W unit :=
  netif_set_ipaddr n ipaddr ;;
  netif_set_netmask n m ;;
  netif_set_gw n g.

(** [netif_add]; the fields that are not reset stay as they are in the caller's
    struct; [init] is the driver's function.  An interface that is in the list
    already would be linked to itself. *)
Definition netif_add (n : Z) (ipaddr m g : option Z) (init : Z -> M A W Z) : M A W Z :=
  num <- gets (fun s => Some (netif_num s)) ;;
  nif <- the_netif n ;;
  set_the_netif n (fun _ => mk_netif 0 0 0 0 0 0 (mtu nif) (hwaddr nif) 0 (name nif) num) ;;
  modify (with_num (u8 (num + 1))) ;;
  netif_set_addr n ipaddr m g ;;
  e <- init n ;;
  if negb (e =? ERR_OK) then ret 0
  else
    l <- gets (fun s => if decide (n ∈ netif_list s) then None else Some (netif_list s)) ;;
    modify (with_list (n :: l)) ;;
    ret n.

Definition netif_is_up (nif : netif) : bool := negb (Z.land (n_flags nif) NETIF_FLAG_UP =? 0).
Definition has_flag (f : Z) (nif : netif) : bool := negb (Z.land (n_flags nif) f =? 0).

Definition netif_set_default (n : Z) : M A W unit := modify (with_default n).

Definition netif_set_up (n : Z) : M A W unit :=
  nif <- the_netif n ;;
  when (negb (netif_is_up nif))
    (set_the_netif n (fun nif => set_n_flags (Z.lor (n_flags nif) NETIF_FLAG_UP) nif) ;;
     NETIF_STATUS_CALLBACK n ;;
     nif <- the_netif n ;;
     when (has_flag NETIF_FLAG_LINK_UP nif && has_flag NETIF_FLAG_ETHARP nif)
       (etharp_gratuitous n ;; ret tt)).

(** [flags &= ~f] on the 8-bit field. *)
Definition clear_flag (f x : Z) : Z := Z.land x (u8 (Z.lnot f)).

Definition netif_set_down (n : Z) : M A W unit :=
  nif <- the_netif n ;;
  when (netif_is_up nif)
    (set_the_netif n (fun nif => set_n_flags (clear_flag NETIF_FLAG_UP (n_flags nif)) nif) ;;
     when (has_flag NETIF_FLAG_ETHARP nif) (etharp_cleanup_netif n) ;;
     NETIF_STATUS_CALLBACK n).

(** The list without its first [n], if it has one. *)
Fixpoint unlink (n : Z) (l : list Z) : option (list Z) :=
  match l with
  | [] => None
  | m :: l => if m =? n then Some l else l' ← unlink n l; Some (m :: l')
  end.

Definition netif_remove (n : Z) : M A W unit :=
  if n =? 0 then ret tt
  else
    nif <- the_netif n ;;
    when (netif_is_up nif) (netif_set_down n) ;;
    l <- gets (fun s => Some (unlink n (netif_list s))) ;;
    match l with
    | None => ret tt
    | Some l =>
        modify (with_list l) ;;
        d <- gets (fun s => Some (netif_default s)) ;;
        when (d =? n) (netif_set_default 0)
    end.

(** The loop of [netif_find]. *)
Fixpoint find_loop (c0 c1 k : Z) (l : list Z) : M A W Z :=
  match l with
  | [] => ret 0
  | n :: l =>
      nif <- the_netif n ;;
      if (k =? num nif) && (c0 =? (name nif).1) && (c1 =? (name nif).2) then ret n else find_loop c0 c1 k l
  end.

(** [netif_find] of a name of three characters. *)
Definition netif_find (nm : option (Z * Z * Z)) : M A W Z :=
  match nm with
  | None => ret 0
  | Some (c0, c1, c2) =>
      l <- gets (fun s => Some (netif_list s)) ;;
      find_loop c0 c1 (u8 (c2 - 48)) l
  end.

Definition netif_set_status_callback (n f : Z) : M A W unit :=
  if n =? 0 then ret tt else set_the_netif n (set_status_callback f).

Definition netif_set_link_down (n : Z) : M A W unit :=
  nif <- the_netif n ;;
  when (has_flag NETIF_FLAG_LINK_UP nif)
    (set_the_netif n (fun nif => set_n_flags (clear_flag NETIF_FLAG_LINK_UP (n_flags nif)) nif)).

End Operations.

(** ** What they promise *)

(** The AutoIP clients: the fields are within their types and the counters within what the code sets. *)
Record autoip_ok (a : autoip) : Prop := {
  ao_sent : 0 <= sent_num a <= 3;
  ao_announcing : a_state a = AUTOIP_STATE_ANNOUNCING -> sent_num a <= 1;
  ao_ttw : 0 <= ttw a <= 600;
  ao_last : 0 <= lastconflict a <= 100;
  ao_tried : in_u 8 (tried_llipaddr a) }.

(** Every interface of the list is there, and each client has its own struct. *)
Record clients_ok {A W} (s : net A W) : Prop := {
  co_list : NoDup (netif_list s);
  co_netif n : n ∈ netif_list s -> is_Some (netifs s !! n);
  co_client n nif : netifs s !! n = Some nif -> n_autoip nif ≠ 0 ->
    exists a, autoips s !! n_autoip nif = Some a /\ autoip_ok a;
  co_inj n m nif nif' : netifs s !! n = Some nif -> netifs s !! m = Some nif' -> n_autoip nif = n_autoip nif' ->
    n_autoip nif ≠ 0 -> n = m }.

(** The interfaces of the list are there, the default one too, and the DHCP
    clients. *)
Record listed {A W} (s : net A W) : Prop := {
  ls_list n : n ∈ netif_list s -> n ≠ 0 /\ is_Some (netifs s !! n);
  ls_default : netif_default s ≠ 0 -> is_Some (netifs s !! netif_default s);
  ls_dhcp n nif : netifs s !! n = Some nif -> dhcp nif ≠ 0 -> is_Some (dhcps (ips s) !! dhcp nif) }.

(** The interfaces exist and keep their hardware address, the list stays, and the
    clients stay well-formed. *)
Record keeps {A W} (s s' : net A W) : Prop := {
  kp_netifs : forall n nif, netifs s !! n = Some nif -> exists nif', netifs s' !! n = Some nif' /\ hwaddr nif' = hwaddr nif;
  kp_list : netif_list s' = netif_list s;
  kp_clients : clients_ok s -> clients_ok s';
  kp_listed : listed s -> listed s' }.

(** The interfaces and the packets of others are left alone. *)
Record calm {A W} (extra : list Z) (s s' : net A W) : Prop := {
  cm_netifs : netifs s' = netifs s;
  cm_list : netif_list s' = netif_list s;
  cm_default : netif_default s' = netif_default s;
  cm_num : netif_num s' = netif_num s;
  cm_autoips : autoips s' = autoips s;
  cm_dhcps : dhcps (ips s') = dhcps (ips s);
  cm_packets : same_packets (ps s) (ps s') extra }.

Class upper_laws (A W : Type) {ops : alloc_ops A} {laws : alloc_laws A} {lops : link_ops A W}
    {llaws : link_laws A W} {uops : upper_ops A W} := {
  status_cb_law f n (s : net A W) extra R : net_inv s extra R -> Z.of_nat (length extra) < 49998 ->
    wp (status_cb f n) (fun _ s' => net_inv s' extra R /\ calm extra s s') s;
  tcp_wf w : link_ok w -> NoDup (tcp_active w).*1 /\ 0 ∉ (tcp_active w).*1;
  set_tcp_listen_law l w : link_ok w -> link_ok (set_tcp_listen l w) /\ drv (set_tcp_listen l w) = drv w /\
    held (set_tcp_listen l w) = held w /\ tcp_active (set_tcp_listen l w) = tcp_active w /\ tcp_listen (set_tcp_listen l w) = l;
  tcp_abort_law pcb (s : net A W) extra R : net_inv s extra R -> Z.of_nat (length extra) < 49998 ->
    pcb ∈ (tcp_active (world s)).*1 ->
    wp (tcp_abort pcb) (fun _ s' => net_inv s' extra R /\ calm extra s s' /\
      tcp_active (world s') = filter (fun x => x.1 ≠ pcb) (tcp_active (world s)) /\
      tcp_listen (world s') = tcp_listen (world s)) s;
  dhcp_network_changed_law n (s : net A W) extra R : net_inv s extra R -> Z.of_nat (length extra) < 49998 ->
    is_Some (netifs s !! n) ->
    wp (dhcp_network_changed n) (fun _ s' => net_inv s' extra R /\ same_packets (ps s) (ps s') extra /\ keeps s s') s;
  dhcp_arp_reply_law n ip (s : net A W) extra R : net_inv s extra R -> Z.of_nat (length extra) < 49998 ->
    is_Some (netifs s !! n) ->
    wp (dhcp_arp_reply n ip) (fun _ s' => net_inv s' extra R /\ same_packets (ps s) (ps s') extra /\ keeps s s') s }.

(** ** Correctness *)

(** Total correctness as a result. *)
Lemma wp_ex {A W} (P : net A W -> Prop) m s : wp m (fun _ => P) s -> exists s', m s = Some (tt, s') /\ P s'.
Proof. intros ([] & s' & H)%wp_run. eauto. Qed.

(** What stays when interfaces change: the list, the default, the packets. *)
Record nframe {A W} (extra : list Z) (s s' : net A W) : Prop := {
  nf_list : netif_list s' = netif_list s;
  nf_default : netif_default s' = netif_default s;
  nf_num : netif_num s' = netif_num s;
  nf_autoips : autoips s' = autoips s;
  nf_dhcps : dhcps (ips s') = dhcps (ips s);
  nf_packets : same_packets (ps s) (ps s') extra }.

(** The connections that survive a change of the address [old]. *)
Definition survives (old : Z) (x : Z * Z) : Prop := x.2 ≠ old \/ ip_addr_islinklocal x.2 = true.
#[export] Instance survives_dec old x : Decision (survives old x).
Proof. unfold survives. apply _. Defined.

(** The listeners after a change from [old] to [new]. *)
Definition listens (old new : Z) (x : Z * Z) : Z * Z :=
  if negb (x.2 =? 0) && (x.2 =? old) then (x.1, new) else x.

Section Correct.
Context {A W : Type} {ops : alloc_ops A} {laws : alloc_laws A} {lops : link_ops A W} {llaws : link_laws A W}
  {uops : upper_ops A W} {ulaws : upper_laws A W}.
Implicit Types s : net A W.

Lemma nframe_refl extra s : nframe extra s s.
Proof. split; try done. apply same_packets_refl. Qed.

Lemma nframe_trans extra s1 s2 s3 : nframe extra s1 s2 -> nframe extra s2 s3 -> nframe extra s1 s3.
Proof. intros [? ? ? ? ? P1] [? ? ? ? ? P2]. split; try congruence. by eapply same_packets_trans. Qed.

Lemma calm_refl extra s : calm extra s s.
Proof. split; try done. apply same_packets_refl. Qed.

Lemma calm_trans extra s1 s2 s3 : calm extra s1 s2 -> calm extra s2 s3 -> calm extra s1 s3.
Proof. intros [? ? ? ? ? ? P1] [? ? ? ? ? ? P2]. split; try congruence. by eapply same_packets_trans. Qed.

Lemma frame_calm extra s s' : frame extra s s' -> calm extra s s'.
Proof. intros []. split; try done. congruence. Qed.

Lemma calm_nframe extra s s' : calm extra s s' -> nframe extra s s' /\ netifs s' = netifs s.
Proof. intros []. by split. Qed.

Lemma frame_nframe extra s s' : frame extra s s' -> nframe extra s s' /\ netifs s' = netifs s.
Proof. intros F. by apply calm_nframe, frame_calm. Qed.

Lemma wp_the_netif n nif (Q : netif -> net A W -> Prop) s : netifs s !! n = Some nif -> Q nif s -> wp (the_netif n) Q s.
Proof. intros. by eapply wp_gets. Qed.

Lemma alter_some (m : gmap Z netif) n f nif : m !! n = Some nif -> alter f n m = <[n := f nif]> m.
Proof.
  intros E. apply map_eq. intros k. destruct (decide (k = n)) as [->|Hne].
  - by rewrite lookup_alter_eq, lookup_insert_eq, E.
  - by rewrite lookup_alter_ne, lookup_insert_ne.
Qed.

Lemma alter_put (m : gmap Z netif) n f nif : alter f n (<[n := nif]> m) = <[n := f nif]> m.
Proof. rewrite (alter_some _ _ _ nif) by apply lookup_insert_eq. by rewrite insert_insert_eq. Qed.

(** The struct of an interface changes, its hardware address does not. *)
Lemma wp_set_netif n f extra R Q s : net_inv s extra R -> (forall nif, hwaddr (f nif) = hwaddr nif) ->
  (forall s', net_inv s' extra R -> nframe extra s s' -> netifs s' = alter f n (netifs s) ->
    arp_table s' = arp_table s -> world s' = world s -> Q tt s') ->
  wp (set_the_netif n f) Q s.
Proof.
  intros I Hf HQ. apply wp_modify, HQ; try done.
  - destruct I. split; try done. cbn [netifs with_netifs]. intros m nif Hm.
    destruct (decide (m = n)) as [->|Hne].
    + rewrite lookup_alter_eq in Hm. apply fmap_Some in Hm as (nif0 & E & ->). rewrite Hf. by eapply ni_hw.
    + rewrite lookup_alter_ne in Hm by done. by eapply ni_hw.
  - split; try done. apply same_packets_refl.
Qed.

Lemma wp_set_netif' n nif nif' extra R Q s : net_inv s extra R -> netifs s !! n = Some nif -> hwaddr nif' = hwaddr nif ->
  (forall s', net_inv s' extra R -> nframe extra s s' -> netifs s' = <[n := nif']> (netifs s) -> Q tt s') ->
  wp (set_the_netif n (fun _ => nif')) Q s.
Proof.
  intros I En Hh HQ. apply wp_modify, HQ; cbn [netifs with_netifs].
  - destruct I. split; try done. cbn [netifs with_netifs]. rewrite (alter_some _ _ _ nif) by done.
    apply map_Forall_insert_2; [rewrite Hh; by eapply ni_hw|done].
  - split; try done. apply same_packets_refl.
  - by rewrite (alter_some _ _ _ nif).
Qed.

Lemma wp_status_callback n nif extra R Q s : net_inv s extra R -> Z.of_nat (length extra) < 49998 ->
  netifs s !! n = Some nif ->
  (forall s', net_inv s' extra R -> calm extra s s' -> (status_callback nif = 0 -> s' = s) -> Q tt s') ->
  wp (NETIF_STATUS_CALLBACK n) Q s.
Proof.
  intros I Hx En HQ. unfold NETIF_STATUS_CALLBACK. apply wp_bind. eapply wp_the_netif; [done|].
  apply wp_when; intros Hc.
  - eapply wp_mono; [by apply status_cb_law|]. intros [] s' [I' F']. apply HQ; [done|done|]. intros Hz. by rewrite Hz in Hc.
  - apply HQ; [done|apply calm_refl|done].
Qed.

(** The walk over the active connections. *)
Lemma find_pcb_app pre pcb ip post : pcb ∉ pre.*1 ->
  find_pcb pcb (pre ++ (pcb, ip) :: post) = Some (ip, match post with (p, _) :: _ => p | [] => 0 end).
Proof.
  induction pre as [|[p i] pre IH]; intros Hn; cbn [app find_pcb]; [by rewrite Z.eqb_refl|].
  rewrite fmap_cons in Hn. apply not_elem_of_cons in Hn as [Hp Hn]. cbn [fst] in Hp.
  rewrite (proj2 (Z.eqb_neq p pcb)) by done. auto.
Qed.

Lemma filter_all {X} (P : X -> Prop) `{forall x, Decision (P x)} (l : list X) : Forall P l -> filter P l = l.
Proof. induction 1; [done|]. rewrite filter_cons_True by done. by f_equal. Qed.

Lemma filter_other pcb ip (pre post : list (Z * Z)) : pcb ∉ pre.*1 -> pcb ∉ post.*1 ->
  filter (fun x => x.1 ≠ pcb) (pre ++ (pcb, ip) :: post) = pre ++ post.
Proof.
  intros H1 H2. rewrite filter_app, filter_cons_False by (cbn; auto).
  rewrite !filter_all by (apply Forall_forall; intros x Hx E; subst; apply list_elem_of_fmap_2 with (f := fst) in Hx; done). done.
Qed.

Lemma wp_abort_loop n nif extra R : forall post pre fuel s Q, net_inv s extra R -> Z.of_nat (length extra) < 49998 ->
  netifs s !! n = Some nif -> tcp_active (world s) = filter (survives (ip_addr nif)) pre ++ post ->
  (length post < fuel)%nat ->
  (forall s', net_inv s' extra R -> calm extra s s' ->
    tcp_active (world s') = filter (survives (ip_addr nif)) (pre ++ post) ->
    tcp_listen (world s') = tcp_listen (world s) -> Q tt s') ->
  wp (abort_loop fuel n (match post with (p, _) :: _ => p | [] => 0 end)) Q s.
Proof.
  induction post as [|[p ip] post IH]; intros pre fuel s Q I Hx En Ha Hf HQ; (destruct fuel as [|fuel]; [cbn in Hf; lia|]).
  - cbn [abort_loop Z.eqb]. apply wp_ret. rewrite app_nil_r in *. apply HQ; [done|apply calm_refl|done|done].
  - destruct (tcp_wf _ (ni_link _ _ _ I)) as [Nd Nz]. rewrite Ha, fmap_app, fmap_cons in Nd, Nz. cbn [fst] in Nd, Nz.
    apply NoDup_app in Nd as (_ & Nd1 & Nd2). apply NoDup_cons in Nd2 as [Nd2 _].
    assert (p ∉ (filter (survives (ip_addr nif)) pre).*1) as Np by (intros H; apply (Nd1 p H); by left).
    cbn [abort_loop]. rewrite (proj2 (Z.eqb_neq p 0)) by (intros ->; apply Nz, elem_of_app; right; by left).
    apply wp_bind, (wp_gets _ (ip, match post with (p', _) :: _ => p' | [] => 0 end)); [rewrite Ha; by apply find_pcb_app|].
    apply wp_bind. eapply wp_the_netif; [done|]. cbn [fst snd]. apply wp_bind.
    destruct ((ip =? ip_addr nif) && negb (ip_addr_islinklocal ip)) eqn:D.
    + apply andb_true_iff in D as [D1%Z.eqb_eq D2%negb_true_iff].
      assert (~ survives (ip_addr nif) (p, ip)) as Hs by (intros [H|H]; cbn in H; [done|congruence]).
      eapply wp_mono; [apply tcp_abort_law; [exact I|done|]|].
      { rewrite Ha, fmap_app. apply elem_of_app. right. by left. }
      intros [] s1 (I1 & F1 & A1 & L1). rewrite Ha, filter_other in A1 by done.
      eapply (IH (pre ++ [(p, ip)])); [done|done| | |cbn in Hf; lia|].
      * by rewrite (cm_netifs _ _ _ F1).
      * rewrite A1, filter_app, filter_cons_False by done. by rewrite filter_nil, app_nil_r.
      * intros s2 I2 F2 A2 L2. apply HQ; [done|by eapply calm_trans|by rewrite <-app_assoc in A2|congruence].
    + assert (survives (ip_addr nif) (p, ip)) as Hs.
      { apply andb_false_iff in D as [D%Z.eqb_neq|D%negb_false_iff]; [by left|by right]. }
      apply wp_ret. eapply (IH (pre ++ [(p, ip)])); [done|done|done| |cbn in Hf; lia|].
      * rewrite Ha, filter_app, filter_cons_True by done. by rewrite filter_nil, <-app_assoc.
      * intros s2 I2 F2 A2 L2. apply HQ; [done|done|by rewrite <-app_assoc in A2|done].
Qed.

(** The state with other listeners. *)
Lemma inv_listen s extra R l : net_inv s extra R -> net_inv (with_world (set_tcp_listen l (world s)) s) extra R.
Proof.
  intros I. destruct (set_tcp_listen_law l (world s) (ni_link _ _ _ I)) as (H1 & H2 & H3 & _). destruct I.
  split; try done. cbn [ps world with_world arp_table]. by rewrite H2, H3.
Qed.

(** The connections and listeners after the address of an interface went from
    [old] to [new]. *)
Definition readdressed (old new : Z) (w w' : W) : Prop :=
  if old =? new then w' = w
  else tcp_active w' = filter (survives old) (tcp_active w) /\ tcp_listen w' = listens old new <$> tcp_listen w.

Lemma wp_set_ipaddr n nif ip extra R Q s : net_inv s extra R -> Z.of_nat (length extra) < 49998 ->
  netifs s !! n = Some nif ->
  (forall s', net_inv s' extra R -> nframe extra s s' -> netifs s' = <[n := set_ip_addr ip nif]> (netifs s) ->
    readdressed (ip_addr nif) ip (world s) (world s') -> Q tt s') ->
  wp (netif_set_ipaddr n (Some ip)) Q s.
Proof.
  intros I Hx En HQ. unfold netif_set_ipaddr. apply wp_bind. eapply wp_the_netif; [done|]. cbn [ip_addr_set default].
  assert (forall s1, net_inv s1 extra R -> nframe extra s s1 -> netifs s1 = netifs s ->
    readdressed (ip_addr nif) ip (world s) (world s1) -> wp (set_the_netif n (set_ip_addr ip)) Q s1) as Hset.
  { intros s1 I1 F1 N1 A1. eapply wp_set_netif; [done|done|]. intros s2 I2 F2 N2 _ W2. apply HQ; [done|by eapply nframe_trans| |by rewrite W2].
    rewrite N2, N1. by apply alter_some. }
  apply wp_bind, wp_when; intros D.
  - apply negb_true_iff, Z.eqb_neq in D. apply wp_bind, (wp_gets _ (tcp_active (world s))); [done|]. apply wp_bind.
    apply (wp_abort_loop n nif extra R (tcp_active (world s)) []); [done|done|done|done|lia|].
    intros s1 I1 F1 A1 L1. apply wp_bind, (wp_the_netif n nif); [by rewrite (cm_netifs _ _ _ F1)|]. apply wp_modify.
    destruct (set_tcp_listen_law (listens (ip_addr nif) ip <$> tcp_listen (world s1)) (world s1) (ni_link _ _ _ I1)) as (_ & _ & _ & HA & HL).
    destruct (calm_nframe _ _ _ F1) as [F1' N1]. eapply Hset.
    + by apply inv_listen.
    + destruct F1'. split; done.
    + done.
    + unfold readdressed. rewrite (proj2 (Z.eqb_neq _ _)) by done. cbn [world with_world].
      split; [etrans; [exact HA|exact A1]|]. etrans; [exact HL|]. by rewrite L1.
  - apply negb_false_iff, Z.eqb_eq in D. eapply Hset; [done|apply nframe_refl|done|]. unfold readdressed. by rewrite D, Z.eqb_refl.
Qed.

(** Up and down. *)
Definition flagged (f : Z -> Z) (nif : netif) : netif := set_n_flags (f (n_flags nif)) nif.

Lemma wp_netif_up n nif extra R Q s : net_inv s extra R -> Z.of_nat (length extra) < 49998 ->
  netifs s !! n = Some nif ->
  (forall s', net_inv s' extra R -> nframe extra s s' ->
    netifs s' = <[n := flagged (fun x => if netif_is_up nif then x else Z.lor x NETIF_FLAG_UP) nif]> (netifs s) ->
    (netif_is_up nif = true -> s' = s) -> Q tt s') ->
  wp (netif_set_up n) Q s.
Proof.
  intros I Hx En HQ. unfold netif_set_up. apply wp_bind. eapply wp_the_netif; [done|]. apply wp_when; intros D.
  - apply negb_true_iff in D. rewrite D in HQ. apply wp_bind. eapply wp_set_netif; [exact I|done|].
    intros s1 I1 F1 N1 _ _. rewrite (alter_some _ _ _ nif) in N1 by done.
    assert (netifs s1 !! n = Some (flagged (fun x => Z.lor x NETIF_FLAG_UP) nif)) as En1 by (rewrite N1; apply lookup_insert_eq).
    apply wp_bind. eapply wp_status_callback; [done|done|done|]. intros s2 I2 F2 _. destruct (calm_nframe _ _ _ F2) as [F2' N2].
    apply wp_bind. eapply wp_the_netif; [by rewrite N2|]. apply wp_when; intros _.
    + apply wp_bind. unfold etharp_gratuitous. apply wp_bind. eapply wp_the_netif; [by rewrite N2|].
      eapply wp_request; [done|by rewrite N2|lia|]. intros r s3 I3 F3 _. destruct (frame_nframe _ _ _ F3) as [F3' N3].
      apply wp_ret, HQ; [done| |by rewrite N3, N2|done]. eapply nframe_trans; [exact F1|]. by eapply nframe_trans.
    + apply HQ; [done|by eapply nframe_trans|by rewrite N2|done].
  - apply negb_false_iff in D. apply HQ; [done|apply nframe_refl| |done]. rewrite D. symmetry. apply insert_id. rewrite En.
    f_equal. by destruct nif.
Qed.

Lemma wp_netif_down n nif extra R Q s : net_inv s extra R -> Z.of_nat (length extra) < 49998 ->
  netifs s !! n = Some nif ->
  (forall s', net_inv s' extra R -> nframe extra s s' ->
    netifs s' = <[n := flagged (fun x => if netif_is_up nif then clear_flag NETIF_FLAG_UP x else x) nif]> (netifs s) ->
    (netif_is_up nif = false -> s' = s) ->
    (netif_is_up nif = true -> has_flag NETIF_FLAG_ETHARP nif = true -> status_callback nif = 0 ->
      cache (arp_table s') = omap (off n) (cache (arp_table s))) -> Q tt s') ->
  wp (netif_set_down n) Q s.
Proof.
  intros I Hx En HQ. unfold netif_set_down. apply wp_bind. eapply wp_the_netif; [done|]. apply wp_when; intros D; rewrite D in HQ.
  - apply wp_bind. eapply wp_set_netif; [exact I|done|]. intros s1 I1 F1 N1 T1 _. rewrite (alter_some _ _ _ nif) in N1 by done.
    assert (netifs s1 !! n = Some (flagged (clear_flag NETIF_FLAG_UP) nif)) as En1 by (rewrite N1; apply lookup_insert_eq).
    apply wp_bind, wp_when; intros He.
    + eapply wp_cleanup; [done|]. intros s2 I2 F2 T2. destruct (frame_nframe _ _ _ F2) as [F2' N2].
      eapply wp_status_callback; [done|done|by rewrite N2|]. intros s3 I3 F3 Hcb. destruct (calm_nframe _ _ _ F3) as [F3' N3].
      apply HQ; [done| |by rewrite N3, N2|done|].
      * eapply nframe_trans; [exact F1|]. by eapply nframe_trans.
      * intros _ _ Hz. rewrite (Hcb Hz). pose proof (ni_uniq _ _ _ I2) as U2. rewrite T2, T1 in *.
        apply cache_fmap; [apply I|done|]. intros e _. apply cleaned_host.
    + eapply wp_status_callback; [done|done|done|]. intros s3 I3 F3 _. destruct (calm_nframe _ _ _ F3) as [F3' N3].
      apply HQ; [done|by eapply nframe_trans|by rewrite N3|done|]. intros _ He'. congruence.
  - apply HQ; [done|apply nframe_refl| |done|done]. symmetry. apply insert_id. rewrite En. f_equal. by destruct nif.
Qed.

(** What the driver's [init] does: it keeps the invariant, may set the hardware
    address, name and flags of its interface, and leaves the rest. *)
Definition init_ok (n : Z) (init : Z -> M A W Z) extra R : Prop :=
  forall s nif, net_inv s extra R -> netifs s !! n = Some nif ->
    wp (init n) (fun _ s' => net_inv s' extra R /\ nframe extra s s' /\
      exists nif', netifs s' = <[n := nif']> (netifs s) /\ num nif' = num nif /\
        ip_addr nif' = ip_addr nif /\ netmask nif' = netmask nif /\ gw nif' = gw nif) s.

Lemma wp_set_addr n nif ip m g extra R Q s : net_inv s extra R -> Z.of_nat (length extra) < 49998 ->
  netifs s !! n = Some nif ->
  (forall s', net_inv s' extra R -> nframe extra s s' ->
    netifs s' = <[n := set_gw g (set_netmask m (set_ip_addr ip nif))]> (netifs s) ->
    readdressed (ip_addr nif) ip (world s) (world s') -> Q tt s') ->
  wp (netif_set_addr n (Some ip) (Some m) (Some g)) Q s.
Proof.
  intros I Hx En HQ. unfold netif_set_addr. apply wp_bind. eapply wp_set_ipaddr; [done|done|done|]. intros s1 I1 F1 N1 A1.
  apply wp_bind. eapply wp_set_netif; [done|done|]. intros s2 I2 F2 N2 _ W2.
  eapply wp_set_netif; [done|done|]. intros s3 I3 F3 N3 _ W3. apply HQ; [done| | |congruence].
  - eapply nframe_trans; [exact F1|]. by eapply nframe_trans.
  - rewrite N3, N2, N1. by rewrite !alter_put.
Qed.

Lemma unlink_filter n l : NoDup l -> unlink n l = if decide (n ∈ l) then Some (filter (fun m => m ≠ n) l) else None.
Proof.
  induction l as [|m l IH]; intros Nd; [done|]. apply NoDup_cons in Nd as [Hm Nd]. cbn [unlink].
  destruct (Z.eqb_spec m n) as [->|Hne].
  - rewrite decide_True by by left. rewrite filter_cons_False by auto. f_equal. symmetry. apply filter_all.
    apply Forall_forall. intros x Hx ->. done.
  - rewrite (IH Nd), filter_cons_True by done. repeat case_decide; try done; set_solver.
Qed.

(** Where an interface is found: the first of that name and number. *)
Definition called (c0 c1 k : Z) (nif : netif) : bool := (k =? num nif) && (c0 =? (name nif).1) && (c1 =? (name nif).2).

Lemma find_loop_app c0 c1 k l pre n post s nif : l = pre ++ n :: post ->
  (forall m, m ∈ pre -> exists x, netifs s !! m = Some x /\ called c0 c1 k x = false) ->
  netifs s !! n = Some nif -> called c0 c1 k nif = true -> find_loop (A := A) (W := W) c0 c1 k l s = Some (n, s).
Proof.
  intros ->. induction pre as [|m pre IH]; intros Hpre En Hc; cbn [app find_loop]; unfold bind, the_netif, gets.
  - rewrite En. cbn. unfold called in Hc. by rewrite Hc.
  - destruct (Hpre m) as (x & Ex & Hx); [by left|]. rewrite Ex. cbn. unfold called in Hx. rewrite Hx. apply IH; [|done|done].
    intros. apply Hpre. by right.
Qed.

(** An interface that is up is taken down. *)
Definition taken_down (nif : netif) : netif := flagged (fun x => if netif_is_up nif then clear_flag NETIF_FLAG_UP x else x) nif.

Lemma taken_down_is_down nif : netif_is_up (taken_down nif) = false.
Proof.
  unfold netif_is_up at 1, taken_down. cbn [flagged set_n_flags n_flags].
  destruct (netif_is_up nif) eqn:D; [|exact D]. unfold clear_flag. by rewrite <-Z.land_assoc, Z.land_0_r.
Qed.

Lemma wp_taken_down n nif extra R s : net_inv s extra R -> Z.of_nat (length extra) < 49998 -> netifs s !! n = Some nif ->
  wp (when (netif_is_up nif) (netif_set_down n)) (fun _ s' => net_inv s' extra R /\ nframe extra s s' /\
    netifs s' = <[n := taken_down nif]> (netifs s) /\
    (netif_is_up nif = true -> has_flag NETIF_FLAG_ETHARP nif = true -> status_callback nif = 0 ->
      cache (arp_table s') = omap (off n) (cache (arp_table s)))) s.
Proof.
  intros I Hx En. apply wp_when; intros D.
  - eapply wp_netif_down; [done|done|done|]. intros. eauto.
  - split; [done|]. split; [apply nframe_refl|]. split; [|congruence]. symmetry. apply insert_id. rewrite En.
    f_equal. unfold taken_down. rewrite D. by destruct nif.
Qed.

(** C36: [netif_set_ipaddr] to another address aborts exactly the TCP
    connections that are bound to the old one, unless that is link-local, moves
    the listeners that are bound to it to the new one, and changes nothing else
    of the connections, the interfaces and the packets; to the same address it
    changes nothing. *)
Theorem netif_set_ipaddr_correct n nif ip extra R s : net_inv s extra R -> Z.of_nat (length extra) < 49998 ->
  netifs s !! n = Some nif ->
  exists s', netif_set_ipaddr n (Some ip) s = Some (tt, s') /\ net_inv s' extra R /\ nframe extra s s' /\
    netifs s' = <[n := set_ip_addr ip nif]> (netifs s) /\
    (ip = ip_addr nif -> world s' = world s) /\
    (ip ≠ ip_addr nif ->
      tcp_active (world s') =
        filter (fun pcb => ~ (pcb.2 = ip_addr nif /\ ip_addr_islinklocal pcb.2 = false)) (tcp_active (world s)) /\
      tcp_listen (world s') =
        (fun pcb => if negb (pcb.2 =? 0) && (pcb.2 =? ip_addr nif) then (pcb.1, ip) else pcb) <$> tcp_listen (world s)).
Proof.
  intros I Hx En.
  apply wp_ex. eapply wp_set_ipaddr; [done|done|done|]. intros s' I' F' N' A'. do 3 (split; [done|]). unfold readdressed in A'.
  split; intros Hip.
  - subst ip. by rewrite Z.eqb_refl in A'.
  - rewrite (proj2 (Z.eqb_neq _ _)) in A' by done. destruct A' as [A1 A2]. split; [|exact A2]. rewrite A1.
    apply list_filter_iff. intros [p i]. unfold survives. cbn. destruct (ip_addr_islinklocal i); naive_solver.
Qed.

(** [netif_remove] of an interface takes it down, so that the hosts the
    ARP table knows through it are forgotten, takes it out of the list and, if it
    was the default, leaves none; the other interfaces and the packets stay as
    they are.  An interface that is not in the list is only taken down. *)
Theorem netif_remove_correct n nif extra R s : net_inv s extra R -> Z.of_nat (length extra) < 49998 -> n ≠ 0 ->
  netifs s !! n = Some nif -> NoDup (netif_list s) ->
  exists s', netif_remove n s = Some (tt, s') /\ net_inv s' extra R /\ same_packets (ps s) (ps s') extra /\
    netif_list s' = filter (fun m => m ≠ n) (netif_list s) /\
    netif_default s' = (if decide (n ∈ netif_list s /\ netif_default s = n) then 0 else netif_default s) /\
    (forall m, m ≠ n -> netifs s' !! m = netifs s !! m) /\
    (exists nif', netifs s' !! n = Some nif' /\ netif_is_up nif' = false /\ ip_addr nif' = ip_addr nif) /\
    (netif_is_up nif = true -> has_flag NETIF_FLAG_ETHARP nif = true -> status_callback nif = 0 ->
      cache (arp_table s') = omap (off n) (cache (arp_table s))).
Proof.
  intros I Hx Hn En Nd. apply wp_ex.
  unfold netif_remove. rewrite (proj2 (Z.eqb_neq n 0)) by done. apply wp_bind. eapply wp_the_netif; [done|]. apply wp_bind.
  eapply wp_mono; [by eapply wp_taken_down|]. intros [] s1 (I1 & F1 & N1 & C1).
  assert (exists nif', netifs s1 !! n = Some nif' /\ netif_is_up nif' = false /\ ip_addr nif' = ip_addr nif) as Hd.
  { rewrite N1, lookup_insert_eq. eexists. split; [done|]. split; [apply taken_down_is_down|done]. }
  assert (forall m, m ≠ n -> netifs s1 !! m = netifs s !! m) as Ho by (intros; by rewrite N1, lookup_insert_ne).
  destruct F1 as [L1 D1 _ _ _ P1]. apply wp_bind. eapply wp_gets; [done|]. rewrite L1, unlink_filter by done. case_decide as Hl.
  - apply wp_bind, wp_modify, wp_bind. eapply wp_gets; [done|]. cbn [netif_default with_list]. rewrite D1.
    apply wp_when; intros Hd1.
    + apply Z.eqb_eq in Hd1. apply wp_modify. split; [by destruct I1|]. rewrite decide_True by done. done.
    + apply Z.eqb_neq in Hd1. split; [by destruct I1|]. rewrite decide_False by tauto. done.
  - apply wp_ret. split; [done|]. rewrite decide_False by tauto. rewrite filter_all; [done|].
    apply Forall_forall. by intros x Hx' ->.
Qed.

(** [netif_add] configures the interface with the addresses given, puts it
    at the front of the list with the next number and lets [netif_find] find it
    by the name the driver gave it; when the driver's initialisation fails it
    returns NULL and the list stays. *)
Theorem netif_add_correct n nif ip m g init extra R s : net_inv s extra R -> Z.of_nat (length extra) < 49998 ->
  netifs s !! n = Some nif -> n ∉ netif_list s -> init_ok n init extra R -> 0 <= netif_num s < 256 ->
  exists r s', netif_add n (Some ip) (Some m) (Some g) init s = Some (r, s') /\ exists nif', net_inv s' extra R /\
    same_packets (ps s) (ps s') extra /\ netifs s' = <[n := nif']> (netifs s) /\
    ip_addr nif' = ip /\ netmask nif' = m /\ gw nif' = g /\ num nif' = netif_num s /\
    netif_num s' = u8 (netif_num s + 1) /\ netif_default s' = netif_default s /\
    ((r = 0 /\ netif_list s' = netif_list s) \/
     (r = n /\ netif_list s' = n :: netif_list s /\
      forall c, u8 (c - 48) = netif_num s -> netif_find (Some (name nif', c)) s' = Some (n, s'))).
Proof.
  intros I Hx En Hl Hi Hnum. apply wp_run. unfold netif_add. apply wp_bind. eapply wp_gets; [done|]. apply wp_bind. eapply wp_the_netif; [done|].
  apply wp_bind, (wp_set_netif' n nif _ extra R); [done|done|done|]. intros s1 I1 F1 N1.
  apply wp_bind, wp_modify. set (s2 := with_num (u8 (netif_num s + 1)) s1).
  assert (net_inv s2 extra R) as I2 by (by destruct I1). apply wp_bind.
  eapply wp_set_addr; [exact I2|done|cbn [netifs s2 with_num]; rewrite N1; apply lookup_insert_eq|].
  intros s3 I3 F3 N3 _. cbn [netifs s2 with_num] in N3. rewrite N1, insert_insert_eq in N3. cbn [set_gw set_netmask set_ip_addr] in N3.
  apply wp_bind. eapply wp_mono; [eapply Hi; [exact I3|rewrite N3; apply lookup_insert_eq]|].
  intros e s4 (I4 & F4 & nif' & N4 & Hnum' & Hip & Hm & Hg). rewrite N3, insert_insert_eq in N4. cbn in Hnum', Hip, Hm, Hg.
  destruct F1 as [L1 D1 _ _ _ P1], F3 as [L3 D3 M3 _ _ P3], F4 as [L4 D4 M4 _ _ P4].
  assert (same_packets (ps s) (ps s4) extra) as P.
  { eapply same_packets_trans; [exact P1|]. eapply same_packets_trans; [exact P3|exact P4]. }
  assert (netif_list s4 = netif_list s) as L by (rewrite L4, L3; exact L1).
  assert (netif_default s4 = netif_default s) as D by (rewrite D4, D3; exact D1).
  assert (netif_num s4 = u8 (netif_num s + 1)) as Nm by (rewrite M4, M3; done).
  destruct (e =? ERR_OK); cbn [negb].
  - apply wp_bind, (wp_gets _ (netif_list s)); [rewrite L; by rewrite decide_False|].
    apply wp_bind, wp_modify, wp_ret. exists nif'. split; [by destruct I4|]. do 8 (split; [done|]). right.
    split; [done|]. split; [done|]. intros c Hc. unfold netif_find. destruct (name nif') as [c0 c1] eqn:Hname.
    unfold bind, gets. cbn [mbind option_bind netif_list with_list].
    eapply (find_loop_app _ _ _ _ [] n _ _ nif'); [done|set_solver|cbn; rewrite N4; apply lookup_insert_eq|].
    unfold called. rewrite Hname, Hc, Hnum'. cbn [fst snd]. by rewrite !Z.eqb_refl.
  - apply wp_ret. exists nif'. do 9 (split; [done|]). by left.
Qed.

End Correct.

(** ** A system without DHCP and IP

    The upper protocols over the driver of [Wire]: TCP drops the connections it
    aborts, incoming IP packets are freed, the application has no callback. *)

#[export] Instance wire_upper {A} {ops : alloc_ops A} : upper_ops A wire := {
  status_cb _ _ := ret tt;
  tcp_active := w_active;
  tcp_listen := w_listen;
  set_tcp_listen l w := mk_wire (frames w) (w_active w) l;
  tcp_abort pcb :=
    modify (fun s => with_world (mk_wire (frames (world s)) (filter (fun x => x.1 ≠ pcb) (w_active (world s))) (w_listen (world s))) s);
  dhcp_network_changed _ := ret tt;
  dhcp_arp_reply _ _ := ret tt }.

Lemma calm_keeps {A W} extra (s s' : net A W) : calm extra s s' -> same_packets (ps s) (ps s') extra /\ keeps s s'.
Proof.
  intros [Hn Hl Hd _ Ha Hc Hp]. split; [done|]. split; [|done| |].
  - intros n nif. rewrite Hn. eauto.
  - intros []. split; rewrite ?Hn, ?Hl, ?Ha; done.
  - intros []. split; rewrite ?Hn, ?Hl, ?Hd, ?Hc; done.
Qed.

Lemma frame_keeps {A W} extra (s s' : net A W) : frame extra s s' -> same_packets (ps s) (ps s') extra /\ keeps s s'.
Proof. intros F. by apply calm_keeps, frame_calm. Qed.

#[export] Instance wire_upper_laws {A} {ops : alloc_ops A} {laws : alloc_laws A} : upper_laws A wire.
Proof.
  split.
  - intros. apply wp_ret. split; [done|apply calm_refl].
  - done.
  - done.
  - intros pcb s extra R I Hx Hin. apply wp_modify. split; [|split; [|done]].
    + destruct I as [? [Nd Nz]]. split; try done. cbn [world with_world]. split; cbn [w_active].
      * eapply sublist_NoDup; [exact Nd|]. apply fmap_sublist, sublist_filter.
      * intros Hz. apply Nz. apply list_elem_of_fmap in Hz as (x & -> & Hx'). apply list_elem_of_filter in Hx' as [_ Hx'].
        by apply list_elem_of_fmap_2.
    + split; try done. apply same_packets_refl.
  - intros n s extra R I _ _. apply wp_ret. split; [done|]. apply frame_keeps, frame_refl.
  - intros n ip s extra R I _ _. apply wp_ret. split; [done|]. apply frame_keeps, frame_refl.
Qed.

(** From 192.168.0.2 to 10.0.0.2: connection 1 is aborted, listener 5 moves. *)
Lemma netif_set_ipaddr_correct_witness :
  exists s', netif_set_ipaddr 0x100 (Some 0x0200000a) net1 = Some (tt, s') /\ net_inv s' [pk] [] /\ nframe [pk] net1 s' /\
    w_active (world s') = [(2, 0); (3, 0x0200fea9)] /\ w_listen (world s') = [(4, 0); (5, 0x0200000a)].
Proof.
  destruct (netif_set_ipaddr_correct 0x100 demo_netif 0x0200000a [pk] [] net1 net1_inv ltac:(done)
    (lookup_singleton_eq _ _)) as (s' & E & I & F & N & _ & H).
  exists s'. split; [exact E|]. split; [exact I|]. split; [exact F|].
  destruct (H ltac:(done)) as [Ha Hl]. split; [exact (eq_trans Ha eq_refl)|exact (eq_trans Hl eq_refl)].
Defined.

Lemma netif_remove_correct_witness :
  exists s', netif_remove 0x100 net1 = Some (tt, s') /\ net_inv s' [pk] [] /\ netif_list s' = [] /\ netif_default s' = 0.
Proof.
  destruct (netif_remove_correct 0x100 demo_netif [pk] [] net1 net1_inv ltac:(done) ltac:(done)
    (lookup_singleton_eq _ _) (NoDup_singleton _)) as (s' & E & I & P & L & D & _).
  exists s'. split; [exact E|]. split; [exact I|]. rewrite L, D. split; reflexivity.
Defined.

(** A second interface, which its driver names en. *)
Definition net1_two : net lwip_mem wire := with_netifs {[0x100 := demo_netif; 0x200 := demo_netif]} net1.
Definition demo_init (n : Z) : M lwip_mem wire Z :=
  set_the_netif n (fun x => mk_netif (ip_addr x) (netmask x) (gw x) (status_callback x) (dhcp x) (n_autoip x) (mtu x)
    (hwaddr x) (n_flags demo_netif) (101, 110) (num x)) ;;
  ret ERR_OK.

Lemma demo_init_ok : init_ok 0x200 demo_init [pk] [].
Proof.
  intros s nif I En. apply wp_bind, (wp_set_netif _ _ [pk] []); [done|done|]. intros s' I' F' N' _ _. apply wp_ret.
  split; [done|]. split; [done|]. rewrite (alter_some _ _ _ nif) in N' by done. by eexists.
Qed.

Lemma net1_two_inv : net_inv net1_two [pk] [].
Proof. destruct net1_inv. split; try done. by apply (bool_decide_unpack _). Qed.

Lemma netif_add_correct_witness :
  exists s', netif_add 0x200 (Some 0x0200000a) (Some 0xff) (Some 0x0100000a) demo_init net1_two = Some (0x200, s') /\
    net_inv s' [pk] [] /\ netif_list s' = [0x200; 0x100] /\ netif_find (Some (101, 110, 49)) s' = Some (0x200, s').
Proof.
  destruct (netif_add_correct 0x200 demo_netif 0x0200000a 0xff 0x0100000a demo_init [pk] [] net1_two net1_two_inv ltac:(done)
    eq_refl ltac:(by apply (bool_decide_unpack _)) demo_init_ok ltac:(done))
    as (r & s' & E & nif' & I & P & N & _ & _ & _ & _ & _ & _ & H).
  assert (r = 0x200) as ->.
  { assert (fst <$> netif_add 0x200 (Some 0x0200000a) (Some 0xff) (Some 0x0100000a) demo_init net1_two = Some 0x200) as E'
      by (vm_compute; reflexivity). rewrite E in E'. cbn in E'. congruence. }
  destruct H as [[H _]|(_ & L & H)]; [done|]. exists s'. split; [exact E|]. split; [exact I|]. split; [exact L|].
  assert (name nif' = (101, 110)) as <-.
  { assert ((x ← netif_add 0x200 (Some 0x0200000a) (Some 0xff) (Some 0x0100000a) demo_init net1_two;
      name <$> netifs x.2 !! 0x200) = Some (101, 110)) as E'
      by (vm_compute; reflexivity). rewrite E in E'. cbn [mbind option_bind snd] in E'. rewrite N, lookup_insert_eq in E'. by injection E'. }
  exact (H 49 eq_refl).
Defined.

End Netif.
