(* ===== verification/Autoip.v ===== *)
(** * Link-local addresses

    [autoip.c]: an interface without other configuration takes an address of
    169.254/16 as RFC 3927 says.  It probes three times for the address, binds
    it, announces it twice, and on a conflict defends it or tries another one.
    [netif_set_link_up] of netif.c is here too, since it restarts the probing.

    The theorems describe a client by its interface and its [struct autoip]
    ([client]): [advance] is a tick of the timer and [heard] an ARP packet, as
    functions of this pair, and [autoip_tmr] and [autoip_arp_reply] do exactly
    that, whatever the driver and the callbacks do. *)
From S2P Require Import Prelude Alloc Pbuf PbufData Chksum IpAddr Refs Net Etharp Wire ArpCache Netif.
Import Alloc Pbuf PbufData Refs Net Etharp Wire ArpCache Netif.

Module Autoip.
Local Open Scope net_scope.

(** ** Constants *)

Definition AUTOIP_NET : Z := 0xA9FE0000.
Definition AUTOIP_RANGE_START : Z := Z.lor AUTOIP_NET 0x0100.
Definition AUTOIP_RANGE_END : Z := Z.lor AUTOIP_NET 0xFEFF.
Definition AUTOIP_TMR_INTERVAL : Z := 100.
Definition AUTOIP_TICKS_PER_SECOND : Z := 1000 / AUTOIP_TMR_INTERVAL.
Definition PROBE_WAIT : Z := 1.
Definition PROBE_MIN : Z := 1.
Definition PROBE_MAX : Z := 2.
Definition PROBE_NUM : Z := 3.
Definition ANNOUNCE_NUM : Z := 2.
Definition ANNOUNCE_INTERVAL : Z := 2.
Definition ANNOUNCE_WAIT : Z := 2.
Definition MAX_CONFLICTS : Z := 10.
Definition RATE_LIMIT_INTERVAL : Z := 60.
Definition DEFEND_INTERVAL : Z := 10.

Definition set_llipaddr (x : Z) (a : autoip) : autoip :=
  mk_autoip x (a_state a) (sent_num a) (ttw a) (lastconflict a) (tried_llipaddr a).
Definition set_a_state (x : Z) (a : autoip) : autoip :=
  mk_autoip (llipaddr a) x (sent_num a) (ttw a) (lastconflict a) (tried_llipaddr a).
Definition set_sent_num (x : Z) (a : autoip) : autoip :=
  mk_autoip (llipaddr a) (a_state a) x (ttw a) (lastconflict a) (tried_llipaddr a).
Definition set_ttw (x : Z) (a : autoip) : autoip :=
  mk_autoip (llipaddr a) (a_state a) (sent_num a) x (lastconflict a) (tried_llipaddr a).
Definition set_lastconflict (x : Z) (a : autoip) : autoip :=
  mk_autoip (llipaddr a) (a_state a) (sent_num a) (ttw a) x (tried_llipaddr a).
Definition set_tried (x : Z) (a : autoip) : autoip :=
  mk_autoip (llipaddr a) (a_state a) (sent_num a) (ttw a) (lastconflict a) x.

(** memset to 0, and the size of the struct *)
Definition no_autoip : autoip := mk_autoip 0 0 0 0 0 0.
Definition SIZEOF_STRUCT_AUTOIP : Z := 12.

(** The bytes of the hardware address. *)
Definition hw (nif : netif) (k : nat) : Z := nth k (hwaddr nif) 0.

(** LWIP_AUTOIP_RAND; [tried] is 0 without a client. *)
Definition LWIP_AUTOIP_RAND (nif : netif) (tried : Z) : Z :=
  u32 (Z.lor (Z.lor (Z.lor (Z.shiftl (Z.land (hw nif 5) 0xff) 24) (Z.shiftl (Z.land (hw nif 3) 0xff) 16))
                    (Z.shiftl (Z.land (hw nif 2) 0xff) 8)) (Z.land (hw nif 4) 0xff) + tried).

Definition LWIP_AUTOIP_CREATE_SEED_ADDR (nif : netif) : Z :=
  Chksum.lwip_htonl (u32 (AUTOIP_RANGE_START + Z.lor (u8 (hw nif 4)) (Z.shiftl (u8 (hw nif 5)) 8))).

(** The address [autoip_create_addr] makes. *)
Definition create_addr (nif : netif) (tried : Z) : Z :=
  let addr := Chksum.lwip_ntohl (LWIP_AUTOIP_CREATE_SEED_ADDR nif) in
  let addr := u32 (addr + tried) in
  let addr := Z.lor AUTOIP_NET (Z.land addr 0xffff) in
  let addr := if addr <? AUTOIP_RANGE_START then u32 (addr + (AUTOIP_RANGE_END - AUTOIP_RANGE_START + 1)) else addr in
  let addr := if AUTOIP_RANGE_END <? addr then u32 (addr - (AUTOIP_RANGE_END - AUTOIP_RANGE_START + 1)) else addr in
  Chksum.lwip_htonl addr.

(** ** Operations *)

Section Operations.
Context {A W : Type} {ops : alloc_ops A} {lops : link_ops A W} {uops : upper_ops A W}.

Definition mem_malloc (size : Z) : M A W Z :=
  pbufs (fun s => '(p, a) ← malloc size (al s); Some (p, with_al a s)).

(** Through a pointer. *)
Definition set_autoip_at (p : Z) (f : autoip -> autoip) : M A W unit :=
  modify (fun s => with_autoips (alter f p (autoips s)) s).

(** [netif->autoip], to be read and written through; NULL must not be. *)
Definition the_autoip (n : Z) : M A W autoip :=
  nif <- the_netif n ;;
  gets (fun s => if n_autoip nif =? 0 then None else autoips s !! n_autoip nif).
Definition set_the_autoip (n : Z) (f : autoip -> autoip) : M A W unit :=
  nif <- the_netif n ;;
  set_autoip_at (n_autoip nif) f.

(** [autoip] is a struct of the caller. *)
Definition autoip_set_struct (n autoip : Z) : M A W unit :=
  modify (fun s => with_autoips (<[autoip := no_autoip]> (autoips s)) s) ;;
  set_the_netif n (set_autoip autoip).

Definition autoip_create_addr (n : Z) : M A W Z :=
  nif <- the_netif n ;;
  a <- the_autoip n ;;
  ret (create_addr nif (tried_llipaddr a)).

Definition autoip_arp_probe (n : Z) : M A W Z :=
  nif <- the_netif n ;;
  a <- the_autoip n ;;
  etharp_raw n (hwaddr nif) ethbroadcast (hwaddr nif) 0 ethzero (llipaddr a) ARP_REQUEST.

Definition autoip_arp_announce (n : Z) : M A W Z :=
  nif <- the_netif n ;;
  a <- the_autoip n ;;
  etharp_raw n (hwaddr nif) ethbroadcast (hwaddr nif) (llipaddr a) ethzero (llipaddr a) ARP_REQUEST.

Definition autoip_bind (n : Z) : M A W Z :=
  a <- the_autoip n ;;
  netif_set_ipaddr n (Some (llipaddr a)) ;;
  netif_set_netmask n (Some (Chksum.lwip_htonl 0xffff0000)) ;;
  netif_set_gw n (Some (Chksum.lwip_htonl 0)) ;;
  netif_set_up n ;;
  ret ERR_OK.

Definition autoip_start_probing (n : Z) : M A W unit :=
  set_the_autoip n (set_a_state AUTOIP_STATE_PROBING) ;;
  set_the_autoip n (set_sent_num 0) ;;
  nif <- the_netif n ;;
  a <- the_autoip n ;;
  set_the_autoip n (set_ttw (u16 (LWIP_AUTOIP_RAND nif (tried_llipaddr a) mod (PROBE_WAIT * AUTOIP_TICKS_PER_SECOND)))) ;;
  when (MAX_CONFLICTS <? tried_llipaddr a)
    (set_the_autoip n (set_ttw (RATE_LIMIT_INTERVAL * AUTOIP_TICKS_PER_SECOND))).

Definition autoip_start (n : Z) : M A W Z :=
  nif <- the_netif n ;;
  when (netif_is_up nif) (netif_set_down n) ;;
  set_the_netif n (set_ip_addr 0) ;;
  set_the_netif n (set_netmask 0) ;;
  set_the_netif n (set_gw 0) ;;
  e <- (if n_autoip nif =? 0 then
          autoip <- mem_malloc SIZEOF_STRUCT_AUTOIP ;;
          if autoip =? 0 then ret ERR_MEM
          else
            modify (fun s => with_autoips (<[autoip := no_autoip]> (autoips s)) s) ;;
            set_the_netif n (set_autoip autoip) ;;
            ret ERR_OK
        else
          set_autoip_at (n_autoip nif) (set_a_state AUTOIP_STATE_OFF) ;;
          set_autoip_at (n_autoip nif) (set_ttw 0) ;;
          set_autoip_at (n_autoip nif) (set_sent_num 0) ;;
          set_autoip_at (n_autoip nif) (set_llipaddr 0) ;;
          set_autoip_at (n_autoip nif) (set_lastconflict 0) ;;
          ret ERR_OK) ;;
  if negb (e =? ERR_OK) then ret e
  else
    ip <- autoip_create_addr n ;;
    set_the_autoip n (set_llipaddr ip) ;;
    autoip_start_probing n ;;
    ret ERR_OK.

Definition autoip_restart (n : Z) : M A W unit :=
  set_the_autoip n (fun a => set_tried (u8 (tried_llipaddr a + 1)) a) ;;
  autoip_start n ;;
  ret tt.

(** [defend] is the constant 1. *)
Definition autoip_handle_arp_conflict (n : Z) : M A W unit :=
  a <- the_autoip n ;;
  if 0 <? lastconflict a then autoip_restart n
  else
    autoip_arp_announce n ;;
    set_the_autoip n (set_lastconflict (DEFEND_INTERVAL * AUTOIP_TICKS_PER_SECOND)).

Definition autoip_network_changed (n : Z) : M A W unit :=
  nif <- the_netif n ;;
  if n_autoip nif =? 0 then ret tt
  else
    a <- the_autoip n ;;
    when (negb (a_state a =? AUTOIP_STATE_OFF))
      (netif_set_down n ;;
       autoip_start_probing n).

Definition autoip_stop (n : Z) : M A W Z :=
  a <- the_autoip n ;;
  set_the_autoip n (set_a_state AUTOIP_STATE_OFF) ;;
  netif_set_down n ;;
  ret ERR_OK.

(** The cases of the switch in [autoip_tmr]. *)
Definition tmr_probing (n : Z) : M A W unit :=
  a <- the_autoip n ;;
  if 0 <? ttw a then set_the_autoip n (fun a => set_ttw (u16 (ttw a - 1)) a)
  else if PROBE_NUM <=? sent_num a then
    set_the_autoip n (set_a_state AUTOIP_STATE_ANNOUNCING) ;;
    set_the_autoip n (set_sent_num 0) ;;
    set_the_autoip n (set_ttw (ANNOUNCE_WAIT * AUTOIP_TICKS_PER_SECOND))
  else
    autoip_arp_probe n ;;
    set_the_autoip n (fun a => set_sent_num (u8 (sent_num a + 1)) a) ;;
    nif <- the_netif n ;;
    a <- the_autoip n ;;
    set_the_autoip n (set_ttw (u16 (LWIP_AUTOIP_RAND nif (tried_llipaddr a)
        mod ((PROBE_MAX - PROBE_MIN) * AUTOIP_TICKS_PER_SECOND) + PROBE_MIN * AUTOIP_TICKS_PER_SECOND))).

Definition tmr_announcing (n : Z) : M A W unit :=
  a <- the_autoip n ;;
  if 0 <? ttw a then set_the_autoip n (fun a => set_ttw (u16 (ttw a - 1)) a)
  else
    (if sent_num a =? 0 then autoip_bind n else autoip_arp_announce n) ;;
    set_the_autoip n (set_ttw (ANNOUNCE_INTERVAL * AUTOIP_TICKS_PER_SECOND)) ;;
    set_the_autoip n (fun a => set_sent_num (u8 (sent_num a + 1)) a) ;;
    a <- the_autoip n ;;
    when (ANNOUNCE_NUM <=? sent_num a)
      (set_the_autoip n (set_a_state AUTOIP_STATE_BOUND) ;;
       set_the_autoip n (set_sent_num 0) ;;
       set_the_autoip n (set_ttw 0)).

(** The body of the loop of [autoip_tmr]. *)
Definition tmr_netif (n : Z) : M A W unit :=
  nif <- the_netif n ;;
  if n_autoip nif =? 0 then ret tt
  else
    a <- the_autoip n ;;
    when (0 <? lastconflict a) (set_the_autoip n (fun a => set_lastconflict (u8 (lastconflict a - 1)) a)) ;;
    a <- the_autoip n ;;
    if a_state a =? AUTOIP_STATE_PROBING then tmr_probing n
    else if a_state a =? AUTOIP_STATE_ANNOUNCING then tmr_announcing n
    else ret tt.

Fixpoint for_netifs (l : list Z) (body : Z -> M A W unit) : M A W unit :=
  match l with
  | [] => ret tt
  | n :: l => body n ;; for_netifs l body
  end.

Definition autoip_tmr : M A W unit :=
  l <- gets (fun s => Some (netif_list s)) ;;
  for_netifs l tmr_netif.

(** [hdr] is given by its fields [sipaddr], [dipaddr] and [shwaddr]. *)
Definition autoip_arp_reply (n sipaddr dipaddr : Z) (shwaddr : list Z) : M A W unit :=
  nif <- the_netif n ;;
  if n_autoip nif =? 0 then ret tt
  else
    a <- the_autoip n ;;
    if a_state a =? AUTOIP_STATE_OFF then ret tt
    else if (a_state a =? AUTOIP_STATE_PROBING) || ((a_state a =? AUTOIP_STATE_ANNOUNCING) && (sent_num a =? 0)) then
      when ((sipaddr =? llipaddr a) || (dipaddr =? llipaddr a) && negb (bool_decide (hwaddr nif = shwaddr)))
        (autoip_restart n)
    else
      when ((sipaddr =? llipaddr a) && negb (bool_decide (hwaddr nif = shwaddr)))
        (autoip_handle_arp_conflict n).

(** [netif_set_link_up] of netif.c *)
Definition netif_set_link_up (n : Z) : M A W unit :=
  nif <- the_netif n ;;
  when (negb (has_flag NETIF_FLAG_LINK_UP nif))
    (set_the_netif n (fun nif => set_n_flags (Z.lor (n_flags nif) NETIF_FLAG_LINK_UP) nif) ;;
     when (negb (dhcp nif =? 0)) (dhcp_network_changed n) ;;
     nif <- the_netif n ;;
     when (negb (n_autoip nif =? 0)) (autoip_network_changed n) ;;
     nif <- the_netif n ;;
     when (netif_is_up nif && has_flag NETIF_FLAG_ETHARP nif)
       (etharp_gratuitous n ;; ret tt)).

End Operations.

(** ** A client *)

(** The interface and struct after: a conflict or a start; a start of probing. *)
Definition probing (nif : netif) (a : autoip) : autoip :=
  mk_autoip (llipaddr a) AUTOIP_STATE_PROBING 0
    (if 10 <? tried_llipaddr a then 600 else LWIP_AUTOIP_RAND nif (tried_llipaddr a) mod 10)
    (lastconflict a) (tried_llipaddr a).
Definition unconfigured (nif : netif) : netif := set_gw 0 (set_netmask 0 (set_ip_addr 0 (taken_down nif))).
Definition restarted (nif : netif) (tried : Z) : autoip :=
  probing nif (mk_autoip (create_addr nif tried) AUTOIP_STATE_OFF 0 0 0 tried).

Lemma restarted_eq nif tried :
  mk_autoip (create_addr nif tried) AUTOIP_STATE_PROBING 0 (ttw (restarted nif tried)) 0 tried = restarted nif tried.
Proof. unfold restarted, probing. cbn [llipaddr lastconflict tried_llipaddr ttw]. reflexivity. Qed.

(** The wait between two probes. *)
Definition probe_wait (nif : netif) (a : autoip) : Z := LWIP_AUTOIP_RAND nif (tried_llipaddr a) mod 10 + 10.

(** The interface when the address is taken. *)
Definition bound (nif : netif) (a : autoip) : netif :=
  let nif := set_gw 0 (set_netmask 0xffff (set_ip_addr (llipaddr a) nif)) in
  if netif_is_up nif then nif else set_n_flags (Z.lor (n_flags nif) NETIF_FLAG_UP) nif.

(** A tick of the timer. *)
Definition advance (x : netif * autoip) : netif * autoip :=
  let '(nif, a) := x in
  let a := set_lastconflict (Z.max 0 (lastconflict a - 1)) a in
  if a_state a =? AUTOIP_STATE_PROBING then
    if 0 <? ttw a then (nif, set_ttw (ttw a - 1) a)
    else if 3 <=? sent_num a then (nif, set_ttw 20 (set_sent_num 0 (set_a_state AUTOIP_STATE_ANNOUNCING a)))
    else (nif, set_ttw (probe_wait nif a) (set_sent_num (sent_num a + 1) a))
  else if a_state a =? AUTOIP_STATE_ANNOUNCING then
    if 0 <? ttw a then (nif, set_ttw (ttw a - 1) a)
    else
      (if sent_num a =? 0 then bound nif a else nif,
       if sent_num a =? 0 then set_ttw 20 (set_sent_num 1 a)
       else set_ttw 0 (set_sent_num 0 (set_a_state AUTOIP_STATE_BOUND a)))
  else (nif, a).

(** An ARP packet with these addresses. *)
Definition heard (sip dip : Z) (shw : list Z) (x : netif * autoip) : netif * autoip :=
  let '(nif, a) := x in
  let retreat := (unconfigured nif, restarted nif ((tried_llipaddr a + 1) mod 256)) in
  if a_state a =? AUTOIP_STATE_OFF then x
  else if (a_state a =? AUTOIP_STATE_PROBING) || (a_state a =? AUTOIP_STATE_ANNOUNCING) && (sent_num a =? 0) then
    if (sip =? llipaddr a) || (dip =? llipaddr a) && negb (bool_decide (hwaddr nif = shw)) then retreat else x
  else
    if (sip =? llipaddr a) && negb (bool_decide (hwaddr nif = shw)) then
      if 0 <? lastconflict a then retreat else (nif, set_lastconflict 100 a)
    else x.

(** A change of the network; the link comes up, or goes down. *)
Definition changed (x : netif * autoip) : netif * autoip :=
  let '(nif, a) := x in
  if a_state a =? AUTOIP_STATE_OFF then x else (taken_down nif, probing nif a).
Definition link_raised (x : netif * autoip) : netif * autoip :=
  let '(nif, a) := x in
  if has_flag NETIF_FLAG_LINK_UP nif then x
  else changed (set_n_flags (Z.lor (n_flags nif) NETIF_FLAG_LINK_UP) nif, a).
Definition link_dropped (x : netif * autoip) : netif * autoip :=
  let '(nif, a) := x in
  if has_flag NETIF_FLAG_LINK_UP nif then (set_n_flags (clear_flag NETIF_FLAG_LINK_UP (n_flags nif)) nif, a) else x.

(** Only the hardware address matters. *)
Lemma create_addr_hw nif nif' tried : hwaddr nif' = hwaddr nif -> create_addr nif' tried = create_addr nif tried.
Proof. unfold create_addr, LWIP_AUTOIP_CREATE_SEED_ADDR, hw. by intros ->. Qed.

Lemma rand_hw nif nif' tried : hwaddr nif' = hwaddr nif -> LWIP_AUTOIP_RAND nif' tried = LWIP_AUTOIP_RAND nif tried.
Proof. unfold LWIP_AUTOIP_RAND, hw. by intros ->. Qed.

Lemma probing_hw nif nif' a : hwaddr nif' = hwaddr nif -> probing nif' a = probing nif a.
Proof. intros. unfold probing. by rewrite (rand_hw nif nif'). Qed.

(** ** Addresses *)

(** The low half of the address, folded into the range. *)
Definition fold (v : Z) : Z := if v <? 0x100 then v + 0xFE00 else if 0xFEFF <? v then v - 0xFE00 else v.

Lemma lor_net v : 0 <= v < 65536 -> Z.lor AUTOIP_NET v = AUTOIP_NET + v.
Proof. intros. change AUTOIP_NET with (Z.shiftl 0xA9FE 16). rewrite lor_shiftl_add by (cint_pow; lia). done. Qed.

Lemma fold_range v : 0 <= v < 65536 -> 0x100 <= fold v <= 0xFEFF.
Proof. intros. unfold fold. destruct (Z.ltb_spec v 256); [lia|]. destruct (Z.ltb_spec 0xFEFF v); lia. Qed.

Lemma create_addr_fold nif : exists x, 0 <= x < 65536 /\
  forall t, in_u 8 t -> create_addr nif t = Chksum.lwip_htonl (AUTOIP_NET + fold ((0x100 + x + t) mod 65536)).
Proof.
  set (h4 := u8 (hw nif 4)). set (h5 := u8 (hw nif 5)).
  assert (in_u 8 h4 /\ in_u 8 h5) as [H4 H5] by (split; apply wrap_range; lia). unfold in_u in H4, H5. cint_pow.
  exists (h5 * 256 + h4). split; [lia|]. intros t Ht. unfold create_addr, LWIP_AUTOIP_CREATE_SEED_ADDR. fold h4 h5.
  rewrite (Z.lor_comm h4), lor_shiftl_add by (cint_pow; lia). change (2 ^ 8) with 256.
  assert (in_u 32 (AUTOIP_RANGE_START + (h5 * 256 + h4))) as Hs by (unfold in_u; cint_pow; change AUTOIP_RANGE_START with 0xA9FE0100; lia).
  rewrite (wrap_id 32 _ Hs). rewrite (proj1 (Chksum.htonl_reverse _ Hs)). unfold in_u in Ht. cint_pow.
  rewrite wrap_id by (unfold in_u; cint_pow; change AUTOIP_RANGE_START with 0xA9FE0100; lia).
  change 0xffff with (Z.ones 16). rewrite Z.land_ones by lia. change (2 ^ 16) with 65536.
  assert ((AUTOIP_RANGE_START + (h5 * 256 + h4) + t) mod 65536 = (256 + (h5 * 256 + h4) + t) mod 65536) as ->.
  { change AUTOIP_RANGE_START with (43518 * 65536 + 256).
    replace (43518 * 65536 + 256 + (h5 * 256 + h4) + t) with (256 + (h5 * 256 + h4) + t + 43518 * 65536) by lia. by rewrite Z.mod_add. }
  set (v := (256 + (h5 * 256 + h4) + t) mod 65536). assert (0 <= v < 65536) as Hv by (apply Z.mod_pos_bound; lia).
  rewrite lor_net by done. f_equal. clearbody v. unfold fold.
  change AUTOIP_RANGE_START with (AUTOIP_NET + 0x100). change AUTOIP_RANGE_END with (AUTOIP_NET + 0xFEFF).
  replace (AUTOIP_NET + 65279 - (AUTOIP_NET + 256) + 1) with 0xFE00 by lia.
  destruct (Z.ltb_spec (AUTOIP_NET + v) (AUTOIP_NET + 256)), (Z.ltb_spec v 256); try lia.
  - rewrite wrap_id by (unfold in_u; cint_pow; change AUTOIP_NET with 0xA9FE0000; lia).
    rewrite (proj2 (Z.ltb_ge _ _)) by lia. lia.
  - destruct (Z.ltb_spec (AUTOIP_NET + 65279) (AUTOIP_NET + v)), (Z.ltb_spec 65279 v); try lia.
    rewrite wrap_id by (unfold in_u; cint_pow; change AUTOIP_NET with 0xA9FE0000; lia). lia.
Qed.

Lemma fold_inj x t t' : in_u 8 t -> in_u 8 t' -> fold ((0x100 + x + t) mod 65536) = fold ((0x100 + x + t') mod 65536) -> t = t'.
Proof.
  unfold in_u, fold. cint_pow. intros Ht Ht'.
  set (y := 0x100 + x). repeat match goal with |- context [?a <? ?b] => destruct (Z.ltb_spec a b) end;
    Z.div_mod_to_equations; lia.
Qed.

(** An address made has the first range of RFC 3927, and the 256 tries are
    different addresses. *)
Lemma create_addr_spec nif t : in_u 8 t ->
  AUTOIP_RANGE_START <= Chksum.lwip_ntohl (create_addr nif t) <= AUTOIP_RANGE_END /\
  ip_addr_islinklocal (create_addr nif t) = true /\
  (forall t', in_u 8 t' -> create_addr nif t' = create_addr nif t -> t' = t).
Proof.
  intros Ht. destruct (create_addr_fold nif) as (x & Hx & E). rewrite (E t Ht).
  assert (forall t, in_u 32 (AUTOIP_NET + fold ((256 + x + t) mod 65536))) as Hu.
  { intros t0. pose proof (fold_range ((256 + x + t0) mod 65536) (Z.mod_pos_bound _ 65536 ltac:(lia))).
    unfold in_u. cint_pow. change AUTOIP_NET with 0xA9FE0000. lia. }
  pose proof (fold_range ((256 + x + t) mod 65536) (Z.mod_pos_bound _ 65536 ltac:(lia))) as Hr.
  destruct (Chksum.htonl_reverse _ (Hu t)) as [En _]. split; [|split].
  - rewrite En. change AUTOIP_RANGE_START with (AUTOIP_NET + 0x100). change AUTOIP_RANGE_END with (AUTOIP_NET + 0xFEFF). lia.
  - unfold ip_addr_islinklocal. rewrite Chksum.htonl_bytes by done. set (v := fold _) in *. clearbody v.
    change 0xffff with (Z.ones 16). rewrite Z.land_ones by lia. apply Z.eqb_eq. change AUTOIP_NET with 0xA9FE0000.
    change (2 ^ 16) with 65536. Z.div_mod_to_equations. lia.
  - intros t' Ht'. rewrite E by done. intros H.
    assert (AUTOIP_NET + fold ((256 + x + t') mod 65536) = AUTOIP_NET + fold ((256 + x + t) mod 65536)) as H2.
    { rewrite <-(proj1 (Chksum.htonl_reverse _ (Hu t))), <-(proj1 (Chksum.htonl_reverse _ (Hu t'))). by rewrite H. }
    apply (fold_inj x); [done|done|]. lia.
Qed.

#[local] Opaque create_addr LWIP_AUTOIP_RAND.

(** ** The invariant of a client *)

(** The interface of a client that is bound, or has announced, is up with the
    address, which is the one of the number of tries. *)
Record client_inv (x : netif * autoip) : Prop := {
  ci_state : 0 <= a_state x.2 <= 3;
  ci_addr : a_state x.2 ≠ AUTOIP_STATE_OFF -> llipaddr x.2 = create_addr x.1 (tried_llipaddr x.2);
  ci_up : a_state x.2 = AUTOIP_STATE_BOUND \/ (a_state x.2 = AUTOIP_STATE_ANNOUNCING /\ 0 < sent_num x.2) ->
    ip_addr x.1 = llipaddr x.2 /\ netif_is_up x.1 = true;
  ci_dhcp : dhcp x.1 = 0;
  ci_ok : autoip_ok x.2 }.

(** What a step does with a client that it does not replace. *)
Definition follows (x x' : netif * autoip) : Prop := n_autoip x'.1 = n_autoip x.1 /\ (client_inv x -> client_inv x').

Lemma restarted_ok nif tried : in_u 8 tried -> autoip_ok (restarted nif tried).
Proof.
  intros H. pose proof (Z.mod_pos_bound (LWIP_AUTOIP_RAND nif tried) 10).
  split; cbn; try done; try lia. case_match; lia.
Qed.

Lemma probing_ok nif a : autoip_ok a -> autoip_ok (probing nif a).
Proof.
  intros []. pose proof (Z.mod_pos_bound (LWIP_AUTOIP_RAND nif (tried_llipaddr a)) 10).
  split; cbn; try done; try lia. case_match; lia.
Qed.

Lemma restarted_inv nif tried : in_u 8 tried -> dhcp nif = 0 -> client_inv (unconfigured nif, restarted nif tried).
Proof.
  intros Ht Hd. split; cbn [fst snd]; [done| | |done|by apply restarted_ok].
  - intros _. symmetry. by apply create_addr_hw.
  - by intros [H|[H _]].
Qed.

Lemma heard_follows sip dip shw x : follows x (heard sip dip shw x).
Proof.
  destruct x as [nif a]. split; [unfold heard; repeat case_match; done|]. intros [H1 H2 H3 H4 H5].
  assert (client_inv (nif, a)) as Hx by done. cbn [fst snd] in *.
  assert (client_inv (unconfigured nif, restarted nif ((tried_llipaddr a + 1) mod 256))) as Hr.
  { apply restarted_inv; [|done]. unfold in_u. cint_pow. apply Z.mod_pos_bound. lia. }
  unfold heard. repeat case_match; try done. split; cbn [fst snd]; try done. destruct H5. split; cbn; try done; lia.
Qed.

Lemma changed_follows x : follows x (changed x).
Proof.
  destruct x as [nif a]. unfold changed. destruct (Z.eqb_spec (a_state a) AUTOIP_STATE_OFF); [by split|]. split; [done|].
  intros [H1 H2 H3 H4 H5]. split; cbn [fst snd] in *; [done| | |done|by apply probing_ok].
  - intros _. etrans; [by apply H2|]. symmetry. by apply create_addr_hw.
  - by intros [H|[H _]].
Qed.

Lemma link_raised_follows x : follows x (link_raised x).
Proof.
  destruct x as [nif a]. unfold link_raised. destruct (has_flag _ _); [by split|].
  destruct (changed_follows (set_n_flags (Z.lor (n_flags nif) NETIF_FLAG_LINK_UP) nif, a)) as [Hp Hi].
  split; [done|]. intros [H1 H2 H3 H4 H5]. apply Hi. split; cbn [fst snd] in *; [exact H1| | |exact H4|exact H5].
  - intros H. etrans; [by apply H2|]. symmetry. by apply create_addr_hw.
  - intros H. destruct (H3 H) as [Ha Hu]. split; [done|]. unfold netif_is_up in *. cbn [n_flags set_n_flags].
    by rewrite Z.land_lor_distr_l, Z.lor_0_r.
Qed.

Lemma link_dropped_follows x : follows x (link_dropped x).
Proof.
  destruct x as [nif a]. unfold link_dropped. destruct (has_flag _ _); [|by split]. split; [done|].
  intros [H1 H2 H3 H4 H5]. split; cbn [fst snd] in *; [exact H1| | |exact H4|exact H5].
  - intros H. etrans; [by apply H2|]. symmetry. by apply create_addr_hw.
  - intros H. destruct (H3 H) as [Ha Hu]. split; [done|]. unfold netif_is_up, clear_flag in *. cbn [n_flags set_n_flags].
    by rewrite <-Z.land_assoc.
Qed.

Lemma stop_follows nif a : follows (nif, a) (taken_down nif, set_a_state AUTOIP_STATE_OFF a).
Proof.
  split; [done|]. intros [H1 H2 H3 H4 H5]. split; cbn [fst snd] in *; [done|done|by intros [H|[H _]]|done|].
  destruct H5. by split.
Qed.

Lemma start_follows nif a : autoip_ok a -> follows (nif, a) (unconfigured nif, restarted nif (tried_llipaddr a)).
Proof. intros Ok. split; [done|]. intros [? ? ? ? ?]. apply restarted_inv; [apply Ok|done]. Qed.

Lemma advance_ok nif a : autoip_ok a -> autoip_ok (advance (nif, a)).2 /\ n_autoip (advance (nif, a)).1 = n_autoip nif.
Proof.
  intros [H1 H2 H3 H4 H5]. unfold advance. split.
  - pose proof (Z.mod_pos_bound (LWIP_AUTOIP_RAND nif (tried_llipaddr a)) 10).
    destruct (Z.eqb_spec (a_state (set_lastconflict (Z.max 0 (lastconflict a - 1)) a)) AUTOIP_STATE_PROBING) as [D|D];
      [|destruct (Z.eqb_spec (a_state (set_lastconflict (Z.max 0 (lastconflict a - 1)) a)) AUTOIP_STATE_ANNOUNCING) as [D'|D']];
      cbn in D; try (cbn in D');
      repeat case_match; split; cbn in *; unfold probe_wait; cbn; rewrite ?Z.ltb_lt, ?Z.ltb_ge, ?Z.leb_gt in *; intros;
      try done; try lia; try (rewrite D in *; done).
  - unfold bound. repeat case_match; done.
Qed.

Lemma bound_up nif a : ip_addr (bound nif a) = llipaddr a /\ netif_is_up (bound nif a) = true /\
  hwaddr (bound nif a) = hwaddr nif /\ dhcp (bound nif a) = dhcp nif /\ netmask (bound nif a) = 0xffff.
Proof.
  unfold bound. destruct (netif_is_up (set_gw 0 _)) eqn:Hu; [done|]. split; [done|]. split; [|done].
  unfold netif_is_up. cbn [n_flags set_n_flags]. rewrite Z.land_lor_distr_l.
  apply negb_true_iff, Z.eqb_neq. by intros [_ ?]%Z.lor_eq_0_iff.
Qed.

Lemma advance_follows x : follows x (advance x).
Proof.
  destruct x as [nif a]. split; [unfold advance, bound; repeat case_match; done|].
  intros [H1 H2 H3 H4 H5]. pose proof (proj1 (advance_ok nif a H5)) as Hok. cbn [fst snd] in *.
  destruct (bound_up nif a) as (Hb1 & Hb2 & Hb3 & Hb4 & _).
  assert (forall t, a_state a ≠ AUTOIP_STATE_OFF -> t = tried_llipaddr a -> llipaddr a = create_addr (bound nif a) t) as Hb5.
  { intros t Hs ->. rewrite (create_addr_hw nif) by done. auto. }
  unfold advance in *. cbn [a_state set_lastconflict ttw sent_num] in *.
  destruct (Z.eqb_spec (a_state a) AUTOIP_STATE_PROBING) as [Dp|Dp].
  - destruct (0 <? ttw a); [|destruct (3 <=? sent_num a)]; (split; cbn [fst snd] in *;
      [first [exact H1|done]|intros _; apply H2; by rewrite Dp|cbn; rewrite ?Dp; intros [H|[H ?]]; [done|first [done|lia]]|exact H4|exact Hok]).
  - destruct (Z.eqb_spec (a_state a) AUTOIP_STATE_ANNOUNCING) as [Da|Da].
    + destruct (0 <? ttw a); [|destruct (Z.eqb_spec (sent_num a) 0)]; (split; cbn [fst snd] in *; [first [exact H1|done]| | | |exact Hok]).
      * intros _. apply H2. by rewrite Da.
      * exact H3.
      * exact H4.
      * intros _. apply Hb5; [by rewrite Da|done].
      * intros _. done.
      * etrans; [exact Hb4|exact H4].
      * intros _. apply H2. by rewrite Da.
      * intros _. apply H3. right. split; [done|]. destruct H5. lia.
      * exact H4.
    + split; cbn [fst snd] in *; [done|exact H2|exact H3|exact H4|exact Hok].
Qed.

(** ** A client without conflicts *)

(** After [k] ticks [x] is [y], and the interface has not changed before. *)
Definition reaches (k : nat) (x y : netif * autoip) : Prop :=
  Nat.iter k advance x = y /\ forall j, (j < k)%nat -> (Nat.iter j advance x).1 = x.1.

Lemma reaches_trans k l x y z : reaches k x y -> y.1 = x.1 -> reaches l y z -> reaches (k + l) x z.
Proof.
  intros [E1 H1] Hy [E2 H2]. split; [by rewrite Nat.add_comm, Nat.iter_add, E1|]. intros j Hj.
  destruct (decide (j < k)%nat); [auto|]. replace j with ((j - k) + k)%nat by lia. rewrite Nat.iter_add, E1, H2 by lia. done.
Qed.

Lemma reaches_one x y : advance x = y -> reaches 1 x y.
Proof. intros <-. split; [done|]. intros j Hj. by replace j with O by lia. Qed.

Definition waits (a : autoip) : Prop :=
  (a_state a = AUTOIP_STATE_PROBING \/ a_state a = AUTOIP_STATE_ANNOUNCING) /\ lastconflict a = 0.

Lemma iter_wait nif a k : waits a -> Z.of_nat k <= ttw a ->
  Nat.iter k advance (nif, a) = (nif, set_ttw (ttw a - Z.of_nat k) a).
Proof.
  intros [Hs Hl]. induction k as [|k IH]; intros Hk; cbn [Nat.iter nat_rect].
  - rewrite Z.sub_0_r. by destruct a.
  - unfold Nat.iter in IH. rewrite IH by lia. unfold advance. cbn [lastconflict set_ttw]. rewrite Hl.
    change (Z.max 0 (0 - 1)) with 0.
    assert (set_lastconflict 0 (set_ttw (ttw a - Z.of_nat k) a) = set_ttw (ttw a - Z.of_nat k) a) as ->
      by (unfold set_lastconflict, set_ttw; cbn; by rewrite Hl).
    cbn [ttw set_ttw a_state]. rewrite (proj2 (Z.ltb_lt 0 (ttw a - Z.of_nat k))) by lia.
    destruct Hs as [-> | ->]; cbn [Z.eqb Pos.eqb AUTOIP_STATE_PROBING AUTOIP_STATE_ANNOUNCING];
      unfold set_ttw; cbn; do 2 f_equal; lia.
Qed.

Lemma reaches_wait nif a : waits a -> 0 <= ttw a -> reaches (Z.to_nat (ttw a)) (nif, a) (nif, set_ttw 0 a).
Proof.
  intros Hw Ht. split.
  - rewrite iter_wait by (try done; lia). do 2 f_equal. lia.
  - intros j Hj. by rewrite iter_wait by (try done; lia).
Qed.

(** A wait and the tick at its end. *)
Lemma reaches_leg nif a y : waits a -> 0 <= ttw a -> advance (nif, set_ttw 0 a) = y ->
  reaches (S (Z.to_nat (ttw a))) (nif, a) y.
Proof.
  intros. rewrite <-Nat.add_1_r. eapply reaches_trans; [by apply reaches_wait|done|by apply reaches_one].
Qed.

Lemma iter_fixed {X} (f : X -> X) x : f x = x -> forall k, Nat.iter k f x = x.
Proof. intros H k. induction k as [|k IH]; [done|]. unfold Nat.iter in *. cbn [nat_rect]. by rewrite IH. Qed.

(** The time from a start to the address. *)
Definition bind_time (nif : netif) (a : autoip) : nat := Z.to_nat (ttw a + 3 * probe_wait nif a + 25).

Lemma client_binds nif ll w tried : 0 <= w ->
  let a := mk_autoip ll AUTOIP_STATE_PROBING 0 w 0 tried in
  (forall k, (k < bind_time nif a)%nat -> (Nat.iter k advance (nif, a)).1 = nif) /\
  (forall k, (bind_time nif a <= k)%nat -> (Nat.iter k advance (nif, a)).1 = bound nif a) /\
  (forall k, (bind_time nif a + 21 <= k)%nat ->
    Nat.iter k advance (nif, a) = (bound nif a, mk_autoip ll AUTOIP_STATE_BOUND 0 0 0 tried)).
Proof.
  intros Hw a. set (d := probe_wait nif a).
  assert (0 <= d) as Hd by (unfold d, probe_wait; pose proof (Z.mod_pos_bound (LWIP_AUTOIP_RAND nif (tried_llipaddr a)) 10); lia).
  set (pr k := mk_autoip ll AUTOIP_STATE_PROBING k d 0 tried).
  assert (reaches (S (Z.to_nat w)) (nif, a) (nif, pr 1)) as R1 by (apply reaches_leg; [by split; [left|]|done|done]).
  assert (reaches (S (Z.to_nat d)) (nif, pr 1) (nif, pr 2)) as R2 by (apply reaches_leg; [by split; [left|]|done|done]).
  assert (reaches (S (Z.to_nat d)) (nif, pr 2) (nif, pr 3)) as R3 by (apply reaches_leg; [by split; [left|]|done|done]).
  assert (reaches (S (Z.to_nat d)) (nif, pr 3) (nif, mk_autoip ll AUTOIP_STATE_ANNOUNCING 0 20 0 tried)) as R4
    by (apply reaches_leg; [by split; [left|]|done|done]).
  assert (reaches 21 (nif, mk_autoip ll AUTOIP_STATE_ANNOUNCING 0 20 0 tried)
    (bound nif a, mk_autoip ll AUTOIP_STATE_ANNOUNCING 1 20 0 tried)) as R5
    by (apply (reaches_leg nif (mk_autoip ll AUTOIP_STATE_ANNOUNCING 0 20 0 tried)); [by split; [right|]|done|done]).
  assert (reaches 21 (bound nif a, mk_autoip ll AUTOIP_STATE_ANNOUNCING 1 20 0 tried)
    (bound nif a, mk_autoip ll AUTOIP_STATE_BOUND 0 0 0 tried)) as [R6 H6]
    by (apply (reaches_leg _ (mk_autoip ll AUTOIP_STATE_ANNOUNCING 1 20 0 tried)); [by split; [right|]|done|done]).
  pose proof (reaches_trans _ _ _ _ _ (reaches_trans _ _ _ _ _ (reaches_trans _ _ _ _ _ (reaches_trans _ _ _ _ _ R1 eq_refl R2)
    eq_refl R3) eq_refl R4) eq_refl R5) as [E H].
  replace (S (Z.to_nat w) + S (Z.to_nat d) + S (Z.to_nat d) + S (Z.to_nat d) + 21)%nat with (bind_time nif a) in E, H
    by (unfold bind_time; cbn [ttw a]; fold d; lia).
  assert (forall k, (bind_time nif a + 21 <= k)%nat ->
    Nat.iter k advance (nif, a) = (bound nif a, mk_autoip ll AUTOIP_STATE_BOUND 0 0 0 tried)) as Hlast.
  { intros k Hk. replace k with ((k - (bind_time nif a + 21)) + (21 + bind_time nif a))%nat by lia.
    rewrite !Nat.iter_add, E, R6. by apply iter_fixed. }
  split; [done|]. split; [|done]. intros k Hk. destruct (decide (bind_time nif a + 21 <= k)%nat) as [Hl|Hl]; [by rewrite Hlast|].
  replace k with ((k - bind_time nif a) + bind_time nif a)%nat by lia. rewrite Nat.iter_add, E. apply H6. lia.
Qed.

(** ** Steps *)

Section Steps.
Context {A W : Type} {ops : alloc_ops A} {laws : alloc_laws A} {lops : link_ops A W} {llaws : link_laws A W}
  {uops : upper_ops A W} {ulaws : upper_laws A W}.
Implicit Types s : net A W.

(** The client of interface [n] is [x'] in [s'], and nothing else of the
    interfaces, clients and packets has changed since [s]. *)
Record moves (extra : list Z) (n : Z) (x' : netif * autoip) s s' : Prop := {
  mv_netifs : netifs s' = <[n := x'.1]> (netifs s);
  mv_autoips : autoips s' = <[n_autoip x'.1 := x'.2]> (autoips s);
  mv_list : netif_list s' = netif_list s;
  mv_default : netif_default s' = netif_default s;
  mv_num : netif_num s' = netif_num s;
  mv_dhcps : dhcps (ips s') = dhcps (ips s);
  mv_packets : same_packets (ps s) (ps s') extra }.

Lemma moves_refl extra n nif a s : netifs s !! n = Some nif -> autoips s !! n_autoip nif = Some a ->
  moves extra n (nif, a) s s.
Proof. intros. split; try done; [by rewrite insert_id|by rewrite insert_id|apply same_packets_refl]. Qed.

Lemma moves_nframe extra n nif a nif' s0 s s' : moves extra n (nif, a) s0 s -> nframe extra s s' ->
  netifs s' = <[n := nif']> (netifs s) -> n_autoip nif' = n_autoip nif -> moves extra n (nif', a) s0 s'.
Proof.
  intros [M1 M2 M3 M4 M5 M6] [] N E. split; cbn [fst snd] in *; try congruence.
  - by rewrite N, M1, insert_insert_eq.
  - by eapply same_packets_trans.
Qed.

Lemma moves_lookup extra n nif a s0 s : moves extra n (nif, a) s0 s ->
  netifs s !! n = Some nif /\ autoips s !! n_autoip nif = Some a.
Proof. intros [-> -> _ _ _ _]. cbn [fst snd]. by rewrite !lookup_insert_eq. Qed.

Lemma moves_frame extra n x s0 s s' : moves extra n x s0 s -> frame extra s s' -> moves extra n x s0 s'.
Proof.
  intros [] []. split; try congruence. by eapply same_packets_trans.
Qed.

Section Client.
Context (extra : list Z) (R : list block) (n : Z) (s0 : net A W) (Hx : Z.of_nat (length extra) < 49998).

Lemma wp_get_n nif a Q s : moves extra n (nif, a) s0 s -> Q nif s -> wp (the_netif n) Q s.
Proof. intros [H _]%moves_lookup HQ. by eapply wp_the_netif. Qed.

Lemma wp_get_a nif a Q s : n_autoip nif ≠ 0 -> moves extra n (nif, a) s0 s -> Q a s -> wp (the_autoip n) Q s.
Proof.
  intros Hz [H1 H2]%moves_lookup HQ. apply wp_bind. eapply wp_the_netif; [done|]. apply (wp_gets _ a); [|done].
  by rewrite (proj2 (Z.eqb_neq _ _)).
Qed.

Lemma wp_set_at f nif a Q s : net_inv s extra R -> moves extra n (nif, a) s0 s ->
  (forall s', net_inv s' extra R -> moves extra n (nif, f a) s0 s' -> Q tt s') ->
  wp (set_autoip_at (n_autoip nif) f) Q s.
Proof.
  intros I Mv HQ. apply wp_modify, HQ; [by destruct I|]. destruct Mv as [M1 M2 M3 M4 M5 M6]. split; try done.
  cbn [autoips with_autoips fst snd] in *. rewrite M2. apply map_eq. intros k. destruct (decide (k = n_autoip nif)) as [->|].
  - by rewrite lookup_alter_eq, !lookup_insert_eq.
  - by rewrite lookup_alter_ne, !lookup_insert_ne.
Qed.

Lemma wp_set_a f nif a Q s : net_inv s extra R -> moves extra n (nif, a) s0 s ->
  (forall s', net_inv s' extra R -> moves extra n (nif, f a) s0 s' -> Q tt s') ->
  wp (set_the_autoip n f) Q s.
Proof. intros I Mv HQ. apply wp_bind. eapply wp_get_n; [done|]. by eapply wp_set_at. Qed.

Lemma wp_set_n f nif a Q s : net_inv s extra R -> moves extra n (nif, a) s0 s ->
  (forall x, hwaddr (f x) = hwaddr x) -> n_autoip (f nif) = n_autoip nif ->
  (forall s', net_inv s' extra R -> moves extra n (f nif, a) s0 s' -> Q tt s') ->
  wp (set_the_netif n f) Q s.
Proof.
  intros I Mv Hh Hp HQ. eapply wp_set_netif; [done|done|]. intros s' I' F' N' _ _. apply HQ; [done|].
  eapply moves_nframe; [done|done| |done]. rewrite N'. by apply alter_some, (moves_lookup _ _ _ _ _ _ Mv).
Qed.

Lemma wp_raw_m ethsrc ethdst hwsrc ipsrc hwdst ipdst x Q s : net_inv s extra R -> moves extra n x s0 s ->
  length ethsrc = 6%nat -> length ethdst = 6%nat -> length hwsrc = 6%nat -> length hwdst = 6%nat ->
  (forall r s', net_inv s' extra R -> moves extra n x s0 s' -> Q r s') ->
  wp (etharp_raw n ethsrc ethdst hwsrc ipsrc hwdst ipdst ARP_REQUEST) Q s.
Proof.
  intros I Mv L1 L2 L3 L4 HQ. eapply wp_raw; [exact I|done|done|done|done|done|lia|]. intros r s' I' F' _. apply HQ; [done|].
  by eapply moves_frame.
Qed.

Lemma wp_down_m nif a Q s : net_inv s extra R -> moves extra n (nif, a) s0 s ->
  (forall s', net_inv s' extra R -> moves extra n (taken_down nif, a) s0 s' -> Q tt s') ->
  wp (netif_set_down n) Q s.
Proof.
  intros I Mv HQ. eapply wp_netif_down; [done|done|apply (moves_lookup _ _ _ _ _ _ Mv)|]. intros s' I' F' N' _ _.
  apply HQ; [done|]. by eapply moves_nframe.
Qed.

Lemma wp_up_m nif a Q s : net_inv s extra R -> moves extra n (nif, a) s0 s ->
  (forall s', net_inv s' extra R ->
    moves extra n (if netif_is_up nif then nif else set_n_flags (Z.lor (n_flags nif) NETIF_FLAG_UP) nif, a) s0 s' -> Q tt s') ->
  wp (netif_set_up n) Q s.
Proof.
  intros I Mv HQ. eapply wp_netif_up; [done|done|apply (moves_lookup _ _ _ _ _ _ Mv)|]. intros s' I' F' N' _.
  apply HQ; [done|]. eapply moves_nframe; [done|done| |by destruct (netif_is_up nif)]. rewrite N'. f_equal.
  by destruct nif, (netif_is_up _).
Qed.

Lemma wp_ipaddr_m ip nif a Q s : net_inv s extra R -> moves extra n (nif, a) s0 s ->
  (forall s', net_inv s' extra R -> moves extra n (set_ip_addr ip nif, a) s0 s' -> Q tt s') ->
  wp (netif_set_ipaddr n (Some ip)) Q s.
Proof.
  intros I Mv HQ. eapply wp_set_ipaddr; [done|done|apply (moves_lookup _ _ _ _ _ _ Mv)|]. intros s' I' F' N' _.
  apply HQ; [done|]. by eapply moves_nframe.
Qed.

(** A step of the code: a read or a write of the client, or a call. *)
Ltac mstep :=
  lazymatch goal with
  | |- wp (bind _ _) _ _ => apply wp_bind
  | |- wp (ret _) _ _ => apply wp_ret
  | |- wp (the_netif _) _ _ => eapply wp_get_n; [eassumption|]
  | |- wp (the_autoip _) _ _ => eapply wp_get_a; [|eassumption|]; [done|]
  | I : net_inv ?s _ _, Mv : moves _ _ _ _ ?s |- wp _ _ ?s =>
      lazymatch goal with
      | |- wp (set_the_autoip _ _) _ _ => eapply wp_set_a; [exact I|exact Mv|]; clear I Mv
      | |- wp (set_autoip_at _ _) _ _ => eapply wp_set_at; [exact I|exact Mv|]; clear I Mv
      | |- wp (set_the_netif _ _) _ _ => eapply wp_set_n; [exact I|exact Mv|done|done|]; clear I Mv
      | |- wp (etharp_raw _ _ _ _ _ _ _ _) _ _ =>
          eapply wp_raw_m; [exact I|exact Mv|done|done|done|done|]; clear I Mv; intros ?
      | |- wp (netif_set_down _) _ _ => eapply wp_down_m; [exact I|exact Mv|]; clear I Mv
      | |- wp (netif_set_up _) _ _ => eapply wp_up_m; [exact I|exact Mv|]; clear I Mv
      | |- wp (netif_set_ipaddr _ _) _ _ => eapply wp_ipaddr_m; [exact I|exact Mv|]; clear I Mv
      end; intros ? I Mv
  end.

Section Run.
Context (nif : netif) (Hp : n_autoip nif ≠ 0) (Hhw : length (hwaddr nif) = 6%nat).

Lemma small_u16 x : 0 <= x < 65536 -> u16 x = x.
Proof. intros. apply wrap_id. cint. Qed.

Lemma mod_u16 x k : 0 < k < 65536 -> u16 (x mod k) = x mod k.
Proof. intros. apply small_u16. pose proof (Z.mod_pos_bound x k). lia. Qed.

Lemma wp_start_probing nif' a Q s : n_autoip nif' ≠ 0 -> net_inv s extra R -> moves extra n (nif', a) s0 s ->
  (forall s', net_inv s' extra R -> moves extra n (nif', probing nif' a) s0 s' -> Q tt s') ->
  wp (autoip_start_probing n) Q s.
Proof.
  intros Hp' I Mv HQ. unfold autoip_start_probing. do 10 mstep. cbn [tried_llipaddr set_sent_num set_a_state set_ttw].
  change (PROBE_WAIT * AUTOIP_TICKS_PER_SECOND) with 10 in *. rewrite mod_u16 in * by lia.
  unfold MAX_CONFLICTS. destruct (10 <? tried_llipaddr a) eqn:D; cbn [when].
  - mstep. apply HQ; [done|]. unfold probing. by rewrite D.
  - apply wp_ret, HQ; [done|]. unfold probing. by rewrite D.
Qed.

Lemma wp_start_end nif' a Q s : n_autoip nif' ≠ 0 -> hwaddr nif' = hwaddr nif -> net_inv s extra R ->
  moves extra n (nif', a) s0 s ->
  (forall s', net_inv s' extra R ->
    moves extra n (nif', probing nif (set_llipaddr (create_addr nif (tried_llipaddr a)) a)) s0 s' -> Q ERR_OK s') ->
  wp (ip <- autoip_create_addr n ;; set_the_autoip n (set_llipaddr ip) ;; autoip_start_probing n ;; ret ERR_OK)%net Q s.
Proof.
  intros Hp' Hh I Mv HQ. unfold autoip_create_addr. do 9 mstep.
  eapply wp_start_probing; [|eassumption|eassumption|]; [done|]. intros s2 I' M'.
  rewrite (create_addr_hw nif), (probing_hw nif) in M' by done. apply wp_ret, HQ; done.
Qed.

Lemma wp_start a Q s : net_inv s extra R -> moves extra n (nif, a) s0 s ->
  (forall s', net_inv s' extra R -> moves extra n (unconfigured nif, restarted nif (tried_llipaddr a)) s0 s' -> Q ERR_OK s') ->
  wp (autoip_start n) Q s.
Proof.
  intros I Mv HQ. unfold autoip_start. mstep. mstep. mstep.
  apply (wp_mono _ (fun _ s' => net_inv s' extra R /\ moves extra n (taken_down nif, a) s0 s')).
  { apply wp_when; intros D; [mstep; done|]. split; [done|].
    replace (taken_down nif) with nif; [done|]. unfold taken_down. rewrite D. by destruct nif. }
  intros _ s1 [I1 M1]. do 6 mstep. rewrite (proj2 (Z.eqb_neq _ _)) by done.
  change (n_autoip nif) with (n_autoip (set_gw 0 (set_netmask 0 (set_ip_addr 0 (taken_down nif))))). do 12 mstep.
  cbn [Z.eqb negb ERR_OK]. eapply wp_start_end; [| |eassumption|eassumption|]; [done|done|].
  intros s2 I' M'. apply HQ; [done|exact M'].
Qed.

Lemma wp_restart a Q s : autoip_ok a -> net_inv s extra R -> moves extra n (nif, a) s0 s ->
  (forall s', net_inv s' extra R ->
    moves extra n (unconfigured nif, restarted nif ((tried_llipaddr a + 1) mod 256)) s0 s' -> Q tt s') ->
  wp (autoip_restart n) Q s.
Proof.
  intros Ok I Mv HQ. unfold autoip_restart. do 3 mstep. eapply wp_start; [eassumption|eassumption|].
  intros s2 I' M'. apply wp_ret, HQ; [done|exact M'].
Qed.

Lemma wp_heard sip dip shw a Q s : autoip_ok a -> net_inv s extra R -> moves extra n (nif, a) s0 s ->
  (forall s', net_inv s' extra R -> moves extra n (heard sip dip shw (nif, a)) s0 s' -> Q tt s') ->
  wp (autoip_arp_reply n sip dip shw) Q s.
Proof.
  intros Ok I Mv HQ. unfold autoip_arp_reply, heard in *. do 2 mstep. rewrite (proj2 (Z.eqb_neq _ _)) by done. do 2 mstep.
  destruct (a_state a =? AUTOIP_STATE_OFF); [apply wp_ret; eauto|].
  destruct ((a_state a =? AUTOIP_STATE_PROBING) || _); apply wp_when; intros D; rewrite D in HQ; eauto.
  - by eapply wp_restart.
  - unfold autoip_handle_arp_conflict, autoip_arp_announce. do 2 mstep. destruct (0 <? lastconflict a); [by eapply wp_restart|].
    do 7 mstep. apply HQ; done.
Qed.

Lemma wp_bind_m a Q s : net_inv s extra R -> moves extra n (nif, a) s0 s ->
  (forall s', net_inv s' extra R -> moves extra n (bound nif a, a) s0 s' -> Q ERR_OK s') ->
  wp (autoip_bind n) Q s.
Proof.
  intros I Mv HQ. unfold autoip_bind, netif_set_netmask, netif_set_gw. do 11 mstep. apply HQ; [done|]. done.
Qed.

Lemma small_u8 x : 0 <= x < 256 -> u8 x = x.
Proof. intros. apply wrap_id. cint. Qed.

Lemma wp_probing a Q s : autoip_ok a -> net_inv s extra R -> moves extra n (nif, a) s0 s ->
  (forall s', net_inv s' extra R -> moves extra n
    (if 0 <? ttw a then (nif, set_ttw (ttw a - 1) a)
     else if 3 <=? sent_num a then (nif, set_ttw 20 (set_sent_num 0 (set_a_state AUTOIP_STATE_ANNOUNCING a)))
     else (nif, set_ttw (probe_wait nif a) (set_sent_num (sent_num a + 1) a))) s0 s' -> Q tt s') ->
  wp (tmr_probing n) Q s.
Proof.
  intros [] I Mv HQ. unfold tmr_probing, autoip_arp_probe. do 2 mstep. destruct (Z.ltb_spec 0 (ttw a)).
  - mstep. rewrite small_u16 in Mv by lia. by apply HQ.
  - change PROBE_NUM with 3. destruct (Z.leb_spec 3 (sent_num a)).
    + do 5 mstep. by apply HQ.
    + do 13 mstep. rewrite small_u8, small_u16 in Mv; [by apply HQ| |lia].
      cbn [tried_llipaddr set_sent_num]. change ((PROBE_MAX - PROBE_MIN) * AUTOIP_TICKS_PER_SECOND) with 10.
      change (PROBE_MIN * AUTOIP_TICKS_PER_SECOND) with 10.
      pose proof (Z.mod_pos_bound (LWIP_AUTOIP_RAND nif (tried_llipaddr a)) 10). lia.
Qed.

Lemma wp_announcing a Q s : autoip_ok a -> a_state a = AUTOIP_STATE_ANNOUNCING -> net_inv s extra R -> moves extra n (nif, a) s0 s ->
  (forall s', net_inv s' extra R -> moves extra n
    (if 0 <? ttw a then (nif, set_ttw (ttw a - 1) a)
     else
      (if sent_num a =? 0 then bound nif a else nif,
       if sent_num a =? 0 then set_ttw 20 (set_sent_num 1 a)
       else set_ttw 0 (set_sent_num 0 (set_a_state AUTOIP_STATE_BOUND a)))) s0 s' -> Q tt s') ->
  wp (tmr_announcing n) Q s.
Proof.
  intros [] Hs I Mv HQ. specialize (ao_announcing0 Hs). unfold tmr_announcing. do 2 mstep. destruct (Z.ltb_spec 0 (ttw a)).
  - mstep. rewrite small_u16 in Mv by lia. by apply HQ.
  - mstep. destruct (Z.eqb_spec (sent_num a) 0) as [Hz|Hz].
    + eapply wp_bind_m; [eassumption|eassumption|]. intros s1 I1 M1.
      assert (n_autoip (bound nif a) ≠ 0) as Hp1 by (unfold bound; by destruct (netif_is_up _)).
      do 6 mstep. cbn [sent_num set_ttw set_sent_num] in *. rewrite Hz in *. apply HQ; [done|exact M1].
    + unfold autoip_arp_announce. assert (sent_num a = 1) as Hone by lia. do 11 mstep.
      cbn [sent_num set_ttw set_sent_num] in *. rewrite Hone in *. change (when _ ?m) with m. do 5 mstep. apply HQ; [done|exact Mv].
Qed.

Lemma wp_tmr_netif a Q s : autoip_ok a ->
  net_inv s extra R -> moves extra n (nif, a) s0 s ->
  (forall s', net_inv s' extra R -> moves extra n (advance (nif, a)) s0 s' -> Q tt s') ->
  wp (tmr_netif n) Q s.
Proof.
  intros Ok I Mv HQ. unfold tmr_netif. do 2 mstep. rewrite (proj2 (Z.eqb_neq _ _)) by done. do 3 mstep.
  set (a1 := set_lastconflict (Z.max 0 (lastconflict a - 1)) a). destruct Ok as [O1 O2 O3 O4 O5].
  apply (wp_mono _ (fun _ s' => net_inv s' extra R /\ moves extra n (nif, a1) s0 s')).
  { apply wp_when; intros D.
    - mstep. split; [done|]. apply Z.ltb_lt in D. rewrite small_u8 in Mv by lia. unfold a1. by rewrite Z.max_r by lia.
    - split; [done|]. apply Z.ltb_ge in D. assert (a1 = a) as ->; [|done]. unfold a1. rewrite Z.max_l by lia.
      destruct a; cbn [lastconflict] in *. unfold set_lastconflict. cbn. f_equal. lia. }
  intros _ s1 [I1 M1]. do 2 mstep. unfold advance in HQ. fold a1 in HQ.
  assert (autoip_ok a1) as Ok1 by (split; cbn; try done; lia).
  destruct (a_state a1 =? AUTOIP_STATE_PROBING) eqn:Dp; [by eapply wp_probing|].
  destruct (Z.eqb_spec (a_state a1) AUTOIP_STATE_ANNOUNCING) as [Da|Da]; [eapply wp_announcing; eauto|].
  apply wp_ret. by apply HQ.
Qed.

Lemma wp_changed nif' a Q s : n_autoip nif' ≠ 0 -> net_inv s extra R -> moves extra n (nif', a) s0 s ->
  (forall s', net_inv s' extra R -> moves extra n (changed (nif', a)) s0 s' -> Q tt s') ->
  wp (autoip_network_changed n) Q s.
Proof.
  intros Hp' I Mv HQ. unfold autoip_network_changed, changed in *. do 2 mstep. rewrite (proj2 (Z.eqb_neq _ _)) by done. do 2 mstep.
  destruct (a_state a =? AUTOIP_STATE_OFF); [by apply HQ|]. cbn [negb when]. do 2 mstep.
  eapply wp_start_probing; [|eassumption|eassumption|]; [done|]. intros s2 I' M'.
  rewrite (probing_hw nif') in M' by done. by apply HQ.
Qed.

Lemma wp_stop a Q s : net_inv s extra R -> moves extra n (nif, a) s0 s ->
  (forall s', net_inv s' extra R -> moves extra n (taken_down nif, set_a_state AUTOIP_STATE_OFF a) s0 s' -> Q ERR_OK s') ->
  wp (autoip_stop n) Q s.
Proof. intros I Mv HQ. unfold autoip_stop. do 7 mstep. by apply HQ. Qed.

Lemma wp_gratuitous x Q s : net_inv s extra R -> moves extra n x s0 s ->
  (forall r s', net_inv s' extra R -> moves extra n x s0 s' -> Q r s') -> wp (etharp_gratuitous n) Q s.
Proof.
  intros I Mv HQ. destruct x as [nif' a]. pose proof (proj1 (moves_lookup _ _ _ _ _ _ Mv)) as E. unfold etharp_gratuitous.
  apply wp_bind. eapply wp_the_netif; [done|]. eapply wp_request; [done|done|lia|]. intros r s' I' F' _. apply HQ; [done|].
  by eapply moves_frame.
Qed.

Lemma wp_link_up a Q s : dhcp nif = 0 -> net_inv s extra R -> moves extra n (nif, a) s0 s ->
  (forall s', net_inv s' extra R -> moves extra n (link_raised (nif, a)) s0 s' -> Q tt s') ->
  wp (netif_set_link_up n) Q s.
Proof.
  intros Hd I Mv HQ. unfold netif_set_link_up, link_raised in *. do 2 mstep.
  destruct (has_flag NETIF_FLAG_LINK_UP nif); [by apply HQ|]. cbn [negb when]. do 3 mstep. rewrite Hd. cbn [Z.eqb negb when].
  do 4 mstep. cbn [n_autoip set_n_flags]. rewrite (proj2 (Z.eqb_neq _ _)) by done. cbn [negb when].
  eapply wp_changed; [|eassumption|eassumption|]; [done|]. intros s1 I1 M1.
  rewrite (surjective_pairing (changed _)) in M1. do 2 mstep. apply wp_when; intros _; [|rewrite <-surjective_pairing in M1; eauto].
  mstep. eapply wp_gratuitous; [done|done|]. intros r s2 I2 M2. apply wp_ret. rewrite <-surjective_pairing in M2. eauto.
Qed.

Lemma wp_link_down a Q s : net_inv s extra R -> moves extra n (nif, a) s0 s ->
  (forall s', net_inv s' extra R -> moves extra n (link_dropped (nif, a)) s0 s' -> Q tt s') ->
  wp (netif_set_link_down n) Q s.
Proof.
  intros I Mv HQ. unfold netif_set_link_down, link_dropped in *. do 2 mstep.
  destruct (has_flag NETIF_FLAG_LINK_UP nif); cbn [when]; [mstep|]; by apply HQ.
Qed.

End Run.
End Client.

(** Memory for a client. *)
Lemma wp_mem_malloc extra R size Q s : net_inv s extra R -> 0 < size < 2 ^ 32 - 3 ->
  (forall p s', frame extra s s' ->
    (p = 0 /\ net_inv s' extra R) \/ (p ≠ 0 /\ exists k, size <= k /\ net_inv s' extra (mk_block p Heap k :: R)) -> Q p s') ->
  wp (mem_malloc size) Q s.
Proof.
  intros I Hs HQ. destruct (ri_pinv _ _ _ (ni_refs _ _ _ I)) as [B [Ho Hb Hok Hpl]].
  destruct (malloc_law _ _ size Ho Hs) as (p & a & E & Ep & H).
  eapply wp_pbufs; [by rewrite E|]. apply HQ; [split; try done; apply (same_packets_refl (ps s))|].
  assert (forall R', owns a ((map_to_list B).*2 ++ (R' ++ pcb_mem (ips s)) ++ held (world s)) ->
    net_inv (with_ps (with_al a (ps s)) s) extra R') as Hinv.
  { intros R' O'. destruct I as [Ir ? ? ? ? ? ? ? ?]. split; try done. destruct Ir as [_ ? ? ? ?]. split; try done.
    exists B. split; try done. cbn [al with_al ps with_ps]. by rewrite Ep. }
  destruct H as [[-> O']|[Hp (k & Hk & O')]]; [left|right]; (split; [done|]); [by apply Hinv|].
  exists k. split; [done|]. apply Hinv. eapply owns_perm; [|exact O']. cbn [app]. symmetry. apply Permutation_middle.
Qed.

(** ** All clients *)

Definition client s (n : Z) : option (netif * autoip) :=
  nif ← netifs s !! n;
  if n_autoip nif =? 0 then None else a ← autoips s !! n_autoip nif; Some (nif, a).

Lemma client_some s n nif a : client s n = Some (nif, a) <->
  netifs s !! n = Some nif /\ n_autoip nif ≠ 0 /\ autoips s !! n_autoip nif = Some a.
Proof.
  unfold client. destruct (netifs s !! n) as [x|]; cbn [mbind option_bind]; [|naive_solver].
  destruct (Z.eqb_spec (n_autoip x) 0); [naive_solver congruence|].
  destruct (autoips s !! n_autoip x) eqn:E; cbn [mbind option_bind]; split; [|naive_solver..].
  intros [= <- <-]. done.
Qed.

Lemma client_none s n : clients_ok s -> client s n = None -> forall nif, netifs s !! n = Some nif -> n_autoip nif = 0.
Proof.
  intros C Hc nif E. destruct (decide (n_autoip nif = 0)) as [|Hz]; [done|].
  destruct (co_client _ C n nif E Hz) as (a & Ea & _). rewrite (proj2 (client_some s n nif a)) in Hc; done.
Qed.

Lemma client_ok s n nif a : clients_ok s -> client s n = Some (nif, a) -> autoip_ok a.
Proof.
  intros C (E & Hz & Ea)%client_some. destruct (co_client _ C n nif E Hz) as (a' & Ea' & H). congruence.
Qed.

(** What a client that moves does to the others. *)
Lemma moves_clients extra n nif a nif' a' s s' : clients_ok s -> client s n = Some (nif, a) ->
  moves extra n (nif', a') s s' -> n_autoip nif' = n_autoip nif -> autoip_ok a' ->
  clients_ok s' /\ client s' n = Some (nif', a') /\
  (forall m, m ≠ n -> client s' m = client s m /\ netifs s' !! m = netifs s !! m).
Proof.
  intros C (E & Hz & Ea)%client_some [M1 M2 M3 _ _ _] Hp Ok. cbn [fst snd] in *. rewrite Hp in M2.
  assert (forall m x, netifs s' !! m = Some x -> exists y, netifs s !! m = Some y /\ n_autoip x = n_autoip y) as Hback.
  { intros m x. rewrite M1. destruct (decide (m = n)) as [->|]; [rewrite lookup_insert_eq|rewrite lookup_insert_ne by done]; [|eauto].
    intros [= <-]. eauto. }
  split; [split|split].
  - rewrite M3. apply C.
  - intros m Hm. rewrite M3 in Hm. rewrite M1. destruct (decide (m = n)) as [->|]; [by rewrite lookup_insert_eq|].
    rewrite lookup_insert_ne by done. by apply C.
  - intros m x (y & Ey & ->)%Hback Hy. destruct (co_client _ C m y Ey Hy) as (b & Eb & Hb). rewrite M2.
    destruct (decide (n_autoip y = n_autoip nif)) as [->|]; [rewrite lookup_insert_eq; eauto|].
    rewrite lookup_insert_ne by done. eauto.
  - intros m k x y (x' & Ex & Hx)%Hback (y' & Ey & Hy)%Hback Hxy Hne. apply (co_inj _ C m k x' y'); congruence.
  - apply client_some. rewrite M1, M2, lookup_insert_eq, Hp, lookup_insert_eq. done.
  - intros m Hm. unfold client. rewrite M1, lookup_insert_ne by done. split; [|done].
    destruct (netifs s !! m) as [x|] eqn:Ex; cbn [mbind option_bind]; [|done]. destruct (Z.eqb_spec (n_autoip x) 0); [done|].
    rewrite M2, lookup_insert_ne; [done|]. intros Heq. apply Hm. symmetry. eapply (co_inj _ C); eauto.
Qed.

Lemma heard_ok sip dip shw nif a : autoip_ok a ->
  autoip_ok (heard sip dip shw (nif, a)).2 /\ n_autoip (heard sip dip shw (nif, a)).1 = n_autoip nif.
Proof.
  intros Ok. pose proof (restarted_ok nif ((tried_llipaddr a + 1) mod 256)
    (Z.mod_pos_bound (tried_llipaddr a + 1) (2 ^ 8) ltac:(done))) as Hr.
  unfold heard. repeat case_match; split; try done. cbn [snd]. destruct Ok. split; try done; cbn; lia.
Qed.

Lemma heard_hw sip dip shw nif a : hwaddr (heard sip dip shw (nif, a)).1 = hwaddr nif.
Proof. unfold heard. repeat case_match; done. Qed.

Lemma heard_dhcp sip dip shw nif a : dhcp (heard sip dip shw (nif, a)).1 = dhcp nif.
Proof. unfold heard. repeat case_match; done. Qed.

(** The clients of the interfaces [l] advance, the rest stays. *)
Record all_move (extra : list Z) (l : list Z) s s' : Prop := {
  am_ok : clients_ok s';
  am_step n : client s' n = if decide (n ∈ l) then advance <$> client s n else client s n;
  am_netifs n : client s n = None -> netifs s' !! n = netifs s !! n;
  am_list : netif_list s' = netif_list s;
  am_default : netif_default s' = netif_default s;
  am_packets : same_packets (ps s) (ps s') extra }.

Lemma wp_for_netifs extra R l : forall s, net_inv s extra R -> Z.of_nat (length extra) < 49998 -> clients_ok s -> NoDup l ->
  (forall n, n ∈ l -> is_Some (netifs s !! n)) ->
  wp (for_netifs l tmr_netif) (fun _ s' => net_inv s' extra R /\ all_move extra l s s') s.
Proof.
  induction l as [|n l IH]; intros s I Hx C Nd Hl; cbn [for_netifs].
  - apply wp_ret. split; [done|]. split; try done. apply same_packets_refl.
  - apply NoDup_cons in Nd as [Hn Nd]. apply wp_bind. destruct (Hl n) as [nif E]; [by left|].
    destruct (client s n) as [[x a]|] eqn:Ec.
    + pose proof (client_ok _ _ _ _ C Ec) as Ok. destruct (advance_ok x a Ok) as [Ok' Hp].
      pose proof Ec as (E' & Hz & Ea)%client_some.
      eapply (wp_tmr_netif extra R n s Hx x Hz (ni_hw _ _ _ I _ _ E') a); [done|done|by apply moves_refl|].
      intros s1 I1 M1. rewrite (surjective_pairing (advance (x, a))) in M1.
      destruct (moves_clients _ _ _ _ _ _ _ _ C Ec M1 Hp Ok') as (C1 & Ec1 & Ho).
      eapply wp_mono; [apply IH; [done|done|done|done|]|].
      { intros m Hm. destruct (Ho m) as [_ ->]; [by intros ->|]. apply Hl. by right. }
      intros [] s2 [I2 [C2 St2 N2 L2 D2 P2]]. split; [done|]. destruct M1. split; [done| | |congruence|congruence|by eapply same_packets_trans].
      * intros m. rewrite St2. destruct (decide (m = n)) as [->|Hne].
        -- rewrite decide_False, decide_True by set_solver. rewrite Ec1, Ec. cbn [fmap option_fmap option_map].
           by rewrite <-surjective_pairing.
        -- destruct (Ho m Hne) as [-> _]. repeat case_decide; set_solver.
      * intros m Hm. assert (m ≠ n) as Hne by congruence. destruct (Ho m Hne) as [Hc Hnf]. rewrite N2; [done|congruence].
    + pose proof (client_none _ _ C Ec nif E) as Hz. unfold tmr_netif at 1. apply wp_bind. eapply wp_the_netif; [done|].
      rewrite Hz. cbn [Z.eqb]. apply wp_ret. eapply wp_mono; [apply IH; [done|done|done|done|set_solver]|].
      intros [] s2 [I2 [C2 St2 N2 L2 D2 P2]]. split; [done|]. split; try done. intros m. rewrite St2.
      destruct (decide (m = n)) as [->|Hne]; [rewrite Ec; repeat case_decide; done|]. repeat case_decide; set_solver.
Qed.

(** Ticks of the timer. *)
Fixpoint nticks (k : nat) : M A W unit :=
  match k with
  | O => ret tt
  | S k => autoip_tmr ;; nticks k
  end%net.

Lemma wp_nticks extra R k : forall s, net_inv s extra R -> Z.of_nat (length extra) < 49998 -> clients_ok s ->
  wp (nticks k) (fun _ s' => net_inv s' extra R /\ clients_ok s' /\ netif_list s' = netif_list s /\
    same_packets (ps s) (ps s') extra /\
    forall n, n ∈ netif_list s -> client s' n = Nat.iter k advance <$> client s n) s.
Proof.
  induction k as [|k IH]; intros s I Hx C; cbn [nticks].
  - apply wp_ret. split; [done|]. split; [done|]. split; [done|]. split; [apply same_packets_refl|]. intros n _.
    by destruct (client s n).
  - apply wp_bind. unfold autoip_tmr. apply wp_bind. eapply wp_gets; [done|].
    eapply wp_mono; [apply wp_for_netifs; [done|done|done|apply C|apply C]|].
    intros [] s1 [I1 [C1 St1 _ L1 _ P1]]. eapply wp_mono; [by apply IH|].
    intros [] s2 (I2 & C2 & L2 & P2 & St2). split; [done|]. split; [done|]. split; [congruence|].
    split; [by eapply same_packets_trans|]. intros n Hn. rewrite St2, St1, decide_True by congruence.
    destruct (client s n); [|done]. cbn [fmap option_fmap option_map]. by rewrite Nat.iter_succ_r.
Qed.

(** The first client of the system. *)
Lemma wp_start_new extra R n nif Q s : net_inv s extra R -> Z.of_nat (length extra) < 49998 ->
  netifs s !! n = Some nif -> n_autoip nif = 0 ->
  (forall s', net_inv s' extra R -> netifs s' = <[n := unconfigured nif]> (netifs s) -> Q ERR_MEM s') ->
  (forall p k s', p ≠ 0 -> net_inv s' extra (mk_block p Heap k :: R) ->
    moves extra n (set_autoip p (unconfigured nif), restarted nif 0) s s' -> Q ERR_OK s') ->
  wp (autoip_start n) Q s.
Proof.
  intros I Hx En Hz Hmem Hok. unfold autoip_start. apply wp_bind. eapply wp_the_netif; [done|].
  apply wp_bind. eapply wp_mono; [by eapply wp_taken_down|]. intros [] s1 (I1 & F1 & N1 & _).
  apply wp_bind. eapply wp_set_netif; [done|done|]. intros s2 I2 F2 N2 _ _.
  apply wp_bind. eapply wp_set_netif; [done|done|]. intros s3 I3 F3 N3 _ _.
  apply wp_bind. eapply wp_set_netif; [done|done|]. intros s4 I4 F4 N4 _ _.
  rewrite N3, N2, N1, !alter_put in N4. fold (unconfigured nif) in N4.
  pose proof (nframe_trans _ _ _ _ F1 (nframe_trans _ _ _ _ F2 (nframe_trans _ _ _ _ F3 F4))) as F.
  rewrite Hz. cbn [Z.eqb]. apply wp_bind, wp_bind. eapply wp_mem_malloc; [exact I4|done|]. intros p s5 F5 H5.
  destruct (frame_nframe _ _ _ F5) as [F5' N5]. destruct H5 as [[-> I5]|(Hp & k & _ & I5)].
  - cbn [Z.eqb]. apply wp_ret. change (negb (ERR_MEM =? ERR_OK)) with true. cbv iota. apply wp_ret, Hmem; [done|]. by rewrite N5.
  - rewrite (proj2 (Z.eqb_neq p 0)) by done. apply wp_bind, wp_modify, wp_bind.
    eapply wp_set_netif; [by destruct I5|done|]. intros s6 I6 F6 N6 _ _. apply wp_ret. cbn [Z.eqb negb ERR_OK].
    cbn [netifs with_autoips] in N6. rewrite N5, N4, alter_put in N6.
    eapply (wp_start_end extra _ n s nif (ni_hw _ _ _ I _ _ En) (set_autoip p (unconfigured nif)) no_autoip); [done|done|exact I6| |].
    + destruct (nframe_trans _ _ _ _ F F5') as [L D Nm Au Dh P], F6 as [L6 D6 Nm6 Au6 Dh6 P6]. split.
      * done.
      * rewrite Au6. cbn [autoips with_autoips fst snd]. by rewrite Au.
      * by rewrite L6.
      * by rewrite D6.
      * by rewrite Nm6.
      * by rewrite Dh6.
      * by eapply same_packets_trans.
    + intros s' I' M'. eapply Hok; [done|exact I'|exact M'].
Qed.

(** A started client is a client of a well-formed state. *)
Lemma start_client extra R n nif s : net_inv s extra R -> Z.of_nat (length extra) < 49998 -> clients_ok s ->
  netifs s !! n = Some nif -> (n_autoip nif = 0 -> autoips s = ∅) ->
  wp (autoip_start n) (fun e s' => (e = ERR_MEM /\ n_autoip nif = 0 /\ net_inv s' extra R) \/
    (e = ERR_OK /\ exists R' nif' tried, net_inv s' extra R' /\ clients_ok s' /\ netif_list s' = netif_list s /\
      same_packets (ps s) (ps s') extra /\
      client s' n = Some (nif', restarted nif tried) /\ in_u 8 tried /\ netif_is_up nif' = false /\ hwaddr nif' = hwaddr nif)) s.
Proof.
  intros I Hx C En H1. destruct (decide (n_autoip nif = 0)) as [Hz|Hz].
  - eapply wp_start_new; [done|done|done|done|by left|]. intros p k s' Hp I' M'. right. split; [done|].
    exists (mk_block p Heap k :: R), (set_autoip p (unconfigured nif)), 0.
    assert (forall m x, netifs s !! m = Some x -> n_autoip x = 0) as Hno.
    { intros m x Em. destruct (decide (n_autoip x = 0)) as [|Hx']; [done|].
      destruct (co_client _ C m x Em Hx') as (a & Ea & _). by rewrite (H1 Hz) in Ea. }
    destruct M' as [M1 M2 M3 _ _ M6]. cbn [fst snd n_autoip set_autoip] in *. split; [done|]. split; [|do 2 (split; [done|])].
    + split.
      * rewrite M3. apply C.
      * intros m Hm. rewrite M3 in Hm. rewrite M1. destruct (decide (m = n)) as [->|]; [by rewrite lookup_insert_eq|].
        rewrite lookup_insert_ne by done. by apply C.
      * intros m x. rewrite M1. destruct (decide (m = n)) as [->|].
        -- rewrite lookup_insert_eq. intros [= <-] _. exists (restarted nif 0). split; [rewrite M2; apply lookup_insert_eq|by apply restarted_ok].
        -- rewrite lookup_insert_ne by done. intros Em Hx'. by rewrite (Hno _ _ Em) in Hx'.
      * intros m m' x x'. rewrite M1. destruct (decide (m = n)) as [->|], (decide (m' = n)) as [->|];
          rewrite ?lookup_insert_eq, ?lookup_insert_ne by done; intros E E' Ha Hne; [done| | |].
        -- by rewrite Ha, (Hno _ _ E') in Hne.
        -- by rewrite (Hno _ _ E) in Hne.
        -- by rewrite (Hno _ _ E) in Hne.
    + split; [|split; [done|split; [apply (taken_down_is_down nif)|done]]].
      apply client_some. rewrite M1, M2, lookup_insert_eq. split; [done|]. split; [done|]. apply lookup_insert_eq.
  - destruct (co_client _ C n nif En Hz) as (a & Ea & Ok).
    assert (client s n = Some (nif, a)) as Ec by (by apply client_some).
    eapply (wp_start extra R n s Hx nif Hz (ni_hw _ _ _ I _ _ En)); [done|by apply moves_refl|].
    intros s' I' M'. right. split; [done|]. exists R, (unconfigured nif), (tried_llipaddr a).
    destruct (moves_clients _ _ _ _ _ _ _ _ C Ec M' eq_refl (restarted_ok nif _ (ao_tried _ Ok))) as (C' & Ec' & _).
    destruct M'. split; [done|]. split; [done|]. split; [done|]. split; [done|]. split; [done|]. split; [apply Ok|].
    split; [apply (taken_down_is_down nif)|done].
Qed.

(** C21: After [autoip_start] an interface without conflicts gets its address at
    the first announcement: for the first [bind_time] ticks of the timer, which are
    at most 91 (9.1 s), or 682 when the rate is limited, it is down; after that,
    and for ever without a conflict, it is up with the link-local address chosen,
    and from 21 ticks later on the client is bound.  The start fails only when
    there is no memory for the first client.  Whatever the driver and the callbacks
    do, the packets of others stay as they are. *)
Theorem autoip_binds extra R n nif s : net_inv s extra R -> Z.of_nat (length extra) < 49998 -> clients_ok s ->
  netifs s !! n = Some nif -> n ∈ netif_list s -> (n_autoip nif = 0 -> autoips s = ∅) ->
  exists e s1, autoip_start n s = Some (e, s1) /\
    ((e = ERR_MEM /\ n_autoip nif = 0) \/
     (e = ERR_OK /\ exists nif1 a, client s1 n = Some (nif1, a) /\
      Z.of_nat (bind_time nif1 a) <= (if 10 <? tried_llipaddr a then 682 else 91) /\
      forall k, exists s2 nif2 a2, nticks k s1 = Some (tt, s2) /\ client s2 n = Some (nif2, a2) /\
        same_packets (ps s) (ps s2) extra /\
        ((k < bind_time nif1 a)%nat -> netif_is_up nif2 = false) /\
        ((bind_time nif1 a <= k)%nat -> netif_is_up nif2 = true /\ ip_addr nif2 = llipaddr a /\
           ip_addr_islinklocal (ip_addr nif2) = true /\ netmask nif2 = 0xffff) /\
        ((bind_time nif1 a + 21 <= k)%nat -> a_state a2 = AUTOIP_STATE_BOUND))).
Proof.
  intros I Hx C En Hn H1. apply wp_run. eapply wp_mono; [by eapply start_client|].
  intros e s1 [(-> & Hz & _)|(-> & R' & nif1 & tried & I1 & C1 & L1 & P1 & Ec & Ht & Hd & Hh)]; [by left|]. right. split; [done|].
  exists nif1, (restarted nif tried). split; [done|].
  assert (0 <= ttw (restarted nif tried) <= (if 10 <? tried then 600 else 9)) as Hw.
  { cbn. pose proof (Z.mod_pos_bound (LWIP_AUTOIP_RAND nif tried) 10). case_match; lia. }
  pose proof (client_binds nif1 (create_addr nif tried) (ttw (restarted nif tried)) tried (proj1 Hw)) as (Hk & Hup & Hend).
  cbv zeta in Hk, Hup, Hend. rewrite restarted_eq in Hk, Hup, Hend.
  split.
  - unfold bind_time, probe_wait. change (tried_llipaddr (restarted nif tried)) with tried.
    pose proof (Z.mod_pos_bound (LWIP_AUTOIP_RAND nif1 tried) 10). case_match; lia.
  - intros k. assert (wp (nticks k) (fun _ s2 => same_packets (ps s1) (ps s2) extra /\
      client s2 n = Some (Nat.iter k advance (nif1, restarted nif tried))) s1) as ([] & s2 & E2 & P2 & Ec2)%wp_run.
    { eapply wp_mono; [eapply (wp_nticks extra R'); done|]. intros [] s2 (_ & _ & _ & P2 & H2). split; [done|].
      rewrite H2 by congruence. by rewrite Ec. }
    rewrite (surjective_pairing (Nat.iter k _ _)) in Ec2. do 3 eexists. split; [done|]. split; [exact Ec2|].
    split; [by eapply same_packets_trans|]. split; [intros Hlt; by rewrite Hk|]. split; [|intros Hge; by rewrite Hend].
    intros Hge. rewrite Hup by done. destruct (create_addr_spec nif tried Ht) as (_ & Hl & _).
    destruct (bound_up nif1 (restarted nif tried)) as (Hb1 & Hb2 & _ & _ & Hb5). rewrite Hb1. auto.
Qed.

(** What happens to a system with clients. *)
Inductive event :=
  | Tick
  | Heard (n sip dip : Z) (shw : list Z)
  | Start (n : Z)
  | Stop (n : Z)
  | Changed (n : Z)
  | LinkUp (n : Z)
  | LinkDown (n : Z).

Definition run_event (e : event) : M A W unit :=
  match e with
  | Tick => autoip_tmr
  | Heard n sip dip shw => autoip_arp_reply n sip dip shw
  | Start n => _ <- autoip_start n ;; ret tt
  | Stop n => _ <- autoip_stop n ;; ret tt
  | Changed n => autoip_network_changed n
  | LinkUp n => netif_set_link_up n
  | LinkDown n => netif_set_link_down n
  end%net.

Fixpoint run_events (l : list event) : M A W unit :=
  match l with
  | [] => ret tt
  | e :: l => run_event e ;; run_events l
  end%net.

(** The event is about an interface that has a client. *)
Definition event_ok s (e : event) : Prop :=
  match e with
  | Tick => True
  | Heard n _ _ _ | Start n | Stop n | Changed n | LinkUp n | LinkDown n => is_Some (client s n)
  end.

Record system_inv (extra : list Z) (R : list block) s : Prop := {
  sy_net : net_inv s extra R;
  sy_clients : clients_ok s;
  sy_inv n x : client s n = Some x -> client_inv x }.

Record evolves (extra : list Z) s s' : Prop := {
  ev_list : netif_list s' = netif_list s;
  ev_packets : same_packets (ps s) (ps s') extra;
  ev_clients n : is_Some (client s n) -> is_Some (client s' n) }.

Lemma evolves_trans extra s1 s2 s3 : evolves extra s1 s2 -> evolves extra s2 s3 -> evolves extra s1 s3.
Proof. intros [L1 P1 C1] [L2 P2 C2]. split; [congruence|by eapply same_packets_trans|auto]. Qed.

(** One client has moved. *)
Lemma system_moves extra R n x x' s s' : system_inv extra R s -> client s n = Some x -> follows x x' ->
  net_inv s' extra R -> moves extra n x' s s' -> system_inv extra R s' /\ evolves extra s s'.
Proof.
  intros [I C H] Ec [Hp Hi] I' M'. destruct x as [nif a], x' as [nif' a']. specialize (Hi (H _ _ Ec)).
  destruct (moves_clients _ _ _ _ _ _ _ _ C Ec M' Hp (ci_ok _ Hi)) as (C' & Ec' & Ho). split; [split|split].
  - done.
  - done.
  - intros m y Ey. destruct (decide (m = n)) as [->|Hne]; [congruence|]. destruct (Ho m Hne) as [Hm _]. apply (H m). congruence.
  - apply M'.
  - apply M'.
  - intros m Hm. destruct (decide (m = n)) as [->|Hne]; [by rewrite Ec'|]. by rewrite (proj1 (Ho m Hne)).
Qed.

Lemma event_step extra R e s : system_inv extra R s -> Z.of_nat (length extra) < 49998 -> event_ok s e ->
  wp (run_event e) (fun _ s' => system_inv extra R s' /\ evolves extra s s') s.
Proof.
  intros Sy Hx He. pose proof Sy as [I C H]. destruct e as [|n sip dip shw|n|n|n|n|n]; cbn [run_event event_ok] in *.
  { unfold autoip_tmr. apply wp_bind. eapply wp_gets; [done|].
    eapply wp_mono; [apply wp_for_netifs; [done|done|done|apply C|apply C]|]. intros [] s' [I' [C' St _ L _ P]]. split; split; try done.
    - intros n x. rewrite St. case_decide; [|apply H]. intros (y & Ey & ->)%fmap_Some. apply advance_follows. by eapply H.
    - intros n [x Ex]. rewrite St, Ex. case_decide; by eexists. }
  all: destruct He as [[nif a] Ec]; pose proof (H _ _ Ec) as Hi; pose proof Ec as (E & Hz & Ea)%client_some;
    pose proof (moves_refl extra n nif a s E Ea) as M0; pose proof (ni_hw _ _ _ I _ _ E) as Hh.
  - eapply wp_heard; [try done; apply Hi..|]. intros s' I' M'. eapply system_moves; eauto using heard_follows.
  - apply wp_bind. eapply wp_start; [done..|]. intros s' I' M'. apply wp_ret.
    eapply system_moves; eauto. apply start_follows, Hi.
  - apply wp_bind. eapply wp_stop; [done..|]. intros s' I' M'. apply wp_ret.
    eapply system_moves; eauto using stop_follows.
  - eapply (wp_changed extra R n s Hx nif Hh nif a); [done..|]. intros s' I' M'. eapply system_moves; eauto using changed_follows.
  - eapply wp_link_up; [try done; apply Hi..|]. intros s' I' M'. eapply system_moves; eauto using link_raised_follows.
  - eapply wp_link_down; [done..|]. intros s' I' M'. eapply system_moves; eauto using link_dropped_follows.
Qed.

Lemma events_run extra R l : forall s, system_inv extra R s -> Z.of_nat (length extra) < 49998 -> Forall (event_ok s) l ->
  wp (run_events l) (fun _ s' => system_inv extra R s' /\ evolves extra s s') s.
Proof.
  induction l as [|e l IH]; intros s Sy Hx Hl; cbn [run_events].
  - apply wp_ret. split; [done|]. split; [done|apply same_packets_refl|done].
  - apply Forall_cons in Hl as [He Hl]. apply wp_bind. eapply wp_mono; [by eapply event_step|]. intros [] s1 [Sy1 Ev1].
    eapply wp_mono; [apply IH; [done|done|]|].
    + eapply Forall_impl; [exact Hl|]. intros [] Hk; cbn [event_ok] in *; try done; by apply Ev1.
    + intros [] s2 [Sy2 Ev2]. split; [done|]. by eapply evolves_trans.
Qed.

(** C22: In any order of ticks, ARP packets, starts, stops and changes of the
    link a system with AutoIP clients runs on, and keeps its invariant: a client
    that has announced or is bound has its interface up with the address, which is
    the one of its number of tries; a client that is not off has an address from
    the range.  The packets of others stay as they are. *)
Theorem autoip_invariant extra R l s : system_inv extra R s -> Z.of_nat (length extra) < 49998 -> Forall (event_ok s) l ->
  exists s', run_events l s = Some (tt, s') /\ net_inv s' extra R /\ same_packets (ps s) (ps s') extra /\
    forall n, is_Some (client s n) -> exists nif a, client s' n = Some (nif, a) /\
      (a_state a ≠ AUTOIP_STATE_OFF -> AUTOIP_RANGE_START <= Chksum.lwip_ntohl (llipaddr a) <= AUTOIP_RANGE_END) /\
      (a_state a = AUTOIP_STATE_BOUND \/ (a_state a = AUTOIP_STATE_ANNOUNCING /\ 0 < sent_num a) ->
        ip_addr nif = llipaddr a /\ netif_is_up nif = true).
Proof.
  intros Sy Hx Hl. apply wp_ex. eapply wp_mono; [by eapply events_run|]. intros [] s' [[I' C' H'] [_ P' Hc]].
  split; [done|]. split; [done|]. intros n Hn. destruct (Hc n Hn) as [[nif a] Ec]. exists nif, a. split; [done|].
  destruct (H' _ _ Ec) as [_ Ha Hu _ Ok]. cbn [fst snd] in *. split; [|done].
  intros Hs. rewrite (Ha Hs). apply create_addr_spec, Ok.
Qed.

(** [autoip_create_addr] gives an address from 169.254.1.0 to
    169.254.254.255, and for each of the 256 values of the counter of tries
    another one. *)
Theorem autoip_create_addr_correct n nif a s : client s n = Some (nif, a) -> autoip_ok a ->
  exists ip, autoip_create_addr n s = Some (ip, s) /\ ip = create_addr nif (tried_llipaddr a) /\
    AUTOIP_RANGE_START <= Chksum.lwip_ntohl ip <= AUTOIP_RANGE_END /\ ip_addr_islinklocal ip = true /\
    (forall t, in_u 8 t -> t ≠ tried_llipaddr a -> create_addr nif t ≠ ip).
Proof.
  intros Ec Ok. exists (create_addr nif (tried_llipaddr a)). destruct (create_addr_spec nif _ (ao_tried _ Ok)) as (H1 & H2 & H3).
  split; [|split; [done|split; [done|split; [done|]]]].
  - assert (wp (autoip_create_addr n) (fun ip s' => ip = create_addr nif (tried_llipaddr a) /\ s' = s) s)
      as (ip & s' & E & -> & ->)%wp_run; [|done].
    apply client_some in Ec as (E & Hz & Ea). pose proof (moves_refl [] n nif a s E Ea) as Mv.
    apply wp_bind. eapply wp_get_n; [done|]. apply wp_bind. eapply wp_get_a; [done|done|]. by apply wp_ret.
  - intros t Ht Hne E. apply Hne. by apply H3.
Qed.

(** Until it has waited after the last probe a client that hears from another
    host about its address gives way; RFC 3927, 2.2.1 and 2.5. *)
Definition early (a : autoip) : Prop :=
  a_state a = AUTOIP_STATE_PROBING \/ a_state a = AUTOIP_STATE_ANNOUNCING /\ sent_num a = 0.
Definition conflict (sip dip : Z) (shw : list Z) (nif : netif) (a : autoip) : Prop :=
  a_state a ≠ AUTOIP_STATE_OFF /\
  ((sip = llipaddr a /\ hwaddr nif ≠ shw) \/
   (early a /\ (sip = llipaddr a \/ (dip = llipaddr a /\ hwaddr nif ≠ shw)))).

Lemma heard_spec sip dip shw nif a :
  (~ conflict sip dip shw nif a -> heard sip dip shw (nif, a) = (nif, a)) /\
  (conflict sip dip shw nif a -> early a \/ 0 < lastconflict a ->
    heard sip dip shw (nif, a) = (unconfigured nif, restarted nif ((tried_llipaddr a + 1) mod 256))) /\
  (conflict sip dip shw nif a -> ~ early a -> lastconflict a <= 0 ->
    heard sip dip shw (nif, a) = (nif, set_lastconflict 100 a)).
Proof.
  assert ((a_state a =? AUTOIP_STATE_PROBING) || (a_state a =? AUTOIP_STATE_ANNOUNCING) && (sent_num a =? 0) = true <-> early a)
    as He by (unfold early; by rewrite orb_true_iff, andb_true_iff, !Z.eqb_eq).
  assert (forall x, (x =? llipaddr a) && negb (bool_decide (hwaddr nif = shw)) = true <-> x = llipaddr a /\ hwaddr nif ≠ shw)
    as Hh by (intros x; by rewrite andb_true_iff, Z.eqb_eq, negb_true_iff, bool_decide_eq_false).
  unfold heard, conflict. destruct (Z.eqb_spec (a_state a) AUTOIP_STATE_OFF) as [Ho|Ho]; [tauto|].
  destruct ((a_state a =? AUTOIP_STATE_PROBING) || _) eqn:De.
  - assert (early a) as Hy by (by apply He). destruct ((sip =? llipaddr a) || (_ && _)) eqn:Dc.
    + rewrite orb_true_iff, Hh, Z.eqb_eq in Dc. tauto.
    + assert (~ (sip = llipaddr a \/ (dip = llipaddr a /\ hwaddr nif ≠ shw))) as Hn
        by (rewrite <-Hh, <-Z.eqb_eq, <-orb_true_iff; congruence). tauto.
  - assert (~ early a) as Hn by (rewrite <-He; done). destruct ((sip =? llipaddr a) && _) eqn:Dc.
    + apply Hh in Dc. destruct (Z.ltb_spec 0 (lastconflict a)); split_and!; intros; try tauto; try lia; exfalso; intuition lia.
    + assert (~ (sip = llipaddr a /\ hwaddr nif ≠ shw)) as Hn2 by (rewrite <-Hh; congruence). tauto.
Qed.

(** [autoip_arp_reply]: an ARP packet that is no conflict changes nothing.
    A conflict during the probing, or a second one within the time of the
    defence, takes the interface down and the client starts to probe for another
    address; a first conflict later is answered with an announcement, and the
    client keeps its address.  Other interfaces and the packets stay as they are. *)
Theorem autoip_arp_reply_correct extra R n nif a sip dip shw s :
  net_inv s extra R -> Z.of_nat (length extra) < 49998 -> clients_ok s -> client s n = Some (nif, a) ->
  exists s', autoip_arp_reply n sip dip shw s = Some (tt, s') /\ net_inv s' extra R /\ clients_ok s' /\
    same_packets (ps s) (ps s') extra /\ netif_list s' = netif_list s /\
    (forall m, m ≠ n -> client s' m = client s m /\ netifs s' !! m = netifs s !! m) /\
    (~ conflict sip dip shw nif a -> client s' n = Some (nif, a)) /\
    (conflict sip dip shw nif a -> ~ early a -> lastconflict a = 0 -> client s' n = Some (nif, set_lastconflict 100 a)) /\
    (conflict sip dip shw nif a -> early a \/ 0 < lastconflict a -> exists nif' a', client s' n = Some (nif', a') /\
      netif_is_up nif' = false /\ ip_addr nif' = 0 /\ a_state a' = AUTOIP_STATE_PROBING /\ sent_num a' = 0 /\
      tried_llipaddr a' = (tried_llipaddr a + 1) mod 256 /\ llipaddr a' = create_addr nif (tried_llipaddr a') /\
      create_addr nif (tried_llipaddr a) ≠ llipaddr a').
Proof.
  intros I Hx C Ec. pose proof (client_ok _ _ _ _ C Ec) as Ok. destruct (heard_ok sip dip shw nif a Ok) as [Ok' Hp].
  destruct (heard_spec sip dip shw nif a) as (H1 & H2 & H3).
  pose proof Ec as (E & Hz & Ea)%client_some. apply wp_ex.
  eapply (wp_heard extra R n s Hx nif Hz (ni_hw _ _ _ I _ _ E)); [exact Ok|done|by apply moves_refl|].
  intros s' I' M'. rewrite (surjective_pairing (heard _ _ _ _)) in M'.
  destruct (moves_clients _ _ _ _ _ _ _ _ C Ec M' Hp Ok') as (C' & Ec' & Ho). rewrite <-surjective_pairing in Ec'. destruct M'.
  split; [done|]. split; [done|]. split; [done|]. split; [done|]. split; [done|]. split; [|split].
  - intros Hn. by rewrite Ec', H1.
  - intros Hc He Hl. rewrite Ec', H3; [done|done|done|lia].
  - intros Hc Hr. rewrite Ec', (H2 Hc Hr). do 2 eexists. split; [done|]. split; [apply (taken_down_is_down nif)|].
    do 5 (split; [done|]). unfold restarted, probing. cbn [llipaddr]. intros Heq.
    assert (in_u 8 ((tried_llipaddr a + 1) mod 256)) as Hu by (unfold in_u; cint_pow; apply Z.mod_pos_bound; lia).
    destruct (create_addr_spec nif _ Hu) as (_ & _ & Hinj). apply Hinj in Heq; [|apply Ok].
    pose proof (ao_tried _ Ok) as Ht. unfold in_u in Ht. cint_pow. Z.div_mod_to_equations. lia.
Qed.

(** The limit on the rate of tries ends after 256 conflicts: the counter is
    8 bits wide.  A client that has a conflict while it probes waits 60 seconds
    before it goes on if it had more than 10 conflicts, but less than one second
    after the 256th. *)
Theorem autoip_rate_limit extra R n nif a sip shw s :
  net_inv s extra R -> Z.of_nat (length extra) < 49998 -> clients_ok s -> client s n = Some (nif, a) ->
  a_state a = AUTOIP_STATE_PROBING -> sip = llipaddr a ->
  exists s' nif' a', autoip_arp_reply n sip 0 shw s = Some (tt, s') /\ client s' n = Some (nif', a') /\
    (10 <= tried_llipaddr a < 255 -> ttw a' = 600) /\
    (tried_llipaddr a = 255 -> tried_llipaddr a' = 0 /\ ttw a' < 10).
Proof.
  intros I Hx C Ec Hs ->. pose proof (client_ok _ _ _ _ C Ec) as Ok. destruct (heard_ok (llipaddr a) 0 shw nif a Ok) as [Ok' Hp].
  destruct (heard_spec (llipaddr a) 0 shw nif a) as (_ & H2 & _).
  pose proof Ec as (E & Hz & Ea)%client_some.
  assert (wp (autoip_arp_reply n (llipaddr a) 0 shw) (fun _ s' => client s' n = Some (heard (llipaddr a) 0 shw (nif, a))) s)
    as ([] & s' & Er & Ec')%wp_run.
  { eapply (wp_heard extra R n s Hx nif Hz (ni_hw _ _ _ I _ _ E)); [exact Ok|done|by apply moves_refl|].
    intros s' I' M'. rewrite (surjective_pairing (heard _ _ _ _)) in M' |- *. by eapply moves_clients. }
  rewrite H2 in Ec'; [|split; [by rewrite Hs|right; split; [by left|by left]]|by left; left].
  exists s'. do 2 eexists. split; [done|]. split; [done|]. unfold restarted, probing. cbn [ttw tried_llipaddr].
  split; intros Ht.
  - rewrite Z.mod_small by lia. by rewrite (proj2 (Z.ltb_lt 10 _)) by lia.
  - rewrite Ht. change ((255 + 1) mod 256) with 0. split; [done|]. change (10 <? 0) with false. cbv iota. by apply Z.mod_pos_bound.
Qed.

End Steps.

#[local] Transparent create_addr LWIP_AUTOIP_RAND.

(** ** Examples *)

Lemma net1_clients : clients_ok net1.
Proof.
  assert (netifs net1 = {[0x100 := demo_netif]}) as E by reflexivity. split; rewrite ?E.
  - apply NoDup_singleton.
  - intros n ->%list_elem_of_singleton. by eexists.
  - intros n nif H. by apply lookup_singleton_Some in H as [<- <-].
  - intros n m nif nif' H _ _ Hne. by apply lookup_singleton_Some in H as [<- <-].
Qed.

Lemma autoip_binds_witness : exists s1 nif1 a, autoip_start 0x100 net1 = Some (ERR_OK, s1) /\
  client s1 0x100 = Some (nif1, a) /\
  exists s2 nif2 a2, nticks (bind_time nif1 a) s1 = Some (tt, s2) /\ client s2 0x100 = Some (nif2, a2) /\
    netif_is_up nif2 = true /\ ip_addr_islinklocal (ip_addr nif2) = true.
Proof.
  destruct (autoip_binds [pk] [] 0x100 demo_netif net1 net1_inv ltac:(done) net1_clients (lookup_singleton_eq _ _)
    ltac:(by left) ltac:(done)) as (e & s1 & E & H).
  assert (e = ERR_OK) as ->.
  { assert (fst <$> autoip_start 0x100 net1 = Some ERR_OK) as E' by (vm_compute; reflexivity).
    rewrite E in E'. by injection E'. }
  destruct H as [[H _]|(_ & nif1 & a & Ec & _ & H)]; [discriminate H|].
  destruct (H (bind_time nif1 a)) as (s2 & nif2 & a2 & E2 & Ec2 & _ & _ & Hup & _).
  destruct (Hup (le_n _)) as (Hu & _ & Hl & _).
  exists s1, nif1, a. split; [exact E|]. split; [exact Ec|]. exists s2, nif2, a2. auto.
Defined.

(** A client that probes for its 255th address. *)
Definition demo_client : netif := set_autoip 0x900 demo_netif.
Definition demo_autoip : autoip := mk_autoip 0x0101fea9 AUTOIP_STATE_PROBING 1 5 0 255.
Definition net_auto : net lwip_mem wire := with_autoips {[0x900 := demo_autoip]} (with_netifs {[0x100 := demo_client]} net1).

Lemma net_auto_inv : net_inv net_auto [pk] [].
Proof. destruct net1_inv. split; try done. by apply map_Forall_singleton. Qed.

Lemma demo_autoip_ok : autoip_ok demo_autoip.
Proof. split; cbn; try done. Qed.

Lemma net_auto_clients : clients_ok net_auto.
Proof.
  assert (netifs net_auto = {[0x100 := demo_client]}) as E by reflexivity. split; rewrite ?E.
  - apply NoDup_singleton.
  - intros n ->%list_elem_of_singleton. by eexists.
  - intros n nif H _. apply lookup_singleton_Some in H as [<- <-]. exists demo_autoip. split; [done|apply demo_autoip_ok].
  - intros n m nif nif' H H' _ _. apply lookup_singleton_Some in H as [<- _], H' as [<- _]. done.
Qed.

Lemma net_auto_client : client net_auto 0x100 = Some (demo_client, demo_autoip).
Proof. reflexivity. Qed.

(** Ticks, a conflict, a change of the link, a stop and a start. *)
Definition demo_events : list event :=
  [Tick; Heard 0x100 (llipaddr demo_autoip) 0 demo_eth; Tick; LinkDown 0x100; LinkUp 0x100; Stop 0x100; Start 0x100].

Definition demo_autoip0 : autoip := mk_autoip (create_addr demo_client 0) AUTOIP_STATE_PROBING 1 5 0 0.
Definition net_auto0 : net lwip_mem wire := with_autoips {[0x900 := demo_autoip0]} net_auto.

Lemma net_auto0_inv : system_inv [pk] [] net_auto0.
Proof.
  assert (netifs net_auto0 = {[0x100 := demo_client]}) as E by reflexivity.
  assert (autoip_ok demo_autoip0) as Ok by (split; cbn [sent_num a_state ttw lastconflict tried_llipaddr demo_autoip0]; [lia|discriminate|lia|lia|cint]).
  split; [by destruct net_auto_inv|split|]; rewrite ?E.
  - apply NoDup_singleton.
  - intros n ->%list_elem_of_singleton. by eexists.
  - intros n nif H _. apply lookup_singleton_Some in H as [<- <-]. by exists demo_autoip0.
  - intros n m nif nif' H H' _ _. apply lookup_singleton_Some in H as [<- _], H' as [<- _]. done.
  - intros n [nif a] (H & _ & Ha)%client_some. rewrite E in H. apply lookup_singleton_Some in H as [<- <-].
    assert (a = demo_autoip0) as -> by (injection Ha as <-; reflexivity).
    split; cbn [fst snd];
      [split; discriminate|intros _; reflexivity|intros [H|[H _]]; discriminate H|reflexivity|exact Ok].
Qed.

Lemma autoip_invariant_witness : exists s' nif a, run_events demo_events net_auto0 = Some (tt, s') /\ net_inv s' [pk] [] /\
  client s' 0x100 = Some (nif, a).
Proof.
  destruct (autoip_invariant [pk] [] demo_events net_auto0 net_auto0_inv ltac:(done)) as (s' & E & I & _ & H).
  { repeat constructor; by eexists. }
  destruct (H 0x100 ltac:(by eexists)) as (nif & a & Ec & _). exists s', nif, a. split; [exact E|]. split; [exact I|exact Ec].
Defined.

Lemma autoip_create_addr_correct_witness : exists ip, autoip_create_addr 0x100 net_auto = Some (ip, net_auto) /\
  ip_addr_islinklocal ip = true /\ create_addr demo_client 3 ≠ ip.
Proof.
  destruct (autoip_create_addr_correct 0x100 demo_client demo_autoip net_auto net_auto_client demo_autoip_ok)
    as (ip & E & _ & _ & H & Hd).
  exists ip. split; [exact E|]. split; [exact H|]. apply Hd; [cint|done].
Defined.

Lemma autoip_arp_reply_correct_witness : exists s' nif' a',
  autoip_arp_reply 0x100 (llipaddr demo_autoip) 0 demo_eth net_auto = Some (tt, s') /\
  client s' 0x100 = Some (nif', a') /\ netif_is_up nif' = false /\ tried_llipaddr a' = 0.
Proof.
  destruct (autoip_arp_reply_correct [pk] [] 0x100 demo_client demo_autoip (llipaddr demo_autoip) 0 demo_eth net_auto net_auto_inv
    ltac:(done) net_auto_clients net_auto_client) as (s' & E & _ & _ & _ & _ & _ & _ & _ & H).
  destruct H as (nif' & a' & Ec & Hd & _ & _ & _ & Ht & _).
  { split; [done|]. right. split; [by left|by left]. }
  { left. by left. }
  exists s', nif', a'. split; [exact E|]. split; [exact Ec|]. split; [exact Hd|exact Ht].
Defined.

Lemma autoip_rate_limit_witness : exists s' nif' a',
  autoip_arp_reply 0x100 (llipaddr demo_autoip) 0 demo_eth net_auto = Some (tt, s') /\
  client s' 0x100 = Some (nif', a') /\ ttw a' < 10.
Proof.
  destruct (autoip_rate_limit [pk] [] 0x100 demo_client demo_autoip (llipaddr demo_autoip) demo_eth net_auto net_auto_inv
    ltac:(done) net_auto_clients net_auto_client eq_refl eq_refl) as (s' & nif' & a' & E & Ec & _ & H).
  exists s', nif', a'. split; [exact E|]. split; [exact Ec|]. exact (proj2 (H eq_refl)).
Defined.

End Autoip.
