(* ===== verification/Plist.v ===== *)
(** * Lists of pcbs in memory

    The list of protocol control blocks of udp.c and raw.c are linked by their
    [next] fields; [plist] of [Net] says what list a map of structs holds.  The
    lemmas are on following the list, adding to its front, cutting an element out
    and moving one to the front. *)
From S2P Require Import Prelude Alloc Pbuf PbufData Refs Net.
Import Net.

Module Plist.

Lemma filter_ne (a : Z) (l : list Z) : a ∉ l -> filter (fun x => x ≠ a) l = l.
Proof.
  induction l as [|c l IH]; intros Hn; [done|]. apply not_elem_of_cons in Hn as [Hc Hn].
  rewrite filter_cons_True by congruence. f_equal. auto.
Qed.

Section Lists.
Context {X : Type} (nxt : X -> Z) (set_nxt : Z -> X -> X) (nxt_set : forall a x, nxt (set_nxt a x) = a).
Implicit Types (m : gmap Z X) (l : list Z).

Lemma plist_det m : forall l l' p, plist nxt m p l -> plist nxt m p l' -> l = l'.
Proof.
  induction l as [|a l IH]; intros [|a' l'] p; cbn [plist]; [done|naive_solver|naive_solver|].
  intros (-> & _ & x & E & H) (<- & _ & y & E' & H'). simplify_eq. f_equal. eauto.
Qed.

(** The rest of the list from one of its elements. *)
Lemma plist_split m l1 a l2 p : plist nxt m p (l1 ++ a :: l2) ->
  a ≠ 0 /\ exists x, m !! a = Some x /\ plist nxt m a (a :: l2) /\ plist nxt m (nxt x) l2.
Proof.
  revert p. induction l1 as [|c l1 IH]; intros p; cbn [app plist].
  - intros (-> & Hz & x & E & H). split; [done|]. exists x. split; [done|]. split; [cbn [plist]; eauto|done].
  - intros (_ & _ & x & _ & H). eauto.
Qed.

Lemma plist_elem m l p a : plist nxt m p l -> a ∈ l -> a ≠ 0 /\ is_Some (m !! a).
Proof.
  intros H (l1 & l2 & ->)%list_elem_of_split. apply plist_split in H as (Hz & x & E & _). split; [done|by eexists].
Qed.

Lemma plist_nodup m l p : plist nxt m p l -> NoDup l.
Proof.
  revert p. induction l as [|a l IH]; intros p H; [constructor|]. constructor; [|destruct H as (_ & _ & x & _ & H); eauto].
  intros (l1 & l2 & ->)%list_elem_of_split. pose proof H as (-> & _).
  destruct (plist_split m [] a _ a H) as (_ & x & E & H1 & H2).
  destruct (plist_split m (a :: l1) a l2 a H) as (_ & x' & _ & H3 & _).
  pose proof (f_equal length (plist_det _ _ _ _ H1 H3)) as Hl. cbn in Hl. rewrite length_app in Hl. cbn in Hl. lia.
Qed.

Lemma plist_size m l p : plist nxt m p l -> (length l <= size m)%nat.
Proof.
  intros H. rewrite <-(size_dom (D := gset Z)), <-(size_list_to_set (C := gset Z) l) by (by eapply plist_nodup).
  apply subseteq_size. intros a Ha%elem_of_list_to_set. apply elem_of_dom. by eapply plist_elem.
Qed.

(** Other fields and other structs may change. *)
Lemma plist_frame m m' l p : plist nxt m p l -> (forall a, a ∈ l -> nxt <$> m' !! a = nxt <$> m !! a) -> plist nxt m' p l.
Proof.
  revert p. induction l as [|a l IH]; intros p; cbn [plist]; [done|]. intros (-> & Hz & x & E & H) Hm. split; [done|].
  split; [done|]. pose proof (Hm a ltac:(by left)) as Ha. rewrite E in Ha. apply fmap_Some in Ha as (y & Ey & Hy).
  exists y. split; [done|]. rewrite <-Hy. apply IH; [done|]. intros c Hc. apply Hm. by right.
Qed.

Lemma plist_insert_ne m l p a x : plist nxt m p l -> a ∉ l -> plist nxt (<[a := x]> m) p l.
Proof. intros H Ha. eapply plist_frame; [exact H|]. intros c Hc. rewrite lookup_insert_ne; [done|]. by intros <-. Qed.

Lemma plist_same m l p a x y : plist nxt m p l -> m !! a = Some x -> nxt y = nxt x -> plist nxt (<[a := y]> m) p l.
Proof.
  intros H E Hn. eapply plist_frame; [exact H|]. intros c Hc. destruct (decide (c = a)) as [->|].
  - rewrite lookup_insert_eq, E. cbn. by rewrite Hn.
  - by rewrite lookup_insert_ne.
Qed.

Lemma plist_delete m l p a : plist nxt m p l -> a ∉ l -> plist nxt (delete a m) p l.
Proof. intros H Ha. eapply plist_frame; [exact H|]. intros c Hc. rewrite lookup_delete_ne; [done|]. by intros <-. Qed.

(** [a->next = head; head = a;] *)
Lemma plist_push m l p a x : plist nxt m p l -> a ∉ l -> a ≠ 0 -> plist nxt (<[a := set_nxt p x]> m) a (a :: l).
Proof.
  intros H Ha Hz. cbn [plist]. do 2 (split; [done|]). exists (set_nxt p x). split; [apply lookup_insert_eq|].
  rewrite nxt_set. by apply plist_insert_ne.
Qed.

(** [prev->next = a->next;] *)
Lemma plist_cut m l1 prev a l2 p x y : plist nxt m p (l1 ++ prev :: a :: l2) -> m !! prev = Some x -> m !! a = Some y ->
  plist nxt (<[prev := set_nxt (nxt y) x]> m) p (l1 ++ prev :: l2).
Proof.
  intros H Ex Ey. pose proof (plist_nodup _ _ _ H) as N. revert p H N. induction l1 as [|c l1 IH]; intros p; cbn [app].
  - intros (-> & Hz & x' & E & _ & Hza & y' & E' & H) N. assert (x' = x) as -> by congruence. assert (y' = y) as -> by congruence. cbn [plist]. do 2 (split; [done|]).
    exists (set_nxt (nxt y) x). split; [apply lookup_insert_eq|]. rewrite nxt_set. apply plist_insert_ne; [done|].
    apply NoDup_cons in N as [N _]. set_solver.
  - intros (-> & Hz & x' & E & H) [Nc N]%NoDup_cons. cbn [plist]. do 2 (split; [done|]). exists x'. split; [|auto].
    rewrite lookup_insert_ne; [done|]. intros ->. apply Nc. set_solver.
Qed.

(** [a], not the first, moves to the front. *)
Lemma plist_front m l1 prev a l2 p x y : plist nxt m p (l1 ++ prev :: a :: l2) -> m !! prev = Some x -> m !! a = Some y ->
  plist nxt (<[a := set_nxt p y]> (<[prev := set_nxt (nxt y) x]> m)) a (a :: l1 ++ prev :: l2).
Proof.
  intros H Ex Ey. pose proof (plist_nodup _ _ _ H) as N. destruct (plist_elem _ _ _ a H ltac:(set_solver)) as [Hz _].
  apply plist_push; [by eapply plist_cut| |done].
  replace (l1 ++ prev :: a :: l2) with ((l1 ++ [prev]) ++ a :: l2) in N by (by rewrite <-app_assoc).
  apply NoDup_app in N as (_ & N1 & N2). apply NoDup_cons in N2 as [N2 _].
  intros [Hin|[->|Hin]%elem_of_cons]%elem_of_app; [| |done]; (eapply N1; [|by left]; set_solver).
Qed.

End Lists.

End Plist.
