(* ===== verification/Packet.v ===== *)
(** * Packets in the stack

    What the protocols share: access to the pbuf of a packet, the data of a packet
    that passes through several functions, and the rules for it. *)
From S2P Require Import Prelude Alloc Pbuf PbufData Chksum IpAddr Refs Net Etharp Wire Netif.
Import Alloc Pbuf PbufData Refs Net Etharp Wire Netif.

Module Packet.
Local Open Scope net_scope.

(** The byte that was read. *)
Definition byte1 (l : list Z) : Z := match l with [x] => x | _ => 0 end.
(** [IPH_HL(iphdr) * 4] *)
Definition IPH_HL4 (v_hl : list Z) : Z := Z.land (byte1 v_hl) 0x0f * 4.

Section Operations.
Context {A W : Type} {ops : alloc_ops A}.

Definition the_pbuf (p : Z) : M A W pbuf := gets (fun s => get p (ps s)).
Definition drop_packet (p : Z) : M A W unit := _ <- pbufs (pbuf_free p) ;; ret tt.

(** The memory behind the struct of a pbuf: to the end of its data, and of the
    whole buffer for a pbuf of the pool. *)
Definition data_start (p : Z) (b : pbuf) : Z :=
  match type b with PBUF_RAM | PBUF_POOL => p + SIZEOF_STRUCT_PBUF | _ => payload b end.
Definition data_end (p : Z) (b : pbuf) : Z :=
  if bool_decide (type b = PBUF_POOL) then p + SIZEOF_STRUCT_PBUF + PBUF_POOL_BUFSIZE_ALIGNED else payload b + len b.

(** Access through a pointer [a] into the memory of [p], which need not be in the
    data of [p]: [n] bytes, and a write up to the end of the data. *)
Definition peek (p a n : Z) : M A W (list Z) :=
  gets (fun s => b ← get p (ps s);
    if (data_start p b <=? a) && (a + n <=? data_end p b) then Some (read_bytes (bytes (ps s)) a n) else None).
Definition poke (p a : Z) (l : list Z) : M A W unit :=
  pbufs_ (fun s => b ← get p s;
    if (data_start p b <=? a) && (a + Z.of_nat (length l) <=? payload b + len b)
    then Some (with_bytes (write_bytes a l (bytes s)) s) else None).

End Operations.

(** Offsets that are numbers. *)
Ltac nats := repeat match goal with |- context [Z.to_nat ?x] =>
  let y := eval vm_compute in (Z.to_nat x) in change (Z.to_nat x) with y end.

Section Correct.
Context {A W : Type} {ops : alloc_ops A} {laws : alloc_laws A} {lops : link_ops A W} {llaws : link_laws A W}.
Implicit Types s : net A W.

Lemma keeps_refl s : keeps s s.
Proof. split; eauto. Qed.

Lemma keeps_trans s1 s2 s3 : keeps s1 s2 -> keeps s2 s3 -> keeps s1 s3.
Proof.
  intros [N1 L1 C1 D1] [N2 L2 C2 D2]. split; [|congruence|auto|auto]. intros n nif E. destruct (N1 n nif E) as (x & Ex & <-).
  destruct (N2 n x Ex) as (y & Ey & <-). eauto.
Qed.

Lemma wp_load p off n b (Q : list Z -> net A W -> Prop) s : bufs (ps s) !! p = Some b -> 0 <= off -> off + n <= len b ->
  Q (read_bytes (bytes (ps s)) (payload b + off) n) s -> wp (load p off n) Q s.
Proof. intros E Ho Hl HQ. unfold wp. by rewrite (load_run p off n b s E Ho Hl). Qed.

Lemma wp_drop extra R p Q s : net_inv s (p :: extra) R ->
  (forall s', net_inv s' extra R -> same_packets (ps s) (ps s') extra -> keeps s s' -> Q tt s') -> wp (drop_packet p) Q s.
Proof.
  intros I HQ. apply wp_bind. eapply wp_free; [done|]. intros _ s' I' F' _. apply wp_ret.
  destruct (frame_keeps _ _ _ F'). auto.
Qed.

Lemma wp_stat k extra R Q s : net_inv s extra R ->
  (forall s', net_inv s' extra R -> frame extra s s' -> same_table s s' -> netifs s' = netifs s -> Q tt s') ->
  wp (inc_stat k) Q s.
Proof.
  intros I HQ. apply wp_inc_stat. intros f. apply HQ; [by apply inv_stats|by apply frame_stats, frame_refl|done|done].
Qed.

Definition sub (off n : nat) (l : list Z) : list Z := take n (drop off l).

Lemma read_sub m a off k n : 0 <= off -> 0 <= k -> off + k <= n ->
  read_bytes m (a + off) k = sub (Z.to_nat off) (Z.to_nat k) (read_bytes m a n).
Proof.
  intros Ho Hk Hn. unfold sub. rewrite !read_bytes_rd.
  replace n with (off + (k + (n - off - k))) by lia. rewrite !seqZ_app, !fmap_app by lia.
  rewrite drop_app_ge by (rewrite length_fmap, length_seqZ; lia).
  rewrite length_fmap, length_seqZ, Nat.sub_diag, drop_0.
  rewrite take_app_le, take_ge by (rewrite length_fmap, length_seqZ; lia). done.
Qed.

(** *** A packet on its way through *)

Definition data s (b : pbuf) : list Z := read_bytes (bytes (ps s)) (payload b) (len b).

(** The packet [p] of [s] is still what it was in [s'], and apart from the
    packets of others, which are unchanged. *)
Record carried (extra : list Z) (R : list block) (p : Z) (b : pbuf) s s' : Prop := {
  ca_inv : net_inv s' (p :: extra) R;
  ca_buf : exists b', bufs (ps s') !! p = Some b' /\ strip b = strip b' /\ data s' b' = data s b;
  ca_apart : apart p extra s';
  ca_packets : same_packets (ps s) (ps s') extra;
  ca_keeps : keeps s s' }.

Lemma carried_step extra R p b s s1 s2 : carries b -> carried extra R p b s s1 -> net_inv s2 (p :: extra) R ->
  same_packets (ps s1) (ps s2) (p :: extra) -> keeps s1 s2 -> carried extra R p b s s2.
Proof.
  intros Cb [I1 (b1 & E1 & S1 & D1) A1 P1 K1] I2 P2 K2. split; [done| | | |by eapply keeps_trans].
  - destruct (packet_kept _ _ _ _ _ _ I1 P2 ltac:(by left) E1) as (b2 & E2 & S2 & D2). exists b2. split; [done|].
    split; [congruence|]. unfold data in *. rewrite D2; [done|]. by eapply carries_strip.
  - eapply packets_apart; [exact I1|exact P2|set_solver|done].
  - eapply same_packets_trans; [exact P1|]. eapply same_packets_sub; [|exact P2]. set_solver.
Qed.

Section Through.
Context (extra : list Z) (R : list block) (p : Z) (b : pbuf) (s0 : net A W) (Cb : carries b)
  (Hx : Z.of_nat (length extra) < 49997).

Lemma wp_field off k Q s : carried extra R p b s0 s -> 0 <= off -> 0 <= k -> off + k <= len b ->
  Q (sub (Z.to_nat off) (Z.to_nat k) (data s0 b)) s -> wp (load p off k) Q s.
Proof.
  intros [_ (b' & E & S & D) _ _ _] Ho Hk Hl HQ. destruct (strip_eq _ _ S) as (_ & _ & _ & El & _).
  eapply wp_load; [done|done|lia|]. rewrite (read_sub _ _ _ _ (len b')) by lia. unfold data in D at 1. by rewrite D.
Qed.

Lemma wp_stat_c k Q s : carried extra R p b s0 s ->
  (forall s', carried extra R p b s0 s' -> netifs s' = netifs s /\ arp_table s' = arp_table s -> Q tt s') -> wp (inc_stat k) Q s.
Proof.
  intros C HQ. eapply wp_stat; [apply C|]. intros s' I' F' T' N'. apply HQ; [|split; [done|apply T']].
  eapply carried_step; [done|done|done|apply F'|by apply (frame_keeps _ _ _ F')].
Qed.

Lemma wp_drop_c Q s : carried extra R p b s0 s ->
  (forall s', net_inv s' extra R -> same_packets (ps s0) (ps s') extra -> keeps s0 s' -> Q tt s') -> wp (drop_packet p) Q s.
Proof.
  intros C HQ. eapply wp_drop; [apply C|]. intros s' I' P' K'. apply HQ; [done| |].
  - eapply same_packets_trans; [apply C|done].
  - eapply keeps_trans; [apply C|done].
Qed.

End Through.

Lemma payload_bound s extra R p b : net_inv s (p :: extra) R -> bufs (ps s) !! p = Some b -> carries b ->
  payload b + len b < 2 ^ 32.
Proof.
  intros I E Cb. destruct (ri_pinv _ _ _ (ni_refs _ _ _ I)) as [B Ip].
  destruct (pinv_get _ _ _ _ _ Ip E) as (k & Ek & (Hk & _ & Hb) & _).
  pose proof (owns_ok _ _ (pi_own _ _ _ Ip)) as Hok. rewrite Forall_app in Hok. destruct Hok as [Hok _].
  rewrite Forall_forall in Hok. destruct (Hok k) as (_ & _ & _ & Hlt).
  { apply list_elem_of_fmap. exists (p, k). split; [done|]. by apply elem_of_map_to_list. }
  destruct Cb as [Ct|Ct]; rewrite Ct in Hb; lia.
Qed.

(** Marking the packet does not touch what others see. *)
Lemma put_frame s extra R p b b' : net_inv s (p :: extra) R -> bufs (ps s) !! p = Some b -> ref b = 1 ->
  frame extra s (with_ps (put p b' (ps s)) s).
Proof.
  intros I E Hr. split; try done. cbn [ps with_ps]. apply put_same.
  destruct (exclusive _ _ _ _ _ (ni_refs _ _ _ I) E Hr) as (_ & _ & Hex). intros a c Ha Hc. eapply Hex; [|exact Hc]. set_solver.
Qed.

Lemma wp_step {X Y} (m : M A W X) P s : wp m P s ->
  exists x s', P x s' /\ forall (k : X -> M A W Y), bind m k s = k x s'.
Proof. intros (x & s' & E & H)%wp_run. exists x, s'. split; [done|]. intros k. by apply bind_run. Qed.

Lemma bind_bind {X Y V} (m : M A W X) (f : X -> M A W Y) (k : Y -> M A W V) s :
  bind (bind m f) k s = bind m (fun x => bind (f x) k) s.
Proof. unfold bind. by destruct (m s) as [[x s']|]. Qed.

Lemma le32_bytes x : in_u 32 x -> le32 (bytes32 x) = x.
Proof. unfold in_u, le32, bytes32, Chksum.load32. cint_pow. intros. Z.div_mod_to_equations. lia. Qed.

(** Freeing a packet leaves the pbufs of another as they are. *)
Lemma stripped_fst l l' : stripped l' = stripped l -> l'.*1 = l.*1.
Proof.
  intros E. assert (forall k : list (Z * pbuf), (stripped k).*1 = k.*1) as H.
  { intros k. unfold stripped. rewrite <-list_fmap_compose. by apply list_fmap_ext. }
  by rewrite <-(H l), <-(H l'), E.
Qed.

Lemma free_ones (m m' : pstate A) refs R p a l : refs_inv m (p :: refs) R -> refs_inv m' refs R ->
  shrinks (bufs m) (bufs m') -> a ∈ refs -> chain (bufs m) a l 0 -> Forall (fun x => ref x.2 = 1) l ->
  chain (bufs m') a l 0.
Proof.
  intros I I' S Ha Hc F. destruct (ri_get _ _ _ _ I' Ha) as [b0 E0]. destruct (ri_chain _ _ _ I' a b0 E0) as (l0 & Hc' & _).
  pose proof (stripped_fst _ _ (chain_stripped _ _ _ S _ _ Hc' Hc)) as Hfst.
  eapply chain_frame; [exact Hc|]. intros x Hx. pose proof Hx as Hx'. rewrite <-Hfst in Hx'.
  apply list_elem_of_fmap in Hx as ([y b] & -> & Hin). cbn [fst] in *.
  destruct (chain_elem _ _ _ _ _ _ Hc Hin) as [Eb _]. rewrite Forall_forall in F. specialize (F _ Hin). cbn [snd] in F.
  assert (exists b', bufs m' !! y = Some b' /\ (y ∈ refs \/ has_pred (bufs m') y)) as (b' & Eb' & Hy).
  { rewrite fmap_cons in Hx'. apply elem_of_cons in Hx' as [Hya|Hx']; [cbn in Hya; subst y; eauto|].
    pose proof (chain_pred _ _ _ _ _ Hc' Hx') as Hp. apply list_elem_of_fmap in Hx' as ([y' b'] & -> & Hin').
    destruct (chain_elem _ _ _ _ y' b' Hc' ltac:(by right)) as [Eb' _]. eauto. }
  rewrite Eb, Eb'. destruct (S _ _ Eb') as (b1 & Eb1 & Es & _). assert (b1 = b) as -> by congruence. f_equal.
  destruct (ri_ref _ _ _ I y b Eb) as (n & Hn & Hr). destruct (ri_ref _ _ _ I' y b' Eb') as (n' & Hn' & Hr').
  rewrite occ_cons in Hr. pose proof (occ_nonneg y refs).
  assert (n' <= n) as Hle.
  { destruct Hn as [[_ ->]|[Hnp ->]]; [destruct Hn' as [[_ ->]|[_ ->]]; lia|]. destruct Hn' as [[Hp _]|[_ ->]]; [|lia].
    exfalso. apply Hnp. destruct Hp as (z & c & Ec & Hz). destruct (S _ _ Ec) as (c0 & Ec0 & Ec' & _).
    exists z, c0. split; [done|]. pose proof (strip_eq _ _ Ec') as (? & _). congruence. }
  assert (1 <= ref b') as Hge.
  { rewrite Hr'. assert (0 <= n') by (destruct Hn' as [[_ ->]|[_ ->]]; lia). destruct Hy as [Hy|Hy].
    - destruct (Z.eq_dec (occ y refs) 0) as [Hz%occ_zero|]; [done|lia].
    - destruct Hn' as [[_ ->]|[Hnp _]]; [lia|done]. }
  assert (ref b' = ref b) as Heq by (case_decide; lia).
  destruct b, b'. unfold strip, set_ref in Es. cbn in *. injection Es as -> -> -> -> -> ->. by rewrite Heq.
Qed.

Lemma header_moved_back inc b : header_moved (- inc) (header_moved inc b) = b.
Proof. destruct b. unfold header_moved, set_tot_len, set_len, set_payload. cbn [next payload tot_len len type flags ref]. f_equal; lia. Qed.

Lemma header_fits_carries p inc b : carries b -> header_fits p inc b = (0 <=? len b + inc) && (p + 16 <=? payload b - inc).
Proof. intros [E|E]; unfold header_fits; by rewrite E. Qed.

(** *** A packet that comes in *)

(** All its pbufs are the holder's alone and have their data behind the struct. *)
Record packet (extra : list Z) (R : list block) (p : Z) (b : pbuf) (l : list (Z * pbuf)) s : Prop := {
  pk_inv : net_inv s (p :: extra) R;
  pk_chain : chain (bufs (ps s)) p ((p, b) :: l) 0;
  pk_refs : Forall (fun x => ref x.2 = 1) ((p, b) :: l);
  pk_carries : Forall (fun x => carries x.2) ((p, b) :: l);
  pk_pos : all_pos l }.

Section Incoming.
Context (extra : list Z) (R : list block) (p : Z).

Lemma pk_buf b l s : packet extra R p b l s -> bufs (ps s) !! p = Some b.
Proof. intros [_ (_ & _ & ? & _) _ _ _]. done. Qed.

Lemma pk_head_carries b l s : packet extra R p b l s -> carries b.
Proof. intros [_ _ _ H _]. by apply Forall_cons in H as [? _]. Qed.

Lemma pk_bounds b l s : packet extra R p b l s ->
  4 <= p /\ p + 16 <= payload b /\ 0 <= len b <= tot_len b /\ tot_len b < 2 ^ 16 /\ payload b + len b < 2 ^ 32 /\
  tot_ok ((p, b) :: l).
Proof.
  intros H. pose proof (pk_buf _ _ _ H) as E. pose proof (pk_head_carries _ _ _ H) as Cb. pose proof H as [I Hc _ _ _].
  pose proof (payload_bound _ _ _ _ _ I E Cb) as Hpb.
  destruct (ri_pinv _ _ _ (ni_refs _ _ _ I)) as [B Ip]. destruct (pinv_get _ _ _ _ _ Ip E) as (k & _ & (_ & _ & Hk) & _).
  destruct (ri_chain _ _ _ (ni_refs _ _ _ I) p b E) as (l' & Hc' & Ht). rewrite (chain_det _ _ _ _ Hc' Hc) in Ht.
  pose proof (ri_nonzero _ _ _ _ _ (ni_refs _ _ _ I) E) as [Hz Hm].
  assert (4 <= p) by (Z.div_mod_to_equations; lia).
  pose proof Ht as (? & ? & ? & Hl%tot_nonneg). destruct Cb as [Ct|Ct]; rewrite Ct in Hk; split_and!; try done; lia.
Qed.

Lemma pk_alone b l s : packet extra R p b l s ->
  ~ has_pred (bufs (ps s)) p /\ (p ∉ extra) /\ (forall a, a ∈ (extra ++ queued (arp_table s)) ++ drv (world s) -> a ∉ ((p, b) :: l).*1) /\
  (forall a la, a ∈ (extra ++ queued (arp_table s)) ++ drv (world s) -> chain (bufs (ps s)) a la 0 -> la.*1 ## ((p, b) :: l).*1).
Proof.
  intros [I Hc F _ _]. destruct (alone _ _ _ _ _ (ni_refs _ _ _ I) Hc (proj1 (proj2 Hc)) F) as (H1 & H2 & H3 & H4).
  split; [done|]. split; [set_solver|]. split; [done|done].
Qed.

Lemma pk_apart b l s : packet extra R p b l s -> apart p extra s.
Proof.
  intros H. destruct (pk_alone _ _ _ H) as (_ & _ & _ & Hd). intros a c Ha Hc Hp.
  apply (Hd a c ltac:(set_solver) Hc p Hp). by left.
Qed.

(** The head changes, not the links. *)
Lemma pk_put b b' l s : packet extra R p b l s -> next b' = next b -> ref b' = ref b -> carries b' ->
  tot_len b' - len b' = tot_len b - len b -> 0 <= len b' -> tot_len b' < 2 ^ 16 ->
  (exists B, pinv (put p b' (ps s)) B ((R ++ pcb_mem (ips s)) ++ held (world s))) ->
  let s' := with_ps (put p b' (ps s)) s in packet extra R p b' l s' /\ frame extra s s'.
Proof.
  intros H En Er Cb Ht Hl Htl (B & Ip) s'. subst s'. pose proof (pk_buf _ _ _ H) as E.
  destruct (pk_alone _ _ _ H) as (Hnp & Hne & Hout & _). pose proof (pk_apart _ _ _ H) as Ap. destruct H as [I Hc F Fc Po].
  split; [split; [| | | |done]|].
  - rewrite <-with_world_same. eapply inv_pbufs; [exact I|apply I| |].
    + eapply head_refs; [apply (ni_refs _ _ _ I)|exact E|done|done|done|done|done|done|exact Ip].
    + intros a c Hq Ec Rc. exists c. split; [|by split]. cbn [bufs put with_bufs]. rewrite lookup_insert_ne; [done|].
      intros <-. apply (Hout p); [set_solver|by left].
  - pose proof (chain_nodup _ _ _ Hc) as N. rewrite fmap_cons in N. apply NoDup_cons in N as [N _].
    destruct Hc as (_ & Hz & _ & Hc). cbn [chain]. split_and!; [done|done|apply lookup_insert_eq|]. rewrite En.
    eapply chain_frame; [exact Hc|]. intros x Hx. apply lookup_insert_ne. intros <-. by apply N.
  - apply Forall_cons in F as [Fb F]. constructor; [cbn in *; congruence|done].
  - apply Forall_cons in Fc as [_ Fc]. by constructor.
  - split; try done. apply put_same. exact Ap.
Qed.

Lemma wp_pk_header b l inc Q s : packet extra R p b l s -> in_s 16 inc -> inc <= payload b -> tot_len b + inc < 2 ^ 16 ->
  (header_fits p inc b = false -> Q 1 s) ->
  (forall s', header_fits p inc b = true -> s' = with_ps (put p (header_moved inc b) (ps s)) s ->
    packet extra R p (header_moved inc b) l s' -> frame extra s s' -> Q 0 s') ->
  wp (pbufs (pbuf_header p inc)) Q s.
Proof.
  intros H Hi Hip Ht H1 H0. pose proof (pk_buf _ _ _ H) as E. pose proof (pk_head_carries _ _ _ H) as Cb.
  destruct (pk_bounds _ _ _ H) as (Hp4 & Hp1 & Hl & Htl & Hpb & Hok).
  pose proof H as [I _ _ _ _]. destruct (ri_pinv _ _ _ (ni_refs _ _ _ I)) as [B Ip].
  assert (header_fits p inc b = (0 <=? len b + inc) && (p + 16 <=? payload b - inc)) as Hf
    by (unfold header_fits; destruct Cb as [-> | ->]; done).
  destruct (decide (inc = 0)) as [->|Hz].
  - eapply wp_pbufs; [reflexivity|].
    assert (header_moved 0 b = b) as Hm by (unfold header_moved; rewrite !Z.add_0_r, Z.sub_0_r; by destruct b).
    assert (with_ps (put p b (ps s)) s = s) as Hs.
    { unfold put. rewrite insert_id by done. by destruct s as [[]]. }
    replace (with_ps (ps s) s) with s by (by destruct s). apply H0.
    + rewrite Hf. apply andb_true_iff. split; apply Z.leb_le; lia.
    + by rewrite Hm, Hs.
    + by rewrite Hm.
    + apply frame_refl.
  - pose proof (header_spec (ps s) B _ p inc b Ip E ltac:(lia) Hi Hz ltac:(lia) Ht ltac:(lia) Hpb) as Hh.
    destruct (header_fits p inc b) eqn:Hfit.
    + destruct Hh as [Hr Ip']. eapply wp_pbufs; [exact Hr|]. symmetry in Hf. apply andb_true_iff in Hf as [Hf1%Z.leb_le Hf2%Z.leb_le].
      destruct (pk_put b (header_moved inc b) l s H) as [Hpk Hfr]; try done; try (cbn; lia); [by eexists|].
      by apply (H0 _ eq_refl eq_refl).
    + eapply wp_pbufs; [exact Hh|]. replace (with_ps (ps s) s) with s by (by destruct s). auto.
Qed.

Lemma pk_same' e q b l s s' : packet e R q b l s -> bufs (ps s') = bufs (ps s) -> net_inv s' (q :: e) R -> packet e R q b l s'.
Proof. intros [_ ? ? ? ?] E I'. by split; rewrite ?E. Qed.

(** What the rest of the state may do. *)
Lemma pk_same b l s s' : packet extra R p b l s -> bufs (ps s') = bufs (ps s) -> net_inv s' (p :: extra) R -> packet extra R p b l s'.
Proof. intros [_ ? ? ? ?] E I'. by split; rewrite ?E. Qed.

(** New pbufs next to it. *)
Lemma pk_extends b l k c s s' : packet extra R p b l s -> extends (bufs (ps s)) (bufs (ps s')) k ->
  net_inv s' (c :: p :: extra) R -> packet (c :: extra) R p b l s'.
Proof.
  intros [_ Hc ? ? ?] X I'. split; try done.
  - by rewrite (Permutation_swap p c extra) in I'.
  - eapply chain_frame; [exact Hc|]. intros x Hx. apply list_elem_of_fmap in Hx as ([y f] & -> & Hin).
    destruct (chain_elem _ _ _ _ _ _ Hc Hin) as [Ef _]. specialize (X y). cbn [fst]. case_decide; congruence.
Qed.

Lemma pk_stats b l f s : packet extra R p b l s -> packet extra R p b l (with_stats f s).
Proof. intros H. eapply pk_same; [exact H|done|]. apply inv_stats, H. Qed.

Lemma wp_pk_stat b l k Q s : packet extra R p b l s ->
  (forall f, packet extra R p b l (with_stats f s) -> Q tt (with_stats f s)) -> wp (inc_stat k) Q s.
Proof. intros H HQ. apply wp_inc_stat. intros f. by apply HQ, pk_stats. Qed.

Lemma wp_pk_peek b l a n Q s : packet extra R p b l s -> p + 16 <= a -> a + n <= data_end p b ->
  Q (read_bytes (bytes (ps s)) a n) s -> wp (peek p a n) Q s.
Proof.
  intros H Ha Hn HQ. eapply wp_gets; [|exact HQ]. rewrite (pk_buf _ _ _ H : get p (ps s) = _). cbn [mbind option_bind].
  assert (data_start p b = p + 16) as -> by (unfold data_start; destruct (pk_head_carries _ _ _ H) as [-> | ->]; done).
  by rewrite (proj2 (Z.leb_le (p + 16) a)), (proj2 (Z.leb_le _ _) Hn) by done.
Qed.

Lemma peek_run b l a n s : packet extra R p b l s -> p + 16 <= a -> a + n <= data_end p b ->
  peek p a n s = Some (read_bytes (bytes (ps s)) a n, s).
Proof.
  intros H Ha Hn. destruct (wp_run _ _ _ (wp_pk_peek b l a n (fun x s' => x = read_bytes (bytes (ps s)) a n /\ s' = s) s H Ha Hn ltac:(done)))
    as (x & s' & -> & -> & ->). done.
Qed.

Lemma data_end_len b l s : packet extra R p b l s -> type b = PBUF_RAM \/ len b <= p + 528 - payload b -> payload b + len b <= data_end p b.
Proof.
  intros H Ht. unfold data_end. change (SIZEOF_STRUCT_PBUF) with 16. change PBUF_POOL_BUFSIZE_ALIGNED with 512.
  case_bool_decide; [|lia]. destruct Ht; [congruence|lia].
Qed.

Lemma pk_bytes b l m s : packet extra R p b l s -> packet extra R p b l (with_ps (with_bytes m (ps s)) s).
Proof. intros [I ? ? ? ?]. split; try done. by apply inv_bytes. Qed.

(** Writes behind the struct of [p] stay in its block. *)
Lemma block_apart (m : pstate A) B R' a b c d x : pinv m B R' -> bufs m !! a = Some b -> bufs m !! c = Some d -> a ≠ c ->
  carries b -> carries d -> a + 16 <= x < payload b + len b -> x ∈ seqZ (payload d) (len d) -> False.
Proof.
  intros I Ea Ec D Hb Hd Hx Hy.
  destruct (pinv_get _ _ _ _ _ I Ea) as (ka & Eka & (Aa & _ & Ra) & _).
  destruct (pinv_get _ _ _ _ _ I Ec) as (kc & Ekc & (Ac & _ & Rc) & _).
  pose proof (pi_own _ _ _ I) as O. rewrite <-(map_to_list_delete B a ka Eka) in O.
  rewrite <-(map_to_list_delete (delete a B) c kc) in O by (by rewrite lookup_delete_ne).
  cbn [fmap list_fmap snd app] in O. apply owns_disj in O. unfold block_disj in O. apply elem_of_seqZ in Hy.
  assert (payload b + len b <= a + b_size ka) by (destruct Hb as [E|E]; rewrite E in Ra; lia).
  assert (c + 16 <= payload d /\ payload d + len d <= c + b_size kc) by (destruct Hd as [E|E]; by rewrite E in Rc).
  lia.
Qed.

(** A write to the data of [p] or the headers before it. *)
Lemma wp_pk_poke b l a d Q s : packet extra R p b l s -> p + 16 <= a -> a + Z.of_nat (length d) <= payload b + len b ->
  (forall s', s' = with_ps (with_bytes (write_bytes a d (bytes (ps s))) (ps s)) s -> packet extra R p b l s' -> frame extra s s' -> Q tt s') ->
  wp (poke p a d) Q s.
Proof.
  intros H Ha Hn HQ. pose proof (pk_buf _ _ _ H) as E. pose proof (pk_head_carries _ _ _ H) as Cb.
  eapply wp_pbufs_.
  { rewrite (E : get p (ps s) = _). cbn [mbind option_bind].
    assert (data_start p b = p + 16) as -> by (unfold data_start; destruct Cb as [-> | ->]; done).
    rewrite (proj2 (Z.leb_le (p + 16) a)), (proj2 (Z.leb_le _ _) Hn) by done. reflexivity. }
  apply HQ; [done|by apply pk_bytes|]. split; try done. cbn [ps with_ps].
  pose proof (pk_apart _ _ _ H) as Ap. destruct H as [I _ _ _ _]. destruct (ri_pinv _ _ _ (ni_refs _ _ _ I)) as [B Ip].
  intros x c Hx Hc. exists c. split; [done|]. split; [done|]. split; [apply refs_le_refl|]. intros y e Hin He. cbn [bytes with_bytes].
  rewrite !read_bytes_rd. apply list_fmap_ext. intros i z Hz%list_elem_of_lookup_2. unfold rd.
  rewrite write_bytes_wr, wr_lookup_ne; [done|]. intros Hz'. apply elem_of_seqZ in Hz'.
  destruct (chain_elem _ _ _ _ _ _ Hc Hin) as [Ed _].
  eapply (block_apart (ps s) B _ p b y e z); [exact Ip|exact E|exact Ed| |done|done|lia|done].
  intros <-. apply (Ap x c Hx Hc). apply list_elem_of_fmap. by exists (p, e).
Qed.

(** [pbuf_realloc] to [n] bytes. *)
Lemma wp_pk_realloc b l n Q s : packet extra R p b l s -> 0 <= n ->
  (forall b' l' s', packet extra R p b' l' s' -> frame extra s s' -> same_table s s' -> bytes (ps s') = bytes (ps s) ->
    tot_len b' = Z.min n (tot_len b) -> trimmed n (p, b) (p, b') -> (len b' = tot_len b' \/ len b' = len b) ->
    (forall m, contents m ((p, b') :: l') = take (Z.to_nat n) (contents m ((p, b) :: l))) -> Q tt s') ->
  wp (pbufs_ (pbuf_realloc p n)) Q s.
Proof.
  intros H Hn HQ. pose proof (pk_buf _ _ _ H) as E. destruct (pk_bounds _ _ _ H) as (_ & _ & Hl & Htl & _ & Hok).
  pose proof Hok as (Htot & _). destruct (Z.leb_spec (tot_len b) n) as [Hle|Hgt].
  - eapply wp_pbufs_.
    { unfold pbuf_realloc. rewrite (E : get p (ps s) = _). cbn [mbind option_bind]. rewrite (proj2 (Z.leb_le _ _) Hle). reflexivity. }
    replace (with_ps (ps s) s) with s by (by destruct s). apply (HQ b l); [done|apply frame_refl|done|done|lia| | |].
    + unfold trimmed. cbn. do 5 (split; [done|]). split; [lia|by left].
    + by right.
    + intros m. rewrite take_ge; [done|]. pose proof (contents_length m _ Hok) as Hcl. cbn [tot] in Hcl. lia.
  - destruct (pk_alone _ _ _ H) as (_ & _ & Hout & Hd). pose proof H as [I Hc F Fc Po].
    destruct (realloc_refs (ps s) _ _ p _ n (ni_refs _ _ _ I) Hc (proj1 (proj2 Hc)) F Hok ltac:(cbn [tot]; lia))
      as (m & l' & l1 & l2 & Er & Ey & Ir & Hc' & Hok' & Ht & El & Htr & Hz0 & Hcon & Hfr).
    eapply wp_pbufs_; [exact Er|].
    assert (exists b' k, l' = (p, b') :: k /\ trimmed n (p, b) (p, b')) as (b' & k & -> & T).
    { destruct l' as [|[x b'] k]; [destruct Hc as (_ & ? & _); by cbn [chain] in Hc'|]. pose proof Hc' as (<- & _).
      destruct l1 as [|y l1]; [by inversion Htr|]. injection El as <- El. inversion Htr. eauto. }
    assert (forall P : pbuf -> Prop, (forall x y, trimmed n x y -> P x.2 -> P y.2) -> Forall (fun x => P x.2) ((p, b) :: l) ->
      Forall (fun x => P x.2) ((p, b') :: k)) as Tr.
    { intros P HP HF. rewrite El in HF. apply Forall_app in HF as [HF _]. clear -Htr HP HF.
      induction Htr as [|x y l0 l0' T0 _ IH]; [constructor|]. apply Forall_cons in HF as [H1 H2]. constructor; eauto. }
    apply (HQ b' k).
    + split; [|done| | |].
      * rewrite <-with_world_same. eapply inv_pbufs; [exact I|apply I|done|]. intros a c Ha Ec Rc. exists c.
        split; [|by split]. rewrite Hfr; [done|]. apply Hout. set_solver.
      * apply (Tr (fun b => ref b = 1)); [|done]. intros x y (_ & _ & _ & _ & -> & _). done.
      * apply (Tr carries); [|done]. intros x y (_ & _ & Ht' & _). unfold carries. by rewrite Ht'.
      * destruct (decide (n = 0)) as [Hnz|Hnz]; [specialize (Hz0 Hnz); destruct k; [constructor|done]|].
        destruct l1 as [|y l1]; [by inversion Htr|]. injection El as <- El. inversion_clear Htr as [|? ? ? ? _ Htr'].
        unfold all_pos in *. rewrite El in Po. apply Forall_app in Po as [Po _]. assert (0 < n) as Hn' by lia. clear -Htr' Po Hn'. induction Htr' as [|x y l0 l0' T0 _ IH]; [constructor|].
        apply Forall_cons in Po as [H1 H2]. constructor; [|by apply IH].
        destruct T0 as (_ & _ & _ & _ & _ & _ & [[_ ->]|[_ T0]]); [done|auto].
    + split; try done. cbn [ps with_ps]. intros a la Ha Hca. exists la. split; [|split; [done|split; [apply refs_le_refl|by rewrite Ey]]].
      eapply chain_frame; [exact Hca|]. intros x Hx. apply Hfr. intros Hx'.
      apply (Hd a la ltac:(set_solver) Hca x Hx Hx').
    + done.
    + done.
    + destruct Hok' as (Ht' & _). cbn [tot] in Ht. lia.
    + done.
    + destruct T as (_ & _ & _ & _ & _ & _ & [[_ ?]|[Hn' _]]); cbn [snd] in *; [by right|left].
      destruct Hc' as (_ & _ & _ & Hc'). rewrite Hn' in Hc'. assert (k = []) as -> by (destruct k as [|[? ?] ?]; [done|]; by destruct Hc' as (<- & ? & _)).
      destruct Hok' as (Ht' & _). cbn [tot] in Ht'. lia.
    + done.
Qed.

Lemma wp_pk_drop b l Q s : packet extra R p b l s ->
  (forall s', net_inv s' extra R -> frame extra s s' -> same_table s s' -> Q tt s') -> wp (drop_packet p) Q s.
Proof.
  intros [I _ _ _ _] HQ. apply wp_bind. eapply wp_free; [done|]. intros _ s' I' F' T'. apply wp_ret. auto.
Qed.

(** Another packet is freed. *)
Lemma wp_pk_drop_other c b l Q s : packet (c :: extra) R p b l s ->
  (forall s', packet extra R p b l s' -> frame (p :: extra) s s' -> bytes (ps s') = bytes (ps s) -> Q tt s') ->
  wp (drop_packet c) Q s.
Proof.
  intros H HQ. pose proof H as [I Hc F Fc Po]. rewrite (Permutation_swap p c extra) in I || rewrite (Permutation_swap c p extra) in I.
  assert (wp (pbufs (pbuf_free c)) (fun _ s' => net_inv s' (p :: extra) R /\ frame (p :: extra) s s') s) as Hw by (by eapply wp_free).
  pose proof (ni_refs _ _ _ I) as Ir. cbn [app] in Ir. destruct (free_refs _ _ _ _ Ir) as (k & m & E & Ir' & Ey & S).
  apply wp_bind. unfold wp in Hw. unfold pbufs in Hw |- *. unfold wp. rewrite E in Hw |- *. cbn [mbind option_bind] in Hw |- *.
  destruct Hw as [I' F']. apply (wp_ret (X := unit)), HQ; [|done|done].
  split; try done. eapply free_ones; [exact Ir|exact Ir'|exact S|by left|exact Hc|exact F].
Qed.

(** A new pbuf for [n] bytes. *)
Lemma wp_pk_alloc b l layer n Q s : packet extra R p b l s -> 0 <= n < 2 ^ 16 ->
  (forall s', net_inv s' (p :: extra) R -> frame (p :: extra) s s' -> Q 0 s') ->
  (forall r br s', r ≠ 0 -> packet (p :: extra) R r br [] s' -> packet (r :: extra) R p b l s' -> frame (p :: extra) s s' ->
    type br = PBUF_RAM -> len br = n -> tot_len br = n -> r ∉ ((p, b) :: l).*1 -> Q r s') ->
  wp (pbufs (pbuf_alloc layer n PBUF_RAM)) Q s.
Proof.
  intros H Hn H0 H1. eapply (wp_alloc s (p :: extra) R); [apply H|exact Hn|intros; by apply H0|].
  intros r br k s' Hr I' F' _ Hc X (Ty & Rr & _) Hok Hlen Hk. assert (k = []) as -> by (by apply Hk).
  pose proof Hok as (Hl & _). cbn [tot] in Hl. eapply (H1 r br); try done; [| |lia|].
  - split; [done|done|by apply Forall_singleton|apply Forall_singleton; by left|by apply Forall_nil].
  - by eapply pk_extends.
  - intros Hin. apply list_elem_of_fmap in Hin as ([y f] & -> & Hin).
    destruct (chain_elem _ _ _ _ _ _ (pk_chain _ _ _ _ _ _ H) Hin) as [Ef _]. specialize (X y).
    cbn [fst] in X. rewrite decide_True in X by (by left). congruence.
Qed.

(** The data of a packet that is framed. *)
Lemma pk_contents b l s s' : packet extra R p b l s -> frame (p :: extra) s s' ->
  contents (bytes (ps s')) ((p, b) :: l) = contents (bytes (ps s)) ((p, b) :: l).
Proof.
  intros H F. destruct (fr_packets _ _ _ F p _ ltac:(by left) (pk_chain _ _ _ _ _ _ H)) as (_ & _ & _ & _ & Hd).
  apply contents_ext_carried; [apply H|]. intros x f Hin Hf. by eapply Hd.
Qed.

Lemma wp_pk_buf b l Q s : packet extra R p b l s -> Q b s -> wp (the_pbuf p) Q s.
Proof. intros H HQ. eapply wp_gets; [apply (pk_buf _ _ _ H)|done]. Qed.

(** [pbuf_copy] to one pbuf of its size. *)
Lemma wp_pk_copy r br b l Q s : packet (p :: extra) R r br [] s -> packet (r :: extra) R p b l s -> 0 < len b ->
  len br = tot_len b -> r ∉ ((p, b) :: l).*1 ->
  (forall s', packet (p :: extra) R r br [] s' -> packet (r :: extra) R p b l s' -> frame (p :: extra) s s' ->
    data s' br = contents (bytes (ps s)) ((p, b) :: l) -> Q ERR_OK s') ->
  wp (pbufs (pbuf_copy r p)) Q s.
Proof.
  intros Hr Hp Hlp Hl Hnin HQ. pose proof Hr as [I Hcr Fr Cr _]. pose proof Hp as [_ Hcp Fp Cp Po].
  assert (tot_ok [(r, br)]) as Hokr.
  { destruct (ri_chain _ _ _ (ni_refs _ _ _ I) r br (proj1 (proj2 (proj2 Hcr)))) as (k & Hck & Hk).
    by rewrite (chain_det _ _ _ _ Hck Hcr) in Hk. }
  assert (tot_ok ((p, b) :: l)) as Hokp.
  { destruct (ri_chain _ _ _ (ni_refs _ _ _ I) p b (proj1 (proj2 (proj2 Hcp)))) as (k & Hck & Hk).
    by rewrite (chain_det _ _ _ _ Hck Hcp) in Hk. }
  pose proof Hokp as (Htp & _ & _ & Hnn%tot_nonneg). pose proof Hokr as (Htr & _). cbn [tot] in Htr.
  destruct (ri_pinv _ _ _ (ni_refs _ _ _ I)) as [B Ip]. assert (carries br) as Cbr by (by apply Forall_cons in Cr as [? _]).
  destruct (copy_all (ps s) B _ r br [] p b l Ip Hcr Hcp) as (m & Em & Hcont & Hm); try done.
  - repeat constructor. cbn [snd]. lia.
  - by constructor.
  - intros x ->%list_elem_of_singleton. done.
  - lia.
  - eapply wp_pbufs; [exact Em|].
    destruct (exclusive _ _ _ _ _ (ni_refs _ _ _ I) (proj1 (proj2 (proj2 Hcr)))) as (_ & _ & Hex);
      [by apply Forall_cons in Fr as [? _]|].
    assert (frame (p :: extra) s (with_ps (with_bytes m (ps s)) s)) as F2.
    { split; try done. cbn [ps with_ps]. eapply bytes_same; [exact Ip|exact (proj1 (proj2 (proj2 Hcr)))|done| |].
      - intros x Hx. apply Hm. rewrite addrs_cons. change (addrs []) with (@nil Z). by rewrite app_nil_r.
      - intros a c' Ha Hch. eapply Hex; [|exact Hch]. set_solver. }
    apply HQ; [| |done|].
    + eapply pk_same'; [exact Hr|done|by apply inv_bytes].
    + eapply pk_same'; [exact Hp|done|by apply inv_bytes, Hp].
    + unfold data. cbn [ps with_ps bytes with_bytes]. rewrite contents_cons in Hcont.
      change (contents m []) with (@nil Z) in Hcont. rewrite app_nil_r in Hcont. rewrite Hcont.
      rewrite drop_ge, app_nil_r; [done|].
      rewrite contents_cons, length_app, read_bytes_length. cbn. lia.
Qed.

End Incoming.

Section Cat.
Context (extra : list Z) (R : list block) (p : Z).

(** [pbuf_cat] with another pbuf of the same holder. *)
Lemma pk_cat b l q bq s : packet (q :: extra) R p b l s -> bufs (ps s) !! q = Some bq -> next bq = 0 -> ref bq = 1 -> carries bq ->
  0 < len bq -> tot ((p, b) :: l) + tot_len bq < 2 ^ 16 ->
  exists m b' l', pbuf_cat p q (ps s) = Some m /\ packet extra R p b' l' (with_ps m s) /\ frame extra s (with_ps m s) /\
    tot ((p, b') :: l') = tot ((p, b) :: l) + len bq /\ ((p, b') :: l').*1 = ((p, b) :: l).*1 ++ [q].
Proof.
  intros H Eq Hnq Hrq Cq Hlq Ht. destruct (pk_alone _ _ _ _ _ _ H) as (Hnp & Hne & Hout & Hdis). pose proof H as [I Hc F Fc Po].
  destruct (cat_refs (ps s) ((extra ++ queued (arp_table s)) ++ drv (world s)) _ p _ q bq (ni_refs _ _ _ I) Hc (proj1 (proj2 Hc)) F Eq Hnq Hrq Ht)
    as (m & E & _ & Ey & Ir & Hc' & Fr).
  set (L := (p, b) :: l) in *. set (L' := catted q (tot_len bq) L ++ [(q, bq)]) in *.
  assert (L'.*1 = L.*1 ++ [q]) as Hfst by (unfold L'; by rewrite fmap_app, catted_fst).
  assert (exists b' l', L' = (p, b') :: l') as (b' & l' & El).
  { destruct L' as [|[a b'] l']; [by apply (f_equal length) in Hfst; rewrite length_app in Hfst; cbn in Hfst; lia|].
    destruct Hc' as (<- & _). eauto. }
  assert (forall a x, (a, x) ∈ L' -> (a = q /\ x = bq) \/ exists y, (a, y) ∈ L /\ ref x = ref y /\ type x = type y /\ len x = len y) as Hel.
  { intros a x [Hin|Hin]%elem_of_app; [right|left; apply list_elem_of_singleton in Hin; by simplify_eq].
    destruct (catted_elem _ _ _ _ _ _ _ Hc Hin) as (y & Hy & ? & _). by exists y. }
  exists m, b', l'. split; [exact E|]. rewrite <-El. split; [|split; [|split; [|done]]].
  - split.
    + rewrite <-with_world_same. eapply inv_pbufs; [exact I|apply I|exact Ir|].
      intros a c Ha Ec Rc. exists c. split; [|by split]. rewrite Fr; [done|]. apply Hout. set_solver.
    + by rewrite <-El.
    + rewrite <-El. apply Forall_forall. intros [a x] Hx. cbn [snd].
      destruct (Hel a x Hx) as [[_ ->]|(y & Hy & -> & _)]; [done|]. rewrite Forall_forall in F. exact (F _ Hy).
    + rewrite <-El. apply Forall_forall. intros [a x] Hx. cbn [snd]. destruct (Hel a x Hx) as [[_ ->]|(y & Hy & _ & Ht' & _)]; [done|].
      rewrite Forall_forall in Fc. pose proof (Fc _ Hy) as Cy. unfold carries in *. cbn [snd] in *. by rewrite Ht'.
    + apply Forall_forall. intros [a x] Hx. cbn [snd]. assert ((a, x) ∈ L') as Hx' by (rewrite El; by right).
      destruct (Hel a x Hx') as [[_ ->]|(y & Hy & _ & _ & ->)]; [done|]. unfold all_pos in Po. rewrite Forall_forall in Po.
      unfold L in Hy. apply elem_of_cons in Hy as [[= -> ->]|Hy]; [|exact (Po _ Hy)]. exfalso.
      assert (NoDup L'.*1) as N by by eapply chain_nodup.
      rewrite El, fmap_cons in N. apply NoDup_cons in N as [N _]. apply N. apply list_elem_of_fmap. by exists (p, x).
  - split; try done. cbn [ps with_ps]. intros a la Ha Hca. exists la.
    split; [|split; [done|split; [apply refs_le_refl|intros x c _ _; by rewrite Ey]]].
    eapply chain_frame; [exact Hca|]. intros x Hx. apply Fr. intros Hx'. exact (Hdis a la ltac:(set_solver) Hca x Hx Hx').
  - unfold L'. rewrite tot_app, catted_tot. cbn [tot]. lia.
Qed.

End Cat.

(** *** An IP packet that comes in *)

(** An IP packet as [ip_input] gets it and hands it on: in buffers of the pool,
    the IP header behind the Ethernet header at the start of the first, which
    holds the whole packet or is filled. *)
Record ip_packet extra R (p : Z) (b : pbuf) (l : list (Z * pbuf)) s : Prop := {
  ip_pk : packet extra R p b l s;
  ip_pool : Pbuf.type b = PBUF_POOL;
  ip_at : payload b = p + 30;
  ip_first : len b = tot_len b \/ 114 <= len b;
  ip_tot : tot_len b + 50 < 2 ^ 16 }.

Lemma pool_end p b : Pbuf.type b = PBUF_POOL -> data_end p b = p + 528.
Proof. intros E. unfold data_end. change SIZEOF_STRUCT_PBUF with 16. change PBUF_POOL_BUFSIZE_ALIGNED with 512. case_bool_decide; [lia|congruence]. Qed.

Lemma ip_data_end extra R p b l s : ip_packet extra R p b l s -> data_end p b = p + 528.
Proof. intros [_ E _ _ _]. by apply pool_end. Qed.

Lemma ip_stats extra R p b l f s : ip_packet extra R p b l s -> ip_packet extra R p b l (with_stats f s).
Proof. intros []. split; try done. by apply pk_stats. Qed.

Lemma hl4_range v : 0 <= IPH_HL4 v <= 60.
Proof.
  unfold IPH_HL4. pose proof (Z.land_nonneg (byte1 v) 15). pose proof (Z.land_ones (byte1 v) 4 ltac:(lia)) as E.
  change (Z.ones 4) with 15 in E. change 0x0f with 15. rewrite E. pose proof (Z.mod_pos_bound (byte1 v) (2 ^ 4) ltac:(lia)). lia.
Qed.

(** The length of the header of the packet. *)
Definition hlen_of s (b : pbuf) : Z := IPH_HL4 (read_bytes (bytes (ps s)) (payload b) 1).

(** A header of 20 bytes or more, which is in the first pbuf unless the packet is
    shorter than its header. *)
Definition header_ok s (b : pbuf) : Prop :=
  20 <= hlen_of s b /\ (hlen_of s b <= len b \/ tot_len b < hlen_of s b).

(** The packet has been freed or handed on, and nothing else is touched. *)
Record taken extra R s s' : Prop := {
  tk_inv : net_inv s' extra R;
  tk_same : same_packets (ps s) (ps s') extra;
  tk_keeps : keeps s s' }.

Lemma taken_trans extra R s1 s2 s3 : same_packets (ps s1) (ps s2) extra -> keeps s1 s2 -> taken extra R s2 s3 -> taken extra R s1 s3.
Proof. intros P K [I' P' K']. split; [done|by eapply same_packets_trans|by eapply keeps_trans]. Qed.

Lemma taken_frame extra R s s' : net_inv s' extra R -> frame extra s s' -> taken extra R s s'.
Proof. intros I F. destruct (frame_keeps _ _ _ F). by split. Qed.

End Correct.

(** ** Examples *)

(** A frame of 150 bytes as the driver of the MAC has it, in a pbuf of the pool. *)
Definition ps_rx : Z * pstate lwip_mem := after (0, ps0) (pbuf_alloc PBUF_RAW 150 PBUF_POOL ps0).
Definition rx : Z := Eval vm_compute in ps_rx.1.
Definition rx_b : pbuf := Eval vm_compute in default (mk_pbuf 0 0 0 0 PBUF_RAM 0 0) (bufs ps_rx.2 !! rx).
Definition net_rx : net lwip_mem wire := with_ps ps_rx.2 net0.

Lemma net_rx_inv : net_inv net_rx [rx] [].
Proof.
  eapply (alloc_inv net0 [] [] PBUF_RAW 150 PBUF_POOL rx ps_rx.2 (0, ps0)); [exact net0_inv|lia| |done].
  change (ps net0) with ps0. unfold ps_rx. apply injective_projections; cbn [fst snd]; [by vm_compute|reflexivity].
Qed.

Lemma net_rx_bufs : bufs (ps net_rx) = {[rx := rx_b]}.
Proof. by vm_compute. Qed.

(** The frame [l] is in it, and the rest of the stack is [s]. *)
Definition with_rx (l : list Z) (s : net lwip_mem wire) : net lwip_mem wire :=
  with_ps (with_bytes (write_bytes (payload rx_b) l (bytes (ps s))) (ps s)) s.

Lemma with_rx_packet l s : net_inv s [rx] [] -> bufs (ps s) = {[rx := rx_b]} -> packet [] [] rx rx_b [] (with_rx l s).
Proof.
  intros I Hb. split.
  - by apply inv_bytes.
  - cbn [with_rx ps with_ps bufs with_bytes]. rewrite Hb. cbn [chain]. split; [done|]. split; [vm_compute; discriminate|].
    split; [apply lookup_singleton_eq|done].
  - by repeat constructor.
  - constructor; [by right|constructor].
  - constructor.
Qed.

Lemma with_rx_data l s : Z.of_nat (length l) <= 150 -> data (with_rx l s) rx_b = l ++ drop (length l) (data s rx_b).
Proof.
  intros Hl. unfold data, with_rx. cbn [ps with_ps bytes with_bytes]. rewrite <-(Z.add_0_r (payload rx_b)) at 1.
  rewrite read_write by (change (len rx_b) with 150; lia). done.
Qed.

(** The same at the IP header. *)
Definition rx_ip : pbuf := header_moved (-14) rx_b.
Definition at_ip (s : net lwip_mem wire) : net lwip_mem wire := with_ps (put rx rx_ip (ps s)) s.

Lemma at_ip_packet l s : net_inv s [rx] [] -> bufs (ps s) = {[rx := rx_b]} -> ip_packet [] [] rx rx_ip [] (at_ip (with_rx l s)).
Proof.
  intros I Hb. pose proof (with_rx_packet l s I Hb) as H.
  assert (wp (pbufs (pbuf_header rx (-14))) (fun _ s' => s' = at_ip (with_rx l s) /\ packet [] [] rx rx_ip [] s') (with_rx l s)) as Hw.
  { eapply wp_pk_header; [exact H|done|by apply Z.leb_le; vm_compute|by apply Z.ltb_lt; vm_compute| |].
    - intros Hf. by vm_compute in Hf.
    - intros s' _ -> P _. by split. }
  destruct (wp_run _ _ _ Hw) as (? & s' & _ & -> & P). by split; [| | |left|].
Qed.

Lemma net_rx_clients : clients_ok net_rx /\ listed net_rx.
Proof.
  assert (netifs net_rx = {[0x100 := demo_netif]} /\ netif_list net_rx = [0x100] /\ netif_default net_rx = 0x100) as (E & El & Ed) by done.
  split; split; rewrite ?E, ?El, ?Ed.
  - by apply NoDup_singleton.
  - intros n ->%list_elem_of_singleton. rewrite lookup_singleton_eq. by eexists.
  - intros n nif [<- <-]%lookup_singleton_Some Hz. by destruct Hz.
  - intros n m nif nif' [<- <-]%lookup_singleton_Some [<- <-]%lookup_singleton_Some. done.
  - intros n ->%list_elem_of_singleton. rewrite lookup_singleton_eq. split; [done|by eexists].
  - intros _. rewrite lookup_singleton_eq. by eexists.
  - intros n nif [<- <-]%lookup_singleton_Some Hz. by destruct Hz.
Qed.

Lemma at_ip_keeps l s : clients_ok s -> listed s -> clients_ok (at_ip (with_rx l s)) /\ listed (at_ip (with_rx l s)).
Proof. intros [] []. split; by split. Qed.

End Packet.
