(* ===== verification/IpOut.v ===== *)
(** * Sending IP packets

    [ip_route], [ip_output_if] and [ip_output] of ip.c.  IP_OPTIONS_SEND, IP_FRAG,
    ENABLE_LOOPBACK and the generation of the header checksum are off in the
    configuration (the MAC inserts the checksum). *)
From S2P Require Import Prelude Alloc Pbuf PbufData Chksum IpAddr Refs Net Etharp Wire ArpCache Netif Packet.
Import Alloc Pbuf PbufData Refs Net Etharp Wire ArpCache Netif Packet.

Module IpOut.
Local Open Scope net_scope.

Definition IP_HLEN : Z := 20.
Definition IP_PROTO_ICMP : Z := 1.
Definition IP_PROTO_TCP : Z := 6.
Definition IP_PROTO_UDP : Z := 17.

Definition set_raws (m : gmap Z raw_pcb) (h : Z) (i : ipstate) : ipstate :=
  mk_ipstate (ip_id i) (current_netif i) (current_header i) (current_iphdr_src i) (current_iphdr_dest i)
    (udps i) (udp_pcbs i) (udp_port i) m h (dhcps i).
Definition set_udps (m : gmap Z udp_pcb) (h : Z) (i : ipstate) : ipstate :=
  mk_ipstate (ip_id i) (current_netif i) (current_header i) (current_iphdr_src i) (current_iphdr_dest i)
    m h (udp_port i) (raws i) (raw_pcbs i) (dhcps i).
Definition set_udp_port (x : Z) (i : ipstate) : ipstate :=
  mk_ipstate (ip_id i) (current_netif i) (current_header i) (current_iphdr_src i) (current_iphdr_dest i)
    (udps i) (udp_pcbs i) x (raws i) (raw_pcbs i) (dhcps i).
Definition set_current (n h src dest : Z) (i : ipstate) : ipstate :=
  mk_ipstate (ip_id i) n h src dest (udps i) (udp_pcbs i) (udp_port i) (raws i) (raw_pcbs i) (dhcps i).
Definition set_ip_id (x : Z) (i : ipstate) : ipstate :=
  mk_ipstate x (current_netif i) (current_header i) (current_iphdr_src i) (current_iphdr_dest i)
    (udps i) (udp_pcbs i) (udp_port i) (raws i) (raw_pcbs i) (dhcps i).

(** ** Operations *)

Section Operations.
Context {A W : Type} {ops : alloc_ops A} {lops : link_ops A W}.

Definition the_ips : M A W ipstate := gets (fun s => Some (ips s)).
Definition set_ips (f : ipstate -> ipstate) : M A W unit := modify (fun s => with_ips (f (ips s)) s).

(** [memp_malloc] and [memp_free] *)
Definition memp_malloc (t : nat) : M A W Z :=
  pbufs (fun s => '(p, a) ← pool_malloc t (al s); Some (p, with_al a s)).
Definition memp_free (t : nat) (p : Z) : M A W unit :=
  pbufs_ (fun s => a ← pool_free t p (al s); Some (with_al a s)).

(** The loop of [ip_route] over the interfaces. *)
Fixpoint route_loop (dest : Z) (l : list Z) : M A W Z :=
  match l with
  | [] => ret 0
  | n :: l =>
      nif <- the_netif n ;;
      if netif_is_up nif && IpAddr.ip_addr_netcmp dest (ip_addr nif) (netmask nif) then ret n
      else route_loop dest l
  end.

Definition ip_route (dest : Z) : M A W Z :=
  l <- gets (fun s => Some (netif_list s)) ;;
  n <- route_loop dest l ;;
  if negb (n =? 0) then ret n
  else
    d <- gets (fun s => Some (netif_default s)) ;;
    down <- (if d =? 0 then ret true else nif <- the_netif d ;; ret (negb (netif_is_up nif))) ;;
    if down : bool then inc_stat ip_rterr ;; ret 0 else ret d.

(** The IP header in front of [p], field by field in the order of the code; [src]
    is 0 for IP_ADDR_ANY and NULL. *)
Definition write_ip_header (p src dest ttl tos proto n : Z) : M A W unit :=
  store p 8 [u8 ttl] ;;
  store p 9 [u8 proto] ;;
  store p 16 (bytes32 dest) ;;
  store p 0 [Z.lor (Z.shiftl 4 4) (IP_HLEN / 4)] ;;
  store p 1 [tos] ;;
  b <- the_pbuf p ;;
  store p 2 (bytes16 (Chksum.lwip_htons (tot_len b))) ;;
  store p 6 (bytes16 0) ;;
  i <- the_ips ;;
  store p 4 (bytes16 (Chksum.lwip_htons (ip_id i))) ;;
  set_ips (fun i => set_ip_id (u16 (ip_id i + 1)) i) ;;
  nif <- the_netif n ;;
  store p 12 (bytes32 (if ip_addr_isany src then ip_addr nif else src)) ;;
  store p 10 (bytes16 0).

(** [dest] is [None] for IP_HDRINCL.  [netif->output] is [etharp_output]. *)
Definition ip_output_if (p src : Z) (dest : option Z) (ttl tos proto n : Z) : M A W Z :=
  match dest with
  | Some dest =>
      e <- pbufs (pbuf_header p IP_HLEN) ;;
      if negb (e =? 0) then inc_stat ip_err ;; ret ERR_BUF
      else
        write_ip_header p src dest ttl tos proto n ;;
        inc_stat ip_xmit ;;
        etharp_output n p dest
  | None =>
      d <- load p 16 4 ;;
      inc_stat ip_xmit ;;
      etharp_output n p (le32 d)
  end.

Definition ip_output (p src dest ttl tos proto : Z) : M A W Z :=
  n <- ip_route dest ;;
  if n =? 0 then inc_stat ip_rterr ;; ret ERR_RTE
  else ip_output_if p src (Some dest) ttl tos proto n.

End Operations.

(** ** Routing *)

(** The interface of the list that is on the network of [dest]. *)
Definition on_net {A W} (s : net A W) (dest n : Z) : Prop :=
  exists nif, netifs s !! n = Some nif /\ netif_is_up nif = true /\ IpAddr.ip_addr_netcmp dest (ip_addr nif) (netmask nif) = true.

Definition is_up {A W} (s : net A W) (n : Z) : Prop := exists nif, netifs s !! n = Some nif /\ netif_is_up nif = true.

(** The route to [dest]: the first interface on its network, or else the default
    interface if it is up. *)
Inductive routes {A W} (s : net A W) (dest : Z) : Z -> Prop :=
  | route_net l1 n l2 : netif_list s = l1 ++ n :: l2 -> on_net s dest n -> (forall m, m ∈ l1 -> ~ on_net s dest m) ->
      routes s dest n
  | route_default : (forall m, m ∈ netif_list s -> ~ on_net s dest m) -> netif_default s ≠ 0 -> is_up s (netif_default s) ->
      routes s dest (netif_default s)
  | route_none : (forall m, m ∈ netif_list s -> ~ on_net s dest m) ->
      (netif_default s = 0 \/ ~ is_up s (netif_default s)) -> routes s dest 0.

(** Store after store in the state of [O]. *)
Ltac own_stores p O Step :=
  repeat match type of O with own_state _ _ _ _ _ _ ?sx =>
    match goal with |- context [bind (store p ?off ?l) _ sx] =>
      let E' := fresh "E" in let O' := fresh "O" in let s' := fresh "s" in
      destruct (Step off l _ _ ltac:(lia) ltac:(cbn [length bytes16 bytes32]; lia) O)
        as (s' & E' & O'); rewrite (bind_run _ _ _ _ _ E'); clear E' O; rename O' into O
    end end.

Section Correct.
Context {A W : Type} {ops : alloc_ops A} {laws : alloc_laws A} {lops : link_ops A W} {llaws : link_laws A W}.
Implicit Types s : net A W.

Lemma route_loop_spec dest s : forall l pre, netif_list s = pre ++ l ->
  (forall n, n ∈ l -> n ≠ 0 /\ is_Some (netifs s !! n)) -> (forall m, m ∈ pre -> ~ on_net s dest m) ->
  (route_loop dest l s = Some (0, s) /\ forall m, m ∈ netif_list s -> ~ on_net s dest m) \/
  exists n l1 l2, route_loop dest l s = Some (n, s) /\ n ≠ 0 /\ netif_list s = l1 ++ n :: l2 /\ on_net s dest n /\
    forall m, m ∈ l1 -> ~ on_net s dest m.
Proof.
  induction l as [|n l IH]; intros pre El Hl Hpre; cbn [route_loop].
  - left. split; [done|]. intros m Hm. apply Hpre. rewrite El, app_nil_r in Hm. done.
  - destruct (Hl n ltac:(by left)) as (Hz & nif & En).
    rewrite (bind_run (the_netif n) _ s nif s) by (unfold the_netif, gets; by rewrite En).
    destruct (netif_is_up nif && _) eqn:D.
    + apply andb_true_iff in D as [D1 D2]. right. exists n, pre, l. split_and!; try done. by exists nif.
    + apply (IH (pre ++ [n])); [by rewrite <-app_assoc|intros m Hm; apply Hl; by right|].
      intros m [Hm| ->%list_elem_of_singleton]%elem_of_app; [by apply Hpre|].
      intros (x & Ex & Hu & Hn). rewrite En in Ex. injection Ex as <-. by rewrite Hu, Hn in D.
Qed.

Lemma wp_route dest Q s : listed s ->
  (forall n f, routes s dest n -> Q n (with_stats f s)) -> wp (ip_route dest) Q s.
Proof.
  intros [Hl Hd _] HQ. assert (forall n, routes s dest n -> Q n s) as HQ0.
  { intros n Hn. specialize (HQ n (lwip_stats s) Hn). by destruct s. }
  unfold ip_route. apply wp_bind. eapply wp_gets; [done|]. unfold wp, bind.
  destruct (route_loop_spec dest s (netif_list s) [] eq_refl Hl ltac:(set_solver)) as [[-> Hno]|(n & l1 & l2 & -> & Hz & El & Hon & Hb)].
  - cbn [Z.eqb negb]. unfold gets at 1. cbn [mbind option_bind]. destruct (Z.eqb_spec (netif_default s) 0) as [Hz|Hz].
    + cbn. apply HQ, route_none; [done|by left].
    + destruct (Hd Hz) as (nif & En). unfold bind, the_netif, gets. rewrite En. cbn [mbind option_bind].
      unfold ret. destruct (netif_is_up nif) eqn:Hu; cbn [negb].
      * apply HQ0, route_default; [done|done|by exists nif].
      * cbn. apply HQ, route_none; [done|]. right. intros (x & Ex & Hx). congruence.
  - rewrite (proj2 (Z.eqb_neq n 0)) by done. cbn. apply HQ0. by eapply route_net.
Qed.

Lemma route_netif s dest n : routes s dest n -> n ≠ 0 -> is_Some (netifs s !! n).
Proof. intros [? m ? _ (nif & E & _) _|_ _ (nif & E & _)|] Hz; [by exists nif|by exists nif|done]. Qed.

(** ** The header *)

(** A 16-bit number in network byte order. *)
Definition be16 (x : Z) : list Z := [x / 256; x mod 256].

(** The IPv4 header without options (RFC 791), its checksum left to the MAC. *)
Definition ip_header (tos len id ttl proto src dest : Z) : list Z :=
  [0x45; tos] ++ be16 len ++ be16 id ++ [0; 0] ++ [ttl; proto; 0; 0] ++ bytes32 src ++ bytes32 dest.

Lemma bytes16_htons x : in_u 16 x -> bytes16 (Chksum.lwip_htons x) = be16 x.
Proof.
  intros Hx. rewrite Chksum.htons_swap, Chksum.swap_div. unfold bytes16, be16, in_u in *. cint_pow.
  f_equal; [|f_equal]; Z.div_mod_to_equations; lia.
Qed.

Lemma ips_id_ok i x : ips_ok i -> in_u 16 x -> ips_ok (set_ip_id x i).
Proof. intros [] ?. by split. Qed.

Lemma refs_mem (m : pstate A) refs R R' : R ≡ₚ R' -> refs_inv m refs R -> refs_inv m refs R'.
Proof.
  intros E [(B & [O ? ? ?]) ? ? ? ?]. split; try done. exists B. split; try done. eapply owns_perm; [|exact O]. by rewrite E.
Qed.

(** Memory changes hands between the pcbs and others. *)
Lemma inv_ips_perm s extra R R' i : net_inv s extra R -> ips_ok i -> R ++ pcb_mem (ips s) ≡ₚ R' ++ pcb_mem i ->
  net_inv (with_ips i s) extra R'.
Proof.
  intros [Ir ? ? ? ? ? ? ? ?] Hi Hm. split; try done. cbn [ips with_ips ps arp_table world]. eapply refs_mem; [|exact Ir].
  by rewrite Hm.
Qed.

Lemma inv_ips s extra R i : net_inv s extra R -> ips_ok i -> pcb_mem i ≡ₚ pcb_mem (ips s) -> net_inv (with_ips i s) extra R.
Proof. intros I Hi Hm. eapply inv_ips_perm; [exact I|done|]. by rewrite Hm. Qed.

(** A change of the allocator. *)
Lemma inv_alloc s extra R R' a : net_inv s extra R -> pool_elem_size a = pool_elem_size (al (ps s)) ->
  (forall L, owns (al (ps s)) (R ++ L) -> owns a (R' ++ L)) ->
  net_inv (with_ps (with_al a (ps s)) s) extra R' /\ frame extra s (with_ps (with_al a (ps s)) s).
Proof.
  intros I Ep Ho. split; [|split; try done; apply (same_packets_refl (ps s))].
  destruct I as [[(B & [O ? ? ?]) ? ? ? ?] ? ? ? ? ? ? ? ?]. split; try done. split; try done.
  exists B. split; try done; cbn [al with_al ps with_ps]; [|by rewrite Ep].
  eapply owns_perm; [|apply (Ho (pcb_mem (ips s) ++ held (world s) ++ (map_to_list B).*2)); eapply owns_perm; [|exact O]];
    rewrite <-!app_assoc; solve_Permutation.
Qed.

Definition pool_size (t : nat) : Z := if decide (t = MEMP_UDP_PCB) then 32 else 28.

Lemma wp_memp_malloc extra R t Q s : net_inv s extra R -> t = MEMP_RAW_PCB \/ t = MEMP_UDP_PCB ->
  (forall s', net_inv s' extra R -> frame extra s s' -> ips s' = ips s -> Q 0 s') ->
  (forall p s', p ≠ 0 -> net_inv s' extra (mk_block p (Pool t) (pool_size t) :: R) -> frame extra s s' -> ips s' = ips s -> Q p s') ->
  wp (memp_malloc t) Q s.
Proof.
  intros I Ht H0 H1. destruct (ri_pinv _ _ _ (ni_refs _ _ _ I)) as [B [Ho _ _ Hpl]].
  assert (pool_elem_size (al (ps s)) t = Some (pool_size t)) as Hsz by (destruct Ht as [-> | ->]; apply Hpl).
  destruct (pool_malloc_law _ _ t _ Ho Hsz) as (p & a & E & Ep & _). eapply wp_pbufs; [by rewrite E|].
  assert (forall L, owns (al (ps s)) (R ++ L) -> (p = 0 /\ owns a (R ++ L)) \/ (p ≠ 0 /\ owns a ((mk_block p (Pool t) (pool_size t) :: R) ++ L))) as HL.
  { intros L OL. destruct (pool_malloc_law _ _ t _ OL Hsz) as (p' & a' & E' & _ & H'). rewrite E in E'. by injection E' as <- <-. }
  destruct (decide (p = 0)) as [->|Hp].
  - destruct (inv_alloc s extra R R a I Ep) as [I' F']; [intros L OL; by destruct (HL L OL) as [[_ ?]|[? _]]|]. by apply H0.
  - destruct (inv_alloc s extra R _ a I Ep (fun L OL => match HL L OL with or_introl H => match Hp (proj1 H) with end | or_intror H => proj2 H end))
      as [I' F']. by apply H1.
Qed.

Lemma wp_memp_free extra R t p Q s : net_inv s extra (mk_block p (Pool t) (pool_size t) :: R) ->
  (forall s', net_inv s' extra R -> frame extra s s' -> ips s' = ips s -> Q tt s') -> wp (memp_free t p) Q s.
Proof.
  intros I HQ. destruct (ri_pinv _ _ _ (ni_refs _ _ _ I)) as [B [Ho _ _ _]].
  assert (forall L, owns (al (ps s)) ((mk_block p (Pool t) (pool_size t) :: R) ++ L) ->
    exists a, pool_free t p (al (ps s)) = Some a /\ pool_elem_size a = pool_elem_size (al (ps s)) /\ owns a (R ++ L)) as HL
    by (intros L OL; by apply pool_free_law in OL).
  destruct (HL (pcb_mem (ips s) ++ held (world s) ++ (map_to_list B).*2)) as (a & E & Ep & _).
  { eapply owns_perm; [|exact Ho]. rewrite <-!app_assoc. solve_Permutation. }
  eapply wp_pbufs_; [by rewrite E|]. destruct (inv_alloc s extra _ R a I Ep) as [I' F']; [|by apply HQ].
  intros L OL. destruct (HL L OL) as (a' & E' & _ & O'). rewrite E in E'. by injection E' as <-.
Qed.

Lemma own_refl s extra R p b : net_inv s (p :: extra) R ->
  own_state s p b extra R (read_bytes (bytes (ps s)) (payload b) (len b)) s.
Proof. intros I. split; [by destruct s|done|done|apply frame_refl|done]. Qed.

Section Header.
Context (s0 : net A W) (extra : list Z) (R : list block) (p : Z) (b : pbuf).
Context (I0 : net_inv s0 (p :: extra) R) (E0 : bufs (ps s0) !! p = Some b) (Cb : carries b) (Ap : apart p extra s0).

(** One field of a header of [k] bytes. *)
Lemma own_store k off l L s : k <= len b -> 0 <= off -> off + Z.of_nat (length l) <= k -> own_state s0 p b extra R L s ->
  exists s', store p off l s = Some (tt, s') /\ own_state s0 p b extra R (splice off l L) s'.
Proof. intros Hk Ho Hl O. apply own_step; try done. lia. Qed.

Lemma own_with_ips L s i : own_state s0 p b extra R L s -> ips_ok i -> pcb_mem i = pcb_mem (ips s0) ->
  net_inv (with_ips i s) (p :: extra) R /\ same_packets (ps s0) (ps s) extra /\ bufs (ps s) = bufs (ps s0) /\
  read_bytes (bytes (ps s)) (payload b) (len b) = L /\ s = with_ps (ps s) s0.
Proof.
  intros [Hp Hb I F D] Hi Hm. split_and!; try done; [|apply F]. apply inv_ips; [done|done|]. rewrite Hm. by rewrite Hp.
Qed.

End Header.

Lemma write_ip_header_run s extra R p b src dest ttl tos proto n nif :
  net_inv s (p :: extra) R -> bufs (ps s) !! p = Some b -> carries b -> apart p extra s -> 20 <= len b ->
  in_u 16 (tot_len b) -> netifs s !! n = Some nif ->
  exists m, let s' := with_ips (set_ip_id (u16 (ip_id (ips s) + 1)) (ips s)) (with_ps m s) in
    write_ip_header p src dest ttl tos proto n s = Some (tt, s') /\ net_inv s' (p :: extra) R /\
    same_packets (ps s) m extra /\ bufs m = bufs (ps s) /\
    read_bytes (bytes m) (payload b) (len b) =
      ip_header tos (tot_len b) (ip_id (ips s)) (u8 ttl) (u8 proto) (if ip_addr_isany src then ip_addr nif else src) dest ++
      drop 20 (read_bytes (bytes (ps s)) (payload b) (len b)).
Proof.
  intros I E Cb Ap Hl Ht En. pose proof (own_refl s extra R p b I) as O. set (L0 := read_bytes _ _ _) in O |- *.
  assert (length L0 = Z.to_nat (len b)) as HL0 by apply read_bytes_length.
  assert (forall off l L s1, 0 <= off -> off + Z.of_nat (length l) <= 20 -> own_state s p b extra R L s1 ->
    exists s', store p off l s1 = Some (tt, s') /\ own_state s p b extra R (splice off l L) s') as Step
    by (intros; by eapply own_store).
  unfold write_ip_header. own_stores p O Step.
  match type of O with own_state _ _ _ _ _ _ ?sx => rewrite (bind_run (the_pbuf p) _ sx b sx)
    by (unfold the_pbuf, gets, get; rewrite (os_bufs _ _ _ _ _ _ _ O), E; done) end.
  own_stores p O Step.
  match type of O with own_state _ _ _ _ _ _ ?sx => rewrite (bind_run the_ips _ sx (ips s) sx)
    by (rewrite (os_ps _ _ _ _ _ _ _ O); done) end.
  own_stores p O Step.
  match type of O with own_state _ _ _ _ _ ?L ?sx => set (L1 := L) in O; set (t1 := sx) in O |- * end.
  set (i := set_ip_id (u16 (ip_id (ips s) + 1)) (ips s)).
  assert (ips t1 = ips s) as Hips by (rewrite (os_ps _ _ _ _ _ _ _ O); done).
  rewrite (bind_run _ _ t1 tt (with_ips i t1)) by (unfold set_ips, modify; by rewrite Hips).
  destruct (own_with_ips s extra R p b L1 t1 i O) as (I1 & P1 & B1 & D1 & Hs1);
    [apply ips_id_ok; [apply (ni_ips _ _ _ I)|by apply wrap_range]|done|].
  clear Step O. set (t2 := with_ips i t1) in *.
  assert (own_state t2 p b extra R L1 t2) as O by (rewrite <-D1; apply (own_refl t2); exact I1).
  assert (bufs (ps t2) !! p = Some b) as E2 by (cbn [t2 ps with_ips]; by rewrite B1).
  assert (apart p extra t2) as Ap2.
  { intros a c Ha Hc. cbn [t2 ps with_ips] in Hc. rewrite B1 in Hc. by eapply Ap. }
  assert (forall off l L s1, 0 <= off -> off + Z.of_nat (length l) <= 20 -> own_state t2 p b extra R L s1 ->
    exists s', store p off l s1 = Some (tt, s') /\ own_state t2 p b extra R (splice off l L) s') as Step
    by (intros; by eapply (own_store t2)).
  rewrite (bind_run (the_netif n) _ t2 nif t2) by (unfold the_netif, gets; cbn [t2 netifs with_ips]; rewrite Hs1; cbn; by rewrite En).
  own_stores p O Step.
  destruct (Step 10 (bytes16 0) _ _ ltac:(lia) ltac:(cbn; lia) O) as (t4 & E4 & O4). rewrite E4. clear Step O E4.
  exists (ps t4). destruct O4 as [H4 B4 I4 F4 D4]. assert (t4 = with_ips i (with_ps (ps t4) s)) as Hs4.
  { rewrite H4 at 1. subst t2. rewrite Hs1. done. }
  cbv zeta. fold i. rewrite <-Hs4. split; [done|]. split; [done|]. split; [|split].
  - eapply same_packets_trans; [exact P1|]. apply F4.
  - rewrite B4. exact B1.
  - rewrite D4. subst L1. rewrite !bytes16_htons by (done || apply (ni_ips _ _ _ I)).
    do 20 (destruct L0 as [|? L0]; [cbn in HL0; lia|]). reflexivity.
Qed.

(** ** Sending *)

(** A packet to send: the first pbuf of its chain, which no other packet of the
    caller has in it. *)
Record sending (extra : list Z) (R : list block) (p : Z) (b : pbuf) s : Prop := {
  sn_inv : net_inv s (p :: extra) R;
  sn_buf : bufs (ps s) !! p = Some b;
  sn_carries : carries b;
  sn_head : ~ has_pred (bufs (ps s)) p;
  sn_own : p ∉ extra }.

Lemma packet_sending extra R p b l s : packet extra R p b l s -> sending extra R p b s.
Proof.
  intros H. destruct (pk_alone _ _ _ _ _ _ H) as (? & ? & _). split; try done; [apply H|by eapply pk_buf|by eapply pk_head_carries].
Qed.

Lemma sn_bounds extra R p b s : sending extra R p b s ->
  20 <= payload b /\ p + 16 <= payload b /\ 0 <= len b <= tot_len b /\ tot_len b < 2 ^ 16 /\ payload b + len b < 2 ^ 32.
Proof.
  intros [I E Cb _ _]. pose proof (ri_nonzero _ _ _ _ _ (ni_refs _ _ _ I) E) as [Hz Hm].
  assert (4 <= p) by (Z.div_mod_to_equations; lia). pose proof (payload_bound _ _ _ _ _ I E Cb) as Hpb.
  destruct (ri_pinv _ _ _ (ni_refs _ _ _ I)) as [B Ip]. destruct (pinv_get _ _ _ _ _ Ip E) as (k & _ & (_ & _ & Hk) & _).
  destruct (ri_chain _ _ _ (ni_refs _ _ _ I) p b E) as (l' & _ & (? & ? & ? & Hl%tot_nonneg)).
  destruct Cb as [Ct|Ct]; rewrite Ct in Hk; split_and!; try done; lia.
Qed.

Lemma sn_apart extra R p b s : sending extra R p b s -> apart p extra s.
Proof. intros []. by apply apart_head. Qed.

Lemma sn_outgoing extra R p b s : sending extra R p b s -> 20 <= len b -> tot_len b + SIZEOF_ETH_HDR < 2 ^ 16 ->
  outgoing p (p :: extra) s b.
Proof.
  intros H Hl Ht. destruct (sn_bounds _ _ _ _ _ H) as (? & ? & ? & ? & ?). destruct H. split; try done.
  - split; [by left|done|done].
  - split; [unfold SIZEOF_ETH_HDR; lia|done].
Qed.

(** Steps that leave the structs alone. *)
Lemma sn_same extra R p b s s' : sending extra R p b s -> bufs (ps s') = bufs (ps s) -> net_inv s' (p :: extra) R ->
  sending extra R p b s'.
Proof. intros [_ ? ? ? ?] E I'. by split; rewrite ?E. Qed.

Lemma has_pred_put (m : gmap Z pbuf) p b b' : m !! p = Some b -> next b' = next b -> has_pred (<[p := b']> m) p <-> has_pred m p.
Proof.
  intros E En. unfold has_pred. split; intros (x & L); exists x; by apply (link_insert m p b b' x p E En).
Qed.

(** The move of the data pointer. *)
Lemma sn_header extra R p b inc s : sending extra R p b s -> in_s 16 inc -> inc ≠ 0 -> inc <= 20 -> tot_len b + inc < 2 ^ 16 ->
  (header_fits p inc b = false /\ pbufs (pbuf_header p inc) s = Some (1, s)) \/
  (header_fits p inc b = true /\ let s' := with_ps (put p (header_moved inc b) (ps s)) s in
    pbufs (pbuf_header p inc) s = Some (0, s') /\ sending extra R p (header_moved inc b) s' /\ frame extra s s').
Proof.
  intros H Hi Hz H20 Ht. destruct (sn_bounds _ _ _ _ _ H) as (Hp20 & Hp & Hl & Htl & Hb). pose proof H as [I E Cb Hh Hn].
  assert (wp (pbufs (pbuf_header p inc)) (fun e s' => (header_fits p inc b = false /\ e = 1 /\ s' = s) \/
    (header_fits p inc b = true /\ e = 0 /\ net_inv s' (p :: extra) R /\ frame extra s s' /\
     s' = with_ps (put p (header_moved inc b) (ps s)) s)) s) as Hw.
  { eapply (wp_header s (p :: extra) extra R p inc b); try done; [by left|lia| |]; [intros; by left|]. intros; right; done. }
  apply wp_run in Hw as (e & s' & Er & [(Hf & -> & ->)|(Hf & -> & I' & F' & Hs)]); [by left|right].
  split; [done|]. cbv zeta. rewrite <-Hs. split; [done|]. split; [|done]. rewrite Hs in *.
  split; try done; [apply lookup_insert_eq|]. cbn [ps with_ps put bufs with_bufs]. by rewrite has_pred_put.
Qed.

(** The state when [etharp_output] is called. *)
Record sent_by extra R (p src dest ttl tos proto : Z) (b : pbuf) (nif : netif) s s' : Prop := {
  sb_sending : sending extra R p (header_moved IP_HLEN b) s';
  sb_packets : same_packets (ps s) (ps s') extra;
  sb_bufs : bufs (ps s') = <[p := header_moved IP_HLEN b]> (bufs (ps s));
  sb_data : data s' (header_moved IP_HLEN b) =
    ip_header tos (tot_len b + IP_HLEN) (ip_id (ips s)) (u8 ttl) (u8 proto) (if ip_addr_isany src then ip_addr nif else src) dest ++ data s b;
  sb_state : exists f, s' = with_stats f (with_ips (set_ip_id (u16 (ip_id (ips s) + 1)) (ips s)) (with_ps (ps s') s)) }.

Lemma ip_output_if_run s extra R p b src dest ttl tos proto n nif :
  sending extra R p b s -> tot_len b + IP_HLEN < 2 ^ 16 -> netifs s !! n = Some nif ->
  (header_fits p IP_HLEN b = false /\ exists f, ip_output_if p src (Some dest) ttl tos proto n s = Some (ERR_BUF, with_stats f s)) \/
  (header_fits p IP_HLEN b = true /\ exists s', ip_output_if p src (Some dest) ttl tos proto n s = etharp_output n p dest s' /\
    sent_by extra R p src dest ttl tos proto b nif s s').
Proof.
  intros H Ht En. destruct (sn_bounds _ _ _ _ _ H) as (Hp20 & Hp & Hl & Htl & Hb). unfold ip_output_if.
  destruct (sn_header _ _ _ _ IP_HLEN _ H ltac:(done) ltac:(done) ltac:(done) Ht) as [[Hf Er]|[Hf Hr]]; [left|right]; (split; [done|]).
  { rewrite (bind_run _ _ _ _ _ Er). cbn [Z.eqb negb]. by eexists. }
  cbv zeta in Hr. destruct Hr as (Er & H1 & F1). rewrite (bind_run _ _ _ _ _ Er). change (negb (0 =? 0)) with false. cbv iota.
  set (s1 := with_ps _ s) in *. set (b1 := header_moved IP_HLEN b) in *.
  assert (len b1 = len b + 20 /\ tot_len b1 = tot_len b + 20 /\ payload b1 = payload b - 20) as (L1 & T1 & P1) by done.
  destruct (write_ip_header_run s1 extra R p b1 src dest ttl tos proto n nif) as (m & Ew & I2 & S2 & B2 & D2).
  { apply H1. } { apply H1. } { apply H1. } { by eapply sn_apart. } { lia. } { unfold in_u. rewrite T1. unfold IP_HLEN in Ht. lia. } { done. }
  set (s2 := with_ips _ (with_ps m s1)) in *. rewrite (bind_run _ _ _ _ _ Ew).
  destruct (wp_run (inc_stat ip_xmit) (fun _ s' => exists f, s' = with_stats f s2) s2) as ([] & s3 & E3 & f & Hs3).
  { apply wp_inc_stat. by eexists. }
  rewrite (bind_run _ _ _ _ _ E3). exists s3. split; [done|]. split.
  - eapply sn_same; [exact H1| |]; rewrite Hs3; [done|]. by apply inv_stats.
  - rewrite Hs3. eapply same_packets_trans; [apply F1|exact S2].
  - rewrite Hs3. cbn [ps with_stats with_ips with_ps s2]. by rewrite B2.
  - fold b1. unfold data. rewrite Hs3. cbn [ps with_stats with_ips with_ps s2]. rewrite D2, T1. unfold IP_HLEN. f_equal.
    cbn [ps with_ps put bytes with_bufs s1]. rewrite L1, P1. rewrite !read_bytes_rd.
    replace (len b + 20) with (20 + len b) by lia. rewrite seqZ_app, fmap_app by lia.
    rewrite drop_app_length' by (by rewrite length_fmap, length_seqZ). do 2 f_equal. lia.
  - exists f. by rewrite Hs3.
Qed.

(** What sending leaves alone: the interfaces, the pcbs and the packets of others. *)
Record quiet (extra : list Z) s s' : Prop := {
  qu_calm : calm extra s s';
  qu_ips : exists x, ips s' = set_ip_id x (ips s) }.

Lemma frame_quiet extra s s' : frame extra s s' -> quiet extra s s'.
Proof. intros F. split; [by apply frame_calm|]. exists (ip_id (ips s)). rewrite (fr_ips _ _ _ F). by destruct (ips s). Qed.

Lemma quiet_refl extra s : quiet extra s s.
Proof. apply frame_quiet, frame_refl. Qed.

Lemma quiet_trans extra s1 s2 s3 : quiet extra s1 s2 -> quiet extra s2 s3 -> quiet extra s1 s3.
Proof.
  intros [C1 [x1 E1]] [C2 [x2 E2]]. split; [by eapply calm_trans|]. exists x2. by rewrite E2, E1.
Qed.

Lemma quiet_sub extra extra' s s' : (forall a, a ∈ extra' -> a ∈ extra) -> quiet extra s s' -> quiet extra' s s'.
Proof. intros H [[] ?]. split; [|done]. split; try done. by eapply same_packets_sub. Qed.

Lemma quiet_frame extra s1 s2 s3 : quiet extra s1 s2 -> frame extra s2 s3 -> quiet extra s1 s3.
Proof. intros H F. eapply quiet_trans; [exact H|by apply frame_quiet]. Qed.

Lemma frame_quiet_trans extra s1 s2 s3 : frame extra s1 s2 -> quiet extra s2 s3 -> quiet extra s1 s3.
Proof. intros F. apply quiet_trans. by apply frame_quiet. Qed.

Lemma sent_by_calm extra R p src dest ttl tos proto b nif s s' : sent_by extra R p src dest ttl tos proto b nif s s' ->
  calm extra s s' /\ arp_table s' = arp_table s /\ ips s' = set_ip_id (u16 (ip_id (ips s) + 1)) (ips s).
Proof. intros [_ P _ _ (f & Hs)]. split; [|by rewrite Hs]. by split; try rewrite Hs. Qed.

(** Sending returns, whatever happens to the packet. *)
Lemma wp_ip_output_if s extra R p b src dest ttl tos proto n nif Q :
  sending extra R p b s -> tot_len b + 34 < 2 ^ 16 -> netifs s !! n = Some nif -> Z.of_nat (length extra) < 49996 ->
  (forall e s', net_inv s' (p :: extra) R -> quiet extra s s' -> Q e s') ->
  wp (ip_output_if p src (Some dest) ttl tos proto n) Q s.
Proof.
  intros H Ht En Hx HQ. destruct (sn_bounds _ _ _ _ _ H) as (Hp20 & Hp & Hl & Htl & Hb). unfold wp.
  destruct (ip_output_if_run s extra R p b src dest ttl tos proto n nif H ltac:(unfold IP_HLEN; lia) En)
    as [(_ & f & ->)|(_ & s1 & -> & Sb)].
  { apply HQ; [by apply inv_stats, H|apply frame_quiet, frame_stats, frame_refl]. }
  destruct (sent_by_calm _ _ _ _ _ _ _ _ _ _ _ _ Sb) as (C1 & _ & Hid). destruct Sb as [H1 _ _ _ _].
  change (wp (etharp_output n p dest) Q s1).
  eapply (wp_output s1 (p :: extra) extra R n nif dest p); [apply H1|by rewrite (cm_netifs _ _ _ C1)|cbn [length]; lia| | |apply H1|].
  - apply (sn_outgoing _ _ _ _ _ H1); cbn; unfold IP_HLEN, SIZEOF_ETH_HDR; lia.
  - set_solver.
  - intros e s2 I2 F2 _. apply HQ; [done|]. eapply quiet_frame; [split; [exact C1|by eexists]|done].
Qed.

(** The header is in the packet already. *)
Lemma wp_ip_output_hdrincl s extra R p b src ttl tos proto n nif Q :
  sending extra R p b s -> 20 <= len b -> tot_len b + 14 < 2 ^ 16 -> netifs s !! n = Some nif ->
  Z.of_nat (length extra) < 49996 ->
  (forall e s', net_inv s' (p :: extra) R -> frame extra s s' -> Q e s') ->
  wp (ip_output_if p src None ttl tos proto n) Q s.
Proof.
  intros H Hl Ht En Hx HQ. unfold ip_output_if. apply wp_bind. eapply wp_load; [apply H|lia|lia|].
  apply wp_bind, wp_inc_stat. intros f.
  assert (sending extra R p b (with_stats f s)) as H1 by (eapply sn_same; [exact H|done|apply inv_stats, H]).
  eapply (wp_output _ (p :: extra) extra R n nif _ p); [apply H1|done|cbn [length]; lia| | |apply H1|].
  - apply (sn_outgoing _ _ _ _ _ H1); [done|unfold SIZEOF_ETH_HDR; lia].
  - set_solver.
  - intros e s2 I2 F2 _. apply HQ; [done|]. eapply frame_trans; [|exact F2]. apply frame_stats, frame_refl.
Qed.

Lemma wp_ip_output s extra R p b src dest ttl tos proto Q :
  sending extra R p b s -> tot_len b + 34 < 2 ^ 16 -> listed s -> Z.of_nat (length extra) < 49996 ->
  (forall e s', net_inv s' (p :: extra) R -> quiet extra s s' -> Q e s') ->
  wp (ip_output p src dest ttl tos proto) Q s.
Proof.
  intros H Ht Ls Hx HQ. unfold ip_output. apply wp_bind. apply wp_route; [done|]. intros n f Hn.
  assert (sending extra R p b (with_stats f s)) as H1 by (eapply sn_same; [exact H|done|apply inv_stats, H]).
  assert (quiet extra s (with_stats f s)) as C1 by (apply frame_quiet, frame_stats, frame_refl).
  destruct (Z.eqb_spec n 0) as [->|Hz].
  - apply wp_bind, wp_inc_stat. intros g. apply wp_ret, HQ; [apply inv_stats, H1|].
    eapply quiet_trans; [exact C1|apply frame_quiet, frame_stats, frame_refl].
  - destruct (route_netif _ _ _ Hn Hz) as (nif & En).
    eapply wp_ip_output_if; [exact H1|done|exact En|done|]. intros e s2 I2 C2. apply HQ; [done|by eapply quiet_trans].
Qed.

(** ** A pbuf for headers *)

(** The new pbuf [q] is put in front of the packet. *)
Lemma wp_chain extra R p b q bq Q s : net_inv s (q :: p :: extra) R -> bufs (ps s) !! p = Some b -> ~ has_pred (bufs (ps s)) p ->
  bufs (ps s) !! q = Some bq -> next bq = 0 -> ref bq = 1 -> carries bq -> tot_len bq + tot_len b < 2 ^ 16 ->
  Z.of_nat (length extra) < 49996 -> p ∉ extra ->
  (forall s', sending (p :: extra) R q (set_next p (set_tot_len (tot_len bq + tot_len b) bq)) s' -> frame extra s s' -> Q tt s') ->
  wp (pbufs_ (pbuf_chain q p)) Q s.
Proof.
  intros I Ep Hnp Eq Hn Hr Cq Ht Hx Hpe HQ. pose proof (ni_refs _ _ _ I) as Ir.
  destruct (exclusive _ _ _ _ _ Ir Eq Hr) as (Hnq & Hq & Hex). assert (q ∉ p :: extra) as Hqe by set_solver.
  assert (q ≠ p) as Hqp by set_solver.
  pose proof (queued_length (arp_table s)) as Hql. rewrite (ni_len _ _ _ I) in Hql. unfold ARP_TABLE_SIZE in Hql.
  destruct (chain_refs (ps s) (((p :: extra) ++ queued (arp_table s)) ++ drv (world s)) _ q bq p b Ir Eq Hn Hr) as [Er Ir'];
    [set_solver|done|done|done| |].
  { rewrite !length_app. cbn [length]. pose proof (drv_bound _ (ni_link _ _ _ I)). lia. }
  eapply wp_pbufs_; [exact Er|]. set (bq' := set_next p (set_tot_len (tot_len bq + tot_len b) bq)).
  set (m := put p (set_ref (ref b + 1) b) (put q bq' (ps s))).
  assert (bufs m !! q = Some bq') as Eq' by (cbn; rewrite lookup_insert_ne by done; apply lookup_insert_eq).
  assert (forall x a, link (bufs m) x a -> (x = q /\ a = p) \/ link (bufs (ps s)) x a) as Hlink.
  { intros x a (c & Ec & <-). cbn in Ec. destruct (decide (x = p)) as [->|]; [rewrite lookup_insert_eq in Ec; injection Ec as <-; right; by exists b|].
    rewrite lookup_insert_ne in Ec by done. destruct (decide (x = q)) as [->|]; [rewrite lookup_insert_eq in Ec; injection Ec as <-; by left|].
    rewrite lookup_insert_ne in Ec by done. right. by exists c. }
  apply HQ.
  - split; [|exact Eq'|done| |done].
    + rewrite <-with_world_same. eapply inv_pbufs; [exact I|apply I|exact Ir'|]. intros a c Ha Ec Rc. exists c. split; [|by split].
      cbn [bufs put with_bufs m]. assert (a ≠ q) by (intros ->; apply Hq; set_solver). assert (a ≠ p) as Hap.
      { intros ->. eapply (queued_exclusive s _ R p I); [by right; left|done]. }
      by rewrite !lookup_insert_ne.
    + intros (x & L). apply Hlink in L as [[_ ?]|L]; [done|]. apply Hnq. by exists x.
  - split; try done. cbn [ps with_ps]. intros a l Ha Hc. exists l. split; [|split; [done|split; [apply refs_le_refl|done]]].
    eapply chain_frame; [exact Hc|]. intros x Hin. cbn [bufs put with_bufs m].
    assert (x ≠ p) as Hxp by (intros ->; by eapply (apart_head p extra s)).
    assert (x ≠ q) as Hxq by (intros ->; eapply Hex; [|exact Hc|exact Hin]; set_solver).
    by rewrite !lookup_insert_ne.
Qed.

Lemma wp_header_pbuf extra R p b n (K : Z -> M A W Z) Q s : sending extra R p b s -> 0 <= n -> n + tot_len b < 2 ^ 16 ->
  Z.of_nat (length extra) < 49996 ->
  (forall s', net_inv s' (p :: extra) R -> frame (p :: extra) s s' -> Q ERR_MEM s') ->
  (forall q bq s', q ≠ p -> sending (p :: extra) R q bq s' -> frame extra s s' -> len bq = n -> tot_len bq = n + tot_len b ->
    wp (K q) Q s') ->
  wp (q <- pbufs (pbuf_alloc PBUF_IP n PBUF_RAM) ;;
      if q =? 0 then ret ERR_MEM
      else b <- the_pbuf p ;; when (negb (tot_len b =? 0)) (pbufs_ (pbuf_chain q p)) ;; K q)%net Q s.
Proof.
  intros H Hn Ht Hx H0 H1. destruct (sn_bounds _ _ _ _ _ H) as (_ & _ & Hl & _ & _). pose proof H as [I E Cb Hh Hp].
  apply wp_bind. eapply (wp_alloc s (p :: extra) R); [done|lia| |].
  { intros s' I' F' _. cbn [Z.eqb]. apply wp_ret. auto. }
  intros q bq k s1 Hq I1 F1 _ Hc X (Ty & Rq & _) Hok Hlen Hk. assert (k = []) as -> by (by apply Hk).
  rewrite (proj2 (Z.eqb_neq q 0)) by done. pose proof Hok as (Hlq & _). cbn [tot] in Hlq. pose proof Hc as (_ & _ & Eq & Hnq).
  assert (bufs (ps s1) !! p = Some b /\ q ≠ p) as [Ep Hqp].
  { pose proof (X p) as Xp. pose proof (X q) as Xq. rewrite decide_True in Xq by (by left).
    assert (q ≠ p) by congruence. rewrite decide_False in Xp by set_solver. split; congruence. }
  destruct (exclusive _ _ _ _ _ (ni_refs _ _ _ I1) Eq Rq) as (Hnpq & Hnin & _).
  apply wp_bind. eapply wp_gets; [exact Ep|]. apply wp_bind, wp_when; intros Hz.
  - eapply (wp_chain extra R p b q bq); [exact I1|exact Ep| |exact Eq|done|done|by left|lia|done|done|].
    + intros (x & c & Ec & Hx'). apply Hh. specialize (X x). case_decide as Hd.
      * apply list_elem_of_singleton in Hd. cbn [fst] in Hd. subst x. assert (c = bq) as -> by congruence. cbn [chain] in Hnq. rewrite Hx' in Hnq. subst p.
        by destruct (ri_nonzero _ _ _ _ _ (ni_refs _ _ _ I) E).
      * exists x, c. split; [congruence|done].
    + intros s2 S2 F2. eapply H1; [exact Hqp|exact S2| |cbn; lia|cbn; lia].
      eapply frame_trans; [|exact F2]. eapply frame_sub; [|exact F1]. intros a Ha. by right.
  - apply negb_false_iff, Z.eqb_eq in Hz. eapply (H1 q bq); [done| |eapply frame_sub; [|exact F1]; intros a Ha; by right|lia|lia].
    split; [done|done|by left|done|set_solver].
Qed.

(** The description of the packet being processed changes. *)
Lemma current_ok s extra R n h src dest : net_inv s extra R -> net_inv (with_ips (set_current n h src dest (ips s)) s) extra R.
Proof. intros I. apply inv_ips; [done| |done]. by destruct (ni_ips _ _ _ I). Qed.

Lemma current_packet extra R p b l n h src dest s : ip_packet extra R p b l s ->
  ip_packet extra R p b l (with_ips (set_current n h src dest (ips s)) s).
Proof. intros [H ? ? ? ?]. split; try done. eapply pk_same; [exact H|done|]. apply current_ok, H. Qed.

End Correct.

(** ** Examples *)

(** The state [s] with the IP packet [l] from 192.168.0.7 to be processed. *)
Definition processing (l : list Z) (s : net lwip_mem wire) : net lwip_mem wire :=
  let s := at_ip (with_rx (replicate 14 0 ++ l) s) in with_ips (set_current 0 0 demo_ip (ip_addr demo_netif) (ips s)) s.

Lemma processing_packet l s : net_inv s [rx] [] -> bufs (ps s) = {[rx := rx_b]} -> ip_packet [] [] rx rx_ip [] (processing l s).
Proof. intros I Hb. by apply current_packet, at_ip_packet. Qed.

Lemma processing_listed l s : listed s -> listed (processing l s).
Proof. intros []. by split. Qed.

End IpOut.
