(* ===== verification/Pcbs.v ===== *)
(** * Protocol control blocks

    raw.c and udp.c keep their pcbs in lists of the same make and work on them
    with the same code: [pcb_kind] is a kind of pcb with its list, and the
    operations here are the statements of both files on the list: reading and
    writing a pcb through its address, the move to the front, the search of the
    predecessor in [raw_remove] and [udp_remove]. *)
From S2P Require Import Prelude Alloc Pbuf PbufData Chksum IpAddr Refs Net Etharp Netif Plist Packet IpOut.
Import Alloc Pbuf PbufData Refs Net Etharp Netif Plist Packet IpOut.

Module Pcbs.
Local Open Scope net_scope.

Class pcb_kind (X : Type) := {
  pcb_pool : nat;
  nxt : X -> Z;
  set_nxt : Z -> X -> X;
  pcbs_of : ipstate -> gmap Z X;
  head_of : ipstate -> Z;
  put_pcbs : gmap Z X -> Z -> ipstate -> ipstate }.

(** What is the same when only pcbs of one kind have changed. *)
Record same_rest (i i' : ipstate) : Prop := {
  sr_id : ip_id i' = ip_id i;
  sr_current : current_netif i' = current_netif i /\ current_header i' = current_header i /\
    current_iphdr_src i' = current_iphdr_src i /\ current_iphdr_dest i' = current_iphdr_dest i;
  sr_port : udp_port i' = udp_port i;
  sr_dhcps : dhcps i' = dhcps i }.

(** The memory of a pcb. *)
Definition pcb_block {X} {k : pcb_kind X} (a : Z) : block := mk_block a (Pool pcb_pool) (pool_size pcb_pool).

(** The addresses of the structs. *)
Definition keys {X} (m : gmap Z X) : list Z := (map_to_list m).*1.

Class pcb_laws (X : Type) {k : pcb_kind X} := {
  pcb_ok : X -> Prop;
  pcb_pool_is : pcb_pool = MEMP_RAW_PCB \/ pcb_pool = MEMP_UDP_PCB;
  nxt_set a x : nxt (set_nxt a x) = a;
  set_nxt_ok a x : pcb_ok x -> pcb_ok (set_nxt a x);
  pcbs_put m h i : pcbs_of (put_pcbs m h i) = m;
  head_put m h i : head_of (put_pcbs m h i) = h;
  put_same i : put_pcbs (pcbs_of i) (head_of i) i = i;
  put_put m h m' h' i : put_pcbs m h (put_pcbs m' h' i) = put_pcbs m h i;
  put_rest m h i : same_rest i (put_pcbs m h i);
  pcbs_ok i : ips_ok i -> map_Forall (fun _ => pcb_ok) (pcbs_of i) /\ exists l, plist nxt (pcbs_of i) (head_of i) l;
  put_ok m h l i : ips_ok i -> map_Forall (fun _ => pcb_ok) m -> plist nxt m h l ->
    (forall a, a ∈ keys (pcbs_of i) -> a ∈ keys m \/ forall d, dhcps i !! d ≠ Some a) -> ips_ok (put_pcbs m h i);
  put_mem i : exists rest, pcb_mem i ≡ₚ (pcb_block <$> keys (pcbs_of i)) ++ rest /\
    forall m h, pcb_mem (put_pcbs m h i) ≡ₚ (pcb_block <$> keys m) ++ rest }.

(** ** Operations *)

Section Operations.
Context {A W X : Type} {ops : alloc_ops A} {k : pcb_kind X}.

(** A pcb, through its address. *)
Definition pcb_at (a : Z) : M A W X := gets (fun s => pcbs_of (ips s) !! a).
Definition upd_pcb (a : Z) (f : X -> X) : M A W unit :=
  x <- pcb_at a ;; set_ips (fun i => put_pcbs (<[a := f x]> (pcbs_of i)) (head_of i) i).
Definition set_head (h : Z) : M A W unit := set_ips (fun i => put_pcbs (pcbs_of i) h i).

(** The pcb goes to the front of the list. *)
Definition pcb_to_front (prev pcb : Z) : M A W unit :=
  x <- pcb_at pcb ;;
  upd_pcb prev (set_nxt (nxt x)) ;;
  i <- the_ips ;;
  upd_pcb pcb (set_nxt (head_of i)) ;;
  set_head pcb.

(** The loop that takes [pcb] out of the list, over the list as it is changed. *)
Fixpoint pcb_unlink (fuel : nat) (pcb pcb2 : Z) : M A W unit :=
  match fuel with
  | O => fun _ => None
  | S fuel =>
      if pcb2 =? 0 then ret tt
      else
        x2 <- pcb_at pcb2 ;;
        when (negb (nxt x2 =? 0) && (nxt x2 =? pcb))
          (x <- pcb_at pcb ;; upd_pcb pcb2 (set_nxt (nxt x))) ;;
        x2 <- pcb_at pcb2 ;;
        pcb_unlink fuel pcb (nxt x2)
  end.

(** [pcb] leaves the list, and its memory is given back. *)
Definition pcb_remove (pcb : Z) : M A W unit :=
  i <- the_ips ;;
  (if head_of i =? pcb then x <- pcb_at pcb ;; set_head (nxt x)
   else pcb_unlink (S (size (pcbs_of i))) pcb (head_of i)) ;;
  memp_free pcb_pool pcb ;;
  set_ips (fun i => put_pcbs (delete pcb (pcbs_of i)) (head_of i) i).

End Operations.

(** ** Lemmas *)

Lemma keys_insert {X} (m : gmap Z X) a x y : m !! a = Some x -> keys (<[a := y]> m) ≡ₚ keys m.
Proof.
  intros E. unfold keys. rewrite <-(map_to_list_delete m a x E), <-(insert_delete_eq m a y).
  rewrite map_to_list_insert by apply lookup_delete_eq. done.
Qed.

Lemma keys_new {X} (m : gmap Z X) a y : m !! a = None -> keys (<[a := y]> m) ≡ₚ a :: keys m.
Proof. intros E. unfold keys. by rewrite map_to_list_insert. Qed.

Lemma keys_delete {X} (m : gmap Z X) a x : m !! a = Some x -> keys m ≡ₚ a :: keys (delete a m).
Proof. intros E. unfold keys. by rewrite <-(map_to_list_delete m a x E). Qed.

Lemma elem_keys {X} (m : gmap Z X) a : a ∈ keys m <-> is_Some (m !! a).
Proof.
  unfold keys. rewrite list_elem_of_fmap. split.
  - intros ([? x] & -> & Hx%elem_of_map_to_list). by exists x.
  - intros [x E]. exists (a, x). split; [done|]. by apply elem_of_map_to_list.
Qed.

Lemma same_rest_refl i : same_rest i i.
Proof. by split. Qed.

Lemma same_rest_trans i1 i2 i3 : same_rest i1 i2 -> same_rest i2 i3 -> same_rest i1 i3.
Proof. intros [? (? & ? & ? & ?) ? ?] [? (? & ? & ? & ?) ? ?]. split; [|repeat split|..]; congruence. Qed.

Section Correct.
Context {A W X : Type} {ops : alloc_ops A} {laws : alloc_laws A} {lops : link_ops A W} {llaws : link_laws A W}
  {k : pcb_kind X} {klaws : pcb_laws X}.
Implicit Types s : net A W.

(** [l] is the list of the pcbs. *)
Definition pcb_list (i : ipstate) (l : list Z) : Prop := plist nxt (pcbs_of i) (head_of i) l.

(** Changes of the pcbs that keep the set of them. *)
Lemma inv_pcbs s extra R m h l : net_inv s extra R -> map_Forall (fun _ => pcb_ok) m -> plist nxt m h l ->
  keys m ≡ₚ keys (pcbs_of (ips s)) -> net_inv (with_ips (put_pcbs m h (ips s)) s) extra R.
Proof.
  intros I Hm Hl Hk. apply inv_ips; [done| |].
  - eapply put_ok; [apply I|done|exact Hl|]. intros a. rewrite Hk. by left.
  - destruct (put_mem (ips s)) as (rest & E1 & E2). by rewrite E1, E2, Hk.
Qed.

Lemma keeps_ips extra s i : dhcps i = dhcps (ips s) -> same_packets (ps s) (ps (with_ips i s)) extra /\ keeps s (with_ips i s).
Proof. intros Hd. apply calm_keeps. split; try done. apply same_packets_refl. Qed.

Lemma wp_pcb_at a x (Q : X -> net A W -> Prop) s : pcbs_of (ips s) !! a = Some x -> Q x s -> wp (pcb_at a) Q s.
Proof. intros. by eapply wp_gets. Qed.

Lemma wp_upd_pcb a x f (Q : unit -> net A W -> Prop) s : pcbs_of (ips s) !! a = Some x ->
  Q tt (with_ips (put_pcbs (<[a := f x]> (pcbs_of (ips s))) (head_of (ips s)) (ips s)) s) -> wp (upd_pcb a f) Q s.
Proof. intros E HQ. apply wp_bind. eapply wp_pcb_at; [done|]. by apply wp_modify. Qed.

(** A field other than [next] changes. *)
Lemma wp_set_field a x f extra R Q s : net_inv s extra R -> pcbs_of (ips s) !! a = Some x -> nxt (f x) = nxt x -> pcb_ok (f x) ->
  (forall s', s' = with_ips (put_pcbs (<[a := f x]> (pcbs_of (ips s))) (head_of (ips s)) (ips s)) s -> net_inv s' extra R ->
    (forall l, pcb_list (ips s) l -> pcb_list (ips s') l) -> Q tt s') -> wp (upd_pcb a f) Q s.
Proof.
  intros I E Hn Hok HQ. eapply wp_upd_pcb; [exact E|]. destruct (pcbs_ok _ (ni_ips _ _ _ I)) as (Ho & l & L).
  assert (forall l, pcb_list (ips s) l -> plist nxt (<[a := f x]> (pcbs_of (ips s))) (head_of (ips s)) l) as Hl
    by (intros l' L'; by eapply plist_same).
  apply HQ; [done| |].
  - eapply inv_pcbs; [done| |by apply Hl|by eapply keys_insert]. by apply map_Forall_insert_2.
  - intros l' L'. unfold pcb_list. cbn [ips with_ips]. rewrite pcbs_put, head_put. auto.
Qed.

Lemma wp_to_front extra R l1 prev pcb l2 Q s : net_inv s extra R -> pcb_list (ips s) (l1 ++ prev :: pcb :: l2) ->
  (forall i, same_rest (ips s) i -> pcb_list i (pcb :: l1 ++ prev :: l2) -> keys (pcbs_of i) ≡ₚ keys (pcbs_of (ips s)) ->
    (forall a x, pcbs_of (ips s) !! a = Some x -> exists n, pcbs_of i !! a = Some (set_nxt n x) \/ pcbs_of i !! a = Some x) ->
    net_inv (with_ips i s) extra R -> Q tt (with_ips i s)) -> wp (pcb_to_front prev pcb) Q s.
Proof.
  intros I L HQ. destruct (pcbs_ok _ (ni_ips _ _ _ I)) as (Ho & _). pose proof (plist_nodup _ _ _ _ L) as N.
  destruct (plist_elem _ _ _ _ prev L ltac:(set_solver)) as (_ & x & Ex).
  destruct (plist_elem _ _ _ _ pcb L ltac:(set_solver)) as (_ & y & Ey).
  assert (pcb ≠ prev) as Hne.
  { apply NoDup_app in N as (_ & _ & N). apply NoDup_cons in N as [N _]. set_solver. }
  pose proof (plist_front nxt set_nxt nxt_set _ _ _ _ _ _ _ _ L Ex Ey) as L'. set (m1 := <[prev := set_nxt (nxt y) x]> (pcbs_of (ips s))) in L'.
  assert (m1 !! pcb = Some y) as Ey' by (unfold m1; by rewrite lookup_insert_ne).
  unfold pcb_to_front. apply wp_bind. eapply wp_pcb_at; [exact Ey|]. apply wp_bind. eapply wp_upd_pcb; [exact Ex|]. fold m1.
  apply wp_bind. eapply wp_gets; [reflexivity|]. cbn [ips with_ips]. rewrite head_put.
  apply wp_bind. eapply (wp_upd_pcb pcb y); cbn [ips with_ips]; rewrite pcbs_put; [done|].
  apply wp_modify. cbn [ips with_ips]. rewrite head_put, pcbs_put, !put_put.
  set (m2 := <[pcb := set_nxt (head_of (ips s)) y]> m1) in *.
  assert (keys m2 ≡ₚ keys (pcbs_of (ips s))) as Hk.
  { unfold m2. rewrite (keys_insert _ _ y) by done. by eapply keys_insert. }
  apply (HQ (put_pcbs m2 pcb (ips s))).
  - apply put_rest.
  - unfold pcb_list. by rewrite pcbs_put, head_put.
  - by rewrite pcbs_put.
  - intros a z Ez. rewrite pcbs_put. unfold m2, m1. destruct (decide (a = pcb)) as [->|].
    + rewrite lookup_insert_eq. eexists. left. f_equal. f_equal. congruence.
    + rewrite lookup_insert_ne by done. destruct (decide (a = prev)) as [->|].
      * rewrite lookup_insert_eq. eexists. left. f_equal. f_equal. congruence.
      * rewrite lookup_insert_ne by done. exists 0. by right.
  - eapply inv_pcbs; [done| |exact L'|exact Hk]. unfold m2, m1.
    apply map_Forall_insert_2; [apply set_nxt_ok; by apply (Ho pcb y)|]. apply map_Forall_insert_2; [apply set_nxt_ok; by apply (Ho prev x)|done].
Qed.

(** The memory of the pcbs is apart from that of others. *)
Lemma pcb_elem s a x : pcbs_of (ips s) !! a = Some x -> pcb_block a ∈ pcb_mem (ips s).
Proof.
  intros E. destruct (put_mem (ips s)) as (rest & -> & _). apply elem_of_app. left. apply list_elem_of_fmap.
  exists a. split; [done|]. apply elem_keys. by exists x.
Qed.

Lemma pcb_nonzero s extra R a x : net_inv s extra R -> pcbs_of (ips s) !! a = Some x -> a ≠ 0.
Proof.
  intros I E%pcb_elem. destruct (ri_pinv _ _ _ (ni_refs _ _ _ I)) as [B [O _ _ _]]. apply owns_ok in O.
  rewrite Forall_forall in O. destruct (O (pcb_block a)) as (H & _); [set_solver|]. cbn in H. lia.
Qed.

Lemma pcb_fresh s extra R a : net_inv s extra (pcb_block a :: R) -> pcbs_of (ips s) !! a = None /\ a ≠ 0.
Proof.
  intros I. destruct (ri_pinv _ _ _ (ni_refs _ _ _ I)) as [B [O _ _ _]].
  assert (block_ok (pcb_block a)) as (Ha & _ & Hs & _).
  { apply owns_ok in O. rewrite Forall_forall in O. apply O. set_solver. }
  cbn in Ha, Hs. split; [|lia]. destruct (pcbs_of (ips s) !! a) as [x|] eqn:E; [exfalso|done].
  apply pcb_elem in E. apply elem_of_Permutation in E as (rest & E). rewrite E in O.
  assert (owns (al (ps s)) (pcb_block a :: pcb_block a :: rest ++ R ++ held (world s) ++ (map_to_list B).*2)) as O2.
  { eapply owns_perm; [|exact O]. rewrite <-!app_assoc. cbn [app]. solve_Permutation. }
  apply owns_disj in O2. unfold block_disj in O2. cbn in O2. lia.
Qed.

(** A new pcb. *)
Lemma inv_new s extra R a x h l : net_inv s extra (pcb_block a :: R) -> pcb_ok x -> plist nxt (<[a := x]> (pcbs_of (ips s))) h l ->
  net_inv (with_ips (put_pcbs (<[a := x]> (pcbs_of (ips s))) h (ips s)) s) extra R.
Proof.
  intros I Hx L. destruct (pcb_fresh _ _ _ _ I) as [Hn _]. destruct (pcbs_ok _ (ni_ips _ _ _ I)) as (Ho & _).
  eapply inv_ips_perm; [exact I| |].
  - eapply put_ok; [apply I|by apply map_Forall_insert_2|exact L|]. intros c. rewrite keys_new by done. left. by right.
  - destruct (put_mem (ips s)) as (rest & E1 & E2). rewrite E1, E2, keys_new by done. rewrite fmap_cons. solve_Permutation.
Qed.

(** *** Removal *)

(** The structs are the same but for their links: every [f] that does not look at
    the link gives the same. *)
Definition relinked (m m' : gmap Z X) : Prop :=
  forall a x', m' !! a = Some x' -> exists x, m !! a = Some x /\
    forall (f : X -> Z), (forall n y, f (set_nxt n y) = f y) -> f x' = f x.

Lemma relinked_refl m : relinked m m.
Proof. intros a x E. by exists x. Qed.

Lemma relinked_trans m1 m2 m3 : relinked m1 m2 -> relinked m2 m3 -> relinked m1 m3.
Proof.
  intros H1 H2 a x3 E3. destruct (H2 a x3 E3) as (x2 & E2 & F2). destruct (H1 a x2 E2) as (x1 & E1 & F1).
  exists x1. split; [done|]. intros f Hf. by rewrite F2, F1.
Qed.

Lemma relinked_set m a x n : m !! a = Some x -> relinked m (<[a := set_nxt n x]> m).
Proof.
  intros E c x' E'. destruct (decide (c = a)) as [->|Hc].
  - rewrite lookup_insert_eq in E'. injection E' as <-. exists x. split; [done|]. intros f Hf. apply Hf.
  - rewrite lookup_insert_ne in E' by done. by exists x'.
Qed.

Lemma wp_unlink pcb y h s (Q : unit -> net A W -> Prop) : forall fuel l1 l2 pcb2 m, (length l2 < fuel)%nat ->
  plist nxt m h (l1 ++ l2) -> plist nxt m pcb2 l2 -> head l2 ≠ Some pcb -> map_Forall (fun _ => pcb_ok) m -> m !! pcb = Some y ->
  (forall m', plist nxt m' h (l1 ++ filter (fun a => a ≠ pcb) l2) -> map_Forall (fun _ => pcb_ok) m' -> keys m' ≡ₚ keys m ->
    m' !! pcb = Some y -> relinked m m' -> Q tt (with_ips (put_pcbs m' h (ips s)) s)) ->
  wp (pcb_unlink fuel pcb pcb2) Q (with_ips (put_pcbs m h (ips s)) s).
Proof.
  induction fuel as [|fuel IH]; intros l1 l2 pcb2 m Hf L L2 Hh Ho Ey HQ; [lia|]. cbn [pcb_unlink].
  destruct l2 as [|a l2]; cbn [length] in Hf.
  { cbn [plist] in L2. subst pcb2. apply wp_ret, HQ; try done. apply relinked_refl. }
  pose proof L2 as (-> & Hz & x & Ex & Lx). rewrite (proj2 (Z.eqb_neq a 0)) by done. cbn [head] in Hh.
  apply wp_bind. eapply (wp_pcb_at a x); [cbn [ips with_ips]; by rewrite pcbs_put|].
  assert (a ≠ pcb) as Hne by congruence.
  assert (forall k, (l1 ++ [a]) ++ filter (fun a => a ≠ pcb) k = l1 ++ filter (fun a => a ≠ pcb) (a :: k)) as Hfil
    by (intros k'; by rewrite <-app_assoc, filter_cons_True).
  pose proof (plist_nodup _ _ _ _ L2) as N. apply NoDup_cons in N as [Na N].
  apply wp_bind, wp_when; intros Hc.
  - apply andb_true_iff in Hc as [Hc0 Hc%Z.eqb_eq]. destruct l2 as [|c l2]; [cbn [plist] in Lx; by rewrite Lx in Hc0|].
    pose proof Lx as (Ec & _). rewrite Hc in Ec. subst c. apply NoDup_cons in N as [Np N].
    destruct (plist_split _ _ [] pcb l2 _ Lx) as (_ & y' & Ey' & _ & Ly). assert (y' = y) as -> by congruence.
    apply wp_bind. eapply (wp_pcb_at pcb y); [cbn [ips with_ips]; by rewrite pcbs_put|].
    eapply (wp_upd_pcb a x); [cbn [ips with_ips]; by rewrite pcbs_put|]. cbn [ips with_ips]. rewrite pcbs_put, head_put, put_put.
    set (m1 := <[a := set_nxt (nxt y) x]> m). apply wp_bind.
    eapply (wp_pcb_at a); [cbn [ips with_ips]; rewrite pcbs_put; apply lookup_insert_eq|]. rewrite nxt_set.
    apply (IH (l1 ++ [a]) l2); cbn [length] in Hf.
    + lia.
    + rewrite <-app_assoc. by eapply (plist_cut nxt set_nxt nxt_set).
    + apply plist_insert_ne; [done|]. set_solver.
    + destruct l2; [done|]. cbn [head]. set_solver.
    + apply map_Forall_insert_2; [apply set_nxt_ok; by apply (Ho a x)|done].
    + unfold m1. by rewrite lookup_insert_ne.
    + intros m' L' Ho' K' E' S'. rewrite Hfil in L'. apply HQ; [|done| |done|eapply relinked_trans; [by apply (relinked_set m a x (nxt y))|exact S']].
      * rewrite filter_cons_True by done. rewrite filter_cons_False by (intros Hn; by apply Hn).
        by rewrite filter_cons_True in L' by done.
      * rewrite K'. by eapply keys_insert.
  - apply wp_bind. eapply (wp_pcb_at a x); [cbn [ips with_ips]; by rewrite pcbs_put|].
    apply (IH (l1 ++ [a]) l2); [lia|by rewrite <-app_assoc|done| |done|done|].
    + destruct l2 as [|c l2]; [done|]. cbn [head]. intros [= ->]. destruct Lx as (Hx & Hp & _). rewrite Hx, Z.eqb_refl in Hc.
      by rewrite (proj2 (Z.eqb_neq pcb 0)) in Hc by done.
    + intros m' L' Ho' K' E' S'. rewrite Hfil in L'. by apply HQ.
Qed.

(** A pcb that nobody needs any more is removed. *)
Lemma wp_pcb_remove extra R pcb y l Q s : net_inv s extra R -> pcbs_of (ips s) !! pcb = Some y -> pcb_list (ips s) l ->
  (forall d, dhcps (ips s) !! d ≠ Some pcb) ->
  (forall s', net_inv s' extra R -> calm extra s s' -> same_rest (ips s) (ips s') -> pcb_list (ips s') (filter (fun a => a ≠ pcb) l) ->
    keys (pcbs_of (ips s)) ≡ₚ pcb :: keys (pcbs_of (ips s')) -> relinked (pcbs_of (ips s)) (pcbs_of (ips s')) -> Q tt s') ->
  wp (pcb_remove pcb) Q s.
Proof.
  intros I Ey L Hd HQ. destruct (pcbs_ok _ (ni_ips _ _ _ I)) as (Ho & _). unfold pcb_remove.
  apply wp_bind. eapply wp_gets; [reflexivity|]. apply wp_bind.
  assert (forall m h, plist nxt m h (filter (fun a => a ≠ pcb) l) -> map_Forall (fun _ => pcb_ok) m ->
    keys m ≡ₚ keys (pcbs_of (ips s)) -> m !! pcb = Some y -> relinked (pcbs_of (ips s)) m ->
    wp (memp_free pcb_pool pcb ;; set_ips (fun i => put_pcbs (delete pcb (pcbs_of i)) (head_of i) i))%net Q
      (with_ips (put_pcbs m h (ips s)) s)) as Hend.
  { intros m h Lm Hm Hk Em Rm. set (i := put_pcbs (delete pcb m) h (ips s)).
    assert (plist nxt (delete pcb m) h (filter (fun a => a ≠ pcb) l)) as Ld.
    { apply plist_delete; [done|]. intros [? _]%list_elem_of_filter. done. }
    assert (net_inv (with_ips i s) extra (pcb_block pcb :: R)) as I1.
    { eapply inv_ips_perm; [exact I| |].
      - eapply put_ok; [apply I|by apply map_Forall_delete|exact Ld|]. intros a. rewrite <-Hk, (keys_delete m pcb y Em).
        intros [->|Ha]%elem_of_cons; [by right|by left].
      - destruct (put_mem (ips s)) as (rest & E1 & E2). unfold i. rewrite E1, (E2 (delete pcb m) h), <-Hk, (keys_delete m pcb y Em).
        rewrite fmap_cons. solve_Permutation. }
    assert (wp (memp_free pcb_pool pcb) (fun _ s' => Q tt s') (with_ips i s)) as Hw.
    { eapply wp_memp_free; [exact I1|]. intros s' I' F' Ei. cbn [ips with_ips] in Ei. apply HQ; [done| |rewrite Ei; apply put_rest| | |].
      - destruct (frame_calm _ _ _ F') as [? ? ? ? ? _ ?]. split; try done. rewrite Ei. apply put_rest.
      - unfold pcb_list. rewrite Ei. unfold i. by rewrite pcbs_put, head_put.
      - rewrite Ei. unfold i. rewrite pcbs_put, <-Hk. by apply keys_delete with (x := y).
      - rewrite Ei. unfold i. rewrite pcbs_put. intros a x' [_ E']%lookup_delete_Some. by apply Rm. }
    unfold wp, bind, memp_free, pbufs_ in Hw |- *. cbn [ps with_ips] in Hw |- *. destruct (pool_free pcb_pool pcb (al (ps s))) as [a|]; [|done].
    cbn [mbind option_bind] in Hw |- *. unfold set_ips, modify. cbn [ips with_ips with_ps] in Hw |- *. rewrite pcbs_put, head_put, put_put. exact Hw. }
  destruct (Z.eqb_spec (head_of (ips s)) pcb) as [Hh|Hh].
  - apply wp_bind. eapply wp_pcb_at; [exact Ey|]. apply wp_modify. apply Hend; [|done|done|done|apply relinked_refl].
    pose proof (plist_nodup _ _ _ _ L) as N. pose proof (pcb_nonzero _ _ _ _ _ I Ey) as Hz.
    destruct l as [|a l]; [unfold pcb_list in L; cbn [plist] in L; congruence|].
    destruct L as (Ha & _ & x & Ex & Lx). rewrite Hh in Ha. subst a. assert (x = y) as -> by congruence.
    apply NoDup_cons in N as [N _]. rewrite filter_cons_False by (intros Hn; by apply Hn). by rewrite filter_ne.
  - assert (with_ips (put_pcbs (pcbs_of (ips s)) (head_of (ips s)) (ips s)) s = s) as Hs by (rewrite put_same; by destruct s).
    match goal with |- wp ?m ?P s => enough (wp m P (with_ips (put_pcbs (pcbs_of (ips s)) (head_of (ips s)) (ips s)) s)) as Hw
      by (by rewrite Hs in Hw) end. eapply (wp_unlink pcb y _ s _ _ [] l); [|done|done| |done|done|].
    + pose proof (plist_size _ _ _ _ L). lia.
    + destruct l as [|a l]; [done|]. cbn [head]. destruct L as (Ha & _). congruence.
    + intros m' L' Ho' K' E' S'. by apply Hend.
Qed.

End Correct.

End Pcbs.
