(* ===== verification/Icmp.v ===== *)
(** * ICMP

    icmp.c: [icmp_input] answers echo requests, [icmp_dest_unreach] reports packets
    nobody takes.  The MAC computes the ICMP checksum of echo replies
    (CHECKSUM_GEN_ICMP is 0); LWIP_MULTICAST_PING and LWIP_BROADCAST_PING are 0. *)
From S2P Require Import Prelude Alloc Pbuf PbufData Chksum IpAddr Refs Net Etharp Wire ArpCache Netif Packet IpOut.
Import Alloc Pbuf PbufData Refs Net Etharp Wire ArpCache Netif Packet IpOut.

Module Icmp.
Local Open Scope net_scope.

Definition ICMP_ER : Z := 0.
Definition ICMP_DUR : Z := 3.
Definition ICMP_ECHO : Z := 8.
Definition ICMP_DUR_PROTO : Z := 2.
Definition ICMP_DUR_PORT : Z := 3.
Definition ICMP_TTL : Z := 255.
Definition ICMP_DEST_UNREACH_DATASIZE : Z := 8.
Definition SIZEOF_ICMP_ECHO_HDR : Z := 8.

(** ** Operations *)

Section Operations.
Context {A W : Type} {ops : alloc_ops A} {lops : link_ops A W}.

Definition icmp_send_response (p type code : Z) : M A W unit :=
  q <- pbufs (pbuf_alloc PBUF_IP (SIZEOF_ICMP_ECHO_HDR + IP_HLEN + ICMP_DEST_UNREACH_DATASIZE) PBUF_RAM) ;;
  if q =? 0 then ret tt
  else
    b <- the_pbuf p ;;
    let iphdr := payload b in
    store q 0 [type] ;;
    store q 1 [code] ;;
    store q 4 (bytes16 0) ;;
    store q 6 (bytes16 0) ;;
    d <- peek p (payload b) (IP_HLEN + ICMP_DEST_UNREACH_DATASIZE) ;;
    store q SIZEOF_ICMP_ECHO_HDR d ;;
    store q 2 (bytes16 0) ;;
    bq <- the_pbuf q ;;
    msg <- load q 0 (len bq) ;;
    store q 2 (bytes16 (Chksum.inet_chksum (payload bq) msg)) ;;
    inc_stat icmp_xmit ;;
    iphdr_src <- peek p (iphdr + 12) 4 ;;
    _ <- ip_output q 0 (le32 iphdr_src) ICMP_TTL 0 IP_PROTO_ICMP ;;
    drop_packet q.

Definition icmp_dest_unreach (p t : Z) : M A W unit := icmp_send_response p ICMP_DUR t.

(** The packet to answer with and its IP header: [p], or a copy of it when there
    is no room in front of it for the headers; [None] is the jump to memerr. *)
Definition echo_buffer (p iphdr hlen : Z) : M A W (option (Z * Z)) :=
  e <- pbufs (pbuf_header p (PBUF_IP_HLEN + PBUF_LINK_HLEN)) ;;
  if negb (e =? 0) then
    e <- pbufs (pbuf_header p hlen) ;;
    if negb (e =? 0) then ret None
    else
      b <- the_pbuf p ;;
      r <- pbufs (pbuf_alloc PBUF_LINK (tot_len b) PBUF_RAM) ;;
      if r =? 0 then ret None
      else
        e <- pbufs (pbuf_copy r p) ;;
        if negb (e =? ERR_OK) then ret None
        else
          br <- the_pbuf r ;;
          let iphdr := payload br in
          e <- pbufs (pbuf_header r (- hlen)) ;;
          if negb (e =? 0) then ret None
          else drop_packet p ;; ret (Some (r, iphdr))
  else
    e <- pbufs (pbuf_header p (- (PBUF_IP_HLEN + PBUF_LINK_HLEN))) ;;
    if negb (e =? 0) then ret None else ret (Some (p, iphdr)).

(** The request becomes the reply. *)
Definition echo_reply (p iphdr : Z) : M A W unit :=
  b <- the_pbuf p ;;
  let iecho := payload b in
  i <- the_ips ;;
  poke p (iphdr + 12) (bytes32 (current_iphdr_dest i)) ;;
  poke p (iphdr + 16) (bytes32 (current_iphdr_src i)) ;;
  poke p iecho [ICMP_ER] ;;
  poke p (iecho + 2) (bytes16 0) ;;
  poke p (iphdr + 8) [ICMP_TTL] ;;
  poke p (iphdr + 10) (bytes16 0).

(** The case ICMP_ECHO once the request has been checked, to the end of the
    function. *)
Definition icmp_echo (p iphdr hlen inp : Z) : M A W unit :=
  r <- echo_buffer p iphdr hlen ;;
  match r with
  | None => drop_packet p ;; inc_stat icmp_err
  | Some (p, iphdr) =>
      echo_reply p iphdr ;;
      inc_stat icmp_xmit ;;
      e <- pbufs (pbuf_header p hlen) ;;
      (if negb (e =? 0) then ret tt
       else
         i <- the_ips ;;
         _ <- ip_output_if p (current_iphdr_dest i) None ICMP_TTL 0 IP_PROTO_ICMP inp ;; ret tt) ;;
      drop_packet p
  end.

Definition icmp_input (p inp : Z) : M A W unit :=
  inc_stat icmp_recv ;;
  b <- the_pbuf p ;;
  let iphdr := payload b in
  v_hl <- peek p iphdr 1 ;;
  let hlen := IPH_HL4 v_hl in
  e <- pbufs (pbuf_header p (- hlen)) ;;
  b <- the_pbuf p ;;
  if negb (e =? 0) || (tot_len b <? 4) then drop_packet p ;; inc_stat icmp_lenerr
  else
    type <- peek p (payload b) 1 ;;
    if byte1 type =? ICMP_ER then drop_packet p
    else if byte1 type =? ICMP_ECHO then
      i <- the_ips ;;
      nif <- the_netif inp ;;
      if ip_addr_ismulticast (current_iphdr_dest i) || ip_addr_isbroadcast (current_iphdr_dest i) nif
      then inc_stat icmp_err ;; drop_packet p
      else if tot_len b <? SIZEOF_ICMP_ECHO_HDR then drop_packet p ;; inc_stat icmp_lenerr
      else
        c <- gets (fun s => Chksum.inet_chksum_pbuf p (ps s)) ;;
        if negb (c =? 0) then drop_packet p ;; inc_stat icmp_chkerr
        else icmp_echo p iphdr hlen inp
    else inc_stat icmp_proterr ;; inc_stat icmp_drop ;; drop_packet p.

End Operations.

(** ** Error messages *)

(** The message (RFC 792) as it is built at [addr]. *)
Definition icmp_error (addr type code : Z) (quoted : list Z) : list Z :=
  [type; code] ++ bytes16 (Chksum.inet_chksum addr ([type; code] ++ [0; 0] ++ [0; 0; 0; 0] ++ quoted)) ++ [0; 0; 0; 0] ++ quoted.

Section Correct.
Context {A W : Type} {ops : alloc_ops A} {laws : alloc_laws A} {lops : link_ops A W} {llaws : link_laws A W}.
Implicit Types s : net A W.

Lemma wp_with_run {X} (m : M A W X) (Q : X -> net A W -> Prop) s : wp m (fun x s' => m s = Some (x, s') -> Q x s') s -> wp m Q s.
Proof. unfold wp. destruct (m s) as [[x s']|]; [auto|done]. Qed.

(** The heap has no room for a packet of [n] bytes and headers. *)
Definition no_memory (layer : pbuf_layer) (n : Z) s : Prop :=
  exists m m', al m = al (ps s) /\ pbuf_alloc layer n PBUF_RAM m = Some (0, m').

Lemma alloc_failed layer n s1 s2 s : pbufs (pbuf_alloc layer n PBUF_RAM) s1 = Some (0, s2) -> al (ps s1) = al (ps s) -> no_memory layer n s.
Proof.
  intros Er E. exists (ps s1). unfold pbufs in Er. destruct (pbuf_alloc layer n PBUF_RAM (ps s1)) as [[x m]|]; [|done].
  injection Er as -> _. by exists m.
Qed.

(** The message is ready to be sent. *)
Record error_to_send extra R (p : Z) (b : pbuf) (type code q : Z) (bq : pbuf) (src : Z) s s' : Prop := {
  es_sending : sending (p :: extra) R q bq s';
  es_frame : frame (p :: extra) s s';
  es_tot : tot_len bq = 36;
  es_data : exists d, data s' bq = icmp_error (payload bq) type code d /\ length d = 28%nat /\
    (28 <= len b -> d = sub 0 28 (data s b) /\ src = le32 (sub 12 4 d)) }.

Lemma wp_send_response extra R p b l type code Q s : packet extra R p b l s -> payload b + 28 <= data_end p b ->
  (forall s', no_memory PBUF_IP 36 s -> net_inv s' (p :: extra) R -> frame (p :: extra) s s' -> Q tt s') ->
  (forall q bq src s', error_to_send extra R p b type code q bq src s s' ->
    wp (_ <- ip_output q 0 src ICMP_TTL 0 IP_PROTO_ICMP ;; drop_packet q)%net Q s') ->
  wp (icmp_send_response p type code) Q s.
Proof.
  intros H Hend H0 H1. destruct (pk_bounds _ _ _ _ _ _ H) as (Hp4 & Hp & Hl & Htl & Hpb & _).
  unfold icmp_send_response. apply wp_bind, wp_with_run. eapply (wp_alloc s (p :: extra) R); [apply H|done| |].
  { intros s1 I1 F1 _ Er. cbn [Z.eqb]. apply wp_ret, H0; [|done|done]. by eapply alloc_failed. }
  intros q bq k s1 Hq I1 F1 _ Hcq X (Ty & Rq & _) Hok Hlen Hk _. rewrite (proj2 (Z.eqb_neq q 0)) by done.
  assert (k = []) as -> by (by apply Hk). pose proof Hok as (Hlq & _). cbn [tot] in Hlq. rewrite Hlen in Hlq.
  change (SIZEOF_ICMP_ECHO_HDR + IP_HLEN + ICMP_DEST_UNREACH_DATASIZE) with 36 in Hlen, Hlq.
  pose proof Hcq as (_ & _ & Eq & _). assert (carries bq) as Cq by (by left).
  destruct (exclusive _ _ _ _ _ (ni_refs _ _ _ I1) Eq Rq) as (Hnp & Hnin & Hex).
  assert (packet (q :: extra) R p b l s1) as Hp1 by (by eapply pk_extends).
  assert (apart q (p :: extra) s1) as Ap by (intros a c Ha Hc; eapply Hex; [|exact Hc]; set_solver).
  apply wp_bind. eapply wp_pk_buf; [exact Hp1|]. cbv zeta. unfold wp.
  pose proof (own_refl s1 (p :: extra) R q bq I1) as O. set (L0 := read_bytes _ _ _) in O.
  assert (length L0 = 36%nat) as HL0 by (unfold L0; rewrite read_bytes_length; lia).
  assert (forall off d L s2, 0 <= off -> off + Z.of_nat (length d) <= 36 -> own_state s1 q bq (p :: extra) R L s2 ->
    exists s', store q off d s2 = Some (tt, s') /\ own_state s1 q bq (p :: extra) R (splice off d L) s') as Step
    by (intros; eapply (own_store s1 (p :: extra) R q bq); eauto; lia).
  assert (forall a n L s2, own_state s1 q bq (p :: extra) R L s2 -> p + 16 <= a -> a + n <= data_end p b ->
    peek p a n s2 = Some (read_bytes (bytes (ps s2)) a n, s2)) as Pk.
  { intros a n L s2 O2 Ha Hn. eapply peek_run; [|exact Ha|exact Hn]. eapply pk_same; [exact Hp1|apply O2|].
    destruct O2 as [_ _ I2 _ _]. by rewrite (Permutation_swap p q extra) in I2. }
  assert (forall L s2 a n, own_state s1 q bq (p :: extra) R L s2 -> 0 <= a -> 0 <= n -> a + n <= len b ->
    read_bytes (bytes (ps s2)) (payload b + a) n = sub (Z.to_nat a) (Z.to_nat n) (data s b)) as Dt.
  { intros L s2 a n O2 Ha Hn Hle. rewrite (read_sub _ _ _ _ (len b)) by lia. f_equal. unfold data.
    destruct (frame_trans _ _ _ _ F1 (os_frame _ _ _ _ _ _ _ O2)) as [_ _ _ _ _ _ P].
    destruct (P p _ ltac:(by left) (pk_chain _ _ _ _ _ _ H)) as (_ & _ & _ & _ & D). eapply D; [by left|].
    by eapply pk_head_carries. }
  own_stores q O Step.
  match type of O with own_state _ _ _ _ _ ?L ?sx =>
    rewrite (bind_run _ _ _ _ _ (Pk (payload b) (IP_HLEN + ICMP_DEST_UNREACH_DATASIZE) _ _ O ltac:(lia) ltac:(exact Hend)));
    pose proof (Dt L sx 0 28 O ltac:(lia) ltac:(lia)) as Hd; rewrite Z.add_0_r in Hd;
    change (IP_HLEN + ICMP_DEST_UNREACH_DATASIZE) with 28; set (d := read_bytes (bytes (ps sx)) (payload b) 28) in * end.
  assert (length d = 28%nat) as Ld by apply read_bytes_length. unfold SIZEOF_ICMP_ECHO_HDR.
  destruct (Step 8 d _ _ ltac:(lia) ltac:(lia) O) as (t2 & E2 & O2). rewrite (bind_run _ _ _ _ _ E2). clear O E2.
  own_stores q O2 Step.
  match type of O2 with own_state _ _ _ _ _ ?L ?sx =>
    rewrite (bind_run (the_pbuf q) _ sx bq sx) by (unfold the_pbuf, gets, get; rewrite (os_bufs _ _ _ _ _ _ _ O2), Eq; done);
    rewrite (bind_run (load q 0 (len bq)) _ sx L sx) by
      (rewrite (load_run q 0 (len bq) bq sx) by (try lia; by rewrite (os_bufs _ _ _ _ _ _ _ O2));
       rewrite Z.add_0_r, (os_data _ _ _ _ _ _ _ O2); done) end.
  own_stores q O2 Step.
  match type of O2 with own_state _ _ _ _ _ ?L ?sx =>
    assert (L = icmp_error (payload bq) type code d) as HL; [|rewrite HL in O2; clear HL; set (s9 := sx) in *;
      match goal with |- context [bind (inc_stat icmp_xmit) ?k] => change (wp (bind (inc_stat icmp_xmit) k) Q s9) end] end.
  { clearbody L0 d. do 36 (destruct L0 as [|? L0]; [done|]). destruct L0; [|done].
    do 28 (destruct d as [|? d]; [done|]). by destruct d. }
  pose proof O2 as [_ Hb9 I9 F9 D9]. apply wp_bind, wp_inc_stat. intros f.
  assert (packet (q :: extra) R p b l (with_stats f s9)) as Hp9.
  { apply pk_stats. eapply pk_same; [exact Hp1|done|]. by rewrite (Permutation_swap p q extra) in I9. }
  apply wp_bind. eapply wp_pk_peek; [exact Hp9|lia|lia|].
  eapply H1. split; [|by apply frame_stats; eapply frame_trans|done|].
  - split; [by apply inv_stats| |done| |set_solver]; cbn [ps with_stats]; by rewrite Hb9.
  - exists d. split; [exact D9|]. split; [done|]. intros H28. specialize (Hd ltac:(lia)). split; [exact Hd|].
    rewrite Hd. cbn [ps with_stats]. rewrite (Dt _ _ 12 4 O2) by lia. f_equal. unfold sub. nats.
    rewrite drop_0, skipn_firstn_comm, take_take. done.
Qed.

(** Sending it, whatever becomes of it. *)
Lemma wp_error_sent extra R p b type code q bq src Q s s' : error_to_send extra R p b type code q bq src s s' ->
  listed s -> Z.of_nat (length extra) < 49995 ->
  (forall s2, net_inv s2 (p :: extra) R -> quiet (p :: extra) s s2 -> Q tt s2) ->
  wp (_ <- ip_output q 0 src ICMP_TTL 0 IP_PROTO_ICMP ;; drop_packet q)%net Q s'.
Proof.
  intros [Sn Fr Ht _] Ls Hx HQ. apply wp_bind. eapply (wp_ip_output s' (p :: extra)); [exact Sn|lia| |cbn [length]; lia|].
  - by apply (frame_keeps _ _ _ Fr).
  - intros _ s2 I2 Q2. apply wp_bind. eapply wp_free; [exact I2|]. intros _ s3 I3 F3 _. apply wp_ret, HQ; [done|].
    eapply frame_quiet_trans; [exact Fr|]. by eapply quiet_frame.
Qed.

Lemma wp_dest_unreach extra R p b l t Q s : packet extra R p b l s -> payload b + 28 <= data_end p b -> listed s ->
  Z.of_nat (length extra) < 49995 ->
  (forall s', net_inv s' (p :: extra) R -> quiet (p :: extra) s s' -> Q tt s') -> wp (icmp_dest_unreach p t) Q s.
Proof.
  intros H He Ls Hx HQ. eapply wp_send_response; [exact H|exact He| |].
  - intros s' _ I' F'. apply HQ; [done|by apply frame_quiet].
  - intros q bq src s' Es. by eapply wp_error_sent.
Qed.

(** ** Echo *)

Lemma read_header m b inc : 0 <= inc -> 0 <= len b -> read_bytes m (payload b - inc) (len b + inc) =
  read_bytes m (payload b - inc) inc ++ read_bytes m (payload b) (len b).
Proof.
  intros Hi Hl. rewrite !read_bytes_rd. replace (len b + inc) with (inc + len b) by lia.
  rewrite seqZ_app, fmap_app by lia. do 3 f_equal. lia.
Qed.

(** What [echo_buffer] gives: a packet with the same data, in one piece when it
    had to be copied. *)
Record echo_copy extra R (p : Z) (b : pbuf) (l : list (Z * pbuf)) (hlen q : Z) (bq : pbuf) (k : list (Z * pbuf)) s s' : Prop := {
  ec_packet : packet extra R q bq k s';
  ec_frame : frame extra s s';
  ec_room : q + 16 <= payload bq - hlen;
  ec_tot : tot_len bq = tot_len b;
  ec_len : len bq = tot_len bq \/ len bq = len b;
  ec_data : header_fits p 36 b = false -> k = [] /\
    read_bytes (bytes (ps s')) (payload bq - hlen) (len bq + hlen) = contents (bytes (ps s)) ((p, header_moved hlen b) :: l) }.

Lemma wp_echo_buffer extra R p b l hlen Q s : packet extra R p b l s -> p + 16 <= payload b - hlen -> 20 <= hlen <= 60 ->
  8 <= tot_len b -> tot_len b + hlen + 36 < 2 ^ 16 ->
  (forall s', no_memory PBUF_LINK (tot_len b + hlen) s -> net_inv s' (p :: extra) R -> frame extra s s' -> Q None s') ->
  (forall q bq k s', echo_copy extra R p b l hlen q bq k s s' -> Q (Some (q, payload bq - hlen)) s') ->
  wp (echo_buffer p (payload b - hlen) hlen) Q s.
Proof.
  intros H Hroom Hh H8 Ht H0 H1. destruct (pk_bounds _ _ _ _ _ _ H) as (Hp4 & Hp & Hl & Htl & Hpb & Hok).
  pose proof (pk_head_carries _ _ _ _ _ _ H) as Cb. unfold echo_buffer. change (PBUF_IP_HLEN + PBUF_LINK_HLEN) with 36.
  assert (forall s1 s2, frame (p :: extra) s1 s2 -> frame extra s1 s2) as Sub by (intros s1 s2; apply frame_sub; set_solver).
  apply wp_bind. eapply wp_pk_header; [exact H|done|lia|lia| |].
  - intros Hf. change (negb (1 =? 0)) with true. cbv iota. set (b1 := header_moved hlen b).
    assert (len b1 = len b + hlen /\ tot_len b1 = tot_len b + hlen) as [L1 T1] by done.
    apply wp_bind. eapply wp_pk_header; [exact H|cint|lia|lia| |].
    { rewrite header_fits_carries by done. intros [?%Z.leb_gt|?%Z.leb_gt]%andb_false_iff; lia. }
    intros s1 _ Hs1 P1 F1. change (negb (0 =? 0)) with false. cbv iota. fold b1 in P1, Hs1.
    apply wp_bind. eapply wp_pk_buf; [exact P1|]. apply wp_bind, wp_with_run. eapply wp_pk_alloc; [exact P1|lia| |].
    { intros s2 I2 F2 Er. cbn [Z.eqb]. apply wp_ret, H0; [|done|eapply frame_trans; [exact F1|auto]].
      rewrite T1 in Er. eapply alloc_failed; [exact Er|by rewrite Hs1]. }
    intros r br s2 Hr Pr P2 F2 _ Lr Tr Hnin _. rewrite (proj2 (Z.eqb_neq r 0)) by done.
    apply wp_bind. eapply (wp_pk_copy extra R p); [exact Pr|exact P2|lia|lia|exact Hnin|]. intros s3 Pr3 P3 F3 D3.
    change (negb (ERR_OK =? ERR_OK)) with false. cbv iota. apply wp_bind. eapply wp_pk_buf; [exact Pr3|].
    destruct (pk_bounds _ _ _ _ _ _ Pr3) as (Hr4 & Hr16 & _ & _ & Hrb & _).
    apply wp_bind. eapply wp_pk_header; [exact Pr3|cint|lia|lia| |].
    { rewrite header_fits_carries by (by eapply pk_head_carries). intros [?%Z.leb_gt|?%Z.leb_gt]%andb_false_iff; lia. }
    intros s4 _ Hs4 Pr4 F4. change (negb (0 =? 0)) with false. cbv iota.
    apply wp_bind. eapply (wp_pk_drop_other extra R r p); [exact Pr4|]. intros s5 Pr5 F5 Y5. apply wp_ret.
    set (bq := header_moved (- hlen) br) in *.
    assert (payload bq = payload br + hlen /\ len bq = len br - hlen /\ tot_len bq = tot_len br - hlen) as (Pq & Lq & Tq)
      by (unfold bq; cbn; lia).
    replace (payload br) with (payload bq - hlen) by lia. eapply (H1 r bq []). split; [done| |lia|lia|left; lia|].
    + eapply frame_trans; [exact F1|]. eapply frame_trans; [apply Sub; exact F2|]. eapply frame_trans; [apply Sub; exact F3|].
      eapply frame_trans; [apply Sub; exact F4|]. eapply frame_sub; [|exact F5]. set_solver.
    + intros _. split; [done|]. rewrite Y5, Hs4. cbn [ps with_ps put bytes with_bufs].
      replace (payload bq - hlen) with (payload br) by lia. replace (len bq + hlen) with (len br) by lia.
      fold (data s3 br). rewrite D3. fold b1. rewrite (pk_contents _ _ _ _ _ _ _ P1 F2), Hs1. done.
  - intros s1 Hf Hs1 P1 F1. change (negb (0 =? 0)) with false. cbv iota.
    apply wp_bind. eapply wp_pk_header; [exact P1|done|cbn;lia|cbn; lia| |].
    { rewrite header_fits_carries by (by eapply pk_head_carries). cbn. intros [?%Z.leb_gt|?%Z.leb_gt]%andb_false_iff; lia. }
    rewrite header_moved_back. intros s2 _ _ P2 F2. change (negb (0 =? 0)) with false. cbv iota. apply wp_ret.
    eapply (H1 p b l). split; [done|by eapply frame_trans|lia|done|by right|congruence].
Qed.

(** The request [L] made the reply: the addresses, the type, the TTL and the two
    checksums, which the MAC fills in. *)
Definition echo_answer (i : ipstate) (hlen : Z) (L : list Z) : list Z :=
  splice 10 [0; 0] (splice 8 [ICMP_TTL] (splice (hlen + 2) [0; 0] (splice hlen [ICMP_ER]
    (splice 16 (bytes32 (current_iphdr_src i)) (splice 12 (bytes32 (current_iphdr_dest i)) L))))).

Lemma wp_echo_reply extra R q bq k hlen Q s : packet extra R q bq k s -> q + 16 <= payload bq - hlen -> 20 <= hlen ->
  4 <= len bq ->
  (forall s', packet extra R q bq k s' -> frame extra s s' ->
    read_bytes (bytes (ps s')) (payload bq - hlen) (len bq + hlen) =
      echo_answer (ips s) hlen (read_bytes (bytes (ps s)) (payload bq - hlen) (len bq + hlen)) -> Q tt s') ->
  wp (echo_reply q (payload bq - hlen)) Q s.
Proof.
  intros H Hr Hh Hl HQ. unfold echo_reply. apply wp_bind. eapply wp_pk_buf; [exact H|]. cbv zeta.
  apply wp_bind. eapply wp_gets; [done|]. set (i := ips s). set (a := payload bq - hlen) in *. set (n := len bq + hlen).
  assert (forall o d (T : M A W unit) L s1, packet extra R q bq k s1 -> frame extra s s1 -> 0 <= o -> o + Z.of_nat (length d) <= n ->
    read_bytes (bytes (ps s1)) a n = L ->
    (forall s2, packet extra R q bq k s2 -> frame extra s s2 -> read_bytes (bytes (ps s2)) a n = splice o d L -> wp T Q s2) ->
    wp (poke q (a + o) d ;; T)%net Q s1) as Step.
  { intros o d T L s1 P1 F1 Ho Hd D1 K. apply wp_bind. eapply wp_pk_poke; [exact P1|lia|lia|]. intros s2 Hs2 P2 F2.
    apply K; [done|by eapply frame_trans|]. rewrite Hs2. cbn [ps with_ps bytes with_bytes]. rewrite read_write by lia. by rewrite D1. }
  eapply Step; [exact H|apply frame_refl|lia|cbn; lia|reflexivity|]. intros s1 P1 F1 D1.
  eapply Step; [exact P1|exact F1|lia|cbn; lia|exact D1|]. intros s2 P2 F2 D2.
  replace (payload bq) with (a + hlen) by lia. rewrite <-Z.add_assoc.
  eapply Step; [exact P2|exact F2|lia|cbn; lia|exact D2|]. intros s3 P3 F3 D3.
  eapply Step; [exact P3|exact F3|lia|cbn; lia|exact D3|]. intros s4 P4 F4 D4.
  eapply Step; [exact P4|exact F4|lia|cbn; lia|exact D4|]. intros s5 P5 F5 D5.
  eapply wp_pk_poke; [exact P5|lia|cbn; lia|]. intros s6 Hs6 P6 F6. apply HQ; [done|by eapply frame_trans|].
  fold n. rewrite Hs6. cbn [ps with_ps bytes with_bytes]. rewrite read_write by (cbn; lia). by rewrite D5.
Qed.

(** The reply is ready to be sent. *)
Record reply_to_send extra R (p : Z) (b : pbuf) (l : list (Z * pbuf)) (hlen q : Z) (bq : pbuf) (k : list (Z * pbuf)) s s' : Prop := {
  rs_packet : packet extra R q bq k s';
  rs_frame : frame extra s s';
  rs_len : 20 <= len bq;
  rs_tot : tot_len bq = tot_len b + hlen;
  rs_data : header_fits p 36 b = false -> k = [] /\
    data s' bq = echo_answer (ips s) hlen (contents (bytes (ps s)) ((p, header_moved hlen b) :: l)) }.

Lemma wp_icmp_echo extra R p b l hlen inp Q s : packet extra R p b l s -> p + 16 <= payload b - hlen -> 20 <= hlen <= 60 ->
  8 <= tot_len b -> tot_len b + hlen + 36 < 2 ^ 16 -> (len b = tot_len b \/ 4 <= len b) ->
  (forall s', no_memory PBUF_LINK (tot_len b + hlen) s -> net_inv s' extra R -> frame extra s s' -> Q tt s') ->
  (forall q bq k s', reply_to_send extra R p b l hlen q bq k s s' ->
    wp (_ <- ip_output_if q (current_iphdr_dest (ips s)) None ICMP_TTL 0 IP_PROTO_ICMP inp ;; drop_packet q)%net Q s') ->
  wp (icmp_echo p (payload b - hlen) hlen inp) Q s.
Proof.
  intros H Hroom Hh H8 Ht Hfirst H0 H1. unfold icmp_echo. apply wp_bind. eapply wp_echo_buffer; try done.
  { intros s1 Nm I1 F1. apply wp_bind, wp_bind. eapply wp_free; [exact I1|]. intros _ s2 I2 F2 _. apply wp_ret, wp_inc_stat.
    intros f. apply H0; [done|by apply inv_stats|]. by eapply frame_stats, frame_trans. }
  intros q bq k s1 [P1 F1 R1 T1 L1 D1]. apply wp_bind. eapply wp_echo_reply; [exact P1|done|lia|lia|]. intros s2 P2 F2 D2.
  apply wp_bind. eapply wp_pk_stat; [exact P2|]. intros f P3. set (s3 := with_stats f s2) in *.
  destruct (pk_bounds _ _ _ _ _ _ P3) as (Hq4 & Hq & Hlq & Htlq & Hqb & _).
  apply wp_bind. eapply wp_pk_header; [exact P3|cint|lia|lia| |].
  { rewrite header_fits_carries by (by eapply pk_head_carries). intros [?%Z.leb_gt|?%Z.leb_gt]%andb_false_iff; lia. }
  intros s4 _ Hs4 P4 F4. change (negb (0 =? 0)) with false. cbv iota.
  assert (frame extra s s4) as F by (eapply frame_trans; [exact F1|]; eapply frame_trans; [exact F2|];
    eapply frame_trans; [apply frame_stats, frame_refl|exact F4]).
  specialize (H1 q (header_moved hlen bq) k s4). rewrite <-(fr_ips _ _ _ F) in H1.
  apply wp_bind, wp_bind. eapply wp_gets; [done|]. apply wp_bind.
  assert (reply_to_send extra R p b l hlen q (header_moved hlen bq) k s s4) as Rs.
  { split; [done|done|cbn; lia|cbn; lia|]. intros Hf. destruct (D1 Hf) as [-> Dq]. split; [done|].
    rewrite Hs4. unfold data, s3. cbn [ps with_ps with_stats put bytes with_bufs payload len header_moved set_tot_len set_len set_payload].
    rewrite D2, Dq, (fr_ips _ _ _ F1). done. }
  specialize (H1 Rs). unfold wp, bind in H1 |- *. by destruct (ip_output_if _ _ _ _ _ _ _ s4) as [[? ?]|].
Qed.

(** ** Input *)

Section Endings.
Context (extra : list Z) (R : list block) (p : Z) (Q : unit -> net A W -> Prop).

Lemma wp_drop_stat b l st s0 s : packet extra R p b l s -> frame extra s0 s ->
  (forall s', net_inv s' extra R -> frame extra s0 s' -> Q tt s') -> wp (drop_packet p ;; inc_stat st)%net Q s.
Proof.
  intros H F HQ. apply wp_bind. eapply wp_pk_drop; [exact H|]. intros s1 I1 F1 _. apply wp_inc_stat. intros f.
  apply HQ; [by apply inv_stats|]. by eapply frame_stats, frame_trans.
Qed.

Lemma wp_stat_drop b l st s0 s : packet extra R p b l s -> frame extra s0 s ->
  (forall s', net_inv s' extra R -> frame extra s0 s' -> Q tt s') -> wp (inc_stat st ;; drop_packet p)%net Q s.
Proof.
  intros H F HQ. apply wp_bind. eapply wp_pk_stat; [exact H|]. intros f P1. eapply wp_pk_drop; [exact P1|].
  intros s2 I2 F2 _. apply HQ; [done|]. eapply frame_trans; [exact F|]. eapply frame_trans; [apply frame_stats, frame_refl|exact F2].
Qed.

End Endings.

(** An echo request for this host. *)
Record echo_request s (p : Z) (b : pbuf) (nif : netif) : Prop := {
  er_first : hlen_of s b <= len b;
  er_len : hlen_of s b + SIZEOF_ICMP_ECHO_HDR <= tot_len b;
  er_type : byte1 (read_bytes (bytes (ps s)) (payload b + hlen_of s b) 1) = ICMP_ECHO;
  er_dest : ip_addr_ismulticast (current_iphdr_dest (ips s)) || ip_addr_isbroadcast (current_iphdr_dest (ips s)) nif = false;
  er_sum : Chksum.inet_chksum_pbuf p (put p (header_moved (- hlen_of s b) b) (ps s)) = Some 0 }.

(** The packet to answer with, with the addresses of the request exchanged. *)
Record echo_sent extra R (p : Z) (b : pbuf) (l : list (Z * pbuf)) (q : Z) (bq : pbuf) (k : list (Z * pbuf)) s s' : Prop := {
  eo_packet : packet extra R q bq k s';
  eo_frame : frame extra s s';
  eo_len : 20 <= len bq;
  eo_tot : tot_len bq = tot_len b;
  eo_data : hlen_of s b = IP_HLEN -> k = [] /\
    data s' bq = echo_answer (ips s) IP_HLEN (contents (bytes (ps s)) ((p, b) :: l)) }.

Lemma wp_icmp_input_gen extra R p b l inp nif Q s : ip_packet extra R p b l s -> 20 <= hlen_of s b -> netifs s !! inp = Some nif ->
  (forall s', ~ echo_request s p b nif \/ no_memory PBUF_LINK (tot_len b) s -> net_inv s' extra R -> frame extra s s' -> Q tt s') ->
  (forall q bq k s', echo_request s p b nif -> echo_sent extra R p b l q bq k s s' ->
    wp (_ <- ip_output_if q (current_iphdr_dest (ips s)) None ICMP_TTL 0 IP_PROTO_ICMP inp ;; drop_packet q)%net Q s') ->
  wp (icmp_input p inp) Q s.
Proof.
  intros H0 Hh En HQ HR. pose proof (hl4_range (read_bytes (bytes (ps s)) (payload b) 1)) as Hh60. fold (hlen_of s b) in Hh60.
  unfold icmp_input. apply wp_bind. eapply wp_pk_stat; [apply H0|]. intros f _. set (s1 := with_stats f s) in *.
  assert (ip_packet extra R p b l s1) as [H Hty Hat Hfirst Htot] by (by apply ip_stats).
  pose proof (ip_data_end _ _ _ _ _ _ H0) as He. clear H0.
  assert (frame extra s s1) as F1 by apply frame_stats, frame_refl.
  apply wp_bind. eapply wp_pk_buf; [exact H|]. cbv zeta. apply wp_bind. eapply wp_pk_peek; [exact H|lia|lia|].
  change (IPH_HL4 (read_bytes (bytes (ps s1)) (payload b) 1)) with (hlen_of s b). set (hlen := hlen_of s b) in *.
  assert (~ echo_request s p b nif -> forall s', net_inv s' extra R -> frame extra s s' -> Q tt s') as HQ'
    by (intros Hn s'; apply HQ; by left).
  apply wp_bind. destruct (pk_bounds _ _ _ _ _ _ H) as (Hp4 & Hp & Hl & Htl & Hpb & _).
  eapply wp_pk_header; [exact H|cint|lia|lia| |].
  { intros Hf. apply wp_bind. eapply wp_pk_buf; [exact H|]. change (negb (1 =? 0)) with true. cbn [orb].
    eapply wp_drop_stat; [exact H|exact F1|]. apply HQ'. intros [Hfi _ _ _ _]. fold hlen in Hfi.
    rewrite header_fits_carries in Hf by (by eapply pk_head_carries). apply andb_false_iff in Hf as [?%Z.leb_gt|?%Z.leb_gt]; lia. }
  intros s2 Hfit Hs2 P2 F2. set (b2 := header_moved (- hlen) b) in *.
  assert (payload b2 = payload b + hlen /\ len b2 = len b - hlen /\ tot_len b2 = tot_len b - hlen /\ Pbuf.type b2 = PBUF_POOL)
    as (Pb & Lb & Tb & Yb) by (unfold b2; cbn; split_and!; (lia || done)).
  assert (ps s2 = put p b2 (ps s)) as Ps2 by (by rewrite Hs2).
  assert (data_end p b2 = p + 528) as He2 by (by apply pool_end). unfold SIZEOF_ICMP_ECHO_HDR in *.
  pose proof (frame_trans _ _ _ _ F1 F2) as F02. apply wp_bind. eapply wp_pk_buf; [exact P2|].
  change (negb (0 =? 0)) with false. cbn [orb]. destruct (Z.ltb_spec (tot_len b2) 4) as [H4|H4].
  { eapply wp_drop_stat; [exact P2|exact F02|]. apply HQ'. intros [_ Hle _ _ _]. unfold SIZEOF_ICMP_ECHO_HDR in Hle. lia. }
  apply wp_bind. eapply wp_pk_peek; [exact P2|lia|lia|].
  assert (read_bytes (bytes (ps s2)) (payload b2) 1 = read_bytes (bytes (ps s)) (payload b + hlen) 1) as Hty8 by (by rewrite Ps2, Pb).
  rewrite Hty8. destruct (Z.eqb_spec (byte1 (read_bytes (bytes (ps s)) (payload b + hlen) 1)) ICMP_ER) as [Hy|_];
    [|destruct (Z.eqb_spec (byte1 (read_bytes (bytes (ps s)) (payload b + hlen) 1)) ICMP_ECHO) as [Hy|Hy]].
  - eapply wp_pk_drop; [exact P2|]. intros s3 I3 F3 _. apply HQ'; [|done|by eapply frame_trans].
    intros [_ _ Hye _ _]. fold hlen in Hye. rewrite Hy in Hye. done.
  - apply wp_bind. eapply wp_gets; [done|]. apply wp_bind. eapply wp_the_netif; [by rewrite (fr_netifs _ _ _ F02)|].
    rewrite (fr_ips _ _ _ F02).
    destruct (ip_addr_ismulticast (current_iphdr_dest (ips s)) || ip_addr_isbroadcast (current_iphdr_dest (ips s)) nif) eqn:Hd.
    { eapply wp_stat_drop; [exact P2|exact F02|]. apply HQ'. intros [_ _ _ Hdd _]. congruence. }
    destruct (Z.ltb_spec (tot_len b2) 8) as [H8|H8].
    { eapply wp_drop_stat; [exact P2|exact F02|]. apply HQ'. intros [_ Hle _ _ _]. unfold SIZEOF_ICMP_ECHO_HDR in Hle. lia. }
    destruct (Chksum.chksum_pbuf_total _ _ _ (pk_chain _ _ _ _ _ _ P2)) as (c & Ec).
    apply wp_bind. eapply wp_gets; [exact Ec|]. rewrite Ps2 in Ec. destruct (Z.eqb_spec c 0) as [Hc|Hc]; cbn [negb].
    2: { eapply wp_drop_stat; [exact P2|exact F02|]. apply HQ'. intros [_ _ _ _ Hs]. fold hlen b2 in Hs. congruence. }
    assert (echo_request s p b nif) as Er.
    { split; fold hlen b2; [|unfold SIZEOF_ICMP_ECHO_HDR; lia|done|done|by rewrite Ec, Hc].
      rewrite header_fits_carries in Hfit by (by eapply pk_head_carries). apply andb_true_iff in Hfit as [?%Z.leb_le _]. lia. }
    replace (payload b) with (payload b2 - hlen) by lia.
    eapply wp_icmp_echo; [exact P2|lia|lia|lia|lia|lia| |].
    + intros s3 Nm I3 F3. apply HQ; [right|done|by eapply frame_trans]. destruct Nm as (m & m' & Ea & Hm). exists m, m'.
      rewrite Ea, Ps2. split; [done|]. by replace (tot_len b) with (tot_len b2 + hlen) by lia.
    + rewrite (fr_ips _ _ _ F02). intros q bq k s3 [Pq Fq Lq Tq Dq]. apply (HR q bq k); [done|]. pose proof (frame_trans _ _ _ _ F02 Fq) as F03.
      split; [done|done|done|lia|]. fold hlen. intros Hh20. rewrite (fr_ips _ _ _ F02) in Dq.
      replace (header_moved hlen b2) with b in Dq by (unfold b2; rewrite <-(header_moved_back (- hlen) b) at 1; f_equal; lia).
      rewrite Hh20 in Dq. rewrite Ps2 in Dq. apply Dq. rewrite header_fits_carries by (by eapply pk_head_carries).
      apply andb_false_iff. right. apply Z.leb_gt. unfold IP_HLEN in Hh20. lia.
  - apply wp_bind. eapply wp_pk_stat; [exact P2|]. intros g P3. eapply wp_stat_drop; [exact P3|by apply frame_stats|].
    apply HQ'. intros [_ _ Hye _ _]. done.
Qed.

Lemma wp_echo_sent extra R p b l q bq k inp nif Q s s' : ip_packet extra R p b l s -> echo_sent extra R p b l q bq k s s' -> netifs s !! inp = Some nif ->
  Z.of_nat (length extra) < 49996 -> (forall s2, net_inv s2 extra R -> frame extra s s2 -> Q tt s2) ->
  wp (_ <- ip_output_if q (current_iphdr_dest (ips s)) None ICMP_TTL 0 IP_PROTO_ICMP inp ;; drop_packet q)%net Q s'.
Proof.
  intros [_ _ _ _ Htot] [Pq Fq Lq Tq _] En Hx HQ. apply wp_bind.
  eapply wp_ip_output_hdrincl; [by eapply packet_sending|exact Lq|lia|by rewrite (fr_netifs _ _ _ Fq)|exact Hx|].
  intros e s4 I4 F4. apply wp_bind. eapply wp_free; [exact I4|]. intros _ s5 I5 F5 _. apply wp_ret, HQ; [done|].
  eapply frame_trans; [exact Fq|by eapply frame_trans].
Qed.

Lemma wp_icmp_input extra R p b l inp nif Q s : ip_packet extra R p b l s -> 20 <= hlen_of s b -> netifs s !! inp = Some nif ->
  Z.of_nat (length extra) < 49996 ->
  (forall s', net_inv s' extra R -> frame extra s s' -> Q tt s') -> wp (icmp_input p inp) Q s.
Proof.
  intros H Hh En Hx HQ. eapply wp_icmp_input_gen; [exact H|done|exact En|by intros s' _; apply HQ|].
  intros q bq k s' _ Es. by eapply wp_echo_sent.
Qed.

(** C20: The sender of a packet nobody takes is told: for a packet of 28 bytes or more
    in its first buffer [icmp_dest_unreach] gives
    [ip_output] a message to the source of the packet with the type, the code and
    the first 28 bytes of the packet, in which the checksum is right, unless the
    heap has no room for it; the packet itself is still the caller's. *)
Theorem dest_unreach_reports extra R p b l t s :
  packet extra R p b l s -> 28 <= len b -> payload b + 28 <= data_end p b -> listed s -> Z.of_nat (length extra) < 49995 ->
  0 <= t < 256 -> Chksum.octets (sub 0 28 (data s b)) ->
  exists s1, icmp_dest_unreach p t s = Some (tt, s1) /\ net_inv s1 (p :: extra) R /\ quiet (p :: extra) s s1 /\
    (no_memory PBUF_IP 36 s \/
     exists q bq s', sending (p :: extra) R q bq s' /\ frame (p :: extra) s s' /\
       data s' bq = icmp_error (payload bq) ICMP_DUR t (sub 0 28 (data s b)) /\
       (forall addr, Chksum.inet_chksum addr (data s' bq) = 0) /\
       (_ <- ip_output q 0 (le32 (sub 12 4 (data s b))) ICMP_TTL 0 IP_PROTO_ICMP ;; drop_packet q)%net s' = Some (tt, s1)).
Proof.
  intros H Hl He Ls Hx Ht Ho. apply wp_ex. eapply wp_send_response; [exact H|exact He| |].
  - intros s' Nm I' F'. split; [done|]. split; [by apply frame_quiet|by left].
  - intros q bq src s' Es. pose proof Es as [Sn Fr _ (d & D & Hd & Hs)]. destruct (Hs Hl) as [-> ->].
    destruct (wp_run (_ <- ip_output q 0 (le32 (sub 12 4 (sub 0 28 (data s b)))) ICMP_TTL 0 IP_PROTO_ICMP ;; drop_packet q)%net
      (fun _ s2 => net_inv s2 (p :: extra) R /\ quiet (p :: extra) s s2) s') as ([] & s2 & E2 & I2 & F2); [by eapply wp_error_sent; eauto|].
    unfold wp. rewrite E2. split; [done|]. split; [done|right]. exists q, bq, s'. split; [done|]. split; [done|]. split; [done|]. split.
    + intros addr. rewrite D. unfold icmp_error, bytes16. rewrite (Z.mod_small (_ / 256)).
      2: { match goal with |- context [Chksum.inet_chksum ?a ?l] => assert (in_u 16 (Chksum.inet_chksum a l)) as Hc by (by apply wrap_range) end.
           unfold in_u in Hc. split; [apply Z.div_pos; lia|apply Z.div_lt_upper_bound; lia]. }
      apply (Chksum.inet_chksum_verifies (payload bq) addr [ICMP_DUR; t] ([0; 0; 0; 0] ++ sub 0 28 (data s b))); [|..].
      * repeat constructor; unfold ICMP_DUR; lia.
      * apply Forall_app. split; [repeat constructor; lia|done].
      * done.
      * rewrite length_app, Hd. cbn [length]. lia.
    + replace (sub 12 4 (data s b)) with (sub 12 4 (sub 0 28 (data s b))); [done|]. unfold sub. rewrite drop_0, skipn_firstn_comm, take_take. done.
Qed.

(** The parts of the messages: the header of the packet up to the TTL, the rest of
    its fields, and the ICMP message. *)
Definition echo_message (head : list Z) (ttl proto : Z) (chksum src dest : list Z) (type code : Z) (sum rest : list Z) : list Z :=
  head ++ [ttl; proto] ++ chksum ++ src ++ dest ++ [type; code] ++ sum ++ rest.

Lemma echo_answer_message i head ttl proto chksum src dest type code sum rest : length head = 8%nat -> length chksum = 2%nat ->
  length src = 4%nat -> length dest = 4%nat -> length sum = 2%nat ->
  echo_answer i IP_HLEN (echo_message head ttl proto chksum src dest type code sum rest) =
  echo_message head ICMP_TTL proto [0; 0] (bytes32 (current_iphdr_dest i)) (bytes32 (current_iphdr_src i)) ICMP_ER code [0; 0] rest.
Proof.
  intros. do 8 (destruct head as [|? head]; [done|]). destruct head; [|done].
  destruct chksum as [|? [|? []]]; try done. destruct sum as [|? [|? []]]; try done.
  destruct src as [|? [|? [|? [|? []]]]]; try done. destruct dest as [|? [|? [|? [|? []]]]]; done.
Qed.

(** C16: A ping is answered: for an echo request without IP options whose checksum
    is right, [icmp_input] gives the ARP module a packet to the sender that is the
    request with the addresses exchanged, the type of a reply, a TTL of 255 and the
    checksums left to the MAC, unless the heap has no room for the copy; the
    request is freed and the rest of the stack is as it was. *)
Theorem icmp_echo_answered extra R p b l inp nif head ttl proto chksum src dest code sum rest s :
  ip_packet extra R p b l s -> hlen_of s b = IP_HLEN -> netifs s !! inp = Some nif -> Z.of_nat (length extra) < 49996 ->
  in_u 32 (current_iphdr_src (ips s)) -> echo_request s p b nif ->
  length head = 8%nat /\ length chksum = 2%nat /\ length src = 4%nat /\ length dest = 4%nat /\ length sum = 2%nat ->
  contents (bytes (ps s)) ((p, b) :: l) = echo_message head ttl proto chksum src dest ICMP_ECHO code sum rest ->
  exists s1, icmp_input p inp s = Some (tt, s1) /\ net_inv s1 extra R /\ frame extra s s1 /\
    (no_memory PBUF_LINK (tot_len b) s \/
     exists q bq s', packet extra R q bq [] s' /\ frame extra s s' /\
       data s' bq = echo_message head ICMP_TTL proto [0; 0] (bytes32 (current_iphdr_dest (ips s)))
         (bytes32 (current_iphdr_src (ips s))) ICMP_ER code [0; 0] rest /\
       (_ <- etharp_output inp q (current_iphdr_src (ips s)) ;; drop_packet q)%net s' = Some (tt, s1)).
Proof.
  intros H Hh En Hx Hsrc Er (L1 & L2 & L3 & L4 & L5) Hc. apply wp_ex. eapply wp_icmp_input_gen; [exact H|by rewrite Hh|exact En| |].
  - intros s1 [Hn|Nm] I1 F1; [done|]. split; [done|]. split; [done|by left].
  - intros q bq k s1 _ Es. pose proof Es as [Pq Fq Lq _ Dq]. destruct (Dq Hh) as [-> D]. rewrite Hc, echo_answer_message in D by done.
    destruct (wp_run (_ <- ip_output_if q (current_iphdr_dest (ips s)) None ICMP_TTL 0 IP_PROTO_ICMP inp ;; drop_packet q)%net
      (fun _ s2 => net_inv s2 extra R /\ frame extra s s2) s1) as ([] & s2 & E2 & I2 & F2); [by eapply wp_echo_sent; eauto|].
    unfold wp. rewrite E2. split; [done|]. split; [done|right].
    assert (load q 16 4 s1 = Some (bytes32 (current_iphdr_src (ips s)), s1)) as El.
    { rewrite (load_run q 16 4 bq) by (try (by eapply pk_buf); lia). do 2 f_equal. rewrite (read_sub _ _ _ _ (len bq)) by lia.
      fold (data s1 bq). rewrite D. do 8 (destruct head as [|? head]; [done|]). by destruct head. }
    unfold ip_output_if in E2. rewrite bind_bind, (bind_run _ _ _ _ _ El) in E2.
    rewrite le32_bytes in E2 by done.
    destruct (wp_run (inc_stat ip_xmit) (fun _ s' => exists f, s' = with_stats f s1) s1) as ([] & s3 & E3 & f & ->).
    { apply wp_inc_stat. by eexists. }
    rewrite bind_bind, (bind_run _ _ _ _ _ E3) in E2.
    exists q, bq, (with_stats f s1). split; [by apply pk_stats|]. split; [by apply frame_stats|]. split; [exact D|exact E2].
Qed.

End Correct.

(** ** Examples *)

(** 192.168.0.7 asks this host. *)
Definition ping : list Z :=
  ip_header 0 136 1 64 IP_PROTO_ICMP demo_ip (ip_addr demo_netif) ++ [8; 0; 0xf7; 0xfd; 0; 1; 0; 1] ++ replicate 108 0x55.
Definition host_ping : net lwip_mem wire := processing ping net_rx.

Lemma ping_request : echo_request host_ping rx rx_ip demo_netif.
Proof. split; [apply Z.leb_le; by vm_compute|apply Z.leb_le; by vm_compute|by vm_compute..]. Qed.

Lemma icmp_echo_answered_witness : exists s1, icmp_input rx 0x100 host_ping = Some (tt, s1) /\ net_inv s1 [] [] /\
  (no_memory PBUF_LINK 136 host_ping \/ exists q bq s', packet [] [] q bq [] s' /\
    data s' bq = ip_header 0 136 1 255 IP_PROTO_ICMP (ip_addr demo_netif) demo_ip ++ [0; 0; 0; 0; 0; 1; 0; 1] ++ replicate 108 0x55).
Proof.
  assert (Z.of_nat (@length Z []) < 49996) as Hx by done.
  assert (hlen_of host_ping rx_ip = IP_HLEN) as Hh by (vm_compute; reflexivity).
  assert (netifs host_ping !! 0x100 = Some demo_netif) as En by (vm_compute; reflexivity).
  assert (in_u 32 (current_iphdr_src (ips host_ping))) as Hs by (split; [apply Z.leb_le|apply Z.ltb_lt]; by vm_compute).
  assert (contents (bytes (ps host_ping)) [(rx, rx_ip)] = echo_message [0x45; 0; 0; 136; 0; 1; 0; 0] 64 1 [0; 0] (bytes32 demo_ip)
    (bytes32 (ip_addr demo_netif)) 8 0 [0xf7; 0xfd] ([0; 1; 0; 1] ++ replicate 108 0x55)) as Hc by (vm_compute; reflexivity).
  pose proof (processing_packet ping net_rx net_rx_inv net_rx_bufs) as Hp.
  destruct (icmp_echo_answered [] [] rx rx_ip [] 0x100 demo_netif [0x45; 0; 0; 136; 0; 1; 0; 0] 64 1 [0; 0] (bytes32 demo_ip)
    (bytes32 (ip_addr demo_netif)) 0 [0xf7; 0xfd] ([0; 1; 0; 1] ++ replicate 108 0x55) host_ping Hp Hh En Hx Hs ping_request
    (conj eq_refl (conj eq_refl (conj eq_refl (conj eq_refl eq_refl)))) Hc) as (s1 & E & I & _ & H).
  exists s1. split; [exact E|]. split; [exact I|]. destruct H as [H|(q & bq & s' & P & _ & D & _)]; [left; exact H|right].
  exists q, bq, s'. split; [exact P|]. rewrite D. reflexivity.
Defined.

Lemma dest_unreach_reports_witness : exists s1, icmp_dest_unreach rx ICMP_DUR_PORT host_ping = Some (tt, s1) /\ net_inv s1 [rx] [] /\
  (no_memory PBUF_IP 36 host_ping \/ exists bq (s' : net lwip_mem wire), data s' bq = icmp_error (payload bq) 3 3 (take 28 ping) /\
    Chksum.inet_chksum 0 (data s' bq) = 0).
Proof.
  assert (Z.of_nat (@length Z []) < 49995 /\ 0 <= ICMP_DUR_PORT < 256) as [Hx Ht] by done.
  pose proof (ip_pk _ _ _ _ _ _ (processing_packet ping net_rx net_rx_inv net_rx_bufs)) as Hp.
  assert (28 <= len rx_ip /\ payload rx_ip + 28 <= data_end rx rx_ip) as [H1 H2] by (split; apply Z.leb_le; by vm_compute).
  assert (sub 0 28 (data host_ping rx_ip) = take 28 ping) as Hd by (vm_compute; reflexivity).
  assert (Chksum.octets (sub 0 28 (data host_ping rx_ip))) as Ho by (rewrite Hd; apply (bool_decide_unpack _); by vm_compute).
  pose proof (processing_listed ping net_rx (proj2 net_rx_clients)) as Ls.
  destruct (dest_unreach_reports [] [] rx rx_ip [] ICMP_DUR_PORT host_ping Hp H1 H2 Ls Hx Ht Ho) as (s1 & E & I & _ & H).
  exists s1. split; [exact E|]. split; [exact I|]. destruct H as [H|(q & bq & s' & _ & _ & D & C & _)]; [left; exact H|right].
  exists bq, s'. rewrite Hd in D. exact (conj D (C 0)).
Defined.

End Icmp.
