(* ===== verification/Raw.v ===== *)
(** * Raw sockets

    raw.c: the pcbs that see IP packets of a protocol before the stack does, and
    send them; and what the functions of the application behind the pcbs, and
    TCP, must do with the packets they get ([app_laws]: lwip/raw.h, lwip/udp.h,
    lwip/tcp_impl.h).  IP_SOF_BROADCAST and IP_SOF_BROADCAST_RECV are 0. *)
From S2P Require Import Prelude Alloc Pbuf PbufData Chksum IpAddr Refs Net Etharp Wire ArpCache Netif Plist Packet IpOut Pcbs.
Import Alloc Pbuf PbufData Refs Net Etharp Wire ArpCache Netif Plist Packet IpOut Pcbs.

Module Raw.
Local Open Scope net_scope.

Definition RAW_TTL : Z := 255.

Definition set_r_next (x : Z) (r : raw_pcb) : raw_pcb :=
  mk_raw (r_local_ip r) (r_remote_ip r) (r_so_options r) (r_tos r) (r_ttl r) x (r_protocol r) (r_recv r) (r_recv_arg r).
Definition set_r_local_ip (x : Z) (r : raw_pcb) : raw_pcb :=
  mk_raw x (r_remote_ip r) (r_so_options r) (r_tos r) (r_ttl r) (r_next r) (r_protocol r) (r_recv r) (r_recv_arg r).
Definition set_r_remote_ip (x : Z) (r : raw_pcb) : raw_pcb :=
  mk_raw (r_local_ip r) x (r_so_options r) (r_tos r) (r_ttl r) (r_next r) (r_protocol r) (r_recv r) (r_recv_arg r).
Definition set_r_recv (f arg : Z) (r : raw_pcb) : raw_pcb :=
  mk_raw (r_local_ip r) (r_remote_ip r) (r_so_options r) (r_tos r) (r_ttl r) (r_next r) (r_protocol r) f arg.

#[export] Instance raw_kind : pcb_kind raw_pcb := {
  pcb_pool := MEMP_RAW_PCB; nxt := r_next; set_nxt := set_r_next;
  pcbs_of := raws; head_of := raw_pcbs; put_pcbs := set_raws }.

#[export, refine] Instance raw_laws : pcb_laws raw_pcb := { pcb_ok := raw_ok }.
Proof.
  - by left.
  - done.
  - done.
  - done.
  - done.
  - by intros [].
  - done.
  - by split.
  - intros i []. by split.
  - intros m h l i [] Hm L _. split; try done. by exists l.
  - intros i. exists (udp_block <$> keys (udps i)). unfold pcb_mem. split; [apply Permutation_app_comm|].
    intros m h. apply Permutation_app_comm.
Defined.

Ltac raw_fields := cbn [pcbs_of head_of put_pcbs nxt set_nxt raw_kind].

(** ** The functions above the stack *)

Class app_ops (A W : Type) := {
  raw_recv_fn : Z -> Z -> Z -> Z -> Z -> M A W Z;            (* the function at an address; recv_arg, pcb, p, addr *)
  udp_recv_fn : Z -> Z -> Z -> Z -> Z -> Z -> M A W unit;    (* recv_arg, pcb, p, addr, port *)
  tcp_input : Z -> Z -> M A W unit }.

(** The description of the packet being processed. *)
Definition same_current (i i' : ipstate) : Prop :=
  current_netif i' = current_netif i /\ current_header i' = current_header i /\
  current_iphdr_src i' = current_iphdr_src i /\ current_iphdr_dest i' = current_iphdr_dest i.

(** The buffer of [p] is as it was. *)
Definition same_buffer {A W} (p : Z) (s s' : net A W) : Prop :=
  read_bytes (bytes (ps s')) (p + 16) 512 = read_bytes (bytes (ps s)) (p + 16) 512.

(** A raw function either eats the packet or leaves it as it is, and does not
    change the list it is called from; the others take the packet over. *)
Class app_laws (A W : Type) {ops : alloc_ops A} {laws : alloc_laws A} {lops : link_ops A W} {llaws : link_laws A W}
    {aops : app_ops A W} := {
  raw_recv_law fn arg pcb p addr b l (s : net A W) extra R : ip_packet extra R p b l s -> Z.of_nat (length extra) < 49996 ->
    wp (raw_recv_fn fn arg pcb p addr) (fun e s' => keeps s s' /\ same_current (ips s) (ips s') /\
      raws (ips s') = raws (ips s) /\ raw_pcbs (ips s') = raw_pcbs (ips s) /\
      if e =? 0 then ip_packet extra R p b l s' /\ same_packets (ps s) (ps s') (p :: extra) /\ same_buffer p s s'
      else net_inv s' extra R /\ same_packets (ps s) (ps s') extra) s;
  udp_recv_law fn arg pcb p addr port b l (s : net A W) extra R : packet extra R p b l s -> Z.of_nat (length extra) < 49996 ->
    wp (udp_recv_fn fn arg pcb p addr port) (fun _ s' => taken extra R s s') s;
  tcp_input_law p inp b l (s : net A W) extra R : ip_packet extra R p b l s -> header_ok s b ->
    is_Some (netifs s !! inp) -> Z.of_nat (length extra) < 49996 ->
    wp (tcp_input p inp) (fun _ s' => taken extra R s s') s }.

(** ** Operations *)

Section Operations.
Context {A W : Type} {ops : alloc_ops A} {lops : link_ops A W} {aops : app_ops A W}.

(** The body of the loop: 1 if the packet has been eaten. *)
Definition raw_try (p proto prev pcb : Z) : M A W Z :=
  r <- pcb_at pcb ;;
  i <- the_ips ;;
  if (r_protocol r =? proto) && (ip_addr_isany (r_local_ip r) || (r_local_ip r =? current_iphdr_dest i)) then
    if r_recv r =? 0 then ret 0
    else
      e <- raw_recv_fn (r_recv r) (r_recv_arg r) pcb p (current_iphdr_src i) ;;
      if e =? 0 then ret 0
      else when (negb (prev =? 0)) (pcb_to_front prev pcb) ;; ret 1
  else ret 0.

Fixpoint raw_loop (fuel : nat) (p proto prev pcb : Z) : M A W Z :=
  match fuel with
  | O => fun _ => None
  | S fuel =>
      if pcb =? 0 then ret 0
      else
        eaten <- raw_try p proto prev pcb ;;
        r <- pcb_at pcb ;;
        if eaten =? 0 then raw_loop fuel p proto pcb (r_next r) else ret eaten
  end.

Definition raw_input (p inp : Z) : M A W Z :=
  b <- the_pbuf p ;;
  proto <- peek p (payload b + 9) 1 ;;
  i <- the_ips ;;
  raw_loop (S (size (raws i))) p (byte1 proto) 0 (raw_pcbs i).

Definition raw_bind (pcb ipaddr : Z) : M A W Z := upd_pcb pcb (set_r_local_ip ipaddr) ;; ret ERR_OK.
Definition raw_connect (pcb ipaddr : Z) : M A W Z := upd_pcb pcb (set_r_remote_ip ipaddr) ;; ret ERR_OK.
Definition raw_recv (pcb recv recv_arg : Z) : M A W unit := upd_pcb pcb (set_r_recv recv recv_arg).

(** The end of [raw_sendto]: the packet [q] is [p] or has a new header pbuf in
    front of [p]. *)
Definition raw_send_q (pcb p q ipaddr : Z) : M A W Z :=
  n <- ip_route ipaddr ;;
  if n =? 0 then when (negb (q =? p)) (drop_packet q) ;; ret ERR_RTE
  else
    r <- pcb_at pcb ;;
    nif <- the_netif n ;;
    let src_ip := if ip_addr_isany (r_local_ip r) then ip_addr nif else r_local_ip r in
    err <- ip_output_if q src_ip (Some ipaddr) (r_ttl r) (r_tos r) (r_protocol r) n ;;
    when (negb (q =? p)) (drop_packet q) ;;
    ret err.

Definition raw_sendto (pcb p ipaddr : Z) : M A W Z :=
  e <- pbufs (pbuf_header p IP_HLEN) ;;
  if negb (e =? 0) then
    q <- pbufs (pbuf_alloc PBUF_IP 0 PBUF_RAM) ;;
    if q =? 0 then ret ERR_MEM
    else
      b <- the_pbuf p ;;
      when (negb (tot_len b =? 0)) (pbufs_ (pbuf_chain q p)) ;;
      raw_send_q pcb p q ipaddr
  else
    e <- pbufs (pbuf_header p (- IP_HLEN)) ;;
    if negb (e =? 0) then ret ERR_MEM
    else raw_send_q pcb p p ipaddr.

Definition raw_send (pcb p : Z) : M A W Z :=
  r <- pcb_at pcb ;;
  raw_sendto pcb p (r_remote_ip r).

Definition raw_remove (pcb : Z) : M A W unit := pcb_remove (X := raw_pcb) pcb.

Definition raw_new (proto : Z) : M A W Z :=
  pcb <- memp_malloc MEMP_RAW_PCB ;;
  when (negb (pcb =? 0))
    (set_ips (fun i => set_raws (<[pcb := mk_raw 0 0 0 0 RAW_TTL (raw_pcbs i) proto 0 0]> (raws i)) pcb i)) ;;
  ret pcb.

End Operations.

(** ** Correctness *)

Section Correct.
Context {A W : Type} {ops : alloc_ops A} {laws : alloc_laws A} {lops : link_ops A W} {llaws : link_laws A W}
  {aops : app_ops A W} {alaws : app_laws A W}.
Implicit Types s : net A W.

(** *** Input *)

(** [s'] is [s] after functions that left the packet alone. *)
Record passed extra R (p : Z) (b : pbuf) (l : list (Z * pbuf)) s s' : Prop := {
  pa_packet : ip_packet extra R p b l s';
  pa_same : same_packets (ps s) (ps s') (p :: extra);
  pa_buffer : same_buffer p s s';
  pa_keeps : keeps s s';
  pa_current : same_current (ips s) (ips s');
  pa_raws : raws (ips s') = raws (ips s) /\ raw_pcbs (ips s') = raw_pcbs (ips s) }.

Lemma passed_refl extra R p b l s : ip_packet extra R p b l s -> passed extra R p b l s s.
Proof. intros H. split; [done|apply same_packets_refl|done|apply keeps_refl|done|done]. Qed.

Lemma same_current_trans i1 i2 i3 : same_current i1 i2 -> same_current i2 i3 -> same_current i1 i3.
Proof. intros (? & ? & ? & ?) (? & ? & ? & ?). repeat split; congruence. Qed.

(** The packet has been taken. *)
Record eaten extra R s s' : Prop := {
  ea_taken : taken extra R s s';
  ea_current : same_current (ips s) (ips s') }.

Lemma wp_raw_try extra R p b l s0 proto l1 pcb l2 Q s : passed extra R p b l s0 s -> Z.of_nat (length extra) < 49996 ->
  pcb_list (ips s) (l1 ++ pcb :: l2) ->
  (forall s', passed extra R p b l s0 s' -> Q 0 s') ->
  (forall s', eaten extra R s0 s' -> is_Some (raws (ips s') !! pcb) -> Q 1 s') ->
  wp (raw_try p proto (default 0 (last l1)) pcb) Q s.
Proof.
  intros Pa Hx L H0 H1. pose proof Pa as [Ip Sp Sb Kp Cu [Rw Rh]].
  destruct (plist_elem _ _ _ _ pcb L ltac:(set_solver)) as (_ & r & Er).
  unfold raw_try. apply wp_bind. eapply wp_pcb_at; [exact Er|]. apply wp_bind, (wp_gets _ (ips s)); [done|].
  destruct (_ && _); [|by apply wp_ret, H0]. destruct (r_recv r =? 0); [by apply wp_ret, H0|].
  apply wp_bind. eapply wp_mono; [by apply raw_recv_law|]. intros e s1 (K1 & C1 & R1 & R1' & H).
  pose proof (keeps_trans _ _ _ Kp K1) as K01. pose proof (same_current_trans _ _ _ Cu C1) as C01.
  destruct (e =? 0).
  - apply wp_ret, H0. destruct H as (Ip1 & Sp1 & Sb1). split; [done|by eapply same_packets_trans| |done|done|split; congruence].
    unfold same_buffer in *. congruence.
  - destruct H as [I1 Sp1]. assert (same_packets (ps s0) (ps s1) extra) as S01.
    { eapply same_packets_trans; [eapply same_packets_sub; [|exact Sp]; set_solver|exact Sp1]. }
    assert (pcb_list (ips s1) (l1 ++ pcb :: l2)) as L1 by (unfold pcb_list; raw_fields; by rewrite R1, R1').
    apply wp_bind. destruct l1 as [|x l1 _] using rev_ind.
    + cbn [last default]. apply wp_ret, wp_ret, H1; [by split; [split|]|by rewrite R1].
    + rewrite last_snoc. change (default 0 (Some x)) with x. rewrite <-app_assoc in L1. cbn [app] in L1.
      destruct (plist_elem _ _ _ _ x L1 ltac:(set_solver)) as (Hz & _). rewrite (proj2 (Z.eqb_neq x 0)) by done. cbn [negb when].
      eapply wp_to_front; [exact I1|exact L1|]. intros i Sr L2 _ Hall I2. apply wp_ret, H1.
      * destruct (keeps_ips extra s1 i (sr_dhcps _ _ Sr)) as [P2 K2].
        split; [split; [done|by eapply same_packets_trans|by eapply keeps_trans]|]. eapply same_current_trans; [exact C01|apply Sr].
      * by destruct (plist_elem _ _ _ _ pcb L2 ltac:(by left)).
Qed.

Lemma wp_raw_loop extra R p b l s0 proto Q : Z.of_nat (length extra) < 49996 ->
  (forall s', passed extra R p b l s0 s' -> Q 0 s') -> (forall s', eaten extra R s0 s' -> Q 1 s') ->
  forall l2 fuel l1 pcb s, (length l2 < fuel)%nat -> passed extra R p b l s0 s -> pcb_list (ips s) (l1 ++ l2) ->
    plist r_next (raws (ips s)) pcb l2 -> wp (raw_loop fuel p proto (default 0 (last l1)) pcb) Q s.
Proof.
  intros Hx H0 H1. induction l2 as [|a l2 IH]; intros [|fuel] l1 pcb s Hf Pa L Lp; cbn [length] in Hf; [lia| |lia|];
    cbn [raw_loop].
  - cbn [plist] in Lp. subst pcb. by apply wp_ret, H0.
  - pose proof Lp as (-> & Hz & x & Ex & Lx). rewrite (proj2 (Z.eqb_neq a 0)) by done. apply wp_bind.
    eapply wp_raw_try; [exact Pa|done|exact L| |].
    + intros s' Pa'. assert (raws (ips s') = raws (ips s) /\ raw_pcbs (ips s') = raw_pcbs (ips s)) as [Rr Rh].
      { destruct (pa_raws _ _ _ _ _ _ _ Pa), (pa_raws _ _ _ _ _ _ _ Pa'). split; congruence. }
      apply wp_bind. eapply wp_pcb_at; [raw_fields; by rewrite Rr|]. cbn [Z.eqb].
      replace a with (default 0 (last (l1 ++ [a]))) by (by rewrite last_snoc). apply IH; [lia|done| |by rewrite Rr].
      unfold pcb_list. raw_fields. rewrite Rr, Rh, <-app_assoc. done.
    + intros s' Ea [y Ey]. apply wp_bind. eapply wp_pcb_at; [exact Ey|]. cbn [Z.eqb]. by apply wp_ret, H1.
Qed.

(** *** Input passes the packet on or it is eaten *)
Lemma wp_raw_input extra R p b l inp Q s : ip_packet extra R p b l s -> Z.of_nat (length extra) < 49996 ->
  (forall s', passed extra R p b l s s' -> Q 0 s') -> (forall s', eaten extra R s s' -> Q 1 s') -> wp (raw_input p inp) Q s.
Proof.
  intros H Hx H0 H1. pose proof H as [Hp _ Hat _ _]. pose proof (ip_data_end _ _ _ _ _ _ H) as He.
  unfold raw_input. apply wp_bind. eapply wp_pk_buf; [exact Hp|]. apply wp_bind. eapply wp_pk_peek; [exact Hp|lia|lia|].
  apply wp_bind, (wp_gets _ (ips s)); [done|]. destruct (io_raws _ (ni_ips _ _ _ (pk_inv _ _ _ _ _ _ Hp))) as (k & L).
  eapply (wp_raw_loop extra R p b l s _ _ Hx H0 H1 k _ []); [|by apply passed_refl|done|done].
  pose proof (plist_size _ _ _ _ L). lia.
Qed.

(** *** Sending *)

Lemma wp_raw_send_q pcb r keep R q bq p ipaddr Q s : sending keep R q bq s -> raws (ips s) !! pcb = Some r -> listed s ->
  tot_len bq + 34 < 2 ^ 16 -> Z.of_nat (length keep) < 49996 ->
  (forall e s', net_inv s' (if q =? p then q :: keep else keep) R -> quiet keep s s' -> Q e s') ->
  wp (raw_send_q pcb p q ipaddr) Q s.
Proof.
  intros H Er Ls Ht Hx HQ. unfold raw_send_q. apply wp_bind, wp_route; [done|]. intros n f Hn.
  assert (sending keep R q bq (with_stats f s)) as H1 by (eapply sn_same; [exact H|done|apply inv_stats, H]).
  assert (quiet keep s (with_stats f s)) as Q1 by (apply frame_quiet, frame_stats, frame_refl).
  assert (forall e s1, net_inv s1 (q :: keep) R -> quiet keep s s1 ->
    wp (when (negb (q =? p)) (drop_packet q) ;; ret e)%net Q s1) as Hend.
  { intros e s1 I1 K1. apply wp_bind. destruct (q =? p); cbn [negb when]; [by apply wp_ret, wp_ret, HQ|].
    apply wp_bind. eapply wp_free; [exact I1|]. intros _ s2 I2 F2 _. apply wp_ret, wp_ret, HQ; [done|by eapply quiet_frame]. }
  destruct (Z.eqb_spec n 0) as [->|Hz].
  - apply Hend; [apply H1|done].
  - assert (is_Some (netifs s !! n)) as (nif & En) by (by eapply route_netif).
    apply wp_bind. eapply (wp_pcb_at pcb r); [exact Er|]. apply wp_bind. eapply wp_the_netif; [exact En|]. cbv zeta.
    apply wp_bind. eapply wp_ip_output_if; [exact H1|done|exact En|done|]. intros e s2 I2 Q2. apply Hend; [done|by eapply quiet_trans].
Qed.

Lemma wp_raw_sendto pcb r extra R p b ipaddr Q s : sending extra R p b s -> raws (ips s) !! pcb = Some r -> listed s ->
  tot_len b + 34 < 2 ^ 16 -> Z.of_nat (length extra) < 49995 ->
  (forall e s', net_inv s' (p :: extra) R -> quiet extra s s' -> Q e s') -> wp (raw_sendto pcb p ipaddr) Q s.
Proof.
  intros H Er Ls Ht Hx HQ. unfold raw_sendto. apply wp_bind.
  destruct (sn_header extra R p b IP_HLEN s H ltac:(done) ltac:(done) ltac:(done) ltac:(unfold IP_HLEN; lia)) as [[_ E]|(Hf & E & H1 & F1)];
    unfold wp at 1; rewrite E; cbn [Z.eqb negb].
  - eapply wp_header_pbuf; [exact H|lia|lia|lia| |].
    + intros s' I' F'. apply HQ; [done|]. apply frame_quiet. eapply frame_sub; [|exact F']. set_solver.
    + intros q bq s1 Hqp S1 F1 _ Htq. eapply (wp_raw_send_q pcb r (p :: extra)); [exact S1|by rewrite (fr_ips _ _ _ F1)| |lia|cbn [length]; lia|].
      * by apply (frame_keeps _ _ _ F1).
      * rewrite (proj2 (Z.eqb_neq q p)) by done. intros e s2 I2 Q2. apply HQ; [done|].
        eapply frame_quiet_trans; [exact F1|]. eapply quiet_sub; [|exact Q2]. set_solver.
  - set (s1 := with_ps _ s) in *. set (b1 := header_moved IP_HLEN b) in *.
    assert (header_fits p (- IP_HLEN) b1 = true) as Hf1.
    { destruct (sn_bounds _ _ _ _ _ H) as (_ & ? & ? & _). rewrite header_fits_carries by apply H1. unfold b1, IP_HLEN. cbn.
      apply andb_true_iff. split; apply Z.leb_le; lia. }
    apply wp_bind. destruct (sn_header extra R p b1 (- IP_HLEN) s1 H1 ltac:(done) ltac:(done) ltac:(unfold IP_HLEN; lia)) as [[Hn _]|(_ & E2 & H2 & F2)].
    { unfold b1, IP_HLEN. cbn. lia. }
    { congruence. }
    unfold wp at 1. rewrite E2. cbn [Z.eqb negb]. unfold b1 in *. rewrite header_moved_back in *.
    pose proof (frame_trans _ _ _ _ F1 F2) as F. eapply (wp_raw_send_q pcb r extra); [exact H2|by rewrite (fr_ips _ _ _ F)| |lia|lia|].
    + by apply (frame_keeps _ _ _ F).
    + rewrite Z.eqb_refl. intros e s2 I2 Q2. apply HQ; [done|by eapply frame_quiet_trans].
Qed.

End Correct.

(** ** The simplest system above *)

(** Raw functions take nothing; UDP functions and TCP free what they get. *)
#[export] Instance wire_app {A} {ops : alloc_ops A} : app_ops A wire := {
  raw_recv_fn _ _ _ _ _ := ret 0;
  udp_recv_fn _ _ _ p _ _ := drop_packet p;
  tcp_input p _ := drop_packet p }.

#[export] Instance wire_app_laws {A} {ops : alloc_ops A} {laws : alloc_laws A} : app_laws A wire.
Proof.
  split.
  - intros fn arg pcb p addr b l s extra R H _. apply wp_ret. cbn [Z.eqb].
    split; [apply keeps_refl|]. split; [by split|]. split; [done|]. split; [done|]. split; [done|]. split; [apply same_packets_refl|done].
  - intros fn arg pcb p addr port b l s extra R H _. eapply wp_pk_drop; [exact H|]. intros s' I' F' _. by apply taken_frame.
  - intros p inp b l s extra R [H _ _ _ _] _ _ _. eapply wp_pk_drop; [exact H|]. intros s' I' F' _. by apply taken_frame.
Qed.

End Raw.
