(* ===== verification/Udp.v ===== *)
(** * UDP

    udp.c: local ports, the choice of the pcb that gets a datagram, sending, and
    the life of a pcb.  LWIP_UDPLITE, LWIP_IGMP, SO_REUSE, IP_SOF_BROADCAST,
    IP_SOF_BROADCAST_RECV and LWIP_NETIF_HWADDRHINT are 0; the MAC checks and
    computes the checksums (CHECKSUM_CHECK_UDP and CHECKSUM_GEN_UDP are 0). *)
From S2P Require Import Prelude Alloc Pbuf PbufData Chksum IpAddr Refs Net Etharp Wire ArpCache Netif Plist Packet IpOut Pcbs Icmp Raw.
Import Alloc Pbuf PbufData Refs Net Etharp Wire ArpCache Netif Plist Packet IpOut Pcbs Icmp Raw.

Module Udp.
Local Open Scope net_scope.

Definition UDP_HLEN : Z := 8.
Definition UDP_TTL : Z := 255.
Definition UDP_FLAGS_CONNECTED : Z := 0x04.
Definition UDP_LOCAL_PORT_RANGE_START : Z := 0xc000.
Definition UDP_LOCAL_PORT_RANGE_END : Z := 0xffff.
Definition DHCP_CLIENT_PORT : Z := 68.
Definition DHCP_SERVER_PORT : Z := 67.

Definition set_u_next (x : Z) (u : udp_pcb) : udp_pcb :=
  mk_udp (u_local_ip u) (u_remote_ip u) (u_so_options u) (u_tos u) (u_ttl u) x (u_flags u) (u_local_port u) (u_remote_port u)
    (u_recv u) (u_recv_arg u).
Definition set_u_local_ip (x : Z) (u : udp_pcb) : udp_pcb :=
  mk_udp x (u_remote_ip u) (u_so_options u) (u_tos u) (u_ttl u) (u_next u) (u_flags u) (u_local_port u) (u_remote_port u)
    (u_recv u) (u_recv_arg u).
Definition set_u_remote_ip (x : Z) (u : udp_pcb) : udp_pcb :=
  mk_udp (u_local_ip u) x (u_so_options u) (u_tos u) (u_ttl u) (u_next u) (u_flags u) (u_local_port u) (u_remote_port u)
    (u_recv u) (u_recv_arg u).
Definition set_u_flags (x : Z) (u : udp_pcb) : udp_pcb :=
  mk_udp (u_local_ip u) (u_remote_ip u) (u_so_options u) (u_tos u) (u_ttl u) (u_next u) x (u_local_port u) (u_remote_port u)
    (u_recv u) (u_recv_arg u).
Definition set_u_local_port (x : Z) (u : udp_pcb) : udp_pcb :=
  mk_udp (u_local_ip u) (u_remote_ip u) (u_so_options u) (u_tos u) (u_ttl u) (u_next u) (u_flags u) x (u_remote_port u)
    (u_recv u) (u_recv_arg u).
Definition set_u_remote_port (x : Z) (u : udp_pcb) : udp_pcb :=
  mk_udp (u_local_ip u) (u_remote_ip u) (u_so_options u) (u_tos u) (u_ttl u) (u_next u) (u_flags u) (u_local_port u) x
    (u_recv u) (u_recv_arg u).
Definition set_u_recv (f arg : Z) (u : udp_pcb) : udp_pcb :=
  mk_udp (u_local_ip u) (u_remote_ip u) (u_so_options u) (u_tos u) (u_ttl u) (u_next u) (u_flags u) (u_local_port u) (u_remote_port u)
    f arg.

#[export] Instance udp_kind : pcb_kind udp_pcb := {
  pcb_pool := MEMP_UDP_PCB; nxt := u_next; set_nxt := set_u_next;
  pcbs_of := udps; head_of := udp_pcbs; put_pcbs := set_udps }.

#[export, refine] Instance udp_laws : pcb_laws udp_pcb := { pcb_ok := udp_ok }.
Proof.
  - by right.
  - done.
  - done.
  - done.
  - done.
  - by intros [].
  - done.
  - by split.
  - intros i []. by split.
  - intros m h l i [] Hm L Hd. split; try done; [by exists l|]. cbn [udps dhcps set_udps]. intros d a Ed Ha.
    destruct (Hd a) as [Hk|Hk]; [apply elem_keys; by eapply io_dhcp|by apply elem_keys|by destruct (Hk d)].
  - intros i. exists (raw_block <$> keys (raws i)). done.
Defined.

Ltac udp_fields := cbn [pcbs_of head_of put_pcbs nxt set_nxt udp_kind].

(** ** Operations *)

Section Operations.
Context {A W : Type} {ops : alloc_ops A} {lops : link_ops A W} {aops : app_ops A W}.

(** *** Ports *)

(** The loop of [udp_new_port] over the pcbs. *)
Fixpoint port_used (fuel : nat) (port pcb : Z) : M A W bool :=
  match fuel with
  | O => fun _ => None
  | S fuel =>
      if pcb =? 0 then ret false
      else
        u <- pcb_at (X := udp_pcb) pcb ;;
        if u_local_port u =? port then ret true else port_used fuel port (u_next u)
  end.

(** From the label [again], with the count [n]. *)
Fixpoint new_port_loop (fuel : nat) (n : Z) : M A W Z :=
  match fuel with
  | O => fun _ => None
  | S fuel =>
      i <- the_ips ;;
      set_ips (set_udp_port (u16 (udp_port i + 1))) ;;
      when (udp_port i =? UDP_LOCAL_PORT_RANGE_END) (set_ips (set_udp_port UDP_LOCAL_PORT_RANGE_START)) ;;
      i <- the_ips ;;
      used <- port_used (S (size (udps i))) (udp_port i) (udp_pcbs i) ;;
      if used : bool then
        let n := u16 (n + 1) in
        if UDP_LOCAL_PORT_RANGE_END - UDP_LOCAL_PORT_RANGE_START <? n then ret 0 else new_port_loop fuel n
      else ret (udp_port i)
  end.

Definition new_port_fuel : nat := Z.to_nat 0x4001.
Definition udp_new_port : M A W Z := new_port_loop new_port_fuel 0.

(** *** Input *)

(** Local address and port of the pcb match those the datagram was sent to. *)
Definition local_match (broadcast : bool) (dest_ip dest : Z) (nif : netif) (u : udp_pcb) : bool :=
  (u_local_port u =? dest) &&
  ((negb broadcast && ip_addr_isany (u_local_ip u)) || (u_local_ip u =? dest_ip) ||
   (broadcast && (ip_addr_isany (u_local_ip u) || IpAddr.ip_addr_netcmp (u_local_ip u) dest_ip (netmask nif)))).

(** And the remote ones those it comes from. *)
Definition remote_match (src_ip src : Z) (u : udp_pcb) : bool :=
  (u_remote_port u =? src) && (ip_addr_isany (u_remote_ip u) || (u_remote_ip u =? src_ip)).

Definition unconnected (u : udp_pcb) : bool := Z.land (u_flags u) UDP_FLAGS_CONNECTED =? 0.

(** The loop over the pcbs; NULL if there is none for the datagram. *)
Fixpoint udp_find (fuel : nat) (broadcast : bool) (dest src : Z) (nif : netif) (prev uncon_pcb pcb : Z) : M A W Z :=
  match fuel with
  | O => fun _ => None
  | S fuel =>
      if pcb =? 0 then ret uncon_pcb
      else
        u <- pcb_at pcb ;;
        i <- the_ips ;;
        let local := local_match broadcast (current_iphdr_dest i) dest nif u in
        let uncon_pcb := if local && (uncon_pcb =? 0) && unconnected u then pcb else uncon_pcb in
        if local && remote_match (current_iphdr_src i) src u then
          (if negb (prev =? 0) then pcb_to_front (X := udp_pcb) prev pcb else inc_stat udp_cachehit) ;; ret pcb
        else udp_find fuel broadcast dest src nif pcb uncon_pcb (u_next u)
  end.

(** The pcb of DHCP on the interface, if it takes the datagram. *)
Definition dhcp_find (nif : netif) (src : Z) : M A W Z :=
  if src =? DHCP_SERVER_PORT then
    if dhcp nif =? 0 then ret 0
    else
      pcb <- gets (fun s => dhcps (ips s) !! dhcp nif) ;;
      if pcb =? 0 then ret 0
      else
        u <- pcb_at pcb ;;
        i <- the_ips ;;
        ret (if ip_addr_isany (u_remote_ip u) || (u_remote_ip u =? current_iphdr_src i) then pcb else 0)
  else ret 0.

Definition udp_short (p : Z) : M A W unit :=
  inc_stat udp_lenerr ;; inc_stat udp_drop ;; drop_packet p.

(** No pcb takes the datagram. *)
Definition udp_no_port (p iphdr : Z) (broadcast : bool) : M A W unit :=
  i <- the_ips ;;
  when (negb broadcast && negb (ip_addr_ismulticast (current_iphdr_dest i)))
    (v_hl <- peek p iphdr 1 ;;
     _ <- pbufs (pbuf_header p (IPH_HL4 v_hl + UDP_HLEN)) ;;
     icmp_dest_unreach p ICMP_DUR_PORT) ;;
  inc_stat udp_proterr ;;
  inc_stat udp_drop ;;
  drop_packet p.

(** The datagram for the pcb, which may be NULL. *)
Definition udp_deliver (p iphdr pcb src : Z) (broadcast : bool) : M A W unit :=
  e <- pbufs (pbuf_header p (- UDP_HLEN)) ;;
  if negb (e =? 0) then inc_stat udp_drop ;; drop_packet p
  else if negb (pcb =? 0) then
    u <- pcb_at pcb ;;
    i <- the_ips ;;
    if negb (u_recv u =? 0) then udp_recv_fn (u_recv u) (u_recv_arg u) pcb p (current_iphdr_src i) src
    else drop_packet p
  else udp_no_port p iphdr broadcast.

Definition udp_input (p inp : Z) : M A W unit :=
  inc_stat udp_recvd ;;
  b <- the_pbuf p ;;
  let iphdr := payload b in
  v_hl <- peek p iphdr 1 ;;
  if tot_len b <? IPH_HL4 v_hl + UDP_HLEN then udp_short p
  else
    e <- pbufs (pbuf_header p (- IPH_HL4 v_hl)) ;;
    if negb (e =? 0) then udp_short p
    else
      b <- the_pbuf p ;;
      i <- the_ips ;;
      nif <- the_netif inp ;;
      let broadcast := ip_addr_isbroadcast (current_iphdr_dest i) nif in
      src <- peek p (payload b) 2 ;;
      dest <- peek p (payload b + 2) 2 ;;
      let src := Chksum.lwip_htons (le16 src) in
      let dest := Chksum.lwip_htons (le16 dest) in
      pcb <- (if dest =? DHCP_CLIENT_PORT then dhcp_find nif src
              else udp_find (S (size (udps i))) broadcast dest src nif 0 0 (udp_pcbs i)) ;;
      if negb (pcb =? 0) || (ip_addr nif =? current_iphdr_dest i) then udp_deliver p iphdr pcb src broadcast
      else drop_packet p.

(** *** Binding and connecting *)

(** The loop of [udp_bind]: [None] if the port is taken, or else whether the pcb
    is in the list. *)
Fixpoint bind_check (fuel : nat) (pcb ipaddr port : Z) (rebind : bool) (ipcb : Z) : M A W (option bool) :=
  match fuel with
  | O => fun _ => None
  | S fuel =>
      if ipcb =? 0 then ret (Some rebind)
      else
        u <- pcb_at ipcb ;;
        if pcb =? ipcb then bind_check fuel pcb ipaddr port true (u_next u)
        else if (u_local_port u =? port) &&
                (ip_addr_isany (u_local_ip u) || ip_addr_isany ipaddr || (u_local_ip u =? ipaddr)) then ret None
        else bind_check fuel pcb ipaddr port rebind (u_next u)
  end.

(** The pcb goes to the front of the list. *)
Definition udp_push (pcb : Z) : M A W unit :=
  i <- the_ips ;;
  upd_pcb pcb (set_u_next (udp_pcbs i)) ;;
  set_head (X := udp_pcb) pcb.

Definition bind_to (pcb port : Z) (rebind : bool) : M A W Z :=
  upd_pcb pcb (set_u_local_port port) ;;
  when (negb rebind) (udp_push pcb) ;;
  ret ERR_OK.

Definition udp_bind (pcb ipaddr port : Z) : M A W Z :=
  i <- the_ips ;;
  r <- bind_check (S (size (udps i))) pcb ipaddr port false (udp_pcbs i) ;;
  match r with
  | None => ret ERR_USE
  | Some rebind =>
      upd_pcb pcb (set_u_local_ip ipaddr) ;;
      if port =? 0 then
        port <- udp_new_port ;;
        if port =? 0 then ret ERR_USE else bind_to pcb port rebind
      else bind_to pcb port rebind
  end.

(** Is [pcb] in the list from [ipcb] on? *)
Fixpoint in_list (fuel : nat) (pcb ipcb : Z) : M A W bool :=
  match fuel with
  | O => fun _ => None
  | S fuel =>
      if ipcb =? 0 then ret false
      else if pcb =? ipcb then ret true
      else u <- pcb_at (X := udp_pcb) ipcb ;; in_list fuel pcb (u_next u)
  end.

(** A pcb without a port gets one. *)
Definition ensure_bound (pcb : Z) : M A W Z :=
  u <- pcb_at pcb ;;
  if u_local_port u =? 0 then udp_bind pcb (u_local_ip u) (u_local_port u) else ret ERR_OK.

Definition udp_connect (pcb ipaddr port : Z) : M A W Z :=
  err <- ensure_bound pcb ;;
  if negb (err =? ERR_OK) then ret err
  else
    upd_pcb pcb (set_u_remote_ip ipaddr) ;;
    upd_pcb pcb (set_u_remote_port port) ;;
    upd_pcb pcb (fun u => set_u_flags (Z.lor (u_flags u) UDP_FLAGS_CONNECTED) u) ;;
    i <- the_ips ;;
    there <- in_list (S (size (udps i))) pcb (udp_pcbs i) ;;
    when (negb there) (udp_push pcb) ;;
    ret ERR_OK.

Definition udp_disconnect (pcb : Z) : M A W unit :=
  upd_pcb pcb (set_u_remote_ip 0) ;;
  upd_pcb pcb (set_u_remote_port 0) ;;
  upd_pcb pcb (fun u => set_u_flags (Z.land (u_flags u) (Z.lnot UDP_FLAGS_CONNECTED)) u).

Definition udp_recv (pcb recv recv_arg : Z) : M A W unit := upd_pcb pcb (set_u_recv recv recv_arg).

Definition udp_remove (pcb : Z) : M A W unit := pcb_remove (X := udp_pcb) pcb.

Definition udp_new : M A W Z :=
  pcb <- memp_malloc MEMP_UDP_PCB ;;
  when (negb (pcb =? 0))
    (set_ips (fun i => set_udps (<[pcb := mk_udp 0 0 0 0 UDP_TTL 0 0 0 0 0 0]> (udps i)) (udp_pcbs i) i)) ;;
  ret pcb.

(** *** Output *)

(** The end of [udp_sendto_if]: the packet [q] is [p] or has a new header pbuf in
    front of [p]. *)
Definition udp_send_q (pcb p q dst_ip dst_port n : Z) : M A W Z :=
  u <- pcb_at pcb ;;
  store q 0 (bytes16 (Chksum.lwip_htons (u_local_port u))) ;;
  store q 2 (bytes16 (Chksum.lwip_htons dst_port)) ;;
  store q 6 (bytes16 0) ;;
  nif <- the_netif n ;;
  if negb (ip_addr_isany (u_local_ip u)) && negb (u_local_ip u =? ip_addr nif) then
    when (negb (q =? p)) (drop_packet q) ;; ret ERR_VAL
  else
    let src_ip := if ip_addr_isany (u_local_ip u) then ip_addr nif else u_local_ip u in
    bq <- the_pbuf q ;;
    store q 4 (bytes16 (Chksum.lwip_htons (tot_len bq))) ;;
    err <- ip_output_if q src_ip (Some dst_ip) (u_ttl u) (u_tos u) IP_PROTO_UDP n ;;
    when (negb (q =? p)) (drop_packet q) ;;
    inc_stat udp_xmit ;;
    ret err.

Definition udp_sendto_if (pcb p dst_ip dst_port n : Z) : M A W Z :=
  err <- ensure_bound pcb ;;
  if negb (err =? ERR_OK) then ret err
  else
    e <- pbufs (pbuf_header p UDP_HLEN) ;;
    if negb (e =? 0) then
      q <- pbufs (pbuf_alloc PBUF_IP UDP_HLEN PBUF_RAM) ;;
      if q =? 0 then ret ERR_MEM
      else
        b <- the_pbuf p ;;
        when (negb (tot_len b =? 0)) (pbufs_ (pbuf_chain q p)) ;;
        udp_send_q pcb p q dst_ip dst_port n
    else udp_send_q pcb p p dst_ip dst_port n.

Definition udp_sendto (pcb p dst_ip dst_port : Z) : M A W Z :=
  n <- ip_route dst_ip ;;
  if n =? 0 then inc_stat udp_rterr ;; ret ERR_RTE
  else udp_sendto_if pcb p dst_ip dst_port n.

Definition udp_send (pcb p : Z) : M A W Z :=
  u <- pcb_at pcb ;;
  udp_sendto pcb p (u_remote_ip u) (u_remote_port u).

End Operations.

(** ** Ports *)

Section Ports.
Context {A W : Type}.
Implicit Types (s : net A W) (i : ipstate).

(** The ports of the pcbs [l]. *)
Definition ports i (l : list Z) : list Z := omap (fun a => u_local_port <$> udps i !! a) l.

Lemma port_used_run port s : forall l fuel pcb, (length l < fuel)%nat -> plist u_next (udps (ips s)) pcb l ->
  port_used fuel port pcb s = Some (bool_decide (port ∈ ports (ips s) l), s).
Proof.
  induction l as [|a l IH]; intros [|fuel] pcb Hf L; cbn [length] in Hf; [lia| |lia|]; cbn [port_used].
  - cbn [plist] in L. subst pcb. done.
  - destruct L as (-> & Hz & u & Eu & L). rewrite (proj2 (Z.eqb_neq a 0)) by done.
    rewrite (bind_run (pcb_at a) _ s u s) by (unfold pcb_at, gets; udp_fields; by rewrite Eu).
    unfold ports. cbn [omap list_omap]. rewrite Eu. cbn [fmap option_fmap option_map].
    destruct (Z.eqb_spec (u_local_port u) port) as [<-|Hp].
    + rewrite bool_decide_true by (by left). done.
    + rewrite (IH fuel (u_next u)) by (lia || done). f_equal. f_equal. apply bool_decide_ext. unfold ports.
      rewrite elem_of_cons. split; [by right|]. intros [?|?]; [congruence|done].
Qed.

(** The port after [x] in the range, and the [k]-th after it. *)
Definition next_port (x : Z) : Z := if x =? UDP_LOCAL_PORT_RANGE_END then UDP_LOCAL_PORT_RANGE_START else u16 (x + 1).
Definition nth_port (x k : Z) : Z := 0xc000 + (x - 0xc000 + k) mod 0x4000.

Lemma nth_port_0 x : 0xc000 <= x <= 0xffff -> nth_port x 0 = x.
Proof. intros H. unfold nth_port. rewrite Z.mod_small by lia. lia. Qed.

Lemma next_nth x k : next_port (nth_port x k) = nth_port x (k + 1).
Proof.
  unfold next_port, nth_port, UDP_LOCAL_PORT_RANGE_END, UDP_LOCAL_PORT_RANGE_START. set (y := x - 0xc000 + k).
  replace (x - 0xc000 + (k + 1)) with (y + 1) by lia. pose proof (Z.mod_pos_bound y 0x4000 ltac:(lia)).
  destruct (Z.eqb_spec (0xc000 + y mod 0x4000) 0xffff).
  - Z.div_mod_to_equations. lia.
  - assert (u16 (0xc000 + y mod 0x4000 + 1) = 0xc000 + y mod 0x4000 + 1) as -> by (apply wrap_id; cint).
    Z.div_mod_to_equations. lia.
Qed.

Lemma nth_port_range x k : 0xc000 <= nth_port x k <= 0xffff.
Proof. unfold nth_port. pose proof (Z.mod_pos_bound (x - 0xc000 + k) 0x4000 ltac:(lia)). lia. Qed.

(** Ports that are in use are as many as the pcbs at most. *)
Lemma used_bound x i l n : 0 <= n <= 0x4000 -> (forall k, 1 <= k <= n -> nth_port x k ∈ ports i l) -> n <= Z.of_nat (length l).
Proof.
  intros Hn Hu. assert (length (ports i l) <= length l)%nat as Hl.
  { unfold ports. clear. induction l as [|a l IH]; [done|]. cbn [omap list_omap length]. destruct (_ <$> _); cbn [length]; lia. }
  assert (length (nth_port x <$> seqZ 1 n) <= length (ports i l))%nat as H; [|rewrite length_fmap, length_seqZ in H; lia].
  apply (List.NoDup_incl_length (l := nth_port x <$> seqZ 1 n)).
  - apply NoDup_ListNoDup, NoDup_fmap_2_strong; [|apply NoDup_seqZ]. intros a b Ha%elem_of_seqZ Hb%elem_of_seqZ. unfold nth_port.
    Z.div_mod_to_equations. lia.
  - intros y Hy%list_elem_of_In. apply list_elem_of_In. apply list_elem_of_fmap in Hy as (k & -> & Hk%elem_of_seqZ). apply Hu. lia.
Qed.

Lemma set_port_twice x y i : set_udp_port x (set_udp_port y i) = set_udp_port x i.
Proof. done. Qed.

Lemma new_port_loop_run l x s : pcb_list (X := udp_pcb) (ips s) l -> Z.of_nat (length l) < 0x4000 ->
  forall fuel n, 0 <= n -> 0x4001 <= n + Z.of_nat fuel -> (forall k, 1 <= k <= n -> nth_port x k ∈ ports (ips s) l) ->
  exists port, new_port_loop fuel n (with_ips (set_udp_port (nth_port x n) (ips s)) s) =
      Some (port, with_ips (set_udp_port port (ips s)) s) /\
    UDP_LOCAL_PORT_RANGE_START <= port <= UDP_LOCAL_PORT_RANGE_END /\ (port ∉ ports (ips s) l).
Proof.
  intros L Hl. induction fuel as [|fuel IH]; intros n Hn Hf Hu.
  { pose proof (used_bound x (ips s) l 0x4000 ltac:(lia)) as H. assert (forall k, 1 <= k <= 0x4000 -> nth_port x k ∈ ports (ips s) l) by (intros; apply Hu; lia).
    specialize (H ltac:(done)). lia. }
  cbn [new_port_loop]. set (s1 := with_ips _ s).
  rewrite (bind_run the_ips _ s1 (ips s1) s1) by done. cbn [ips with_ips udp_port set_udp_port s1].
  set (y := nth_port x (n + 1)).
  assert (forall (k : unit -> M A W Z), bind (set_ips (set_udp_port (u16 (nth_port x n + 1))))
      (fun _ => bind (when (nth_port x n =? UDP_LOCAL_PORT_RANGE_END) (set_ips (set_udp_port UDP_LOCAL_PORT_RANGE_START))) k) s1
    = k tt (with_ips (set_udp_port y (ips s)) s)) as Hstep.
  { intros k. unfold bind, set_ips, modify, s1. cbn [ips with_ips]. unfold y. rewrite <-next_nth. unfold next_port.
    by destruct (nth_port x n =? UDP_LOCAL_PORT_RANGE_END). }
  rewrite Hstep. clear Hstep s1. set (s1 := with_ips _ s).
  rewrite (bind_run the_ips _ s1 (ips s1) s1) by done. cbn [ips with_ips udp_port udps udp_pcbs set_udp_port s1].
  assert (length l < S (size (udps (ips s))))%nat as Hsz by (pose proof (plist_size _ _ _ _ L) as Hsz; cbn in Hsz; lia).
  rewrite (bind_run _ _ _ _ _ (port_used_run y s1 l _ (udp_pcbs (ips s)) Hsz L)).
  change (ports (ips s1) l) with (ports (ips s) l). case_bool_decide as Hy.
  - assert (forall k, 1 <= k <= n + 1 -> nth_port x k ∈ ports (ips s) l) as Hu'.
    { intros k Hk. destruct (decide (k = n + 1)) as [->|]; [done|apply Hu; lia]. }
    assert (n + 1 <= 0x4000) as Hn'.
    { destruct (decide (n + 1 <= 0x4000)); [done|]. pose proof (used_bound x (ips s) l 0x4000 ltac:(lia)) as H.
      assert (forall k, 1 <= k <= 0x4000 -> nth_port x k ∈ ports (ips s) l) as Hu2 by (intros; apply Hu'; lia). specialize (H Hu2). lia. }
    pose proof (used_bound x (ips s) l (n + 1) ltac:(lia) Hu') as Hb.
    assert (u16 (n + 1) = n + 1) as -> by (apply wrap_id; cint). unfold UDP_LOCAL_PORT_RANGE_END, UDP_LOCAL_PORT_RANGE_START.
    rewrite (proj2 (Z.ltb_ge _ _)) by lia. apply IH; [lia|lia|done].
  - exists y. split; [done|]. split; [apply nth_port_range|done].
Qed.

(** [udp_new_port] finds a free port of the range when fewer pcbs are in the list
    than the range has ports. *)
Lemma udp_new_port_run l s : pcb_list (X := udp_pcb) (ips s) l -> Z.of_nat (length l) < 0x4000 -> 0xc000 <= udp_port (ips s) <= 0xffff ->
  exists port, udp_new_port s = Some (port, with_ips (set_udp_port port (ips s)) s) /\
    UDP_LOCAL_PORT_RANGE_START <= port <= UDP_LOCAL_PORT_RANGE_END /\ (port ∉ ports (ips s) l).
Proof.
  intros L Hl Hp. destruct (new_port_loop_run l (udp_port (ips s)) s L Hl new_port_fuel 0) as (port & E & H).
  - lia.
  - unfold new_port_fuel. rewrite Z2Nat.id by lia. lia.
  - lia.
  - exists port. split; [|done]. rewrite nth_port_0 in E by done. unfold udp_new_port.
    replace (with_ips (set_udp_port (udp_port (ips s)) (ips s)) s) with s in E by (by destruct s as [? ? ? ? ? ? ? ? []]). done.
Qed.

End Ports.

(** ** Which pcb gets a datagram *)

Section Target.
Context (broadcast : bool) (dest src : Z) (nif : netif).
Implicit Types i : ipstate.

(** The pcb at [a] is for the addresses and ports of the datagram. *)
Definition full_match i (a : Z) : bool :=
  match udps i !! a with
  | Some u => local_match broadcast (current_iphdr_dest i) dest nif u && remote_match (current_iphdr_src i) src u
  | None => false
  end.
(** The pcb at [a] takes datagrams from anybody. *)
Definition open_match i (a : Z) : bool :=
  match udps i !! a with
  | Some u => local_match broadcast (current_iphdr_dest i) dest nif u && unconnected u
  | None => false
  end.

(** The first that matches in full, or else the first that is open. *)
Definition udp_target i (l : list Z) : Z :=
  match filter (full_match i) l with
  | a :: _ => a
  | [] => default 0 (head (filter (open_match i) l))
  end.
(** The list then: what matches in full is moved to the front. *)
Definition udp_after i (l : list Z) : list Z :=
  match filter (full_match i) l with a :: _ => a :: filter (fun c => c ≠ a) l | [] => l end.

(** The structs but for their links. *)
Definition same_udps (m m' : gmap Z udp_pcb) : Prop :=
  forall a u, m !! a = Some u -> exists n, m' !! a = Some (set_u_next n u) \/ m' !! a = Some u.

Context {A W : Type} {ops : alloc_ops A} {laws : alloc_laws A} {lops : link_ops A W} {llaws : link_laws A W}.
Implicit Types s : net A W.

Record found extra R (l : list Z) s s' : Prop := {
  fo_inv : net_inv s' extra R;
  fo_list : pcb_list (X := udp_pcb) (ips s') (udp_after (ips s) l);
  fo_udps : same_udps (udps (ips s)) (udps (ips s'));
  fo_rest : same_rest (ips s) (ips s');
  fo_state : exists f, s' = with_stats f (with_ips (ips s') s) }.

Lemma wp_udp_find_gen extra R l Q s : net_inv s extra R -> pcb_list (X := udp_pcb) (ips s) l ->
  (forall s', found extra R l s s' -> Q (udp_target (ips s) l) s') ->
  forall l2 l1 fuel pcb, (length l2 < fuel)%nat -> l = l1 ++ l2 -> plist u_next (udps (ips s)) pcb l2 ->
    filter (full_match (ips s)) l1 = [] ->
    wp (udp_find fuel broadcast dest src nif (default 0 (last l1)) (default 0 (head (filter (open_match (ips s)) l1))) pcb) Q s.
Proof.
  intros I L HQ. induction l2 as [|a l2 IH]; intros l1 [|fuel] pcb Hf El Lp Hno; cbn [length] in Hf; [lia| |lia|]; cbn [udp_find].
  - cbn [plist] in Lp. subst pcb. rewrite app_nil_r in El. subst l1. apply wp_ret.
    specialize (HQ s). unfold udp_target in HQ. rewrite Hno in HQ. apply HQ. split; [done| | |done|].
    + unfold udp_after. by rewrite Hno.
    + intros c u Hc. exists 0. by right.
    + exists (lwip_stats s). by destruct s.
  - destruct Lp as (-> & Hz & u & Eu & Lu). rewrite (proj2 (Z.eqb_neq a 0)) by done.
    apply wp_bind. eapply (wp_pcb_at a u); [exact Eu|]. apply wp_bind. eapply wp_gets; [done|].
    set (local := local_match _ _ _ _ u).
    assert (full_match (ips s) a = local && remote_match (current_iphdr_src (ips s)) src u) as Hfu by (unfold full_match; by rewrite Eu).
    assert (open_match (ips s) a = local && unconnected u) as Hop by (unfold open_match; by rewrite Eu).
    destruct (local && remote_match _ _ u) eqn:Hfull.
    + assert (filter (full_match (ips s)) l = a :: filter (full_match (ips s)) l2) as Hfl.
      { rewrite El, filter_app, Hno, filter_cons_True by (by rewrite Hfu). done. }
      assert (udp_target (ips s) l = a) as Htg by (unfold udp_target; by rewrite Hfl).
      assert ((a ∉ l1) /\ (a ∉ l2)) as [Ha1 Ha2].
      { pose proof (plist_nodup _ _ _ _ L) as N. rewrite El in N. apply NoDup_app in N as (_ & N1 & N2).
        apply NoDup_cons in N2 as [N2 _]. split; [intros Ha; apply (N1 a Ha); by left|done]. }
      assert (udp_after (ips s) l = a :: l1 ++ l2) as Haf.
      { unfold udp_after. rewrite Hfl, El, filter_app, filter_cons_False by (intros Hn; by apply Hn). by rewrite !filter_ne. }
      rewrite Htg in HQ. apply wp_bind. destruct l1 as [|x l1 _] using rev_ind.
      * cbn [last]. change (default 0 None) with 0. cbn [Z.eqb negb]. apply wp_inc_stat. intros f. apply wp_ret, HQ.
        split; [by apply inv_stats| | |done|by exists f].
        { rewrite Haf. cbn [app]. rewrite El in L. exact L. }
        { intros c v Hc. exists 0. by right. }
      * rewrite last_snoc. change (default 0 (Some x)) with x. rewrite <-app_assoc in El. cbn [app] in El. rewrite El in L.
        destruct (plist_elem _ _ _ _ x L ltac:(set_solver)) as (Hzx & _). rewrite (proj2 (Z.eqb_neq x 0)) by done. cbn [negb].
        eapply wp_to_front; [exact I|exact L|]. intros i Sr L' Hk Hall I'. apply wp_ret, HQ. split; [done| |done|done|].
        { rewrite Haf, <-app_assoc. exact L'. }
        { exists (lwip_stats s). by destruct s. }
    + specialize (IH (l1 ++ [a]) fuel (u_next u) ltac:(lia)). rewrite last_snoc in IH. change (default 0 (Some a)) with a in IH.
      assert (filter (open_match (ips s)) (l1 ++ [a]) = filter (open_match (ips s)) l1 ++ (if local && unconnected u then [a] else [])) as Hof.
      { rewrite filter_app, <-Hop. f_equal. destruct (open_match (ips s) a) eqn:Ho.
        - rewrite filter_cons_True by (by rewrite Ho). by rewrite filter_nil.
        - rewrite filter_cons_False by (rewrite Ho; by intros []). by rewrite filter_nil. }
      assert (default 0 (head (filter (open_match (ips s)) (l1 ++ [a]))) =
        (if local && (default 0 (head (filter (open_match (ips s)) l1)) =? 0) && unconnected u then a
         else default 0 (head (filter (open_match (ips s)) l1)))) as Hun.
      { rewrite Hof. destruct (filter (open_match (ips s)) l1) as [|c k] eqn:Ek; cbn [app head].
        - change (default 0 None) with 0. rewrite Z.eqb_refl, andb_true_r. by destruct (local && unconnected u).
        - change (default 0 (Some c)) with c. assert (c ≠ 0) as Hc.
          { assert (c ∈ filter (open_match (ips s)) l1) as [_ Hin]%list_elem_of_filter by (rewrite Ek; by left).
            rewrite El in L. by destruct (plist_elem _ _ _ _ c L ltac:(set_solver)). }
          rewrite (proj2 (Z.eqb_neq c 0)), andb_false_r by done. done. }
      rewrite Hun in IH. apply IH; [by rewrite El, <-app_assoc|done|].
      rewrite filter_app, Hno, filter_cons_False by (rewrite Hfu; by intros []). done.
Qed.

End Target.

(** ** Input *)

Section Input.
Context {A W : Type} {ops : alloc_ops A} {laws : alloc_laws A} {lops : link_ops A W} {llaws : link_laws A W}
  {aops : app_ops A W} {alaws : app_laws A W}.
Implicit Types s : net A W.

(** The ports of the datagram. *)
Definition src_port s (b : pbuf) : Z := Chksum.lwip_htons (le16 (read_bytes (bytes (ps s)) (payload b + hlen_of s b) 2)).
Definition dest_port s (b : pbuf) : Z := Chksum.lwip_htons (le16 (read_bytes (bytes (ps s)) (payload b + hlen_of s b + 2) 2)).

(** The pcb the datagram is for, and its struct. *)
Definition chosen s (b : pbuf) (nif : netif) (l : list Z) : Z :=
  udp_target (ip_addr_isbroadcast (current_iphdr_dest (ips s)) nif) (dest_port s b) (src_port s b) nif (ips s) l.

Record delivers s (b : pbuf) (nif : netif) (l : list Z) (pcb : Z) (u : udp_pcb) : Prop := {
  de_len : hlen_of s b + UDP_HLEN <= len b;
  de_port : dest_port s b ≠ DHCP_CLIENT_PORT;
  de_pcb : pcb = chosen s b nif l;
  de_udp : udps (ips s) !! pcb = Some u;
  de_recv : u_recv u ≠ 0 }.

(** The function of the pcb is called with the data of the datagram. *)
Record datagram extra R (p : Z) (b : pbuf) (l : list (Z * pbuf)) s s' : Prop := {
  dg_packet : packet extra R p (header_moved (- (hlen_of s b + UDP_HLEN)) b) l s';
  dg_same : same_packets (ps s) (ps s') extra;
  dg_keeps : keeps s s';
  dg_bytes : bytes (ps s') = bytes (ps s);
  dg_current : same_current (ips s) (ips s') }.

Lemma header_moved_twice x y b : header_moved x (header_moved y b) = header_moved (y + x) b.
Proof. destruct b. unfold header_moved, set_tot_len, set_len, set_payload. cbn [next payload tot_len len type flags ref]. f_equal; lia. Qed.

Lemma keeps_found extra s s' : (exists f, s' = with_stats f (with_ips (ips s') s)) -> dhcps (ips s') = dhcps (ips s) ->
  same_packets (ps s) (ps s') extra /\ keeps s s' /\ ps s' = ps s.
Proof.
  intros (f & Hs) Hd. generalize dependent (ips s'). intros i Hs Hd. subst s'.
  split; [apply same_packets_refl|]. split; [|done]. apply (calm_keeps []). split; try done. apply same_packets_refl.
Qed.

(** Nobody takes it. *)
Lemma wp_udp_no_port extra R p b l iphdr bc Q s : packet extra R p b l s -> p + 16 <= iphdr -> iphdr + 28 <= p + 528 ->
  Pbuf.type b = PBUF_POOL -> payload b = iphdr + IPH_HL4 (read_bytes (bytes (ps s)) iphdr 1) + UDP_HLEN ->
  20 <= IPH_HL4 (read_bytes (bytes (ps s)) iphdr 1) -> tot_len b + 68 < 2 ^ 16 -> listed s -> Z.of_nat (length extra) < 49995 ->
  (forall s', taken extra R s s' -> Q tt s') -> wp (udp_no_port p iphdr bc) Q s.
Proof.
  intros H Hi He Hty Hpay Hh Ht Ls Hx HQ. unfold udp_no_port. apply wp_bind. eapply wp_gets; [done|].
  pose proof (hl4_range (read_bytes (bytes (ps s)) iphdr 1)) as Hh60. set (hlen := IPH_HL4 _) in *. unfold UDP_HLEN in *.
  destruct (pk_bounds _ _ _ _ _ _ H) as (Hp4 & Hp & Hl & Htl & Hpb & _).
  assert (forall s1, net_inv s1 (p :: extra) R -> quiet extra s s1 ->
    wp (inc_stat udp_proterr ;; inc_stat udp_drop ;; drop_packet p)%net Q s1) as Hend.
  { intros s1 I1 [C1 _]. apply wp_bind, wp_inc_stat. intros f1. apply wp_bind, wp_inc_stat. intros f2. apply wp_bind.
    eapply wp_free; [by do 2 apply inv_stats|]. intros _ s2 I2 F2 _. apply wp_ret, HQ. destruct (calm_keeps _ _ _ C1) as [P1 K1].
    eapply taken_trans; [exact P1|exact K1|]. apply taken_frame; [done|].
    eapply frame_trans; [|exact F2]. do 2 apply frame_stats. apply frame_refl. }
  apply wp_bind, wp_when; intros _; [|apply Hend; [apply H|apply quiet_refl]].
  apply wp_bind. assert (data_end p b = p + 528) as Hde
    by (by apply pool_end).
  eapply wp_pk_peek; [exact H|lia|lia|]. fold hlen. apply wp_bind. eapply wp_pk_header; [exact H|cint|lia|lia| |].
  { rewrite header_fits_carries by (by eapply pk_head_carries). intros [?%Z.leb_gt|?%Z.leb_gt]%andb_false_iff; lia. }
  intros s1 _ _ P1 F1. eapply wp_dest_unreach; [exact P1| | |done|].
  - rewrite pool_end by done. cbn. lia.
  - by apply (frame_keeps _ _ _ F1).
  - intros s2 I2 Q2. apply Hend; [done|]. eapply frame_quiet_trans; [exact F1|]. eapply quiet_sub; [|exact Q2]. set_solver.
Qed.

(** The pcb has been chosen. *)
Record picked extra R (nif : netif) (bc : bool) (dest src : Z) (k : list Z) s (pcb : Z) s' : Prop := {
  pi_state : exists f, s' = with_stats f (with_ips (ips s') s);
  pi_rest : same_rest (ips s) (ips s');
  pi_inv : net_inv s' extra R;
  pi_target : dest ≠ DHCP_CLIENT_PORT -> pcb = udp_target bc dest src nif (ips s) k;
  pi_struct : pcb ≠ 0 -> exists u, udps (ips s') !! pcb = Some u /\
    (dest ≠ DHCP_CLIENT_PORT -> exists u0, udps (ips s) !! pcb = Some u0 /\ u_recv u = u_recv u0 /\ u_recv_arg u = u_recv_arg u0) }.

Lemma udp_target_elem bc dest src nif i l : udp_target bc dest src nif i l ≠ 0 -> udp_target bc dest src nif i l ∈ l.
Proof.
  unfold udp_target. destruct (filter (full_match bc dest src nif i) l) as [|a t] eqn:E.
  - destruct (filter (open_match bc dest nif i) l) as [|a t] eqn:E'; [done|]. intros _. cbn [head].
    assert (a ∈ filter (open_match bc dest nif i) l) as [_ ?]%list_elem_of_filter by (rewrite E'; by left). done.
  - intros _. assert (a ∈ filter (full_match bc dest src nif i) l) as [_ ?]%list_elem_of_filter by (rewrite E; by left). done.
Qed.

Lemma wp_choose extra R inp nif bc dest src k Q s : net_inv s extra R -> netifs s !! inp = Some nif -> listed s ->
  pcb_list (X := udp_pcb) (ips s) k -> (forall pcb s', picked extra R nif bc dest src k s pcb s' -> Q pcb s') ->
  wp (if dest =? DHCP_CLIENT_PORT then dhcp_find nif src
      else udp_find (S (size (udps (ips s)))) bc dest src nif 0 0 (udp_pcbs (ips s))) Q s.
Proof.
  intros I En Ls L HQ. destruct (Z.eqb_spec dest DHCP_CLIENT_PORT) as [Hd|Hd].
  - assert (forall pcb, (pcb ≠ 0 -> is_Some (udps (ips s) !! pcb)) -> Q pcb s) as HQ'.
    { intros pcb Hp. apply HQ. split; [exists (lwip_stats s); by destruct s|apply same_rest_refl|done|done|].
      intros Hz. destruct (Hp Hz) as [u Eu]. by exists u. }
    unfold dhcp_find. destruct (src =? DHCP_SERVER_PORT); [|by apply wp_ret, HQ'].
    destruct (Z.eqb_spec (dhcp nif) 0) as [Hz|Hz]; [by apply wp_ret, HQ'|].
    destruct (ls_dhcp _ Ls _ _ En Hz) as (pcb & Ep). apply wp_bind. eapply wp_gets; [exact Ep|].
    destruct (Z.eqb_spec pcb 0) as [Hp|Hp]; [by apply wp_ret, HQ'|].
    destruct (io_dhcp _ (ni_ips _ _ _ I) _ _ Ep Hp) as (u & Eu). apply wp_bind. eapply (wp_pcb_at pcb u); [exact Eu|].
    apply wp_bind. eapply wp_gets; [done|]. apply wp_ret, HQ'. destruct (_ || _); [|done]. by exists u.
  - eapply (wp_udp_find_gen bc dest src nif extra R k Q s I L) with (l1 := []) (l2 := k); [| |done|exact L|done].
    + intros s' [I' L' U' Sr Hs]. apply HQ. split; [done|done|done|done|]. intros Hz.
      pose proof (udp_target_elem _ _ _ _ _ _ Hz) as Hin. destruct (plist_elem _ _ _ _ _ L Hin) as (_ & u & Eu).
      destruct (U' _ _ Eu) as (n & [E'|E']); eexists; (split; [exact E'|]); intros _; by exists u.
    + pose proof (plist_size _ _ _ _ L) as Hsz. cbn in Hsz. lia.
Qed.

Lemma wp_udp_input extra R p b l inp nif k Q s : ip_packet extra R p b l s -> header_ok s b ->
  netifs s !! inp = Some nif -> listed s -> pcb_list (X := udp_pcb) (ips s) k -> Z.of_nat (length extra) < 49995 ->
  (forall s', (forall pcb u, ~ delivers s b nif k pcb u) -> taken extra R s s' -> Q tt s') ->
  (forall pcb u s', delivers s b nif k pcb u -> datagram extra R p b l s s' ->
    wp (udp_recv_fn (u_recv u) (u_recv_arg u) pcb p (current_iphdr_src (ips s)) (src_port s b)) Q s') ->
  wp (udp_input p inp) Q s.
Proof.
  intros H0 [Hh20 Hhl] En Ls L Hx HD HR. pose proof (hl4_range (read_bytes (bytes (ps s)) (payload b) 1)) as Hh60. fold (hlen_of s b) in Hh60.
  unfold udp_input. apply wp_bind. eapply wp_pk_stat; [apply H0|]. intros f _. set (s1 := with_stats f s) in *.
  assert (ip_packet extra R p b l s1) as [H Hty Hat Hfirst Htot] by (by apply ip_stats).
  pose proof (ip_data_end _ _ _ _ _ _ H0) as He. clear H0.
  assert (frame extra s s1) as F1 by apply frame_stats, frame_refl.
  apply wp_bind. eapply wp_pk_buf; [exact H|]. cbv zeta. apply wp_bind. eapply wp_pk_peek; [exact H|lia|lia|].
  change (IPH_HL4 (read_bytes (bytes (ps s1)) (payload b) 1)) with (hlen_of s b). set (hlen := hlen_of s b) in *.
  destruct (pk_bounds _ _ _ _ _ _ H) as (Hp4 & Hp & Hl & Htl & Hpb & _).
  destruct (Z.ltb_spec (tot_len b) (hlen + UDP_HLEN)) as [Hsh|Hsh].
  { apply wp_bind. eapply wp_pk_stat; [exact H|]. intros f1 P1. apply wp_bind. eapply wp_pk_stat; [exact P1|]. intros f2 P2.
    eapply wp_pk_drop; [exact P2|]. intros s2 I2 F2 _. apply HD.
    - intros pcb u []. fold hlen in de_len0. lia.
    - apply taken_frame; [done|]. eapply frame_trans; [|exact F2]. do 2 apply frame_stats. exact F1. }
  assert (20 <= hlen <= len b) as Hh by (unfold UDP_HLEN in Hsh; lia). clear Hh20 Hhl.
  apply wp_bind. eapply wp_pk_header; [exact H|cint|lia|lia| |].
  { rewrite header_fits_carries by (by eapply pk_head_carries). intros [?%Z.leb_gt|?%Z.leb_gt]%andb_false_iff; lia. }
  intros s2 _ Hs2 P2 F2. set (b2 := header_moved (- hlen) b) in *. change (negb (0 =? 0)) with false. cbv iota.
  assert (payload b2 = payload b + hlen /\ len b2 = len b - hlen /\ tot_len b2 = tot_len b - hlen /\ Pbuf.type b2 = PBUF_POOL)
    as (Pb & Lb & Tb & Yb) by (unfold b2, header_moved; cbn [payload len tot_len Pbuf.type set_tot_len set_len set_payload]; split_and!; (lia || done)).
  pose proof (frame_trans _ _ _ _ F1 F2) as F02. assert (bytes (ps s2) = bytes (ps s)) as Y2 by (by rewrite Hs2).
  apply wp_bind. eapply wp_pk_buf; [exact P2|]. apply wp_bind. eapply wp_gets; [done|].
  apply wp_bind. eapply wp_the_netif; [by rewrite (fr_netifs _ _ _ F02)|].
  apply wp_bind. eapply wp_pk_peek; [exact P2|lia|rewrite pool_end by done; lia|].
  apply wp_bind. eapply wp_pk_peek; [exact P2|lia|rewrite pool_end by done; lia|].
  rewrite (fr_ips _ _ _ F02), Y2, Pb. fold hlen. change (Chksum.lwip_htons (le16 (read_bytes (bytes (ps s)) (payload b + hlen) 2))) with (src_port s b).
  change (Chksum.lwip_htons (le16 (read_bytes (bytes (ps s)) (payload b + hlen + 2) 2))) with (dest_port s b).
  set (bc := ip_addr_isbroadcast _ nif).
  apply wp_bind. rewrite <-(fr_ips _ _ _ F02).
  eapply (wp_choose (p :: extra) R inp nif bc _ _ k); [apply P2|by rewrite (fr_netifs _ _ _ F02)|by apply (frame_keeps _ _ _ F02)|by rewrite (fr_ips _ _ _ F02)|].
  intros pcb s3 [Hs3 Sr3 I3 Htg Hst]. rewrite (fr_ips _ _ _ F02) in *.
  destruct (keeps_found extra s2 s3 Hs3) as (S23 & K23 & E23); [rewrite (sr_dhcps _ _ Sr3); by rewrite (fr_ips _ _ _ F02)|].
  destruct (frame_keeps _ _ _ F02) as [S02 K02]. pose proof (same_packets_trans _ _ _ _ S02 S23) as S03.
  pose proof (keeps_trans _ _ _ K02 K23) as K03. assert (packet extra R p b2 l s3) as P3 by (eapply pk_same; [exact P2|by rewrite E23|done]).
  assert (bytes (ps s3) = bytes (ps s)) as Y3 by (by rewrite E23). clear Hs3 S23 K23 E23 S02 K02 Y2 P2 F2 Hs2 F02.
  assert (pcb = 0 -> forall c u, ~ delivers s b nif k c u) as Hno.
  { intros Hz c u [_ Hd -> Hu _]. change (chosen s b nif k) with (udp_target bc (dest_port s b) (src_port s b) nif (ips s) k) in Hu.
    rewrite <-Htg, Hz in Hu by done. by destruct (pcb_nonzero (k := udp_kind) s1 (p :: extra) R 0 u (pk_inv _ _ _ _ _ _ H) Hu). }
  destruct (negb (pcb =? 0) || (ip_addr nif =? current_iphdr_dest (ips s))) eqn:Hc.
  2: { apply orb_false_iff in Hc as [Hc%negb_false_iff%Z.eqb_eq _]. eapply wp_pk_drop; [exact P3|]. intros s4 I4 F4 _.
       apply HD; [auto|]. eapply taken_trans; [exact S03|exact K03|by apply taken_frame]. }
  clear Hc. unfold udp_deliver, UDP_HLEN in *. apply wp_bind. eapply wp_pk_header; [exact P3|cint|lia|lia| |].
  { intros Hf. change (negb (1 =? 0)) with true. cbv iota. eapply wp_stat_drop; [exact P3|apply frame_refl|]. intros s4 I4 F4. apply HD.
    - intros c u [Hlen _ _ _ _]. fold hlen in Hlen. unfold UDP_HLEN in Hlen. rewrite header_fits_carries in Hf by (by eapply pk_head_carries).
      apply andb_false_iff in Hf as [?%Z.leb_gt|?%Z.leb_gt]; lia.
    - eapply taken_trans; [exact S03|exact K03|by apply taken_frame]. }
  intros s4 Hf Hs4 P4 F4. change (negb (0 =? 0)) with false. cbv iota. unfold b2 in P4. rewrite header_moved_twice in P4.
  assert (bytes (ps s4) = bytes (ps s)) as Y4 by (by rewrite Hs4). destruct (frame_keeps _ _ _ F4) as [S34 K34].
  pose proof (same_packets_trans _ _ _ _ S03 S34) as S04. pose proof (keeps_trans _ _ _ K03 K34) as K04.
  assert (hlen + 8 <= len b) as Hlen8.
  { rewrite header_fits_carries in Hf by (by eapply pk_head_carries). apply andb_true_iff in Hf as [?%Z.leb_le _]. lia. }
  assert (current_iphdr_src (ips s4) = current_iphdr_src (ips s)) as Hcs.
  { rewrite (fr_ips _ _ _ F4). by destruct (sr_current _ _ Sr3) as (_ & _ & ? & _). }
  destruct (Z.eqb_spec pcb 0) as [Hz|Hz]; cbn [negb].
  - eapply wp_udp_no_port; [exact P4|lia|lia|done| | |cbn; lia|by apply K04|done|].
    + rewrite Y4. unfold UDP_HLEN. fold (hlen_of s b). fold hlen. cbn. lia.
    + rewrite Y4. fold (hlen_of s b). fold hlen. lia.
    + intros s5 T5. apply HD; [auto|]. by eapply taken_trans.
  - destruct (Hst Hz) as (u & Eu & Hu). apply wp_bind. eapply (wp_pcb_at pcb u); [by rewrite (fr_ips _ _ _ F4)|].
    apply wp_bind. eapply wp_gets; [done|]. rewrite Hcs. destruct (decide (dest_port s b = DHCP_CLIENT_PORT)) as [Hd|Hd].
    + assert (forall s5, taken extra R s4 s5 -> Q tt s5) as HD'.
      { intros s5 T5. apply HD; [|by eapply taken_trans]. intros c v [_ Hd' _ _ _]. done. }
      destruct (u_recv u =? 0); cbn [negb].
      * eapply wp_pk_drop; [exact P4|]. intros s5 I5 F5 _. apply HD'. by apply taken_frame.
      * eapply wp_mono; [apply (udp_recv_law _ _ _ _ _ _ _ _ _ _ _ P4); lia|]. intros [] s5 T5. auto.
    + destruct (Hu Hd) as (u0 & Eu0 & Hr & Ha). rewrite Hr, Ha. destruct (Z.eqb_spec (u_recv u0) 0) as [Hrz|Hrz]; cbn [negb].
      * eapply wp_pk_drop; [exact P4|]. intros s5 I5 F5 _. apply HD; [|by eapply taken_trans; [exact S04|exact K04|apply taken_frame]].
        intros c v [_ _ -> Ev Hv]. change (chosen s b nif k) with (udp_target bc (dest_port s b) (src_port s b) nif (ips s) k) in Ev.
        rewrite <-Htg in Ev by done. congruence.
      * apply HR; [by split; [| |apply Htg| |]|]. split; [|done|done|done|].
        { unfold UDP_HLEN. fold hlen. by replace (- (hlen + 8)) with (- hlen + -8) by lia. }
        { rewrite (fr_ips _ _ _ F4). apply Sr3. }
Qed.

End Input.

(** ** Binding *)

(** Two pcbs with these local addresses and ports are in each other's way. *)
Definition clash (ip port : Z) (u : udp_pcb) : bool :=
  (u_local_port u =? port) && (ip_addr_isany (u_local_ip u) || ip_addr_isany ip || (u_local_ip u =? ip)).

(** A pcb of [l] other than [pcb] is in the way. *)
Definition in_way (i : ipstate) (pcb ip port : Z) (l : list Z) : Prop :=
  exists a u, a ∈ l /\ a ≠ pcb /\ udps i !! a = Some u /\ clash ip port u = true.

(** No two pcbs of the list are in each other's way. *)
Definition exclusive_ports (i : ipstate) (l : list Z) : Prop :=
  forall a c u v, a ∈ l -> c ∈ l -> a ≠ c -> udps i !! a = Some u -> udps i !! c = Some v ->
    clash (u_local_ip u) (u_local_port u) v = false.

Section Bind.
Context {A W : Type} {ops : alloc_ops A} {laws : alloc_laws A} {lops : link_ops A W} {llaws : link_laws A W}.
Implicit Types s : net A W.

Lemma bind_check_run pcb ip port s : forall l fuel rebind ipcb, (length l < fuel)%nat -> plist u_next (udps (ips s)) ipcb l ->
  (in_way (ips s) pcb ip port l /\ bind_check fuel pcb ip port rebind ipcb s = Some (None, s)) \/
  (~ in_way (ips s) pcb ip port l /\ bind_check fuel pcb ip port rebind ipcb s = Some (Some (rebind || bool_decide (pcb ∈ l)), s)).
Proof.
  induction l as [|a l IH]; intros [|fuel] rebind ipcb Hf L; cbn [length] in Hf; [lia| |lia|]; cbn [bind_check].
  - cbn [plist] in L. subst ipcb. right. split; [intros (a & u & Ha & _); set_solver|].
    rewrite bool_decide_false by set_solver. by rewrite orb_false_r.
  - destruct L as (-> & Hz & u & Eu & L). rewrite (proj2 (Z.eqb_neq a 0)) by done.
    rewrite (bind_run (pcb_at a) _ s u s) by (unfold pcb_at, gets; udp_fields; by rewrite Eu).
    assert (forall x, in_way (ips s) pcb ip port l -> in_way (ips s) pcb ip port (x :: l)) as Hup.
    { intros x (c & v & Hc & Hr). exists c, v. split; [by right|done]. }
    destruct (Z.eqb_spec pcb a) as [<-|Hne].
    + destruct (IH fuel true (u_next u) ltac:(lia) L) as [[Hw E]|[Hw E]]; [left|right]; (split; [|rewrite E]); [auto|done| |].
      * intros (c & v & [->|Hc]%elem_of_cons & Hr); [by destruct Hr|]. apply Hw. by exists c, v.
      * rewrite (bool_decide_true (pcb ∈ pcb :: l)) by (by left). by rewrite orb_true_r.
    + fold (clash ip port u). destruct (clash ip port u) eqn:Hcl.
      * left. split; [|done]. exists a, u. split; [by left|]. by split_and!.
      * destruct (IH fuel rebind (u_next u) ltac:(lia) L) as [[Hw E]|[Hw E]]; [left|right]; (split; [|rewrite E]); [auto|done| |].
        -- intros (c & v & [->|Hc]%elem_of_cons & Hn & Ev & Hv); [congruence|]. apply Hw. by exists c, v.
        -- do 4 f_equal. apply bool_decide_ext. rewrite elem_of_cons. naive_solver.
Qed.

(** The state after the pcb got an address and a port. *)
Record bound_to (pcb ip port : Z) (l : list Z) (u : udp_pcb) extra R s s' : Prop := {
  bt_inv : net_inv s' extra R;
  bt_calm : calm extra s s';
  bt_ps : ps s' = ps s;
  bt_udp : exists n, udps (ips s') !! pcb = Some (set_u_next n (set_u_local_port port (set_u_local_ip ip u)));
  bt_others a : a ≠ pcb -> udps (ips s') !! a = udps (ips s) !! a;
  bt_list : pcb_list (X := udp_pcb) (ips s') (if bool_decide (pcb ∈ l) then l else pcb :: l) }.

Lemma udp_ip_ok ip u : udp_ok u -> in_u 32 ip -> udp_ok (set_u_local_ip ip u).
Proof. by intros (? & ? & ? & ? & ? & ? & ?). Qed.
Lemma udp_port_ok port u : udp_ok u -> in_u 16 port -> udp_ok (set_u_local_port port u).
Proof. by intros (? & ? & ? & ? & ? & ? & ?). Qed.
Lemma udp_remote_ok ip port u : udp_ok u -> in_u 32 ip -> in_u 16 port -> udp_ok (set_u_remote_port port (set_u_remote_ip ip u)).
Proof. by intros (? & ? & ? & ? & ? & ? & ?). Qed.

Lemma wp_udp_push extra R pcb u l Q s : net_inv s extra R -> udps (ips s) !! pcb = Some u -> pcb_list (X := udp_pcb) (ips s) l -> pcb ∉ l ->
  (forall s', s' = with_ips (set_udps (<[pcb := set_u_next (udp_pcbs (ips s)) u]> (udps (ips s))) pcb (ips s)) s ->
    net_inv s' extra R -> pcb_list (X := udp_pcb) (ips s') (pcb :: l) -> Q tt s') -> wp (udp_push pcb) Q s.
Proof.
  intros I E L Hn HQ. unfold udp_push. apply wp_bind. eapply wp_gets; [done|]. apply wp_bind.
  eapply (wp_upd_pcb pcb u); [exact E|]. apply wp_modify. udp_fields. cbn [ips with_ips udps udp_pcbs set_udps].
  pose proof (pcb_nonzero (k := udp_kind) s extra R pcb u I E) as Hz.
  pose proof (plist_push u_next set_u_next ltac:(done) (udps (ips s)) l (udp_pcbs (ips s)) pcb u L Hn Hz) as L'.
  set (s' := with_ips (set_udps (<[pcb := set_u_next (udp_pcbs (ips s)) u]> (udps (ips s))) pcb (ips s)) s) in *.
  assert (net_inv s' extra R) as I'; [|exact (HQ s' eq_refl I' L')].
  destruct (pcbs_ok (k := udp_kind) _ (ni_ips _ _ _ I)) as (Ho & _).
  eapply (inv_pcbs (k := udp_kind)); [exact I| |exact L'|by eapply keys_insert].
  apply map_Forall_insert_2; [|done]. exact (Ho pcb u E).
Qed.

Lemma wp_bind_to extra R pcb ip port l u Q s0 s : net_inv s extra R -> calm extra s0 s -> ps s = ps s0 -> udps (ips s) !! pcb = Some (set_u_local_ip ip u) ->
  (forall a, a ≠ pcb -> udps (ips s) !! a = udps (ips s0) !! a) -> pcb_list (X := udp_pcb) (ips s) l -> in_u 16 port ->
  (forall s', bound_to pcb ip port l u extra R s0 s' -> Q ERR_OK s') -> wp (bind_to pcb port (bool_decide (pcb ∈ l))) Q s.
Proof.
  intros I C Hps E Ho L Hp HQ. unfold bind_to. apply wp_bind.
  destruct (pcbs_ok (k := udp_kind) _ (ni_ips _ _ _ I)) as (Hok & _). pose proof (Hok pcb _ E) as Hu. cbn beta in Hu.
  eapply (wp_set_field pcb _ _ extra R); [exact I|exact E|done|exact (udp_port_ok port _ Hu Hp)|]. intros s1 Hs1 I1 L1.
  specialize (L1 l L). assert (calm extra s0 s1) as C1 by (rewrite Hs1; destruct C; by split).
  assert (udps (ips s1) !! pcb = Some (set_u_local_port port (set_u_local_ip ip u))) as E1 by (rewrite Hs1; apply lookup_insert_eq).
  assert (forall a, a ≠ pcb -> udps (ips s1) !! a = udps (ips s0) !! a) as Ho1.
  { intros a Ha. rewrite <-Ho by done. rewrite Hs1. cbn. by apply lookup_insert_ne. }
  assert (ps s1 = ps s0) as Hps1 by (by rewrite Hs1).
  clear Hs1. apply wp_bind. case_bool_decide as Hin; cbn [negb when].
  - apply wp_ret, wp_ret, HQ. split; [done|done|done| |done|by rewrite bool_decide_true]. exists (u_next u). rewrite E1. by destruct u.
  - eapply wp_udp_push; [exact I1|exact E1|exact L1|done|]. intros s2 Hs2 I2 L2. apply wp_ret, HQ.
    split; [done| | | | |by rewrite bool_decide_false].
    + rewrite Hs2. destruct C1. by split.
    + by rewrite Hs2.
    + rewrite Hs2. cbn. rewrite lookup_insert_eq. by eexists.
    + intros a Ha. rewrite <-Ho1 by done. rewrite Hs2. cbn. by apply lookup_insert_ne.
Qed.

Lemma wp_udp_bind extra R pcb ip port l u Q s : net_inv s extra R -> udps (ips s) !! pcb = Some u -> pcb_list (X := udp_pcb) (ips s) l ->
  Z.of_nat (length l) < 0x4000 -> in_u 32 ip -> in_u 16 port ->
  (in_way (ips s) pcb ip port l -> Q ERR_USE s) ->
  (forall port' s', ~ in_way (ips s) pcb ip port l -> (port ≠ 0 -> port' = port) ->
    (port = 0 -> UDP_LOCAL_PORT_RANGE_START <= port' <= UDP_LOCAL_PORT_RANGE_END /\ (port' ∉ ports (ips s) l)) ->
    bound_to pcb ip port' l u extra R s s' -> Q ERR_OK s') ->
  wp (udp_bind pcb ip port) Q s.
Proof.
  intros I E L Hl Hip Hport H0 H1. unfold udp_bind. apply wp_bind. eapply wp_gets; [done|].
  assert (length l < S (size (udps (ips s))))%nat as Hsz by (pose proof (plist_size _ _ _ _ L) as Hsz; cbn in Hsz; lia).
  apply wp_bind. unfold wp at 1. destruct (bind_check_run pcb ip port s l _ false (udp_pcbs (ips s)) Hsz L) as [[Hw ->]|[Hw ->]]; [by apply wp_ret, H0|].
  cbn [orb]. destruct (pcbs_ok (k := udp_kind) _ (ni_ips _ _ _ I)) as (Hok & _). pose proof (Hok pcb u E) as Hu. cbn beta in Hu.
  apply wp_bind. eapply (wp_set_field pcb _ _ extra R); [exact I|exact E|done|exact (udp_ip_ok ip u Hu Hip)|]. intros s1 Hs1 I1 L1.
  specialize (L1 l L). assert (calm extra s s1) as C1 by (rewrite Hs1; split; try done; apply same_packets_refl).
  assert (udps (ips s1) !! pcb = Some (set_u_local_ip ip u)) as E1 by (rewrite Hs1; apply lookup_insert_eq).
  assert (forall a, a ≠ pcb -> udps (ips s1) !! a = udps (ips s) !! a) as Ho1.
  { intros a Ha. rewrite Hs1. cbn. by apply lookup_insert_ne. }
  destruct (Z.eqb_spec port 0) as [Hz|Hz].
  - assert (ports (ips s1) l = ports (ips s) l) as Hps.
    { unfold ports. clear -E Hs1. induction l as [|a l IH]; [done|]. cbn [omap list_omap]. rewrite Hs1 at 1. cbn [ips with_ips put_pcbs udp_kind udps set_udps].
      destruct (decide (a = pcb)) as [->|Ha]; [rewrite lookup_insert_eq, E; cbn; by rewrite IH|].
      rewrite lookup_insert_ne by done. by rewrite IH. }
    destruct (udp_new_port_run l s1 L1 Hl (io_port _ (ni_ips _ _ _ I1))) as (port' & Ep & Hr & Hn).
    apply wp_bind. unfold wp at 1. rewrite Ep. unfold UDP_LOCAL_PORT_RANGE_START, UDP_LOCAL_PORT_RANGE_END in Hr.
    rewrite (proj2 (Z.eqb_neq port' 0)) by lia. set (s2 := with_ips _ s1).
    assert (net_inv s2 extra R) as I2.
    { apply inv_ips; [done| |done]. destruct (ni_ips _ _ _ I1). by split. }
    eapply (wp_bind_to extra R pcb ip port' l u _ s s2); [exact I2| | |exact E1|exact Ho1|exact L1|cint|].
    + destruct C1. by split.
    + cbn. by rewrite Hs1.
    + intros s3 B3. apply (H1 port'); [done|done|intros _; split; [exact Hr|by rewrite <-Hps]|exact B3].
  - eapply (wp_bind_to extra R pcb ip port l u _ s s1); [exact I1|exact C1|by rewrite Hs1|exact E1|exact Ho1|exact L1|done|].
    intros s3 B3. by apply (H1 port).
Qed.

(** The ports stay apart when one pcb, of the list or new in it, gets an address
    and port that are in nobody's way. *)
Lemma exclusive_push pcb u i i' l l' : exclusive_ports i l -> udps i' !! pcb = Some u ->
  (forall a, a ≠ pcb -> udps i' !! a = udps i !! a) -> (forall a, a ∈ l' -> a ≠ pcb -> a ∈ l) ->
  (forall c v, c ∈ l -> c ≠ pcb -> udps i !! c = Some v -> clash (u_local_ip u) (u_local_port u) v = false) -> exclusive_ports i' l'.
Proof.
  intros Ex Eu Ho Hin Hc.
  assert (forall v w, clash (u_local_ip v) (u_local_port v) w = clash (u_local_ip w) (u_local_port w) v) as Sym.
  { intros v w. unfold clash. rewrite (Z.eqb_sym (u_local_port w)), (Z.eqb_sym (u_local_ip w)). f_equal.
    rewrite (orb_comm (ip_addr_isany (u_local_ip w))). done. }
  intros a c v w Ha Hc' Hac Ev Ew. destruct (decide (a = pcb)) as [->|Hap].
  - rewrite Eu in Ev. injection Ev as <-. rewrite Ho in Ew by done. apply (Hc c); [apply Hin; [done|congruence]|congruence|done].
  - rewrite Ho in Ev by done. destruct (decide (c = pcb)) as [->|Hcp].
    + rewrite Eu in Ew. injection Ew as <-. rewrite Sym. by apply (Hc a); [apply Hin| |].
    + rewrite Ho in Ew by done. eapply (Ex a c); eauto.
Qed.

Lemma elem_pushed (pcb a : Z) l : a ∈ (if bool_decide (pcb ∈ l) then l else pcb :: l) <-> a = pcb \/ a ∈ l.
Proof. case_bool_decide; rewrite ?elem_of_cons; naive_solver. Qed.

Lemma free_no_clash i l ip port c v : port ∉ ports i l -> c ∈ l -> udps i !! c = Some v -> clash ip port v = false.
Proof.
  intros Hn Hc Ev. destruct (clash ip port v) eqn:Hcl; [exfalso|done]. apply andb_true_iff in Hcl as [<-%Z.eqb_eq _].
  apply Hn. unfold ports. apply list_elem_of_omap. exists c. split; [done|]. by rewrite Ev.
Qed.

(** What [udp_bind] gives. *)
Lemma bound_exclusive extra R pcb ip port port' l u s s' : exclusive_ports (ips s) l -> ~ in_way (ips s) pcb ip port l ->
  (port ≠ 0 -> port' = port) -> (port = 0 -> port' ∉ ports (ips s) l) -> bound_to pcb ip port' l u extra R s s' ->
  exclusive_ports (ips s') (if bool_decide (pcb ∈ l) then l else pcb :: l).
Proof.
  intros Ex Hw Hp Hz [_ _ _ (n & Eu) Ho _]. eapply exclusive_push; [exact Ex|exact Eu|exact Ho| |].
  - intros a Ha Hne. apply elem_pushed in Ha. naive_solver.
  - intros c v Hc Hne Ev. cbn [u_local_ip u_local_port set_u_next set_u_local_port set_u_local_ip].
    destruct (Z.eq_dec port 0) as [Hz0|Hz0]; [by eapply free_no_clash; [apply Hz| |]|].
    destruct (clash ip port' v) eqn:Hcl; [exfalso|done]. apply Hw. exists c, v. by rewrite <-Hp.
Qed.

End Bind.

(** ** Sending *)

(** The header of RFC 768; a checksum of 0 is left to the MAC. *)
Definition udp_header (src dest len : Z) : list Z := be16 src ++ be16 dest ++ be16 len ++ [0; 0].

Section Send.
Context {A W : Type} {ops : alloc_ops A} {laws : alloc_laws A} {lops : link_ops A W} {llaws : link_laws A W}.
Implicit Types s : net A W.

(** The interface is not the one the pcb is bound to. *)
Definition wrong_source (u : udp_pcb) (nif : netif) : bool :=
  negb (ip_addr_isany (u_local_ip u)) && negb (u_local_ip u =? ip_addr nif).

Definition source_of (u : udp_pcb) (nif : netif) : Z := if ip_addr_isany (u_local_ip u) then ip_addr nif else u_local_ip u.

(** The end of [udp_send_q], after [ip_output_if]. *)
Definition udp_sent (p q e : Z) : M A W Z := when (negb (q =? p)) (drop_packet q) ;; inc_stat udp_xmit ;; ret e.

Lemma udp_send_q_run keep R pcb u p q bq dst_ip dst_port n nif s : sending keep R q bq s -> 8 <= len bq ->
  udps (ips s) !! pcb = Some u -> udp_ok u -> in_u 16 dst_port -> netifs s !! n = Some nif ->
  exists s', sending keep R q bq s' /\ frame keep s s' /\
    if wrong_source u nif then udp_send_q pcb p q dst_ip dst_port n s = (when (negb (q =? p)) (drop_packet q) ;; ret ERR_VAL) s'
    else data s' bq = udp_header (u_local_port u) dst_port (tot_len bq) ++ drop 8 (data s bq) /\
      udp_send_q pcb p q dst_ip dst_port n s =
      (e <- ip_output_if q (source_of u nif) (Some dst_ip) (u_ttl u) (u_tos u) IP_PROTO_UDP n ;; udp_sent p q e) s'.
Proof.
  intros H Hl Eu (_ & _ & _ & _ & _ & Hport & _) Hd En. pose proof (sn_apart _ _ _ _ _ H) as Ap.
  destruct (sn_bounds _ _ _ _ _ H) as (_ & _ & Hlt & Htl & _). pose proof H as [I E Cb _ _].
  pose proof (own_refl s keep R q bq I) as O. set (L0 := read_bytes _ _ _) in O.
  assert (length L0 = Z.to_nat (len bq)) as HL0 by apply read_bytes_length.
  assert (forall off l L s1, 0 <= off -> off + Z.of_nat (length l) <= 8 -> own_state s q bq keep R L s1 ->
    exists s', store q off l s1 = Some (tt, s') /\ own_state s q bq keep R (splice off l L) s') as Step
    by (intros; by eapply own_store).
  assert (forall L s1, own_state s q bq keep R L s1 -> sending keep R q bq s1) as Hsn.
  { intros L s1 [_ Hb I1 _ _]. eapply sn_same; [exact H|exact Hb|exact I1]. }
  unfold udp_send_q. rewrite (bind_run (pcb_at pcb) _ s u s) by (unfold pcb_at, gets; udp_fields; by rewrite Eu).
  own_stores q O Step.
  match type of O with own_state _ _ _ _ _ _ ?sx => rewrite (bind_run (the_netif n) _ sx nif sx)
    by (unfold the_netif, gets; rewrite (os_ps _ _ _ _ _ _ _ O); cbn [netifs with_ps]; by rewrite En) end.
  fold (wrong_source u nif). destruct (wrong_source u nif).
  { eexists. split; [by eapply Hsn|]. split; [apply O|done]. }
  match type of O with own_state _ _ _ _ _ _ ?sx => rewrite (bind_run (the_pbuf q) _ sx bq sx)
    by (unfold the_pbuf, gets, get; rewrite (os_bufs _ _ _ _ _ _ _ O), E; done) end.
  own_stores q O Step.
  eexists. split; [by eapply Hsn|]. split; [apply O|]. split; [|done]. unfold data at 1. rewrite (os_data _ _ _ _ _ _ _ O).
  rewrite !bytes16_htons by (done || unfold in_u; lia). change (data s bq) with L0. assert (8 <= length L0)%nat as H8 by lia.
  clearbody L0. clear -H8. do 8 (destruct L0 as [|? L0]; [cbn in H8; lia|]). reflexivity.
Qed.

(** What an operation of a pcb leaves alone. *)
Lemma quiet_calm extra s s' : quiet extra s s' -> calm extra s s'.
Proof. by intros []. Qed.

Lemma calm_sub extra extra' s s' : (forall a, a ∈ extra' -> a ∈ extra) -> calm extra s s' -> calm extra' s s'.
Proof. intros H []. split; try done. by eapply same_packets_sub. Qed.

(** A pcb that has a port keeps it, another gets one that is free. *)
Lemma wp_ensure_bound extra R pcb u l Q s : net_inv s extra R -> udps (ips s) !! pcb = Some u -> pcb_list (X := udp_pcb) (ips s) l ->
  Z.of_nat (length l) < 0x4000 ->
  (u_local_port u ≠ 0 -> Q ERR_OK s) -> (u_local_port u = 0 -> in_way (ips s) pcb (u_local_ip u) 0 l -> Q ERR_USE s) ->
  (forall port s', u_local_port u = 0 -> UDP_LOCAL_PORT_RANGE_START <= port <= UDP_LOCAL_PORT_RANGE_END -> (port ∉ ports (ips s) l) ->
    bound_to pcb (u_local_ip u) port l u extra R s s' -> Q ERR_OK s') ->
  wp (ensure_bound pcb) Q s.
Proof.
  intros I E L Hl H0 H1 H2. unfold ensure_bound. apply wp_bind. eapply (wp_pcb_at pcb u); [exact E|].
  destruct (Z.eqb_spec (u_local_port u) 0) as [Hz|Hz]; [|by apply wp_ret, H0].
  destruct (pcbs_ok (k := udp_kind) _ (ni_ips _ _ _ I)) as (Hok & _). pose proof (Hok pcb u E) as (Hu & _).
  rewrite Hz. eapply wp_udp_bind; [exact I|exact E|exact L|done|exact Hu|done|by apply H1|].
  intros port' s' _ _ Hp B. destruct (Hp eq_refl). by apply (H2 port').
Qed.

Lemma wp_udp_send_q keep R pcb u p q bq dst_ip dst_port n nif Q s : sending keep R q bq s -> 8 <= len bq -> tot_len bq + 34 < 2 ^ 16 ->
  udps (ips s) !! pcb = Some u -> in_u 16 dst_port -> netifs s !! n = Some nif -> Z.of_nat (length keep) < 49996 ->
  (forall e s', net_inv s' (if q =? p then q :: keep else keep) R -> quiet keep s s' -> Q e s') ->
  wp (udp_send_q pcb p q dst_ip dst_port n) Q s.
Proof.
  intros H Hl Ht Eu Hd En Hx HQ. destruct (pcbs_ok (k := udp_kind) _ (ni_ips _ _ _ (sn_inv _ _ _ _ _ H))) as (Hok & _).
  pose proof (Hok pcb u Eu) as Hu. cbn beta in Hu.
  destruct (udp_send_q_run keep R pcb u p q bq dst_ip dst_port n nif s H Hl Eu Hu Hd En) as (s1 & H1 & F1 & Hr).
  assert (forall (K : M A W Z) s2, net_inv s2 (q :: keep) R -> quiet keep s s2 ->
    (forall s3, net_inv s3 (if q =? p then q :: keep else keep) R -> quiet keep s s3 -> wp K Q s3) ->
    wp (when (negb (q =? p)) (drop_packet q) ;; K)%net Q s2) as Hend.
  { intros K s2 I2 K2 HK. apply wp_bind. destruct (q =? p); cbn [negb when]; [by apply wp_ret, HK|].
    apply wp_bind. eapply wp_free; [exact I2|]. intros _ s3 I3 F3 _. apply wp_ret, HK; [done|by eapply quiet_frame]. }
  unfold wp. destruct (wrong_source u nif).
  - rewrite Hr. apply (Hend (ret ERR_VAL)); [apply H1|by apply frame_quiet|]. intros s2 I2 K2. by apply wp_ret, HQ.
  - destruct Hr as [_ ->]. match goal with |- match ?m s1 with _ => _ end => change (wp m Q s1) end. apply wp_bind.
    eapply wp_ip_output_if; [exact H1|done|by rewrite (fr_netifs _ _ _ F1)|done|]. intros e s2 I2 K2.
    apply Hend; [done|by eapply frame_quiet_trans|]. intros s3 I3 K3. apply wp_bind. apply wp_inc_stat. intros f.
    apply wp_ret, HQ; [by apply inv_stats|]. eapply quiet_frame; [exact K3|]. apply frame_stats, frame_refl.
Qed.

Lemma wp_udp_sendto_if extra R pcb u p b dst_ip dst_port n nif l Q s : sending extra R p b s -> tot_len b + 42 < 2 ^ 16 ->
  udps (ips s) !! pcb = Some u -> pcb_list (X := udp_pcb) (ips s) l -> Z.of_nat (length l) < 0x4000 -> in_u 16 dst_port ->
  netifs s !! n = Some nif -> Z.of_nat (length extra) < 49995 ->
  (forall e s', net_inv s' (p :: extra) R -> calm extra s s' -> (u_local_port u ≠ 0 -> quiet extra s s') -> Q e s') -> wp (udp_sendto_if pcb p dst_ip dst_port n) Q s.
Proof.
  intros H Ht Eu L Hl Hd En Hx HQ. destruct (sn_bounds _ _ _ _ _ H) as (_ & _ & Hlen & _).
  assert (forall s1 u1, sending extra R p b s1 -> calm (p :: extra) s s1 -> (u_local_port u ≠ 0 -> quiet (p :: extra) s s1) -> udps (ips s1) !! pcb = Some u1 ->
    wp (e <- pbufs (pbuf_header p UDP_HLEN) ;;
        if negb (e =? 0) then
          q <- pbufs (pbuf_alloc PBUF_IP UDP_HLEN PBUF_RAM) ;;
          if q =? 0 then ret ERR_MEM
          else b <- the_pbuf p ;; when (negb (tot_len b =? 0)) (pbufs_ (pbuf_chain q p)) ;; udp_send_q pcb p q dst_ip dst_port n
        else udp_send_q pcb p p dst_ip dst_port n)%net Q s1) as Hrest.
  { intros s1 u1 H1 C1 Qu Eu1.
    assert (u_local_port u ≠ 0 -> quiet extra s s1) as Qu1 by (intros Hz; eapply quiet_sub; [|by apply Qu]; set_solver). clear Qu.
    assert (forall e s3, net_inv s3 (p :: extra) R -> quiet extra s1 s3 -> Q e s3) as HQ1.
    { intros e s3 I3 Q3. apply HQ; [done| |intros Hz; eapply quiet_trans; [by apply Qu1|done]].
      eapply calm_trans; [|by apply quiet_calm]. eapply calm_sub; [|exact C1]. set_solver. } rewrite <-(cm_netifs _ _ _ C1) in En. apply (calm_sub (p :: extra) extra) in C1; [|set_solver].
    apply wp_bind. destruct (sn_header extra R p b UDP_HLEN s1 H1 ltac:(done) ltac:(done) ltac:(done) ltac:(unfold UDP_HLEN; lia))
      as [[_ E]|(Hf & E & H2 & F2)]; unfold wp at 1; rewrite E; cbn [Z.eqb negb].
    - eapply wp_header_pbuf; [exact H1|done|unfold UDP_HLEN; lia|lia| |].
      + intros s2 I2 F2. apply HQ1; [done|]. apply frame_quiet. eapply frame_sub; [|exact F2]. set_solver.
      + intros q bq s2 Hqp S2 F2 Hlq Htq. unfold UDP_HLEN in *.
        eapply (wp_udp_send_q (p :: extra) R pcb u1); [exact S2|lia|lia|by rewrite (fr_ips _ _ _ F2)|done|by rewrite (fr_netifs _ _ _ F2)|cbn [length]; lia|].
        rewrite (proj2 (Z.eqb_neq q p)) by done. intros e s3 I3 Q3. apply HQ1; [done|].
        eapply frame_quiet_trans; [exact F2|]. eapply quiet_sub; [|exact Q3]. set_solver.
    - eapply (wp_udp_send_q extra R pcb u1); [exact H2| | |by rewrite (fr_ips _ _ _ F2)|done|by rewrite (fr_netifs _ _ _ F2)|lia|];
        [unfold UDP_HLEN; cbn; lia|unfold UDP_HLEN; cbn; lia|].
      rewrite Z.eqb_refl. intros e s3 I3 Q3. apply HQ1; [done|]. by eapply frame_quiet_trans. }
  unfold udp_sendto_if. apply wp_bind. eapply wp_ensure_bound; [apply H|exact Eu|exact L|done| | |].
  - intros _. cbn [Z.eqb negb ERR_OK]. eapply Hrest; [exact H|apply calm_refl|intros _; apply quiet_refl|exact Eu].
  - intros _ _. cbn [negb Z.eqb ERR_OK ERR_USE]. apply wp_ret, HQ; [apply H|apply calm_refl|intros _; apply quiet_refl].
  - intros port s1 Hz0 _ _ [I1 C1 P1 (k & E1) _ _]. cbn [Z.eqb negb ERR_OK]. eapply Hrest; [|exact C1|done|exact E1].
    eapply sn_same; [exact H|by rewrite P1|done].
Qed.

Lemma wp_udp_sendto extra R pcb u p b dst_ip dst_port l Q s : sending extra R p b s -> tot_len b + 42 < 2 ^ 16 ->
  udps (ips s) !! pcb = Some u -> pcb_list (X := udp_pcb) (ips s) l -> Z.of_nat (length l) < 0x4000 -> in_u 16 dst_port ->
  listed s -> Z.of_nat (length extra) < 49995 ->
  (forall e s', net_inv s' (p :: extra) R -> calm extra s s' -> (u_local_port u ≠ 0 -> quiet extra s s') -> Q e s') -> wp (udp_sendto pcb p dst_ip dst_port) Q s.
Proof.
  intros H Ht Eu L Hl Hd Ls Hx HQ. unfold udp_sendto. apply wp_bind, wp_route; [done|]. intros n f Hn.
  assert (calm extra s (with_stats f s)) as C1 by (apply frame_calm, frame_stats, frame_refl).
  destruct (Z.eqb_spec n 0) as [->|Hz].
  - apply wp_bind. apply wp_inc_stat. intros g. apply wp_ret, HQ; [by apply inv_stats, inv_stats, H| |intros _; apply frame_quiet];
      by try apply frame_calm; apply frame_stats, frame_stats, frame_refl.
  - destruct (route_netif _ _ _ Hn Hz) as (nif & En).
    eapply wp_udp_sendto_if; [eapply sn_same; [exact H|done|apply inv_stats, H]|done|exact Eu|exact L|done|done|exact En|done|].
    intros e s1 I1 C2 Q2. apply HQ; [done|by eapply calm_trans|]. intros Hz2.
    eapply frame_quiet_trans; [apply frame_stats, frame_refl|by apply Q2].
Qed.

(** *** The datagram on its way *)

Lemma header_data x b s : 0 <= x -> 0 <= len b -> drop (Z.to_nat x) (data s (header_moved x b)) = data s b.
Proof.
  intros Hx Hl. unfold data. cbn [header_moved payload len set_tot_len set_len set_payload]. rewrite !read_bytes_rd.
  replace (len b + x) with (x + len b) by lia. rewrite seqZ_app, fmap_app by lia.
  rewrite drop_app_length' by (rewrite length_fmap, length_seqZ; lia). do 2 f_equal. lia.
Qed.

Lemma source_any u nif : (if ip_addr_isany (source_of u nif) then ip_addr nif else source_of u nif) = source_of u nif.
Proof. unfold source_of. destruct (ip_addr_isany (u_local_ip u)) eqn:E; [by destruct (ip_addr_isany (ip_addr nif))|by rewrite E]. Qed.

Lemma udp_frame extra R pcb u p b dst_ip dst_port n nif s : sending extra R p b s -> udps (ips s) !! pcb = Some u ->
  u_local_port u ≠ 0 -> wrong_source u nif = false -> p + 44 <= payload b -> tot_len b + 28 < 2 ^ 16 -> in_u 16 dst_port ->
  netifs s !! n = Some nif ->
  exists s', udp_sendto_if pcb p dst_ip dst_port n s = (e <- etharp_output n p dst_ip ;; udp_sent p p e) s' /\
    sending extra R p (header_moved 28 b) s' /\ quiet extra s s' /\
    data s' (header_moved 28 b) = ip_header (u_tos u) (tot_len b + 28) (ip_id (ips s)) (u_ttl u) IP_PROTO_UDP (source_of u nif) dst_ip ++
      udp_header (u_local_port u) dst_port (tot_len b + 8) ++ data s b.
Proof.
  intros H Eu Hp Hw Hroom Ht Hd En. destruct (sn_bounds _ _ _ _ _ H) as (_ & _ & Hlen & _).
  destruct (pcbs_ok (k := udp_kind) _ (ni_ips _ _ _ (sn_inv _ _ _ _ _ H))) as (Hok & _).
  pose proof (Hok pcb u Eu) as Hu. cbn beta in Hu.
  unfold udp_sendto_if. rewrite (bind_run (ensure_bound pcb) _ s ERR_OK s).
  2: { unfold ensure_bound. rewrite (bind_run (pcb_at pcb) _ s u s) by (unfold pcb_at, gets; udp_fields; by rewrite Eu).
       by rewrite (proj2 (Z.eqb_neq _ _) Hp). }
  cbn [Z.eqb negb ERR_OK].
  destruct (sn_header extra R p b UDP_HLEN s H ltac:(done) ltac:(done) ltac:(done) ltac:(unfold UDP_HLEN; lia)) as [[Hf _]|(Hf & E & H1 & F1)].
  { exfalso. rewrite header_fits_carries in Hf by apply H. unfold UDP_HLEN in Hf. apply andb_false_iff in Hf as [?%Z.leb_gt|?%Z.leb_gt]; lia. }
  rewrite (bind_run _ _ _ _ _ E). cbn [Z.eqb negb]. set (s1 := with_ps _ s) in *. set (b1 := header_moved UDP_HLEN b) in *.
  assert (len b1 = len b + 8 /\ tot_len b1 = tot_len b + 8 /\ payload b1 = payload b - 8) as (L1 & T1 & P1) by done.
  destruct (udp_send_q_run extra R pcb u p p b1 dst_ip dst_port n nif s1 H1 ltac:(lia) Eu Hu Hd En) as (s2 & H2 & F2 & Hr).
  rewrite Hw in Hr. destruct Hr as [D2 ->].
  destruct (ip_output_if_run s2 extra R p b1 (source_of u nif) dst_ip (u_ttl u) (u_tos u) IP_PROTO_UDP n nif H2)
    as [[Hf2 _]|(_ & s3 & E3 & Sb)]; [unfold IP_HLEN; lia|by rewrite (fr_netifs _ _ _ F2)| |].
  { exfalso. rewrite header_fits_carries in Hf2 by apply H2. unfold IP_HLEN in Hf2. apply andb_false_iff in Hf2 as [?%Z.leb_gt|?%Z.leb_gt]; lia. }
  exists s3. destruct (sent_by_calm _ _ _ _ _ _ _ _ _ _ _ _ Sb) as (C3 & _ & Hid). destruct Sb as [H3 _ _ D3 _].
  assert (header_moved IP_HLEN b1 = header_moved 28 b) as Eb by (unfold b1; by rewrite header_moved_twice).
  rewrite Eb in *. split; [unfold bind; by rewrite E3|]. split; [done|].
  split; [eapply frame_quiet_trans; [exact F1|eapply frame_quiet_trans; [exact F2|split; [exact C3|by eexists]]]|].
  rewrite D3, D2, source_any, T1, (fr_ips _ _ _ F2). destruct Hu as (_ & _ & _ & Httl & _).
  replace (u8 (u_ttl u)) with (u_ttl u) by (symmetry; by apply wrap_id). change (u8 IP_PROTO_UDP) with IP_PROTO_UDP.
  replace (tot_len b + 8 + IP_HLEN) with (tot_len b + 28) by (unfold IP_HLEN; lia).
  change (drop 8 (data s1 b1)) with (drop (Z.to_nat 8) (data s1 (header_moved 8 b))). rewrite header_data by lia. done.
Qed.

End Send.

(** ** The life of a pcb *)

Section Life.
Context {A W : Type} {ops : alloc_ops A} {laws : alloc_laws A} {lops : link_ops A W} {llaws : link_laws A W}.
Implicit Types s : net A W.

(** A new pcb is not bound, not connected and not in the list. *)
Definition new_udp : udp_pcb := mk_udp 0 0 0 0 UDP_TTL 0 0 0 0 0 0.

Lemma plist_new (m : gmap Z udp_pcb) a x h l : m !! a = None -> plist u_next m h l -> plist u_next (<[a := x]> m) h l.
Proof.
  intros Hn L. apply plist_insert_ne; [done|]. intros Ha. destruct (plist_elem _ _ _ _ a L Ha) as (_ & y & Ey). congruence.
Qed.

Lemma wp_udp_new extra R l Q s : net_inv s extra R -> pcb_list (X := udp_pcb) (ips s) l ->
  (forall s', net_inv s' extra R -> frame extra s s' -> Q 0 s') ->
  (forall pcb s', pcb ≠ 0 -> udps (ips s) !! pcb = None -> net_inv s' extra R -> calm extra s s' ->
    udps (ips s') = <[pcb := new_udp]> (udps (ips s)) -> pcb_list (X := udp_pcb) (ips s') l -> Q pcb s') -> wp udp_new Q s.
Proof.
  intros I L H0 H1. unfold udp_new. apply wp_bind. eapply (wp_memp_malloc extra R); [exact I|by right| |].
  - intros s1 I1 F1 _. apply wp_bind. cbn [Z.eqb negb when]. by apply wp_ret, wp_ret, H0.
  - intros pcb s1 Hz I1 F1 Hi. apply wp_bind. rewrite (proj2 (Z.eqb_neq pcb 0)) by done. cbn [negb when]. apply wp_modify, wp_ret.
    destruct (pcb_fresh (k := udp_kind) s1 extra R pcb I1) as [Hn _]. cbn [pcbs_of udp_kind] in Hn.
    assert (plist u_next (<[pcb := new_udp]> (udps (ips s1))) (udp_pcbs (ips s1)) l) as L1
      by (apply plist_new; [done|]; by rewrite Hi).
    apply H1; [done|by rewrite <-Hi| | |cbn; by rewrite Hi|exact L1].
    + by eapply (inv_new (k := udp_kind)).
    + destruct (frame_calm _ _ _ F1). split; try done.
Qed.

(** A pcb that is removed is gone from the list and from the table. *)
Lemma wp_udp_remove extra R pcb u l Q s : net_inv s extra R -> udps (ips s) !! pcb = Some u -> pcb_list (X := udp_pcb) (ips s) l ->
  (forall d, dhcps (ips s) !! d ≠ Some pcb) ->
  (forall s', net_inv s' extra R -> calm extra s s' -> pcb_list (X := udp_pcb) (ips s') (filter (fun a => a ≠ pcb) l) ->
    udps (ips s') !! pcb = None -> relinked (udps (ips s)) (udps (ips s')) -> Q tt s') -> wp (udp_remove pcb) Q s.
Proof.
  intros I E L Hd HQ. eapply (wp_pcb_remove (k := udp_kind)); [exact I|exact E|exact L|done|].
  intros s' I' C' _ L' Hk Rl. apply HQ; [done|done|exact L'| |exact Rl].
  destruct (udps (ips s') !! pcb) eqn:E'; [exfalso|done].
  pose proof (NoDup_fst_map_to_list (udps (ips s))) as N. fold (keys (udps (ips s))) in N. cbn [pcbs_of udp_kind] in Hk. rewrite Hk in N. apply NoDup_cons in N as [N _].
  apply N, elem_keys. by eexists.
Qed.

Lemma in_list_run pcb s : forall l fuel ipcb, (length l < fuel)%nat -> plist u_next (udps (ips s)) ipcb l ->
  in_list fuel pcb ipcb s = Some (bool_decide (pcb ∈ l), s).
Proof.
  induction l as [|a l IH]; intros [|fuel] ipcb Hf L; cbn [length] in Hf; [lia| |lia|]; cbn [in_list].
  - cbn [plist] in L. subst ipcb. by rewrite bool_decide_false by set_solver.
  - destruct L as (-> & Hz & u & Eu & L). rewrite (proj2 (Z.eqb_neq a 0)) by done.
    destruct (Z.eqb_spec pcb a) as [<-|Hne]; [by rewrite bool_decide_true by (by left)|].
    rewrite (bind_run (pcb_at a) _ s u s) by (unfold pcb_at, gets; udp_fields; by rewrite Eu).
    rewrite (IH fuel (u_next u)) by (done || lia). do 2 f_equal. apply bool_decide_ext. rewrite elem_of_cons. naive_solver.
Qed.

(** The pcb after [udp_connect]. *)
Definition connected (ip port : Z) (u : udp_pcb) : udp_pcb :=
  set_u_flags (Z.lor (u_flags u) UDP_FLAGS_CONNECTED) (set_u_remote_port port (set_u_remote_ip ip u)).

Lemma lor_range w x y : 0 <= w -> in_u w x -> in_u w y -> in_u w (Z.lor x y).
Proof.
  intros Hw Hx Hy. unfold in_u in *. assert (Z.lor x y = Z.lor x y mod 2 ^ w) as ->; [|apply Z.mod_pos_bound; lia].
  rewrite <-Z.land_ones, Z.land_lor_distr_l, !Z.land_ones, !Z.mod_small by lia. done.
Qed.

Lemma connected_ok ip port u : udp_ok u -> in_u 32 ip -> in_u 16 port -> udp_ok (connected ip port u).
Proof.
  intros (? & ? & ? & ? & Hf & ? & ?) ? ?. unfold udp_ok. split_and!; try done. cbn [connected u_flags set_u_flags].
  by apply lor_range.
Qed.

(** The three fields are set one after the other. *)
Lemma connect_fields pcb ip port u s : udps (ips s) !! pcb = Some u ->
  let s' := with_ips (set_udps (<[pcb := connected ip port u]> (udps (ips s))) (udp_pcbs (ips s)) (ips s)) s in
  forall X (k : M A W X), (upd_pcb pcb (set_u_remote_ip ip) ;; upd_pcb pcb (set_u_remote_port port) ;;
    upd_pcb pcb (fun u => set_u_flags (Z.lor (u_flags u) UDP_FLAGS_CONNECTED) u) ;; k)%net s = k s'.
Proof.
  intros E s' X k. subst s'.
  assert (forall f v t (k : M A W X), udps (ips t) !! pcb = Some v ->
    (upd_pcb pcb f ;; k)%net t = k (with_ips (set_udps (<[pcb := f v]> (udps (ips t))) (udp_pcbs (ips t)) (ips t)) t)) as Hu.
  { intros f v t k0 Et. unfold upd_pcb, bind. cbn [pcbs_of head_of put_pcbs udp_kind]. unfold pcb_at, gets. udp_fields. by rewrite Et. }
  rewrite (Hu _ u) by done. rewrite (Hu _ (set_u_remote_ip ip u)) by (cbn; apply lookup_insert_eq).
  rewrite (Hu _ (set_u_remote_port port (set_u_remote_ip ip u))) by (cbn; apply lookup_insert_eq).
  cbn [ips with_ips udps set_udps udp_pcbs]. rewrite !insert_insert_eq. done.
Qed.

Record connects (pcb ip port : Z) (l : list Z) (u : udp_pcb) extra R s s' : Prop := {
  cn_inv : net_inv s' extra R;
  cn_calm : calm extra s s';
  cn_udp : exists n port', udps (ips s') !! pcb = Some (set_u_next n (connected ip port (set_u_local_port port' u))) /\
    port' ≠ 0 /\ (u_local_port u ≠ 0 -> port' = u_local_port u) /\ (u_local_port u = 0 -> port' ∉ ports (ips s) l);
  cn_others a : a ≠ pcb -> udps (ips s') !! a = udps (ips s) !! a;
  cn_list : pcb_list (X := udp_pcb) (ips s') (if bool_decide (pcb ∈ l) then l else pcb :: l) }.

Lemma wp_udp_connect extra R pcb ip port u l Q s : net_inv s extra R -> udps (ips s) !! pcb = Some u ->
  pcb_list (X := udp_pcb) (ips s) l -> Z.of_nat (length l) < 0x4000 -> in_u 32 ip -> in_u 16 port ->
  (u_local_port u = 0 -> in_way (ips s) pcb (u_local_ip u) 0 l -> Q ERR_USE s) ->
  (forall s', connects pcb ip port l u extra R s s' -> Q ERR_OK s') -> wp (udp_connect pcb ip port) Q s.
Proof.
  intros I E L Hl Hip Hp H0 HQ.
  assert (forall s1 n port' l1, net_inv s1 extra R -> calm extra s s1 -> udps (ips s1) !! pcb = Some (set_u_next n (set_u_local_port port' u)) ->
    port' ≠ 0 -> (u_local_port u ≠ 0 -> port' = u_local_port u) -> (u_local_port u = 0 -> port' ∉ ports (ips s) l) -> (forall a, a ≠ pcb -> udps (ips s1) !! a = udps (ips s) !! a) ->
    pcb_list (X := udp_pcb) (ips s1) l1 -> (l1 = l \/ l1 = if bool_decide (pcb ∈ l) then l else pcb :: l) ->
    wp (upd_pcb pcb (set_u_remote_ip ip) ;; upd_pcb pcb (set_u_remote_port port) ;;
      upd_pcb pcb (fun u => set_u_flags (Z.lor (u_flags u) UDP_FLAGS_CONNECTED) u) ;;
      i <- the_ips ;; there <- in_list (S (size (udps i))) pcb (udp_pcbs i) ;; when (negb there) (udp_push pcb) ;; ret ERR_OK)%net Q s1) as Hrest.
  { intros s1 n port' l1 I1 C1 E1 Hz Hz' Hfree Ho1 L1 Hl1. unfold wp. rewrite (connect_fields pcb ip port _ s1 E1). cbv zeta.
    set (u1 := connected ip port _). set (s2 := with_ips _ s1).
    destruct (pcbs_ok (k := udp_kind) _ (ni_ips _ _ _ I1)) as (Hok & _). pose proof (Hok pcb _ E1) as Hu. cbn beta in Hu.
    assert (pcb_list (X := udp_pcb) (ips s2) l1) as L2 by (eapply (plist_same u_next); [exact L1|exact E1|done]).
    assert (net_inv s2 extra R) as I2.
    { eapply (inv_pcbs (k := udp_kind)); [exact I1| |exact L2|by eapply keys_insert].
      apply map_Forall_insert_2; [exact (connected_ok ip port _ Hu Hip Hp)|done]. }
    assert (calm extra s s2) as C2 by (destruct C1; by split).
    assert (udps (ips s2) !! pcb = Some u1) as E2 by apply lookup_insert_eq.
    assert (forall a, a ≠ pcb -> udps (ips s2) !! a = udps (ips s) !! a) as Ho2.
    { intros a Ha. rewrite <-Ho1 by done. by apply lookup_insert_ne. }
    assert (u1 = set_u_next n (connected ip port (set_u_local_port port' u))) as Eu1 by done.
    match goal with |- match ?m s2 with _ => _ end => change (wp m Q s2) end.
    apply wp_bind. eapply wp_gets; [done|]. apply wp_bind. unfold wp at 1. rewrite (in_list_run pcb s2 l1); [|
      pose proof (plist_size _ _ _ _ L2) as Hsz; cbn in Hsz |- *; lia|exact L2].
    assert (bool_decide (pcb ∈ l1) = true -> l1 = if bool_decide (pcb ∈ l) then l else pcb :: l) as Hin.
    { destruct Hl1 as [-> | ->]; [intros Hb; by rewrite Hb|done]. }
    apply wp_bind. destruct (bool_decide (pcb ∈ l1)) eqn:Hb; cbn [negb when].
    - apply wp_ret, wp_ret, HQ. split; [done|done| |done|by rewrite <-Hin]. exists n, port'. by rewrite E2, Eu1.
    - apply bool_decide_eq_false in Hb. eapply wp_udp_push; [exact I2|exact E2|exact L2|done|]. intros s3 Hs3 I3 L3. apply wp_ret, HQ.
      assert (l1 = l) as ->. { destruct Hl1 as [-> | ->]; [done|]. case_bool_decide; [done|]. exfalso. apply Hb. by left. }
      split; [done| | | |by rewrite bool_decide_false].
      + rewrite Hs3. destruct C2. by split.
      + rewrite Hs3. cbn [ips with_ips udps set_udps]. rewrite lookup_insert_eq. eexists _, port'. by rewrite Eu1.
      + intros a Ha. rewrite <-Ho2 by done. rewrite Hs3. cbn [ips with_ips udps set_udps]. by apply lookup_insert_ne. }
  unfold udp_connect. apply wp_bind. eapply wp_ensure_bound; [exact I|exact E|exact L|done| | |].
  - intros Hz. cbn [Z.eqb negb ERR_OK]. eapply (Hrest s (u_next u) (u_local_port u) l); try done; [apply calm_refl| |by left].
    rewrite E. by destruct u.
  - intros Hz Hw. cbn [negb Z.eqb ERR_OK ERR_USE]. by apply wp_ret, H0.
  - intros port' s1 Hz Hr Hfree [I1 C1 _ (n & E1) Ho1 L1]. cbn [Z.eqb negb ERR_OK]. unfold UDP_LOCAL_PORT_RANGE_START in Hr.
    eapply (Hrest s1 n port'); [done|done| |lia|done|done|done|exact L1|by right]. rewrite E1. by destruct u.
Qed.

End Life.

(** ** The theorems *)

Section Theorems.
Context {A W : Type} {ops : alloc_ops A} {laws : alloc_laws A} {lops : link_ops A W} {llaws : link_laws A W}
  {aops : app_ops A W} {alaws : app_laws A W}.
Implicit Types s : net A W.

(** C17: A datagram goes to one pcb: the first of the list whose local and remote
    addresses and ports match it, or else the first one without a peer whose local
    ones match.  The function of that pcb is called once, with the address and
    port of the sender and with the packet cut down to the data of the datagram. *)
Theorem udp_input_delivers extra R p b l inp nif k pcb u s : ip_packet extra R p b l s -> header_ok s b ->
  netifs s !! inp = Some nif -> listed s -> pcb_list (X := udp_pcb) (ips s) k -> Z.of_nat (length extra) < 49995 ->
  delivers s b nif k pcb u ->
  exists s', datagram extra R p b l s s' /\
    udp_input p inp s = udp_recv_fn (u_recv u) (u_recv_arg u) pcb p (current_iphdr_src (ips s)) (src_port s b) s'.
Proof.
  intros H Hh En Ls L Hx De.
  destruct (wp_run (udp_input p inp) (fun x s2 => exists s', datagram extra R p b l s s' /\
    udp_recv_fn (u_recv u) (u_recv_arg u) pcb p (current_iphdr_src (ips s)) (src_port s b) s' = Some (x, s2)) s) as (x & s2 & E & s' & D & E').
  - eapply wp_udp_input; [exact H|exact Hh|exact En|exact Ls|exact L|exact Hx|intros s' Hn; by destruct (Hn pcb u)|].
    intros pcb' u' s' De' D. assert (pcb' = pcb) as -> by (rewrite (de_pcb _ _ _ _ _ _ De); apply De').
    assert (u' = u) as -> by (pose proof (de_udp _ _ _ _ _ _ De); pose proof (de_udp _ _ _ _ _ _ De'); congruence).
    destruct (wp_run _ _ _ (udp_recv_law (u_recv u) (u_recv_arg u) pcb p (current_iphdr_src (ips s)) (src_port s b) _ _ _ extra R
      (dg_packet _ _ _ _ _ _ _ D) ltac:(lia))) as ([] & s2 & E & _).
    unfold wp. rewrite E. by exists s'.
  - exists s'. split; [done|]. by rewrite E, E'.
Qed.

(** C19: Binding keeps the local ports of UDP apart: [udp_bind] refuses an address
    and port that another pcb of the list is using, with the state as it was, and
    otherwise gives the pcb that address and that port, or a free one of the range
    0xc000 to 0xffff for port 0, and puts it into the list; no two pcbs of the
    list are in each other's way then if none were before. *)
Theorem udp_bind_exclusive extra R pcb ip port l u s : net_inv s extra R -> udps (ips s) !! pcb = Some u ->
  pcb_list (X := udp_pcb) (ips s) l -> Z.of_nat (length l) < 0x4000 -> in_u 32 ip -> in_u 16 port -> exclusive_ports (ips s) l ->
  (in_way (ips s) pcb ip port l /\ udp_bind pcb ip port s = Some (ERR_USE, s)) \/
  (~ in_way (ips s) pcb ip port l /\ exists port' s', udp_bind pcb ip port s = Some (ERR_OK, s') /\
    bound_to pcb ip port' l u extra R s s' /\ (port ≠ 0 -> port' = port) /\
    (port = 0 -> UDP_LOCAL_PORT_RANGE_START <= port' <= UDP_LOCAL_PORT_RANGE_END) /\
    exclusive_ports (ips s') (if bool_decide (pcb ∈ l) then l else pcb :: l)).
Proof.
  intros I E L Hl Hip Hport Ex.
  destruct (wp_run (udp_bind pcb ip port) (fun e s' => (in_way (ips s) pcb ip port l /\ e = ERR_USE /\ s' = s) \/
    (~ in_way (ips s) pcb ip port l /\ e = ERR_OK /\ exists port', bound_to pcb ip port' l u extra R s s' /\ (port ≠ 0 -> port' = port) /\
      (port = 0 -> UDP_LOCAL_PORT_RANGE_START <= port' <= UDP_LOCAL_PORT_RANGE_END /\ (port' ∉ ports (ips s) l)))) s)
    as (e & s' & Er & [(Hw & -> & ->)|(Hw & -> & port' & B & Hp & Hz)]).
  - eapply wp_udp_bind; [exact I|exact E|exact L|done|done|done|by left|]. intros port' s' Hw Hp Hz B. right. split; [done|]. split; [done|].
    by exists port'.
  - by left.
  - right. split; [done|]. exists port', s'. split; [done|]. split; [done|]. split; [done|]. split; [by intros H0; apply Hz|].
    eapply bound_exclusive; [done|exact Hw|exact Hp|by intros H0; apply Hz|exact B].
Qed.

End Theorems.

(** ** Examples *)

(** A pcb that takes what comes for port 7. *)
Definition serve : M lwip_mem wire Z :=
  pcb <- udp_new ;;
  if pcb =? 0 then ret 0 else _ <- udp_bind pcb 0 7 ;; udp_recv pcb 0x8000 1 ;; ret pcb.
Definition served : Z * net lwip_mem wire := default (0, net_rx) (serve net_rx).
Definition srv : Z := Eval vm_compute in served.1.
Definition srv_udp : udp_pcb := mk_udp 0 0 0 0 UDP_TTL 0 0 7 0 0x8000 1.
Definition net_srv : net lwip_mem wire := served.2.

Lemma serve_inv extra s : net_inv s extra [] -> pcb_list (X := udp_pcb) (ips s) [] ->
  wp serve (fun pcb s' => pcb ≠ 0 -> net_inv s' extra [] /\ pcb_list (X := udp_pcb) (ips s') [pcb] /\ keeps s s') s.
Proof.
  intros I0 L0. unfold serve. apply wp_bind. eapply (wp_udp_new extra [] []); [exact I0|exact L0| |].
  { intros s1 I1 F1. cbn [Z.eqb]. by apply wp_ret. }
  intros pcb s1 Hz Hn I1 C1 E1 L1. rewrite (proj2 (Z.eqb_neq pcb 0)) by done.
  assert (udps (ips s1) !! pcb = Some new_udp) as Eu by (rewrite E1; apply lookup_insert_eq).
  apply wp_bind. eapply (wp_udp_bind extra [] pcb 0 7 []); [exact I1|exact Eu|exact L1|done|done|done| |].
  { by intros (a & u & Ha%elem_of_nil & _). }
  intros port s2 _ _ _ [I2 C2 _ (n & E2) _ L2]. apply wp_bind.
  eapply (wp_set_field (k := udp_kind) pcb _ _ extra []); [exact I2|exact E2|done| |].
  { destruct (pcbs_ok (k := udp_kind) _ (ni_ips _ _ _ I2)) as (Hok & _). exact (Hok pcb _ E2). }
  intros s3 Hs3 I3 L3. apply wp_ret. intros _. split; [done|]. split; [by apply L3|].
  destruct (calm_keeps _ _ _ (calm_trans _ _ _ _ C1 C2)) as [_ K2]. eapply keeps_trans; [exact K2|]. rewrite Hs3.
  by apply (keeps_ips []).
Qed.

Lemma net_srv_udps : udps (ips net_srv) = {[srv := srv_udp]} /\ bufs (ps net_srv) = {[rx := rx_b]}.
Proof. split; by vm_compute. Qed.

Lemma net_srv_ok : net_inv net_srv [rx] [] /\ pcb_list (X := udp_pcb) (ips net_srv) [srv] /\ clients_ok net_srv /\ listed net_srv.
Proof.
  destruct (wp_run _ _ _ (serve_inv [rx] net_rx net_rx_inv eq_refl)) as (pcb & s' & E & H).
  assert (served = (pcb, s')) as Es by (unfold served; by rewrite E).
  assert (pcb = srv) as -> by (change pcb with (pcb, s').1; rewrite <-Es; by vm_compute).
  destruct (H ltac:(done)) as (I & L & K). unfold net_srv. rewrite Es. destruct net_rx_clients. split; [done|]. split; [done|].
  split; by apply K.
Qed.

(** A datagram of 192.168.0.7, port 1234, for port 7 of this host. *)
Definition dgram : list Z :=
  ip_header 0 136 1 255 IP_PROTO_UDP demo_ip (ip_addr demo_netif) ++ udp_header 1234 7 116 ++ replicate 108 0x55.
Lemma processing_ok l s k : net_inv s [rx] [] -> bufs (ps s) = {[rx := rx_b]} -> pcb_list (X := udp_pcb) (ips s) k -> listed s ->
  ip_packet [] [] rx rx_ip [] (processing l s) /\ pcb_list (X := udp_pcb) (ips (processing l s)) k /\ listed (processing l s).
Proof. intros I Hb L []. split; [by apply processing_packet|]. by split. Qed.

Definition host_srv : net lwip_mem wire := processing dgram net_srv.

Lemma host_srv_delivers : delivers host_srv rx_ip demo_netif [srv] srv srv_udp.
Proof.
  split.
  - apply Z.leb_le. by vm_compute.
  - apply Z.eqb_neq. by vm_compute.
  - by vm_compute.
  - by vm_compute.
  - done.
Qed.

Lemma udp_input_delivers_witness : exists s', datagram [] [] rx rx_ip [] host_srv s' /\
  udp_input rx 0x100 host_srv = udp_recv_fn 0x8000 1 srv rx demo_ip 1234 s'.
Proof.
  destruct net_srv_ok as (I0 & L0 & _ & Ls0).
  destruct (processing_ok dgram net_srv [srv] I0 (proj2 net_srv_udps) L0 Ls0) as (Hp & L & Ls).
  assert (header_ok host_srv rx_ip) as Hh by (split; [apply Z.leb_le; by vm_compute|left; apply Z.leb_le; by vm_compute]).
  assert (netifs host_srv !! 0x100 = Some demo_netif) as En by (vm_compute; reflexivity).
  assert (src_port host_srv rx_ip = 1234) as Ep by (vm_compute; reflexivity).
  destruct (udp_input_delivers [] [] rx rx_ip [] 0x100 demo_netif [srv] srv srv_udp host_srv Hp Hh En Ls L ltac:(done) host_srv_delivers)
    as (s' & D & E).
  exists s'. rewrite Ep in E. exact (conj D E).
Defined.

Lemma udp_bind_exclusive_witness : exists port s', udp_bind srv 0 0 net_srv = Some (ERR_OK, s') /\
  0xc000 <= port <= 0xffff /\ exclusive_ports (ips s') [srv] /\
  exists n, udps (ips s') !! srv = Some (set_u_next n (set_u_local_port port srv_udp)).
Proof.
  assert (in_u 32 0 /\ in_u 16 0) as [H32 H16] by done.
  assert (Z.of_nat (length [srv]) < 0x4000) as Hl by done.
  destruct net_srv_ok as (I & L & _). destruct net_srv_udps as [E _].
  assert (udps (ips net_srv) !! srv = Some srv_udp) as Eu by (rewrite E; apply lookup_singleton_eq).
  assert (exclusive_ports (ips net_srv) [srv]) as Ex.
  { intros a c u v ->%list_elem_of_singleton ->%list_elem_of_singleton Hn. by destruct Hn. }
  destruct (udp_bind_exclusive [rx] [] srv 0 0 [srv] srv_udp net_srv I Eu L Hl H32 H16 Ex)
    as [[(a & u & Ha & Hn & _) _]|(_ & port & s' & Er & [_ _ _ Hu _ _] & _ & Hp & Ex')].
  - apply list_elem_of_singleton in Ha. exact (False_ind _ (Hn Ha)).
  - exists port, s'. exact (conj Er (conj (Hp eq_refl) (conj Ex' Hu))).
Defined.

End Udp.
