(* ===== verification/UdpApi.v ===== *)
(** * The interface of UDP to its users

    udp.h: any sequence of the calls that make, bind, connect, disconnect, set up
    and remove UDP pcbs, as an inductive step relation, with the invariant that
    the functions of udp.c rely on when a datagram arrives. *)
From S2P Require Import Prelude Alloc Pbuf PbufData Chksum IpAddr Refs Net Etharp Wire ArpCache Netif Plist Packet IpOut Pcbs Icmp Raw Udp.
Import Alloc Pbuf PbufData Refs Net Etharp Wire ArpCache Netif Plist Packet IpOut Pcbs Icmp Raw Udp.

Module UdpApi.
Local Open Scope net_scope.

Inductive udp_call :=
  | UdpNew
  | UdpBind (pcb ip port : Z)
  | UdpConnect (pcb ip port : Z)
  | UdpDisconnect (pcb : Z)
  | UdpRecv (pcb recv recv_arg : Z)
  | UdpRemove (pcb : Z).

Section Calls.
Context {A W : Type} {ops : alloc_ops A} {laws : alloc_laws A} {lops : link_ops A W} {llaws : link_laws A W}.
Implicit Types s : net A W.

(** The call, with the value it returns if it returns one. *)
Definition udp_do (c : udp_call) : M A W Z :=
  match c with
  | UdpNew => udp_new
  | UdpBind pcb ip port => udp_bind pcb ip port
  | UdpConnect pcb ip port => udp_connect pcb ip port
  | UdpDisconnect pcb => udp_disconnect pcb ;; ret ERR_OK
  | UdpRecv pcb recv recv_arg => udp_recv pcb recv recv_arg ;; ret ERR_OK
  | UdpRemove pcb => udp_remove pcb ;; ret ERR_OK
  end.

(** What the user answers for: the pcb is one that [udp_new] gave and that was not
    removed since, and addresses and ports have the width of their types.  There
    are fewer pcbs than ports to choose from. *)
Definition call_ok (i : ipstate) (c : udp_call) : Prop :=
  match c with
  | UdpNew => True
  | UdpBind pcb ip port | UdpConnect pcb ip port =>
      is_Some (udps i !! pcb) /\ in_u 32 ip /\ in_u 16 port /\ Z.of_nat (size (udps i)) < 0x4000
  | UdpDisconnect pcb | UdpRecv pcb _ _ => is_Some (udps i !! pcb)
  | UdpRemove pcb => is_Some (udps i !! pcb) /\ forall d, dhcps i !! d ≠ Some pcb
  end.

(** What a call in state [i] may return. *)
Definition call_result (i : ipstate) (c : udp_call) (x : Z) : Prop :=
  match c with
  | UdpNew => x = 0 \/ udps i !! x = None
  | UdpBind pcb ip port =>
      exists l, pcb_list (X := udp_pcb) i l /\ (x = ERR_USE /\ in_way i pcb ip port l \/ x = ERR_OK /\ ~ in_way i pcb ip port l)
  | _ => x = ERR_OK
  end.

(** The pcbs with a local port are those of the list, and no two of them are in
    each other's way. *)
Record bound_list (i : ipstate) (l : list Z) : Prop := {
  bl_list : pcb_list (X := udp_pcb) i l;
  bl_bound a u : udps i !! a = Some u -> (a ∈ l <-> u_local_port u ≠ 0);
  bl_excl : exclusive_ports i l }.

Record udp_state extra R s : Prop := {
  us_inv : net_inv s extra R;
  us_list : exists l, bound_list (ips s) l }.

(** States that some calls lead to. *)
Inductive udp_steps (s : net A W) : net A W -> Prop :=
  | udp_done : udp_steps s s
  | udp_more c x s1 s2 : udp_steps s s1 -> call_ok (ips s1) c -> udp_do c s1 = Some (x, s2) -> udp_steps s s2.

(** ** Every call keeps the invariant *)

(** A change of one pcb that leaves its local address and port alone. *)
Lemma bound_list_field i i' l pcb u u' : bound_list i l -> udps i !! pcb = Some u -> udps i' !! pcb = Some u' ->
  (forall a, a ≠ pcb -> udps i' !! a = udps i !! a) -> u_local_ip u' = u_local_ip u -> u_local_port u' = u_local_port u ->
  pcb_list (X := udp_pcb) i' l -> bound_list i' l.
Proof.
  intros [L B Ex] E E' Ho Hip Hp L'. split; [exact L'| |].
  - intros a v Ev. destruct (decide (a = pcb)) as [->|Ha].
    + assert (v = u') as -> by congruence. rewrite Hp. by apply B.
    + apply B. by rewrite <-Ho.
  - intros a c v w Ha Hc Hac Ev Ew.
    assert (forall x y, udps i' !! x = Some y -> exists z, udps i !! x = Some z /\ u_local_ip y = u_local_ip z /\ u_local_port y = u_local_port z) as Hback.
    { intros x y Ey. destruct (decide (x = pcb)) as [->|Hx]; [exists u; assert (y = u') as -> by congruence; by split_and!|].
      exists y. by rewrite <-Ho. }
    destruct (Hback a v Ev) as (v0 & Ev0 & Hv1 & Hv2), (Hback c w Ew) as (w0 & Ew0 & Hw1 & Hw2).
    unfold clash. rewrite Hv1, Hv2, Hw1, Hw2. by apply (Ex a c).
Qed.

(** The pcb has got a port and is in the list. *)
Lemma bound_list_push i i' l pcb u : bound_list i l -> udps i' !! pcb = Some u -> u_local_port u ≠ 0 ->
  (forall a, a ≠ pcb -> udps i' !! a = udps i !! a) -> pcb_list (X := udp_pcb) i' (if bool_decide (pcb ∈ l) then l else pcb :: l) ->
  exclusive_ports i' (if bool_decide (pcb ∈ l) then l else pcb :: l) ->
  bound_list i' (if bool_decide (pcb ∈ l) then l else pcb :: l).
Proof.
  intros [L B Ex] E Hz Ho L' Ex'. split; [exact L'| |exact Ex'].
  intros a v Ev. rewrite elem_pushed. destruct (decide (a = pcb)) as [->|Ha].
  - assert (v = u) as -> by congruence. naive_solver.
  - rewrite Ho in Ev by done. rewrite <-(B a v Ev). naive_solver.
Qed.

Lemma bound_length i l : bound_list i l -> Z.of_nat (size (udps i)) < 0x4000 -> Z.of_nat (length l) < 0x4000.
Proof. intros [L _ _] H. pose proof (plist_size _ _ _ _ L) as Hs. cbn in Hs. lia. Qed.

(** A listed pcb has a port: none is in the way of port 0. *)
Lemma not_in_way_0 i l pcb ip : bound_list i l -> ~ in_way i pcb ip 0 l.
Proof.
  intros [_ B _] (a & u & Ha & _ & Eu & Hc). apply andb_true_iff in Hc as [Hp%Z.eqb_eq _]. by apply (B a u Eu) in Ha.
Qed.

Lemma connected_exclusive i l pcb u u' i' : bound_list i l -> udps i !! pcb = Some u -> udps i' !! pcb = Some u' ->
  (forall a, a ≠ pcb -> udps i' !! a = udps i !! a) -> u_local_ip u' = u_local_ip u ->
  (u_local_port u ≠ 0 -> u_local_port u' = u_local_port u) -> (u_local_port u = 0 -> u_local_port u' ∉ ports i l) ->
  exclusive_ports i' (if bool_decide (pcb ∈ l) then l else pcb :: l).
Proof.
  intros [_ B Ex] E E' Ho Hip Hp Hf. eapply exclusive_push; [exact Ex|exact E'|exact Ho| |].
  - intros a Ha Hne. apply elem_pushed in Ha. naive_solver.
  - intros c v Hc Hne Ev. destruct (Z.eq_dec (u_local_port u) 0) as [Hz|Hz]; [by eapply free_no_clash; [apply Hf| |]|].
    rewrite Hip, (Hp Hz). apply (Ex pcb c); try done. by apply (B pcb u E).
Qed.

Lemma disconnect_ok u : udp_ok u ->
  udp_ok (set_u_flags (Z.land (u_flags u) (Z.lnot UDP_FLAGS_CONNECTED)) (set_u_remote_port 0 (set_u_remote_ip 0 u))).
Proof.
  intros (? & ? & ? & ? & Hf & ? & ?). unfold udp_ok. split_and!; try done. cbn [u_flags set_u_flags]. unfold in_u in *.
  assert (Z.land (u_flags u) (Z.lnot UDP_FLAGS_CONNECTED) = Z.land (u_flags u) (Z.lnot UDP_FLAGS_CONNECTED) mod 2 ^ 8) as ->;
    [|apply Z.mod_pos_bound; lia].
  rewrite <-Z.land_ones by lia. rewrite <-Z.land_assoc, (Z.land_comm (Z.lnot _)), Z.land_assoc, Z.land_ones, Z.mod_small by lia. done.
Qed.

(** One write of a field other than the link, the local address or the port. *)
Lemma wp_udp_field extra R pcb u l f Q s : net_inv s extra R -> bound_list (ips s) l -> udps (ips s) !! pcb = Some u ->
  u_next (f u) = u_next u -> u_local_ip (f u) = u_local_ip u -> u_local_port (f u) = u_local_port u -> udp_ok (f u) ->
  (forall s', net_inv s' extra R -> calm extra s s' -> bound_list (ips s') l -> udps (ips s') !! pcb = Some (f u) ->
    size (udps (ips s')) = size (udps (ips s)) -> Q tt s') ->
  wp (upd_pcb pcb f) Q s.
Proof.
  intros I B E Hn Hip Hp Hok HQ. eapply (wp_set_field (k := udp_kind) pcb u f extra R); [exact I|exact E|exact Hn|exact Hok|].
  intros s' Hs I' L'. assert (udps (ips s') = <[pcb := f u]> (udps (ips s))) as Em by (by rewrite Hs).
  assert (udps (ips s') !! pcb = Some (f u)) as E' by (rewrite Em; apply lookup_insert_eq).
  apply HQ; [done| | |done|by rewrite Em, map_size_insert_Some].
  - rewrite Hs. split; try done. apply same_packets_refl.
  - eapply (bound_list_field (ips s)); [exact B|exact E|exact E'| |done|done|apply L', B].
    intros a Ha. rewrite Em. by apply lookup_insert_ne.
Qed.

Lemma wp_disconnect extra R pcb u l Q s : net_inv s extra R -> bound_list (ips s) l -> udps (ips s) !! pcb = Some u ->
  (forall s', net_inv s' extra R -> calm extra s s' -> bound_list (ips s') l -> Q tt s') -> wp (udp_disconnect pcb) Q s.
Proof.
  intros I B E HQ. unfold udp_disconnect. destruct (pcbs_ok (k := udp_kind) _ (ni_ips _ _ _ I)) as (Hok & _).
  pose proof (disconnect_ok u (Hok pcb u E)) as (? & ? & ? & ? & Hf & ? & ?). pose proof (Hok pcb u E) as (_ & _ & _ & _ & Hf0 & _ & Hp0).
  apply wp_bind. eapply (wp_udp_field extra R pcb u l); [done|done|exact E|done|done|done|by split_and!|].
  intros s1 I1 C1 B1 E1 _. apply wp_bind. eapply (wp_udp_field extra R pcb _ l); [done|done|exact E1|done|done|done|by split_and!|].
  intros s2 I2 C2 B2 E2 _. eapply (wp_udp_field extra R pcb _ l); [done|done|exact E2|done|done|done|by split_and!|].
  intros s3 I3 C3 B3 _ _. apply HQ; [done| |done]. eapply calm_trans; [exact C1|]. by eapply calm_trans.
Qed.

Lemma bound_list_remove i i' l pcb : bound_list i l -> pcb_list (X := udp_pcb) i' (filter (fun a => a ≠ pcb) l) ->
  udps i' !! pcb = None -> relinked (udps i) (udps i') -> bound_list i' (filter (fun a => a ≠ pcb) l).
Proof.
  intros [L B Ex] L' En Rl.
  assert (forall a x', udps i' !! a = Some x' -> exists x, udps i !! a = Some x /\ u_local_ip x' = u_local_ip x /\ u_local_port x' = u_local_port x) as Hb.
  { intros a x' E'. destruct (Rl a x' E') as (x & E & F). exists x. split; [done|]. by split; apply F. }
  split; [exact L'| |].
  - intros a x' E'. destruct (Hb a x' E') as (x & E & _ & ->). rewrite <-(B a x E), list_elem_of_filter. naive_solver congruence.
  - intros a c v' w' [_ Ha]%list_elem_of_filter [_ Hc]%list_elem_of_filter Hac Ev Ew.
    destruct (Hb a v' Ev) as (v & Ev0 & Hv1 & Hv2), (Hb c w' Ew) as (w & Ew0 & Hw1 & Hw2).
    unfold clash. rewrite Hv1, Hv2, Hw1, Hw2. by apply (Ex a c).
Qed.

Lemma bound_list_new i i' l pcb : bound_list i l -> pcb ≠ 0 -> udps i !! pcb = None -> udps i' = <[pcb := new_udp]> (udps i) ->
  pcb_list (X := udp_pcb) i' l -> bound_list i' l.
Proof.
  intros [L B Ex] Hz Hn Em L'.
  assert (pcb ∉ l) as Hnl. { intros Hin. destruct (plist_elem _ _ _ _ pcb L Hin) as (_ & x & Ex'). cbn in Ex'. congruence. }
  assert (forall a, a ≠ pcb -> udps i' !! a = udps i !! a) as Ho by (intros; rewrite Em; by apply lookup_insert_ne).
  split; [exact L'| |].
  - intros a u Eu. destruct (decide (a = pcb)) as [->|Ha]; [|rewrite Ho in Eu by done; by apply B].
    rewrite Em, lookup_insert_eq in Eu. injection Eu as <-. split; [done|]. intros Hp. by destruct Hp.
  - intros a c v w Ha Hc Hac Ev Ew. rewrite Ho in Ev, Ew by congruence. by apply (Ex a c).
Qed.

Lemma wp_udp_do extra R c s : udp_state extra R s -> call_ok (ips s) c ->
  wp (udp_do c) (fun x s' => udp_state extra R s' /\ calm extra s s' /\ call_result (ips s) c x) s.
Proof.
  intros [I (l & B)] Hc. pose proof B as [L Bb Ex]. destruct c as [|pcb ip port|pcb ip port|pcb|pcb f arg|pcb]; cbn [udp_do call_ok call_result] in *.
  - eapply wp_udp_new; [exact I|exact L| |].
    + intros s' I' F'. split; [split; [done|]|split; [by apply frame_calm|by left]].
      exists l. by rewrite (fr_ips _ _ _ F').
    + intros pcb s' Hz Hn I' C' Em L'. split; [split; [done|]|split; [done|by right]]. exists l. by eapply bound_list_new.
  - destruct Hc as ([u E] & Hip & Hp & Hs). pose proof (bound_length _ _ B Hs) as Hl.
    eapply wp_udp_bind; [exact I|exact E|exact L|exact Hl|done|done| |].
    + intros Hw. split; [by split; [|exists l]|]. split; [apply calm_refl|]. exists l. split; [done|]. by left.
    + intros port' s' Hw Hne Hz Hb. split; [|split; [apply Hb|exists l; split; [done|by right]]].
      split; [apply Hb|]. eexists. destruct (bt_udp _ _ _ _ _ _ _ _ _ Hb) as (n & E').
      eapply bound_list_push; [exact B|exact E'| |apply Hb|apply Hb|].
      * cbn [u_local_port set_u_next set_u_local_port]. destruct (Z.eq_dec port 0) as [H0|H0]; [|by rewrite Hne].
        destruct (Hz H0) as [Hr _]. unfold UDP_LOCAL_PORT_RANGE_START in Hr. lia.
      * eapply bound_exclusive; [exact Ex|exact Hw|exact Hne|by intros H0; apply Hz|exact Hb].
  - destruct Hc as ([u E] & Hip & Hp & Hs). pose proof (bound_length _ _ B Hs) as Hl.
    eapply wp_udp_connect; [exact I|exact E|exact L|exact Hl|done|done| |].
    + intros _ Hw. by destruct (not_in_way_0 _ _ _ _ B Hw).
    + intros s' [I' C' (n & port' & E' & Hz & Hsame & Hfree) Ho L']. split; [split; [done|]|by split]. eexists.
      eapply bound_list_push; [exact B|exact E'|done|exact Ho|exact L'|].
      eapply connected_exclusive; [exact B|exact E|exact E'|exact Ho|done|exact Hsame|exact Hfree].
  - destruct Hc as [u E]. apply wp_bind. eapply wp_disconnect; [exact I|exact B|exact E|]. intros s' I' C' B'. apply wp_ret.
    split; [by split; [|exists l]|by split].
  - destruct Hc as [u E]. apply wp_bind. destruct (pcbs_ok (k := udp_kind) _ (ni_ips _ _ _ I)) as (Hok & _).
    eapply (wp_udp_field extra R pcb u l); [exact I|exact B|exact E|done|done|done|exact (Hok pcb u E)|]. intros s' I' C' B' _ _. apply wp_ret.
    split; [by split; [|exists l]|by split].
  - destruct Hc as [[u E] Hd]. apply wp_bind. eapply wp_udp_remove; [exact I|exact E|exact L|exact Hd|]. intros s' I' C' L' En Rl. apply wp_ret.
    split; [split; [done|]|by split]. eexists. by eapply bound_list_remove.
Qed.

Lemma udp_steps_state extra R s s' : udp_state extra R s -> udp_steps s s' -> udp_state extra R s' /\ calm extra s s'.
Proof.
  intros U. induction 1 as [|c x s1 s2 _ [U1 C1] Hc E]; [split; [done|apply calm_refl]|].
  pose proof (wp_udp_do extra R c s1 U1 Hc) as H. unfold wp in H. rewrite E in H. destruct H as (U2 & C2 & _). split; [done|].
  by eapply calm_trans.
Qed.

(** C7: Whatever calls of udp.h its users make, in any order, the state stays
    well-formed: the pcbs with a local port are exactly those of the list that
    [udp_input] searches, no two of them are in each other's way, their memory
    is their own and every field is within its type; no packet or interface is touched;
    and every further call returns, with the result that its comment promises:
    [udp_connect] always succeeds and [udp_bind] fails exactly if another pcb
    of the list is in the way. *)
Theorem udp_api_invariant extra R s s' : udp_state extra R s -> udp_steps s s' ->
  udp_state extra R s' /\ calm extra s s' /\
  forall c, call_ok (ips s') c -> exists x s'', udp_do c s' = Some (x, s'') /\ call_result (ips s') c x.
Proof.
  intros U St. destruct (udp_steps_state extra R s s' U St) as [U' C']. split; [done|]. split; [done|].
  intros c Hc. destruct (wp_run _ _ _ (wp_udp_do extra R c s' U' Hc)) as (x & s'' & E & _ & _ & Hr). by exists x, s''.
Qed.

End Calls.

(** ** Example *)

(** A second pcb of the host with the server on port 7 is made, asks for the same
    port, then connects to port 53 of another host; the first one goes away. *)
Definition pcb2 : Z := Eval vm_compute in default 0 (fst <$> udp_new net_srv).
Definition trace : list udp_call :=
  [UdpNew; UdpBind pcb2 0 7; UdpConnect pcb2 demo_ip 53; UdpDisconnect pcb2; UdpRecv pcb2 0x9000 0; UdpRemove srv].

Fixpoint run_calls {A W : Type} {ops : alloc_ops A} (cs : list udp_call) : M A W (list Z) :=
  match cs with
  | [] => ret []
  | c :: cs => x <- udp_do c ;; xs <- run_calls cs ;; ret (x :: xs)
  end.

(** [call_ok], decided. *)
Definition call_okb (i : ipstate) (c : udp_call) : bool :=
  match c with
  | UdpNew => true
  | UdpBind pcb ip port | UdpConnect pcb ip port =>
      bool_decide (is_Some (udps i !! pcb)) && (0 <=? ip) && (ip <? 2 ^ 32) && (0 <=? port) && (port <? 2 ^ 16) &&
      (Z.of_nat (size (udps i)) <? 0x4000)
  | UdpDisconnect pcb | UdpRecv pcb _ _ => bool_decide (is_Some (udps i !! pcb))
  | UdpRemove pcb => bool_decide (is_Some (udps i !! pcb)) && forallb (fun d => negb (d.2 =? pcb)) (map_to_list (dhcps i))
  end.

Lemma call_okb_ok i c : call_okb i c = true -> call_ok i c.
Proof.
  destruct c; cbn [call_okb call_ok]; try done; rewrite ?andb_true_iff, ?bool_decide_eq_true, ?Z.leb_le, ?Z.ltb_lt; unfold in_u;
    try tauto.
  intros [E Hf]. split; [done|]. intros d Ed. rewrite forallb_forall in Hf. specialize (Hf (d, pcb)). cbn [snd] in Hf.
  rewrite Z.eqb_refl in Hf. by discriminate Hf; apply list_elem_of_In, elem_of_map_to_list.
Qed.

Fixpoint trace_ok (cs : list udp_call) (s : net lwip_mem wire) : bool :=
  match cs with
  | [] => true
  | c :: cs => call_okb (ips s) c && match udp_do c s with Some (_, s') => trace_ok cs s' | None => false end
  end.

Lemma trace_steps cs : forall s0 s xs s', udp_steps s0 s -> trace_ok cs s = true -> run_calls cs s = Some (xs, s') -> udp_steps s0 s'.
Proof.
  induction cs as [|c cs IH]; intros s0 s xs s' St; cbn [trace_ok run_calls]; [by intros _ [= _ <-]|].
  intros [Hc Ht]%andb_true_iff. unfold bind. destruct (udp_do c s) as [[x s1]|] eqn:E; [|done].
  destruct (run_calls cs s1) as [[ys s2]|] eqn:E2; [|done]. cbn [mbind option_bind]. intros [= _ <-].
  eapply IH; [|exact Ht|exact E2]. eapply udp_more; [exact St|by apply call_okb_ok|exact E].
Qed.

Lemma net_srv_state : udp_state [rx] [] net_srv.
Proof.
  destruct net_srv_ok as (I & L & _). destruct net_srv_udps as [E _]. split; [done|]. exists [srv]. split; [exact L| |].
  - intros a u. rewrite E. intros [<- <-]%lookup_singleton_Some. split; [done|]. intros _. by left.
  - intros a c u v ->%list_elem_of_singleton ->%list_elem_of_singleton Hn. by destruct Hn.
Qed.

Definition after_trace : option (list Z * net lwip_mem wire) := run_calls trace net_srv.

Lemma udp_api_invariant_witness : exists s', after_trace = Some ([pcb2; ERR_USE; ERR_OK; ERR_OK; ERR_OK; ERR_OK], s') /\
  udp_state [rx] [] s' /\ exists x s'', udp_do (UdpBind pcb2 0 7) s' = Some (x, s'').
Proof.
  assert (trace_ok trace net_srv = true) as Ht by (vm_compute; reflexivity).
  assert (fst <$> after_trace = Some [pcb2; ERR_USE; ERR_OK; ERR_OK; ERR_OK; ERR_OK]) as Hx by (vm_compute; reflexivity).
  assert ((fun r => call_okb (ips r.2) (UdpBind pcb2 0 7)) <$> after_trace = Some true) as Hc by (vm_compute; reflexivity).
  destruct after_trace as [[xs s']|] eqn:E; [|discriminate Hx].
  cbn [fmap option_fmap option_map fst snd] in Hx, Hc. apply Some_inj in Hx, Hc. subst xs.
  destruct (udp_api_invariant [rx] [] net_srv s' net_srv_state (trace_steps trace net_srv net_srv _ s' (udp_done net_srv) Ht E))
    as (U & _ & Hcall).
  destruct (Hcall (UdpBind pcb2 0 7) (call_okb_ok _ _ Hc)) as (x & s'' & Ex & _).
  exists s'. split; [reflexivity|]. split; [exact U|]. exists x, s''. exact Ex.
Defined.

End UdpApi.
