(* ===== verification/Ip.v ===== *)
(** * IP input

    [ip_input] of ip.c: is the packet sound, is it for this host, and which
    protocol gets it.  IP_FORWARD, IP_REASSEMBLY, LWIP_IGMP and CHECKSUM_CHECK_IP
    are 0, IP_OPTIONS_ALLOWED, LWIP_AUTOIP and LWIP_DHCP are 1. *)
From S2P Require Import Prelude Alloc Pbuf PbufData Chksum IpAddr Refs Net Etharp Wire ArpCache Netif Plist Packet IpOut Pcbs Icmp Raw Udp.
Import Alloc Pbuf PbufData Refs Net Etharp Wire ArpCache Netif Plist Packet IpOut Pcbs Icmp Raw Udp.

Module Ip.
Local Open Scope net_scope.

Definition IP_MF : Z := 0x2000.
Definition IP_OFFMASK : Z := 0x1fff.
(** [IPH_V(iphdr)] *)
Definition IPH_V (v_hl : list Z) : Z := Z.shiftr (byte1 v_hl) 4.

(** ** Operations *)

Section Operations.
Context {A W : Type} {ops : alloc_ops A} {lops : link_ops A W} {aops : app_ops A W}.

(** The conditions in the loop over the interfaces. *)
Definition accepts (n : Z) : M A W bool :=
  nif <- the_netif n ;;
  i <- the_ips ;;
  if netif_is_up nif && negb (ip_addr_isany (ip_addr nif)) then
    if (current_iphdr_dest i =? ip_addr nif) || ip_addr_isbroadcast (current_iphdr_dest i) nif then ret true
    else if negb (n_autoip nif =? 0) then
      a <- gets (fun s => autoips s !! n_autoip nif) ;;
      ret (current_iphdr_dest i =? llipaddr a)
    else ret false
  else ret false.

(** The loop, once it walks the list; [inp] has been tried. *)
Fixpoint accept_loop (inp : Z) (l : list Z) : M A W Z :=
  match l with
  | [] => ret 0
  | n :: l =>
      if n =? inp then accept_loop inp l
      else
        ok <- accepts n ;;
        if ok : bool then ret n else accept_loop inp l
  end.

(** The interface the packet is for, or NULL. *)
Definition ip_accept (inp : Z) : M A W Z :=
  ok <- accepts inp ;;
  if ok : bool then ret inp
  else
    l <- gets (fun s => Some (netif_list s)) ;;
    accept_loop inp l.

(** A UDP packet to the port of the DHCP client. *)
Definition dhcp_message (p iphdr hlen : Z) : M A W bool :=
  proto <- peek p (iphdr + 9) 1 ;;
  if byte1 proto =? IP_PROTO_UDP then
    dest <- peek p (iphdr + hlen + 2) 2 ;;
    ret (le16 dest =? PP_HTONS DHCP_CLIENT_PORT)
  else ret false.

(** The default case of the switch. *)
Definition ip_unknown (p iphdr inp : Z) : M A W unit :=
  i <- the_ips ;;
  nif <- the_netif inp ;;
  when (negb (ip_addr_isbroadcast (current_iphdr_dest i) nif) && negb (ip_addr_ismulticast (current_iphdr_dest i)))
    (pbufs_ (upd p (set_payload iphdr)) ;;
     icmp_dest_unreach p ICMP_DUR_PROTO) ;;
  drop_packet p ;;
  inc_stat ip_proterr ;;
  inc_stat ip_drop.

(** From the assignment to [current_netif] to the end of the function. *)
Definition ip_deliver (p iphdr inp : Z) : M A W Z :=
  set_ips (fun i => set_current inp iphdr (current_iphdr_src i) (current_iphdr_dest i) i) ;;
  eaten <- raw_input p inp ;;
  when (eaten =? 0)
    (proto <- peek p (iphdr + 9) 1 ;;
     if byte1 proto =? IP_PROTO_UDP then udp_input p inp
     else if byte1 proto =? IP_PROTO_TCP then tcp_input p inp
     else if byte1 proto =? IP_PROTO_ICMP then icmp_input p inp
     else ip_unknown p iphdr inp) ;;
  set_ips (set_current 0 0 0 0) ;;
  ret ERR_OK.

(** From the match against the interfaces on. *)
Definition ip_match (p iphdr hlen inp : Z) : M A W Z :=
  n <- ip_accept inp ;;
  dhcp <- (if n =? 0 then dhcp_message p iphdr hlen else ret false) ;;
  let n := if dhcp : bool then inp else n in
  let check_ip_src := negb dhcp in
  i <- the_ips ;;
  nif <- the_netif inp ;;
  if check_ip_src && negb (ip_addr_isany (current_iphdr_src i)) &&
     (ip_addr_isbroadcast (current_iphdr_src i) nif || ip_addr_ismulticast (current_iphdr_src i))
  then drop_packet p ;; inc_stat ip_drop ;; ret ERR_OK
  else if n =? 0 then drop_packet p ;; ret ERR_OK
  else
    offset <- peek p (iphdr + 6) 2 ;;
    if negb (Z.land (le16 offset) (PP_HTONS (Z.lor IP_OFFMASK IP_MF)) =? 0) then
      drop_packet p ;; inc_stat ip_opterr ;; inc_stat ip_drop ;; ret ERR_OK
    else ip_deliver p iphdr inp.

Definition ip_input (p inp : Z) : M A W Z :=
  inc_stat ip_recv ;;
  b <- the_pbuf p ;;
  let iphdr := payload b in
  v_hl <- peek p iphdr 1 ;;
  if negb (IPH_V v_hl =? 4) then drop_packet p ;; inc_stat ip_err ;; inc_stat ip_drop ;; ret ERR_OK
  else
    let iphdr_hlen := IPH_HL4 v_hl in
    l <- peek p (iphdr + 2) 2 ;;
    let iphdr_len := Chksum.lwip_htons (le16 l) in
    if (len b <? iphdr_hlen) || (tot_len b <? iphdr_len) then
      drop_packet p ;; inc_stat ip_lenerr ;; inc_stat ip_drop ;; ret ERR_OK
    else
      pbufs_ (pbuf_realloc p iphdr_len) ;;
      dest <- peek p (iphdr + 16) 4 ;;
      src <- peek p (iphdr + 12) 4 ;;
      set_ips (fun i => set_current (current_netif i) (current_header i) (le32 src) (le32 dest) i) ;;
      ip_match p iphdr iphdr_hlen inp.

End Operations.

(** ** Which packets are delivered *)

Section Verdict.
Context {A W : Type}.
Implicit Types s : net A W.

(** The interface takes packets to [dest]. *)
Definition acceptable s (dest n : Z) : bool :=
  match netifs s !! n with
  | Some nif => netif_is_up nif && negb (ip_addr_isany (ip_addr nif)) &&
      ((dest =? ip_addr nif) || ip_addr_isbroadcast dest nif ||
       match autoips s !! n_autoip nif with Some a => negb (n_autoip nif =? 0) && (dest =? llipaddr a) | None => false end)
  | None => false
  end.

(** The interface a packet to [dest] is for: the one it came in on, or else the
    first of the list. *)
Definition accepted s (dest inp : Z) : Z :=
  if acceptable s dest inp then inp
  else default 0 (head (filter (fun n => n ≠ inp /\ acceptable s dest n = true) (netif_list s))).

(** The fields of the header. *)
Definition field s (b : pbuf) (off n : Z) : list Z := read_bytes (bytes (ps s)) (payload b + off) n.
Definition ip_version s b : Z := IPH_V (read_bytes (bytes (ps s)) (payload b) 1).
Definition ip_total s b : Z := Chksum.lwip_htons (le16 (field s b 2 2)).
Definition ip_proto s b : Z := byte1 (field s b 9 1).
Definition ip_src s b : Z := le32 (field s b 12 4).
Definition ip_dest s b : Z := le32 (field s b 16 4).

Definition is_dhcp s b (inp : Z) : bool :=
  (accepted s (ip_dest s b) inp =? 0) && (ip_proto s b =? IP_PROTO_UDP) &&
  (le16 (field s b (hlen_of s b + 2) 2) =? PP_HTONS DHCP_CLIENT_PORT).

(** A source that cannot be: all hosts or a group. *)
Definition bad_source s b (nif : netif) : bool :=
  negb (ip_addr_isany (ip_src s b)) && (ip_addr_isbroadcast (ip_src s b) nif || ip_addr_ismulticast (ip_src s b)).

Definition for_us s b (inp : Z) (nif : netif) : bool :=
  if is_dhcp s b inp then negb (inp =? 0) else negb (bad_source s b nif) && negb (accepted s (ip_dest s b) inp =? 0).

Definition whole s b : bool := Z.land (le16 (field s b 6 2)) (PP_HTONS (Z.lor IP_OFFMASK IP_MF)) =? 0.

Definition sound s b : bool := (ip_version s b =? 4) && (hlen_of s b <=? len b) && (ip_total s b <=? tot_len b).

Definition delivered s b (inp : Z) (nif : netif) : bool := sound s b && for_us s b inp nif && whole s b.

End Verdict.

(** ** Correctness *)

Section Correct.
Context {A W : Type} {ops : alloc_ops A} {laws : alloc_laws A} {lops : link_ops A W} {llaws : link_laws A W}
  {aops : app_ops A W} {alaws : app_laws A W}.
Implicit Types s : net A W.

Lemma accepts_run n s : clients_ok s -> is_Some (netifs s !! n) ->
  accepts n s = Some (acceptable s (current_iphdr_dest (ips s)) n, s).
Proof.
  intros C [nif En]. unfold accepts, acceptable. rewrite En. unfold the_netif, the_ips, bind, gets. rewrite En.
  cbn [mbind option_bind]. destruct (netif_is_up nif && negb (ip_addr_isany (ip_addr nif))); [|done]. cbn [andb].
  destruct (_ || _) eqn:Hb; cbn [orb]; [done|]. destruct (Z.eqb_spec (n_autoip nif) 0) as [Hz|Hz]; cbn [negb andb].
  - by destruct (autoips s !! n_autoip nif).
  - destruct (co_client _ C n nif En Hz) as (a & Ea & _). by rewrite Ea.
Qed.

Lemma accept_loop_run inp s : clients_ok s -> forall l, (forall n, n ∈ l -> is_Some (netifs s !! n)) ->
  accept_loop inp l s =
    Some (default 0 (head (filter (fun n => n ≠ inp /\ acceptable s (current_iphdr_dest (ips s)) n = true) l)), s).
Proof.
  intros C. induction l as [|n l IH]; intros Hl; [done|]. cbn [accept_loop].
  assert (forall m, m ∈ l -> is_Some (netifs s !! m)) as Hl' by (intros m Hm; apply Hl; by right).
  destruct (Z.eqb_spec n inp) as [->|Hne].
  - rewrite IH by done. rewrite filter_cons_False by (intros [Hn _]; by apply Hn). done.
  - rewrite (bind_run _ _ _ _ _ (accepts_run n s C (Hl n ltac:(by left)))).
    destruct (acceptable s (current_iphdr_dest (ips s)) n) eqn:Ha.
    + by rewrite filter_cons_True.
    + rewrite filter_cons_False by (intros [_ Hn]; congruence). by apply IH.
Qed.

Lemma ip_accept_run inp s : clients_ok s -> listed s -> is_Some (netifs s !! inp) ->
  ip_accept inp s = Some (accepted s (current_iphdr_dest (ips s)) inp, s).
Proof.
  intros C Ls Hn. unfold ip_accept, accepted. rewrite (bind_run _ _ _ _ _ (accepts_run inp s C Hn)).
  destruct (acceptable s (current_iphdr_dest (ips s)) inp); [done|]. cbn [bind gets]. unfold bind, gets. cbn [mbind option_bind].
  apply accept_loop_run; [done|]. intros n Hin. by apply Ls.
Qed.

(** The packet is dropped with its statistics. *)
Lemma wp_ip_drop extra R p b l s0 Q s : packet extra R p b l s -> frame extra s0 s ->
  (forall s', net_inv s' extra R -> frame extra s0 s' -> Q ERR_OK s') ->
  wp (drop_packet p ;; ret ERR_OK)%net Q s /\
  (forall k, wp (drop_packet p ;; inc_stat k ;; ret ERR_OK)%net Q s) /\
  (forall k k', wp (drop_packet p ;; inc_stat k ;; inc_stat k' ;; ret ERR_OK)%net Q s).
Proof.
  intros H F HQ.
  assert (forall m : M A W Z, (forall s', net_inv s' extra R -> frame extra s0 s' -> wp m Q s') -> wp (drop_packet p ;; m)%net Q s) as Hm.
  { intros m Hm. apply wp_bind. eapply wp_pk_drop; [exact H|]. intros s1 I1 F1 _. apply Hm; [done|by eapply frame_trans]. }
  assert (forall k (m : M A W Z), (forall s', net_inv s' extra R -> frame extra s0 s' -> wp m Q s') ->
    forall s', net_inv s' extra R -> frame extra s0 s' -> wp (inc_stat k ;; m)%net Q s') as Hk.
  { intros k m Hm' s1 I1 F1. apply wp_bind, wp_inc_stat. intros g. apply Hm'; [by apply inv_stats|by apply frame_stats]. }
  assert (forall s', net_inv s' extra R -> frame extra s0 s' -> wp (ret ERR_OK) Q s') as Hr by (intros s1 I1 F1; by apply wp_ret, HQ).
  split; [|split]; intros; apply Hm; auto.
Qed.

Lemma wp_ip_match extra R p b l inp nif Q s : ip_packet extra R p b l s -> clients_ok s -> listed s -> netifs s !! inp = Some nif ->
  current_iphdr_src (ips s) = ip_src s b -> current_iphdr_dest (ips s) = ip_dest s b ->
  (forall s', for_us s b inp nif && whole s b = false -> net_inv s' extra R -> frame extra s s' -> Q ERR_OK s') ->
  (for_us s b inp nif && whole s b = true -> wp (ip_deliver p (payload b) inp) Q s) ->
  wp (ip_match p (payload b) (hlen_of s b) inp) Q s.
Proof.
  intros H C Ls En Hs Hd HD HR. pose proof H as [Hp _ Hat _ _]. pose proof (ip_data_end _ _ _ _ _ _ H) as He.
  pose proof (hl4_range (read_bytes (bytes (ps s)) (payload b) 1)) as Hh60. fold (hlen_of s b) in Hh60.
  unfold ip_match. apply wp_bind. unfold wp at 1. rewrite ip_accept_run by done. rewrite Hd.
  set (n := accepted s (ip_dest s b) inp) in *. apply wp_bind.
  assert (wp (if n =? 0 then dhcp_message p (payload b) (hlen_of s b) else ret false) (fun d s' => d = is_dhcp s b inp /\ s' = s) s) as Hdh.
  { unfold is_dhcp. fold n. destruct (n =? 0); [|by apply wp_ret]. cbn [andb]. unfold dhcp_message.
    apply wp_bind. eapply wp_pk_peek; [exact Hp|lia|lia|]. change (byte1 _) with (ip_proto s b).
    destruct (ip_proto s b =? IP_PROTO_UDP); [|by apply wp_ret]. cbn [andb]. apply wp_bind. eapply wp_pk_peek; [exact Hp|lia|lia|].
    apply wp_ret. unfold field. by rewrite Z.add_assoc. }
  eapply wp_mono; [exact Hdh|]. clear Hdh. intros d s' [-> ->]. cbv zeta.
  apply wp_bind. eapply wp_gets; [done|]. apply wp_bind. eapply wp_the_netif; [exact En|]. rewrite Hs.
  rewrite <-andb_assoc. change (negb (ip_addr_isany (ip_src s b)) && _) with (bad_source s b nif).
  assert (forall s', for_us s b inp nif = false -> net_inv s' extra R -> frame extra s s' -> Q ERR_OK s') as HD'.
  { intros s' Hf. apply HD. by rewrite Hf. }
  assert (for_us s b inp nif = true -> wp (offset <- peek p (payload b + 6) 2 ;;
    if negb (Z.land (le16 offset) (PP_HTONS (Z.lor IP_OFFMASK IP_MF)) =? 0) then
      drop_packet p ;; inc_stat ip_opterr ;; inc_stat ip_drop ;; ret ERR_OK
    else ip_deliver p (payload b) inp)%net Q s) as Htail.
  { intros Hf. rewrite Hf in HD, HR. apply wp_bind. eapply wp_pk_peek; [exact Hp|lia|lia|].
    change (read_bytes _ (payload b + 6) 2) with (field s b 6 2). fold (whole s b).
    destruct (whole s b); cbn [negb andb] in *; [auto|].
    eapply (wp_ip_drop extra R p b l s); [exact Hp|apply frame_refl|]. intros s' I' F'. by apply HD. }
  unfold for_us in HD', Htail. fold n in HD', Htail. destruct (is_dhcp s b inp); cbn [negb andb]; [|destruct (bad_source s b nif)]; cbn [negb andb] in *.
  - destruct (Z.eqb_spec inp 0); cbn [negb] in *; [|auto]. eapply (wp_ip_drop extra R p b l s); [exact Hp|apply frame_refl|auto].
  - eapply (wp_ip_drop extra R p b l s); [exact Hp|apply frame_refl|auto].
  - destruct (Z.eqb_spec n 0); cbn [negb] in *; [|auto]. eapply (wp_ip_drop extra R p b l s); [exact Hp|apply frame_refl|auto].
Qed.

(** The packet as the protocols get it: cut to the length in its header. *)
Record entered extra R (p : Z) (b : pbuf) (l : list (Z * pbuf)) (b' : pbuf) (l' : list (Z * pbuf)) s s' : Prop := {
  en_packet : ip_packet extra R p b' l' s';
  en_tot : tot_len b' = ip_total s b;
  en_len : len b' = tot_len b' \/ len b' = len b;
  en_bytes : bytes (ps s') = bytes (ps s);
  en_contents m : contents m ((p, b') :: l') = take (Z.to_nat (ip_total s b)) (contents m ((p, b) :: l));
  en_ips : ips s' = set_current (current_netif (ips s)) (current_header (ips s)) (ip_src s b) (ip_dest s b) (ips s);
  en_calm : calm extra s s';
  en_table : same_table s s' }.

Lemma entered_field extra R p b l b' l' s s' off n : ip_packet extra R p b l s -> entered extra R p b l b' l' s s' ->
  field s' b' off n = field s b off n.
Proof.
  intros [_ _ Hat _ _] [[_ _ Hat' _ _] _ _ Hb _ _ _ _]. unfold field. by rewrite Hb, Hat, Hat'.
Qed.

Lemma entered_hlen extra R p b l b' l' s s' : ip_packet extra R p b l s -> entered extra R p b l b' l' s s' ->
  hlen_of s' b' = hlen_of s b.
Proof. intros [_ _ Hat _ _] [[_ _ Hat' _ _] _ _ Hb _ _ _ _]. unfold hlen_of. by rewrite Hb, Hat, Hat'. Qed.

Lemma entered_for_us extra R p b l b' l' s s' inp nif : ip_packet extra R p b l s -> entered extra R p b l b' l' s s' ->
  for_us s' b' inp nif = for_us s b inp nif /\ whole s' b' = whole s b.
Proof.
  intros H E. pose proof E as [_ _ _ _ _ _ [Hn Hl _ _ Ha _ _] _].
  assert (forall d, accepted s' d inp = accepted s d inp) as Hac.
  { intros d. unfold accepted, acceptable. by rewrite Hn, Hl, Ha. }
  unfold for_us, whole, is_dhcp, bad_source, ip_dest, ip_src, ip_proto.
  by rewrite !(entered_field _ _ _ _ _ _ _ _ _ _ _ H E), (entered_hlen _ _ _ _ _ _ _ _ _ H E), Hac.
Qed.

Lemma entered_header extra R p b l b' l' s s' : ip_packet extra R p b l s -> entered extra R p b l b' l' s s' ->
  20 <= hlen_of s b <= len b -> header_ok s' b'.
Proof.
  intros H E Hh. split; rewrite (entered_hlen _ _ _ _ _ _ _ _ _ H E); [lia|]. destruct (en_len _ _ _ _ _ _ _ _ _ E); lia.
Qed.

Lemma htons_nonneg x : 0 <= Chksum.lwip_htons x.
Proof.
  unfold Chksum.lwip_htons. apply Z.lor_nonneg. split; [apply Z.shiftl_nonneg|apply Z.shiftr_nonneg]; apply Z.land_nonneg; right; lia.
Qed.

Lemma wp_ip_input_gen extra R p b l inp nif Q s : ip_packet extra R p b l s -> clients_ok s -> listed s -> netifs s !! inp = Some nif ->
  (forall s', delivered s b inp nif = false -> taken extra R s s' -> Q ERR_OK s') ->
  (forall b' l' s', delivered s b inp nif = true -> entered extra R p b l b' l' s s' -> wp (ip_deliver p (payload b) inp) Q s') ->
  wp (ip_input p inp) Q s.
Proof.
  intros H0 C Ls En HD HR. unfold ip_input. apply wp_bind. eapply wp_pk_stat; [apply H0|]. intros f _. set (s1 := with_stats f s) in *.
  assert (ip_packet extra R p b l s1) as H by (by apply ip_stats). pose proof H as [Hp Hty Hat Hfirst Htot].
  pose proof (ip_data_end _ _ _ _ _ _ H) as He. assert (frame extra s s1) as F1 by apply frame_stats, frame_refl.
  assert (forall s', delivered s b inp nif = false -> net_inv s' extra R -> frame extra s s' -> Q ERR_OK s') as HD'.
  { intros s' Hf I' F'. apply HD; [done|by apply taken_frame]. }
  apply wp_bind. eapply wp_pk_buf; [exact Hp|]. cbv zeta. apply wp_bind. eapply wp_pk_peek; [exact Hp|lia|lia|].
  change (IPH_V _) with (ip_version s b). change (IPH_HL4 _) with (hlen_of s b). unfold delivered, sound in HD, HD', HR.
  destruct (ip_version s b =? 4); cbn [negb andb] in *;
    [|eapply (wp_ip_drop extra R p b l s); [exact Hp|exact F1|auto]].
  apply wp_bind. eapply wp_pk_peek; [exact Hp|lia|lia|]. change (Chksum.lwip_htons _) with (ip_total s b).
  rewrite !Z.ltb_antisym. destruct (Z.leb_spec (hlen_of s b) (len b)) as [Hh|Hh]; cbn [negb andb orb] in *;
    [|eapply (wp_ip_drop extra R p b l s); [exact Hp|exact F1|auto]].
  destruct (Z.leb_spec (ip_total s b) (tot_len b)) as [Ht|Ht]; cbn [negb andb orb] in *;
    [|eapply (wp_ip_drop extra R p b l s); [exact Hp|exact F1|auto]].
  assert (0 <= ip_total s b) as Ht0 by (unfold ip_total; apply htons_nonneg).
  apply wp_bind. eapply wp_pk_realloc; [exact Hp|exact Ht0|]. intros b' l' s2 P2 F2 T2 Y2 Tl Tr Hl' Hc.
  destruct Tr as (_ & Epay & Ety & _ & _ & Elen & _). cbn [snd] in *. rewrite Z.min_l in Tl by done.
  destruct (pk_bounds _ _ _ _ _ _ P2) as (_ & _ & Hl2 & _). pose proof (frame_trans _ _ _ _ F1 F2) as F02.
  assert (ip_packet extra R p b' l' s2) as H2 by (split; [done|congruence|congruence|lia|lia]).
  assert (forall off k, read_bytes (bytes (ps s2)) (payload b + off) k = field s b off k) as Hfld by (intros; by rewrite Y2).
  apply wp_bind. eapply wp_pk_peek; [exact P2|lia|rewrite (ip_data_end _ _ _ _ _ _ H2); lia|].
  apply wp_bind. eapply wp_pk_peek; [exact P2|lia|rewrite (ip_data_end _ _ _ _ _ _ H2); lia|]. rewrite !Hfld.
  apply wp_bind, wp_modify. rewrite (fr_ips _ _ _ F02). fold (ip_src s b) (ip_dest s b). set (i := set_current _ _ _ _ _).
  set (s3 := with_ips i s2).
  assert (entered extra R p b l b' l' s s3) as E.
  { split; [|done|done|done|done|done| |].
    - destruct H2 as [[I2 ? ? ? ?] ? ? ? ?]. split; try done. split; try done.
      apply inv_ips; [done| |cbn; by rewrite (fr_ips _ _ _ F02)]. destruct (ni_ips _ _ _ I2) as [X1 X2 X3 X4 X5 X6 X7].
      rewrite (fr_ips _ _ _ F02) in *. by split.
    - destruct (frame_calm _ _ _ F02). by split.
    - apply T2. }
  assert (clients_ok s3 /\ listed s3) as [C3 Ls3] by (destruct (calm_keeps _ _ _ (en_calm _ _ _ _ _ _ _ _ _ E)) as [_ K3]; split; by apply K3).
  replace (payload b) with (payload b') by congruence. rewrite <-(entered_hlen _ _ _ _ _ _ _ _ _ H0 E).
  destruct (entered_for_us _ _ _ _ _ _ _ _ _ inp nif H0 E) as [Efu Ewh].
  eapply wp_ip_match; [apply E|done|done|by rewrite (cm_netifs _ _ _ (en_calm _ _ _ _ _ _ _ _ _ E))| | | |].
  - unfold ip_src. by rewrite (entered_field _ _ _ _ _ _ _ _ _ _ _ H0 E).
  - unfold ip_dest. by rewrite (entered_field _ _ _ _ _ _ _ _ _ _ _ H0 E).
  - rewrite Efu, Ewh. intros s4 Hf I4 F4. apply HD; [done|]. destruct (calm_keeps _ _ _ (en_calm _ _ _ _ _ _ _ _ _ E)).
    eapply taken_trans; [done|done|by apply taken_frame].
  - rewrite Efu, Ewh. intros Hf. replace (payload b') with (payload b) by congruence. by eapply HR.
Qed.

(** *** Delivery *)

Lemma current_keeps extra n h src dest s : same_packets (ps s) (ps (with_ips (set_current n h src dest (ips s)) s)) extra /\
  keeps s (with_ips (set_current n h src dest (ips s)) s).
Proof. by apply keeps_ips. Qed.

(** Writing the pointer to the header back changes nothing. *)
Lemma payload_same (p : Z) (b : pbuf) s : bufs (ps s) !! p = Some b -> pbufs_ (upd p (set_payload (payload b))) s = Some (tt, s).
Proof.
  intros E. unfold pbufs_, upd. rewrite (E : get p (ps s) = _). cbn [mbind option_bind].
  replace (set_payload (payload b) b) with b by (by destruct b).
  unfold put. rewrite insert_id by done. by destruct s as [[] ? ? ? ? ? ? ? ? ? ?].
Qed.

Lemma wp_ip_unknown extra R p b l inp nif Q s : ip_packet extra R p b l s -> netifs s !! inp = Some nif -> listed s ->
  Z.of_nat (length extra) < 49995 -> (forall s', taken extra R s s' -> Q tt s') -> wp (ip_unknown p (payload b) inp) Q s.
Proof.
  intros H En Ls Hx HQ. pose proof H as [Hp _ Hat _ _]. pose proof (ip_data_end _ _ _ _ _ _ H) as He.
  unfold ip_unknown. apply wp_bind. eapply wp_gets; [done|]. apply wp_bind. eapply wp_the_netif; [exact En|].
  assert (forall s1, net_inv s1 (p :: extra) R -> calm extra s s1 -> wp (drop_packet p ;; inc_stat ip_proterr ;; inc_stat ip_drop)%net Q s1) as Hend.
  { intros s1 I1 C1. destruct (calm_keeps _ _ _ C1) as [P1 K1]. apply wp_bind, wp_bind. eapply wp_free; [exact I1|]. intros _ s2 I2 F2 _.
    apply wp_ret, wp_bind, wp_inc_stat. intros f. apply wp_inc_stat. intros g. apply HQ. eapply taken_trans; [exact P1|exact K1|].
    apply taken_frame; [by apply inv_stats, inv_stats|by apply frame_stats, frame_stats]. }
  apply wp_bind, wp_when; intros _; [|apply Hend; [apply Hp|apply calm_refl]].
  apply wp_bind. unfold wp at 1. rewrite payload_same by (by eapply pk_buf).
  eapply wp_dest_unreach; [exact Hp|lia|done|done|]. intros s1 I1 Q1. apply Hend; [done|]. eapply calm_sub; [|by apply quiet_calm]. set_solver.
Qed.

(** The switch: every protocol takes the packet. *)
Lemma wp_ip_proto extra R p b l inp nif Q s : ip_packet extra R p b l s -> header_ok s b -> netifs s !! inp = Some nif -> listed s ->
  Z.of_nat (length extra) < 49995 -> (forall s', taken extra R s s' -> Q tt s') ->
  wp (proto <- peek p (payload b + 9) 1 ;;
      if byte1 proto =? IP_PROTO_UDP then udp_input p inp
      else if byte1 proto =? IP_PROTO_TCP then tcp_input p inp
      else if byte1 proto =? IP_PROTO_ICMP then icmp_input p inp
      else ip_unknown p (payload b) inp)%net Q s.
Proof.
  intros H Hh En Ls Hx HQ. pose proof H as [Hp _ Hat _ _]. pose proof (ip_data_end _ _ _ _ _ _ H) as He.
  apply wp_bind. eapply wp_pk_peek; [exact Hp|lia|lia|]. destruct (_ =? IP_PROTO_UDP); [|destruct (_ =? IP_PROTO_TCP); [|destruct (_ =? IP_PROTO_ICMP)]].
  - destruct (io_udps _ (ni_ips _ _ _ (pk_inv _ _ _ _ _ _ Hp))) as (k & L).
    eapply (wp_udp_input extra R p b l inp nif k); [done|done|done|done|exact L|done|by intros s' _ T; apply HQ|].
    intros pcb u s' _ [P' S' K' _ _]. eapply wp_mono; [apply (udp_recv_law _ _ _ _ _ _ _ _ _ _ _ P'); lia|].
    intros [] s2 T. apply HQ. by eapply taken_trans.
  - eapply wp_mono; [eapply tcp_input_law; [exact H|done|by exists nif|lia]|]. intros [] s' T. by apply HQ.
  - eapply wp_icmp_input; [exact H|apply Hh|exact En|lia|]. intros s' I' F'. apply HQ. by apply taken_frame.
  - by eapply wp_ip_unknown.
Qed.

Lemma passed_header extra R p b l s s' : ip_packet extra R p b l s -> passed extra R p b l s s' -> hlen_of s' b = hlen_of s b.
Proof.
  intros [_ _ Hat _ _] [_ _ Sb _ _ _]. unfold hlen_of, same_buffer in *. f_equal. rewrite Hat.
  replace (p + 30) with (p + 16 + 14) by lia. rewrite !(read_sub _ _ 14 1 512) by lia. by rewrite Sb.
Qed.

Lemma wp_ip_deliver extra R p b l inp nif Q s : ip_packet extra R p b l s -> header_ok s b -> netifs s !! inp = Some nif ->
  listed s -> Z.of_nat (length extra) < 49995 -> (forall s', taken extra R s s' -> Q ERR_OK s') ->
  wp (ip_deliver p (payload b) inp) Q s.
Proof.
  intros H Hh En Ls Hx HQ. unfold ip_deliver. apply wp_bind, wp_modify.
  set (s1 := with_ips (set_current inp (payload b) (current_iphdr_src (ips s)) (current_iphdr_dest (ips s)) (ips s)) s).
  assert (ip_packet extra R p b l s1) as H1 by (by apply current_packet).
  destruct (current_keeps extra inp (payload b) (current_iphdr_src (ips s)) (current_iphdr_dest (ips s)) s) as [P1 K1].
  assert (forall s', taken extra R s1 s' -> wp (set_ips (set_current 0 0 0 0) ;; ret ERR_OK)%net Q s') as Hend.
  { intros s' [I' P' K']. apply wp_bind, wp_modify, wp_ret, HQ. destruct (current_keeps extra 0 0 0 0 s') as [P2 K2].
    split; [by apply current_ok| |]; [eapply same_packets_trans; [exact P1|by eapply same_packets_trans]|].
    eapply keeps_trans; [exact K1|by eapply keeps_trans]. }
  apply wp_bind. eapply wp_raw_input; [exact H1|lia| |].
  - intros s2 Pa. pose proof Pa as [H2 P2 _ K2 _ _]. apply wp_bind. cbn [Z.eqb when].
    destruct (kp_netifs _ _ K2 inp nif En) as (nif2 & En2 & _).
    eapply wp_ip_proto; [exact H2| |exact En2|by apply K2, K1|done|].
    + destruct Hh as [Hh1 Hh2]. unfold header_ok. rewrite (passed_header _ _ _ _ _ _ _ H1 Pa). done.
    + intros s3 T3. apply Hend. eapply taken_trans; [|exact K2|exact T3]. eapply same_packets_sub; [|exact P2]. set_solver.
  - intros s2 [T2 _]. apply wp_bind. cbn [Z.eqb when]. by apply wp_ret, Hend.
Qed.

Lemma wp_ip_input extra R p b l inp nif Q s : ip_packet extra R p b l s -> 20 <= hlen_of s b -> clients_ok s -> listed s ->
  netifs s !! inp = Some nif -> Z.of_nat (length extra) < 49995 -> (forall s', taken extra R s s' -> Q ERR_OK s') ->
  wp (ip_input p inp) Q s.
Proof.
  intros H Hh C Ls En Hx HQ. eapply wp_ip_input_gen; [exact H|done|done|exact En|by intros s' _; apply HQ|].
  intros b' l' s1 Hd E. destruct (calm_keeps _ _ _ (en_calm _ _ _ _ _ _ _ _ _ E)) as [P1 K1].
  assert (hlen_of s b <= len b) as Hl.
  { unfold delivered, sound in Hd. destruct (Z.leb_spec (hlen_of s b) (len b)); [done|].
    by rewrite andb_false_r in Hd. }
  pose proof H as [_ _ Hat _ _]. pose proof (ip_at _ _ _ _ _ _ (en_packet _ _ _ _ _ _ _ _ _ E)) as Hat'.
  replace (payload b) with (payload b') by congruence.
  eapply wp_ip_deliver; [apply E|by eapply entered_header|by rewrite (cm_netifs _ _ _ (en_calm _ _ _ _ _ _ _ _ _ E))|by apply K1|done|].
  intros s' T. apply HQ. by eapply taken_trans.
Qed.

(** *** The fields of a datagram *)

Lemma htons_be16 x : in_u 16 x -> Chksum.lwip_htons (le16 (be16 x)) = x.
Proof.
  intros Hx. rewrite Chksum.htons_swap, Chksum.swap_div. unfold le16, be16, Chksum.load16, in_u in *. cint_pow.
  Z.div_mod_to_equations; lia.
Qed.

Record udp_packet s (b : pbuf) (src dest sport dport : Z) (n : Z) : Prop := {
  up_version : ip_version s b = 4;
  up_hlen : hlen_of s b = 20;
  up_total : ip_total s b = n + 28;
  up_proto : ip_proto s b = IP_PROTO_UDP;
  up_whole : whole s b = true;
  up_src : ip_src s b = src;
  up_dest : ip_dest s b = dest;
  up_sport : src_port s b = sport;
  up_dport : dest_port s b = dport }.

Lemma datagram_fields tos id ttl src dest sport dport d pad s b :
  data s b = ip_header tos (Z.of_nat (length d) + 28) id ttl IP_PROTO_UDP src dest ++
    udp_header sport dport (Z.of_nat (length d) + 8) ++ d ++ pad ->
  Z.of_nat (length d) + 28 < 2 ^ 16 -> in_u 32 src -> in_u 32 dest -> in_u 16 sport -> in_u 16 dport -> 0 <= len b ->
  udp_packet s b src dest sport dport (Z.of_nat (length d)).
Proof.
  intros D Hn Hs Hd Hsp Hdp Hl.
  assert (28 <= len b) as H28.
  { assert (length (data s b) = Z.to_nat (len b)) as Hlen by apply read_bytes_length. rewrite D in Hlen.
    cbn [length app ip_header udp_header be16 bytes32] in Hlen. lia. }
  assert (forall off k, 0 <= off -> 0 <= k -> off + k <= 28 -> read_bytes (bytes (ps s)) (payload b + off) k =
    sub (Z.to_nat off) (Z.to_nat k) (ip_header tos (Z.of_nat (length d) + 28) id ttl IP_PROTO_UDP src dest ++
    udp_header sport dport (Z.of_nat (length d) + 8) ++ d ++ pad)) as Hr.
  { intros off k Ho Hk Hok. rewrite (read_sub _ _ _ _ (len b)) by lia. fold (data s b). by rewrite D. }
  assert (read_bytes (bytes (ps s)) (payload b) 1 = [0x45]) as H0 by (rewrite <-(Z.add_0_r (payload b)), Hr by lia; reflexivity).
  assert (hlen_of s b = 20) as Hh by (unfold hlen_of; by rewrite H0).
  split; [unfold ip_version; by rewrite H0|done| | | | | |..].
  - unfold ip_total, field. rewrite Hr by lia. apply (htons_be16 (Z.of_nat (length d) + 28)). unfold in_u. lia.
  - unfold ip_proto, field. rewrite Hr by lia. reflexivity.
  - unfold whole, field. rewrite Hr by lia. reflexivity.
  - unfold ip_src, field. rewrite Hr by lia. by apply (le32_bytes src).
  - unfold ip_dest, field. rewrite Hr by lia. by apply (le32_bytes dest).
  - unfold src_port. rewrite Hh, Hr by lia. by apply (htons_be16 sport).
  - unfold dest_port. rewrite Hh, <-Z.add_assoc, Hr by lia. by apply (htons_be16 dport).
Qed.

(** No raw pcb is there to take the packet. *)
Lemma raw_input_none extra R p b l inp s : ip_packet extra R p b l s -> raw_pcbs (ips s) = 0 -> raw_input p inp s = Some (0, s).
Proof.
  intros H Hz. pose proof H as [Hp _ Hat _ _]. pose proof (ip_data_end _ _ _ _ _ _ H) as He. unfold raw_input.
  rewrite (bind_run (the_pbuf p) _ s b s) by (unfold the_pbuf, gets; by rewrite (pk_buf _ _ _ _ _ _ Hp : get p (ps s) = _)).
  rewrite (bind_run _ _ _ _ _ (peek_run _ _ _ _ _ (payload b + 9) 1 s Hp ltac:(lia) ltac:(lia))).
  rewrite (bind_run the_ips _ s (ips s) s) by done. rewrite Hz. reflexivity.
Qed.

(** A packet that is all in its first pbuf. *)
Lemma pk_single extra R p b l s : packet extra R p b l s -> len b = tot_len b -> l = [].
Proof.
  intros H E. destruct (pk_bounds _ _ _ _ _ _ H) as (_ & _ & _ & _ & _ & (Et & _ & _ & Hok)).
  destruct l as [|[a c] l]; [done|]. pose proof (pk_pos _ _ _ _ _ _ H) as Po. apply Forall_cons in Po as [Hc _]. cbn [snd] in Hc.
  cbn [tot] in Et. destruct Hok as (_ & _ & _ & Hn%tot_nonneg). lia.
Qed.

Lemma contents_one m (p : Z) (b : pbuf) : contents m [(p, b)] = read_bytes m (payload b) (len b).
Proof. apply app_nil_r. Qed.

(** *** A datagram arrives *)

(** The host has the packet [p] on its interface [n], which is up, and a pcb for
    datagrams from [src], port [sport], to the port [dport] of its address. *)
Record serving extra R (p : Z) (b : pbuf) (n : Z) (nif : netif) (k : list Z) (pcb : Z) (u : udp_pcb) (src sport dport : Z) s : Prop := {
  sv_packet : ip_packet extra R p b [] s;
  sv_few : Z.of_nat (length extra) < 49995;
  sv_clients : clients_ok s;
  sv_listed : listed s;
  sv_netif : netifs s !! n = Some nif;
  sv_number : n ≠ 0;
  sv_up : netif_is_up nif = true;
  sv_addr : ip_addr_isany (ip_addr nif) = false;
  sv_src : ip_addr_isany src = true \/ (ip_addr_isbroadcast src nif = false /\ ip_addr_ismulticast src = false);
  sv_raw : raw_pcbs (ips s) = 0;
  sv_list : pcb_list (X := udp_pcb) (ips s) k;
  sv_port : dport ≠ DHCP_CLIENT_PORT;
  sv_target : udp_target (ip_addr_isbroadcast (ip_addr nif) nif) dport sport nif (set_current 0 0 src (ip_addr nif) (ips s)) k = pcb;
  sv_udp : udps (ips s) !! pcb = Some u;
  sv_recv : u_recv u ≠ 0 }.

Lemma serving_accepted extra R p b n nif k pcb u src sport dport m s : serving extra R p b n nif k pcb u src sport dport s ->
  udp_packet s b src (ip_addr nif) sport dport m -> 28 <= len b -> m + 28 <= tot_len b -> delivered s b n nif = true.
Proof.
  intros [_ _ _ _ En Hn Hup Ha Hs _ _ Hp _ _ _] [Uv Uh Ut Up Uw Us Ud _ _] Hl Hm.
  unfold delivered, sound. rewrite Uv, Uh, Ut, Uw, (proj2 (Z.leb_le 20 _)), (proj2 (Z.leb_le _ _) Hm) by lia. cbn [Z.eqb andb].
  rewrite andb_true_r. assert (accepted s (ip_dest s b) n = n) as Hac.
  { unfold accepted, acceptable. by rewrite En, Hup, Ha, Ud, Z.eqb_refl. }
  unfold for_us, is_dhcp, bad_source. rewrite Hac, Us, (proj2 (Z.eqb_neq n 0)) by done. cbn [andb negb].
  destruct Hs as [-> |[-> ->]]; [done|]. by rewrite andb_false_r.
Qed.

(** What the function of the pcb gets. *)
Record received_data extra R (p : Z) (d : list Z) s b' s' : Prop := {
  rd_packet : packet extra R p b' [] s';
  rd_data : data s' b' = d;
  rd_len : tot_len b' = Z.of_nat (length d);
  rd_same : same_packets (ps s) (ps s') extra;
  rd_keeps : keeps s s' }.

Lemma ip_input_datagram extra R p b n nif k pcb u src sport dport tos id ttl d pad s :
  serving extra R p b n nif k pcb u src sport dport s -> in_u 32 src -> in_u 32 (ip_addr nif) -> in_u 16 sport -> in_u 16 dport ->
  data s b = ip_header tos (Z.of_nat (length d) + 28) id ttl IP_PROTO_UDP src (ip_addr nif) ++
    udp_header sport dport (Z.of_nat (length d) + 8) ++ d ++ pad ->
  exists b' s', received_data extra R p d s b' s' /\
    ip_input p n s = (udp_recv_fn (u_recv u) (u_recv_arg u) pcb p src sport ;; set_ips (set_current 0 0 0 0) ;; ret ERR_OK)%net s'.
Proof.
  intros Sv Hsrc Hdst Hsp Hdp D. pose proof Sv as [H Hx C Ls En _ _ _ _ Hraw L Hport Htg Hu Hrecv]. pose proof H as [Hp Hty Hat _ Htot].
  destruct (pk_bounds _ _ _ _ _ _ Hp) as (_ & _ & Hl & Htl & _ & Hok). assert (tot_len b = len b) as Htb by (destruct Hok as [-> _]; cbn; lia).
  assert (len b = 28 + Z.of_nat (length d) + Z.of_nat (length pad)) as Hlen.
  { assert (length (data s b) = Z.to_nat (len b)) as E by apply read_bytes_length. rewrite D in E.
    cbn [ip_header udp_header be16 bytes32 app length] in E. rewrite length_app in E. lia. }
  assert (udp_packet s b src (ip_addr nif) sport dport (Z.of_nat (length d))) as Up by (eapply datagram_fields; [exact D|lia|done..|lia]).
  pose proof (serving_accepted _ _ _ _ _ _ _ _ _ _ _ _ _ _ Sv Up ltac:(lia) ltac:(lia)) as Hdel.
  destruct (wp_run (ip_input p n) (fun x s2 => exists b' s', received_data extra R p d s b' s' /\
    (udp_recv_fn (u_recv u) (u_recv_arg u) pcb p src sport ;; set_ips (set_current 0 0 0 0) ;; ret ERR_OK)%net s' = Some (x, s2)) s)
    as (x & s2 & E & b' & s' & Rd & E'); [|exists b', s'; split; [done|]; by rewrite E, E'].
  eapply wp_ip_input_gen; [exact H|done|done|exact En|by rewrite Hdel|]. intros b1 l1 s1 _ Ent.
  pose proof Up as [_ Uh Ut Upr _ Us Ud Usp Udp]. pose proof Ent as [H1 T1 L1 Y1 Co1 I1 C1 _].
  pose proof H1 as [Hp1 _ Hat1 _ _]. rewrite Ut in T1. destruct (pk_bounds _ _ _ _ _ _ Hp1) as (_ & _ & Hl1 & _ & _ & Hok1).
  assert (len b1 = tot_len b1) as Ht1 by lia.
  assert (l1 = []) as -> by (by eapply pk_single).
  assert (data s1 b1 = ip_header tos (Z.of_nat (length d) + 28) id ttl IP_PROTO_UDP src (ip_addr nif) ++
    udp_header sport dport (Z.of_nat (length d) + 8) ++ d) as D1.
  { specialize (Co1 (bytes (ps s))). rewrite !contents_one in Co1. unfold data. rewrite Y1, Co1, Ut.
    fold (data s b). rewrite D, (app_assoc _ d pad), (app_assoc _ _ pad). apply take_app_length'.
    rewrite !length_app. cbn [ip_header udp_header be16 bytes32 app length]. lia. }
  unfold ip_deliver. apply wp_bind, wp_modify. rewrite I1.
  set (i2 := set_current n _ _ _ _). set (s2 := with_ips i2 s1).
  assert (ip_packet extra R p b1 [] s2) as H2.
  { unfold s2, i2. rewrite <-I1. by apply current_packet. }
  assert (hlen_of s2 b1 = 20) as Hh2 by (change (hlen_of s2 b1) with (hlen_of s1 b1); by rewrite (entered_hlen _ _ _ _ _ _ _ _ _ H Ent)).
  assert (i2 = set_current n (payload b) src (ip_addr nif) (ips s)) as Ei by (unfold i2; by rewrite <-Us, <-Ud).
  apply wp_bind. unfold wp at 1. rewrite (raw_input_none _ _ _ _ _ _ _ H2) by (unfold s2; cbn [ips with_ips]; by rewrite Ei).
  cbn [Z.eqb when]. apply wp_bind, wp_bind. eapply wp_pk_peek; [apply H2|lia|rewrite (ip_data_end _ _ _ _ _ _ H2); lia|].
  replace (read_bytes (bytes (ps s2)) (payload b + 9) 1) with (field s1 b1 9 1) by (unfold field; by rewrite Hat, Hat1).
  rewrite (entered_field _ _ _ _ _ _ _ _ _ _ _ H Ent). fold (ip_proto s b). rewrite Upr. cbn [Z.eqb IP_PROTO_UDP].
  destruct (calm_keeps _ _ _ C1) as [P1 K1]. assert (keeps s1 s2 /\ same_packets (ps s1) (ps s2) extra) as [K2 P2].
  { unfold s2, i2. rewrite <-I1. by destruct (current_keeps extra n (payload b) (current_iphdr_src (ips s1)) (current_iphdr_dest (ips s1)) s1). }
  assert (src_port s2 b1 = sport /\ dest_port s2 b1 = dport) as [Sp Dp].
  { unfold src_port, dest_port. rewrite Hh2. change (bytes (ps s2)) with (bytes (ps s1)). rewrite Y1, Hat1, <-Hat, <-Usp, <-Udp.
    unfold src_port, dest_port. by rewrite Uh. }
  assert (delivers s2 b1 nif k pcb u) as De.
  { split; [rewrite Hh2; unfold UDP_HLEN; lia|by rewrite Dp| |by unfold s2; cbn [ips with_ips]; rewrite Ei|done].
    unfold chosen. rewrite Sp, Dp. unfold s2. cbn [ips with_ips]. rewrite Ei. by rewrite <-Htg. }
  eapply (wp_udp_input extra R p b1 [] n nif k); [exact H2|split; [by rewrite Hh2|left; rewrite Hh2; lia]| |by apply K2, K1| |done| |].
  - change (netifs s2) with (netifs s1). by rewrite (cm_netifs _ _ _ C1).
  - unfold s2. cbn [ips with_ips]. by rewrite Ei.
  - intros s3 Hn _. by destruct (Hn pcb u).
  - intros pcb' u' s3 De' [Pk Sm Ke Yk _]. assert (pcb' = pcb) as -> by (rewrite (de_pcb _ _ _ _ _ _ De); apply De').
    assert (u' = u) as -> by (pose proof (de_udp _ _ _ _ _ _ De); pose proof (de_udp _ _ _ _ _ _ De'); congruence).
    rewrite Hh2 in Pk. rewrite Sp. assert (current_iphdr_src (ips s2) = src) as -> by (unfold s2; cbn [ips with_ips]; by rewrite Ei).
    destruct (wp_run _ _ _ (udp_recv_law (u_recv u) (u_recv_arg u) pcb p src sport _ _ _ extra R Pk ltac:(lia))) as ([] & s4 & E4 & _).
    unfold wp at 1. rewrite E4. apply wp_bind, wp_modify, wp_ret.
    exists (header_moved (- (20 + UDP_HLEN)) b1), s3. split; [|by rewrite (bind_run _ _ _ _ _ E4)]. split; [exact Pk| |unfold header_moved, UDP_HLEN; cbn [tot_len set_tot_len set_len set_payload]; lia| |].
    + change (- (20 + UDP_HLEN)) with (- (28)). rewrite <-(header_data 28 (header_moved (- (28)) b1) s3) by (unfold header_moved; cbn [len set_tot_len set_len set_payload]; lia).
      replace (header_moved 28 (header_moved (- (28)) b1)) with b1 by (by rewrite <-(header_moved_back (- (28)) b1) at 1).
      unfold data. rewrite Yk. change (bytes (ps s2)) with (bytes (ps s1)). fold (data s1 b1). rewrite D1. reflexivity.
    + eapply same_packets_trans; [exact P1|]. eapply same_packets_trans; [exact P2|exact Sm].
    + eapply keeps_trans; [exact K1|]. eapply keeps_trans; [exact K2|exact Ke].
Qed.


(** ** The theorems *)

(** C1: [ip_input] delivers exactly the packets of version 4 that are not longer
    than what arrived, are for an interface that is up, by its address, a
    broadcast or a link-local address of AutoIP, or for the DHCP client, do not
    come from a broadcast or multicast address, and are not fragments.  Such a
    packet goes on cut to the length in its header, with the addresses of the
    header as the current ones; any other is freed and nothing else happens. *)
Theorem ip_input_delivers extra R p b l inp nif s :
  ip_packet extra R p b l s -> 20 <= hlen_of s b -> clients_ok s -> listed s -> netifs s !! inp = Some nif ->
  Z.of_nat (length extra) < 49995 ->
  if delivered s b inp nif
  then exists b' l' s', entered extra R p b l b' l' s s' /\ ip_input p inp s = ip_deliver p (payload b) inp s'
  else exists s', ip_input p inp s = Some (ERR_OK, s') /\ taken extra R s s'.
Proof.
  intros H Hh C Ls En Hx.
  destruct (wp_run (ip_input p inp) (fun x s2 => if delivered s b inp nif
    then exists b' l' s', entered extra R p b l b' l' s s' /\ ip_deliver p (payload b) inp s' = Some (x, s2)
    else x = ERR_OK /\ taken extra R s s2) s) as (x & s2 & E & Hs2).
  - eapply wp_ip_input_gen; [exact H|exact C|exact Ls|exact En|by intros s' -> T|]. intros b' l' s' Hd Ent. rewrite Hd.
    destruct (wp_run (ip_deliver p (payload b) inp) (fun _ _ => True) s') as (x & s2 & E & _).
    { destruct (calm_keeps _ _ _ (en_calm _ _ _ _ _ _ _ _ _ Ent)) as [_ K1].
      replace (payload b) with (payload b') by (rewrite (ip_at _ _ _ _ _ _ H); apply Ent).
      eapply wp_ip_deliver; [apply Ent| |by rewrite (cm_netifs _ _ _ (en_calm _ _ _ _ _ _ _ _ _ Ent))|by apply K1|exact Hx|done].
      eapply entered_header; [exact H|exact Ent|]. unfold delivered, sound in Hd.
      destruct (Z.leb_spec (hlen_of s b) (len b)); [lia|]. by rewrite andb_false_r in Hd. }
    unfold wp. rewrite E. by exists b', l', s'.
  - destruct (delivered s b inp nif).
    + destruct Hs2 as (b' & l' & s' & Ent & E'). exists b', l', s'. split; [done|]. by rewrite E, E'.
    + destruct Hs2 as [-> T]. by exists s2.
Qed.

(** C6: UDP carries data from host to host: what [udp_sendto_if] of host a hands to
    the ARP module is a packet with the headers of RFC 791 and RFC 768, which, when host b has it on its interface, padded
    or not, makes [ip_input] of b call the function of the pcb of b that is bound
    to the port, once, with exactly the data a sent and with the address and the
    port of a. *)
Theorem udp_roundtrip (extra_a extra_b : list Z) (R_a R_b : list block) (p_a p_b : Z) (buf_a buf_b : pbuf) (pcb_a pcb_b : Z) (u_a u_b : udp_pcb)
    (n_a n_b : Z) (nif_a nif_b : netif) (k : list Z) (dport : Z) (a b : net A W) :
  sending extra_a R_a p_a buf_a a -> udps (ips a) !! pcb_a = Some u_a -> u_local_port u_a ≠ 0 -> wrong_source u_a nif_a = false ->
  p_a + 44 <= payload buf_a -> tot_len buf_a = len buf_a -> tot_len buf_a + 28 < 2 ^ 16 -> netifs a !! n_a = Some nif_a ->
  in_u 32 (ip_addr nif_a) -> in_u 32 (ip_addr nif_b) -> in_u 16 dport ->
  serving extra_b R_b p_b buf_b n_b nif_b k pcb_b u_b (source_of u_a nif_a) (u_local_port u_a) dport b ->
  exists a', udp_sendto_if pcb_a p_a (ip_addr nif_b) dport n_a a = (e <- etharp_output n_a p_a (ip_addr nif_b) ;; udp_sent p_a p_a e) a' /\
    data a' (header_moved 28 buf_a) = ip_header (u_tos u_a) (tot_len buf_a + 28) (ip_id (ips a)) (u_ttl u_a) IP_PROTO_UDP
      (source_of u_a nif_a) (ip_addr nif_b) ++ udp_header (u_local_port u_a) dport (tot_len buf_a + 8) ++ data a buf_a /\
    forall pad, data b buf_b = data a' (header_moved 28 buf_a) ++ pad ->
      exists buf_b' b', received_data extra_b R_b p_b (data a buf_a) b buf_b' b' /\
        ip_input p_b n_b b = (udp_recv_fn (u_recv u_b) (u_recv_arg u_b) pcb_b p_b (source_of u_a nif_a) (u_local_port u_a) ;;
          set_ips (set_current 0 0 0 0) ;; ret ERR_OK)%net b'.
Proof.
  intros Ha Eu Hport Hw Hroom Htl Ht En Hia Hib Hd Sv.
  destruct (udp_frame _ _ _ _ _ _ (ip_addr nif_b) dport _ _ _ Ha Eu Hport Hw Hroom Ht Hd En) as (a' & E & _ & _ & D).
  exists a'. split; [exact E|]. split; [exact D|]. intros pad Hb.
  destruct (pcbs_ok (k := udp_kind) _ (ni_ips _ _ _ (sn_inv _ _ _ _ _ Ha))) as (Hok & _).
  destruct (Hok pcb_a u_a Eu) as (Hl & _ & _ & _ & _ & Hp & _).
  destruct (sn_bounds _ _ _ _ _ Ha) as (_ & _ & Hlen & _).
  assert (Z.of_nat (length (data a buf_a)) = tot_len buf_a) as Hda by (unfold data; rewrite read_bytes_length; lia).
  eapply (ip_input_datagram _ _ _ _ _ _ _ _ _ _ _ _ (u_tos u_a) (ip_id (ips a)) (u_ttl u_a) (data a buf_a) pad); [exact Sv| |done|done|done|].
  - unfold source_of. by destruct (ip_addr_isany (u_local_ip u_a)).
  - rewrite Hb, D, Hda. by rewrite <-!app_assoc.
Qed.

End Correct.

(** ** Examples *)

Lemma ip_input_delivers_witness : exists b' l' s',
  entered [] [] rx rx_ip [] b' l' (at_ip (with_rx (replicate 14 0 ++ dgram) net_srv)) s' /\ tot_len b' = 136 /\
  ip_input rx 0x100 (at_ip (with_rx (replicate 14 0 ++ dgram) net_srv)) = ip_deliver rx (payload rx_ip) 0x100 s'.
Proof.
  assert (Z.of_nat (@length Z []) < 49995) as Hx by done. destruct net_srv_ok as (I & _ & C & Ls).
  pose proof (at_ip_packet (replicate 14 0 ++ dgram) net_srv I (proj2 net_srv_udps)) as H.
  destruct (at_ip_keeps (replicate 14 0 ++ dgram) net_srv C Ls) as [C' Ls'].
  assert (20 <= hlen_of (at_ip (with_rx (replicate 14 0 ++ dgram) net_srv)) rx_ip) as Hh by (apply Z.leb_le; by vm_compute).
  assert (netifs (at_ip (with_rx (replicate 14 0 ++ dgram) net_srv)) !! 0x100 = Some demo_netif) as En by (vm_compute; reflexivity).
  assert (delivered (at_ip (with_rx (replicate 14 0 ++ dgram) net_srv)) rx_ip 0x100 demo_netif = true) as Hd by (vm_compute; reflexivity).
  pose proof (ip_input_delivers [] [] rx rx_ip [] 0x100 demo_netif _ H Hh C' Ls' En Hx) as Hr. rewrite Hd in Hr.
  destruct Hr as (b' & l' & s' & Ent & E). exists b', l', s'. split; [exact Ent|]. split; [|exact E].
  rewrite (en_tot _ _ _ _ _ _ _ _ _ Ent). vm_compute. reflexivity.
Defined.

(** Host a is 192.168.0.2 and has a packet of 100 bytes to send; host b is
    192.168.0.7. *)
Definition demo_b : netif := mk_netif demo_ip 0x00ffffff 0x0100a8c0 0 0 0 1500 demo_eth (n_flags demo_netif) (0, 0) 0.
Definition served_a : Z * net lwip_mem wire := default (0, net1) (serve net1).
Definition srv_a : Z := Eval vm_compute in served_a.1.
Definition net_a : net lwip_mem wire := served_a.2.

Lemma net_a_udps : udps (ips net_a) !! srv_a = Some srv_udp /\ bufs (ps net_a) = {[pk := pk_b]}.
Proof. split; by vm_compute. Qed.

Lemma net_a_inv : net_inv net_a [pk] [].
Proof.
  destruct (wp_run _ _ _ (serve_inv [pk] net1 net1_inv eq_refl)) as (pcb & s' & E & H).
  assert (served_a = (pcb, s')) as Es by (unfold served_a; by rewrite E).
  assert (pcb = srv_a) as -> by (change pcb with (pcb, s').1; rewrite <-Es; by vm_compute).
  destruct (H ltac:(done)) as (I & _). unfold net_a. by rewrite Es.
Qed.

Lemma one_buf_sending (s : net lwip_mem wire) p b : net_inv s [p] [] -> bufs (ps s) = {[p := b]} -> carries b -> next b = 0 -> p ≠ 0 ->
  sending [] [] p b s.
Proof.
  intros I Hb Cb Hn Hz. split; [done|rewrite Hb; apply lookup_singleton_eq|done| |by apply not_elem_of_nil].
  rewrite Hb. intros (x & c & E & Hx). apply lookup_singleton_Some in E as [<- <-]. congruence.
Qed.

Lemma net_a_sending : sending [] [] pk pk_b net_a.
Proof. apply one_buf_sending; [exact net_a_inv|apply net_a_udps|by left|done|done]. Qed.

(** The packet that comes in at b. *)
Definition sent_frame : list Z :=
  ip_header 0 128 0 255 IP_PROTO_UDP (ip_addr demo_netif) demo_ip ++ udp_header 7 7 108 ++ replicate 100 0.
Definition with_b (s : net lwip_mem wire) : net lwip_mem wire := with_netifs {[0x100 := demo_b]} s.
Definition net_b : net lwip_mem wire := at_ip (with_rx (replicate 14 0 ++ sent_frame) (with_b net_srv)).

Lemma with_b_ok s k : net_inv s [rx] [] -> pcb_list (X := udp_pcb) (ips s) k -> netif_list s = [0x100] -> netif_default s = 0x100 ->
  let s' := with_b s in net_inv s' [rx] [] /\ pcb_list (X := udp_pcb) (ips s') k /\ clients_ok s' /\ listed s'.
Proof.
  intros [] L Hl Hd. split; [split; try done; by apply map_Forall_singleton|]. split; [done|].
  assert (netifs (with_b s) = {[0x100 := demo_b]}) as E by done.
  split; split; rewrite ?E; cbn [netif_list netif_default with_b with_netifs]; rewrite ?Hl, ?Hd.
  - by apply NoDup_singleton.
  - intros n ->%list_elem_of_singleton. rewrite lookup_singleton_eq. by eexists.
  - intros n nif [<- <-]%lookup_singleton_Some Hz. by destruct Hz.
  - intros n m nif nif' [<- <-]%lookup_singleton_Some [<- <-]%lookup_singleton_Some. done.
  - intros n ->%list_elem_of_singleton. rewrite lookup_singleton_eq. split; [done|by eexists].
  - intros _. rewrite lookup_singleton_eq. by eexists.
  - intros n nif [<- <-]%lookup_singleton_Some Hz. by destruct Hz.
Qed.

Lemma at_ip_list l s k : pcb_list (X := udp_pcb) (ips s) k -> pcb_list (X := udp_pcb) (ips (at_ip (with_rx l s))) k.
Proof. done. Qed.

Lemma with_b_bufs s : bufs (ps (with_b s)) = bufs (ps s).
Proof. done. Qed.

Lemma net_b_serving : serving [] [] rx rx_ip 0x100 demo_b [srv] srv srv_udp (ip_addr demo_netif) 7 7 net_b.
Proof.
  destruct net_srv_ok as (I & L & _).
  assert (netif_list net_srv = [0x100] /\ netif_default net_srv = 0x100) as [Hl Hd] by (split; by vm_compute).
  destruct (with_b_ok net_srv [srv] I L Hl Hd) as (I' & L' & C' & Ls').
  assert (bufs (ps (with_b net_srv)) = {[rx := rx_b]}) as Hb by (rewrite with_b_bufs; apply net_srv_udps).
  destruct (at_ip_keeps (replicate 14 0 ++ sent_frame) (with_b net_srv) C' Ls') as [C Ls].
  apply (at_ip_list (replicate 14 0 ++ sent_frame)) in L'. unfold net_b. split.
  - exact (at_ip_packet (replicate 14 0 ++ sent_frame) (with_b net_srv) I' Hb).
  - by apply Z.ltb_lt.
  - exact C.
  - exact Ls.
  - by vm_compute.
  - discriminate.
  - by vm_compute.
  - by vm_compute.
  - right. split; by vm_compute.
  - by vm_compute.
  - exact L'.
  - discriminate.
  - by vm_compute.
  - by vm_compute.
  - discriminate.
Qed.

Lemma udp_roundtrip_witness : exists a' buf b',
  udp_sendto_if srv_a pk demo_ip 7 0x100 net_a = (e <- etharp_output 0x100 pk demo_ip ;; udp_sent pk pk e) a' /\
  received_data [] [] rx (replicate 100 0) net_b buf b' /\
  ip_input rx 0x100 net_b = (udp_recv_fn 0x8000 1 srv rx (ip_addr demo_netif) 7 ;; set_ips (set_current 0 0 0 0) ;; ret ERR_OK) b'.
Proof.
  assert (in_u 32 (ip_addr demo_netif) /\ in_u 32 (ip_addr demo_b) /\ in_u 16 7) as (H1 & H2 & H3) by done.
  assert (u_local_port srv_udp ≠ 0 /\ tot_len pk_b + 28 < 2 ^ 16) as (H4 & H5) by done.
  assert (pk + 44 <= payload pk_b) as H6 by (apply Z.leb_le; by vm_compute).
  assert (netifs net_a !! 0x100 = Some demo_netif) as En by (vm_compute; reflexivity).
  destruct (udp_roundtrip [] [] [] [] pk rx pk_b rx_ip srv_a srv srv_udp srv_udp 0x100 0x100 demo_netif demo_b [srv] 7 net_a net_b
    net_a_sending (proj1 net_a_udps) H4 eq_refl H6 eq_refl H5 En H1 H2 H3 net_b_serving) as (a' & E & D & Hr).
  destruct (Hr (replicate 8 0)) as (buf & b' & Rd & Eb).
  { rewrite D. vm_compute. reflexivity. }
  exists a', buf, b'. split; [exact E|]. split; [|exact Eb].
  assert (data net_a pk_b = replicate 100 0) as Hd by (vm_compute; reflexivity). rewrite Hd in Rd. exact Rd.
Defined.

(** A header of less than 20 bytes is not refused.  Here it is 4 bytes long; the
    fields behind make an echo request, and the answer is written over the end of
    a buffer of 12 bytes: the accesses of the model fail there. *)
Definition short_ping : list Z :=
  [0x41; 0; 0; 12; 8; 0; 0; 0; 0x40; 1; 0xb7; 0xfe] ++ bytes32 demo_ip ++ bytes32 (ip_addr demo_netif).
Definition net_short : net lwip_mem wire := at_ip (with_rx (replicate 14 0 ++ short_ping) net_rx).

Example ip_input_short_header : hlen_of net_short rx_ip = 4 /\ delivered net_short rx_ip 0x100 demo_netif = true /\
  ip_input rx 0x100 net_short = None.
Proof. vm_compute. repeat split. Qed.

End Ip.
