(* ===== verification/EthInput.v ===== *)
(** * Incoming frames

    [ethernet_input] and [etharp_arp_input] of etharp.c, with everything they
    call: the frame a driver hands up is an ARP packet, which updates the table,
    is answered when it asks for this host and is told to AutoIP and DHCP, or an
    IP packet, which goes to [ip_input] without its Ethernet header, or is
    dropped. *)
From S2P Require Import Prelude Alloc Pbuf PbufData Chksum IpAddr Refs Net Etharp Wire ArpCache Netif Autoip Packet IpOut Icmp Raw Ip.
Import Alloc Pbuf PbufData Refs Net Etharp Wire ArpCache Netif Autoip Packet IpOut Icmp Raw Ip.

Module EthInput.
Local Open Scope net_scope.

Definition PBUF_FLAG_LLBCAST : Z := 0x08.
Definition PBUF_FLAG_LLMCAST : Z := 0x10.
Definition LL_MULTICAST_ADDR_0 : Z := 0x01.
Definition LL_MULTICAST_ADDR_1 : Z := 0x00.
Definition LL_MULTICAST_ADDR_2 : Z := 0x5e.

(** ** Operations *)

Section Operations.
Context {A W : Type} {ops : alloc_ops A} {lops : link_ops A W} {uops : upper_ops A W} {aops : app_ops A W}.

(** The answer: the packet is turned round and sent. *)
Definition arp_reply (n p : Z) : M A W unit :=
  let hdr := SIZEOF_ETH_HDR in
  store p (hdr + 6) (bytes16 (Chksum.lwip_htons ARP_REPLY)) ;;
  sip <- load p (hdr + 14) 4 ;;
  store p (hdr + 24) sip ;;
  nif <- the_netif n ;;
  store p (hdr + 14) (bytes32 (ip_addr nif)) ;;
  shw <- load p (hdr + 8) 6 ;;
  store p (hdr + 18) shw ;;
  store p 0 (if ip_addr_islinklocal (ip_addr nif) then ethbroadcast else shw) ;;
  store p (hdr + 8) (hwaddr nif) ;;
  store p 6 (hwaddr nif) ;;
  _ <- link_output n p ;;
  ret tt.

(** [ethaddr] is the hardware address of [n]. *)
Definition etharp_arp_input (n p : Z) : M A W unit :=
  b <- the_pbuf p ;;
  if len b <? SIZEOF_ETHARP_PACKET then
    inc_stat etharp_lenerr ;; inc_stat etharp_drop ;; drop_packet p
  else
    let hdr := SIZEOF_ETH_HDR in
    hwtype <- load p hdr 2 ;;
    proto <- load p (hdr + 2) 2 ;;
    hwlen <- load p (hdr + 4) 1 ;;
    protolen <- load p (hdr + 5) 1 ;;
    if negb (le16 hwtype =? PP_HTONS HWTYPE_ETHERNET) || negb (bool_decide (hwlen = [ETHARP_HWADDR_LEN])) ||
       negb (bool_decide (protolen = [4])) || negb (le16 proto =? PP_HTONS ETHTYPE_IP)
    then inc_stat etharp_proterr ;; inc_stat etharp_drop ;; drop_packet p
    else
      inc_stat etharp_recv ;;
      shw <- load p (hdr + 8) 6 ;;
      sip <- load p (hdr + 14) 4 ;;
      dip <- load p (hdr + 24) 4 ;;
      autoip_arp_reply n (le32 sip) (le32 dip) shw ;;
      sip <- load p (hdr + 14) 4 ;;
      dip <- load p (hdr + 24) 4 ;;
      nif <- the_netif n ;;
      let for_us := if ip_addr_isany (ip_addr nif) then false else le32 dip =? ip_addr nif in
      shw <- load p (hdr + 8) 6 ;;
      _ <- etharp_update_arp_entry n (le32 sip) shw (if for_us then ETHARP_FLAG_TRY_HARD else ETHARP_FLAG_FIND_ONLY) ;;
      opcode <- load p (hdr + 6) 2 ;;
      (if le16 opcode =? PP_HTONS ARP_REQUEST then when for_us (arp_reply n p)
       else if le16 opcode =? PP_HTONS ARP_REPLY then dhcp_arp_reply n (le32 sip)
       else inc_stat etharp_err) ;;
      drop_packet p.

(** [p->flags |= f] *)
Definition or_flags (p f : Z) : M A W unit := pbufs_ (upd p (fun b => set_flags (Z.lor (flags b) f) b)).

(** The marks for multicast and broadcast. *)
Definition mark (p : Z) (dest : list Z) : M A W unit :=
  when (negb (Z.land (nth 0 dest 0) 1 =? 0))
    (if nth 0 dest 0 =? LL_MULTICAST_ADDR_0 then
       when ((nth 1 dest 0 =? LL_MULTICAST_ADDR_1) && (nth 2 dest 0 =? LL_MULTICAST_ADDR_2)) (or_flags p PBUF_FLAG_LLMCAST)
     else when (bool_decide (dest = ethbroadcast)) (or_flags p PBUF_FLAG_LLBCAST)).

Definition ethernet_input (p n : Z) : M A W Z :=
  b <- the_pbuf p ;;
  if len b <=? SIZEOF_ETH_HDR then
    inc_stat etharp_proterr ;; inc_stat etharp_drop ;; drop_packet p ;; ret ERR_OK
  else
    type <- load p 12 2 ;;
    dest <- load p 0 6 ;;
    mark p dest ;;
    if le16 type =? PP_HTONS ETHTYPE_IP then
      nif <- the_netif n ;;
      if negb (has_flag NETIF_FLAG_ETHARP nif) then drop_packet p ;; ret ERR_OK
      else
        e <- pbufs (pbuf_header p (- SIZEOF_ETH_HDR)) ;;
        if negb (e =? 0) then drop_packet p ;; ret ERR_OK
        else _ <- ip_input p n ;; ret ERR_OK
    else if le16 type =? PP_HTONS ETHTYPE_ARP then
      nif <- the_netif n ;;
      if negb (has_flag NETIF_FLAG_ETHARP nif) then drop_packet p ;; ret ERR_OK
      else etharp_arp_input n p ;; ret ERR_OK
    else
      inc_stat etharp_proterr ;; inc_stat etharp_drop ;; drop_packet p ;; ret ERR_OK.

End Operations.

(** ** Correctness *)

Section Correct.
Context {A W : Type} {ops : alloc_ops A} {laws : alloc_laws A} {lops : link_ops A W} {llaws : link_laws A W}
  {uops : upper_ops A W} {ulaws : upper_laws A W} {aops : app_ops A W} {alaws : app_laws A W}.
Implicit Types s : net A W.

(** AutoIP hears of an ARP packet. *)
Lemma wp_autoip extra R n nif sip dip shw Q s : net_inv s extra R -> Z.of_nat (length extra) < 49998 -> clients_ok s ->
  netifs s !! n = Some nif ->
  (forall s', net_inv s' extra R -> same_packets (ps s) (ps s') extra -> keeps s s' ->
    (n_autoip nif = 0 -> s' = s) -> Q tt s') ->
  wp (autoip_arp_reply n sip dip shw) Q s.
Proof.
  intros I Hx C En HQ. destruct (decide (n_autoip nif = 0)) as [Hz|Hz].
  - unfold autoip_arp_reply. apply wp_bind. eapply wp_the_netif; [done|]. rewrite Hz. cbn [Z.eqb]. apply wp_ret.
    apply HQ; [done|apply same_packets_refl|apply keeps_refl|done].
  - destruct (co_client _ C n nif En Hz) as (a & Ea & Ok).
    assert (client s n = Some (nif, a)) as Ec by (by apply client_some).
    destruct (heard_ok sip dip shw nif a Ok) as [Ok' Hp].
    eapply (wp_heard extra R n s Hx nif Hz (ni_hw _ _ _ I _ _ En)); [exact Ok|done|by apply moves_refl|].
    intros s' I' M'. rewrite (surjective_pairing (heard _ _ _ _)) in M'.
    destruct (moves_clients _ _ _ _ _ _ _ _ C Ec M' Hp Ok') as (C' & _ & _). destruct M' as [M1 _ M3 M4 _ M5 M6].
    assert (forall m, is_Some (netifs s !! m) -> is_Some (netifs s' !! m)) as Hsome.
    { intros m [x Em]. rewrite M1. destruct (decide (m = n)) as [->|]; [rewrite lookup_insert_eq; by eexists|].
      rewrite lookup_insert_ne by done. by eexists. }
    apply HQ; [done|done| |done]. split; [|done|done|].
    2: { intros [Hl Hd Hc]. split; rewrite ?M3, ?M4, ?M5.
         - intros m Hm. destruct (Hl m Hm). auto.
         - auto.
         - intros m x. rewrite M1. destruct (decide (m = n)) as [->|]; [rewrite lookup_insert_eq; intros Ex%Some_inj; rewrite <-Ex|].
           + cbn [fst]. rewrite heard_dhcp. by apply (Hc n).
           + rewrite lookup_insert_ne by done. apply Hc. }
    intros m x Em. rewrite M1. destruct (decide (m = n)) as [->|].
    + rewrite lookup_insert_eq. eexists. split; [done|]. assert (x = nif) as -> by congruence. apply heard_hw.
    + rewrite lookup_insert_ne by done. eauto.
Qed.

(** *** The answer *)

(** The data of the packet [L] turned round. *)
Definition answered (nif : netif) (L : list Z) : list Z :=
  let L1 := splice 20 [0; 2] L in
  let L2 := splice 38 (sub 28 4 L1) L1 in
  let L3 := splice 28 (bytes32 (ip_addr nif)) L2 in
  let shw := sub 22 6 L3 in
  let L4 := splice 32 shw L3 in
  let L5 := splice 0 (raw_dst (ip_addr nif) shw) L4 in
  splice 6 (hwaddr nif) (splice 22 (hwaddr nif) L5).

Lemma answered_frame nif d0 e0 shw sip dhw dip pad : length d0 = 6%nat -> length e0 = 6%nat -> length shw = 6%nat ->
  length dhw = 6%nat -> length (hwaddr nif) = 6%nat ->
  answered nif (arp_frame d0 e0 shw sip dhw dip 1 ++ pad) =
  arp_frame (raw_dst (ip_addr nif) shw) (hwaddr nif) (hwaddr nif) (ip_addr nif) shw sip 2 ++ pad.
Proof.
  intros L1 L2 L3 L4 L5. unfold answered.
  assert (length (raw_dst (ip_addr nif) shw) = 6%nat) as L6 by (unfold raw_dst; by destruct (ip_addr_islinklocal _)).
  apply list6 in L1 as (?&?&?&?&?&?&->), L2 as (?&?&?&?&?&?&->), L3 as (?&?&?&?&?&?&->), L4 as (?&?&?&?&?&?&->),
    L5 as (?&?&?&?&?&?&->).
  change (sub 22 6 _) with [x11; x12; x13; x14; x15; x16]. apply list6 in L6 as (?&?&?&?&?&?&->). reflexivity.
Qed.

Lemma reply_run s extra R n nif p b : net_inv s (p :: extra) R -> netifs s !! n = Some nif ->
  bufs (ps s) !! p = Some b -> carries b -> apart p extra s -> SIZEOF_ETHARP_PACKET <= len b ->
  exists s1, own_state s p b extra R (answered nif (read_bytes (bytes (ps s)) (payload b) (len b))) s1 /\
    arp_reply n p s = (_ <- link_output n p ;; ret tt)%net s1.
Proof.
  intros I En E Cb Ha Hl. pose proof (ni_hw _ _ _ I n nif En) as H6. cbn beta in H6.
  unfold SIZEOF_ETHARP_PACKET, SIZEOF_ETH_HDR, SIZEOF_ETHARP_HDR in Hl.
  set (L := read_bytes (bytes (ps s)) (payload b) (len b)).
  assert (own_state s p b extra R L s) as O by (split; [by destruct s|done|done|apply frame_refl|done]).
  assert (forall off (l : list Z), 0 <= off -> off + Z.of_nat (length l) <= 42 -> forall L s2, own_state s p b extra R L s2 ->
    exists s3, store p off l s2 = Some (tt, s3) /\ own_state s p b extra R (splice off l L) s3) as St.
  { intros off l Ho Hk L0 s2 O2. apply own_step; try done. lia. }
  assert (forall off k L s2, own_state s p b extra R L s2 -> 0 <= off -> 0 <= k -> off + k <= 42 ->
    load p off k s2 = Some (sub (Z.to_nat off) (Z.to_nat k) L, s2) /\ length (sub (Z.to_nat off) (Z.to_nat k) L) = Z.to_nat k) as Ld.
  { intros off k L0 s2 [_ Hb _ _ Hd] Ho Hk Hok. rewrite (load_run p off k b s2) by (try (by rewrite Hb); lia).
    rewrite (read_sub _ _ _ _ (len b)), Hd by lia. split; [done|]. unfold sub. rewrite length_take, length_drop, <-Hd, read_bytes_length. lia. }
  unfold arp_reply. cbv zeta. change SIZEOF_ETH_HDR with 14.
  change (bytes16 (Chksum.lwip_htons ARP_REPLY)) with [0; 2]. change (14 + 6) with 20. change (14 + 14) with 28.
  change (14 + 24) with 38. change (14 + 8) with 22. change (14 + 18) with 32.
  destruct (St 20 [0; 2] ltac:(lia) ltac:(cbn; lia) _ _ O) as (s1 & E1 & O1). rewrite (bind_run _ _ _ _ _ E1).
  destruct (Ld 28 4 _ _ O1 ltac:(lia) ltac:(lia) ltac:(lia)) as [G1 N1]. rewrite (bind_run _ _ _ _ _ G1).
  destruct (St 38 _ ltac:(lia) ltac:(rewrite N1; lia) _ _ O1) as (s2 & E2 & O2). rewrite (bind_run _ _ _ _ _ E2).
  assert (the_netif n s2 = Some (nif, s2)) as G2.
  { unfold the_netif, gets. rewrite (fr_netifs _ _ _ (os_frame _ _ _ _ _ _ _ O2)), En. done. }
  rewrite (bind_run _ _ _ _ _ G2).
  destruct (St 28 (bytes32 (ip_addr nif)) ltac:(lia) ltac:(cbn; lia) _ _ O2) as (s3 & E3 & O3). rewrite (bind_run _ _ _ _ _ E3).
  destruct (Ld 22 6 _ _ O3 ltac:(lia) ltac:(lia) ltac:(lia)) as [G3 N3]. rewrite (bind_run _ _ _ _ _ G3).
  destruct (St 32 _ ltac:(lia) ltac:(rewrite N3; lia) _ _ O3) as (s4 & E4 & O4). rewrite (bind_run _ _ _ _ _ E4).
  match goal with |- context [store p 0 (if _ then _ else ?x)] => fold (raw_dst (ip_addr nif) x); set (shw := x) in * end.
  assert (length (raw_dst (ip_addr nif) shw) = 6%nat) as N4 by (unfold raw_dst; by destruct (ip_addr_islinklocal _)).
  destruct (St 0 (raw_dst (ip_addr nif) shw) ltac:(lia) ltac:(rewrite N4; lia) _ _ O4) as (s5 & E5 & O5). rewrite (bind_run _ _ _ _ _ E5).
  destruct (St 22 (hwaddr nif) ltac:(lia) ltac:(rewrite H6; lia) _ _ O5) as (s6 & E6 & O6). rewrite (bind_run _ _ _ _ _ E6).
  destruct (St 6 (hwaddr nif) ltac:(lia) ltac:(rewrite H6; lia) _ _ O6) as (s7 & E7 & O7). rewrite (bind_run _ _ _ _ _ E7).
  exists s7. split; [exact O7|done].
Qed.

Section Packet.
Context (extra : list Z) (R : list block) (p : Z) (b : pbuf) (s0 : net A W) (Cb : carries b)
  (Hx : Z.of_nat (length extra) < 49997).

Lemma wp_arp_reply n nif Q s : carried extra R p b s0 s -> netifs s !! n = Some nif -> SIZEOF_ETHARP_PACKET <= len b ->
  (forall s', net_inv s' (p :: extra) R -> same_packets (ps s) (ps s') extra -> keeps s s' -> Q tt s') ->
  wp (arp_reply n p) Q s.
Proof.
  intros [I (b' & E & S & D) Ap _ _] En Hl HQ. destruct (strip_eq _ _ S) as (_ & _ & _ & El & _).
  destruct (reply_run s extra R n nif p b' I En E) as (s1 & O & Er); [by eapply carries_strip|done|lia|].
  unfold wp at 1. rewrite Er. destruct O as [_ Hbf I1 F1 _].
  change (wp (_ <- link_output n p ;; ret tt)%net Q s1). apply wp_bind.
  eapply (wp_link s1 (p :: extra) extra); [exact I1|by left|cbn [length]; lia|by intros a Hin; right| |].
  { unfold apart in Ap. by rewrite Hbf. }
  intros r s2 I2 F2 _. apply wp_ret, HQ; [done| |].
  - eapply same_packets_trans; [apply F1|apply F2].
  - eapply keeps_trans; [apply (frame_keeps _ _ _ F1)|apply (frame_keeps _ _ _ F2)].
Qed.

(** Any ARP packet, from the check of its length to the end. *)
Lemma wp_arp_input n nif Q s : carried extra R p b s0 s -> clients_ok s0 -> netifs s0 !! n = Some nif ->
  (forall s', net_inv s' extra R -> same_packets (ps s0) (ps s') extra -> keeps s0 s' -> Q tt s') ->
  wp (etharp_arp_input n p) Q s.
Proof.
  intros C Cl En HQ. pose proof (ca_buf _ _ _ _ _ _ C) as (b' & E & S & _).
  destruct (strip_eq _ _ S) as (_ & _ & _ & El & _).
  unfold etharp_arp_input. apply wp_bind, (wp_gets _ b'); [done|]. destruct (Z.ltb_spec (len b') SIZEOF_ETHARP_PACKET) as [Hl|Hl].
  { apply wp_bind. eapply wp_stat_c; [exact Cb|done|]. intros s1 C1 _. apply wp_bind. eapply wp_stat_c; [exact Cb|done|]. intros s2 C2 _.
    by eapply wp_drop_c. }
  rewrite <-El in Hl. pose proof Hl as Hl'. unfold SIZEOF_ETHARP_PACKET, SIZEOF_ETH_HDR, SIZEOF_ETHARP_HDR in Hl'.
  cbv zeta. change SIZEOF_ETH_HDR with 14. do 4 (apply wp_bind; eapply wp_field; [done|lia|lia|lia|]).
  case_match.
  { apply wp_bind. eapply wp_stat_c; [exact Cb|done|]. intros s1 C1 _. apply wp_bind. eapply wp_stat_c; [exact Cb|done|]. intros s2 C2 _.
    by eapply wp_drop_c. }
  apply wp_bind. eapply wp_stat_c; [exact Cb|done|]. intros s1 C1 _. do 3 (apply wp_bind; eapply wp_field; [done|lia|lia|lia|]).
  destruct (kp_netifs _ _ (ca_keeps _ _ _ _ _ _ C1) n nif En) as (nif1 & En1 & _).
  apply wp_bind. eapply wp_autoip; [apply C1|cbn [length]; lia|by apply (ca_keeps _ _ _ _ _ _ C1)|done|].
  intros s2 I2 P2 K2 _. pose proof (carried_step _ _ _ _ _ _ _ Cb C1 I2 P2 K2) as C2. clear I2 P2 K2.
  do 2 (apply wp_bind; eapply wp_field; [done|lia|lia|lia|]).
  destruct (kp_netifs _ _ (ca_keeps _ _ _ _ _ _ C2) n nif En) as (nif2 & En2 & _).
  apply wp_bind. eapply wp_the_netif; [done|]. apply wp_bind; eapply wp_field; [done|lia|lia|lia|].
  assert (length (sub (Z.to_nat (14 + 8)) (Z.to_nat 6) (data s0 b)) = 6%nat) as L6.
  { unfold sub, data. rewrite length_take, length_drop, read_bytes_length. lia. }
  set (for_us := if ip_addr_isany (ip_addr nif2) then false else _).
  apply wp_bind. eapply wp_update; [apply C2|done|done|cbn [length]; lia|]. intros r s3 I3 F3 _.
  pose proof (carried_step _ _ _ _ _ _ _ Cb C2 I3 (fr_packets _ _ _ F3) (proj2 (frame_keeps _ _ _ F3))) as C3.
  assert (netifs s3 !! n = Some nif2) as En3 by (by rewrite (fr_netifs _ _ _ F3)). clear I3 F3.
  apply wp_bind; eapply wp_field; [done|lia|lia|lia|]. apply wp_bind.
  destruct (_ =? PP_HTONS ARP_REQUEST); [|destruct (_ =? PP_HTONS ARP_REPLY)].
  - apply wp_when; intros _; [|by eapply wp_drop_c]. eapply wp_arp_reply; [done|done|done|]. intros s4 I4 P4 K4.
    eapply wp_drop; [done|]. intros s5 I5 P5 K5. apply HQ; [done| |].
    + eapply same_packets_trans; [apply C3|]. by eapply same_packets_trans.
    + eapply keeps_trans; [apply C3|]. by eapply keeps_trans.
  - eapply wp_mono; [apply dhcp_arp_reply_law; [apply C3|cbn [length]; lia|by eexists]|]. intros [] s4 (I4 & P4 & K4).
    pose proof (carried_step _ _ _ _ _ _ _ Cb C3 I4 P4 K4) as C4. by eapply wp_drop_c.
  - eapply wp_stat_c; [exact Cb|done|]. intros s4 C4 _. by eapply wp_drop_c.
Qed.

End Packet.

(** *** The Ethernet header *)

Lemma flags_inv s extra R p b f : net_inv s (p :: extra) R -> bufs (ps s) !! p = Some b -> ref b = 1 ->
  net_inv (with_ps (put p (set_flags f b) (ps s)) s) (p :: extra) R.
Proof.
  intros I E Hr. rewrite <-with_world_same. eapply inv_pbufs; [exact I|apply I| |].
  - pose proof (ni_refs _ _ _ I) as Ir. destruct (exclusive _ _ _ _ _ Ir E Hr) as (Hp & _ & _).
    destruct (ri_pinv _ _ _ Ir) as [B Ip]. pose proof (pi_ok _ _ _ Ip p b E) as Hok.
    eapply head_refs; [exact Ir|exact E|done|done|done|done|apply Hok|apply Hok|]. by eapply pinv_upd_meta.
  - intros a c Hq Ec Rc. exists c. split; [|by split]. cbn [bufs put with_bufs]. rewrite lookup_insert_ne; [done|]. intros <-.
    eapply queued_exclusive; [exact I|by left|done].
Qed.

Lemma set_flags_id b : set_flags (flags b) b = b.
Proof. by destruct b. Qed.

Lemma wp_mark extra R p b dest Q s : net_inv s (p :: extra) R -> bufs (ps s) !! p = Some b -> ref b = 1 ->
  (forall f, Q tt (with_ps (put p (set_flags f b) (ps s)) s)) -> wp (mark p dest) Q s.
Proof.
  intros I E Hr HQ.
  assert (Q tt s) as H0.
  { specialize (HQ (flags b)). rewrite set_flags_id in HQ. unfold put in HQ. rewrite insert_id in HQ by done.
    by destruct s as [[] ? ? ? ? ? ? ? ? ? ?]. }
  assert (forall f, wp (or_flags p f) Q s) as H1.
  { intros f. eapply wp_pbufs_; [unfold upd; rewrite (E : get p (ps s) = _); reflexivity|]. apply HQ. }
  unfold mark. apply wp_when; intros _; [|done]. case_match; apply wp_when; intros _; auto.
Qed.

(** A frame as the driver of the MAC hands it up: in pbufs of the pool that are
    its alone, with the Ethernet header behind the struct of the first, which is
    full or the only one. *)
Record arrived extra R (p : Z) (b : pbuf) (l : list (Z * pbuf)) s : Prop := {
  av_packet : packet extra R p b l s;
  av_pool : Pbuf.type b = PBUF_POOL;
  av_at : payload b = p + 16;
  av_first : len b = tot_len b \/ 128 <= len b;
  av_tot : tot_len b + 36 < 2 ^ 16;
  av_extra : Z.of_nat (length extra) < 49995 }.

(** An IP packet in it has a header of 5 words or more. *)
Definition ihl_ok s (b : pbuf) : Prop :=
  le16 (read_bytes (bytes (ps s)) (payload b + 12) 2) = PP_HTONS ETHTYPE_IP ->
  20 <= IPH_HL4 (read_bytes (bytes (ps s)) (payload b + 14) 1).

Lemma wp_ethernet_input extra R p b l n nif Q s : arrived extra R p b l s -> ihl_ok s b -> clients_ok s -> listed s ->
  netifs s !! n = Some nif ->
  (forall s', net_inv s' extra R -> same_packets (ps s) (ps s') extra -> keeps s s' -> Q ERR_OK s') ->
  wp (ethernet_input p n) Q s.
Proof.
  intros [Pk Hty Hat Hfirst Htot Hx] Hihl Cl Ls En HQ. pose proof (pk_inv _ _ _ _ _ _ Pk) as I.
  pose proof (pk_buf _ _ _ _ _ _ Pk) as E. pose proof (pk_head_carries _ _ _ _ _ _ Pk) as Cb.
  assert (ref b = 1) as Hr by (by pose proof (pk_refs _ _ _ _ _ _ Pk) as [? _]%Forall_cons).
  unfold ethernet_input. apply wp_bind, (wp_gets _ b); [done|].
  destruct (Z.leb_spec (len b) SIZEOF_ETH_HDR) as [Hl|Hl].
  { apply wp_bind. eapply wp_stat; [done|]. intros s1 I1 F1 _ _. apply wp_bind. eapply wp_stat; [done|]. intros s2 I2 F2 _ _.
    apply wp_bind. eapply wp_drop; [done|]. intros s3 I3 P3 K3. apply wp_ret, HQ; [done| |].
    - eapply same_packets_trans; [|exact P3]. eapply same_packets_sub; [|apply (frame_trans _ _ _ _ F1 F2)]. set_solver.
    - eapply keeps_trans; [|exact K3]. apply (frame_keeps _ _ _ (frame_trans _ _ _ _ F1 F2)). }
  pose proof Hl as Hl'. unfold SIZEOF_ETH_HDR in Hl'. do 2 (apply wp_bind; eapply wp_load; [done|lia|lia|]).
  set (type := read_bytes _ (payload b + 12) 2).
  apply wp_bind. eapply wp_mark; [done|done|done|]. intros f. set (s1 := with_ps _ s). set (b1 := set_flags f b).
  assert (net_inv s1 (p :: extra) R) as I1 by (by apply flags_inv).
  assert (packet extra R p b1 l s1) as Pk1.
  { destruct (pk_bounds _ _ _ _ _ _ Pk) as (_ & _ & ? & ? & _).
    apply (pk_put extra R p b b1 l s Pk); try done; [cbn; lia|]. apply (ri_pinv _ _ _ (ni_refs _ _ _ I1)). }
  assert (bufs (ps s1) !! p = Some b1) as E1 by apply lookup_insert_eq.
  pose proof (put_frame s extra R p b b1 I E Hr) as F1. fold s1 in F1.
  assert (apart p extra s1) as A1.
  { intros a c Ha Hc. destruct (exclusive _ _ _ _ _ (ni_refs _ _ _ I1) E1 Hr) as (_ & _ & Hex). eapply Hex; [|exact Hc]. set_solver. }
  assert (carried extra R p b1 s1 s1) as C1.
  { split; [done|by exists b1|done|apply same_packets_refl|apply keeps_refl]. }
  destruct (frame_keeps _ _ _ F1) as [P1 K1].
  assert (forall s', net_inv s' extra R -> same_packets (ps s1) (ps s') extra -> keeps s1 s' -> Q ERR_OK s') as HQ1.
  { intros s' I' P' K'. apply HQ; [done|by eapply same_packets_trans|by eapply keeps_trans]. }
  assert (forall s2, carried extra R p b1 s1 s2 -> wp (drop_packet p ;; ret ERR_OK)%net Q s2) as Hdrop.
  { intros s2 C2. apply wp_bind. eapply wp_drop_c; [done|]. intros. apply wp_ret. auto. }
  assert (netifs s1 !! n = Some nif) as En1 by done. assert (clients_ok s1 /\ listed s1) as [Cl1 Ls1] by (split; by apply K1).
  assert (bytes (ps s1) = bytes (ps s)) as Y1 by done. clearbody s1.
  destruct (Z.eqb_spec (le16 type) (PP_HTONS ETHTYPE_IP)) as [Hip|_]; [|destruct (_ =? PP_HTONS ETHTYPE_ARP)].
  - apply wp_bind. eapply wp_the_netif; [done|]. destruct (has_flag _ nif); cbn [negb]; [|by apply Hdrop].
    destruct (pk_bounds _ _ _ _ _ _ Pk) as (Hp4 & _ & Hlb & _).
    apply wp_bind. eapply wp_pk_header; [exact Pk1|done|unfold SIZEOF_ETH_HDR; cbn; lia|unfold SIZEOF_ETH_HDR; cbn; lia|by intros _; apply Hdrop|].
    intros s2 _ Hs2 P2 F2. change (negb (0 =? 0)) with false. cbv iota. destruct (frame_keeps _ _ _ F2) as [Sp2 K2]. apply wp_bind.
    eapply (wp_ip_input extra R p _ l n nif); [split; [exact P2|done|..]| |by apply K2|by apply K2|by rewrite (fr_netifs _ _ _ F2)|done|].
    + unfold SIZEOF_ETH_HDR. cbn. lia.
    + unfold SIZEOF_ETH_HDR. cbn. lia.
    + unfold SIZEOF_ETH_HDR. cbn. lia.
    + unfold hlen_of. rewrite Hs2. cbn [ps with_ps put bytes with_bufs]. rewrite Y1. exact (Hihl Hip).
    + intros s3 [I3 P3 K3]. apply wp_ret, HQ1; [done|by eapply same_packets_trans|by eapply keeps_trans].
  - apply wp_bind. eapply wp_the_netif; [done|]. destruct (has_flag _ nif); cbn [negb]; [|by apply Hdrop].
    apply wp_bind. eapply (wp_arp_input extra R p b1 s1); [done|lia|done|done|done|]. intros. apply wp_ret. auto.
  - apply wp_bind. eapply (wp_stat_c extra R p b1 s1); [done|done|]. intros s2 C2 _. apply wp_bind. eapply (wp_stat_c extra R p b1 s1); [done|done|]. intros s3 C3 _.
    by apply Hdrop.
Qed.

(** *** Well-formed ARP packets *)

(** What the switch does with an ARP packet of the operation [op]. *)
Definition act (n p sip op : Z) (for_us : bool) : M A W unit :=
  if op =? ARP_REQUEST then when for_us (arp_reply n p)
  else if op =? ARP_REPLY then dhcp_arp_reply n sip
  else inc_stat etharp_err.

(** The fields of a frame. *)
Lemma frame_fields d0 e0 shw sip dhw dip op pad : length d0 = 6%nat -> length e0 = 6%nat -> length shw = 6%nat ->
  length dhw = 6%nat ->
  let L := arp_frame d0 e0 shw sip dhw dip op ++ pad in
  sub 0 6 L = d0 /\ sub 12 2 L = [8; 6] /\ sub 14 2 L = [0; 1] /\ sub 16 2 L = [8; 0] /\ sub 18 1 L = [6] /\
  sub 19 1 L = [4] /\ sub 20 2 L = [0; op] /\ sub 22 6 L = shw /\ sub 28 4 L = bytes32 sip /\ sub 38 4 L = bytes32 dip /\
  (42 <= length L)%nat.
Proof.
  intros L1 L2 L3 L4 L.
  apply list6 in L1 as (?&?&?&?&?&?&->), L2 as (?&?&?&?&?&?&->), L3 as (?&?&?&?&?&?&->), L4 as (?&?&?&?&?&?&->).
  do 10 (split; [reflexivity|]). subst L. cbn. lia.
Qed.

(** A field that is loaded in the state of [C]. *)
Ltac fetch C Ld :=
  match goal with |- context [bind (load _ ?o ?k) _ _] =>
    rewrite (bind_run _ _ _ _ _ (Ld o k _ C ltac:(lia) ltac:(lia) ltac:(lia))) end.

Lemma arp_input_run s p b extra R n nif d0 e0 shw sip dhw dip op pad :
  carried extra R p b s s -> bufs (ps s) !! p = Some b -> carries b -> Z.of_nat (length extra) < 49997 ->
  netifs s !! n = Some nif -> n_autoip nif = 0 -> ip_addr nif ≠ 0 ->
  data s b = arp_frame d0 e0 shw sip dhw dip op ++ pad ->
  length d0 = 6%nat -> length e0 = 6%nat -> length shw = 6%nat -> length dhw = 6%nat ->
  in_u 32 sip -> in_u 32 dip -> 0 <= op < 256 ->
  let for_us := dip =? ip_addr nif in
  exists r s2, carried extra R p b s s2 /\ netifs s2 = netifs s /\
    update_result sip (if for_us then ETHARP_FLAG_TRY_HARD else ETHARP_FLAG_FIND_ONLY) n shw nif (arp_table s) r (arp_table s2) /\
    etharp_arp_input n p s = (act n p sip op for_us ;; drop_packet p)%net s2.
Proof.
  intros C E Cb Hx En Hz Hip HD L1 L2 L3 L4 Hsip Hdip Hop for_us.
  destruct (frame_fields d0 e0 shw sip dhw dip op pad L1 L2 L3 L4) as (_ & _ & F1 & F2 & F3 & F4 & F5 & F6 & F7 & F8 & Hlen).
  rewrite <-HD in *. unfold data in Hlen. rewrite read_bytes_length in Hlen.
  unfold etharp_arp_input. rewrite (bind_run (the_pbuf p) _ s b s) by (unfold the_pbuf, gets; by rewrite (E : get p (ps s) = _)).
  change SIZEOF_ETHARP_PACKET with 42. rewrite (proj2 (Z.ltb_ge (len b) 42)) by lia. cbv zeta. change SIZEOF_ETH_HDR with 14.
  assert (forall off k s2, carried extra R p b s s2 -> 0 <= off -> 0 <= k -> off + k <= 42 ->
    load p off k s2 = Some (sub (Z.to_nat off) (Z.to_nat k) (data s b), s2)) as Ld.
  { intros off k s2 C2 Ho Hk Hok.
    destruct (wp_run _ _ _ (wp_field extra R p b s off k (fun x s' => x = sub (Z.to_nat off) (Z.to_nat k) (data s b) /\ s' = s2)
      s2 C2 Ho Hk ltac:(lia) ltac:(done))) as (x & s' & -> & -> & ->). done. }
  do 4 fetch C Ld. nats. rewrite F1, F2, F3, F4.
  match goal with |- context [if ?c then _ else _] => change c with false end. cbv iota.
  destruct (wp_step (Y := unit) _ _ _ (wp_stat_c extra R p b s Cb etharp_recv
    (fun _ s' => carried extra R p b s s' /\ netifs s' = netifs s /\ arp_table s' = arp_table s) s C
    ltac:(by intros))) as (x1 & s1 & (C1 & N1 & T1) & ->).
  do 3 fetch C1 Ld.
  assert (forall sip dip shw, autoip_arp_reply n sip dip shw s1 = Some (tt, s1)) as Ea.
  { intros. unfold autoip_arp_reply. rewrite (bind_run _ _ s1 nif s1) by (unfold the_netif, gets; by rewrite N1, En).
    by rewrite Hz. }
  rewrite (bind_run _ _ _ _ _ (Ea _ _ _)). do 2 fetch C1 Ld.
  rewrite (bind_run (the_netif n) _ s1 nif s1) by (unfold the_netif, gets; by rewrite N1, En).
  fetch C1 Ld. nats. rewrite F6, F7, F8, !le32_bytes by done. unfold ip_addr_isany.
  rewrite (proj2 (Z.eqb_neq (ip_addr nif) 0)) by done. fold for_us.
  destruct (wp_step (Y := unit) _ _ _ (wp_update s1 (p :: extra) R n nif sip shw
    (if for_us then ETHARP_FLAG_TRY_HARD else ETHARP_FLAG_FIND_ONLY)
    (fun r s' => carried extra R p b s s' /\ netifs s' = netifs s /\
      update_result sip (if for_us then ETHARP_FLAG_TRY_HARD else ETHARP_FLAG_FIND_ONLY) n shw nif (arp_table s) r (arp_table s'))
    (ca_inv _ _ _ _ _ _ C1) ltac:(by rewrite N1) L3 ltac:(cbn [length]; lia)
    ltac:(intros r s' I' F' U'; rewrite T1 in U'; split; [|split; [by rewrite (fr_netifs _ _ _ F')|done]];
      eapply carried_step; [done|exact C1|done|apply F'|apply (frame_keeps _ _ _ F')])))
    as (r & s2 & (C2 & N2 & U2) & ->).
  exists r, s2. do 3 (split; [done|]). fetch C2 Ld. nats. rewrite F5. unfold act.
  replace (le16 [0; op] =? PP_HTONS ARP_REQUEST) with (op =? ARP_REQUEST);
    [replace (le16 [0; op] =? PP_HTONS ARP_REPLY) with (op =? ARP_REPLY); [done|]|];
    unfold le16, Chksum.load16; [change (PP_HTONS ARP_REPLY) with 512; unfold ARP_REPLY|change (PP_HTONS ARP_REQUEST) with 256; unfold ARP_REQUEST];
    apply Bool.eq_iff_eq_true; rewrite !Z.eqb_eq; lia.
Qed.

(** A packet with one reference, its data behind the struct. *)
Record received (extra : list Z) (R : list block) (p : Z) (b : pbuf) s : Prop := {
  rc_inv : net_inv s (p :: extra) R;
  rc_extra : Z.of_nat (length extra) < 49997;
  rc_buf : bufs (ps s) !! p = Some b;
  rc_ref : ref b = 1;
  rc_carries : carries b }.

(** An interface with an address, without AutoIP, that speaks ARP. *)
Record speaks_arp n nif s : Prop := {
  sa_netif : netifs s !! n = Some nif;
  sa_autoip : n_autoip nif = 0;
  sa_ip : ip_addr nif ≠ 0 /\ in_u 32 (ip_addr nif);
  sa_flag : has_flag NETIF_FLAG_ETHARP nif = true }.

(** The parts of an ARP frame have their sizes. *)
Definition arp_parts (d0 e0 shw : list Z) (sip : Z) (dhw : list Z) : Prop :=
  length d0 = 6%nat /\ length e0 = 6%nat /\ length shw = 6%nat /\ in_u 32 sip /\ length dhw = 6%nat.

(** The packet [p] arrives in [s2] with the same data. *)
Record arrives (extra : list Z) (R : list block) (p : Z) (b : pbuf) s s2 (b2 : pbuf) : Prop := {
  ar_inv : net_inv s2 (p :: extra) R;
  ar_buf : bufs (ps s2) !! p = Some b2;
  ar_carries : carries b2;
  ar_len : len b2 = len b;
  ar_data : data s2 b2 = data s b;
  ar_apart : apart p extra s2;
  ar_packets : same_packets (ps s) (ps s2) extra;
  ar_netifs : netifs s2 = netifs s }.

Lemma ethernet_arp_run s p b extra R n nif d0 e0 shw sip dhw dip op pad :
  received extra R p b s -> speaks_arp n nif s -> data s b = arp_frame d0 e0 shw sip dhw dip op ++ pad ->
  arp_parts d0 e0 shw sip dhw -> in_u 32 dip -> 0 <= op < 256 ->
  let for_us := dip =? ip_addr nif in
  exists r s2 b2, arrives extra R p b s s2 b2 /\
    update_result sip (if for_us then ETHARP_FLAG_TRY_HARD else ETHARP_FLAG_FIND_ONLY) n shw nif (arp_table s) r (arp_table s2) /\
    ethernet_input p n s = (act n p sip op for_us ;; drop_packet p ;; ret ERR_OK)%net s2.
Proof.
  intros [I Hx E Hr Cb] [En Hz [Hip _] Hfl] HD (L1 & L2 & L3 & Hsip & L4) Hdip Hop for_us.
  destruct (frame_fields d0 e0 shw sip dhw dip op pad L1 L2 L3 L4) as (F0 & F1 & _ & _ & _ & _ & _ & _ & _ & _ & Hlen).
  rewrite <-HD in *. unfold data in Hlen. rewrite read_bytes_length in Hlen.
  assert (forall off k, 0 <= off -> 0 <= k -> off + k <= 42 ->
    load p off k s = Some (sub (Z.to_nat off) (Z.to_nat k) (data s b), s)) as Ld.
  { intros off k Ho Hk Hok. rewrite (load_run p off k b s E) by lia. by rewrite (read_sub _ _ _ _ (len b)) by lia. }
  unfold ethernet_input. rewrite (bind_run (the_pbuf p) _ s b s) by (unfold the_pbuf, gets; by rewrite (E : get p (ps s) = _)).
  rewrite (proj2 (Z.leb_gt (len b) SIZEOF_ETH_HDR)) by (unfold SIZEOF_ETH_HDR; lia).
  rewrite (bind_run _ _ _ _ _ (Ld 12 2 ltac:(lia) ltac:(lia) ltac:(lia))).
  rewrite (bind_run _ _ _ _ _ (Ld 0 6 ltac:(lia) ltac:(lia) ltac:(lia))). nats. rewrite F0, F1.
  assert (wp (mark p d0) (fun _ s' => exists f, s' = with_ps (put p (set_flags f b) (ps s)) s) s) as Hm
    by (eapply wp_mark; [done|done|done|eauto]).
  destruct (wp_step (Y := Z) _ _ _ Hm) as (x1 & s1 & (f & Hs1) & ->).
  change (le16 [8; 6] =? PP_HTONS ETHTYPE_IP) with false. change (le16 [8; 6] =? PP_HTONS ETHTYPE_ARP) with true. cbv iota.
  set (b1 := set_flags f b) in *.
  assert (net_inv s1 (p :: extra) R) as I1 by (rewrite Hs1; by apply flags_inv).
  assert (bufs (ps s1) !! p = Some b1) as E1 by (rewrite Hs1; apply lookup_insert_eq).
  assert (frame extra s s1) as Fr by (rewrite Hs1; by eapply put_frame).
  assert (carried extra R p b1 s1 s1) as C1.
  { split; [done|by exists b1| |apply same_packets_refl|apply keeps_refl].
    intros a c Ha Hc. destruct (exclusive _ _ _ _ _ (ni_refs _ _ _ I1) E1 Hr) as (_ & _ & Hex). eapply Hex; [|exact Hc]. set_solver. }
  assert (netifs s1 = netifs s /\ arp_table s1 = arp_table s /\ data s1 b1 = data s b) as (N1 & T1 & D1) by (by rewrite Hs1).
  rewrite (bind_run (the_netif n) _ s1 nif s1) by (unfold the_netif, gets; by rewrite N1, En). rewrite Hfl. cbn [negb].
  destruct (arp_input_run s1 p b1 extra R n nif d0 e0 shw sip dhw dip op pad C1 E1 Cb Hx ltac:(by rewrite N1) Hz Hip
    ltac:(congruence) L1 L2 L3 L4 Hsip Hdip Hop) as (r & s2 & C2 & N2 & U2 & Er).
  pose proof C2 as [I2 (b2 & E2 & S2 & D2) A2 P2 _]. destruct (strip_eq _ _ S2) as (_ & _ & _ & El & _).
  exists r, s2, b2. rewrite T1 in U2. split; [|split; [exact U2|]].
  - split; [done|done|by eapply carries_strip|by rewrite <-El|congruence|done| |congruence].
    eapply same_packets_trans; [apply Fr|done].
  - transitivity (bind (act n p sip op for_us ;; drop_packet p)%net (fun _ => ret ERR_OK) s2); [|apply bind_bind].
    unfold bind at 1 3. by rewrite Er.
Qed.

(** The sender of an ARP packet for this host is known then. *)
Lemma learned s s2 extra extra' R n nif sip shw r : net_inv s extra R -> net_inv s2 extra' R -> netifs s !! n = Some nif ->
  unicast sip nif = true -> update_result sip ETHARP_FLAG_TRY_HARD n shw nif (arp_table s) r (arp_table s2) ->
  cache (arp_table s2) !! sip = Some (Known shw n 0 false).
Proof.
  intros I I2 En Hu H. inversion H as [Hn|Hn Hf|i t1 e Hn Hf E Hip Hr Ht]; [congruence| |].
  - inversion Hf as [i e E Hne Hi Hk|Hun [Hfo|[_ Hth]]|i e Hun Hfo Hth E Hv Hk]; [|done|done|];
      unfold ERR_MEM in Hk; lia.
  - rewrite <-Hip. change (ipaddr e) with (ipaddr (resolved n shw e)).
    pose proof (ni_uniq _ _ _ I2) as U2. rewrite <-Ht in U2. try rewrite <-Ht.
    eapply (cache_entry _ i (resolved n shw e)); [done| |done]. apply list_lookup_insert_eq. by eapply lookup_lt_Some.
Qed.

(** C4: [ethernet_input] takes any frame of the driver, of any length and content
    but for an IP header of less than 5 words: whether it is an ARP packet, an IP
    packet for UDP, TCP, ICMP, a raw pcb or for nobody, or something else, no
    access is out of bounds, the frame is freed, sent or passed on exactly once,
    ERR_OK is returned, the invariant of the stack holds, and the packets of others
    and the list of interfaces are as they were. *)
Theorem ethernet_input_safe extra R p b l n nif s :
  arrived extra R p b l s -> ihl_ok s b -> clients_ok s -> listed s -> netifs s !! n = Some nif ->
  exists s', ethernet_input p n s = Some (ERR_OK, s') /\ net_inv s' extra R /\ same_packets (ps s) (ps s') extra /\
    netif_list s' = netif_list s /\ clients_ok s' /\ listed s'.
Proof.
  intros Av Hi Cl Ls En.
  assert (wp (ethernet_input p n) (fun r s' => r = ERR_OK /\ net_inv s' extra R /\ same_packets (ps s) (ps s') extra /\ keeps s s') s)
    as (r & s' & Er & -> & I' & P' & K')%wp_run by (eapply wp_ethernet_input; eauto).
  exists s'. split; [done|]. split; [done|]. split; [done|]. destruct K' as [_ ? ? ?]. auto.
Qed.

Lemma answers extra R p b n nif d0 e0 shw sip dhw pad s :
  received extra R p b s -> speaks_arp n nif s -> arp_parts d0 e0 shw sip dhw ->
  data s b = arp_frame d0 e0 shw sip dhw (ip_addr nif) ARP_REQUEST ++ pad ->
  exists s' b', ethernet_input p n s = (_ <- link_output n p ;; drop_packet p ;; ret ERR_OK)%net s' /\
    net_inv s' (p :: extra) R /\ same_packets (ps s) (ps s') extra /\ bufs (ps s') !! p = Some b' /\
    data s' b' = arp_frame (if ip_addr_islinklocal (ip_addr nif) then ethbroadcast else shw) (hwaddr nif)
      (hwaddr nif) (ip_addr nif) shw sip ARP_REPLY ++ pad /\
    (unicast sip nif = true -> cache (arp_table s') !! sip = Some (Known shw n 0 false)).
Proof.
  intros Rc Sa Pa HD. pose proof Sa as [En _ [_ Hu] _]. pose proof Pa as (L1 & L2 & L3 & Hsip & L4).
  destruct (ethernet_arp_run s p b extra R n nif d0 e0 shw sip dhw (ip_addr nif) ARP_REQUEST pad Rc Sa HD Pa Hu ltac:(done))
    as (r & s2 & b2 & [I2 E2 Cb2 El D2 A2 P2 N2] & U2 & Er). rewrite Z.eqb_refl in U2, Er.
  destruct (frame_fields d0 e0 shw sip dhw (ip_addr nif) ARP_REQUEST pad L1 L2 L3 L4) as (_ & _ & _ & _ & _ & _ & _ & _ & _ & _ & Hlen).
  rewrite <-HD in Hlen. unfold data in Hlen. rewrite read_bytes_length in Hlen.
  destruct (reply_run s2 extra R n nif p b2 I2 ltac:(by rewrite N2) E2 Cb2 A2
    ltac:(unfold SIZEOF_ETHARP_PACKET, SIZEOF_ETH_HDR, SIZEOF_ETHARP_HDR; lia)) as (s3 & [Hs Hb I3 F3 D3] & Er3).
  fold (data s2 b2) in D3. rewrite D2, HD in D3. unfold ARP_REQUEST in D3.
  rewrite answered_frame in D3 by (try done; by apply (ni_hw _ _ _ (rc_inv _ _ _ _ _ Rc) n)).
  exists s3, b2. split; [|split; [done|split; [|split; [by rewrite Hb|split; [exact D3|]]]]].
  - rewrite Er. change (act n p sip ARP_REQUEST true) with (arp_reply n p).
    transitivity (bind (_ <- link_output n p ;; ret tt)%net (fun _ => drop_packet p ;; ret ERR_OK)%net s3);
      [by unfold bind at 1 3; rewrite Er3|]. rewrite bind_bind. done.
  - eapply same_packets_trans; [exact P2|apply F3].
  - intros Hun. assert (arp_table s3 = arp_table s2) as Ht by (by rewrite Hs). rewrite Ht.
    eapply learned; [apply Rc|exact I2|done|done|exact U2].
Qed.

(** An ARP request for the address of the interface is answered as RFC 826
    says: the packet goes back to the driver, to the sender, or to all when the
    address is link-local, with the addresses of this host as the sender and
    those of the asking host as the target, the rest of the packet unchanged, and
    the asking host is in the ARP table then. *)
Theorem ethernet_input_answers extra R p b n nif d0 e0 shw sip dhw pad s :
  received extra R p b s -> speaks_arp n nif s -> arp_parts d0 e0 shw sip dhw ->
  data s b = arp_frame d0 e0 shw sip dhw (ip_addr nif) ARP_REQUEST ++ pad ->
  exists s' b', ethernet_input p n s = (_ <- link_output n p ;; drop_packet p ;; ret ERR_OK)%net s' /\
    net_inv s' (p :: extra) R /\ same_packets (ps s) (ps s') extra /\ bufs (ps s') !! p = Some b' /\
    data s' b' = arp_frame (if ip_addr_islinklocal (ip_addr nif) then ethbroadcast else shw) (hwaddr nif)
      (hwaddr nif) (ip_addr nif) shw sip ARP_REPLY ++ pad /\
    (unicast sip nif = true -> cache (arp_table s') !! sip = Some (Known shw n 0 false)).
Proof. apply answers. Qed.

(** C23: Two hosts find each other: [etharp_request] of host a for the address of host
    b hands the driver one frame, unless there is no memory for it; when b has this
    frame, padded or not, its [ethernet_input] answers with one, and a is known to b;
    when a has the answer, padded or not, b is known to a and the DHCP of a is told of
    the answer. *)
Theorem arp_exchange (extra extra_a extra_b : list Z) (R R_a R_b : list block) (n_a n_b : Z) (nif_a nif_b : netif)
    (p_b p_a : Z) (buf_b buf_a : pbuf) (a b a2 : net A W) :
  net_inv a extra R -> netifs a !! n_a = Some nif_a ->
  received extra_b R_b p_b buf_b b -> speaks_arp n_b nif_b b ->
  received extra_a R_a p_a buf_a a2 -> speaks_arp n_a nif_a a2 ->
  unicast (ip_addr nif_a) nif_b = true -> unicast (ip_addr nif_b) nif_a = true ->
  (exists a' a0, etharp_request n_a (ip_addr nif_b) a = Some (ERR_MEM, a') /\
     pbufs (pbuf_alloc PBUF_RAW SIZEOF_ETHARP_PACKET PBUF_RAM) a = Some (0, a0)) \/
  (exists q buf_q a', etharp_request n_a (ip_addr nif_b) a =
      (result <- link_output n_a q ;; inc_stat etharp_xmit ;; pbufs (pbuf_free q) ;; ret result)%net a' /\
    bufs (ps a') !! q = Some buf_q /\ next buf_q = 0 /\
    data a' buf_q = arp_frame ethbroadcast (hwaddr nif_a) (hwaddr nif_a) (ip_addr nif_a) ethzero (ip_addr nif_b) ARP_REQUEST /\
    forall pad, data b buf_b = data a' buf_q ++ pad ->
      exists b' buf_b', ethernet_input p_b n_b b = (_ <- link_output n_b p_b ;; drop_packet p_b ;; ret ERR_OK)%net b' /\
        bufs (ps b') !! p_b = Some buf_b' /\
        data b' buf_b' = arp_frame (if ip_addr_islinklocal (ip_addr nif_b) then ethbroadcast else hwaddr nif_a) (hwaddr nif_b)
          (hwaddr nif_b) (ip_addr nif_b) (hwaddr nif_a) (ip_addr nif_a) ARP_REPLY ++ pad /\
        cache (arp_table b') !! ip_addr nif_a = Some (Known (hwaddr nif_a) n_b 0 false) /\
        forall pad', data a2 buf_a = data b' buf_b' ++ pad' ->
          exists a2', ethernet_input p_a n_a a2 =
              (dhcp_arp_reply n_a (ip_addr nif_b) ;; drop_packet p_a ;; ret ERR_OK)%net a2' /\
            cache (arp_table a2') !! ip_addr nif_b = Some (Known (hwaddr nif_b) n_a 0 false)).
Proof.
  intros Ia Ea Rb Sb Ra Sa Ua Ub. pose proof (ni_hw _ _ _ Ia _ _ Ea) as Ha.
  pose proof (ni_hw _ _ _ (rc_inv _ _ _ _ _ Rb) _ _ (sa_netif _ _ _ Sb)) as Hb. cbn beta in Ha, Hb.
  destruct (etharp_request_frame a extra R n_a nif_a (ip_addr nif_b) Ia Ea)
    as [(a' & Er & _ & _ & _ & a0 & E0)|(q & buf_q & a' & _ & Eq & Hn & _ & _ & _ & Dq & Er)]; [left; eauto|right].
  exists q, buf_q, a'. split; [exact Er|]. split; [done|]. split; [done|]. split; [exact Dq|]. intros pad Db.
  unfold data at 2 in Db. rewrite Dq in Db.
  destruct (answers extra_b R_b p_b buf_b n_b nif_b ethbroadcast (hwaddr nif_a) (hwaddr nif_a) (ip_addr nif_a) ethzero pad b Rb Sb
    ltac:(split_and!; [done|done|done|apply Sa|done]) Db) as (b' & buf_b' & Eb & _ & _ & Bb & D' & Hc).
  exists b', buf_b'. split; [done|]. split; [done|]. split; [exact D'|]. split; [auto|]. intros pad' Heq. rewrite D', <-app_assoc in Heq.
  destruct (ethernet_arp_run a2 p_a buf_a extra_a R_a n_a nif_a _ _ _ _ _ _ _ _ Ra Sa Heq) as (r & a2' & b2 & [I2 _ _ _ _ _ _ _] & U2 & Er2).
  - split_and!; [by destruct (ip_addr_islinklocal _)|done|done|apply Sb|done].
  - apply Sa.
  - done.
  - rewrite Z.eqb_refl in U2, Er2. exists a2'. split; [exact Er2|].
    eapply learned; [apply Ra|exact I2|apply Sa|done|exact U2].
Qed.

End Correct.

(** ** Examples *)

(** The packet of [net1] with the frame [l] in it. *)
Definition with_frame (l : list Z) (s : net lwip_mem wire) : net lwip_mem wire :=
  with_ps (with_bytes (write_bytes (payload pk_b) l (bytes (ps s))) (ps s)) s.

Lemma with_frame_data l s : Z.of_nat (length l) <= 100 -> data (with_frame l s) pk_b = l ++ drop (length l) (data s pk_b).
Proof.
  intros Hl. unfold data, with_frame. cbn [ps with_ps bytes with_bytes]. rewrite <-(Z.add_0_r (payload pk_b)) at 1.
  rewrite read_write by (change (len pk_b) with 100; lia). done.
Qed.

Lemma with_frame_received l s : net_inv s [pk] [] -> bufs (ps s) = {[pk := pk_b]} -> received [] [] pk pk_b (with_frame l s).
Proof.
  intros I Hb. split.
  - by apply inv_bytes.
  - done.
  - cbn [with_frame ps with_ps bufs with_bytes]. rewrite Hb. apply lookup_singleton_eq.
  - reflexivity.
  - by left.
Qed.

(** Host a is 192.168.0.7 and asks; host b is 192.168.0.2 and answers. *)
Definition netif_a : netif :=
  mk_netif demo_ip 0x00ffffff 0x0100a8c0 0 0 0 1500 demo_eth (n_flags demo_netif) (0, 0) 0.
Definition ask : list Z :=
  arp_frame ethbroadcast demo_eth demo_eth demo_ip ethzero (ip_addr demo_netif) ARP_REQUEST.
Definition answer : list Z :=
  arp_frame demo_eth demo_mac demo_mac (ip_addr demo_netif) demo_eth demo_ip ARP_REPLY.
Definition host_b : net lwip_mem wire := with_frame ask net1.
Definition host_a : net lwip_mem wire := with_frame answer (with_netifs {[0x100 := netif_a]} net1).

Lemma host_b_received : received [] [] pk pk_b host_b.
Proof. apply with_frame_received; [apply net1_inv|apply net1_bufs]. Qed.

Lemma host_a_received : received [] [] pk pk_b host_a.
Proof.
  apply with_frame_received; [|apply net1_bufs]. destruct net1_inv. split; try done. by apply map_Forall_singleton.
Qed.

Lemma host_b_speaks : speaks_arp 0x100 demo_netif host_b.
Proof. split; [apply lookup_singleton_eq|done|split; [done|by apply (bool_decide_unpack _)]|done]. Qed.

Lemma host_a_speaks : speaks_arp 0x100 netif_a host_a.
Proof. split; [apply lookup_singleton_eq|done|split; [done|by apply (bool_decide_unpack _)]|done]. Qed.

(** A ping from the wire. *)
Definition ping_frame : list Z := demo_mac ++ demo_eth ++ [8; 0] ++ ping.
Definition host_pinged : net lwip_mem wire := with_rx ping_frame net_rx.

Lemma with_rx_keeps l s : clients_ok s -> listed s -> clients_ok (with_rx l s) /\ listed (with_rx l s).
Proof. intros [] []. split; by split. Qed.

Lemma host_pinged_arrived : arrived [] [] rx rx_b [] host_pinged.
Proof.
  split; [exact (with_rx_packet ping_frame net_rx net_rx_inv net_rx_bufs)|done|done|by left|by apply Z.ltb_lt|by apply Z.ltb_lt].
Qed.

Lemma ethernet_input_safe_witness : exists s', ethernet_input rx 0x100 host_pinged = Some (ERR_OK, s') /\ net_inv s' [] [].
Proof.
  destruct (with_rx_keeps ping_frame net_rx (proj1 net_rx_clients) (proj2 net_rx_clients)) as [C Ls].
  assert (ihl_ok host_pinged rx_b) as Hi by (intros _; apply Z.leb_le; by vm_compute).
  assert (netifs host_pinged !! 0x100 = Some demo_netif) as En by (vm_compute; reflexivity).
  destruct (ethernet_input_safe [] [] rx rx_b [] 0x100 demo_netif host_pinged host_pinged_arrived Hi C Ls En) as (s' & E & I & _).
  exists s'. exact (conj E I).
Defined.

Lemma ask_parts : arp_parts ethbroadcast demo_eth demo_eth demo_ip ethzero.
Proof. split_and!; try done. Qed.

Lemma ethernet_input_answers_witness : exists s' b',
  ethernet_input pk 0x100 host_b = (_ <- link_output 0x100 pk ;; drop_packet pk ;; ret ERR_OK)%net s' /\
  data s' b' = answer ++ drop 42 (data net1 pk_b) /\
  cache (arp_table s') !! demo_ip = Some (Known demo_eth 0x100 0 false).
Proof.
  destruct (ethernet_input_answers [] [] pk pk_b 0x100 demo_netif ethbroadcast demo_eth demo_eth demo_ip ethzero
    (drop 42 (data net1 pk_b)) host_b host_b_received host_b_speaks ask_parts (with_frame_data ask net1 ltac:(done)))
    as (s' & b' & E & _ & _ & _ & D & H).
  exists s', b'. split; [exact E|]. split; [exact D|exact (H eq_refl)].
Defined.

(** Host a before it asks. *)
Definition host_a0 : net lwip_mem wire := with_netifs {[0x100 := netif_a]} net1.

Lemma host_a0_inv : net_inv host_a0 [pk] [].
Proof. destruct net1_inv. split; try done. by apply map_Forall_singleton. Qed.

Lemma host_a0_memory : match pbufs (pbuf_alloc PBUF_RAW SIZEOF_ETHARP_PACKET PBUF_RAM) host_a0 with
  | Some (p, _) => negb (p =? 0) | None => false end = true.
Proof. vm_compute. reflexivity. Qed.

Lemma arp_exchange_witness : exists q buf_q a' b' a2',
  etharp_request 0x100 (ip_addr demo_netif) host_a0 =
    (result <- link_output 0x100 q ;; inc_stat etharp_xmit ;; pbufs (pbuf_free q) ;; ret result)%net a' /\
  data a' buf_q = ask /\
  ethernet_input pk 0x100 host_b = (_ <- link_output 0x100 pk ;; drop_packet pk ;; ret ERR_OK)%net b' /\
  ethernet_input pk 0x100 host_a = (dhcp_arp_reply 0x100 (ip_addr demo_netif) ;; drop_packet pk ;; ret ERR_OK)%net a2' /\
  cache (arp_table b') !! demo_ip = Some (Known demo_eth 0x100 0 false) /\
  cache (arp_table a2') !! ip_addr demo_netif = Some (Known demo_mac 0x100 0 false).
Proof.
  destruct (arp_exchange [pk] [] [] [] [] [] 0x100 0x100 netif_a demo_netif pk pk pk_b pk_b host_a0 host_b host_a
    host_a0_inv (lookup_singleton_eq _ _) host_b_received host_b_speaks host_a_received host_a_speaks eq_refl eq_refl)
    as [(? & ? & _ & E0)|(q & buf_q & a' & Eq & _ & _ & Dq & H)].
  { pose proof host_a0_memory as Hm. rewrite E0 in Hm. discriminate Hm. }
  destruct (H (drop 42 (data net1 pk_b))) as (b' & buf & Eb & _ & D & Hb & H2); [by rewrite Dq; exact (with_frame_data ask net1 ltac:(done))|].
  destruct (H2 []) as (a2' & Ea & Ha).
  { rewrite app_nil_r. exact (eq_trans (with_frame_data answer _ ltac:(done)) (eq_sym D)). }
  exists q, buf_q, a', b', a2'. exact (conj Eq (conj Dq (conj Eb (conj Ea (conj Hb Ha))))).
Defined.

End EthInput.
