(* ===== verification/MacInput.v ===== *)
(** * Reception and interrupts of the Ethernet MAC driver

    [tivaif_receive] of tiva-tm4c129.c: the frames the hardware has put into the
    buffers of the receive descriptors go to [ethernet_input], and the
    descriptors get new buffers.  Only [InitDMADescriptors] and this function
    use the receive list, which is an argument here; the rest of the driver is
    below the stack ([link_laws]).

    [rx_inv]: the ring has 8 descriptors, and each has a pbuf of the pool of its
    own, of 512 bytes, or none.  What the hardware may have put there ([framed],
    [filled_ok]): a frame it reports as good is in one buffer and its IP header has 5
    words or more; frames with errors are of any number of buffers, and a frame may
    go on where the walk ends.  A good frame in two buffers is outside: its last
    pbuf reaches beyond its buffer ([tivaif_receive_two_buffers]).

    [served] says what becomes of the frames: [took] for one descriptor, [walked]
    for the walk. *)
From S2P Require Import Prelude Mem Alloc Pbuf PbufData Chksum IpAddr Refs Net Etharp Wire ArpCache Netif Autoip Packet IpOut Icmp Raw Ip EthInput.
From S2P Require Tivaif.
Import Alloc Pbuf PbufData Refs Net Etharp Wire ArpCache Netif Autoip Packet IpOut Icmp Raw Ip EthInput.
Import Tivaif.Tivaif(tDescriptor, mk_desc, ui32CtrlStatus, ui32Count, pvBuffer1, pLink, pBuf,
  tDescriptorList, mk_list, pDescriptors, ui32Read, ui32Write, desc, set_desc, wrapped, attached, view,
  NUM_RX_DESCRIPTORS, DES0_RX_CTRL_OWN, DES1_RX_CTRL_CHAINED, DES1_RX_CTRL_BUFF1_SIZE_S).

Module MacInput.
Local Open Scope net_scope.

Definition DES0_RX_STAT_FRAME_LENGTH_M : Z := 0x3FFF0000.
Definition DES0_RX_STAT_FRAME_LENGTH_S : Z := 16.
Definition DES0_RX_STAT_ERR : Z := 0x00008000.
Definition DES0_RX_STAT_LAST_DESC : Z := 0x00000100.

(** The bits of a descriptor's status. *)
Definition has_stat (m : Z) (d : tDescriptor) : bool := negb (Z.land (ui32CtrlStatus d) m =? 0).
Definition frame_length (d : tDescriptor) : Z :=
  Z.shiftr (Z.land (ui32CtrlStatus d) DES0_RX_STAT_FRAME_LENGTH_M) DES0_RX_STAT_FRAME_LENGTH_S.

(** ** Operations *)

Section Operations.
Context {A W : Type} {ops : alloc_ops A} {lops : link_ops A W} {uops : upper_ops A W} {aops : app_ops A W}.

(** The length of the last pbuf of a frame. *)
Definition fix_length (d : tDescriptor) : M A W unit :=
  pbufs_ (upd (pBuf d) (fun b => let n := u16 (frame_length d) in set_tot_len n (set_len n b))).

(** A complete frame. *)
Definition rx_complete (n p : Z) (d : tDescriptor) : M A W unit :=
  if has_stat DES0_RX_STAT_ERR d then drop_packet p ;; inc_stat link_drop
  else
    inc_stat link_recv ;;
    e <- ethernet_input p n ;;
    when (negb (e =? ERR_OK)) (drop_packet p ;; inc_stat link_memerrs ;; inc_stat link_drop).

(** What a filled descriptor holds; [chain] is the start of the frame in the
    descriptors before it, 0 for none, and the result the start of a frame that
    goes on.  (The pointer to the start that is also put into the descriptor is
    overwritten by [refill].) *)
Definition rx_buffer (n : Z) (d : tDescriptor) (chain : Z) : M A W Z :=
  when (has_stat DES0_RX_STAT_LAST_DESC d) (fix_length d) ;;
  when (negb (chain =? 0)) (pbufs_ (pbuf_cat chain (pBuf d))) ;;
  let p := if chain =? 0 then pBuf d else chain in
  if has_stat DES0_RX_STAT_LAST_DESC d then rx_complete n p d ;; ret 0 else ret p.

(** A new buffer for the descriptor. *)
Definition refill (d : tDescriptor) : M A W tDescriptor :=
  p <- pbufs (pbuf_alloc PBUF_RAW PBUF_POOL_BUFSIZE PBUF_POOL) ;;
  if p =? 0 then inc_stat link_memerrs ;; ret (mk_desc (ui32CtrlStatus d) DES1_RX_CTRL_CHAINED 0 (pLink d) 0)
  else
    b <- the_pbuf p ;;
    ret (mk_desc DES0_RX_CTRL_OWN (Z.lor DES1_RX_CTRL_CHAINED (Z.shiftl (len b) DES1_RX_CTRL_BUFF1_SIZE_S))
      (payload b) (pLink d) p).

(** The loop. *)
Fixpoint rx_loop (fuel : nat) (n ui32DescEnd : Z) (l : tDescriptorList) (chain : Z) : M A W (tDescriptorList * Z) :=
  match fuel with
  | O => fun _ => None
  | S fuel =>
      if ui32Read l =? ui32DescEnd then ret (l, chain)
      else
        d <- gets (fun _ => desc (ui32Read l) l) ;;
        if negb (pBuf d =? 0) && has_stat DES0_RX_CTRL_OWN d then ret (l, chain)
        else
          chain <- (if pBuf d =? 0 then ret chain else rx_buffer n d chain) ;;
          d' <- refill d ;;
          let l := set_desc (ui32Read l) d' l in
          if pBuf d' =? 0 then ret (l, chain)
          else rx_loop fuel n ui32DescEnd
                 (mk_list (pDescriptors l) (wrapped NUM_RX_DESCRIPTORS (ui32Read l)) (ui32Write l)) chain
  end.

Definition tivaif_receive (n : Z) (l : tDescriptorList) : M A W tDescriptorList :=
  let ui32DescEnd := if ui32Read l =? 0 then NUM_RX_DESCRIPTORS - 1 else ui32Read l - 1 in
  x <- rx_loop (Z.to_nat NUM_RX_DESCRIPTORS) n ui32DescEnd l 0 ;;
  when (negb (x.2 =? 0)) (drop_packet x.2) ;;
  ret x.1.

End Operations.

(** ** What is done with the frames *)

Section Walk.
Context {A W : Type} {ops : alloc_ops A} {lops : link_ops A W} {uops : upper_ops A W} {aops : app_ops A W}.
Implicit Types (s : net A W) (l : tDescriptorList) (d : tDescriptor).

(** The hardware has filled the buffer of the descriptor. *)
Definition filled d : bool := negb (pBuf d =? 0) && negb (has_stat DES0_RX_CTRL_OWN d).

(** The buffer goes behind the part of the frame that starts at [c]. *)
Definition first (c : Z) d : Z := if c =? 0 then pBuf d else c.
Definition joined (c : Z) d : M A W unit := when (negb (c =? 0)) (pbufs_ (pbuf_cat c (pBuf d))).

(** The buffer with the length the hardware reports. *)
Definition with_length d s : net A W :=
  with_ps (put (pBuf d) (set_tot_len (frame_length d) (set_len (frame_length d)
    (mk_pbuf 0 (pBuf d + 16) 512 512 PBUF_POOL 0 1))) (ps s)) s.

(** What becomes of one descriptor's buffer, [c] being the start of the frame in the
    descriptors before, 0 for none: nothing is there; it is part of a frame that
    goes on; it ends a frame with an error, and all of the frame is freed; it is a
    frame, and is handed up as long as the hardware says. *)
Inductive took (n : Z) d : Z -> net A W -> Z -> net A W -> Prop :=
  | took_none c s : pBuf d = 0 -> took n d c s c s
  | took_part c s s1 : filled d = true -> has_stat DES0_RX_STAT_LAST_DESC d = false ->
      joined c d s = Some (tt, s1) -> took n d c s (first c d) s1
  | took_bad c s s1 : filled d = true -> has_stat DES0_RX_STAT_LAST_DESC d = true -> has_stat DES0_RX_STAT_ERR d = true ->
      (joined c d ;; drop_packet (first c d) ;; inc_stat link_drop) s = Some (tt, s1) -> took n d c s 0 s1
  | took_good s s1 : filled d = true -> has_stat DES0_RX_STAT_LAST_DESC d = true -> has_stat DES0_RX_STAT_ERR d = false ->
      (inc_stat link_recv ;; ethernet_input (pBuf d) n) (with_length d s) = Some (ERR_OK, s1) -> took n d 0 s 0 s1.

(** The descriptor at the read index is replaced, and the index moves on. *)
Definition moved l d' : tDescriptorList :=
  mk_list (pDescriptors (set_desc (ui32Read l) d' l)) (wrapped NUM_RX_DESCRIPTORS (ui32Read l)) (ui32Write l).

(** The walk over at most [m] descriptors, of which [k] get a new buffer: it ends
    after [m], at a descriptor the hardware still has, or at one for which there is
    no new buffer. *)
Inductive walked (n : Z) : nat -> nat -> tDescriptorList -> Z -> net A W -> tDescriptorList -> Z -> net A W -> Prop :=
  | walked_all l c s : walked n 0 0 l c s l c s
  | walked_busy m l c s d : desc (ui32Read l) l = Some d -> pBuf d ≠ 0 -> has_stat DES0_RX_CTRL_OWN d = true ->
      walked n m 0 l c s l c s
  | walked_empty m l c s d c1 s1 d' s2 : desc (ui32Read l) l = Some d -> took n d c s c1 s1 ->
      refill d s1 = Some (d', s2) -> pBuf d' = 0 -> walked n (S m) 0 l c s (set_desc (ui32Read l) d' l) c1 s2
  | walked_on m k l c s d c1 s1 d' s2 l' c' s' : desc (ui32Read l) l = Some d -> took n d c s c1 s1 ->
      refill d s1 = Some (d', s2) -> pBuf d' ≠ 0 -> walked n m k (moved l d') c1 s2 l' c' s' ->
      walked n (S m) (S k) l c s l' c' s'.

(** The walk, and the part of a frame it ends in is freed. *)
Definition served (n : Z) (m k : nat) l s l' s' : Prop :=
  exists c s1, walked n m k l 0 s l' c s1 /\ when (negb (c =? 0)) (drop_packet c) s1 = Some (tt, s').

End Walk.

(** ** The ring *)

(** The pbuf [pbuf_alloc] makes for a descriptor. *)
Definition rx_pbuf (p : Z) : pbuf := mk_pbuf 0 (p + 16) 512 512 PBUF_POOL 0 1.

(** The frame that ends in the descriptor is good. *)
Definition good (d : tDescriptor) : bool := has_stat DES0_RX_STAT_LAST_DESC d && negb (has_stat DES0_RX_STAT_ERR d).

(** The descriptors, from the read index on: every good frame is in one buffer and
    no longer than that.  [b]: the buffer before is part of a frame that goes on. *)
Fixpoint framed (b : bool) (ds : list tDescriptor) : bool :=
  match ds with
  | [] => true
  | d :: ds =>
      if pBuf d =? 0 then framed b ds
      else if has_stat DES0_RX_CTRL_OWN d then framed false ds
      else if has_stat DES0_RX_STAT_LAST_DESC d
      then (has_stat DES0_RX_STAT_ERR d || (negb b && (frame_length d <=? 512))) && framed false ds
      else framed true ds
  end.

(** What stays: the packets [keep], the interfaces and the clients. *)
Definition kept {A W} (keep : list Z) (s s' : net A W) : Prop := same_packets (ps s) (ps s') keep /\ keeps s s'.

Lemma kept_refl {A W} keep (s : net A W) : kept keep s s.
Proof. split; [apply same_packets_refl|apply keeps_refl]. Qed.

Lemma kept_trans {A W} keep (s1 s2 s3 : net A W) : kept keep s1 s2 -> kept keep s2 s3 -> kept keep s1 s3.
Proof. intros [P1 K1] [P2 K2]. split; [by eapply same_packets_trans|by eapply keeps_trans]. Qed.

Lemma kept_frame {A W} keep (s s' : net A W) : frame keep s s' -> kept keep s s'.
Proof. apply frame_keeps. Qed.

Lemma kept_sub {A W} keep keep' (s s' : net A W) : (forall a, a ∈ keep' -> a ∈ keep) -> kept keep s s' -> kept keep' s s'.
Proof. intros Hs [P K]. split; [by eapply same_packets_sub|done]. Qed.

(** A descriptor has a pbuf whose data is the buffer for the hardware to write
    to, or none, and is not the hardware's then. *)
Definition slot_ok {A} (s : pstate A) (d : tDescriptor) : Prop :=
  (pBuf d = 0 /\ pvBuffer1 d = 0 /\ has_stat DES0_RX_CTRL_OWN d = false) \/
  (bufs s !! pBuf d = Some (rx_pbuf (pBuf d)) /\ pvBuffer1 d = pBuf d + 16 /\
   ui32Count d = Z.lor DES1_RX_CTRL_CHAINED 512).

Section Correct.
Context {A W : Type} {ops : alloc_ops A} {laws : alloc_laws A} {lops : link_ops A W} {llaws : link_laws A W}
  {uops : upper_ops A W} {ulaws : upper_laws A W} {aops : app_ops A W} {alaws : app_laws A W}.
Implicit Types s : net A W.

(** An IP header in a good frame is of 5 words or more. *)
Definition filled_ok s (d : tDescriptor) : Prop := filled d = true -> good d = true -> ihl_ok s (rx_pbuf (pBuf d)).

(** [b]: the walk is within a frame. *)
Record rx_ring (b : bool) (extra : list Z) (R : list block) (l : tDescriptorList) s : Prop := {
  rx_net : net_inv s (attached (pDescriptors l) ++ extra) R;
  rx_len : length (pDescriptors l) = 8%nat;
  rx_read : 0 <= ui32Read l < 8;
  rx_slots : Forall (slot_ok (ps s)) (pDescriptors l);
  rx_filled : Forall (filled_ok s) (pDescriptors l);
  rx_framed : framed b (view l) = true }.
Definition rx_inv := rx_ring false.

(** *** Buffers *)

Lemma frame_length_bound d : 0 <= frame_length d < 2 ^ 14.
Proof.
  unfold frame_length, DES0_RX_STAT_FRAME_LENGTH_S. rewrite Z.shiftr_land.
  change (Z.shiftr DES0_RX_STAT_FRAME_LENGTH_M 16) with (Z.ones 14). rewrite Z.land_ones by lia. apply Z.mod_pos_bound. lia.
Qed.

(** The buffer of a descriptor is as it was where its packet is kept. *)
Lemma slot_kept s s' keep extra R p : same_packets (ps s) (ps s') keep -> net_inv s' extra R -> p ∈ keep -> p ≠ 0 ->
  bufs (ps s) !! p = Some (rx_pbuf p) ->
  bufs (ps s') !! p = Some (rx_pbuf p) /\
  read_bytes (bytes (ps s')) (p + 16) 512 = read_bytes (bytes (ps s)) (p + 16) 512.
Proof.
  intros H I' Hp Hz E.
  destruct (H p [(p, rx_pbuf p)] Hp ltac:(by repeat split)) as (l' & Hc & Es & Rl & Hd).
  split; [|apply (Hd p (rx_pbuf p)); [by left|by right]].
  destruct l' as [|[x b] [|]]; [done| |done]. destruct Hc as (<- & _ & Eb & _). rewrite Eb. f_equal.
  apply Forall2_cons in Rl as [Hr _]. cbn [snd rx_pbuf ref] in Hr. unfold stripped in Es. rewrite !fmap_cons in Es.
  cbn [fst snd] in Es. apply (f_equal (fun k => snd <$> head k)) in Es. cbn [head fmap option_fmap option_map snd] in Es.
  apply Some_inj in Es. destruct (ri_pinv _ _ _ (ni_refs _ _ _ I')) as [B Ip].
  destruct (pinv_get _ _ _ _ _ Ip Eb) as (_ & _ & _ & _ & _ & Hr0).
  destruct (strip_eq _ _ Es) as (E1 & E2 & E3 & E4 & E5 & E6). destruct b. cbn in *. unfold rx_pbuf. f_equal; try done. lia.
Qed.

Lemma ihl_kept s s' p : read_bytes (bytes (ps s')) (p + 16) 512 = read_bytes (bytes (ps s)) (p + 16) 512 ->
  ihl_ok s (rx_pbuf p) -> ihl_ok s' (rx_pbuf p).
Proof.
  intros E. unfold ihl_ok. cbn [payload rx_pbuf]. rewrite !(read_sub _ (p + 16) _ _ 512) by lia. by rewrite E.
Qed.

Lemma filled_spec d : filled d = true <-> pBuf d ≠ 0 /\ has_stat DES0_RX_CTRL_OWN d = false.
Proof. unfold filled. rewrite andb_true_iff, !negb_true_iff, Z.eqb_neq. done. Qed.

Lemma slot_filled_kept s s' keep extra0 extra R d : same_packets (ps s) (ps s') keep -> net_inv s extra0 R -> net_inv s' extra R ->
  (pBuf d ≠ 0 -> pBuf d ∈ keep) -> slot_ok (ps s) d -> filled_ok s d -> slot_ok (ps s') d /\ filled_ok s' d.
Proof.
  intros H I I' Hk [Hz|[E He]] Hf; [split; [by left|]; intros [Hz' _]%filled_spec; by destruct Hz|].
  destruct (decide (pBuf d = 0)) as [Hz|Hz].
  { rewrite Hz in E. destruct (ri_nonzero _ _ _ _ _ (ni_refs _ _ _ I) E). lia. }
  destruct (slot_kept _ _ _ _ _ _ H I' (Hk Hz) Hz E) as [E' Hd]. split; [by right|].
  intros Ho Hg. eapply ihl_kept; [exact Hd|by apply Hf].
Qed.

(** A packet that is kept. *)
Lemma one_packet_kept keep keep1 keep2 R c b l s s' : packet keep R c b l s -> same_packets (ps s) (ps s') keep1 -> c ∈ keep1 ->
  net_inv s' (c :: keep2) R -> packet keep2 R c b l s'.
Proof.
  intros [I Hc F Fc Po] S Hin I'. destruct (S c _ Hin Hc) as (l' & Hc' & Es & Hr & _).
  assert (l' = (c, b) :: l) as ->; [|by split].
  assert (forall x y, (x, y) ∈ l' -> 0 < ref y) as Hpos.
  { intros x y Hxy. destruct (chain_elem _ _ _ _ _ _ Hc' Hxy) as [Ex _].
    destruct (ri_pinv _ _ _ (ni_refs _ _ _ I')) as [B Ip]. destruct (pinv_get _ _ _ _ _ Ip Ex) as (_ & _ & _ & (_ & _ & Hr0)). lia. }
  clear -Es Hr F Hpos. revert l' Es Hr Hpos. induction ((c, b) :: l) as [|[x y] k IH]; intros l' Es Hr Hpos; inversion Hr as [|[x' y'] ? k' ? Hxy Hk]; subst; [done|].
  apply Forall_cons in F as [Hy F]. cbn [snd] in *. 
  change ((x', strip y') :: stripped k' = (x, strip y) :: stripped k) in Es.
  pose proof (f_equal tail Es) as Ek. pose proof (f_equal (hd (0, y)) Es) as Eh. cbn [tail hd] in Ek, Eh.
  pose proof (f_equal snd Eh) as Ey. apply (f_equal fst) in Eh. cbn [fst snd] in Ey, Eh. subst x'. clear Es.
  f_equal; [|apply IH; [done|exact Ek|exact Hk|intros a z Haz; eapply Hpos; right; exact Haz]].
  f_equal. pose proof (Hpos x y' ltac:(by left)). destruct (strip_eq _ _ Ey) as (? & ? & ? & ? & ? & ?). destruct y, y'.
  cbn in *. f_equal; congruence || lia.
Qed.

(** A new buffer. *)
Lemma alloc_rx p (m m' : pstate A) : pbuf_alloc PBUF_RAW PBUF_POOL_BUFSIZE PBUF_POOL m = Some (p, m') -> p ≠ 0 ->
  bufs m' !! p = Some (mk_pbuf 0 (Mem.LWIP_MEM_ALIGN (p + 16)) 512 512 PBUF_POOL 0 1).
Proof.
  cbn [pbuf_alloc]. destruct (pool_malloc _ _) as [[q a]|]; [|done]. cbn [mbind option_bind].
  destruct (Z.eqb_spec q 0) as [Hz|Hz]; [by intros [= -> _] ?|].
  change (Z.min PBUF_POOL_BUFSIZE (PBUF_POOL_BUFSIZE_ALIGNED - Mem.LWIP_MEM_ALIGN_SIZE (layer_offset PBUF_RAW))) with 512.
  change (PBUF_POOL_BUFSIZE - 512) with 0. cbn [pool_tail Z.leb Z.compare mbind option_bind].
  rewrite (upd_put q _ _ _ (get_put_eq q _ _)). cbn [mbind option_bind]. intros [= <- <-] _. apply lookup_insert_eq.
Qed.

Lemma wp_rx_alloc extra R Q s : net_inv s extra R ->
  (forall s', net_inv s' extra R -> kept extra s s' -> Q 0 s') ->
  (forall p s', p ≠ 0 -> net_inv s' (p :: extra) R -> kept extra s s' -> bufs (ps s') !! p = Some (rx_pbuf p) -> Q p s') ->
  wp (pbufs (pbuf_alloc PBUF_RAW PBUF_POOL_BUFSIZE PBUF_POOL)) Q s.
Proof.
  intros I H0 H1.
  assert (wp (pbufs (pbuf_alloc PBUF_RAW PBUF_POOL_BUFSIZE PBUF_POOL)) (fun p s' => kept extra s s' /\
    ((p = 0 /\ net_inv s' extra R) \/ (p ≠ 0 /\ net_inv s' (p :: extra) R))) s) as (p & s' & E & K & Hp)%wp_run.
  { eapply wp_alloc; [exact I|done| |].
    - intros s' I' F' _. split; [by apply kept_frame|by left].
    - intros p b l s' Hz I' F' _ _ _ _ _ _ _. split; [by apply kept_frame|by right]. }
  unfold wp. rewrite E. destruct Hp as [[-> I']|[Hz I']]; [by apply H0|]. apply H1; [done|done|done|].
  unfold pbufs in E. destruct (pbuf_alloc _ _ _ (ps s)) as [[q m]|] eqn:Ea; [|done]. cbn [mbind option_bind] in E.
  injection E as -> <-. cbn [ps with_ps] in *. pose proof (alloc_rx _ _ _ Ea Hz) as Eb. rewrite Eb.
  pose proof (ri_nonzero _ _ _ _ _ (ni_refs _ _ _ I') Eb) as [Hp0 Hm].
  destruct (ri_pinv _ _ _ (ni_refs _ _ _ I')) as [B Ip]. cbn [ps with_ps] in Ip.
  unfold rx_pbuf. f_equal. f_equal.
  destruct (align_spec (p + 16)) as [Hq Hq4]; [|cint_pow; Z.div_mod_to_equations; lia].
  pose proof (payload_bound _ _ _ _ _ I' Eb ltac:(by right)) as Hb.
  destruct (pinv_get _ _ _ _ _ Ip Eb) as (k & _ & (_ & _ & Hk) & _). cbn [payload len Pbuf.type] in *. cint.
Qed.

(** *** The loop *)

(** The part of a frame that starts at [c], in [k] buffers. *)
Definition hold (c : Z) : list Z := if c =? 0 then [] else [c].
Definition headed keep R (c : Z) (k : nat) s : Prop :=
  c = 0 \/ (c ≠ 0 /\ exists b l, packet keep R c b l s /\ tot ((c, b) :: l) <= 512 * Z.of_nat k).

Lemma headed_kept keep keep1 keep2 R c k s s' : headed keep R c k s -> same_packets (ps s) (ps s') keep1 -> (c ≠ 0 -> c ∈ keep1) ->
  net_inv s' (hold c ++ keep2) R -> headed keep2 R c k s'.
Proof.
  intros [->|(Hz & b & l & Pk & Ht)] S Hin I'; [by left|right]. split; [done|]. exists b, l. split; [|done].
  unfold hold in I'. rewrite (proj2 (Z.eqb_neq c 0) Hz) in I'. eapply one_packet_kept; eauto.
Qed.

(** The buffer of a descriptor as a packet. *)
Lemma slot_packet keep R d s : net_inv s (pBuf d :: keep) R -> bufs (ps s) !! pBuf d = Some (rx_pbuf (pBuf d)) -> pBuf d ≠ 0 ->
  packet keep R (pBuf d) (rx_pbuf (pBuf d)) [] s.
Proof.
  intros I E Hz. split; [done| | | |by constructor]; [by repeat split|by repeat constructor|]. constructor; [by right|done].
Qed.

(** The buffer is put behind the part of the frame before.  What the hardware reports
    as its length makes no difference when the whole is freed then. *)
Lemma joined_run keep R d c k s : net_inv s (pBuf d :: hold c ++ keep) R -> bufs (ps s) !! pBuf d = Some (rx_pbuf (pBuf d)) ->
  pBuf d ≠ 0 -> headed (pBuf d :: keep) R c k s -> (k < 8)%nat ->
  exists m b l, joined c d s = Some (tt, with_ps m s) /\ packet keep R (first c d) b l (with_ps m s) /\ kept keep s (with_ps m s) /\
    tot ((first c d, b) :: l) <= 512 * Z.of_nat (S k) /\
    forall b2, bare (rx_pbuf (pBuf d)) = bare b2 -> exists m2,
      joined c d (with_ps (put (pBuf d) b2 (ps s)) s) = Some (tt, with_ps m2 s) /\ pbuf_free (first c d) m2 = pbuf_free (first c d) m.
Proof.
  intros I E Hz [->|(Hcz & b & l & Pk & Ht)] Hk; unfold joined, first.
  - cbn [Z.eqb negb when hold app] in *. exists (ps s), (rx_pbuf (pBuf d)), [].
    assert (with_ps (ps s) s = s) as Hs by (by destruct s). rewrite Hs. split; [done|]. pose proof (slot_packet _ _ _ _ I E Hz) as Pk.
    split; [exact Pk|]. split; [apply kept_refl|]. split; [cbn; lia|]. intros b2 Hb. exists (put (pBuf d) b2 (ps s)). split; [done|].
    eapply free_lengths; [apply Pk|apply Pk|done|apply Pk|]. eapply same_but_one; [exact E|done|by left].
  - rewrite (proj2 (Z.eqb_neq c 0) Hcz). cbn [negb when].
    destruct (pk_cat _ _ _ _ _ _ _ _ Pk E eq_refl eq_refl ltac:(by right) ltac:(done) ltac:(cbn [tot_len rx_pbuf]; lia))
      as (m & b' & l' & Ec & Pk' & F' & Ht' & Hfst).
    exists m, b', l'. split; [unfold pbufs_; by rewrite Ec|]. split; [exact Pk'|]. split; [by apply kept_frame|].
    split; [cbn [len rx_pbuf] in Ht'; lia|]. intros b2 Hb.
    assert (same_but (fun a => a ∈ ((c, b') :: l').*1) (ps s) (put (pBuf d) b2 (ps s))) as S.
    { eapply same_but_one; [exact E|done|]. rewrite Hfst. set_solver. }
    destruct (pbuf_cat_sim (fun a => a ∈ ((c, b') :: l').*1) c (pBuf d) ((c, b) :: l) _ _ _ ltac:(apply Pk) ltac:(intros a Ha; rewrite Hfst; set_solver) S Ec) as (m2 & E2 & S2).
    exists m2. split; [unfold pbufs_; cbn [ps with_ps]; by rewrite E2|].
    eapply free_lengths; [apply Pk'|apply Pk'|done|apply Pk'|exact S2].
Qed.

Lemma fix_length_run d s : bufs (ps s) !! pBuf d = Some (rx_pbuf (pBuf d)) -> fix_length d s = Some (tt, with_length d s).
Proof.
  intros E. pose proof (frame_length_bound d). unfold fix_length, pbufs_, with_length. rewrite (wrap_id 16) by cint.
  by rewrite (upd_put _ _ _ _ E).
Qed.

(** The end of a frame with an error: the frame is freed. *)
Lemma rx_bad_run keep R n d c k s : net_inv s (pBuf d :: hold c ++ keep) R -> filled d = true ->
  bufs (ps s) !! pBuf d = Some (rx_pbuf (pBuf d)) -> headed (pBuf d :: keep) R c k s -> (k < 8)%nat ->
  has_stat DES0_RX_STAT_LAST_DESC d = true -> has_stat DES0_RX_STAT_ERR d = true ->
  exists s', rx_buffer n d c s = Some (0, s') /\ net_inv s' keep R /\ kept keep s s' /\ took n d c s 0 s'.
Proof.
  intros I Hfl E Hd Hk Hl He. pose proof Hfl as [Hz _]%filled_spec.
  destruct (joined_run keep R d c k s I E Hz Hd Hk) as (m & b & l & Ej & Pk & K1 & _ & Hsame).
  assert (wp (drop_packet (first c d) ;; inc_stat link_drop) (fun _ s' => net_inv s' keep R /\ kept keep s s') (with_ps m s))
    as ([] & s' & E2 & I' & K')%wp_run.
  { apply wp_bind. eapply wp_drop; [apply Pk|]. intros s2 I2 P2 K2. eapply wp_stat; [exact I2|]. intros s3 I3 F3 _ _.
    split; [done|]. eapply kept_trans; [exact K1|]. eapply kept_trans; [by split|by apply kept_frame]. }
  exists s'. split; [|split; [done|split; [done|]]].
  - destruct (Hsame (set_tot_len (frame_length d) (set_len (frame_length d) (rx_pbuf (pBuf d)))) eq_refl) as (m2 & Ej2 & Hf).
    unfold rx_buffer. rewrite Hl. cbn [when]. rewrite (bind_run _ _ _ _ _ (fix_length_run d s E)).
    fold (joined (A := A) (W := W) c d). unfold with_length. fold (rx_pbuf (pBuf d)). rewrite (bind_run _ _ _ _ _ Ej2). cbv zeta. fold (first c d).
    unfold rx_complete. rewrite He. rewrite (bind_run _ _ (with_ps m2 s) tt s'); [done|]. rewrite <-E2.
    unfold drop_packet, bind, pbufs. cbn [ps with_ps]. rewrite Hf. by destruct (pbuf_free (first c d) m) as [[]|].
  - apply took_bad; [done|done|done|]. by rewrite (bind_run _ _ _ _ _ Ej).
Qed.

(** A good frame, in one buffer, goes up. *)
Lemma rx_good_run keep R n d s : net_inv s (pBuf d :: keep) R -> Z.of_nat (length keep) < 49995 -> filled d = true ->
  bufs (ps s) !! pBuf d = Some (rx_pbuf (pBuf d)) -> has_stat DES0_RX_STAT_LAST_DESC d = true -> has_stat DES0_RX_STAT_ERR d = false ->
  frame_length d <= 512 -> ihl_ok s (rx_pbuf (pBuf d)) -> clients_ok s -> listed s -> is_Some (netifs s !! n) ->
  exists s', rx_buffer n d 0 s = Some (0, s') /\ net_inv s' keep R /\ kept keep s s' /\ took n d 0 s 0 s'.
Proof.
  intros I Hx Hfl E Hl He Hlen Hihl Cl Ls [nif En]. pose proof Hfl as [Hz _]%filled_spec.
  pose proof (frame_length_bound d) as Hfb. pose proof (slot_packet _ _ _ _ I E Hz) as Pk.
  destruct (ri_pinv _ _ _ (ni_refs _ _ _ I)) as [B Ip]. set (k := frame_length d) in *. set (p := pBuf d) in *.
  set (b := set_tot_len k (set_len k (rx_pbuf p))).
  destruct (pk_put keep R p (rx_pbuf p) b [] s Pk) as [Pk1 F1]; try done; [by right|cbn; lia|cbn; lia|cbn; cint| |].
  { exists B. eapply pinv_upd; [exact Ip|exact E|done|cbn; lia|cbn; lia|]. unfold pbuf_ok. cbn. cint. }
  change (with_ps (put p b (ps s)) s) with (with_length d s) in Pk1, F1. apply kept_frame in F1 as [P1 K1].
  assert (wp (inc_stat link_recv ;; ethernet_input p n) (fun r s' => r = ERR_OK /\ net_inv s' keep R /\ kept keep s s') (with_length d s))
    as (r & s' & E2 & -> & I' & K')%wp_run.
  { apply wp_bind. apply wp_inc_stat. intros f. set (s2 := with_stats f (with_length d s)).
    assert (kept keep s s2) as [P2 K2] by (eapply kept_trans; [by split|]; apply kept_frame, frame_stats, frame_refl).
    eapply (wp_ethernet_input keep R p b [] n nif); [|by apply Hihl|by apply K2|by apply K2|done|].
    + split; [by apply pk_stats|done|done|by left|cbn; cint|done].
    + intros s3 I3 P3 K3. split; [done|]. split; [done|]. eapply kept_trans; [by split|by split]. }
  exists s'. split; [|split; [done|split; [done|by apply took_good]]].
  unfold rx_buffer. rewrite Hl. cbn [when]. rewrite (bind_run _ _ _ _ _ (fix_length_run d s E)). cbn [Z.eqb negb when].
  rewrite (bind_run (ret tt) _ _ tt (with_length d s) eq_refl). cbv zeta. unfold rx_complete. rewrite He. fold p.
  rewrite (bind_run _ _ (with_length d s) tt s'); [done|]. unfold bind in E2 |- *.
  destruct (inc_stat link_recv (with_length d s)) as [[[] s2]|]; [|done]. by rewrite E2.
Qed.

(** What becomes of a filled buffer. *)
Lemma wp_rx_buffer keep R n d c k Q s : net_inv s (pBuf d :: hold c ++ keep) R -> Z.of_nat (length keep) < 49995 ->
  filled d = true -> slot_ok (ps s) d -> filled_ok s d -> headed (pBuf d :: keep) R c k s -> (k < 8)%nat ->
  (good d = true -> c = 0 /\ frame_length d <= 512) -> clients_ok s -> listed s -> is_Some (netifs s !! n) ->
  (forall c' s', net_inv s' (hold c' ++ keep) R -> kept keep s s' -> headed keep R c' (S k) s' ->
    (c' =? 0) = has_stat DES0_RX_STAT_LAST_DESC d -> took n d c s c' s' -> Q c' s') -> wp (rx_buffer n d c) Q s.
Proof.
  intros I Hx Hfl Hsl Hf Hd Hk Hg Cl Ls Nn HQ. pose proof Hfl as [Hz Ho]%filled_spec. destruct Hsl as [[? _]|[E _]]; [done|]. unfold wp.
  destruct (has_stat DES0_RX_STAT_LAST_DESC d) eqn:Hl; [destruct (has_stat DES0_RX_STAT_ERR d) eqn:He|].
  - destruct (rx_bad_run keep R n d c k s I Hfl E Hd Hk Hl He) as (s' & Er & I' & K' & T'). rewrite Er. apply HQ; try done. by left.
  - assert (good d = true) as Hgd by (unfold good; by rewrite Hl, He). destruct (Hg Hgd) as [-> Hlen].
    destruct (rx_good_run keep R n d s I Hx Hfl E Hl He Hlen (Hf Hfl Hgd) Cl Ls Nn) as (s' & Er & I' & K' & T').
    rewrite Er. apply HQ; try done. by left.
  - destruct (joined_run keep R d c k s I E Hz Hd Hk) as (m & b & l & Ej & Pk & K1 & Ht & _).
    assert (rx_buffer n d c s = Some (first c d, with_ps m s)) as Er.
    { unfold rx_buffer. rewrite Hl. cbn [when]. rewrite (bind_run (ret tt) _ s tt s eq_refl). fold (joined (A := A) (W := W) c d).
      by rewrite (bind_run _ _ _ _ _ Ej). }
    assert (first c d ≠ 0) as Hc by (unfold first; by destruct (Z.eqb_spec c 0)). pose proof (proj2 (Z.eqb_neq _ 0) Hc) as Hc'.
    rewrite Er. apply HQ; [unfold hold; rewrite Hc'; apply Pk|done|right; split; [done|by exists b, l]|done|by apply took_part].
Qed.

Lemma wp_refill keep R d Q s : net_inv s keep R -> has_stat DES0_RX_CTRL_OWN d = false ->
  (forall d' s', net_inv s' (attached [d'] ++ keep) R -> kept keep s s' -> slot_ok (ps s') d' -> pLink d' = pLink d ->
    (pBuf d' ≠ 0 -> has_stat DES0_RX_CTRL_OWN d' = true) -> Q d' s') ->
  wp (refill d) Q s.
Proof.
  intros I Ho HQ. unfold refill. apply wp_bind. eapply wp_rx_alloc; [exact I| |].
  - intros s1 I1 K1. cbn [Z.eqb]. apply wp_bind. eapply wp_stat; [exact I1|]. intros s2 I2 F2 _ _. apply wp_ret.
    apply HQ; [done| |by left|done|done]. eapply kept_trans; [exact K1|by apply kept_frame].
  - intros p s1 Hz I1 K1 E1. rewrite (proj2 (Z.eqb_neq p 0) Hz). apply wp_bind, (wp_gets _ (rx_pbuf p)); [done|]. apply wp_ret.
    apply HQ; [|done|by right|done|done]. unfold attached. cbn [fmap list_fmap pBuf]. by rewrite filter_cons_True.
Qed.

(** The list [k] of at most [m] descriptors on: those have buffers and are the
    hardware's, the others are as they were. *)
Record rx_moved (l : tDescriptorList) (m k : nat) (l' : tDescriptorList) : Prop := {
  rm_count : (k <= m)%nat;
  rm_read : ui32Read l' = (ui32Read l + Z.of_nat k) mod 8;
  rm_links : pLink <$> pDescriptors l' = pLink <$> pDescriptors l;
  rm_passed : forall i, (i < k)%nat -> exists d, desc ((ui32Read l + Z.of_nat i) mod 8) l' = Some d /\
    pBuf d ≠ 0 /\ has_stat DES0_RX_CTRL_OWN d = true;
  rm_rest : forall i, (k < i < 8)%nat -> desc ((ui32Read l + Z.of_nat i) mod 8) l' = desc ((ui32Read l + Z.of_nat i) mod 8) l }.

(** What [tivaif_receive] has done. *)
Record rx_done extra R (n : Z) (l : tDescriptorList) s (k : nat) (l' : tDescriptorList) s' : Prop := {
  rd_inv : rx_inv extra R l' s';
  rd_kept : kept extra s s';
  rd_moved : rx_moved l 7 k l';
  rd_served : served n 7 k l s l' s' }.

#[export] Instance attached_perm : Proper ((≡ₚ) ==> (≡ₚ)) attached.
Proof. intros x y E. unfold attached. by rewrite E. Qed.

Lemma attached_at ds i d : ds !! i = Some d -> attached ds ≡ₚ attached [d] ++ attached (delete i ds).
Proof. intros E. rewrite (delete_Permutation ds i d E) at 1. by rewrite <-Tivaif.Tivaif.attached_app. Qed.

Lemma delete_insert_same {X} (l : list X) i x : delete i (<[i := x]> l) = delete i l.
Proof. by rewrite !delete_take_drop, take_insert_ge, drop_insert_lt by lia. Qed.

Lemma attached_set ds i d d' : ds !! i = Some d -> attached (<[i := d']> ds) ≡ₚ attached [d'] ++ attached (delete i ds).
Proof.
  intros E. rewrite (attached_at _ i d'); [|apply list_lookup_insert_eq; by eapply lookup_lt_Some].
  by rewrite delete_insert_same.
Qed.

Lemma attached_length ds : (length (attached ds) <= length ds)%nat.
Proof. unfold attached. rewrite length_filter, length_fmap. done. Qed.

Lemma attached_elem ds d : d ∈ ds -> pBuf d ≠ 0 -> pBuf d ∈ attached ds.
Proof. intros Hd Hz. apply list_elem_of_filter. split; [done|]. by apply list_elem_of_fmap_2. Qed.

(** *** The order of the frames *)

Lemma framed_mono ds : framed true ds = true -> framed false ds = true.
Proof.
  induction ds as [|d ds IH]; [done|]. cbn [framed]. destruct (pBuf d =? 0); [done|]. destruct (has_stat DES0_RX_CTRL_OWN d); [done|].
  destruct (has_stat DES0_RX_STAT_LAST_DESC d); [|done]. destruct (has_stat DES0_RX_STAT_ERR d); [done|]. done.
Qed.

Lemma framed_false b ds : framed b ds = true -> framed false ds = true.
Proof. destruct b; [apply framed_mono|done]. Qed.

(** A descriptor without a frame at the end. *)
Lemma framed_snoc d' : filled d' = false -> forall ds b, framed b ds = true -> framed b (ds ++ [d']) = true.
Proof.
  intros Hd. induction ds as [|d ds IH]; intros b; cbn [framed app].
  - unfold filled in Hd. destruct (pBuf d' =? 0); [done|]. by destruct (has_stat DES0_RX_CTRL_OWN d').
  - destruct (pBuf d =? 0); [apply IH|]. destruct (has_stat DES0_RX_CTRL_OWN d); [apply IH|].
    destruct (has_stat DES0_RX_STAT_LAST_DESC d); [|apply IH]. rewrite !andb_true_iff. intros [? ?]. split; [done|by apply IH].
Qed.

Lemma framed_none ds : Forall (fun d => filled d = false) ds -> forall b, framed b ds = true.
Proof.
  induction 1 as [|d ds Hd _ IH]; intros b; [done|]. cbn [framed]. unfold filled in Hd.
  destruct (pBuf d =? 0); [apply IH|]. destruct (has_stat DES0_RX_CTRL_OWN d); [apply IH|done].
Qed.

(** The first descriptor, and what is known of the others after it. *)
Lemma framed_cons b d ds : framed b (d :: ds) = true -> filled d = true ->
  (good d = true -> b = false /\ frame_length d <= 512) /\ framed (negb (has_stat DES0_RX_STAT_LAST_DESC d)) ds = true.
Proof.
  cbn [framed]. unfold filled, good. destruct (pBuf d =? 0); [done|]. destruct (has_stat DES0_RX_CTRL_OWN d); [done|]. intros H _.
  destruct (has_stat DES0_RX_STAT_LAST_DESC d); [|done]. apply andb_true_iff in H as [H H2]. split; [|done].
  destruct (has_stat DES0_RX_STAT_ERR d); [done|]. cbn [orb] in H. apply andb_true_iff in H as [Hb Hl%Z.leb_le].
  intros _. split; [by destruct b|done].
Qed.

(** The view from the read index, and from the next one when the descriptor there was
    replaced. *)
Lemma view_at l d : length (pDescriptors l) = 8%nat -> 0 <= ui32Read l < 8 -> desc (ui32Read l) l = Some d ->
  exists ds, view l = d :: ds /\
    forall d', view (set_desc (ui32Read l) d' l) = d' :: ds /\ view (moved l d') = ds ++ [d'].
Proof.
  intros Hl Hr E. unfold desc in E. set (r := Z.to_nat (ui32Read l)) in *. pose proof (take_drop_middle _ _ _ E) as Em.
  assert (r < 8)%nat as Hr8 by lia. assert (length (take r (pDescriptors l)) = r) as Hlt by (rewrite length_take; lia).
  exists (drop (S r) (pDescriptors l) ++ take r (pDescriptors l)). split.
  - unfold view. fold r. by rewrite (drop_S _ _ _ E).
  - intros d'. assert (<[r := d']> (pDescriptors l) = take r (pDescriptors l) ++ d' :: drop (S r) (pDescriptors l)) as Ei
      by (apply insert_take_drop; lia).
    split; unfold view, moved, set_desc; cbn [pDescriptors ui32Read]; fold r; rewrite Ei.
    + rewrite drop_app_ge, take_app_le by lia. rewrite Hlt, Nat.sub_diag, take_ge by lia. done.
    + unfold wrapped. rewrite (wrap_id 32 (ui32Read l + 1)) by cint. unfold NUM_RX_DESCRIPTORS.
      destruct (Z.eqb_spec (ui32Read l + 1) 8) as [E8|E8].
      * change (Z.to_nat 0) with 0%nat. rewrite drop_0, take_0, app_nil_r. assert (r = 7%nat) as -> by lia.
        by rewrite (drop_ge (pDescriptors l) 8) by lia.
      * replace (Z.to_nat (ui32Read l + 1)) with (S r) by lia.
        rewrite drop_app_ge, take_app_ge by lia. rewrite Hlt. replace (S r - r)%nat with 1%nat by lia. cbn [drop take].
        by rewrite app_assoc.
Qed.

(** The descriptor at the read index is replaced, the others stay. *)
Lemma rx_replace b b' extra extra' R l d d' s s' : rx_ring b extra R l s -> desc (ui32Read l) l = Some d ->
  net_inv s' (attached [d'] ++ attached (delete (Z.to_nat (ui32Read l)) (pDescriptors l)) ++ extra') R ->
  kept (attached (delete (Z.to_nat (ui32Read l)) (pDescriptors l))) s s' ->
  slot_ok (ps s') d' -> filled d' = false -> framed b' (view (set_desc (ui32Read l) d' l)) = true ->
  rx_ring b' extra' R (set_desc (ui32Read l) d' l) s'.
Proof.
  intros [I Hl Hr Hs Hf _] E I' [P' K'] Hd' Ho Hw. unfold desc in E.
  assert (filled_ok s' d') as Hf' by (intros Hn; by rewrite Ho in Hn).
  assert (forall e, e ∈ delete (Z.to_nat (ui32Read l)) (pDescriptors l) -> slot_ok (ps s') e /\ filled_ok s' e) as Hoth.
  { intros e He. rewrite Forall_forall in Hs, Hf.
    assert (e ∈ pDescriptors l) as He' by (rewrite (delete_Permutation _ _ _ E); by right).
    eapply slot_filled_kept; [exact P'|exact I|exact I'| |by apply Hs|by apply Hf].
    intros Hz. by apply attached_elem. }
  assert (forall P : tDescriptor -> Prop, P d' -> (forall e, e ∈ delete (Z.to_nat (ui32Read l)) (pDescriptors l) -> P e) ->
    Forall P (<[Z.to_nat (ui32Read l) := d']> (pDescriptors l))) as Hall.
  { intros P Pd Pe. assert (Z.to_nat (ui32Read l) < length (pDescriptors l))%nat as Hlt by (by eapply lookup_lt_Some).
    rewrite (delete_Permutation _ (Z.to_nat (ui32Read l)) d') by (by apply list_lookup_insert_eq).
    rewrite delete_insert_same. constructor; [done|]. by apply Forall_forall. }
  split; cbn [set_desc pDescriptors ui32Read]; [|by rewrite length_insert|done| | |exact Hw].
  - by rewrite (attached_set _ _ d d' E), <-app_assoc.
  - apply Hall; [done|]. intros e He. by apply Hoth.
  - apply Hall; [done|]. intros e He. by apply Hoth.
Qed.

Lemma wrapped_rx i : 0 <= i < 8 -> wrapped NUM_RX_DESCRIPTORS i = (i + 1) mod 8.
Proof.
  intros Hi. unfold wrapped. rewrite (wrap_id 32 (i + 1)) by cint. unfold NUM_RX_DESCRIPTORS.
  destruct (Z.eqb_spec (i + 1) 8) as [->|Hne]; [done|]. by rewrite Z.mod_small by lia.
Qed.

(** The list after the descriptor at the read index was replaced. *)
Lemma desc_set_same l d : (Z.to_nat (ui32Read l) < length (pDescriptors l))%nat -> desc (ui32Read l) (set_desc (ui32Read l) d l) = Some d.
Proof. intros H. by apply list_lookup_insert_eq. Qed.

Lemma desc_set_other l d i : length (pDescriptors l) = 8%nat -> 0 <= ui32Read l < 8 -> (0 < i < 8)%nat ->
  desc ((ui32Read l + Z.of_nat i) mod 8) (set_desc (ui32Read l) d l) = desc ((ui32Read l + Z.of_nat i) mod 8) l.
Proof.
  intros Hl Hr Hi. unfold desc, set_desc. cbn [pDescriptors]. apply list_lookup_insert_ne.
  pose proof (Z.mod_pos_bound (ui32Read l + Z.of_nat i) 8 ltac:(lia)). intros E. Z.div_mod_to_equations. lia.
Qed.

Lemma links_set l d d' : desc (ui32Read l) l = Some d -> pLink d' = pLink d ->
  pLink <$> pDescriptors (set_desc (ui32Read l) d' l) = pLink <$> pDescriptors l.
Proof.
  intros E H. cbn [set_desc pDescriptors]. rewrite list_fmap_insert, H. apply list_insert_id.
  rewrite list_lookup_fmap. unfold desc in E. by rewrite E.
Qed.

(** *** The loop *)

(** One descriptor, then the rest. *)
Lemma rx_moved_step l d d' m k l' : length (pDescriptors l) = 8%nat -> 0 <= ui32Read l < 8 -> desc (ui32Read l) l = Some d ->
  (m < 7)%nat -> pLink d' = pLink d -> pBuf d' ≠ 0 -> has_stat DES0_RX_CTRL_OWN d' = true ->
  rx_moved (moved l d') m k l' -> rx_moved l (S m) (S k) l'.
Proof.
  intros Hl Hr E Hm Hlk Hz Ho [Hk Rd Lk Pd Rs]. unfold moved in *. cbn [ui32Read pDescriptors] in *.
  rewrite (wrapped_rx (ui32Read l) Hr) in *.
  assert (forall i : nat, ((ui32Read l + 1) mod 8 + Z.of_nat i) mod 8 = (ui32Read l + Z.of_nat (S i)) mod 8) as Hi.
  { intros i. rewrite Zplus_mod_idemp_l. f_equal. lia. }
  split.
  - lia.
  - by rewrite Rd, Hi.
  - rewrite Lk. by eapply links_set.
  - intros [|i] Hik; [|destruct (Pd i ltac:(lia)) as (e & Ee & He); exists e; by rewrite <-Hi].
    exists d'. split; [|done]. pose proof (Rs 7%nat ltac:(lia)) as H7. rewrite Hi in H7.
    replace ((ui32Read l + Z.of_nat 8) mod 8) with (ui32Read l) in H7 by (rewrite Z.add_mod, Z_mod_same_full, Z.add_0_r, Z.mod_mod, Z.mod_small; lia).
    rewrite Z.add_0_r, Z.mod_small by done. rewrite H7. apply desc_set_same. lia.
  - intros [|i] Hik; [lia|]. rewrite <-Hi, Rs by lia. rewrite Hi. by apply desc_set_other; [| |lia].
Qed.

Lemma rx_moved_here l l' m : 0 <= ui32Read l < 8 -> ui32Read l' = ui32Read l -> pLink <$> pDescriptors l' = pLink <$> pDescriptors l ->
  (forall i, (0 < i < 8)%nat -> desc ((ui32Read l + Z.of_nat i) mod 8) l' = desc ((ui32Read l + Z.of_nat i) mod 8) l) ->
  rx_moved l m 0 l'.
Proof. intros Hr Rd Lk Rs. split; [lia| |done|intros; lia|done]. by rewrite Rd, Z.add_0_r, Z.mod_small. Qed.

Lemma attached_one d : attached [d] = if pBuf d =? 0 then [] else [pBuf d].
Proof.
  unfold attached. cbn [fmap list_fmap]. destruct (Z.eqb_spec (pBuf d) 0); [by rewrite filter_cons_False by auto|by rewrite filter_cons_True].
Qed.

(** The start of the list that the read index has moved on in. *)
Lemma rx_ring_moved b extra R l d' s : rx_ring b extra R (set_desc (ui32Read l) d' l) s -> framed b (view (moved l d')) = true ->
  rx_ring b extra R (moved l d') s.
Proof.
  intros [I Hl Hr Hs Hf _] Hw. split; try done. unfold moved. cbn [ui32Read set_desc] in *. rewrite wrapped_rx by done.
  apply Z.mod_pos_bound. lia.
Qed.

(** The buffer of the descriptor at the read index. *)
Lemma rx_taken extra R n l c k d s : rx_ring (negb (c =? 0)) (hold c ++ extra) R l s -> Z.of_nat (length extra) < 49980 ->
  desc (ui32Read l) l = Some d -> pBuf d = 0 \/ has_stat DES0_RX_CTRL_OWN d = false ->
  headed (attached (pDescriptors l) ++ extra) R c k s -> (k < 8)%nat -> clients_ok s -> listed s -> is_Some (netifs s !! n) ->
  let rest := attached (delete (Z.to_nat (ui32Read l)) (pDescriptors l)) ++ extra in
  exists c1 s1, (if pBuf d =? 0 then ret c else rx_buffer n d c) s = Some (c1, s1) /\ took n d c s c1 s1 /\
    net_inv s1 (hold c1 ++ rest) R /\ kept rest s s1 /\ headed rest R c1 (S k) s1 /\
    forall ds, view l = d :: ds -> framed (negb (c1 =? 0)) ds = true.
Proof.
  intros [I Hl Hr Hs Hf Hw] Hx E Hown Hd Hk Cl Ls Nn rest. pose proof (attached_at _ _ _ E) as Hat.
  assert (net_inv s (attached [d] ++ hold c ++ rest) R) as In.
  { rewrite Hat in I. unfold rest. rewrite (app_assoc (hold c)), (Permutation_app_comm (hold c)), <-app_assoc. by rewrite <-app_assoc in I. }
  assert (Z.of_nat (length rest) < 49995) as Hrest.
  { unfold rest. rewrite length_app. pose proof (attached_length (delete (Z.to_nat (ui32Read l)) (pDescriptors l))) as Hdl.
    rewrite length_delete, Hl in Hdl by (unfold desc in E; by eexists). cbn in Hdl. lia. }
  assert (headed (attached [d] ++ rest) R c k s) as Hd1.
  { eapply (headed_kept _ (hold c)); [exact Hd|apply same_packets_refl| |].
    - intros Hc. unfold hold. rewrite (proj2 (Z.eqb_neq c 0) Hc). by left.
    - by rewrite (app_assoc (hold c)), (Permutation_app_comm (hold c)), <-app_assoc. }
  rewrite attached_one in In, Hd1. destruct (Z.eqb_spec (pBuf d) 0) as [Hz|Hz]; cbn [app] in In, Hd1.
  - exists c, s. split; [done|]. split; [by apply took_none|]. split; [done|]. split; [apply kept_refl|].
    split. { destruct Hd1 as [->|(Hc & b & ll & Pk & Ht)]; [by left|right]. split; [done|]. exists b, ll. split; [done|lia]. }
    intros ds Ev. rewrite Ev in Hw. cbn [framed] in Hw. by rewrite (proj2 (Z.eqb_eq _ _) Hz) in Hw.
  - destruct Hown as [?|Ho]; [done|]. assert (filled d = true) as Hfl by by apply filled_spec.
    pose proof E as E'. unfold desc in E'. rewrite Forall_lookup in Hs, Hf.
    destruct (view_at l d Hl Hr E) as (ds & Ev & _). rewrite Ev in Hw. destruct (framed_cons _ _ _ Hw Hfl) as [Hg Hw'].
    assert (wp (rx_buffer n d c) (fun c1 s1 => took n d c s c1 s1 /\ net_inv s1 (hold c1 ++ rest) R /\ kept rest s s1 /\
      headed rest R c1 (S k) s1 /\ (c1 =? 0) = has_stat DES0_RX_STAT_LAST_DESC d) s) as (c1 & s1 & Er & T & I1 & K1 & H1 & Hc1)%wp_run.
    { eapply wp_rx_buffer; [exact In|done|done|by eapply Hs|by eapply Hf|exact Hd1|done| |done|done|done|done].
      intros G. destruct (Hg G) as [Hc Hlen]. split; [|done]. apply negb_false_iff in Hc. by apply Z.eqb_eq. }
    exists c1, s1. split; [done|]. split; [done|]. split; [done|]. split; [done|]. split; [done|].
    intros ds' Ev'. rewrite Ev in Ev'. injection Ev' as <-. by rewrite Hc1.
Qed.

(** One descriptor: its buffer is taken and it gets a new one. *)
Lemma rx_one extra R n l c k d s : rx_ring (negb (c =? 0)) (hold c ++ extra) R l s -> Z.of_nat (length extra) < 49980 ->
  desc (ui32Read l) l = Some d -> pBuf d = 0 \/ has_stat DES0_RX_CTRL_OWN d = false ->
  headed (attached (pDescriptors l) ++ extra) R c k s -> (k < 8)%nat -> clients_ok s -> listed s -> is_Some (netifs s !! n) ->
  exists c1 s1 d' s2, (if pBuf d =? 0 then ret c else rx_buffer n d c) s = Some (c1, s1) /\ took n d c s c1 s1 /\
    refill d s1 = Some (d', s2) /\ kept extra s s2 /\ pLink d' = pLink d /\ (pBuf d' ≠ 0 -> has_stat DES0_RX_CTRL_OWN d' = true) /\
    headed (attached (pDescriptors (set_desc (ui32Read l) d' l)) ++ extra) R c1 (S k) s2 /\
    rx_ring (negb (c1 =? 0)) (hold c1 ++ extra) R (set_desc (ui32Read l) d' l) s2 /\
    rx_ring (negb (c1 =? 0)) (hold c1 ++ extra) R (moved l d') s2.
Proof.
  intros Ring Hx E Hown Hd Hk Cl Ls Nn. pose proof Ring as [I Hl Hr Hs Hf Hw].
  destruct (rx_taken extra R n l c k d s Ring Hx E Hown Hd Hk Cl Ls Nn) as (c1 & s1 & Er & T & I1 & K1 & H1 & Hw1).
  set (rest := attached (delete (Z.to_nat (ui32Read l)) (pDescriptors l)) ++ extra) in *.
  destruct (view_at l d Hl Hr E) as (ds & Ev & Hv). specialize (Hw1 ds Ev).
  assert (has_stat DES0_RX_CTRL_OWN d = false) as Ho.
  { destruct Hown as [Hz|]; [|done]. unfold desc in E. rewrite Forall_lookup in Hs. destruct (Hs _ _ E) as [(_ & _ & ?)|[Eb _]]; [done|].
    rewrite Hz in Eb. destruct (ri_nonzero _ _ _ _ _ (ni_refs _ _ _ I) Eb). lia. }
  assert (wp (refill d) (fun d' s2 => net_inv s2 (attached [d'] ++ hold c1 ++ rest) R /\ kept (hold c1 ++ rest) s1 s2 /\
    slot_ok (ps s2) d' /\ pLink d' = pLink d /\ (pBuf d' ≠ 0 -> has_stat DES0_RX_CTRL_OWN d' = true)) s1)
    as (d' & s2 & Ef & I2 & K2 & Sl & Lk & Ho')%wp_run by (by eapply wp_refill).
  assert (filled d' = false) as Hd'.
  { apply not_true_is_false. intros [Hz Hn]%filled_spec. by rewrite (Ho' Hz) in Hn. }
  assert (kept rest s s2) as K by (eapply kept_trans; [exact K1|eapply kept_sub; [|exact K2]; set_solver]).
  assert (rx_ring (negb (c1 =? 0)) (hold c1 ++ extra) R (set_desc (ui32Read l) d' l) s2) as Ring'.
  { eapply (rx_replace _ _ _ _ R l d d' s s2 Ring E); [|eapply kept_sub; [|exact K]; unfold rest; set_solver|done|done|].
    - unfold rest in I2. by rewrite (app_assoc (hold c1)), (Permutation_app_comm (hold c1)), <-app_assoc in I2.
    - rewrite (proj1 (Hv d')). change (d' :: ds) with ([d'] ++ ds). cbn [framed app]. unfold filled in Hd'.
      destruct (pBuf d' =? 0); [done|]. destruct (has_stat DES0_RX_CTRL_OWN d'); [by eapply framed_false|done]. }
  exists c1, s1, d', s2. do 3 (split; [done|]). split; [eapply kept_sub; [|exact K]; unfold rest; set_solver|].
  do 2 (split; [done|]). split; [|split; [done|]].
  - eapply (headed_kept _ (hold c1 ++ rest)); [exact H1|apply K2| |].
    + intros Hc. apply elem_of_app. left. unfold hold. rewrite (proj2 (Z.eqb_neq c1 0) Hc). by left.
    + pose proof (rx_net _ _ _ _ _ Ring') as I3. by rewrite app_assoc, (Permutation_app_comm (hold c1)), <-app_assoc.
  - apply rx_ring_moved; [done|]. rewrite (proj2 (Hv d')). by apply framed_snoc.
Qed.

Lemma wp_rx_loop extra R n : Z.of_nat (length extra) < 49980 -> forall m fuel l c s Q, (m < fuel)%nat -> (m <= 7)%nat ->
  rx_ring (negb (c =? 0)) (hold c ++ extra) R l s -> headed (attached (pDescriptors l) ++ extra) R c (7 - m) s ->
  clients_ok s -> listed s -> is_Some (netifs s !! n) ->
  (forall k l' c' s', rx_ring (negb (c' =? 0)) (hold c' ++ extra) R l' s' -> kept extra s s' -> rx_moved l m k l' ->
    walked n m k l c s l' c' s' -> Q (l', c') s') ->
  wp (rx_loop fuel n ((ui32Read l + Z.of_nat m) mod 8) l c) Q s.
Proof.
  intros Hx. induction m as [|m IH]; intros [|fuel] l c s Q Hf Hm Ring Hd Cl Ls Nn HQ; [lia| |lia|];
    pose proof (rx_len _ _ _ _ _ Ring) as Hl; pose proof (rx_read _ _ _ _ _ Ring) as Hr; cbn [rx_loop].
  - rewrite Z.add_0_r, Z.mod_small, Z.eqb_refl by done. apply wp_ret, (HQ 0%nat); [done|apply kept_refl| |apply walked_all].
    by apply rx_moved_here.
  - rewrite (proj2 (Z.eqb_neq _ _)) by (Z.div_mod_to_equations; lia).
    destruct (desc (ui32Read l) l) as [d|] eqn:E; [|unfold desc in E; apply lookup_ge_None in E; lia].
    apply wp_bind, (wp_gets _ d); [done|]. destruct (negb (pBuf d =? 0) && has_stat DES0_RX_CTRL_OWN d) eqn:Hown.
    { apply andb_true_iff in Hown as [Hz%negb_true_iff%Z.eqb_neq Ho]. apply wp_ret, (HQ 0%nat); [done|apply kept_refl| |].
      - by apply rx_moved_here.
      - by eapply walked_busy. }
    assert (pBuf d = 0 \/ has_stat DES0_RX_CTRL_OWN d = false) as Hown'.
    { apply andb_false_iff in Hown as [Hz%negb_false_iff%Z.eqb_eq|]; [by left|by right]. }
    destruct (rx_one extra R n l c (7 - S m) d s Ring Hx E Hown' Hd ltac:(lia) Cl Ls Nn)
      as (c1 & s1 & d' & s2 & Er & T & Ef & K & Lk & Ho' & Hd' & Ring1 & Ring2).
    apply wp_bind. unfold wp at 1. rewrite Er. apply wp_bind. unfold wp at 1. rewrite Ef. cbv zeta.
    destruct (Z.eqb_spec (pBuf d') 0) as [Hz|Hz].
    + apply wp_ret, (HQ 0%nat); [done|done| |by eapply walked_empty].
      apply rx_moved_here; [done|done|by eapply links_set|]. intros i Hi. by apply desc_set_other.
    + destruct Nn as [nif En]. destruct K as [Pe Kk]. destruct (kp_netifs _ _ Kk n nif En) as (nif' & En' & _).
      change (mk_list _ _ _) with (moved l d').
      replace ((ui32Read l + Z.of_nat (S m)) mod 8) with ((ui32Read (moved l d') + Z.of_nat m) mod 8)
        by (unfold moved; cbn [ui32Read]; rewrite wrapped_rx, Zplus_mod_idemp_l by done; f_equal; lia).
      replace (S (7 - S m)) with (7 - m)%nat in Hd' by lia.
      eapply IH; [lia|lia|exact Ring2|exact Hd'|by apply Kk|by apply Kk|by eexists|].
      intros k l' c' s' R' K' M' W'. apply (HQ (S k)); [done|by eapply kept_trans; [split|]| |by eapply walked_on].
      by eapply rx_moved_step; eauto; lia.
Qed.

Lemma receive_run extra R n l s : rx_inv extra R l s -> Z.of_nat (length extra) < 49980 ->
  clients_ok s -> listed s -> is_Some (netifs s !! n) ->
  exists k l' s', tivaif_receive n l s = Some (l', s') /\ rx_done extra R n l s k l' s'.
Proof.
  intros I Hx Cl Ls Nn.
  assert (wp (tivaif_receive n l) (fun l' s' => exists k, rx_done extra R n l s k l' s') s) as (l' & s' & E & k & Hd)%wp_run; [|eauto].
  unfold tivaif_receive. apply wp_bind.
  replace (if ui32Read l =? 0 then NUM_RX_DESCRIPTORS - 1 else ui32Read l - 1) with ((ui32Read l + Z.of_nat 7) mod 8).
  - eapply wp_rx_loop; [exact Hx|change (Z.to_nat NUM_RX_DESCRIPTORS) with 8%nat; lia|lia|exact I|by left|done|done|done|].
    intros k l' c' s' R' K' M' W'. cbn [fst snd]. apply wp_bind.
    assert (wp (when (negb (c' =? 0)) (drop_packet c')) (fun _ s2 => rx_inv extra R l' s2 /\ kept extra s' s2) s')
      as ([] & s2 & E2 & I2 & K2)%wp_run.
    { destruct R' as [In Hl' Hr' Hs' Hf' Hw']. destruct (Z.eqb_spec c' 0) as [->|Hz]; cbn [negb when hold app] in *.
      - apply wp_ret. split; [by split|apply kept_refl].
      - unfold hold in In. rewrite (proj2 (Z.eqb_neq c' 0) Hz) in In. cbn [app] in In. rewrite <-Permutation_middle in In.
        eapply wp_drop; [exact In|]. intros s2 I2 P2 K2. split.
        + assert (Forall (fun e => slot_ok (ps s2) e /\ filled_ok s2 e) (pDescriptors l')) as [Ha1 Ha2]%Forall_and.
          { apply Forall_forall. intros e He. rewrite Forall_forall in Hs', Hf'.
            eapply slot_filled_kept; [exact P2|exact In|exact I2| |by apply Hs'|by apply Hf'].
            intros Hze. apply elem_of_app. left. by apply attached_elem. }
          split; try done. by apply framed_mono.
        + eapply kept_sub; [|by split]. set_solver. }
    unfold wp. rewrite E2. exists k. split; [done|by eapply kept_trans|done|]. exists c', s'. by split.
  - destruct I as [_ _ Hr _ _ _]. unfold NUM_RX_DESCRIPTORS. destruct (Z.eqb_spec (ui32Read l) 0) as [->|Hz]; [done|].
    Z.div_mod_to_equations. lia.
Qed.

(** *** Start *)


Lemma rx_desc_run i keep R s : net_inv s keep R -> exists d m, Tivaif.Tivaif.rx_desc i (ps s) = Some (d, m) /\
  net_inv (with_ps m s) (attached [d] ++ keep) R /\ kept keep s (with_ps m s) /\ slot_ok m d /\
  (pBuf d ≠ 0 -> has_stat DES0_RX_CTRL_OWN d = true).
Proof.
  intros I. unfold Tivaif.Tivaif.rx_desc. change Tivaif.Tivaif.PBUF_POOL_BUFSIZE with PBUF_POOL_BUFSIZE.
  assert (wp (pbufs (pbuf_alloc PBUF_RAW PBUF_POOL_BUFSIZE PBUF_POOL)) (fun p s' => kept keep s s' /\
    ((p = 0 /\ net_inv s' keep R) \/ (p ≠ 0 /\ net_inv s' (p :: keep) R /\ bufs (ps s') !! p = Some (rx_pbuf p)))) s)
    as (p & s' & E & K & H)%wp_run by (eapply wp_rx_alloc; eauto 10).
  unfold pbufs in E. destruct (pbuf_alloc _ _ _ (ps s)) as [[q m]|]; [|done]. cbn [mbind option_bind] in *.
  injection E as -> <-. destruct H as [[-> I']|(Hz & I' & Eb)].
  - cbn [Z.eqb]. do 2 eexists. split; [reflexivity|]. split; [done|]. split; [done|]. split; [by left|done].
  - rewrite (proj2 (Z.eqb_neq p 0) Hz). rewrite (Eb : get p m = _). cbn [mbind option_bind]. do 2 eexists. split; [reflexivity|].
    split; [unfold attached; cbn [fmap list_fmap pBuf]; by rewrite filter_cons_True|]. split; [done|]. split; [by right|done].
Qed.

Lemma rx_descs_run idx R : forall keep s, net_inv s keep R -> exists ds m, Tivaif.Tivaif.rx_descs idx (ps s) = Some (ds, m) /\
  net_inv (with_ps m s) (attached ds ++ keep) R /\ kept keep s (with_ps m s) /\
  Forall (slot_ok m) ds /\ Forall (fun d => filled d = false) ds /\ length ds = length idx.
Proof.
  induction idx as [|i idx IH]; intros keep s I; cbn [Tivaif.Tivaif.rx_descs].
  { exists [], (ps s). replace (with_ps (ps s) s) with s by (by destruct s). split; [done|]. split; [done|].
    split; [apply kept_refl|done]. }
  destruct (rx_desc_run i keep R s I) as (d & m & E & I1 & K1 & Sl & Ho). rewrite E. cbn [mbind option_bind].
  destruct (IH _ _ I1) as (ds & m2 & E2 & I2 & K2 & Sl2 & Fl2 & Hl). cbn [ps with_ps] in E2. rewrite E2. cbn [mbind option_bind].
  change (with_ps m2 (with_ps m s)) with (with_ps m2 s) in *.
  exists (d :: ds), m2. split; [done|].
  assert (filled d = false) as F2.
  { apply not_true_is_false. intros [Hz Hn]%filled_spec. by rewrite (Ho Hz) in Hn. }
  assert (slot_ok m2 d /\ filled_ok (with_ps m2 s) d) as [S2 _].
  { eapply (slot_filled_kept (with_ps m s) (with_ps m2 s)); [apply K2|exact I1|exact I2| |done|].
    - intros Hz. apply elem_of_app. left. apply attached_elem; [by left|done].
    - intros Hn. by rewrite F2 in Hn. }
  split; [|split; [|split; [by constructor|split; [by constructor|by cbn; rewrite Hl]]]].
  - change (d :: ds) with ([d] ++ ds). rewrite Tivaif.Tivaif.attached_app.
    by rewrite (Permutation_app_comm (attached [d])), <-app_assoc.
  - eapply kept_trans; [exact K1|]. eapply kept_sub; [|exact K2]. set_solver.
Qed.

(** *** The ring, the hardware and the stack *)

Definition DES1_RX_CTRL_BUFF1_SIZE_M : Z := 0x00001FFF.

(** The status the hardware writes back. *)
Definition set_status (st : Z) (d : tDescriptor) : tDescriptor := mk_desc st (ui32Count d) (pvBuffer1 d) (pLink d) (pBuf d).

(** The hardware puts data into the buffer of a descriptor that is its and gives it
    back with a status; the driver is interrupted; the stack works on other packets.
    A frame, in one buffer or in several, ends with [DES0_RX_STAT_LAST_DESC].  One
    without [DES0_RX_STAT_ERR] is in one buffer, and its IP header has 5 words or
    more. *)
Inductive rx_step (extra : list Z) (R : list block) (n : Z) : tDescriptorList * net A W -> tDescriptorList * net A W -> Prop :=
  | step_fill l s i d st data s' : 0 <= i -> desc i l = Some d -> has_stat DES0_RX_CTRL_OWN d = true ->
      Z.of_nat (length data) <= Z.land (ui32Count d) DES1_RX_CTRL_BUFF1_SIZE_M ->
      s' = with_ps (with_bytes (write_bytes (pvBuffer1 d) data (bytes (ps s))) (ps s)) s ->
      has_stat DES0_RX_CTRL_OWN (set_status st d) = false ->
      framed false (view (set_desc i (set_status st d) l)) = true ->
      (good (set_status st d) = true -> ihl_ok s' (rx_pbuf (pBuf d))) ->
      rx_step extra R n (l, s) (set_desc i (set_status st d) l, s')
  | step_interrupt l s l' s' : tivaif_receive n l s = Some (l', s') -> rx_step extra R n (l, s) (l', s')
  | step_stack l s s' : net_inv s' (attached (pDescriptors l) ++ extra) R -> kept (attached (pDescriptors l)) s s' ->
      rx_step extra R n (l, s) (l, s').

Record rx_sys extra R n (x : tDescriptorList * net A W) : Prop := {
  rs_inv : rx_inv extra R x.1 x.2;
  rs_clients : clients_ok x.2;
  rs_listed : listed x.2;
  rs_netif : is_Some (netifs x.2 !! n) }.

Lemma rx_sys_kept keep extra R n l l' s s' : rx_sys extra R n (l, s) -> rx_inv extra R l' s' -> kept keep s s' -> rx_sys extra R n (l', s').
Proof.
  intros [_ Cl Ls [nif En]] I' [_ K]. cbn [fst snd] in *. destruct (kp_netifs _ _ K n nif En) as (nif' & En' & _).
  split; [done|by apply K|by apply K|by eexists].
Qed.

(** The hardware writes to a buffer of the ring. *)
Lemma fill_inv extra R l s i d st data : rx_inv extra R l s -> 0 <= i -> desc i l = Some d -> has_stat DES0_RX_CTRL_OWN d = true ->
  let s' := with_ps (with_bytes (write_bytes (pvBuffer1 d) data (bytes (ps s))) (ps s)) s in
  Z.of_nat (length data) <= Z.land (ui32Count d) DES1_RX_CTRL_BUFF1_SIZE_M -> filled_ok s' (set_status st d) ->
  framed false (view (set_desc i (set_status st d) l)) = true ->
  rx_inv extra R (set_desc i (set_status st d) l) s' /\ kept extra s s'.
Proof.
  intros [I Hl Hr Hs Hf _] Hi E Ho s' Hd Hfd Hw. unfold desc in E. pose proof Hs as Hs0. rewrite Forall_lookup in Hs0.
  destruct (Hs0 _ _ E) as [(_ & _ & ?)|(Eb & Hp & Hc)]; [congruence|]. clear Hs0.
  set (keep := attached (delete (Z.to_nat i) (pDescriptors l)) ++ extra).
  destruct (ri_nonzero _ _ _ _ _ (ni_refs _ _ _ I) Eb) as [Hz _].
  assert (attached [d] = [pBuf d]) as Ha by (unfold attached; cbn [fmap list_fmap]; by rewrite filter_cons_True by lia).
  assert (net_inv s (pBuf d :: keep) R) as Ik by (unfold keep; by rewrite (attached_at _ _ _ E), Ha in I).
  assert (same_packets (ps s) (ps s') keep) as Sp.
  { unfold s'. rewrite Hp. destruct (ri_pinv _ _ _ (ni_refs _ _ _ I)) as [B Ip].
    change (pBuf d + 16) with (payload (rx_pbuf (pBuf d))). rewrite <-(Z.add_0_r (payload _)).
    eapply (write_same (ps s)); [exact Ip|exact Eb|by right|lia| |].
    - rewrite Hc in Hd. change (Z.land (Z.lor DES1_RX_CTRL_CHAINED 512) DES1_RX_CTRL_BUFF1_SIZE_M) with 512 in Hd. cbn. lia.
    - destruct (exclusive _ _ _ _ _ (ni_refs _ _ _ Ik) Eb eq_refl) as (_ & _ & Hex). intros a c Ha'. apply Hex. set_solver. }
  assert (net_inv s' (pBuf d :: keep) R) as I' by (by apply inv_bytes).
  assert (kept keep s s') as K by (split; [done|]; split; eauto; by intros []).
  split; [|by eapply kept_sub; [|exact K]; set_solver].
  assert (Forall (fun e => slot_ok (ps s') e /\ filled_ok s' e) (<[Z.to_nat i := set_status st d]> (pDescriptors l))) as Hall.
  { rewrite (delete_Permutation _ (Z.to_nat i) (set_status st d)) by (apply list_lookup_insert_eq; by eapply lookup_lt_Some).
    rewrite delete_insert_same. constructor; [split; [by right|done]|]. apply Forall_forall. intros e He.
    rewrite Forall_forall in Hs, Hf. assert (e ∈ pDescriptors l) as He' by (rewrite (delete_Permutation _ _ _ E); by right).
    eapply slot_filled_kept; [exact Sp|exact I|exact I'| |by apply Hs|by apply Hf].
    intros Hze. apply elem_of_app. left. by apply attached_elem. }
  apply Forall_and in Hall as [Ha1 Ha2]. split; cbn [set_desc pDescriptors ui32Read]; [|by rewrite length_insert|done|done|done|exact Hw].
  rewrite (attached_set _ _ d _ E). unfold attached at 1. cbn [fmap list_fmap pBuf set_status].
  rewrite filter_cons_True by lia. done.
Qed.

Lemma rx_step_sys extra R n x y : Z.of_nat (length extra) < 49980 -> rx_sys extra R n x -> rx_step extra R n x y -> rx_sys extra R n y.
Proof.
  intros Hx S St. revert S. destruct St as [l s i d st data s' Hi E Ho Hd -> Ho' Hw Hih|l s l' s' E|l s s' I' K]; intros S.
  - pose proof S as [I _ _ _]. cbn [fst snd] in I.
    destruct (fill_inv extra R l s i d st data I Hi E Ho Hd) as [I' K]; [by intros _|done|]. by eapply rx_sys_kept.
  - pose proof S as [I Cl Ls Nn]. destruct (receive_run extra R n l s I Hx Cl Ls Nn) as (k & l1 & s1 & E1 & D).
    rewrite E in E1. injection E1 as <- <-. eapply rx_sys_kept; [exact S|apply D|apply D].
  - pose proof S as [[I Hl Hr Hs Hf Hw] _ _ _]. cbn [fst snd] in *. eapply rx_sys_kept; [exact S| |exact K].
    assert (Forall (fun e => slot_ok (ps s') e /\ filled_ok s' e) (pDescriptors l)) as [Ha1 Ha2]%Forall_and; [|by split].
    apply Forall_forall. intros e He. rewrite Forall_forall in Hs, Hf.
    eapply slot_filled_kept; [apply K|exact I|exact I'| |by apply Hs|by apply Hf]. intros Hz. by apply attached_elem.
Qed.

(** [InitDMADescriptors] sets the ring up. *)
Lemma rx_start extra R n s w : net_inv s extra R -> clients_ok s -> listed s -> is_Some (netifs s !! n) ->
  0 <= ui32Read (Tivaif.Tivaif.pRxDescList w) < 8 ->
  exists m w', Tivaif.Tivaif.InitDMADescriptors (ps s) w = Some (m, w') /\
    rx_sys extra R n (Tivaif.Tivaif.pRxDescList w', with_ps m s) /\ kept extra s (with_ps m s).
Proof.
  intros I Cl Ls [nif En] Hr. unfold Tivaif.Tivaif.InitDMADescriptors.
  destruct (rx_descs_run (seqZ 0 NUM_RX_DESCRIPTORS) R extra s I) as (ds & m & E & I' & K & Sl & Fl & Hl). rewrite E.
  cbn [mbind option_bind]. do 2 eexists. split; [reflexivity|]. split; [|done].
  cbn [Tivaif.Tivaif.pRxDescList Tivaif.Tivaif.with_rx]. destruct K as [_ K].
  destruct (kp_netifs _ _ K n nif En) as (nif' & En' & _). split; cbn [fst snd]; [|by apply K|by apply K|by eexists].
  split; cbn [pDescriptors ui32Read]; [done|by rewrite Hl|done|done| |].
  - eapply Forall_impl; [exact Fl|]. intros d Hd Hn. cbv beta in Hd. by rewrite Hd in Hn.
  - apply framed_none. unfold view. cbn [pDescriptors]. apply Forall_app. split; [by apply Forall_drop|by apply Forall_take].
Qed.

(** The second buffer of a frame of two: the state in which the frame is handed
    up. *)
Lemma second_buffer n d p s : bufs (ps s) !! p = Some (rx_pbuf p) -> bufs (ps s) !! pBuf d = Some (rx_pbuf (pBuf d)) ->
  p ≠ 0 -> pBuf d ≠ 0 -> p ≠ pBuf d -> has_stat DES0_RX_STAT_LAST_DESC d = true ->
  exists s', rx_buffer n d p s = (rx_complete n p d ;; ret 0) s' /\
    bufs (ps s') !! p = Some (mk_pbuf (pBuf d) (p + 16) (512 + frame_length d) 512 PBUF_POOL 0 1) /\
    bufs (ps s') !! pBuf d = Some (mk_pbuf 0 (pBuf d + 16) (frame_length d) (frame_length d) PBUF_POOL 0 1).
Proof.
  intros Ep Eq Hp Hq Hne Hl. pose proof (frame_length_bound d) as Hfl. unfold rx_buffer. rewrite Hl. cbn [when].
  set (b := set_tot_len (frame_length d) (set_len (frame_length d) (rx_pbuf (pBuf d)))).
  rewrite (bind_run (fix_length d) _ s tt (with_ps (put (pBuf d) b (ps s)) s)).
  2: { unfold fix_length, pbufs_. rewrite (upd_put _ _ _ _ Eq). rewrite (wrap_id 16) by cint. done. }
  rewrite (proj2 (Z.eqb_neq p 0) Hp). cbn [negb when]. set (s1 := with_ps _ s).
  assert (bufs (ps s1) !! p = Some (rx_pbuf p)) as Ep1 by (cbn; by rewrite lookup_insert_ne).
  assert (bufs (ps s1) !! pBuf d = Some b) as Eq1 by apply lookup_insert_eq.
  rewrite (bind_run _ _ s1 tt (with_ps (put p (set_next (pBuf d) (set_tot_len (512 + frame_length d) (rx_pbuf p)))
    (put p (set_tot_len (512 + frame_length d) (rx_pbuf p)) (ps s1))) s1)).
  - eexists. split; [reflexivity|]. cbn [ps with_ps put bufs with_bufs]. split; [apply lookup_insert_eq|].
    by rewrite !lookup_insert_ne by done.
  - unfold pbufs_, pbuf_cat. rewrite (proj2 (Z.eqb_neq p 0) Hp), (proj2 (Z.eqb_neq (pBuf d) 0) Hq). unfold chain_fuel.
    cbn [orb cat_loop]. rewrite (Ep1 : get p (ps s1) = _), (Eq1 : get (pBuf d) (ps s1) = _). cbn [mbind option_bind rx_pbuf next Z.eqb].
    rewrite (upd_put _ _ _ _ Ep1). cbn [mbind option_bind tot_len rx_pbuf b set_tot_len set_len].
    rewrite (wrap_id 16) by cint. by rewrite (upd_put _ _ _ _ (get_put_eq _ _ _)).
Qed.

(** ** Theorems *)

(** C8: [tivaif_receive], as long as each frame the hardware reports as good is in
    one buffer and has an IP header of 5 words or more ([rx_inv]): it returns.  It
    walks over up to 7 descriptors from the read index on ([served]): a good frame is
    handed to [ethernet_input], which takes it, with the length the hardware reports;
    a frame with an error is freed with all the buffers it is in; the part of a frame
    that the walk ends in is freed; and the descriptor goes back to the hardware with
    a new buffer of its own.  The walk stops before only at a descriptor that the
    hardware still has or when there is no new buffer.  The stack and the ring are as
    they should be and nobody else's packets have changed. *)
Theorem tivaif_receive_correct extra R n l s : rx_inv extra R l s -> Z.of_nat (length extra) < 49980 ->
  clients_ok s -> listed s -> is_Some (netifs s !! n) ->
  exists k l' s', tivaif_receive n l s = Some (l', s') /\ rx_done extra R n l s k l' s'.
Proof. apply receive_run. Qed.

(** The ring of receive descriptors from [InitDMADescriptors] on, while the
    hardware fills descriptors, the driver is interrupted and the stack works, in
    any order: a descriptor of the hardware always has a buffer of 512 bytes in a
    pbuf that belongs to nobody else, the invariant of the stack holds with the
    references of the ring, and the next interrupt is served. *)
Theorem receive_ring_invariant extra R n s w : net_inv s extra R -> Z.of_nat (length extra) < 49980 ->
  clients_ok s -> listed s -> is_Some (netifs s !! n) -> 0 <= ui32Read (Tivaif.Tivaif.pRxDescList w) < 8 ->
  exists m w', Tivaif.Tivaif.InitDMADescriptors (ps s) w = Some (m, w') /\
    forall l' s', rtc (rx_step extra R n) (Tivaif.Tivaif.pRxDescList w', with_ps m s) (l', s') ->
      rx_inv extra R l' s' /\
      Forall (fun d => has_stat DES0_RX_CTRL_OWN d = true ->
        bufs (ps s') !! pBuf d = Some (rx_pbuf (pBuf d)) /\ pvBuffer1 d = pBuf d + 16 /\
        occ (pBuf d) (attached (pDescriptors l') ++ extra) = 1) (pDescriptors l') /\
      exists k l2 s2, tivaif_receive n l' s' = Some (l2, s2) /\ rx_done extra R n l' s' k l2 s2.
Proof.
  intros I Hx Cl Ls Nn Hr. destruct (rx_start extra R n s w I Cl Ls Nn Hr) as (m & w' & E & S & _).
  exists m, w'. split; [done|]. intros l' s' St.
  assert (forall x y, rtc (rx_step extra R n) x y -> rx_sys extra R n x -> rx_sys extra R n y) as Hrtc.
  { intros x y H. induction H as [|x y z St1 _ IH]; [done|]. intros Sx. apply IH. by eapply rx_step_sys. }
  destruct (Hrtc _ _ St S) as [I' Cl' Ls' Nn']. cbn [fst snd] in *. split; [done|]. split; [|by apply receive_run].
  destruct I' as [In _ _ Hs _ _]. apply Forall_forall. intros d Hd Ho. rewrite Forall_forall in Hs.
  destruct (Hs d Hd) as [(_ & _ & ?)|(Eb & Hp & _)]; [congruence|]. split; [done|]. split; [done|].
  destruct (ri_nonzero _ _ _ _ _ (ni_refs _ _ _ In) Eb) as [Hz _].
  assert (pBuf d ∈ attached (pDescriptors l')) as [l1 [l2 El]]%list_elem_of_split by (apply attached_elem; [done|lia]).
  rewrite El, <-app_assoc in In |- *. cbn [app] in *. rewrite <-Permutation_middle in In.
  rewrite <-Permutation_middle, occ_cons, decide_True by done.
  destruct (exclusive _ _ _ _ _ (ni_refs _ _ _ In) Eb eq_refl) as (_ & Hn & _).
  rewrite (proj2 (occ_zero _ _)); [done|]. set_solver.
Qed.

(** A frame in two buffers.  The length the hardware reports with the last
    descriptor is that of the whole frame, and it is taken for the length of the
    last pbuf: the packet that is handed up is 512 bytes longer than the frame,
    and when the frame is longer than 512 bytes its last pbuf reaches beyond its
    buffer. *)
Theorem tivaif_receive_two_buffers n d1 d p s : bufs (ps s) !! p = Some (rx_pbuf p) ->
  bufs (ps s) !! pBuf d = Some (rx_pbuf (pBuf d)) -> p ≠ 0 -> pBuf d ≠ 0 -> p ≠ pBuf d ->
  pBuf d1 = p -> has_stat DES0_RX_STAT_LAST_DESC d1 = false -> has_stat DES0_RX_STAT_LAST_DESC d = true ->
  rx_buffer n d1 0 s = Some (p, s) /\
  exists s', rx_buffer n d p s = (rx_complete n p d ;; ret 0) s' /\
    bufs (ps s') !! p = Some (mk_pbuf (pBuf d) (p + 16) (512 + frame_length d) 512 PBUF_POOL 0 1) /\
    bufs (ps s') !! pBuf d = Some (mk_pbuf 0 (pBuf d + 16) (frame_length d) (frame_length d) PBUF_POOL 0 1).
Proof.
  intros Ep Eq Hp Hq Hne <- Hl1 Hl. split; [|by apply second_buffer]. unfold rx_buffer. rewrite Hl1. done.
Qed.

End Correct.

(** ** The theorems at work *)

Definition mac0 : Tivaif.Tivaif.tivaif := Tivaif.Tivaif.mk_tivaif (mk_list [] 0 0) (mk_list [] 0 0) 0 0 0.
Definition started : pstate lwip_mem * Tivaif.Tivaif.tivaif := default (ps0, mac0) (Tivaif.Tivaif.InitDMADescriptors ps0 mac0).
Definition ring0 : tDescriptorList := Eval vm_compute in Tivaif.Tivaif.pRxDescList started.2.
Definition net_mac : net lwip_mem wire := with_ps started.1 net0.

Lemma net0_up : clients_ok net0 /\ listed net0 /\ is_Some (netifs net0 !! 0x100).
Proof.
  destruct net_rx_clients as [C L]. split; [|split; [|by eexists]].
  - by destruct C.
  - by destruct L.
Qed.

Lemma net_mac_sys : rx_sys [] [] 0x100 (ring0, net_mac).
Proof.
  destruct net0_up as (C & L & N).
  destruct (rx_start [] [] 0x100 net0 mac0 net0_inv C L N ltac:(done)) as (m & w' & E & S & _).
  assert (started = (m, w')) as Es by (unfold started; change (ps net0) with ps0 in E; by rewrite E).
  assert (ring0 = Tivaif.Tivaif.pRxDescList started.2) as -> by (vm_compute; reflexivity).
  unfold net_mac. by rewrite Es.
Qed.

(** The hardware puts the ping into the first buffer. *)
Definition got_ping : Z := Z.lor DES0_RX_STAT_LAST_DESC (Z.shiftl (Z.of_nat (length ping_frame)) DES0_RX_STAT_FRAME_LENGTH_S).
Definition d0 : tDescriptor := Eval vm_compute in default (mk_desc 0 0 0 0 0) (desc 0 ring0).
Definition net_mac1 : net lwip_mem wire :=
  with_ps (with_bytes (write_bytes (pvBuffer1 d0) ping_frame (bytes (ps net_mac))) (ps net_mac)) net_mac.
Definition ring1 : tDescriptorList := set_desc 0 (set_status got_ping d0) ring0.

Lemma net_mac1_step : rx_step [] [] 0x100 (ring0, net_mac) (ring1, net_mac1).
Proof.
  apply (step_fill [] [] 0x100 ring0 net_mac 0 d0 got_ping ping_frame net_mac1); try (vm_compute; reflexivity); [done| |].
  - apply Z.leb_le. vm_compute. reflexivity.
  - intros _ _. apply Z.leb_le. vm_compute. reflexivity.
Qed.

Lemma net_mac1_sys : rx_sys [] [] 0x100 (ring1, net_mac1).
Proof. eapply rx_step_sys; [|exact net_mac_sys|exact net_mac1_step]. done. Qed.

Lemma tivaif_receive_correct_witness : exists k l' s',
  tivaif_receive 0x100 ring1 net_mac1 = Some (l', s') /\ rx_done [] [] 0x100 ring1 net_mac1 k l' s'.
Proof.
  destruct net_mac1_sys as [I C L N].
  exact (tivaif_receive_correct [] [] 0x100 ring1 net_mac1 I ltac:(reflexivity) C L N).
Defined.

(** It answers the ping and stops at the next descriptor. *)
Example receive_ping : option_map (fun x => (ui32Read x.1, length (frames (world x.2)))) (tivaif_receive 0x100 ring1 net_mac1) = Some (1, 1%nat).
Proof. vm_compute. reflexivity. Qed.

Lemma receive_ring_invariant_witness : exists m w', Tivaif.Tivaif.InitDMADescriptors ps0 mac0 = Some (m, w') /\
  forall l' s', rtc (rx_step [] [] 0x100) (Tivaif.Tivaif.pRxDescList w', with_ps m net0) (l', s') -> rx_inv [] [] l' s'.
Proof.
  destruct net0_up as (C & L & N).
  destruct (receive_ring_invariant [] [] 0x100 net0 mac0 net0_inv ltac:(reflexivity) C L N ltac:(done)) as (m & w' & E & H).
  exists m, w'. split; [exact E|]. intros l' s' St. exact (proj1 (H l' s' St)).
Defined.

(** A frame with an error in two buffers, when the pool is used up: the first part is
    freed, since there is no new buffer; the next interrupt puts that buffer back and
    frees the second part, and again there is a buffer in each of the first four
    descriptors. *)
Definition d1 : tDescriptor := Eval vm_compute in default (mk_desc 0 0 0 0 0) (desc 1 ring0).
Definition got_error : Z := Z.lor (Z.lor DES0_RX_STAT_LAST_DESC DES0_RX_STAT_ERR) (Z.shiftl 600 DES0_RX_STAT_FRAME_LENGTH_S).
Definition ring2 : tDescriptorList := set_desc 1 (set_status got_error d1) (set_desc 0 (set_status 0 d0) ring0).

Lemma ring2_sys : rx_sys [] [] 0x100 (ring2, net_mac).
Proof.
  assert (forall p (s : net lwip_mem wire), s = with_ps (with_bytes (write_bytes p [] (bytes (ps s))) (ps s)) s) as Hs by by intros p [[] ? ? ? ? ? ? ? ? ?].
  eapply (rx_step_sys [] [] 0x100 (set_desc 0 (set_status 0 d0) ring0, net_mac)); [done| |].
  - eapply rx_step_sys; [done|exact net_mac_sys|].
    refine (step_fill [] [] 0x100 ring0 net_mac 0 d0 0 [] net_mac _ _ _ _ _ _ _ _);
      [discriminate|vm_compute; reflexivity|vm_compute; reflexivity|discriminate|apply Hs|vm_compute; reflexivity|vm_compute; reflexivity
      |intros H; vm_compute in H; discriminate H].
  - refine (step_fill [] [] 0x100 (set_desc 0 (set_status 0 d0) ring0) net_mac 1 d1 got_error [] net_mac _ _ _ _ _ _ _ _);
      [discriminate|vm_compute; reflexivity|vm_compute; reflexivity|discriminate|apply Hs|vm_compute; reflexivity|vm_compute; reflexivity
      |intros H; vm_compute in H; discriminate H].
Qed.

Definition seen (x : tDescriptorList * net lwip_mem wire) : Z * nat * list Z :=
  (ui32Read x.1, length (frames (world x.2)), map pBuf (pDescriptors x.1)).

Example receive_error : map pBuf (pDescriptors ring2) = [537004228; 537003700; 537003172; 537002644; 0; 0; 0; 0] /\
  option_map seen (tivaif_receive 0x100 ring2 net_mac) = Some (0, 0%nat, [0; 537003700; 537003172; 537002644; 0; 0; 0; 0]) /\
  option_map seen (tivaif_receive 0x100 ring2 net_mac ≫= fun x => tivaif_receive 0x100 x.1 x.2) =
    Some (2, 0%nat, [537004228; 537003700; 537003172; 537002644; 0; 0; 0; 0]).
Proof. vm_compute. repeat split. Qed.

(** A frame of 600 bytes. *)
Definition got_600 : Z := Z.lor DES0_RX_STAT_LAST_DESC (Z.shiftl 600 DES0_RX_STAT_FRAME_LENGTH_S).

Lemma tivaif_receive_two_buffers_witness :
  rx_buffer 0x100 (set_status 0 d0) 0 net_mac = Some (pBuf d0, net_mac) /\
  exists s', rx_buffer 0x100 (set_status got_600 d1) (pBuf d0) net_mac = (rx_complete 0x100 (pBuf d0) (set_status got_600 d1) ;; ret 0) s' /\
    tot_len <$> (bufs (ps s') !! pBuf d0) = Some 1112 /\ len <$> (bufs (ps s') !! pBuf d1) = Some 600.
Proof.
  destruct (tivaif_receive_two_buffers 0x100 (set_status 0 d0) (set_status got_600 d1) (pBuf d0) net_mac
    ltac:(vm_compute; reflexivity) ltac:(vm_compute; reflexivity) ltac:(discriminate) ltac:(discriminate) ltac:(discriminate)
    eq_refl eq_refl eq_refl) as (E1 & s' & E & Ep & Eq).
  split; [exact E1|]. exists s'. split; [exact E|].
  split; [exact (f_equal (option_map tot_len) Ep)|exact (f_equal (option_map len) Eq)].
Defined.

End MacInput.
