(* ===== verification/SwCrc.v ===== *)
(** * CRCs in software (system/driverlib/sw_crc.c)

    [Crc8CCITT], [Crc16] and [Crc32] go through their data by bytes, half-words
    and words, as its alignment allows, with a table of 256 entries per byte;
    [Crc16Array] and [Crc16Array3] are for arrays of words.  The memory is a map
    of bytes, and reading where it has none is an access that must not be made
    ([None]).

    The reference ([crc_lsb], [crc_msb]) is the division by the polynomial one
    bit at a time.  The theorems say that the functions compute it for any
    address, alignment and length, and read the data only. *)
From S2P Require Import Prelude Chksum.

Module SwCrc.

(** ** Tables *)

Definition g_pui8Crc8CCITT : list Z :=
  [0x00; 0x07; 0x0E; 0x09; 0x1C; 0x1B; 0x12; 0x15; 0x38; 0x3F; 0x36; 0x31; 0x24; 0x23; 0x2A; 0x2D;
   0x70; 0x77; 0x7E; 0x79; 0x6C; 0x6B; 0x62; 0x65; 0x48; 0x4F; 0x46; 0x41; 0x54; 0x53; 0x5A; 0x5D;
   0xE0; 0xE7; 0xEE; 0xE9; 0xFC; 0xFB; 0xF2; 0xF5; 0xD8; 0xDF; 0xD6; 0xD1; 0xC4; 0xC3; 0xCA; 0xCD;
   0x90; 0x97; 0x9E; 0x99; 0x8C; 0x8B; 0x82; 0x85; 0xA8; 0xAF; 0xA6; 0xA1; 0xB4; 0xB3; 0xBA; 0xBD;
   0xC7; 0xC0; 0xC9; 0xCE; 0xDB; 0xDC; 0xD5; 0xD2; 0xFF; 0xF8; 0xF1; 0xF6; 0xE3; 0xE4; 0xED; 0xEA;
   0xB7; 0xB0; 0xB9; 0xBE; 0xAB; 0xAC; 0xA5; 0xA2; 0x8F; 0x88; 0x81; 0x86; 0x93; 0x94; 0x9D; 0x9A;
   0x27; 0x20; 0x29; 0x2E; 0x3B; 0x3C; 0x35; 0x32; 0x1F; 0x18; 0x11; 0x16; 0x03; 0x04; 0x0D; 0x0A;
   0x57; 0x50; 0x59; 0x5E; 0x4B; 0x4C; 0x45; 0x42; 0x6F; 0x68; 0x61; 0x66; 0x73; 0x74; 0x7D; 0x7A;
   0x89; 0x8E; 0x87; 0x80; 0x95; 0x92; 0x9B; 0x9C; 0xB1; 0xB6; 0xBF; 0xB8; 0xAD; 0xAA; 0xA3; 0xA4;
   0xF9; 0xFE; 0xF7; 0xF0; 0xE5; 0xE2; 0xEB; 0xEC; 0xC1; 0xC6; 0xCF; 0xC8; 0xDD; 0xDA; 0xD3; 0xD4;
   0x69; 0x6E; 0x67; 0x60; 0x75; 0x72; 0x7B; 0x7C; 0x51; 0x56; 0x5F; 0x58; 0x4D; 0x4A; 0x43; 0x44;
   0x19; 0x1E; 0x17; 0x10; 0x05; 0x02; 0x0B; 0x0C; 0x21; 0x26; 0x2F; 0x28; 0x3D; 0x3A; 0x33; 0x34;
   0x4E; 0x49; 0x40; 0x47; 0x52; 0x55; 0x5C; 0x5B; 0x76; 0x71; 0x78; 0x7F; 0x6A; 0x6D; 0x64; 0x63;
   0x3E; 0x39; 0x30; 0x37; 0x22; 0x25; 0x2C; 0x2B; 0x06; 0x01; 0x08; 0x0F; 0x1A; 0x1D; 0x14; 0x13;
   0xAE; 0xA9; 0xA0; 0xA7; 0xB2; 0xB5; 0xBC; 0xBB; 0x96; 0x91; 0x98; 0x9F; 0x8A; 0x8D; 0x84; 0x83;
   0xDE; 0xD9; 0xD0; 0xD7; 0xC2; 0xC5; 0xCC; 0xCB; 0xE6; 0xE1; 0xE8; 0xEF; 0xFA; 0xFD; 0xF4; 0xF3].

Definition g_pui16Crc16 : list Z :=
  [0x0000; 0xC0C1; 0xC181; 0x0140; 0xC301; 0x03C0; 0x0280; 0xC241; 0xC601; 0x06C0; 0x0780; 0xC741;
   0x0500; 0xC5C1; 0xC481; 0x0440; 0xCC01; 0x0CC0; 0x0D80; 0xCD41; 0x0F00; 0xCFC1; 0xCE81; 0x0E40;
   0x0A00; 0xCAC1; 0xCB81; 0x0B40; 0xC901; 0x09C0; 0x0880; 0xC841; 0xD801; 0x18C0; 0x1980; 0xD941;
   0x1B00; 0xDBC1; 0xDA81; 0x1A40; 0x1E00; 0xDEC1; 0xDF81; 0x1F40; 0xDD01; 0x1DC0; 0x1C80; 0xDC41;
   0x1400; 0xD4C1; 0xD581; 0x1540; 0xD701; 0x17C0; 0x1680; 0xD641; 0xD201; 0x12C0; 0x1380; 0xD341;
   0x1100; 0xD1C1; 0xD081; 0x1040; 0xF001; 0x30C0; 0x3180; 0xF141; 0x3300; 0xF3C1; 0xF281; 0x3240;
   0x3600; 0xF6C1; 0xF781; 0x3740; 0xF501; 0x35C0; 0x3480; 0xF441; 0x3C00; 0xFCC1; 0xFD81; 0x3D40;
   0xFF01; 0x3FC0; 0x3E80; 0xFE41; 0xFA01; 0x3AC0; 0x3B80; 0xFB41; 0x3900; 0xF9C1; 0xF881; 0x3840;
   0x2800; 0xE8C1; 0xE981; 0x2940; 0xEB01; 0x2BC0; 0x2A80; 0xEA41; 0xEE01; 0x2EC0; 0x2F80; 0xEF41;
   0x2D00; 0xEDC1; 0xEC81; 0x2C40; 0xE401; 0x24C0; 0x2580; 0xE541; 0x2700; 0xE7C1; 0xE681; 0x2640;
   0x2200; 0xE2C1; 0xE381; 0x2340; 0xE101; 0x21C0; 0x2080; 0xE041; 0xA001; 0x60C0; 0x6180; 0xA141;
   0x6300; 0xA3C1; 0xA281; 0x6240; 0x6600; 0xA6C1; 0xA781; 0x6740; 0xA501; 0x65C0; 0x6480; 0xA441;
   0x6C00; 0xACC1; 0xAD81; 0x6D40; 0xAF01; 0x6FC0; 0x6E80; 0xAE41; 0xAA01; 0x6AC0; 0x6B80; 0xAB41;
   0x6900; 0xA9C1; 0xA881; 0x6840; 0x7800; 0xB8C1; 0xB981; 0x7940; 0xBB01; 0x7BC0; 0x7A80; 0xBA41;
   0xBE01; 0x7EC0; 0x7F80; 0xBF41; 0x7D00; 0xBDC1; 0xBC81; 0x7C40; 0xB401; 0x74C0; 0x7580; 0xB541;
   0x7700; 0xB7C1; 0xB681; 0x7640; 0x7200; 0xB2C1; 0xB381; 0x7340; 0xB101; 0x71C0; 0x7080; 0xB041;
   0x5000; 0x90C1; 0x9181; 0x5140; 0x9301; 0x53C0; 0x5280; 0x9241; 0x9601; 0x56C0; 0x5780; 0x9741;
   0x5500; 0x95C1; 0x9481; 0x5440; 0x9C01; 0x5CC0; 0x5D80; 0x9D41; 0x5F00; 0x9FC1; 0x9E81; 0x5E40;
   0x5A00; 0x9AC1; 0x9B81; 0x5B40; 0x9901; 0x59C0; 0x5880; 0x9841; 0x8801; 0x48C0; 0x4980; 0x8941;
   0x4B00; 0x8BC1; 0x8A81; 0x4A40; 0x4E00; 0x8EC1; 0x8F81; 0x4F40; 0x8D01; 0x4DC0; 0x4C80; 0x8C41;
   0x4400; 0x84C1; 0x8581; 0x4540; 0x8701; 0x47C0; 0x4680; 0x8641; 0x8201; 0x42C0; 0x4380; 0x8341;
   0x4100; 0x81C1; 0x8081; 0x4040].

Definition g_pui32Crc32 : list Z :=
  [0x00000000; 0x77073096; 0xEE0E612C; 0x990951BA; 0x076DC419; 0x706AF48F; 0xE963A535; 0x9E6495A3;
   0x0EDB8832; 0x79DCB8A4; 0xE0D5E91E; 0x97D2D988; 0x09B64C2B; 0x7EB17CBD; 0xE7B82D07; 0x90BF1D91;
   0x1DB71064; 0x6AB020F2; 0xF3B97148; 0x84BE41DE; 0x1ADAD47D; 0x6DDDE4EB; 0xF4D4B551; 0x83D385C7;
   0x136C9856; 0x646BA8C0; 0xFD62F97A; 0x8A65C9EC; 0x14015C4F; 0x63066CD9; 0xFA0F3D63; 0x8D080DF5;
   0x3B6E20C8; 0x4C69105E; 0xD56041E4; 0xA2677172; 0x3C03E4D1; 0x4B04D447; 0xD20D85FD; 0xA50AB56B;
   0x35B5A8FA; 0x42B2986C; 0xDBBBC9D6; 0xACBCF940; 0x32D86CE3; 0x45DF5C75; 0xDCD60DCF; 0xABD13D59;
   0x26D930AC; 0x51DE003A; 0xC8D75180; 0xBFD06116; 0x21B4F4B5; 0x56B3C423; 0xCFBA9599; 0xB8BDA50F;
   0x2802B89E; 0x5F058808; 0xC60CD9B2; 0xB10BE924; 0x2F6F7C87; 0x58684C11; 0xC1611DAB; 0xB6662D3D;
   0x76DC4190; 0x01DB7106; 0x98D220BC; 0xEFD5102A; 0x71B18589; 0x06B6B51F; 0x9FBFE4A5; 0xE8B8D433;
   0x7807C9A2; 0x0F00F934; 0x9609A88E; 0xE10E9818; 0x7F6A0DBB; 0x086D3D2D; 0x91646C97; 0xE6635C01;
   0x6B6B51F4; 0x1C6C6162; 0x856530D8; 0xF262004E; 0x6C0695ED; 0x1B01A57B; 0x8208F4C1; 0xF50FC457;
   0x65B0D9C6; 0x12B7E950; 0x8BBEB8EA; 0xFCB9887C; 0x62DD1DDF; 0x15DA2D49; 0x8CD37CF3; 0xFBD44C65;
   0x4DB26158; 0x3AB551CE; 0xA3BC0074; 0xD4BB30E2; 0x4ADFA541; 0x3DD895D7; 0xA4D1C46D; 0xD3D6F4FB;
   0x4369E96A; 0x346ED9FC; 0xAD678846; 0xDA60B8D0; 0x44042D73; 0x33031DE5; 0xAA0A4C5F; 0xDD0D7CC9;
   0x5005713C; 0x270241AA; 0xBE0B1010; 0xC90C2086; 0x5768B525; 0x206F85B3; 0xB966D409; 0xCE61E49F;
   0x5EDEF90E; 0x29D9C998; 0xB0D09822; 0xC7D7A8B4; 0x59B33D17; 0x2EB40D81; 0xB7BD5C3B; 0xC0BA6CAD;
   0xEDB88320; 0x9ABFB3B6; 0x03B6E20C; 0x74B1D29A; 0xEAD54739; 0x9DD277AF; 0x04DB2615; 0x73DC1683;
   0xE3630B12; 0x94643B84; 0x0D6D6A3E; 0x7A6A5AA8; 0xE40ECF0B; 0x9309FF9D; 0x0A00AE27; 0x7D079EB1;
   0xF00F9344; 0x8708A3D2; 0x1E01F268; 0x6906C2FE; 0xF762575D; 0x806567CB; 0x196C3671; 0x6E6B06E7;
   0xFED41B76; 0x89D32BE0; 0x10DA7A5A; 0x67DD4ACC; 0xF9B9DF6F; 0x8EBEEFF9; 0x17B7BE43; 0x60B08ED5;
   0xD6D6A3E8; 0xA1D1937E; 0x38D8C2C4; 0x4FDFF252; 0xD1BB67F1; 0xA6BC5767; 0x3FB506DD; 0x48B2364B;
   0xD80D2BDA; 0xAF0A1B4C; 0x36034AF6; 0x41047A60; 0xDF60EFC3; 0xA867DF55; 0x316E8EEF; 0x4669BE79;
   0xCB61B38C; 0xBC66831A; 0x256FD2A0; 0x5268E236; 0xCC0C7795; 0xBB0B4703; 0x220216B9; 0x5505262F;
   0xC5BA3BBE; 0xB2BD0B28; 0x2BB45A92; 0x5CB36A04; 0xC2D7FFA7; 0xB5D0CF31; 0x2CD99E8B; 0x5BDEAE1D;
   0x9B64C2B0; 0xEC63F226; 0x756AA39C; 0x026D930A; 0x9C0906A9; 0xEB0E363F; 0x72076785; 0x05005713;
   0x95BF4A82; 0xE2B87A14; 0x7BB12BAE; 0x0CB61B38; 0x92D28E9B; 0xE5D5BE0D; 0x7CDCEFB7; 0x0BDBDF21;
   0x86D3D2D4; 0xF1D4E242; 0x68DDB3F8; 0x1FDA836E; 0x81BE16CD; 0xF6B9265B; 0x6FB077E1; 0x18B74777;
   0x88085AE6; 0xFF0F6A70; 0x66063BCA; 0x11010B5C; 0x8F659EFF; 0xF862AE69; 0x616BFFD3; 0x166CCF45;
   0xA00AE278; 0xD70DD2EE; 0x4E048354; 0x3903B3C2; 0xA7672661; 0xD06016F7; 0x4969474D; 0x3E6E77DB;
   0xAED16A4A; 0xD9D65ADC; 0x40DF0B66; 0x37D83BF0; 0xA9BCAE53; 0xDEBB9EC5; 0x47B2CF7F; 0x30B5FFE9;
   0xBDBDF21C; 0xCABAC28A; 0x53B39330; 0x24B4A3A6; 0xBAD03605; 0xCDD70693; 0x54DE5729; 0x23D967BF;
   0xB3667A2E; 0xC4614AB8; 0x5D681B02; 0x2A6F2B94; 0xB40BBE37; 0xC30C8EA1; 0x5A05DF1B; 0x2D02EF8D].

(** ** Operations *)

Definition CRC8_ITER (crc data : Z) : Z := nth (Z.to_nat (u8 (Z.lxor crc data))) g_pui8Crc8CCITT 0.
Definition CRC16_ITER (crc data : Z) : Z :=
  Z.lxor (Z.shiftr crc 8) (nth (Z.to_nat (u8 (Z.lxor crc data))) g_pui16Crc16 0).
Definition CRC32_ITER (crc data : Z) : Z :=
  Z.lxor (Z.shiftr crc 8) (nth (Z.to_nat (u8 (Z.lxor (Z.land crc 0xFF) data))) g_pui32Crc32 0).

(** The bytes in memory, and reads of [uint16_t] and [uint32_t]. *)
Definition mem8 (m : gmap Z Z) (p : Z) : option Z := m !! p.
Definition mem16 (m : gmap Z Z) (p : Z) : option Z := a ← mem8 m p; b ← mem8 m (p + 1); Some (Chksum.load16 a b).
Definition mem32 (m : gmap Z Z) (p : Z) : option Z :=
  a ← mem8 m p; b ← mem8 m (p + 1); c ← mem8 m (p + 2); d ← mem8 m (p + 3); Some (Chksum.load32 a b c d).

(** The bodies of the three functions are the same, but for the step [iter],
    which ends with the conversion to the type of the CRC. *)
Section Body.
Context (iter : Z -> Z -> Z).

Definition iter2 (crc t : Z) : Z := iter (iter crc t) (Z.shiftr t 8).
Definition iter4 (crc t : Z) : Z := iter (iter (iter2 crc t) (Z.shiftr t 16)) (Z.shiftr t 24).

(** The loop over the words, with the pointer and the count after it. *)
Fixpoint words (fuel : nat) (m : gmap Z Z) (crc p count : Z) : option (Z * Z * Z) :=
  match fuel with
  | O => None
  | S fuel =>
      if 3 <? count then t ← mem32 m p; words fuel m (iter4 crc t) (u32 (p + 4)) (u32 (count - 4))
      else Some (crc, p, count)
  end.

Definition body (m : gmap Z Z) (crc p count : Z) : option Z :=
  '(crc, p, count) ←
    (if negb (Z.land p 1 =? 0) then t ← mem8 m p; Some (iter crc t, u32 (p + 1), u32 (count - 1))
     else Some (crc, p, count));
  '(crc, p, count) ←
    (if negb (Z.land p 2 =? 0) && (1 <? count) then t ← mem16 m p; Some (iter2 crc t, u32 (p + 2), u32 (count - 2))
     else Some (crc, p, count));
  '(crc, p, count) ← words (S (Z.to_nat (count / 4))) m crc p count;
  '(crc, p, count) ←
    (if 1 <? count then t ← mem16 m p; Some (iter2 crc t, u32 (p + 2), u32 (count - 2)) else Some (crc, p, count));
  if negb (count =? 0) then t ← mem8 m p; Some (iter crc t) else Some crc.

End Body.

(** The steps, with the conversion on assignment. *)
Definition it8 (crc t : Z) : Z := u8 (CRC8_ITER crc t).
Definition it16 (crc t : Z) : Z := u16 (CRC16_ITER crc t).
Definition it32 (crc t : Z) : Z := u32 (CRC32_ITER crc t).

Definition Crc8CCITT (m : gmap Z Z) (ui8Crc pui8Data ui32Count : Z) : option Z :=
  body it8 m ui8Crc pui8Data ui32Count.
Definition Crc16 (m : gmap Z Z) (ui16Crc pui8Data ui32Count : Z) : option Z :=
  body it16 m ui16Crc pui8Data ui32Count.
Definition Crc32 (m : gmap Z Z) (ui32Crc pui8Data ui32Count : Z) : option Z :=
  body it32 m ui32Crc pui8Data ui32Count.

Definition Crc16Array (m : gmap Z Z) (ui32WordLen pui32Data : Z) : option Z :=
  Crc16 m 0 pui32Data (u32 (ui32WordLen * 4)).

(** The loop of [Crc16Array3], [n] words to go. *)
Fixpoint array3_loop (n : nat) (m : gmap Z Z) (p crc even odd : Z) : option (Z * Z * Z) :=
  match n with
  | O => Some (crc, even, odd)
  | S n =>
      t ← mem32 m p;
      array3_loop n m (u32 (p + 4)) (iter4 it16 crc t) (it16 (it16 even t) (Z.shiftr t 16))
        (it16 (it16 odd (Z.shiftr t 8)) (Z.shiftr t 24))
  end.

Definition Crc16Array3 (m : gmap Z Z) (ui32WordLen pui32Data : Z) : option (Z * Z * Z) :=
  array3_loop (Z.to_nat ui32WordLen) m pui32Data 0 0 0.

(** ** Reference *)

(** One bit of the division, the lowest first ([poly] with its bits reversed) or
    the highest of [w] first. *)
Definition step_lsb (poly x : Z) : Z := Z.lxor (Z.shiftr x 1) (if Z.odd x then poly else 0).
Definition step_msb (w poly x : Z) : Z :=
  Z.lxor ((2 * x) mod 2 ^ w) (if Z.testbit x (w - 1) then poly else 0).

Definition crc_lsb (poly : Z) (crc : Z) (data : list Z) : Z :=
  fold_left (fun c b => Nat.iter 8 (step_lsb poly) (Z.lxor c b)) data crc.
Definition crc_msb (w poly : Z) (crc : Z) (data : list Z) : Z :=
  fold_left (fun c b => Nat.iter 8 (step_msb w poly) (Z.lxor c (Z.shiftl b (w - 8)))) data crc.

(** x^8 + x^2 + x + 1; x^16 + x^15 + x^2 + 1 and the polynomial of Ethernet,
    reversed. *)
Definition POLY8 : Z := 0x07.
Definition POLY16 : Z := 0xA001.
Definition POLY32 : Z := 0xEDB88320.

(** The bytes [l] are at [p]. *)
Definition at_mem (m : gmap Z Z) (p : Z) (l : list Z) : Prop :=
  forall i b, l !! i = Some b -> m !! (p + Z.of_nat i) = Some b.

(** ** The walk through the data *)

Lemma at_mem_cons m p b l : at_mem m p (b :: l) <-> m !! p = Some b /\ at_mem m (p + 1) l.
Proof.
  split.
  - intros H. split; [rewrite <-(Z.add_0_r p); by apply (H 0%nat)|]. intros i c Hi. rewrite <-(H (S i) c Hi). f_equal. lia.
  - intros [H0 H] [|i] c Hi; [cbn in Hi; rewrite Z.add_0_r; congruence|]. rewrite <-(H i c Hi). f_equal. lia.
Qed.

Lemma at_mem_app m p l l' : at_mem m p (l ++ l') <-> at_mem m p l /\ at_mem m (p + Z.of_nat (length l)) l'.
Proof.
  revert p. induction l as [|b l IH]; intros p; cbn [app length].
  - rewrite Z.add_0_r. split; [intros H; split; [|done]; by intros i c Hi|by intros [_ H]].
  - rewrite !at_mem_cons, IH. replace (p + 1 + Z.of_nat (length l)) with (p + Z.of_nat (S (length l))) by lia. tauto.
Qed.

(** A byte. *)
Definition byte (b : Z) : Prop := 0 <= b < 256.

Lemma wrap_lxor w x y : 0 <= w -> wrap w (Z.lxor x y) = Z.lxor (wrap w x) (wrap w y).
Proof.
  intros Hw. unfold wrap. apply Z.bits_inj'. intros n Hn. rewrite Z.lxor_spec. destruct (Z.lt_ge_cases n w).
  - by rewrite !Z.mod_pow2_bits_low, Z.lxor_spec by lia.
  - by rewrite !Z.mod_pow2_bits_high by lia.
Qed.

Section Walk.
Context (iter : Z -> Z -> Z) (low : forall c t, iter c (u8 t) = iter c t).

Lemma iter_low c t t' : u8 t = u8 t' -> iter c t = iter c t'.
Proof. intros E. by rewrite <-low, E, low. Qed.

Lemma iter2_bytes c a b : byte a -> byte b -> iter2 iter c (Chksum.load16 a b) = iter (iter c a) b.
Proof.
  unfold byte, iter2, Chksum.load16. intros Ha Hb. rewrite (iter_low c _ a), (iter_low (iter c a) _ b); [done| |];
    unfold wrap; [rewrite Z.shiftr_div_pow2 by lia|]; cint_pow; change (2 ^ 8) with 256; Z.div_mod_to_equations; lia.
Qed.

Lemma iter4_bytes crc a b c d : byte a -> byte b -> byte c -> byte d ->
  iter4 iter crc (Chksum.load32 a b c d) = iter (iter (iter (iter crc a) b) c) d.
Proof.
  unfold byte, iter4, iter2, Chksum.load32. intros Ha Hb Hc Hd.
  assert (forall x, iter x (a + 256 * b + 65536 * c + 16777216 * d) = iter x a) as ->
    by (intros; apply iter_low; unfold wrap; change (2 ^ 8) with 256; Z.div_mod_to_equations; lia).
  rewrite !Z.shiftr_div_pow2 by lia.
  assert (forall x, iter x ((a + 256 * b + 65536 * c + 16777216 * d) / 2 ^ 8) = iter x b) as ->
    by (intros; apply iter_low; unfold wrap; change (2 ^ 8) with 256; Z.div_mod_to_equations; lia).
  assert (forall x, iter x ((a + 256 * b + 65536 * c + 16777216 * d) / 2 ^ 16) = iter x c) as ->
    by (intros; apply iter_low; unfold wrap; change (2 ^ 8) with 256; change (2 ^ 16) with 65536; Z.div_mod_to_equations; lia).
  apply iter_low. unfold wrap. change (2 ^ 8) with 256. change (2 ^ 24) with 16777216. Z.div_mod_to_equations. lia.
Qed.

Lemma mem16_run m p a b l : at_mem m p (a :: b :: l) -> mem16 m p = Some (Chksum.load16 a b) /\ at_mem m (p + 2) l.
Proof.
  rewrite !at_mem_cons. intros (E1 & E2 & H). unfold mem16, mem8. rewrite E1, E2. split; [done|].
  by replace (p + 2) with (p + 1 + 1) by lia.
Qed.

Lemma mem32_run m p a b c d l : at_mem m p (a :: b :: c :: d :: l) ->
  mem32 m p = Some (Chksum.load32 a b c d) /\ at_mem m (p + 4) l.
Proof.
  rewrite !at_mem_cons. intros (E1 & E2 & E3 & E4 & H). unfold mem32, mem8.
  replace (p + 2) with (p + 1 + 1) by lia. replace (p + 3) with (p + 1 + 1 + 1) by lia. rewrite E1, E2, E3, E4. split; [done|].
  by replace (p + 4) with (p + 1 + 1 + 1 + 1) by lia.
Qed.

Lemma words_run m : forall fuel l crc p, (length l < 4 * fuel)%nat -> at_mem m p l -> Forall byte l ->
  0 <= p -> p + Z.of_nat (length l) < 2 ^ 32 ->
  exists l1 l2, l = l1 ++ l2 /\ (length l2 < 4)%nat /\ words iter fuel m crc p (Z.of_nat (length l)) =
    Some (fold_left iter l1 crc, p + Z.of_nat (length l1), Z.of_nat (length l2)).
Proof.
  induction fuel as [|fuel IH]; intros l crc p Hf Hm Hb Hp Hl; [lia|]. cbn [words].
  destruct (Z.ltb_spec 3 (Z.of_nat (length l))) as [H|H].
  - destruct l as [|a [|b [|c [|d l]]]]; cbn [length] in *; try lia.
    destruct (mem32_run _ _ _ _ _ _ _ Hm) as [-> Hm']. cbn [mbind option_bind]. rewrite !Forall_cons in Hb.
    destruct Hb as (Ba & Bb & Bc & Bd & Bl). rewrite iter4_bytes by done.
    rewrite (wrap_id 32 (p + 4)) by cint. rewrite (wrap_id 32) by cint.
    replace (Z.of_nat (S (S (S (S (length l))))) - 4) with (Z.of_nat (length l)) by lia.
    destruct (IH l (iter (iter (iter (iter crc a) b) c) d) (p + 4) ltac:(lia) Hm' Bl ltac:(lia) ltac:(lia)) as (l1 & l2 & -> & H2 & E).
    exists (a :: b :: c :: d :: l1), l2. split; [done|]. split; [done|]. rewrite E. cbn [fold_left length]. f_equal. f_equal. f_equal. lia.
  - exists [], l. split; [done|]. split; [lia|]. cbn [fold_left length]. by rewrite Z.add_0_r.
Qed.

(** The last 3 bytes or less. *)
Lemma tail_run m crc p l : (length l < 4)%nat -> at_mem m p l -> Forall byte l -> 0 <= p -> p + Z.of_nat (length l) < 2 ^ 32 ->
  ('(crc, p, count) ←
    (if 1 <? Z.of_nat (length l) then t ← mem16 m p; Some (iter2 iter crc t, u32 (p + 2), u32 (Z.of_nat (length l) - 2))
     else Some (crc, p, Z.of_nat (length l)));
  if negb (count =? 0) then t ← mem8 m p; Some (iter crc t) else Some crc) = Some (fold_left iter l crc).
Proof.
  intros Hl Hm Hb Hp Hs. destruct l as [|a [|b l]]; cbn [length] in *.
  - done.
  - apply at_mem_cons in Hm as [E _]. change (1 <? Z.of_nat 1) with false. cbn [mbind option_bind].
    change (negb (Z.of_nat 1 =? 0)) with true. cbv iota. unfold mem8. by rewrite E.
  - destruct (mem16_run _ _ _ _ _ Hm) as [E Hm']. rewrite !Forall_cons in Hb. destruct Hb as (Ba & Bb & _).
    rewrite (proj2 (Z.ltb_lt _ _)) by lia. rewrite E. cbn [mbind option_bind]. rewrite iter2_bytes by done.
    rewrite (wrap_id 32 (p + 2)) by cint. rewrite (wrap_id 32) by cint.
    replace (Z.of_nat (S (S (length l))) - 2) with (Z.of_nat (length l)) by lia.
    destruct l as [|c [|]]; cbn [length] in *; [done| |lia]. apply at_mem_cons in Hm' as [E' _].
    change (negb (Z.of_nat 1 =? 0)) with true. cbv iota. unfold mem8. by rewrite E'.
Qed.

Lemma body_run m crc p l : at_mem m p l -> Forall byte l -> 0 <= p -> p + Z.of_nat (length l) < 2 ^ 32 ->
  (Z.land p 1 ≠ 0 -> l ≠ []) -> body iter m crc p (Z.of_nat (length l)) = Some (fold_left iter l crc).
Proof.
  intros Hm Hb Hp Hs Hne. unfold body.
  assert (forall crc p l, at_mem m p l -> Forall byte l -> 0 <= p -> p + Z.of_nat (length l) < 2 ^ 32 ->
    ('(crc, p, count) ← words iter (S (Z.to_nat (Z.of_nat (length l) / 4))) m crc p (Z.of_nat (length l));
     '(crc, p, count) ←
      (if 1 <? count then t ← mem16 m p; Some (iter2 iter crc t, u32 (p + 2), u32 (count - 2)) else Some (crc, p, count));
     if negb (count =? 0) then t ← mem8 m p; Some (iter crc t) else Some crc) = Some (fold_left iter l crc)) as Hrest.
  { clear crc p l Hm Hb Hp Hs Hne. intros crc p l Hm Hb Hp Hs.
    destruct (words_run m (S (Z.to_nat (Z.of_nat (length l) / 4))) l crc p) as (l1 & l2 & -> & H2 & E); try done.
    { Z.div_mod_to_equations. lia. }
    rewrite E. cbn [mbind option_bind]. apply at_mem_app in Hm as [_ Hm]. rewrite Forall_app in Hb. rewrite length_app in Hs.
    rewrite fold_left_app. apply tail_run; [done|done|by destruct Hb|lia|lia]. }
  assert (forall crc p l, at_mem m p l -> Forall byte l -> 0 <= p -> p + Z.of_nat (length l) < 2 ^ 32 ->
    ('(crc, p, count) ←
      (if negb (Z.land p 2 =? 0) && (1 <? Z.of_nat (length l))
       then t ← mem16 m p; Some (iter2 iter crc t, u32 (p + 2), u32 (Z.of_nat (length l) - 2)) else Some (crc, p, Z.of_nat (length l)));
     '(crc, p, count) ← words iter (S (Z.to_nat (count / 4))) m crc p count;
     '(crc, p, count) ←
      (if 1 <? count then t ← mem16 m p; Some (iter2 iter crc t, u32 (p + 2), u32 (count - 2)) else Some (crc, p, count));
     if negb (count =? 0) then t ← mem8 m p; Some (iter crc t) else Some crc) = Some (fold_left iter l crc)) as Hrest2.
  { clear crc p l Hm Hb Hp Hs Hne. intros crc p l Hm Hb Hp Hs. destruct (negb (Z.land p 2 =? 0)); cbn [andb]; [|by apply Hrest].
    destruct (Z.ltb_spec 1 (Z.of_nat (length l))) as [H|H]; [|by apply Hrest].
    destruct l as [|a [|b l]]; cbn [length] in *; try lia. destruct (mem16_run _ _ _ _ _ Hm) as [-> Hm']. cbn [mbind option_bind].
    rewrite !Forall_cons in Hb. destruct Hb as (Ba & Bb & Bl). rewrite iter2_bytes by done.
    rewrite (wrap_id 32 (p + 2)) by cint. rewrite (wrap_id 32) by cint.
    replace (Z.of_nat (S (S (length l))) - 2) with (Z.of_nat (length l)) by lia. cbn [fold_left]. apply Hrest; [done|done|lia|lia]. }
  destruct (Z.eqb_spec (Z.land p 1) 0) as [H|H]; cbn [negb]; [by apply Hrest2|]. destruct l as [|a l]; [by destruct (Hne H)|].
  apply at_mem_cons in Hm as [E Hm]. apply Forall_cons in Hb as [Ba Bl]. rewrite (E : mem8 m p = _). cbn [mbind option_bind].
  cbn [length] in *. rewrite (wrap_id 32 (p + 1)) by cint. rewrite (wrap_id 32) by cint.
  replace (Z.of_nat (S (length l)) - 1) with (Z.of_nat (length l)) by lia. cbn [fold_left]. apply Hrest2; [done|done|lia|lia].
Qed.

End Walk.

(** ** The tables *)

(** A step of the division is linear. *)
Lemma step_lsb_lxor poly x y : step_lsb poly (Z.lxor x y) = Z.lxor (step_lsb poly x) (step_lsb poly y).
Proof.
  unfold step_lsb. rewrite Z.shiftr_lxor, <-!Z.bit0_odd, Z.lxor_spec. apply Z.bits_inj'. intros n Hn.
  destruct (Z.testbit x 0), (Z.testbit y 0); cbn [xorb]; rewrite !Z.lxor_spec, ?Z.bits_0;
    destruct (Z.testbit (Z.shiftr x 1) n), (Z.testbit (Z.shiftr y 1) n), (Z.testbit poly n); done.
Qed.

Lemma steps_lsb_lxor poly n x y : Nat.iter n (step_lsb poly) (Z.lxor x y) = Z.lxor (Nat.iter n (step_lsb poly) x) (Nat.iter n (step_lsb poly) y).
Proof. induction n as [|n IH]; [done|]. cbn [Nat.iter]. unfold Nat.iter in *. cbn [nat_rect]. by rewrite IH, step_lsb_lxor. Qed.

(** The bits above the lowest byte only move. *)
Lemma steps_lsb_high poly k x : Nat.iter k (step_lsb poly) (Z.shiftl x (Z.of_nat k)) = x.
Proof.
  induction k as [|k IH]; [apply Z.shiftl_0_r|]. rewrite Nat.iter_succ_r. unfold step_lsb at 2.
  replace (Z.odd (Z.shiftl x (Z.of_nat (S k)))) with false.
  - rewrite Z.lxor_0_r, Z.shiftr_shiftl_l by lia. replace (Z.of_nat (S k) - 1) with (Z.of_nat k) by lia. exact IH.
  - rewrite <-Z.bit0_odd, Z.shiftl_spec_low by lia. done.
Qed.

Lemma byte_parts x : 0 <= x -> x = Z.lxor (Z.shiftl (Z.shiftr x 8) 8) (u8 x).
Proof.
  intros Hx. apply Z.bits_inj'. intros n Hn. rewrite Z.lxor_spec. unfold wrap. destruct (Z.lt_ge_cases n 8).
  - by rewrite Z.shiftl_spec_low, Z.mod_pow2_bits_low by lia.
  - rewrite Z.shiftl_spec, Z.shiftr_spec, Z.mod_pow2_bits_high by lia. rewrite xorb_false_r. f_equal. lia.
Qed.

(** One byte of the division is a table lookup. *)
Lemma table_step poly table x : (forall i, 0 <= i < 256 -> nth (Z.to_nat i) table 0 = Nat.iter 8 (step_lsb poly) i) -> 0 <= x ->
  Z.lxor (Z.shiftr x 8) (nth (Z.to_nat (u8 x)) table 0) = Nat.iter 8 (step_lsb poly) x.
Proof.
  intros Ht Hx. rewrite Ht by (apply (wrap_range 8 x); lia). rewrite (byte_parts x Hx) at 3.
  by rewrite steps_lsb_lxor, (steps_lsb_high poly 8).
Qed.

Lemma all_bytes (P : Z -> Prop) : Forall P (seqZ 0 256) -> forall i, 0 <= i < 256 -> P i.
Proof. intros H i Hi. rewrite Forall_forall in H. apply H, elem_of_seqZ. lia. Qed.

Lemma table8 i : 0 <= i < 256 -> nth (Z.to_nat i) g_pui8Crc8CCITT 0 = Nat.iter 8 (step_msb 8 POLY8) i.
Proof. revert i. apply all_bytes. apply (bool_decide_unpack _). by vm_compute. Qed.

Lemma table16 i : 0 <= i < 256 -> nth (Z.to_nat i) g_pui16Crc16 0 = Nat.iter 8 (step_lsb POLY16) i.
Proof. revert i. apply all_bytes. apply (bool_decide_unpack _). by vm_compute. Qed.

Lemma table32 i : 0 <= i < 256 -> nth (Z.to_nat i) g_pui32Crc32 0 = Nat.iter 8 (step_lsb POLY32) i.
Proof. revert i. apply all_bytes. apply (bool_decide_unpack _). by vm_compute. Qed.

(** *** One byte *)

Lemma in_u_lxor w x y : 0 <= w -> in_u w x -> in_u w y -> in_u w (Z.lxor x y).
Proof. intros Hw Hx Hy. rewrite <-(wrap_id w x Hx), <-(wrap_id w y Hy), <-wrap_lxor by done. by apply wrap_range. Qed.

Lemma step_lsb_range w poly x : 0 <= w -> in_u w poly -> in_u w x -> in_u w (step_lsb poly x).
Proof.
  intros Hw Hp Hx. unfold step_lsb. apply in_u_lxor; [done| |].
  - unfold in_u in *. rewrite Z.shiftr_div_pow2 by lia. change (2 ^ 1) with 2. Z.div_mod_to_equations. lia.
  - destruct (Z.odd x); [done|]. unfold in_u in *. lia.
Qed.

Lemma steps_lsb_range w poly n x : 0 <= w -> in_u w poly -> in_u w x -> in_u w (Nat.iter n (step_lsb poly) x).
Proof. intros Hw Hp Hx. apply Nat.iter_invariant; [|done]. intros y Hy. by apply step_lsb_range. Qed.

Lemma byte_in_u w b : 8 <= w -> byte b -> in_u w b.
Proof. unfold byte, in_u. intros Hw Hb. pose proof (Z.pow_le_mono_r 2 8 w ltac:(lia) Hw). lia. Qed.

Lemma iter8_step c b : in_u 8 c -> byte b ->
  u8 (CRC8_ITER c b) = Nat.iter 8 (step_msb 8 POLY8) (Z.lxor c (Z.shiftl b (8 - 8))) /\ in_u 8 (u8 (CRC8_ITER c b)).
Proof.
  intros Hc Hb. assert (in_u 8 (Z.lxor c b)) as Hx by (apply in_u_lxor; [lia|done|by apply byte_in_u]).
  split; [|by apply wrap_range]. unfold CRC8_ITER. rewrite (wrap_id 8 (Z.lxor c b)) by done. rewrite table8 by done.
  rewrite Z.shiftl_0_r. apply wrap_id. revert Hx. generalize (Z.lxor c b).
  apply (all_bytes (fun x => in_u 8 (Nat.iter 8 (step_msb 8 POLY8) x))). apply (bool_decide_unpack _). by vm_compute.
Qed.

Lemma iter16_step c b : in_u 16 c -> byte b ->
  u16 (CRC16_ITER c b) = Nat.iter 8 (step_lsb POLY16) (Z.lxor c b) /\ in_u 16 (u16 (CRC16_ITER c b)).
Proof.
  intros Hc Hb. assert (in_u 16 (Z.lxor c b)) as Hx by (apply in_u_lxor; [lia|done|by apply byte_in_u]).
  split; [|by apply wrap_range]. unfold CRC16_ITER. rewrite <-(table_step POLY16 g_pui16Crc16 (Z.lxor c b) table16) by apply Hx.
  rewrite Z.shiftr_lxor. replace (Z.shiftr b 8) with 0 by (unfold byte in Hb; rewrite Z.shiftr_div_pow2, Z.div_small by lia; done).
  rewrite Z.lxor_0_r. apply wrap_id.
  pose proof (steps_lsb_range 16 POLY16 8 _ ltac:(lia) ltac:(done) Hx) as H. rewrite <-(table_step POLY16 g_pui16Crc16 _ table16) in H by apply Hx.
  rewrite Z.shiftr_lxor in H. replace (Z.shiftr b 8) with 0 in H by (unfold byte in Hb; rewrite Z.shiftr_div_pow2, Z.div_small by lia; done).
  by rewrite Z.lxor_0_r in H.
Qed.

Lemma iter32_step c b : in_u 32 c -> byte b ->
  u32 (CRC32_ITER c b) = Nat.iter 8 (step_lsb POLY32) (Z.lxor c b) /\ in_u 32 (u32 (CRC32_ITER c b)).
Proof.
  intros Hc Hb. assert (in_u 32 (Z.lxor c b)) as Hx by (apply in_u_lxor; [lia|done|by apply byte_in_u]).
  split; [|by apply wrap_range]. unfold CRC32_ITER.
  assert (u8 (Z.lxor (Z.land c 0xFF) b) = u8 (Z.lxor c b)) as ->.
  { rewrite !wrap_lxor by lia. f_equal. change 0xFF with (Z.ones 8). rewrite Z.land_ones by lia. by apply wrap_wrap. }
  assert (Z.shiftr c 8 = Z.shiftr (Z.lxor c b) 8) as ->.
  { rewrite Z.shiftr_lxor. replace (Z.shiftr b 8) with 0; [by rewrite Z.lxor_0_r|].
    unfold byte in Hb. rewrite Z.shiftr_div_pow2, Z.div_small by lia. done. }
  rewrite (table_step POLY32 g_pui32Crc32 (Z.lxor c b) table32) by apply Hx. apply wrap_id, steps_lsb_range; [lia|done|done].
Qed.

(** *** All bytes *)

Lemma fold_steps w (it ref : Z -> Z -> Z) : (forall c b, in_u w c -> byte b -> it c b = ref c b /\ in_u w (it c b)) ->
  forall l c, in_u w c -> Forall byte l -> fold_left it l c = fold_left ref l c.
Proof.
  intros H. induction l as [|b l IH]; intros c Hc Hl; [done|]. apply Forall_cons in Hl as [Hb Hl]. cbn [fold_left].
  destruct (H c b Hc Hb) as [E Hr]. rewrite <-E. by apply IH.
Qed.

Lemma low8 c t : it8 c (u8 t) = it8 c t.
Proof. unfold it8, CRC8_ITER. by rewrite !wrap_lxor, wrap_wrap by lia. Qed.
Lemma low16 c t : it16 c (u8 t) = it16 c t.
Proof. unfold it16, CRC16_ITER. by rewrite !(wrap_lxor 8), wrap_wrap by lia. Qed.
Lemma low32 c t : it32 c (u8 t) = it32 c t.
Proof. unfold it32, CRC32_ITER. by rewrite !(wrap_lxor 8), (wrap_wrap 8 t) by lia. Qed.

Lemma fold16 l c : in_u 16 c -> Forall byte l -> fold_left it16 l c = crc_lsb POLY16 c l.
Proof. apply (fold_steps 16 it16). intros. by apply iter16_step. Qed.

(** The data of a call: bytes [l] at [p], within the address space.  (An odd
    address and no data: see [crc_odd_empty].) *)
Record data_at (m : gmap Z Z) (p : Z) (l : list Z) : Prop := {
  da_mem : at_mem m p l;
  da_bytes : Forall byte l;
  da_low : 0 <= p;
  da_high : p + Z.of_nat (length l) < 2 ^ 32;
  da_some : Z.land p 1 ≠ 0 -> l ≠ [] }.

(** Every second byte, from the first. *)
Fixpoint evens (l : list Z) : list Z := match l with a :: _ :: l => a :: evens l | [a] => [a] | [] => [] end.
Definition odds (l : list Z) : list Z := evens (tail l).

Lemma array3_run m : forall n l p crc even odd, length l = (4 * n)%nat -> at_mem m p l -> Forall byte l -> 0 <= p ->
  p + Z.of_nat (length l) < 2 ^ 32 ->
  array3_loop n m p crc even odd = Some (fold_left it16 l crc, fold_left it16 (evens l) even, fold_left it16 (odds l) odd).
Proof.
  induction n as [|n IH]; intros l p crc even odd Hl Hm Hb Hp Hs; cbn [array3_loop].
  - by destruct l.
  - destruct l as [|a [|b [|c [|d l]]]]; cbn [length] in *; try lia. destruct (mem32_run _ _ _ _ _ _ _ Hm) as [-> Hm'].
    cbn [mbind option_bind]. rewrite !Forall_cons in Hb. destruct Hb as (Ba & Bb & Bc & Bd & Bl).
    rewrite (wrap_id 32 (p + 4)) by cint. rewrite (IH l) by (try done; lia).
    rewrite (iter4_bytes it16 low16) by done. unfold byte in *.
    assert (forall k j x, Chksum.load32 a b c d / 2 ^ k mod 256 = j -> 0 <= k -> it16 x (Z.shiftr (Chksum.load32 a b c d) k) = it16 x (u8 j)) as Hs'.
    { intros k j x Hj Hk. rewrite Z.shiftr_div_pow2 by lia. rewrite <-Hj. rewrite <-(low16 x (_ / _)).
      unfold wrap. change (2 ^ 8) with 256. by rewrite Z.mod_mod by lia. }
    unfold Chksum.load32 in *.
    rewrite (Hs' 16 c), (Hs' 8 b), (Hs' 24 d);
      [|change (2 ^ 24) with 16777216; Z.div_mod_to_equations; lia|lia|change (2 ^ 8) with 256; Z.div_mod_to_equations; lia|lia
       |change (2 ^ 16) with 65536; Z.div_mod_to_equations; lia|lia].
    rewrite (wrap_id 8 b), (wrap_id 8 c), (wrap_id 8 d) by cint.
    replace (it16 even (a + 256 * b + 65536 * c + 16777216 * d)) with (it16 even a); [by destruct l|].
    rewrite <-(low16 even (a + _ + _ + _)). f_equal. unfold wrap. change (2 ^ 8) with 256. Z.div_mod_to_equations. lia.
Qed.

Lemma crc_run m p l : data_at m p l ->
  (forall crc, in_u 8 crc -> Crc8CCITT m crc p (Z.of_nat (length l)) = Some (crc_msb 8 POLY8 crc l)) /\
  (forall crc, in_u 16 crc -> Crc16 m crc p (Z.of_nat (length l)) = Some (crc_lsb POLY16 crc l)) /\
  (forall crc, in_u 32 crc -> Crc32 m crc p (Z.of_nat (length l)) = Some (crc_lsb POLY32 crc l)).
Proof.
  intros [Hm Hb Hp Hs Hne]. split_and!; intros crc Hc.
  - unfold Crc8CCITT. rewrite (body_run _ low8) by done. f_equal. by apply (fold_steps 8); [intros; apply iter8_step| |].
  - unfold Crc16. rewrite (body_run _ low16) by done. f_equal. by apply fold16.
  - unfold Crc32. rewrite (body_run _ low32) by done. f_equal. by apply (fold_steps 32); [intros; apply iter32_step| |].
Qed.

(** ** Theorems *)

(** C18: The three CRC functions compute the remainder of the division by their
    polynomial, bit by bit, of any data at any address: whatever the alignment and
    the length, the steps by bytes, half-words and words with the tables give what
    the division one bit at a time gives, and only the data is read.  The one
    exception is no data at an odd address ([data_at]; see [crc_odd_empty]). *)
Theorem crc_correct m p l : data_at m p l ->
  (forall crc, in_u 8 crc -> Crc8CCITT m crc p (Z.of_nat (length l)) = Some (crc_msb 8 POLY8 crc l)) /\
  (forall crc, in_u 16 crc -> Crc16 m crc p (Z.of_nat (length l)) = Some (crc_lsb POLY16 crc l)) /\
  (forall crc, in_u 32 crc -> Crc32 m crc p (Z.of_nat (length l)) = Some (crc_lsb POLY32 crc l)).
Proof. apply crc_run. Qed.

(** The CRC of data in pieces: the CRC of the first piece is the start for
    the second, wherever the pieces are in memory. *)
Theorem crc_running m p l p' l' q crc : data_at m p l -> data_at m p' l' -> data_at m q (l ++ l') -> in_u 32 crc ->
  exists c, Crc32 m crc p (Z.of_nat (length l)) = Some c /\
    Crc32 m c p' (Z.of_nat (length l')) = Crc32 m crc q (Z.of_nat (length (l ++ l'))).
Proof.
  intros [Hm Hb Hp Hs Hne] [Hm' Hb' Hp' Hs' Hne'] [Hq Hbq Hpq Hsq Hneq] Hc.
  unfold Crc32. rewrite (body_run _ low32 m crc p l) by done. eexists. split; [reflexivity|].
  rewrite !(body_run _ low32) by done. by rewrite fold_left_app.
Qed.

(** [Crc16Array] is the CRC-16 of the bytes of the words, and [Crc16Array3]
    gives it with those of the bytes at even and at odd positions. *)
Theorem crc16_arrays m p l n : data_at m p l -> length l = (4 * n)%nat ->
  Crc16Array m (Z.of_nat n) p = Some (crc_lsb POLY16 0 l) /\
  Crc16Array3 m (Z.of_nat n) p = Some (crc_lsb POLY16 0 l, crc_lsb POLY16 0 (evens l), crc_lsb POLY16 0 (odds l)).
Proof.
  intros [Hm Hb Hp Hs Hne] Hl. assert (Forall byte (evens l) /\ Forall byte (odds l)) as [He Ho].
  { clear -Hb. assert (forall k, Forall byte k -> Forall byte (evens k)) as H.
    { intros k. remember (length k) as n eqn:En. revert k En. induction (lt_wf n) as [n _ IH]. intros [|a [|b k]] -> Hk; [done|done|].
      cbn [evens]. rewrite !Forall_cons in Hk. destruct Hk as (? & ? & Hk). constructor; [done|].
      apply (IH (length k)); [cbn; lia|done|done]. }
    split; apply H; [done|]. destruct l; [done|]. by apply Forall_cons in Hb as [_ ?]. }
  split.
  - unfold Crc16Array. rewrite (wrap_id 32) by cint. replace (Z.of_nat n * 4) with (Z.of_nat (length l)) by lia.
    unfold Crc16. rewrite (body_run _ low16) by done. f_equal. by apply fold16.
  - unfold Crc16Array3. rewrite Nat2Z.id, (array3_run m n l) by done. by rewrite !fold16.
Qed.

(** No data at an odd address: a byte is read all the same, and the count
    wraps to [0xFFFFFFFF]. *)
Theorem crc_odd_empty m p crc : Z.land p 1 ≠ 0 -> m !! p = None ->
  Crc8CCITT m crc p 0 = None /\ Crc16 m crc p 0 = None /\ Crc32 m crc p 0 = None.
Proof.
  intros Hp Hm. assert (forall it, body it m crc p 0 = None) as H; [|unfold Crc8CCITT, Crc16, Crc32; by rewrite !H].
  intros it. unfold body. rewrite (proj2 (Z.eqb_neq _ _) Hp). cbn [negb]. by rewrite (Hm : mem8 m p = _).
Qed.

(** ** The theorems at work *)

(** "123456789" at an odd address. *)
Definition check : list Z := [0x31; 0x32; 0x33; 0x34; 0x35; 0x36; 0x37; 0x38; 0x39].
Definition check_mem (p : Z) (l : list Z) : gmap Z Z := list_to_map (zip (seqZ p (Z.of_nat (length l))) l).

Lemma check_at p l : 0 <= p -> p + Z.of_nat (length l) < 2 ^ 32 -> Forall byte l -> l ≠ [] -> data_at (check_mem p l) p l.
Proof.
  intros Hp Hs Hb Hl. split; try done. intros i b Hi. unfold check_mem. apply elem_of_list_to_map.
  - rewrite fst_zip by (rewrite length_seqZ; lia). apply NoDup_seqZ.
  - apply list_elem_of_lookup. exists i. pose proof (lookup_lt_Some _ _ _ Hi).
    apply lookup_zip_with_Some. exists (p + Z.of_nat i), b. split; [done|]. split; [|done].
    apply lookup_seqZ. lia.
Qed.

Lemma check_bytes : Forall byte check.
Proof. by repeat constructor. Qed.

Lemma crc_correct_witness : Crc8CCITT (check_mem 0x20000001 check) 0 0x20000001 9 = Some 0xF4 /\
  Crc16 (check_mem 0x20000001 check) 0 0x20000001 9 = Some 0xBB3D /\
  Crc32 (check_mem 0x20000001 check) 0xFFFFFFFF 0x20000001 9 = Some (Z.lxor 0xCBF43926 0xFFFFFFFF).
Proof.
  destruct (crc_correct (check_mem 0x20000001 check) 0x20000001 check
    (check_at 0x20000001 check ltac:(discriminate) eq_refl check_bytes ltac:(discriminate))) as (H8 & H16 & H32).
  split; [exact (H8 0 ltac:(split; [discriminate|reflexivity]))|].
  split; [exact (H16 0 ltac:(split; [discriminate|reflexivity]))|exact (H32 0xFFFFFFFF ltac:(split; [discriminate|reflexivity]))].
Defined.

Lemma crc_running_witness : exists c, Crc32 (check_mem 0x20000001 check) 0xFFFFFFFF 0x20000001 4 = Some c /\
  Crc32 (check_mem 0x20000001 check) c 0x20000005 5 = Some (Z.lxor 0xCBF43926 0xFFFFFFFF).
Proof.
  assert (data_at (check_mem 0x20000001 check) 0x20000001 (take 4 check ++ drop 4 check)) as Hq
    by exact (check_at 0x20000001 check ltac:(discriminate) eq_refl check_bytes ltac:(discriminate)).
  pose proof (da_mem _ _ _ Hq) as [H1 H2]%at_mem_app.
  destruct (crc_running (check_mem 0x20000001 check) 0x20000001 (take 4 check) 0x20000005 (drop 4 check) 0x20000001 0xFFFFFFFF)
    as (c & E1 & E2); [| |exact Hq|split; [discriminate|reflexivity]|].
  - split; [exact H1|by repeat constructor|discriminate|reflexivity|discriminate].
  - split; [exact H2|by repeat constructor|discriminate|reflexivity|discriminate].
  - exists c. split; [exact E1|]. transitivity (Crc32 (check_mem 0x20000001 check) 0xFFFFFFFF 0x20000001 9); [exact E2|].
    vm_compute. reflexivity.
Defined.

Lemma crc16_arrays_witness : Crc16Array (check_mem 0x20000000 (take 8 check)) 2 0x20000000 = Some (crc_lsb POLY16 0 (take 8 check)) /\
  Crc16Array3 (check_mem 0x20000000 (take 8 check)) 2 0x20000000 =
    Some (crc_lsb POLY16 0 (take 8 check), crc_lsb POLY16 0 [0x31; 0x33; 0x35; 0x37], crc_lsb POLY16 0 [0x32; 0x34; 0x36; 0x38]).
Proof.
  exact (crc16_arrays (check_mem 0x20000000 (take 8 check)) 0x20000000 (take 8 check) 2
    (check_at 0x20000000 (take 8 check) ltac:(discriminate) eq_refl ltac:(by repeat constructor) ltac:(discriminate)) eq_refl).
Defined.

Lemma crc_odd_empty_witness : Crc32 ∅ 0xFFFFFFFF 0x20000001 0 = None.
Proof. exact (proj2 (proj2 (crc_odd_empty ∅ 0x20000001 0xFFFFFFFF ltac:(discriminate) eq_refl))). Defined.

End SwCrc.
