(* ===== verification/Emac.v ===== *)
(** * The registers of the Ethernet MAC (system/driverlib/emac.c)

    Configuration, addresses, filters, interrupts and the PHY, as far as the
    driver of the network interface uses them.  The registers are an interface:
    [emac_hw] are the accesses, the time that passes between two of them in a
    loop that waits ([tick]) and the registers of the PHY, and [emac_laws] is
    what the TM4C1294 data sheet says of them: the bits [wmask] of the registers
    [regs] keep what is written, and a read command of the MII ends and gives the
    register of the PHY.  [board] is an instance that shows that the laws can
    hold. *)
From S2P Require Import Prelude Chksum SwCrc.
Import SwCrc.

Module Emac.

Definition EMAC0_BASE : Z := 0x400EC000.
Definition EMAC_O_CFG : Z := 0x0.
Definition EMAC_O_FRAMEFLTR : Z := 0x4.
Definition EMAC_O_HASHTBLH : Z := 0x8.
Definition EMAC_O_HASHTBLL : Z := 0xC.
Definition EMAC_O_MIIADDR : Z := 0x10.
Definition EMAC_O_MIIDATA : Z := 0x14.
Definition EMAC_O_ADDR0H : Z := 0x40.
Definition EMAC_O_ADDR0L : Z := 0x44.
Definition EMAC_O_ADDR1L : Z := 0x4C.
Definition EMAC_O_WDOGTO : Z := 0xDC.
Definition EMAC_O_TXPOLLD : Z := 0xC04.
Definition EMAC_O_RXDLADDR : Z := 0xC0C.
Definition EMAC_O_TXDLADDR : Z := 0xC10.
Definition EMAC_O_DMARIS : Z := 0xC14.
Definition EMAC_O_DMAOPMODE : Z := 0xC18.
Definition EMAC_O_DMAIM : Z := 0xC1C.
Definition EMAC_O_EPHYRIS : Z := 0xFD0.
Definition EMAC_O_EPHYIM : Z := 0xFD4.
Definition EMAC_O_EPHYMISC : Z := 0xFD8.

(** The flags of a list or-ed together. *)
Definition flags (l : list Z) : Z := fold_right Z.lor 0 l.

Definition EMAC_CFG_PS : Z := 0x00008000.
Definition EMAC_CFG_TE : Z := 0x00000008.
Definition EMAC_CFG_RE : Z := 0x00000004.
Definition EMAC_CFG_JFEN : Z := 0x00100000.
Definition EMAC_CONFIG_JUMBO_ENABLE : Z := 0x00100000.
Definition EMAC_CONFIG_100MBPS : Z := 0x00004000.
Definition EMAC_CONFIG_FULL_DUPLEX : Z := 0x00000800.
Definition EMAC_CONFIG_TX_ENABLED : Z := 0x00000008.
Definition EMAC_CONFIG_RX_ENABLED : Z := 0x00000004.
Definition VALID_CONFIG_FLAGS : Z := Eval vm_compute in
  flags [0x40000000; 0x20000000; 0x30000000; 0x08000000; 0x02000000; 0x00400000; 0x00100000; 0x000E0000; 0x00010000;
         0x00004000; 0x00002000; 0x00001000; 0x00000800; 0x00000400; 0x00000200; 0x00000080; 0x00000060; 0x00000010; 0x00000003].

Definition EMAC_WDOGTO_PWE : Z := 0x00010000.
Definition EMAC_WDOGTO_WTO_M : Z := 0x00003FFF.

Definition EMAC_DMAOPMODE_ST : Z := 0x00002000.
Definition EMAC_DMAOPMODE_SR : Z := 0x00000002.
Definition EMAC_DMAOPMODE_OSF : Z := 0x00000004.
Definition EMAC_MODE_OPERATE_2ND_FRAME : Z := 0x00000002.
Definition EMAC_MODE_RX_DMA_ENABLED : Z := 0x00000002.

Definition EMAC_FRMFILTER_HASH_AND_PERFECT : Z := 0x00000400.
Definition EMAC_FRMFILTER_PASS_MULTICAST : Z := 0x00000010.
Definition VALID_FRMFILTER_FLAGS : Z := Eval vm_compute in
  flags [0x80000000; 0x00010000; 0x00000400; 0x00000200; 0x00000100; 0x40; 0x80; 0xC0; 0x20; 0x10; 0x8; 0x4; 0x2; 0x1].

Definition EMAC_FILTER_ADDR_ENABLE : Z := 0x80000000.
Definition EMAC_FILTER_SOURCE_ADDR : Z := 0x40000000.
Definition EMAC_FILTER_BYTE_MASK_M : Z := 0x3F000000.

Definition EMAC_INT_PHY : Z := 0x80000000.
Definition EMAC_INT_EARLY_RECEIVE : Z := 0x00004000.
Definition EMAC_INT_BUS_ERROR : Z := 0x00002000.
Definition EMAC_INT_EARLY_TRANSMIT : Z := 0x00000400.
Definition EMAC_INT_RX_WATCHDOG : Z := 0x00000200.
Definition EMAC_INT_RX_STOPPED : Z := 0x00000100.
Definition EMAC_INT_RX_NO_BUFFER : Z := 0x00000080.
Definition EMAC_INT_RECEIVE : Z := 0x00000040.
Definition EMAC_INT_TX_UNDERFLOW : Z := 0x00000020.
Definition EMAC_INT_RX_OVERFLOW : Z := 0x00000010.
Definition EMAC_INT_TX_JABBER : Z := 0x00000008.
Definition EMAC_INT_TX_NO_BUFFER : Z := 0x00000004.
Definition EMAC_INT_TX_STOPPED : Z := 0x00000002.
Definition EMAC_INT_TRANSMIT : Z := 0x00000001.
Definition EMAC_INT_NORMAL_INT : Z := 0x00010000.
Definition EMAC_INT_ABNORMAL_INT : Z := 0x00008000.
Definition EMAC_NORMAL_INTS : Z := Eval vm_compute in
  flags [EMAC_INT_TRANSMIT; EMAC_INT_RECEIVE; EMAC_INT_EARLY_RECEIVE; EMAC_INT_TX_NO_BUFFER].
Definition EMAC_ABNORMAL_INTS : Z := Eval vm_compute in
  flags [EMAC_INT_TX_STOPPED; EMAC_INT_TX_JABBER; EMAC_INT_RX_OVERFLOW; EMAC_INT_TX_UNDERFLOW; EMAC_INT_RX_NO_BUFFER;
         EMAC_INT_RX_STOPPED; EMAC_INT_RX_WATCHDOG; EMAC_INT_EARLY_TRANSMIT; EMAC_INT_BUS_ERROR].
Definition EMAC_NON_MASKED_INTS : Z := Eval vm_compute in flags [0x40000000; 0x20000000; 0x10000000; 0x08000000].
(** EMAC_DMARIS_AE_M | EMAC_DMARIS_TS_M | EMAC_DMARIS_RS_M *)
Definition EMAC_DMARIS_STATES : Z := Eval vm_compute in flags [0x03800000; 0x00700000; 0x000E0000].
Definition EMAC_EPHYIM_INT : Z := 0x1.
Definition EMAC_EPHYMISC_INT : Z := 0x1.

Definition EMAC_MIIADDR_CR_M : Z := 0x0000003C.
Definition EMAC_MIIADDR_MIIW : Z := 0x00000002.
Definition EMAC_MIIADDR_MIIB : Z := 0x00000001.
Definition EMAC_MIIADDR_PLA_S : Z := 11.
Definition EMAC_MIIADDR_MII_S : Z := 6.
Definition EMAC_MIIDATA_DATA_M : Z := 0x0000FFFF.

Definition FAULT_MPU : Z := 4.
Definition FAULT_BUS : Z := 5.
Definition FAULT_USAGE : Z := 6.
Definition FAULT_SYSTICK : Z := 15.
Definition INT_EMAC0 : Z := 56.
Definition NVIC_ST_CTRL : Z := 0xE000E010.
Definition NVIC_EN0 : Z := 0xE000E100.
Definition NVIC_SYS_HND_CTRL : Z := 0xE000ED24.

Definition NUM_MAC_ADDR : Z := 4.
Definition MAC_ADDR_OFFSET : Z := EMAC_O_ADDR1L - EMAC_O_ADDR0L.
Definition EMAC_O_ADDRL (n : Z) : Z := EMAC_O_ADDR0L + MAC_ADDR_OFFSET * n.
Definition EMAC_O_ADDRH (n : Z) : Z := EMAC_O_ADDR0H + MAC_ADDR_OFFSET * n.

(** ** The hardware *)

Class emac_hw (S : Type) := {
  HWREG : Z -> S -> Z;
  HWREG_set : Z -> Z -> S -> S;
  tick : S -> S;
  CPUcpsie : S -> S;
  phy_reg : Z -> Z -> S -> Z }.

(** *** Operations *)

Section Operations.
Context {S : Type} {hw : emac_hw S}.
Implicit Types s : S.

(** [HWREG(a) |= m] and [HWREG(a) &= ~m] *)
Definition set_bits (a m : Z) s : S := HWREG_set a (Z.lor (HWREG a s) m) s.
Definition clear_bits (a m : Z) s : S := HWREG_set a (Z.ldiff (HWREG a s) m) s.
Definition test (x m : Z) : bool := negb (Z.land x m =? 0).

Definition EMACConfigSet (b ui32Config ui32ModeFlags ui32RxMaxFrameSize : Z) s : S :=
  let s := HWREG_set (b + EMAC_O_CFG)
             (Z.lor (Z.lor (Z.ldiff (HWREG (b + EMAC_O_CFG) s) VALID_CONFIG_FLAGS) ui32Config) EMAC_CFG_PS) s in
  let s := if negb (ui32RxMaxFrameSize =? 0) then HWREG_set (b + EMAC_O_WDOGTO) (Z.lor ui32RxMaxFrameSize EMAC_WDOGTO_PWE) s
           else clear_bits (b + EMAC_O_WDOGTO) EMAC_WDOGTO_PWE s in
  HWREG_set (b + EMAC_O_DMAOPMODE) ui32ModeFlags s.

(** The configuration, the mode and the size. *)
Definition EMACConfigGet (b : Z) s : Z * Z * Z :=
  let ui32Value := HWREG (b + EMAC_O_WDOGTO) s in
  (Z.land (HWREG (b + EMAC_O_CFG) s) (Z.lor (Z.lor VALID_CONFIG_FLAGS EMAC_CONFIG_TX_ENABLED) EMAC_CONFIG_RX_ENABLED),
   HWREG (b + EMAC_O_DMAOPMODE) s,
   if test ui32Value EMAC_WDOGTO_PWE then Z.land ui32Value EMAC_WDOGTO_WTO_M
   else if test (HWREG (b + EMAC_O_CFG) s) EMAC_CFG_JFEN then 10240 else 2048).

(** [a] are the 6 bytes of the address. *)
Definition EMACAddrSet (b i : Z) (a : list Z) s : S :=
  let x := fun k => nth k a 0 in
  let s := HWREG_set (b + EMAC_O_ADDRH i)
             (Z.lor (Z.lor (Z.land (HWREG (b + EMAC_O_ADDRH i) s) 0xFFFF0000) (x 4%nat)) (Z.shiftl (x 5%nat) 8)) s in
  HWREG_set (b + EMAC_O_ADDRL i)
    (Z.lor (Z.lor (Z.lor (x 0%nat) (Z.shiftl (x 1%nat) 8)) (Z.shiftl (x 2%nat) 16)) (u32 (Z.shiftl (x 3%nat) 24))) s.

Definition EMACAddrGet (b i : Z) s : list Z :=
  let l := HWREG (b + EMAC_O_ADDRL i) s in
  let h := HWREG (b + EMAC_O_ADDRH i) s in
  [Z.land l 0xFF; Z.land (Z.shiftr l 8) 0xFF; Z.land (Z.shiftr l 16) 0xFF; Z.land (Z.shiftr l 24) 0xFF;
   Z.land h 0xFF; Z.land (Z.shiftr h 8) 0xFF].

Definition EMACNumAddrGet (b : Z) : Z := NUM_MAC_ADDR.

Definition EMACAddrFilterSet (b i ui32Config : Z) s : S :=
  let s := HWREG_set (b + EMAC_O_ADDRH i) (Z.lor (Z.land (HWREG (b + EMAC_O_ADDRH i) s) 0xFFFF) ui32Config) s in
  HWREG_set (b + EMAC_O_ADDRL i) (HWREG (b + EMAC_O_ADDRL i) s) s.
Definition ADDR_FILTER : Z := Z.lor (Z.lor EMAC_FILTER_BYTE_MASK_M EMAC_FILTER_ADDR_ENABLE) EMAC_FILTER_SOURCE_ADDR.
Definition EMACAddrFilterGet (b i : Z) s : Z := Z.land (HWREG (b + EMAC_O_ADDRH i) s) ADDR_FILTER.

Definition EMACFrameFilterSet (b ui32FilterOpts : Z) s : S :=
  HWREG_set (b + EMAC_O_FRAMEFLTR) (Z.lor (Z.ldiff (HWREG (b + EMAC_O_FRAMEFLTR) s) VALID_FRMFILTER_FLAGS) ui32FilterOpts) s.
Definition EMACFrameFilterGet (b : Z) s : Z := Z.land (HWREG (b + EMAC_O_FRAMEFLTR) s) VALID_FRMFILTER_FLAGS.

Definition EMACHashFilterSet (b ui32HashHi ui32HashLo : Z) s : S :=
  HWREG_set (b + EMAC_O_HASHTBLH) ui32HashHi (HWREG_set (b + EMAC_O_HASHTBLL) ui32HashLo s).
(** High, low. *)
Definition EMACHashFilterGet (b : Z) s : Z * Z := (HWREG (b + EMAC_O_HASHTBLH) s, HWREG (b + EMAC_O_HASHTBLL) s).

Definition EMACTxDMAPollDemand (b : Z) s : S := HWREG_set (b + EMAC_O_TXPOLLD) 0 s.
Definition EMACRxDMADescriptorListSet (b pDescriptor : Z) s : S := HWREG_set (b + EMAC_O_RXDLADDR) pDescriptor s.
Definition EMACTxDMADescriptorListSet (b pDescriptor : Z) s : S := HWREG_set (b + EMAC_O_TXDLADDR) pDescriptor s.

Definition EMACTxEnable (b : Z) s : S := set_bits (b + EMAC_O_CFG) EMAC_CFG_TE (set_bits (b + EMAC_O_DMAOPMODE) EMAC_DMAOPMODE_ST s).
Definition EMACTxDisable (b : Z) s : S := clear_bits (b + EMAC_O_DMAOPMODE) EMAC_DMAOPMODE_ST (clear_bits (b + EMAC_O_CFG) EMAC_CFG_TE s).
Definition EMACRxEnable (b : Z) s : S := set_bits (b + EMAC_O_CFG) EMAC_CFG_RE (set_bits (b + EMAC_O_DMAOPMODE) EMAC_DMAOPMODE_SR s).
Definition EMACRxDisable (b : Z) s : S := clear_bits (b + EMAC_O_DMAOPMODE) EMAC_DMAOPMODE_SR (clear_bits (b + EMAC_O_CFG) EMAC_CFG_RE s).

(** The sources with the summary interrupts they need. *)
Definition with_summary (ui32IntFlags : Z) : Z :=
  let f := if test ui32IntFlags EMAC_NORMAL_INTS then Z.lor ui32IntFlags EMAC_INT_NORMAL_INT else ui32IntFlags in
  if test f EMAC_ABNORMAL_INTS then Z.lor f EMAC_INT_ABNORMAL_INT else f.

Definition EMACIntEnable (b ui32IntFlags : Z) s : S :=
  let f := with_summary ui32IntFlags in
  let s := if negb (Z.ldiff f EMAC_INT_PHY =? 0) then set_bits (b + EMAC_O_DMAIM) (Z.ldiff f EMAC_INT_PHY) s else s in
  if test f EMAC_INT_PHY then set_bits (b + EMAC_O_EPHYIM) EMAC_EPHYIM_INT s else s.

Definition EMACIntDisable (b ui32IntFlags : Z) s : S :=
  let m := Z.ldiff (HWREG (b + EMAC_O_DMAIM) s) (Z.ldiff ui32IntFlags EMAC_INT_PHY) in
  let m := if negb (test m EMAC_NORMAL_INTS) then Z.ldiff m EMAC_INT_NORMAL_INT else m in
  let m := if negb (test m EMAC_ABNORMAL_INTS) then Z.ldiff m EMAC_INT_ABNORMAL_INT else m in
  let s := HWREG_set (b + EMAC_O_DMAIM) m s in
  if test ui32IntFlags EMAC_INT_PHY then clear_bits (b + EMAC_O_EPHYIM) EMAC_EPHYIM_INT s else s.

Definition EMACIntStatus (b : Z) (bMasked : bool) s : Z :=
  let v := Z.ldiff (HWREG (b + EMAC_O_DMARIS) s) EMAC_DMARIS_STATES in
  let v := if bMasked then Z.land v (Z.lor EMAC_NON_MASKED_INTS (HWREG (b + EMAC_O_DMAIM) s)) else v in
  let p := if bMasked then HWREG (b + EMAC_O_EPHYMISC) s else HWREG (b + EMAC_O_EPHYRIS) s in
  if test p EMAC_EPHYMISC_INT then Z.lor v EMAC_INT_PHY else v.

Definition EMACIntClear (b ui32IntFlags : Z) s : S :=
  let f := with_summary ui32IntFlags in
  let s := if negb (Z.ldiff f EMAC_INT_PHY =? 0) then HWREG_set (b + EMAC_O_DMARIS) (Z.ldiff f EMAC_INT_PHY) s else s in
  if test f EMAC_INT_PHY then set_bits (b + EMAC_O_EPHYMISC) EMAC_EPHYMISC_INT s else s.

(** [IntEnable] and [IntMasterEnable] of interrupt.c; nothing uses the old state that
    the latter returns. *)
Definition IntEnable (ui32Interrupt : Z) s : S :=
  if ui32Interrupt =? FAULT_MPU then set_bits NVIC_SYS_HND_CTRL 0x00010000 s
  else if ui32Interrupt =? FAULT_BUS then set_bits NVIC_SYS_HND_CTRL 0x00020000 s
  else if ui32Interrupt =? FAULT_USAGE then set_bits NVIC_SYS_HND_CTRL 0x00040000 s
  else if ui32Interrupt =? FAULT_SYSTICK then set_bits NVIC_ST_CTRL 0x00000002 s
  else if 16 <=? ui32Interrupt then
    HWREG_set (NVIC_EN0 + 4 * ((ui32Interrupt - 16) / 32)) (Z.shiftl 1 (Z.land (ui32Interrupt - 16) 31)) s
  else s.
Definition IntMasterEnable s : S := CPUcpsie s.

(** The loop that waits for the MII. *)
Definition busy (b : Z) s : bool := test (HWREG (b + EMAC_O_MIIADDR) s) EMAC_MIIADDR_MIIB.
Fixpoint wait_idle (fuel : nat) (b : Z) s : option S :=
  match fuel with
  | O => None
  | Datatypes.S fuel => if busy b s then wait_idle fuel b (tick s) else Some s
  end.

(** The command for the MII. *)
Definition mii_command (b ui8PhyAddr ui8RegAddr : Z) s : Z :=
  Z.lor (Z.lor (Z.land (HWREG (b + EMAC_O_MIIADDR) s) EMAC_MIIADDR_CR_M) (Z.shiftl ui8RegAddr EMAC_MIIADDR_MII_S))
    (Z.shiftl ui8PhyAddr EMAC_MIIADDR_PLA_S).

Definition EMACPHYWrite (fuel : nat) (b ui8PhyAddr ui8RegAddr ui16Data : Z) s : option S :=
  s ← wait_idle fuel b s;
  let s := HWREG_set (b + EMAC_O_MIIDATA) ui16Data s in
  let s := HWREG_set (b + EMAC_O_MIIADDR)
             (Z.lor (Z.lor (mii_command b ui8PhyAddr ui8RegAddr s) EMAC_MIIADDR_MIIW) EMAC_MIIADDR_MIIB) s in
  wait_idle fuel b s.

Definition EMACPHYRead (fuel : nat) (b ui8PhyAddr ui8RegAddr : Z) s : option (Z * S) :=
  s ← wait_idle fuel b s;
  let s := HWREG_set (b + EMAC_O_MIIADDR) (Z.lor (mii_command b ui8PhyAddr ui8RegAddr s) EMAC_MIIADDR_MIIB) s in
  s ← wait_idle fuel b s;
  Some (Z.land (HWREG (b + EMAC_O_MIIDATA) s) EMAC_MIIDATA_DATA_M, s).

End Operations.

(** *** The hash filter *)

(** The loop that reverses the lowest bits of the CRC. *)
Fixpoint reverse_loop (n : nat) (ui32Mask ui32CRC : Z) : Z :=
  match n with
  | O => ui32Mask
  | Datatypes.S n => reverse_loop n (Z.lor (u32 (Z.shiftl ui32Mask 1)) (Z.land ui32CRC 1)) (Z.shiftr ui32CRC 1)
  end.

(** [m] is the memory, with the address at [p]. *)
Definition EMACHashFilterBitCalculate (m : gmap Z Z) (p : Z) : option Z :=
  c ← Crc32 m 0xFFFFFFFF p 6; Some (reverse_loop 6 0 (Z.lxor c 0xFFFFFFFF)).

(** The tag is at [p], on the stack. *)
Definition EMACVLANHashFilterBitCalculate (m : gmap Z Z) (p : Z) : option Z :=
  c ← Crc32 m 0xFFFFFFFF p 2; Some (reverse_loop 4 0 (Z.lxor c 0xFFFFFFFF)).

(** *** What the data sheet says *)

Definition cfg_mask : Z := flags [VALID_CONFIG_FLAGS; EMAC_CFG_PS; EMAC_CFG_TE; EMAC_CFG_RE].
Definition mode_mask : Z := flags [0x04000000; 0x02000000; 0x01000000; 0x00200000; 0x0001C000; EMAC_DMAOPMODE_ST; 0x80; 0x40; 0x20; 0x18;
  EMAC_DMAOPMODE_OSF; EMAC_DMAOPMODE_SR].
(** The registers of the configuration, with the bits that keep what is written. *)
Definition wmasks : list (Z * Z) :=
  [(EMAC_O_CFG, cfg_mask);
   (EMAC_O_FRAMEFLTR, VALID_FRMFILTER_FLAGS); (EMAC_O_HASHTBLH, 0xFFFFFFFF); (EMAC_O_HASHTBLL, 0xFFFFFFFF);
   (EMAC_O_ADDRH 0, 0xFFFF); (EMAC_O_ADDRL 0, 0xFFFFFFFF);
   (EMAC_O_ADDRH 1, 0xFF00FFFF); (EMAC_O_ADDRL 1, 0xFFFFFFFF);
   (EMAC_O_ADDRH 2, 0xFF00FFFF); (EMAC_O_ADDRL 2, 0xFFFFFFFF);
   (EMAC_O_ADDRH 3, 0xFF00FFFF); (EMAC_O_ADDRL 3, 0xFFFFFFFF);
   (EMAC_O_WDOGTO, Z.lor EMAC_WDOGTO_PWE EMAC_WDOGTO_WTO_M);
   (EMAC_O_RXDLADDR, 0xFFFFFFFC); (EMAC_O_TXDLADDR, 0xFFFFFFFC);
   (EMAC_O_DMAOPMODE, mode_mask);
   (EMAC_O_DMAIM, 0x1E7FF); (EMAC_O_EPHYIM, EMAC_EPHYIM_INT)].
(** Whether bit [i] of the register at [o] is one of them. *)
Definition kept_bit (o i : Z) : bool := existsb (fun x => (x.1 =? o) && Z.testbit x.2 i) wmasks.

Class emac_laws (S : Type) {hw : emac_hw S} := {
  reg_u32 a (s : S) : in_u 32 (HWREG a s);
  reg_write o v (s : S) o' i : o ∈ wmasks.*1 -> kept_bit o' i = true ->
    Z.testbit (HWREG (EMAC0_BASE + o') (HWREG_set (EMAC0_BASE + o) v s)) i =
      if o' =? o then Z.testbit v i else Z.testbit (HWREG (EMAC0_BASE + o') s) i;
  other_write o v (s : S) o' i : o ∈ [EMAC_O_MIIADDR; EMAC_O_MIIDATA; EMAC_O_TXPOLLD; EMAC_O_DMARIS; EMAC_O_EPHYMISC] ->
    kept_bit o' i = true ->
    Z.testbit (HWREG (EMAC0_BASE + o') (HWREG_set (EMAC0_BASE + o) v s)) i = Z.testbit (HWREG (EMAC0_BASE + o') s) i;
  irq_write n v (s : S) o' i : 0 <= n < 5 -> kept_bit o' i = true ->
    Z.testbit (HWREG (EMAC0_BASE + o') (HWREG_set (NVIC_EN0 + 4 * n) v s)) i = Z.testbit (HWREG (EMAC0_BASE + o') s) i;
  cpsie_keeps (s : S) o' i : kept_bit o' i = true ->
    Z.testbit (HWREG (EMAC0_BASE + o') (CPUcpsie s)) i = Z.testbit (HWREG (EMAC0_BASE + o') s) i;
  tick_keeps (s : S) o' i : kept_bit o' i = true ->
    Z.testbit (HWREG (EMAC0_BASE + o') (tick s)) i = Z.testbit (HWREG (EMAC0_BASE + o') s) i;
  mii_ends (s : S) : exists k, busy EMAC0_BASE (Nat.iter k tick s) = false;
  mii_read p r (s : S) k : 0 <= p < 32 -> 0 <= r < 32 -> busy EMAC0_BASE s = false ->
    let s1 := HWREG_set (EMAC0_BASE + EMAC_O_MIIADDR) (Z.lor (mii_command EMAC0_BASE p r s) EMAC_MIIADDR_MIIB) s in
    (forall j, (j < k)%nat -> busy EMAC0_BASE (Nat.iter j tick s1) = true) -> busy EMAC0_BASE (Nat.iter k tick s1) = false ->
    Z.land (HWREG (EMAC0_BASE + EMAC_O_MIIDATA) (Nat.iter k tick s1)) EMAC_MIIDATA_DATA_M = phy_reg p r s }.

(** ** Lemmas *)

Lemma sub_bit a b i : Z.land a b = a -> Z.testbit a i = true -> Z.testbit b i = true.
Proof. intros E H. rewrite <-E, Z.land_spec in H. by apply andb_true_iff in H as [_ ?]. Qed.

Lemma disjoint_bit a b i : Z.land a b = 0 -> Z.testbit a i && Z.testbit b i = false.
Proof. intros E. by rewrite <-Z.land_spec, E, Z.bits_0. Qed.

Lemma kept_in o m i : (o, m) ∈ wmasks -> Z.testbit m i = true -> kept_bit o i = true.
Proof.
  intros Hin Ht. apply existsb_exists. exists (o, m). split; [by apply list_elem_of_In|]. cbn. by rewrite Z.eqb_refl, Ht.
Qed.

(** A bit of a mask that is a single bit. *)
Lemma test_bit x k : 0 <= k -> test x (2 ^ k) = Z.testbit x k.
Proof.
  intros Hk. unfold test. destruct (Z.testbit x k) eqn:E.
  - apply negb_true_iff, Z.eqb_neq. intros H. assert (Z.testbit (Z.land x (2 ^ k)) k = false) as Hf by (by rewrite H, Z.bits_0).
    by rewrite Z.land_spec, E, Z.pow2_bits_true in Hf by lia.
  - apply negb_false_iff, Z.eqb_eq, Z.bits_inj'. intros n Hn. rewrite Z.land_spec, Z.bits_0, Z.pow2_bits_eqb by lia.
    destruct (Z.eqb_spec k n) as [<-|]; [by rewrite E|apply andb_false_r].
Qed.

Section Laws.
Context {S : Type} {hw : emac_hw S} {laws : emac_laws S}.
Implicit Types s : S.

(** The bits of the configuration are the same. *)
Definition same_config s s' : Prop :=
  forall o i, kept_bit o i = true -> Z.testbit (HWREG (EMAC0_BASE + o) s') i = Z.testbit (HWREG (EMAC0_BASE + o) s) i.

Lemma same_config_trans s1 s2 s3 : same_config s1 s2 -> same_config s2 s3 -> same_config s1 s3.
Proof. intros H1 H2 o i Hk. by rewrite H2, H1. Qed.

Lemma ticks_config k s : same_config s (Nat.iter k tick s).
Proof. induction k as [|k IH]; [done|]. intros o i Hk. rewrite Nat.iter_succ. rewrite tick_keeps by done. by apply IH. Qed.

(** The wait ends at the first idle state. *)
Lemma wait_run s : exists k, busy EMAC0_BASE (Nat.iter k tick s) = false /\
  (forall j, (j < k)%nat -> busy EMAC0_BASE (Nat.iter j tick s) = true) /\
  forall fuel, (k < fuel)%nat -> wait_idle fuel EMAC0_BASE s = Some (Nat.iter k tick s).
Proof.
  destruct (mii_ends s) as [k Hk]. revert s Hk. induction k as [|k IH]; intros s Hk.
  - exists 0%nat. split; [done|]. split; [lia|]. intros [|fuel] Hf; [lia|]. cbn [wait_idle Nat.iter] in *. cbn in Hk. by rewrite Hk.
  - destruct (busy EMAC0_BASE s) eqn:Hb.
    + rewrite Nat.iter_succ_r in Hk. destruct (IH _ Hk) as (k' & H1 & H2 & H3). exists (Datatypes.S k').
      split; [by rewrite Nat.iter_succ_r|]. split.
      * intros [|j] Hj; [done|]. rewrite Nat.iter_succ_r. apply H2. lia.
      * intros [|fuel] Hf; [lia|]. cbn [wait_idle]. rewrite Hb, Nat.iter_succ_r. apply H3. lia.
    + exists 0%nat. split; [done|]. split; [lia|]. intros [|fuel] Hf; [lia|]. cbn [wait_idle]. by rewrite Hb.
Qed.

Lemma phy_read_run p r s : 0 <= p < 32 -> 0 <= r < 32 -> exists k j s', same_config s s' /\
  forall fuel, (k < fuel)%nat -> EMACPHYRead fuel EMAC0_BASE p r s = Some (phy_reg p r (Nat.iter j tick s), s').
Proof.
  intros Hp Hr. destruct (wait_run s) as (k1 & Hb1 & _ & W1). set (s1 := Nat.iter k1 tick s) in *.
  set (s2 := HWREG_set (EMAC0_BASE + EMAC_O_MIIADDR) (Z.lor (mii_command EMAC0_BASE p r s1) EMAC_MIIADDR_MIIB) s1).
  destruct (wait_run s2) as (k2 & Hb2 & Hj2 & W2). exists (Nat.max k1 k2), k1, (Nat.iter k2 tick s2). split.
  - eapply same_config_trans; [apply (ticks_config k1)|]. eapply same_config_trans; [|apply ticks_config].
    intros o i Hk. apply other_write; [by left|done].
  - intros fuel Hf. unfold EMACPHYRead. rewrite W1 by lia. cbn [mbind option_bind]. fold s2. rewrite W2 by lia.
    cbn [mbind option_bind]. f_equal. f_equal. by apply mii_read.
Qed.

Lemma other_config o v s : o ∈ [EMAC_O_MIIADDR; EMAC_O_MIIDATA; EMAC_O_TXPOLLD; EMAC_O_DMARIS; EMAC_O_EPHYMISC] ->
  same_config s (HWREG_set (EMAC0_BASE + o) v s).
Proof. intros Ho o' i Hk. by apply other_write. Qed.

Lemma phy_write_run (p r v : Z) s : exists (k : nat) (s' : S), same_config s s' /\
  forall fuel, (k < fuel)%nat -> EMACPHYWrite fuel EMAC0_BASE p r v s = Some s'.
Proof.
  destruct (wait_run s) as (k1 & _ & _ & W1). set (s1 := Nat.iter k1 tick s) in *.
  set (s2 := HWREG_set (EMAC0_BASE + EMAC_O_MIIDATA) v s1).
  set (s3 := HWREG_set (EMAC0_BASE + EMAC_O_MIIADDR)
    (Z.lor (Z.lor (mii_command EMAC0_BASE p r s2) EMAC_MIIADDR_MIIW) EMAC_MIIADDR_MIIB) s2).
  destruct (wait_run s3) as (k2 & _ & _ & W2). exists (Nat.max k1 k2), (Nat.iter k2 tick s3). split.
  - eapply same_config_trans; [apply (ticks_config k1)|]. fold s1.
    eapply same_config_trans; [|apply ticks_config]. eapply (same_config_trans _ s2); apply other_config; [by right; left|by left].
  - intros fuel Hf. unfold EMACPHYWrite. rewrite W1 by lia. cbn [mbind option_bind]. fold s2 s3. apply W2. lia.
Qed.

(** Writes of registers. *)
Lemma reg_write_same o m v s i : (o, m) ∈ wmasks -> Z.testbit m i = true ->
  Z.testbit (HWREG (EMAC0_BASE + o) (HWREG_set (EMAC0_BASE + o) v s)) i = Z.testbit v i.
Proof.
  intros Hin Ht. rewrite reg_write, Z.eqb_refl; [done| |by eapply kept_in]. apply list_elem_of_fmap. by exists (o, m).
Qed.

Lemma write_other o v s o' m' i : o ∈ wmasks.*1 -> (o', m') ∈ wmasks -> Z.testbit m' i = true -> o' ≠ o ->
  Z.testbit (HWREG (EMAC0_BASE + o') (HWREG_set (EMAC0_BASE + o) v s)) i = Z.testbit (HWREG (EMAC0_BASE + o') s) i.
Proof. intros Ho Hin Ht Hne. rewrite reg_write; [by rewrite (proj2 (Z.eqb_neq o' o))|done|by eapply kept_in]. Qed.

End Laws.

(** A concrete membership or inclusion. *)
Ltac conc := first [apply (bool_decide_unpack _); vm_compute; exact I | vm_compute; reflexivity | discriminate].

Section Config.
Context {S : Type} {hw : emac_hw S} {laws : emac_laws S}.
Implicit Types s : S.

Definition enables : Z := Z.lor EMAC_CONFIG_TX_ENABLED EMAC_CONFIG_RX_ENABLED.

(** The bits of the three registers after [EMACConfigSet]. *)
Lemma config_set_cfg c m z s i : Z.testbit cfg_mask i = true ->
  Z.testbit (HWREG (EMAC0_BASE + EMAC_O_CFG) (EMACConfigSet EMAC0_BASE c m z s)) i =
  Z.testbit (HWREG (EMAC0_BASE + EMAC_O_CFG) s) i && negb (Z.testbit VALID_CONFIG_FLAGS i) || Z.testbit c i || Z.testbit EMAC_CFG_PS i.
Proof.
  intros Hi. unfold EMACConfigSet, clear_bits. cbv zeta. rewrite (write_other _ _ _ EMAC_O_CFG cfg_mask) by (conc || done).
  destruct (negb (z =? 0)); rewrite (write_other _ _ _ EMAC_O_CFG cfg_mask), (reg_write_same _ cfg_mask) by (conc || done);
    by rewrite !Z.lor_spec, Z.ldiff_spec.
Qed.

Lemma config_set_size c m z s i : Z.testbit (Z.lor EMAC_WDOGTO_PWE EMAC_WDOGTO_WTO_M) i = true ->
  Z.testbit (HWREG (EMAC0_BASE + EMAC_O_WDOGTO) (EMACConfigSet EMAC0_BASE c m z s)) i =
  if z =? 0 then Z.testbit (HWREG (EMAC0_BASE + EMAC_O_WDOGTO) s) i && negb (Z.testbit EMAC_WDOGTO_PWE i)
  else Z.testbit z i || Z.testbit EMAC_WDOGTO_PWE i.
Proof.
  intros Hi. unfold EMACConfigSet, clear_bits. cbv zeta.
  rewrite (write_other _ _ _ EMAC_O_WDOGTO (Z.lor EMAC_WDOGTO_PWE EMAC_WDOGTO_WTO_M)) by (conc || done).
  destruct (z =? 0); cbn [negb]; rewrite (reg_write_same _ (Z.lor EMAC_WDOGTO_PWE EMAC_WDOGTO_WTO_M)) by (conc || done).
  - rewrite Z.ldiff_spec. rewrite (write_other _ _ _ EMAC_O_WDOGTO (Z.lor EMAC_WDOGTO_PWE EMAC_WDOGTO_WTO_M)) by (conc || done). done.
  - by rewrite Z.lor_spec.
Qed.

Lemma config_set_mode c m z s i : Z.testbit mode_mask i = true ->
  Z.testbit (HWREG (EMAC0_BASE + EMAC_O_DMAOPMODE) (EMACConfigSet EMAC0_BASE c m z s)) i = Z.testbit m i.
Proof. intros Hi. unfold EMACConfigSet. cbv zeta. by rewrite (reg_write_same _ mode_mask) by (conc || done). Qed.

(** What [EMACConfigGet] tells then. *)
Lemma config_get_set c m z s : Z.land c (Z.lor VALID_CONFIG_FLAGS enables) = c -> (z = 0 \/ 1522 < z < 0x4000) ->
  let '(c', m', z') := EMACConfigGet EMAC0_BASE (EMACConfigSet EMAC0_BASE c m z s) in
  c' = Z.lor c (Z.land (HWREG (EMAC0_BASE + EMAC_O_CFG) s) enables) /\ Z.land m' mode_mask = Z.land m mode_mask /\
  z' = (if z =? 0 then if test c EMAC_CONFIG_JUMBO_ENABLE then 10240 else 2048 else z).
Proof.
  intros Hc Hz. unfold EMACConfigGet. cbv zeta.
  assert (forall i, Z.testbit (Z.lor (Z.lor VALID_CONFIG_FLAGS EMAC_CONFIG_TX_ENABLED) EMAC_CONFIG_RX_ENABLED) i =
    Z.testbit VALID_CONFIG_FLAGS i || Z.testbit enables i) as Hvm by (intros i; unfold enables; rewrite !Z.lor_spec; by rewrite orb_assoc).
  assert (forall i, Z.testbit VALID_CONFIG_FLAGS i || Z.testbit enables i = true -> Z.testbit cfg_mask i = true) as Hcm.
  { intros i Hi. rewrite <-Z.lor_spec in Hi. eapply sub_bit; [|exact Hi]. vm_compute. reflexivity. }
  assert (forall i, Z.testbit c i = true -> Z.testbit VALID_CONFIG_FLAGS i || Z.testbit enables i = true) as Hci.
  { intros i Hi. rewrite <-Z.lor_spec. by eapply sub_bit. }
  split; [|split].
  - apply Z.bits_inj'. intros i Hi. rewrite (Z.lor_spec c), !Z.land_spec, Hvm.
    destruct (Z.testbit VALID_CONFIG_FLAGS i || Z.testbit enables i) eqn:Ev.
    + rewrite config_set_cfg by auto. rewrite andb_true_r.
      pose proof (disjoint_bit VALID_CONFIG_FLAGS enables i eq_refl) as D1.
      pose proof (disjoint_bit EMAC_CFG_PS (Z.lor VALID_CONFIG_FLAGS enables) i eq_refl) as D2. rewrite Z.lor_spec, Ev, andb_true_r in D2.
      rewrite D2, orb_false_r. destruct (Z.testbit VALID_CONFIG_FLAGS i), (Z.testbit enables i); try done; cbn [negb andb orb].
      * by rewrite !andb_false_r, orb_false_r.
      * rewrite !andb_true_r. apply orb_comm.
    + rewrite andb_false_r. destruct (Z.testbit c i) eqn:Ec; [by rewrite Hci in Ev|].
      apply orb_false_iff in Ev as [_ ->]. by rewrite andb_false_r.
  - apply Z.bits_inj'. intros i Hi. rewrite !Z.land_spec. destruct (Z.testbit mode_mask i) eqn:Em; [|by rewrite !andb_false_r].
    by rewrite config_set_mode.
  - change EMAC_WDOGTO_PWE with (2 ^ 16). rewrite test_bit by lia. rewrite config_set_size by (by vm_compute).
    change (Z.testbit EMAC_WDOGTO_PWE 16) with true. destruct (Z.eqb_spec z 0) as [->|Hz0].
    + rewrite andb_false_r. change EMAC_CFG_JFEN with (2 ^ 20). change EMAC_CONFIG_JUMBO_ENABLE with (2 ^ 20).
      rewrite !test_bit by lia. rewrite config_set_cfg by (by vm_compute). change (Z.testbit VALID_CONFIG_FLAGS 20) with true.
      change (Z.testbit EMAC_CFG_PS 20) with false. by rewrite andb_false_r, orb_false_r.
    + rewrite orb_true_r. apply Z.bits_inj'. intros i Hi. rewrite Z.land_spec. change EMAC_WDOGTO_WTO_M with (Z.ones 14).
      destruct (Z.lt_ge_cases i 14) as [H|H].
      * rewrite Z.ones_spec_low, andb_true_r by lia. rewrite config_set_size.
        -- rewrite (proj2 (Z.eqb_neq z 0) Hz0). change EMAC_WDOGTO_PWE with (2 ^ 16). rewrite Z.pow2_bits_false by lia. apply orb_false_r.
        -- rewrite Z.lor_spec. change EMAC_WDOGTO_WTO_M with (Z.ones 14). rewrite Z.ones_spec_low by lia. apply orb_true_r.
      * rewrite Z.ones_spec_high, andb_false_r by lia. symmetry. apply (Z.testbit_false z i); [lia|].
        rewrite Z.div_small; [done|]. split; [lia|]. pose proof (Z.pow_le_mono_r 2 14 i ltac:(lia) H). change (2 ^ 14) with 16384 in *. lia.
Qed.

End Config.

(** *** Addresses *)

Lemma word_bytes a b c d : byte a -> byte b -> byte c -> byte d ->
  Z.lor (Z.lor (Z.lor a (Z.shiftl b 8)) (Z.shiftl c 16)) (u32 (Z.shiftl d 24)) = Chksum.load32 a b c d.
Proof.
  unfold byte, Chksum.load32. intros Ha Hb Hc Hd.
  rewrite (wrap_id 32) by (rewrite Z.shiftl_mul_pow2 by lia; cint).
  rewrite (Z.lor_comm a), lor_shiftl_add by (cint_pow; lia). rewrite (Z.lor_comm _ (Z.shiftl c 16)), lor_shiftl_add by (cint_pow; lia).
  rewrite Z.lor_comm, lor_shiftl_add by (cint_pow; lia). cint_pow. lia.
Qed.

Lemma half_bytes a b : byte a -> byte b -> Z.lor a (Z.shiftl b 8) = Chksum.load16 a b.
Proof. unfold byte, Chksum.load16. intros Ha Hb. rewrite Z.lor_comm, lor_shiftl_add by (cint_pow; lia). cint_pow. lia. Qed.

Lemma addr_regs i : 0 <= i < 4 -> exists m, (EMAC_O_ADDRH i, m) ∈ wmasks /\ (EMAC_O_ADDRL i, 0xFFFFFFFF) ∈ wmasks /\
  EMAC_O_ADDRH i ∈ wmasks.*1 /\ EMAC_O_ADDRL i ∈ wmasks.*1 /\ Z.land 0xFFFF m = 0xFFFF /\
  (i ≠ 0 -> Z.land ADDR_FILTER m = ADDR_FILTER).
Proof.
  intros Hi. assert (i = 0 \/ i = 1 \/ i = 2 \/ i = 3) as [-> | [-> | [-> | ->]]] by lia.
  - exists 0xFFFF. split_and!; [conc|conc|conc|conc|done|done].
  - exists 0xFF00FFFF. split_and!; [conc|conc|conc|conc|done|done].
  - exists 0xFF00FFFF. split_and!; [conc|conc|conc|conc|done|done].
  - exists 0xFF00FFFF. split_and!; [conc|conc|conc|conc|done|done].
Qed.

Lemma u32_eq x y : in_u 32 x -> in_u 32 y -> (forall k, 0 <= k < 32 -> Z.testbit x k = Z.testbit y k) -> x = y.
Proof.
  intros Hx Hy H. apply Z.bits_inj'. intros k Hk. destruct (Z.lt_ge_cases k 32); [by apply H|].
  rewrite <-(wrap_id 32 x Hx), <-(wrap_id 32 y Hy). unfold wrap. by rewrite !Z.mod_pow2_bits_high by lia.
Qed.

Section Address.
Context {S : Type} {hw : emac_hw S} {laws : emac_laws S}.
Implicit Types s : S.

Lemma low16_bits x y : (forall k, 0 <= k < 16 -> Z.testbit x k = Z.testbit y k) ->
  Z.land x 0xFF = Z.land y 0xFF /\ Z.land (Z.shiftr x 8) 0xFF = Z.land (Z.shiftr y 8) 0xFF.
Proof.
  intros H. change 0xFF with (Z.ones 8). split; apply Z.bits_inj'; intros k Hk; rewrite !Z.land_spec;
    (destruct (Z.lt_ge_cases k 8); [rewrite Z.ones_spec_low by lia|by rewrite Z.ones_spec_high, !andb_false_r by lia]);
    rewrite !andb_true_r, ?Z.shiftr_spec by lia; apply H; lia.
Qed.

Lemma addr_set_low i a s : 0 <= i < 4 -> length a = 6%nat -> Forall byte a ->
  HWREG (EMAC0_BASE + EMAC_O_ADDRL i) (EMACAddrSet EMAC0_BASE i a s) = Chksum.load32 (nth 0 a 0) (nth 1 a 0) (nth 2 a 0) (nth 3 a 0).
Proof.
  intros Hi Hl Hb. destruct a as [|x0 [|x1 [|x2 [|x3 [|x4 [|x5 [|]]]]]]]; try discriminate Hl. rewrite !Forall_cons in Hb.
  destruct Hb as (B0 & B1 & B2 & B3 & _). destruct (addr_regs i Hi) as (m & _ & Hlo & _). unfold EMACAddrSet. cbv zeta. cbn [nth].
  rewrite word_bytes by done. set (s1 := HWREG_set _ _ s). pose proof (reg_u32 (EMAC0_BASE + EMAC_O_ADDRL i)
    (HWREG_set (EMAC0_BASE + EMAC_O_ADDRL i) (Chksum.load32 x0 x1 x2 x3) s1)) as Hr.
  assert (in_u 32 (Chksum.load32 x0 x1 x2 x3)) as Hw by (unfold byte, Chksum.load32, in_u in *; cint_pow; lia).
  apply u32_eq; [done|done|]. intros k Hk. apply (reg_write_same _ 0xFFFFFFFF); [done|]. change 0xFFFFFFFF with (Z.ones 32). apply Z.ones_spec_low. lia.
Qed.

Lemma addr_set_high i a s k : 0 <= i < 4 -> length a = 6%nat -> Forall byte a -> 0 <= k < 16 ->
  Z.testbit (HWREG (EMAC0_BASE + EMAC_O_ADDRH i) (EMACAddrSet EMAC0_BASE i a s)) k = Z.testbit (Chksum.load16 (nth 4 a 0) (nth 5 a 0)) k.
Proof.
  intros Hi Hl Hb Hk. destruct a as [|x0 [|x1 [|x2 [|x3 [|x4 [|x5 [|]]]]]]]; try discriminate Hl. rewrite !Forall_cons in Hb.
  destruct Hb as (_ & _ & _ & _ & B4 & B5 & _). destruct (addr_regs i Hi) as (m & Hhi & _ & _ & Hlo & Hm & _).
  assert (Z.testbit m k = true) as Hmk by (eapply sub_bit; [exact Hm|]; change 0xFFFF with (Z.ones 16); apply Z.ones_spec_low; lia).
  unfold EMACAddrSet. cbv zeta. cbn [nth].
  rewrite (write_other _ _ _ (EMAC_O_ADDRH i) m) by (done || (unfold EMAC_O_ADDRH, EMAC_O_ADDRL, EMAC_O_ADDR0H, EMAC_O_ADDR0L; lia)).
  rewrite (reg_write_same _ m) by done. rewrite <-Z.lor_assoc, half_bytes, Z.lor_spec, Z.land_spec by done.
  change 0xFFFF0000 with (Z.shiftl (Z.ones 16) 16). rewrite Z.shiftl_spec_low by lia. by rewrite andb_false_r.
Qed.

(** Another register is not touched. *)
Lemma addr_set_other i a s o m k : 0 <= i < 4 -> (o, m) ∈ wmasks -> Z.testbit m k = true -> o ≠ EMAC_O_ADDRH i -> o ≠ EMAC_O_ADDRL i ->
  Z.testbit (HWREG (EMAC0_BASE + o) (EMACAddrSet EMAC0_BASE i a s)) k = Z.testbit (HWREG (EMAC0_BASE + o) s) k.
Proof.
  intros Hi Ho Hm H1 H2. destruct (addr_regs i Hi) as (mm & _ & _ & Hh & Hl & _). unfold EMACAddrSet. cbv zeta.
  by rewrite !(write_other _ _ _ o m) by done.
Qed.

End Address.

(** *** The hash *)

Lemma reverse_bits n : forall acc x, 0 <= acc < 2 ^ (32 - Z.of_nat n) -> (n <= 32)%nat -> forall i, 0 <= i ->
  Z.testbit (reverse_loop n acc x) i = if i <? Z.of_nat n then Z.testbit x (Z.of_nat n - 1 - i) else Z.testbit acc (i - Z.of_nat n).
Proof.
  induction n as [|n IH]; intros acc x Ha Hn i Hi; cbn [reverse_loop].
  { rewrite (proj2 (Z.ltb_ge i (Z.of_nat 0))) by lia. f_equal. lia. }
  assert (2 ^ (32 - Z.of_nat n) = 2 * 2 ^ (32 - Z.of_nat (Datatypes.S n))) as Hp.
  { rewrite <-Z.pow_succ_r by lia. f_equal. lia. }
  assert (2 ^ (32 - Z.of_nat n) <= 2 ^ 32) as Hp32 by (apply Z.pow_le_mono_r; lia).
  assert (Z.land x 1 = Z.b2z (Z.testbit x 0)) as Hx1.
  { rewrite Z.bit0_odd. change 1 with (Z.ones 1) at 1. rewrite Z.land_ones by lia. change (2 ^ 1) with 2. rewrite Zmod_odd. by destruct (Z.odd x). }
  assert (0 <= Z.land x 1 < 2) as Hx2 by (rewrite Hx1; destruct (Z.testbit x 0); cbn; lia).
  rewrite (wrap_id 32) by (rewrite Z.shiftl_mul_pow2 by lia; unfold in_u; change (2 ^ 1) with 2; lia).
  rewrite lor_shiftl_add by (change (2 ^ 1) with 2; lia). change (2 ^ 1) with 2.
  rewrite IH; [|lia|lia|done]. destruct (Z.ltb_spec i (Z.of_nat n)) as [H|H].
  - rewrite (proj2 (Z.ltb_lt _ _)) by lia. rewrite Z.shiftr_spec by lia. f_equal. lia.
  - replace (acc * 2 + Z.land x 1) with (2 * acc + Z.b2z (Z.testbit x 0)) by lia.
    destruct (Z.ltb_spec i (Z.of_nat (Datatypes.S n))) as [H'|H'].
    + replace (i - Z.of_nat n) with 0 by lia. rewrite Z.testbit_0_r. f_equal. lia.
    + replace (i - Z.of_nat n) with (Z.succ (i - Z.of_nat (Datatypes.S n))) by lia. by rewrite Z.testbit_succ_r by lia.
Qed.

Lemma reverse_range n x i : (n <= 32)%nat -> Z.of_nat n <= i -> Z.testbit (reverse_loop n 0 x) i = false.
Proof.
  intros Hn Hi. rewrite reverse_bits; [|split; [lia|apply Z.pow_pos_nonneg; lia]|done|lia].
  rewrite (proj2 (Z.ltb_ge _ _)) by lia. apply Z.bits_0.
Qed.

(** ** Theorems *)

Section Theorems.
Context {S : Type} {hw : emac_hw S} {laws : emac_laws S}.
Implicit Types s : S.

(** What [EMACConfigSet] is given [EMACConfigGet] tells: the configuration,
    with the enable bits of before, the mode, and the size of the longest frame or
    the size that the configuration implies. *)
Theorem EMACConfig_roundtrip c m z s : Z.land c VALID_CONFIG_FLAGS = c -> Z.land m mode_mask = m -> (z = 0 \/ 1522 < z < 0x4000) ->
  exists m', EMACConfigGet EMAC0_BASE (EMACConfigSet EMAC0_BASE c m z s) =
    (Z.lor c (Z.land (HWREG (EMAC0_BASE + EMAC_O_CFG) s) enables), m',
     if z =? 0 then if test c EMAC_CONFIG_JUMBO_ENABLE then 10240 else 2048 else z) /\
    Z.land m' mode_mask = m.
Proof.
  intros Hc Hm Hz. pose proof (config_get_set c m z s) as H.
  destruct (EMACConfigGet EMAC0_BASE (EMACConfigSet EMAC0_BASE c m z s)) as [[c' m'] z']. destruct H as (-> & E & ->); [|done|].
  - rewrite <-Hc at 1. rewrite <-Z.land_assoc. change (Z.land VALID_CONFIG_FLAGS (Z.lor VALID_CONFIG_FLAGS enables)) with VALID_CONFIG_FLAGS. done.
  - exists m'. split; [done|]. by rewrite E, Hm.
Qed.

(** [EMACConfigSet] does not mask the enable bits off, as its comment says:
    the transmitter or the receiver is enabled by it. *)
Theorem EMACConfigSet_enables c m z s : Z.testbit c 3 = true ->
  Z.testbit (HWREG (EMAC0_BASE + EMAC_O_CFG) (EMACConfigSet EMAC0_BASE c m z s)) 3 = true.
Proof. intros Hc. rewrite config_set_cfg by (by vm_compute). by rewrite Hc, orb_true_r. Qed.

(** The MAC addresses: [EMACAddrGet] gives what [EMACAddrSet] was given,
    for the same slot, and what it gave before for another one, and the filter of
    the slot is as it was. *)
Theorem EMACAddr_roundtrip i j a s : 0 <= i < 4 -> 0 <= j < 4 -> length a = 6%nat -> Forall byte a ->
  EMACAddrGet EMAC0_BASE j (EMACAddrSet EMAC0_BASE i a s) = (if j =? i then a else EMACAddrGet EMAC0_BASE j s) /\
  (i ≠ 0 -> EMACAddrFilterGet EMAC0_BASE i (EMACAddrSet EMAC0_BASE i a s) = EMACAddrFilterGet EMAC0_BASE i s).
Proof.
  intros Hi Hj Hl Hb. split.
  - destruct (Z.eqb_spec j i) as [->|Hne].
    + unfold EMACAddrGet. cbv zeta. rewrite addr_set_low by done.
      destruct (low16_bits (HWREG (EMAC0_BASE + EMAC_O_ADDRH i) (EMACAddrSet EMAC0_BASE i a s)) (Chksum.load16 (nth 4 a 0) (nth 5 a 0)))
        as [-> ->]; [intros k Hk; by apply addr_set_high|].
      destruct a as [|x0 [|x1 [|x2 [|x3 [|x4 [|x5 [|]]]]]]]; try discriminate Hl. rewrite !Forall_cons in Hb.
      destruct Hb as (B0 & B1 & B2 & B3 & B4 & B5 & _). cbn [nth]. unfold byte, Chksum.load32, Chksum.load16 in *.
      change 0xFF with (Z.ones 8). rewrite !Z.land_ones, !Z.shiftr_div_pow2 by lia.
      change (2 ^ 8) with 256. change (2 ^ 16) with 65536. change (2 ^ 24) with 16777216.
      repeat (f_equal; [Z.div_mod_to_equations; lia|]). f_equal. Z.div_mod_to_equations. lia.
    + destruct (addr_regs j Hj) as (m & Hh & Hlo & _ & _ & Hm & _).
      assert (HWREG (EMAC0_BASE + EMAC_O_ADDRL j) (EMACAddrSet EMAC0_BASE i a s) = HWREG (EMAC0_BASE + EMAC_O_ADDRL j) s) as El.
      { apply u32_eq; [apply reg_u32|apply reg_u32|]. intros k Hk. apply (addr_set_other i a s _ 0xFFFFFFFF);
          [done|done|change 0xFFFFFFFF with (Z.ones 32); apply Z.ones_spec_low; lia|..];
          unfold EMAC_O_ADDRL, EMAC_O_ADDRH, MAC_ADDR_OFFSET, EMAC_O_ADDR0H, EMAC_O_ADDR0L, EMAC_O_ADDR1L; lia. }
      unfold EMACAddrGet. cbv zeta. rewrite El.
      destruct (low16_bits (HWREG (EMAC0_BASE + EMAC_O_ADDRH j) (EMACAddrSet EMAC0_BASE i a s)) (HWREG (EMAC0_BASE + EMAC_O_ADDRH j) s))
        as [-> ->]; [|done].
      intros k Hk. apply (addr_set_other i a s _ m);
        [done|done|eapply sub_bit; [exact Hm|]; change 0xFFFF with (Z.ones 16); apply Z.ones_spec_low; lia|..];
        unfold EMAC_O_ADDRL, EMAC_O_ADDRH, MAC_ADDR_OFFSET, EMAC_O_ADDR0H, EMAC_O_ADDR0L, EMAC_O_ADDR1L; lia.
  - intros Hz. destruct (addr_regs i Hi) as (m & Hh & _ & _ & Hlo & _ & Hm). specialize (Hm Hz).
    unfold EMACAddrFilterGet. apply Z.bits_inj'. intros k Hk. rewrite !Z.land_spec.
    destruct (Z.testbit ADDR_FILTER k) eqn:Ek; [|by rewrite !andb_false_r]. rewrite !andb_true_r.
    pose proof (sub_bit _ _ _ Hm Ek) as Hmk. unfold EMACAddrSet. cbv zeta.
    rewrite (write_other _ _ _ (EMAC_O_ADDRH i) m) by (done || (unfold EMAC_O_ADDRH, EMAC_O_ADDRL, EMAC_O_ADDR0H, EMAC_O_ADDR0L; lia)).
    rewrite (reg_write_same _ m) by done. destruct a as [|x0 [|x1 [|x2 [|x3 [|x4 [|x5 [|]]]]]]]; try discriminate Hl. rewrite !Forall_cons in Hb.
    destruct Hb as (_ & _ & _ & _ & B4 & B5 & _). cbn [nth]. rewrite <-Z.lor_assoc, half_bytes, Z.lor_spec, Z.land_spec by done.
    rewrite (sub_bit ADDR_FILTER 0xFFFF0000 k eq_refl Ek), andb_true_r.
    assert (16 <= k) as Hk16.
    { destruct (Z.lt_ge_cases k 16) as [Hlt|]; [|done]. pose proof (disjoint_bit ADDR_FILTER (Z.ones 16) k eq_refl) as D.
      by rewrite Ek, Z.ones_spec_low in D by lia. }
    assert (Z.testbit (Chksum.load16 x4 x5) k = false) as ->; [|apply orb_false_r].
    apply Z.testbit_false; [lia|]. rewrite Z.div_small; [done|]. unfold byte, Chksum.load16 in *.
    pose proof (Z.pow_le_mono_r 2 16 k ltac:(lia) Hk16). change (2 ^ 16) with 65536 in *. lia.
Qed.

(** [EMACPHYRead] ends and gives a register of the PHY as it is at some
    time from the call on; the configuration of the MAC stays. *)
Theorem EMACPHYRead_correct p r s : 0 <= p < 32 -> 0 <= r < 32 -> exists k j s', same_config s s' /\
  forall fuel, (k < fuel)%nat -> EMACPHYRead fuel EMAC0_BASE p r s = Some (phy_reg p r (Nat.iter j tick s), s').
Proof. apply phy_read_run. Qed.

End Theorems.

(** The bit of the hash filter for a MAC address is what the hardware
    takes: the highest 6 bits of the CRC in the order of transmission, the
    complement of the Ethernet CRC of the address. *)
Theorem EMACHashFilterBit_correct m p a : data_at m p a -> length a = 6%nat ->
  exists h, EMACHashFilterBitCalculate m p = Some h /\ 0 <= h < 64 /\
    forall i, 0 <= i < 6 -> Z.testbit h i = Z.testbit (Z.lxor (crc_lsb POLY32 0xFFFFFFFF a) 0xFFFFFFFF) (5 - i).
Proof.
  intros Hd Hl. destruct (crc_run m p a Hd) as (_ & _ & H32). unfold EMACHashFilterBitCalculate.
  pose proof (H32 0xFFFFFFFF ltac:(split; [discriminate|reflexivity])) as E. rewrite Hl in E. change (Z.of_nat 6) with 6 in E. rewrite E. cbn [mbind option_bind].
  eexists. split; [reflexivity|]. set (x := Z.lxor _ _). split.
  - assert (0 <= reverse_loop 6 0 x) as H0.
    { cbn [reverse_loop]. assert (forall a b, 0 <= a -> 0 <= Z.lor a (Z.land b 1)) as Hn.
      { intros y z Hy. apply Z.lor_nonneg. split; [done|]. apply Z.land_nonneg. by right. }
      apply Hn. by apply (wrap_range 32). }
    split; [done|]. destruct (Z.lt_ge_cases (reverse_loop 6 0 x) 64) as [|H]; [done|].
    assert (Z.testbit (reverse_loop 6 0 x) (Z.log2 (reverse_loop 6 0 x)) = true) as Hb by (apply Z.bit_log2; lia).
    rewrite reverse_range in Hb; [done|lia|]. change (Z.of_nat 6) with (Z.log2 64). by apply Z.log2_le_mono.
  - intros i Hi. rewrite reverse_bits; [|split; [lia|by vm_compute]|lia|lia]. rewrite (proj2 (Z.ltb_lt _ _)) by lia. done.
Qed.

(** ** A board *)

(** Registers that keep what is written, and an MII that takes two ticks. *)
Record board := mk_board { b_regs : gmap Z Z; b_left : nat; b_phy : Z -> Z -> Z }.

Definition board_reg (a : Z) (s : board) : Z := u32 (default 0 (b_regs s !! a)).
Definition MII : Z := EMAC0_BASE + EMAC_O_MIIADDR.
Definition MIID : Z := EMAC0_BASE + EMAC_O_MIIDATA.

#[export] Instance board_hw : emac_hw board := {
  HWREG := board_reg;
  HWREG_set a v s :=
    if (a =? MII) && Z.testbit v 0 then
      mk_board (<[MIID := u16 (b_phy s (Z.land (Z.shiftr v 11) 31) (Z.land (Z.shiftr v 6) 31))]> (<[a := v]> (b_regs s))) 2 (b_phy s)
    else mk_board (<[a := v]> (b_regs s)) (b_left s) (b_phy s);
  tick s :=
    match b_left s with
    | O => mk_board (<[MII := Z.ldiff (board_reg MII s) EMAC_MIIADDR_MIIB]> (b_regs s)) 0 (b_phy s)
    | Datatypes.S k => mk_board (b_regs s) k (b_phy s)
    end;
  CPUcpsie s := s;
  phy_reg p r s := u16 (b_phy s p r) }.

Lemma kept_range o i : kept_bit o i = true -> 0 <= i < 32 /\ o ∈ wmasks.*1.
Proof.
  intros H. unfold kept_bit in H. apply existsb_exists in H as ([o' m] & Hin & H). cbn [fst snd] in H.
  apply andb_true_iff in H as [->%Z.eqb_eq Hb]. apply list_elem_of_In in Hin. split; [|apply list_elem_of_fmap; by exists (o, m)].
  assert (forall m, m ∈ wmasks.*2 -> in_u 32 m) as Hm by (apply Forall_forall; apply (bool_decide_unpack _); by vm_compute).
  assert (in_u 32 m) as Hr by (apply Hm, list_elem_of_fmap; by exists (o, m)).
  destruct (Z.lt_ge_cases i 0); [by rewrite Z.testbit_neg_r in Hb|]. destruct (Z.lt_ge_cases i 32); [done|].
  rewrite <-(wrap_id 32 m Hr) in Hb. unfold wrap in Hb. by rewrite Z.mod_pow2_bits_high in Hb by lia.
Qed.

Lemma kept_not_mii o : o ∈ wmasks.*1 -> EMAC0_BASE + o ≠ MII /\ EMAC0_BASE + o ≠ MIID.
Proof.
  assert (Forall (fun o => EMAC0_BASE + o ≠ MII /\ EMAC0_BASE + o ≠ MIID) wmasks.*1) as H
    by (apply (bool_decide_unpack _); by vm_compute).
  intros Ho. rewrite Forall_forall in H. by apply H.
Qed.

Lemma board_get a b v k ph s : a ≠ b -> board_reg b (mk_board (<[a := v]> (b_regs s)) k ph) = board_reg b s.
Proof. intros H. unfold board_reg. cbn. by rewrite lookup_insert_ne. Qed.

Lemma u32_bit x i : 0 <= i < 32 -> Z.testbit (u32 x) i = Z.testbit x i.
Proof. intros Hi. unfold wrap. by rewrite Z.mod_pow2_bits_low by lia. Qed.

Lemma board_kept a v (s : board) b : b ≠ a -> b ≠ MIID -> HWREG b (HWREG_set a v s) = HWREG b s.
Proof.
  intros Hb Hd. cbn [HWREG HWREG_set board_hw]. destruct ((a =? MII) && _); unfold board_reg; cbn [b_regs];
    by rewrite !lookup_insert_ne by done.
Qed.

Lemma board_miidata k (s : board) : HWREG MIID (Nat.iter k tick s) = HWREG MIID s.
Proof.
  induction k as [|k IH]; [done|]. rewrite Nat.iter_succ. rewrite <-IH. cbn [HWREG tick board_hw].
  destruct (b_left _); unfold board_reg; cbn [b_regs]; [|done]. by rewrite lookup_insert_ne by (by vm_compute).
Qed.

Lemma board_idle (s : board) : exists k, busy EMAC0_BASE (Nat.iter k tick s) = false.
Proof.
  destruct s as [r l ph]. revert r. induction l as [|l IH]; intros r.
  - exists 1%nat. unfold busy. change (EMAC0_BASE + EMAC_O_MIIADDR) with MII. change EMAC_MIIADDR_MIIB with (2 ^ 0). rewrite test_bit by lia.
    cbn [Nat.iter nat_rect HWREG tick board_hw b_left]. unfold board_reg at 1. cbn [b_regs]. rewrite lookup_insert_eq. cbn [from_option id].
    rewrite u32_bit, Z.ldiff_spec by lia. change (Z.testbit EMAC_MIIADDR_MIIB 0) with true. apply andb_false_r.
  - destruct (IH r) as [k Hk]. exists (Datatypes.S k). rewrite Nat.iter_succ_r. exact Hk.
Qed.

Lemma command_parts x p r : 0 <= p < 32 -> 0 <= r < 32 ->
  let v := Z.lor (Z.lor (Z.lor (Z.land x EMAC_MIIADDR_CR_M) (Z.shiftl r EMAC_MIIADDR_MII_S)) (Z.shiftl p EMAC_MIIADDR_PLA_S)) EMAC_MIIADDR_MIIB in
  Z.testbit v 0 = true /\ Z.land (Z.shiftr v 11) 31 = p /\ Z.land (Z.shiftr v 6) 31 = r.
Proof.
  intros Hp Hr v. unfold v, EMAC_MIIADDR_MII_S, EMAC_MIIADDR_PLA_S.
  assert (Z.shiftr (Z.land x EMAC_MIIADDR_CR_M) 6 = 0) as H6 by (rewrite Z.shiftr_land; apply Z.land_0_r).
  assert (Z.shiftr (Z.land x EMAC_MIIADDR_CR_M) 11 = 0) as H11 by (rewrite Z.shiftr_land; apply Z.land_0_r).
  change 31 with (Z.ones 5). rewrite !Z.land_ones by lia. change (2 ^ 5) with 32. split_and!.
  - rewrite Z.lor_spec. apply orb_true_r.
  - rewrite !Z.shiftr_lor, H11, Z.lor_0_l. change (Z.shiftr EMAC_MIIADDR_MIIB 11) with 0. rewrite Z.lor_0_r.
    rewrite Z.shiftr_shiftl_r, Z.shiftr_shiftl_l by lia. rewrite Z.shiftl_0_r, Z.shiftr_div_pow2 by lia.
    change (2 ^ (11 - 6)) with 32. rewrite Z.div_small, Z.lor_0_l by lia. by apply Z.mod_small.
  - rewrite !Z.shiftr_lor, H6, Z.lor_0_l. change (Z.shiftr EMAC_MIIADDR_MIIB 6) with 0. rewrite Z.lor_0_r.
    rewrite !Z.shiftr_shiftl_l by lia. rewrite Z.shiftl_0_r, Z.lor_comm, lor_shiftl_add by (change (2 ^ (11 - 6)) with 32; lia).
    change (2 ^ (11 - 6)) with 32. rewrite Z.add_comm, Z.mod_add by lia. by apply Z.mod_small.
Qed.

#[export] Instance board_laws : emac_laws board.
Proof.
  split.
  - intros a s. by apply wrap_range.
  - intros o v s o' i Ho Hk. destruct (kept_range _ _ Hk) as [Hi Ho']. destruct (kept_not_mii o Ho) as [Hm Hd].
    destruct (Z.eqb_spec o' o) as [->|Hne].
    + cbn [HWREG HWREG_set board_hw]. rewrite (proj2 (Z.eqb_neq _ _) Hm). cbn [andb]. unfold board_reg. cbn [b_regs].
      rewrite lookup_insert_eq. by apply u32_bit.
    + rewrite board_kept; [done|lia|by apply kept_not_mii].
  - intros o v s o' i Ho Hk. destruct (kept_range _ _ Hk) as [_ Ho']. rewrite board_kept; [done| |by apply kept_not_mii].
    assert (Forall (fun o => Forall (fun o' => EMAC0_BASE + o' ≠ EMAC0_BASE + o) wmasks.*1)
      [EMAC_O_MIIADDR; EMAC_O_MIIDATA; EMAC_O_TXPOLLD; EMAC_O_DMARIS; EMAC_O_EPHYMISC]) as H by (apply (bool_decide_unpack _); by vm_compute).
    rewrite Forall_forall in H. specialize (H o Ho). rewrite Forall_forall in H. by apply H.
  - intros n v s o' i Hn Hk. destruct (kept_range _ _ Hk) as [_ Ho']. rewrite board_kept; [done| |by apply kept_not_mii].
    assert (Forall (fun o' => NVIC_EN0 + 20 <= EMAC0_BASE + o' \/ EMAC0_BASE + o' < NVIC_EN0) wmasks.*1) as H
      by (apply (bool_decide_unpack _); by vm_compute).
    rewrite Forall_forall in H. specialize (H o' Ho'). lia.
  - done.
  - intros s o' i Hk. destruct (kept_range _ _ Hk) as [_ Ho']. destruct (kept_not_mii _ Ho') as [Hm _]. cbn [HWREG tick board_hw].
    destruct (b_left s); [|done]. by rewrite board_get.
  - exact board_idle.
  - intros p r s k Hp Hr _ s1 _ _. change (EMAC0_BASE + EMAC_O_MIIDATA) with MIID. rewrite board_miidata. unfold s1.
    destruct (command_parts (HWREG (EMAC0_BASE + EMAC_O_MIIADDR) s) p r Hp Hr) as (Hb & E1 & E2).
    unfold mii_command. cbv zeta in Hb, E1, E2. set (v := Z.lor (Z.lor _ _) EMAC_MIIADDR_MIIB) in *.
    cbn [HWREG HWREG_set board_hw phy_reg]. rewrite Hb. change (EMAC0_BASE + EMAC_O_MIIADDR =? MII) with true. cbn [andb].
    unfold board_reg. cbn [b_regs]. rewrite lookup_insert_eq, E1, E2. cbn [from_option id]. change EMAC_MIIDATA_DATA_M with (Z.ones 16).
    rewrite Z.land_ones by lia. pose proof (wrap_range 16 (b_phy s p r) ltac:(lia)) as Hw.
    rewrite (wrap_id 32) by (unfold in_u in *; cint_pow; lia). by apply Z.mod_small.
Qed.

(** ** The theorems at work *)

Definition board0 : board := mk_board {[MII := 0x04]} 0 (fun p r => 0x1000 + r).

Lemma EMACConfig_roundtrip_witness : exists m', EMACConfigGet EMAC0_BASE (EMACConfigSet EMAC0_BASE 0x4800 0x2000 1600 board0) = (0x4800, m', 1600) /\
  Z.land m' mode_mask = 0x2000.
Proof. exact (EMACConfig_roundtrip 0x4800 0x2000 1600 board0 eq_refl eq_refl ltac:(right; split; reflexivity)). Defined.

Lemma EMACConfigSet_enables_witness : Z.testbit (HWREG (EMAC0_BASE + EMAC_O_CFG) board0) 3 = false /\
  Z.testbit (HWREG (EMAC0_BASE + EMAC_O_CFG) (EMACConfigSet EMAC0_BASE 0x4808 0 0 board0)) 3 = true.
Proof. split; [reflexivity|]. exact (EMACConfigSet_enables 0x4808 0 0 board0 eq_refl). Defined.

Definition mac1 : list Z := [0xAC; 0xDE; 0x48; 0x00; 0x00; 0x80].

Lemma EMACAddr_roundtrip_witness : EMACAddrGet EMAC0_BASE 1 (EMACAddrSet EMAC0_BASE 1 mac1 board0) = mac1.
Proof.
  exact (proj1 (EMACAddr_roundtrip 1 1 mac1 board0 ltac:(split; [discriminate|reflexivity]) ltac:(split; [discriminate|reflexivity])
    eq_refl ltac:(repeat (constructor; [split; [discriminate|reflexivity]|]); constructor))).
Defined.

Lemma EMACPHYRead_correct_witness : exists k, forall fuel, (k < fuel)%nat ->
  exists s', EMACPHYRead fuel EMAC0_BASE 0 0x10 board0 = Some (0x1010, s').
Proof.
  destruct (EMACPHYRead_correct 0 0x10 board0 ltac:(split; [discriminate|reflexivity]) ltac:(split; [discriminate|reflexivity])) as (k & j & s' & _ & H).
  exists k. intros fuel Hf. exists s'. rewrite (H fuel Hf). f_equal. f_equal.
  assert (forall j (s : board), b_phy (Nat.iter j tick s) = b_phy s) as Hp.
  { clear. induction j as [|j IH]; intros s; [done|]. rewrite Nat.iter_succ, <-(IH s). cbn [tick board_hw]. by destruct (b_left _). }
  cbn [phy_reg board_hw]. by rewrite Hp.
Defined.

Lemma EMACHashFilterBit_correct_witness : exists h, EMACHashFilterBitCalculate (check_mem 0x20000003 mac1) 0x20000003 = Some h /\ 0 <= h < 64.
Proof.
  destruct (EMACHashFilterBit_correct (check_mem 0x20000003 mac1) 0x20000003 mac1
    (check_at 0x20000003 mac1 ltac:(discriminate) eq_refl
      ltac:(repeat (constructor; [split; [discriminate|reflexivity]|]); constructor) ltac:(discriminate)) eq_refl) as (h & E & Hh & _).
  exists h. exact (conj E Hh).
Defined.

End Emac.
