(* ===== verification/MacIntr.v ===== *)
(** * Start and interrupts of the Ethernet MAC driver

    [tivaif_init] with [tivaif_hwinit], [tivaif_process_phy_interrupt] and
    [tivaif_interrupt] of tiva-tm4c129.c: the MAC and the PHY are set up, and the
    interrupts of the PHY, of the transmitter and of the receiver are served.

    [mac] is the driver without the transmit list: the registers ([Emac]), the
    receive list ([MacInput]) and the counters of interrupts.  The transmit list is
    in the part of the driver below the stack, as for [linkoutput]: [tx_ops] is
    [tivaif_process_transmit] there, and [tx_laws] what the ring of [Tivaif] does
    for it ([Tivaif.process_run]). *)
From S2P Require Import Prelude Alloc Pbuf PbufData Chksum IpAddr Refs Net Etharp Wire ArpCache Netif Autoip Packet IpOut Icmp Raw Ip EthInput MacInput Emac.
From S2P Require Tivaif.
Import Alloc Pbuf PbufData Refs Net Etharp Wire ArpCache Netif Autoip Packet IpOut Icmp Raw Ip EthInput MacInput Emac.
Import Tivaif.Tivaif(tivaif, tDescriptor, tDescriptorList, pDescriptors, pRxDescList, ui32Read, attached, InitDMADescriptors).

Module MacIntr.
Local Open Scope net_scope.

Definition PHY_PHYS_ADDR : Z := 0.
Definition EPHY_BMCR : Z := 0x00.
Definition EPHY_STS : Z := 0x10.
Definition EPHY_SCR : Z := 0x11.
Definition EPHY_MISR1 : Z := 0x12.
Definition EPHY_MISR2 : Z := 0x13.
Definition EPHY_STS_DUPLEX : Z := 0x04.
Definition EPHY_STS_SPEED : Z := 0x02.
Definition EPHY_STS_LINK : Z := 0x01.
Definition EPHY_MISR1_LINKSTAT : Z := 0x2000.
Definition EPHY_MISR1_SPEED : Z := 0x1000.
Definition EPHY_MISR1_DUPLEXM : Z := 0x0800.
Definition EPHY_MISR1_ANC : Z := 0x0400.
(** EPHY_SCR_INTEN_EXT | EPHY_SCR_INTOE_EXT *)
Definition EPHY_SCR_INTS : Z := 0x0003.
(** EPHY_MISR1_LINKSTATEN | EPHY_MISR1_SPEEDEN | EPHY_MISR1_DUPLEXMEN | EPHY_MISR1_ANCEN *)
Definition EPHY_MISR1_ENABLES : Z := 0x003C.
(** EPHY_BMCR_ANEN | EPHY_BMCR_RESTARTAN *)
Definition EPHY_BMCR_RESTART : Z := 0x1200.

Class tx_ops (A W : Type) := { process_transmit : pstate A -> W -> option (pstate A * W) }.

Class tx_laws (A W : Type) {ops : alloc_ops A} {laws : alloc_laws A} {lops : link_ops A W} {llaws : link_laws A W} {tops : tx_ops A W} := {
  process_law s w refs R : refs_inv s (refs ++ drv w) (R ++ held w) -> link_ok w ->
    exists s' w', process_transmit s w = Some (s', w') /\ link_ok w' /\ refs_inv s' (refs ++ drv w') (R ++ held w') /\
      shrinks (bufs s) (bufs s') /\ bytes s' = bytes s }.

(** ** State *)

Record mac (S : Type) := mk_mac {
  m_regs : S; m_rx : tDescriptorList; g_ui32NormalInts : Z; g_ui32AbnormalInts : Z }.
#[global] Arguments mk_mac {S}.
#[global] Arguments m_regs {S}.
#[global] Arguments m_rx {S}.
#[global] Arguments g_ui32NormalInts {S}.
#[global] Arguments g_ui32AbnormalInts {S}.

(** ** Operations *)

Section Operations.
Context {A W S : Type} {ops : alloc_ops A} {lops : link_ops A W} {uops : upper_ops A W} {aops : app_ops A W}
  {tops : tx_ops A W} {hw : emac_hw S}.

(** A read of the PHY in the monad of the stack. *)
Definition phy_read (fuel : nat) (reg : Z) (r : S) : M A W (Z * S) :=
  gets (fun _ => EMACPHYRead fuel EMAC0_BASE PHY_PHYS_ADDR reg r).

(** The speed and the duplex mode of the PHY for the MAC. *)
Definition reconfigured (ui16Status ui32Config : Z) : Z :=
  let c := if test ui16Status EPHY_STS_SPEED then Z.ldiff ui32Config EMAC_CONFIG_100MBPS else Z.lor ui32Config EMAC_CONFIG_100MBPS in
  if test ui16Status EPHY_STS_DUPLEX then Z.lor c EMAC_CONFIG_FULL_DUPLEX else Z.ldiff c EMAC_CONFIG_FULL_DUPLEX.
Definition reconfigure (ui16Status : Z) (r : S) : S :=
  let '(ui32Config, ui32Mode, ui32RxMaxFrameSize) := EMACConfigGet EMAC0_BASE r in
  EMACConfigSet EMAC0_BASE (reconfigured ui16Status ui32Config) ui32Mode ui32RxMaxFrameSize r.

Definition tivaif_process_phy_interrupt (fuel : nat) (n : Z) (r : S) : M A W S :=
  x <- phy_read fuel EPHY_MISR1 r ;;
  y <- phy_read fuel EPHY_STS x.2 ;;
  when (test x.1 EPHY_MISR1_LINKSTAT)
    (if test y.1 EPHY_STS_LINK then netif_set_link_up n else netif_set_link_down n) ;;
  ret (if test x.1 (Z.lor (Z.lor EPHY_MISR1_SPEED EPHY_MISR1_SPEED) EPHY_MISR1_ANC) then reconfigure y.1 y.2 else y.2).

Definition run_transmit : M A W unit :=
  fun s => '(p, w) ← process_transmit (ps s) (world s); Some (tt, with_world w (with_ps p s)).

(** The transmitter and the receiver, as [tivaif_interrupt] serves them. *)
Definition serve_lists (n ui32Status : Z) (l : tDescriptorList) : M A W tDescriptorList :=
  when (test ui32Status EMAC_INT_TRANSMIT) run_transmit ;;
  if test ui32Status (Z.lor (Z.lor EMAC_INT_RECEIVE EMAC_INT_RX_NO_BUFFER) EMAC_INT_RX_STOPPED)
  then tivaif_receive n l else ret l.

Definition tivaif_interrupt (fuel : nat) (n ui32Status : Z) (x : mac S) : M A W (mac S) :=
  let normal := if test ui32Status EMAC_INT_NORMAL_INT then u32 (g_ui32NormalInts x + 1) else g_ui32NormalInts x in
  let abnormal := if test ui32Status EMAC_INT_ABNORMAL_INT then u32 (g_ui32AbnormalInts x + 1) else g_ui32AbnormalInts x in
  r <- (if test ui32Status EMAC_INT_PHY then tivaif_process_phy_interrupt fuel n (m_regs x) else ret (m_regs x)) ;;
  l <- serve_lists n ui32Status (m_rx x) ;;
  ret (mk_mac r l normal abnormal).

End Operations.

(** The interrupts of the receiver. *)
Definition rx_ints : Z := flags [EMAC_INT_RECEIVE; EMAC_INT_RX_NO_BUFFER; EMAC_INT_RX_STOPPED].

(** *** Start *)

Section Start.
Context {A W S : Type} {ops : alloc_ops A} {hw : emac_hw S}.

(** The fields of the interface [tivaif_hwinit] sets ([hwaddr_len] is 6 for every
    interface here). *)
Definition set_hw (a : list Z) (x : netif) : netif :=
  mk_netif (ip_addr x) (netmask x) (gw x) (status_callback x) (dhcp x) (n_autoip x) 1500 a
    (Z.lor (Z.lor NETIF_FLAG_BROADCAST NETIF_FLAG_ETHARP) NETIF_FLAG_LINK_UP) (name x) (num x).
Definition set_name (nm : Z * Z) (x : netif) : netif :=
  mk_netif (ip_addr x) (netmask x) (gw x) (status_callback x) (dhcp x) (n_autoip x) (mtu x) (hwaddr x) (n_flags x) nm (num x).

(** [InitDMADescriptors] on the lists [w], which are at the addresses [rx] and
    [tx]. *)
Definition init_dma (rx tx : Z) (w : tivaif) (r : S) : M A W (tivaif * S) :=
  fun s => '(p, w) ← InitDMADescriptors (ps s) w;
    Some ((w, EMACTxDMADescriptorListSet EMAC0_BASE tx (EMACRxDMADescriptorListSet EMAC0_BASE rx r)), with_ps p s).

(** The part of [tivaif_hwinit] after the descriptors: the interrupts of the PHY,
    the filter, the transmitter and the receiver, the interrupts. *)
Definition start_phy (fuel : nat) (r : S) : option S :=
  '(_, r) ← EMACPHYRead fuel EMAC0_BASE PHY_PHYS_ADDR EPHY_MISR1 r;
  '(_, r) ← EMACPHYRead fuel EMAC0_BASE PHY_PHYS_ADDR EPHY_MISR2 r;
  '(ui16Val, r) ← EMACPHYRead fuel EMAC0_BASE PHY_PHYS_ADDR EPHY_SCR r;
  r ← EMACPHYWrite fuel EMAC0_BASE PHY_PHYS_ADDR EPHY_SCR (Z.lor ui16Val EPHY_SCR_INTS) r;
  r ← EMACPHYWrite fuel EMAC0_BASE PHY_PHYS_ADDR EPHY_MISR1 EPHY_MISR1_ENABLES r;
  '(_, r) ← EMACPHYRead fuel EMAC0_BASE PHY_PHYS_ADDR EPHY_MISR1 r;
  Some r.

Definition filter_opts : Z := Z.lor EMAC_FRMFILTER_HASH_AND_PERFECT EMAC_FRMFILTER_PASS_MULTICAST.
Definition int_sources : Z :=
  flags [EMAC_INT_RECEIVE; EMAC_INT_TRANSMIT; EMAC_INT_TX_STOPPED; EMAC_INT_RX_NO_BUFFER; EMAC_INT_RX_STOPPED; EMAC_INT_PHY].
Definition start_mac (r : S) : S :=
  let r := EMACFrameFilterSet EMAC0_BASE filter_opts r in
  let r := EMACIntClear EMAC0_BASE (EMACIntStatus EMAC0_BASE false r) r in
  let r := EMACRxEnable EMAC0_BASE (EMACTxEnable EMAC0_BASE r) in
  IntMasterEnable (IntEnable INT_EMAC0 (EMACIntEnable EMAC0_BASE int_sources r)).

Definition start_hw (fuel : nat) (r : S) : option S :=
  r ← start_phy fuel r;
  EMACPHYWrite fuel EMAC0_BASE PHY_PHYS_ADDR EPHY_BMCR EPHY_BMCR_RESTART (start_mac r).

Definition tivaif_hwinit (fuel : nat) (rx tx n : Z) (w : tivaif) (r : S) : M A W (tivaif * S) :=
  set_the_netif n (set_hw (EMACAddrGet EMAC0_BASE 0 r)) ;;
  x <- init_dma rx tx w r ;;
  r <- gets (fun _ => start_hw fuel x.2) ;;
  ret (x.1, r).

(** [state], [output] and [linkoutput] are the driver's and the stack's own. *)
Definition tivaif_init (fuel : nat) (rx tx n : Z) (w : tivaif) (r : S) : M A W (Z * tivaif * S) :=
  set_the_netif n (set_name (116, 105)) ;;
  x <- tivaif_hwinit fuel rx tx n w r ;;
  ret (ERR_OK, x.1, x.2).

End Start.

(** ** The PHY *)

Section Phy.
Context {S : Type} {hw : emac_hw S} {laws : emac_laws S}.
Implicit Types r : S.

Lemma reconfigured_bits st c i : 0 <= i -> Z.testbit (reconfigured st c) i =
  if i =? 14 then negb (Z.testbit st 1) else if i =? 11 then Z.testbit st 2 else Z.testbit c i.
Proof.
  intros Hi. unfold reconfigured. change EPHY_STS_SPEED with (2 ^ 1). change EPHY_STS_DUPLEX with (2 ^ 2). rewrite !test_bit by lia.
  change EMAC_CONFIG_100MBPS with (2 ^ 14). change EMAC_CONFIG_FULL_DUPLEX with (2 ^ 11).
  destruct (Z.testbit st 1), (Z.testbit st 2); rewrite ?Z.lor_spec, ?Z.ldiff_spec, ?Z.lor_spec, ?Z.ldiff_spec, !Z.pow2_bits_eqb by lia;
    rewrite (Z.eqb_sym 14 i), (Z.eqb_sym 11 i); destruct (Z.eqb_spec i 14), (Z.eqb_spec i 11); try lia;
    cbn [negb]; by rewrite ?orb_false_r, ?andb_true_r, ?andb_false_r, ?orb_true_r.
Qed.

(** The configuration that [EMACConfigGet] tells is valid. *)
Lemma config_valid r : Z.land (EMACConfigGet EMAC0_BASE r).1.1 (Z.lor VALID_CONFIG_FLAGS enables) = (EMACConfigGet EMAC0_BASE r).1.1.
Proof. unfold EMACConfigGet. cbn [fst]. by rewrite <-Z.land_assoc. Qed.

Lemma reconfigure_run st r : let '(c, m, z) := EMACConfigGet EMAC0_BASE r in 1522 < z ->
  let '(c', m', z') := EMACConfigGet EMAC0_BASE (reconfigure st r) in
  c' = reconfigured st c /\ Z.land m' mode_mask = Z.land m mode_mask /\ z' = z.
Proof.
  pose proof (config_valid r) as Hv. unfold reconfigure. destruct (EMACConfigGet EMAC0_BASE r) as [[c m] z] eqn:E. intros Hz.
  assert (z < 0x4000) as Hz2.
  { unfold EMACConfigGet in E. injection E as _ _ <-. case_match; [|case_match; lia].
    change EMAC_WDOGTO_WTO_M with (Z.ones 14). rewrite Z.land_ones by lia. apply Z.mod_pos_bound. lia. }
  assert (c = Z.land (HWREG (EMAC0_BASE + EMAC_O_CFG) r) (Z.lor VALID_CONFIG_FLAGS enables)) as Hc
    by (unfold EMACConfigGet in E; unfold enables; rewrite Z.lor_assoc; congruence).
  cbn [fst] in Hv. pose proof (config_get_set (reconfigured st c) m z r) as H.
  destruct (EMACConfigGet EMAC0_BASE (EMACConfigSet _ _ _ _ _)) as [[c' m'] z']. destruct H as (-> & -> & ->).
  - apply Z.bits_inj'. intros i Hi. rewrite Z.land_spec, reconfigured_bits by done.
    destruct (Z.eqb_spec i 14) as [->|]; [by rewrite andb_true_r|]. destruct (Z.eqb_spec i 11) as [->|]; [by rewrite andb_true_r|].
    by rewrite <-Z.land_spec, Hv.
  - right. lia.
  - split; [|split; [done|by rewrite (proj2 (Z.eqb_neq z 0)) by lia]]. apply Z.bits_inj'. intros i Hi.
    rewrite Z.lor_spec, Z.land_spec, !reconfigured_bits by done.
    destruct (Z.eqb_spec i 14) as [->|]; [change (Z.testbit enables 14) with false; by rewrite andb_false_r, orb_false_r|].
    destruct (Z.eqb_spec i 11) as [->|]; [change (Z.testbit enables 11) with false; by rewrite andb_false_r, orb_false_r|].
    rewrite Hc, !Z.land_spec, Z.lor_spec. destruct (Z.testbit _ i), (Z.testbit VALID_CONFIG_FLAGS i), (Z.testbit enables i); done.
Qed.

End Phy.

(** ** The link *)

Section Correct.
Context {A W : Type} {ops : alloc_ops A} {laws : alloc_laws A} {lops : link_ops A W} {llaws : link_laws A W}
  {uops : upper_ops A W} {ulaws : upper_laws A W} {aops : app_ops A W} {alaws : app_laws A W} {tops : tx_ops A W} {tlaws : tx_laws A W}.
Implicit Types s : net A W.

(** A change of one interface that leaves the AutoIP client, the DHCP client and
    the hardware address. *)
Lemma flags_keeps extra n nif f s s' : netifs s !! n = Some nif -> nframe extra s s' -> netifs s' = <[n := set_n_flags f nif]> (netifs s) ->
  kept extra s s'.
Proof.
  intros E [Hl Hd Hn Ha Hc Hp] Ns. split; [done|].
  assert (forall m x, netifs s' !! m = Some x -> exists y, netifs s !! m = Some y /\ n_autoip x = n_autoip y /\ dhcp x = dhcp y) as Hback.
  { intros m x. rewrite Ns. destruct (decide (m = n)) as [->|]; [rewrite lookup_insert_eq|rewrite lookup_insert_ne by done; eauto].
    intros Ex%Some_inj. rewrite <-Ex. eauto. }
  assert (forall m x, netifs s !! m = Some x -> exists y, netifs s' !! m = Some y /\ hwaddr y = hwaddr x) as Hfor.
  { intros m x Em. rewrite Ns. destruct (decide (m = n)) as [->|]; [rewrite lookup_insert_eq|rewrite lookup_insert_ne by done; eauto].
    eexists. split; [done|]. assert (x = nif) as -> by congruence. done. }
  split; [exact Hfor|done| |].
  - intros [C1 C2 C3 C4]. split; [by rewrite Hl| | |].
    + intros m Hm. rewrite Hl in Hm. destruct (C2 m Hm) as [x Ex]. destruct (Hfor m x Ex) as (y & Ey & _). by eexists.
    + intros m x Ex Hz. destruct (Hback m x Ex) as (y & Ey & En & _). rewrite En in *. rewrite Ha. by eapply C3.
    + intros m m' x x' Ex Ex' En Hz. destruct (Hback m x Ex) as (y & Ey & E1 & _), (Hback m' x' Ex') as (y' & Ey' & E2 & _).
      eapply (C4 m m' y y'); congruence.
  - intros [L1 L2 L3]. split.
    + intros m Hm. rewrite Hl in Hm. destruct (L1 m Hm) as (Hz & x & Ex). destruct (Hfor m x Ex) as (y & Ey & _). split; [done|by eexists].
    + intros Hz. rewrite Hd in *. destruct (L2 Hz) as [x Ex]. destruct (Hfor _ x Ex) as (y & Ey & _). by eexists.
    + intros m x Ex Hz. destruct (Hback m x Ex) as (y & Ey & _ & Ed). rewrite Ed, Hc in *. by eapply L3.
Qed.

Lemma wp_set_flags extra R n nif f Q s : net_inv s extra R -> netifs s !! n = Some nif -> (forall x, exists g, f x = set_n_flags g x) ->
  (forall s', net_inv s' extra R -> kept extra s s' -> netifs s' !! n = Some (f nif) -> Q tt s') -> wp (set_the_netif n f) Q s.
Proof.
  intros I E Hf HQ. eapply wp_set_netif; [exact I|intros x; by destruct (Hf x) as [g ->]|].
  intros s' I' F' N' _ _. destruct (Hf nif) as [g Eg].
  assert (netifs s' = <[n := set_n_flags g nif]> (netifs s)) as N2 by (rewrite N', (alter_some _ _ _ nif) by done; by rewrite Eg).
  apply HQ; [done|by eapply flags_keeps|]. by rewrite N2, lookup_insert_eq, Eg.
Qed.

Lemma moves_kept extra n nif a nif' a' s s' : clients_ok s -> client s n = Some (nif, a) -> moves extra n (nif', a') s s' ->
  n_autoip nif' = n_autoip nif -> hwaddr nif' = hwaddr nif -> dhcp nif' = dhcp nif -> autoip_ok a' -> kept extra s s'.
Proof.
  intros C Ec M' Hp Hh Hd Ok. destruct (moves_clients _ _ _ _ _ _ _ _ C Ec M' Hp Ok) as (C' & _ & _).
  pose proof Ec as (E & _ & _)%client_some. destruct M' as [M1 _ M3 M4 _ M5 M6]. cbn [fst snd] in *.
  assert (forall m x, netifs s !! m = Some x -> exists y, netifs s' !! m = Some y /\ hwaddr y = hwaddr x) as Hfor.
  { intros m x Em. rewrite M1. destruct (decide (m = n)) as [->|]; [rewrite lookup_insert_eq|rewrite lookup_insert_ne by done; eauto].
    eexists. split; [done|]. assert (x = nif) as -> by congruence. done. }
  split; [done|]. split; [done|done|done|]. intros [L1 L2 L3]. split.
  - intros m Hm. rewrite M3 in Hm. destruct (L1 m Hm) as (Hz & x & Ex). destruct (Hfor m x Ex) as (y & Ey & _). split; [done|by eexists].
  - intros Hz. rewrite M4 in *. destruct (L2 Hz) as [x Ex]. destruct (Hfor _ x Ex) as (y & Ey & _). by eexists.
  - intros m x. rewrite M1, M5. destruct (decide (m = n)) as [->|]; [rewrite lookup_insert_eq|rewrite lookup_insert_ne by done; eauto].
    intros Ex%Some_inj Hz. rewrite <-Ex, Hd in Hz. rewrite <-Ex, Hd. by eapply L3.
Qed.

(** [autoip_network_changed] in any state of the client. *)
Lemma wp_network_changed extra R n nif Q s : net_inv s extra R -> Z.of_nat (length extra) < 49998 -> clients_ok s ->
  netifs s !! n = Some nif -> n_autoip nif ≠ 0 -> (forall s', net_inv s' extra R -> kept extra s s' -> Q tt s') ->
  wp (autoip_network_changed n) Q s.
Proof.
  intros I Hx C E Hz HQ. destruct (co_client _ C n nif E Hz) as (a & Ea & Ok).
  assert (client s n = Some (nif, a)) as Ec by (by apply client_some).
  eapply (wp_changed extra R n s Hx nif (ni_hw _ _ _ I _ _ E) nif a); [done|done|by apply moves_refl|].
  intros s' I' M'. apply HQ; [done|]. unfold changed in M'. destruct (a_state a =? AUTOIP_STATE_OFF).
  - eapply moves_kept; eauto.
  - eapply moves_kept; eauto using probing_ok.
Qed.

Lemma wp_link_up_kept extra R n nif Q s : net_inv s extra R -> Z.of_nat (length extra) < 49998 -> clients_ok s -> netifs s !! n = Some nif ->
  (forall s', net_inv s' extra R -> kept extra s s' -> Q tt s') -> wp (netif_set_link_up n) Q s.
Proof.
  intros I Hx C E HQ. unfold netif_set_link_up. apply wp_bind. eapply wp_the_netif; [exact E|].
  apply wp_when; intros _; [|apply HQ; [done|apply kept_refl]]. apply wp_bind.
  eapply wp_set_flags; [exact I|exact E|by eexists|]. intros s1 I1 K1 E1. apply wp_bind.
  assert (forall s2, net_inv s2 extra R -> kept extra s s2 ->
    wp (nif <- the_netif n ;; when (negb (n_autoip nif =? 0)) (autoip_network_changed n) ;;
        nif <- the_netif n ;; when (netif_is_up nif && has_flag NETIF_FLAG_ETHARP nif) (etharp_gratuitous n ;; ret tt))%net Q s2) as Hrest.
  { intros s2 I2 K2. destruct (kp_netifs _ _ (proj2 K2) n nif E) as (x2 & E2 & _). apply wp_bind. eapply wp_the_netif; [exact E2|].
    assert (forall s3, net_inv s3 extra R -> kept extra s s3 ->
      wp (nif <- the_netif n ;; when (netif_is_up nif && has_flag NETIF_FLAG_ETHARP nif) (etharp_gratuitous n ;; ret tt))%net Q s3) as Hlast.
    { intros s3 I3 K3. destruct (kp_netifs _ _ (proj2 K3) n nif E) as (x3 & E3 & _). apply wp_bind. eapply wp_the_netif; [exact E3|].
      apply wp_when; intros _; [|by apply HQ]. unfold etharp_gratuitous. apply wp_bind, wp_bind. eapply wp_the_netif; [exact E3|].
      eapply wp_request; [exact I3|exact E3|lia|]. intros r s4 I4 F4 _. apply wp_ret, HQ; [done|]. eapply kept_trans; [exact K3|by apply kept_frame]. }
    apply wp_bind. apply wp_when; intros Hz; [|by apply Hlast].
    eapply wp_network_changed; [exact I2|exact Hx|by apply K2|exact E2|by apply negb_true_iff, Z.eqb_neq in Hz|].
    intros s3 I3 K3. apply Hlast; [done|by eapply kept_trans]. }
  apply wp_when; intros _; [|by apply Hrest].
  eapply wp_mono; [apply dhcp_network_changed_law; [exact I1|exact Hx|by eexists]|]. intros [] s2 (I2 & P2 & K2).
  apply Hrest; [done|]. eapply kept_trans; [exact K1|by split].
Qed.

Lemma wp_link_down_kept extra R n nif Q s : net_inv s extra R -> netifs s !! n = Some nif ->
  (forall s', net_inv s' extra R -> kept extra s s' -> Q tt s') -> wp (netif_set_link_down n) Q s.
Proof.
  intros I E HQ. unfold netif_set_link_down. apply wp_bind. eapply wp_the_netif; [exact E|].
  apply wp_when; intros _; [|apply HQ; [done|apply kept_refl]]. eapply wp_set_flags; [exact I|exact E|by eexists|]. auto.
Qed.

(** Packets that were sent are given back. *)
Lemma wp_run_transmit extra R Q s : net_inv s extra R ->
  (forall s', net_inv s' extra R -> kept extra s s' -> Q tt s') -> wp run_transmit Q s.
Proof.
  intros I HQ. destruct (process_law (ps s) (world s) _ _ (ni_refs _ _ _ I) (ni_link _ _ _ I)) as (p & w & E & L & Ir & Sh & Ey).
  unfold wp, run_transmit. rewrite E. cbn [mbind option_bind]. apply HQ.
  - eapply inv_pbufs; [exact I|exact L|exact Ir|]. intros a b Ha Eb Rb.
    destruct (ri_get _ _ _ a Ir ltac:(set_solver)) as [b' Eb']. destruct (Sh a b' Eb') as (b0 & Eb0 & Es & Hr).
    assert (b0 = b) as -> by congruence. exists b'. split; [done|]. split; [|done].
    destruct (ri_pinv _ _ _ Ir) as [B Ip]. destruct (pinv_get _ _ _ _ _ Ip Eb') as (_ & _ & _ & _ & _ & Hr0). lia.
  - apply kept_frame. split; try done. eapply (shrinks_same _ _ _ _ Ir) in Sh; [|exact Ey]. eapply same_packets_sub; [|exact Sh]. set_solver.
Qed.

End Correct.

(** *** Configuration *)

Section Regs.
Context {S : Type} {hw : emac_hw S} {laws : emac_laws S}.
Implicit Types r : S.

(** What [EMACConfigGet] tells, but for the bits of the mode that change by
    themselves. *)
Definition config r : Z * Z * Z :=
  let '(c, m, z) := EMACConfigGet EMAC0_BASE r in (c, Z.land m mode_mask, z).

Lemma land_same x y m : (forall i, Z.testbit m i = true -> Z.testbit x i = Z.testbit y i) -> Z.land x m = Z.land y m.
Proof.
  intros H. apply Z.bits_inj'. intros i Hi. rewrite !Z.land_spec. destruct (Z.testbit m i) eqn:E; [by rewrite H|by rewrite !andb_false_r].
Qed.

Lemma config_same r r' : same_config r r' -> config r' = config r.
Proof.
  intros H.
  assert (forall o m m', (o, m) ∈ wmasks -> Z.land m' m = m' -> Z.land (HWREG (EMAC0_BASE + o) r') m' = Z.land (HWREG (EMAC0_BASE + o) r) m') as Hm.
  { intros o m m' Hin Hs. apply land_same. intros i Hi. apply H. eapply kept_in; [exact Hin|by eapply sub_bit]. }
  unfold config, EMACConfigGet, test.
  rewrite (Hm EMAC_O_CFG cfg_mask) by conc. rewrite (Hm EMAC_O_DMAOPMODE mode_mask) by conc.
  rewrite (Hm EMAC_O_WDOGTO (Z.lor EMAC_WDOGTO_PWE EMAC_WDOGTO_WTO_M) EMAC_WDOGTO_PWE) by conc.
  rewrite (Hm EMAC_O_WDOGTO (Z.lor EMAC_WDOGTO_PWE EMAC_WDOGTO_WTO_M) EMAC_WDOGTO_WTO_M) by conc.
  by rewrite (Hm EMAC_O_CFG cfg_mask EMAC_CFG_JFEN) by conc.
Qed.

Lemma config_reconfigure st r c m z : config r = (c, m, z) -> 1522 < z -> config (reconfigure st r) = (reconfigured st c, m, z).
Proof.
  intros E Hz. pose proof (reconfigure_run st r) as H. unfold config in *. destruct (EMACConfigGet EMAC0_BASE r) as [[c1 m1] z1].
  injection E as -> <- ->. specialize (H Hz). destruct (EMACConfigGet EMAC0_BASE (reconfigure st r)) as [[c' m'] z']. by destruct H as (-> & -> & ->).
Qed.

(** The two reads of the PHY. *)
Lemma phy_interrupt_run {A W} {ops : alloc_ops A} {lops : link_ops A W} {uops : upper_ops A W} n r : exists k j1 j2 r1 r2,
  same_config r r2 /\ let v := phy_reg 0 EPHY_MISR1 (Nat.iter j1 tick r) in let st := phy_reg 0 EPHY_STS (Nat.iter j2 tick r1) in
  forall fuel (s : net A W), (k < fuel)%nat -> tivaif_process_phy_interrupt fuel n r s =
    (when (test v EPHY_MISR1_LINKSTAT) (if test st EPHY_STS_LINK then netif_set_link_up n else netif_set_link_down n) ;;
     ret (if test v (Z.lor EPHY_MISR1_SPEED EPHY_MISR1_ANC) then reconfigure st r2 else r2)) s.
Proof.
  destruct (phy_read_run 0 EPHY_MISR1 r ltac:(done) ltac:(done)) as (k1 & j1 & r1 & C1 & E1).
  destruct (phy_read_run 0 EPHY_STS r1 ltac:(done) ltac:(done)) as (k2 & j2 & r2 & C2 & E2).
  exists (Nat.max k1 k2), j1, j2, r1, r2. split; [by eapply same_config_trans|]. intros v st fuel s Hf.
  unfold tivaif_process_phy_interrupt, phy_read, PHY_PHYS_ADDR.
  rewrite (bind_run _ _ s (v, r1) s) by (unfold gets; by rewrite E1 by lia). cbn [fst snd].
  rewrite (bind_run _ _ s (st, r2) s) by (unfold gets; by rewrite E2 by lia). done.
Qed.

(** *** Start *)

Lemma phy_read_then reg r : 0 <= reg < 32 -> exists k v r', same_config r r' /\
  forall fuel, (k < fuel)%nat -> EMACPHYRead fuel EMAC0_BASE PHY_PHYS_ADDR reg r = Some (v, r').
Proof. intros Hr. destruct (phy_read_run 0 reg r ltac:(done) Hr) as (k & j & r' & C & E). eauto. Qed.

Lemma start_phy_run r : exists k r', same_config r r' /\ forall fuel, (k < fuel)%nat -> start_phy fuel r = Some r'.
Proof.
  destruct (phy_read_then EPHY_MISR1 r ltac:(done)) as (k1 & v1 & r1 & C1 & E1).
  destruct (phy_read_then EPHY_MISR2 r1 ltac:(done)) as (k2 & v2 & r2 & C2 & E2).
  destruct (phy_read_then EPHY_SCR r2 ltac:(done)) as (k3 & v3 & r3 & C3 & E3).
  destruct (phy_write_run PHY_PHYS_ADDR EPHY_SCR (Z.lor v3 EPHY_SCR_INTS) r3) as (k4 & r4 & C4 & E4).
  destruct (phy_write_run PHY_PHYS_ADDR EPHY_MISR1 EPHY_MISR1_ENABLES r4) as (k5 & r5 & C5 & E5).
  destruct (phy_read_then EPHY_MISR1 r5 ltac:(done)) as (k6 & v6 & r6 & C6 & E6).
  exists (k1 + k2 + k3 + k4 + k5 + k6)%nat, r6. split; [eauto 10 using same_config_trans|].
  intros fuel Hf. unfold start_phy. rewrite E1 by lia. cbn [mbind option_bind]. rewrite E2 by lia. cbn [mbind option_bind].
  rewrite E3 by lia. cbn [mbind option_bind]. rewrite E4 by lia. cbn [mbind option_bind]. rewrite E5 by lia. cbn [mbind option_bind].
  by rewrite E6 by lia.
Qed.

(** The bits of the configuration after [start_mac]: those that it sets. *)
Definition start_bits (o : Z) : Z :=
  if o =? EMAC_O_FRAMEFLTR then filter_opts
  else if o =? EMAC_O_CFG then Z.lor EMAC_CFG_TE EMAC_CFG_RE
  else if o =? EMAC_O_DMAOPMODE then Z.lor EMAC_DMAOPMODE_ST EMAC_DMAOPMODE_SR
  else if o =? EMAC_O_DMAIM then Z.ldiff (with_summary int_sources) EMAC_INT_PHY
  else if o =? EMAC_O_EPHYIM then EMAC_EPHYIM_INT else 0.

Lemma set_bits_kept o v r o' i : o ∈ wmasks.*1 -> kept_bit o' i = true ->
  Z.testbit (HWREG (EMAC0_BASE + o') (set_bits (EMAC0_BASE + o) v r)) i =
  Z.testbit (HWREG (EMAC0_BASE + o') r) i || (o' =? o) && Z.testbit v i.
Proof.
  intros Ho Hk. unfold set_bits. rewrite reg_write by done. destruct (Z.eqb_spec o' o) as [->|]; [by rewrite Z.lor_spec|by rewrite orb_false_r].
Qed.

Lemma int_clear_config f r : same_config r (EMACIntClear EMAC0_BASE f r).
Proof.
  unfold EMACIntClear. cbv zeta. destruct (negb _), (test (with_summary f) EMAC_INT_PHY); unfold set_bits.
  - eapply same_config_trans; apply other_config; conc.
  - apply other_config; conc.
  - apply other_config; conc.
  - done.
Qed.

Lemma kept_register o i : kept_bit o i = true -> o ∈ wmasks.*1.
Proof. intros ([o' m] & Hin & [Eo%Z.eqb_eq _]%andb_true_iff)%existsb_exists. cbn in Eo. subst o'. apply list_elem_of_In in Hin. by apply list_elem_of_fmap; exists (o, m). Qed.

Lemma kept_mask o m i : forallb (fun x => implb (x.1 =? o) (x.2 =? m)) wmasks = true -> kept_bit o i = true -> Z.testbit m i = true.
Proof.
  intros Hm ([o' m'] & Hin & [Eo Ht]%andb_true_iff)%existsb_exists. cbn [fst snd] in *.
  rewrite forallb_forall in Hm. specialize (Hm _ Hin). cbn [fst snd] in Hm. rewrite Eo in Hm. cbn in Hm. by apply Z.eqb_eq in Hm as ->.
Qed.

Lemma start_mac_bits r o i : kept_bit o i = true -> Z.testbit (HWREG (EMAC0_BASE + o) (start_mac r)) i =
  (negb (o =? EMAC_O_FRAMEFLTR) && Z.testbit (HWREG (EMAC0_BASE + o) r) i) || Z.testbit (start_bits o) i.
Proof.
  intros Hk. unfold start_mac. cbv zeta. set (r1 := EMACFrameFilterSet _ _ r).
  unfold IntMasterEnable. rewrite cpsie_keeps by done. unfold IntEnable. cbn [Z.eqb Z.leb Z.compare INT_EMAC0 FAULT_MPU FAULT_BUS FAULT_USAGE FAULT_SYSTICK Pos.compare Pos.compare_cont Pos.eqb].
  change ((56 - 16) / 32) with 1. rewrite irq_write by done. unfold EMACIntEnable.
  change (negb (Z.ldiff (with_summary int_sources) EMAC_INT_PHY =? 0)) with true. change (test (with_summary int_sources) EMAC_INT_PHY) with true.
  cbv zeta iota. unfold EMACRxEnable, EMACTxEnable. rewrite !set_bits_kept by (conc || done). rewrite (int_clear_config _ r1 o i Hk).
  subst r1. unfold EMACFrameFilterSet. rewrite reg_write by (conc || done). unfold start_bits.
  destruct (Z.eqb_spec o EMAC_O_FRAMEFLTR) as [->|]; cbn [negb andb].
  - assert (Z.testbit VALID_FRMFILTER_FLAGS i = true) as Hv.
    { by eapply (kept_mask EMAC_O_FRAMEFLTR VALID_FRMFILTER_FLAGS). }
    rewrite Z.lor_spec, Z.ldiff_spec, Hv, andb_false_r. by rewrite !orb_false_r.
  - destruct (Z.eqb_spec o EMAC_O_CFG) as [->|]; [rewrite Z.lor_spec; cbn; by rewrite !orb_false_r, <-orb_assoc|].
    destruct (Z.eqb_spec o EMAC_O_DMAOPMODE) as [->|]; [rewrite Z.lor_spec; cbn; by rewrite !orb_false_r, <-orb_assoc|].
    destruct (Z.eqb_spec o EMAC_O_DMAIM) as [->|]; [by rewrite !orb_false_r|].
    destruct (Z.eqb_spec o EMAC_O_EPHYIM) as [->|]; [by rewrite !orb_false_r|]. by rewrite Z.bits_0, !orb_false_r.
Qed.

End Regs.

(** ** The handler *)

Section Serve.
Context {A W : Type} {ops : alloc_ops A} {laws : alloc_laws A} {lops : link_ops A W} {llaws : link_laws A W}
  {uops : upper_ops A W} {ulaws : upper_laws A W} {aops : app_ops A W} {alaws : app_laws A W} {tops : tx_ops A W} {tlaws : tx_laws A W}.
Context {S : Type} {hw : emac_hw S} {hlaws : emac_laws S}.
Context (extra : list Z) (R : list block) (n : Z).
Hypothesis extra_few : Z.of_nat (length extra) < 49980.
Implicit Types (s : net A W) (l : tDescriptorList).

(** A step of the stack below which the receive ring is as it was. *)
Lemma rx_sys_stack l s s' : rx_sys extra R n (l, s) -> net_inv s' (attached (pDescriptors l) ++ extra) R ->
  kept (attached (pDescriptors l) ++ extra) s s' -> rx_sys extra R n (l, s') /\ kept extra s s'.
Proof.
  intros Sy I K. assert (kept extra s s') as Ke by (eapply kept_sub; [|exact K]; set_solver).
  split; [|done]. eapply (rx_step_sys extra R n); [exact extra_few|exact Sy|].
  apply step_stack; [done|]. eapply kept_sub; [|exact K]. set_solver.
Qed.

Lemma refs_few l s : rx_sys extra R n (l, s) -> Z.of_nat (length (attached (pDescriptors l) ++ extra)) < 49998.
Proof. intros [[_ Hl _ _ _ _] _ _ _]. pose proof (attached_length (pDescriptors l)). cbn [fst snd] in *. rewrite length_app. lia. Qed.

(** The transmitter gives its packets back, then the receiver's frames are taken. *)
Lemma serve_lists_run ui32Status l s : rx_sys extra R n (l, s) -> exists s2 l' s', serve_lists n ui32Status l s = Some (l', s') /\
  (if test ui32Status EMAC_INT_TRANSMIT then run_transmit s = Some (tt, s2) else s2 = s) /\
  (if test ui32Status rx_ints then exists j, tivaif_receive n l s2 = Some (l', s') /\ rx_done extra R n l s2 j l' s' else l' = l /\ s' = s2) /\
  rx_sys extra R n (l', s') /\ kept extra s s'.
Proof.
  intros Sy.
  assert (exists s2, when (test ui32Status EMAC_INT_TRANSMIT) run_transmit s = Some (tt, s2) /\
    (if test ui32Status EMAC_INT_TRANSMIT then run_transmit s = Some (tt, s2) else s2 = s) /\ rx_sys extra R n (l, s2) /\ kept extra s s2)
    as (s2 & E2 & T2 & S2 & K2).
  { destruct (test ui32Status EMAC_INT_TRANSMIT); [|exists s; split; [done|split; [done|split; [done|apply kept_refl]]]].
    assert (wp run_transmit (fun _ s' => rx_sys extra R n (l, s') /\ kept extra s s') s) as ([] & s2 & E2 & S2 & K2)%wp_run.
    { eapply wp_run_transmit; [apply Sy|]. intros s2 I2 K2. by eapply rx_sys_stack. }
    exists s2. by split. }
  exists s2. unfold serve_lists. rewrite (bind_run _ _ _ _ _ E2).
  change (Z.lor (Z.lor EMAC_INT_RECEIVE EMAC_INT_RX_NO_BUFFER) EMAC_INT_RX_STOPPED) with rx_ints.
  destruct (test ui32Status rx_ints); [|exists l, s2; by split].
  pose proof S2 as [I2 Cl2 Ls2 N2]. cbn [fst snd] in *.
  destruct (receive_run extra R n l s2 I2 extra_few Cl2 Ls2 N2) as (j & l' & s3 & E3 & D). exists l', s3. split; [done|]. split; [done|].
  split; [by exists j|]. split; [eapply rx_sys_kept; [exact S2|apply D|apply D]|]. eapply kept_trans; [exact K2|apply D].
Qed.

Lemma serve_phy_run (r : S) : exists k, forall l s, rx_sys extra R n (l, s) -> exists r' s',
  (forall fuel, (k < fuel)%nat -> tivaif_process_phy_interrupt fuel n r s = Some (r', s')) /\ rx_sys extra R n (l, s') /\ kept extra s s'.
Proof.
  destruct (phy_interrupt_run (A := A) (W := W) n r) as (k & j1 & j2 & r1 & r2 & _ & E). exists k. intros l s Sy.
  pose proof (refs_few _ _ Sy) as Hx. pose proof Sy as [[I _ _ _ _ _] Cl _ [nif En]]. cbn [fst snd] in *. cbv zeta in E.
  match type of E with forall fuel s, _ -> _ = ?m s => cut (wp m (fun _ s' => rx_sys extra R n (l, s') /\ kept extra s s') s) end.
  { intros (r' & s' & E' & H)%wp_run. exists r', s'. split; [|done]. intros fuel Hf. by rewrite E. }
  apply wp_bind, wp_when; intros _; [|apply wp_ret; split; [done|apply kept_refl]].
  destruct (test _ EPHY_STS_LINK).
  - eapply wp_link_up_kept; [exact I|exact Hx|exact Cl|exact En|]. intros s1 I1 K1. by apply wp_ret, rx_sys_stack.
  - eapply wp_link_down_kept; [exact I|exact En|]. intros s1 I1 K1. by apply wp_ret, rx_sys_stack.
Qed.

End Serve.

(** *** Start *)

Section Init.
Context {A W : Type} {ops : alloc_ops A} {laws : alloc_laws A} {lops : link_ops A W} {llaws : link_laws A W}
  {uops : upper_ops A W} {ulaws : upper_laws A W} {aops : app_ops A W} {alaws : app_laws A W}.
Context {S : Type} {hw : emac_hw S} {hlaws : emac_laws S}.

(** A change of the interface that leaves its clients. *)
Lemma set_netif_run extra R n nif f (s : net A W) : net_inv s extra R -> clients_ok s -> listed s -> netifs s !! n = Some nif ->
  length (hwaddr (f nif)) = 6%nat -> n_autoip (f nif) = n_autoip nif -> dhcp (f nif) = dhcp nif ->
  exists s', set_the_netif n f s = Some (tt, s') /\ net_inv s' extra R /\ clients_ok s' /\ listed s' /\ ps s' = ps s /\
    netifs s' !! n = Some (f nif).
Proof.
  intros I [C1 C2 C3 C4] [L1 L2 L3] En Hh Ha Hd. eexists. split; [reflexivity|].
  cbn [netifs with_netifs]. rewrite (alter_some _ _ _ nif) by done.
  assert (forall m x, <[n := f nif]> (netifs s) !! m = Some x -> exists y, netifs s !! m = Some y /\ n_autoip x = n_autoip y /\ dhcp x = dhcp y) as Hb.
  { intros m x. destruct (decide (m = n)) as [->|]; [rewrite lookup_insert_eq|rewrite lookup_insert_ne by done; eauto].
    intros Ex%Some_inj. subst x. eauto. }
  assert (forall m, is_Some (netifs s !! m) -> is_Some (<[n := f nif]> (netifs s) !! m)) as Hf.
  { intros m Hm. destruct (decide (m = n)) as [->|]; [rewrite lookup_insert_eq; by eexists|by rewrite lookup_insert_ne]. }
  split; [|split; [|split; [|split; [done|by rewrite lookup_insert_eq]]]].
  - destruct I. split; try done. cbn [netifs with_netifs]. by apply map_Forall_insert_2.
  - split; cbn [netifs with_netifs netif_list autoips]; [done|auto| |].
    + intros m x Ex Hz. destruct (Hb m x Ex) as (y & Ey & E1 & _). rewrite E1 in *. by eapply C3.
    + intros m m' x x' Ex Ex' E Hz. destruct (Hb m x Ex) as (y & Ey & E1 & _), (Hb m' x' Ex') as (y' & Ey' & E2 & _).
      eapply (C4 m m' y y'); congruence.
  - split; cbn [netifs with_netifs netif_list netif_default ips]; [|auto|].
    + intros m Hm. destruct (L1 m Hm). auto.
    + intros m x Ex Hz. destruct (Hb m x Ex) as (y & Ey & _ & E2). rewrite E2 in *. by eapply L3.
Qed.

Lemma start_hw_run (r : S) : exists k r', (forall o i, kept_bit o i = true -> Z.testbit (HWREG (EMAC0_BASE + o) r') i =
    (negb (o =? EMAC_O_FRAMEFLTR) && Z.testbit (HWREG (EMAC0_BASE + o) r) i) || Z.testbit (start_bits o) i) /\
  forall fuel, (k < fuel)%nat -> start_hw fuel r = Some r'.
Proof.
  destruct (start_phy_run r) as (k1 & r1 & C1 & E1).
  destruct (phy_write_run PHY_PHYS_ADDR EPHY_BMCR EPHY_BMCR_RESTART (start_mac r1)) as (k2 & r2 & C2 & E2).
  exists (Nat.max k1 k2), r2. split.
  - intros o i Hk. rewrite (C2 o i Hk), start_mac_bits by done. by rewrite (C1 o i Hk).
  - intros fuel Hf. unfold start_hw. rewrite E1 by lia. cbn [mbind option_bind]. by apply E2; lia.
Qed.

Lemma init_dma_run extra R n rx tx w (r : S) (s : net A W) : net_inv s extra R -> clients_ok s -> listed s -> is_Some (netifs s !! n) ->
  0 <= ui32Read (pRxDescList w) < 8 ->
  exists w' r' m, init_dma rx tx w r s = Some ((w', r'), with_ps m s) /\ rx_sys extra R n (pRxDescList w', with_ps m s) /\
    same_packets (ps s) m extra /\
    forall o i, kept_bit o i = true -> Z.testbit (HWREG (EMAC0_BASE + o) r') i =
      if o =? EMAC_O_TXDLADDR then Z.testbit tx i else if o =? EMAC_O_RXDLADDR then Z.testbit rx i else Z.testbit (HWREG (EMAC0_BASE + o) r) i.
Proof.
  intros I Cl Ls Nn Hr. destruct (rx_start extra R n s w I Cl Ls Nn Hr) as (m & w' & E & Sy & P & _).
  do 3 eexists. split; [unfold init_dma; rewrite E; reflexivity|]. split; [exact Sy|]. split; [exact P|].
  intros o i Hk. unfold EMACTxDMADescriptorListSet, EMACRxDMADescriptorListSet. by rewrite !reg_write by (conc || done).
Qed.

End Init.

(** ** Theorems *)

Section Theorems.
Context {A W : Type} {ops : alloc_ops A} {laws : alloc_laws A} {lops : link_ops A W} {llaws : link_laws A W}
  {uops : upper_ops A W} {ulaws : upper_laws A W} {aops : app_ops A W} {alaws : app_laws A W} {tops : tx_ops A W} {tlaws : tx_laws A W}.
Context {S : Type} {hw : emac_hw S} {hlaws : emac_laws S}.

(** An interrupt of the PHY: the state of the link is told to the stack when
    it has changed, and when the speed has changed or the negotiation is complete,
    and only then, the MAC is set to the speed and the duplex mode of the PHY; the
    rest of the configuration stays.  A change of the duplex mode alone, although
    its interrupt is enabled, changes nothing. *)
Theorem tivaif_process_phy_interrupt_correct n (r : S) c m z : config r = (c, m, z) -> 1522 < z ->
  exists k v st r', (exists r1 r2, v = phy_reg 0 EPHY_MISR1 r1 /\ st = phy_reg 0 EPHY_STS r2) /\
    (forall fuel (s : net A W), (k < fuel)%nat -> tivaif_process_phy_interrupt fuel n r s =
      (when (test v EPHY_MISR1_LINKSTAT) (if test st EPHY_STS_LINK then netif_set_link_up n else netif_set_link_down n) ;; ret r') s) /\
    exists c', config r' = (c', m, z) /\ forall i, 0 <= i -> Z.testbit c' i =
      if test v (Z.lor EPHY_MISR1_SPEED EPHY_MISR1_ANC) then
        if i =? 14 then negb (Z.testbit st 1) else if i =? 11 then Z.testbit st 2 else Z.testbit c i
      else Z.testbit c i.
Proof.
  intros Ec Hz. destruct (phy_interrupt_run (A := A) (W := W) n r) as (k & j1 & j2 & r1 & r2 & C & E).
  set (v := phy_reg 0 EPHY_MISR1 _) in *. set (st := phy_reg 0 EPHY_STS _) in *. cbv zeta in E.
  exists k, v, st. eexists. split; [by do 2 eexists|]. split; [exact E|].
  assert (config r2 = (c, m, z)) as Ec2 by (by rewrite (config_same _ _ C)).
  destruct (test v (Z.lor EPHY_MISR1_SPEED EPHY_MISR1_ANC)).
  - exists (reconfigured st c). split; [by apply config_reconfigure|]. intros i Hi. by apply reconfigured_bits.
  - by exists c.
Qed.

Lemma interrupt_run extra R n ui32Status (x : mac S) (s : net A W) :
  rx_sys extra R n (m_rx x, s) -> Z.of_nat (length extra) < 49980 ->
  exists k r1 s1 s2 l s', (forall fuel, (k < fuel)%nat ->
    tivaif_interrupt fuel n ui32Status x s = Some (mk_mac r1 l
      (if test ui32Status EMAC_INT_NORMAL_INT then u32 (g_ui32NormalInts x + 1) else g_ui32NormalInts x)
      (if test ui32Status EMAC_INT_ABNORMAL_INT then u32 (g_ui32AbnormalInts x + 1) else g_ui32AbnormalInts x), s')) /\
    (if test ui32Status EMAC_INT_PHY
     then forall fuel, (k < fuel)%nat -> tivaif_process_phy_interrupt fuel n (m_regs x) s = Some (r1, s1)
     else r1 = m_regs x /\ s1 = s) /\
    (if test ui32Status EMAC_INT_TRANSMIT then run_transmit s1 = Some (tt, s2) else s2 = s1) /\
    (if test ui32Status rx_ints
     then exists j, tivaif_receive n (m_rx x) s2 = Some (l, s') /\ rx_done extra R n (m_rx x) s2 j l s'
     else l = m_rx x /\ s' = s2) /\
    rx_sys extra R n (l, s') /\ kept extra s s'.
Proof.
  intros Sy Hx. destruct (serve_phy_run extra R n Hx (m_regs x)) as (k & Hphy). exists k.
  assert (exists r1 s1, (forall fuel, (k < fuel)%nat ->
      (if test ui32Status EMAC_INT_PHY then tivaif_process_phy_interrupt fuel n (m_regs x) else ret (m_regs x)) s = Some (r1, s1)) /\
    (if test ui32Status EMAC_INT_PHY then forall fuel, (k < fuel)%nat -> tivaif_process_phy_interrupt fuel n (m_regs x) s = Some (r1, s1)
     else r1 = m_regs x /\ s1 = s) /\ rx_sys extra R n (m_rx x, s1) /\ kept extra s s1) as (r1 & s1 & E1 & P1 & S1 & K1).
  { destruct (test ui32Status EMAC_INT_PHY).
    - destruct (Hphy (m_rx x) s Sy) as (r1 & s1 & E1 & S1 & K1). by exists r1, s1.
    - exists (m_regs x), s. split; [done|]. split; [done|]. split; [done|apply kept_refl]. }
  destruct (serve_lists_run extra R n Hx ui32Status (m_rx x) s1 S1) as (s2 & l & s' & E2 & T & Rx & S2 & K2).
  exists r1, s1, s2, l, s'. split; [|do 4 (split; [done|]); by eapply kept_trans].
  intros fuel Hf. unfold tivaif_interrupt. cbv zeta. by rewrite (bind_run _ _ _ _ _ (E1 fuel Hf)), (bind_run _ _ _ _ _ E2).
Qed.

(** C24: An Ethernet interrupt is served, under the conditions of [rx_sys] on the
    frames in the ring: it returns.  The interrupt of the PHY runs
    [tivaif_process_phy_interrupt], then that of the transmitter gives back what was
    sent, then those of the receiver run [tivaif_receive], which does with the frames
    what [rx_done] says; without its bits each part leaves the state alone.  The
    interrupts are counted, the stack and the ring of receive descriptors are as they
    should be, and nobody else's packets have changed. *)
Theorem tivaif_interrupt_correct extra R n ui32Status (x : mac S) (s : net A W) :
  rx_sys extra R n (m_rx x, s) -> Z.of_nat (length extra) < 49980 ->
  exists k r1 s1 s2 l s', (forall fuel, (k < fuel)%nat ->
    tivaif_interrupt fuel n ui32Status x s = Some (mk_mac r1 l
      (if test ui32Status EMAC_INT_NORMAL_INT then u32 (g_ui32NormalInts x + 1) else g_ui32NormalInts x)
      (if test ui32Status EMAC_INT_ABNORMAL_INT then u32 (g_ui32AbnormalInts x + 1) else g_ui32AbnormalInts x), s')) /\
    (if test ui32Status EMAC_INT_PHY
     then forall fuel, (k < fuel)%nat -> tivaif_process_phy_interrupt fuel n (m_regs x) s = Some (r1, s1)
     else r1 = m_regs x /\ s1 = s) /\
    (if test ui32Status EMAC_INT_TRANSMIT then run_transmit s1 = Some (tt, s2) else s2 = s1) /\
    (if test ui32Status rx_ints
     then exists j, tivaif_receive n (m_rx x) s2 = Some (l, s') /\ rx_done extra R n (m_rx x) s2 j l s'
     else l = m_rx x /\ s' = s2) /\
    rx_sys extra R n (l, s') /\ kept extra s s'.
Proof. apply interrupt_run. Qed.

(** C25: [tivaif_init] returns: the interface gets the MAC address, the MTU and the
    flags, the receive ring is ready with the stack as it should be, the addresses
    of the lists are given to the hardware, the filter, the transmitter, the
    receiver and the interrupts are set, and the other bits of the configuration
    are as they were. *)
Theorem tivaif_init_correct extra R n nif rx tx w (r : S) (s : net A W) :
  net_inv s extra R -> clients_ok s -> listed s -> netifs s !! n = Some nif -> 0 <= ui32Read (pRxDescList w) < 8 ->
  exists k, forall fuel, (k < fuel)%nat -> exists w' r' s', tivaif_init fuel rx tx n w r s = Some ((ERR_OK, w', r'), s') /\
    rx_sys extra R n (pRxDescList w', s') /\ same_packets (ps s) (ps s') extra /\
    (exists nif', netifs s' !! n = Some nif' /\ hwaddr nif' = EMACAddrGet EMAC0_BASE 0 r /\ mtu nif' = 1500 /\
      name nif' = (116, 105) /\ ip_addr nif' = ip_addr nif /\ has_flag NETIF_FLAG_LINK_UP nif' = true) /\
    forall o i, kept_bit o i = true -> Z.testbit (HWREG (EMAC0_BASE + o) r') i =
      if o =? EMAC_O_RXDLADDR then Z.testbit rx i else if o =? EMAC_O_TXDLADDR then Z.testbit tx i else
      (negb (o =? EMAC_O_FRAMEFLTR) && Z.testbit (HWREG (EMAC0_BASE + o) r) i) || Z.testbit (start_bits o) i.
Proof.
  intros I Cl Ls En Hr.
  destruct (set_netif_run extra R n nif (set_name (116, 105)) s I Cl Ls En (ni_hw _ _ _ I n nif En) eq_refl eq_refl)
    as (s1 & E1 & I1 & Cl1 & Ls1 & P1 & N1).
  destruct (set_netif_run extra R n _ (set_hw (EMACAddrGet EMAC0_BASE 0 r)) s1 I1 Cl1 Ls1 N1 eq_refl eq_refl eq_refl)
    as (s2 & E2 & I2 & Cl2 & Ls2 & P2 & N2).
  destruct (init_dma_run extra R n rx tx w r s2 I2 Cl2 Ls2 (mk_is_Some _ _ N2) Hr) as (w' & r1 & m & E3 & Sy & Pm & B1).
  destruct (start_hw_run r1) as (k & r' & B2 & E4). exists k. intros fuel Hf.
  exists w', r', (with_ps m s2). split; [|split; [exact Sy|split; [by rewrite <-P1, <-P2|split]]].
  - unfold tivaif_init, tivaif_hwinit. rewrite (bind_run _ _ s _ _ E1). rewrite bind_bind, (bind_run _ _ s1 _ _ E2).
    rewrite bind_bind, (bind_run _ _ s2 _ _ E3). rewrite bind_bind. unfold gets at 1.
    rewrite (bind_run _ _ (with_ps m s2) r' (with_ps m s2)) by (by rewrite E4). done.
  - eexists. split; [exact N2|]. done.
  - intros o i Hk. rewrite B2, B1 by done. destruct (Z.eqb_spec o EMAC_O_RXDLADDR) as [->|];
      [change (start_bits EMAC_O_RXDLADDR) with 0; by rewrite Z.bits_0, orb_false_r|].
    destruct (Z.eqb_spec o EMAC_O_TXDLADDR) as [->|];
      [change (start_bits EMAC_O_TXDLADDR) with 0; by rewrite Z.bits_0, orb_false_r|done].
Qed.

End Theorems.

(** ** A driver that has sent everything

    [wire] keeps no packets. *)

#[export] Instance wire_tx {A} : tx_ops A wire := { process_transmit s w := Some (s, w) }.
#[export] Instance wire_tx_laws {A} {ops : alloc_ops A} {laws : alloc_laws A} : tx_laws A wire.
Proof. split. intros s w refs R I L. do 2 eexists. split; [reflexivity|]. split; [done|]. split; [done|]. split; [|done]. intros a b E. by exists b. Qed.

Lemma board0_config : config board0 = (0, 0, 2048).
Proof. vm_compute. reflexivity. Qed.

Lemma tivaif_process_phy_interrupt_correct_witness : exists k v st r', forall fuel, (k < fuel)%nat ->
  tivaif_process_phy_interrupt fuel 0x100 board0 net_mac =
  (when (test v EPHY_MISR1_LINKSTAT) (if test st EPHY_STS_LINK then netif_set_link_up 0x100 else netif_set_link_down 0x100) ;; ret r') net_mac.
Proof.
  destruct (tivaif_process_phy_interrupt_correct (A := lwip_mem) (W := wire) 0x100 board0 0 0 2048 board0_config ltac:(done))
    as (k & v & st & r' & _ & E & _).
  exists k, v, st, r'. intros fuel Hf. exact (E fuel net_mac Hf).
Defined.

(** The interrupt of the receiver, with the ping in the first buffer. *)
Definition mac_ping : mac board := mk_mac board0 ring1 0xFFFFFFFF 0.

Lemma tivaif_interrupt_correct_witness : exists k l s' j, (forall fuel, (k < fuel)%nat ->
    tivaif_interrupt fuel 0x100 (Z.lor EMAC_INT_RECEIVE EMAC_INT_NORMAL_INT) mac_ping net_mac1 = Some (mk_mac board0 l 0 0, s')) /\
  rx_done [] [] 0x100 ring1 net_mac1 j l s'.
Proof.
  destruct (tivaif_interrupt_correct [] [] 0x100 (Z.lor EMAC_INT_RECEIVE EMAC_INT_NORMAL_INT) mac_ping net_mac1 net_mac1_sys ltac:(reflexivity))
    as (k & r1 & s1 & s2 & l & s' & E & [Er Es] & T & (j & _ & D) & _).
  exists k, l, s', j. change (s2 = s1) in T. subst s2 s1 r1. exact (conj E D).
Defined.

Lemma tivaif_init_correct_witness : exists k, forall fuel, (k < fuel)%nat -> exists w' r' s',
  tivaif_init fuel 0x20001000 0x20002000 0x100 mac0 board0 net0 = Some ((ERR_OK, w', r'), s') /\
  rx_sys [] [] 0x100 (pRxDescList w', s') /\ Z.testbit (HWREG (EMAC0_BASE + EMAC_O_CFG) r') 3 = true.
Proof.
  destruct net0_up as (C & L & _).
  destruct (tivaif_init_correct [] [] 0x100 demo_netif 0x20001000 0x20002000 mac0 board0 net0 net0_inv C L eq_refl ltac:(done)) as (k & H).
  exists k. intros fuel Hf. destruct (H fuel Hf) as (w' & r' & s' & E & Sy & _ & _ & B).
  exists w', r', s'. split; [exact E|]. split; [exact Sy|]. exact (B EMAC_O_CFG 3 eq_refl).
Defined.

End MacIntr.
