(* ===== verification/MacLink.v ===== *)
(** * The driver below the stack

    [station] is the real transmit list ([Tivaif]) below the stack, with the TCP
    connections of [Wire] above it: [linkoutput] is [tivaif_transmit] and
    [process_transmit] is [tivaif_process_transmit].  [link_laws] and [tx_laws] are
    proved for it, so everything that is shown of the stack over the interfaces
    holds over the ring.

    [linkoutput] is [tivaif_transmit] for every packet, those that it copies because
    the DMA does not reach them included.  [tivaif_transmit] can lose the reference it
    takes ([Tivaif.lost_by], [Tivaif.tivaif_transmit_leaks]); [st_lost] are the
    references lost so far.  References are counted in 16 bits: a packet that loses
    2^16 of them is freed while it is in use.  The model is that of the driver until
    [LOST_MAX] are lost; from then on it sends nothing.

    [run_step] is the whole system at work: the hardware fills receive descriptors
    and is done with transmit descriptors, the driver is interrupted and the
    stack sends. *)
From S2P Require Import Prelude Alloc Pbuf Refs Net Etharp Wire ArpCache Netif Autoip Packet IpOut Icmp Raw Ip EthInput MacInput Emac MacIntr.
From S2P Require Tivaif.
Import Alloc Pbuf Refs Net Etharp Wire ArpCache Netif Autoip Packet IpOut Icmp Raw Ip EthInput MacInput Emac MacIntr.
Import Tivaif.Tivaif(tivaif, tDescriptor, tDescriptorList, pDescriptors, pTxDescList, pRxDescList, ui32Read, ui32Write, pBuf, mk_list, view, ring, attached,
  inc_memerr, lost_by, with_tx, hw_done, tivaif_transmit, tivaif_process_transmit).

Module MacLink.
Local Open Scope net_scope.

Record station := mk_station { st_mac : tivaif; st_tcp : wire; st_lost : list Z }.

Definition LOST_MAX : nat := 1000.

#[export] Instance station_ops {A} {ops : alloc_ops A} : link_ops A station := {
  linkoutput n p s w :=
    if (length (st_lost w) <? LOST_MAX)%nat
    then '(e, s', m) ← tivaif_transmit n p s (st_mac w); Some (e, s', mk_station m (st_tcp w) (lost_by p s (st_mac w) ++ st_lost w))
    else Some (ERR_MEM, s, mk_station (inc_memerr (st_mac w)) (st_tcp w) (st_lost w)) }.

#[export] Instance station_tx {A} {ops : alloc_ops A} : tx_ops A station := {
  process_transmit s w := '(s, m) ← tivaif_process_transmit s (st_mac w); Some (s, mk_station m (st_tcp w) (st_lost w)) }.

(** The packets in the transmit list. *)
Definition in_ring (l : tDescriptorList) : list Z := Tivaif.Tivaif.held (filter (fun d => pBuf d ≠ 0) (view l)).

Lemma in_ring_held l q free : ring l q free -> in_ring l = Tivaif.Tivaif.held q.
Proof.
  intros [_ _ _ Hv Hb Hi]. unfold in_ring. rewrite Hv, filter_app. f_equal.
  rewrite (filter_all _ q) by done. replace (filter _ free) with (@nil tDescriptor); [by rewrite app_nil_r|].
  clear Hv. induction Hi as [|d free Hd _ IH]; [done|]. rewrite filter_cons_False; [exact IH|]. intros H. by apply H.
Qed.

Lemma in_ring_length l : length (pDescriptors l) = 24%nat -> (length (in_ring l) <= 24)%nat.
Proof.
  intros Hl. unfold in_ring. etrans; [apply Tivaif.Tivaif.held_length|]. etrans; [apply length_filter|].
  by rewrite Tivaif.Tivaif.view_length, Hl.
Qed.

(** A driver that changes nothing. *)
Lemma no_new_refs_same {A} p (s : pstate A) refs : no_new_refs p s s refs.
Proof. intros a l l' _ Hc Hc'. rewrite (chain_det _ _ _ _ Hc' Hc). by apply Forall_Forall2_diag, Forall_forall. Qed.

Lemma lost_by_length {A} {ops : alloc_ops A} p (s : pstate A) w : (length (lost_by p s w) <= 1)%nat.
Proof. unfold lost_by. repeat (case_match; cbn [length]; try lia). Qed.

Section Laws.
Context {A : Type} {ops : alloc_ops A} {laws : alloc_laws A}.
Implicit Types s : pstate A.

#[export, refine] Instance station_laws : link_laws A station := {
  drv w := in_ring (pTxDescList (st_mac w)) ++ st_lost w;
  held _ := [];
  link_ok w := (exists q free, ring (pTxDescList (st_mac w)) q free) /\ (length (st_lost w) <= LOST_MAX)%nat /\
    NoDup (w_active (st_tcp w)).*1 /\ 0 ∉ (w_active (st_tcp w)).*1 }.
Proof.
  - intros w [(q & free & [Hl _ _ _ _ _]) [Hx _]]. pose proof (in_ring_length _ Hl). rewrite length_app. unfold LOST_MAX in Hx. lia.
  - intros n p s w refs R I [(q & free & Rg) [Hx Ht]] Hp Hb. rewrite (in_ring_held _ _ _ Rg), app_nil_r in I. cbn [linkoutput station_ops].
    destruct (Nat.ltb_spec (length (st_lost w)) LOST_MAX) as [Hlt|Hge].
    2: { do 3 eexists. split; [reflexivity|]. cbn [st_mac st_tcp st_lost inc_memerr pTxDescList]. rewrite (in_ring_held _ _ _ Rg), app_nil_r.
         split; [by split; [do 2 eexists|]|]. split; [exact I|]. split; [apply same_data_refl|by apply no_new_refs_same]. }
    assert (refs ++ Tivaif.Tivaif.held q ++ st_lost w ≡ₚ (refs ++ st_lost w) ++ Tivaif.Tivaif.held q) as Hp1
      by (rewrite <-app_assoc; by rewrite (Permutation_app_comm (Tivaif.Tivaif.held q))).
    rewrite Hp1 in I.
    destruct (Tivaif.Tivaif.transmit_any n s (st_mac w) (refs ++ st_lost w) R p q free I Rg) as (e & s' & m & q' & free' & E & Rg' & [D N] & I');
      [set_solver|rewrite length_app; unfold LOST_MAX in Hlt; lia|].
    rewrite E. cbn [mbind option_bind]. do 3 eexists. split; [reflexivity|]. cbn [st_mac st_tcp st_lost].
    rewrite (in_ring_held _ _ _ Rg'), app_nil_r. split; [|split; [|split]].
    + split; [by do 2 eexists|]. split; [|done]. cbn [st_lost]. rewrite length_app. pose proof (lost_by_length p s (st_mac w)). lia.
    + rewrite <-app_assoc in I'. rewrite (Permutation_app_comm (st_lost w)), <-app_assoc in I'. exact I'.
    + intros a l Ha. apply D. set_solver.
    + intros a l l' Ha. apply N. set_solver.
Defined.

#[export] Instance station_tx_laws : tx_laws A station.
Proof.
  split. intros s w refs R I [(q & free & Rg) Ht]. cbn [drv held station_laws] in *. rewrite (in_ring_held _ _ _ Rg), app_nil_r in I.
  assert (refs ++ Tivaif.Tivaif.held q ++ st_lost w ≡ₚ (refs ++ st_lost w) ++ Tivaif.Tivaif.held q) as Hp1
    by (rewrite <-app_assoc; by rewrite (Permutation_app_comm (Tivaif.Tivaif.held q))).
  rewrite Hp1 in I. destruct (Tivaif.Tivaif.process_run s (st_mac w) q free _ R I Rg) as (s' & m & E & Rg' & I' & Y & Sh).
  cbn [process_transmit station_tx]. rewrite E. cbn [mbind option_bind]. do 2 eexists. split; [reflexivity|].
  cbn [link_ok drv held st_mac st_tcp st_lost]. rewrite (in_ring_held _ _ _ Rg'), app_nil_r. split; [by split; [do 2 eexists|]|].
  split; [|done]. rewrite <-app_assoc in I'. by rewrite (Permutation_app_comm (st_lost w)) in I'.
Qed.

End Laws.

(** ** The system above

    As that of [Wire]: TCP drops the connections it aborts and frees what it gets,
    there is no DHCP client. *)

Definition with_tcp (f : wire -> wire) (w : station) : station := mk_station (st_mac w) (f (st_tcp w)) (st_lost w).

#[export] Instance station_upper {A} {ops : alloc_ops A} : upper_ops A station := {
  status_cb _ _ := ret tt;
  tcp_active w := w_active (st_tcp w);
  tcp_listen w := w_listen (st_tcp w);
  set_tcp_listen l := with_tcp (fun w => mk_wire (frames w) (w_active w) l);
  tcp_abort pcb := modify (fun s =>
    with_world (with_tcp (fun w => mk_wire (frames w) (filter (fun x => x.1 ≠ pcb) (w_active w)) (w_listen w)) (world s)) s);
  dhcp_network_changed _ := ret tt;
  dhcp_arp_reply _ _ := ret tt }.

#[export] Instance station_upper_laws {A} {ops : alloc_ops A} {laws : alloc_laws A} : upper_laws A station.
Proof.
  split.
  - intros. apply wp_ret. split; [done|apply calm_refl].
  - intros w L. apply L.
  - done.
  - intros pcb s extra R I Hx Hin. apply wp_modify. split; [|split; [|done]].
    + destruct I as [? [Rg [Lm [Nd Nz]]]]. split; try done. cbn [world with_world]. split; [exact Rg|]. split; [exact Lm|]. cbn [st_tcp with_tcp w_active]. split.
      * eapply sublist_NoDup; [exact Nd|]. apply fmap_sublist, sublist_filter.
      * intros Hz. apply Nz. apply list_elem_of_fmap in Hz as (x & -> & Hx'). apply list_elem_of_filter in Hx' as [_ Hx'].
        by apply list_elem_of_fmap_2.
    + split; try done. apply same_packets_refl.
  - intros n s extra R I _ _. apply wp_ret. split; [done|]. apply frame_keeps, frame_refl.
  - intros n ip s extra R I _ _. apply wp_ret. split; [done|]. apply frame_keeps, frame_refl.
Qed.

#[export] Instance station_app {A} {ops : alloc_ops A} : app_ops A station := {
  raw_recv_fn _ _ _ _ _ := ret 0;
  udp_recv_fn _ _ _ p _ _ := drop_packet p;
  tcp_input p _ := drop_packet p }.

#[export] Instance station_app_laws {A} {ops : alloc_ops A} {laws : alloc_laws A} : app_laws A station.
Proof.
  split.
  - intros fn arg pcb p addr b l s extra R H _. apply wp_ret. cbn [Z.eqb].
    split; [apply keeps_refl|]. split; [by split|]. split; [done|]. split; [done|]. split; [done|]. split; [apply same_packets_refl|done].
  - intros fn arg pcb p addr port b l s extra R H _. eapply wp_pk_drop; [exact H|]. intros s' I' F' _. by apply taken_frame.
  - intros p inp b l s extra R [H _ _ _ _] _ _ _. eapply wp_pk_drop; [exact H|]. intros s' I' F' _. by apply taken_frame.
Qed.

(** ** The driver at work *)

Section Run.
Context {A S : Type} {ops : alloc_ops A} {laws : alloc_laws A} {hw : emac_hw S} {hlaws : emac_laws S}.
Context (extra : list Z) (R : list block) (n : Z).
Implicit Types (x : mac S) (s : net A station).

(** The hardware is done with a transmit descriptor, the receiver or the stack
    goes on ([rx_step]), a packet of the user is sent, or the driver is interrupted
    and has returned. *)
Inductive run_step : mac S * net A station -> mac S * net A station -> Prop :=
  | run_sent x s l : hw_done (pTxDescList (st_mac (world s))) l ->
      run_step (x, s) (x, with_world (mk_station (with_tx l (st_mac (world s))) (st_tcp (world s)) (st_lost (world s))) s)
  | run_rx x s l s' : rx_step extra R n (m_rx x, s) (l, s') ->
      run_step (x, s) (mk_mac (m_regs x) l (g_ui32NormalInts x) (g_ui32AbnormalInts x), s')
  | run_send x s p e s' : p ∈ extra -> link_output n p s = Some (e, s') -> run_step (x, s) (x, s')
  | run_interrupt st x s x' s' : (exists k, forall fuel, (k < fuel)%nat -> tivaif_interrupt fuel n st x s = Some (x', s')) ->
      run_step (x, s) (x', s').

Definition run_inv (y : mac S * net A station) : Prop := rx_sys extra R n (m_rx y.1, y.2).

Lemma sent_inv x s l : run_inv (x, s) -> hw_done (pTxDescList (st_mac (world s))) l ->
  run_inv (x, with_world (mk_station (with_tx l (st_mac (world s))) (st_tcp (world s)) (st_lost (world s))) s).
Proof.
  intros [[I Hl Hr Hs Hf Hw] Cl Ls Nn] Hd. cbn [fst snd] in *. destruct (ni_link _ _ _ I) as [(q & free & Rg) Ht].
  destruct (Tivaif.Tivaif.hw_done_ring _ _ _ _ Rg Hd) as (q' & Rg' & Hq).
  split; cbn [fst snd]; [|by destruct Cl|by destruct Ls|done]. split; [|done|done|done| |done].
  - destruct I. split; try done; cbn [world with_world ps ips arp_table].
    + cbn [drv held station_laws st_mac st_lost with_tx pTxDescList] in *.
      by rewrite (in_ring_held _ _ _ Rg'), Hq, <-(in_ring_held _ _ _ Rg).
    + split; [by do 2 eexists|done].
  - done.
Qed.

(** A packet of the user is not in the receive ring. *)
Lemma send_run x s p : Z.of_nat (length extra) < 49980 -> run_inv (x, s) -> p ∈ extra ->
  exists e s', link_output n p s = Some (e, s') /\ run_inv (x, s').
Proof.
  intros Hx Y Hp. pose proof Y as [[I Hl _ Hs _ _] _ _ _]. cbn [fst snd] in *. pose proof (attached_length (pDescriptors (m_rx x))) as Hal.
  cut (wp (link_output n p) (fun _ s' => run_inv (x, s')) s); [by intros (e & s' & H)%wp_run; exists e, s'|].
  eapply (wp_link s _ (attached (pDescriptors (m_rx x)))); [exact I|set_solver|rewrite length_app; lia|set_solver| |].
  - intros a c Ha Hc Hin. pose proof Ha as [Hz (d & -> & Hd)%list_elem_of_fmap]%list_elem_of_filter.
    rewrite Forall_forall in Hs. destruct (Hs d Hd) as [[? _]|[Eb _]]; [done|].
    assert (c = [(pBuf d, rx_pbuf (pBuf d))]) as -> by (eapply chain_det; [exact Hc|by repeat split]).
    apply list_elem_of_singleton in Hin as ->. apply list_elem_of_split in Ha as (l1 & l2 & El). rewrite El, <-app_assoc in I. cbn [app] in I.
    rewrite <-Permutation_middle in I. destruct (exclusive _ _ _ _ _ (ni_refs _ _ _ I) Eb eq_refl) as (_ & Hn & _). set_solver.
  - intros e s' I' F' _. eapply (rx_step_sys extra R n (m_rx x, s) (m_rx x, s') Hx Y). apply step_stack; [done|by apply kept_frame].
Qed.

Lemma run_step_inv y y' : Z.of_nat (length extra) < 49980 -> run_inv y -> run_step y y' -> run_inv y'.
Proof.
  intros Hx Y St. destruct St as [x s l Hd|x s l s' Hr|x s p e s' Hp E|st x s x' s' [k E]].
  - by apply sent_inv.
  - by eapply (rx_step_sys extra R n _ _ Hx Y).
  - destruct (send_run x s p Hx Y Hp) as (e1 & s1 & E1 & Y1). rewrite E in E1. by injection E1 as -> ->.
  - destruct (interrupt_run extra R n st x s Y Hx) as [k' H].
    destruct H as (r1 & s1 & s2 & l & s3 & E1 & _ & _ & _ & Sy & _). specialize (E (Datatypes.S (Nat.max k k')) ltac:(lia)).
    rewrite E1 in E by lia. by injection E as <- <-.
Qed.

Lemma run_inv_rtc y z : Z.of_nat (length extra) < 49980 -> rtc run_step y z -> run_inv y -> run_inv z.
Proof. intros Hx H. induction H as [|x y z St _ IH]; [done|]. intros Y. apply IH. by eapply run_step_inv. Qed.

(** C3: The driver and the stack at work.  The hardware fills receive descriptors, in
    any order, with frames of any number of buffers, of which those it reports as good
    are in one buffer with an IP header of 5 words or more ([rx_step]); it is done with
    transmit descriptors in turn; the driver is interrupted; the stack works; packets
    of any kind are sent, until [LOST_MAX] references to packets have been lost by
    [tivaif_transmit].  In any order of these the transmit list stays a ring whose
    packets all exist, the receive ring and the stack stay as they should be, and every
    packet of the user can be sent and every interrupt is served. *)
Theorem driver_safe x s : Z.of_nat (length extra) < 49980 -> rx_sys extra R n (m_rx x, s) ->
  forall x' s', rtc run_step (x, s) (x', s') ->
    rx_inv extra R (m_rx x') s' /\
    (exists q free, ring (pTxDescList (st_mac (world s'))) q free /\
      Forall (fun p => is_Some (bufs (ps s') !! p)) (Tivaif.Tivaif.held q)) /\
    (forall p, p ∈ extra -> is_Some (link_output n p s')) /\
    forall st, exists k, forall fuel, (k < fuel)%nat -> is_Some (tivaif_interrupt fuel n st x' s').
Proof.
  intros Hx Y x' s' St. pose proof (run_inv_rtc _ _ Hx St Y) as Y'.
  split; [apply Y'|]. split; [|split].
  - destruct Y' as [[I _ _ _ _ _] _ _ _]. cbn [fst snd] in I. destruct (ni_link _ _ _ I) as [(q & free & Rg) _]. exists q, free.
    split; [done|]. rewrite <-(in_ring_held _ _ _ Rg). pose proof (ri_held _ _ _ (ni_refs _ _ _ I)) as H.
    apply Forall_app in H as [_ H]. by apply Forall_app in H as [H _].
  - intros p Hp. destruct (send_run x' s' p Hx Y' Hp) as (e & s2 & E & _). rewrite E. by eexists.
  - intros st. destruct (interrupt_run extra R n st x' s' Y' Hx) as [k H]. exists k. intros fuel Hf.
    destruct H as (r1 & s1 & s2 & l & s3 & E & _). rewrite E by done. by eexists.
Qed.

End Run.

(** ** The driver as it is started *)

(** The lists that [InitDMADescriptors] makes. *)
Definition tx0 : tDescriptorList := mk_list (Tivaif.Tivaif.tx_desc <$> seqZ 0 24) 0 0.
Example started_lists : (pTxDescList started.2, pRxDescList started.2) = (tx0, ring0).
Proof. vm_compute. reflexivity. Qed.

Lemma tx0_ring : ring tx0 [] (Tivaif.Tivaif.tx_desc <$> seqZ 0 24).
Proof. split; try done. by apply Forall_fmap, Forall_forall. Qed.

Definition station0 : station := mk_station (with_tx tx0 mac0) (world net0) [].

Definition net_run : net lwip_mem station :=
  mk_net (ps net_mac) (arp_table net_mac) (etharp_cached_entry net_mac) (netifs net_mac) (netif_list net_mac) (netif_default net_mac)
    (netif_num net_mac) (autoips net_mac) (ips net_mac) (lwip_stats net_mac) station0.
Definition mac_run : mac board := mk_mac board0 ring0 0 0.

(** The ping arrives and the driver is interrupted. *)
Definition net_ping : net lwip_mem station := with_ps (ps net_mac1) net_run.
Definition mac_got : mac board := mk_mac board0 ring1 0 0.

(** The answer to the ping is in the transmit list after the interrupt. *)
Example ping_answered :
  option_map (fun x => (length (in_ring (pTxDescList (st_mac (world x.2)))), Tivaif.Tivaif.link_memerr (st_mac (world x.2))))
    (tivaif_interrupt 0 0x100 EMAC_INT_RECEIVE mac_got net_ping) = Some (1%nat, 0).
Proof. vm_compute. reflexivity. Qed.

Lemma net_run_sys : rx_sys [] [] 0x100 (m_rx mac_run, net_run).
Proof.
  destruct net_mac_sys as [[I Hl Hr Hs Hf Hw] [] [] Nn]. split; cbn [fst snd m_rx mac_run]; [|by split|by split|done].
  split; [|done|done|done|done|done]. destruct I as [Hrefs [Hnd Hnz] ? ? ? ? ? ? ?]. split; try done; cbn [world net_run].
  exact (conj (ex_intro _ _ (ex_intro _ _ tx0_ring)) (conj (Nat.le_0_l _) (conj Hnd Hnz))).
Qed.

Lemma ping_arrives : run_step [] [] 0x100 (mac_run, net_run) (mac_got, net_ping).
Proof.
  apply (run_rx [] [] 0x100 mac_run net_run ring1 net_ping).
  apply (step_fill [] [] 0x100 ring0 net_run 0 d0 got_ping ping_frame net_ping); try (vm_compute; reflexivity); [done| |].
  - apply Z.leb_le. vm_compute. reflexivity.
  - intros _ _. apply Z.leb_le. vm_compute. reflexivity.
Qed.

Lemma receive_fuel fuel x (s : net lwip_mem station) :
  tivaif_interrupt fuel 0x100 EMAC_INT_RECEIVE (x : mac board) s = tivaif_interrupt 0 0x100 EMAC_INT_RECEIVE x s.
Proof. unfold tivaif_interrupt. change (test EMAC_INT_RECEIVE EMAC_INT_PHY) with false. reflexivity. Qed.

Lemma ping_served : exists x' s', rtc (run_step [] [] 0x100) (mac_run, net_run) (x', s') /\ length (in_ring (pTxDescList (st_mac (world s')))) = 1%nat.
Proof.
  pose proof ping_answered as H.
  destruct (tivaif_interrupt 0 0x100 EMAC_INT_RECEIVE mac_got net_ping) as [[x' s']|] eqn:E; [|discriminate H].
  cbn [option_map snd] in H. injection H as Hl _. exists x', s'. split; [|exact Hl].
  eapply rtc_l; [exact ping_arrives|]. apply rtc_once. apply (run_interrupt _ _ _ EMAC_INT_RECEIVE). exists 0%nat. intros fuel _.
  rewrite receive_fuel. exact E.
Qed.

Lemma driver_safe_witness : exists x' s', rtc (run_step [] [] 0x100) (mac_run, net_run) (x', s') /\
  rx_inv [] [] (m_rx x') s' /\ length (in_ring (pTxDescList (st_mac (world s')))) = 1%nat.
Proof.
  destruct ping_served as (x' & s' & St & Hl). exists x', s'. split; [exact St|].
  destruct (driver_safe [] [] 0x100 mac_run net_run ltac:(done) net_run_sys x' s' St) as (H & _). exact (conj H Hl).
Defined.

End MacLink.
