(* ===== verification/DnsMsg.v ===== *)
(** * Messages of the resolver

    The functions of dns.c that read and write the names of a message:
    [dns_compare_name], [dns_parse_name], the conversion of a host name in
    [dns_send] and the walk over the answers in [dns_recv].

    A message is the list of the bytes of the buffer [dns_payload]; a pointer into
    it is an index, and a read behind the buffer is [None].

    The reference is the encoding of RFC 1035: a name is a list of labels
    ([enc_name]), the owner of a resource record may be compressed ([enc_owner]),
    and [resolve] is the answer that the resolver looks for in a list of records. *)
From S2P Require Import Prelude Chksum Net Etharp IpOut Ip.
Import Net Etharp IpOut Ip.

Module DnsMsg.

Definition DNS_MAX_TTL : Z := 604800.
Definition DNS_RRTYPE_A : Z := 1.
Definition DNS_RRCLASS_IN : Z := 1.

(** ** Operations *)

(** Bits that mark a compressed name. *)
Definition compressed (n : Z) : bool := Z.land n 0xc0 =? 0xc0.

(** The comparison of [n] characters: the new indices, or that they differ. *)
Fixpoint compare_label (n : nat) (name m : list Z) (query response : nat) : option (option (nat * nat)) :=
  match n with
  | O => Some (Some (query, response))
  | S n =>
      a ← name !! query; b ← m !! response;
      if a =? b then compare_label n name m (S query) (S response) else Some None
  end.

Fixpoint compare_loop (fuel : nat) (name m : list Z) (query response : nat) : option Z :=
  match fuel with
  | O => None
  | S fuel =>
      n ← m !! response;
      if compressed n then Some 0
      else
        x ← compare_label (Z.to_nat n) name m query (S response);
        match x with
        | None => Some 1
        | Some (query, response) =>
            c ← m !! response;
            if c =? 0 then Some 0 else compare_loop fuel name m (S query) response
        end
  end.

Definition dns_compare_name (name m : list Z) (response : nat) : option Z :=
  compare_loop (S (length m)) name m 0 response.

Fixpoint parse_loop (fuel : nat) (m : list Z) (query : nat) : option nat :=
  match fuel with
  | O => None
  | S fuel =>
      n ← m !! query;
      if compressed n then Some (S (S query))
      else
        let query := (S query + Z.to_nat n)%nat in
        c ← m !! query;
        if c =? 0 then Some (S query) else parse_loop fuel m query
  end.

Definition dns_parse_name (m : list Z) (query : nat) : option nat := parse_loop (S (length m)) m query.

(** The 16 and 32 bits at an index, as the CPU reads them. *)
Definition get16 (m : list Z) (i : nat) : option Z := a ← m !! i; b ← m !! S i; Some (Chksum.load16 a b).
Definition get32 (m : list Z) (i : nat) : option Z :=
  a ← m !! i; b ← m !! S i; c ← m !! S (S i); d ← m !! S (S (S i)); Some (Chksum.load32 a b c d).

(** The loop over [nanswers] answers: the time to live and the address of the first
    one that has an address. *)
Fixpoint scan_answers (nanswers : nat) (m : list Z) (pHostname : nat) : option (option (Z * Z)) :=
  match nanswers with
  | O => Some None
  | S nanswers =>
      pHostname ← dns_parse_name m pHostname;
      type ← get16 m pHostname; cls ← get16 m (pHostname + 2); ttl ← get32 m (pHostname + 4); len ← get16 m (pHostname + 8);
      if (type =? PP_HTONS DNS_RRTYPE_A) && (cls =? PP_HTONS DNS_RRCLASS_IN) && (len =? PP_HTONS 4) then
        ip ← get32 m (pHostname + 10);
        let ttl := Chksum.lwip_ntohl ttl in
        Some (Some (if DNS_MAX_TTL <? ttl then DNS_MAX_TTL else ttl, ip))
      else scan_answers nanswers m (pHostname + 10 + Z.to_nat (Chksum.lwip_htons len))
  end.

(** The conversion of the host name in [dns_send]: the labels are collected up to the
    next dot or the end, with the number of characters in 8 bits in front. *)
Fixpoint query_loop (pHostname : list Z) (label : list Z) : list Z :=
  match pHostname with
  | [] => u8 (Z.of_nat (length label)) :: label
  | c :: pHostname =>
      if c =? 46 then u8 (Z.of_nat (length label)) :: label ++ query_loop pHostname []
      else query_loop pHostname (label ++ [c])
  end.
Definition query_name (pHostname : list Z) : list Z := query_loop pHostname [] ++ [0].

(** ** Reference *)

Definition label_ok (l : list Z) : Prop :=
  (1 <= length l <= 63)%nat /\ Forall (fun c => 0 < c < 256 /\ c ≠ 46) l.
Definition enc_label (l : list Z) : list Z := Z.of_nat (length l) :: l.
Definition enc_labels (ls : list (list Z)) : list Z := ls ≫= enc_label.
Definition enc_name (ls : list (list Z)) : list Z := enc_labels ls ++ [0].

(** The host name with its dots. *)
Fixpoint text (ls : list (list Z)) : list Z :=
  match ls with [] => [] | [l] => l | l :: ls => l ++ 46 :: text ls end.

(** The owner of a record: a name, or labels and a pointer to more. *)
Inductive owner := Full (l : list Z) (ls : list (list Z)) | Pointer (ls : list (list Z)) (hi lo : Z).
Definition enc_owner (o : owner) : list Z :=
  match o with Full l ls => enc_name (l :: ls) | Pointer ls hi lo => enc_labels ls ++ [hi; lo] end.
Definition owner_ok (o : owner) : Prop :=
  match o with
  | Full l ls => Forall label_ok (l :: ls)
  | Pointer ls hi lo => Forall label_ok ls /\ 192 <= hi < 256
  end.

Record rr := mk_rr { rr_owner : owner; rr_type : Z; rr_cls : Z; rr_ttl : Z; rr_data : list Z }.
Definition be32 (x : Z) : list Z := [x / 16777216; x / 65536 mod 256; x / 256 mod 256; x mod 256].
Definition enc_rr (r : rr) : list Z :=
  enc_owner (rr_owner r) ++ be16 (rr_type r) ++ be16 (rr_cls r) ++ be32 (rr_ttl r) ++ be16 (Z.of_nat (length (rr_data r))) ++ rr_data r.
Definition rr_ok (r : rr) : Prop :=
  owner_ok (rr_owner r) /\ in_u 16 (rr_type r) /\ in_u 16 (rr_cls r) /\ in_u 32 (rr_ttl r) /\ in_u 16 (Z.of_nat (length (rr_data r))).

Definition is_address (r : rr) : bool :=
  (rr_type r =? DNS_RRTYPE_A) && (rr_cls r =? DNS_RRCLASS_IN) && (Z.of_nat (length (rr_data r)) =? 4).
Fixpoint resolve (l : list rr) : option (Z * Z) :=
  match l with
  | [] => None
  | r :: l => if is_address r then Some (Z.min (rr_ttl r) DNS_MAX_TTL, le32 (rr_data r)) else resolve l
  end.

(** A response: it repeats the question. *)
Record message := mk_message {
  m_id : Z; m_flags1 : Z; m_flags2 : Z; m_auth : Z; m_extra : Z;
  m_first : list Z; m_labels : list (list Z); m_qtype : Z; m_qcls : Z; m_answers : list rr; m_rest : list Z }.
Definition m_name (r : message) : list (list Z) := m_first r :: m_labels r.
Definition enc_message (r : message) : list Z :=
  be16 (m_id r) ++ [m_flags1 r; m_flags2 r] ++ be16 1 ++ be16 (Z.of_nat (length (m_answers r))) ++ be16 (m_auth r) ++ be16 (m_extra r) ++
  enc_name (m_name r) ++ be16 (m_qtype r) ++ be16 (m_qcls r) ++ (m_answers r ≫= enc_rr) ++ m_rest r.
Definition message_ok (r : message) : Prop :=
  in_u 16 (m_id r) /\ in_u 16 (Z.of_nat (length (m_answers r))) /\ Forall label_ok (m_name r) /\ Forall rr_ok (m_answers r).

(** The comparison on names: the dots are not looked at, nor what follows. *)
Fixpoint same_name (txt : list Z) (ls : list (list Z)) : bool :=
  match ls with
  | [] => true
  | l :: ls => bool_decide (take (length l) txt = l) && same_name (drop (S (length l)) txt) ls
  end.

(** ** Lists in the message *)

(** The message has [l] at index [i]. *)
Definition at_ (m : list Z) (i : nat) (l : list Z) : Prop := l `prefix_of` drop i m.

Lemma at_app m i l1 l2 : at_ m i (l1 ++ l2) <-> at_ m i l1 /\ at_ m (i + length l1) l2.
Proof.
  unfold at_. rewrite <-drop_drop. split.
  - intros [k E]. split; [exists (l2 ++ k); by rewrite E, app_assoc|]. exists k. by rewrite E, <-app_assoc, drop_app_length.
  - intros [[k E] [k2 E2]]. exists k2. rewrite E in E2 |- *. rewrite drop_app_length in E2. by rewrite E2, app_assoc.
Qed.

Lemma at_cons m i x l : at_ m i (x :: l) <-> m !! i = Some x /\ at_ m (S i) l.
Proof.
  change (x :: l) with ([x] ++ l). rewrite at_app. cbn [length]. replace (i + 1)%nat with (S i) by lia.
  assert (at_ m i [x] <-> m !! i = Some x) as ->; [|done]. unfold at_. split.
  - intros [k E]. rewrite <-(Nat.add_0_r i), <-lookup_drop, E. done.
  - intros E. exists (drop (S i) m). by rewrite (drop_S _ _ _ E).
Qed.

Lemma at_bound m i l : at_ m i l -> l ≠ [] -> (i + length l <= length m)%nat.
Proof.
  intros [k E] Hl. apply (f_equal length) in E. rewrite length_drop, length_app in E. destruct l; [done|]. cbn [length] in *. lia.
Qed.

Lemma get16_at m i a b : at_ m i [a; b] -> get16 m i = Some (Chksum.load16 a b).
Proof. rewrite !at_cons. intros (E1 & E2 & _). unfold get16. by rewrite E1, E2. Qed.

Lemma get16_be m i x : at_ m i (be16 x) -> in_u 16 x -> exists y, get16 m i = Some y /\ Chksum.lwip_htons y = x /\ y = Chksum.lwip_htons x.
Proof.
  intros H Hx. exists (le16 (be16 x)). split; [by apply get16_at|]. pose proof (htons_be16 x Hx) as E. split; [done|].
  rewrite <-E at 2. rewrite !Chksum.htons_swap. unfold le16, be16, Chksum.load16. rewrite !Chksum.swap_div. unfold in_u in Hx.
  Z.div_mod_to_equations. lia.
Qed.

(** ** Names *)

Lemma compressed_all n : 0 <= n < 256 -> (n < 64 -> compressed n = false) /\ (192 <= n -> compressed n = true).
Proof.
  intros Hn. assert (forallb (fun n => implb (n <? 64) (negb (compressed n)) && implb (192 <=? n) (compressed n)) (seqZ 0 256) = true) as H
    by (vm_compute; reflexivity).
  rewrite forallb_forall in H. specialize (H n ltac:(apply list_elem_of_In, elem_of_seqZ; lia)).
  apply andb_true_iff in H as [H1 H2]. split; intros Hl.
  - rewrite (proj2 (Z.ltb_lt n 64)) in H1 by done. by apply negb_true_iff in H1.
  - by rewrite (proj2 (Z.leb_le 192 n)) in H2.
Qed.

Lemma enc_labels_cons l ls : enc_labels (l :: ls) = Z.of_nat (length l) :: l ++ enc_labels ls.
Proof. done. Qed.

(** One label at [i]. *)
Lemma at_label m i l e : label_ok l -> at_ m i (enc_label l ++ e) ->
  m !! i = Some (Z.of_nat (length l)) /\ compressed (Z.of_nat (length l)) = false /\ at_ m (S i) l /\ at_ m (S i + length l) e.
Proof.
  intros [Hl _] H. unfold enc_label in H. cbn [app] in H. apply at_cons in H as [E H]. apply at_app in H as [H1 H2].
  split; [done|]. split; [by apply compressed_all; lia|done].
Qed.

(** Labels are skipped up to the length byte [n] that follows them. *)
Lemma parse_labels m ls n e : forall i fuel, (length ls < fuel)%nat -> Forall label_ok ls -> at_ m i (enc_labels ls ++ n :: e) ->
  (ls ≠ [] -> n ≠ 0) ->
  exists fuel', (fuel - length ls <= fuel')%nat /\ parse_loop fuel m i = parse_loop fuel' m (i + length (enc_labels ls)).
Proof.
  induction ls as [|l ls IH]; intros i fuel Hf F H Hn.
  { exists fuel. cbn [enc_labels length]. split; [cbn; lia|]. by rewrite Nat.add_0_r. }
  apply Forall_cons in F as [Hl F]. destruct fuel as [|fuel]; [lia|]. cbn [length] in Hf.
  change (enc_labels (l :: ls)) with (enc_label l ++ enc_labels ls) in H |- *. rewrite <-app_assoc in H.
  destruct (at_label _ _ _ _ Hl H) as (E & Hc & _ & H2).
  destruct (IH (S i + length l)%nat fuel ltac:(lia) F H2 ltac:(intros _; by apply Hn)) as (fuel' & Hf' & Ep).
  exists fuel'. split; [cbn [length]; lia|]. cbn [parse_loop]. rewrite E. cbn [mbind option_bind]. rewrite Hc, Nat2Z.id.
  assert (exists c, m !! (S i + length l)%nat = Some c /\ c ≠ 0) as (c & Ec & Hz).
  { destruct ls as [|l2 ls].
    - cbn [enc_labels app mbind list_bind] in H2. apply at_cons in H2 as [E2 _]. exists n. split; [done|by apply Hn].
    - apply Forall_cons in F as [Hl2 _]. change (enc_labels (l2 :: ls)) with (enc_label l2 ++ enc_labels ls) in H2. rewrite <-app_assoc in H2.
      destruct (at_label _ _ _ _ Hl2 H2) as (E2 & _). eexists. split; [exact E2|]. destruct Hl2 as [Hl2 _]. lia. }
  rewrite Ec. cbn [mbind option_bind]. rewrite (proj2 (Z.eqb_neq c 0) Hz), Ep. f_equal.
  rewrite length_app. cbn [enc_label length]. lia.
Qed.

Lemma labels_fuel m i ls e : Forall label_ok ls -> at_ m i (enc_labels ls ++ e) -> (length ls <= length m)%nat.
Proof.
  intros F H. assert (length ls <= length (enc_labels ls))%nat as Hl.
  { clear H. induction F as [|l ls _ _ IH]; [done|]. rewrite enc_labels_cons. cbn [length]. rewrite length_app. lia. }
  apply at_app in H as [H _]. destruct (decide (enc_labels ls = [])) as [Hz|Hz]; [rewrite Hz in Hl; cbn in Hl; lia|].
  pose proof (at_bound _ _ _ H Hz). lia.
Qed.

(** *** [dns_parse_name] *)

Lemma parse_name_run m i o : owner_ok o -> at_ m i (enc_owner o) -> dns_parse_name m i = Some (i + length (enc_owner o))%nat.
Proof.
  intros Ho H. unfold dns_parse_name. destruct o as [l ls|ls hi lo]; cbn [owner_ok enc_owner] in *.
  - (* the last label is left *)
    destruct (exists_last (l := l :: ls) ltac:(done)) as (ls' & l' & E). rewrite E in *. clear l ls E.
    apply Forall_app in Ho as [Ho Hl]. apply Forall_cons in Hl as [Hl _].
    assert (enc_name (ls' ++ [l']) = enc_labels ls' ++ enc_label l' ++ [0]) as En.
    { unfold enc_name, enc_labels. rewrite bind_app, <-app_assoc. f_equal. cbn [mbind list_bind]. by rewrite app_nil_r. }
    rewrite En in H |- *. unfold enc_label in H at 1. cbn [app] in H. pose proof (labels_fuel _ _ _ _ Ho H) as Hf.
    destruct (parse_labels m ls' _ _ i (S (length m)) ltac:(lia) Ho H) as (fuel & Hf' & ->); [intros _; destruct Hl as [Hl _]; lia|].
    apply at_app in H as [_ H]. change (Z.of_nat (length l') :: l' ++ [0]) with (enc_label l' ++ [0]) in H.
    destruct (at_label _ _ _ _ Hl H) as (E & Hc & _ & H2). apply at_cons in H2 as [E2 _].
    destruct fuel as [|fuel]; [lia|]. cbn [parse_loop]. rewrite E. cbn [mbind option_bind]. rewrite Hc, Nat2Z.id.
    replace (S (i + length (enc_labels ls') + length l'))%nat with (S (i + length (enc_labels ls')) + length l')%nat by lia.
    rewrite E2. cbn [mbind option_bind]. rewrite Z.eqb_refl. f_equal. rewrite !length_app. cbn [enc_label length]. lia.
  - destruct Ho as [Ho Hhi]. pose proof (labels_fuel _ _ _ _ Ho H) as Hf.
    destruct (parse_labels m ls hi [lo] i (S (length m)) ltac:(lia) Ho H ltac:(intros _; lia)) as (fuel & Hf' & ->).
    apply at_app in H as [_ H]. apply at_cons in H as [E _]. destruct fuel as [|fuel]; [lia|]. cbn [parse_loop]. rewrite E.
    cbn [mbind option_bind]. rewrite (proj2 (compressed_all hi ltac:(lia))) by lia. f_equal. rewrite length_app. cbn [length]. lia.
Qed.

(** *** [dns_compare_name] *)

Lemma compare_label_run name m l : forall q r, at_ m r l -> (q + length l <= length name)%nat ->
  compare_label (length l) name m q r =
    Some (if bool_decide (take (length l) (drop q name) = l) then Some (q + length l, r + length l)%nat else None).
Proof.
  induction l as [|c l IH]; intros q r H Hq; cbn [compare_label length].
  { by rewrite !Nat.add_0_r. }
  apply at_cons in H as [E H]. cbn [length] in Hq. destruct (lookup_lt_is_Some_2 name q ltac:(lia)) as [a Ea].
  rewrite Ea, E. cbn [mbind option_bind]. rewrite (drop_S _ _ _ Ea). cbn [take].
  destruct (Z.eqb_spec a c) as [->|Hne].
  - rewrite IH by (done || lia). f_equal. destruct (decide (take (length l) (drop (S q) name) = l)) as [El|El].
    + rewrite !bool_decide_true by congruence. do 2 f_equal; lia.
    + by rewrite !bool_decide_false by congruence.
  - by rewrite bool_decide_false by congruence.
Qed.

Lemma compare_run name m l ls : forall q r fuel, (length ls < fuel)%nat -> Forall label_ok (l :: ls) -> at_ m r (enc_name (l :: ls)) ->
  (q + length (text (l :: ls)) <= length name)%nat ->
  compare_loop fuel name m q r = Some (if same_name (drop q name) (l :: ls) then 0 else 1).
Proof.
  revert l. induction ls as [|l2 ls IH]; intros l q r fuel Hf F H Hq; apply Forall_cons in F as [Hl F];
    (destruct fuel as [|fuel]; [cbn in Hf; lia|]); unfold enc_name in H; change (enc_labels (l :: _)) with (enc_label l ++ enc_labels []) in H
    || change (enc_labels (l :: l2 :: ls)) with (enc_label l ++ enc_labels (l2 :: ls)) in H; rewrite <-app_assoc in H;
    destruct (at_label _ _ _ _ Hl H) as (E & Hc & H1 & H2); cbn [compare_loop]; rewrite E; cbn [mbind option_bind]; rewrite Hc, Nat2Z.id.
  - cbn [text] in Hq. rewrite compare_label_run by (done || lia). cbn [mbind option_bind same_name]. rewrite andb_true_r.
    cbn [enc_labels mbind list_bind app] in H2. apply at_cons in H2 as [E2 _].
    case_bool_decide; [|done]. rewrite E2. done.
  - cbn [text] in Hq. rewrite length_app in Hq. cbn [length] in Hq. rewrite compare_label_run by (done || (cbn [text]; lia)).
    cbn [mbind option_bind]. change (same_name (drop q name) (l :: l2 :: ls)) with
      (bool_decide (take (length l) (drop q name) = l) && same_name (drop (S (length l)) (drop q name)) (l2 :: ls)).
    case_bool_decide as D; [|done]. cbn [andb]. pose proof F as F'. apply Forall_cons in F' as [Hl2 _].
    pose proof H2 as H3. change (enc_labels (l2 :: ls)) with (enc_label l2 ++ enc_labels ls) in H3. rewrite <-app_assoc in H3.
    destruct (at_label _ _ _ _ Hl2 H3) as (E2 & _). replace (S r + length l)%nat with (S r + length l)%nat by lia. rewrite E2. cbn [mbind option_bind].
    rewrite (proj2 (Z.eqb_neq _ 0)) by (destruct Hl2 as [Hl2 _]; lia).
    rewrite (IH l2 (S (q + length l)) (S r + length l)%nat fuel); [|cbn [length] in Hf; lia|done|exact H2|cbn [text]; lia].
    by rewrite drop_drop, <-Nat.add_succ_r.
Qed.

Lemma same_name_text ls rest : Forall label_ok ls -> same_name (text ls ++ rest) ls = true.
Proof.
  intros F. revert rest. induction F as [|l ls Hl F IH]; intros rest; [done|]. cbn [same_name]. destruct ls as [|l2 ls].
  - cbn [text same_name]. rewrite take_app_length, bool_decide_true by done. done.
  - change (text (l :: l2 :: ls)) with (l ++ 46 :: text (l2 :: ls)). rewrite <-app_assoc. rewrite take_app_length, bool_decide_true by done.
    cbn [andb]. replace (S (length l)) with (length (l ++ [46])) by (rewrite length_app; cbn; lia).
    change (46 :: text (l2 :: ls)) with ([46] ++ text (l2 :: ls)). rewrite <-app_assoc, app_assoc, drop_app_length. apply IH.
Qed.

(** The question is for another name: a label of it does not agree with that of the
    name at its place. *)
Definition differs (q ls : list (list Z)) : Prop :=
  exists k l l', take k q = take k ls /\ q !! k = Some l /\ ls !! k = Some l' /\ ~ l `prefix_of` l'.

Lemma text_cons l ls rest : exists c k, text (l :: ls) ++ 0 :: rest = l ++ c :: k /\ (c = 0 \/ c = 46) /\
  (ls ≠ [] -> k = text ls ++ 0 :: rest).
Proof.
  destruct ls as [|l2 ls].
  - exists 0, rest. by split; [|split; [left|]].
  - exists 46, (text (l2 :: ls) ++ 0 :: rest). split; [|by split; [right|]].
    change (text (l :: l2 :: ls)) with (l ++ 46 :: text (l2 :: ls)). by rewrite <-app_assoc.
Qed.

Lemma same_name_differs ls q rest : Forall label_ok q -> differs q ls -> same_name (text ls ++ 0 :: rest) q = false.
Proof.
  intros F (k & l & l' & Ht & Hq & Hl & Hp). revert q ls F Ht Hq Hl.
  induction k as [|k IH]; intros [|a q] [|a' ls] F Ht Hq Hl; try done; apply Forall_cons in F as [Ha F];
    destruct (text_cons a' ls rest) as (c & k' & E & Hc & Hk); rewrite E; cbn [same_name].
  - injection Hq as ->. injection Hl as ->. rewrite bool_decide_false; [done|]. intros Et.
    destruct (decide (length l <= length l')%nat) as [Hle|Hgt].
    + rewrite take_app_le in Et by done. apply Hp. exists (drop (length l) l'). by rewrite <-Et at 1; rewrite take_drop.
    + rewrite take_app_ge in Et by lia. replace (length l - length l')%nat with (S (length l - length l' - 1)) in Et by lia.
      cbn [take] in Et. destruct Ha as [_ Ha]. rewrite Forall_forall in Ha.
      destruct (Ha c) as [? ?]; [rewrite <-Et; set_solver|]. lia.
  - injection Ht as -> Ht. rewrite take_app_length, bool_decide_true by done. cbn [andb].
    replace (S (length a')) with (length a' + 1)%nat by lia. rewrite <-drop_drop, drop_app_length. cbn [drop].
    rewrite Hk by (by destruct ls). by apply IH.
Qed.

(** *** The answers *)

Lemma htons_inj x y : in_u 16 x -> in_u 16 y -> (Chksum.lwip_htons x =? Chksum.lwip_htons y) = (x =? y).
Proof.
  intros Hx Hy. destruct (Z.eqb_spec x y) as [->|Hne]; [by rewrite Z.eqb_refl|]. apply Z.eqb_neq. intros E. apply Hne.
  rewrite !Chksum.htons_swap, !Chksum.swap_div in E. unfold in_u in *. cint_pow. Z.div_mod_to_equations. lia.
Qed.

Lemma get32_be m i x : at_ m i (be32 x) -> in_u 32 x -> exists y, get32 m i = Some y /\ Chksum.lwip_ntohl y = x.
Proof.
  intros H Hx. unfold be32 in H. rewrite !at_cons in H. destruct H as (E1 & E2 & E3 & E4 & _). unfold get32. rewrite E1, E2, E3, E4.
  cbn [mbind option_bind]. exists (Chksum.lwip_htonl x). split; [|by apply Chksum.htonl_reverse].
  rewrite Chksum.htonl_bytes by done. unfold Chksum.load32. f_equal. lia.
Qed.

Lemma get32_at m i l : at_ m i l -> length l = 4%nat -> get32 m i = Some (le32 l).
Proof.
  intros H Hl. destruct l as [|a [|b [|c [|d [|]]]]]; try discriminate Hl. rewrite !at_cons in H. destruct H as (E1 & E2 & E3 & E4 & _).
  unfold get32. by rewrite E1, E2, E3, E4.
Qed.

Lemma scan_run m l : forall i, Forall rr_ok l -> at_ m i (l ≫= enc_rr) -> scan_answers (length l) m i = Some (resolve l).
Proof.
  induction l as [|r l IH]; intros i F H; [done|]. apply Forall_cons in F as [(Ho & Ht & Hc & Htt & Hd) F].
  change ((r :: l) ≫= enc_rr) with (enc_rr r ++ (l ≫= enc_rr)) in H. unfold enc_rr in H at 1. rewrite <-!app_assoc in H.
  apply at_app in H as [H0 H]. cbn [length scan_answers resolve]. rewrite (parse_name_run m i _ Ho H0). cbn [mbind option_bind].
  set (j := (i + length (enc_owner (rr_owner r)))%nat) in *.
  apply at_app in H as [H1 H]. apply at_app in H as [H2 H]. apply at_app in H as [H3 H]. apply at_app in H as [H4 H]. cbn [be16 be32 length] in *.
  replace (j + 2 + 2)%nat with (j + 4)%nat in * by lia. replace (j + 4 + 4)%nat with (j + 8)%nat in * by lia. replace (j + 8 + 2)%nat with (j + 10)%nat in * by lia.
  destruct (get16_be _ _ _ H1 Ht) as (y1 & -> & _ & ->). destruct (get16_be _ _ _ H2 Hc) as (y2 & -> & _ & ->).
  destruct (get32_be _ _ _ H3 Htt) as (y3 & -> & E3). destruct (get16_be _ _ _ H4 Hd) as (y4 & -> & E4 & Ey4). cbn [mbind option_bind].
  change (PP_HTONS DNS_RRTYPE_A) with (Chksum.lwip_htons DNS_RRTYPE_A). change (PP_HTONS DNS_RRCLASS_IN) with (Chksum.lwip_htons DNS_RRCLASS_IN).
  change (PP_HTONS 4) with (Chksum.lwip_htons 4). rewrite Ey4 at 1.
  assert (in_u 16 1 /\ in_u 16 4) as [U1 U4] by (unfold in_u; lia).
  rewrite (htons_inj _ DNS_RRTYPE_A Ht U1), (htons_inj _ DNS_RRCLASS_IN Hc U1), (htons_inj _ 4 Hd U4). fold (is_address r). apply at_app in H as [H5 H].
  destruct (is_address r) eqn:Ea.
  - unfold is_address in Ea. apply andb_true_iff in Ea as [_ Hl%Z.eqb_eq]. rewrite (get32_at _ _ _ H5) by lia. cbn [mbind option_bind].
    rewrite E3. do 4 f_equal. destruct (Z.ltb_spec DNS_MAX_TTL (rr_ttl r)); lia.
  - rewrite E4, Nat2Z.id. by apply IH.
Qed.

(** *** The question *)

Lemma query_run l rest : Forall (fun c => c ≠ 46) l -> forall label,
  query_loop (l ++ rest) label = query_loop rest (label ++ l).
Proof.
  induction 1 as [|c l Hc _ IH]; intros label; [by rewrite app_nil_r|]. cbn [app query_loop]. rewrite (proj2 (Z.eqb_neq c 46) Hc), IH.
  by rewrite <-app_assoc.
Qed.

Lemma label_u8 l : label_ok l -> u8 (Z.of_nat (length l)) = Z.of_nat (length l).
Proof. intros [Hl _]. apply wrap_id; unfold in_u; cint_pow; lia. Qed.

Lemma query_name_run l ls : Forall label_ok (l :: ls) -> query_name (text (l :: ls)) = enc_name (l :: ls).
Proof.
  intros F. unfold query_name, enc_name. f_equal. revert l F. induction ls as [|l2 ls IH]; intros l F; apply Forall_cons in F as [Hl F];
    assert (Forall (fun c => c ≠ 46) l) as Hd by (eapply Forall_impl; [apply Hl|]; naive_solver).
  - cbn [text]. rewrite <-(app_nil_r l) at 1. rewrite query_run by done. cbn [query_loop app]. by rewrite label_u8, enc_labels_cons, app_nil_r.
  - change (text (l :: l2 :: ls)) with (l ++ 46 :: text (l2 :: ls)). rewrite query_run by done. cbn [app query_loop].
    rewrite Z.eqb_refl, IH, label_u8 by done. by rewrite enc_labels_cons.
Qed.

Lemma query_loop_length h : forall label, length (query_loop h label) = (length h + length label + 1)%nat.
Proof.
  induction h as [|c h IH]; intros label; cbn [query_loop length]; [lia|].
  destruct (c =? 46); cbn [length]; [rewrite length_app, IH|rewrite IH, length_app]; cbn [length]; lia.
Qed.

Lemma query_name_length h : length (query_name h) = (length h + 2)%nat.
Proof. unfold query_name. rewrite length_app, query_loop_length. cbn [length]. lia. Qed.

(** *** The fuel *)

Lemma parse_step m fuel i : parse_loop (S fuel) m i =
  n ← m !! i;
  if compressed n then Some (S (S i))
  else c ← m !! (S i + Z.to_nat n)%nat; if c =? 0 then Some (S (S i + Z.to_nat n)) else parse_loop fuel m (S i + Z.to_nat n).
Proof. done. Qed.

(** The index grows with every label: the fuel is never used up. *)
Lemma parse_fuel m : forall fuel i, (length m < i + fuel)%nat -> parse_loop fuel m i = parse_loop (S fuel) m i.
Proof.
  induction fuel as [|fuel IH]; intros i Hf; rewrite (parse_step _ _ i).
  { by rewrite lookup_ge_None_2 by lia. }
  rewrite (parse_step _ (S fuel) i). destruct (m !! i) as [n|]; [|done]. cbn [mbind option_bind]. destruct (compressed n); [done|].
  destruct (m !! (S i + Z.to_nat n)%nat) as [c|]; [|done]. cbn [mbind option_bind]. destruct (c =? 0); [done|].
  apply IH. lia.
Qed.

(** Less fuel gives no more results. *)
Lemma parse_none m : forall fuel fuel' i, (fuel <= fuel')%nat -> parse_loop fuel' m i = None -> parse_loop fuel m i = None.
Proof.
  induction fuel as [|fuel IH]; intros [|fuel'] i Hf; try done || lia. cbn [parse_loop].
  destruct (m !! i) as [n|]; [|done]. cbn [mbind option_bind]. destruct (compressed n); [done|].
  destruct (m !! (S i + Z.to_nat n)%nat) as [c|]; [|done]. cbn [mbind option_bind]. destruct (c =? 0); [done|]. apply IH. lia.
Qed.

Lemma dns_compare_name_run name l ls m i : Forall label_ok (l :: ls) -> at_ m i (enc_name (l :: ls)) ->
  (length (text (l :: ls)) <= length name)%nat ->
  dns_compare_name name m i = Some (if same_name name (l :: ls) then 0 else 1).
Proof.
  intros F H Hn. unfold dns_compare_name. pose proof (labels_fuel _ _ _ _ F H) as Hf. cbn [length] in Hf.
  rewrite (compare_run name m l ls) by (done || lia). done.
Qed.

(** ** Correctness *)

(** The names of the resolver round trip: the name that [dns_send] writes for a
    host name, when a server sends it back as the question of its answer, is the name
    that [dns_compare_name] finds equal to the entry, and [dns_parse_name] skips
    exactly it. *)
Theorem dns_name_roundtrip l ls old m i : Forall label_ok (l :: ls) -> at_ m i (query_name (text (l :: ls))) ->
  dns_compare_name (text (l :: ls) ++ 0 :: old) m i = Some 0 /\
  dns_parse_name m i = Some (i + length (query_name (text (l :: ls))))%nat.
Proof.
  intros F H. rewrite query_name_run in H |- * by done. split; [|exact (parse_name_run m i (Full l ls) F H)].
  rewrite (dns_compare_name_run _ l ls) by (done || rewrite length_app; lia). by rewrite same_name_text.
Qed.

(** [dns_compare_name] on a name without compression: it finds the names equal
    exactly if the labels of the response are in the host name one after the other,
    each with one more character behind it, whatever that and what follows is. *)
Theorem dns_compare_name_correct name l ls m i : Forall label_ok (l :: ls) -> at_ m i (enc_name (l :: ls)) ->
  (length (text (l :: ls)) <= length name)%nat ->
  dns_compare_name name m i = Some (if same_name name (l :: ls) then 0 else 1).
Proof. apply dns_compare_name_run. Qed.

(** The comparison accepts names that differ: a response for a name whose first
    labels only are those of the question, and every response whose question is a
    pointer. *)
Theorem dns_compare_name_accepts l ls rest m i : Forall label_ok (l :: ls) ->
  (at_ m i (enc_name (l :: ls)) -> dns_compare_name (text (l :: ls) ++ rest) m i = Some 0) /\
  (forall hi lo name, 192 <= hi < 256 -> at_ m i [hi; lo] -> dns_compare_name name m i = Some 0).
Proof.
  intros F. split.
  - intros H. rewrite (dns_compare_name_run _ l ls) by (done || rewrite length_app; lia). by rewrite same_name_text.
  - intros hi lo name Hh H. apply at_cons in H as [E _]. unfold dns_compare_name. cbn [compare_loop]. rewrite E. cbn [mbind option_bind].
    by rewrite (proj2 (compressed_all hi ltac:(lia))) by lia.
Qed.

(** [dns_parse_name] reads behind the message: a buffer full of labels of 63
    characters has no end of the name in it, and no fuel helps. *)
Theorem dns_parse_name_overruns fuel : parse_loop fuel (replicate 512 63) 12 = None.
Proof.
  assert (parse_loop 513 (replicate 512 63) 12 = None) as H by (vm_compute; reflexivity).
  destruct (le_lt_dec fuel 513) as [Hle|Hgt].
  - exact (parse_none _ fuel 513 12 Hle H).
  - replace fuel with (fuel - 513 + 513)%nat by lia. induction (fuel - 513)%nat as [|k IH]; [done|].
    cbn [Nat.add]. rewrite <-parse_fuel; [done|]. rewrite length_replicate. lia.
Qed.

(** ** Examples *)

Definition labels : list (list Z) := [[97; 98]; [99]].   (* ab.c *)
Lemma labels_ok : Forall label_ok labels.
Proof. repeat constructor; cbn; lia. Qed.

Definition question : list Z := replicate 12 0 ++ enc_name labels ++ [0; 1; 0; 1].
Lemma question_at : at_ question 12 (enc_name labels) /\ at_ question 12 (query_name (text labels)).
Proof. split; (exists [0; 1; 0; 1]; reflexivity). Qed.

Lemma dns_name_roundtrip_witness : dns_compare_name (text labels ++ 0 :: replicate 251 0) question 12 = Some 0 /\ dns_parse_name question 12 = Some 18%nat.
Proof. exact (dns_name_roundtrip [97; 98] [[99]] (replicate 251 0) question 12 labels_ok (proj2 question_at)). Defined.

Lemma dns_compare_name_correct_witness : dns_compare_name [97; 98; 46; 100; 0] question 12 = Some 1.
Proof. exact (dns_compare_name_correct [97; 98; 46; 100; 0] [97; 98] [[99]] question 12 labels_ok (proj1 question_at) (le_S _ _ (le_n 4))). Defined.

(** ab.cde, and any name for a pointer. *)
Lemma dns_compare_name_accepts_witness : dns_compare_name (text labels ++ [100; 101; 0]) question 12 = Some 0 /\
  dns_compare_name [120; 0] (replicate 12 0 ++ [0xc0; 12]) 12 = Some 0.
Proof.
  split; [exact (proj1 (dns_compare_name_accepts [97; 98] [[99]] [100; 101; 0] question 12 labels_ok) (proj1 question_at))|].
  assert (192 <= 0xc0 < 256) as Hh by lia. assert (at_ (replicate 12 0 ++ [0xc0; 12]) 12 [0xc0; 12]) as H by (exists []; reflexivity).
  exact (proj2 (dns_compare_name_accepts [97; 98] [[99]] [] (replicate 12 0 ++ [0xc0; 12]) 12 labels_ok) 0xc0 12 [120; 0] Hh H).
Defined.

End DnsMsg.
