(* ===== verification/Dns.v ===== *)
(** * The resolver

    dns.c in the configuration of lwipopts.h: a table of 4 host names that are asked
    for or known, two servers, names checked, responses copied into a static buffer.
    The local host list is compiled out.

    [dns] is the static state of the file; it is passed through the functions, which
    are in the monad of the stack ([Net]) for the UDP calls and the packets.  The
    functions that users pass for their answers are an interface: [dns_app], with
    [dns_app_laws] for what they may do to the stack and to the resolver.

    A name in the table is an array of 256 characters ([cstr]: up to the 0).  The
    messages are in [DnsMsg]. *)
From S2P Require Import Prelude Alloc Pbuf PbufData Chksum IpAddr Refs Net Etharp Wire ArpCache Netif Packet IpOut Pcbs Ip Udp UdpApi DnsMsg.
Import Alloc Pbuf PbufData Refs Net Etharp Wire ArpCache Netif Packet IpOut Pcbs Ip Udp UdpApi DnsMsg.

Module Dns.
Local Open Scope net_scope.

Definition DNS_SERVER_ADDRESS : list Z := [50; 48; 56; 46; 54; 55; 46; 50; 50; 50; 46; 50; 50; 50].   (* 208.67.222.222 *)
Definition DNS_SERVER_PORT : Z := 53.
Definition DNS_MAX_RETRIES : Z := 4.
Definition DNS_TABLE_SIZE : nat := 4.
Definition DNS_MAX_SERVERS : Z := 2.
Definition DNS_MAX_NAME_LENGTH : nat := 256.
Definition DNS_MSG_SIZE : Z := 512.
Definition SIZEOF_DNS_HDR : Z := 12.
Definition SIZEOF_DNS_QUERY : Z := 4.
Definition SIZEOF_DNS_ANSWER : Z := 10.
Definition DNS_FLAG1_RESPONSE : Z := 0x80.
Definition DNS_FLAG1_RD : Z := 0x01.
Definition DNS_FLAG2_ERR_MASK : Z := 0x0f.
Definition ERR_INPROGRESS : Z := -5.
Definition DNS_STATE_UNUSED : Z := 0.
Definition DNS_STATE_NEW : Z := 1.
Definition DNS_STATE_ASKING : Z := 2.
Definition DNS_STATE_DONE : Z := 3.

(** ** State *)

Record dns_table_entry := mk_dns_entry {
  d_state : Z; d_numdns : Z; d_tmr : Z; d_retries : Z; d_seqno : Z; d_err : Z; d_ttl : Z;
  d_name : list Z; d_ipaddr : Z; d_found : Z; d_arg : Z }.

Record dns := mk_dns {
  dns_pcb : Z; dns_seqno : Z; dns_table : list dns_table_entry; dns_servers : list Z; dns_payload : list Z }.

Definition set_state (x : Z) (e : dns_table_entry) : dns_table_entry :=
  mk_dns_entry x (d_numdns e) (d_tmr e) (d_retries e) (d_seqno e) (d_err e) (d_ttl e) (d_name e) (d_ipaddr e) (d_found e) (d_arg e).
Definition set_asking (numdns tmr retries : Z) (e : dns_table_entry) : dns_table_entry :=
  mk_dns_entry (d_state e) numdns tmr retries (d_seqno e) (d_err e) (d_ttl e) (d_name e) (d_ipaddr e) (d_found e) (d_arg e).
Definition set_err (x : Z) (e : dns_table_entry) : dns_table_entry :=
  mk_dns_entry (d_state e) (d_numdns e) (d_tmr e) (d_retries e) (d_seqno e) x (d_ttl e) (d_name e) (d_ipaddr e) (d_found e) (d_arg e).
Definition set_ttl (x : Z) (e : dns_table_entry) : dns_table_entry :=
  mk_dns_entry (d_state e) (d_numdns e) (d_tmr e) (d_retries e) (d_seqno e) (d_err e) x (d_name e) (d_ipaddr e) (d_found e) (d_arg e).
Definition set_ipaddr (x : Z) (e : dns_table_entry) : dns_table_entry :=
  mk_dns_entry (d_state e) (d_numdns e) (d_tmr e) (d_retries e) (d_seqno e) (d_err e) (d_ttl e) (d_name e) x (d_found e) (d_arg e).
(** The entry is given up. *)
Definition flush (e : dns_table_entry) : dns_table_entry :=
  mk_dns_entry DNS_STATE_UNUSED (d_numdns e) (d_tmr e) (d_retries e) (d_seqno e) (d_err e) (d_ttl e) (d_name e) (d_ipaddr e) 0 (d_arg e).

Definition put_entry (i : nat) (e : dns_table_entry) (d : dns) : dns :=
  mk_dns (dns_pcb d) (dns_seqno d) (<[i := e]> (dns_table d)) (dns_servers d) (dns_payload d).
Definition set_servers (l : list Z) (d : dns) : dns := mk_dns (dns_pcb d) (dns_seqno d) (dns_table d) l (dns_payload d).
Definition set_payload_buffer (l : list Z) (d : dns) : dns := mk_dns (dns_pcb d) (dns_seqno d) (dns_table d) (dns_servers d) l.

(** The characters of an array up to the first 0. *)
Fixpoint cstr (l : list Z) : list Z := match l with [] => [] | c :: l => if c =? 0 then [] else c :: cstr l end.

(** The function of a user at an address: the name, the address or NULL and its
    argument.  It may call the resolver again. *)
Class dns_app (A W : Type) := { found_fn : Z -> list Z -> option Z -> Z -> dns -> M A W dns }.

(** ** Operations *)

Section Operations.
Context {A W : Type} {ops : alloc_ops A} {lops : link_ops A W} {uops : upper_ops A W} {dapp : dns_app A W}.

Definition entry_at (i : nat) (d : dns) : M A W dns_table_entry := gets (fun _ => dns_table d !! i).
Definition server_at (i : Z) (d : dns) : M A W Z := gets (fun _ => dns_servers d !! Z.to_nat i).

Definition call_found (e : dns_table_entry) (ipaddr : option Z) (d : dns) : M A W dns :=
  if d_found e =? 0 then ret d else found_fn (d_found e) (cstr (d_name e)) ipaddr (d_arg e) d.

(** The entry at [i] is given up, after its user was told. *)
Definition flush_entry (i : nat) (d : dns) : M A W dns :=
  e <- entry_at i d ;; ret (put_entry i (flush e) d).

Definition dns_setserver (numdns dnsserver : Z) (d : dns) : dns :=
  if (numdns <? DNS_MAX_SERVERS) && negb (dns_pcb d =? 0) && negb (ip_addr_isany dnsserver)
  then set_servers (<[Z.to_nat numdns := dnsserver]> (dns_servers d)) d else d.

Definition dns_getserver (numdns : Z) (d : dns) : option Z :=
  if numdns <? DNS_MAX_SERVERS then dns_servers d !! Z.to_nat numdns else Some 0.

(** [recv] is the address of [dns_recv]. *)
Definition dns_init (recv : Z) (d : dns) : M A W dns :=
  let dnsserver := IpAddr.ipaddr_addr DNS_SERVER_ADDRESS in
  if dns_pcb d =? 0 then
    pcb <- udp_new ;;
    let d := mk_dns pcb (dns_seqno d) (dns_table d) (dns_servers d) (dns_payload d) in
    if negb (pcb =? 0) then
      _ <- udp_bind pcb 0 0 ;;
      udp_recv pcb recv 0 ;;
      ret (dns_setserver 0 dnsserver d)
    else ret d
  else ret d.

(** The known address of a name, or IPADDR_NONE. *)
Definition dns_lookup (name : list Z) (d : dns) : Z :=
  match list_find (fun e => d_state e = DNS_STATE_DONE /\ name = cstr (d_name e)) (take DNS_TABLE_SIZE (dns_table d)) with
  | Some (_, e) => d_ipaddr e
  | None => IpAddr.IPADDR_NONE
  end.

(** The message is written to the new pbuf [p] and cut to its length. *)
Definition write_query (p id : Z) (name : list Z) : M A W unit :=
  b <- the_pbuf p ;;
  let hdr := payload b in
  poke p hdr (replicate (Z.to_nat SIZEOF_DNS_HDR) 0) ;;
  poke p hdr (bytes16 (Chksum.lwip_htons id)) ;;
  poke p (hdr + 2) [DNS_FLAG1_RD] ;;
  poke p (hdr + 4) (bytes16 (PP_HTONS 1)) ;;
  poke p (hdr + SIZEOF_DNS_HDR) (query_name name) ;;
  let query := hdr + SIZEOF_DNS_HDR + Z.of_nat (length (query_name name)) in
  poke p query (bytes16 (PP_HTONS DNS_RRTYPE_A) ++ bytes16 (PP_HTONS DNS_RRCLASS_IN)) ;;
  pbufs_ (pbuf_realloc p (u16 (query + SIZEOF_DNS_QUERY - hdr))).

Definition dns_send (numdns : Z) (name : list Z) (id : Z) (d : dns) : M A W Z :=
  p <- pbufs (pbuf_alloc PBUF_TRANSPORT (SIZEOF_DNS_HDR + Z.of_nat DNS_MAX_NAME_LENGTH + SIZEOF_DNS_QUERY) PBUF_RAM) ;;
  if p =? 0 then ret ERR_MEM
  else
    write_query p id name ;;
    a <- server_at numdns d ;;
    _ <- udp_connect (dns_pcb d) a DNS_SERVER_PORT ;;
    err <- udp_sendto (dns_pcb d) p a DNS_SERVER_PORT ;;
    drop_packet p ;;
    ret err.

(** Whether there is another server after [numdns]. *)
Definition next_server (numdns : Z) (d : dns) : M A W bool :=
  if numdns + 1 <? DNS_MAX_SERVERS then a <- server_at (numdns + 1) d ;; ret (negb (ip_addr_isany a)) else ret false.

Definition dns_check_entry (i : nat) (d : dns) : M A W dns :=
  e <- entry_at i d ;;
  if d_state e =? DNS_STATE_NEW then
    let d := put_entry i (set_asking 0 1 0 (set_state DNS_STATE_ASKING e)) d in
    _ <- dns_send 0 (cstr (d_name e)) (Z.of_nat i) d ;; ret d
  else if d_state e =? DNS_STATE_ASKING then
    let tmr := u8 (d_tmr e - 1) in
    if negb (tmr =? 0) then ret (put_entry i (set_asking (d_numdns e) tmr (d_retries e) e) d)
    else
      let retries := u8 (d_retries e + 1) in
      if retries =? DNS_MAX_RETRIES then
        more <- next_server (d_numdns e) d ;;
        if more : bool then ret (put_entry i (set_asking (u8 (d_numdns e + 1)) 1 0 e) d)
        else
          d <- call_found e None (put_entry i (set_asking (d_numdns e) tmr retries e) d) ;;
          flush_entry i d
      else
        let d := put_entry i (set_asking (d_numdns e) retries retries e) d in
        _ <- dns_send (d_numdns e) (cstr (d_name e)) (Z.of_nat i) d ;; ret d
  else if d_state e =? DNS_STATE_DONE then
    let ttl := u32 (d_ttl e - 1) in
    ret (put_entry i (if ttl =? 0 then flush (set_ttl ttl e) else set_ttl ttl e) d)
  else ret d.

(** The entries from [i] on, [n] of them. *)
Fixpoint check_entries (n i : nat) (d : dns) : M A W dns :=
  match n with O => ret d | S n => d <- dns_check_entry i d ;; check_entries n (S i) d end.
Definition dns_check_entries (d : dns) : M A W dns := check_entries DNS_TABLE_SIZE 0 d.

Definition dns_tmr (d : dns) : M A W dns := if negb (dns_pcb d =? 0) then dns_check_entries d else ret d.

(** *** Responses *)

(** What a response in the buffer [m] to the entry [e] says: the time to live and
    the address, or nothing of use. *)
Definition response (e : dns_table_entry) (m : list Z) : option (option (Z * Z)) :=
  flags1 ← m !! 2%nat; flags2 ← m !! 3%nat;
  nquestions ← get16 m 4; nanswers ← get16 m 6;
  if (Z.land flags1 DNS_FLAG1_RESPONSE =? 0) || negb (Z.land flags2 DNS_FLAG2_ERR_MASK =? 0) || negb (Chksum.lwip_htons nquestions =? 1)
  then Some None
  else
    r ← dns_compare_name (d_name e) m (Z.to_nat SIZEOF_DNS_HDR);
    if negb (r =? 0) then Some None
    else
      pHostname ← dns_parse_name m (Z.to_nat SIZEOF_DNS_HDR);
      scan_answers (Z.to_nat (Chksum.lwip_htons nanswers)) m (pHostname + Z.to_nat SIZEOF_DNS_QUERY).

(** The response that has been copied to the buffer. *)
Definition take_response (d : dns) : M A W dns :=
  i <- gets (fun _ => i ← get16 (dns_payload d) 0; Some (Z.to_nat (Chksum.lwip_htons i))) ;;
  if bool_decide (i < DNS_TABLE_SIZE)%nat then
    e <- entry_at i d ;;
    if d_state e =? DNS_STATE_ASKING then
      flags2 <- gets (fun _ => dns_payload d !! 3%nat) ;;
      let e := set_err (Z.land flags2 DNS_FLAG2_ERR_MASK) (set_state DNS_STATE_DONE e) in
      r <- gets (fun _ => response e (dns_payload d)) ;;
      match r with
      | Some (ttl, ip) =>
          let e := set_ipaddr ip (set_ttl ttl e) in
          call_found e (Some ip) (put_entry i e d)
      | None =>
          d <- call_found e (Some IpAddr.IPADDR_NONE) (put_entry i e d) ;;
          flush_entry i d
      end
    else ret d
  else ret d.

Definition dns_recv (p : Z) (d : dns) : M A W dns :=
  b <- the_pbuf p ;;
  d <- (if DNS_MSG_SIZE <? tot_len b then ret d
        else if tot_len b <? SIZEOF_DNS_HDR + SIZEOF_DNS_QUERY + SIZEOF_DNS_ANSWER then ret d
        else
          x <- gets (fun s => pbuf_copy_partial p (Some (dns_payload d)) (tot_len b) 0 (ps s)) ;;
          match x with
          | (n, Some m) => let d := set_payload_buffer m d in if n =? tot_len b then take_response d else ret d
          | _ => ret d
          end) ;;
  drop_packet p ;;
  ret d.

(** *** Questions *)

(** The walk of [dns_enqueue]: the first unused entry from [i] on (or the end), and
    the oldest completed one before it. *)
Fixpoint find_entry (seqno : Z) (l : list dns_table_entry) (i lseq lseqi : Z) : Z * Z :=
  match l with
  | [] => (i, lseqi)
  | e :: l =>
      if d_state e =? DNS_STATE_UNUSED then (i, lseqi)
      else if (d_state e =? DNS_STATE_DONE) && (lseq <? seqno - d_seqno e)
      then find_entry seqno l (i + 1) (u8 (seqno - d_seqno e)) i
      else find_entry seqno l (i + 1) lseq lseqi
  end.

(** A name put into the array of an entry. *)
Definition copy_name (name old : list Z) : list Z :=
  let namelen := Nat.min (length name) (DNS_MAX_NAME_LENGTH - 1) in
  take namelen name ++ 0 :: drop (S namelen) old.

Definition dns_enqueue (name : list Z) (found arg : Z) (d : dns) : M A W (Z * dns) :=
  let '(i, lseqi) := find_entry (dns_seqno d) (dns_table d) 0 0 0 in
  old <- entry_at (Z.to_nat lseqi) d ;;
  if (i =? Z.of_nat DNS_TABLE_SIZE) && negb (d_state old =? DNS_STATE_DONE) then ret (ERR_MEM, d)
  else
    let i := Z.to_nat (if i =? Z.of_nat DNS_TABLE_SIZE then lseqi else i) in
    e <- entry_at i d ;;
    let e := mk_dns_entry DNS_STATE_NEW (d_numdns e) (d_tmr e) (d_retries e) (dns_seqno d) (d_err e) (d_ttl e)
               (copy_name name (d_name e)) (d_ipaddr e) found arg in
    d <- dns_check_entry i (mk_dns (dns_pcb d) (u8 (dns_seqno d + 1)) (<[i := e]> (dns_table d)) (dns_servers d) (dns_payload d)) ;;
    ret (ERR_INPROGRESS, d).

(** NULL for [hostname] and [addr] is [None] and [false]; the result is the error, the
    address if there is one, and the state. *)
Definition dns_gethostbyname (hostname : option (list Z)) (addr : bool) (found arg : Z) (d : dns) : M A W (Z * option Z * dns) :=
  match hostname with
  | None => ret (ERR_ARG, None, d)
  | Some hostname =>
      if (dns_pcb d =? 0) || negb addr || bool_decide (hostname = []) || bool_decide (DNS_MAX_NAME_LENGTH <= length hostname)%nat
      then ret (ERR_ARG, None, d)
      else
        let ipaddr := IpAddr.ipaddr_addr hostname in
        let ipaddr := if ipaddr =? IpAddr.IPADDR_NONE then dns_lookup hostname d else ipaddr in
        if negb (ipaddr =? IpAddr.IPADDR_NONE) then ret (ERR_OK, Some ipaddr, d)
        else x <- dns_enqueue hostname found arg d ;; ret (x.1, None, x.2)
  end.

End Operations.

(** ** The message of a question *)

Definition query_message (id : Z) (name : list Z) : list Z :=
  be16 id ++ [DNS_FLAG1_RD; 0; 0; 1; 0; 0; 0; 0; 0; 0] ++ query_name name ++ be16 DNS_RRTYPE_A ++ be16 DNS_RRCLASS_IN.

(** ** Invariants *)

(** The name of an entry is in its array; one that is asked for fits in a message and
    its server is there. *)
Definition asking (e : dns_table_entry) : Prop := d_state e = DNS_STATE_NEW \/ d_state e = DNS_STATE_ASKING.
Definition entry_ok (servers : list Z) (e : dns_table_entry) : Prop :=
  length (d_name e) = DNS_MAX_NAME_LENGTH /\
  (asking e -> (length (cstr (d_name e)) <= 254)%nat) /\
  (d_state e = DNS_STATE_ASKING -> 0 <= d_numdns e < DNS_MAX_SERVERS /\ servers !! Z.to_nat (d_numdns e) ≠ Some 0).

Record dns_wf (d : dns) : Prop := {
  dw_table : length (dns_table d) = DNS_TABLE_SIZE;
  dw_entries : Forall (entry_ok (dns_servers d)) (dns_table d);
  dw_servers : length (dns_servers d) = Z.to_nat DNS_MAX_SERVERS;
  dw_addrs : Forall (in_u 32) (dns_servers d);
  dw_first : dns_servers d !! 0%nat ≠ Some 0;
  dw_payload : length (dns_payload d) = Z.to_nat DNS_MSG_SIZE }.

(** The stack with the pcb of the resolver: it has a local port. *)
Record dns_net {A W} {ops : alloc_ops A} {laws : alloc_laws A} {lops : link_ops A W} {llaws : link_laws A W}
  (extra : list Z) (R : list block) (pcb : Z) (s : net A W) : Prop := {
  dn_state : udp_state extra R s;
  dn_listed : listed s;
  dn_few : Z.of_nat (size (udps (ips s))) < 0x4000;
  dn_pcb : exists u, udps (ips s) !! pcb = Some u /\ u_local_port u ≠ 0 }.

(** What the functions of the users may do: anything to the stack and the resolver
    that keeps them in order and leaves the names that are asked for, the pcb and
    the servers. *)
Definition keeps_asking (d d' : dns) : Prop :=
  dns_pcb d' = dns_pcb d /\ dns_servers d' = dns_servers d /\
  forall i e, dns_table d !! i = Some e -> asking e -> dns_table d' !! i = Some e.

Class dns_app_laws (A W : Type) {ops : alloc_ops A} {laws : alloc_laws A} {lops : link_ops A W} {llaws : link_laws A W}
    {dapp : dns_app A W} := {
  found_law f name ip arg d (s : net A W) extra R : dns_wf d -> dns_pcb d ≠ 0 -> dns_net extra R (dns_pcb d) s -> Z.of_nat (length extra) < 49994 ->
    wp (found_fn f name ip arg d) (fun d' s' => dns_wf d' /\ keeps_asking d d' /\ dns_net extra R (dns_pcb d) s' /\ calm extra s s') s }.

Section Correct.
Context {A W : Type} {ops : alloc_ops A} {laws : alloc_laws A} {lops : link_ops A W} {llaws : link_laws A W}.
Implicit Types s : net A W.

(** ** Sending *)

Lemma dns_net_calm ex extra extra' R R' pcb s s' : dns_net extra R pcb s -> net_inv s' extra' R' -> calm ex s s' ->
  udps (ips s') = udps (ips s) -> (forall l, pcb_list (X := udp_pcb) (ips s) l -> pcb_list (X := udp_pcb) (ips s') l) -> dns_net extra' R' pcb s'.
Proof.
  intros [[I (l & [L B Ex])] Ls Hs (u & E & Hu)] I' C Eu HL. destruct (calm_keeps _ _ _ C) as [_ K]. split.
  - split; [done|]. exists l. split; [by apply HL|by rewrite Eu|]. intros a c v w. rewrite Eu. apply Ex.
  - by apply K.
  - by rewrite Eu.
  - exists u. by rewrite Eu.
Qed.

Lemma dns_net_quiet ex extra extra' R R' pcb s s' : dns_net extra R pcb s -> net_inv s' extra' R' -> quiet ex s s' -> dns_net extra' R' pcb s'.
Proof. intros H I [C [x E]]. eapply dns_net_calm; [exact H|exact I|exact C|by rewrite E|]. intros l. by rewrite E. Qed.

Lemma wp_put off a x L extra R p b Q s : packet extra R p b [] s -> data s b = L -> a = payload b + off -> 0 <= off -> off + Z.of_nat (length x) <= len b ->
  (forall s', packet extra R p b [] s' -> frame extra s s' -> data s' b = splice off x L -> Q tt s') ->
  wp (poke p a x) Q s.
Proof.
  intros H D -> Ho Hx HQ. destruct (pk_bounds _ _ _ _ _ _ H) as (_ & Hp & _).
  eapply (wp_pk_poke extra R p b [] _ x); [exact H|lia|lia|]. intros s' Hs H' F'. apply HQ; [done|done|].
  unfold data. rewrite Hs. cbn [ps with_ps bytes with_bytes]. rewrite read_write by lia. by f_equal.
Qed.

Lemma take_splice off x L : 0 <= off -> (Z.to_nat off <= length L)%nat ->
  take (Z.to_nat off + length x) (splice off x L) = take (Z.to_nat off) L ++ x.
Proof.
  intros Ho HL. unfold splice. rewrite app_assoc. rewrite take_app_le by (rewrite length_app, length_take; lia).
  rewrite take_ge; [done|]. rewrite length_app, length_take. lia.
Qed.

Lemma splice_length off x L : 0 <= off -> (Z.to_nat off + length x <= length L)%nat -> length (splice off x L) = length L.
Proof. intros Ho HL. unfold splice. rewrite !length_app, length_take, length_drop. lia. Qed.

(** What the writes leave in the pbuf. *)
Definition written (id : Z) (name L : list Z) : list Z :=
  splice (12 + Z.of_nat (length (query_name name))) (bytes16 (PP_HTONS DNS_RRTYPE_A) ++ bytes16 (PP_HTONS DNS_RRCLASS_IN))
    (splice 12 (query_name name) (splice 4 (bytes16 (PP_HTONS 1)) (splice 2 [DNS_FLAG1_RD]
      (splice 0 (bytes16 (Chksum.lwip_htons id)) (splice 0 (replicate 12 0) L))))).

Lemma written_message id name L : in_u 16 id -> length L = 272%nat -> (length name <= 254)%nat ->
  take (length name + 18) (written id name L) = query_message id name.
Proof.
  intros Hid HL Hn. pose proof (query_name_length name) as Hq. unfold written.
  set (L1 := splice 4 _ _). assert (length L1 = 272%nat /\ take 12 L1 = be16 id ++ [DNS_FLAG1_RD; 0; 0; 1; 0; 0; 0; 0; 0; 0]) as [HL1 E1].
  { unfold L1. rewrite (bytes16_htons id) by done. do 12 (destruct L as [|? L]; [discriminate HL|]). cbn [length] in HL.
    split; [|reflexivity]. transitivity (12 + length L)%nat; [reflexivity|lia]. }
  set (x := bytes16 _ ++ bytes16 _). assert (length x = 4%nat) as Hx by done.
  replace (length name + 18)%nat with (Z.to_nat (12 + Z.of_nat (length (query_name name))) + length x)%nat by lia.
  rewrite take_splice by (rewrite ?splice_length; lia).
  replace (Z.to_nat (12 + Z.of_nat (length (query_name name))))%nat with (Z.to_nat 12 + length (query_name name))%nat by lia.
  rewrite take_splice by lia. change (Z.to_nat 12) with 12%nat. rewrite E1. unfold query_message. by rewrite <-!app_assoc.
Qed.

Ltac put D off := eapply wp_bind, (wp_put off); [eassumption|exact D|lia|lia|cbn [length replicate bytes16 app]; lia|]; clear D.

Lemma trimmed_single extra R p b b' l' n s s' : packet extra R p b [] s -> packet extra R p b' l' s' -> trimmed n (p, b) (p, b') -> l' = [].
Proof.
  intros [_ (_ & _ & _ & E) _ _ _] [_ (_ & _ & _ & Hc) _ _ _] (_ & _ & _ & _ & _ & _ & Hn). cbn [snd] in Hn.
  assert (next b' = 0) as Hz by (destruct Hn as [[-> _]|[-> _]]; done). rewrite Hz in Hc. destruct l' as [|[x c] l']; [done|].
  by destruct Hc as (<- & Hx & _).
Qed.

(** The question is put into the pbuf. *)
Lemma wp_write_query extra R p b id name Q s : packet extra R p b [] s -> len b = 272 -> (length name <= 254)%nat -> in_u 16 id ->
  (forall b' s', packet extra R p b' [] s' -> frame extra s s' -> tot_len b' <= 272 -> data s' b' = query_message id name -> Q tt s') ->
  wp (write_query p id name) Q s.
Proof.
  intros H Ht Hn Hid HQ. destruct (pk_bounds _ _ _ _ _ _ H) as (H4 & Hp & Hl & Htl & Hb & (Hlen & Hnx & _)). cbn [tot] in Hlen.
  pose proof (query_name_length name) as Hq. unfold write_query. apply wp_bind. eapply wp_pk_buf; [exact H|]. cbv zeta.
  unfold SIZEOF_DNS_HDR, SIZEOF_DNS_QUERY. change (Z.to_nat 12) with 12%nat.
  assert (data s b = data s b) as D by done. set (L := data s b) in D at 2.
  assert (length L = 272%nat) as HL by (unfold L, data; rewrite read_bytes_length; lia).
  put D 0. intros s1 H1 F1 D. put D 0. intros s2 H2 F2 D. put D 2. intros s3 H3 F3 D. put D 4. intros s4 H4' F4 D.
  put D 12. intros s5 H5 F5 D. put D (12 + Z.of_nat (length (query_name name))). intros s6 H6 F6 D.
  replace (payload b + 12 + Z.of_nat (length (query_name name)) + 4 - payload b) with (Z.of_nat (length name + 18)) by lia.
  rewrite (wrap_id 16) by (unfold in_u; lia).
  eapply wp_pk_realloc; [exact H6|lia|]. intros b' l' s' H' F' _ Ey Htt T _ Hc.
  assert (l' = []) as -> by (by eapply trimmed_single).
  assert (frame extra s s') as F by (do 6 (eapply frame_trans; [eassumption|]); done).
  apply (HQ b'); [exact H'|exact F|lia|]. specialize (Hc (bytes (ps s'))). rewrite !contents_one, Nat2Z.id in Hc.
  unfold data at 1. rewrite Hc, Ey. fold (data s6 b). rewrite D. by apply written_message.
Qed.

(** A new pbuf for a question. *)
Lemma wp_alloc_query extra R Q s : net_inv s extra R ->
  (forall s', net_inv s' extra R -> frame extra s s' -> Q 0 s') ->
  (forall p b s', p ≠ 0 -> packet extra R p b [] s' -> frame extra s s' -> len b = 272 -> Q p s') ->
  wp (pbufs (pbuf_alloc PBUF_TRANSPORT (SIZEOF_DNS_HDR + Z.of_nat DNS_MAX_NAME_LENGTH + SIZEOF_DNS_QUERY) PBUF_RAM)) Q s.
Proof.
  intros I H0 H1. eapply wp_alloc; [exact I|done|intros; by apply H0|].
  intros p b l s' Hp I' F' _ Hc _ (Ty & Rr & _) Hok Hlen Hl. assert (l = []) as -> by (by apply Hl).
  pose proof Hok as (Hb & _). cbn [tot] in Hb. change (tot_len b = 272) in Hlen. apply (H1 p b); [done| |done|rewrite Hlen in Hb; lia].
  split; [done|done|by apply Forall_singleton|apply Forall_singleton; by left|by apply Forall_nil].
Qed.

(** A packet of one pbuf through a call that leaves the packets of its user. *)
Lemma packet_calm extra R p b s s' : packet extra R p b [] s -> net_inv s' (p :: extra) R -> same_packets (ps s) (ps s') (p :: extra) ->
  exists b', packet extra R p b' [] s' /\ strip b' = strip b /\ data s' b' = data s b.
Proof.
  intros [I Hc F Fc _] I' S. destruct (S p _ ltac:(by left) Hc) as (l' & Hc' & Es & Hr & Hd).
  destruct l' as [|[x b'] [|]]; try discriminate Es. pose proof Hc' as (<- & _ & E' & _).
  assert (strip b' = strip b) as Eb by (unfold stripped in Es; cbn [fmap list_fmap fst snd] in Es; congruence). clear Es.
  apply Forall_cons in F as [Hb _], Fc as [Cb _]. apply Forall2_cons in Hr as [Hr _]. cbn [snd] in *. rewrite Hb in Hr.
  pose proof (ri_ref _ _ _ (ni_refs _ _ _ I') p b' E') as (n & Hn & Hb'). pose proof (occ_nonneg p (extra ++ queued (arp_table s') ++ drv (world s'))).
  assert (ref b' = 1) as Hr1.
  { rewrite <-!app_assoc in Hb'. cbn [app] in Hb'. rewrite occ_cons, decide_True in Hb' by done. destruct Hn as [[? ->]|[? ->]]; lia. }
  exists b'. split; [|split; [done|]].
  - split; [done|done|by apply Forall_singleton| |by apply Forall_nil]. apply Forall_singleton. by eapply carries_strip.
  - apply strip_eq in Eb as (_ & Ep & _ & El & _). unfold data. rewrite Ep, El. apply (Hd p b); [by left|done].
Qed.

(** One pcb is changed, none is new. *)
Lemma size_one (m m' : gmap Z udp_pcb) pcb u u' : m !! pcb = Some u -> m' !! pcb = Some u' -> (forall a, a ≠ pcb -> m' !! a = m !! a) ->
  size m' = size m.
Proof.
  intros E E' Ho. assert (dom m' = dom m) as Ed; [|by rewrite <-(size_dom (D := gset Z)), Ed, (size_dom (D := gset Z))].
  apply set_eq. intros a. rewrite !elem_of_dom. destruct (decide (a = pcb)) as [->|Ha]; [by rewrite E, E'|by rewrite Ho].
Qed.

(** The pcb is connected to a server. *)
Lemma wp_connect_server extra R pcb ip port Q s : dns_net extra R pcb s -> in_u 32 ip -> in_u 16 port ->
  (forall s', dns_net extra R pcb s' -> calm extra s s' -> Q ERR_OK s') -> wp (udp_connect pcb ip port) Q s.
Proof.
  intros [[I (l & B)] Ls Hs (u & E & Hu)] Hip Hp HQ. pose proof B as [L Bb _]. pose proof (bound_length _ _ B Hs) as Hl.
  eapply wp_udp_connect; [exact I|exact E|exact L|exact Hl|done|done|done|].
  intros s' [I' C' (n & port' & E' & Hz & Hsame & _) Ho L']. apply HQ; [|done]. rewrite bool_decide_true in L' by (by apply (Bb pcb u E)).
  split.
  - split; [done|]. exists l. eapply (bound_list_field (ips s)); [exact B|exact E|exact E'|exact Ho|done|by apply Hsame|done].
  - by eapply calm_keeps.
  - by rewrite (size_one _ _ pcb _ _ E E' Ho).
  - exists (set_u_next n (connected ip port (set_u_local_port port' u))). split; [done|]. done.
Qed.

(** [dns_send] for a name that fits. *)
Lemma wp_dns_send extra R numdns name id a d Q s : dns_net extra R (dns_pcb d) s -> dns_servers d !! Z.to_nat numdns = Some a -> in_u 32 a ->
  (length name <= 254)%nat -> in_u 16 id -> Z.of_nat (length extra) < 49994 ->
  (forall e s', dns_net extra R (dns_pcb d) s' -> calm extra s s' -> Q e s') -> wp (dns_send numdns name id d) Q s.
Proof.
  intros H Ea Ha Hn Hid Hx HQ. pose proof H as [[I (l & B)] Ls Hs (u & E & Hu)]. unfold dns_send. apply wp_bind.
  eapply wp_alloc_query; [exact I| |].
  { intros s1 I1 F1. apply wp_ret, HQ; [|by apply frame_calm]. eapply dns_net_quiet; [exact H|done|by apply frame_quiet]. }
  intros p b s1 Hp P1 F1 Hb. rewrite (proj2 (Z.eqb_neq p 0)) by done. apply wp_bind. eapply wp_write_query; [exact P1|exact Hb|done|done|].
  intros b2 s2 P2 F2 Ht D2. apply wp_bind. eapply wp_gets; [exact Ea|]. pose proof (frame_trans _ _ _ _ F1 F2) as F.
  assert (dns_net (p :: extra) R (dns_pcb d) s2) as N2 by (eapply dns_net_quiet; [exact H|apply P2|by apply frame_quiet]).
  apply wp_bind. eapply wp_connect_server; [exact N2|done|done|]. intros s3 N3 C3. pose proof N3 as [[I3 (l3 & B3)] Ls3 Hs3 (u3 & E3 & Hu3)].
  destruct (packet_calm _ _ _ _ _ _ P2 I3 (cm_packets _ _ _ C3)) as (b3 & P3 & Es & D3).
  apply strip_eq in Es as (_ & _ & Et & _). apply wp_bind.
  eapply wp_udp_sendto; [by eapply packet_sending|lia|exact E3|apply B3|by eapply bound_length|done|done|lia|].
  intros e s4 I4 C4 Q4. apply wp_bind, wp_bind. eapply wp_free; [exact I4|]. intros _ s5 I5 F5 _. do 2 apply wp_ret.
  assert (calm extra s2 s3) as C3' by (eapply calm_sub; [|exact C3]; set_solver).
  apply HQ.
  - eapply dns_net_quiet; [|exact I5|eapply frame_quiet, F5]. eapply dns_net_quiet; [exact N3|exact I4|by apply Q4].
  - eapply calm_trans; [by apply frame_calm|]. eapply calm_trans; [exact C3'|]. eapply calm_trans; [exact C4|by apply frame_calm].
Qed.

(** ** The life of an entry *)

(** There is another server for the entry. *)
Definition more_servers (d : dns) (e : dns_table_entry) : bool :=
  match dns_servers d !! Z.to_nat (d_numdns e + 1) with
  | Some a => (d_numdns e + 1 <? DNS_MAX_SERVERS) && negb (a =? 0)
  | None => false
  end.

(** What a check does with an entry; [None]: the name is given up. *)
Definition age (more : bool) (e : dns_table_entry) : option dns_table_entry :=
  if d_state e =? DNS_STATE_NEW then Some (set_asking 0 1 0 (set_state DNS_STATE_ASKING e))
  else if d_state e =? DNS_STATE_ASKING then
    if negb (u8 (d_tmr e - 1) =? 0) then Some (set_asking (d_numdns e) (u8 (d_tmr e - 1)) (d_retries e) e)
    else if u8 (d_retries e + 1) =? DNS_MAX_RETRIES then
      if more then Some (set_asking (u8 (d_numdns e + 1)) 1 0 e) else None
    else Some (set_asking (d_numdns e) (u8 (d_retries e + 1)) (u8 (d_retries e + 1)) e)
  else if d_state e =? DNS_STATE_DONE then
    let ttl := u32 (d_ttl e - 1) in Some (if ttl =? 0 then flush (set_ttl ttl e) else set_ttl ttl e)
  else Some e.

Lemma wf_entry d i e : dns_wf d -> dns_table d !! i = Some e -> entry_ok (dns_servers d) e.
Proof. intros [_ F _ _ _ _] E. by eapply Forall_lookup_1. Qed.

Lemma wf_put d i e : dns_wf d -> entry_ok (dns_servers d) e -> dns_wf (put_entry i e d).
Proof. intros [H1 H2 H3 H4 H5 H6] He. split; try done; cbn [put_entry dns_table]; [by rewrite length_insert|by apply Forall_insert]. Qed.

(** An entry that is not asked for is in order. *)
Lemma entry_ok_rest servers e : length (d_name e) = DNS_MAX_NAME_LENGTH -> ~ asking e -> entry_ok servers e.
Proof. intros Hl Ha. split; [done|]. split; [done|]. intros Hs. destruct Ha. by right. Qed.

Lemma age_ok d e e' : dns_wf d -> entry_ok (dns_servers d) e -> age (more_servers d e) e = Some e' -> entry_ok (dns_servers d) e'.
Proof.
  intros W0 (Hl & Hn & Hs). unfold age. destruct (Z.eqb_spec (d_state e) DNS_STATE_NEW) as [H1|H1].
  { intros [= <-]. split; [done|]. split; [intros _; apply Hn; by left|]. cbn. intros _. split; [done|apply W0]. }
  destruct (Z.eqb_spec (d_state e) DNS_STATE_ASKING) as [H2|H2].
  - specialize (Hn (or_intror H2)). specialize (Hs H2). destruct (negb _); [intros [= <-]; by split_and!|].
    destruct (_ =? DNS_MAX_RETRIES); [|intros [= <-]; by split_and!].
    destruct (more_servers d e) eqn:Em; [|done]. intros [= <-]. split; [done|]. split; [done|]. intros _. cbn [d_numdns set_asking].
    unfold more_servers in Em. destruct (dns_servers d !! Z.to_nat (d_numdns e + 1)) as [a|] eqn:Ea; [|done].
    apply andb_true_iff in Em as [Hd%Z.ltb_lt Hz%negb_true_iff%Z.eqb_neq]. unfold DNS_MAX_SERVERS in *.
    rewrite (wrap_id 8) by (unfold in_u; lia). split; [lia|]. rewrite Ea. congruence.
  - destruct (Z.eqb_spec (d_state e) DNS_STATE_DONE) as [H3|H3]; intros [= <-]; [|by split_and!].
    destruct (_ =? 0); apply entry_ok_rest; try done; intros [Ha|Ha]; cbn in Ha; (congruence || discriminate Ha).
Qed.

(** A server of the resolver. *)
Lemma wf_server d n : dns_wf d -> 0 <= n < DNS_MAX_SERVERS -> exists a, dns_servers d !! Z.to_nat n = Some a /\ in_u 32 a.
Proof.
  intros [_ _ Hl Ha _ _] Hn. destruct (lookup_lt_is_Some_2 (dns_servers d) (Z.to_nat n) ltac:(rewrite Hl; unfold DNS_MAX_SERVERS in *; lia)) as [a E].
  exists a. split; [done|]. by eapply Forall_lookup_1 in Ha.
Qed.

Lemma next_server_run d e s : dns_wf d -> 0 <= d_numdns e -> next_server (d_numdns e) d s = Some (more_servers d e, s).
Proof.
  intros W0 Hn. unfold next_server, more_servers. destruct (Z.ltb_spec (d_numdns e + 1) DNS_MAX_SERVERS) as [Hlt|Hge].
  - destruct (wf_server d (d_numdns e + 1) W0 ltac:(lia)) as (a & Ea & _). unfold bind, server_at, gets. by rewrite Ea.
  - by destruct (dns_servers d !! _).
Qed.

(** A check that keeps the entry. *)
Lemma wp_check_keeps {dapp : dns_app A W} extra R i e e' d Q s : dns_wf d -> dns_net extra R (dns_pcb d) s -> Z.of_nat (length extra) < 49994 ->
  dns_table d !! i = Some e -> age (more_servers d e) e = Some e' ->
  (forall s', dns_net extra R (dns_pcb d) s' -> calm extra s s' -> Q (put_entry i e' d) s') -> wp (dns_check_entry i d) Q s.
Proof.
  intros W0 N Hx E Ea HQ. pose proof (wf_entry _ _ _ W0 E) as He. pose proof (age_ok d e e' W0 He Ea) as He'.
  assert (i < 4)%nat as Hi by (pose proof (lookup_lt_Some _ _ _ E) as Hi; rewrite (dw_table d W0) in Hi; exact Hi).
  assert (forall n e1 (K : Z -> M A W dns), entry_ok (dns_servers d) e1 -> asking e1 -> 0 <= n < DNS_MAX_SERVERS -> d_name e1 = d_name e ->
    (forall x s', dns_net extra R (dns_pcb d) s' -> calm extra s s' -> wp (K x) Q s') ->
    wp (x <- dns_send n (cstr (d_name e)) (Z.of_nat i) (put_entry i e1 d) ;; K x) Q s) as Hsend.
  { intros n e1 K H1 A1 Hn En HK. destruct (wf_server d n W0 Hn) as (a & Ea' & Ha). apply wp_bind.
    eapply (wp_dns_send extra R n _ _ a); [exact N|exact Ea'|exact Ha| |unfold in_u; cint_pow; lia|done|exact HK]. rewrite <-En. by apply H1. }
  unfold dns_check_entry. apply wp_bind. eapply wp_gets; [exact E|]. unfold age in Ea.
  destruct (Z.eqb_spec (d_state e) DNS_STATE_NEW) as [H1|H1].
  { injection Ea as <-. apply Hsend; [done|by right|done|done|]. intros x s' N' C'. by apply wp_ret, HQ. }
  destruct (Z.eqb_spec (d_state e) DNS_STATE_ASKING) as [H2|H2].
  - destruct He as (_ & _ & Hs). destruct (Hs H2) as [Hn _]. cbv zeta.
    destruct (negb (u8 (d_tmr e - 1) =? 0)); [injection Ea as <-; apply wp_ret, HQ; [done|apply calm_refl]|].
    destruct (u8 (d_retries e + 1) =? DNS_MAX_RETRIES).
    + unfold wp. rewrite (bind_run (next_server _ d) _ s (more_servers d e) s) by (apply next_server_run; [done|lia]).
      destruct (more_servers d e); [|done]. injection Ea as <-. apply (wp_ret (_ : dns)), HQ; [done|apply calm_refl].
    + injection Ea as <-. apply Hsend; [done|by right|done|done|]. intros x s' N' C'. by apply wp_ret, HQ.
  - destruct (Z.eqb_spec (d_state e) DNS_STATE_DONE) as [H3|H3]; injection Ea as <-; apply wp_ret.
    + apply HQ; [done|apply calm_refl].
    + assert (put_entry i e d = d) as <-; [|apply HQ; [done|apply calm_refl]].
      unfold put_entry. rewrite list_insert_id by done. by destruct d.
Qed.

(** A check that gives the name up: the user is told, then the entry is flushed. *)
Lemma check_gives_up {dapp : dns_app A W} i e d s : dns_wf d -> dns_table d !! i = Some e -> age (more_servers d e) e = None ->
  dns_check_entry i d s = (d <- call_found e None (put_entry i (set_asking (d_numdns e) 0 DNS_MAX_RETRIES e) d) ;; flush_entry i d) s.
Proof.
  intros W0 E Ea. pose proof (wf_entry _ _ _ W0 E) as (_ & _ & Hs). unfold dns_check_entry. rewrite (bind_run (entry_at i d) _ s e s) by
    (unfold entry_at, gets; by rewrite E). unfold age in Ea.
  destruct (d_state e =? DNS_STATE_NEW); [done|]. destruct (Z.eqb_spec (d_state e) DNS_STATE_ASKING) as [H2|H2]; [|by destruct (d_state e =? DNS_STATE_DONE)].
  cbv zeta. destruct (Z.eqb_spec (u8 (d_tmr e - 1)) 0) as [Ht|Ht]; [|done]. cbn [negb] in *.
  destruct (Z.eqb_spec (u8 (d_retries e + 1)) DNS_MAX_RETRIES) as [Hr|Hr]; [|done]. destruct (more_servers d e) eqn:Em; [done|].
  rewrite (bind_run (next_server _ d) _ s false s) by (rewrite next_server_run, Em; [done|done|]; destruct (Hs H2); lia).
  by rewrite Ht, Hr.
Qed.

Context {dapp : dns_app A W} {dlaws : dns_app_laws A W}.

(** The resolver and the stack after a call. *)
Record after extra R (d : dns) s (d' : dns) s' : Prop := {
  af_wf : dns_wf d';
  af_pcb : dns_pcb d' = dns_pcb d;
  af_servers : dns_servers d' = dns_servers d;
  af_net : dns_net extra R (dns_pcb d) s';
  af_calm : calm extra s s' }.

Lemma after_refl extra R d s : dns_wf d -> dns_net extra R (dns_pcb d) s -> after extra R d s d s.
Proof. intros W0 N. split; try done. apply calm_refl. Qed.

Lemma after_trans extra R d s d1 s1 d2 s2 : after extra R d s d1 s1 -> after extra R d1 s1 d2 s2 -> after extra R d s d2 s2.
Proof. intros [W1 P1 S1 N1 C1] [W2 P2 S2 N2 C2]. rewrite P1 in *. split; try congruence. by eapply calm_trans. Qed.

Lemma after_put extra R d s d' s' i e : after extra R d s d' s' -> entry_ok (dns_servers d) e -> after extra R d s (put_entry i e d') s'.
Proof. intros [W1 P1 S1 N1 C1] He. split; try done. apply wf_put; [done|by rewrite S1]. Qed.

(** The user of a name is told. *)
Lemma wp_call_found extra R e ip d Q s : dns_wf d -> dns_pcb d ≠ 0 -> dns_net extra R (dns_pcb d) s -> Z.of_nat (length extra) < 49994 ->
  (forall d' s', after extra R d s d' s' -> keeps_asking d d' -> Q d' s') -> wp (call_found e ip d) Q s.
Proof.
  intros W0 Hp N Hx HQ. unfold call_found. destruct (d_found e =? 0).
  - apply wp_ret, HQ; [by apply after_refl|]. by split_and!.
  - eapply wp_mono; [eapply found_law; eassumption|]. intros d' s' (W' & K & N' & C'). apply HQ; [|done]. destruct K as (? & ? & _). by split.
Qed.

Lemma wp_flush_entry extra R i d0 s0 d Q s : after extra R d0 s0 d s -> (i < DNS_TABLE_SIZE)%nat ->
  (forall e, dns_table d !! i = Some e -> after extra R d0 s0 (put_entry i (flush e) d) s -> Q (put_entry i (flush e) d) s) -> wp (flush_entry i d) Q s.
Proof.
  intros Af Hi HQ. destruct (lookup_lt_is_Some_2 (dns_table d) i ltac:(rewrite (dw_table d (af_wf _ _ _ _ _ _ Af)); done)) as [e E].
  unfold flush_entry. apply wp_bind. eapply wp_gets; [exact E|]. apply wp_ret, HQ; [done|]. apply after_put; [done|].
  pose proof (wf_entry _ _ _ (af_wf _ _ _ _ _ _ Af) E) as (Hl & _). apply entry_ok_rest; [done|]. by intros [Ha|Ha].
Qed.

(** The name is given to its user, or it is not known, and the entry is given up. *)
Lemma wp_tell_flush extra R i e ip d0 s0 d Q s : after extra R d0 s0 d s -> dns_pcb d ≠ 0 -> (i < DNS_TABLE_SIZE)%nat -> Z.of_nat (length extra) < 49994 ->
  (forall d1 d' s' e', after extra R d0 s0 d' s' -> keeps_asking d d1 -> d' = put_entry i (flush e') d1 -> Q d' s') ->
  wp (d <- call_found e ip d ;; flush_entry i d) Q s.
Proof.
  intros Af Hp Hi Hx HQ. apply wp_bind. pose proof Af as [W1 P1 S1 N1 C1].
  apply (wp_call_found extra R); [done|done|by rewrite P1|done|]. intros d' s' Af' K.
  eapply wp_flush_entry; [eapply after_trans; [exact Af|exact Af']|done|]. intros e' _ Af2. by eapply HQ.
Qed.

Lemma age_asking d e e' : asking e -> age (more_servers d e) e = Some e' -> asking e'.
Proof.
  unfold age. intros [H|H]; rewrite H; cbn [Z.eqb Pos.eqb DNS_STATE_NEW DNS_STATE_ASKING DNS_STATE_DONE].
  - intros [= <-]. by right.
  - destruct (negb _); [intros [= <-]; by right|]. destruct (_ =? DNS_MAX_RETRIES); [|intros [= <-]; by right].
    destruct (more_servers d e); [|done]. intros [= <-]. by right.
Qed.

(** One check, for the entry and for the others. *)
Lemma wp_check_entry extra R i d Q s : dns_wf d -> dns_pcb d ≠ 0 -> dns_net extra R (dns_pcb d) s -> Z.of_nat (length extra) < 49994 -> (i < DNS_TABLE_SIZE)%nat ->
  (forall d' s', after extra R d s d' s' ->
    (forall j e, j ≠ i -> dns_table d !! j = Some e -> asking e -> dns_table d' !! j = Some e) ->
    (forall e e', dns_table d !! i = Some e -> age (more_servers d e) e = Some e' -> dns_table d' !! i = Some e') -> Q d' s') ->
  wp (dns_check_entry i d) Q s.
Proof.
  intros W0 Hp N Hx Hi HQ. destruct (lookup_lt_is_Some_2 (dns_table d) i ltac:(by rewrite (dw_table d W0))) as [e E].
  destruct (age (more_servers d e) e) as [e'|] eqn:Ea.
  - eapply wp_check_keeps; [done|exact N|done|exact E|exact Ea|]. intros s' N' C'. apply HQ.
    + apply after_put; [by split|]. apply (age_ok d e e' W0 (wf_entry d i e W0 E) Ea).
    + intros j f Hj Ef _. cbn [put_entry dns_table]. by rewrite list_lookup_insert_ne.
    + intros f f' Ef Ef'. cbn [put_entry dns_table]. rewrite list_lookup_insert_eq by (by rewrite (dw_table d W0)). congruence.
  - unfold wp. rewrite (check_gives_up i e d s W0 E Ea).
    match goal with |- match ?m s with _ => _ end => change (wp m Q s) end.
    pose proof (wf_entry _ _ _ W0 E) as (Hl & Hn & Hs).
    eapply (wp_tell_flush extra R i e None d s); [|done|done|done|].
    + apply after_put; [by apply after_refl|]. split_and!; done.
    + intros d1 d' s' e' Af (_ & _ & K) ->. apply HQ; [done| |congruence].
      intros j f Hj Ef Hf. cbn [put_entry dns_table]. rewrite list_lookup_insert_ne by done. apply K; [|done].
      cbn [put_entry dns_table]. by rewrite list_lookup_insert_ne.
Qed.

(** All of them: an entry that is asked for ages. *)
Lemma wp_check_entries extra R n : forall i d Q s, dns_wf d -> dns_pcb d ≠ 0 -> dns_net extra R (dns_pcb d) s -> Z.of_nat (length extra) < 49994 ->
  (i + n <= DNS_TABLE_SIZE)%nat ->
  (forall d' s', after extra R d s d' s' ->
    (forall j e, dns_table d !! j = Some e -> asking e -> (j < i \/ i + n <= j)%nat -> dns_table d' !! j = Some e) ->
    (forall j e e', dns_table d !! j = Some e -> asking e -> (i <= j < i + n)%nat -> age (more_servers d e) e = Some e' -> dns_table d' !! j = Some e') ->
    Q d' s') -> wp (check_entries n i d) Q s.
Proof.
  induction n as [|n IH]; intros i d Q s W0 Hp N Hx Hi HQ; cbn [check_entries].
  { apply wp_ret, HQ; [by apply after_refl|done|lia]. }
  apply wp_bind. eapply wp_check_entry; [done|done|exact N|done|lia|]. intros d1 s1 Af O1 A1.
  pose proof Af as [W1 P1 S1 N1 C1]. apply IH; [done|by rewrite P1|by rewrite P1|done|lia|]. intros d2 s2 Af2 O2 A2.
  apply HQ; [by eapply after_trans| |].
  - intros j e E Ha Hj. apply O2; [apply O1; [lia|done|done]|done|lia].
  - intros j e e' E Ha Hj Ea. destruct (decide (j = i)) as [->|Hne].
    + apply O2; [by eapply A1|by eapply age_asking|lia].
    + apply (A2 j e e'); [by apply O1|done|lia|]. unfold more_servers in *. by rewrite S1.
Qed.

Lemma wp_dns_tmr extra R d Q s : dns_wf d -> dns_pcb d ≠ 0 -> dns_net extra R (dns_pcb d) s -> Z.of_nat (length extra) < 49994 ->
  (forall d' s', after extra R d s d' s' ->
    (forall j e e', dns_table d !! j = Some e -> asking e -> age (more_servers d e) e = Some e' -> dns_table d' !! j = Some e') ->
    Q d' s') -> wp (dns_tmr d) Q s.
Proof.
  intros W0 Hp N Hx HQ. unfold dns_tmr. rewrite (proj2 (Z.eqb_neq (dns_pcb d) 0)) by done. cbn [negb].
  apply (wp_check_entries extra R); [done|done|done|done|done|]. intros d' s' Af _ Ha. apply HQ; [done|]. intros j e e' E He.
  apply (Ha j e e' E He). pose proof (lookup_lt_Some _ _ _ E) as Hj. rewrite (dw_table d W0) in Hj. lia.
Qed.

(** *** Timeouts *)

Fixpoint ticks (n : nat) (d : dns) : M A W dns :=
  match n with O => ret d | S n => d <- dns_tmr d ;; ticks n d end.

Fixpoint ages (n : nat) (d : dns) (e : dns_table_entry) : option dns_table_entry :=
  match n with O => Some e | S n => e ← age (more_servers d e) e; ages n d e end.

Lemma ages_servers n : forall d d' e, dns_servers d' = dns_servers d -> ages n d' e = ages n d e.
Proof.
  induction n as [|n IH]; intros d d' e Hs; [done|]. cbn [ages]. unfold more_servers at 1. rewrite Hs. fold (more_servers d e).
  destruct (age _ e) as [e'|]; [|done]. by apply IH.
Qed.

Lemma wp_dns_ticks extra R n : forall d j e e' Q s, dns_wf d -> dns_pcb d ≠ 0 -> dns_net extra R (dns_pcb d) s -> Z.of_nat (length extra) < 49994 ->
  dns_table d !! j = Some e -> asking e -> ages n d e = Some e' ->
  (forall d' s', after extra R d s d' s' -> dns_table d' !! j = Some e' -> asking e' -> Q d' s') -> wp (ticks n d) Q s.
Proof.
  induction n as [|n IH]; intros d j e e' Q s W0 Hp N Hx E Ha Ea HQ; cbn [ticks ages] in *.
  { injection Ea as <-. apply wp_ret, HQ; [by apply after_refl|done|done]. }
  destruct (age _ e) as [e1|] eqn:E1; [|done]. cbn [mbind option_bind] in Ea. apply wp_bind.
  eapply wp_dns_tmr; [done|done|exact N|done|]. intros d1 s1 Af Hj. pose proof Af as [W1 P1 S1 N1 C1].
  eapply (IH d1 j e1 e'); [done|by rewrite P1|by rewrite P1|done|by eapply Hj|by eapply age_asking|by rewrite (ages_servers n d)|].
  intros d' s' Af' E' A'. apply HQ; [by eapply after_trans|done|done].
Qed.

(** *** Questions *)

Definition completed (e : dns_table_entry) : Prop := d_state e = DNS_STATE_DONE.

Lemma find_unused seqno l e l' : forall i lseq lseqi, Forall (fun e => d_state e ≠ DNS_STATE_UNUSED) l -> d_state e = DNS_STATE_UNUSED ->
  (find_entry seqno (l ++ e :: l') i lseq lseqi).1 = i + Z.of_nat (length l).
Proof.
  induction l as [|x l IH]; intros i lseq lseqi F E; cbn [app find_entry length].
  { rewrite E. cbn. lia. }
  apply Forall_cons in F as [Hx F]. rewrite (proj2 (Z.eqb_neq _ _) Hx). destruct (_ && _); rewrite IH by done; lia.
Qed.

(** The oldest of the completed entries, by the difference of the numbers. *)
Lemma find_oldest seqno l : forall i lseq lseqi, 0 <= seqno < 256 -> Forall (fun e => 0 <= d_seqno e < 256) l -> 0 <= lseq ->
  Forall (fun e => d_state e ≠ DNS_STATE_UNUSED) l ->
  exists k, find_entry seqno l i lseq lseqi = (i + Z.of_nat (length l), k) /\
    (k = lseqi /\ Forall (fun e => completed e -> seqno - d_seqno e <= lseq) l \/
     exists n e, k = i + Z.of_nat n /\ l !! n = Some e /\ completed e /\ lseq < seqno - d_seqno e /\
       Forall (fun f => completed f -> d_seqno e <= d_seqno f) l).
Proof.
  induction l as [|x l IH]; intros i lseq lseqi Hs F Hl Fu; cbn [find_entry length].
  { exists lseqi. rewrite Z.add_0_r. split; [done|]. left. split; [done|constructor]. }
  apply Forall_cons in F as [Hx F], Fu as [Hu Fu]. rewrite (proj2 (Z.eqb_neq _ _) Hu).
  destruct (Z.eqb_spec (d_state x) DNS_STATE_DONE) as [Hd|Hd]; [destruct (Z.ltb_spec lseq (seqno - d_seqno x)) as [Hlt|Hge]|]; cbn [andb].
  - rewrite (wrap_id 8) by (unfold in_u; cint_pow; lia).
    destruct (IH (i + 1) (seqno - d_seqno x) i Hs F ltac:(lia) Fu) as (k & -> & H). exists k. split; [f_equal; lia|]. right.
    destruct H as [[-> H]|(n & e & -> & E & Ce & Hlt' & H)].
    + exists 0%nat, x. split; [lia|]. split; [done|]. split; [done|]. split; [done|]. constructor; [lia|].
      eapply Forall_impl; [exact H|]. intros f Hf Cf. specialize (Hf Cf). lia.
    + exists (S n), e. split; [lia|]. split; [done|]. split; [done|]. split; [lia|]. constructor; [lia|done].
  - destruct (IH (i + 1) lseq lseqi Hs F Hl Fu) as (k & -> & H). exists k. split; [f_equal; lia|].
    destruct H as [[-> H]|(n & e & -> & E & Ce & Hlt' & H)]; [left; split; [done|by constructor]|right].
    exists (S n), e. split; [lia|]. split; [done|]. split; [done|]. split; [done|]. constructor; [lia|done].
  - destruct (IH (i + 1) lseq lseqi Hs F Hl Fu) as (k & -> & H). exists k. split; [f_equal; lia|].
    destruct H as [[-> H]|(n & e & -> & E & Ce & Hlt' & H)]; [left; split; [done|by constructor]|right].
    exists (S n), e. split; [lia|]. split; [done|]. split; [done|]. split; [done|]. by constructor.
Qed.

(** Both indices are in the table. *)
Lemma find_range seqno l : forall i lseq lseqi, 0 <= i -> 0 <= lseqi < i \/ lseqi = 0 ->
  i <= (find_entry seqno l i lseq lseqi).1 <= i + Z.of_nat (length l) /\
  (0 <= (find_entry seqno l i lseq lseqi).2 < i + Z.of_nat (length l) \/ (find_entry seqno l i lseq lseqi).2 = 0).
Proof.
  induction l as [|x l IH]; intros i lseq lseqi Hi Hl; cbn [find_entry length fst snd]; [lia|].
  destruct (d_state x =? DNS_STATE_UNUSED); [cbn [fst snd]; lia|].
  destruct (_ && _); [specialize (IH (i + 1) (u8 (seqno - d_seqno x)) i ltac:(lia) ltac:(lia))|specialize (IH (i + 1) lseq lseqi ltac:(lia) ltac:(lia))]; lia.
Qed.

Lemma cstr_until l k : cstr (l ++ 0 :: k) = cstr l.
Proof. induction l as [|c l IH]; [done|]. cbn [app cstr]. destruct (c =? 0); [done|]. by rewrite IH. Qed.

Lemma cstr_length l : (length (cstr l) <= length l)%nat.
Proof. induction l as [|c l IH]; [done|]. cbn [cstr]. destruct (c =? 0); cbn [length]; lia. Qed.

Lemma copy_name_text name old : (length name <= 255)%nat -> cstr (copy_name name old) = cstr name.
Proof. intros Hn. unfold copy_name, DNS_MAX_NAME_LENGTH. rewrite Nat.min_l, take_ge by lia. apply cstr_until. Qed.

Lemma copy_name_length name old : length old = DNS_MAX_NAME_LENGTH -> length (copy_name name old) = DNS_MAX_NAME_LENGTH.
Proof. unfold copy_name, DNS_MAX_NAME_LENGTH. intros Ho. rewrite length_app, length_take. cbn [length]. rewrite length_drop. lia. Qed.

(** The entry for a name. *)
Definition asked (name : list Z) (found arg seqno : Z) (e : dns_table_entry) : dns_table_entry :=
  mk_dns_entry DNS_STATE_ASKING 0 1 0 seqno (d_err e) (d_ttl e) (copy_name name (d_name e)) (d_ipaddr e) found arg.

(** The index that [dns_enqueue] chooses, if any. *)
Definition slot (d : dns) : option nat :=
  let '(i, lseqi) := find_entry (dns_seqno d) (dns_table d) 0 0 0 in
  if i =? Z.of_nat DNS_TABLE_SIZE then
    e ← dns_table d !! Z.to_nat lseqi; if d_state e =? DNS_STATE_DONE then Some (Z.to_nat lseqi) else None
  else Some (Z.to_nat i).

Definition next_seqno (d : dns) : dns := mk_dns (dns_pcb d) (u8 (dns_seqno d + 1)) (dns_table d) (dns_servers d) (dns_payload d).

Lemma wf_next d : dns_wf d -> dns_wf (next_seqno d).
Proof. by intros []. Qed.

Lemma wp_dns_enqueue extra R name found arg d Q s : dns_wf d -> dns_pcb d ≠ 0 -> dns_net extra R (dns_pcb d) s -> Z.of_nat (length extra) < 49994 ->
  (length name <= 254)%nat ->
  match slot d with
  | None => Q (ERR_MEM, d) s
  | Some i => forall e s', dns_table d !! i = Some e -> let d' := put_entry i (asked name found arg (dns_seqno d) e) (next_seqno d) in
      after extra R d s d' s' -> Q (ERR_INPROGRESS, d') s'
  end -> wp (dns_enqueue name found arg d) Q s.
Proof.
  intros W0 Hp N Hx Hn HQ. unfold dns_enqueue, slot in *. pose proof (find_range (dns_seqno d) (dns_table d) 0 0 0 ltac:(done) ltac:(by right)) as [H1 H2].
  destruct (find_entry _ _ 0 0 0) as [i k]. cbn [fst snd] in H1, H2. rewrite (dw_table d W0) in *. cbv zeta.
  destruct (lookup_lt_is_Some_2 (dns_table d) (Z.to_nat k)) as [old Eo]; [rewrite (dw_table d W0); unfold DNS_TABLE_SIZE in *; lia|].
  apply wp_bind. eapply wp_gets; [exact Eo|]. rewrite Eo in HQ. cbn [mbind option_bind] in HQ.
  assert (forall n, (n < DNS_TABLE_SIZE)%nat -> (forall e s', dns_table d !! n = Some e -> let d' := put_entry n (asked name found arg (dns_seqno d) e) (next_seqno d) in
      after extra R d s d' s' -> Q (ERR_INPROGRESS, d') s') ->
    wp (e <- entry_at n d ;;
        d <- dns_check_entry n (mk_dns (dns_pcb d) (u8 (dns_seqno d + 1)) (<[n := mk_dns_entry DNS_STATE_NEW (d_numdns e) (d_tmr e) (d_retries e) (dns_seqno d) (d_err e) (d_ttl e)
               (copy_name name (d_name e)) (d_ipaddr e) found arg]> (dns_table d)) (dns_servers d) (dns_payload d)) ;;
        ret (ERR_INPROGRESS, d)) Q s) as Hrest.
  { intros n Hi HQ'. destruct (lookup_lt_is_Some_2 (dns_table d) n ltac:(by rewrite (dw_table d W0))) as [e E].
    apply wp_bind. eapply wp_gets; [exact E|]. set (e1 := mk_dns_entry DNS_STATE_NEW _ _ _ _ _ _ _ _ _ _).
    pose proof (wf_entry _ _ _ W0 E) as (Hl & _). assert (entry_ok (dns_servers d) e1) as He1.
    { split; [by apply copy_name_length|]. split; [|done]. intros _. cbn [e1 d_name]. rewrite copy_name_text by lia. pose proof (cstr_length name). lia. }
    pose proof (wf_put (next_seqno d) n e1 (wf_next d W0) He1) as W1.
    apply wp_bind. change (mk_dns _ _ (<[n := e1]> _) _ _) with (put_entry n e1 (next_seqno d)).
    assert (dns_table (put_entry n e1 (next_seqno d)) !! n = Some e1) as E1 by (apply list_lookup_insert_eq; cbn; by rewrite (dw_table d W0)).
    eapply (wp_check_keeps extra R n e1); [exact W1|exact N|done|exact E1|reflexivity|]. intros s' N' C'. apply wp_ret.
    assert (put_entry n (set_asking 0 1 0 (set_state DNS_STATE_ASKING e1)) (put_entry n e1 (next_seqno d)) =
      put_entry n (asked name found arg (dns_seqno d) e) (next_seqno d)) as ->
      by (unfold put_entry; cbn [dns_table dns_pcb dns_seqno dns_servers dns_payload]; by rewrite list_insert_insert_eq).
    apply HQ'; [done|]. split; try done. apply wf_put; [by apply wf_next|]. split; [by apply copy_name_length|].
    split; [intros _; cbn [asked d_name]; rewrite copy_name_text by lia; pose proof (cstr_length name); lia|]. intros _. split; [done|apply W0]. }
  unfold DNS_TABLE_SIZE in *. destruct (Z.eqb_spec i (Z.of_nat 4)) as [->|Hi]; cbn [andb].
  - destruct (d_state old =? DNS_STATE_DONE); cbn [negb]; [apply Hrest; [lia|exact HQ]|by apply wp_ret].
  - apply Hrest; [lia|exact HQ].
Qed.

(** *** Responses *)

(** What a response says to an entry. *)
Definition answer (e : dns_table_entry) (r : message) : option (Z * Z) :=
  if (Z.land (m_flags1 r) DNS_FLAG1_RESPONSE =? 0) || negb (Z.land (m_flags2 r) DNS_FLAG2_ERR_MASK =? 0) || negb (same_name (d_name e) (m_name r))
  then None else resolve (m_answers r).

Lemma response_run e r m : message_ok r -> at_ m 0 (enc_message r) -> (length (text (m_name r)) <= length (d_name e))%nat ->
  (exists y, get16 m 0 = Some y /\ Chksum.lwip_htons y = m_id r) /\ m !! 3%nat = Some (m_flags2 r) /\ response e m = Some (answer e r).
Proof.
  intros (Hid & Hna & F & Fr) H Hn. unfold enc_message in H.
  apply at_app in H as [H0 H]. apply at_app in H as [H2 H]. apply at_app in H as [H4 H]. apply at_app in H as [H6 H].
  apply at_app in H as [H8 H]. apply at_app in H as [H10 H]. apply at_app in H as [Hq H]. apply at_app in H as [Hq1 H].
  apply at_app in H as [Hq2 H]. apply at_app in H as [Ha _]. cbn [be16 length Nat.add] in *.
  apply at_cons in H2 as [E2 H3]. apply at_cons in H3 as [E3 _].
  destruct (get16_be m 0 (m_id r) H0 Hid) as (y0 & E0 & Hy0 & _).
  destruct (get16_be m 4 1 H4 ltac:(done)) as (y4 & E4 & Hy4 & _).
  destruct (get16_be m 6 _ H6 Hna) as (y6 & E6 & Hy6 & _).
  split; [by exists y0|]. split; [done|]. unfold response. rewrite E2, E3, E4, E6. cbn [mbind option_bind]. rewrite Hy4, Hy6. unfold answer.
  destruct (_ =? 0); [done|]. destruct (Z.land (m_flags2 r) _ =? 0); [|done]. cbn [negb orb Z.eqb Pos.eqb].
  change (Z.to_nat SIZEOF_DNS_HDR) with 12%nat. unfold m_name in *. rewrite (dns_compare_name_run (d_name e) (m_first r) (m_labels r) m 12 F Hq Hn).
  cbn [mbind option_bind]. destruct (same_name _ _); [|done]. cbn [Z.eqb negb].
  rewrite (parse_name_run m 12 (Full (m_first r) (m_labels r)) F Hq). cbn [mbind option_bind].
  change (Z.to_nat SIZEOF_DNS_QUERY) with 4%nat. rewrite Nat2Z.id. apply scan_run; [done|].
  cbn [enc_owner]. replace (12 + length (enc_name (m_first r :: m_labels r)) + 4)%nat with (12 + length (enc_name (m_first r :: m_labels r)) + 2 + 2)%nat by lia.
  exact Ha.
Qed.

(** The entry that a response completes. *)
Definition completes (r : message) (e : dns_table_entry) : dns_table_entry :=
  set_err (Z.land (m_flags2 r) DNS_FLAG2_ERR_MASK) (set_state DNS_STATE_DONE e).

(** The message in the buffer. *)
Definition copied (msg : list Z) (d : dns) : dns := set_payload_buffer (msg ++ drop (length msg) (dns_payload d)) d.

(** The message of a packet is copied. *)
Lemma dns_recv_copies extra R p b l msg d s : packet extra R p b l s -> contents (bytes (ps s)) ((p, b) :: l) = msg -> dns_wf d ->
  (26 <= length msg <= 512)%nat -> dns_recv p d s = (d' <- take_response (copied msg d) ;; drop_packet p ;; ret d') s.
Proof.
  intros H Hm W0 Hlen. destruct (pk_bounds _ _ _ _ _ _ H) as (Hp & _ & _ & Htl & _ & Hok). pose proof H as [_ Hc _ _ _].
  pose proof (contents_length (bytes (ps s)) _ Hok) as Hcl. destruct Hok as (Htot & Hok). cbn [tot] in Hcl. rewrite Hm in Hcl.
  assert (tot_len b = Z.of_nat (length msg)) as Hb by lia.
  unfold dns_recv. rewrite (bind_run (the_pbuf p) _ s b s) by (unfold the_pbuf, gets; by rewrite (pk_buf _ _ _ _ _ _ H : get p (ps s) = _)).
  rewrite (proj2 (Z.ltb_ge DNS_MSG_SIZE (tot_len b))) by (unfold DNS_MSG_SIZE; lia).
  rewrite (proj2 (Z.ltb_ge (tot_len b) (SIZEOF_DNS_HDR + SIZEOF_DNS_QUERY + SIZEOF_DNS_ANSWER))) by (unfold SIZEOF_DNS_HDR, SIZEOF_DNS_QUERY, SIZEOF_DNS_ANSWER; lia).
  rewrite bind_bind.
  assert (window 0 (tot_len b) (contents (bytes (ps s)) ((p, b) :: l)) = msg) as Ew.
  { unfold window. rewrite Hm, drop_0, take_ge by lia. done. }
  pose proof (copy_partial_all (ps s) p ((p, b) :: l) (tot_len b) 0 (dns_payload d) Hc (conj Htot Hok) ltac:(lia) ltac:(lia) ltac:(lia)) as Ec.
  cbv zeta in Ec. rewrite Ew in Ec. specialize (Ec ltac:(rewrite (dw_payload d W0); unfold DNS_MSG_SIZE; lia)).
  rewrite (bind_run (gets _) _ s _ s) by (unfold gets; rewrite Ec; reflexivity).
  cbv beta iota zeta. rewrite Hb, Z.eqb_refl. done.
Qed.

(** The response is taken. *)
Lemma take_response_run r i e d s : message_ok r -> at_ (dns_payload d) 0 (enc_message r) -> m_id r = Z.of_nat i ->
  dns_table d !! i = Some e -> (i < DNS_TABLE_SIZE)%nat -> (length (text (m_name r)) <= length (d_name e))%nat ->
  take_response d s =
    (if d_state e =? DNS_STATE_ASKING then
       match answer e r with
       | Some (ttl, ip) => let e := set_ipaddr ip (set_ttl ttl (completes r e)) in call_found e (Some ip) (put_entry i e d)
       | None => d' <- call_found (completes r e) (Some IpAddr.IPADDR_NONE) (put_entry i (completes r e) d) ;; flush_entry i d'
       end
     else ret d) s.
Proof.
  intros Hr H Hi E Hlt Hn. pose proof Hr as (Hid & _). destruct (response_run e r _ Hr H Hn) as ((y & E0 & Hy) & E3 & Er). unfold take_response.
  rewrite (bind_run (gets _) _ s i s) by (unfold gets; rewrite E0; cbn [mbind option_bind]; by rewrite Hy, Hi, Nat2Z.id).
  rewrite bool_decide_true by done. rewrite (bind_run (entry_at i d) _ s e s) by (unfold entry_at, gets; by rewrite E).
  destruct (d_state e =? DNS_STATE_ASKING); [|done]. rewrite (bind_run (gets _) _ s (m_flags2 r) s) by (unfold gets; by rewrite E3).
  cbv zeta. fold (completes r e). rewrite (bind_run (gets _) _ s (answer e r) s); [done|].
  unfold gets. change (response (completes r e) (dns_payload d)) with (response e (dns_payload d)). by rewrite Er.
Qed.

(** The entry with the address. *)
Lemma completes_ok servers r e : entry_ok servers e -> forall ttl ip, entry_ok servers (completes r e) /\ entry_ok servers (set_ipaddr ip (set_ttl ttl (completes r e))).
Proof. intros (Hl & _). split; apply entry_ok_rest; try done; by intros [Ha|Ha]. Qed.

End Correct.

End Dns.
