(* ===== verification/DnsApi.v ===== *)
(** * The resolver: its properties

    What the functions of dns.c promise to their users: every sequence of their calls
    runs and keeps the table, the servers and the stack in order ([dns_safe]); the
    messages sent, the responses taken, timeouts and expiry; and where the code
    does not do what it means to.  The model is in [Dns]. *)
From S2P Require Import Prelude Alloc Pbuf PbufData Chksum IpAddr Refs Net Etharp Wire ArpCache Netif Packet IpOut Pcbs Ip Udp UdpApi DnsMsg Dns.
Import Alloc Pbuf PbufData Refs Net Etharp Wire ArpCache Netif Packet IpOut Pcbs Ip Udp UdpApi DnsMsg Dns.

Module DnsApi.
Local Open Scope net_scope.

Section Api.
Context {A W : Type} {ops : alloc_ops A} {laws : alloc_laws A} {lops : link_ops A W} {llaws : link_laws A W}.
Context {dapp : dns_app A W}.
Implicit Types s : net A W.

(** ** Calls of the users *)

Inductive dns_call := Tmr | GetHostByName (hostname : option (list Z)) (addr : bool) (found arg : Z) | SetServer (numdns dnsserver : Z).

Definition dns_do (c : dns_call) (d : dns) : M A W dns :=
  match c with
  | Tmr => dns_tmr d
  | GetHostByName hostname addr found arg => x <- dns_gethostbyname hostname addr found arg d ;; ret x.2
  | SetServer numdns dnsserver => ret (dns_setserver numdns dnsserver d)
  end.

(** What the user answers for: the types, and no name of 255 characters. *)
Definition call_ok (c : dns_call) : Prop :=
  match c with
  | Tmr => True
  | GetHostByName hostname _ _ _ => forall h, hostname = Some h -> length h ≠ 255%nat
  | SetServer numdns dnsserver => 0 <= numdns < 256 /\ in_u 32 dnsserver
  end.

Fixpoint dns_calls (l : list dns_call) (d : dns) : M A W dns :=
  match l with [] => ret d | c :: l => d <- dns_do c d ;; dns_calls l d end.

(** The resolver and the stack in order. *)
Record in_order extra R (d0 : dns) s0 (d : dns) s : Prop := {
  io_wf : dns_wf d;
  io_pcb : dns_pcb d = dns_pcb d0;
  io_net : dns_net extra R (dns_pcb d0) s;
  io_calm : calm extra s0 s }.

Lemma after_order extra R d s d' s' : after extra R d s d' s' -> in_order extra R d s d' s'.
Proof. intros []. by split. Qed.

Lemma setserver_wf n a d : dns_wf d -> 0 <= n -> in_u 32 a -> dns_wf (dns_setserver n a d).
Proof.
  intros W0 Hn Ha. unfold dns_setserver. destruct (_ && _) eqn:E; [|done]. apply andb_true_iff in E as [E Hz%negb_true_iff%Z.eqb_neq].
  destruct W0 as [H1 H2 H3 H4 H5 H6]. assert (forall k, dns_servers d !! k ≠ Some 0 -> <[Z.to_nat n := a]> (dns_servers d) !! k ≠ Some 0) as Hk.
  { intros k Hk. destruct (decide (k = Z.to_nat n)) as [->|Hne]; [|by rewrite list_lookup_insert_ne].
    destruct (decide (Z.to_nat n < length (dns_servers d))%nat); [rewrite list_lookup_insert_eq by done; congruence|].
    by rewrite list_insert_ge by lia. }
  split; cbn [set_servers dns_table dns_servers dns_payload]; try done.
  - eapply Forall_impl; [exact H2|]. intros e (Hl & Hc & Hs). split; [done|]. split; [done|]. intros He. destruct (Hs He). auto.
  - by rewrite length_insert.
  - by apply Forall_insert.
  - by apply Hk.
Qed.

Context {dlaws : dns_app_laws A W}.

Lemma wp_gethostbyname extra R hostname addr found arg d Q s : dns_wf d -> dns_pcb d ≠ 0 -> dns_net extra R (dns_pcb d) s ->
  Z.of_nat (length extra) < 49994 -> (forall h, hostname = Some h -> length h ≠ 255%nat) ->
  (forall e a d' s', after extra R d s d' s' -> Q (e, a, d') s') -> wp (dns_gethostbyname hostname addr found arg d) Q s.
Proof.
  intros W0 Hp N Hx Hh HQ. assert (forall e a, Q (e, a, d) s) as H0 by (intros; by apply HQ, after_refl).
  unfold dns_gethostbyname. destruct hostname as [h|]; [|by apply wp_ret]. specialize (Hh h eq_refl).
  destruct (_ || _ || _ || bool_decide (DNS_MAX_NAME_LENGTH <= length h)%nat) eqn:E; [by apply wp_ret|].
  apply orb_false_iff in E as [_ Hl%bool_decide_eq_false]. unfold DNS_MAX_NAME_LENGTH in Hl. cbv zeta.
  destruct (negb _); [by apply wp_ret|]. apply wp_bind. eapply wp_dns_enqueue; [done|done|exact N|done|lia|].
  destruct (slot d) as [i|]; [|by apply wp_ret]. cbv zeta. intros e s' _ Af. by apply wp_ret, HQ.
Qed.

Lemma wp_dns_do extra R c d s : dns_wf d -> dns_pcb d ≠ 0 -> dns_net extra R (dns_pcb d) s -> Z.of_nat (length extra) < 49994 -> call_ok c ->
  wp (dns_do c d) (in_order extra R d s) s.
Proof.
  intros W0 Hp N Hx Hc. destruct c as [|h ad f arg|n a]; cbn [dns_do call_ok] in *.
  - eapply wp_dns_tmr; [done|done|exact N|done|]. intros d' s' Af _. by apply after_order.
  - apply wp_bind. eapply (wp_gethostbyname extra R); [done|done|exact N|done|done|]. intros e x d' s' Af. by apply wp_ret, after_order.
  - apply wp_ret. split; [apply setserver_wf; [done|lia|apply Hc]| | |apply calm_refl]; [|done]. unfold dns_setserver. by destruct (_ && _).
Qed.

(** ** The life of an entry *)

Lemma ages_plus n m d : forall e, ages (n + m) d e = e' ← ages n d e; ages m d e'.
Proof. induction n as [|n IH]; intros e; [done|]. cbn [Nat.add ages]. destruct (age _ e) as [e'|]; [apply IH|done]. Qed.

(** The questions to one server: six seconds. *)
Lemma ages_server d e : d_state e = DNS_STATE_ASKING -> d_tmr e = 1 -> d_retries e = 0 -> ages 6 d e = Some (set_asking (d_numdns e) 1 3 e).
Proof. destruct e. cbn [d_state d_tmr d_retries]. intros -> -> ->. reflexivity. Qed.

(** The last second: the next server, if there is one. *)
Lemma age_last d e n : d_state e = DNS_STATE_ASKING ->
  age (more_servers d (set_asking n 1 3 e)) (set_asking n 1 3 e) =
    if more_servers d (set_asking n 1 3 e) then Some (set_asking (u8 (n + 1)) 1 0 e) else None.
Proof. destruct e. cbn [d_state]. intros ->. reflexivity. Qed.

Lemma ages_timeout d e : d_state e = DNS_STATE_ASKING -> d_numdns e = 0 -> d_tmr e = 1 -> d_retries e = 0 ->
  ages (if more_servers d e then 13 else 6) d e = Some (set_asking (if more_servers d e then 1 else 0) 1 3 e).
Proof.
  intros Hs Hn Ht Hr. destruct (more_servers d e) eqn:Em; [|by rewrite <-Hn, ages_server].
  rewrite (ages_plus 6 7), ages_server by done. cbn [mbind option_bind]. rewrite (ages_plus 1 6). cbn [ages]. rewrite age_last by done.
  assert (more_servers d (set_asking (d_numdns e) 1 3 e) = true) as -> by done. rewrite Hn. cbn [mbind option_bind].
  change (u8 (0 + 1)) with 1. by apply (ages_server d (set_asking 1 1 0 e)).
Qed.

(** There is no third server. *)
Lemma no_third d e : dns_wf d -> d_numdns e = 1 -> more_servers d e = false.
Proof. intros W0 Hn. unfold more_servers. rewrite Hn. by destruct (dns_servers d !! _). Qed.

Fixpoint checks (n i : nat) (d : dns) : M A W dns :=
  match n with O => ret d | S n => d <- dns_check_entry i d ;; checks n i d end.

Lemma checks_snoc n i : forall d s, checks (S n) i d s = (d <- checks n i d ;; dns_check_entry i d) s.
Proof.
  induction n as [|n IH]; intros d s.
  - cbn [checks]. unfold bind, ret. by destruct (dns_check_entry i d s) as [[? ?]|].
  - change (checks (S (S n)) i d) with (d <- dns_check_entry i d ;; checks (S n) i d).
    change (checks (S n) i d) with (d <- dns_check_entry i d ;; checks n i d).
    rewrite bind_bind. unfold bind at 1 2. destruct (dns_check_entry i d s) as [[d1 s1]|]; [|done]. apply IH.
Qed.

Lemma put_entry_lookup i e f d : dns_table d !! i = Some f -> dns_table (put_entry i e d) !! i = Some e.
Proof. intros E. apply list_lookup_insert_eq. by eapply lookup_lt_Some. Qed.

Lemma put_entry_twice i e f d : put_entry i e (put_entry i f d) = put_entry i e d.
Proof. unfold put_entry. cbn [dns_table dns_pcb dns_seqno dns_servers dns_payload]. by rewrite list_insert_insert_eq. Qed.

(** A second of an entry that is known. *)
Lemma check_done i e d s : dns_table d !! i = Some e -> d_state e = DNS_STATE_DONE ->
  dns_check_entry i d s = Some (put_entry i (let ttl := u32 (d_ttl e - 1) in if ttl =? 0 then flush (set_ttl ttl e) else set_ttl ttl e) d, s).
Proof. intros E Hs. unfold dns_check_entry. rewrite (bind_run (entry_at i d) _ s e s) by (unfold entry_at, gets; by rewrite E). by rewrite Hs. Qed.

Lemma u32_pred x : u32 (u32 x - 1) = u32 (x - 1).
Proof. unfold u32, wrap. apply Zminus_mod_idemp_l. Qed.

Lemma checks_ttl i e d s n : dns_table d !! i = Some e -> d_state e = DNS_STATE_DONE -> in_u 32 (d_ttl e) ->
  (forall j, 1 <= j <= Z.of_nat n -> u32 (d_ttl e - j) ≠ 0) ->
  checks n i d s = Some (put_entry i (set_ttl (u32 (d_ttl e - Z.of_nat n)) e) d, s).
Proof.
  intros E Hs Ht. induction n as [|n IH]; intros Hj.
  { cbn [checks]. rewrite Z.sub_0_r, (wrap_id 32) by done. unfold put_entry. rewrite list_insert_id; [by destruct d|]. by destruct e. }
  rewrite checks_snoc, (bind_run _ _ _ _ _ (IH ltac:(intros; apply Hj; lia))).
  cbv beta. rewrite (check_done i (set_ttl (u32 (d_ttl e - Z.of_nat n)) e) _ s (put_entry_lookup _ _ _ _ E) Hs). cbn [d_ttl set_ttl]. rewrite u32_pred.
  replace (d_ttl e - Z.of_nat n - 1) with (d_ttl e - Z.of_nat (S n)) by lia. cbv zeta.
  rewrite (proj2 (Z.eqb_neq _ _)) by (apply Hj; lia). by rewrite put_entry_twice.
Qed.

(** The pbuf for a question. *)
Definition alloc_query : M A W Z :=
  pbufs (pbuf_alloc PBUF_TRANSPORT (SIZEOF_DNS_HDR + Z.of_nat DNS_MAX_NAME_LENGTH + SIZEOF_DNS_QUERY) PBUF_RAM).

(** The last byte of the question for a long name. *)
Lemma write_query_overflows extra R p b id name s : packet extra R p b [] s -> len b = 272 -> length name = 255%nat -> write_query p id name s = None.
Proof.
  intros H Ht Hn. pose proof (query_name_length name) as Hq. pose proof (pk_head_carries _ _ _ _ _ _ H) as Cb.
  destruct (pk_bounds _ _ _ _ _ _ H) as (_ & Hp & _).
  assert (forall a x s K, packet extra R p b [] s -> p + 16 <= a -> a + Z.of_nat (length x) <= payload b + 272 ->
    (forall s', packet extra R p b [] s' -> K s' = None) -> (poke p a x ;; K) s = (None : option (unit * net A W))) as Hput.
  { intros a x s1 K H1 Ha Hx HK. assert (wp (poke p a x) (fun _ s' => packet extra R p b [] s') s1) as Hw by (eapply wp_pk_poke; [exact H1|done|lia|by intros]).
    destruct (wp_run _ _ _ Hw) as ([] & s2 & E & H2). rewrite (bind_run _ _ _ _ _ E). by apply HK. }
  unfold write_query. rewrite (bind_run (the_pbuf p) _ s b s) by (unfold the_pbuf, gets; by rewrite (pk_buf _ _ _ _ _ _ H : get p (ps s) = _)).
  cbv zeta. unfold SIZEOF_DNS_HDR, SIZEOF_DNS_QUERY. change (Z.to_nat 12) with 12%nat.
  do 5 (apply Hput; [done|lia|cbn [length replicate bytes16]; lia|clear s H; intros s H]).
  unfold bind at 1, poke at 1, pbufs_. rewrite (pk_buf _ _ _ _ _ _ H : get p (ps s) = _). cbn [mbind option_bind].
  rewrite andb_comm, (proj2 (Z.leb_gt _ _)); [done|]. cbn [length bytes16 app]. lia.
Qed.

(** ** Properties *)

(** C10: Whatever the users call, with host names that are not exactly 255 characters
    long ([call_ok]; for these see [dns_send_overflows]), the resolver runs, and the
    table, the servers and the stack stay in order; the packets of others are left
    alone. *)
Theorem dns_safe extra R l d s : dns_wf d -> dns_pcb d ≠ 0 -> dns_net extra R (dns_pcb d) s -> Z.of_nat (length extra) < 49994 ->
  Forall call_ok l -> exists d' s', dns_calls l d s = Some (d', s') /\ in_order extra R d s d' s'.
Proof.
  intros W0 Hp N Hx F. revert d s W0 Hp N. induction F as [|c l Hc _ IH]; intros d s W0 Hp N.
  { exists d, s. split; [done|]. split; try done. apply calm_refl. }
  destruct (wp_run _ _ _ (wp_dns_do extra R c d s W0 Hp N Hx Hc)) as (d1 & s1 & E1 & [W1 P1 N1 C1]).
  destruct (IH d1 s1 W1 ltac:(by rewrite P1) ltac:(by rewrite P1)) as (d2 & s2 & E2 & [W2 P2 N2 C2]).
  exists d2, s2. cbn [dns_calls]. rewrite (bind_run _ _ _ _ _ E1). split; [done|]. rewrite P1 in *. split; [done|congruence|done|].
  by eapply calm_trans.
Qed.

(** C30: A name that no server answers for is given up: it is asked for until the three
    retries are used up, for 6 calls of [dns_tmr], or 13 if there is a second server
    to turn to; the next check of the entry tells the user with NULL and frees the entry. *)
Theorem dns_timeout extra R j e d s : dns_wf d -> dns_pcb d ≠ 0 -> dns_net extra R (dns_pcb d) s -> Z.of_nat (length extra) < 49994 ->
  dns_table d !! j = Some e -> d_state e = DNS_STATE_ASKING -> d_numdns e = 0 -> d_tmr e = 1 -> d_retries e = 0 ->
  let last := if more_servers d e then 1 else 0 in
  exists d' s', ticks (if more_servers d e then 13 else 6) d s = Some (d', s') /\ after extra R d s d' s' /\
    dns_table d' !! j = Some (set_asking last 1 3 e) /\
    forall s'', dns_check_entry j d' s'' = (d <- call_found e None (put_entry j (set_asking last 0 4 e) d') ;; flush_entry j d) s''.
Proof.
  intros W0 Hp N Hx E Hst Hn Ht Hr last.
  assert (wp (ticks (if more_servers d e then 13 else 6) d) (fun d' s' => after extra R d s d' s' /\ dns_table d' !! j = Some (set_asking last 1 3 e)) s) as Hw.
  { eapply wp_dns_ticks; [done|done|exact N|done|exact E|by right|by apply ages_timeout|]. by intros. }
  destruct (wp_run _ _ _ Hw) as (d' & s' & Er & Af & E').
  exists d', s'. split; [done|]. split; [done|]. split; [done|]. intros s''. destruct Af as [W1 P1 S1 N1 C1].
  rewrite (check_gives_up j (set_asking last 1 3 e) d' s'' W1 E'); [done|].
  rewrite age_last by done. assert (more_servers d' (set_asking last 1 3 e) = false) as ->; [|done].
  destruct (more_servers d e) eqn:Em; [by apply no_third|]. rewrite <-Em. unfold more_servers. rewrite S1, Hn. done.
Qed.

(** C31: [dns_send] sends the question of RFC 1035: if there is memory, a packet with the
    header, the labels of the name, type and class goes to the server's port 53, and
    is freed; if the pbuf for it cannot be had, the result is ERR_MEM. *)
Theorem dns_send_correct extra R numdns l ls id a d s : dns_net extra R (dns_pcb d) s -> dns_servers d !! Z.to_nat numdns = Some a ->
  Forall label_ok (l :: ls) -> (length (text (l :: ls)) <= 254)%nat -> in_u 16 id ->
  (exists s', alloc_query s = Some (0, s') /\ dns_send numdns (text (l :: ls)) id d s = Some (ERR_MEM, s') /\ frame extra s s') \/
  exists p b s1, packet extra R p b [] s1 /\ frame extra s s1 /\
    data s1 b = be16 id ++ [DNS_FLAG1_RD; 0; 0; 1; 0; 0; 0; 0; 0; 0] ++ enc_name (l :: ls) ++ be16 DNS_RRTYPE_A ++ be16 DNS_RRCLASS_IN /\
    dns_send numdns (text (l :: ls)) id d s =
      (_ <- udp_connect (dns_pcb d) a DNS_SERVER_PORT ;; err <- udp_sendto (dns_pcb d) p a DNS_SERVER_PORT ;; drop_packet p ;; ret err) s1.
Proof.
  intros [[I _] _ _ _] Ea F Hn Hid.
  assert (wp alloc_query (fun p s1 => (p = 0 /\ frame extra s s1) \/
    (p ≠ 0 /\ exists b, packet extra R p b [] s1 /\ frame extra s s1 /\ len b = 272)) s) as Hw by (eapply wp_alloc_query; [exact I|naive_solver..]).
  destruct (wp_run _ _ _ Hw) as (p & s1 & E & H). unfold dns_send. fold alloc_query. rewrite (bind_run _ _ _ _ _ E). destruct H as [[-> F1]|(Hp & b & P1 & F1 & Hb)].
  { left. exists s1. by split; [|split]. }
  right. rewrite (proj2 (Z.eqb_neq p 0)) by done.
  assert (wp (write_query p id (text (l :: ls))) (fun _ s2 => exists b2, packet extra R p b2 [] s2 /\ frame extra s1 s2 /\
    data s2 b2 = query_message id (text (l :: ls))) s1) as Hq by (eapply wp_write_query; [exact P1|done|done|done|eauto 6]).
  destruct (wp_run _ _ _ Hq) as ([] & s2 & E2 & b2 & P2 & F2 & D2). rewrite (bind_run _ _ _ _ _ E2).
  rewrite (bind_run (server_at numdns d) _ s2 a s2) by (unfold server_at, gets; by rewrite Ea).
  exists p, b2, s2. split; [done|]. split; [by eapply frame_trans|]. split; [|done].
  rewrite D2. unfold query_message. by rewrite query_name_run.
Qed.

(** C39: A host name of 255 characters, which [dns_gethostbyname] lets through, does not
    fit: the question is 273 bytes long and [dns_send] writes the last one behind the
    pbuf of 272. *)
Theorem dns_send_overflows extra R numdns name id d p s s1 : net_inv s extra R -> length name = 255%nat ->
  alloc_query s = Some (p, s1) -> p ≠ 0 ->
  dns_send numdns name id d s = None.
Proof.
  intros I Hn E Hp. assert (exists b, packet extra R p b [] s1 /\ len b = 272) as (b & P1 & Hb).
  { assert (wp alloc_query
      (fun p s1 => p ≠ 0 -> exists b, packet extra R p b [] s1 /\ len b = 272) s) as Hw by (eapply wp_alloc_query; [exact I|done|eauto]).
    unfold wp in Hw. rewrite E in Hw. auto. }
  unfold dns_send. fold alloc_query. rewrite (bind_run _ _ _ _ _ E), (proj2 (Z.eqb_neq p 0)) by done.
  unfold bind at 1. by rewrite (write_query_overflows extra R p b).
Qed.

(** An entry whose address is known keeps it for its time to live, in seconds, and
    is then freed. *)
Theorem dns_entry_expires i e d s n : dns_table d !! i = Some e -> d_state e = DNS_STATE_DONE -> 0 < d_ttl e < 2 ^ 32 -> (0 < n)%nat ->
  Z.of_nat n <= d_ttl e ->
  checks n i d s = Some (put_entry i (if Z.of_nat n <? d_ttl e then set_ttl (d_ttl e - Z.of_nat n) e else flush (set_ttl 0 e)) d, s).
Proof.
  intros E Hs Ht Hn Hle.
  assert (forall k, Z.of_nat k < d_ttl e -> checks k i d s = Some (put_entry i (set_ttl (d_ttl e - Z.of_nat k) e) d, s)) as Hk.
  { intros k Hk. rewrite (checks_ttl i e); [|done|done|unfold in_u; lia|].
    - by rewrite (wrap_id 32) by (unfold in_u; lia).
    - intros j Hj. rewrite (wrap_id 32) by (unfold in_u; lia). lia. }
  destruct (Z.ltb_spec (Z.of_nat n) (d_ttl e)) as [Hlt|Hge]; [by apply Hk|]. destruct n as [|n]; [lia|].
  rewrite checks_snoc, (bind_run _ _ _ _ _ (Hk n ltac:(lia))).
  cbv beta. rewrite (check_done i (set_ttl (d_ttl e - Z.of_nat n) e) _ s (put_entry_lookup _ _ _ _ E) Hs). cbn [d_ttl set_ttl].
  replace (d_ttl e - Z.of_nat n - 1) with 0 by lia. cbn. by rewrite put_entry_twice.
Qed.

(** A time to live of 0, with which an address must not be kept, keeps it for
    2^32 - 1 seconds. *)
Theorem dns_zero_ttl i e d s n : dns_table d !! i = Some e -> d_state e = DNS_STATE_DONE -> d_ttl e = 0 -> (0 < n)%nat -> Z.of_nat n < 2 ^ 32 ->
  checks n i d s = Some (put_entry i (set_ttl (2 ^ 32 - Z.of_nat n) e) d, s).
Proof.
  intros E Hs Ht Hn Hle. assert (forall j, 1 <= j < 2 ^ 32 -> u32 (0 - j) = 2 ^ 32 - j) as Hu.
  { intros j Hj. unfold u32, wrap. symmetry. apply (Z.mod_unique _ _ (-1)); lia. }
  rewrite (checks_ttl i e) by (done || rewrite Ht; first [done | intros j Hj; rewrite Hu; lia]).
  by rewrite Ht, Hu by lia.
Qed.




(** Other messages are dropped: those that are too long or too short, and those for
    an entry that is not there or not asked for. *)
Theorem dns_recv_ignores extra R p b l d s : packet extra R p b l s -> dns_wf d ->
  let msg := contents (bytes (ps s)) ((p, b) :: l) in
  ((512 < length msg)%nat \/ (length msg < 26)%nat -> dns_recv p d s = (drop_packet p ;; ret d) s) /\
  (forall hi lo rest, (26 <= length msg <= 512)%nat -> msg = hi :: lo :: rest -> 0 <= hi < 256 -> 0 <= lo < 256 ->
    (forall e, dns_table d !! Z.to_nat (hi * 256 + lo) = Some e -> d_state e ≠ DNS_STATE_ASKING) ->
    dns_recv p d s = (drop_packet p ;; ret (copied msg d)) s).
Proof.
  intros H W0 msg. destruct (pk_bounds _ _ _ _ _ _ H) as (_ & _ & _ & _ & _ & Hok). pose proof (contents_length (bytes (ps s)) _ Hok) as Hcl.
  destruct Hok as (Htot & _). cbn [tot] in Hcl. fold msg in Hcl. split.
  - intros Hb. unfold dns_recv. rewrite (bind_run (the_pbuf p) _ s b s) by (unfold the_pbuf, gets; by rewrite (pk_buf _ _ _ _ _ _ H : get p (ps s) = _)).
    unfold DNS_MSG_SIZE, SIZEOF_DNS_HDR, SIZEOF_DNS_QUERY, SIZEOF_DNS_ANSWER.
    destruct (Z.ltb_spec 512 (tot_len b)) as [?|?]; [done|]. rewrite (proj2 (Z.ltb_lt _ _)) by lia. done.
  - intros hi lo rest Hlen Em Hhi Hlo He. rewrite (dns_recv_copies extra R p b l msg d s H eq_refl W0 Hlen).
    unfold bind at 1 3, take_response. rewrite (bind_run (gets _) _ s (Z.to_nat (hi * 256 + lo)) s).
    + case_bool_decide as Hi; [|done]. destruct (lookup_lt_is_Some_2 (dns_table d) _ ltac:(by rewrite (dw_table d W0))) as [e E].
      rewrite (bind_run (entry_at _ _) _ s e s) by (unfold entry_at, gets; cbn [copied set_payload_buffer dns_table]; by rewrite E).
      by rewrite (proj2 (Z.eqb_neq _ _) (He e E)).
    + unfold gets. cbn [copied set_payload_buffer dns_payload]. rewrite Em. cbn [app]. unfold get16. cbn [lookup list_lookup mbind option_bind].
      do 3 f_equal. rewrite Chksum.htons_swap, Chksum.swap_div. unfold Chksum.load16. Z.div_mod_to_equations. lia.
Qed.

(** C32: A host name: an error if the name is empty or too long; the address if the name is one in
    text or is known; else the name is asked for, in the entry that [slot] chooses, if
    there is one. *)
Theorem dns_gethostbyname_correct extra R h found arg d s : dns_wf d -> dns_pcb d ≠ 0 -> dns_net extra R (dns_pcb d) s -> Z.of_nat (length extra) < 49994 ->
  (h = [] \/ (256 <= length h)%nat -> dns_gethostbyname (Some h) true found arg d s = Some (ERR_ARG, None, d, s)) /\
  (h ≠ [] -> (length h < 256)%nat -> IpAddr.ipaddr_addr h ≠ IpAddr.IPADDR_NONE ->
    dns_gethostbyname (Some h) true found arg d s = Some (ERR_OK, Some (IpAddr.ipaddr_addr h), d, s)) /\
  (h ≠ [] -> (length h < 256)%nat -> IpAddr.ipaddr_addr h = IpAddr.IPADDR_NONE -> dns_lookup h d ≠ IpAddr.IPADDR_NONE ->
    dns_gethostbyname (Some h) true found arg d s = Some (ERR_OK, Some (dns_lookup h d), d, s)) /\
  (h ≠ [] -> (length h < 255)%nat -> IpAddr.ipaddr_addr h = IpAddr.IPADDR_NONE -> dns_lookup h d = IpAddr.IPADDR_NONE ->
    match slot d with
    | None => dns_gethostbyname (Some h) true found arg d s = Some (ERR_MEM, None, d, s)
    | Some i => exists e d' s', dns_table d !! i = Some e /\ d' = put_entry i (asked h found arg (dns_seqno d) e) (next_seqno d) /\
        dns_gethostbyname (Some h) true found arg d s = Some (ERR_INPROGRESS, None, d', s') /\ after extra R d s d' s'
    end).
Proof.
  intros W0 Hp N Hx. unfold dns_gethostbyname. rewrite (proj2 (Z.eqb_neq (dns_pcb d) 0)) by done. unfold DNS_MAX_NAME_LENGTH. cbn [orb negb].
  split; [|split; [|split]].
  - intros Hh. replace (_ || _) with true; [done|]. symmetry. apply orb_true_iff. destruct Hh; [left|right]; by apply bool_decide_eq_true.
  - intros Hne Hl Ha. rewrite !bool_decide_false by (done || lia). cbn [orb]. cbv zeta. by rewrite (proj2 (Z.eqb_neq _ _) Ha), (proj2 (Z.eqb_neq _ _) Ha).
  - intros Hne Hl Ha Hk. rewrite !bool_decide_false by (done || lia). cbn [orb]. cbv zeta. rewrite Ha, Z.eqb_refl. by rewrite (proj2 (Z.eqb_neq _ _) Hk).
  - intros Hne Hl Ha Hk. rewrite !bool_decide_false by (done || lia). cbn [orb]. cbv zeta. rewrite Ha, Z.eqb_refl, Hk, Z.eqb_refl. cbn [negb].
    pose proof (wp_dns_enqueue extra R h found arg d) as Hw. specialize (Hw (fun x s' => match slot d with
      | None => x = (ERR_MEM, d) /\ s' = s
      | Some i => exists e, dns_table d !! i = Some e /\ x = (ERR_INPROGRESS, put_entry i (asked h found arg (dns_seqno d) e) (next_seqno d)) /\ after extra R d s x.2 s' end)
      s W0 Hp N Hx ltac:(lia)).
    destruct (wp_run _ _ _ (Hw ltac:(destruct (slot d); [intros; eauto|done]))) as (x & s' & Er & H). rewrite (bind_run _ _ _ _ _ Er).
    destruct (slot d) as [i|]; [|by destruct H as [-> ->]]. destruct H as (e & E & -> & Af). exists e. eauto 10.
Qed.

(** The entry for a new name is the first that is unused, else, while the numbers
    have not wrapped, the completed one that was asked for first. *)
Theorem dns_slot_correct d : dns_wf d -> 0 <= dns_seqno d < 256 -> Forall (fun e => 0 <= d_seqno e < 256) (dns_table d) ->
  (forall l e l', dns_table d = l ++ e :: l' -> Forall (fun e => d_state e ≠ DNS_STATE_UNUSED) l -> d_state e = DNS_STATE_UNUSED ->
     slot d = Some (length l)) /\
  (Forall (fun e => d_state e ≠ DNS_STATE_UNUSED) (dns_table d) -> Forall (fun e => completed e -> d_seqno e < dns_seqno d) (dns_table d) ->
     match slot d with
     | Some n => exists e, dns_table d !! n = Some e /\ completed e /\ Forall (fun f => completed f -> d_seqno e <= d_seqno f) (dns_table d)
     | None => Forall (fun e => ~ completed e) (dns_table d)
     end).
Proof.
  intros W0 Hs F. pose proof (dw_table d W0) as Hl. unfold slot. split.
  - intros l e l' E Fu Hu. pose proof (find_unused (dns_seqno d) l e l' 0 0 0 Fu Hu) as Hi. rewrite E in Hl |- *. rewrite length_app in Hl. cbn [length] in Hl.
    destruct (find_entry _ _ 0 0 0) as [i k]. cbn [fst] in Hi. unfold DNS_TABLE_SIZE in *. rewrite (proj2 (Z.eqb_neq _ _)) by lia. f_equal. lia.
  - intros Fu Fo. destruct (find_oldest (dns_seqno d) (dns_table d) 0 0 0 Hs F ltac:(done) Fu) as (k & -> & H). rewrite Hl, Z.add_0_l, Z.eqb_refl.
    destruct H as [[-> H]|(n & e & -> & E & Ce & _ & H)].
    + assert (Forall (fun e => ~ completed e) (dns_table d)) as Fn.
      { apply Forall_forall. intros e He Ce. rewrite Forall_forall in H, Fo. specialize (H e He Ce). specialize (Fo e He Ce). cbn beta in *. lia. }
      destruct (lookup_lt_is_Some_2 (dns_table d) 0 ltac:(rewrite Hl; unfold DNS_TABLE_SIZE; lia)) as [e E]. change (Z.to_nat 0) with 0%nat. rewrite E.
      cbn [mbind option_bind]. pose proof (Forall_lookup_1 _ _ _ _ Fn E) as Hn. by rewrite (proj2 (Z.eqb_neq _ _) Hn).
    + rewrite Z.add_0_l, Nat2Z.id, E. cbn [mbind option_bind]. rewrite (proj2 (Z.eqb_eq _ _) Ce). by exists e.
Qed.

(** When the numbers have wrapped, that fails: if no completed entry has a smaller
    number than the next one to give, only the first entry is looked at.  A
    resolver with three known names can refuse a new one. *)
Theorem dns_slot_wraps d : dns_wf d -> 0 <= dns_seqno d < 256 -> Forall (fun e => 0 <= d_seqno e < 256) (dns_table d) ->
  Forall (fun e => d_state e ≠ DNS_STATE_UNUSED) (dns_table d) -> Forall (fun e => completed e -> dns_seqno d <= d_seqno e) (dns_table d) ->
  slot d = match dns_table d with e :: _ => if d_state e =? DNS_STATE_DONE then Some 0%nat else None | [] => None end.
Proof.
  intros W0 Hs F Fu Fo. pose proof (dw_table d W0) as Hl. unfold slot.
  destruct (find_oldest (dns_seqno d) (dns_table d) 0 0 0 Hs F ltac:(done) Fu) as (k & -> & H). rewrite Hl, Z.add_0_l, Z.eqb_refl.
  destruct H as [[-> _]|(n & e & -> & E & Ce & Hlt & _)]; [by destruct (dns_table d)|].
  pose proof (Forall_lookup_1 _ _ _ _ Fo E Ce) as Hge. cbn beta in Hge. lia.
Qed.

(** [dns_init] starts the resolver: with a pcb that has a port of its own and
    208.67.222.222 as the server, or nothing is changed because there is no
    memory. *)
Theorem dns_init_correct extra R recv d s : udp_state extra R s -> listed s -> Z.of_nat (size (udps (ips s))) < 0x3fff ->
  dns_pcb d = 0 -> length (dns_table d) = DNS_TABLE_SIZE -> Forall (fun e => d_state e = DNS_STATE_UNUSED /\ length (d_name e) = DNS_MAX_NAME_LENGTH) (dns_table d) ->
  dns_servers d = [0; 0] -> length (dns_payload d) = Z.to_nat DNS_MSG_SIZE ->
  exists d' s', dns_init recv d s = Some (d', s') /\
    (d' = d /\ frame extra s s' \/
     dns_pcb d' ≠ 0 /\ dns_servers d' = [0xdedE43d0; 0] /\ dns_table d' = dns_table d /\ dns_wf d' /\ dns_net extra R (dns_pcb d') s' /\ calm extra s s').
Proof.
  intros [I (l & B)] Ls Hs Hp Hl Ft Hsv Hpl. pose proof B as [L Bb Ex].
  assert (wp (dns_init recv d) (fun d' s' => d' = d /\ frame extra s s' \/
    dns_pcb d' ≠ 0 /\ dns_servers d' = [0xdedE43d0; 0] /\ dns_table d' = dns_table d /\ dns_wf d' /\ dns_net extra R (dns_pcb d') s' /\ calm extra s s') s) as Hw;
    [|destruct (wp_run _ _ _ Hw) as (d' & s' & Er & H); eauto].
  unfold dns_init. rewrite Hp. cbn [Z.eqb]. apply wp_bind. eapply wp_udp_new; [exact I|exact L| |].
  { intros s1 I1 F1. cbn [Z.eqb negb]. apply wp_ret. left. split; [|done]. rewrite <-Hp at 1. by destruct d. }
  intros pcb s1 Hz Hn I1 C1 Em L1. rewrite (proj2 (Z.eqb_neq pcb 0)) by done. cbn [negb].
  assert (udps (ips s1) !! pcb = Some new_udp) as E1 by (rewrite Em; apply lookup_insert_eq).
  pose proof (bound_list_new _ _ _ _ B Hz Hn Em L1) as B1. assert (Z.of_nat (size (udps (ips s1))) < 0x4000) as Hs1
    by (rewrite Em, map_size_insert_None by done; lia).
  apply wp_bind. eapply wp_udp_bind; [exact I1|exact E1|exact L1|by eapply bound_length|done|done| |].
  { intros Hw. by destruct (not_in_way_0 _ _ _ _ B1 Hw). }
  intros port s2 Hw _ Hport Hb. destruct (Hport eq_refl) as [Hr Hfree]. pose proof Hb as [I2 C2 _ (n & E2) Ho2 L2]. unfold UDP_LOCAL_PORT_RANGE_START in Hr.
  assert (bound_list (ips s2) (if bool_decide (pcb ∈ l) then l else pcb :: l)) as B2.
  { eapply bound_list_push; [exact B1|exact E2|cbn [u_local_port set_u_next set_u_local_port]; lia|exact Ho2|exact L2|].
    eapply (bound_exclusive extra R pcb 0 0 port l new_udp s1 s2); [exact (bl_excl _ _ B1)|exact Hw|done|intros _; exact Hfree|exact Hb]. }
  apply wp_bind. destruct (pcbs_ok (k := udp_kind) _ (ni_ips _ _ _ I2)) as (Hok & _).
  eapply wp_udp_field; [exact I2|exact B2|exact E2|done|done|done|exact (Hok pcb _ E2)|]. intros s3 I3 C3 B3 E3 S3. apply wp_ret. right.
  assert (calm extra s s3) as C by (eapply calm_trans; [exact C1|eapply calm_trans; [exact C2|exact C3]]).
  set (d1 := mk_dns _ _ _ _ _). assert (dns_setserver 0 (IpAddr.ipaddr_addr DNS_SERVER_ADDRESS) d1 = set_servers [0xdedE43d0; 0] d1) as ->.
  { unfold dns_setserver. cbn [d1 dns_pcb dns_servers]. rewrite (proj2 (Z.eqb_neq pcb 0)), Hsv by done. reflexivity. }
  split; [done|]. split; [done|]. split; [done|]. split; [|split; [|done]].
  - split; cbn; try done.
    + eapply Forall_impl; [exact Ft|]. intros e [Hu He]. apply entry_ok_rest; [done|]. intros [Ha|Ha]; by rewrite Hu in Ha.
    + repeat constructor; unfold in_u; lia.
  - cbn [d1 dns_pcb set_servers]. split; [split; [done|eauto]|by eapply calm_keeps| |].
    + by rewrite S3, (size_one _ _ pcb _ _ E1 E2 Ho2).
    + eexists. split; [exact E3|]. cbn [u_local_port set_u_recv set_u_next set_u_local_port]. lia.
Qed.

End Api.

(** ** Examples *)

(** Users that do nothing. *)
#[local] Instance idle_app : dns_app lwip_mem wire := {| found_fn := fun _ _ _ _ d => ret d |}.
#[local] Instance idle_laws : dns_app_laws lwip_mem wire.
Proof. split. intros f name ip arg d s extra R W0 Hp N Hx. apply wp_ret. split; [done|]. split; [by split_and!|]. split; [done|]. apply calm_refl. Qed.

Definition unused_entry : dns_table_entry := mk_dns_entry DNS_STATE_UNUSED 0 0 0 0 0 0 (replicate 256 0) 0 0 0.
Definition dns0 : dns := mk_dns 0 0 (replicate 4 unused_entry) [0; 0] (replicate 512 0).
Definition host : list (list Z) := [[97; 98]; [99]].   (* ab.c *)

Lemma host_ok : Forall label_ok host.
Proof. repeat constructor; cbn; lia. Qed.

Lemma dns0_entries : Forall (fun e => d_state e = DNS_STATE_UNUSED /\ length (d_name e) = DNS_MAX_NAME_LENGTH) (dns_table dns0).
Proof. by repeat constructor. Qed.

Definition started : dns * net lwip_mem wire := match dns_init 0x9000 dns0 net_srv with Some x => x | None => (dns0, net_srv) end.

Lemma started_ok : dns_pcb started.1 ≠ 0 /\ dns_servers started.1 = [0xdedE43d0; 0] /\ dns_table started.1 = dns_table dns0 /\ dns_wf started.1 /\
  dns_net [rx] [] (dns_pcb started.1) started.2.
Proof.
  destruct net_srv_ok as (I & L & _ & Ls).
  destruct (dns_init_correct [rx] [] 0x9000 dns0 net_srv net_srv_state Ls ltac:(by vm_compute) eq_refl eq_refl dns0_entries eq_refl eq_refl) as (d' & s' & E & H).
  unfold started. rewrite E. cbn [fst snd]. destruct H as [[-> _]|(Hp & Hs & Ht & W0 & N & _)]; [|by split_and!].
  exfalso. assert (match dns_init 0x9000 dns0 net_srv with Some (d, _) => negb (dns_pcb d =? 0) | None => false end = true) as Hv by (vm_compute; reflexivity).
  by rewrite E in Hv.
Qed.

#[local] Opaque started.

Lemma few : Z.of_nat (length [rx]) < 49994.
Proof. by apply Z.ltb_lt. Qed.

Lemma dns_init_correct_witness : exists d' s', dns_init 0x9000 dns0 net_srv = Some (d', s') /\ (d' = dns0 \/ dns_wf d').
Proof.
  destruct net_srv_ok as (_ & _ & _ & Ls).
  destruct (dns_init_correct [rx] [] 0x9000 dns0 net_srv net_srv_state Ls ltac:(by vm_compute) eq_refl eq_refl dns0_entries eq_refl eq_refl)
    as (d' & s' & E & [[H _]|(_ & _ & _ & H & _)]); exists d', s'; [exact (conj E (or_introl H))|exact (conj E (or_intror H))].
Defined.

Definition calls : list dns_call := [GetHostByName (Some (text host)) true 0x8000 1; Tmr; SetServer 1 0x08080808; Tmr].

Lemma calls_ok : Forall call_ok calls.
Proof. repeat constructor; cbn; try done. by intros h [= <-]. Qed.

Lemma dns_safe_witness : exists d' s', dns_calls calls started.1 started.2 = Some (d', s') /\ in_order [rx] [] started.1 started.2 d' s'.
Proof.
  destruct started_ok as (Hp & _ & _ & W0 & N). exact (dns_safe [rx] [] calls started.1 started.2 W0 Hp N few calls_ok).
Defined.

(** ab.c is asked for. *)
Definition asked_host : dns_table_entry := asked (text host) 0x8000 1 0 unused_entry.
Definition waiting : dns := put_entry 0 asked_host (next_seqno started.1).

Lemma waiting_ok : dns_wf waiting.
Proof.
  destruct started_ok as (_ & Hs & _ & W0 & _). apply wf_put; [exact (wf_next _ W0)|].
  split; [reflexivity|]. split; [intros _; cbn; lia|].
  intros _. split; [split; by apply Z.leb_le || by apply Z.ltb_lt|exact (dw_first _ W0)].
Qed.

Lemma waiting_entry : dns_table waiting !! 0%nat = Some asked_host.
Proof. apply (put_entry_lookup 0 asked_host unused_entry). cbn [next_seqno dns_table]. by rewrite (proj1 (proj2 (proj2 started_ok))). Qed.

Lemma dns_timeout_witness : exists d' s', ticks 6 waiting started.2 = Some (d', s') /\ dns_table d' !! 0%nat = Some (set_asking 0 1 3 asked_host).
Proof.
  destruct started_ok as (Hp & Hs & _ & _ & N).
  assert (more_servers waiting asked_host = false) as Hm by (unfold more_servers; cbn [waiting put_entry next_seqno dns_servers]; rewrite Hs; reflexivity).
  pose proof (dns_timeout [rx] [] 0 asked_host waiting started.2 waiting_ok Hp N few waiting_entry eq_refl eq_refl eq_refl eq_refl) as H.
  cbv zeta in H. rewrite Hm in H. destruct H as (d' & s' & E & _ & Ee & _). exists d', s'. exact (conj E Ee).
Defined.

Lemma host_short : (length (text host) <= 254)%nat /\ in_u 16 0 /\ in_u 32 0xdedE43d0.
Proof. unfold in_u. cbn. lia. Qed.

Lemma dns_send_correct_witness : exists s', 
  (dns_send 0 (text host) 0 started.1 started.2 = Some (ERR_MEM, s') \/
   exists p b, packet [rx] [] p b [] s' /\
     data s' b = [0; 0; 1; 0; 0; 1; 0; 0; 0; 0; 0; 0; 2; 97; 98; 1; 99; 0; 0; 1; 0; 1]).
Proof.
  destruct started_ok as (_ & Hs & _ & _ & N). destruct host_short as (H1 & H2 & _).
  assert (dns_servers started.1 !! Z.to_nat 0 = Some 0xdedE43d0) as Ea by (rewrite Hs; reflexivity).
  destruct (dns_send_correct [rx] [] 0 [97; 98] [[99]] 0 0xdedE43d0 started.1 started.2 N Ea host_ok H1 H2) as [(s' & _ & E & _)|(p & b & s' & P & _ & D & _)];
    exists s'; [left; exact E|right; exists p, b; exact (conj P D)].
Defined.

Lemma query_there : match alloc_query net_srv with Some (p, _) => negb (p =? 0) | None => false end = true.
Proof. vm_compute. reflexivity. Qed.

Lemma dns_send_overflows_witness : dns_send 0 (replicate 255 97) 0 started.1 net_srv = None.
Proof.
  pose proof query_there as H. destruct (alloc_query net_srv) as [[p s1]|] eqn:E; [|discriminate H].
  apply negb_true_iff, Z.eqb_neq in H. destruct net_srv_ok as (I & _).
  exact (dns_send_overflows [rx] [] 0 (replicate 255 97) 0 started.1 p net_srv s1 I eq_refl E H).
Defined.

(** Known for three seconds; and for none. *)
Definition known (ttl : Z) : dns_table_entry := mk_dns_entry DNS_STATE_DONE 0 1 0 0 0 ttl (copy_name (text host) (replicate 256 0)) 0x0100007f 0 0.
Definition knows (ttl : Z) : dns := put_entry 0 (known ttl) dns0.

Lemma dns_entry_expires_witness : checks 3 0 (knows 3) net_srv = Some (put_entry 0 (flush (set_ttl 0 (known 3))) (knows 3), net_srv).
Proof.
  exact (dns_entry_expires 0 (known 3) (knows 3) net_srv 3 eq_refl eq_refl (conj (eq_refl : 0 < 3) (eq_refl : 3 < 2 ^ 32)) (le_S _ _ (le_S _ _ (le_n 1)))
    (Z.le_refl 3)).
Defined.

Lemma dns_zero_ttl_witness : checks 1 0 (knows 0) net_srv = Some (put_entry 0 (set_ttl 0xffffffff (known 0)) (knows 0), net_srv).
Proof. exact (dns_zero_ttl 0 (known 0) (knows 0) net_srv 1 eq_refl eq_refl eq_refl (le_n 1) eq_refl). Defined.

(** A response for ab.c: an alias, and then its address. *)
Definition reply : message :=
  mk_message 0 0x81 0x80 0 0 [97; 98] [[99]] 1 1
    [mk_rr (Pointer [] 0xc0 12) 5 1 300 [1; 100; 0xc0; 15]; mk_rr (Full [100] [[99]]) 1 1 60 [93; 184; 216; 34]] (replicate 93 0).
Definition net_reply : net lwip_mem wire := with_rx (enc_message reply) net_rx.


Definition idle : dns := mk_dns 1 1 (replicate 4 unused_entry) [0xdedE43d0; 0] (replicate 512 0).

Lemma unused_ok : entry_ok [0xdedE43d0; 0] unused_entry.
Proof. apply entry_ok_rest; [reflexivity|]. intros [Ha|Ha]; discriminate Ha. Qed.

Lemma host_asked : entry_ok [0xdedE43d0; 0] asked_host.
Proof. split; [reflexivity|]. split; [intros _; cbn; lia|]. intros _. split; [cbn; unfold DNS_MAX_SERVERS; lia|discriminate]. Qed.

Lemma demo_wf l : length l = DNS_TABLE_SIZE -> Forall (entry_ok [0xdedE43d0; 0]) l -> dns_wf (mk_dns 1 1 l [0xdedE43d0; 0] (replicate 512 0)).
Proof. intros Hl F. split; [exact Hl|exact F|reflexivity| |discriminate|reflexivity]. repeat constructor; unfold in_u; lia. Qed.

Lemma idle_wf : dns_wf idle.
Proof. apply demo_wf; [reflexivity|]. do 4 (constructor; [exact unused_ok|]). constructor. Qed.


Lemma reply_packet : packet [] [] rx rx_b [] net_reply /\ contents (bytes (ps net_reply)) [(rx, rx_b)] = enc_message reply.
Proof.
  split; [exact (with_rx_packet _ net_rx net_rx_inv net_rx_bufs)|]. rewrite contents_one.
  etransitivity; [apply (with_rx_data (enc_message reply) net_rx); by apply Z.leb_le|].
  assert (drop (length (enc_message reply)) (data net_rx rx_b) = []) as ->; [|apply app_nil_r].
  apply drop_ge. unfold data. rewrite read_bytes_length. by apply Nat.leb_le.
Qed.


Lemma dns_recv_ignores_witness : dns_recv rx idle net_reply = (drop_packet rx ;; ret (copied (enc_message reply) idle)) net_reply.
Proof.
  destruct reply_packet as [P E]. pose proof (dns_recv_ignores [] [] rx rx_b [] idle net_reply P idle_wf) as [_ H]. cbv zeta in H. rewrite E in H.
  assert (26 <= length (enc_message reply) <= 512)%nat as Hl by (split; by apply Nat.leb_le).
  refine (H 0 0 (drop 2 (enc_message reply)) Hl eq_refl _ _ _); [by split|by split|]. intros e [= <-]. discriminate.
Defined.

(** Three names are known and the numbers have wrapped; before, one was the oldest. *)
Definition done_at (seqno : Z) : dns_table_entry := mk_dns_entry DNS_STATE_DONE 0 1 0 seqno 0 60 (copy_name (text host) (replicate 256 0)) 0x0100007f 0 0.
Definition full (seqno a b c : Z) : dns := mk_dns 1 seqno [asked_host; done_at a; done_at b; done_at c] [0xdedE43d0; 0] (replicate 512 0).

Lemma done_ok seqno : entry_ok [0xdedE43d0; 0] (done_at seqno).
Proof. apply entry_ok_rest; [reflexivity|]. intros [Ha|Ha]; discriminate Ha. Qed.

Lemma full_wf seqno a b c : dns_wf (full seqno a b c).
Proof.
  destruct (demo_wf [asked_host; done_at a; done_at b; done_at c] eq_refl) as [H1 H2 H3 H4 H5 H6].
  - constructor; [exact host_asked|]. do 3 (constructor; [apply done_ok|]). constructor.
  - split; [exact H1|exact H2|exact H3|exact H4|exact H5|exact H6].
Qed.

Lemma full_numbers seqno a b c : 0 <= a < 256 -> 0 <= b < 256 -> 0 <= c < 256 ->
  Forall (fun e => 0 <= d_seqno e < 256) (dns_table (full seqno a b c)) /\ Forall (fun e => d_state e ≠ DNS_STATE_UNUSED) (dns_table (full seqno a b c)).
Proof. intros. split; repeat constructor; cbn; lia || discriminate. Qed.

Lemma dns_slot_correct_witness : slot (full 9 7 5 8) = Some 2%nat /\
  exists e, dns_table (full 9 7 5 8) !! 2%nat = Some e /\ Forall (fun f => completed f -> d_seqno e <= d_seqno f) (dns_table (full 9 7 5 8)).
Proof.
  destruct (full_numbers 9 7 5 8 ltac:(lia) ltac:(lia) ltac:(lia)) as [F Fu]. assert (slot (full 9 7 5 8) = Some 2%nat) as Es by (vm_compute; reflexivity).
  destruct (dns_slot_correct (full 9 7 5 8) (full_wf 9 7 5 8) ltac:(cbn; lia) F) as [_ H]. rewrite Es in H.
  destruct (H Fu ltac:(repeat constructor; cbn; lia)) as (e & E & _ & Fe). exact (conj Es (ex_intro _ e (conj E Fe))).
Defined.

Lemma dns_slot_wraps_witness : slot (full 1 253 254 255) = None.
Proof.
  destruct (full_numbers 1 253 254 255 ltac:(lia) ltac:(lia) ltac:(lia)) as [F Fu].
  refine (dns_slot_wraps (full 1 253 254 255) (full_wf 1 253 254 255) _ F Fu _); [cbn; lia|].
  constructor; [intros Hc; discriminate Hc|]. repeat constructor; cbn; lia.
Defined.

Lemma dns_gethostbyname_correct_witness : exists d' s',
  dns_gethostbyname (Some (text host)) true 0x8000 1 started.1 started.2 = Some (ERR_INPROGRESS, None, d', s') /\
  exists e, dns_table d' !! 0%nat = Some e /\ d_state e = DNS_STATE_ASKING /\ cstr (d_name e) = text host.
Proof.
  destruct started_ok as (Hp & _ & Ht & W0 & N).
  destruct (dns_gethostbyname_correct [rx] [] (text host) 0x8000 1 started.1 started.2 W0 Hp N few) as (_ & _ & _ & H).
  assert (dns_lookup (text host) started.1 = IpAddr.IPADDR_NONE) as Hk by (unfold dns_lookup; rewrite Ht; vm_compute; reflexivity).
  assert (length (text host) < 255)%nat as Hn by (by apply Nat.ltb_lt).
  specialize (H ltac:(discriminate) Hn ltac:(vm_compute; reflexivity) Hk).
  assert (slot started.1 = Some 0%nat) as Es by (unfold slot; rewrite Ht; vm_compute; reflexivity). rewrite Es, Ht in H.
  destruct H as (e & d' & s' & [= <-] & -> & E & _). eexists _, s'. split; [exact E|].
  exists (asked (text host) 0x8000 1 (dns_seqno started.1) unused_entry). split; [|split; [reflexivity|vm_compute; reflexivity]].
  apply (put_entry_lookup 0 _ unused_entry). cbn [next_seqno dns_table]. by rewrite Ht.
Defined.

End DnsApi.
