(* ===== verification/DhcpMsg.v ===== *)
(** * The options of DHCP messages

    The messages of dhcp.c: the options of RFC 2132 as [dhcp_parse_reply] takes
    them from a packet, which may be several pbufs, and as the [dhcp_option]
    functions write them.  [dhcp_rx_options_val] and [dhcp_rx_options_given] are
    passed through ([rx_options]).

    The reference is the list of options of a message ([item]s): the value of an
    option is that of its first occurrence. *)
From S2P Require Import Prelude Alloc Pbuf PbufData Chksum IpAddr Refs Net Etharp Wire ArpCache Netif Packet IpOut DnsMsg.
Import Alloc Pbuf PbufData Refs Net Etharp Wire ArpCache Netif Packet IpOut DnsMsg.

Module DhcpMsg.
Local Open Scope net_scope.

Definition DHCP_OPTION_PAD : Z := 0.
Definition DHCP_OPTION_SUBNET_MASK : Z := 1.
Definition DHCP_OPTION_ROUTER : Z := 3.
Definition DHCP_OPTION_DNS_SERVER : Z := 6.
Definition DHCP_OPTION_BROADCAST : Z := 28.
Definition DHCP_OPTION_REQUESTED_IP : Z := 50.
Definition DHCP_OPTION_LEASE_TIME : Z := 51.
Definition DHCP_OPTION_OVERLOAD : Z := 52.
Definition DHCP_OPTION_MESSAGE_TYPE : Z := 53.
Definition DHCP_OPTION_SERVER_ID : Z := 54.
Definition DHCP_OPTION_PARAMETER_REQUEST_LIST : Z := 55.
Definition DHCP_OPTION_MAX_MSG_SIZE : Z := 57.
Definition DHCP_OPTION_T1 : Z := 58.
Definition DHCP_OPTION_T2 : Z := 59.
Definition DHCP_OPTION_END : Z := 255.

Definition DHCP_OPTION_IDX_OVERLOAD : Z := 0.
Definition DHCP_OPTION_IDX_MSG_TYPE : Z := 1.
Definition DHCP_OPTION_IDX_SERVER_ID : Z := 2.
Definition DHCP_OPTION_IDX_LEASE_TIME : Z := 3.
Definition DHCP_OPTION_IDX_T1 : Z := 4.
Definition DHCP_OPTION_IDX_T2 : Z := 5.
Definition DHCP_OPTION_IDX_SUBNET_MASK : Z := 6.
Definition DHCP_OPTION_IDX_ROUTER : Z := 7.
Definition DHCP_OPTION_IDX_DNS_SERVER : Z := 8.
Definition DHCP_OPTION_IDX_MAX : nat := 10.

Definition DHCP_SNAME_OFS : Z := 44.
Definition DHCP_SNAME_LEN : Z := 64.
Definition DHCP_FILE_OFS : Z := 108.
Definition DHCP_FILE_LEN : Z := 128.
Definition DHCP_OPTIONS_OFS : Z := 240.
Definition DHCP_OVERLOAD_FILE : Z := 1.
Definition DHCP_OVERLOAD_SNAME : Z := 2.
Definition DHCP_OVERLOAD_SNAME_FILE : Z := 3.
Definition MAX_SERVERS : Z := 2.      (* DNS_MAX_SERVERS *)

(** ** The options that were received *)

Record rx_options := mk_rx { rx_val : list Z; rx_given : list Z }.

Definition dhcp_option_given (idx : Z) (rx : rx_options) : bool := negb (nth (Z.to_nat idx) (rx_given rx) 0 =? 0).
Definition dhcp_got_option (idx : Z) (rx : rx_options) : rx_options := mk_rx (rx_val rx) (<[Z.to_nat idx := 1]> (rx_given rx)).
Definition dhcp_clear_option (idx : Z) (rx : rx_options) : rx_options := mk_rx (rx_val rx) (<[Z.to_nat idx := 0]> (rx_given rx)).
Definition dhcp_clear_all_options (rx : rx_options) : rx_options := mk_rx (rx_val rx) (replicate DHCP_OPTION_IDX_MAX 0).
Definition dhcp_get_option_value (idx : Z) (rx : rx_options) : Z := nth (Z.to_nat idx) (rx_val rx) 0.
Definition dhcp_set_option_value (idx val : Z) (rx : rx_options) : rx_options := mk_rx (<[Z.to_nat idx := val]> (rx_val rx)) (rx_given rx).

(** ** Parsing *)

Section Operations.
Context {A W : Type} {ops : alloc_ops A}.

(** The switch on the code of an option: [decode_len] and [decode_idx], or [None]
    if the length is wrong. *)
Definition option_decode (op len : Z) : option (Z * Z) :=
  if op =? DHCP_OPTION_PAD then Some (0, -1)
  else if op =? DHCP_OPTION_SUBNET_MASK then if len =? 4 then Some (len, DHCP_OPTION_IDX_SUBNET_MASK) else None
  else if op =? DHCP_OPTION_ROUTER then if 4 <=? len then Some (4, DHCP_OPTION_IDX_ROUTER) else None
  else if op =? DHCP_OPTION_DNS_SERVER then
    if len mod 4 =? 0 then
      let decode_len := Z.min len (4 * MAX_SERVERS) in
      if decode_len <=? len then Some (decode_len, DHCP_OPTION_IDX_DNS_SERVER) else None
    else None
  else if op =? DHCP_OPTION_LEASE_TIME then if len =? 4 then Some (len, DHCP_OPTION_IDX_LEASE_TIME) else None
  else if op =? DHCP_OPTION_OVERLOAD then if len =? 1 then Some (len, DHCP_OPTION_IDX_OVERLOAD) else None
  else if op =? DHCP_OPTION_MESSAGE_TYPE then if len =? 1 then Some (len, DHCP_OPTION_IDX_MSG_TYPE) else None
  else if op =? DHCP_OPTION_SERVER_ID then if len =? 4 then Some (len, DHCP_OPTION_IDX_SERVER_ID) else None
  else if op =? DHCP_OPTION_T1 then if len =? 4 then Some (len, DHCP_OPTION_IDX_T1) else None
  else if op =? DHCP_OPTION_T2 then if len =? 4 then Some (len, DHCP_OPTION_IDX_T2) else None
  else Some (0, -1).

(** From the label [decode_next]; [value] is the variable in memory, which is not
    cleared between two rounds. *)
Fixpoint decode_next (fuel : nat) (q decode_len val_offset decode_idx : Z) (value : list Z) (rx : rx_options) : M A W (Z * rx_options) :=
  match fuel with
  | O => fun _ => None
  | S fuel =>
      if dhcp_option_given decode_idx rx then ret (ERR_OK, rx)
      else
        let copy_len := Z.min decode_len 4 in
        value <- gets (fun s => x ← pbuf_copy_partial q (Some value) copy_len val_offset (ps s); x.2) ;;
        if 4 <? decode_len then
          if negb (decode_len mod 4 =? 0) then ret (ERR_VAL, rx)
          else decode_next fuel q (u8 (decode_len - 4)) (u16 (val_offset + 4)) (decode_idx + 1) value
                 (dhcp_set_option_value decode_idx (Chksum.lwip_htonl (le32 value)) (dhcp_got_option decode_idx rx))
        else if decode_len =? 4 then
          ret (ERR_OK, dhcp_set_option_value decode_idx (Chksum.lwip_ntohl (le32 value)) (dhcp_got_option decode_idx rx))
        else if negb (decode_len =? 1) then ret (ERR_VAL, rx)
        else ret (ERR_OK, dhcp_set_option_value decode_idx (nth 0 value 0) (dhcp_got_option decode_idx rx))
  end.

(** One byte of the data of a pbuf. *)
Definition byte_of (q offset : Z) : M A W Z := l <- load q offset 1 ;; ret (byte1 l).

(** The pbuf that holds the byte [options_idx], the index in it and the end. *)
Fixpoint find_start (fuel : nat) (q options_idx options_idx_max : Z) : M A W (Z * Z * Z) :=
  match fuel with
  | O => fun _ => None
  | S fuel =>
      if q =? 0 then ret (q, options_idx, options_idx_max)
      else
        b <- the_pbuf q ;;
        if len b <=? options_idx then find_start fuel (next b) (u16 (options_idx - len b)) (u16 (options_idx_max - len b))
        else ret (q, options_idx, options_idx_max)
  end.

(** The loop over the options.  The byte for the length may be in the next pbuf; the
    read of the struct of the next pbuf is that of [q->payload], for NULL as well. *)
Fixpoint parse_options (fuel : nat) (q offset offset_max : Z) (rx : rx_options) : M A W (Z * rx_options) :=
  match fuel with
  | O => fun _ => None
  | S fuel =>
      b <- the_pbuf q ;;
      op <- byte_of q offset ;;
      if (op =? DHCP_OPTION_END) || negb (offset <? offset_max) then ret (ERR_OK, rx)
      else
        let val_offset := u16 (offset + 2) in
        len1 <- (if offset + 1 <? len b then byte_of q (offset + 1)
                 else if negb (next b =? 0) then byte_of (next b) 0 else ret 0) ;;
        let pad := op =? DHCP_OPTION_PAD in
        let len1 := if pad then 0 else len1 in
        let offset := if pad then u16 (offset - 1) else offset in
        match option_decode op len1 with
        | None => ret (ERR_VAL, rx)
        | Some (decode_len, decode_idx) =>
            let offset := u16 (offset + len1 + 2) in
            x <- (if 0 <? decode_len then decode_next 3 q decode_len val_offset decode_idx [0; 0; 0; 0] rx else ret (ERR_OK, rx)) ;;
            if negb (x.1 =? ERR_OK) then ret x
            else if len b <=? offset then
              let offset := u16 (offset - len b) in
              let offset_max := u16 (offset_max - len b) in
              if (offset <? offset_max) && negb (offset_max =? 0) then
                _ <- the_pbuf (next b) ;;
                parse_options fuel (next b) offset offset_max x.2
              else ret (ERR_OK, x.2)
            else parse_options fuel q offset offset_max x.2
        end
  end.

(** From the label [again] to the end of the loop over the options.  Each round of the
    loop is at least one byte further. *)
Definition parse_field (p options_idx options_idx_max : Z) (rx : rx_options) : M A W (Z * rx_options) :=
  fuel <- gets (fun s => Some (chain_fuel (ps s))) ;;
  x <- find_start fuel p options_idx options_idx_max ;;
  let '(q, offset, offset_max) := x in
  if q =? 0 then ret (ERR_BUF, rx)
  else b <- the_pbuf p ;; parse_options (S (Z.to_nat (tot_len b))) q offset offset_max rx.

(** The fields that hold options too: [parse_file_as_options] and
    [parse_sname_as_options] after the test on the option, which is cleared. *)
Definition overloaded (pf psn : bool) (rx : rx_options) : bool * bool * rx_options :=
  if dhcp_option_given DHCP_OPTION_IDX_OVERLOAD rx then
    let overload := dhcp_get_option_value DHCP_OPTION_IDX_OVERLOAD rx in
    let rx := dhcp_clear_option DHCP_OPTION_IDX_OVERLOAD rx in
    if overload =? DHCP_OVERLOAD_FILE then (true, psn, rx)
    else if overload =? DHCP_OVERLOAD_SNAME then (pf, true, rx)
    else if overload =? DHCP_OVERLOAD_SNAME_FILE then (true, true, rx)
    else (pf, psn, rx)
  else (pf, psn, rx).

(** [n] rounds of [goto again]; [None] also if they are not enough. *)
Fixpoint parse_again (n : nat) (p options_idx options_idx_max : Z) (pf psn : bool) (rx : rx_options) : M A W (Z * rx_options) :=
  match n with
  | O => fun _ => None
  | S n =>
      x <- parse_field p options_idx options_idx_max rx ;;
      if negb (x.1 =? ERR_OK) then ret x
      else
        let '(pf, psn, rx) := overloaded pf psn x.2 in
        if pf : bool then parse_again n p DHCP_FILE_OFS (DHCP_FILE_OFS + DHCP_FILE_LEN) false psn rx
        else if psn : bool then parse_again n p DHCP_SNAME_OFS (DHCP_SNAME_OFS + DHCP_SNAME_LEN) pf false rx
        else ret (ERR_OK, rx)
  end.

(** The result has [dhcp->msg_in] if it is set. *)
Definition dhcp_parse_reply (n : nat) (p : Z) (rx : rx_options) : M A W (Z * rx_options * option Z) :=
  let rx := dhcp_clear_all_options rx in
  b <- the_pbuf p ;;
  if len b <? DHCP_SNAME_OFS then ret (ERR_BUF, rx, None)
  else
    x <- parse_again n p DHCP_OPTIONS_OFS (tot_len b) false false rx ;;
    ret (x.1, x.2, Some (payload b)).

End Operations.

(** ** Writing *)

(** [msg_out->options] and [options_out_len]; the assertions are compiled out, and
    [None] is a write behind the array. *)
Definition DHCP_OPTIONS_LEN : Z := 68.
Definition DHCP_MIN_OPTIONS_LEN : Z := 68.
Record options_out := mk_out { o_bytes : list Z; options_out_len : Z }.

Definition put_byte (x : Z) (o : options_out) : option options_out :=
  if bool_decide (Z.to_nat (options_out_len o) < length (o_bytes o))%nat
  then Some (mk_out (<[Z.to_nat (options_out_len o) := x]> (o_bytes o)) (u16 (options_out_len o + 1))) else None.

(** The bytes of a number, from the lowest. *)
Definition octet0 (x : Z) : Z := u8 (Z.land x 0xff).
Definition octet1 (x : Z) : Z := u8 (Z.shiftr (Z.land x 0xff00) 8).
Definition octet2 (x : Z) : Z := u8 (Z.shiftr (Z.land x 0xff0000) 16).
Definition octet3 (x : Z) : Z := u8 (Z.shiftr (Z.land x 0xff000000) 24).

Definition dhcp_option (option_type option_len : Z) (o : options_out) : option options_out :=
  o ← put_byte option_type o; put_byte option_len o.
Definition dhcp_option_byte (value : Z) (o : options_out) : option options_out := put_byte value o.
Definition dhcp_option_short (value : Z) (o : options_out) : option options_out :=
  o ← put_byte (octet1 value) o; put_byte (octet0 value) o.
Definition dhcp_option_long (value : Z) (o : options_out) : option options_out :=
  o ← put_byte (octet3 value) o; o ← put_byte (octet2 value) o; o ← put_byte (octet1 value) o; put_byte (octet0 value) o.

(** The loop of [dhcp_option_trailer]. *)
Fixpoint pad_loop (fuel : nat) (o : options_out) : option options_out :=
  match fuel with
  | O => None
  | S fuel =>
      if ((options_out_len o <? DHCP_MIN_OPTIONS_LEN) || negb (Z.land (options_out_len o) 3 =? 0)) && (options_out_len o <? DHCP_OPTIONS_LEN)
      then o ← put_byte 0 o; pad_loop fuel o
      else Some o
  end.
Definition dhcp_option_trailer (o : options_out) : option options_out :=
  o ← put_byte DHCP_OPTION_END o; pad_loop (S (Z.to_nat DHCP_OPTIONS_LEN)) o.

Definition DHCP_DISCOVER : Z := 1.
Definition DHCP_REQUEST : Z := 3.
Definition DHCP_DECLINE : Z := 4.
Definition DHCP_RELEASE : Z := 7.
Definition DHCP_INFORM : Z := 8.

(** The options field after [dhcp_create_msg]. *)
Definition create_options (message_type : Z) : option options_out :=
  let o := mk_out ((fun i => u8 (Z.of_nat i)) <$> seq 0 (Z.to_nat DHCP_OPTIONS_LEN)) 0 in
  o ← dhcp_option DHCP_OPTION_MESSAGE_TYPE 1 o; dhcp_option_byte message_type o.

Definition max_msg_size (size : Z) (o : options_out) : option options_out :=
  o ← dhcp_option DHCP_OPTION_MAX_MSG_SIZE 2 o; dhcp_option_short size o.
Definition address_option (t addr : Z) (o : options_out) : option options_out :=
  o ← dhcp_option t 4 o; dhcp_option_long (Chksum.lwip_ntohl addr) o.
Definition parameter_request_list (o : options_out) : option options_out :=
  o ← dhcp_option DHCP_OPTION_PARAMETER_REQUEST_LIST 4 o; o ← dhcp_option_byte DHCP_OPTION_SUBNET_MASK o;
  o ← dhcp_option_byte DHCP_OPTION_ROUTER o; o ← dhcp_option_byte DHCP_OPTION_BROADCAST o; dhcp_option_byte DHCP_OPTION_DNS_SERVER o.

(** The options each function writes into its message. *)
Definition discover_options (mtu : Z) : option options_out :=
  o ← create_options DHCP_DISCOVER; o ← max_msg_size mtu o; o ← parameter_request_list o; dhcp_option_trailer o.
Definition select_options (mtu offered_ip_addr server_ip_addr : Z) : option options_out :=
  o ← create_options DHCP_REQUEST; o ← max_msg_size mtu o; o ← address_option DHCP_OPTION_REQUESTED_IP offered_ip_addr o;
  o ← address_option DHCP_OPTION_SERVER_ID server_ip_addr o; o ← parameter_request_list o; dhcp_option_trailer o.
Definition renew_options (mtu : Z) : option options_out :=
  o ← create_options DHCP_REQUEST; o ← max_msg_size mtu o; dhcp_option_trailer o.
Definition rebind_options (mtu : Z) : option options_out :=
  o ← create_options DHCP_REQUEST; o ← max_msg_size mtu o; dhcp_option_trailer o.
Definition reboot_options (offered_ip_addr : Z) : option options_out :=
  o ← create_options DHCP_REQUEST; o ← max_msg_size 576 o; o ← address_option DHCP_OPTION_REQUESTED_IP offered_ip_addr o; dhcp_option_trailer o.
Definition decline_options (offered_ip_addr : Z) : option options_out :=
  o ← create_options DHCP_DECLINE; o ← address_option DHCP_OPTION_REQUESTED_IP offered_ip_addr o; dhcp_option_trailer o.
Definition release_options : option options_out := o ← create_options DHCP_RELEASE; dhcp_option_trailer o.
Definition inform_options (mtu : Z) : option options_out :=
  o ← create_options DHCP_INFORM; o ← max_msg_size mtu o; dhcp_option_trailer o.

(** The messages. *)
Inductive request := Discover | Select | Renew | Rebind | Reboot | Decline | Release | Inform.
Definition message_options (r : request) (mtu offered_ip_addr server_ip_addr : Z) : option options_out :=
  match r with
  | Discover => discover_options mtu
  | Select => select_options mtu offered_ip_addr server_ip_addr
  | Renew => renew_options mtu
  | Rebind => rebind_options mtu
  | Reboot => reboot_options offered_ip_addr
  | Decline => decline_options offered_ip_addr
  | Release => release_options
  | Inform => inform_options mtu
  end.

(** ** Reference *)

(** An option with its code and value, or a byte of padding. *)
Inductive item := Pad | Opt (code : Z) (value : list Z).
Definition enc_item (o : item) : list Z :=
  match o with Pad => [DHCP_OPTION_PAD] | Opt c v => c :: Z.of_nat (length v) :: v end.
Definition enc_items (l : list item) : list Z := l ≫= enc_item.

(** The lengths RFC 2132 gives the options that are looked at. *)
Definition length_ok (c n : Z) : bool :=
  if c =? DHCP_OPTION_ROUTER then (4 <=? n)
  else if c =? DHCP_OPTION_DNS_SERVER then (4 <=? n) && (n mod 4 =? 0)
  else if (c =? DHCP_OPTION_OVERLOAD) || (c =? DHCP_OPTION_MESSAGE_TYPE) then n =? 1
  else if (c =? DHCP_OPTION_SUBNET_MASK) || (c =? DHCP_OPTION_LEASE_TIME) || (c =? DHCP_OPTION_SERVER_ID) ||
          (c =? DHCP_OPTION_T1) || (c =? DHCP_OPTION_T2) then n =? 4
  else true.
Definition item_ok (o : item) : Prop :=
  match o with
  | Pad => True
  | Opt c v => 0 < c < 255 /\ (length v < 256)%nat /\ Forall (in_u 8) v /\ length_ok c (Z.of_nat (length v)) = true
  end.

(** The value of the first option of a code. *)
Fixpoint first_option (c : Z) (l : list item) : option (list Z) :=
  match l with
  | [] => None
  | Opt c' v :: l => if c' =? c then Some v else first_option c l
  | Pad :: l => first_option c l
  end.

(** A number, the highest byte first. *)
Definition number (v : list Z) : Z := foldl (fun x d => x * 256 + d) 0 v.

(** What a message says for an index of the table: the number in the option; the
    first router; the servers one by one. *)
Definition told (l : list item) (idx : Z) : option Z :=
  let value c := number <$> first_option c l in
  if idx =? DHCP_OPTION_IDX_OVERLOAD then value DHCP_OPTION_OVERLOAD
  else if idx =? DHCP_OPTION_IDX_MSG_TYPE then value DHCP_OPTION_MESSAGE_TYPE
  else if idx =? DHCP_OPTION_IDX_SERVER_ID then value DHCP_OPTION_SERVER_ID
  else if idx =? DHCP_OPTION_IDX_LEASE_TIME then value DHCP_OPTION_LEASE_TIME
  else if idx =? DHCP_OPTION_IDX_T1 then value DHCP_OPTION_T1
  else if idx =? DHCP_OPTION_IDX_T2 then value DHCP_OPTION_T2
  else if idx =? DHCP_OPTION_IDX_SUBNET_MASK then value DHCP_OPTION_SUBNET_MASK
  else if idx =? DHCP_OPTION_IDX_ROUTER then (fun v => number (take 4 v)) <$> first_option DHCP_OPTION_ROUTER l
  else if idx =? DHCP_OPTION_IDX_DNS_SERVER then (fun v => number (take 4 v)) <$> first_option DHCP_OPTION_DNS_SERVER l
  else if idx =? DHCP_OPTION_IDX_DNS_SERVER + 1 then
    v ← first_option DHCP_OPTION_DNS_SERVER l; if bool_decide (length v < 8)%nat then None else Some (number (take 4 (drop 4 v)))
  else None.

(** What is in the table. *)
Definition taken_option (rx : rx_options) (idx : Z) : option Z :=
  if dhcp_option_given idx rx then Some (dhcp_get_option_value idx rx) else None.
Definition rx_ok (rx : rx_options) : Prop := length (rx_val rx) = DHCP_OPTION_IDX_MAX /\ length (rx_given rx) = DHCP_OPTION_IDX_MAX.


(** The options one after the other into the table. *)
Fixpoint taken (fuel : nat) (decode_len idx : Z) (v : list Z) (rx : rx_options) : rx_options :=
  match fuel with
  | O => rx
  | S fuel =>
      if dhcp_option_given idx rx then rx
      else
        let rx := dhcp_set_option_value idx (number (take (Z.to_nat (Z.min decode_len 4)) v)) (dhcp_got_option idx rx) in
        if 4 <? decode_len then taken fuel (decode_len - 4) (idx + 1) (drop 4 v) rx else rx
  end.
Definition learn (rx : rx_options) (o : item) : rx_options :=
  match o with
  | Pad => rx
  | Opt c v =>
      match option_decode c (Z.of_nat (length v)) with
      | Some (decode_len, idx) => if 0 <? decode_len then taken 3 decode_len idx v rx else rx
      | None => rx
      end
  end.

(** All pbufs but the first and the last hold more than an option. *)
Definition wide (l : list (Z * pbuf)) : Prop := Forall (fun x => 257 <= len x.2) (removelast l).

Section Correct.
Context {A W : Type} {ops : alloc_ops A} {laws : alloc_laws A} {lops : link_ops A W} {llaws : link_laws A W}.
Implicit Types s : net A W.

Lemma byte_of_run s q b k i x : chain (bufs (ps s)) q ((q, b) :: k) 0 -> 0 <= i < len b ->
  contents (bytes (ps s)) ((q, b) :: k) !! Z.to_nat i = Some x -> byte_of q i s = Some (x, s).
Proof.
  intros (_ & _ & E & _) Hi Hx. unfold byte_of. rewrite (bind_run _ _ _ _ _ (load_run q i 1 b s E ltac:(lia) ltac:(lia))).
  rewrite contents_cons, lookup_app_l in Hx by (rewrite read_bytes_length; lia). rewrite !read_bytes_rd in *.
  assert (seqZ (payload b + i) 1 = [payload b + i]) as -> by (unfold seqZ; cbn; f_equal; lia).
  rewrite list_lookup_fmap, lookup_seqZ_lt in Hx by lia. cbn [fmap option_fmap option_map] in Hx. rewrite Z2Nat.id in Hx by lia.
  by injection Hx as <-.
Qed.

Lemma number_four a b c d : number [a; b; c; d] = ((a * 256 + b) * 256 + c) * 256 + d.
Proof. reflexivity. Qed.

Lemma ntohl_number v : length v = 4%nat -> Forall (in_u 8) v -> Chksum.lwip_ntohl (le32 v) = number v /\ Chksum.lwip_htonl (le32 v) = number v.
Proof.
  intros L F. destruct v as [|a [|b [|c [|d [|]]]]]; try discriminate L.
  assert (Chksum.octets [a; b; c; d]) as Ho.
  { eapply Forall_impl; [exact F|]. intros x Hx. unfold in_u in Hx. cbn in Hx. lia. }
  assert (Chksum.lwip_htonl (le32 [a; b; c; d]) = number [a; b; c; d]) as E; [|by split].
  rewrite number_four. unfold le32. change (Chksum.load32 a b c d) with (Chksum.of_bytes a b c d). rewrite Chksum.htonl_of_bytes by done. unfold Chksum.of_bytes. lia.
Qed.

(** The value is copied from where it is, over as many pbufs as it takes. *)
Lemma decode_next_run s q k v rest : chain (bufs (ps s)) q k 0 -> tot_ok k -> q ≠ 0 -> Forall (in_u 8) v ->
  forall fuel decode_len off idx val rx, drop (Z.to_nat off) (contents (bytes (ps s)) k) = v ++ rest ->
  decode_len <= Z.of_nat (length v) < 256 -> decode_len = 1 \/ decode_len = 4 \/ decode_len = 8 -> (Z.to_nat decode_len <= 4 * fuel)%nat -> length val = 4%nat ->
  0 <= off -> off + Z.of_nat (length v) < 2 ^ 16 ->
  decode_next fuel q decode_len off idx val rx s = Some ((ERR_OK, taken fuel decode_len idx v rx), s).
Proof.
  intros Hc Ht Hq Hv fuel. revert v Hv. induction fuel as [|fuel IH]; intros v Hv dl off idx val rx D Hl Hdl Hf Hval Ho Ho'; [lia|].
  cbn [decode_next taken]. destruct (dhcp_option_given idx rx); [done|].
  assert (window off (Z.min dl 4) (contents (bytes (ps s)) k) = take (Z.to_nat (Z.min dl 4)) v) as Ew
    by (unfold window; rewrite D; apply take_app_le; lia).
  pose proof (copy_partial_all (ps s) q k (Z.min dl 4) off val Hc Ht Hq ltac:(lia) ltac:(lia)) as Hcp. rewrite Ew, length_take in Hcp.
  specialize (Hcp ltac:(lia)). cbv zeta in Hcp.
  unfold bind at 1, gets at 1. rewrite Hcp. cbn [mbind option_bind snd].
  destruct Hdl as [->|[->| ->]].
  - change (4 <? 1) with false. change (1 =? 4) with false. change (negb (1 =? 1)) with false. cbv iota.
    destruct v as [|x v]; [cbn in Hl; lia|]. done.
  - change (4 <? 4) with false. change (4 =? 4) with true. cbv iota. change (Z.to_nat (Z.min 4 4)) with 4%nat in *.
    rewrite (drop_ge val) by (rewrite length_take; lia). rewrite app_nil_r.
    destruct (ntohl_number (take 4 v)) as [-> _]; [rewrite length_take; lia|by apply Forall_take|done].
  - change (4 <? 8) with true. change (negb (8 mod 4 =? 0)) with false. cbv iota. change (Z.to_nat (Z.min 8 4)) with 4%nat in *.
    rewrite (drop_ge val) by (rewrite length_take; lia). rewrite app_nil_r.
    destruct (ntohl_number (take 4 v)) as [_ ->]; [rewrite length_take; lia|by apply Forall_take|].
    change (u8 (8 - 4)) with 4. change (8 - 4) with 4. replace (u16 (off + 4)) with (off + 4) by (symmetry; apply wrap_id; unfold in_u; lia).
    apply IH; [by apply Forall_drop| | |tauto|lia| |lia|rewrite length_drop; lia].
    + replace (Z.to_nat (off + 4)) with (Z.to_nat off + 4)%nat by lia. rewrite <-drop_drop, D. rewrite drop_app_le by lia. done.
    + rewrite length_drop. lia.
    + rewrite length_take. lia.
Qed.

Lemma decode_item s q k c v rest off rx : chain (bufs (ps s)) q k 0 -> tot_ok k -> q ≠ 0 -> item_ok (Opt c v) ->
  drop (Z.to_nat off) (contents (bytes (ps s)) k) = v ++ rest -> 0 <= off -> off + Z.of_nat (length v) < 2 ^ 16 ->
  exists dl idx, option_decode c (Z.of_nat (length v)) = Some (dl, idx) /\
    (if 0 <? dl then decode_next 3 q dl off idx [0; 0; 0; 0] rx else ret (ERR_OK, rx)) s = Some ((ERR_OK, learn rx (Opt c v)), s).
Proof.
  intros Hc Ht Hq (Hcc & Hl & Hv & Hlen) D Ho Ho'.
  assert (exists dl idx, option_decode c (Z.of_nat (length v)) = Some (dl, idx) /\
    (dl = 0 \/ (dl = 1 \/ dl = 4 \/ dl = 8) /\ dl <= Z.of_nat (length v))) as (dl & idx & E & Hdl).
  { unfold option_decode. unfold length_ok in Hlen.
    rewrite (proj2 (Z.eqb_neq c DHCP_OPTION_PAD)) by (unfold DHCP_OPTION_PAD; lia).
    change MAX_SERVERS with 2. change (4 * 2) with 8.
    destruct (Z.eqb_spec c DHCP_OPTION_ROUTER) as [->|Hr]; cbn in Hlen |- *.
    { rewrite Hlen. apply Z.leb_le in Hlen. eexists _, _. split; [done|]. right. split; [tauto|lia]. }
    destruct (Z.eqb_spec c DHCP_OPTION_DNS_SERVER) as [->|Hd]; cbn in Hlen |- *.
    { apply andb_true_iff in Hlen as [H4%Z.leb_le Hm]. rewrite Hm. apply Z.eqb_eq in Hm.
      rewrite (proj2 (Z.leb_le _ _)) by lia. eexists _, _. split; [done|]. right. split; [|lia].
      destruct (decide (8 <= Z.of_nat (length v))); [lia|]. Z.div_mod_to_equations. lia. }
    repeat match goal with |- context [c =? ?x] => destruct (Z.eqb_spec c x) as [->|?] end; cbn in Hlen |- *;
      rewrite ?Hlen; try (apply Z.eqb_eq in Hlen); eexists _, _; (split; [done|]); first [by left|right; lia]. }
  exists dl, idx. split; [done|]. unfold learn. rewrite E. destruct Hdl as [->|[Hdl Hle]]; [done|].
  rewrite (proj2 (Z.ltb_lt 0 dl)) by lia. eapply decode_next_run; try done; lia.
Qed.

(** The next pbuf, if the data goes on. *)
Lemma chain_tail s q b k : chain (bufs (ps s)) q ((q, b) :: k) 0 -> 0 < tot k ->
  exists c k', k = (next b, c) :: k' /\ next b ≠ 0 /\ chain (bufs (ps s)) (next b) k 0 /\ bufs (ps s) !! next b = Some c.
Proof.
  intros (_ & _ & _ & Hc) Ht. destruct k as [|[a c] k']; [done|]. pose proof Hc as (<- & Hz & E & _). by exists c, k'.
Qed.

Lemma wide_tail x k : wide (x :: k) -> wide k.
Proof. unfold wide. destruct k as [|y k]; [by constructor|]. cbn [removelast]. intros H. by apply Forall_cons in H as [_ H]. Qed.

Lemma wide_head a c k : wide ((a, c) :: k) -> k = [] \/ 257 <= len c.
Proof. unfold wide. destruct k as [|y k]; [by left|]. intros H. cbn [removelast] in H. apply Forall_cons in H as [H _]. by right. Qed.

(** The byte after [offset], in this pbuf or the next. *)
Lemma second_byte s q b k i x rest : chain (bufs (ps s)) q ((q, b) :: k) 0 -> tot_ok ((q, b) :: k) -> wide k -> 0 <= i < len b ->
  drop (Z.to_nat (i + 1)) (contents (bytes (ps s)) ((q, b) :: k)) = x :: rest ->
  (if i + 1 <? len b then byte_of q (i + 1) else if negb (next b =? 0) then byte_of (next b) 0 else ret 0) s = Some (x, s).
Proof.
  intros Hc Ht Hw Hi D. destruct (Z.ltb_spec (i + 1) (len b)).
  - eapply byte_of_run; [exact Hc|lia|]. by rewrite <-(Nat.add_0_r (Z.to_nat (i + 1))), <-lookup_drop, D.
  - rewrite contents_cons, drop_app_ge in D by (rewrite read_bytes_length; lia). rewrite read_bytes_length in D.
    replace (Z.to_nat (i + 1) - Z.to_nat (len b))%nat with 0%nat in D by lia. rewrite drop_0 in D.
    destruct Ht as (_ & _ & _ & Ht). pose proof (contents_length (bytes (ps s)) k Ht) as Hl. rewrite D in Hl. cbn [length] in Hl.
    destruct (chain_tail s q b k Hc ltac:(lia)) as (c & k' & -> & Hz & Hc' & E). rewrite (proj2 (Z.eqb_neq _ _) Hz). cbn [negb].
    eapply byte_of_run; [exact Hc'| |by rewrite D]. destruct (wide_head _ _ _ Hw) as [->|?]; [cbn [tot] in Hl; lia|lia].
Qed.

Lemma pad_step i : 0 <= i < 65535 -> u16 (u16 (i - 1) + 0 + 2) = i + 1.
Proof.
  intros Hi. unfold u16, wrap. rewrite Z.add_0_r, Zplus_mod_idemp_l. replace (i - 1 + 2) with (i + 1) by lia. apply Z.mod_small. cint_pow; lia.
Qed.

(** The loop takes the options up to the end mark. *)
Lemma parse_items s : forall items fuel q b k offset offset_max rx rest, chain (bufs (ps s)) q ((q, b) :: k) 0 -> tot_ok ((q, b) :: k) -> wide k ->
  0 <= offset < len b -> Forall item_ok items ->
  drop (Z.to_nat offset) (contents (bytes (ps s)) ((q, b) :: k)) = enc_items items ++ DHCP_OPTION_END :: rest ->
  offset + Z.of_nat (length (enc_items items)) < offset_max -> offset_max <= len b \/ offset_max = tot ((q, b) :: k) ->
  (length (enc_items items) < fuel)%nat ->
  parse_options fuel q offset offset_max rx s = Some ((ERR_OK, foldl learn rx items), s).
Proof.
  induction items as [|o items IH]; intros [|fuel] q b k offset om rx rest Hc Ht Hw Ho Hok D Hom Hend Hf; try lia.
  all: pose proof Hc as (_ & Hq & E & _); pose proof Ht as (Htot & Hlen & Htl & Htk); pose proof (tot_nonneg _ Htk) as Hnn.
  all: assert (om < 65536) as Hom' by (cbn [tot] in Hend; lia).
  all: cbn [parse_options]; rewrite (bind_run (the_pbuf q) _ s b s) by (unfold the_pbuf, gets, get; by rewrite E).
  { rewrite (bind_run _ _ s DHCP_OPTION_END s); [done|]. eapply byte_of_run; [exact Hc|done|].
    by rewrite <-(Nat.add_0_r (Z.to_nat offset)), <-lookup_drop, D. }
  apply Forall_cons in Hok as [Ho1 Hok].
  change (enc_items (o :: items)) with (enc_item o ++ enc_items items) in *. rewrite length_app in Hom, Hf. rewrite <-app_assoc in D.
  (* what follows the option *)
  assert (forall off' rx', off' = offset + Z.of_nat (length (enc_item o)) -> (1 <= length (enc_item o) <= 257)%nat ->
    (if len b <=? off' then
       let offset := u16 (off' - len b) in let offset_max := u16 (om - len b) in
       if (offset <? offset_max) && negb (offset_max =? 0) then _ <- the_pbuf (next b) ;; parse_options fuel (next b) offset offset_max rx'
       else ret (ERR_OK, rx')
     else parse_options fuel q off' om rx')%net s = Some ((ERR_OK, foldl learn rx' items), s)) as Hrest.
  { intros off' rx' -> Hlo. set (off' := offset + _).
    assert (drop (Z.to_nat off') (contents (bytes (ps s)) ((q, b) :: k)) = enc_items items ++ DHCP_OPTION_END :: rest) as D'.
    { unfold off'. replace (Z.to_nat (offset + _)) with (Z.to_nat offset + length (enc_item o))%nat by lia.
      rewrite <-drop_drop, D, drop_app_length. done. }
    destruct (Z.leb_spec (len b) off') as [Hge|Hlt].
    - cbn [tot] in Hend. destruct Hend as [?|Hend]; [lia|]. destruct (chain_tail s q b k Hc ltac:(lia)) as (c & k' & -> & Hz & Hc' & E').
      rewrite !wrap_id by (unfold in_u; lia). cbv zeta. rewrite (proj2 (Z.ltb_lt _ _)) by lia. rewrite (proj2 (Z.eqb_neq _ _)) by lia. cbn [andb negb].
      rewrite (bind_run (the_pbuf (next b)) _ s c s) by (unfold the_pbuf, gets, get; by rewrite E').
      eapply IH; [exact Hc'|done|by eapply wide_tail| |done| |lia|right; cbn [tot] in *; lia|lia].
      + split; [lia|]. destruct (wide_head _ _ _ Hw) as [->|?]; [cbn [tot] in Hend|]; lia.
      + rewrite contents_cons, drop_app_ge in D' by (rewrite read_bytes_length; lia). rewrite read_bytes_length in D'.
        replace (Z.to_nat (off' - len b)) with (Z.to_nat off' - Z.to_nat (len b))%nat by lia. exact D'.
    - eapply IH; [exact Hc|done|done|lia|done|exact D'|lia|done|lia]. }
  assert (exists y rest', drop (Z.to_nat (offset + 1)) (contents (bytes (ps s)) ((q, b) :: k)) = y :: rest' /\
    (forall c v, o = Opt c v -> y = Z.of_nat (length v) /\ rest' = v ++ enc_items items ++ DHCP_OPTION_END :: rest)) as (y & rest' & Dy & Hy).
  { replace (Z.to_nat (offset + 1)) with (Z.to_nat offset + 1)%nat by lia. rewrite <-drop_drop, D.
    destruct o as [|c v]; cbn [enc_item app drop].
    - destruct (enc_items items); eexists _, _; (split; [done|done]).
    - eexists _, _. split; [done|]. by intros ? ? [= -> ->]. }
  rewrite (bind_run (byte_of q offset) _ s (hd 0 (enc_item o)) s).
  2: { eapply byte_of_run; [exact Hc|done|]. rewrite <-(Nat.add_0_r (Z.to_nat offset)), <-lookup_drop, D. by destruct o. }
  rewrite (proj2 (Z.ltb_lt offset om)) by lia. cbn [negb].
  destruct o as [|c v]; cbn [enc_item hd length] in *.
  - change ((DHCP_OPTION_PAD =? DHCP_OPTION_END) || false) with false. cbv iota zeta.
    rewrite (bind_run _ _ _ _ _ (second_byte s q b k offset y rest' Hc Ht Hw Ho Dy)).
    change (DHCP_OPTION_PAD =? DHCP_OPTION_PAD) with true. cbv iota. change (option_decode DHCP_OPTION_PAD 0) with (Some (0, -1)). cbv iota beta.
    change (0 <? 0) with false. cbv iota. cbn [bind ret fst snd]. unfold bind at 1. cbn [ret mbind option_bind fst snd Z.eqb negb].
    rewrite pad_step by lia. apply (Hrest (offset + 1) rx); lia.
  - destruct (Hy c v eq_refl) as [-> ->]. pose proof Ho1 as (Hc1 & Hlv & _).
    rewrite (proj2 (Z.eqb_neq c DHCP_OPTION_END)) by (unfold DHCP_OPTION_END; lia). cbn [orb].
    rewrite (bind_run _ _ _ _ _ (second_byte s q b k offset _ _ Hc Ht Hw Ho Dy)).
    rewrite (proj2 (Z.eqb_neq c DHCP_OPTION_PAD)) by (unfold DHCP_OPTION_PAD; lia). cbv zeta.
    destruct (decode_item s q ((q, b) :: k) c v (enc_items items ++ DHCP_OPTION_END :: rest) (u16 (offset + 2)) rx Hc Ht Hq Ho1) as (dl & idx & -> & Hdec).
    + rewrite wrap_id by (unfold in_u; lia). replace (Z.to_nat (offset + 2)) with (Z.to_nat (offset + 1) + 1)%nat by lia. by rewrite <-drop_drop, Dy.
    + rewrite wrap_id by (unfold in_u; lia). lia.
    + rewrite wrap_id by (unfold in_u; lia). lia.
    + rewrite (bind_run _ _ _ _ _ Hdec). cbn [fst snd Z.eqb negb ERR_OK]. rewrite wrap_id by (unfold in_u; lia).
      apply (Hrest _ (learn rx (Opt c v))); lia.
Qed.

(** *** Any contents *)

Definition fine (e : Z) : Prop := e = ERR_OK \/ e = ERR_VAL.

Lemma decode_next_total s q k : chain (bufs (ps s)) q k 0 -> tot_ok k -> q ≠ 0 ->
  forall fuel decode_len off idx val rx, 0 < decode_len < 256 -> (Z.to_nat decode_len <= 4 * fuel)%nat -> length val = 4%nat -> 0 <= off < 2 ^ 16 ->
  exists e rx', decode_next fuel q decode_len off idx val rx s = Some ((e, rx'), s) /\ fine e.
Proof.
  intros Hc Ht Hq. induction fuel as [|fuel IH]; intros dl off idx val rx Hdl Hf Hval Ho; [lia|]. cbn [decode_next].
  destruct (dhcp_option_given idx rx); [eexists _, _; split; [done|by left]|].
  pose proof (window_length off (Z.min dl 4) (contents (bytes (ps s)) k)) as Hwl.
  pose proof (copy_partial_all (ps s) q k (Z.min dl 4) off val Hc Ht Hq ltac:(lia) ltac:(lia) ltac:(lia)) as Hcp. cbv zeta in Hcp.
  unfold bind at 1, gets at 1. rewrite Hcp. cbn [mbind option_bind snd].
  destruct (4 <? dl) eqn:E4.
  - apply Z.ltb_lt in E4. destruct (negb (dl mod 4 =? 0)); [eexists _, _; split; [done|by right]|].
    apply IH; [rewrite wrap_id by (unfold in_u; lia); lia|rewrite wrap_id by (unfold in_u; lia); lia| |apply wrap_range; lia].
    rewrite length_app, length_drop. lia.
  - destruct (dl =? 4); [eexists _, _; split; [done|by left]|]. destruct (negb (dl =? 1)); eexists _, _; (split; [done|]); [by right|by left].
Qed.

Lemma option_decode_range op n dl idx : 0 <= n < 256 -> option_decode op n = Some (dl, idx) -> 0 <= dl <= 8.
Proof.
  intros Hn. unfold option_decode, MAX_SERVERS. repeat case_match; intros E; try discriminate E; injection E as <- <-;
    repeat match goal with H : (_ =? _) = true |- _ => apply Z.eqb_eq in H end; lia.
Qed.

Lemma byte_of_in s q b k i : chain (bufs (ps s)) q ((q, b) :: k) 0 -> tot_ok ((q, b) :: k) -> Forall (in_u 8) (contents (bytes (ps s)) ((q, b) :: k)) -> 0 <= i < len b ->
  exists x, byte_of q i s = Some (x, s) /\ 0 <= x < 256.
Proof.
  intros Hc Ht F Hi. pose proof (contents_length (bytes (ps s)) _ Ht) as HL. destruct Ht as (_ & _ & _ & Htk). pose proof (tot_nonneg _ Htk). cbn [tot] in HL.
  destruct (lookup_lt_is_Some_2 (contents (bytes (ps s)) ((q, b) :: k)) (Z.to_nat i) ltac:(lia)) as [x Hx].
  exists x. split; [by eapply byte_of_run|]. rewrite Forall_lookup in F. exact (F _ _ Hx).
Qed.

Lemma contents_tail_in m a b k : Forall (in_u 8) (contents m ((a, b) :: k)) -> Forall (in_u 8) (contents m k).
Proof. rewrite contents_cons. by intros [_ H]%Forall_app. Qed.

(** The loop over the options of any contents ends and reads nothing outside of the packet. *)
Lemma parse_total s : forall fuel q b k offset rx, chain (bufs (ps s)) q ((q, b) :: k) 0 -> tot_ok ((q, b) :: k) -> wide k -> all_pos k ->
  Forall (in_u 8) (contents (bytes (ps s)) ((q, b) :: k)) -> tot ((q, b) :: k) < 65000 -> 0 <= offset < len b ->
  (Z.to_nat (tot ((q, b) :: k) - offset) < fuel)%nat ->
  exists e rx', parse_options fuel q offset (tot ((q, b) :: k)) rx s = Some ((e, rx'), s) /\ fine e.
Proof.
  induction fuel as [|fuel IH]; intros q b k offset rx Hc Ht Hw Hp F Hsm Ho Hf; [lia|].
  pose proof Hc as (_ & Hq & E & _). pose proof Ht as (_ & Hlen & _ & Htk). pose proof (tot_nonneg _ Htk) as Hnn. cbn [tot] in *.
  cbn [parse_options]. rewrite (bind_run (the_pbuf q) _ s b s) by (unfold the_pbuf, gets, get; by rewrite E).
  destruct (byte_of_in s q b k offset Hc Ht F Ho) as (op & Eop & _). rewrite (bind_run _ _ _ _ _ Eop).
  destruct ((op =? DHCP_OPTION_END) || _); [eexists _, _; split; [done|by left]|]. cbv zeta.
  assert (exists n, (if offset + 1 <? len b then byte_of q (offset + 1) else if negb (next b =? 0) then byte_of (next b) 0 else ret 0)%net s = Some (n, s) /\ 0 <= n < 256) as (n & En & Hn).
  { destruct (Z.ltb_spec (offset + 1) (len b)); [apply (byte_of_in s q b k); done || lia|].
    destruct (Z.eqb_spec (next b) 0) as [Hz|Hz]; [by exists 0|]. cbn [negb]. destruct Hc as (_ & _ & _ & Hc). destruct k as [|[a c] k]; [done|].
    pose proof Hc as (<- & _). apply (byte_of_in s (next b) c k); [done|done|by eapply contents_tail_in|]. apply Forall_cons in Hp as [Hp _]. cbn in Hp. lia. }
  rewrite (bind_run _ _ _ _ _ En). set (pad := op =? DHCP_OPTION_PAD). set (n1 := if pad then 0 else n). set (off1 := if pad then _ else offset).
  destruct (option_decode op n1) as [[dl idx]|] eqn:Ed; [|eexists _, _; split; [done|by right]].
  assert (0 <= n1 < 256) as Hn1 by (unfold n1; destruct pad; lia). pose proof (option_decode_range op n1 dl idx Hn1 Ed) as Hdl.
  assert (exists e rx', (if 0 <? dl then decode_next 3 q dl (u16 (offset + 2)) idx [0; 0; 0; 0] rx else ret (ERR_OK, rx)) s = Some ((e, rx'), s) /\ fine e) as (e & rx1 & Ex & He).
  { destruct (Z.ltb_spec 0 dl); [|eexists _, _; split; [done|by left]]. apply (decode_next_total s q ((q, b) :: k)); try done; [lia|lia|apply wrap_range; lia]. }
  rewrite (bind_run _ _ _ _ _ Ex). cbn [fst snd]. destruct (Z.eqb_spec e ERR_OK) as [->|Hne]; cbn [negb]; [|eexists _, _; split; [done|exact He]].
  assert (exists step, u16 (off1 + n1 + 2) = offset + step /\ 1 <= step <= 257) as (step & -> & Hstep).
  { unfold off1, n1. destruct pad; [exists 1; rewrite pad_step by lia; lia|]. exists (n + 2). rewrite wrap_id by (unfold in_u; lia). lia. }
  destruct (Z.leb_spec (len b) (offset + step)) as [Hge|Hlt].
  - rewrite !wrap_id by (unfold in_u; lia). replace (len b + tot k - len b) with (tot k) by lia.
    destruct ((_ <? _) && _) eqn:Eb; [|eexists _, _; split; [done|by left]]. apply andb_true_iff in Eb as [Eb%Z.ltb_lt _].
    destruct (chain_tail s q b k Hc ltac:(lia)) as (c & k' & -> & Hz & Hc' & E').
    rewrite (bind_run (the_pbuf (next b)) _ s c s) by (unfold the_pbuf, gets, get; by rewrite E').
    pose proof (wide_head _ _ _ Hw) as Hwh. pose proof Htk as (_ & _ & _ & Htk'). pose proof (tot_nonneg _ Htk'). cbn [tot] in Eb.
    apply IH; [exact Hc'|exact Htk|by eapply wide_tail|by apply Forall_cons in Hp as [_ Hp]|by eapply contents_tail_in|cbn [tot] in *; lia| |cbn [tot] in *; lia].
    split; [lia|]. destruct Hwh as [->|?]; [cbn [tot] in Eb|]; lia.
  - apply IH; try done; cbn [tot]; lia.
Qed.

(** A field that starts in the first pbuf, up to its end mark. *)
Lemma parse_field_start s p b l idx idx_max rx : chain (bufs (ps s)) p ((p, b) :: l) 0 -> 0 <= idx < len b ->
  parse_field p idx idx_max rx s = parse_options (S (Z.to_nat (tot_len b))) p idx idx_max rx s.
Proof.
  intros Hc Hi. pose proof Hc as (_ & Hz & E & _).
  unfold parse_field. unfold bind at 1, gets at 1. cbn [mbind option_bind].
  rewrite (bind_run _ _ s (p, idx, idx_max) s).
  2: { unfold chain_fuel. cbn [find_start]. rewrite (proj2 (Z.eqb_neq p 0)) by done.
       rewrite (bind_run (the_pbuf p) _ s b s) by (unfold the_pbuf, gets, get; by rewrite E).
       by rewrite (proj2 (Z.leb_gt (len b) idx)) by lia. }
  rewrite (proj2 (Z.eqb_neq p 0)) by done.
  by rewrite (bind_run (the_pbuf p) _ s b s) by (unfold the_pbuf, gets, get; by rewrite E).
Qed.

Lemma parse_field_run s p b l idx idx_max items rx rest : chain (bufs (ps s)) p ((p, b) :: l) 0 -> tot_ok ((p, b) :: l) -> wide l ->
  0 <= idx < len b -> Forall item_ok items ->
  drop (Z.to_nat idx) (contents (bytes (ps s)) ((p, b) :: l)) = enc_items items ++ DHCP_OPTION_END :: rest ->
  idx + Z.of_nat (length (enc_items items)) < idx_max -> idx_max <= len b \/ idx_max = tot ((p, b) :: l) ->
  parse_field p idx idx_max rx s = Some ((ERR_OK, foldl learn rx items), s).
Proof.
  intros Hc Ht Hw Hi Hok D Hm He. pose proof Ht as (Htot & _ & _ & Htk). pose proof (tot_nonneg _ Htk).
  rewrite (parse_field_start s p b l) by done. eapply parse_items; [exact Hc|done|done|done|done|exact D|done|done|]. cbn [tot] in He. lia.
Qed.

End Correct.

(** ** What is in the table *)

Lemma given_got idx i rx : rx_ok rx -> 0 <= idx < 10 -> 0 <= i < 10 ->
  dhcp_option_given i (dhcp_got_option idx rx) = if i =? idx then true else dhcp_option_given i rx.
Proof.
  intros [_ L] Hx Hi. unfold dhcp_option_given, dhcp_got_option. cbn [rx_given]. rewrite !nth_lookup.
  destruct (Z.eqb_spec i idx) as [->|Hn].
  - by rewrite list_lookup_insert_eq by (rewrite L; unfold DHCP_OPTION_IDX_MAX; lia).
  - by rewrite list_lookup_insert_ne by lia.
Qed.

Definition store_option (idx val : Z) (rx : rx_options) : rx_options := dhcp_set_option_value idx val (dhcp_got_option idx rx).

Lemma store_ok idx val rx : rx_ok rx -> rx_ok (store_option idx val rx).
Proof. intros [L1 L2]. split; cbn; by rewrite length_insert. Qed.

Lemma taken_store idx val i rx : rx_ok rx -> 0 <= idx < 10 -> 0 <= i < 10 ->
  taken_option (store_option idx val rx) i = if i =? idx then Some val else taken_option rx i.
Proof.
  intros Hrx Hx Hi. unfold taken_option. change (dhcp_option_given i (store_option idx val rx)) with (dhcp_option_given i (dhcp_got_option idx rx)).
  rewrite given_got by done. unfold dhcp_get_option_value. cbn [store_option dhcp_set_option_value rx_val dhcp_got_option]. rewrite !nth_lookup.
  destruct (Z.eqb_spec i idx) as [->|Hn].
  - destruct Hrx as [L _]. by rewrite list_lookup_insert_eq by (rewrite L; unfold DHCP_OPTION_IDX_MAX; lia).
  - by rewrite list_lookup_insert_ne by lia.
Qed.

Lemma given_taken i rx : dhcp_option_given i rx = bool_decide (is_Some (taken_option rx i)).
Proof. unfold taken_option. destruct (dhcp_option_given i rx); symmetry; [by apply bool_decide_true|by apply bool_decide_false; intros [? ?]]. Qed.

Lemma taken_one fuel dl idx v rx : dl <= 4 -> taken (S fuel) dl idx v rx =
  if dhcp_option_given idx rx then rx else store_option idx (number (take (Z.to_nat dl) v)) rx.
Proof. intros H. cbn [taken]. rewrite (proj2 (Z.ltb_ge 4 dl)) by lia. by rewrite Z.min_l by lia. Qed.

Lemma taken_two fuel idx v rx : rx_ok rx -> 0 <= idx < 9 -> taken (S (S fuel)) 8 idx v rx =
  if dhcp_option_given idx rx then rx
  else let rx' := store_option idx (number (take 4 v)) rx in
    if dhcp_option_given (idx + 1) rx then rx' else store_option (idx + 1) (number (take 4 (drop 4 v))) rx'.
Proof.
  intros Hrx Hi. cbn [taken]. destruct (dhcp_option_given idx rx) eqn:G; [done|]. change (4 <? 8) with true. cbv iota.
  change (Z.to_nat (Z.min 8 4)) with 4%nat. change (8 - 4) with 4. fold (store_option idx (number (take 4 v)) rx).
  change (dhcp_option_given (idx + 1) (store_option idx (number (take 4 v)) rx)) with (dhcp_option_given (idx + 1) (dhcp_got_option idx rx)).
  rewrite given_got by (done || lia). rewrite (proj2 (Z.eqb_neq (idx + 1) idx)) by lia. done.
Qed.


(** The second server is only there after the first. *)
Record table_ok (rx : rx_options) : Prop := {
  to_rx : rx_ok rx;
  to_servers : taken_option rx 8 = None -> taken_option rx 9 = None }.

Lemma second_server rx : table_ok rx -> (if dhcp_option_given 8 rx then taken_option rx 9 else None) = taken_option rx 9.
Proof.
  intros [_ Hs]. rewrite given_taken. case_bool_decide as D; [done|]. symmetry. apply Hs.
  by destruct (taken_option rx 8); [destruct D|].
Qed.

(** The table after an option, or more. *)
Definition combined (rx : rx_options) (l : list item) (i : Z) : option Z :=
  if i =? 9 then (if dhcp_option_given 8 rx then taken_option rx 9 else told l 9)
  else match taken_option rx i with Some x => Some x | None => told l i end.

(** The index an option goes to and the number of its bytes that count. *)
Definition goes_to (c n : Z) : option (Z * Z) :=
  if c =? DHCP_OPTION_SUBNET_MASK then Some (6, 4) else if c =? DHCP_OPTION_ROUTER then Some (7, 4)
  else if c =? DHCP_OPTION_DNS_SERVER then Some (8, Z.min n 8) else if c =? DHCP_OPTION_LEASE_TIME then Some (3, 4)
  else if c =? DHCP_OPTION_OVERLOAD then Some (0, 1) else if c =? DHCP_OPTION_MESSAGE_TYPE then Some (1, 1)
  else if c =? DHCP_OPTION_SERVER_ID then Some (2, 4) else if c =? DHCP_OPTION_T1 then Some (4, 4)
  else if c =? DHCP_OPTION_T2 then Some (5, 4) else None.

Lemma decode_goes c v : item_ok (Opt c v) -> option_decode c (Z.of_nat (length v)) =
  match goes_to c (Z.of_nat (length v)) with Some (idx, dl) => Some (dl, idx) | None => Some (0, -1) end /\
  forall idx dl, goes_to c (Z.of_nat (length v)) = Some (idx, dl) -> 0 <= idx < 9 /\ dl <= Z.of_nat (length v) /\ (dl = 1 \/ dl = 4 \/ dl = 8 /\ idx = 8).
Proof.
  intros (Hc & Hl & _ & Hlen). unfold option_decode, goes_to, length_ok in *.
  rewrite (proj2 (Z.eqb_neq c DHCP_OPTION_PAD)) by (unfold DHCP_OPTION_PAD; lia).
  destruct (Z.eqb_spec c DHCP_OPTION_SUBNET_MASK) as [->|Hm]; cbn in Hlen |- *.
  { rewrite Hlen. apply Z.eqb_eq in Hlen. rewrite Hlen. split; [done|]. intros ? ? [= <- <-]. lia. }
  destruct (Z.eqb_spec c DHCP_OPTION_ROUTER) as [->|Hr]; cbn in Hlen |- *.
  { rewrite Hlen. apply Z.leb_le in Hlen. split; [done|]. intros ? ? [= <- <-]. lia. }
  destruct (Z.eqb_spec c DHCP_OPTION_DNS_SERVER) as [->|Hd]; cbn in Hlen |- *.
  { apply andb_true_iff in Hlen as [H4%Z.leb_le Hmod]. rewrite Hmod. apply Z.eqb_eq in Hmod. rewrite (proj2 (Z.leb_le _ _)) by lia.
    split; [done|]. intros ? ? [= <- <-]. split; [lia|]. split; [lia|]. destruct (decide (8 <= Z.of_nat (length v))); [lia|]. Z.div_mod_to_equations. lia. }
  repeat match goal with |- context [c =? ?x] => destruct (Z.eqb_spec c x) as [->|?]; cbn in Hlen |- * end;
    rewrite ?Hlen; try (apply Z.eqb_eq in Hlen; rewrite Hlen); (split; [done|]); try done; intros ? ? [= <- <-]; lia.
Qed.

Lemma told_one c v i : item_ok (Opt c v) -> 0 <= i < 10 ->
  told [Opt c v] i = match goes_to c (Z.of_nat (length v)) with
    | Some (idx, dl) => if i =? idx then Some (number (take (Z.to_nat (Z.min dl 4)) v))
        else if (i =? 9) && (idx =? 8) && (dl =? 8) then Some (number (take 4 (drop 4 v))) else None
    | None => None end.
Proof.
  intros (Hc & Hl & _ & Hlen) Hi. unfold goes_to, length_ok in *.
  assert (i = 0 \/ i = 1 \/ i = 2 \/ i = 3 \/ i = 4 \/ i = 5 \/ i = 6 \/ i = 7 \/ i = 8 \/ i = 9) as Hcase by lia.
  assert (forall n, length v = n -> take n v = v) as Tk by (intros; rewrite take_ge; [done|lia]).
  destruct (Z.eqb_spec c DHCP_OPTION_SUBNET_MASK) as [->|?]; [|destruct (Z.eqb_spec c DHCP_OPTION_ROUTER) as [->|?];
    [|destruct (Z.eqb_spec c DHCP_OPTION_DNS_SERVER) as [->|?]]]; cbn in Hlen.
  - apply Z.eqb_eq in Hlen. change (Z.to_nat (Z.min 4 4)) with 4%nat. rewrite Tk by lia. by destruct_or? Hcase; subst i.
  - by destruct_or? Hcase; subst i.
  - apply andb_true_iff in Hlen as [H4%Z.leb_le Hmod%Z.eqb_eq]. replace (Z.to_nat (Z.min (Z.min _ 8) 4)) with 4%nat by lia.
    destruct_or? Hcase; subst i; try done. cbn. destruct (decide (length v < 8)%nat).
    + rewrite bool_decide_true by done. by rewrite (proj2 (Z.eqb_neq _ _)) by lia.
    + rewrite bool_decide_false by done. by rewrite (proj2 (Z.eqb_eq _ _)) by lia.
  - unfold told. cbn [first_option].
    repeat match goal with |- context [c =? ?x] => destruct (Z.eqb_spec c x) as [->|?]; cbn in Hlen |- * end;
      try (apply Z.eqb_eq in Hlen); rewrite ?Tk by lia; by destruct_or? Hcase; subst i.
Qed.

Lemma learn_combined rx o : table_ok rx -> item_ok o -> table_ok (learn rx o) /\ forall i, 0 <= i < 10 -> taken_option (learn rx o) i = combined rx [o] i.
Proof.
  intros Hok Ho. pose proof (second_server rx Hok) as H9. destruct Hok as [Hrx Hs]. destruct o as [|c v].
  { split; [by split|]. intros i Hi. unfold combined. cbn [learn].
    assert (told [Pad] i = None /\ told [Pad] 9 = None) as [-> ->].
    { unfold told. cbn [first_option fmap option_fmap option_map mbind option_bind]. split; [|done]. by repeat case_match. }
    destruct (Z.eqb_spec i 9) as [->|]; [done|by destruct (taken_option rx i)]. }
  destruct (decode_goes c v Ho) as [E Hg]. unfold learn. rewrite E. clear E.
  assert (forall i, 0 <= i < 10 -> combined rx [Opt c v] i = if i =? 9 then if dhcp_option_given 8 rx then taken_option rx 9 else told [Opt c v] 9
    else match taken_option rx i with Some x => Some x | None => told [Opt c v] i end) as Hcomb by done.
  destruct (goes_to c (Z.of_nat (length v))) as [[idx dl]|] eqn:G; cbn [fst snd].
  2: { change (0 <? 0) with false. cbv iota. split; [by split|]. intros i Hi. rewrite Hcomb, !told_one, G by (done || lia).
       destruct (Z.eqb_spec i 9) as [->|]; [done|by destruct (taken_option rx i)]. }
  destruct (Hg _ _ eq_refl) as (Hidx & Hdl & Hd). rewrite (proj2 (Z.ltb_lt 0 dl)) by lia.
  assert (forall i, 0 <= i < 10 -> told [Opt c v] i = if i =? idx then Some (number (take (Z.to_nat (Z.min dl 4)) v))
        else if (i =? 9) && (idx =? 8) && (dl =? 8) then Some (number (take 4 (drop 4 v))) else None) as Ht by (intros; by rewrite told_one, G).
  clear Hg G Ho. destruct (decide (dl <= 4)) as [H4|H4].
  - rewrite taken_one by done. rewrite Z.min_l in Ht by lia. destruct (dhcp_option_given idx rx) eqn:Gi.
    + split; [by split|]. intros i Hi. rewrite Hcomb, !Ht by lia.
      destruct (Z.eqb_spec i 9) as [->|]; rewrite given_taken in Gi; apply bool_decide_eq_true in Gi.
      * rewrite (proj2 (Z.eqb_neq 9 idx)) by lia. rewrite (proj2 (Z.eqb_neq dl 8)) by lia. by rewrite andb_false_r.
      * destruct (taken_option rx i) eqn:Ti; [done|]. destruct (Z.eqb_spec i idx) as [->|]; [rewrite Ti in Gi; by destruct Gi|done].
    + rewrite given_taken in Gi. apply bool_decide_eq_false in Gi. assert (taken_option rx idx = None) as Ni by (destruct (taken_option rx idx); [by destruct Gi|done]).
      assert (forall i, 0 <= i < 10 -> taken_option (store_option idx (number (take (Z.to_nat dl) v)) rx) i =
        if i =? idx then Some (number (take (Z.to_nat dl) v)) else taken_option rx i) as Hst by (intros; apply taken_store; done || lia).
      split.
      * split; [by apply store_ok|]. rewrite !Hst by lia. destruct (8 =? idx); [done|]. intros H8. destruct (Z.eqb_spec 9 idx); [lia|by apply Hs].
      * intros i Hi. rewrite Hst, Hcomb, !Ht by lia. destruct (Z.eqb_spec i 9) as [->|].
        -- rewrite (proj2 (Z.eqb_neq 9 idx)) by lia. rewrite (proj2 (Z.eqb_neq dl 8)) by lia. by rewrite andb_false_r.
        -- destruct (Z.eqb_spec i idx) as [->|]; [by rewrite Ni|]. cbn [andb]. by destruct (taken_option rx i).
  - assert (dl = 8 /\ idx = 8) as [-> ->] by lia. rewrite taken_two by (done || lia). change (Z.to_nat (Z.min 8 4)) with 4%nat in Ht.
    rewrite given_taken. case_bool_decide as Gi.
    + split; [by split|]. intros i Hi. rewrite Hcomb, !Ht by lia. rewrite given_taken. rewrite bool_decide_true by done.
      destruct (Z.eqb_spec i 9) as [->|]; [done|]. destruct (taken_option rx i) eqn:Ti; [done|].
      destruct (Z.eqb_spec i 8) as [->|]; [rewrite Ti in Gi; by destruct Gi|done].
    + assert (taken_option rx 8 = None) as N8 by (destruct (taken_option rx 8); [by destruct Gi|done]). pose proof (Hs N8) as N9.
      change (8 + 1) with 9. rewrite (given_taken 9), N9. rewrite bool_decide_false by (intros [? ?]; done). cbv zeta.
      set (r1 := store_option 8 _ rx). assert (rx_ok r1) as Hr1 by (by apply store_ok).
      assert (forall i, 0 <= i < 10 -> taken_option (store_option 9 (number (take 4 (drop 4 v))) r1) i =
        if i =? 9 then Some (number (take 4 (drop 4 v))) else if i =? 8 then Some (number (take 4 v)) else taken_option rx i) as Hst.
      { intros i Hi. rewrite taken_store by (done || lia). destruct (i =? 9); [done|]. unfold r1. by rewrite taken_store by (done || lia). }
      split.
      * split; [by apply store_ok|]. by rewrite !Hst by lia.
      * intros i Hi. rewrite Hst, Hcomb, !Ht by lia. destruct (Z.eqb_spec i 9) as [->|].
        -- rewrite given_taken, N8. rewrite bool_decide_false by (intros [? ?]; done). done.
        -- destruct (Z.eqb_spec i 8) as [->|]; [by rewrite N8|]. cbn [andb]. by destruct (taken_option rx i).
Qed.


Lemma told_cons o l i : 0 <= i < 10 -> item_ok o ->
  told (o :: l) i = if i =? 9 then (match told [o] 8 with Some _ => told [o] 9 | None => told l 9 end) else match told [o] i with Some x => Some x | None => told l i end.
Proof.
  intros Hi Ho. assert (i = 0 \/ i = 1 \/ i = 2 \/ i = 3 \/ i = 4 \/ i = 5 \/ i = 6 \/ i = 7 \/ i = 8 \/ i = 9) as Hcase by lia.
  destruct o as [|c v]; [by destruct_or? Hcase; subst i|].
  destruct_or? Hcase; subst i; unfold told; cbn; repeat case_match; done.
Qed.

(** After all options of a message each index has what the message says. *)
Lemma learn_all items : forall rx, table_ok rx -> Forall item_ok items ->
  table_ok (foldl learn rx items) /\ forall i, 0 <= i < 10 -> taken_option (foldl learn rx items) i = combined rx items i.
Proof.
  induction items as [|o items IH]; intros rx Hok Hit.
  { split; [done|]. intros i Hi. cbn [foldl]. unfold combined. assert (forall j, told [] j = None) as Hn by (intros j; unfold told; by repeat case_match). rewrite !Hn.
    destruct (Z.eqb_spec i 9) as [->|]; [by rewrite (second_server rx Hok)|by destruct (taken_option rx i)]. }
  apply Forall_cons in Hit as [Ho Hit]. destruct (learn_combined rx o Hok Ho) as [Hok1 Hl]. destruct (IH _ Hok1 Hit) as [Hok2 Hr].
  split; [done|]. intros i Hi. cbn [foldl]. rewrite Hr by done. unfold combined at 1. rewrite given_taken, !Hl by lia.
  unfold combined. rewrite !(told_cons o items) by (done || lia). destruct (Z.eqb_spec i 9) as [->|].
  - change (8 =? 9) with false. change (9 =? 9) with true. cbv iota. rewrite given_taken. destruct (taken_option rx 8) eqn:T8.
    + by rewrite !bool_decide_true by by eexists.
    + rewrite (bool_decide_false (is_Some None)) by (intros [? ?]; done). destruct (told [o] 8); [by rewrite bool_decide_true by by eexists|].
      by rewrite bool_decide_false by (intros [? ?]; done).
  - destruct (taken_option rx i); [done|]. by destruct (told [o] i).
Qed.

Lemma cleared_table rx : length (rx_val rx) = DHCP_OPTION_IDX_MAX -> table_ok (dhcp_clear_all_options rx) /\
  forall i, 0 <= i < 10 -> taken_option (dhcp_clear_all_options rx) i = None.
Proof.
  intros L. assert (forall i, 0 <= i < 10 -> taken_option (dhcp_clear_all_options rx) i = None) as H.
  { intros i Hi. unfold taken_option, dhcp_option_given. cbn [dhcp_clear_all_options rx_given]. rewrite nth_lookup.
    by rewrite lookup_replicate_2 by (unfold DHCP_OPTION_IDX_MAX; lia). }
  split; [|done]. split; [by split|]. intros _. by apply H.
Qed.

(** The option is there and is cleared. *)
Lemma clear_overload rx : table_ok rx ->
  table_ok (dhcp_clear_option DHCP_OPTION_IDX_OVERLOAD rx) /\ taken_option (dhcp_clear_option DHCP_OPTION_IDX_OVERLOAD rx) DHCP_OPTION_IDX_OVERLOAD = None.
Proof.
  intros [[L1 L2] H]. assert (forall i, 0 < i < 10 -> taken_option (dhcp_clear_option DHCP_OPTION_IDX_OVERLOAD rx) i = taken_option rx i) as Ht.
  { intros i Hi. unfold taken_option, dhcp_option_given. cbn [dhcp_clear_option rx_given]. rewrite !nth_lookup. unfold DHCP_OPTION_IDX_OVERLOAD.
    by rewrite list_lookup_insert_ne by lia. }
  split; [split; [split; [done|cbn; by rewrite length_insert]|by rewrite !Ht by lia]|].
  unfold taken_option, dhcp_option_given. cbn [dhcp_clear_option rx_given]. rewrite nth_lookup.
  by rewrite list_lookup_insert_eq by (rewrite L2; unfold DHCP_OPTION_IDX_MAX, DHCP_OPTION_IDX_OVERLOAD; lia).
Qed.

Lemma repeated_overload psn rx : table_ok rx -> taken_option rx DHCP_OPTION_IDX_OVERLOAD = Some DHCP_OVERLOAD_FILE ->
  overloaded false psn rx = (true, psn, dhcp_clear_option DHCP_OPTION_IDX_OVERLOAD rx) /\
  table_ok (dhcp_clear_option DHCP_OPTION_IDX_OVERLOAD rx) /\ taken_option (dhcp_clear_option DHCP_OPTION_IDX_OVERLOAD rx) DHCP_OPTION_IDX_OVERLOAD = None.
Proof.
  intros Hok Ht. split; [|by apply clear_overload]. unfold overloaded, taken_option in *.
  destruct (dhcp_option_given DHCP_OPTION_IDX_OVERLOAD rx); [|done]. by injection Ht as ->.
Qed.

(** What a table has after a message, from nothing. *)
Lemma learn_message rx items : length (rx_val rx) = DHCP_OPTION_IDX_MAX -> Forall item_ok items ->
  let rx' := foldl learn (dhcp_clear_all_options rx) items in
  table_ok rx' /\ forall i, 0 <= i < 10 -> taken_option rx' i = told items i.
Proof.
  intros L Hit. destruct (cleared_table rx L) as [Hok Hn]. destruct (learn_all items _ Hok Hit) as [H1 H2]. split; [done|].
  intros i Hi. rewrite H2 by done. unfold combined. rewrite given_taken, !Hn by lia. rewrite bool_decide_false by (intros [? ?]; done).
  by destruct (Z.eqb_spec i 9) as [->|].
Qed.


(** ** Messages *)

(** The options a client sends, after RFC 2131; an address is in memory as it is on
    the wire. *)
Definition parameters : item := Opt DHCP_OPTION_PARAMETER_REQUEST_LIST
  [DHCP_OPTION_SUBNET_MASK; DHCP_OPTION_ROUTER; DHCP_OPTION_BROADCAST; DHCP_OPTION_DNS_SERVER].
Definition message_type (t : Z) : item := Opt DHCP_OPTION_MESSAGE_TYPE [t].
Definition client_options (r : request) (mtu offered server : Z) : list item :=
  let size n := Opt DHCP_OPTION_MAX_MSG_SIZE (be16 n) in
  let address t a := Opt t (bytes32 a) in
  match r with
  | Discover => [message_type DHCP_DISCOVER; size mtu; parameters]
  | Select => [message_type DHCP_REQUEST; size mtu; address DHCP_OPTION_REQUESTED_IP offered; address DHCP_OPTION_SERVER_ID server; parameters]
  | Renew | Rebind => [message_type DHCP_REQUEST; size mtu]
  | Reboot => [message_type DHCP_REQUEST; size 576; address DHCP_OPTION_REQUESTED_IP offered]
  | Decline => [message_type DHCP_DECLINE; address DHCP_OPTION_REQUESTED_IP offered]
  | Release => [message_type DHCP_RELEASE]
  | Inform => [message_type DHCP_INFORM; size mtu]
  end.

(** The options field of a message, to its end. *)
Definition options_field (l : list item) : list Z :=
  let l := enc_items l ++ [DHCP_OPTION_END] in l ++ replicate (Z.to_nat DHCP_OPTIONS_LEN - length l) 0.

Lemma octet_field x k : 0 <= k -> u8 (Z.shiftr (Z.land x (Z.shiftl 0xff k)) k) = x / 2 ^ k mod 256.
Proof.
  intros Hk. unfold u8, wrap. rewrite Z.shiftr_land, Z.shiftr_shiftl_l, Z.sub_diag, Z.shiftl_0_r by lia.
  change 255 with (Z.ones 8). rewrite Z.land_ones, Z.shiftr_div_pow2 by lia. apply Z.mod_mod. done.
Qed.

Lemma octets_be x : octet0 x = x mod 256 /\ octet1 x = x / 256 mod 256 /\ octet2 x = x / 65536 mod 256 /\ octet3 x = x / 16777216 mod 256.
Proof.
  pose proof (octet_field x 0 ltac:(lia)) as E0. rewrite Z.shiftr_0_r, Z.div_1_r in E0.
  split_and!; [exact E0|apply (octet_field x 8); lia|apply (octet_field x 16); lia|apply (octet_field x 24); lia].
Qed.

Lemma octets_address a : in_u 32 a -> [octet3 (Chksum.lwip_ntohl a); octet2 (Chksum.lwip_ntohl a); octet1 (Chksum.lwip_ntohl a); octet0 (Chksum.lwip_ntohl a)] = bytes32 a.
Proof.
  intros Ha. destruct (octets_be (Chksum.lwip_ntohl a)) as (-> & -> & -> & ->). unfold Chksum.lwip_ntohl. rewrite Chksum.htonl_bytes by done.
  unfold in_u in Ha. unfold bytes32.
  pose proof (Z.mod_pos_bound a 256 ltac:(lia)). pose proof (Z.mod_pos_bound (a / 256) 256 ltac:(lia)). pose proof (Z.mod_pos_bound (a / 65536) 256 ltac:(lia)).
  assert (0 <= a / 16777216 < 256) as H3 by (cint_pow; Z.div_mod_to_equations; lia). rewrite (Z.mod_small (a / 16777216)) by lia.
  generalize dependent (a / 16777216). generalize dependent (a / 65536 mod 256). generalize dependent (a / 256 mod 256). generalize dependent (a mod 256). clear Ha a.
  intros a Ha b Hb c Hc d Hd. repeat f_equal; Z.div_mod_to_equations; lia.
Qed.

Lemma octets_size n : in_u 16 n -> [octet1 n; octet0 n] = be16 n.
Proof.
  intros Hn. destruct (octets_be n) as (-> & -> & _). unfold be16, in_u in *. rewrite (Z.mod_small (n / 256)); [done|]. cint_pow. Z.div_mod_to_equations. lia.
Qed.

Lemma be16_octets n : in_u 16 n -> be16 n = [octet1 n; octet0 n].
Proof. intros. by rewrite octets_size. Qed.

Lemma message_run r mtu offered server : in_u 16 mtu -> in_u 32 offered -> in_u 32 server ->
  message_options r mtu offered server = Some (mk_out (options_field (client_options r mtu offered server)) DHCP_OPTIONS_LEN).
Proof.
  intros Hm Ho Hs. unfold client_options. rewrite (be16_octets mtu Hm), (be16_octets 576) by done.
  rewrite <-(octets_address offered Ho), <-(octets_address server Hs).
  unfold message_options, discover_options, select_options, renew_options, rebind_options, reboot_options, decline_options, release_options, inform_options,
    max_msg_size, address_option, dhcp_option_short, dhcp_option_long.
  generalize (octet0 mtu), (octet1 mtu). generalize (octet0 576), (octet1 576).
  generalize (octet0 (Chksum.lwip_ntohl offered)), (octet1 (Chksum.lwip_ntohl offered)), (octet2 (Chksum.lwip_ntohl offered)), (octet3 (Chksum.lwip_ntohl offered)).
  generalize (octet0 (Chksum.lwip_ntohl server)), (octet1 (Chksum.lwip_ntohl server)), (octet2 (Chksum.lwip_ntohl server)), (octet3 (Chksum.lwip_ntohl server)).
  intros. by destruct r; vm_compute.
Qed.


(** ** Correctness *)

(** A message whose fields up to the magic cookie are in the first pbuf. *)
Record reply_in {A} (s : pstate A) (p : Z) (b : pbuf) (l : list (Z * pbuf)) (items : list item) (rest : list Z) : Prop := {
  ri_msg : chain (bufs s) p ((p, b) :: l) 0;
  ri_tot : tot_ok ((p, b) :: l);
  ri_wide : wide l;
  ri_len : DHCP_OPTIONS_OFS < len b;
  ri_items : Forall item_ok items;
  ri_options : drop (Z.to_nat DHCP_OPTIONS_OFS) (contents (bytes s) ((p, b) :: l)) = enc_items items ++ DHCP_OPTION_END :: rest }.

Section Properties.
Context {A W : Type} {ops : alloc_ops A} {laws : alloc_laws A} {lops : link_ops A W} {llaws : link_laws A W}.
Implicit Types s : net A W.

Lemma options_pass s p b l items rest rx : reply_in (ps s) p b l items rest ->
  parse_field p DHCP_OPTIONS_OFS (tot_len b) rx s = Some ((ERR_OK, foldl learn rx items), s).
Proof.
  intros [Hc Ht Hw Hl Hi D]. pose proof Ht as (Htot & _ & _ & Htk). pose proof (contents_length (bytes (ps s)) _ Ht) as HL.
  pose proof (tot_nonneg _ Htk). apply (f_equal length) in D as HD. rewrite length_drop, length_app in HD. cbn [length tot] in HD, HL.
  unfold DHCP_OPTIONS_OFS in *. eapply parse_field_run; [exact Hc|exact Ht|exact Hw|lia|exact Hi|exact D| |right; cbn [tot]; lia]. lia.
Qed.

Lemma parse_reply_run n s p b l items rest rx : reply_in (ps s) p b l items rest ->
  dhcp_parse_reply n p rx s = (x <- parse_again n p DHCP_OPTIONS_OFS (tot_len b) false false (dhcp_clear_all_options rx) ;; ret (x.1, x.2, Some (payload b)))%net s.
Proof.
  intros [Hc _ _ Hl _ _]. pose proof Hc as (_ & _ & E & _). unfold dhcp_parse_reply.
  rewrite (bind_run (the_pbuf p) _ s b s) by (unfold the_pbuf, gets, get; by rewrite E).
  rewrite (proj2 (Z.ltb_ge (len b) DHCP_SNAME_OFS)) by (unfold DHCP_SNAME_OFS, DHCP_OPTIONS_OFS in *; lia). done.
Qed.

Lemma taken_given i x rx : taken_option rx i = Some x -> dhcp_option_given i rx = true /\ dhcp_get_option_value i rx = x.
Proof. unfold taken_option. destruct (dhcp_option_given i rx); [|done]. by intros [= <-]. Qed.

Lemma taken_none i rx : taken_option rx i = None -> dhcp_option_given i rx = false.
Proof. unfold taken_option. by destruct (dhcp_option_given i rx). Qed.

(** C26: [dhcp_parse_reply] takes from the options of RFC 2132 what they say, in whatever
    pbufs they are and wherever they cross from one to the next: the table has the
    number of the first option of each kind, of the first router and of the first two
    servers, and nothing else; no packet is changed.  The reply has no overload
    option: for these see [dhcp_overload_loops]. *)
Theorem dhcp_parse_reply_correct n s p b l items rest rx : reply_in (ps s) p b l items rest ->
  first_option DHCP_OPTION_OVERLOAD items = None -> length (rx_val rx) = DHCP_OPTION_IDX_MAX -> (0 < n)%nat ->
  exists rx', dhcp_parse_reply n p rx s = Some ((ERR_OK, rx', Some (payload b)), s) /\
    rx_ok rx' /\ forall i, 0 <= i < Z.of_nat DHCP_OPTION_IDX_MAX -> taken_option rx' i = told items i.
Proof.
  intros H Ho HL Hn. destruct (learn_message rx items HL (ri_items _ _ _ _ _ _ H)) as [[Hrx _] Hr].
  exists (foldl learn (dhcp_clear_all_options rx) items). split; [|by split]. rewrite (parse_reply_run n s p b l items rest rx H).
  destruct n as [|n]; [lia|]. cbn [parse_again]. unfold bind at 1. rewrite (bind_run _ _ _ _ _ (options_pass s p b l items rest _ H)).
  cbn [fst snd Z.eqb negb ERR_OK]. unfold overloaded.
  rewrite (taken_none DHCP_OPTION_IDX_OVERLOAD); [done|]. rewrite Hr by (unfold DHCP_OPTION_IDX_OVERLOAD; lia).
  unfold told. cbn. by rewrite Ho.
Qed.

(** C27: Whatever the bytes of a message are, the loop over its options field ends, with
    ERR_OK or ERR_VAL, reads only data of the packet and changes nothing. *)
Theorem dhcp_options_total s p b l rx : chain (bufs (ps s)) p ((p, b) :: l) 0 -> tot_ok ((p, b) :: l) -> wide l -> all_pos l ->
  Forall (in_u 8) (contents (bytes (ps s)) ((p, b) :: l)) -> tot_len b < 65000 -> DHCP_OPTIONS_OFS < len b ->
  exists e rx', parse_field p DHCP_OPTIONS_OFS (tot_len b) rx s = Some ((e, rx'), s) /\ (e = ERR_OK \/ e = ERR_VAL).
Proof.
  intros Hc Ht Hw Hp F Hs Hl. unfold DHCP_OPTIONS_OFS in *. pose proof Ht as (Htot & _ & _ & Htk). pose proof (tot_nonneg _ Htk).
  rewrite (parse_field_start s p b l 240 (tot_len b) rx Hc ltac:(lia)). pose proof (eq_sym Htot) as Ett. change (len b + tot l) with (tot ((p, b) :: l)) in Ett.
  rewrite <-Ett. apply parse_total; try done; rewrite ?Ett; lia.
Qed.

(** A round over the file field that says it again. *)
Lemma file_round s p b l items rest fitems frest rx : reply_in (ps s) p b l items rest -> Forall item_ok fitems ->
  drop (Z.to_nat DHCP_FILE_OFS) (contents (bytes (ps s)) ((p, b) :: l)) = enc_items fitems ++ DHCP_OPTION_END :: frest ->
  Z.of_nat (length (enc_items fitems)) < DHCP_FILE_LEN -> first_option DHCP_OPTION_OVERLOAD fitems = Some [DHCP_OVERLOAD_FILE] ->
  table_ok rx -> taken_option rx DHCP_OPTION_IDX_OVERLOAD = Some DHCP_OVERLOAD_FILE ->
  let r := dhcp_clear_option DHCP_OPTION_IDX_OVERLOAD rx in
  overloaded false false rx = (true, false, r) /\
  parse_field p DHCP_FILE_OFS (DHCP_FILE_OFS + DHCP_FILE_LEN) r s = Some ((ERR_OK, foldl learn r fitems), s) /\
  table_ok (foldl learn r fitems) /\ taken_option (foldl learn r fitems) DHCP_OPTION_IDX_OVERLOAD = Some DHCP_OVERLOAD_FILE.
Proof.
  intros [Hc Ht Hw Hl _ _] Hf D Hlen Ho Hok H1 r. unfold DHCP_FILE_OFS, DHCP_FILE_LEN, DHCP_OPTIONS_OFS in *.
  destruct (repeated_overload false rx Hok H1) as (Eo & Hok' & H0). fold r in Eo, Hok', H0.
  destruct (learn_all fitems r Hok' Hf) as [Hok2 Hr]. split; [done|].
  split; [eapply parse_field_run; [exact Hc|exact Ht|exact Hw|lia|exact Hf|exact D|lia|left; lia]|]. split; [done|].
  rewrite Hr by (unfold DHCP_OPTION_IDX_OVERLOAD; lia). unfold combined. rewrite H0. unfold told. cbn. by rewrite Ho.
Qed.

(** C28: A reply that says that its file field has options, which say so again, is parsed
    for ever: every round over the field succeeds and leads to another one. *)
Theorem dhcp_overload_loops n s p b l items rest fitems frest rx : reply_in (ps s) p b l items rest -> Forall item_ok fitems ->
  drop (Z.to_nat DHCP_FILE_OFS) (contents (bytes (ps s)) ((p, b) :: l)) = enc_items fitems ++ DHCP_OPTION_END :: frest ->
  Z.of_nat (length (enc_items fitems)) < DHCP_FILE_LEN -> length (rx_val rx) = DHCP_OPTION_IDX_MAX ->
  first_option DHCP_OPTION_OVERLOAD items = Some [DHCP_OVERLOAD_FILE] -> first_option DHCP_OPTION_OVERLOAD fitems = Some [DHCP_OVERLOAD_FILE] ->
  exists tables : nat -> rx_options,
    parse_field p DHCP_OPTIONS_OFS (tot_len b) (dhcp_clear_all_options rx) s = Some ((ERR_OK, tables O), s) /\
    (forall k, exists r, overloaded false false (tables k) = (true, false, r) /\
       parse_field p DHCP_FILE_OFS (DHCP_FILE_OFS + DHCP_FILE_LEN) r s = Some ((ERR_OK, tables (S k)), s)) /\
    dhcp_parse_reply n p rx s = None.
Proof.
  intros H Hf D Hlen HL Ho Hfo. destruct (learn_message rx items HL (ri_items _ _ _ _ _ _ H)) as [Hok0 Hr0].
  set (t0 := foldl learn _ items) in *. assert (taken_option t0 DHCP_OPTION_IDX_OVERLOAD = Some DHCP_OVERLOAD_FILE) as H0.
  { rewrite Hr0 by (unfold DHCP_OPTION_IDX_OVERLOAD; lia). unfold told. cbn. by rewrite Ho. }
  pose proof (fun x => file_round s p b l items rest fitems frest x H Hf D Hlen Hfo) as Hround. cbv zeta in Hround.
  set (next x := foldl learn (dhcp_clear_option DHCP_OPTION_IDX_OVERLOAD x) fitems) in *.
  assert (forall k, table_ok (Nat.iter k next t0) /\ taken_option (Nat.iter k next t0) DHCP_OPTION_IDX_OVERLOAD = Some DHCP_OVERLOAD_FILE) as Hk.
  { induction k as [|k [IH1 IH2]]; [done|]. cbn [Nat.iter]. destruct (Hround _ IH1 IH2) as (_ & _ & ? & ?). done. }
  exists (fun k => Nat.iter k next t0). split; [by eapply options_pass|]. split.
  { intros k. destruct (Hk k) as [K1 K2]. destruct (Hround _ K1 K2) as (E1 & E2 & _). eexists. split; [exact E1|exact E2]. }
  rewrite (parse_reply_run n s p b l items rest rx H). destruct n as [|n]; [done|]. unfold bind at 1. cbn [parse_again].
  rewrite (bind_run _ _ _ _ _ (options_pass s p b l items rest _ H)). cbn [fst snd Z.eqb negb ERR_OK]. fold t0.
  change t0 with (Nat.iter 0 next t0) at 1. generalize 0%nat as k.
  induction n as [|n IH]; intros k; destruct (Hk k) as [K1 K2]; destruct (Hround _ K1 K2) as (-> & E2 & _); [done|].
  cbn [parse_again]. rewrite (bind_run _ _ _ _ _ E2). cbn [fst snd Z.eqb negb ERR_OK]. apply (IH (S k)).
Qed.

(** An option in the file field whose length goes beyond the packet, in a packet of one
    pbuf: the end of the field is taken from the length of the pbuf in 16 bits, which
    wraps, and the payload of the pbuf at NULL is read. *)
Theorem dhcp_overload_overruns n s p b items rest c k rx : reply_in (ps s) p b [] items rest ->
  length (rx_val rx) = DHCP_OPTION_IDX_MAX -> first_option DHCP_OPTION_OVERLOAD items = Some [DHCP_OVERLOAD_FILE] ->
  contents (bytes (ps s)) [(p, b)] !! 108%nat = Some c -> contents (bytes (ps s)) [(p, b)] !! 109%nat = Some k ->
  0 < c < 255 -> 0 <= k < 256 -> option_decode c k = Some (0, -1) -> len b <= 110 + k ->
  bufs (ps s) !! 0 = None ->      (* NULL is no pbuf *)
  (forall r, parse_field p DHCP_FILE_OFS (DHCP_FILE_OFS + DHCP_FILE_LEN) r s = None) /\ dhcp_parse_reply n p rx s = None.
Proof.
  intros H HL Ho Ec Ek Hc Hk Hd Hle Hnull. pose proof H as [Hch Ht _ Hl _ _]. unfold DHCP_FILE_OFS, DHCP_FILE_LEN, DHCP_OPTIONS_OFS in *.
  pose proof Hch as (_ & Hz & E & Hend). cbn [chain] in Hend. pose proof Ht as (Htot & _ & Htl & _). cbn [tot] in Htot.
  assert (forall r, parse_field p 108 (108 + 128) r s = None) as Hnone.
  { intros r. rewrite (parse_field_start s p b []) by (done || lia). cbn [parse_options].
    rewrite (bind_run (the_pbuf p) _ s b s) by (unfold the_pbuf, gets, get; by rewrite E).
    rewrite (bind_run (byte_of p 108) _ s c s) by (eapply byte_of_run; [exact Hch|lia|exact Ec]).
    rewrite (proj2 (Z.eqb_neq c DHCP_OPTION_END)) by (unfold DHCP_OPTION_END; lia). change (108 <? 108 + 128) with true. cbn [negb orb]. cbv zeta.
    rewrite (proj2 (Z.ltb_lt (108 + 1) (len b))) by lia.
    rewrite (bind_run (byte_of p (108 + 1)) _ s k s) by (eapply byte_of_run; [exact Hch|lia|exact Ek]).
    rewrite (proj2 (Z.eqb_neq c DHCP_OPTION_PAD)) by (unfold DHCP_OPTION_PAD; lia). rewrite Hd. change (0 <? 0) with false. cbv iota.
    rewrite (bind_run (ret (ERR_OK, r)) _ s (ERR_OK, r) s) by done. cbn [fst snd Z.eqb negb ERR_OK].
    rewrite (wrap_id 16 (108 + k + 2)) by (unfold in_u; lia). rewrite (proj2 (Z.leb_le (len b) (108 + k + 2))) by lia.
    rewrite (wrap_id 16 (108 + k + 2 - len b)) by (unfold in_u; lia).
    assert (u16 (108 + 128 - len b) = 65772 - len b) as ->.
    { unfold u16, wrap. rewrite <-(Z.mod_add (108 + 128 - len b) 1) by lia. change (2 ^ 16) with 65536. rewrite Z.mod_small; lia. }
    rewrite (proj2 (Z.ltb_lt _ _)) by lia. rewrite (proj2 (Z.eqb_neq (65772 - len b) 0)) by lia. cbn [negb andb].
    rewrite Hend. unfold bind, the_pbuf, gets, get. by rewrite Hnull. }
  split; [done|]. rewrite (parse_reply_run n s p b [] items rest rx H). destruct n as [|n]; [done|]. unfold bind at 1. cbn [parse_again].
  rewrite (bind_run _ _ _ _ _ (options_pass s p b [] items rest _ H)). cbn [fst snd Z.eqb negb ERR_OK].
  destruct (learn_message rx items HL (ri_items _ _ _ _ _ _ H)) as [Hok Hr].
  destruct (repeated_overload false _ Hok) as (-> & _); [rewrite Hr by (unfold DHCP_OPTION_IDX_OVERLOAD; lia); unfold told; cbn; by rewrite Ho|].
  destruct n as [|n]; [done|]. cbn [parse_again]. unfold bind at 1. by rewrite Hnone.
Qed.

(** The functions that send write exactly the options of RFC 2131 for their message,
    the end mark and padding, within the 68 bytes of the field. *)
Theorem dhcp_options_correct r mtu offered server : in_u 16 mtu -> in_u 32 offered -> in_u 32 server ->
  message_options r mtu offered server = Some (mk_out (options_field (client_options r mtu offered server)) DHCP_OPTIONS_LEN) /\
  length (options_field (client_options r mtu offered server)) = Z.to_nat DHCP_OPTIONS_LEN /\
  Forall item_ok (client_options r mtu offered server).
Proof.
  intros Hm Ho Hs. split; [by apply message_run|]. split; [by destruct r|].
  assert (forall t a, 0 < t < 255 -> in_u 32 a -> length_ok t 4 = true -> item_ok (Opt t (bytes32 a))) as Ha.
  { intros t a Ht Ha Hl. do 2 (split; [done || (cbn; lia)|]). split; [|done]. unfold bytes32. repeat constructor; apply Z.mod_pos_bound; lia. }
  assert (forall n, in_u 16 n -> item_ok (Opt DHCP_OPTION_MAX_MSG_SIZE (be16 n))) as Hb.
  { intros n Hn. do 2 (split; [done || (cbn; lia)|]). split; [|done]. rewrite be16_octets by done.
    destruct (octets_be n) as (-> & -> & _). repeat constructor; apply Z.mod_pos_bound; lia. }
  assert (forall t, in_u 8 t -> item_ok (message_type t)) as Ht.
  { intros t Ht. do 2 (split; [done || (cbn; lia)|]). split; [by apply Forall_singleton|done]. }
  assert (item_ok parameters) as Hp by (do 2 (split; [done || (cbn; lia)|]); split; [do 4 (apply Forall_cons_2; [done|]); apply Forall_nil_2|done]).
  destruct r; unfold client_options; repeat (apply Forall_cons_2; [first [exact Hp|by apply Ht|by apply Hb|by apply Ha]|]); apply Forall_nil_2.
Qed.

End Properties.

(** ** Examples *)

(** Frames of 700 and 340 bytes in pbufs of the pool, with the data [l]. *)
Definition ps_two : Z * pstate lwip_mem := after (0, ps0) (pbuf_alloc PBUF_RAW 700 PBUF_POOL ps0).
Definition ps_one : Z * pstate lwip_mem := after (0, ps0) (pbuf_alloc PBUF_RAW 340 PBUF_POOL ps0).
Definition buf_at (s : pstate lwip_mem) (a : Z) : pbuf := default (mk_pbuf 0 0 0 0 PBUF_RAM 0 0) (bufs s !! a).
Definition two_1 : Z := Eval vm_compute in ps_two.1.
Definition two_b1 : pbuf := Eval vm_compute in buf_at ps_two.2 two_1.
Definition two_2 : Z := Eval vm_compute in next two_b1.
Definition two_b2 : pbuf := Eval vm_compute in buf_at ps_two.2 two_2.
Definition one_1 : Z := Eval vm_compute in ps_one.1.
Definition one_b : pbuf := Eval vm_compute in buf_at ps_one.2 one_1.

Definition two_chain : list (Z * pbuf) := [(two_1, two_b1); (two_2, two_b2)].
Definition net_two (l : list Z) : net lwip_mem wire :=
  let n := Z.to_nat (len two_b1) in
  with_ps (with_bytes (write_bytes (payload two_b2) (drop n l) (write_bytes (payload two_b1) (take n l) (bytes ps_two.2))) ps_two.2) net0.
Definition net_one (l : list Z) : net lwip_mem wire :=
  with_ps (with_bytes (write_bytes (payload one_b) l (bytes ps_one.2)) ps_one.2) net0.

(** An ACK; the servers are in both pbufs. *)
Definition ack : list item :=
  [Opt 53 [5]; Pad; Opt 1 [255; 255; 255; 0]; Opt 51 [0; 1; 81; 128]; Opt 200 (replicate 249 7); Opt 6 [8; 8; 8; 8; 8; 8; 4; 4]; Opt 3 [10; 0; 0; 1]].
Definition no_options : rx_options := mk_rx (replicate 10 0) (replicate 10 0).


Definition ack_text : list Z := replicate 240 0 ++ enc_items ack ++ [DHCP_OPTION_END].

Lemma item_okb l : forallb (fun o => match o with Pad => true | Opt c v => (0 <? c) && (c <? 255) && (length v <? 256)%nat &&
  forallb (fun x => (0 <=? x) && (x <? 256)) v && length_ok c (Z.of_nat (length v)) end) l = true -> Forall item_ok l.
Proof.
  intros H. rewrite forallb_forall in H. apply Forall_forall. intros [|c v] Ho%list_elem_of_In; [done|]. specialize (H _ Ho). cbn beta iota in H.
  repeat (apply andb_true_iff in H as [H ?]). rewrite forallb_forall in *. repeat match goal with H : (_ <? _) = true |- _ => apply Z.ltb_lt in H end.
  match goal with H : (_ <? _)%nat = true |- _ => apply Nat.ltb_lt in H end. split; [lia|]. split; [done|]. split; [|done].
  apply Forall_forall. intros x Hx%list_elem_of_In. match goal with H : forall x, _ -> _ |- _ => apply H in Hx end.
  apply andb_true_iff in Hx as [?%Z.leb_le ?%Z.ltb_lt]. by split.
Qed.

Lemma two_is_chain : chain (bufs ps_two.2) two_1 two_chain 0 /\ tot_ok two_chain.
Proof.
  split; [|by vm_compute]. cbn [chain two_chain]. do 2 (split; [by vm_compute|split; [by vm_compute|split; [by vm_compute|]]]). by vm_compute.
Qed.

Lemma one_is_chain : chain (bufs ps_one.2) one_1 [(one_1, one_b)] 0 /\ tot_ok [(one_1, one_b)] /\ bufs ps_one.2 !! 0 = None.
Proof.
  split; [|split; by vm_compute]. cbn [chain]. do 3 (split; [by vm_compute|]). by vm_compute.
Qed.

(** The data of the two frames. *)
Definition padded (n : nat) (l : list Z) : list Z := l ++ replicate (n - length l) 0.
Definition ack_rest : list Z := replicate (700 - length ack_text) 0.

Lemma ack_message : reply_in (ps (net_two (padded 700 ack_text))) two_1 two_b1 [(two_2, two_b2)] ack ack_rest.
Proof.
  destruct two_is_chain as [Hc Ht]. split; [exact Hc|exact Ht|by constructor|by vm_compute|by apply item_okb; vm_compute|]. vm_compute. reflexivity.
Qed.

Lemma dhcp_parse_reply_correct_witness : exists rx',
  dhcp_parse_reply 1 two_1 no_options (net_two (padded 700 ack_text)) = Some ((ERR_OK, rx', Some (payload two_b1)), net_two (padded 700 ack_text)) /\
  taken_option rx' DHCP_OPTION_IDX_SUBNET_MASK = Some 0xffffff00 /\ taken_option rx' DHCP_OPTION_IDX_DNS_SERVER = Some 0x08080808 /\
  taken_option rx' (DHCP_OPTION_IDX_DNS_SERVER + 1) = Some 0x08080404 /\ taken_option rx' DHCP_OPTION_IDX_T1 = None.
Proof.
  destruct (dhcp_parse_reply_correct 1 _ two_1 two_b1 [(two_2, two_b2)] ack ack_rest no_options ack_message eq_refl eq_refl ltac:(lia)) as (rx' & E & _ & H).
  exists rx'. split; [exact E|]. clear E. split_and!; (rewrite H by (split; [by apply Z.leb_le|by apply Z.ltb_lt])); reflexivity.
Defined.

Lemma noise_bytes : Forall (in_u 8) (contents (bytes (ps (net_two (replicate 700 77)))) [(two_1, two_b1); (two_2, two_b2)]).
Proof.
  assert (contents (bytes (ps (net_two (replicate 700 77)))) [(two_1, two_b1); (two_2, two_b2)] = replicate 700 77) as E by (vm_compute; reflexivity).
  rewrite E. clear E. apply Forall_replicate. by split.
Qed.

Lemma dhcp_options_total_witness : exists e rx',
  parse_field two_1 DHCP_OPTIONS_OFS 700 no_options (net_two (replicate 700 77)) = Some ((e, rx'), net_two (replicate 700 77)) /\ (e = ERR_OK \/ e = ERR_VAL).
Proof.
  destruct two_is_chain as [Hc Ht].
  apply (dhcp_options_total (net_two (replicate 700 77)) two_1 two_b1 [(two_2, two_b2)] no_options); [exact Hc|exact Ht|by constructor| | |by vm_compute|by vm_compute].
  - apply Forall_singleton. by vm_compute.
  - exact noise_bytes.
Defined.

(** An offer that says its file field has options; there is the same again, or a long
    option. *)
Definition overloaded_offer : list item := [Opt 53 [2]; Opt 52 [1]].
Definition again_text : list Z := replicate 108 0 ++ enc_items [Opt 52 [1]] ++ DHCP_OPTION_END :: replicate 128 0 ++ enc_items overloaded_offer ++ [DHCP_OPTION_END].
Definition long_text : list Z := replicate 108 0 ++ [200; 255] ++ replicate 130 0 ++ enc_items overloaded_offer ++ [DHCP_OPTION_END].

Lemma again_message : reply_in (ps (net_one (padded 340 again_text))) one_1 one_b [] overloaded_offer (replicate 93 0).
Proof.
  destruct one_is_chain as (Hc & Ht & _). split; [exact Hc|exact Ht|by constructor|by vm_compute|by apply item_okb; vm_compute|]. vm_compute. reflexivity.
Qed.

Lemma again_file : drop (Z.to_nat DHCP_FILE_OFS) (contents (bytes (ps (net_one (padded 340 again_text)))) [(one_1, one_b)]) =
  enc_items [Opt 52 [1]] ++ DHCP_OPTION_END :: replicate 128 0 ++ enc_items overloaded_offer ++ DHCP_OPTION_END :: replicate 93 0.
Proof. vm_compute. reflexivity. Qed.

Lemma again_items : Forall item_ok [Opt 52 [1]].
Proof. apply item_okb. reflexivity. Qed.

Lemma dhcp_overload_loops_witness : dhcp_parse_reply 100 one_1 no_options (net_one (padded 340 again_text)) = None.
Proof.
  destruct (dhcp_overload_loops 100 _ one_1 one_b [] overloaded_offer (replicate 93 0) [Opt 52 [1]] _ no_options again_message again_items again_file
    eq_refl eq_refl eq_refl eq_refl) as (_ & _ & _ & E). exact E.
Defined.

Lemma long_message : reply_in (ps (net_one (padded 340 long_text))) one_1 one_b [] overloaded_offer (replicate 93 0) /\
  contents (bytes (ps (net_one (padded 340 long_text)))) [(one_1, one_b)] !! 108%nat = Some 200 /\
  contents (bytes (ps (net_one (padded 340 long_text)))) [(one_1, one_b)] !! 109%nat = Some 255.
Proof.
  destruct one_is_chain as (Hc & Ht & _). split; [|split; vm_compute; reflexivity].
  split; [exact Hc|exact Ht|by constructor|by vm_compute|by apply item_okb; vm_compute|]. vm_compute. reflexivity.
Qed.

Lemma dhcp_overload_overruns_witness : dhcp_parse_reply 3 one_1 no_options (net_one (padded 340 long_text)) = None.
Proof.
  destruct long_message as (H & E1 & E2). destruct one_is_chain as (_ & _ & Hz).
  apply (dhcp_overload_overruns 3 (net_one (padded 340 long_text)) one_1 one_b overloaded_offer (replicate 93 0) 200 255 no_options H eq_refl eq_refl E1 E2);
    [by split|by split|reflexivity|by apply Z.leb_le|exact Hz].
Defined.

Lemma dhcp_options_correct_witness : message_options Select 1500 0x0a01a8c0 0x0101a8c0 =
  Some (mk_out (options_field (client_options Select 1500 0x0a01a8c0 0x0101a8c0)) DHCP_OPTIONS_LEN).
Proof. apply dhcp_options_correct; by split. Defined.

End DhcpMsg.
